(* ===== verification/_CoqProject ===== *)
-Q . S2P
Prelude.v
GoStrings.v
Regex.v
Validation.v
Quota.v
SwarmDb.v
Db.v
TeamManager.v
TaskManager.v
SelfHeal.v
Swarm.v
Sandbox.v
Redact.v
Fingerprint.v
DockerRuntime.v
GoFloat.v
Ratings.v
Bip39.v
KeychainCrypto.v
KeychainStore.v
Keychain.v
KeychainSpec.v
KeychainSafety.v
KeychainExamples.v
WebhookQ.v
CrossRepoStore.v
CrossRepo.v
CrossRepoHandler.v
CrossRepoSafety.v
Session.v
Hub.v
HubSafety.v
TeamFormation.v
Complexity.v
BuildStore.v
Probe.v
SandboxHandler.v
SandboxLogic.v
SandboxSafety.v
Http.v
Store.v
PrStore.v
Vcs.v
EngineClient.v
PrSync.v
Pipeline.v
Jwt.v
Api.v
Webhooks.v
StoreSafety.v
Login.v
Server.v
LoginSafety.v
ReviewSafety.v
SyncSafety.v
ServerExamples.v
SwarmAuth.v
SwarmMemory.v
SwarmOffice.v
PrCreator.v
SwarmHandler.v
SwarmTypes.v
Janitor.v
SwarmRoutes.v
SwarmSafety.v
SwarmAccess.v
SwarmPublish.v
Json.v
Vault.v
VaultSafety.v
Mcp.v
McpStore.v
McpService.v
McpHandler.v
McpSafety.v
McpLimits.v
Llm.v
LlmSafety.v
LlmClients.v
LlmLeaks.v
