(* ===== verification/Prelude.v ===== *)
(** * RTVortex Go server: verification library

    RTVortex is a code-review system: a Go server ([src/mono/server-go]) in front of a
    C++ engine and a swarm of Python agents.  This library models parts of the Go
    server, file by file, and proves what makes them correct.  Paths below are
    relative to [src/mono/server-go/internal].

    ** Parts and how they interact

    - Requests of the public API are checked by [validation] and, per organisation and
      plan, by the [quota] enforcer.
    - The swarm controller ([swarm]) keeps tasks, teams and agents in PostgreSQL.
      [task_manager.go] takes a task from the Redis stream, assigns it to an idle team
      of [team_manager.go], watches time-outs and heartbeats, and completes, fails and
      retries tasks.  [self_heal.go] runs beside it: circuit breakers for the
      model providers, and recovery of stuck tasks.
    - The build sandbox ([sandbox]) runs the build of a task in a container.
      [handler.go] is the HTTP layer: it skips builds that need none
      ([skip.go]), prepares the workspace, applies the limits, recognises unchanged
      dependencies ([fingerprint.go]), resolves secrets, runs the container through the
      [ContainerRuntime] interface ([sandbox.go], [executor.go]), redacts the logs
      ([redact.go]), scores the build ([complexity.go]) and records it ([store.go],
      [audit.go]).
    - The keychain ([vault/keychain]) keeps every user's secrets in PostgreSQL under two
      layers of keys; the sandbox asks it for the secrets of a build.
    - The public server ([server], [api]) signs users in with OAuth, gives them tokens
      ([auth], [session], [crypto]), and keeps users, organisations, repositories, reviews
      and pull requests ([model], [store]).  A webhook of a source host ([vcs]) or a user
      starts a review ([review]): the pull request is fetched, the engine ([engine]) gives
      its context, a language model comments.  A worker ([prsync]) keeps track of open pull
      requests and has the engine embed them.
    - Users connect tools of other services ([mcp]), which agents call for them; a registry
      of language models ([llm]) serves reviews, agents and users.
    - Repositories of an organisation can be linked ([crossrepo]): a review then sees code of
      the linked ones that its user may use.
    - Failed webhook reviews are queued ([webhookq]); progress goes to browsers over
      websockets ([ws]).

    ** Files

    Foundations:
    - Prelude.v: results, 64-bit integers, tactics, lemmas on lists.
    - GoStrings.v: Go's [strings], [path], [unicode/utf8], [fmt] and
      [time.Duration.String] on byte strings.  GoFloat.v: Go's [float64].
    - Regex.v: anchored regular expressions by derivatives, for the validators; the
      search-and-replace engine of [regexp] is in Redact.v.

    API checks:
    - Validation.v ([validation/validation.go]): the field validators and every
      [Validate] method, named [CreateOrg_Validate] and so on.
    - Quota.v ([quota/enforcer.go]): [CheckReviewQuota], [CheckRepoQuota],
      [CheckMemberQuota], [IncrementUsage] on the three tables the queries read.

    Swarm controller:
    - SwarmDb.v: the tables as finite maps, the trace of commands to Redis and the hub,
      the monad [M] with a list of statement failures, and its Hoare triples.
    - TeamManager.v, TaskManager.v, SelfHeal.v: one definition per method, with the
      method's name.  The mutex of the team manager makes each method one step; the
      breakers release theirs between sections, so SelfHeal.v also has every critical
      section as a step of the relation [sh_step].
    - SwarmAuth.v ([swarm/auth]): tokens of agents in Redis.  SwarmMemory.v
      ([memory_hitl.go], [memory_insights.go]): what agents store and recall.
    - SwarmOffice.v: tables, tokens, memory, ratings and background work of the swarm as
      one state, with the parts lifted to it.  PrCreator.v ([pr_creator.go]),
      SwarmHandler.v ([handler.go] and the handlers beside it), Janitor.v ([janitor.go]).
    - SwarmRoutes.v ([server.go]): the routes with their guards, and the swarm as a
      sequence of registrations, requests, jobs and passes of its loops ([SwarmStep]).
    - SwarmTypes.v, SwarmSafety.v: the invariant of all of these.  SwarmAccess.v: who is let
      in.  SwarmPublish.v: what becomes of approved diffs, and a concrete swarm with the
      witnesses and the examples.
    - Swarm.v: all operations as the type [swarm_op] and the invariants of any sequence.
    - Ratings.v ([elo.go], [elo_auto_tier.go], [role_elo.go]): Elo scores and tiers of
      agents and roles, on tables and a monad [E] of their own; [on_ratings] puts the
      columns back into the rows of the agents.

    Keychain:
    - Db.v: the monad [DB T] of code that runs statements on the tables [T], any of which
      may fail, with its triples; used by the components that follow.
    - Bip39.v, KeychainCrypto.v ([crypto.go], [recovery.go], [bip39_wordlist.go]): keys,
      wrapping and recovery phrases over abstract primitives.
    - KeychainStore.v ([store.go]), Keychain.v ([service.go], [migrate.go]): the tables and
      the service.  The cached keys are shared places that an eviction wipes.
    - KeychainSpec.v: the refinement of a finite map.  KeychainSafety.v: recovery,
      rotation, merging and synchronisation.  KeychainExamples.v: a concrete choice of
      primitives, the witnesses, and the examples of lost secrets.

    Build sandbox:
    - Sandbox.v ([build_system.go], [skip.go], [cache.go], [sandbox.go], the generator
      of [plan.go], the limits of [handler.go]), Redact.v, Fingerprint.v,
      DockerRuntime.v ([executor.go], [artifacts.go]), Complexity.v, Probe.v (the probe
      of [plan.go]): functions on values.
    - BuildStore.v ([store.go], [audit.go]): tables and statements, and the monad [H] of
      the handlers, which adds the early return with a response.
    - SandboxHandler.v ([handler.go]): every handler.  The blocks of
      [HandleResolveAndExecute] are definitions of their own ([skip_build],
      [with_workspace], [configure_plan], [fingerprint_stage], [secrets_stage],
      [run_stage], [finish_stage]), composed in its order.  [ContainerRuntime] is a
      class and [RuntimeContract] what the handlers rely on; the Docker runtime
      satisfies it.
    - SandboxLogic.v: triples for [H] with a postcondition for responses, invariants and
      the shape of requests.  SandboxSafety.v: the theorems about requests.

    Server:
    - Http.v: responses and early returns of handlers.  Store.v and PrStore.v: the rows and
      statements of [model] and [store], one definition per method, with the constraints of
      the schema; StoreSafety.v: what every statement keeps.
    - Vcs.v, EngineClient.v: the clients of hosts and of the engine.  PrSync.v, Pipeline.v:
      the worker and the review.  Jwt.v, Session.v, Login.v: tokens, sessions and rate
      limits, the endpoints of [/auth].  Api.v, Webhooks.v: the handlers.
    - Server.v: the routes of all of these with their middleware ([serve]), and the server as
      a sequence of requests, background reviews and cycles of the worker ([Step]).
    - StoreSafety.v, LoginSafety.v, ReviewSafety.v, SyncSafety.v: the theorems.  Db.v: runs in which no statement fails.  ServerExamples.v: a concrete server, the
      witnesses and the examples.

    Around it:
    - WebhookQ.v ([webhookq/delivery.go]): the queue and its worker.
    - CrossRepoStore.v, CrossRepo.v, CrossRepoHandler.v ([crossrepo]): links, the authoriser,
      search, graph and enricher, the endpoints; CrossRepoSafety.v: the theorems, a concrete
      observatory and its examples.
    - Hub.v ([ws/hub.go]): the goroutines of the hub as a state machine; HubSafety.v.
    - TeamFormation.v ([swarm/team_formation.go]): roles for a plan, on Ratings.v.
    - Json.v: the documents of [encoding/json], written and read.
    - Vault.v ([vault]): the encrypted file of secrets, the view that a user has of it, and the
      adapters to the keychain.  The class [KeepsSecrets] says what a store promises to those
      that use it; VaultSafety.v shows it of the file and of the keychain.
    - Mcp.v ([mcp/provider.go], [mcp/custom.go]), McpStore.v ([store/mcp_repo.go]),
      McpService.v ([mcp/service.go]), McpHandler.v ([server/mcp_handler.go],
      [swarm/mcp_handler.go]): tools of other services that agents call with the tokens of
      users.  McpSafety.v: whose tokens; McpLimits.v: connections, limits, a concrete state with
      the witnesses, and the examples.
    - Llm.v ([llm/provider.go], [swarm/llm_proxy.go], endpoints of [api], the start in
      [cmd/rtvortex-server/main.go]): the registry of language models, which all users share, on
      any clients (the class [Clients]).  LlmClients.v ([llm/openai.go], [grok.go],
      [anthropic.go], [gemini.go], [ollama.go]): the five clients over HTTP, an instance of it.
      LlmSafety.v: theorems for any clients and any stores; LlmLeaks.v: theorems about these
      clients, and about the registry with them.

    ** What the theorems show

    - Any sequence of requests, background reviews and cycles of the worker, whatever
      statements fail, keeps the tables well formed ([tables_well_formed]): the values the
      handlers see to (roles, hosts, plans, statuses, severities), and keys, references,
      uniqueness and sizes of columns; [usage_daily], which nothing of these writes, is not
      spoken of.
    - Tokens are given only to the user whom a provider vouches for after a stored state, or
      to the user of a refresh token ([tokens_are_earned]), mean what they say until they
      expire, with texts that are not UTF-8 as JSON writes them ([token_pair_roundtrip]), and never make an administrator ([no_token_is_admin]);
      tokens at rest are read back ([Encrypt_roundtrip]); users of X share an account
      ([x_users_share_account]).
    - A webhook starts a review only of a registered repository and only with its secret
      ([webhook_reviews_signed]), and that review is never created
      ([webhook_reviews_never_run]).  A review that is started ends, and fails exactly if the
      pull request or its diff cannot be fetched or no model is configured for files that are
      left ([Execute_concludes]).
    - The worker lists all repositories ([listAllRepos_complete]), keeps an embedding until
      the head moves ([Upsert_keeps_embedding]) and settles what it embeds
      ([embedPR_settles]).
    - Deliveries of the queue are settled in bounded time ([deliveries_settle]) and are well
      formed in every reachable state ([queue_reachable_ok]).
    - The engine is asked only about repositories the user may use, but for the manifest of
      the repository of the path, which nobody checks
      ([engine_calls_permitted], [Authorize_spec]); links change only by managers
      ([links_change_authorized]).
    - The rate limiter allows no more than its limit in any window ([rate_limit_holds]).
    - A subscriber gets what was published on its topic ([subscribers_get_their_topic]) and
      the hub does not panic while it runs and departures follow arrivals
      ([hub_never_panics]).
    - Teams for a plan do not depend on ratings ([RecommendTeam_ignores_ratings]); what was
      recommended is read back ([recommend_then_get]).

    - Whatever registrations, requests, jobs and loops of the swarm run in whatever order,
      its rows keep their types, references and bounds ([swarm_stays_typed]).  A token of
      an agent passes exactly while it is the agent's last one ([agent_tokens_are_current]);
      who registers is let in ([registered_agent_passes]), who ends a task is locked out
      if the subject of their token is spelt canonically ([finished_task_locks_team_out]), who has it cancelled is not
      ([cancelled_team_keeps_tokens]).  No approved diff is ever published
      by the job that is to do so ([swarm_never_publishes]): its task ends failed ([approved_task_ends_failed]).  Rows of
      the memory mix observations ([insight_mixes_observations]), and every appearance of a
      provider counts as a win ([provider_wins_are_appearances]).
    - The managers keep references between rows and the bound on retries through any
      sequence of operations with any failing statements ([swarm_references_ok],
      [swarm_retries_bounded]); the cap on teams holds under stated conditions
      ([team_steps_under_cap]); a stream message assigns at most one live task to one
      idle team ([handle_message_may_assign]) and is acknowledged unless it has to wait
      ([handle_message_acks]); time-outs, retries, failure and completion do what they
      say on every branch ([checkTimeouts_spec], [RetryTask_spec], [FailTask_spec],
      [CompleteTask_spec], [detectStuckTasks_spec]).
    - The circuit breakers keep their invariant under every interleaving
      ([sh_steps_ok]) of the critical sections that the methods consist of
      ([sh_op_interleaves]), open exactly after five failures in a row
      ([available_iff_no_five_failures]) and recover after three successes
      ([half_open_recovery]).
    - Ratings keep every role above the floor, and so out of the restricted tier
      ([role_table_invariant]); a review gives every agent the tier of its score
      ([reviewTiers_spec]); the reward ignores failed signals
      ([composite_auto_all_or_nothing]).
    - The keychain, whatever it is asked in whatever order, is a map from names to values
      ([keychain_refines_map]); the phrase given out at initialisation recovers the master
      key, right after it and while no statement fails ([recovery_roundtrip]), recovery leaves the tables as they were
      ([recovery_never_rewraps]), rotation invalidates the phrase until it is set again
      ([rotate_then_refresh]); merging is a join of versions ([merge_is_a_join]) and
      synchronisation tells a client what changed ([sync_diff_spec]).
    - No request leaves a container behind ([no_container_outlives]), none leaves a
      build running ([no_build_left_running]), retries are bounded
      ([retries_bounded]); an executed plan respects the limits and holds only secrets
      of its request ([executed_plan_checked]), as the program reads its limits, not as docker
      does; logs are redacted before they are
      returned or stored ([resolve_execute_redacts]).
    - Building blocks: limits, skip rules, redaction, fingerprints, docker arguments,
      workspace paths, artifacts, probe, validation, quotas, resource hints.
    - The file of secrets, seen by each user, is a map of their own
      ([file_vault_refines_map]), while nothing fails and it is opened with one key.
    - A call of a tool carries a token that was issued to the owner of the connection for that
      service ([calls_carry_own_tokens]); a connection that is no longer active stays so until it
      is deleted ([inactive_until_deleted]); in a batch no more calls succeed than the limit of
      the task leaves ([batch_within_limit]).
    - A language model is only asked with a key that somebody gave for it, whatever requests,
      stores and failures ([keys_are_supplied]); [Complete] asks the usable ones in their order,
      each once, until one answers ([Complete_fails_over]); the budget of thinking keeps its
      bounds ([anthropic_budget_bounds]).  But any user can have the next key of a provider sent
      elsewhere ([base_url_captures_keys]), read the key of Gemini ([gemini_key_extracted]), take
      providers out of the order for good ([primary_switches_lose_fallbacks]) and stop the server
      ([any_user_stops_the_server]).
    - Examples ([Example]) record where the code does something else than it means to:
      a stuck task whose reason is NULL, secrets leaked by a retry, a build left running
      when its log is cut inside a character, a workspace path that climbs out, decay
      that is taken again in every pass, secrets of a build lost by a rotation, keys wiped
      while another goroutine uses them.

    ** Bounds and fuel

    Loops over lists are structural.  Fuel is used where the code consumes a string and
    is the length of that string, which every turn shortens: [trim_seqs], [split_on] (one
    more than the length), the replacement loop and the star of the matcher in Redact.v.
    [prepend_digits] has 20 turns, more than the 19 digits of a 64-bit integer
    ([parse_intToStr] shows it is enough).  [int] and [int64] are [Z] with [wrap64] where
    the code can overflow; durations are nanoseconds.  [float64] operations round after
    every operation, as on amd64; other targets may fuse them.

    ** Parameters

    Code outside the repository is a class or an argument: the order of database rows and
    of map iteration ([RowOrder]), texts and generation of UUIDs ([UuidText], [GenUUID]),
    Unicode tables ([UnicodeTables], [FoldTables]), SHA-256 ([Digest]), behaviour of the
    database driver ([Driver]), the columns of the database and the texts it accepts
    ([Schema], [Postgres]), [math.Pow] ([MathPow]), running docker ([DockerHost]), the
    container runtime ([ContainerRuntime]), AES-GCM, HKDF, Argon2 and HMAC ([Primitives]),
    the random source ([Entropy]), the order of texts in the database ([Collation]) and its
    addresses ([Inet]), the executor of queued reviews ([ReviewExecutor]), the engine
    ([Engine], [EngineStub]), hosts and vault ([Platform], [HostWrites], [VaultReader]), signatures of
    webhooks and their payloads ([WebhookMac], [WebhookJson]), signed tokens ([Jwt], [AgentJwt]), answers
    of the model in a review and their decoding ([Model], [ReviewJson]), URLs ([UrlParse], [UrlScheme],
    [UrlHost]), the OAuth providers ([OAuthProvider], [OAuth2]), the HTTP client ([HttpClient]) and
    the printing of floats ([FloatText]).  The clock, fresh identifiers, answers of Redis and failures of
    the file system are arguments of the operations.  The keychain is two functions of
    the [Handler] record of the sandbox.

    ** Not modelled

    HTTP decoding and JSON encoding (bodies are given decoded, responses are values),
    metrics and log lines, the wall clock between two statements of one handler,
    concurrency of requests other than the breakers' sections (so a tick of the refresh of
    tokens is one step of McpService.v), a failing [docker rm], redirects of the HTTP client, reading of process
    output, tar and gzip streams, zeroing of memory.  In [task_manager.go] the
    refresh of metrics is left out.  Prompts, the section of linked
    repositories in them, the providers of OAuth other than X, the clients of the source hosts,
    the 22 built-in tools of [mcp/providers] and the endpoints of settings, chat, assets,
    embeddings and benchmarks are left out.  So are probe tuning, CI signals, observability,
    notifications, the bus and the content sanitiser of the swarm, which is an argument of Llm.v,
    and the models that Ollama runs. *)

From stdpp Require Import base list gmap strings pretty.
From Stdlib Require Import ZArith Lia.

Declare Scope rtv_scope.
Delimit Scope rtv_scope with rtv.

(** ** Go results *)

(** A Go function that returns [(T, error)]: either the value or the error. *)
Inductive result (A E : Type) : Type :=
| Ok (a : A)
| Err (e : E).
Arguments Ok {A E} a.
Arguments Err {A E} e.

(** [uuid.UUID]: a 128-bit identifier. *)
Notation UUID := N (only parsing).

(** ** 64-bit signed integers (Go [int] and [int64]) *)

(** Two's complement wrap-around of an integer result. *)
Definition wrap64 (z : Z) : Z :=
  ((z + 2 ^ 63) mod 2 ^ 64 - 2 ^ 63)%Z.

Definition in_int64 (z : Z) : Prop := (- 2 ^ 63 <= z < 2 ^ 63)%Z.

(** ** Tactics *)

(** Split every boolean conjunction, disjunction and test of the context and
    of the goal into propositions. *)
Ltac bool_to_prop :=
  repeat match goal with
  | H : (_ && _)%bool = true |- _ => apply andb_prop in H; destruct H
  | H : (_ || _)%bool = false |- _ => apply orb_false_elim in H; destruct H
  | H : (_ || _)%bool = true |- _ => apply orb_prop in H
  | H : negb _ = true |- _ => apply negb_true_iff in H
  | H : negb _ = false |- _ => apply negb_false_iff in H
  | H : (_ <=? _)%Z = true |- _ => apply Z.leb_le in H
  | H : (_ <=? _)%Z = false |- _ => apply Z.leb_gt in H
  | H : (_ <? _)%Z = true |- _ => apply Z.ltb_lt in H
  | H : (_ <? _)%Z = false |- _ => apply Z.ltb_ge in H
  | H : (_ =? _)%Z = true |- _ => apply Z.eqb_eq in H
  | H : (_ =? _)%Z = false |- _ => apply Z.eqb_neq in H
  | H : (_ <=? _)%nat = true |- _ => apply Nat.leb_le in H
  | H : (_ <=? _)%nat = false |- _ => apply Nat.leb_gt in H
  | H : (_ <? _)%nat = true |- _ => apply Nat.ltb_lt in H
  | H : (_ <? _)%nat = false |- _ => apply Nat.ltb_ge in H
  end.

(** Case analysis on the conditions and matches of the goal, keeping the
    equations. *)
Ltac case_if :=
  match goal with
  | |- context [if ?b then _ else _] => destruct b eqn:?
  | |- context [match ?x with _ => _ end] => destruct x eqn:?
  end.

Ltac cases := repeat (case_if; simplify_eq/=; try done).

(** ** Integers *)

Lemma wrap64_id z : in_int64 z -> wrap64 z = z.
Proof. unfold in_int64, wrap64. intros ?. rewrite Z.mod_small; lia. Qed.

Lemma wrap64_range z : in_int64 (wrap64 z).
Proof.
  unfold in_int64, wrap64.
  pose proof (Z.mod_pos_bound (z + 2 ^ 63) (2 ^ 64) ltac:(lia)). lia.
Qed.

(** ** Lists *)

Section lists.
Context {A : Type}.
Implicit Types (l : list A) (f : A -> bool).

Lemma forallb_app f l1 l2 : forallb f (l1 ++ l2) = forallb f l1 && forallb f l2.
Proof. induction l1 as [|x l1 IH]; simpl; [done|]. by rewrite IH, andb_assoc. Qed.

Lemma forallb_elem_of f l : forallb f l = true <-> (forall x, x ∈ l -> f x = true).
Proof.
  rewrite forallb_forall. split; intros H x Hx; apply H; by apply list_elem_of_In.
Qed.

Lemma existsb_elem_of f l : existsb f l = true <-> (exists x, x ∈ l /\ f x = true).
Proof.
  rewrite existsb_exists.
  split; intros (x & Hx & Hf); exists x; (split; [by apply list_elem_of_In|done]).
Qed.
End lists.

Create HintDb rtv discriminated.
Create Rewrite HintDb rtv.
#[export] Hint Resolve wrap64_range : rtv.
#[export] Hint Rewrite wrap64_id using (unfold in_int64 in *; lia) : rtv.
