(* ===== verification/GoStrings.v ===== *)
(** * Go strings, [path] and UTF-8

    The functions of Go's [strings], [path], [unicode/utf8] and [fmt] packages
    that the server uses, on byte strings ([String.string] is a list of bytes,
    as a Go string is).  [strings.ToLower]/[ToUpper] on a string with a
    non-ASCII byte use the Unicode tables of the runtime, which are the fields
    of the class [UnicodeTables]. *)

From Stdlib Require Import ZArith Lia Ascii String.
From stdpp Require Import base list gmap strings pretty sorting.
From S2P Require Import Prelude.
Local Open Scope string_scope.
#[global] Arguments String.append : simpl nomatch.

(** ** Bytes *)

Definition byte_of (a : ascii) : N := N_of_ascii a.

(** [lo <= c && c <= hi] on bytes. *)
Definition in_range (lo hi : N) (a : ascii) : bool :=
  (lo <=? byte_of a)%N && (byte_of a <=? hi)%N.

Definition is_upper (a : ascii) : bool := in_range 65 90 a.
Definition is_lower (a : ascii) : bool := in_range 97 122 a.
Definition is_digit (a : ascii) : bool := in_range 48 57 a.
Definition is_ascii (a : ascii) : bool := (byte_of a <? 128)%N.

Definition lower_byte (a : ascii) : ascii :=
  if is_upper a then ascii_of_N (byte_of a + 32) else a.
Definition upper_byte (a : ascii) : ascii :=
  if is_lower a then ascii_of_N (byte_of a - 32) else a.

(** ** Strings as byte sequences *)

Definition bytes (s : string) : list ascii := list_ascii_of_string s.

Fixpoint string_map (f : ascii -> ascii) (s : string) : string :=
  match s with
  | EmptyString => EmptyString
  | String a s => String (f a) (string_map f s)
  end.

Definition all_ascii (s : string) : bool := forallb is_ascii (bytes s).

(** The runtime's case tables for strings with a non-ASCII rune. *)
Class UnicodeTables := {
  unicode_to_lower : string -> string;
  unicode_to_upper : string -> string
}.

(** [strings.ToLower], [strings.ToUpper]: byte-wise on ASCII strings. *)
Definition ToLower `{UnicodeTables} (s : string) : string :=
  if all_ascii s then string_map lower_byte s else unicode_to_lower s.
Definition ToUpper `{UnicodeTables} (s : string) : string :=
  if all_ascii s then string_map upper_byte s else unicode_to_upper s.

(** [strings.HasPrefix], [strings.HasSuffix]. *)
Fixpoint HasPrefix (s p : string) : bool :=
  match p, s with
  | EmptyString, _ => true
  | String b p, String a s => Ascii.eqb a b && HasPrefix s p
  | String _ _, EmptyString => false
  end.

Definition string_rev (s : string) : string :=
  string_of_list_ascii (rev (bytes s)).

Definition HasSuffix (s p : string) : bool :=
  HasPrefix (string_rev s) (string_rev p).

(** [strings.Index]: offset of the first occurrence. *)
Fixpoint Index (s sub : string) : option nat :=
  if HasPrefix s sub then Some 0
  else match s with
       | EmptyString => None
       | String _ s' => S <$> Index s' sub
       end.

(** [strings.Contains]. *)
Definition Contains (s sub : string) : bool :=
  match Index s sub with Some _ => true | None => false end.

(** The slices [s[n:]] and [s[:n]] for [n <= len(s)]. *)
Fixpoint str_drop (n : nat) (s : string) : string :=
  match n, s with
  | S n, String _ s => str_drop n s
  | _, _ => s
  end.
Fixpoint str_take (n : nat) (s : string) : string :=
  match n, s with
  | S n, String a s => String a (str_take n s)
  | _, _ => EmptyString
  end.

(** [strings.Split(s, sep)] for a one-byte separator. *)
Fixpoint split_byte (c : ascii) (s : string) : list string :=
  match s with
  | EmptyString => [""]
  | String a s =>
      if Ascii.eqb a c then "" :: split_byte c s
      else match split_byte c s with
           | [] => [String a ""]
           | w :: ws => String a w :: ws
           end
  end.

(** Cut a string at the first byte [c]. *)
Fixpoint cut_byte (c : ascii) (s : string) : option (string * string) :=
  match s with
  | EmptyString => None
  | String a s =>
      if Ascii.eqb a c then Some (EmptyString, s)
      else match cut_byte c s with
           | Some (u, v) => Some (String a u, v)
           | None => None
           end
  end.

(** [strings.SplitN(s, sep, n)] for a one-byte separator. *)
Fixpoint splitn_byte (c : ascii) (n : nat) (s : string) : list string :=
  match n with
  | 0 => []
  | 1 => [s]
  | S n' => match cut_byte c s with
            | None => [s]
            | Some (u, v) => u :: splitn_byte c n' v
            end
  end.

(** [strings.Join]. *)
Fixpoint Join (ws : list string) (sep : string) : string :=
  match ws with
  | [] => ""
  | [w] => w
  | w :: ws => w ++ sep ++ Join ws sep
  end.

(** [strings.Split(s, sep)] for a non-empty separator; every round removes at
    least one byte, so the length of [s] is fuel enough. *)
Fixpoint split_on (fuel : nat) (s sep : string) : list string :=
  match fuel with
  | 0 => [s]
  | S fuel =>
      match Index s sep with
      | None => [s]
      | Some n => str_take n s :: split_on fuel (str_drop (n + String.length sep) s) sep
      end
  end.
Definition Split (s sep : string) : list string := split_on (S (String.length s)) s sep.

(** [strings.ReplaceAll(s, old, new)] for a non-empty [old]. *)
Definition ReplaceAll (s old new : string) : string := Join (Split s old) new.

(** [strings.Repeat] *)
Fixpoint Repeat (s : string) (n : nat) : string :=
  match n with 0 => "" | S n => s ++ Repeat s n end.

(** The longest prefix whose bytes satisfy [f], and the rest. *)
Fixpoint take_while (f : ascii -> bool) (s : string) : string :=
  match s with
  | String a s => if f a then String a (take_while f s) else EmptyString
  | EmptyString => EmptyString
  end.
Fixpoint drop_while (f : ascii -> bool) (s : string) : string :=
  match s with
  | String a s' => if f a then drop_while f s' else s
  | EmptyString => EmptyString
  end.

(** [strings.TrimLeft(s, cutset)] for an ASCII cutset. *)
Definition TrimLeft (s cutset : string) : string :=
  drop_while (fun a => existsb (Ascii.eqb a) (bytes cutset)) s.

(** ** White space *)

Definition chr (n : N) : ascii := ascii_of_N n.
Definition str1 (n : N) : string := String (chr n) EmptyString.
Definition str2 (m n : N) : string := String (chr m) (str1 n).
Definition str3 (l m n : N) : string := String (chr l) (str2 m n).

(** The UTF-8 encodings of the runes for which [unicode.IsSpace] holds. *)
Definition space_runes : list string :=
  (str1 <$> [9; 10; 11; 12; 13; 32]%N)
  ++ (str2 194 <$> [133; 160]%N)
  ++ [str3 225 154 128]
  ++ (str3 226 128 <$> [128; 129; 130; 131; 132; 133; 134; 135; 136; 137;
                        138; 168; 169; 175]%N)
  ++ [str3 226 129 159; str3 227 128 128].

(** Drop leading members of [seqs]; one step per byte is enough. *)
Fixpoint trim_seqs (seqs : list string) (fuel : nat) (s : string) : string :=
  match fuel with
  | 0 => s
  | S fuel =>
      match find (HasPrefix s) seqs with
      | Some w => trim_seqs seqs fuel (str_drop (String.length w) s)
      | None => s
      end
  end.

(** [strings.TrimSpace]. *)
Definition TrimLeftSpace (s : string) : string :=
  trim_seqs space_runes (String.length s) s.
Definition TrimRightSpace (s : string) : string :=
  string_rev (trim_seqs (string_rev <$> space_runes) (String.length s) (string_rev s)).
Definition TrimSpace (s : string) : string := TrimRightSpace (TrimLeftSpace s).

(** [strings.Fields]: the runs of bytes between white space.  [w] is the word
    being read; a rune of [space_runes] of [k] bytes skips [k - 1] more. *)
Fixpoint fields_from (skip : nat) (w : string) (s : string) : list string :=
  let flush := if String.eqb w "" then [] else [w] in
  match s with
  | EmptyString => flush
  | String a s' =>
      match skip with
      | S k => fields_from k w s'
      | 0 =>
          match find (HasPrefix s) space_runes with
          | Some r => (flush ++ fields_from (pred (String.length r)) "" s')%list
          | None => fields_from 0 (w ++ String a "") s'
          end
      end
  end.
Definition Fields (s : string) : list string := fields_from 0 "" s.

(** ** [utf8.RuneCountInString] *)

Definition cont (a : ascii) : bool := in_range 128 191 a.

(** Width of the first rune of [String a s]; an invalid byte has width one. *)
Definition rune_width (a : ascii) (s : string) : nat :=
  match s with
  | String b s1 =>
      if in_range 194 223 a && cont b then 2 else
      match s1 with
      | String c s2 =>
          let lead3 :=
            (in_range 224 224 a && in_range 160 191 b)
            || (in_range 237 237 a && in_range 128 159 b)
            || ((in_range 225 236 a || in_range 238 239 a) && cont b) in
          if lead3 && cont c then 3 else
          match s2 with
          | String d _ =>
              let lead4 :=
                (in_range 240 240 a && in_range 144 191 b)
                || (in_range 241 243 a && cont b)
                || (in_range 244 244 a && in_range 128 143 b) in
              if lead4 && cont c && cont d then 4 else 1
          | EmptyString => 1
          end
      | EmptyString => 1
      end
  | EmptyString => 1
  end.

(** Well-formed UTF-8 ([utf8.ValidString]); [skip] counts the bytes left of the current rune. *)
Fixpoint utf8_valid (skip : nat) (s : string) : bool :=
  match s with
  | EmptyString => Nat.eqb skip 0
  | String a s =>
      match skip with
      | S skip => utf8_valid skip s
      | O => if is_ascii a then utf8_valid 0 s
             else let n := rune_width a s in
                  if Nat.eqb n 1 then false else utf8_valid (n - 1) s
      end
  end.

(** [skip] counts the bytes left of the current rune. *)
Fixpoint rune_count_from (skip : nat) (s : string) : nat :=
  match s with
  | EmptyString => 0
  | String a s =>
      match skip with
      | S k => rune_count_from k s
      | 0 => S (rune_count_from (pred (rune_width a s)) s)
      end
  end.
Definition RuneCountInString (s : string) : nat := rune_count_from 0 s.

(** [strings.Map] for a mapping that takes every rune of two or more bytes, and
    every invalid byte, to [other], and an ASCII byte [a] to [f a]. *)
Fixpoint map_runes_from (skip : nat) (f : ascii -> ascii) (other : ascii) (s : string)
    : string :=
  match s with
  | EmptyString => EmptyString
  | String a s =>
      match skip with
      | S k => map_runes_from k f other s
      | 0 => String (if is_ascii a then f a else other)
               (map_runes_from (pred (rune_width a s)) f other s)
      end
  end.
Definition map_runes := map_runes_from 0.

(** ** [strconv.Atoi] *)

Fixpoint digits_value (acc : Z) (s : string) : option Z :=
  match s with
  | EmptyString => Some acc
  | String c s =>
      if is_digit c then digits_value (acc * 10 + (Z.of_N (byte_of c) - 48))%Z s else None
  end.

Definition Atoi (s : string) : option Z :=
  let '(negative, digits) :=
    match s with
    | String "-" s => (true, s)
    | String "+" s => (false, s)
    | _ => (false, s)
    end in
  match digits with
  | EmptyString => None
  | _ =>
      n ← digits_value 0 digits;
      let z := (if negative : bool then - n else n)%Z in
      if ((- 2 ^ 63 <=? z) && (z <? 2 ^ 63))%Z then Some z else None
  end.

(** ** [path.Base], [path.Ext] *)

Definition slash : ascii := "/"%char.
Definition dot : ascii := "."%char.

(** The part of [s] after its last slash (all of [s] without one). *)
Definition after_last_slash (s : string) : string :=
  string_rev (take_while (fun a => negb (Ascii.eqb a slash)) (string_rev s)).

(** [path.Base]. *)
Definition Base (p : string) : string :=
  if String.eqb p "" then "."
  else
    let q := string_rev (drop_while (fun a => Ascii.eqb a slash) (string_rev p)) in
    let r := after_last_slash q in
    if String.eqb r "" then "/" else r.

(** Scan backwards for a dot before any slash: [path.Ext] (the loop the
    server repeats in [formationFileExtension] and [extensionOf]).  [acc] is
    the text scanned so far, [r] the reversed rest. *)
Fixpoint ext_scan (r : string) (acc : string) : string :=
  match r with
  | EmptyString => ""
  | String a r =>
      if Ascii.eqb a dot then String a acc
      else if Ascii.eqb a slash then ""
      else ext_scan r (String a acc)
  end.
Definition Ext (p : string) : string := ext_scan (string_rev p) "".

(** ** [fmt.Sprintf("%d", n)] *)

Definition itoa (n : Z) : string := pretty n.

(** ** [time.Duration.String] *)

(** The digits of [n < 10 ^ prec] after the point, without trailing zeros. *)
Fixpoint frac_digits (prec : nat) (n : Z) : string :=
  match prec with
  | O => ""
  | S p =>
      if (n =? 0)%Z then ""
      else itoa (n / 10 ^ Z.of_nat p) ++ frac_digits p (n mod 10 ^ Z.of_nat p)
  end.

Definition with_frac (prec : nat) (n : Z) : string :=
  let f := frac_digits prec (n mod 10 ^ Z.of_nat prec) in
  itoa (n / 10 ^ Z.of_nat prec) ++ (if String.eqb f "" then "" else "." ++ f).

Definition DurationString (d : Z) : string :=
  let u := Z.abs d in
  let text :=
    if (u <? 1000)%Z then itoa u ++ "ns"
    else if (u <? 1000000)%Z then with_frac 3 u ++ "µs"
    else if (u <? 1000000000)%Z then with_frac 6 u ++ "ms"
    else
      let secs := (u / 1000000000)%Z in
      (if (3600 <=? secs)%Z then itoa (secs / 3600) ++ "h" else "")
      ++ (if (60 <=? secs)%Z then itoa (secs / 60 mod 60) ++ "m" else "")
      ++ with_frac 9 (secs mod 60 * 1000000000 + u mod 1000000000) ++ "s" in
  if (d =? 0)%Z then "0s" else if (d <? 0)%Z then "-" ++ text else text.

(** [sort.Strings]: byte-wise lexicographic order. *)
Definition sort_strings (l : list string) : list string := merge_sort String.le l.

(** ** Lemmas *)

Lemma bytes_app s t : bytes (s ++ t) = (bytes s ++ bytes t)%list.
Proof. unfold bytes. induction s as [|a s IH]; simpl; [done|]. by rewrite IH. Qed.

Lemma bytes_inj s t : bytes s = bytes t -> s = t.
Proof.
  intros H. unfold bytes in H.
  by rewrite <- (string_of_list_ascii_of_string s), H, string_of_list_ascii_of_string.
Qed.

Lemma bytes_rev s : bytes (string_rev s) = rev (bytes s).
Proof. unfold string_rev, bytes. by rewrite list_ascii_of_string_of_list_ascii. Qed.

Lemma length_bytes s : length (bytes s) = String.length s.
Proof. unfold bytes. induction s; simpl; congruence. Qed.

Lemma string_app_nil_r (s : string) : s ++ "" = s.
Proof. induction s; simpl; congruence. Qed.

Lemma string_app_assoc (s t u : string) : (s ++ t) ++ u = s ++ (t ++ u).
Proof. induction s; simpl; congruence. Qed.

Lemma string_app_length (s t : string) :
  String.length (s ++ t) = String.length s + String.length t.
Proof. induction s; simpl; congruence. Qed.

Lemma string_rev_rev s : string_rev (string_rev s) = s.
Proof. apply bytes_inj. by rewrite !bytes_rev, rev_involutive. Qed.

Lemma string_rev_length s : String.length (string_rev s) = String.length s.
Proof. by rewrite <- !length_bytes, bytes_rev, length_rev. Qed.

Lemma string_rev_app s t : string_rev (s ++ t) = string_rev t ++ string_rev s.
Proof. apply bytes_inj. by rewrite bytes_app, !bytes_rev, bytes_app, rev_app_distr. Qed.

(** [HasPrefix] and [HasSuffix] decide the existence of the rest. *)
Lemma HasPrefix_spec s p : HasPrefix s p = true <-> exists t, s = p ++ t.
Proof.
  revert s. induction p as [|b p IH]; intros s; simpl.
  - destruct s; split; eauto.
  - destruct s as [|a s]; simpl.
    + split; [done|]. by intros [t ?].
    + rewrite andb_true_iff, Ascii.eqb_eq, IH. split.
      * intros [-> [t ->]]. eauto.
      * intros [t [= -> ->]]. eauto.
Qed.

#[local] Arguments HasPrefix : simpl never.

Lemma HasPrefix_refl s t : HasPrefix (s ++ t) s = true.
Proof. apply HasPrefix_spec. eauto. Qed.

Lemma HasSuffix_spec s p : HasSuffix s p = true <-> exists t, s = t ++ p.
Proof.
  unfold HasSuffix. rewrite HasPrefix_spec. split.
  - intros [t Ht]. exists (string_rev t).
    by rewrite <- (string_rev_rev s), Ht, string_rev_app, string_rev_rev.
  - intros [t ->]. exists (string_rev t). by rewrite string_rev_app.
Qed.

Lemma str_take_length n s : String.length (str_take n s) = Nat.min n (String.length s).
Proof. revert s. induction n as [|n IH]; intros [|a s]; simpl; try done. by rewrite IH. Qed.

Lemma str_take_drop n s : str_take n s ++ str_drop n s = s.
Proof. revert s. induction n; intros [|a s]; simpl; congruence. Qed.

Lemma Index_spec s sub n :
  Index s sub = Some n -> exists u v, s = u ++ sub ++ v /\ String.length u = n.
Proof.
  revert n. induction s as [|a s IH]; intros n; simpl.
  - destruct (HasPrefix "" sub) eqn:E; [|done]. intros [= <-].
    apply HasPrefix_spec in E as [t E]. by exists "", t.
  - destruct (HasPrefix (String a s) sub) eqn:E.
    + intros [= <-]. apply HasPrefix_spec in E as [t E]. exists "", t. split; [exact E|done].
    + destruct (Index s sub) as [m|] eqn:Em; [|done]. intros [= <-].
      destruct (IH m eq_refl) as (u & v & -> & <-). exists (String a u), v. done.
Qed.

Lemma Index_app u sub v : is_Some (Index (u ++ sub ++ v) sub).
Proof.
  induction u as [|a u [n IH]].
  - pose proof (HasPrefix_refl sub v) as H. change ("" ++ ?x) with x.
    destruct (sub ++ v); simpl; rewrite H; eauto.
  - simpl. case_match; [eauto|]. rewrite IH. simpl. eauto.
Qed.

Lemma Contains_spec s sub : Contains s sub = true <-> exists u v, s = u ++ sub ++ v.
Proof.
  unfold Contains. split.
  - destruct (Index s sub) eqn:E; [|done]. intros _.
    apply Index_spec in E as (u & v & -> & _). eauto.
  - intros (u & v & ->). by destruct (Index_app u sub v) as [n ->].
Qed.

Lemma cut_byte_spec c s u v :
  cut_byte c s = Some (u, v) -> s = u ++ String c v.
Proof.
  revert u. induction s as [|a s IH]; intros u; simpl; [done|].
  destruct (Ascii.eqb_spec a c) as [->|]; [by intros [= <- <-]|].
  destruct (cut_byte c s) as [[u' v']|]; [|done]. intros [= <- <-]. simpl. by rewrite (IH u').
Qed.

(** Splitting loses nothing. *)
Lemma splitn_byte_join c n s :
  n <> 0 -> Join (splitn_byte c n s) (String c "") = s.
Proof.
  revert s. induction n as [|n IH]; intros s Hn; [done|].
  destruct n as [|n]; [done|].
  change (splitn_byte c (S (S n)) s) with
    (match cut_byte c s with None => [s] | Some (u, v) => u :: splitn_byte c (S n) v end).
  destruct (cut_byte c s) as [[u v]|] eqn:E; [|done].
  apply cut_byte_spec in E as ->. specialize (IH v ltac:(done)).
  destruct (splitn_byte c (S n) v) eqn:E2; simpl in *; [|by rewrite IH].
  by destruct n as [|n]; simpl in E2; [|destruct (cut_byte c v) as [[]|]].
Qed.

Lemma str_drop_app u v : str_drop (String.length u) (u ++ v) = v.
Proof. induction u; simpl; [by destruct v|done]. Qed.

Lemma str_take_app u v : str_take (String.length u) (u ++ v) = u.
Proof. induction u; simpl; congruence. Qed.

Lemma str_drop_plus n m s : str_drop (n + m) s = str_drop m (str_drop n s).
Proof. revert s. induction n; intros [|a s]; simpl; try done. by destruct m. Qed.

(** The first occurrence: nothing before it contains [sub]. *)
Lemma Index_first s sub n :
  sub <> "" -> Index s sub = Some n -> Contains (str_take n s) sub = false.
Proof.
  intros Hne. revert n. induction s as [|a s IH]; intros n; simpl.
  - case_match; [|done]. intros [= <-]. by destruct sub.
  - destruct (HasPrefix (String a s) sub) eqn:E.
    + intros [= <-]. by destruct sub.
    + destruct (Index s sub) as [m|] eqn:Em; [|done]. intros [= <-]. simpl.
      specialize (IH m eq_refl). unfold Contains in *. simpl.
      destruct (HasPrefix (String a (str_take m s)) sub) eqn:E'; [|].
      * apply HasPrefix_spec in E' as [t Et].
        assert (HasPrefix (String a s) sub = true); [|congruence]. apply HasPrefix_spec.
        exists (t ++ str_drop m s). rewrite <- string_app_assoc, <- Et. simpl.
        by rewrite str_take_drop.
      * by destruct (Index (str_take m s) sub).
Qed.

(** Splitting loses nothing, and no piece holds the separator. *)
Lemma split_on_join fuel s sep : Join (split_on fuel s sep) sep = s.
Proof.
  revert s. induction fuel as [|fuel IH]; intros s; simpl; [done|].
  destruct (Index s sep) as [n|] eqn:E; [|done].
  specialize (IH (str_drop (n + String.length sep) s)).
  assert (str_take n s ++ sep ++ str_drop (n + String.length sep) s = s) as Hs.
  { apply Index_spec in E as (u & v & -> & <-).
    by rewrite str_take_app, str_drop_plus, str_drop_app, str_drop_app. }
  destruct (split_on fuel _ sep) as [|w ws] eqn:Ew; [by destruct fuel; simpl in Ew;
    [|destruct (Index _ sep)]|].
  change (str_take n s ++ sep ++ Join (w :: ws) sep = s). by rewrite IH.
Qed.

Lemma split_on_pieces fuel s sep w :
  sep <> "" -> (String.length s < fuel)%nat -> w ∈ split_on fuel s sep ->
  Contains w sep = false.
Proof.
  intros Hne. revert s. induction fuel as [|fuel IH]; intros s Hf; [lia|]. simpl.
  destruct (Index s sep) as [n|] eqn:E.
  - intros [->|Hw]%elem_of_cons; [by apply Index_first|].
    apply (IH (str_drop (n + String.length sep) s)); [|done].
    apply Index_spec in E as (u & v & -> & <-).
    rewrite str_drop_plus, str_drop_app, str_drop_app, !string_app_length in *.
    destruct sep; [done|simpl in *; lia].
  - intros ->%list_elem_of_singleton. unfold Contains. by rewrite E.
Qed.

Lemma Split_join s sep : Join (Split s sep) sep = s.
Proof. apply split_on_join. Qed.
Lemma Split_pieces s sep w : sep <> "" -> w ∈ Split s sep -> Contains w sep = false.
Proof. intros Hne. apply split_on_pieces; [done|lia]. Qed.

(** Trimming leaves a string alone whose ends are no white space. *)
Definition not_first (seqs : list string) (a : ascii) : bool :=
  forallb (fun w => match w with String b _ => negb (Ascii.eqb a b) | _ => false end) seqs.

Lemma trim_seqs_noop seqs fuel a s :
  not_first seqs a = true -> trim_seqs seqs fuel (String a s) = String a s.
Proof.
  intros Hs. destruct fuel as [|fuel]; simpl; [done|].
  assert (find (HasPrefix (String a s)) seqs = None) as ->; [|done].
  induction seqs as [|w seqs IH]; simpl in *; [done|].
  apply andb_prop in Hs as [Hw Hs]. destruct w as [|b w]; [done|].
  apply negb_true_iff in Hw.
  change (HasPrefix (String a s) (String b w)) with (Ascii.eqb a b && HasPrefix s w).
  rewrite Hw. auto.
Qed.

Lemma TrimSpace_noop s a b u v :
  s = String a u -> s = v ++ String b "" ->
  not_first space_runes a = true -> not_first (string_rev <$> space_runes) b = true ->
  TrimSpace s = s.
Proof.
  intros Ha Hb Hna Hnb. unfold TrimSpace, TrimLeftSpace, TrimRightSpace.
  rewrite Ha, trim_seqs_noop, <- Ha by done. rewrite Hb at 2. rewrite string_rev_app.
  change (string_rev (String b "") ++ string_rev v) with (String b (string_rev v)).
  rewrite trim_seqs_noop by done.
  change (String b (string_rev v)) with (string_rev (String b "") ++ string_rev v).
  by rewrite <- string_rev_app, string_rev_rev, <- Hb.
Qed.

Lemma rune_width_pos a s : 1 <= rune_width a s.
Proof. unfold rune_width. cases; lia. Qed.

Lemma rune_count_from_le k s : rune_count_from k s <= String.length s.
Proof.
  revert k. induction s as [|a s IH]; intros [|k]; simpl; [lia..| |].
  - specialize (IH (pred (rune_width a s))). lia.
  - specialize (IH k). lia.
Qed.

(** A rune takes at least one byte. *)
Lemma RuneCount_le_length s : RuneCountInString s <= String.length s.
Proof. apply rune_count_from_le. Qed.

Lemma RuneCount_zero s : RuneCountInString s = 0 <-> s = "".
Proof. destruct s; simpl; split; done. Qed.

Lemma is_ascii_width a s : is_ascii a = true -> rune_width a s = 1.
Proof.
  unfold is_ascii, rune_width, in_range. intros Ha%N.ltb_lt.
  assert (forall n, (128 <= n)%N -> (n <=? byte_of a)%N = false) as Hn.
  { intros n ?. apply N.leb_gt. lia. }
  rewrite !Hn by lia. by repeat case_match.
Qed.

(** On ASCII text the rune count is the byte count. *)
Lemma RuneCount_ascii s : all_ascii s = true -> RuneCountInString s = String.length s.
Proof.
  unfold all_ascii, RuneCountInString. induction s as [|a s IH]; simpl; [done|].
  intros [Ha Hs]%andb_prop. rewrite is_ascii_width by done. simpl. by rewrite IH.
Qed.

Lemma ext_scan_app r acc e :
  ext_scan r acc = e -> e <> "" -> exists u, string_rev r ++ acc = u ++ e.
Proof.
  revert acc. induction r as [|a r IH]; intros acc; simpl; [by intros <-|].
  assert (string_rev (String a r) = string_rev r ++ String a "") as Hr.
  { apply (string_rev_app (String a "") r). }
  destruct (Ascii.eqb_spec a dot) as [->|].
  - intros <- _. exists (string_rev r). by rewrite Hr, string_app_assoc.
  - destruct (Ascii.eqb_spec a slash) as [->|]; [by intros <-|].
    intros He Hne. destruct (IH _ He Hne) as [u Hu]. exists u.
    by rewrite Hr, string_app_assoc.
Qed.

(** The extension is a suffix of the path. *)
Lemma Ext_suffix p : HasSuffix p (Ext p) = true.
Proof.
  apply HasSuffix_spec. destruct (decide (Ext p = "")) as [->|Hne].
  - exists p. by rewrite string_app_nil_r.
  - destruct (ext_scan_app (string_rev p) "" (Ext p) eq_refl Hne) as [u Hu].
    exists u. by rewrite string_rev_rev, string_app_nil_r in Hu.
Qed.

#[export] Hint Rewrite string_app_nil_r string_app_assoc string_rev_rev
  string_rev_app bytes_app : rtv.
#[export] Hint Resolve HasPrefix_refl Ext_suffix RuneCount_le_length : rtv.

Lemma sort_strings_perm l1 l2 : l1 ≡ₚ l2 -> sort_strings l1 = sort_strings l2.
Proof.
  intros Hp. unfold sort_strings. apply (Sorted_unique String.le).
  - apply Sorted_merge_sort, _.
  - apply Sorted_merge_sort, _.
  - by rewrite !merge_sort_Permutation.
Qed.

Example durations :
  map DurationString [0; 1500; 1500000000; 600000000000; 3723004000000; -1]%Z =
  ["0s"; "1.5µs"; "1.5s"; "10m0s"; "1h2m3.004s"; "-1ns"].
Proof. vm_compute. reflexivity. Qed.
