(* ===== verification/Regex.v ===== *)
(** * Anchored regular expressions

    Go's [regexp] as the validators use it: patterns of the form [^...$]
    matched against the whole text.  The matcher takes Brzozowski derivatives;
    [matches_spec] relates it to the language the pattern denotes. *)

From Stdlib Require Import ZArith Lia Ascii String.
From stdpp Require Import base list gmap strings.
From S2P Require Import Prelude GoStrings.
Local Open Scope list_scope.

(** ** Syntax and matcher *)

Inductive regex : Type :=
| RNone
| REps
| RClass (f : ascii -> bool)
| RCat (r1 r2 : regex)
| RAlt (r1 r2 : regex)
| RStar (r : regex).

Fixpoint nullable (r : regex) : bool :=
  match r with
  | RNone | RClass _ => false
  | REps | RStar _ => true
  | RCat r1 r2 => nullable r1 && nullable r2
  | RAlt r1 r2 => nullable r1 || nullable r2
  end.

(** Unions and concatenations with [RNone] are dropped, so that the
    derivatives of a pattern stay small. *)
Definition ralt (r1 r2 : regex) : regex :=
  match r1, r2 with
  | RNone, r | r, RNone => r
  | _, _ => RAlt r1 r2
  end.
Definition rcat (r1 r2 : regex) : regex :=
  match r1, r2 with
  | RNone, _ | _, RNone => RNone
  | REps, r => r
  | _, _ => RCat r1 r2
  end.

Fixpoint deriv (a : ascii) (r : regex) : regex :=
  match r with
  | RNone | REps => RNone
  | RClass f => if f a then REps else RNone
  | RCat r1 r2 =>
      if nullable r1 then ralt (rcat (deriv a r1) r2) (deriv a r2)
      else rcat (deriv a r1) r2
  | RAlt r1 r2 => ralt (deriv a r1) (deriv a r2)
  | RStar r => rcat (deriv a r) (RStar r)
  end.

Definition matches (r : regex) (w : list ascii) : bool :=
  nullable (fold_left (fun r a => deriv a r) w r).

(** [regexp.MustCompile("^r$").MatchString(s)]. *)
Definition MatchString (r : regex) (s : string) : bool := matches r (bytes s).

(** ** Derived forms *)

Definition RChar (a : ascii) : regex := RClass (Ascii.eqb a).
Definition RPlus (r : regex) : regex := RCat r (RStar r).
Definition ROpt (r : regex) : regex := RAlt REps r.
Fixpoint RString (w : list ascii) : regex :=
  match w with
  | [] => REps
  | a :: w => RCat (RChar a) (RString w)
  end.
Definition RLit (s : string) : regex := RString (bytes s).
Fixpoint RAltAll (rs : list regex) : regex :=
  match rs with
  | [] => RNone
  | [r] => r
  | r :: rs => RAlt r (RAltAll rs)
  end.

(** ** Denotation *)

Inductive lang : regex -> list ascii -> Prop :=
| lang_eps : lang REps []
| lang_class f a : f a = true -> lang (RClass f) [a]
| lang_cat r1 r2 w1 w2 : lang r1 w1 -> lang r2 w2 -> lang (RCat r1 r2) (w1 ++ w2)
| lang_alt_l r1 r2 w : lang r1 w -> lang (RAlt r1 r2) w
| lang_alt_r r1 r2 w : lang r2 w -> lang (RAlt r1 r2) w
| lang_star_nil r : lang (RStar r) []
| lang_star_app r w1 w2 : lang r w1 -> lang (RStar r) w2 -> lang (RStar r) (w1 ++ w2).

Create HintDb regex discriminated.
#[export] Hint Constructors lang : regex.

(** ** Inversion of the denotation *)

Lemma lang_none_inv w : ~ lang RNone w.
Proof. by inversion 1. Qed.

Lemma lang_eps_inv w : lang REps w <-> w = [].
Proof. split; [by inversion 1|intros ->; constructor]. Qed.

Lemma lang_class_inv f w : lang (RClass f) w <-> exists a, w = [a] /\ f a = true.
Proof. split; [inversion 1; eauto|intros (a & -> & ?); by constructor]. Qed.

Lemma lang_cat_inv r1 r2 w :
  lang (RCat r1 r2) w <-> exists w1 w2, w = w1 ++ w2 /\ lang r1 w1 /\ lang r2 w2.
Proof. split; [inversion 1; subst; eauto 6|intros (w1 & w2 & -> & ? & ?); by constructor]. Qed.

Lemma lang_alt_inv r1 r2 w : lang (RAlt r1 r2) w <-> lang r1 w \/ lang r2 w.
Proof. split; [inversion 1; eauto|intros [?|?]; auto with regex]. Qed.

(** A word of a starred pattern is a concatenation of words of the pattern. *)
Lemma lang_star_inv r w :
  lang (RStar r) w <-> exists ws, w = concat ws /\ Forall (lang r) ws.
Proof.
  split.
  - remember (RStar r) as s. induction 1 as [| | | | |r'|r' w1 w2 H1 _ H2 IH]; simplify_eq.
    + by exists [].
    + destruct (IH eq_refl) as (ws & -> & ?). exists (w1 :: ws). auto.
  - intros (ws & -> & Hws). induction Hws; simpl; auto with regex.
Qed.

Lemma lang_star_cons_inv r a w :
  lang (RStar r) (a :: w) <->
  exists w1 w2, w = w1 ++ w2 /\ lang r (a :: w1) /\ lang (RStar r) w2.
Proof.
  split.
  - remember (RStar r) as s. remember (a :: w) as v.
    induction 1 as [| | | | |r'|r' w1 w2 H1 _ H2 IH]; simplify_eq.
    destruct w1 as [|b w1]; simplify_eq/=; [by apply IH|]. eauto 6.
  - intros (w1 & w2 & -> & H1 & H2). rewrite app_comm_cons. by constructor.
Qed.

(** ** Correctness of the matcher *)

Lemma lang_ralt r1 r2 w : lang (ralt r1 r2) w <-> lang (RAlt r1 r2) w.
Proof.
  rewrite lang_alt_inv. pose proof (lang_none_inv w).
  destruct r1, r2; simpl; rewrite ?lang_alt_inv; tauto.
Qed.

Lemma lang_cat_none_l r w : lang (RCat RNone r) w <-> lang RNone w.
Proof. rewrite lang_cat_inv. split; [|inversion 1]. intros (? & ? & _ & H & _). inversion H. Qed.

Lemma lang_cat_none_r r w : lang (RCat r RNone) w <-> lang RNone w.
Proof. rewrite lang_cat_inv. split; [|inversion 1]. intros (? & ? & _ & _ & H). inversion H. Qed.

Lemma lang_cat_eps_l r w : lang (RCat REps r) w <-> lang r w.
Proof.
  rewrite lang_cat_inv. split.
  - intros (w1 & w2 & -> & Hw & H). apply lang_eps_inv in Hw as ->. done.
  - intros H. exists [], w. auto with regex.
Qed.

Lemma lang_rcat r1 r2 w : lang (rcat r1 r2) w <-> lang (RCat r1 r2) w.
Proof.
  destruct r1, r2; simpl;
    rewrite ?lang_cat_none_l, ?lang_cat_none_r, ?lang_cat_eps_l; done.
Qed.

Lemma nullable_spec r : nullable r = true <-> lang r [].
Proof.
  induction r; simpl.
  - split; [done|inversion 1].
  - split; auto with regex.
  - rewrite lang_class_inv. split; [done|naive_solver].
  - rewrite andb_true_iff, IHr1, IHr2, lang_cat_inv. split.
    + intros []. by exists [], [].
    + intros (w1 & w2 & [-> ->]%symmetry%app_nil & ? & ?). done.
  - by rewrite orb_true_iff, IHr1, IHr2, lang_alt_inv.
  - split; auto with regex.
Qed.

Lemma deriv_spec a r w : lang (deriv a r) w <-> lang r (a :: w).
Proof.
  revert w. induction r as [| |f|r1 IH1 r2 IH2|r1 IH1 r2 IH2|r IH]; intros w; simpl.
  - split; inversion 1.
  - split; inversion 1.
  - rewrite lang_class_inv. destruct (f a) eqn:E; split.
    + intros ->%lang_eps_inv. eauto.
    + intros (b & Hb & _). injection Hb as -> ->. constructor.
    + inversion 1.
    + intros (b & Hb & ?). congruence.
  - assert (lang (rcat (deriv a r1) r2) w <->
            exists w1 w2, w = w1 ++ w2 /\ lang r1 (a :: w1) /\ lang r2 w2) as Hcat.
    { rewrite lang_rcat, lang_cat_inv. by setoid_rewrite IH1. }
    rewrite lang_cat_inv. destruct (nullable r1) eqn:En.
    + rewrite lang_ralt, lang_alt_inv, Hcat, IH2. apply nullable_spec in En. split.
      * intros [(w1 & w2 & -> & ? & ?)|?]; [by exists (a :: w1), w2|by exists [], (a :: w)].
      * intros ([|b w1] & w2 & Hw & ? & ?); simplify_eq/=; [by right|left; eauto].
    + rewrite Hcat. split.
      * intros (w1 & w2 & -> & ? & ?). by exists (a :: w1), w2.
      * intros ([|b w1] & w2 & Hw & H1 & ?); simplify_eq/=; [|eauto].
        apply nullable_spec in H1. congruence.
  - by rewrite lang_ralt, !lang_alt_inv, IH1, IH2.
  - rewrite lang_rcat, lang_cat_inv, lang_star_cons_inv. by setoid_rewrite IH.
Qed.

(** The matcher decides the language of the pattern. *)
Lemma matches_spec r w : matches r w = true <-> lang r w.
Proof.
  unfold matches. revert r. induction w as [|a w IH]; intros r; simpl.
  - apply nullable_spec.
  - by rewrite IH, deriv_spec.
Qed.

Lemma MatchString_spec r s : MatchString r s = true <-> lang r (bytes s).
Proof. apply matches_spec. Qed.

(** ** Languages of the derived forms *)

Lemma lang_lit s w : lang (RLit s) w <-> w = bytes s.
Proof.
  unfold RLit. generalize (bytes s) as v. intros v. revert w.
  induction v as [|a v IH]; intros w; simpl; [apply lang_eps_inv|].
  rewrite lang_cat_inv. setoid_rewrite IH. setoid_rewrite lang_class_inv. split.
  - intros (w1 & w2 & -> & (b & -> & ->%Ascii.eqb_eq) & ->). done.
  - intros ->. exists [a], v. rewrite <- (Ascii.eqb_refl a). eauto using Ascii.eqb_refl.
Qed.

Lemma lang_alt_all rs w : lang (RAltAll rs) w <-> exists r, r ∈ rs /\ lang r w.
Proof.
  induction rs as [|r [|r' rs] IH].
  - split; [inversion 1|]. intros (r & Hr & _). by apply elem_of_nil in Hr.
  - cbn. split; [intros ?; exists r; split; [by constructor|done]|].
    by intros (? & ->%list_elem_of_singleton & ?).
  - change (RAltAll (r :: r' :: rs)) with (RAlt r (RAltAll (r' :: rs))).
    rewrite lang_alt_inv, IH. split.
    + intros [?|(s & ? & ?)]; [exists r|exists s]; (split; [set_solver|done]).
    + intros (s & [->|?]%elem_of_cons & ?); [by left|right; eauto].
Qed.

(** A pattern made of literal alternatives accepts exactly those literals. *)
Lemma MatchString_literals (ls : list string) s :
  MatchString (RAltAll (RLit <$> ls)) s = true <-> s ∈ ls.
Proof.
  rewrite MatchString_spec, lang_alt_all. split.
  - intros (r & (l & -> & Hl)%list_elem_of_fmap & Hr%lang_lit).
    by apply bytes_inj in Hr as ->.
  - intros Hs. exists (RLit s). split; [by apply list_elem_of_fmap_2|by apply lang_lit].
Qed.

Lemma lang_star_class f w :
  lang (RStar (RClass f)) w <-> forallb f w = true.
Proof.
  induction w as [|a w IH]; [split; auto with regex|].
  rewrite lang_star_cons_inv. simpl. rewrite andb_true_iff, <- IH. split.
  - intros (w1 & w2 & -> & (b & [= -> ->] & ?)%lang_class_inv & ?). done.
  - intros [? ?]. exists [], w. split_and!; [done|by constructor|done].
Qed.

(** [[f]+]: a non-empty word over the class. *)
Lemma lang_plus_class f w :
  lang (RPlus (RClass f)) w <-> w <> [] /\ forallb f w = true.
Proof.
  unfold RPlus. rewrite lang_cat_inv. setoid_rewrite lang_star_class. split.
  - intros (w1 & w2 & -> & (a & -> & Ha)%lang_class_inv & Hw). simpl. by rewrite Ha.
  - intros [Hne Hw]. destruct w as [|a w]; [done|]. simpl in Hw.
    apply andb_prop in Hw as [Ha Hw]. exists [a], w. split_and!; [done|by constructor|done].
Qed.
