(* ===== verification/Validation.v ===== *)
(** * Request validation ([internal/validation/validation.go])

    The field validators, and the [Validate] method of every request type.
    The accumulator [ve *ValidationError] is passed as state; [Validate]
    returns [None] for Go's [nil]. *)

From Stdlib Require Import ZArith Lia Ascii String.
From stdpp Require Import base list gmap strings.
From S2P Require Import Prelude GoStrings Regex.
Local Open Scope string_scope.

(** ** Errors *)

Record FieldError := { Field : string; Message : string; Tag : string }.

Definition FieldError_Error (e : FieldError) : string := Field e ++ ": " ++ Message e.

(** [ValidationError]: the list [Errors]. *)
Record ValidationError := { Errors : list FieldError }.

Definition ValidationError_Error (ve : ValidationError) : string :=
  "validation failed: " ++ Join (FieldError_Error <$> Errors ve) "; ".

Definition HasErrors (ve : ValidationError) : bool := (0 <? List.length (Errors ve))%nat.

Definition Add (ve : ValidationError) (field message tag : string) : ValidationError :=
  {| Errors := (Errors ve ++ [{| Field := field; Message := message; Tag := tag |}])%list |}.

Definition StatusCode (ve : ValidationError) : Z := 422.

(** ** Patterns *)

Definition is_alpha (a : ascii) : bool := is_upper a || is_lower a.
Definition is_alnum (a : ascii) : bool := is_alpha a || is_digit a.
Definition one_of (cs : string) (a : ascii) : bool := existsb (Ascii.eqb a) (bytes cs).
Definition slug_char (a : ascii) : bool := is_lower a || is_digit a.
Definition branch_char (a : ascii) : bool := is_alnum a || one_of "._/-" a.
(** RE2's [\s]. *)
Definition re_space (a : ascii) : bool :=
  existsb (N.eqb (byte_of a)) [9; 10; 12; 13; 32]%N.

Definition slugPattern : regex :=
  RCat (RPlus (RClass slug_char))
       (RStar (RCat (RChar "-") (RPlus (RClass slug_char)))).
Definition emailPattern : regex :=
  RCat (RPlus (RClass (fun a => is_alnum a || one_of "._%+-" a)))
  (RCat (RChar "@")
  (RCat (RPlus (RClass (fun a => is_alnum a || one_of ".-" a)))
  (RCat (RChar ".")
        (RCat (RClass is_alpha) (RPlus (RClass is_alpha)))))).
Definition urlPattern : regex :=
  RCat (RLit "http") (RCat (ROpt (RChar "s"))
  (RCat (RLit "://") (RPlus (RClass (fun a => negb (re_space a)))))).
Definition platforms : list string := ["github"; "gitlab"; "bitbucket"; "azure_devops"].
Definition platformPattern : regex := RAltAll (RLit <$> platforms).
Definition roles : list string := ["owner"; "admin"; "member"; "viewer"].
Definition rolePattern : regex := RAltAll (RLit <$> roles).
Definition branchPattern : regex := RPlus (RClass branch_char).

(** ** Field validators *)

Definition Required (ve : ValidationError) (field value : string) : ValidationError :=
  if String.eqb (TrimSpace value) "" then Add ve field (field ++ " is required") "required"
  else ve.

Definition MinLength (ve : ValidationError) (field value : string) (min : Z) : ValidationError :=
  if (Z.of_nat (RuneCountInString value) <? min)%Z
  then Add ve field (field ++ " must be at least " ++ itoa min ++ " characters") "min"
  else ve.

Definition MaxLength (ve : ValidationError) (field value : string) (max : Z) : ValidationError :=
  if (max <? Z.of_nat (RuneCountInString value))%Z
  then Add ve field (field ++ " must be at most " ++ itoa max ++ " characters") "max"
  else ve.

(** The shape shared by the pattern validators: skip if empty. *)
Definition check_pattern (r : regex) (msg tag : string)
    (ve : ValidationError) (field value : string) : ValidationError :=
  if String.eqb value "" then ve
  else if negb (MatchString r value) then Add ve field (field ++ msg) tag
  else ve.

Definition Slug := check_pattern slugPattern
  " must contain only lowercase letters, numbers, and hyphens" "slug".
Definition Email := check_pattern emailPattern " must be a valid email address" "email".
Definition URL := check_pattern urlPattern " must be a valid HTTP(S) URL" "url".
Definition Platform := check_pattern platformPattern
  " must be one of: github, gitlab, bitbucket, azure_devops" "platform".
Definition Role := check_pattern rolePattern
  " must be one of: owner, admin, member, viewer" "role".
Definition Branch := check_pattern branchPattern " contains invalid characters" "branch".

Definition PositiveInt (ve : ValidationError) (field : string) (value : Z) : ValidationError :=
  if (value <=? 0)%Z then Add ve field (field ++ " must be a positive integer") "positive"
  else ve.

(** ** Requests *)

Definition no_errors : ValidationError := {| Errors := [] |}.

(** [if ve.HasErrors() { return ve }; return nil]. *)
Definition finish (ve : ValidationError) : option ValidationError :=
  if HasErrors ve then Some ve else None.

Record CreateOrgRequest := { org_Name : string; org_Slug : string }.

Definition CreateOrg_Validate (r : CreateOrgRequest) : option ValidationError :=
  let ve := no_errors in
  let ve := Required ve "name" (org_Name r) in
  let ve := MinLength ve "name" (org_Name r) 2 in
  let ve := MaxLength ve "name" (org_Name r) 100 in
  let ve := Required ve "slug" (org_Slug r) in
  let ve := MinLength ve "slug" (org_Slug r) 2 in
  let ve := MaxLength ve "slug" (org_Slug r) 50 in
  let ve := Slug ve "slug" (org_Slug r) in
  finish ve.

(** [UpdateOrgRequest]; its [Settings] map is not looked at. *)
Record UpdateOrgRequest := { uorg_Name : string }.

Definition UpdateOrg_Validate (r : UpdateOrgRequest) : option ValidationError :=
  let ve := no_errors in
  let ve := if negb (String.eqb (uorg_Name r) "") then
              MaxLength (MinLength ve "name" (uorg_Name r) 2) "name" (uorg_Name r) 100
            else ve in
  finish ve.

Record UpdateUserRequest :=
  { user_DisplayName : string; user_Email : string; user_AvatarURL : string }.

Definition UpdateUser_Validate (r : UpdateUserRequest) : option ValidationError :=
  let ve := no_errors in
  let ve := if negb (String.eqb (user_DisplayName r) "") then
              MaxLength (MinLength ve "display_name" (user_DisplayName r) 1)
                "display_name" (user_DisplayName r) 100
            else ve in
  let ve := if negb (String.eqb (user_Email r) "") then
              MaxLength (Email ve "email" (user_Email r)) "email" (user_Email r) 255
            else ve in
  let ve := if negb (String.eqb (user_AvatarURL r) "") then
              MaxLength (URL ve "avatar_url" (user_AvatarURL r))
                "avatar_url" (user_AvatarURL r) 2048
            else ve in
  finish ve.

Record RegisterRepoRequest := {
  repo_Platform : string; repo_Owner : string; repo_Name : string;
  repo_DefaultBranch : string; repo_CloneURL : string;
  repo_ExternalID : string; repo_OrgID : string
}.

Definition RegisterRepo_Validate (r : RegisterRepoRequest) : option ValidationError :=
  let ve := no_errors in
  let ve := Required ve "platform" (repo_Platform r) in
  let ve := Platform ve "platform" (repo_Platform r) in
  let ve := Required ve "owner" (repo_Owner r) in
  let ve := MinLength ve "owner" (repo_Owner r) 1 in
  let ve := MaxLength ve "owner" (repo_Owner r) 255 in
  let ve := Required ve "name" (repo_Name r) in
  let ve := MinLength ve "name" (repo_Name r) 1 in
  let ve := MaxLength ve "name" (repo_Name r) 255 in
  let ve := if negb (String.eqb (repo_DefaultBranch r) "") then
              MaxLength (Branch ve "default_branch" (repo_DefaultBranch r))
                "default_branch" (repo_DefaultBranch r) 100
            else ve in
  let ve := if negb (String.eqb (repo_CloneURL r) "") then
              MaxLength ve "clone_url" (repo_CloneURL r) 2048
            else ve in
  finish ve.

(** [UpdateRepoRequest]; its [Config] map is not looked at. *)
Record UpdateRepoRequest := { urepo_DefaultBranch : string }.

Definition UpdateRepo_Validate (r : UpdateRepoRequest) : option ValidationError :=
  let ve := no_errors in
  let ve := if negb (String.eqb (urepo_DefaultBranch r) "") then
              MaxLength (Branch ve "default_branch" (urepo_DefaultBranch r))
                "default_branch" (urepo_DefaultBranch r) 100
            else ve in
  finish ve.

Record InviteMemberRequest := { inv_Email : string; inv_Role : string }.

Definition InviteMember_Validate (r : InviteMemberRequest) : option ValidationError :=
  let ve := no_errors in
  let ve := Required ve "email" (inv_Email r) in
  let ve := Email ve "email" (inv_Email r) in
  let ve := if negb (String.eqb (inv_Role r) "") then Role ve "role" (inv_Role r) else ve in
  finish ve.

Record TriggerReviewRequest := { rev_RepoID : string; rev_PRNumber : Z }.

Definition TriggerReview_Validate (r : TriggerReviewRequest) : option ValidationError :=
  let ve := no_errors in
  let ve := Required ve "repo_id" (rev_RepoID r) in
  let ve := PositiveInt ve "pr_number" (rev_PRNumber r) in
  finish ve.

(** ** The accepted requests *)

(** No error has been recorded. *)
Definition clean (ve : ValidationError) : Prop := Errors ve = [].

(** The runes of [s] number between [lo] and [hi]. *)
Definition runes_between (lo hi : Z) (s : string) : Prop :=
  (lo <= Z.of_nat (RuneCountInString s) <= hi)%Z.

(** A slug: hyphen-separated, non-empty runs of lowercase letters and digits. *)
Definition slug_word (w : string) : Prop :=
  w <> "" /\ forallb slug_char (bytes w) = true.
Definition well_formed_slug (s : string) : Prop :=
  Forall slug_word (split_byte "-" s).

(** A branch name: non-empty, of the permitted characters only. *)
Definition branch_name (s : string) : Prop :=
  s <> "" /\ forallb branch_char (bytes s) = true.

(** ** Lemmas on the field validators *)

Lemma clean_Add ve f m t : clean (Add ve f m t) <-> False.
Proof. unfold clean, Add. simpl. split; [|done]. by destruct (Errors ve). Qed.

Lemma clean_no_errors : clean no_errors <-> True.
Proof. done. Qed.

Lemma finish_clean ve : finish ve = None <-> clean ve.
Proof.
  unfold finish, HasErrors, clean. destruct (Errors ve); simpl; split; done.
Qed.

Lemma clean_if (b : bool) ve1 ve2 :
  clean (if b then ve1 else ve2) <-> (b = true -> clean ve1) /\ (b = false -> clean ve2).
Proof. destruct b; naive_solver. Qed.

Lemma negb_eqb_empty s : negb (String.eqb s "") = true <-> s <> "".
Proof. rewrite negb_true_iff. apply String.eqb_neq. Qed.

Lemma clean_Required ve f v : clean (Required ve f v) <-> clean ve /\ TrimSpace v <> "".
Proof.
  unfold Required. destruct (String.eqb_spec (TrimSpace v) ""); rewrite ?clean_Add; tauto.
Qed.

Lemma clean_MinLength ve f v n :
  clean (MinLength ve f v n) <-> clean ve /\ (n <= Z.of_nat (RuneCountInString v))%Z.
Proof. unfold MinLength. case_if; bool_to_prop; rewrite ?clean_Add; intuition lia. Qed.

Lemma clean_MaxLength ve f v n :
  clean (MaxLength ve f v n) <-> clean ve /\ (Z.of_nat (RuneCountInString v) <= n)%Z.
Proof. unfold MaxLength. case_if; bool_to_prop; rewrite ?clean_Add; intuition lia. Qed.

Lemma clean_PositiveInt ve f n : clean (PositiveInt ve f n) <-> clean ve /\ (0 < n)%Z.
Proof. unfold PositiveInt. case_if; bool_to_prop; rewrite ?clean_Add; intuition lia. Qed.

Lemma clean_check_pattern r m t ve f v :
  clean (check_pattern r m t ve f v) <-> clean ve /\ (v = "" \/ MatchString r v = true).
Proof.
  unfold check_pattern. destruct (String.eqb_spec v ""); [tauto|].
  destruct (MatchString r v); simpl; rewrite ?clean_Add; intuition congruence.
Qed.

Create Rewrite HintDb clean.
#[export] Hint Rewrite finish_clean clean_no_errors clean_Required clean_MinLength
  clean_MaxLength clean_PositiveInt clean_check_pattern clean_if : clean.

(** Unfold the pattern validators and reduce [finish ve = None] to the
    conditions of the validators. *)
Ltac clean_simp :=
  unfold Slug, Email, URL, Platform, Role, Branch; autorewrite with clean;
  rewrite ?negb_eqb_empty, ?negb_false_iff, ?String.eqb_eq.

(** A validator only ever appends to the recorded errors. *)
Definition extends (ve ve' : ValidationError) : Prop :=
  exists es, Errors ve' = (Errors ve ++ es)%list.

Lemma extends_refl ve : extends ve ve.
Proof. exists []. by rewrite app_nil_r. Qed.

Lemma extends_Add ve f m t : extends ve (Add ve f m t).
Proof. by eexists. Qed.

Create HintDb extends discriminated.
#[export] Hint Resolve extends_refl extends_Add : extends.

Lemma extends_check_pattern r m t ve f v : extends ve (check_pattern r m t ve f v).
Proof. unfold check_pattern. repeat case_if; auto with extends. Qed.

(** ** Slugs *)

Lemma split_byte_cons_sep c s : split_byte c (String c s) = "" :: split_byte c s.
Proof. simpl. by rewrite Ascii.eqb_refl. Qed.

Lemma split_byte_nonempty c s : split_byte c s <> [].
Proof. destruct s; simpl; [done|]. by repeat case_match. Qed.

Lemma slug_char_not_hyphen a : slug_char a = true -> Ascii.eqb a "-" = false.
Proof. intros Ha. destruct (Ascii.eqb_spec a "-") as [->|]; [by vm_compute in Ha|done]. Qed.

(** What may follow a byte of a slug's word. *)
Definition slug_cont : regex :=
  RCat (RStar (RClass slug_char)) (RStar (RCat (RChar "-") (RPlus (RClass slug_char)))).

Lemma slugPattern_cons a w :
  lang slugPattern (a :: w) <-> slug_char a = true /\ lang slug_cont w.
Proof.
  unfold slugPattern, slug_cont, RPlus. rewrite !lang_cat_inv. split.
  - intros (w1 & w2 & Hw & H1 & Ht).
    apply lang_cat_inv in H1 as (u1 & u2 & -> & (b & -> & Hb)%lang_class_inv & Hs).
    simplify_eq/=. split; [done|]. by exists u2, w2.
  - intros (Ha & w1 & w2 & -> & H1 & H2). exists (a :: w1), w2.
    split_and!; [done| |done]. apply (lang_cat _ _ [a] w1); [by constructor|done].
Qed.

Lemma slug_cont_cons a w :
  lang slug_cont (a :: w) <->
  (slug_char a = true /\ lang slug_cont w) \/ (a = "-"%char /\ lang slugPattern w).
Proof.
  unfold slug_cont at 1. rewrite lang_cat_inv. split.
  - intros ([|b w1] & w2 & Hw & H1 & H2); simplify_eq/=.
    + apply lang_star_cons_inv in H2 as (v1 & v2 & -> & H2 & H3).
      apply lang_cat_inv in H2 as (u1 & u2 & Hu & (b & -> & <-%Ascii.eqb_eq)%lang_class_inv & Hp).
      simplify_eq/=. right. split; [done|]. by apply lang_cat.
    + left. apply lang_star_cons_inv in H1 as (v1 & v2 & -> & (c & Hc & ?)%lang_class_inv & H3).
      simplify_eq/=. split; [done|]. by apply lang_cat.
  - intros [[Ha (w1 & w2 & -> & H1 & H2)%lang_cat_inv]|[-> (w1 & w2 & -> & H1 & H2)%lang_cat_inv]].
    + exists (a :: w1), w2. split_and!; [done| |done].
      apply (lang_star_app _ [a] w1); [by constructor|done].
    + exists [], ("-"%char :: w1 ++ w2)%list. split_and!; [done|constructor|].
      apply (lang_star_app _ ("-"%char :: w1) w2); [|done].
      apply (lang_cat _ _ ["-"%char] w1); [by constructor|done].
Qed.

Lemma slug_word_cons a w :
  slug_word (String a w) <-> slug_char a = true /\ forallb slug_char (bytes w) = true.
Proof. unfold slug_word. simpl. rewrite andb_true_iff. naive_solver. Qed.

Lemma slug_split s :
  (lang slugPattern (bytes s) <-> well_formed_slug s) /\
  (lang slug_cont (bytes s) <->
   match split_byte "-" s with
   | w :: ws => forallb slug_char (bytes w) = true /\ Forall slug_word ws
   | [] => False
   end).
Proof.
  unfold well_formed_slug. induction s as [|a s [IHp IHc]].
  { split; [split|].
    - by intros ?%nullable_spec.
    - by intros [[??] ?]%Forall_cons.
    - split; [done|]. intros _. apply (lang_cat _ _ [] []); constructor. }
  change (bytes (String a s)) with (a :: bytes s).
  rewrite slugPattern_cons, slug_cont_cons, IHp, IHc. simpl.
  pose proof (split_byte_nonempty "-" s) as Hne.
  destruct (Ascii.eqb_spec a "-") as [->|Ha].
  - rewrite Forall_cons. assert (slug_char "-" = false) as -> by done.
    assert (~ slug_word "") by by intros []. naive_solver.
  - destruct (split_byte "-" s) as [|w ws]; [done|].
    rewrite Forall_cons, slug_word_cons. simpl. rewrite andb_true_iff. naive_solver.
Qed.

Lemma slugPattern_spec s : MatchString slugPattern s = true <-> well_formed_slug s.
Proof. rewrite MatchString_spec. apply slug_split. Qed.

Lemma branchPattern_spec s : MatchString branchPattern s = true <-> branch_name s.
Proof.
  unfold branchPattern, branch_name. rewrite MatchString_spec, lang_plus_class.
  destruct s; simpl; naive_solver.
Qed.

Lemma platformPattern_spec s : MatchString platformPattern s = true <-> s ∈ platforms.
Proof. apply MatchString_literals. Qed.

Lemma rolePattern_spec s : MatchString rolePattern s = true <-> s ∈ roles.
Proof. apply MatchString_literals. Qed.

#[export] Hint Rewrite slugPattern_spec branchPattern_spec platformPattern_spec
  rolePattern_spec : clean.

Lemma RuneCount_pos s : s <> "" <-> (1 <= Z.of_nat (RuneCountInString s))%Z.
Proof.
  pose proof (RuneCount_zero s). split; intros Hs.
  - assert (RuneCountInString s <> 0%nat) by tauto. lia.
  - intros ->. by vm_compute in Hs.
Qed.

Lemma TrimSpace_nonempty s : TrimSpace s <> "" -> s <> "".
Proof. by intros ? ->. Qed.

Lemma platforms_nonblank s : s ∈ platforms -> TrimSpace s <> "".
Proof.
  unfold platforms. intros Hs.
  repeat (apply elem_of_cons in Hs as [->|Hs]; [by vm_compute|]). by apply elem_of_nil in Hs.
Qed.

(** ** Properties *)

(** The organisation request is accepted exactly when the name is not
    blank and has 2 to 100 runes, and the slug is 2 to 50 runes of
    hyphen-separated non-empty runs of lowercase letters and digits. *)
Theorem CreateOrg_accepts r :
  CreateOrg_Validate r = None <->
  TrimSpace (org_Name r) <> "" /\ runes_between 2 100 (org_Name r) /\
  runes_between 2 50 (org_Slug r) /\ TrimSpace (org_Slug r) <> "" /\
  well_formed_slug (org_Slug r).
Proof.
  unfold CreateOrg_Validate, runes_between. clean_simp.
  pose proof (TrimSpace_nonempty (org_Slug r)). tauto.
Qed.

(** A repository registration is accepted exactly when the platform is
    one of the four supported ones, owner and name are not blank and at most
    255 runes, the optional branch is a branch name of at most 100 runes and
    the optional clone URL has at most 2048 runes. *)
Theorem RegisterRepo_accepts r :
  RegisterRepo_Validate r = None <->
  repo_Platform r ∈ platforms /\
  (TrimSpace (repo_Owner r) <> "" /\ runes_between 1 255 (repo_Owner r)) /\
  (TrimSpace (repo_Name r) <> "" /\ runes_between 1 255 (repo_Name r)) /\
  (repo_DefaultBranch r <> "" ->
     branch_name (repo_DefaultBranch r) /\ runes_between 1 100 (repo_DefaultBranch r)) /\
  (repo_CloneURL r <> "" -> runes_between 1 2048 (repo_CloneURL r)).
Proof.
  unfold RegisterRepo_Validate, runes_between. clean_simp.
  pose proof (RuneCount_pos (repo_DefaultBranch r)).
  pose proof (RuneCount_pos (repo_CloneURL r)).
  pose proof (platforms_nonblank (repo_Platform r)).
  pose proof (TrimSpace_nonempty (repo_Platform r)).
  destruct (decide (repo_DefaultBranch r = "")), (decide (repo_CloneURL r = ""));
    tauto.
Qed.
