(* ===== verification/Quota.v ===== *)
(** * Plan quotas ([internal/quota/enforcer.go])

    The plan limits, the four checks of the [Enforcer] and the daily usage
    counters.  The tables the queries read ([usage_daily], [repositories],
    [org_members]) are a record; a Boolean [fault] says that the statement of
    the call failed.  A day is the number of the UTC day of the clock, which
    the code formats as a date. *)

From Stdlib Require Import ZArith Lia Ascii String.
From stdpp Require Import base list gmap strings pretty.
From S2P Require Import Prelude GoStrings.
Local Open Scope string_scope.
Local Open Scope Z_scope.

(** ** Limits *)

Record PlanLimits := {
  ReviewsPerDay : Z;
  ReposPerOrg : Z;
  MembersPerOrg : Z;
  TokensPerDay : Z;
  MaxFileSizeKB : Z;
  IndexingEnabled : bool
}.

Definition free_limits : PlanLimits :=
  {| ReviewsPerDay := 10; ReposPerOrg := 5; MembersPerOrg := 5;
     TokensPerDay := 100000; MaxFileSizeKB := 256; IndexingEnabled := false |}.
Definition pro_limits : PlanLimits :=
  {| ReviewsPerDay := 100; ReposPerOrg := 50; MembersPerOrg := 50;
     TokensPerDay := 1000000; MaxFileSizeKB := 512; IndexingEnabled := true |}.
(** [-1] is unlimited. *)
Definition enterprise_limits : PlanLimits :=
  {| ReviewsPerDay := -1; ReposPerOrg := -1; MembersPerOrg := -1;
     TokensPerDay := -1; MaxFileSizeKB := 1024; IndexingEnabled := true |}.

Definition DefaultLimits : gmap string PlanLimits :=
  {["free" := free_limits; "pro" := pro_limits; "enterprise" := enterprise_limits]}.

Definition GetLimits (plan : string) : PlanLimits :=
  match DefaultLimits !! plan with
  | Some limits => limits
  | None => free_limits
  end.

(** ** State *)

Record usage_row := { reviews_count : Z; tokens_used : Z }.

(** [usage_daily] by its primary key, and the owning organisation of every
    repository and membership row. *)
Record QuotaDB := {
  usage_daily : gmap (UUID * Z) usage_row;
  repositories : gmap UUID UUID;
  org_members : gmap (UUID * UUID) UUID
}.

Record Usage := {
  ReviewsToday : Z; TokensToday : Z; RepoCount : Z; MemberCount : Z
}.

Record CheckResult := {
  Allowed : bool; Reason : string; Limit : Z; Current : Z; Remaining : Z
}.

(** The UTC day of a clock reading in nanoseconds. *)
Definition utc_day (now : Z) : Z := now / 86400000000000.

(** ** Checks *)

Definition unlimited : CheckResult :=
  {| Allowed := true; Reason := ""; Limit := -1; Current := 0; Remaining := -1 |}.

(** The comparison the three counting checks share; [what] starts the reason. *)
Definition check_count (what plan : string) (limit count : Z) : CheckResult :=
  let remaining := wrap64 (limit - count) in
  let remaining := if remaining <? 0 then 0 else remaining in
  if limit <=? count then
    {| Allowed := false; Limit := limit; Current := count; Remaining := 0;
       Reason := what ++ itoa limit ++ " reached on " ++ plan ++ " plan" |}
  else
    {| Allowed := true; Limit := limit; Current := count; Remaining := remaining;
       Reason := "" |}.

Definition CheckReviewQuota (db : QuotaDB) (fault : bool) (now : Z) (orgID : UUID)
    (plan : string) : result CheckResult string :=
  let limits := GetLimits plan in
  if ReviewsPerDay limits <? 0 then Ok unlimited
  else
    let today := utc_day now in
    let count := if fault then 0 else
                 match usage_daily db !! (orgID, today) with
                 | Some row => reviews_count row
                 | None => 0
                 end in
    Ok (check_count "daily review limit of " plan (ReviewsPerDay limits) count).

(** [SELECT COUNT(STAR) ... WHERE org_id = $1] *)
Definition count_repos (db : QuotaDB) (orgID : UUID) : Z :=
  Z.of_nat (size (filter (fun kv => kv.2 = orgID) (repositories db))).
Definition count_members (db : QuotaDB) (orgID : UUID) : Z :=
  Z.of_nat (size (filter (fun kv => kv.2 = orgID) (org_members db))).

Definition CheckRepoQuota (db : QuotaDB) (fault : bool) (orgID : UUID)
    (plan : string) : result CheckResult string :=
  let limits := GetLimits plan in
  if ReposPerOrg limits <? 0 then Ok unlimited
  else if fault then Err "count repos"
  else Ok (check_count "repository limit of " plan (ReposPerOrg limits) (count_repos db orgID)).

Definition CheckMemberQuota (db : QuotaDB) (fault : bool) (orgID : UUID)
    (plan : string) : result CheckResult string :=
  let limits := GetLimits plan in
  if MembersPerOrg limits <? 0 then Ok unlimited
  else if fault then Err "count members"
  else Ok (check_count "member limit of " plan (MembersPerOrg limits) (count_members db orgID)).

Definition CheckIndexingAllowed (plan : string) : CheckResult :=
  let limits := GetLimits plan in
  if negb (IndexingEnabled limits) then
    {| Allowed := false; Limit := 0; Current := 0; Remaining := 0;
       Reason := "indexing is not available on " ++ plan ++ " plan" |}
  else
    {| Allowed := true; Limit := 1; Current := 0; Remaining := 1; Reason := "" |}.

(** ** Usage *)

(** The column ranges of [usage_daily]: INTEGER and BIGINT. *)
Definition row_fits (r : usage_row) : bool :=
  (- 2 ^ 31 <=? reviews_count r) && (reviews_count r <? 2 ^ 31)
  && (- 2 ^ 63 <=? tokens_used r) && (tokens_used r <? 2 ^ 63).

(** [INSERT ... ON CONFLICT (org_id, date) DO UPDATE]: the statement fails,
    and changes nothing, when a column would leave its range. *)
Definition IncrementUsage (db : QuotaDB) (fault : bool) (now : Z) (orgID : UUID)
    (reviews tokens : Z) : result QuotaDB string :=
  let today := utc_day now in
  let row := match usage_daily db !! (orgID, today) with
             | Some r => {| reviews_count := reviews_count r + reviews;
                            tokens_used := tokens_used r + tokens |}
             | None => {| reviews_count := reviews; tokens_used := tokens |}
             end in
  if fault || negb (row_fits row) then Err "increment usage"
  else Ok {| usage_daily := <[(orgID, today) := row]> (usage_daily db);
             repositories := repositories db; org_members := org_members db |}.

(** A failed count leaves the zero value. *)
Definition GetUsage (db : QuotaDB) (fault_usage fault_repos fault_members : bool)
    (now : Z) (orgID : UUID) : Usage :=
  let today := utc_day now in
  let row := if fault_usage then None else usage_daily db !! (orgID, today) in
  {| ReviewsToday := match row with Some r => reviews_count r | None => 0 end;
     TokensToday := match row with Some r => tokens_used r | None => 0 end;
     RepoCount := if fault_repos then 0 else count_repos db orgID;
     MemberCount := if fault_members then 0 else count_members db orgID |}.

(** ** The client loop: check, then record one review *)

(** One admitted review: the check allows it and the usage is recorded. *)
Definition admit_review (db : QuotaDB) (now : Z) (orgID : UUID) (plan : string)
    (tokens : Z) : option QuotaDB :=
  match CheckReviewQuota db false now orgID plan with
  | Ok c => if Allowed c then
              match IncrementUsage db false now orgID 1 tokens with
              | Ok db' => Some db'
              | Err _ => None
              end
            else None
  | Err _ => None
  end.

Record review_request := { rq_now : Z; rq_org : UUID; rq_tokens : Z }.

(** Serve the requests in turn; a refused request changes nothing.  [plan_of]
    is the plan of each organisation. *)
Definition serve_review (plan_of : UUID -> string) (db : QuotaDB) (r : review_request)
    : QuotaDB :=
  match admit_review db (rq_now r) (rq_org r) (plan_of (rq_org r)) (rq_tokens r) with
  | Some db' => db'
  | None => db
  end.
Definition serve_reviews (plan_of : UUID -> string) (db : QuotaDB)
    (rs : list review_request) : QuotaDB :=
  fold_left (serve_review plan_of) rs db.

(** No organisation on a limited plan has used more reviews in a day than its
    plan allows. *)
Definition within_quota (plan_of : UUID -> string) (db : QuotaDB) : Prop :=
  forall org day row,
    usage_daily db !! (org, day) = Some row ->
    0 <= ReviewsPerDay (GetLimits (plan_of org)) ->
    reviews_count row <= ReviewsPerDay (GetLimits (plan_of org)).

(** ** Lemmas *)

Lemma check_count_allowed what plan limit count :
  Allowed (check_count what plan limit count) = true <-> count < limit.
Proof. unfold check_count. destruct (limit <=? count) eqn:E; bool_to_prop; simpl; split; lia || done. Qed.

Lemma GetLimits_cases plan :
  GetLimits plan = free_limits \/ GetLimits plan = pro_limits \/
  GetLimits plan = enterprise_limits.
Proof.
  unfold GetLimits, DefaultLimits. rewrite !lookup_insert, lookup_singleton.
  repeat case_decide; tauto.
Qed.

Lemma IncrementUsage_lookup db now org n t db' org' day :
  IncrementUsage db false now org n t = Ok db' ->
  usage_daily db' !! (org', day) =
    if decide (org = org' /\ utc_day now = day) then
      Some match usage_daily db !! (org, day) with
           | Some r => {| reviews_count := reviews_count r + n;
                          tokens_used := tokens_used r + t |}
           | None => {| reviews_count := n; tokens_used := t |}
           end
    else usage_daily db !! (org', day).
Proof.
  unfold IncrementUsage. case_if; [done|]. intros [= <-]. simpl.
  rewrite lookup_insert. repeat case_decide; naive_solver.
Qed.

Lemma serve_review_within plan_of db r :
  within_quota plan_of db -> within_quota plan_of (serve_review plan_of db r).
Proof.
  intros Hdb. unfold serve_review, admit_review, CheckReviewQuota.
  set (lim := ReviewsPerDay (GetLimits (plan_of (rq_org r)))).
  destruct (lim <? 0) eqn:El; bool_to_prop; simpl.
  - destruct (IncrementUsage _ _ _ _ _ _) as [db'|] eqn:Ei; [|done].
    intros org day row Hrow Hlim. rewrite (IncrementUsage_lookup _ _ _ _ _ _ _ _ Ei) in Hrow.
    case_decide as Hd; [|by apply (Hdb org day)]. destruct Hd as [<- _]. lia.
  - case_if; [|done]. destruct (IncrementUsage _ _ _ _ _ _) as [db'|] eqn:Ei; [|done].
    intros org day row Hrow Hlim. rewrite (IncrementUsage_lookup _ _ _ _ _ _ _ _ Ei) in Hrow.
    case_decide as Hd; [|by apply (Hdb org day)]. destruct Hd as [<- <-].
    apply check_count_allowed in Heqb. fold lim in Hlim |- *.
    destruct (usage_daily db !! _); simplify_eq/=; lia.
Qed.

(** ** Properties *)

(** Whatever requests are served, in whatever order and over however many
    days, no organisation on a limited plan exceeds its daily review limit,
    provided each served review is recorded with [IncrementUsage]. *)
Theorem serve_reviews_within_quota plan_of db rs :
  within_quota plan_of db -> within_quota plan_of (serve_reviews plan_of db rs).
Proof.
  unfold serve_reviews. revert db. induction rs as [|r rs IH]; intros db Hdb; [done|].
  apply IH. by apply serve_review_within.
Qed.

(** The repository check refuses exactly when a limited plan is full, says
    so with [Remaining = 0], and otherwise reports how many are left; only a
    failed count is an error. *)
Theorem CheckRepoQuota_spec db org plan :
  count_repos db org < 2 ^ 63 ->
  let lim := ReposPerOrg (GetLimits plan) in
  exists c, CheckRepoQuota db false org plan = Ok c /\
    (Allowed c = true <-> lim < 0 \/ count_repos db org < lim) /\
    (0 <= lim -> Limit c = lim /\ Current c = count_repos db org /\
                 Remaining c = Z.max 0 (lim - count_repos db org)).
Proof.
  intros Hc lim. unfold CheckRepoQuota. fold lim.
  assert (0 <= count_repos db org) by (unfold count_repos; lia).
  assert (- 2 ^ 31 <= lim < 2 ^ 31).
  { subst lim. destruct (GetLimits_cases plan) as [-> | [-> | ->]]; simpl; lia. }
  destruct (lim <? 0) eqn:E; bool_to_prop; eexists; (split; [done|]).
  - simpl. split; [split; [by left|done]|lia].
  - rewrite check_count_allowed. split; [lia|]. intros _. unfold check_count.
    rewrite wrap64_id by (unfold in_int64; lia).
    destruct (lim <=? _) eqn:?; bool_to_prop; simpl; [lia|].
    case_if; bool_to_prop; lia.
Qed.

(** ** Witnesses *)

Definition empty_quota_db : QuotaDB :=
  {| usage_daily := ∅; repositories := ∅; org_members := ∅ |}.

Lemma serve_reviews_within_quota_witness :
  within_quota (fun _ => "free")
    (serve_reviews (fun _ => "free") empty_quota_db
       (replicate 12 {| rq_now := 5; rq_org := 7%N; rq_tokens := 100 |})).
Proof.
  apply serve_reviews_within_quota. intros org day row H. simpl in H.
  rewrite lookup_empty in H. discriminate.
Defined.

Lemma CheckRepoQuota_spec_witness :
  count_repos empty_quota_db 7%N < 2 ^ 63 /\
  exists c, CheckRepoQuota empty_quota_db false 7%N "free" = Ok c /\ Allowed c = true.
Proof.
  assert (count_repos empty_quota_db 7%N < 2 ^ 63) as H by (vm_compute; reflexivity).
  split; [exact H|].
  destruct (CheckRepoQuota_spec empty_quota_db 7%N "free" H) as (c & Hc & Ha & _).
  exists c. split; [exact Hc|]. apply Ha. right. vm_compute. reflexivity.
Defined.
