(* ===== verification/SwarmDb.v ===== *)
(** * The swarm's tables and effects

    The PostgreSQL tables the swarm controller keeps ([swarm_tasks],
    [swarm_teams], [swarm_agents], [swarm_task_diffs],
    [swarm_provider_circuit_state], [swarm_self_heal_events]) as finite maps,
    the commands it sends to Redis and to the WebSocket hub as a trace, and
    the state monad in which the operations of the other files run.

    Redis and the hub are not modelled: a command is an element of the trace
    and an answer the code reads is an argument of the operation.  Every SQL
    statement takes the next entry of [faults]: [true] makes it fail, and a
    failed statement changes nothing.  The order in which the database returns
    rows without [ORDER BY] is the parameter [RowOrder]. *)

From Stdlib Require Import ZArith Lia Ascii String.
From stdpp Require Import base list gmap strings sorting.
From S2P Require Import Prelude GoStrings.
Local Open Scope string_scope.

(** ** Task statuses ([internal/swarm/task_manager.go]) *)

Definition StatusSubmitted := "submitted".
Definition StatusPlanning := "planning".
Definition StatusPlanReview := "plan_review".
Definition StatusImplementing := "implementing".
Definition StatusSelfReview := "self_review".
Definition StatusDiffReview := "diff_review".
Definition StatusBuildValidating := "build_validating".
Definition StatusBuildFailed := "build_failed".
Definition StatusBuildBlocked := "build_blocked".
Definition StatusPRCreating := "pr_creating".
Definition StatusCompleted := "completed".
Definition StatusCancelled := "cancelled".
Definition StatusFailed := "failed".
Definition StatusTimedOut := "timed_out".

(** The statuses of [status NOT IN (...)] and of the assign loop's switch. *)
Definition terminal_statuses : list string :=
  [StatusCompleted; StatusCancelled; StatusFailed; StatusTimedOut].
Definition is_terminal (s : string) : bool := existsb (String.eqb s) terminal_statuses.

Definition second : Z := 1000000000.
Definition minute : Z := 60 * second.
Definition TaskTimeout : Z := 30 * minute.
Definition HeartbeatTimeout : Z := 60 * second.
Definition StaleOfflineThreshold : Z := 10 * minute.
Definition MaxRetries : Z := 3.

(** ** Rows *)

(** [swarm_tasks]; a nullable column the code distinguishes is an option. *)
Record Task := {
  t_RepoID : string;
  t_Title : string;
  t_Description : string;
  t_Status : string;
  t_PlanDocument : option string;
  t_AssignedTeamID : option UUID;
  t_AssignedAgents : option (list UUID);
  t_PRUrl : string;
  t_PRNumber : Z;
  t_HumanRating : option Z;
  t_HumanComment : string;
  t_SubmittedBy : option UUID;
  t_RetryCount : Z;
  t_FailureReason : option string;
  t_CreatedAt : Z;
  t_CompletedAt : option Z;
  t_TimeoutAt : option Z
}.

(** [swarm_teams] *)
Record Team := {
  tm_Name : string;
  tm_LeadAgentID : option UUID;
  tm_Status : string;
  tm_AgentIDs : option (list UUID);
  tm_FormedAt : Z
}.

(** [swarm_agents] *)
Record Agent := {
  a_Role : string;
  a_TeamID : option UUID;
  a_Status : string;
  a_TasksDone : Z;
  a_Hostname : string;
  a_Version : string;
  a_RegisteredAt : Z
}.

(** [swarm_task_diffs] *)
Record TaskDiff := {
  d_TaskID : UUID;
  d_FilePath : string;
  d_ChangeType : string;
  d_Original : string;
  d_Proposed : string;
  d_UnifiedDiff : string;
  d_AgentID : option UUID;
  d_Status : string;
  d_CreatedAt : Z
}.

(** A circuit breaker: the in-memory [providerCircuit] and the row of
    [swarm_provider_circuit_state] have the same fields. *)
Record providerCircuit := {
  c_state : string;
  c_consecutiveFailures : Z;
  c_totalFailures : Z;
  c_totalSuccesses : Z;
  c_lastFailureAt : option Z;
  c_lastSuccessAt : option Z;
  c_openUntil : option Z;
  c_halfOpenProbes : Z
}.

(** [swarm_self_heal_events]; the JSON details are their key/value pairs. *)
Record SelfHealEvent := {
  ev_EventType : string;
  ev_Provider : string;
  ev_TaskID : option UUID;
  ev_AgentID : option UUID;
  ev_Details : list (string * string);
  ev_Severity : string;
  ev_Resolved : bool;
  ev_ResolvedAt : option Z;
  ev_CreatedAt : Z
}.

(** ** Column updates of a task *)

Definition set_Status (v : string) (t : Task) : Task :=
  {| t_RepoID := t_RepoID t; t_Title := t_Title t; t_Description := t_Description t;
     t_Status := v; t_PlanDocument := t_PlanDocument t; t_AssignedTeamID :=
     t_AssignedTeamID t; t_AssignedAgents := t_AssignedAgents t; t_PRUrl := t_PRUrl t;
     t_PRNumber := t_PRNumber t; t_HumanRating := t_HumanRating t; t_HumanComment :=
     t_HumanComment t; t_SubmittedBy := t_SubmittedBy t; t_RetryCount := t_RetryCount
     t; t_FailureReason := t_FailureReason t; t_CreatedAt := t_CreatedAt t;
     t_CompletedAt := t_CompletedAt t; t_TimeoutAt := t_TimeoutAt t |}.
Definition set_PlanDocument (v : option string) (t : Task) : Task :=
  {| t_RepoID := t_RepoID t; t_Title := t_Title t; t_Description := t_Description t;
     t_Status := t_Status t; t_PlanDocument := v; t_AssignedTeamID := t_AssignedTeamID
     t; t_AssignedAgents := t_AssignedAgents t; t_PRUrl := t_PRUrl t; t_PRNumber :=
     t_PRNumber t; t_HumanRating := t_HumanRating t; t_HumanComment := t_HumanComment
     t; t_SubmittedBy := t_SubmittedBy t; t_RetryCount := t_RetryCount t;
     t_FailureReason := t_FailureReason t; t_CreatedAt := t_CreatedAt t; t_CompletedAt
     := t_CompletedAt t; t_TimeoutAt := t_TimeoutAt t |}.
Definition set_AssignedTeamID (v : option UUID) (t : Task) : Task :=
  {| t_RepoID := t_RepoID t; t_Title := t_Title t; t_Description := t_Description t;
     t_Status := t_Status t; t_PlanDocument := t_PlanDocument t; t_AssignedTeamID :=
     v; t_AssignedAgents := t_AssignedAgents t; t_PRUrl := t_PRUrl t; t_PRNumber :=
     t_PRNumber t; t_HumanRating := t_HumanRating t; t_HumanComment := t_HumanComment
     t; t_SubmittedBy := t_SubmittedBy t; t_RetryCount := t_RetryCount t;
     t_FailureReason := t_FailureReason t; t_CreatedAt := t_CreatedAt t; t_CompletedAt
     := t_CompletedAt t; t_TimeoutAt := t_TimeoutAt t |}.
Definition set_AssignedAgents (v : option (list UUID)) (t : Task) : Task :=
  {| t_RepoID := t_RepoID t; t_Title := t_Title t; t_Description := t_Description t;
     t_Status := t_Status t; t_PlanDocument := t_PlanDocument t; t_AssignedTeamID :=
     t_AssignedTeamID t; t_AssignedAgents := v; t_PRUrl := t_PRUrl t; t_PRNumber :=
     t_PRNumber t; t_HumanRating := t_HumanRating t; t_HumanComment := t_HumanComment
     t; t_SubmittedBy := t_SubmittedBy t; t_RetryCount := t_RetryCount t;
     t_FailureReason := t_FailureReason t; t_CreatedAt := t_CreatedAt t; t_CompletedAt
     := t_CompletedAt t; t_TimeoutAt := t_TimeoutAt t |}.
Definition set_HumanRating (v : option Z) (t : Task) : Task :=
  {| t_RepoID := t_RepoID t; t_Title := t_Title t; t_Description := t_Description t;
     t_Status := t_Status t; t_PlanDocument := t_PlanDocument t; t_AssignedTeamID :=
     t_AssignedTeamID t; t_AssignedAgents := t_AssignedAgents t; t_PRUrl := t_PRUrl t;
     t_PRNumber := t_PRNumber t; t_HumanRating := v; t_HumanComment := t_HumanComment
     t; t_SubmittedBy := t_SubmittedBy t; t_RetryCount := t_RetryCount t;
     t_FailureReason := t_FailureReason t; t_CreatedAt := t_CreatedAt t; t_CompletedAt
     := t_CompletedAt t; t_TimeoutAt := t_TimeoutAt t |}.
Definition set_HumanComment (v : string) (t : Task) : Task :=
  {| t_RepoID := t_RepoID t; t_Title := t_Title t; t_Description := t_Description t;
     t_Status := t_Status t; t_PlanDocument := t_PlanDocument t; t_AssignedTeamID :=
     t_AssignedTeamID t; t_AssignedAgents := t_AssignedAgents t; t_PRUrl := t_PRUrl t;
     t_PRNumber := t_PRNumber t; t_HumanRating := t_HumanRating t; t_HumanComment :=
     v; t_SubmittedBy := t_SubmittedBy t; t_RetryCount := t_RetryCount t;
     t_FailureReason := t_FailureReason t; t_CreatedAt := t_CreatedAt t; t_CompletedAt
     := t_CompletedAt t; t_TimeoutAt := t_TimeoutAt t |}.
Definition set_RetryCount (v : Z) (t : Task) : Task :=
  {| t_RepoID := t_RepoID t; t_Title := t_Title t; t_Description := t_Description t;
     t_Status := t_Status t; t_PlanDocument := t_PlanDocument t; t_AssignedTeamID :=
     t_AssignedTeamID t; t_AssignedAgents := t_AssignedAgents t; t_PRUrl := t_PRUrl t;
     t_PRNumber := t_PRNumber t; t_HumanRating := t_HumanRating t; t_HumanComment :=
     t_HumanComment t; t_SubmittedBy := t_SubmittedBy t; t_RetryCount := v;
     t_FailureReason := t_FailureReason t; t_CreatedAt := t_CreatedAt t; t_CompletedAt
     := t_CompletedAt t; t_TimeoutAt := t_TimeoutAt t |}.
Definition set_FailureReason (v : option string) (t : Task) : Task :=
  {| t_RepoID := t_RepoID t; t_Title := t_Title t; t_Description := t_Description t;
     t_Status := t_Status t; t_PlanDocument := t_PlanDocument t; t_AssignedTeamID :=
     t_AssignedTeamID t; t_AssignedAgents := t_AssignedAgents t; t_PRUrl := t_PRUrl t;
     t_PRNumber := t_PRNumber t; t_HumanRating := t_HumanRating t; t_HumanComment :=
     t_HumanComment t; t_SubmittedBy := t_SubmittedBy t; t_RetryCount := t_RetryCount
     t; t_FailureReason := v; t_CreatedAt := t_CreatedAt t; t_CompletedAt :=
     t_CompletedAt t; t_TimeoutAt := t_TimeoutAt t |}.
Definition set_CompletedAt (v : option Z) (t : Task) : Task :=
  {| t_RepoID := t_RepoID t; t_Title := t_Title t; t_Description := t_Description t;
     t_Status := t_Status t; t_PlanDocument := t_PlanDocument t; t_AssignedTeamID :=
     t_AssignedTeamID t; t_AssignedAgents := t_AssignedAgents t; t_PRUrl := t_PRUrl t;
     t_PRNumber := t_PRNumber t; t_HumanRating := t_HumanRating t; t_HumanComment :=
     t_HumanComment t; t_SubmittedBy := t_SubmittedBy t; t_RetryCount := t_RetryCount
     t; t_FailureReason := t_FailureReason t; t_CreatedAt := t_CreatedAt t;
     t_CompletedAt := v; t_TimeoutAt := t_TimeoutAt t |}.
Definition set_TimeoutAt (v : option Z) (t : Task) : Task :=
  {| t_RepoID := t_RepoID t; t_Title := t_Title t; t_Description := t_Description t;
     t_Status := t_Status t; t_PlanDocument := t_PlanDocument t; t_AssignedTeamID :=
     t_AssignedTeamID t; t_AssignedAgents := t_AssignedAgents t; t_PRUrl := t_PRUrl t;
     t_PRNumber := t_PRNumber t; t_HumanRating := t_HumanRating t; t_HumanComment :=
     t_HumanComment t; t_SubmittedBy := t_SubmittedBy t; t_RetryCount := t_RetryCount
     t; t_FailureReason := t_FailureReason t; t_CreatedAt := t_CreatedAt t;
     t_CompletedAt := t_CompletedAt t; t_TimeoutAt := v |}.

(** The text of a UUID (package [google/uuid]). *)
Class UuidText := {
  uuid_String : UUID -> string;
  uuid_Parse : string -> option UUID;
  uuid_Parse_String : forall u, uuid_Parse (uuid_String u) = Some u
}.

(** Unary texts of identifiers, to evaluate with. *)
Fixpoint unary (n : nat) : string :=
  match n with O => EmptyString | S n => String "x" (unary n) end.

Lemma length_unary n : String.length (unary n) = n.
Proof. by induction n; simpl; congruence. Qed.

Definition unary_uuid : UuidText := {|
  uuid_String u := unary (N.to_nat u);
  uuid_Parse s := Some (N.of_nat (String.length s));
  uuid_Parse_String u := ltac:(cbn; by rewrite length_unary, N2Nat.id)
|}.

(** Whether the optional collaborators [authSvc] and [wsHub] are set. *)
Class Config := { has_auth : bool; has_hub : bool }.

(** ** Effects *)

Inductive Effect :=
| XAdd (stream : string) (values : list (string * string))
| XAck (stream msgID : string)
| RedisDel (key : string)
| RedisSet (key : string) (value : Z) (ttl : Z)
| Revoke (agentID : UUID)
| BroadcastTask (event : string) (taskID : UUID)
| BroadcastAgent (event : string) (agentID : UUID)
| BroadcastCircuit (provider old_state new_state : string).

(** ** The state *)

Record World := {
  tasks : gmap UUID Task;
  teams : gmap UUID Team;
  agents : gmap UUID Agent;
  diffs : gmap UUID TaskDiff;
  db_circuits : gmap string providerCircuit;
  db_events : gmap UUID SelfHealEvent;
  circuits : gmap string providerCircuit;
  effects : list Effect;
  faults : list bool
}.

Definition set_tasks (f : gmap UUID Task -> gmap UUID Task) (w : World) : World :=
  {| tasks := f (tasks w); teams := teams w; agents := agents w; diffs := diffs w;
     db_circuits := db_circuits w; db_events := db_events w; circuits := circuits w;
     effects := effects w; faults := faults w |}.
Definition set_teams (f : gmap UUID Team -> gmap UUID Team) (w : World) : World :=
  {| tasks := tasks w; teams := f (teams w); agents := agents w; diffs := diffs w;
     db_circuits := db_circuits w; db_events := db_events w; circuits := circuits w;
     effects := effects w; faults := faults w |}.
Definition set_agents (f : gmap UUID Agent -> gmap UUID Agent) (w : World) : World :=
  {| tasks := tasks w; teams := teams w; agents := f (agents w); diffs := diffs w;
     db_circuits := db_circuits w; db_events := db_events w; circuits := circuits w;
     effects := effects w; faults := faults w |}.
Definition set_diffs (f : gmap UUID TaskDiff -> gmap UUID TaskDiff) (w : World) : World :=
  {| tasks := tasks w; teams := teams w; agents := agents w; diffs := f (diffs w);
     db_circuits := db_circuits w; db_events := db_events w; circuits := circuits w;
     effects := effects w; faults := faults w |}.
Definition set_db_circuits (f : gmap string providerCircuit -> gmap string providerCircuit)
    (w : World) : World :=
  {| tasks := tasks w; teams := teams w; agents := agents w; diffs := diffs w;
     db_circuits := f (db_circuits w); db_events := db_events w; circuits := circuits w;
     effects := effects w; faults := faults w |}.
Definition set_db_events (f : gmap UUID SelfHealEvent -> gmap UUID SelfHealEvent)
    (w : World) : World :=
  {| tasks := tasks w; teams := teams w; agents := agents w; diffs := diffs w;
     db_circuits := db_circuits w; db_events := f (db_events w); circuits := circuits w;
     effects := effects w; faults := faults w |}.
Definition set_circuits (f : gmap string providerCircuit -> gmap string providerCircuit)
    (w : World) : World :=
  {| tasks := tasks w; teams := teams w; agents := agents w; diffs := diffs w;
     db_circuits := db_circuits w; db_events := db_events w; circuits := f (circuits w);
     effects := effects w; faults := faults w |}.
Definition set_effects (f : list Effect -> list Effect) (w : World) : World :=
  {| tasks := tasks w; teams := teams w; agents := agents w; diffs := diffs w;
     db_circuits := db_circuits w; db_events := db_events w; circuits := circuits w;
     effects := f (effects w); faults := faults w |}.
Definition drop_fault (w : World) : World :=
  {| tasks := tasks w; teams := teams w; agents := agents w; diffs := diffs w;
     db_circuits := db_circuits w; db_events := db_events w; circuits := circuits w;
     effects := effects w; faults := tail (faults w) |}.

(** ** The monad of the operations *)

Definition M (A : Type) : Type := World -> A * World.

#[export] Instance M_ret : MRet M := fun A a w => (a, w).
#[export] Instance M_bind : MBind M := fun A B f m w => let '(a, w') := m w in f a w'.

Definition get {A} (f : World -> A) : M A := fun w => (f w, w).
Definition modify (f : World -> World) : M unit := fun w => (tt, f w).

(** Send a command to Redis or to the hub. *)
Definition emit (e : Effect) : M unit := modify (set_effects (fun es => es ++ [e])%list).

(** The outcome of the next statement. *)
Definition statement_fails : M bool :=
  fun w => (match faults w with b :: _ => b | [] => false end, drop_fault w).

(** A statement that changes tables: its error, or the rows it affected. *)
Definition exec (rows : World -> Z) (f : World -> World) : M (result Z string) :=
  fun w => let '(b, w) := statement_fails w in
           if b then (Err "statement failed", w) else (Ok (rows w), f w).

(** A statement that also fails when a constraint would be violated. *)
Definition exec_when (guard : World -> bool) (f : World -> World) : M (result Z string) :=
  fun w => let '(b, w) := statement_fails w in
           if b || negb (guard w) then (Err "statement failed", w) else (Ok 1%Z, f w).

(** A statement that reads tables. *)
Definition query {A} (f : World -> A) : M (result A string) :=
  fun w => let '(b, w) := statement_fails w in
           if b then (Err "statement failed", w) else (Ok (f w), w).

(** [for rows.Next()] over the rows a query returned. *)
Fixpoint for_rows {A} (l : list A) (body : A -> M unit) : M unit :=
  match l with
  | [] => mret tt
  | x :: l => body x;; for_rows l body
  end.

(** [_, _ = db.Exec(...)]: the outcome is dropped. *)
Definition exec_ (f : World -> World) : M unit := exec (fun _ => 0%Z) f;; mret tt.

(** ** SQL *)

(** Row order where the statement gives none. *)
Class RowOrder := {
  row_order : forall {A}, list A -> list A;
  row_order_perm : forall {A} (l : list A), row_order l ≡ₚ l
}.

(** [SELECT ... WHERE p] *)
Definition select {A} `{RowOrder} (p : UUID -> A -> bool) (m : gmap UUID A)
    : list (UUID * A) :=
  row_order (base.filter (fun kv => p kv.1 kv.2 = true) (map_to_list m)).

(** [UPDATE ... SET f WHERE p] *)
Definition update_where {A} (p : UUID -> A -> bool) (f : A -> A) (m : gmap UUID A)
    : gmap UUID A :=
  map_imap (fun k a => Some (if p k a then f a else a)) m.

(** [DELETE ... WHERE p] *)
Definition delete_where {A} (p : UUID -> A -> bool) (m : gmap UUID A) : gmap UUID A :=
  base.filter (fun kv => p kv.1 kv.2 = false) m.

(** [SELECT COUNT... WHERE p] *)
Definition count_where {A} (p : UUID -> A -> bool) (m : gmap UUID A) : Z :=
  Z.of_nat (size (base.filter (fun kv => p kv.1 kv.2 = true) m)).

(** Rows an [UPDATE ... WHERE id = $1] affects. *)
Definition affected {A} (id : UUID) (m : gmap UUID A) : Z :=
  match m !! id with Some _ => 1 | None => 0 end.

(** [ORDER BY key] *)
Definition order_by {A} (key : A -> Z) (l : list A) : list A :=
  @merge_sort A (fun a b => (key a <= key b)%Z) (fun a b => Z_le_dec (key a) (key b)) l.

(** The texts PostgreSQL accepts (valid in the encoding of the database). *)
Class Postgres := { text_ok : string -> bool }.

(** The order of texts in the collation of the database. *)
Class Collation := {
  collates : string -> string -> bool;
  collates_total : forall s t, collates s t = true \/ collates t s = true;
  collates_trans : forall s t u, collates s t = true -> collates t u = true -> collates s u = true
}.

(** [ORDER BY key] of a text *)
Definition order_by_text {A} `{Collation} (key : A -> string) (l : list A) : list A :=
  @merge_sort A (fun a b => collates (key a) (key b) = true)
    (fun a b => bool_eq_dec (collates (key a) (key b)) true) l.

(** ** Reasoning about operations *)

(** [m] run from a world satisfying [P] ends with [Q]. *)
Definition triple {A} (P : World -> Prop) (m : M A) (Q : A -> World -> Prop) : Prop :=
  forall w, P w -> Q (m w).1 (m w).2.

(** [m] keeps the invariant [I]. *)
Definition preserves (I : World -> Prop) {A} (m : M A) : Prop :=
  triple I m (fun _ => I).

(** A world whose statements all succeed. *)
Definition no_faults (w : World) : Prop := faults w = [].

Lemma triple_ret {A} P (Q : A -> World -> Prop) a :
  (forall w, P w -> Q a w) -> triple P (mret a : M A) Q.
Proof. intros H w Hw. by apply H. Qed.

Lemma triple_bind {A B} P (R : A -> World -> Prop) (Q : B -> World -> Prop)
    (m : M A) (f : A -> M B) :
  triple P m R -> (forall a, triple (R a) (f a) Q) -> triple P (m ≫= f) Q.
Proof.
  intros Hm Hf w Hw. specialize (Hm w Hw). unfold mbind, M_bind.
  destruct (m w) as [a w'] eqn:E. by apply Hf.
Qed.

Lemma triple_conseq {A} (P P' : World -> Prop) (Q Q' : A -> World -> Prop) (m : M A) :
  triple P' m Q' -> (forall w, P w -> P' w) -> (forall a w, Q' a w -> Q a w) ->
  triple P m Q.
Proof. intros Hm HP HQ w Hw. apply HQ, Hm, HP, Hw. Qed.

(** A fact about the values read so far is no fact about the world. *)
Lemma triple_pure {A} (phi : Prop) P (Q : A -> World -> Prop) (m : M A) :
  (phi -> triple P m Q) -> triple (fun w => P w /\ phi) m Q.
Proof. intros H w [Hw Hp]. by apply H. Qed.

Lemma triple_for_rows {A} (P : list A -> World -> Prop) (l : list A) body :
  (forall x l', triple (P (x :: l')) (body x) (fun _ => P l')) ->
  triple (P l) (for_rows l body) (fun _ => P []).
Proof.
  intros Hb. induction l as [|x l IH]; simpl; [by apply triple_ret|].
  eapply triple_bind; [apply Hb|]. by intros [].
Qed.

(** An invariant of the tables: the pending faults and the trace do not matter. *)
Class TableInv (I : World -> Prop) := {
  inv_drop_fault : forall w, I w -> I (drop_fault w);
  inv_set_effects : forall g w, I w -> I (set_effects g w)
}.

Lemma preserves_ret I {A} (a : A) : preserves I (mret a : M A).
Proof. by apply triple_ret. Qed.

Lemma preserves_bind I {A B} (m : M A) (f : A -> M B) :
  preserves I m -> (forall a, preserves I (f a)) -> preserves I (m ≫= f).
Proof. intros Hm Hf. eapply triple_bind; [exact Hm|exact Hf]. Qed.

Lemma preserves_get I {A} (f : World -> A) : preserves I (get f).
Proof. by intros w Hw. Qed.

Lemma preserves_modify (I : World -> Prop) f :
  (forall w, I w -> I (f w)) -> preserves I (modify f).
Proof. intros Hf w Hw. by apply Hf. Qed.

Section preserves.
Context (I : World -> Prop) `{TableInv I}.

Lemma preserves_emit e : preserves I (emit e).
Proof. apply preserves_modify. intros w. apply inv_set_effects. Qed.

Lemma preserves_exec rows f : (forall w, I w -> I (f w)) -> preserves I (exec rows f).
Proof.
  intros Hf w Hw. unfold exec. simpl. apply inv_drop_fault in Hw.
  destruct (match faults w with b :: _ => b | [] => false end); simpl; auto.
Qed.

Lemma preserves_exec_when guard f :
  (forall w, I w -> guard w = true -> I (f w)) -> preserves I (exec_when guard f).
Proof.
  intros Hf w Hw. unfold exec_when. simpl. apply inv_drop_fault in Hw.
  destruct (_ || negb _) eqn:E; simpl; [auto|]. apply orb_false_elim in E as [_ E].
  apply Hf; [auto|]. by apply negb_false_iff.
Qed.

Lemma preserves_exec_ f : (forall w, I w -> I (f w)) -> preserves I (exec_ f).
Proof.
  intros Hf. apply preserves_bind; [by apply preserves_exec|]. intros ?. apply preserves_ret.
Qed.

Lemma preserves_query {A} (f : World -> A) : preserves I (query f).
Proof.
  intros w Hw. unfold query. simpl. apply inv_drop_fault in Hw.
  destruct (match faults w with b :: _ => b | [] => false end); simpl; auto.
Qed.
End preserves.

Lemma preserves_for_rows I {A} (l : list A) body :
  (forall x, preserves I (body x)) -> preserves I (for_rows l body).
Proof.
  intros Hb. induction l as [|x l IH]; simpl; [apply preserves_ret|].
  by apply preserves_bind.
Qed.

(** Reduce [preserves I op] to the updates of the statements of [op]. *)
Ltac preserve_step :=
  match goal with
  | |- preserves _ (mret _) => apply preserves_ret
  | |- preserves _ (_ ≫= _) => apply preserves_bind; [|intros ?]
  | |- preserves _ (get _) => apply preserves_get
  | |- preserves _ (emit _) => apply preserves_emit; [apply _]
  | |- preserves _ (query _) => apply preserves_query; [apply _]
  | |- preserves _ (exec_ _) => apply preserves_exec_; [apply _|intros ? ?]
  | |- preserves _ (exec _ _) => apply preserves_exec; [apply _|intros ? ?]
  | |- preserves _ (exec_when _ _) => apply preserves_exec_when; [apply _|intros ? ? ?]
  | |- preserves _ (modify _) => apply preserves_modify; intros ? ?
  | |- preserves _ (for_rows _ _) => apply preserves_for_rows; intros ?
  | |- preserves _ (if ?b then _ else _) => destruct b eqn:?
  | |- preserves _ (match ?x with _ => _ end) => destruct x eqn:?
  | |- preserves _ _ => solve [auto with preserves]
  end.
Ltac preserve := repeat preserve_step.

(** A statement whose outcome is dropped happens or not. *)
Lemma exec__cases f w :
  exec_ f w = (tt, drop_fault w) \/ exec_ f w = (tt, f (drop_fault w)).
Proof.
  unfold exec_, exec, mbind, M_bind. simpl.
  destruct (match faults w with b :: _ => b | [] => false end); auto.
Qed.

Lemma query_cases {A} (f : World -> A) w :
  query f w = (Err "statement failed", drop_fault w) \/
  query f w = (Ok (f (drop_fault w)), drop_fault w).
Proof.
  unfold query. simpl. destruct (match faults w with b :: _ => b | [] => false end); auto.
Qed.

(** ** Statements that succeed *)

Lemma exec_ok rows f w : no_faults w -> exec rows f w = (Ok (rows w), f w).
Proof. unfold no_faults, exec. destruct w; simpl. by intros ->. Qed.

Lemma exec_when_ok guard f w :
  no_faults w -> guard w = true -> exec_when guard f w = (Ok 1%Z, f w).
Proof.
  unfold no_faults, exec_when. destruct w; simpl. intros -> Hg. simpl.
  unfold drop_fault. simpl. by rewrite Hg.
Qed.

Lemma exec__ok f w : no_faults w -> exec_ f w = (tt, f w).
Proof. intros H. unfold exec_, mbind, M_bind. by rewrite exec_ok. Qed.

Lemma query_ok {A} (f : World -> A) w : no_faults w -> query f w = (Ok (f w), w).
Proof. unfold no_faults, query. simpl. destruct w; simpl. by intros ->. Qed.

(** Running a sequence from a world whose statements succeed. *)
Lemma run_ret {A B} (a : A) (f : A -> M B) w : (mret a ≫= f) w = f a w.
Proof. done. Qed.
Lemma run_bind {A B C} (m : M A) (f : A -> M B) (g : B -> M C) w :
  ((m ≫= f) ≫= g) w = (m ≫= fun x => f x ≫= g) w.
Proof. unfold mbind, M_bind. by destruct (m w). Qed.
Lemma run_eq {A B} (m : M A) (f : A -> M B) w a w' :
  m w = (a, w') -> (m ≫= f) w = f a w'.
Proof. unfold mbind, M_bind. by intros ->. Qed.
Lemma run_emit {B} e (f : unit -> M B) w :
  (emit e ≫= f) w = f tt (set_effects (fun es => es ++ [e])%list w).
Proof. done. Qed.
Lemma run_exec_ {B} g (f : unit -> M B) w :
  no_faults w -> (exec_ g ≫= f) w = f tt (g w).
Proof. intros H. unfold mbind, M_bind. by rewrite exec__ok. Qed.
Lemma run_exec {B} rows g (f : _ -> M B) w :
  no_faults w -> (exec rows g ≫= f) w = f (Ok (rows w)) (g w).
Proof. intros H. unfold mbind, M_bind. by rewrite exec_ok. Qed.
Lemma run_exec_when {B} guard g (f : _ -> M B) w :
  no_faults w -> guard w = true -> (exec_when guard g ≫= f) w = f (Ok 1%Z) (g w).
Proof. intros H Hg. unfold mbind, M_bind. by rewrite exec_when_ok. Qed.
Lemma run_query {A B} (q : World -> A) (f : _ -> M B) w :
  no_faults w -> (query q ≫= f) w = f (Ok (q w)) w.
Proof. intros H. unfold mbind, M_bind. by rewrite query_ok. Qed.

(** Rewrite with the rules above as long as the next step is a statement. *)
Ltac run :=
  repeat (first
    [ rewrite run_bind | rewrite run_ret | rewrite run_emit
    | rewrite run_exec_ by assumption | rewrite run_exec by assumption
    | rewrite run_query by assumption ]; cbn beta iota).

Lemma no_faults_inv : TableInv no_faults.
Proof. split; unfold no_faults; simpl; [by intros w ->|done]. Qed.

(** Tasks fixed, no statement failing: what leaves the task table alone. *)
Definition tasks_are (T : gmap UUID Task) (w : World) : Prop := tasks w = T /\ no_faults w.

#[export] Instance tasks_are_inv T : TableInv (tasks_are T).
Proof.
  split; unfold tasks_are, no_faults; simpl; [|done]. by intros w [-> ->].
Qed.

(** ** Tables *)

Lemma update_where_lookup {A} p f (m : gmap UUID A) k :
  update_where p f m !! k = (fun a => if p k a then f a else a) <$> m !! k.
Proof. unfold update_where. rewrite map_lookup_imap. by destruct (m !! k). Qed.

Lemma delete_where_lookup {A} p (m : gmap UUID A) k a :
  delete_where p m !! k = Some a <-> m !! k = Some a /\ p k a = false.
Proof. unfold delete_where. by rewrite map_lookup_filter_Some. Qed.

Lemma select_elem_of {A} `{RowOrder} p (m : gmap UUID A) k a :
  (k, a) ∈ select p m <-> m !! k = Some a /\ p k a = true.
Proof.
  unfold select. rewrite row_order_perm, list_elem_of_filter, elem_of_map_to_list.
  simpl. tauto.
Qed.

Lemma select_NoDup {A} `{RowOrder} p (m : gmap UUID A) : NoDup (select p m).*1.
Proof.
  unfold select. rewrite row_order_perm.
  assert (Hsub : sublist (base.filter (fun kv => p kv.1 kv.2 = true) (map_to_list m)).*1
                         (map_to_list m).*1).
  { induction (map_to_list m) as [|kv l IH]; [done|].
    rewrite filter_cons. case_decide; simpl; by constructor. }
  eapply sublist_NoDup; [|exact Hsub]. apply NoDup_fst_map_to_list.
Qed.

Lemma order_by_elem_of {A} (key : A -> Z) l x : x ∈ order_by key l <-> x ∈ l.
Proof. unfold order_by. by rewrite merge_sort_Permutation. Qed.

Lemma firstn_elem_of {A} n (l : list A) x : x ∈ firstn n l -> x ∈ l.
Proof.
  intros Hx. rewrite <- (firstn_skipn n l). apply elem_of_app. by left.
Qed.

Lemma row_order_elem `{RowOrder} {A} (l : list A) x : x ∈ row_order l <-> x ∈ l.
Proof. by rewrite row_order_perm. Qed.

(** [SELECT ... WHERE p ORDER BY key LIMIT n] *)
Lemma top_rows_elem_of {A} `{RowOrder} p (m : gmap UUID A) key n k a :
  (k, a) ∈ firstn n (order_by key (select p m)) -> m !! k = Some a /\ p k a = true.
Proof. intros Hx%firstn_elem_of. rewrite order_by_elem_of in Hx. by apply select_elem_of. Qed.

Lemma top_rows_NoDup {A} `{RowOrder} p (m : gmap UUID A) key n :
  NoDup (firstn n (order_by key (select p m))).*1.
Proof.
  rewrite fmap_take. eapply sublist_NoDup; [|apply sublist_take].
  unfold order_by. rewrite merge_sort_Permutation. apply select_NoDup.
Qed.

Lemma top_rows_nil {A} `{RowOrder} p (m : gmap UUID A) key n k a :
  firstn (S n) (order_by key (select p m)) = [] -> m !! k = Some a -> p k a = false.
Proof.
  intros E Hk. destruct (p k a) eqn:Hp; [|done]. exfalso.
  assert ((k, a) ∈ order_by key (select p m)) as Hx
    by (rewrite order_by_elem_of; by apply select_elem_of).
  destruct (order_by key (select p m)); [by apply elem_of_nil in Hx|done].
Qed.

Lemma select_fst_elem_of {A} `{RowOrder} p (m : gmap UUID A) k :
  k ∈ (select p m).*1 <-> exists a, m !! k = Some a /\ p k a = true.
Proof.
  rewrite list_elem_of_fmap. setoid_rewrite <- select_elem_of. split.
  - intros ([k' a] & -> & ?). eauto.
  - intros [a ?]. by exists (k, a).
Qed.

Lemma count_where_mono {A} p (m m' : gmap UUID A) :
  (forall k a', m' !! k = Some a' -> p k a' = true ->
     exists a, m !! k = Some a /\ p k a = true) ->
  (count_where p m' <= count_where p m)%Z.
Proof.
  intros H. unfold count_where. apply Nat2Z.inj_le. rewrite <- !size_dom.
  apply subseteq_size. intros k. rewrite !elem_of_dom.
  intros [a' [Hm' Hp]%map_lookup_filter_Some]. destruct (H k a' Hm' Hp) as (a & Hm & Hpa).
  exists a. by apply map_lookup_filter_Some.
Qed.

Lemma count_where_insert {A} p (m : gmap UUID A) k a :
  (count_where p (<[k := a]> m) <= count_where p m + 1)%Z.
Proof.
  unfold count_where. rewrite <- !size_dom.
  transitivity (Z.of_nat (size ({[k]} ∪ dom (base.filter (fun kv => p kv.1 kv.2 = true) m)))).
  - apply Nat2Z.inj_le, subseteq_size. intros k'. rewrite elem_of_union, !elem_of_dom.
    intros [a' [Hm' Hp]%map_lookup_filter_Some].
    destruct (decide (k = k')) as [->|Hne]; [left; set_solver|right].
    exists a'. rewrite lookup_insert_ne in Hm' by done. by apply map_lookup_filter_Some.
  - rewrite size_union_alt, size_singleton.
    pose proof (subseteq_size (dom (base.filter (fun kv => p kv.1 kv.2 = true) m) ∖ {[k]})
      (dom (base.filter (fun kv => p kv.1 kv.2 = true) m)) ltac:(set_solver)). lia.
Qed.

Lemma is_terminal_spec s : is_terminal s = true <-> s ∈ terminal_statuses.
Proof.
  unfold is_terminal. rewrite existsb_elem_of. split.
  - by intros (x & Hx & ->%String.eqb_eq).
  - intros Hs. exists s. by rewrite String.eqb_refl.
Qed.

Create HintDb preserves discriminated.
#[export] Hint Resolve preserves_ret preserves_get : preserves.

#[global] Arguments exec : simpl never.
#[global] Arguments exec_ : simpl never.
#[global] Arguments exec_when : simpl never.
#[global] Arguments query : simpl never.
