(* ===== verification/Db.v ===== *)
(** * Programs over tables

    The shape shared by the services that keep their state in PostgreSQL and return
    [(T, error)]: a program runs on a state [T] and a list of outcomes for the steps that
    can fail.  A step fails when the next entry is [true]; a failed statement changes
    nothing, and once the list is empty every step succeeds.  Statements about every list
    hold whatever fails; statements about [quiet] states describe the undisturbed run. *)

From Stdlib Require Import ZArith Lia String.
From stdpp Require Import base list gmap strings sorting.
From S2P Require Import Prelude SwarmDb.
Local Open Scope string_scope.
Local Open Scope rtv_scope.

Record Run (T : Type) := MkRun { tables : T; fails : list bool }.
Arguments MkRun {T} _ _.
Arguments tables {T} _.
Arguments fails {T} _.

Definition DB (T A : Type) : Type := Run T -> A * Run T.

#[export] Instance DB_ret T : MRet (DB T) := fun A a r => (a, r).
#[export] Instance DB_bind T : MBind (DB T) := fun A B f m r => let '(a, r') := m r in f a r'.

(** A program that ends with a value or an error. *)
Notation DBE T A := (DB T (result A string)).

Definition ok {T A E} (a : A) : DB T (result A E) := mret (Ok a).
Definition fail {T A E} (e : E) : DB T (result A E) := mret (Err e).

(** [if err != nil { return err }] *)
Definition try_bind {T A B E} (m : DB T (result A E)) (f : A -> DB T (result B E))
    : DB T (result B E) :=
  r ← m; match r with Ok a => f a | Err e => fail e end.
Notation "x ←? m ; k" := (try_bind m (fun x => k))
  (at level 20, m at level 100, k at level 200, right associativity) : rtv_scope.
Notation "m ;? k" := (try_bind m (fun _ => k))
  (at level 100, k at level 200, right associativity) : rtv_scope.

(** [fmt.Errorf("<p>: %w", err)] *)
Definition wrap_err {A} (p : string) (r : result A string) : result A string :=
  match r with Ok a => Ok a | Err e => Err (p ++ ": " ++ e) end.
Definition wrapping {T A} (p : string) (m : DBE T A) : DBE T A :=
  r ← m; mret (wrap_err p r).

(** ** Steps *)

Definition set_tables {T} (t : T) (r : Run T) : Run T := MkRun t (fails r).

(** Whether the next step fails. *)
Definition next_fails {T} : DB T bool := fun r =>
  (match fails r with b :: _ => b | [] => false end, MkRun (tables r) (tail (fails r))).

Definition reads {T A} (f : T -> A) : DB T A := fun r => (f (tables r), r).
Definition writes {T} (f : T -> T) : DB T unit := fun r => (tt, set_tables (f (tables r)) r).

Definition failure : string := "statement failed".
Definition no_rows : string := "no rows in result set".

(** [Exec] *)
Definition statement {T} (f : T -> T) : DBE T unit :=
  next_fails ≫= fun b : bool => if b then fail failure else writes f;; ok tt.

(** [Query] *)
Definition query {T A} (f : T -> A) : DBE T A :=
  next_fails ≫= fun b : bool => if b then fail failure else a ← reads f; ok a.

(** A statement that the database refuses in some states. *)
Definition guarded {T} (accepts : T -> bool) (f : T -> T) : DBE T unit :=
  next_fails ≫= fun b : bool =>
    if b then fail failure
    else reads accepts ≫= fun a : bool => if a then writes f;; ok tt else fail failure.

(** [INSERT]: the database names a broken unique constraint in the text of its error. *)
Definition duplicate_key : string :=
  "ERROR: duplicate key value violates unique constraint (SQLSTATE 23505)".
Definition inserting {T} (duplicate accepts : T -> bool) (f : T -> T) : DBE T unit :=
  next_fails ≫= fun b : bool =>
    if b then fail failure
    else reads duplicate ≫= fun d : bool =>
      if d then fail duplicate_key
      else reads accepts ≫= fun a : bool => if a then writes f;; ok tt else fail failure.

(** A statement with a result, such as the number of rows it affects. *)
Definition returning {T A} (f : T -> A * T) : DBE T A :=
  next_fails ≫= fun b : bool =>
    if b then fail failure else a ← reads (fun t => (f t).1); writes (fun t => (f t).2);; ok a.

(** Both. *)
Definition checked {T A} (accepts : T -> bool) (f : T -> A * T) : DBE T A :=
  next_fails ≫= fun b : bool =>
    if b then fail failure
    else reads accepts ≫= fun a : bool =>
      if a then a ← reads (fun t => (f t).1); writes (fun t => (f t).2);; ok a else fail failure.

(** [QueryRow] *)
Definition query_row {T A} (f : T -> option A) : DBE T A :=
  (o ←? query f; match o with Some a => ok a | None => fail no_rows end)%rtv.

(** The errors of the package [store]. *)
Definition ErrNotFound := "record not found".
Definition ErrConflict := "update conflict".
Definition is_not_found (e : string) : bool := String.eqb e ErrNotFound.

(** [QueryRow ... Scan], where no row is [ErrNotFound] and other errors are wrapped. *)
Definition get_row {T A} (what : string) (f : T -> option A) : DBE T A :=
  (o ←? wrapping what (query f); match o with Some a => ok a | None => fail ErrNotFound end)%rtv.

(** [Exec] of a statement on one row, where no affected row is [ErrNotFound]. *)
Definition exec_row {T} (what : string) (accepts : T -> bool) (f : T -> Z * T) : DBE T unit :=
  (n ←? wrapping what (checked accepts f);
   if (n =? 0)%Z then fail ErrNotFound else ok tt)%rtv.

(** [Begin ... Commit]: an error on the way, or of the commit, rolls the tables back. *)
Definition transaction {T} (body : DBE T unit) : DBE T unit := fun r =>
  let saved := tables r in
  let '(res, r') := (next_fails ≫= fun b : bool => if b then fail failure else body) r in
  match res with
  | Err e => (Err e, set_tables saved r')
  | Ok _ => (next_fails ≫= fun b : bool => if b then writes (fun _ => saved);; fail failure
                                    else ok tt) r'
  end.

(** [for _, x := range l] over statements, stopping at the first error. *)
Fixpoint for_all {T A} (l : list A) (body : A -> DBE T unit) : DBE T unit :=
  match l with
  | [] => ok tt
  | x :: l => (body x;? for_all l body)%rtv
  end.

(** The same over steps that cannot end the loop. *)
Fixpoint every {T A} (l : list A) (body : A -> DB T unit) : DB T unit :=
  match l with
  | [] => mret tt
  | x :: l => body x;; every l body
  end.

(** The error is dropped. *)
Definition ignoring {T A} (m : DBE T A) : DB T unit := m;; mret tt.

(** A program on a part of the state. *)
Definition zoom {S T A} (get : S -> T) (put : T -> S -> S) (m : DB T A) : DB S A := fun r =>
  let '(a, r') := m (MkRun (get (tables r)) (fails r)) in
  (a, MkRun (put (tables r') (tables r)) (fails r')).

(** ** Runs without failures *)

Definition quiet {T} (t : T) : Run T := MkRun t [].

Section runs.
Context {T : Type}.

Lemma bind_run {A B} (m : DB T A) (f : A -> DB T B) r a r' :
  m r = (a, r') -> (m ≫= f) r = f a r'.
Proof. intros E. unfold mbind, DB_bind. by rewrite E. Qed.

Lemma try_run {A B E} (m : DB T (result A E)) (f : A -> DB T (result B E)) r a r' :
  m r = (Ok a, r') -> try_bind m f r = f a r'.
Proof. intros Hm. unfold try_bind. by rewrite (bind_run _ _ _ _ _ Hm). Qed.

Lemma try_ok {A B E} (a : A) (f : A -> DB T (result B E)) : try_bind (ok a) f = f a.
Proof. reflexivity. Qed.

Lemma try_fail {A B E} (e : E) (f : A -> DB T (result B E)) : try_bind (fail e) f = fail e.
Proof. reflexivity. Qed.

Lemma try_run_err {A B E} (m : DB T (result A E)) (f : A -> DB T (result B E)) r e r' :
  m r = (Err e, r') -> try_bind m f r = (Err e, r').
Proof. intros Hm. unfold try_bind. by rewrite (bind_run _ _ _ _ _ Hm). Qed.

Lemma wrapping_run {A} p (m : DBE T A) r x r' :
  m r = (x, r') -> wrapping p m r = (wrap_err p x, r').
Proof. intros E. unfold wrapping. by rewrite (bind_run _ _ _ _ _ E). Qed.

Lemma statement_quiet (f : T -> T) t : statement f (quiet t) = (Ok tt, quiet (f t)).
Proof. done. Qed.

Lemma guarded_quiet accepts (f : T -> T) t :
  guarded accepts f (quiet t) =
  if accepts t then (Ok tt, quiet (f t)) else (Err failure, quiet t).
Proof. unfold guarded, mbind, DB_bind. cbn. by destruct (accepts t). Qed.

Lemma inserting_quiet duplicate accepts (f : T -> T) t :
  inserting duplicate accepts f (quiet t) =
  if duplicate t then (Err duplicate_key, quiet t)
  else if accepts t then (Ok tt, quiet (f t)) else (Err failure, quiet t).
Proof.
  unfold inserting, mbind, DB_bind. cbn. destruct (duplicate t); [done|].
  cbn. by destruct (accepts t).
Qed.

Lemma returning_quiet {A} (f : T -> A * T) t :
  returning f (quiet t) = (Ok (f t).1, quiet (f t).2).
Proof. done. Qed.

Lemma checked_quiet {A} accepts (f : T -> A * T) t :
  checked accepts f (quiet t) =
  if accepts t then (Ok (f t).1, quiet (f t).2) else (Err failure, quiet t).
Proof. unfold checked, mbind, DB_bind. cbn. by destruct (accepts t). Qed.

Lemma query_quiet {A} (f : T -> A) t : query f (quiet t) = (Ok (f t), quiet t).
Proof. done. Qed.

Lemma query_row_quiet {A} (f : T -> option A) t :
  query_row f (quiet t) =
  (match f t with Some a => Ok a | None => Err no_rows end, quiet t).
Proof. unfold query_row. rewrite (try_run _ _ _ _ _ (query_quiet f t)). by destruct (f t). Qed.

Lemma get_row_quiet {A} what (f : T -> option A) t :
  get_row what f (quiet t) =
  (match f t with Some a => Ok a | None => Err ErrNotFound end, quiet t).
Proof.
  unfold get_row.
  rewrite (try_run _ _ _ _ _ (wrapping_run what _ _ _ _ (query_quiet f t))). by destruct (f t).
Qed.

Lemma exec_row_quiet what accepts (f : T -> Z * T) t :
  exec_row what accepts f (quiet t) =
  if accepts t then
    (if ((f t).1 =? 0)%Z then Err ErrNotFound else Ok tt, quiet (f t).2)
  else (Err (what ++ ": " ++ failure), quiet t).
Proof.
  unfold exec_row. pose proof (checked_quiet accepts f t) as E. destruct (accepts t).
  - rewrite (try_run _ _ _ _ _ (wrapping_run what _ _ _ _ E)). by destruct (_ =? 0)%Z.
  - by rewrite (try_run_err _ _ _ _ _ (wrapping_run what _ _ _ _ E)).
Qed.

Lemma for_all_quiet {A} (l : list A) (body : A -> DBE T unit) (step : A -> T -> T) t :
  (forall x t, body x (quiet t) = (Ok tt, quiet (step x t))) ->
  for_all l body (quiet t) = (Ok tt, quiet (fold_left (fun t x => step x t) l t)).
Proof.
  intros Hb. revert t. induction l as [|x l IH]; intros t; [done|]. simpl.
  rewrite (try_run _ _ _ _ _ (Hb x t)). apply IH.
Qed.

Lemma every_app {A} (l1 l2 : list A) (body : A -> DB T unit) r r1 :
  every l1 body r = (tt, r1) -> every (l1 ++ l2) body r = every l2 body r1.
Proof.
  revert r. induction l1 as [|x l1 IH]; intros r; cbn [every app]; [by intros [= ->]|].
  unfold mbind, DB_bind. destruct (body x r) as [u r']. apply IH.
Qed.

Lemma transaction_quiet (body : DBE T unit) t t' :
  body (quiet t) = (Ok tt, quiet t') -> transaction body (quiet t) = (Ok tt, quiet t').
Proof.
  intros E. unfold transaction, next_fails, mbind, DB_bind. cbn.
  change (MkRun t []) with (quiet t). by rewrite E.
Qed.

(** ** Whatever fails *)

(** From tables in [P], [m] ends with a value and tables in [Q]. *)
Definition ensures {A} (P : T -> Prop) (m : DB T A) (Q : A -> T -> Prop) : Prop :=
  forall r, P (tables r) -> Q (m r).1 (tables (m r).2).

Lemma ensures_ret {A} (P : T -> Prop) (Q : A -> T -> Prop) a :
  (forall t, P t -> Q a t) -> ensures P (mret a) Q.
Proof. intros HQ r Hr. by apply HQ. Qed.

Lemma ensures_bind {A B} P (R : A -> T -> Prop) Q (m : DB T A) (f : A -> DB T B) :
  ensures P m R -> (forall a, ensures (R a) (f a) Q) -> ensures P (m ≫= f) Q.
Proof.
  intros Hm Hf r Hr. unfold mbind, DB_bind. specialize (Hm r Hr).
  destruct (m r) as [a r']. by apply Hf.
Qed.

Lemma ensures_conseq {A} (P P' : T -> Prop) (Q Q' : A -> T -> Prop) (m : DB T A) :
  ensures P' m Q' -> (forall t, P t -> P' t) -> (forall a t, Q' a t -> Q a t) -> ensures P m Q.
Proof. intros Hm HP HQ r Hr. by apply HQ, Hm, HP. Qed.

Lemma ensures_pure {A} (phi : Prop) P Q (m : DB T A) :
  (phi -> ensures P m Q) -> ensures (fun t => P t /\ phi) m Q.
Proof. intros Hm r [Hr Hphi]. by apply Hm. Qed.

Lemma ensures_try {A B E} P (R : A -> T -> Prop) Q (m : DB T (result A E))
    (f : A -> DB T (result B E)) :
  ensures P m (fun x t => match x with Ok a => R a t | Err e => Q (Err e) t end) ->
  (forall a, ensures (R a) (f a) Q) -> ensures P (try_bind m f) Q.
Proof.
  intros Hm Hf. eapply ensures_bind; [exact Hm|]. intros [a|e]; [apply Hf|].
  by apply ensures_ret.
Qed.

Lemma ensures_wrapping {A} P Q p (m : DBE T A) :
  ensures P m (fun x t => Q (wrap_err p x) t) -> ensures P (wrapping p m) Q.
Proof. intros Hm. eapply ensures_bind; [exact Hm|]. intros x. by apply ensures_ret. Qed.

Lemma ensures_reads {A} (P : T -> Prop) (Q : A -> T -> Prop) f :
  (forall t, P t -> Q (f t) t) -> ensures P (reads f) Q.
Proof. intros HQ r Hr. by apply HQ. Qed.

Lemma ensures_writes (P : T -> Prop) (Q : unit -> T -> Prop) f :
  (forall t, P t -> Q tt (f t)) -> ensures P (writes f) Q.
Proof. intros HQ r Hr. by apply HQ. Qed.

Lemma ensures_next_fails (P : T -> Prop) : ensures P next_fails (fun _ => P).
Proof. by intros r Hr. Qed.

Lemma ensures_statement (P : T -> Prop) (Q : result unit string -> T -> Prop) f :
  (forall t, P t -> Q (Ok tt) (f t)) -> (forall t, P t -> Q (Err failure) t) ->
  ensures P (statement f) Q.
Proof.
  intros Hok Herr. eapply ensures_bind; [apply ensures_next_fails|].
  intros []; [by apply ensures_ret|]. intros r Hr. by apply Hok.
Qed.

Lemma ensures_guarded (P : T -> Prop) (Q : result unit string -> T -> Prop) accepts f :
  (forall t, P t -> accepts t = true -> Q (Ok tt) (f t)) ->
  (forall t, P t -> Q (Err failure) t) -> ensures P (guarded accepts f) Q.
Proof.
  intros Hok Herr. eapply ensures_bind; [apply ensures_next_fails|].
  intros []; [by apply ensures_ret|]. intros r Hr. unfold mbind, DB_bind. cbn.
  destruct (accepts (tables r)) eqn:E; cbn; auto.
Qed.

Lemma ensures_inserting (P : T -> Prop) (Q : result unit string -> T -> Prop) duplicate accepts f :
  (forall t, P t -> duplicate t = false -> accepts t = true -> Q (Ok tt) (f t)) ->
  (forall t e, P t -> Q (Err e) t) -> ensures P (inserting duplicate accepts f) Q.
Proof.
  intros Hok Herr. eapply ensures_bind; [apply ensures_next_fails|].
  intros []; [by apply ensures_ret; intros; apply Herr|]. intros r Hr. unfold mbind, DB_bind. cbn.
  destruct (duplicate (tables r)) eqn:E; cbn; [auto|].
  destruct (accepts (tables r)) eqn:E2; cbn; auto.
Qed.

Lemma ensures_returning {A} (P : T -> Prop) (Q : result A string -> T -> Prop) f :
  (forall t, P t -> Q (Ok (f t).1) (f t).2) -> (forall t, P t -> Q (Err failure) t) ->
  ensures P (returning f) Q.
Proof.
  intros Hok Herr. eapply ensures_bind; [apply ensures_next_fails|].
  intros []; [by apply ensures_ret|]. intros r Hr. by apply Hok.
Qed.

Lemma ensures_checked {A} (P : T -> Prop) (Q : result A string -> T -> Prop) accepts f :
  (forall t, P t -> accepts t = true -> Q (Ok (f t).1) (f t).2) ->
  (forall t, P t -> Q (Err failure) t) -> ensures P (checked accepts f) Q.
Proof.
  intros Hok Herr. eapply ensures_bind; [apply ensures_next_fails|].
  intros []; [by apply ensures_ret|]. intros r Hr. unfold mbind, DB_bind. cbn.
  destruct (accepts (tables r)) eqn:E; cbn; auto.
Qed.

Lemma ensures_query {A} (P : T -> Prop) (Q : result A string -> T -> Prop) f :
  (forall t, P t -> Q (Ok (f t)) t) -> (forall t, P t -> Q (Err failure) t) ->
  ensures P (query f) Q.
Proof.
  intros Hok Herr. eapply ensures_bind; [apply ensures_next_fails|].
  intros []; [by apply ensures_ret|]. intros r Hr. by apply Hok.
Qed.

Lemma ensures_query_row {A} (P : T -> Prop) (Q : result A string -> T -> Prop) f :
  (forall t a, P t -> f t = Some a -> Q (Ok a) t) -> (forall t e, P t -> Q (Err e) t) ->
  ensures P (query_row f) Q.
Proof.
  intros Hok Herr. unfold query_row. intros r Hr.
  assert (ensures (fun t => t = tables r)
    (try_bind (query f) (fun o => match o with Some a => ok a | None => fail no_rows end))
    (fun x t => t = tables r /\ Q x t)) as He.
  { eapply (ensures_try _ (fun o t => t = tables r /\ f t = o)).
    - apply ensures_query; [done|]. intros t ->. split; [done|]. by apply Herr.
    - intros [a|]; apply ensures_ret; intros t [-> Hf]; split; auto. }
  by apply (He r eq_refl).
Qed.

Lemma ensures_get_row {A} what (P : T -> Prop) f (Q : result A string -> T -> Prop) :
  (forall t a, P t -> f t = Some a -> Q (Ok a) t) -> (forall t e, P t -> Q (Err e) t) ->
  ensures P (get_row what f) Q.
Proof.
  intros Hok Herr. unfold get_row.
  eapply (ensures_try _ (fun o t => P t /\ f t = o)).
  - apply ensures_wrapping, ensures_query; [by intros t Ht|]. intros t Ht. by apply Herr.
  - intros [a|]; apply ensures_ret; intros t [Ht E]; auto.
Qed.

Lemma ensures_exec_row what (P : T -> Prop) accepts f (Q : result unit string -> T -> Prop) :
  (forall t, P t -> accepts t = true ->
     Q (if ((f t).1 =? 0)%Z then Err ErrNotFound else Ok tt) (f t).2) ->
  (forall t e, P t -> Q (Err e) t) -> ensures P (exec_row what accepts f) Q.
Proof.
  intros Hok Herr. unfold exec_row.
  eapply (ensures_try _ (fun n t => Q (if (n =? 0)%Z then Err ErrNotFound else Ok tt) t)).
  - apply ensures_wrapping, ensures_checked; [exact Hok|]. intros t Ht. by apply Herr.
  - intros n. destruct (n =? 0)%Z; by apply ensures_ret.
Qed.

Lemma ensures_transaction (P : T -> Prop) (Q : result unit string -> T -> Prop) body :
  (forall t e, P t -> Q (Err e) t) ->
  ensures P body (fun x t => x = Ok tt -> Q (Ok tt) t) ->
  ensures P (transaction body) Q.
Proof.
  intros Herr Hb [t fs] Hr. unfold transaction, next_fails, mbind, DB_bind. cbn.
  destruct fs as [|[] fs]; cbn; [|by apply Herr|].
  - specialize (Hb (MkRun t []) Hr). destruct (body (MkRun t [])) as [[[]|e] [t' fs']];
      cbn in *; [|by apply Herr]. destruct fs' as [|[] fs']; cbn; auto.
  - specialize (Hb (MkRun t fs) Hr). destruct (body (MkRun t fs)) as [[[]|e] [t' fs']];
      cbn in *; [|by apply Herr]. destruct fs' as [|[] fs']; cbn; auto.
Qed.

Lemma ensures_for_all {A} (I : T -> Prop) (l : list A) body :
  (forall x, x ∈ l -> ensures I (body x) (fun _ => I)) -> ensures I (for_all l body) (fun _ => I).
Proof.
  induction l as [|x l IH]; intros Hb; [by apply ensures_ret|]. simpl.
  eapply (ensures_try _ (fun _ => I)).
  - eapply ensures_conseq; [apply Hb; by left|done|]. by intros [].
  - intros _. apply IH. intros y Hy. apply Hb. by right.
Qed.

Lemma ensures_every {A} (I : T -> Prop) (l : list A) body :
  (forall x, x ∈ l -> ensures I (body x) (fun _ => I)) -> ensures I (every l body) (fun _ => I).
Proof.
  induction l as [|x l IH]; intros Hb; [by apply ensures_ret|]. simpl.
  eapply (ensures_bind _ (fun _ => I)); [apply Hb; by left|].
  intros _. apply IH. intros y Hy. apply Hb. by right.
Qed.

Lemma ensures_ignoring {A} (I : T -> Prop) (m : DBE T A) :
  ensures I m (fun _ => I) -> ensures I (ignoring m) (fun _ => I).
Proof. intros Hm. eapply ensures_bind; [exact Hm|]. intros x. by apply ensures_ret. Qed.

(** The intermediate value is described by a fact of its own. *)
Lemma ensures_bind_pure {A B} (P R : T -> Prop) (phi : A -> Prop) Q (m : DB T A) (f : A -> DB T B) :
  ensures P m (fun a t => R t /\ phi a) -> (forall a, phi a -> ensures R (f a) Q) ->
  ensures P (m ≫= f) Q.
Proof. intros Hm Hf. eapply ensures_bind; [exact Hm|]. intros a. apply (ensures_pure (phi a) R), Hf. Qed.

Lemma ensures_try_pure {A B E} (P R : T -> Prop) (phi : A -> Prop) Q (m : DB T (result A E))
    (f : A -> DB T (result B E)) :
  ensures P m (fun r t => R t /\ match r with Ok a => phi a | Err _ => True end) ->
  (forall a, phi a -> ensures R (f a) Q) -> (forall e t, R t -> Q (Err e) t) ->
  ensures P (try_bind m f) Q.
Proof.
  intros Hm Hf He. eapply ensures_bind_pure; [exact Hm|]. intros [a|e] Hr; [by apply Hf|].
  apply ensures_ret. auto.
Qed.

(** A program that changes nothing, run on a table that satisfies [I]. *)
Lemma ensures_reading {A} (I : T -> Prop) (m : DB T A) (phi : T -> A -> Prop) (psi : A -> Prop) :
  (forall t, ensures (eq t) m (fun a t' => t' = t /\ phi t a)) ->
  (forall t a, I t -> phi t a -> psi a) -> ensures I m (fun a t => I t /\ psi a).
Proof.
  intros Hm Hpsi r Hr. destruct (Hm (tables r) r eq_refl) as [E Hphi]. rewrite E. eauto.
Qed.

(** ** Invariants *)

(** Whatever fails, [m] keeps [I]. *)
Definition stays {A} (I : T -> Prop) (m : DB T A) : Prop := ensures I m (fun _ => I).

Lemma stays_ret {A} I (a : A) : stays I (mret a).
Proof. by apply ensures_ret. Qed.

Lemma stays_bind {A B} I (m : DB T A) (f : A -> DB T B) :
  stays I m -> (forall a, stays I (f a)) -> stays I (m ≫= f).
Proof. apply ensures_bind. Qed.

Lemma stays_try {A B E} I (m : DB T (result A E)) (f : A -> DB T (result B E)) :
  stays I m -> (forall a, stays I (f a)) -> stays I (try_bind m f).
Proof.
  intros Hm Hf. apply stays_bind; [done|]. intros [a|e]; [apply Hf|apply stays_ret].
Qed.

Lemma stays_wrapping {A} I p (m : DBE T A) : stays I m -> stays I (wrapping p m).
Proof. intros Hm. apply stays_bind; [done|]. intros x. apply stays_ret. Qed.

Lemma stays_ignoring {A} I (m : DBE T A) : stays I m -> stays I (ignoring m).
Proof. apply ensures_ignoring. Qed.

Lemma stays_reads {A} I (f : T -> A) : stays I (reads f).
Proof. by apply ensures_reads. Qed.

Lemma stays_writes (I : T -> Prop) f : (forall t, I t -> I (f t)) -> stays I (writes f).
Proof. intros Hf. by apply (ensures_writes I (fun _ => I)). Qed.

Lemma stays_next_fails I : stays I next_fails.
Proof. apply ensures_next_fails. Qed.

Lemma stays_statement (I : T -> Prop) f : (forall t, I t -> I (f t)) -> stays I (statement f).
Proof. intros Hf. by apply ensures_statement. Qed.

Lemma stays_query {A} I (f : T -> A) : stays I (query f).
Proof. by apply ensures_query. Qed.

Lemma stays_query_row {A} I (f : T -> option A) : stays I (query_row f).
Proof. apply ensures_query_row; auto. Qed.

Lemma stays_guarded (I : T -> Prop) p f :
  (forall t, I t -> p t = true -> I (f t)) -> stays I (guarded p f).
Proof. intros Hf. by apply ensures_guarded. Qed.

Lemma stays_inserting (I : T -> Prop) d p f :
  (forall t, I t -> d t = false -> p t = true -> I (f t)) -> stays I (inserting d p f).
Proof. intros Hf. by apply ensures_inserting. Qed.

Lemma stays_checked {A} (I : T -> Prop) p (f : T -> A * T) :
  (forall t, I t -> p t = true -> I (f t).2) -> stays I (checked p f).
Proof. intros Hf. by apply ensures_checked. Qed.

Lemma stays_returning {A} (I : T -> Prop) (f : T -> A * T) :
  (forall t, I t -> I (f t).2) -> stays I (returning f).
Proof. intros Hf. by apply ensures_returning. Qed.

Lemma stays_get_row {A} I what (f : T -> option A) : stays I (get_row what f).
Proof. by apply ensures_get_row. Qed.

Lemma stays_every {A} I (l : list A) body : (forall x, stays I (body x)) -> stays I (every l body).
Proof. intros Hb. apply ensures_every. intros x _. apply Hb. Qed.

End runs.

Lemma zoom_run {S T A} (get : S -> T) (put : T -> S -> S) (m : DB T A) s fs a t fs' :
  m (MkRun (get s) fs) = (a, MkRun t fs') ->
  zoom get put m (MkRun s fs) = (a, MkRun (put t s) fs').
Proof. intros E. unfold zoom. cbn. by rewrite E. Qed.

(** What [m] does to its part, whatever [R] says of the rest. *)
Lemma ensures_zoom {S T A} (get : S -> T) (put : T -> S -> S) (P : T -> Prop) (R : S -> Prop)
    (Q : A -> T -> Prop) (m : DB T A) :
  (forall t s, get (put t s) = t) -> (forall t s, R s -> R (put t s)) -> ensures P m Q ->
  ensures (fun s => P (get s) /\ R s) (zoom get put m) (fun a s => Q a (get s) /\ R s).
Proof.
  intros Hg Hp Hm r [Hr HR]. unfold zoom.
  specialize (Hm (MkRun (get (tables r)) (fails r)) Hr).
  destruct (m _) as [a r']. cbn in *. rewrite Hg. auto.
Qed.

Lemma stays_zoom {S T A} (get : S -> T) (put : T -> S -> S) (I : S -> Prop) (J : T -> Prop)
    (m : DB T A) :
  (forall s, I s -> J (get s)) -> (forall s t, I s -> J t -> I (put t s)) ->
  stays J m -> stays I (zoom get put m).
Proof.
  intros Hg Hp Hm r Hr. unfold zoom. specialize (Hm (MkRun (get (tables r)) (fails r)) (Hg _ Hr)).
  destruct (m _) as [a r']. cbn in *. auto.
Qed.

Create HintDb stays.
#[export] Hint Resolve stays_ret stays_reads stays_next_fails stays_query stays_query_row
  stays_get_row : stays.

(** Take a program apart along its steps; what is left are the writes. *)
Ltac stay :=
  repeat first
    [ solve [auto with stays nocore]
    | match goal with
      | |- forall _, stays _ _ => intro
      | |- stays _ (let '(_, _) := ?p in _) => destruct p
      | |- stays _ (if ?b then _ else _) => destruct b
      | |- stays _ (match ?x with _ => _ end) => destruct x
      | |- stays _ (ok _) => apply stays_ret
      | |- stays _ (fail _) => apply stays_ret
      | |- stays _ (wrapping _ _) => apply stays_wrapping
      | |- stays _ (ignoring _) => apply stays_ignoring
      | |- stays _ (try_bind _ _) => apply stays_try
      | |- stays _ (mbind _ _) => apply stays_bind
      | |- stays _ (statement _) => apply stays_statement
      | |- stays _ (guarded _ _) => apply stays_guarded
      | |- stays _ (inserting _ _ _) => apply stays_inserting
      | |- stays _ (checked _ _) => apply stays_checked
      | |- stays _ (returning _) => apply stays_returning
      | |- stays _ (writes _) => apply stays_writes
      end ].

#[export] Hint Rewrite @statement_quiet @query_quiet @query_row_quiet : rtv.

(** ** Runs without failures of statements

    [calm]: a program that starts without failures to come ends so; every program is calm.
    [yields] describes what such a run does, from what [ensures] says of every run and from the
    equations of single steps. *)

Section quiet.
Context {T : Type}.

Definition calm {A} (m : DB T A) : Prop := forall t, exists a t', m (quiet t) = (a, quiet t').

Lemma calm_ret {A} (a : A) : calm (mret a).
Proof. intros t. by exists a, t. Qed.

Lemma calm_bind {A B} (m : DB T A) (f : A -> DB T B) :
  calm m -> (forall a, calm (f a)) -> calm (m ≫= f).
Proof.
  intros Hm Hf t. destruct (Hm t) as (a & t' & E). rewrite (bind_run _ _ _ _ _ E). apply Hf.
Qed.

Lemma calm_try {A B E} (m : DB T (result A E)) (f : A -> DB T (result B E)) :
  calm m -> (forall a, calm (f a)) -> calm (try_bind m f).
Proof. intros Hm Hf. apply calm_bind; [done|]. intros [a|e]; [apply Hf|apply calm_ret]. Qed.

Lemma calm_reads {A} (f : T -> A) : calm (reads f).
Proof. intros t. by exists (f t), t. Qed.

Lemma calm_writes (f : T -> T) : calm (writes f).
Proof. intros t. by exists tt, (f t). Qed.

Lemma calm_next_fails : calm next_fails.
Proof. intros t. by exists false, t. Qed.

Lemma calm_every {A} (l : list A) body : (forall x, calm (body x)) -> calm (every l body).
Proof.
  intros Hb. induction l as [|x l IH]; [apply calm_ret|]. apply calm_bind; [apply Hb|]. intros. apply IH.
Qed.

(** From tables in [P], the run without failures ends with a value and tables in [Q]. *)
Definition yields {A} (P : T -> Prop) (m : DB T A) (Q : A -> T -> Prop) : Prop :=
  forall t, P t -> exists a t', m (quiet t) = (a, quiet t') /\ Q a t'.

Lemma yields_ensures {A} P (m : DB T A) Q : calm m -> ensures P m Q -> yields P m Q.
Proof.
  intros Hc He t Ht. destruct (Hc t) as (a & t' & E). exists a, t'. split; [done|].
  specialize (He (quiet t) Ht). by rewrite E in He.
Qed.

Lemma yields_ret {A} (P : T -> Prop) (Q : A -> T -> Prop) a :
  (forall t, P t -> Q a t) -> yields P (mret a) Q.
Proof. intros HQ t Ht. exists a, t. auto. Qed.

Lemma yields_bind {A B} P (R : A -> T -> Prop) Q (m : DB T A) (f : A -> DB T B) :
  yields P m R -> (forall a, yields (R a) (f a) Q) -> yields P (m ≫= f) Q.
Proof.
  intros Hm Hf t Ht. destruct (Hm t Ht) as (a & t' & E & Hr).
  rewrite (bind_run _ _ _ _ _ E). by apply Hf.
Qed.

Lemma yields_conseq {A} (P P' : T -> Prop) (Q Q' : A -> T -> Prop) (m : DB T A) :
  yields P' m Q' -> (forall t, P t -> P' t) -> (forall a t, Q' a t -> Q a t) -> yields P m Q.
Proof. intros Hm HP HQ t Ht. destruct (Hm t (HP t Ht)) as (a & t' & ? & ?). eauto 6. Qed.

(** A step that keeps [P]. *)
Lemma yields_keep {A B} (P : T -> Prop) Q (m : DB T A) (f : A -> DB T B) :
  calm m -> stays P m -> (forall a, yields P (f a) Q) -> yields P (m ≫= f) Q.
Proof. intros Hc Hs Hf. eapply yields_bind; [by apply yields_ensures|]. exact Hf. Qed.

(** A step that succeeds. *)
Lemma yields_value {A B E} (P P' : T -> Prop) Q (m : DB T (result A E)) (f : A -> DB T (result B E)) a :
  (forall t, P t -> exists t', m (quiet t) = (Ok a, quiet t') /\ P' t') ->
  yields P' (f a) Q -> yields P (try_bind m f) Q.
Proof.
  intros Hm Hf t Ht. destruct (Hm t Ht) as (t' & E' & Ht'). rewrite (try_run _ _ _ _ _ E').
  by apply Hf.
Qed.

Lemma yields_try {A B E} (P : T -> Prop) (R : A -> T -> Prop) (Q : result B E -> T -> Prop)
    (m : DB T (result A E)) (f : A -> DB T (result B E)) :
  yields P m (fun x t => match x with Ok a => R a t | Err e => Q (Err e) t end) ->
  (forall a, yields (R a) (f a) Q) -> yields P (try_bind m f) Q.
Proof.
  intros Hm Hf. eapply yields_bind; [exact Hm|]. intros [a|e]; [apply Hf|]. by apply yields_ret.
Qed.

Lemma yields_wrapping {A} (P : T -> Prop) Q p (m : DBE T A) :
  yields P m (fun x (t : T) => Q (wrap_err p x) t) -> yields P (wrapping p m) Q.
Proof. intros Hm. eapply yields_bind; [exact Hm|]. intros x. by apply yields_ret. Qed.

Lemma yields_writes (P : T -> Prop) (Q : unit -> T -> Prop) f :
  (forall t, P t -> Q tt (f t)) -> yields P (writes f) Q.
Proof. intros Hf t Ht. exists tt, (f t). auto. Qed.

End quiet.

(** A program on a part of the tables. *)
Lemma yields_zoom {S T A} (get : S -> T) (put : T -> S -> S) (P : S -> Prop) (Q : A -> S -> Prop)
    (R : T -> Prop) (Q' : A -> T -> Prop) (m : DB T A) :
  yields R m Q' -> (forall s, P s -> R (get s)) -> (forall s a t, P s -> Q' a t -> Q a (put t s)) ->
  yields P (zoom get put m) Q.
Proof.
  intros Hm Hg Hp s Hs. destruct (Hm (get s) (Hg s Hs)) as (a & t & E & Ha).
  exists a, (put t s). split; [by apply zoom_run|by apply Hp].
Qed.

Create HintDb calm.
#[export] Hint Resolve calm_ret calm_reads calm_writes calm_next_fails : calm.

(** Take a program apart down to its steps. *)
Ltac calm :=
  repeat first
    [ solve [auto with calm nocore]
    | match goal with
      | |- forall _, calm _ => intro
      | |- calm (let '(_, _) := ?p in _) => destruct p
      | |- calm (if ?b then _ else _) => destruct b
      | |- calm (match ?x with _ => _ end) => destruct x
      | |- calm (ok _) => apply calm_ret
      | |- calm (fail _) => apply calm_ret
      | |- calm (try_bind _ _) => apply calm_try
      | |- calm (mbind _ _) => apply calm_bind
      | |- calm (every _ _) => apply calm_every
      | |- calm (wrapping _ _) => unfold wrapping
      | |- calm (ignoring _) => unfold ignoring
      | |- calm (statement _) => unfold statement
      | |- calm (query _) => unfold query
      | |- calm (query_row _) => unfold query_row
      | |- calm (get_row _ _) => unfold get_row
      | |- calm (exec_row _ _ _) => unfold exec_row
      | |- calm (guarded _ _) => unfold guarded
      | |- calm (inserting _ _ _) => unfold inserting
      | |- calm (checked _ _) => unfold checked
      | |- calm (returning _) => unfold returning
      end ].
