(* ===== verification/TeamManager.v ===== *)
(** * Teams ([internal/swarm/team_manager.go])

    The [TeamManager]: creation under the team cap, selection of idle teams,
    status changes, agent registration.  Its mutex makes every method one
    atomic step, which is how the methods are modelled. *)

From Stdlib Require Import ZArith Lia Ascii String.
From stdpp Require Import base list gmap strings sorting.
From S2P Require Import Prelude GoStrings SwarmDb.
Local Open Scope string_scope.
Local Open Scope Z_scope.

(** ** Constants *)

Definition MaxTeams : Z := 5.
Definition maxAgentsPerTeam : Z := 10.

(** The controller and the warm pool of the Python swarm. *)
Definition warmPoolTeamIDs : list UUID := [0; 1]%N.
Definition is_warm_pool (id : UUID) : bool := existsb (N.eqb id) warmPoolTeamIDs.

Definition uuid_Nil : UUID := 0%N.

(** ** Updates *)

Definition with_team_status (s : string) (t : Team) : Team :=
  {| tm_Name := tm_Name t; tm_LeadAgentID := tm_LeadAgentID t; tm_Status := s;
     tm_AgentIDs := tm_AgentIDs t; tm_FormedAt := tm_FormedAt t |}.
Definition with_agent_ids (ids : list UUID) (t : Team) : Team :=
  {| tm_Name := tm_Name t; tm_LeadAgentID := tm_LeadAgentID t; tm_Status := tm_Status t;
     tm_AgentIDs := Some ids; tm_FormedAt := tm_FormedAt t |}.
Definition with_agent_status (s : string) (a : Agent) : Agent :=
  {| a_Role := a_Role a; a_TeamID := a_TeamID a; a_Status := s;
     a_TasksDone := a_TasksDone a; a_Hostname := a_Hostname a; a_Version := a_Version a;
     a_RegisteredAt := a_RegisteredAt a |}.

(** [COALESCE(agent_ids, ARRAY[])] *)
Definition team_agents (t : Team) : list UUID := default [] (tm_AgentIDs t).

(** The three status updates the methods share. *)
Definition set_team_status (teamID : UUID) (s : string) : World -> World :=
  set_teams (alter (with_team_status s) teamID).
Definition set_team_agents_status (teamID : UUID) (s : string) : World -> World :=
  set_agents (update_where (fun _ a => bool_decide (a_TeamID a = Some teamID))
                           (with_agent_status s)).

(** ** Operations *)

(** A team counts against the cap: not offline, not a sentinel. *)
Definition is_active_team (id : UUID) (t : Team) : bool :=
  negb (String.eqb (tm_Status t) "offline") && negb (is_warm_pool id).

Definition active_teams (w : World) : Z := count_where is_active_team (teams w).

Definition activeTeamCount : M (result Z string) := query active_teams.

Definition CreateTeam (id : UUID) (now : Z) (name : string)
    : M (result (UUID * Team) string) :=
  count ← activeTeamCount;
  match count with
  | Err e => mret (Err e)
  | Ok n =>
      if MaxTeams <=? n then mret (Err ("max teams reached (" ++ itoa MaxTeams ++ ")"))
      else
        let team := {| tm_Name := name; tm_LeadAgentID := None; tm_Status := "idle";
                       tm_AgentIDs := None; tm_FormedAt := now |} in
        r ← exec_when (fun w => bool_decide (teams w !! id = None))
                      (set_teams (<[id := team]>));
        match r with
        | Err e => mret (Err ("inserting team: " ++ e))
        | Ok _ => mret (Ok (id, team))
        end
  end.

(** The first row of a query that is limited to one row. *)
Definition first_row {A} (rows : result (list A) string) : option A :=
  match rows with Ok (x :: _) => Some x | _ => None end.

Definition is_idle_team (id : UUID) (t : Team) : bool :=
  String.eqb (tm_Status t) "idle" && negb (is_warm_pool id).

Definition GetIdleTeam `{RowOrder} : M (option (UUID * Team)) :=
  rows ← query (fun w => select is_idle_team (teams w));
  mret (first_row rows).

Definition FindIdleTeamWithCapacity `{RowOrder} (minAgents : Z)
    : M (option (UUID * Team)) :=
  rows ← query (fun w => select (fun id t =>
           is_idle_team id t && (minAgents <=? Z.of_nat (List.length (team_agents t))))
           (teams w));
  mret (first_row rows).

Definition MarkTeamBusy (teamID : UUID) : M unit :=
  exec_ (set_team_status teamID "busy");;
  exec_ (set_agents (update_where
           (fun _ a => bool_decide (a_TeamID a = Some teamID)
                       && negb (String.eqb (a_Status a) "offline"))
           (with_agent_status "busy"))).

Definition ReleaseTeam (teamID : UUID) : M unit :=
  exec_ (set_team_agents_status teamID "offline");;
  exec_ (set_team_status teamID "offline").

Definition MarkTeamOffline (teamID : UUID) : M unit :=
  exec_ (set_team_status teamID "offline").

(** Only checks the capacity: the code changes no row here. *)
Definition ScaleTeam `{UuidText} (teamID : UUID) (additionalAgents : Z) : M (result unit string) :=
  r ← query (fun w => teams w !! teamID);
  match r with
  | Err e => mret (Err ("querying team " ++ uuid_String teamID ++ " agent count: " ++ e))
  | Ok None => mret (Err ("querying team " ++ uuid_String teamID
                             ++ " agent count: no rows in result set"))
  | Ok (Some t) =>
      let currentCount := Z.of_nat (List.length (team_agents t)) in
      if maxAgentsPerTeam <? wrap64 (currentCount + additionalAgents)
      then mret (Err ("team " ++ uuid_String teamID ++ " would exceed max agents ("
        ++ itoa currentCount ++ " + " ++ itoa additionalAgents ++ " > "
        ++ itoa maxAgentsPerTeam ++ ")"))
      else mret (Ok tt)
  end.

Definition DisbandTeam (teamID : UUID) : M (result unit string) :=
  r ← exec (fun _ => 0) (set_team_agents_status teamID "offline");
  match r with
  | Err e => mret (Err ("offlining team agents: " ++ e))
  | Ok _ =>
      r ← exec (fun w => affected teamID (teams w)) (set_team_status teamID "offline");
      match r with
      | Err e => mret (Err ("offlining team: " ++ e))
      | Ok _ => mret (Ok tt)
      end
  end.

Definition CanCreateTeam : M bool :=
  count ← activeTeamCount;
  match count with
  | Err _ => mret false
  | Ok n => mret (n <? MaxTeams)
  end.

(** [fmt.Errorf("...: %w", err)] *)
Definition wrap_error {A} (context : string) (r : result A string) : result A string :=
  match r with Ok a => Ok a | Err e => Err (context ++ e) end.

Definition ListTeams `{RowOrder} : M (result (list (UUID * Team)) string) :=
  r ← query (fun w => order_by (fun kv => tm_FormedAt kv.2)
                        (select (fun _ _ => true) (teams w)));
  mret (wrap_error "listing teams: " r).

Definition ListAgents `{RowOrder} (statusFilter : string)
    : M (result (list (UUID * Agent)) string) :=
  r ← query (fun w => order_by (fun kv => a_RegisteredAt kv.2)
    (select (fun _ a => String.eqb statusFilter "" || String.eqb (a_Status a) statusFilter)
            (agents w)));
  mret (wrap_error "listing agents: " r).

(** [array_append] unless the agent is listed already. *)
Definition add_agent_id (agentID : UUID) (t : Team) : Team :=
  if existsb (N.eqb agentID) (team_agents t) then t
  else with_agent_ids (team_agents t ++ [agentID])%list t.

(** [teamName] is the name the code derives from the team's identifier. *)
Definition RegisterAgent (now : Z) (agentID : UUID) (role : string) (teamID : UUID)
    (teamName hostname version : string) : M (result unit string) :=
  let has_team := negb (teamID =? uuid_Nil)%N in
  let teamPtr := if has_team then Some teamID else None in
  (if has_team then
     exec_ (set_teams (fun ts =>
       match ts !! teamID with
       | Some _ => ts
       | None => <[teamID := {| tm_Name := teamName; tm_LeadAgentID := None;
                                tm_Status := "idle"; tm_AgentIDs := None;
                                tm_FormedAt := now |}]> ts
       end))
   else mret tt);;
  agentStatus ←
    (if has_team then
       r ← query (fun w => teams w !! teamID);
       mret (match r with
             | Ok (Some t) => if String.eqb (tm_Status t) "busy" then "busy" else "idle"
             | _ => "idle"
             end)
     else mret "idle");
  r ← exec_when
        (* the foreign key to [swarm_teams] *)
        (fun w => negb has_team || bool_decide (is_Some (teams w !! teamID)))
        (set_agents (fun m =>
           let done := match m !! agentID with Some a => a_TasksDone a | None => 0 end in
           <[agentID := {| a_Role := role; a_TeamID := teamPtr; a_Status := agentStatus;
                           a_TasksDone := done; a_Hostname := hostname;
                           a_Version := version; a_RegisteredAt := now |}]> m));
  match r with
  | Err e => mret (Err ("registering agent: " ++ e))
  | Ok _ =>
      (if has_team then exec_ (set_teams (alter (add_agent_id agentID) teamID))
       else mret tt);;
      mret (Ok tt)
  end.

(** ** Sequences of operations *)

(** The methods by which teams change, with their arguments. *)
Inductive team_op :=
| OpCreateTeam (id : UUID) (now : Z) (name : string)
| OpMarkBusy (teamID : UUID)
| OpRelease (teamID : UUID)
| OpMarkOffline (teamID : UUID)
| OpDisband (teamID : UUID)
| OpScale (teamID : UUID) (n : Z)
| OpRegister (now : Z) (agentID : UUID) (role : string) (teamID : UUID)
    (teamName hostname version : string).

Definition run_team_op `{UuidText} (o : team_op) : M unit :=
  match o with
  | OpCreateTeam id now name => CreateTeam id now name;; mret tt
  | OpMarkBusy t => MarkTeamBusy t
  | OpRelease t => ReleaseTeam t
  | OpMarkOffline t => MarkTeamOffline t
  | OpDisband t => DisbandTeam t;; mret tt
  | OpScale t n => ScaleTeam t n;; mret tt
  | OpRegister now a role t tn h v => RegisterAgent now a role t tn h v;; mret tt
  end.

(** Registrations for teams whose row exists, tasks for teams in service. *)
Definition op_admissible (o : team_op) (w : World) : Prop :=
  match o with
  | OpRegister _ _ _ t _ _ _ => t = uuid_Nil \/ is_Some (teams w !! t)
  | OpMarkBusy t => forall x, teams w !! t = Some x -> tm_Status x <> "offline"
  | _ => True
  end.

Inductive team_steps `{UuidText} : World -> World -> Prop :=
| team_steps_refl w : team_steps w w
| team_steps_step w o w' :
    op_admissible o w -> team_steps (run_team_op o w).2 w' -> team_steps w w'.

(** ** Invariants *)

Definition under_cap (w : World) : Prop := active_teams w <= MaxTeams.

(** No agent is listed twice in its team. *)
Definition agent_ids_nodup (w : World) : Prop :=
  forall id t, teams w !! id = Some t -> NoDup (team_agents t).

#[export] Instance under_cap_inv : TableInv under_cap.
Proof. by split. Qed.
#[export] Instance agent_ids_nodup_inv : TableInv agent_ids_nodup.
Proof. by split. Qed.

Lemma existsb_eqb_elem_of (x : UUID) l : existsb (N.eqb x) l = true <-> x ∈ l.
Proof.
  rewrite existsb_elem_of. split; [by intros (y & ? & ->%N.eqb_eq)|].
  intros ?. exists x. by rewrite N.eqb_refl.
Qed.

(** Changing the rows of some teams without activating any keeps the cap. *)
Lemma under_cap_set_teams f w :
  (forall k t', f (teams w) !! k = Some t' -> is_active_team k t' = true ->
     exists t, teams w !! k = Some t /\ is_active_team k t = true) ->
  under_cap w -> under_cap (set_teams f w).
Proof.
  unfold under_cap, active_teams. intros Hf Hw. simpl.
  pose proof (count_where_mono is_active_team (teams w) (f (teams w)) Hf). lia.
Qed.

(** A row changed without becoming active. *)
Lemma under_cap_alter g id w :
  (forall t, is_active_team id (g t) = true -> is_active_team id t = true) ->
  under_cap w -> under_cap (set_teams (alter g id) w).
Proof.
  intros Hg. apply under_cap_set_teams. intros k t'. rewrite lookup_alter.
  case_decide as Hk; [|by eauto]. subst. intros Hl Ha.
  destruct (teams w !! k) as [t|]; simplify_eq/=. eauto.
Qed.

Lemma add_agent_id_status aid t : tm_Status (add_agent_id aid t) = tm_Status t.
Proof. unfold add_agent_id. by case_if. Qed.

(** The cap, and the team of a registration has a row. *)
Definition under_cap_with (t : UUID) (w : World) : Prop :=
  under_cap w /\ (t = uuid_Nil \/ is_Some (teams w !! t)).

#[export] Instance under_cap_with_inv t : TableInv (under_cap_with t).
Proof. by split. Qed.

Lemma RegisterAgent_under_cap now a role t tn h v :
  preserves (under_cap_with t) (RegisterAgent now a role t tn h v).
Proof.
  unfold RegisterAgent. preserve; try done.
  - unfold set_teams. destruct (teams w !! t) as [t'|] eqn:Et; [done|].
    destruct H as [_ [->|[? Ht]]]; [done|congruence].
  - destruct H as [Hc Ht]. split.
    + apply under_cap_alter; [|done]. intros t'. unfold is_active_team.
      by rewrite add_agent_id_status.
    + simpl. destruct Ht as [|Ht]; [by left|right]. rewrite lookup_alter. 
      case_decide; [|done]. by apply fmap_is_Some.
Qed.

Lemma CreateTeam_under_cap id now name : preserves under_cap (CreateTeam id now name).
Proof.
  unfold CreateTeam. eapply triple_bind with
    (R := fun count w => under_cap w /\ forall n, count = Ok n -> n = active_teams w).
  { intros w Hw. unfold activeTeamCount, query. simpl.
    case_match; simpl; (split; [done|]); intros n; [done|]. by intros [= <-]. }
  intros count. destruct count as [n|e]; [|apply triple_ret; naive_solver].
  case_if; [apply triple_ret; naive_solver|]. bool_to_prop.
  eapply triple_bind with (R := fun _ => under_cap).
  - intros w [Hw Hn]. specialize (Hn n eq_refl). unfold exec_when. simpl.
    case_if; simpl; [done|]. unfold under_cap, active_teams in *. simpl.
    pose proof (count_where_insert is_active_team (teams w) id
      {| tm_Name := name; tm_LeadAgentID := None; tm_Status := "idle";
         tm_AgentIDs := None; tm_FormedAt := now |}). lia.
  - intros [?|?]; by apply triple_ret.
Qed.

Lemma set_offline_under_cap t w :
  under_cap w -> under_cap (set_team_status t "offline" w).
Proof. apply under_cap_alter. done. Qed.

(** A team in service, or absent, may become busy. *)
Definition under_cap_serving (t : UUID) (w : World) : Prop :=
  under_cap w /\ forall x, teams w !! t = Some x -> tm_Status x <> "offline".

#[export] Instance under_cap_serving_inv t : TableInv (under_cap_serving t).
Proof. by split. Qed.

Lemma is_active_busy id t :
  tm_Status t <> "offline" ->
  is_active_team id (with_team_status "busy" t) = is_active_team id t.
Proof.
  intros Ht. unfold is_active_team. simpl. by apply String.eqb_neq in Ht as ->.
Qed.

Lemma MarkTeamBusy_under_cap t : preserves (under_cap_serving t) (MarkTeamBusy t).
Proof.
  unfold MarkTeamBusy. preserve; [|done].
  destruct H as [Hc Ht]. split.
  - unfold set_team_status. apply under_cap_set_teams; [|done]. intros k t'.
    rewrite lookup_alter. case_decide; [subst|by eauto].
    destruct (teams w !! k) as [x|] eqn:E; simpl; [|done]. intros [= <-].
    rewrite is_active_busy by auto. eauto.
  - intros x. simpl. rewrite lookup_alter. case_decide; [|done].
    destruct (teams w !! t); simpl; [|done]. by intros [= <-].
Qed.

(** The operations that need no precondition. *)
Lemma team_op_preserves_cap `{UuidText} o :
  (forall w, op_admissible o w) -> preserves under_cap (run_team_op o).
Proof.
  intros Ho. destruct o as [id now name|t|t|t|t|t n|now a role t tn h v]; simpl.
  - apply preserves_bind; [apply CreateTeam_under_cap|intros; apply preserves_ret].
  - intros w Hw. by apply (MarkTeamBusy_under_cap t w); split; [|apply Ho].
  - unfold ReleaseTeam. preserve; [done|]. by apply set_offline_under_cap.
  - unfold MarkTeamOffline. preserve. by apply set_offline_under_cap.
  - unfold DisbandTeam. preserve; [done|]. by apply set_offline_under_cap.
  - unfold ScaleTeam. preserve.
  - apply preserves_bind; [|intros; apply preserves_ret]. intros w Hw.
    by apply (RegisterAgent_under_cap now a role t tn h v w); split; [|apply Ho].
Qed.

Lemma team_op_under_cap `{UuidText} o w :
  op_admissible o w -> under_cap w -> under_cap (run_team_op o w).2.
Proof.
  intros Ho Hw. destruct o as [id now name|t|t|t|t|t n|now a role t tn h v];
    try by (apply (team_op_preserves_cap); [|]).
  - by apply (MarkTeamBusy_under_cap t w).
  - assert (preserves (under_cap_with t) (run_team_op (OpRegister now a role t tn h v))) as Hreg.
    { apply preserves_bind; [apply RegisterAgent_under_cap|intros; apply preserves_ret]. }
    by apply (Hreg w).
Qed.

Lemma agent_ids_alter g id w :
  (forall t, NoDup (team_agents t) -> NoDup (team_agents (g t))) ->
  agent_ids_nodup w -> agent_ids_nodup (set_teams (alter g id) w).
Proof.
  intros Hg Hw k t'. simpl. rewrite lookup_alter. case_decide as Hk; [subst k|by apply Hw].
  destruct (teams w !! id) as [t|] eqn:E; simpl; [|done]. intros [= <-]. eauto.
Qed.

Lemma agent_ids_insert id t w :
  NoDup (team_agents t) ->
  agent_ids_nodup w -> agent_ids_nodup (set_teams (<[id := t]>) w).
Proof.
  intros Ht Hw k t'. simpl. rewrite lookup_insert. case_decide; [naive_solver|by apply Hw].
Qed.

Lemma add_agent_id_nodup aid t :
  NoDup (team_agents t) -> NoDup (team_agents (add_agent_id aid t)).
Proof.
  unfold add_agent_id. intros Ht. case_if; [done|]. simpl.
  apply NoDup_app. split_and!; [done| |apply NoDup_singleton].
  intros x Hx ->%list_elem_of_singleton. apply existsb_eqb_elem_of in Hx. congruence.
Qed.

Lemma team_op_agent_ids `{UuidText} o : preserves agent_ids_nodup (run_team_op o).
Proof.
  destruct o; simpl; unfold CreateTeam, MarkTeamBusy, ReleaseTeam, MarkTeamOffline,
    DisbandTeam, ScaleTeam, RegisterAgent, activeTeamCount, set_team_status; preserve;
    try (apply agent_ids_alter; [by auto using add_agent_id_nodup|done]); try done.
  - apply agent_ids_insert; [apply NoDup_nil_2|done].
  - unfold set_teams. case_match; [done|]. apply (agent_ids_insert _ _ w); [apply NoDup_nil_2|done].
Qed.

(** ** Properties *)

(** Starting under the cap of five active teams, no sequence of team
    operations exceeds it, whatever statements fail, as long as agents register
    for teams that have a row and only teams in service are made busy. *)
Theorem team_steps_under_cap `{UuidText} w w' :
  team_steps w w' -> under_cap w -> under_cap w'.
Proof. induction 1; eauto using team_op_under_cap. Qed.

(** No sequence of team operations lists an agent twice in a team. *)
Theorem team_ops_agent_ids_nodup `{UuidText} os :
  preserves agent_ids_nodup (for_rows os run_team_op).
Proof. apply preserves_for_rows, team_op_agent_ids. Qed.

(** When its statement succeeds, [GetIdleTeam] returns a team that is idle
    and is not a warm-pool sentinel, and it returns nil only if there is none. *)
Theorem GetIdleTeam_spec `{RowOrder} w :
  no_faults w ->
  match (GetIdleTeam w).1 with
  | Some (id, t) => teams w !! id = Some t /\ tm_Status t = "idle" /\ id ∉ warmPoolTeamIDs
  | None => forall id t, teams w !! id = Some t -> tm_Status t = "idle" -> id ∈ warmPoolTeamIDs
  end.
Proof.
  intros Hw. unfold GetIdleTeam, mbind, M_bind. rewrite query_ok by done. cbn.
  assert (forall id t, (id, t) ∈ select is_idle_team (teams w) <->
            teams w !! id = Some t /\ tm_Status t = "idle" /\ id ∉ warmPoolTeamIDs) as Hsel.
  { intros id t. rewrite select_elem_of. unfold is_idle_team, is_warm_pool.
    rewrite andb_true_iff, String.eqb_eq, negb_true_iff, <- existsb_eqb_elem_of.
    destruct (existsb _ _); naive_solver. }
  destruct (select _ _) as [|[id t] rest] eqn:E.
  - intros id t Ht Hi. destruct (decide (id ∈ warmPoolTeamIDs)); [done|exfalso].
    apply (not_elem_of_nil (id, t)). by apply Hsel.
  - apply Hsel. constructor.
Qed.

(** ** Witnesses *)

#[export] Existing Instance unary_uuid.

Definition empty_world : World :=
  {| tasks := ∅; teams := ∅; agents := ∅; diffs := ∅; db_circuits := ∅;
     db_events := ∅; circuits := ∅; effects := []; faults := [] |}.

#[export] Instance identity_order : RowOrder :=
  {| row_order := fun A l => l; row_order_perm := fun A l => reflexivity l |}.

Definition create (id : UUID) : team_op := OpCreateTeam id 0 "team".

Lemma team_steps_under_cap_witness :
  team_steps empty_world (run_team_op (create 2) empty_world).2 /\
  under_cap (run_team_op (create 2) empty_world).2.
Proof.
  assert (team_steps empty_world (run_team_op (create 2) empty_world).2) as Hs.
  { apply (team_steps_step _ (create 2)); [exact I|apply team_steps_refl]. }
  split; [exact Hs|]. apply (team_steps_under_cap _ _ Hs). vm_compute. discriminate.
Defined.

(** With five teams in service the sixth creation is refused. *)
Example sixth_team_refused :
  (CreateTeam 7 0 "six"
     (for_rows (create <$> [2; 3; 4; 5; 6]%N) run_team_op empty_world).2).1
  = Err "max teams reached (5)".
Proof. vm_compute. reflexivity. Qed.

(** Registering an agent for a team without a row creates the row without
    looking at the cap. *)
Example registration_exceeds_cap :
  active_teams (run_team_op (OpRegister 0 9 "qa" 7 "team-7" "h" "v")
     (for_rows (create <$> [2; 3; 4; 5; 6]%N) run_team_op empty_world).2).2 = 6.
Proof. vm_compute. reflexivity. Qed.

Lemma GetIdleTeam_spec_witness :
  exists id t, (GetIdleTeam (run_team_op (create 2) empty_world).2).1 = Some (id, t) /\
    tm_Status t = "idle" /\ id ∉ warmPoolTeamIDs.
Proof.
  pose proof (GetIdleTeam_spec (run_team_op (create 2) empty_world).2 eq_refl) as H.
  eexists 2%N, _. split; [vm_compute; reflexivity|]. exact (proj2 H).
Defined.
