(* ===== verification/TaskManager.v ===== *)
(** * Tasks ([internal/swarm/task_manager.go])

    The task life cycle: creation, status changes, completion, failure, retry,
    time-outs, the assign loop over the Redis stream, the heartbeat monitor and
    the stale-row reaper.  Answers of Redis ([SETNX], [GET]) and freshly drawn
    identifiers are arguments; Prometheus metrics and log lines are left out. *)

From Stdlib Require Import ZArith Lia Ascii String.
From stdpp Require Import base list gmap strings sorting.
From S2P Require Import Prelude GoStrings SwarmDb TeamManager.
Local Open Scope string_scope.
Local Open Scope Z_scope.

Section task_manager.
Context `{RowOrder} `{UuidText} `{Config} `{UnicodeTables}.

Definition streamPending := "swarm:tasks:pending".
Definition streamTeamCreate := "swarm:events:team:create".

Definition hbKey (agentID : UUID) : string := "swarm:agent:heartbeat:" ++ uuid_String agentID.

Definition broadcast_task (event : string) (taskID : UUID) : M unit :=
  if has_hub then emit (BroadcastTask event taskID) else mret tt.

(** ** Creation and reading *)

(** [lookup owner name] is the answer of the query on [repositories]. *)
Definition resolve_repo (lookup : string -> string -> option UUID) (repoID : string) : string :=
  if Contains repoID "/" then
    match splitn_byte slash 2 repoID with
    | [owner; name] =>
        match lookup owner name with
        | Some id => uuid_String id
        | None => repoID
        end
    | _ => repoID
    end
  else repoID.

Definition CreateTask (id : UUID) (now : Z) (lookup : string -> string -> option UUID)
    (repoID title description : string) (submittedBy : UUID)
    : M (result (UUID * Task) string) :=
  let repoID := resolve_repo lookup repoID in
  let task := {| t_RepoID := repoID; t_Title := title; t_Description := description;
                 t_Status := StatusSubmitted; t_PlanDocument := None;
                 t_AssignedTeamID := None; t_AssignedAgents := None; t_PRUrl := "";
                 t_PRNumber := 0; t_HumanRating := None; t_HumanComment := "";
                 t_SubmittedBy := Some submittedBy; t_RetryCount := 0;
                 t_FailureReason := None; t_CreatedAt := now; t_CompletedAt := None;
                 t_TimeoutAt := None |} in
  r ← exec_when (fun w => bool_decide (tasks w !! id = None)) (set_tasks (<[id := task]>));
  match r with
  | Err e => mret (Err ("inserting task: " ++ e))
  | Ok _ =>
      emit (XAdd streamPending [("task_id", uuid_String id); ("repo_id", repoID)]);;
      mret (Ok (id, task))
  end.

Definition no_rows := "no rows in result set".
Definition task_query_error (taskID : UUID) (e : string) : string :=
  "querying task " ++ uuid_String taskID ++ ": " ++ e.

Definition GetTask (taskID : UUID) : M (result Task string) :=
  r ← query (fun w => tasks w !! taskID);
  match r with
  | Ok (Some t) => mret (Ok t)
  | Ok None => mret (Err (task_query_error taskID no_rows))
  | Err e => mret (Err (task_query_error taskID e))
  end.

Definition ListTasks (repoID status : string) (limit : Z)
    : M (result (list (UUID * Task)) string) :=
  let limit := if limit <=? 0 then 50 else limit in
  r ← query (fun w =>
        firstn (Z.to_nat limit)
          (order_by (fun kv => - t_CreatedAt kv.2)
            (select (fun _ t => (String.eqb repoID "" || String.eqb (t_RepoID t) repoID)
                                && (String.eqb status "" || String.eqb (t_Status t) status))
                    (tasks w))));
  match r with
  | Err e => mret (Err ("listing tasks: " ++ e))
  | Ok l => mret (Ok l)
  end.

Definition UpdateStatus (taskID : UUID) (newStatus : string) : M (result unit string) :=
  r ← exec (fun w => affected taskID (tasks w))
           (set_tasks (alter (set_Status newStatus) taskID));
  match r with
  | Err e => mret (Err ("updating task status: " ++ e))
  | Ok n => if n =? 0 then mret (Err ("task " ++ uuid_String taskID ++ " not found")) else mret (Ok tt)
  end.

(** [AgentSnapshot]: id, role, status, team *)
Definition GetTaskAgents (taskID : UUID)
    : M (result (list (UUID * Agent)) string) :=
  r ← query (fun w =>
        match tasks w !! taskID ≫= t_AssignedTeamID with
        | Some teamID =>
            order_by (fun kv => a_RegisteredAt kv.2)
              (select (fun _ a => bool_decide (a_TeamID a = Some teamID)) (agents w))
        | None => []
        end);
  match r with
  | Err e => mret (Err ("querying task agents: " ++ e))
  | Ok l => mret (Ok l)
  end.

(** The diffs of the task go with it ([ON DELETE CASCADE]). *)
Definition DeleteTask (taskID : UUID) : M (result unit string) :=
  r ← exec (fun w => affected taskID (tasks w))
           (fun w => set_diffs (delete_where (fun _ d => (d_TaskID d =? taskID)%N))
                       (set_tasks (delete taskID) w));
  match r with
  | Err e => mret (Err ("deleting task: " ++ e))
  | Ok n => if n =? 0 then mret (Err ("task " ++ uuid_String taskID ++ " not found")) else mret (Ok tt)
  end.

(** A plan the request leaves out is stored as NULL. *)
Definition SetPlan (taskID : UUID) (plan : option string) : M (result unit string) :=
  r ← exec (fun w => affected taskID (tasks w))
           (set_tasks (alter (fun t => set_Status StatusPlanReview
                                         (set_PlanDocument plan t)) taskID));
  match r with
  | Err e => mret (Err ("setting plan: " ++ e))
  | Ok _ => mret (Ok tt)
  end.

(** ** Release of a team *)

Definition revoke_agent (agentID : UUID) : M unit :=
  emit (Revoke agentID);; emit (RedisDel (hbKey agentID)).

Definition revokeTeamTokens (teamID : UUID) : M unit :=
  if negb has_auth then mret tt
  else
    rows ← query (fun w => (select (fun _ a => bool_decide (a_TeamID a = Some teamID))
                                   (agents w)).*1);
    match rows with
    | Err _ => mret tt
    | Ok ids => for_rows ids revoke_agent
    end.

(** After a task ended: revoke the tokens and release the team of the row. *)
Definition release_team_of (task : result Task string) : M unit :=
  match task with
  | Ok t => match t_AssignedTeamID t with
            | Some teamID => revokeTeamTokens teamID;; ReleaseTeam teamID
            | None => mret tt
            end
  | Err _ => mret tt
  end.

Definition CompleteTask (now : Z) (taskID : UUID) : M (result unit string) :=
  r ← exec (fun w => affected taskID (tasks w))
           (set_tasks (alter (fun t => set_CompletedAt (Some now)
                                         (set_Status StatusCompleted t)) taskID));
  match r with
  | Err e => mret (Err ("completing task: " ++ e))
  | Ok _ =>
      task ← GetTask taskID;
      release_team_of task;;
      mret (Ok tt)
  end.

Definition FailTask (now : Z) (taskID : UUID) (reason : string) : M (result unit string) :=
  r ← exec (fun w => affected taskID (tasks w))
           (set_tasks (alter (fun t => set_CompletedAt (Some now)
              (set_FailureReason (Some reason) (set_Status StatusFailed t))) taskID));
  match r with
  | Err e => mret (Err ("failing task: " ++ e))
  | Ok _ =>
      task ← GetTask taskID;
      release_team_of task;;
      broadcast_task "failed" taskID;;
      mret (Ok tt)
  end.

(** ** Diffs *)

Definition AddDiff (id : UUID) (now : Z) (taskID : UUID) (diff : TaskDiff)
    : M (result (UUID * TaskDiff) string) :=
  let diff := {| d_TaskID := taskID; d_FilePath := d_FilePath diff;
                 d_ChangeType := d_ChangeType diff; d_Original := d_Original diff;
                 d_Proposed := d_Proposed diff; d_UnifiedDiff := d_UnifiedDiff diff;
                 d_AgentID := d_AgentID diff; d_Status := "pending";
                 d_CreatedAt := now |} in
  r ← exec_when
        (* the primary key, and the foreign keys to the task and the agent *)
        (fun w => bool_decide (diffs w !! id = None)
                  && bool_decide (is_Some (tasks w !! taskID))
                  && match d_AgentID diff with
                     | Some a => bool_decide (is_Some (agents w !! a))
                     | None => true
                     end)
        (set_diffs (<[id := diff]>));
  match r with
  | Err e => mret (Err ("inserting diff: " ++ e))
  | Ok _ => mret (Ok (id, diff))
  end.

Definition ListDiffs (taskID : UUID) : M (result (list (UUID * TaskDiff)) string) :=
  r ← query (fun w => order_by (fun kv => d_CreatedAt kv.2)
        (select (fun _ d => (d_TaskID d =? taskID)%N) (diffs w)));
  match r with
  | Err e => mret (Err ("listing diffs: " ++ e))
  | Ok l => mret (Ok l)
  end.

Definition GetDiff (diffID : UUID) : M (result TaskDiff string) :=
  r ← query (fun w => diffs w !! diffID);
  match r with
  | Ok (Some d) => mret (Ok d)
  | Ok None => mret (Err ("querying diff " ++ uuid_String diffID ++ ": " ++ no_rows))
  | Err e => mret (Err ("querying diff " ++ uuid_String diffID ++ ": " ++ e))
  end.

(** [SELECT DISTINCT agent_id ... AND agent_id IS NOT NULL] *)
Definition AgentsForTask (taskID : UUID) : M (result (list UUID) string) :=
  r ← query (fun w =>
        row_order (elements (list_to_set (C := gset UUID)
          (omap (fun kv => d_AgentID kv.2)
            (select (fun _ d => (d_TaskID d =? taskID)%N) (diffs w))))));
  match r with
  | Err e => mret (Err ("agents for task: " ++ e))
  | Ok l => mret (Ok l)
  end.

(** ** Heartbeats and ratings *)

Definition Heartbeat (now_unix : Z) (agentID : UUID) : M (result unit string) :=
  r ← exec (fun w => affected agentID (agents w))
           (set_agents (alter (fun a =>
              if String.eqb (a_Status a) "offline" then with_agent_status "idle" a else a)
              agentID));
  match r with
  | Err e => mret (Err ("heartbeat: " ++ e))
  | Ok n =>
      if n =? 0 then mret (Err ("agent " ++ uuid_String agentID ++ " not found"))
      else
        emit (RedisSet (hbKey agentID) now_unix (HeartbeatTimeout * 2));;
        mret (Ok tt)
  end.

Definition RateTask (taskID : UUID) (rating : Z) (comment : string) : M (result unit string) :=
  r ← exec (fun w => affected taskID (tasks w))
           (set_tasks (alter (fun t => set_HumanComment comment
                                         (set_HumanRating (Some rating) t)) taskID));
  match r with
  | Err e => mret (Err e)
  | Ok _ => mret (Ok tt)
  end.

(** ** Task carving *)

Definition ComplexitySmall := "small".
Definition ComplexityMedium := "medium".
Definition ComplexityLarge := "large".

Definition multiFileKeywords : list string :=
  ["all"; "across"; "refactor"; "migrate"; "system"; "architecture"; "schema change";
   "entire"; "every"].

Definition classifyTaskComplexity (description : string) : string :=
  let wordCount := Z.of_nat (List.length (Fields description)) in
  let lower := ToLower description in
  if existsb (Contains lower) multiFileKeywords then
    if 150 <? wordCount then ComplexityLarge else ComplexityMedium
  else if wordCount <? 50 then ComplexitySmall
  else if 150 <? wordCount then ComplexityLarge
  else ComplexityMedium.

(** ** The assign loop *)

Definition assignTask (now : Z) (taskID teamID : UUID) : M (result unit string) :=
  let timeoutAt := now + TaskTimeout in
  r ← exec_when
        (* the foreign key to [swarm_teams] *)
        (fun w => negb (bool_decide (is_Some (tasks w !! taskID)))
                  || bool_decide (is_Some (teams w !! teamID)))
        (set_tasks (alter (fun t => set_TimeoutAt (Some timeoutAt)
           (set_AssignedTeamID (Some teamID) (set_Status StatusPlanning t))) taskID));
  match r with
  | Err e => mret (Err e)
  | Ok _ =>
      MarkTeamBusy teamID;;
      emit (XAdd "swarm:events:task:assigned"
              [("task_id", uuid_String taskID); ("team_id", uuid_String teamID)]);;
      mret (Ok tt)
  end.

Definition AssignTaskToTeam := assignTask.

(** A stream message: its identifier and its [task_id] field, if a string. *)
Record XMessage := { msg_ID : string; msg_task_id : option string }.

Definition ack (msg : XMessage) : M unit := emit (XAck streamPending (msg_ID msg)).

(** What is left to do for a task no idle team took: [setnx] is the answer of
    [SETNX] on the de-duplication key. *)
Definition request_team (setnx : UUID -> result bool string) (msg : XMessage)
    (taskID : UUID) : M unit :=
  can ← CanCreateTeam;
  if (can : bool) then
    let set := match setnx taskID with Ok b => b | Err _ => false end in
    (if set then emit (XAdd streamTeamCreate [("task_id", uuid_String taskID)])
     else mret tt);;
    ack msg
  else mret tt.

Definition carve_or_request (now : Z) (setnx : UUID -> result bool string)
    (msg : XMessage) (taskID : UUID) (task : Task) : M unit :=
  if String.eqb (classifyTaskComplexity (t_Description task)) ComplexitySmall then
    lender ← FindIdleTeamWithCapacity 3;
    match lender with
    | Some (teamID, _) =>
        r ← assignTask now taskID teamID;
        match r with Err _ => mret tt | Ok _ => ack msg end
    | None => request_team setnx msg taskID
    end
  else request_team setnx msg taskID.

(** The body of the loop of [handleStreamMessages]. *)
Definition handle_message (now : Z) (setnx : UUID -> result bool string)
    (msg : XMessage) : M unit :=
  match msg_task_id msg with
  | None => ack msg
  | Some taskIDStr =>
      match uuid_Parse taskIDStr with
      | None => ack msg
      | Some taskID =>
          task ← GetTask taskID;
          match task with
          | Err _ => ack msg
          | Ok task =>
              match t_AssignedTeamID task with
              | Some _ => ack msg
              | None =>
                  if is_terminal (t_Status task) then ack msg
                  else
                    team ← GetIdleTeam;
                    match team with
                    | Some (teamID, _) =>
                        r ← assignTask now taskID teamID;
                        match r with Err _ => mret tt | Ok _ => ack msg end
                    | None => carve_or_request now setnx msg taskID task
                    end
              end
          end
      end
  end.

Definition handleStreamMessages (now : Z) (setnx : UUID -> result bool string)
    (messages : list XMessage) : M unit :=
  for_rows messages (handle_message now setnx).

(** Busy agents of idle or offline teams. *)
Definition inconsistent_agents (w : World) : list UUID :=
  (select (fun _ a => String.eqb (a_Status a) "busy" &&
     match a_TeamID a ≫= fun t => teams w !! t with
     | Some t => String.eqb (tm_Status t) "idle" || String.eqb (tm_Status t) "offline"
     | None => false
     end) (agents w)).*1.

Definition cleanupInconsistentAgents : M unit :=
  rows ← query inconsistent_agents;
  match rows with
  | Err _ => mret tt
  | Ok ids =>
      for_rows ids (fun agentID =>
        (if has_auth then emit (Revoke agentID) else mret tt);;
        emit (RedisDel (hbKey agentID));;
        exec_ (set_agents (alter (with_agent_status "offline") agentID)))
  end.

(** ** Time-outs and retries *)

Definition timed_out_tasks (now : Z) (w : World) : list UUID :=
  (select (fun _ t => match t_TimeoutAt t with Some d => d <? now | None => false end
                      && negb (is_terminal (t_Status t))) (tasks w)).*1.

Definition checkTimeouts (now : Z) : M unit :=
  rows ← query (timed_out_tasks now);
  match rows with
  | Err _ => mret tt
  | Ok ids =>
      for_rows ids (fun taskID =>
        exec_ (set_tasks (alter (fun t => set_CompletedAt (Some now)
          (set_FailureReason (Some "task exceeded 30 minute timeout")
            (set_Status StatusTimedOut t))) taskID));;
        broadcast_task "timed_out" taskID;;
        task ← GetTask taskID;
        release_team_of task)
  end.

(** The columns [RetryTask] resets. *)
Definition reset_for_retry (newRetry : Z) (t : Task) : Task :=
  set_PlanDocument None (set_CompletedAt None (set_TimeoutAt None
    (set_AssignedAgents None (set_AssignedTeamID None
      (set_FailureReason (Some "") (set_RetryCount newRetry
        (set_Status StatusSubmitted t))))))).

(** [%q] of a status, which needs no escapes. *)
Definition quoted (s : string) : string :=
  String (ascii_of_nat 34) s ++ String (ascii_of_nat 34) EmptyString.

Definition not_retryable (taskID : UUID) (status : string) : string :=
  "task " ++ uuid_String taskID ++ " has status " ++ quoted status
  ++ " — only failed or timed_out tasks can be retried".

Definition RetryTask (taskID : UUID) : M (result unit string) :=
  r ← GetTask taskID;
  match r with
  | Err e => mret (Err ("retry: " ++ e))
  | Ok task =>
      if negb (String.eqb (t_Status task) StatusFailed)
         && negb (String.eqb (t_Status task) StatusTimedOut)
      then mret (Err (not_retryable taskID (t_Status task)))
      else if MaxRetries <=? t_RetryCount task
      then mret (Err ("task " ++ uuid_String taskID ++ " has reached max retries ("
                      ++ itoa MaxRetries ++ ")"))
      else
        let newRetry := t_RetryCount task + 1 in
        r ← exec (fun w => affected taskID (tasks w))
                 (set_tasks (alter (reset_for_retry newRetry) taskID));
        match r with
        | Err e => mret (Err ("retry update: " ++ e))
        | Ok _ =>
            emit (XAdd streamPending [("task_id", uuid_String taskID);
                                      ("repo_id", t_RepoID task)]);;
            broadcast_task "retried" taskID;;
            mret (Ok tt)
        end
  end.

(** ** Heartbeat monitor *)

(** Answer of [GET]: the key is missing, the command failed, or its value. *)
Inductive redis_get := RedisNil | RedisError | RedisInt (v : Z).

Definition checkTeamHealth (now : Z) (teamID : UUID) : M unit :=
  r ← query (fun w => count_where (fun _ a =>
         bool_decide (a_TeamID a = Some teamID) && negb (String.eqb (a_Status a) "offline"))
         (agents w));
  let onlineCount := match r with Ok n => n | Err _ => 0 end in
  if onlineCount =? 0 then
    rows ← query (fun w => (select (fun _ t =>
              bool_decide (t_AssignedTeamID t = Some teamID)
              && negb (is_terminal (t_Status t))) (tasks w)).*1);
    match rows with
    | Err _ => mret tt
    | Ok ids =>
        for_rows ids (fun taskID =>
          FailTask now taskID "all team agents offline (heartbeat timeout)";; mret tt);;
        MarkTeamOffline teamID
    end
  else mret tt.

Definition markAgentOffline (now : Z) (agentID : UUID) (teamID : option UUID)
    (prevStatus : string) : M unit :=
  exec_ (set_agents (alter (with_agent_status "offline") agentID));;
  (if has_hub then emit (BroadcastAgent "offline" agentID) else mret tt);;
  match teamID with
  | Some t => if String.eqb prevStatus "busy" then checkTeamHealth now t else mret tt
  | None => mret tt
  end.

Definition online_agents (w : World) : list (UUID * Agent) :=
  select (fun _ a => negb (String.eqb (a_Status a) "offline")) (agents w).

Definition checkHeartbeats (now : Z) (hb : UUID -> redis_get) : M unit :=
  rows ← query online_agents;
  match rows with
  | Err _ => mret tt
  | Ok l =>
      for_rows l (fun '(agentID, a) =>
        match hb agentID with
        | RedisNil => markAgentOffline now agentID (a_TeamID a) (a_Status a)
        | RedisError => mret tt
        | RedisInt v =>
            if HeartbeatTimeout <? now - v * second
            then markAgentOffline now agentID (a_TeamID a) (a_Status a)
            else mret tt
        end)
  end.

Definition reconcileOnStartup (now : Z) (hb : UUID -> redis_get) : M unit :=
  rows ← query online_agents;
  match rows with
  | Err _ => mret tt
  | Ok l =>
      for_rows l (fun '(agentID, a) =>
        match hb agentID with
        | RedisNil => markAgentOffline now agentID (a_TeamID a) (a_Status a)
        | _ => mret tt
        end)
  end.

(** ** Stale rows *)

Definition stale_agent (cutoff : Z) (a : Agent) : bool :=
  String.eqb (a_Status a) "offline" && (a_RegisteredAt a <? cutoff).

(** Deleting agents sets the references to them to NULL ([ON DELETE SET NULL]). *)
Definition delete_agents (p : Agent -> bool) (w : World) : World :=
  let gone (o : option UUID) :=
    match o with
    | Some a => match agents w !! a with Some x => if p x then None else o | None => o end
    | None => None
    end in
  set_diffs (fmap (fun d =>
      {| d_TaskID := d_TaskID d; d_FilePath := d_FilePath d; d_ChangeType := d_ChangeType d;
         d_Original := d_Original d; d_Proposed := d_Proposed d;
         d_UnifiedDiff := d_UnifiedDiff d; d_AgentID := gone (d_AgentID d);
         d_Status := d_Status d; d_CreatedAt := d_CreatedAt d |}))
  (set_teams (fmap (fun t =>
      {| tm_Name := tm_Name t; tm_LeadAgentID := gone (tm_LeadAgentID t);
         tm_Status := tm_Status t; tm_AgentIDs := tm_AgentIDs t;
         tm_FormedAt := tm_FormedAt t |}))
  (set_agents (delete_where (fun _ a => p a)) w)).

(** Offline teams no agent belongs to; a task keeps no deleted team. *)
Definition stale_team (w : World) (id : UUID) (t : Team) : bool :=
  String.eqb (tm_Status t) "offline"
  && (count_where (fun _ a => bool_decide (a_TeamID a = Some id)) (agents w) =? 0).

Definition delete_teams (w : World) : World :=
  set_tasks (fmap (fun t =>
      match t_AssignedTeamID t with
      | Some id => match teams w !! id with
                   | Some x => if stale_team w id x then set_AssignedTeamID None t else t
                   | None => t
                   end
      | None => t
      end))
  (set_teams (delete_where (stale_team w)) w).

Definition reapStaleRows (now : Z) : M unit :=
  let cutoff := now - StaleOfflineThreshold in
  (if has_auth then
     rows ← query (fun w => (select (fun _ a => stale_agent cutoff a) (agents w)).*1);
     match rows with
     | Ok ids => for_rows ids revoke_agent
     | Err _ => mret tt
     end
   else mret tt);;
  r ← exec (fun _ => 0) (delete_agents (stale_agent cutoff));
  match r with
  | Err _ => mret tt
  | Ok _ => exec_ delete_teams
  end.

(** ** What the operations leave alone *)

Lemma revokeTeamTokens_tasks T t : preserves (tasks_are T) (revokeTeamTokens t).
Proof. unfold revokeTeamTokens, revoke_agent. preserve. Qed.

Lemma ReleaseTeam_tasks T t : preserves (tasks_are T) (ReleaseTeam t).
Proof. unfold ReleaseTeam, tasks_are. preserve; done. Qed.

#[local] Hint Resolve revokeTeamTokens_tasks ReleaseTeam_tasks : preserves.

Lemma release_team_of_tasks T r : preserves (tasks_are T) (release_team_of r).
Proof. unfold release_team_of. preserve. Qed.

Lemma broadcast_task_tasks T e id : preserves (tasks_are T) (broadcast_task e id).
Proof. unfold broadcast_task. preserve. Qed.

#[local] Hint Resolve release_team_of_tasks broadcast_task_tasks : preserves.

Lemma GetTask_tasks T id : preserves (tasks_are T) (GetTask id).
Proof. unfold GetTask. preserve. Qed.

#[local] Hint Resolve GetTask_tasks : preserves.

(** ** Time-outs *)

(** A task whose time-out is past and that has not ended. *)
Definition due (now : Z) (t : Task) : bool :=
  match t_TimeoutAt t with Some d => d <? now | None => false end
  && negb (is_terminal (t_Status t)).

Definition time_out (now : Z) (t : Task) : Task :=
  set_CompletedAt (Some now)
    (set_FailureReason (Some "task exceeded 30 minute timeout")
      (set_Status StatusTimedOut t)).

(** The rows after the due tasks outside [l] have been timed out. *)
Definition timed_out_but (now : Z) (T : gmap UUID Task) (l : list UUID) (w : World) : Prop :=
  no_faults w /\ NoDup l /\
  forall id, tasks w !! id =
    (fun t => if due now t && negb (bool_decide (id ∈ l)) then time_out now t else t)
      <$> T !! id.

Lemma timed_out_but_step now T x l w :
  (exists t, T !! x = Some t /\ due now t = true) ->
  timed_out_but now T (x :: l) w ->
  NoDup l /\ forall id, alter (time_out now) x (tasks w) !! id =
    (fun t => if due now t && negb (bool_decide (id ∈ l)) then time_out now t else t)
      <$> T !! id.
Proof.
  intros (t & Ht & Hd) (_ & [Hx Hl]%NoDup_cons & Hw). split; [done|]. intros id.
  rewrite lookup_alter. case_decide as Hid.
  - subst id. rewrite Hw, Ht. simpl. rewrite Hd. simpl.
    rewrite bool_decide_eq_true_2 by set_solver. by rewrite bool_decide_eq_false_2.
  - rewrite Hw. destruct (T !! id); simpl; [|done].
    by rewrite (bool_decide_ext (id ∈ x :: l) (id ∈ l)) by set_solver.
Qed.

Lemma timed_out_tasks_spec now w id :
  id ∈ timed_out_tasks now w <-> exists t, tasks w !! id = Some t /\ due now t = true.
Proof. unfold timed_out_tasks. by rewrite select_fst_elem_of. Qed.

(** When its statements succeed, a pass of [checkTimeouts] ends exactly the
    tasks whose time-out is past and that have not ended, with the reason and
    the completion time, and changes no other task. *)
Theorem checkTimeouts_spec now w :
  no_faults w ->
  forall id, tasks (checkTimeouts now w).2 !! id =
    (fun t => if due now t then time_out now t else t) <$> tasks w !! id.
Proof.
  intros Hw. set (T := tasks w). set (ids := timed_out_tasks now w).
  assert (forall l, (forall x, x ∈ l -> x ∈ ids) ->
    triple (timed_out_but now T l) (for_rows l (fun taskID =>
        exec_ (set_tasks (alter (time_out now) taskID));;
        broadcast_task "timed_out" taskID;;
        task ← GetTask taskID;
        release_team_of task)) (fun _ => timed_out_but now T [])) as Hloop.
  { induction l as [|x l IH]; intros Hin; simpl; [by apply triple_ret|].
    apply triple_bind with (R := fun _ => timed_out_but now T l);
      [|intros []; apply IH; set_solver].
    intros w1 Hw1. pose proof (timed_out_but_step now T x l w1) as Hstep.
    destruct Hstep as [Hnd Hrows]; [apply timed_out_tasks_spec, Hin; set_solver|done|].
    assert (preserves (tasks_are (alter (time_out now) x (tasks w1)))
      (broadcast_task "timed_out" x;; task ← GetTask x; release_team_of task)) as Hp
      by preserve.
    destruct Hw1 as [Hf _]. run.
    destruct (Hp (set_tasks (alter (time_out now) x) w1)) as [Ht Hnf]; [done|].
    split; [exact Hnf|]. split; [done|]. intros id. cbn in Ht. rewrite Ht. apply Hrows. }
  assert (timed_out_but now T ids w) as Hinit.
  { split_and!; [done|apply select_NoDup|]. intros id. fold T.
    destruct (T !! id) as [t|] eqn:E; simpl; [|done].
    destruct (due now t) eqn:Ed; simpl; [|done].
    rewrite bool_decide_eq_true_2; [done|]. apply timed_out_tasks_spec. eauto. }
  intros id. unfold checkTimeouts. run.
  destruct (Hloop ids (fun x Hx => Hx) w Hinit) as (_ & _ & Hend).
  etransitivity; [apply Hend|]. destruct (T !! id); simpl; [|done].
  by rewrite andb_true_r.
Qed.

(** ** Assignment *)

Definition assigned (now : Z) (teamID : UUID) (t : Task) : Task :=
  set_TimeoutAt (Some (now + TaskTimeout))
    (set_AssignedTeamID (Some teamID) (set_Status StatusPlanning t)).

(** The task and team tables fixed. *)
Definition tables_are (T : gmap UUID Task) (TM : gmap UUID Team) (w : World) : Prop :=
  tasks w = T /\ teams w = TM.

#[local] Instance tables_are_inv T TM : TableInv (tables_are T TM).
Proof. by split. Qed.

(** What one message may do to the task table [T], given the teams [TM]. *)
Definition may_assign (now : Z) (T : gmap UUID Task) (TM : gmap UUID Team) (w : World)
    : Prop :=
  tasks w = T \/
  exists id t team x,
    T !! id = Some t /\ is_terminal (t_Status t) = false /\ t_AssignedTeamID t = None /\
    TM !! team = Some x /\ is_idle_team team x = true /\
    tasks w = <[id := assigned now team t]> T.

#[local] Instance may_assign_inv now T TM : TableInv (may_assign now T TM).
Proof. by split. Qed.

Lemma tables_may_assign now T TM w : tables_are T TM w -> may_assign now T TM w.
Proof. intros [? _]. by left. Qed.

Lemma triple_query (I : World -> Prop) `{TableInv I} {A} (q : World -> A) :
  triple I (query q) (fun r w => I w /\ forall a, r = Ok a -> a = q w).
Proof.
  intros w Hw. unfold query. simpl. apply inv_drop_fault in Hw.
  case_match; simpl; (split; [done|]); intros a; congruence.
Qed.

Lemma GetTask_reads T TM id :
  triple (tables_are T TM) (GetTask id)
    (fun r w => tables_are T TM w /\ forall t, r = Ok t -> T !! id = Some t).
Proof.
  eapply triple_bind; [apply triple_query, _|]. intros r.
  destruct r as [[t|]|e]; apply triple_ret; intros w [[HT HTM] Hr];
    (split; [done|]); intros t' [=]. subst t'. rewrite <- HT. symmetry. eauto.
Qed.

(** A team picked among the rows of a query. *)
Lemma pick_team T TM (p : UUID -> Team -> bool) :
  triple (tables_are T TM)
    (rows ← query (fun w => select p (teams w)); mret (first_row rows))
    (fun r w => tables_are T TM w /\
       forall id x, r = Some (id, x) -> TM !! id = Some x /\ p id x = true).
Proof.
  eapply triple_bind; [apply triple_query, _|]. intros r. apply triple_ret.
  intros w [Hw Hr]. split; [done|]. intros id x.
  destruct r as [[|y rest]|]; simpl; intros [=]. subst y.
  apply select_elem_of. destruct Hw as [_ <-]. rewrite <- (Hr _ eq_refl). constructor.
Qed.

Lemma assignTask_may_assign now T TM id t team x :
  T !! id = Some t -> is_terminal (t_Status t) = false -> t_AssignedTeamID t = None ->
  TM !! team = Some x -> is_idle_team team x = true ->
  triple (tables_are T TM) (assignTask now id team) (fun _ => may_assign now T TM).
Proof.
  intros Ht Hs Ha Hx Hi. unfold assignTask.
  eapply triple_bind with (R := fun _ => may_assign now T TM).
  - intros w [HT HTM]. unfold exec_when. simpl. case_if; simpl; [by left|right].
    exists id, t, team, x. split_and!; try done. cbn. rewrite HT. apply map_eq. intros k.
    rewrite lookup_alter, lookup_insert. case_decide; [subst k|done]. by rewrite Ht.
  - intros r. change (preserves (may_assign now T TM)
      match r with
      | Ok _ => MarkTeamBusy team;;
          emit (XAdd "swarm:events:task:assigned"
              [("task_id", uuid_String id); ("team_id", uuid_String team)]);;
          mret (Ok tt)
      | Err e => mret (Err e)
      end). unfold MarkTeamBusy. preserve; done.
Qed.

#[local] Hint Resolve tables_may_assign : preserves.

Lemma may_assign_rest now T TM {A} (m : M A) :
  preserves (tables_are T TM) m ->
  triple (tables_are T TM) m (fun _ => may_assign now T TM).
Proof. intros Hm. eapply triple_conseq; [exact Hm|done|]. eauto with preserves. Qed.

Lemma ack_keeps I `{TableInv I} msg : preserves I (ack msg).
Proof. unfold ack. preserve. Qed.

Lemma assign_then_ack now T TM id t team x msg :
  T !! id = Some t -> is_terminal (t_Status t) = false -> t_AssignedTeamID t = None ->
  TM !! team = Some x -> is_idle_team team x = true ->
  triple (tables_are T TM)
    (r ← assignTask now id team;
     match r with Err _ => mret tt | Ok _ => ack msg end)
    (fun _ => may_assign now T TM).
Proof.
  intros. eapply triple_bind; [by eapply assignTask_may_assign|].
  intros [?|?]; [apply ack_keeps, _|by apply triple_ret].
Qed.

Lemma request_team_keeps I `{TableInv I} setnx msg id :
  preserves I (request_team setnx msg id).
Proof.
  unfold request_team, CanCreateTeam, activeTeamCount.
  apply preserves_bind; [preserve|]. intros [|]; [|apply preserves_ret].
  apply preserves_bind; [preserve|]. intros ?. apply ack_keeps, _.
Qed.

(** C6: whatever statements fail, one message either leaves the task table alone
    or puts exactly one task, live and unassigned, to planning with a time-out,
    on a team that was idle and is not a warm-pool sentinel. *)
Theorem handle_message_may_assign now setnx msg w :
  may_assign now (tasks w) (teams w) (handle_message now setnx msg w).2.
Proof.
  assert (forall T TM, triple (tables_are T TM) (handle_message now setnx msg)
            (fun _ => may_assign now T TM)) as H'; [|by apply (H' (tasks w) (teams w))].
  intros T TM. unfold handle_message.
  assert (triple (tables_are T TM) (ack msg) (fun _ => may_assign now T TM)) as Hack
    by apply may_assign_rest, ack_keeps, _.
  destruct (msg_task_id msg) as [s|]; [|done].
  destruct (uuid_Parse s) as [id|]; [|done].
  eapply triple_bind; [apply GetTask_reads|]. intros [t|e];
    [|eapply triple_conseq; [exact Hack|by intros ? []|done]].
  apply triple_pure. intros Ht. specialize (Ht t eq_refl).
  destruct (t_AssignedTeamID t) eqn:Ha; [done|]. destruct (is_terminal _) eqn:Hs; [done|].
  eapply (triple_bind (tables_are T TM)); [apply pick_team|]. intros [[team x]|].
  - apply triple_pure. intros Hp. destruct (Hp _ _ eq_refl) as [Hx Hi]. by eapply assign_then_ack.
  - apply triple_pure. intros _. unfold carve_or_request.
    assert (triple (tables_are T TM) (request_team setnx msg id)
      (fun _ => may_assign now T TM)) as Hreq by apply may_assign_rest, request_team_keeps, _.
    case_if; [|done].
    eapply (triple_bind (tables_are T TM)); [apply pick_team|]. intros [[team x]|].
    + apply triple_pure. intros Hp. destruct (Hp _ _ eq_refl) as [Hx [Hi _]%andb_prop].
      by eapply assign_then_ack.
    + eapply triple_conseq; [exact Hreq|by intros ? []|done].
Qed.

(** ** Retrying *)

Definition retryable (t : Task) : bool :=
  (String.eqb (t_Status t) StatusFailed || String.eqb (t_Status t) StatusTimedOut)
  && (t_RetryCount t <? MaxRetries).

Lemma GetTask_ok id w :
  no_faults w ->
  GetTask id w = (match tasks w !! id with
                  | Some t => Ok t
                  | None => Err (task_query_error id no_rows)
                  end, w).
Proof. intros Hw. unfold GetTask. run. by destruct (tasks w !! id). Qed.

Lemma run_GetTask {B} id (f : _ -> M B) w :
  no_faults w ->
  (GetTask id ≫= f) w = f (match tasks w !! id with
                  | Some t => Ok t
                  | None => Err (task_query_error id no_rows)
                  end) w.
Proof. intros Hw. by rewrite (run_eq _ _ _ _ _ (GetTask_ok id w Hw)). Qed.

(** When its statements succeed, [RetryTask] accepts exactly the failed and
    timed-out tasks with fewer than three retries: it counts the retry, makes the
    task submitted and unassigned again and publishes it; otherwise it returns
    an error and changes nothing. *)
Theorem RetryTask_spec id w :
  no_faults w ->
  match tasks w !! id with
  | Some t =>
      if retryable t then
        (RetryTask id w).1 = Ok tt /\
        tasks (RetryTask id w).2 = <[id := reset_for_retry (t_RetryCount t + 1) t]> (tasks w) /\
        XAdd streamPending [("task_id", uuid_String id); ("repo_id", t_RepoID t)]
          ∈ effects (RetryTask id w).2
      else exists e, RetryTask id w = (Err e, w)
  | None => exists e, RetryTask id w = (Err e, w)
  end.
Proof.
  intros Hw. unfold RetryTask. rewrite run_GetTask by done.
  destruct (tasks w !! id) as [t|] eqn:Et; [|eauto]. unfold retryable.
  rewrite Z.ltb_antisym.
  destruct (String.eqb _ StatusFailed), (String.eqb _ StatusTimedOut),
    (MaxRetries <=? t_RetryCount t); simpl; eauto; run;
    unfold broadcast_task; destruct has_hub; simpl;
    (split_and!; [done| |set_solver]);
    apply map_eq; intros k; rewrite lookup_alter, lookup_insert;
    (case_decide; [subst; by rewrite Et|done]).
Qed.

(** ** The end of a task *)

(** The trace of revoking the agents [ids]. *)
Definition revocations (ids : list UUID) : list Effect :=
  concat (map (fun a => [Revoke a; RedisDel (hbKey a)]) ids).

Lemma set_effects_nil w : set_effects (fun es => es ++ [])%list w = w.
Proof. destruct w. unfold set_effects. simpl. by rewrite app_nil_r. Qed.

Lemma revoke_agents ids w :
  for_rows ids revoke_agent w = (tt, set_effects (fun es => es ++ revocations ids)%list w).
Proof.
  revert w. induction ids as [|a ids IH]; intros w; simpl.
  - unfold mret, M_ret. by rewrite set_effects_nil.
  - unfold revoke_agent. run. rewrite IH. unfold set_effects.
    cbn. by rewrite <- !app_assoc.
Qed.

Lemma revocations_elem_of a ids : a ∈ ids -> Revoke a ∈ revocations ids.
Proof.
  unfold revocations. induction 1; simpl; [by constructor|].
  by do 2 constructor.
Qed.

Definition team_members (teamID : UUID) (w : World) : list UUID :=
  (select (fun _ a => bool_decide (a_TeamID a = Some teamID)) (agents w)).*1.

(** The release of a team: the tokens of its members, then all offline. *)
Definition released (teamID : UUID) (w : World) : World :=
  set_team_status teamID "offline" (set_team_agents_status teamID "offline"
    (set_effects (fun es => es ++ (if has_auth then revocations (team_members teamID w)
                                   else []))%list w)).

Lemma run_release {B} teamID (f : unit -> M B) w :
  no_faults w ->
  ((revokeTeamTokens teamID;; ReleaseTeam teamID) ≫= f) w = f tt (released teamID w).
Proof.
  intros Hw.
  assert ((revokeTeamTokens teamID;; ReleaseTeam teamID) w = (tt, released teamID w)) as Hr;
    [|by rewrite (run_eq _ _ _ _ _ Hr)].
  unfold revokeTeamTokens, ReleaseTeam, released. destruct has_auth; simpl.
  - run. rewrite (run_eq _ _ _ _ _ (revoke_agents _ w)). run. by rewrite exec__ok.
  - run. rewrite set_effects_nil. by rewrite exec__ok.
Qed.

Lemma released_offline teamID w :
  (forall a x, agents (released teamID w) !! a = Some x -> a_TeamID x = Some teamID ->
     a_Status x = "offline") /\
  (forall x, teams (released teamID w) !! teamID = Some x -> tm_Status x = "offline").
Proof.
  unfold released. simpl. split.
  - intros a x. rewrite update_where_lookup.
    destruct (agents w !! a) as [y|]; simpl; [|done]. case_bool_decide; intros [= <-] Hx;
      [done|by simpl in Hx].
  - intros x. rewrite lookup_alter, decide_True by done.
    destruct (teams w !! teamID); simpl; [|done]. by intros [= <-].
Qed.

(** A task that has ended, with its team released. *)
Definition ended (id : UUID) (t' : Task) (w w' : World) : Prop :=
  tasks w' = <[id := t']> (tasks w) /\
  forall team, t_AssignedTeamID t' = Some team ->
    (forall a x, agents w' !! a = Some x -> a_TeamID x = Some team -> a_Status x = "offline") /\
    (forall x, teams w' !! team = Some x -> tm_Status x = "offline") /\
    (has_auth = true -> forall a x, agents w !! a = Some x -> a_TeamID x = Some team ->
       Revoke a ∈ effects w').

(** The update of the row of a task followed by the release of its team. *)
Lemma end_task {B} (g : Task -> Task) id t w (f : unit -> M B) :
  no_faults w -> tasks w !! id = Some t ->
  exists w', no_faults w' /\ ended id (g t) w w' /\
    ((task ← GetTask id; release_team_of task) ≫= f) (set_tasks (alter g id) w) = f tt w'.
Proof.
  intros Hw Ht.
  assert (alter g id (tasks w) = <[id := g t]> (tasks w)) as Halt.
  { apply map_eq. intros k. rewrite lookup_alter, lookup_insert. case_decide; [|done].
    subst k. by rewrite Ht. }
  rewrite run_bind, run_GetTask by done. simpl. rewrite Halt, lookup_insert_eq. simpl.
  destruct (t_AssignedTeamID (g t)) as [team|] eqn:Eteam.
  - rewrite run_release by done. eexists. split; [|split; [|reflexivity]]; [done|].
    split; [done|]. rewrite Eteam. intros ? [= <-].
    destruct (released_offline team (set_tasks (alter g id) w)) as [Ha Htm].
    split_and!; [done|done|]. intros Hauth a x Hx Hteam.
    unfold released. rewrite Hauth. simpl. apply elem_of_app. right.
    apply revocations_elem_of, select_fst_elem_of. exists x. split; [done|].
    by apply bool_decide_eq_true.
  - rewrite run_ret. eexists. split; [|split; [|reflexivity]]; [done|].
    split; [done|]. congruence.
Qed.

Definition failed_task (now : Z) (reason : string) (t : Task) : Task :=
  set_CompletedAt (Some now) (set_FailureReason (Some reason) (set_Status StatusFailed t)).
Definition completed_task (now : Z) (t : Task) : Task :=
  set_CompletedAt (Some now) (set_Status StatusCompleted t).

(** When its statements succeed, failing a task records the reason and the
    time on its row alone, takes the assigned team and every agent of it
    offline and revokes the tokens of all of them. *)
Theorem FailTask_spec now id reason t w :
  no_faults w -> tasks w !! id = Some t ->
  (FailTask now id reason w).1 = Ok tt /\
  ended id (failed_task now reason t) w (FailTask now id reason w).2.
Proof.
  intros Hw Ht. unfold FailTask. run.
  destruct (end_task (failed_task now reason) id t w
    (fun _ => broadcast_task "failed" id;; mret (Ok tt : result unit string)) Hw Ht) as (w' & Hf & He & Heq).
  unfold failed_task in Heq. rewrite run_bind in Heq. rewrite Heq. unfold broadcast_task.
  destruct has_hub; run; (split; [done|]); [|exact He].
  destruct He as [Htasks He]. split; [exact Htasks|]. intros team Hteam.
  destruct (He team Hteam) as (Ha & Htm & Hr). split_and!; [exact Ha|exact Htm|].
  intros Hauth a x Hx Hm. apply elem_of_app. left. eauto.
Qed.

(** When its statements succeed, completing a task sets its status and time
    and releases its team in the same way. *)
Theorem CompleteTask_spec now id t w :
  no_faults w -> tasks w !! id = Some t ->
  (CompleteTask now id w).1 = Ok tt /\
  ended id (completed_task now t) w (CompleteTask now id w).2.
Proof.
  intros Hw Ht. unfold CompleteTask. run.
  destruct (end_task (completed_task now) id t w (fun _ => mret (Ok tt : result unit string)) Hw Ht)
    as (w' & Hf & He & Heq).
  unfold completed_task in Heq. rewrite run_bind in Heq. rewrite Heq. split; [done|exact He].
Qed.

(** ** Acknowledgement *)

(** No team is idle, so none is idle with at least [n] agents either. *)
Lemma no_idle_team_no_lender n w :
  no_faults w -> (GetIdleTeam w).1 = None -> (FindIdleTeamWithCapacity n w).1 = None.
Proof.
  intros Hw. unfold GetIdleTeam, FindIdleTeamWithCapacity. run. cbn.
  destruct (select is_idle_team (teams w)) as [|? ?] eqn:E; [intros _|done].
  destruct (select (fun id t => is_idle_team id t && _) (teams w)) as [|[id t] ?] eqn:E';
    [done|exfalso].
  assert ((id, t) ∈ select is_idle_team (teams w)) as Hin; [|rewrite E in Hin; set_solver].
  assert ((id, t) ∈ select (fun id t => is_idle_team id t &&
    (n <=? Z.of_nat (List.length (team_agents t)))) (teams w)) as [Ht Hp]%select_elem_of
    by (rewrite E'; constructor).
  apply select_elem_of. split; [done|]. by apply andb_prop in Hp as [? _].
Qed.

Definition acked (msg : XMessage) (w : World) : Prop :=
  XAck streamPending (msg_ID msg) ∈ effects w.

Lemma ack_acked msg w : acked msg (ack msg w).2.
Proof. unfold acked. simpl. set_solver. Qed.

Lemma assign_acks now id teamID msg w :
  no_faults w -> is_Some (teams w !! teamID) ->
  acked msg ((r ← assignTask now id teamID;
              match r with Err _ => mret tt | Ok _ => ack msg end) w).2.
Proof.
  intros Hw Ht. unfold assignTask, MarkTeamBusy. rewrite run_bind, run_exec_when; [|done|].
  - cbn beta iota. run. apply ack_acked.
  - rewrite (bool_decide_eq_true_2 _ Ht). apply orb_true_r.
Qed.

Lemma request_team_ok setnx msg id w :
  no_faults w ->
  if active_teams w <? MaxTeams then acked msg (request_team setnx msg id w).2
  else request_team setnx msg id w = (tt, w).
Proof.
  intros Hw. unfold request_team, CanCreateTeam, activeTeamCount. run.
  destruct (active_teams w <? MaxTeams); [|done].
  destruct (match setnx id with Ok b => b | Err _ => false end); run; apply ack_acked.
Qed.

(** The task of a message that has to wait: live, unassigned, no idle team, and
    no room for another one. *)
Definition must_wait (msg : XMessage) (w : World) : Prop :=
  exists s id t,
    msg_task_id msg = Some s /\ uuid_Parse s = Some id /\ tasks w !! id = Some t /\
    is_terminal (t_Status t) = false /\ t_AssignedTeamID t = None /\
    (forall team x, teams w !! team = Some x -> is_idle_team team x = false) /\
    MaxTeams <= active_teams w.

Lemma GetIdleTeam_ok w :
  no_faults w -> GetIdleTeam w = (first_row (Ok (select is_idle_team (teams w))), w).
Proof. intros Hw. unfold GetIdleTeam. by run. Qed.

(** When the statements succeed, a message is acknowledged unless its task
    is live and unassigned while no team is idle and the team cap is reached; it
    then stays pending and nothing changes. *)
Theorem handle_message_acks now setnx msg w :
  no_faults w ->
  acked msg (handle_message now setnx msg w).2 \/
  (must_wait msg w /\ handle_message now setnx msg w = (tt, w)).
Proof.
  intros Hw. unfold handle_message, must_wait.
  destruct (msg_task_id msg) as [s|] eqn:Es; [|left; apply ack_acked].
  destruct (uuid_Parse s) as [id|] eqn:Ep; [|left; apply ack_acked].
  rewrite run_GetTask by done.
  destruct (tasks w !! id) as [t|] eqn:Et; [|left; apply ack_acked].
  destruct (t_AssignedTeamID t) eqn:Ea; [left; apply ack_acked|].
  destruct (is_terminal (t_Status t)) eqn:Est; [left; apply ack_acked|].
  rewrite (run_eq _ _ _ _ _ (GetIdleTeam_ok w Hw)).
  destruct (select is_idle_team (teams w)) as [|[team x] rest] eqn:Esel; simpl.
  - assert (forall team x, teams w !! team = Some x -> is_idle_team team x = false) as Hno.
    { intros team x Hx. destruct (is_idle_team team x) eqn:Ei; [exfalso|done].
      apply (not_elem_of_nil (team, x)). rewrite <- Esel. by apply select_elem_of. }
    pose proof (request_team_ok setnx msg id w Hw) as Hreq.
    assert (carve_or_request now setnx msg id t w = request_team setnx msg id w) as ->.
    { unfold carve_or_request. case_if; [|done].
      rewrite (run_eq _ _ _ None w); [done|]. 
      rewrite (surjective_pairing (FindIdleTeamWithCapacity 3 w)). f_equal.
      - apply no_idle_team_no_lender; [done|]. rewrite GetIdleTeam_ok by done. by rewrite Esel.
      - unfold FindIdleTeamWithCapacity. by run. }
    destruct (active_teams w <? MaxTeams) eqn:Ec; [by left|right]. bool_to_prop.
    split; [|done]. by exists s, id, t.
  - left. apply assign_acks; [done|].
    assert ((team, x) ∈ select is_idle_team (teams w)) as [Hx _]%select_elem_of
      by (rewrite Esel; constructor). eauto.
Qed.

End task_manager.

(** ** Witnesses *)

#[export] Instance full_config : Config := {| has_auth := true; has_hub := true |}.
#[export] Instance ascii_only : UnicodeTables :=
  {| unicode_to_lower s := s; unicode_to_upper s := s |}.

Definition sample_task : Task :=
  {| t_RepoID := "r"; t_Title := "t"; t_Description := "d"; t_Status := StatusImplementing;
     t_PlanDocument := None; t_AssignedTeamID := Some 7%N; t_AssignedAgents := None;
     t_PRUrl := ""; t_PRNumber := 0; t_HumanRating := None; t_HumanComment := "";
     t_SubmittedBy := None; t_RetryCount := 1; t_FailureReason := None; t_CreatedAt := 0;
     t_CompletedAt := None; t_TimeoutAt := Some 5 |}.

Definition sample_agent : Agent :=
  {| a_Role := "qa"; a_TeamID := Some 7%N; a_Status := "busy"; a_TasksDone := 0;
     a_Hostname := "h"; a_Version := "v"; a_RegisteredAt := 0 |}.

Definition sample_team : Team :=
  {| tm_Name := "team"; tm_LeadAgentID := None; tm_Status := "busy"; tm_AgentIDs := None;
     tm_FormedAt := 0 |}.

(** A task in progress, its busy team and its agent. *)
Definition sample_world : World :=
  {| tasks := {[1%N := sample_task]}; teams := {[7%N := sample_team]};
     agents := {[9%N := sample_agent]}; diffs := ∅; db_circuits := ∅; db_events := ∅;
     circuits := ∅; effects := []; faults := [] |}.

Lemma checkTimeouts_spec_witness :
  no_faults sample_world /\
  tasks (checkTimeouts 6 sample_world).2 !! 1%N = Some (time_out 6 sample_task).
Proof.
  split; [reflexivity|].
  rewrite (checkTimeouts_spec 6 sample_world eq_refl 1%N). vm_compute. reflexivity.
Defined.

Lemma RetryTask_spec_witness :
  no_faults sample_world /\ exists e, RetryTask 1 sample_world = (Err e, sample_world).
Proof. split; [reflexivity|]. exact (RetryTask_spec 1 sample_world eq_refl). Defined.

Lemma FailTask_spec_witness :
  no_faults sample_world /\ tasks sample_world !! 1%N = Some sample_task /\
  ended 1 (failed_task 6 "reason" sample_task) sample_world
    (FailTask 6 1 "reason" sample_world).2.
Proof.
  split_and!; [reflexivity|reflexivity|].
  apply (FailTask_spec 6 1 "reason" sample_task sample_world); reflexivity.
Defined.

Lemma CompleteTask_spec_witness :
  no_faults sample_world /\ tasks sample_world !! 1%N = Some sample_task /\
  ended 1 (completed_task 6 sample_task) sample_world (CompleteTask 6 1 sample_world).2.
Proof.
  split_and!; [reflexivity|reflexivity|].
  apply (CompleteTask_spec 6 1 sample_task sample_world); reflexivity.
Defined.

(** The task of a message waits when five busy teams use up the cap. *)
Definition capped_world : World :=
  set_tasks (fun _ => {[1%N := set_AssignedTeamID None sample_task]})
    (set_teams (fun _ => list_to_map ((fun id => (id, sample_team)) <$> [3; 4; 5; 6; 7]%N))
      sample_world).

Definition sample_message : XMessage := {| msg_ID := "1-0"; msg_task_id := Some "x" |}.

Lemma handle_message_acks_witness :
  no_faults capped_world /\
  (acked sample_message (handle_message 0 (fun _ => Ok true) sample_message capped_world).2 \/
   (must_wait sample_message capped_world /\
    handle_message 0 (fun _ => Ok true) sample_message capped_world = (tt, capped_world))).
Proof.
  split; [reflexivity|].
  exact (handle_message_acks 0 (fun _ => Ok true) sample_message capped_world eq_refl).
Defined.

(** When [SETNX] fails the message is acknowledged although no team was
    requested: nothing asks for the task again. *)
Example setnx_error_strands_task :
  let w := set_teams (fun _ => ∅) capped_world in
  let w' := (handle_message 0 (fun _ => Err "redis down") sample_message w).2 in
  effects w' = [XAck streamPending "1-0"] /\ tasks w' = tasks w.
Proof. vm_compute. split; reflexivity. Qed.

(** A failing COUNT is read as no agent online: the team's task fails although
    its agent is up. *)
Example failed_count_fails_task :
  let w := (checkTeamHealth 6 7
              {| tasks := tasks sample_world; teams := teams sample_world;
                 agents := agents sample_world; diffs := ∅; db_circuits := ∅;
                 db_events := ∅; circuits := ∅; effects := []; faults := [true] |}).2 in
  t_Status <$> tasks w !! 1%N = Some StatusFailed.
Proof. vm_compute. reflexivity. Qed.
