(* ===== verification/SelfHeal.v ===== *)
(** * Self-healing ([internal/swarm/self_heal.go])

    Per-provider circuit breakers, stuck-task recovery and the event log.  The
    code guards the breakers by a mutex that it releases between the sections of
    one operation, so each critical section is a function on the map of
    breakers ([outcome_section], [transition_section], ...), the operations
    compose them, and [sh_step] interleaves the sections of any number of
    concurrent operations.  Clock readings are arguments. *)

From Stdlib Require Import ZArith Lia Ascii String.
From stdpp Require Import base list gmap strings sorting.
From S2P Require Import Prelude GoStrings SwarmDb TeamManager TaskManager.
Local Open Scope string_scope.
Local Open Scope Z_scope.

(** ** Constants *)

Definition CircuitClosed := "closed".
Definition CircuitOpen := "open".
Definition CircuitHalfOpen := "half_open".

Definition SHEventCircuitOpened := "circuit_opened".
Definition SHEventCircuitClosed := "circuit_closed".
Definition SHEventCircuitHalfOpen := "circuit_half_open".
Definition SHEventTaskTimeoutRecover := "task_timeout_recovery".
Definition SHEventProviderFailover := "provider_failover".
Definition SHEventStuckTask := "stuck_task_detected".

Definition SeverityInfo := "info".
Definition SeverityWarn := "warn".
Definition SeverityCritical := "critical".

Definition circuitFailureThreshold : Z := 5.
Definition circuitOpenDuration : Z := 2 * minute.
Definition halfOpenMaxProbes : Z := 3.
Definition stuckTaskThreshold : Z := 45 * minute.
Definition eventRetention : Z := 30 * 24 * 60 * minute.

(** Identifiers drawn by the database ([gen_random_uuid]). *)
Class GenUUID := {
  gen_uuid : gset UUID -> UUID;
  gen_uuid_fresh : forall X, gen_uuid X ∉ X
}.

(** Whether an error of [rows.Scan] ends the iteration (package [pgx]). *)
Class Driver := { scan_closes : bool }.

(** ** Critical sections *)

Definition closed_circuit : providerCircuit :=
  {| c_state := CircuitClosed; c_consecutiveFailures := 0; c_totalFailures := 0;
     c_totalSuccesses := 0; c_lastFailureAt := None; c_lastSuccessAt := None;
     c_openUntil := None; c_halfOpenProbes := 0 |}.

Definition lookup_circuit (provider : string) (m : gmap string providerCircuit)
    : providerCircuit := default closed_circuit (m !! provider).

Definition record_success (now : Z) (c : providerCircuit) : providerCircuit :=
  {| c_state := c_state c; c_consecutiveFailures := 0;
     c_totalFailures := c_totalFailures c;
     c_totalSuccesses := wrap64 (c_totalSuccesses c + 1);
     c_lastFailureAt := c_lastFailureAt c; c_lastSuccessAt := Some now;
     c_openUntil := c_openUntil c;
     c_halfOpenProbes := if String.eqb (c_state c) CircuitHalfOpen
                         then wrap64 (c_halfOpenProbes c + 1) else c_halfOpenProbes c |}.

Definition record_failure (now : Z) (c : providerCircuit) : providerCircuit :=
  {| c_state := c_state c;
     c_consecutiveFailures := wrap64 (c_consecutiveFailures c + 1);
     c_totalFailures := wrap64 (c_totalFailures c + 1);
     c_totalSuccesses := c_totalSuccesses c; c_lastFailureAt := Some now;
     c_lastSuccessAt := c_lastSuccessAt c; c_openUntil := c_openUntil c;
     c_halfOpenProbes := c_halfOpenProbes c |}.

Definition with_state (s : string) (c : providerCircuit) : providerCircuit :=
  {| c_state := s; c_consecutiveFailures := c_consecutiveFailures c;
     c_totalFailures := c_totalFailures c; c_totalSuccesses := c_totalSuccesses c;
     c_lastFailureAt := c_lastFailureAt c; c_lastSuccessAt := c_lastSuccessAt c;
     c_openUntil := c_openUntil c; c_halfOpenProbes := c_halfOpenProbes c |}.
Definition with_openUntil (t : option Z) (c : providerCircuit) : providerCircuit :=
  {| c_state := c_state c; c_consecutiveFailures := c_consecutiveFailures c;
     c_totalFailures := c_totalFailures c; c_totalSuccesses := c_totalSuccesses c;
     c_lastFailureAt := c_lastFailureAt c; c_lastSuccessAt := c_lastSuccessAt c;
     c_openUntil := t; c_halfOpenProbes := c_halfOpenProbes c |}.
Definition with_halfOpenProbes (n : Z) (c : providerCircuit) : providerCircuit :=
  {| c_state := c_state c; c_consecutiveFailures := c_consecutiveFailures c;
     c_totalFailures := c_totalFailures c; c_totalSuccesses := c_totalSuccesses c;
     c_lastFailureAt := c_lastFailureAt c; c_lastSuccessAt := c_lastSuccessAt c;
     c_openUntil := c_openUntil c; c_halfOpenProbes := n |}.
Definition with_consecutiveFailures (n : Z) (c : providerCircuit) : providerCircuit :=
  {| c_state := c_state c; c_consecutiveFailures := n;
     c_totalFailures := c_totalFailures c; c_totalSuccesses := c_totalSuccesses c;
     c_lastFailureAt := c_lastFailureAt c; c_lastSuccessAt := c_lastSuccessAt c;
     c_openUntil := c_openUntil c; c_halfOpenProbes := c_halfOpenProbes c |}.

(** What all paths to the closed state reset. *)
Definition close_circuit (c : providerCircuit) : providerCircuit :=
  with_openUntil None (with_halfOpenProbes 0
    (with_consecutiveFailures 0 (with_state CircuitClosed c))).

(** The locked part of [RecordProviderOutcome] on one breaker, and the
    transition it asks for after unlocking. *)
Definition outcome_circuit (now : Z) (success : bool) (c : providerCircuit)
    : providerCircuit * option string :=
  if success then
    let c := record_success now c in
    if String.eqb (c_state c) CircuitHalfOpen && (halfOpenMaxProbes <=? c_halfOpenProbes c)
    then (c, Some CircuitClosed) else (c, None)
  else
    let c := record_failure now c in
    if (circuitFailureThreshold <=? c_consecutiveFailures c)
       && String.eqb (c_state c) CircuitClosed
    then (with_state CircuitOpen (with_openUntil (Some (now + circuitOpenDuration)) c),
          Some CircuitOpen)
    else (c, None).

Definition outcome_section (now : Z) (provider : string) (success : bool)
    (m : gmap string providerCircuit) : gmap string providerCircuit * option string :=
  let '(c, next) := outcome_circuit now success (lookup_circuit provider m) in
  (<[provider := c]> m, next).

(** The locked part of [transitionCircuit] on one breaker. *)
Definition transition_one (now : Z) (newState : string) (c : providerCircuit)
    : providerCircuit :=
  let c := with_state newState c in
  let c := if String.eqb newState CircuitHalfOpen then with_halfOpenProbes 0 c else c in
  let c := if String.eqb newState CircuitClosed
           then with_openUntil None (with_halfOpenProbes 0 (with_consecutiveFailures 0 c))
           else c in
  if String.eqb newState CircuitOpen
  then with_openUntil (Some (now + circuitOpenDuration)) c else c.

Definition transition_section (now : Z) (provider newState : string)
    (m : gmap string providerCircuit) : gmap string providerCircuit :=
  <[provider := transition_one now newState (lookup_circuit provider m)]> m.

(** The read-locked part of [probeHalfOpenCircuits]. *)
Definition expired (now : Z) (c : providerCircuit) : bool :=
  String.eqb (c_state c) CircuitOpen
  && match c_openUntil c with Some t => t <? now | None => false end.

(** The locked part of [ResetCircuit], and its update of the row. *)
Definition reset_section (provider : string) (m : gmap string providerCircuit)
    : gmap string providerCircuit := alter close_circuit provider m.

Section self_heal.
Context `{RowOrder} `{UuidText} `{Config} `{GenUUID} `{Driver}.

(** ** The event log *)

Definition recordEvent (now : Z) (eventType provider : string) (taskID agentID : option UUID)
    (details : list (string * string)) (severity : string) : M unit :=
  exec_ (set_db_events (fun m =>
    <[gen_uuid (dom m) :=
        {| ev_EventType := eventType; ev_Provider := provider; ev_TaskID := taskID;
           ev_AgentID := agentID; ev_Details := details; ev_Severity := severity;
           ev_Resolved := false; ev_ResolvedAt := None; ev_CreatedAt := now |}]> m)).

(** ** Circuit breakers *)

(** The copy taken under the read lock, then the upsert. *)
Definition persistCircuit (provider : string) : M unit :=
  c ← get (fun w => circuits w !! provider);
  match c with
  | None => mret tt
  | Some c => exec_ (set_db_circuits (<[provider := c]>))
  end.

Definition transition_event (newState : string) : string * string :=
  if String.eqb newState CircuitOpen then (SHEventCircuitOpened, SeverityCritical)
  else if String.eqb newState CircuitHalfOpen then (SHEventCircuitHalfOpen, SeverityWarn)
  else if String.eqb newState CircuitClosed then (SHEventCircuitClosed, SeverityInfo)
  else ("", "").

Definition transitionCircuit (now : Z) (provider newState : string) : M unit :=
  oldState ← get (fun w => c_state (lookup_circuit provider (circuits w)));
  modify (set_circuits (transition_section now provider newState));;
  let '(evType, sev) := transition_event newState in
  recordEvent now evType provider None None
    [("old_state", oldState); ("new_state", newState)] sev;;
  persistCircuit provider;;
  (if has_hub then emit (BroadcastCircuit provider oldState newState) else mret tt).

(** [ProviderOutcomeReport]: the fields the code reads. *)
Record ProviderOutcomeReport := {
  por_Provider : string;
  por_Success : bool;
  por_ErrorMsg : string;
  por_TaskID : string
}.

(** [now] is read in the locked section, [now'] after it. *)
Definition RecordProviderOutcome (now now' : Z) (report : ProviderOutcomeReport) : M unit :=
  let provider := por_Provider report in
  next ← get (fun w => (outcome_section now provider (por_Success report) (circuits w)).2);
  modify (set_circuits (fun m =>
    (outcome_section now provider (por_Success report) m).1));;
  match next with
  | None => persistCircuit provider
  | Some newState =>
      transitionCircuit now' provider newState;;
      persistCircuit provider;;
      (if negb (por_Success report) && negb (String.eqb (por_TaskID report) "") then
         let tid := default uuid_Nil (uuid_Parse (por_TaskID report)) in
         recordEvent now' SHEventProviderFailover provider (Some tid) None
           [("error", por_ErrorMsg report)] SeverityWarn
       else mret tt)
  end.

Definition IsProviderAvailable (provider : string) : M bool :=
  get (fun w => match circuits w !! provider with
                | None => true
                | Some c => negb (String.eqb (c_state c) CircuitOpen)
                end).

Definition GetProviderState (provider : string) : M (option providerCircuit) :=
  get (fun w => circuits w !! provider).

(** Go's order of map iteration is that of [row_order]. *)
Definition expired_providers (now : Z) (m : gmap string providerCircuit) : list string :=
  row_order (base.filter (fun kv => expired now kv.2 = true) (map_to_list m)).*1.

Definition probeHalfOpenCircuits (now now' : Z) : M unit :=
  halfOpen ← get (fun w => expired_providers now (circuits w));
  for_rows halfOpen (fun provider => transitionCircuit now' provider CircuitHalfOpen).

Definition ResetCircuit (now : Z) (provider : string) : M (result unit string) :=
  modify (set_circuits (reset_section provider));;
  r ← exec (fun _ => 0) (set_db_circuits (alter close_circuit provider));
  match r with
  | Err e => mret (Err ("reset circuit: " ++ e))
  | Ok _ =>
      recordEvent now SHEventCircuitClosed provider None None [("action", "manual_reset")]
        SeverityInfo;;
      mret (Ok tt)
  end.

(** The rows replace what is in memory; the columns are never NULL. *)
Definition hydrateCircuits : M unit :=
  rows ← query db_circuits;
  match rows with
  | Err _ => mret tt
  | Ok rows => modify (set_circuits (fun m => rows ∪ m))
  end.

(** ** Stuck tasks *)

Definition stuck_tasks (threshold : Z) (w : World) : list (UUID * Task) :=
  firstn 20 (order_by (fun kv => t_CreatedAt kv.2)
    (select (fun _ t => negb (is_terminal (t_Status t)) && (t_CreatedAt t <? threshold))
            (tasks w))).

Definition recovered (t : Task) : Task :=
  set_TimeoutAt None (set_AssignedTeamID None
    (set_FailureReason (Some "self-heal: automatic retry after stuck detection")
      (set_RetryCount (t_RetryCount t + 1) (set_Status StatusSubmitted t)))).

Definition exhausted (now : Z) (t : Task) : Task :=
  set_CompletedAt (Some now)
    (set_FailureReason (Some "self-heal: stuck task exhausted retries")
      (set_Status StatusTimedOut t)).

Definition recoverStuckTask (now : Z) (taskID : UUID) (retryCount : Z) : M unit :=
  r ← exec (fun w => affected taskID (tasks w)) (set_tasks (alter recovered taskID));
  match r with
  | Err _ => mret tt
  | Ok _ =>
      recordEvent now SHEventTaskTimeoutRecover "" (Some taskID) None
        [("retry_count", itoa (retryCount + 1)); ("max_retries", itoa MaxRetries);
         ("action", "resubmitted")] SeverityInfo;;
      (if has_hub then emit (BroadcastTask "self_heal_retry" taskID) else mret tt)
  end.

(** One row: a NULL [failure_reason] does not scan into a Go string. *)
Fixpoint stuck_rows (now : Z) (rows : list (UUID * Task)) : M unit :=
  match rows with
  | [] => mret tt
  | (taskID, t) :: rest =>
      match t_FailureReason t with
      | None => if scan_closes then mret tt else stuck_rows now rest
      | Some failureReason =>
          recordEvent now SHEventStuckTask "" (Some taskID) None
            [("status", t_Status t); ("retry_count", itoa (t_RetryCount t));
             ("failure_reason", failureReason)] SeverityWarn;;
          (if t_RetryCount t <? MaxRetries
           then recoverStuckTask now taskID (t_RetryCount t)
           else exec_ (set_tasks (alter (exhausted now) taskID)));;
          stuck_rows now rest
      end
  end.

Definition detectStuckTasks (now : Z) : M unit :=
  let threshold := now - stuckTaskThreshold in
  rows ← query (stuck_tasks threshold);
  match rows with
  | Err _ => mret tt
  | Ok l => stuck_rows now l
  end.

Definition gcOldEvents (now : Z) : M unit :=
  let cutoff := now - eventRetention in
  exec_ (set_db_events (delete_where (fun _ e => ev_Resolved e && (ev_CreatedAt e <? cutoff)))).

Definition cycle (now : Z) : M unit :=
  detectStuckTasks now;; probeHalfOpenCircuits now now;; gcOldEvents now.

(** ** Reading the log *)

(** [ORDER BY provider] in the collation of the database. *)
Definition listCircuitStates : M (result (list (string * providerCircuit)) string) :=
  query (fun w => row_order (map_to_list (db_circuits w))).

Definition listRecentEvents (limit : Z)
    : M (result (list (UUID * SelfHealEvent)) string) :=
  query (fun w => firstn (Z.to_nat limit)
    (order_by (fun kv => - ev_CreatedAt kv.2) (select (fun _ _ => true) (db_events w)))).

Record SelfHealSummary := {
  sum_TotalEvents : Z;
  sum_UnresolvedEvents : Z;
  sum_OpenCircuits : Z;
  sum_HalfOpenCircuits : Z;
  sum_ClosedCircuits : Z;
  sum_Providers : list (string * providerCircuit);
  sum_RecentEvents : list (UUID * SelfHealEvent)
}.

(** [_ = row.Scan(&n)]: zero when the statement fails. *)
Definition count_or_zero (p : UUID -> SelfHealEvent -> bool) : M Z :=
  r ← query (fun w => count_where p (db_events w));
  mret (match r with Ok n => n | Err _ => 0 end).

Fixpoint count_states (l : list (string * providerCircuit)) : Z * Z * Z :=
  match l with
  | [] => (0, 0, 0)
  | (_, c) :: l =>
      let '(o, h, cl) := count_states l in
      if String.eqb (c_state c) CircuitOpen then (o + 1, h, cl)
      else if String.eqb (c_state c) CircuitHalfOpen then (o, h + 1, cl)
      else (o, h, cl + 1)
  end.

Definition GetSummary (limit : Z) : M (result SelfHealSummary string) :=
  let limit := if limit <=? 0 then 25 else limit in
  providers ← listCircuitStates;
  match providers with
  | Err e => mret (Err ("self-heal summary: circuits: " ++ e))
  | Ok providers =>
      events ← listRecentEvents limit;
      match events with
      | Err e => mret (Err ("self-heal summary: events: " ++ e))
      | Ok events =>
          totalEv ← count_or_zero (fun _ _ => true);
          unresolvedEv ← count_or_zero (fun _ e => negb (ev_Resolved e));
          let '(openC, halfC, closedC) := count_states providers in
          mret (Ok {| sum_TotalEvents := totalEv; sum_UnresolvedEvents := unresolvedEv;
                      sum_OpenCircuits := openC; sum_HalfOpenCircuits := halfC;
                      sum_ClosedCircuits := closedC; sum_Providers := providers;
                      sum_RecentEvents := events |})
      end
  end.

Definition event_matches (eventType severity provider : string) (_ : UUID)
    (e : SelfHealEvent) : bool :=
  (String.eqb eventType "" || String.eqb (ev_EventType e) eventType)
  && (String.eqb severity "" || String.eqb (ev_Severity e) severity)
  && (String.eqb provider "" || String.eqb (ev_Provider e) provider).

(** The handler passes no negative offset. *)
Definition GetEvents (eventType severity provider : string) (limit offset : Z)
    : M (result (list (UUID * SelfHealEvent) * Z) string) :=
  let limit := if limit <=? 0 then 50 else limit in
  let p := event_matches eventType severity provider in
  total ← query (fun w => count_where p (db_events w));
  match total with
  | Err e => mret (Err ("self-heal events count: " ++ e))
  | Ok total =>
      rows ← query (fun w => firstn (Z.to_nat limit) (skipn (Z.to_nat offset)
        (order_by (fun kv => - ev_CreatedAt kv.2) (select p (db_events w)))));
      match rows with
      | Err e => mret (Err ("self-heal events: " ++ e))
      | Ok l => mret (Ok (l, total))
      end
  end.

Definition resolve (now : Z) (e : SelfHealEvent) : SelfHealEvent :=
  {| ev_EventType := ev_EventType e; ev_Provider := ev_Provider e; ev_TaskID := ev_TaskID e;
     ev_AgentID := ev_AgentID e; ev_Details := ev_Details e; ev_Severity := ev_Severity e;
     ev_Resolved := true; ev_ResolvedAt := Some now; ev_CreatedAt := ev_CreatedAt e |}.

Definition unresolved (id : UUID) (w : World) : bool :=
  match db_events w !! id with Some e => negb (ev_Resolved e) | None => false end.

Definition ResolveEvent (now : Z) (eventID : UUID) : M (result unit string) :=
  r ← exec (fun w => if unresolved eventID w then 1 else 0)
           (fun w => if unresolved eventID w
                     then set_db_events (alter (resolve now) eventID) w else w);
  match r with
  | Err e => mret (Err ("resolve event: " ++ e))
  | Ok n =>
      if n =? 0
      then mret (Err ("event " ++ uuid_String eventID ++ " not found or already resolved"))
      else mret (Ok tt)
  end.

(** ** Concurrent operations *)

(** The breakers in memory, the transitions asked for by running operations
    and not made yet, the copies taken and not written yet, the rows, and the rows that the
    start has read and not put into memory yet: [hydrateCircuits] queries before it locks. *)
Record sh_state := {
  sh_mem : gmap string providerCircuit;
  sh_pending : list (string * string);
  sh_copies : list (string * providerCircuit);
  sh_rows : gmap string providerCircuit;
  sh_loaded : option (gmap string providerCircuit)
}.

(** One critical section or statement of any operation. *)
Inductive sh_step : sh_state -> sh_state -> Prop :=
| step_outcome now p success m pd cp db ld :
    sh_step {| sh_mem := m; sh_pending := pd; sh_copies := cp; sh_rows := db; sh_loaded := ld |}
      {| sh_mem := (outcome_section now p success m).1;
         sh_pending := match (outcome_section now p success m).2 with
                       | Some s => (p, s) :: pd
                       | None => pd
                       end;
         sh_copies := cp; sh_rows := db; sh_loaded := ld |}
| step_transition now p s m pd1 pd2 cp db ld :
    sh_step {| sh_mem := m; sh_pending := pd1 ++ (p, s) :: pd2; sh_copies := cp;
               sh_rows := db; sh_loaded := ld |}
      {| sh_mem := transition_section now p s m; sh_pending := pd1 ++ pd2;
         sh_copies := cp; sh_rows := db; sh_loaded := ld |}
| step_probe now m pd cp db ld :
    sh_step {| sh_mem := m; sh_pending := pd; sh_copies := cp; sh_rows := db; sh_loaded := ld |}
      {| sh_mem := m;
         sh_pending := map (fun p => (p, CircuitHalfOpen)) (expired_providers now m) ++ pd;
         sh_copies := cp; sh_rows := db; sh_loaded := ld |}
| step_reset p m pd cp db ld :
    sh_step {| sh_mem := m; sh_pending := pd; sh_copies := cp; sh_rows := db; sh_loaded := ld |}
      {| sh_mem := reset_section p m; sh_pending := pd; sh_copies := cp; sh_rows := db; sh_loaded := ld |}
| step_reset_row p m pd cp db ld :
    sh_step {| sh_mem := m; sh_pending := pd; sh_copies := cp; sh_rows := db; sh_loaded := ld |}
      {| sh_mem := m; sh_pending := pd; sh_copies := cp;
         sh_rows := alter close_circuit p db; sh_loaded := ld |}
| step_copy p c m pd cp db ld :
    m !! p = Some c ->
    sh_step {| sh_mem := m; sh_pending := pd; sh_copies := cp; sh_rows := db; sh_loaded := ld |}
      {| sh_mem := m; sh_pending := pd; sh_copies := (p, c) :: cp; sh_rows := db; sh_loaded := ld |}
| step_write p c m pd cp1 cp2 db ld :
    sh_step {| sh_mem := m; sh_pending := pd; sh_copies := cp1 ++ (p, c) :: cp2;
               sh_rows := db; sh_loaded := ld |}
      {| sh_mem := m; sh_pending := pd; sh_copies := cp1 ++ cp2; sh_rows := <[p := c]> db; sh_loaded := ld |}
| step_write_failed p c m pd cp1 cp2 db ld :
    sh_step {| sh_mem := m; sh_pending := pd; sh_copies := cp1 ++ (p, c) :: cp2;
               sh_rows := db; sh_loaded := ld |}
      {| sh_mem := m; sh_pending := pd; sh_copies := cp1 ++ cp2; sh_rows := db; sh_loaded := ld |}
| step_load m pd cp db ld :
    sh_step {| sh_mem := m; sh_pending := pd; sh_copies := cp; sh_rows := db; sh_loaded := ld |}
      {| sh_mem := m; sh_pending := pd; sh_copies := cp; sh_rows := db; sh_loaded := Some db |}
| step_hydrate m pd cp db rows :
    sh_step {| sh_mem := m; sh_pending := pd; sh_copies := cp; sh_rows := db;
               sh_loaded := Some rows |}
      {| sh_mem := rows ∪ m; sh_pending := pd; sh_copies := cp; sh_rows := db;
         sh_loaded := None |}.

(** The well-formed breakers: a known state, an end for an open one, fewer
    consecutive failures than the threshold for a closed one. *)
Definition known_state (s : string) : Prop :=
  s ∈ [CircuitClosed; CircuitOpen; CircuitHalfOpen].

Definition circuit_ok (c : providerCircuit) : Prop :=
  known_state (c_state c) /\
  (c_state c = CircuitOpen -> is_Some (c_openUntil c)) /\
  (c_state c = CircuitClosed -> 0 <= c_consecutiveFailures c < circuitFailureThreshold).

Definition circuits_ok (m : gmap string providerCircuit) : Prop :=
  map_Forall (fun _ => circuit_ok) m.

Definition sh_ok (s : sh_state) : Prop :=
  circuits_ok (sh_mem s) /\ circuits_ok (sh_rows s) /\
  Forall (fun pc => circuit_ok pc.2) (sh_copies s) /\
  Forall (fun ps => known_state ps.2) (sh_pending s) /\
  (forall rows, sh_loaded s = Some rows -> circuits_ok rows).

Lemma closed_circuit_ok : circuit_ok closed_circuit.
Proof. split_and!; [by constructor|done|done]. Qed.

Lemma lookup_circuit_ok p m : circuits_ok m -> circuit_ok (lookup_circuit p m).
Proof.
  intros Hm. unfold lookup_circuit. destruct (m !! p) eqn:E; [by apply (Hm p)|].
  apply closed_circuit_ok.
Qed.

Lemma outcome_circuit_ok now success c :
  circuit_ok c ->
  circuit_ok (outcome_circuit now success c).1 /\
  forall s, (outcome_circuit now success c).2 = Some s -> known_state s.
Proof.
  intros (Hs & Ho & Hc). unfold outcome_circuit, circuit_ok, circuitFailureThreshold in *.
  destruct success; simpl.
  - case_if; simpl; split_and!; try done; try (intros; lia); intros s [= <-]; by constructor.
  - case_if; simpl; bool_to_prop.
    + split; [|intros s [= <-]; by do 2 constructor].
      split_and!; [by do 2 constructor|by eauto|done].
    + split; [|done]. split_and!; [done|done|]. intros E. specialize (Hc E).
      rewrite wrap64_id in * by (unfold in_int64; lia). split; [lia|].
      destruct (String.eqb_spec (c_state c) CircuitClosed); [|done].
      destruct (5 <=? c_consecutiveFailures c + 1) eqn:?; [done|lia].
Qed.

Lemma transition_one_ok now s c : known_state s -> circuit_ok (transition_one now s c).
Proof.
  unfold known_state. rewrite !elem_of_cons, elem_of_nil.
  intros [->|[->|[->|[]]]]; unfold transition_one; simpl;
    (split_and!; [simpl; unfold known_state; set_solver|simpl; eauto; done|simpl; done]).
Qed.

Lemma close_circuit_ok c : circuit_ok (close_circuit c).
Proof. split_and!; [by constructor|done|done]. Qed.

Lemma circuits_ok_alter p m : circuits_ok m -> circuits_ok (alter close_circuit p m).
Proof.
  intros Hm k c. rewrite lookup_alter. case_decide; [|by apply Hm].
  intros (x & _ & ->)%fmap_Some. apply close_circuit_ok.
Qed.

Lemma outcome_section_eq now p b m :
  outcome_section now p b m =
  (<[p := (outcome_circuit now b (lookup_circuit p m)).1]> m,
   (outcome_circuit now b (lookup_circuit p m)).2).
Proof. unfold outcome_section. by destruct (outcome_circuit _ _ _). Qed.

Lemma sh_step_ok s s' : sh_step s s' -> sh_ok s -> sh_ok s'.
Proof.
  destruct 1; intros (Hm & Hr & Hc & Hp & Hl); simpl in *; split_and!; simpl; try done.
  - rewrite outcome_section_eq. apply map_Forall_insert_2; [|done].
    by apply outcome_circuit_ok, lookup_circuit_ok.
  - rewrite outcome_section_eq. pose proof (outcome_circuit_ok now success (lookup_circuit p m)) as [_ Hs];
      [by apply lookup_circuit_ok|].
    destruct (outcome_circuit _ _ _) as [c [ns|]]; simpl in *; [|done].
    constructor; eauto.
  - apply Forall_app in Hp as [_ [Hs _]%Forall_cons].
    apply map_Forall_insert_2; [|done]. by apply transition_one_ok.
  - apply Forall_app in Hp as [? [_ ?]%Forall_cons]. by apply Forall_app.
  - apply Forall_app. split; [|done]. apply Forall_forall. intros [q x].
    intros (? & [= <- <-] & _)%list_elem_of_In%in_map_iff. simpl.
    do 2 constructor. by constructor.
  - by apply circuits_ok_alter.
  - by apply circuits_ok_alter.
  - constructor; [|done]. by apply (Hm p).
  - apply map_Forall_insert_2; [|done]. apply Forall_app in Hc as [_ [? _]%Forall_cons]. done.
  - apply Forall_app in Hc as [? [_ ?]%Forall_cons]. by apply Forall_app.
  - apply Forall_app in Hc as [? [_ ?]%Forall_cons]. by apply Forall_app.
  - by intros rows [= <-].
  - apply map_Forall_union_2; [by apply Hl|done].
Qed.

(** ** Histories of one provider *)

(** The breakers after a history of outcomes of [provider]. *)
Definition report_of (provider : string) (success : bool) : ProviderOutcomeReport :=
  {| por_Provider := provider; por_Success := success; por_ErrorMsg := "";
     por_TaskID := "" |}.

Definition run_history (now : Z) (provider : string) (hist : list bool) : M unit :=
  for_rows hist (fun b => RecordProviderOutcome now now (report_of provider b)).

(** What one call leaves of the breaker of its provider. *)
Definition outcome_then_transition (now now' : Z) (success : bool) (c : providerCircuit)
    : providerCircuit :=
  match outcome_circuit now success c with
  | (c, None) => c
  | (c, Some s) => transition_one now' s c
  end.

(** Memory fixed up to the event log and the rows. *)
Definition circuits_are (m : gmap string providerCircuit) (w : World) : Prop := circuits w = m.

#[local] Instance circuits_are_inv m : TableInv (circuits_are m).
Proof. by split. Qed.

Lemma recordEvent_circuits m now a b c d e f :
  preserves (circuits_are m) (recordEvent now a b c d e f).
Proof. unfold recordEvent. preserve; done. Qed.
Lemma persistCircuit_circuits m p : preserves (circuits_are m) (persistCircuit p).
Proof. unfold persistCircuit. preserve; done. Qed.
#[local] Hint Resolve recordEvent_circuits persistCircuit_circuits : preserves.

Lemma transitionCircuit_circuits m now p s :
  triple (circuits_are m) (transitionCircuit now p s)
    (fun _ => circuits_are (transition_section now p s m)).
Proof.
  unfold transitionCircuit. apply triple_bind with (R := fun _ => circuits_are m);
    [apply preserves_get|]. intros old.
  apply triple_bind with (R := fun _ => circuits_are (transition_section now p s m)).
  - by intros w <-.
  - intros _. destruct (transition_event s).
    change (preserves (circuits_are (transition_section now p s m))
      (recordEvent now s0 p None None [("old_state", old); ("new_state", s)] s1;;
       persistCircuit p;;
       (if has_hub then emit (BroadcastCircuit p old s) else mret tt))). preserve.
Qed.

Lemma outcome_circuits now now' r w :
  circuits (RecordProviderOutcome now now' r w).2 =
  <[por_Provider r := outcome_then_transition now now' (por_Success r)
      (lookup_circuit (por_Provider r) (circuits w))]> (circuits w).
Proof.
  set (p := por_Provider r). set (m := circuits w). set (b := por_Success r).
  unfold outcome_then_transition.
  pose proof (outcome_section_eq now p b m) as Hsec.
  destruct (outcome_circuit now b (lookup_circuit p m)) as [c next] eqn:Ec. simpl in Hsec.
  set (m1 := <[p := c]> m) in *.
  assert (triple (circuits_are m1)
    (match next with
     | None => persistCircuit p
     | Some newState =>
         transitionCircuit now' p newState;;
         persistCircuit p;;
         (if negb b && negb (String.eqb (por_TaskID r) "") then
            let tid := default uuid_Nil (uuid_Parse (por_TaskID r)) in
            recordEvent now' SHEventProviderFailover p (Some tid) None
              [("error", por_ErrorMsg r)] SeverityWarn
          else mret tt)
     end)
    (fun _ => circuits_are match next with
                           | None => m1
                           | Some s => transition_section now' p s m1
                           end)) as Hrest.
  { destruct next as [s|]; [|apply persistCircuit_circuits].
    eapply triple_bind; [apply transitionCircuit_circuits|]. intros ?.
    set (m2 := transition_section _ _ _ _).
    assert (preserves (circuits_are m2)
     (persistCircuit p;;
      (if negb b && negb (String.eqb (por_TaskID r) "") then
       recordEvent now' SHEventProviderFailover p
         (Some (default uuid_Nil (uuid_Parse (por_TaskID r)))) None
              [("error", por_ErrorMsg r)] SeverityWarn
       else mret tt))) as Hp by preserve. exact Hp. }
  specialize (Hrest (set_circuits (fun _ => m1) w) eq_refl).
  unfold RecordProviderOutcome. fold p b.
  assert (set_circuits (fun m => (outcome_section now p b m).1) w
          = set_circuits (fun _ => m1) w) as Hset.
  { unfold set_circuits. f_equal. fold m. by rewrite Hsec. }
  unfold get, modify, mbind, M_bind in *. fold m. rewrite Hsec. cbn [fst snd].
  rewrite Hset. etransitivity; [exact Hrest|]. destruct next as [s|]; [|done].
  unfold transition_section, m1, lookup_circuit. rewrite lookup_insert_eq. simpl.
  by rewrite insert_insert_eq.
Qed.

(** ** Whole operations are interleavings *)

Inductive sh_op :=
| OpOutcome (now now' : Z) (r : ProviderOutcomeReport)
| OpProbe (now now' : Z)
| OpReset (now : Z) (provider : string)
| OpHydrate.

Definition run_sh_op (o : sh_op) : M unit :=
  match o with
  | OpOutcome now now' r => RecordProviderOutcome now now' r
  | OpProbe now now' => probeHalfOpenCircuits now now'
  | OpReset now p => ResetCircuit now p;; mret tt
  | OpHydrate => hydrateCircuits
  end.

(** The breakers of a world, with the transitions [pd] still to be made. *)
Definition sh_view (pd : list (string * string)) (w : World) : sh_state :=
  {| sh_mem := circuits w; sh_pending := pd; sh_copies := []; sh_rows := db_circuits w;
     sh_loaded := None |}.

Definition reaches (s0 : sh_state) (pd : list (string * string)) (w : World) : Prop :=
  rtc sh_step s0 (sh_view pd w).

#[local] Instance reaches_inv s0 pd : TableInv (reaches s0 pd).
Proof. by split. Qed.

Lemma reaches_step s0 pd pd' w w' :
  sh_step (sh_view pd w) (sh_view pd' w') -> reaches s0 pd w -> reaches s0 pd' w'.
Proof. intros Hs Hr. eapply rtc_r; [exact Hr|exact Hs]. Qed.

Lemma recordEvent_reaches s0 pd now a b c d e f :
  preserves (reaches s0 pd) (recordEvent now a b c d e f).
Proof. unfold recordEvent. preserve; done. Qed.

Lemma persistCircuit_reaches s0 pd p : preserves (reaches s0 pd) (persistCircuit p).
Proof.
  intros w Hw. unfold persistCircuit. rewrite (run_eq (get _) _ w _ w eq_refl).
  destruct (circuits w !! p) as [c|] eqn:Ec; [|done].
  assert (rtc sh_step (sh_view pd w)
    {| sh_mem := circuits w; sh_pending := pd; sh_copies := [(p, c)];
       sh_rows := db_circuits w; sh_loaded := None |}) as Hcopy by (apply rtc_once; by constructor).
  destruct (exec__cases (set_db_circuits (<[p := c]>)) w) as [-> | ->];
    (eapply rtc_trans; [exact Hw|]); (eapply rtc_r; [exact Hcopy|]).
  - apply (step_write_failed p c _ _ [] []).
  - apply (step_write p c _ _ [] []).
Qed.
#[local] Hint Resolve recordEvent_reaches persistCircuit_reaches : preserves.

Lemma transitionCircuit_reaches s0 pd now p s :
  triple (reaches s0 ((p, s) :: pd)) (transitionCircuit now p s) (fun _ => reaches s0 pd).
Proof.
  unfold transitionCircuit. eapply (triple_bind _ (fun _ => reaches s0 ((p, s) :: pd)));
    [apply preserves_get|]. intros old.
  eapply (triple_bind _ (fun _ => reaches s0 pd)).
  - intros w Hw. eapply reaches_step; [|exact Hw]. apply (step_transition _ _ _ _ []).
  - intros u. destruct (transition_event s) as [ev sev].
    assert (preserves (reaches s0 pd)
      (recordEvent now ev p None None [("old_state", old); ("new_state", s)] sev;;
       persistCircuit p;;
       (if has_hub then emit (BroadcastCircuit p old s) else mret tt))) as Hp by preserve.
    exact Hp.
Qed.

Lemma RecordProviderOutcome_reaches s0 now now' r :
  preserves (reaches s0 []) (RecordProviderOutcome now now' r).
Proof.
  unfold RecordProviderOutcome.
  set (sec := outcome_section now (por_Provider r) (por_Success r)).
  eapply (triple_bind _ (fun next w => reaches s0 [] w /\ next = (sec (circuits w)).2));
    [by intros w Hw|]. intros next.
  eapply (triple_bind _ (fun _ => reaches s0 match next with
                                            | Some s => [(por_Provider r, s)]
                                            | None => []
                                            end)).
  - intros w [Hw Hn]. eapply reaches_step; [|exact Hw]. subst next. apply step_outcome.
  - intros u. destruct next as [s|]; [|apply persistCircuit_reaches].
    eapply triple_bind; [apply transitionCircuit_reaches|]. intros u'.
    assert (preserves (reaches s0 [])
     (persistCircuit (por_Provider r);;
      (if negb (por_Success r) && negb (String.eqb (por_TaskID r) "") then
       recordEvent now' SHEventProviderFailover (por_Provider r)
         (Some (default uuid_Nil (uuid_Parse (por_TaskID r)))) None
              [("error", por_ErrorMsg r)] SeverityWarn
       else mret tt))) as Hp by preserve. exact Hp.
Qed.

Lemma probe_reaches s0 now now' :
  preserves (reaches s0 []) (probeHalfOpenCircuits now now').
Proof.
  unfold probeHalfOpenCircuits.
  set (pend := map (fun p : string => (p, CircuitHalfOpen))).
  eapply (triple_bind _ (fun l => reaches s0 (pend l))).
  - intros w Hw. eapply reaches_step; [|exact Hw].
    unfold get, sh_view. simpl. rewrite <- (app_nil_r (pend _)). apply step_probe.
  - intros l. apply (triple_for_rows (fun l => reaches s0 (pend l))). intros p l'.
    apply transitionCircuit_reaches.
Qed.

(** Every operation on the breakers, run on its own, is an interleaving of
    the critical sections and statements of [sh_step]. *)
Theorem sh_op_interleaves o w :
  rtc sh_step (sh_view [] w) (sh_view [] (run_sh_op o w).2).
Proof.
  assert (preserves (reaches (sh_view [] w) []) (run_sh_op o)) as Hp; [|apply Hp, rtc_refl].
  destruct o as [now now' r|now now'|now p|]; simpl.
  - apply RecordProviderOutcome_reaches.
  - apply probe_reaches.
  - unfold ResetCircuit. preserve.
    + eapply (reaches_step _ _ _ w0); [apply step_reset|done].
    + eapply (reaches_step _ _ _ w0); [apply step_reset_row|done].
  - intros w' Hw. unfold hydrateCircuits.
    destruct (query_cases db_circuits w') as [E|E]; rewrite (run_eq _ _ _ _ _ E);
      [exact Hw|]. cbn. unfold reaches. eapply rtc_r; [|apply step_hydrate].
    eapply rtc_r; [exact Hw|apply step_load].
Qed.

(** C36: under any interleaving of outcome reports, transitions, probes, resets,
    copies, writes and the two halves of the hydration, which may install rows read long
    before, every breaker in memory and every row has a
    known state, an end if it is open, and fewer than five consecutive failures
    if it is closed. *)
Theorem sh_steps_ok s s' : rtc sh_step s s' -> sh_ok s -> sh_ok s'.
Proof. induction 1; eauto using sh_step_ok. Qed.

(** ** When a breaker opens and closes *)

Definition breaker_after (now : Z) (hist : list bool) (c : providerCircuit)
    : providerCircuit :=
  fold_left (fun c b => outcome_then_transition now now b c) hist c.

Lemma breaker_after_cons now b hist c :
  breaker_after now (b :: hist) c =
  breaker_after now hist (outcome_then_transition now now b c).
Proof. done. Qed.

Lemma run_history_circuits now p hist w :
  lookup_circuit p (circuits (run_history now p hist w).2) =
  breaker_after now hist (lookup_circuit p (circuits w)).
Proof.
  revert w. induction hist as [|b hist IH]; intros w; [done|].
  unfold run_history in *. cbn [for_rows breaker_after fold_left].
  destruct (RecordProviderOutcome now now (report_of p b) w) as [u w1] eqn:E.
  rewrite (run_eq _ _ _ _ _ E), IH.
  pose proof (outcome_circuits now now (report_of p b) w) as Hc. rewrite E in Hc.
  simpl in Hc. rewrite Hc. unfold breaker_after, lookup_circuit at 1.
  by rewrite lookup_insert_eq.
Qed.

Definition failures (k : nat) : list bool := replicate k false.

(** Five failures in a row somewhere in the history. *)
Definition trips (hist : list bool) : Prop :=
  exists pre post, hist = (pre ++ failures 5 ++ post)%list.

Lemma outcome_open_stays now hist c :
  c_state c = CircuitOpen -> c_state (breaker_after now hist c) = CircuitOpen.
Proof.
  unfold breaker_after. revert c. induction hist as [|b hist IH]; intros c Hc; [done|].
  simpl. apply IH. unfold outcome_then_transition, outcome_circuit.
  destruct b; simpl; rewrite Hc; simpl; [done|]. by rewrite andb_false_r.
Qed.

(** A success separates runs of failures. *)
Lemma trips_success k hist :
  (k < 5)%nat -> trips (failures k ++ true :: hist) <-> trips hist.
Proof.
  intros Hk. split.
  - intros (pre & post & E). revert k Hk E. induction pre as [|x pre IH]; intros k Hk E.
    + exfalso. apply (f_equal (fun l => l !! k)) in E. unfold failures in E.
      rewrite lookup_app_r in E by (rewrite length_replicate; lia).
      rewrite length_replicate, Nat.sub_diag in E. simpl in E.
      do 5 (destruct k as [|k]; [done|]). lia.
    + destruct k as [|k]; simpl in E; injection E as Ex E.
      * by exists pre, post.
      * apply (IH k); [lia|done].
  - intros (pre & post & ->). exists (failures k ++ true :: pre)%list, post.
    by rewrite <- app_assoc.
Qed.

Lemma trips_short k : (k < 5)%nat -> ~ trips (failures k).
Proof.
  intros Hk (pre & post & E). apply (f_equal List.length) in E. unfold failures in E.
  rewrite !length_app, !length_replicate in E. lia.
Qed.

Lemma breaker_after_trips now hist k c :
  (k < 5)%nat -> c_state c = CircuitClosed -> c_consecutiveFailures c = Z.of_nat k ->
  (c_state (breaker_after now hist c) = CircuitOpen <-> trips (failures k ++ hist)) /\
  (c_state (breaker_after now hist c) = CircuitOpen \/
   c_state (breaker_after now hist c) = CircuitClosed).
Proof.
  revert k c. induction hist as [|b hist IH]; intros k c Hk Hc Hf.
  - rewrite app_nil_r. simpl. rewrite Hc. split; [|by right].
    split; [done|]. by intros ?%trips_short.
  - rewrite breaker_after_cons.
    unfold outcome_then_transition, outcome_circuit. destruct b; cbn -[Z.add wrap64 Z.leb].
    + rewrite Hc. cbn. rewrite (trips_success k) by done.
      apply (IH 0%nat); [lia|done|done].
    + rewrite Hc, Hf. unfold circuitFailureThreshold.
      rewrite wrap64_id by (unfold in_int64; lia).
      destruct (5 <=? Z.of_nat k + 1) eqn:E; bool_to_prop; cbn -[Z.add wrap64].
      * rewrite outcome_open_stays by done. split; [|by left]. split; [|done]. intros _.
        exists [], hist. replace k with 4%nat by lia. done.
      * replace (failures k ++ false :: hist)%list with (failures (S k) ++ hist)%list.
        { apply IH; [lia|done|]. simpl. rewrite Hf, wrap64_id by (unfold in_int64; lia). lia. }
        unfold failures. by rewrite replicate_S_end, <- app_assoc.
Qed.

(** C37: Starting from a provider with no breaker, and with no probe or reset in
    between, traffic to the provider is refused after a history of outcomes
    exactly when the history holds five failures in a row, whatever statements
    fail. *)
Theorem available_iff_no_five_failures now p hist w :
  circuits w !! p = None ->
  (IsProviderAvailable p (run_history now p hist w).2).1 = false <-> trips hist.
Proof.
  intros Hp. pose proof (run_history_circuits now p hist w) as Hc.
  unfold lookup_circuit in Hc at 2. rewrite Hp in Hc. simpl in Hc.
  destruct (breaker_after_trips now hist 0 closed_circuit) as [Ht _];
    [lia|reflexivity|reflexivity|].
  simpl in Ht. rewrite <- Ht, <- Hc. unfold IsProviderAvailable, get, lookup_circuit. simpl.
  destruct (circuits (run_history now p hist w).2 !! p) as [c|]; simpl;
    [|split; intros [=]].
  rewrite negb_false_iff. apply String.eqb_eq.
Qed.

Definition successes (hist : list bool) : nat := List.length (List.filter id hist).

Lemma half_open_after now hist c :
  c_state c = CircuitHalfOpen -> 0 <= c_halfOpenProbes c ->
  c_halfOpenProbes c + Z.of_nat (successes hist) < halfOpenMaxProbes ->
  c_state (breaker_after now hist c) = CircuitHalfOpen /\
  c_halfOpenProbes (breaker_after now hist c)
    = c_halfOpenProbes c + Z.of_nat (successes hist).
Proof.
  unfold halfOpenMaxProbes.
  revert c. induction hist as [|b hist IH]; intros c Hc H0' Hs.
  - simpl in *. split; [done|]. unfold successes. simpl. lia.
  - rewrite breaker_after_cons.
    unfold outcome_then_transition, outcome_circuit, halfOpenMaxProbes.
    destruct b; unfold successes in *; cbn -[Z.add wrap64 Z.leb Z.of_nat] in *; rewrite Hc.
    + cbn -[Z.add wrap64 Z.leb Z.of_nat]. rewrite wrap64_id by (unfold in_int64; lia).
      destruct (3 <=? c_halfOpenProbes c + 1) eqn:E; bool_to_prop; [lia|].
      edestruct IH as [IH1 IH2]; [| | |split; [exact IH1|rewrite IH2]]; try done;
        cbn -[Z.add wrap64 Z.of_nat]; rewrite ?Hc; cbn -[Z.add wrap64 Z.of_nat];
        rewrite ?wrap64_id by (unfold in_int64; lia); lia.
    + cbn -[Z.add wrap64 Z.leb Z.of_nat]. rewrite andb_false_r.
      by apply (IH (record_failure now c)).
Qed.

(** A half-open breaker closes exactly at the third success after the probe,
    with its failures forgotten, and no number of failures in between opens it
    again. *)
Theorem half_open_recovery now hist c :
  c_state c = CircuitHalfOpen -> c_halfOpenProbes c = 0 ->
  ((successes hist < 3)%nat -> c_state (breaker_after now hist c) = CircuitHalfOpen) /\
  (successes hist = 2%nat ->
     let c' := breaker_after now (hist ++ [true]) c in
     c_state c' = CircuitClosed /\ c_consecutiveFailures c' = 0 /\ c_openUntil c' = None).
Proof.
  intros Hc Hp. pose proof (half_open_after now hist c Hc ltac:(lia)) as Hh.
  unfold halfOpenMaxProbes in Hh. split.
  - intros Hs. apply Hh. lia.
  - intros Hs. destruct Hh as [Hs' Hp']; [lia|].
    assert (breaker_after now (hist ++ [true]) c =
      outcome_then_transition now now true (breaker_after now hist c)) as ->
      by (unfold breaker_after; by rewrite fold_left_app).
    destruct (breaker_after now hist c) as [st cf tf ts lf ls ou hp]. simpl in Hs', Hp'.
    by rewrite Hs', Hp', Hp, Hs.
Qed.

(** ** Stuck tasks *)

(** Nothing but the task updates touches the task table. *)
Lemma recordEvent_tasks T now a b c d e f :
  preserves (tasks_are T) (recordEvent now a b c d e f).
Proof. unfold recordEvent, tasks_are. preserve; done. Qed.

Definition row_is (id : UUID) (t : Task) (w : World) : Prop := tasks w !! id = Some t.

#[local] Instance row_is_inv id t : TableInv (row_is id t).
Proof. by split. Qed.

Lemma recordEvent_row id t now a b c d e f :
  preserves (row_is id t) (recordEvent now a b c d e f).
Proof. unfold recordEvent. preserve; done. Qed.
#[local] Hint Resolve recordEvent_row : preserves.

Lemma row_is_alter id t g k w :
  k <> id -> row_is id t w -> row_is id t (set_tasks (alter g k) w).
Proof. intros Hk Hw. unfold row_is. simpl. by rewrite lookup_alter_ne. Qed.

Lemma stuck_rows_row id t now rows :
  (forall k r, (k, r) ∈ rows -> k = id -> t_FailureReason r = None) ->
  preserves (row_is id t) (stuck_rows now rows).
Proof.
  induction rows as [|[k r] rows IH]; intros Hin; simpl; [apply preserves_ret|].
  assert (preserves (row_is id t) (stuck_rows now rows)) as Hrest
    by (apply IH; intros; eapply Hin; [by constructor|done]).
  destruct (t_FailureReason r) as [reason|] eqn:Er.
  - assert (k <> id) as Hk by (intros ->; specialize (Hin id r); rewrite Hin in Er;
      [done|constructor|done]).
    apply preserves_bind; [auto with preserves|]. intros ?.
    apply preserves_bind; [|by intros ?]. unfold recoverStuckTask.
    preserve; by apply row_is_alter.
  - by destruct scan_closes; [apply preserves_ret|].
Qed.

Definition is_stuck (threshold : Z) (t : Task) : bool :=
  negb (is_terminal (t_Status t)) && (t_CreatedAt t <? threshold).

Lemma stuck_tasks_elem_of th w id t :
  (id, t) ∈ stuck_tasks th w -> tasks w !! id = Some t /\ is_stuck th t = true.
Proof.
  apply (top_rows_elem_of (fun _ => is_stuck th)).
Qed.

Lemma stuck_tasks_NoDup th w : NoDup (stuck_tasks th w).*1.
Proof.
  apply top_rows_NoDup.
Qed.

Lemma transitionCircuit_row id t now p s :
  preserves (row_is id t) (transitionCircuit now p s).
Proof.
  unfold transitionCircuit, persistCircuit. apply preserves_bind; [preserve|].
  intros ?. apply preserves_bind; [preserve; done|]. intros ?.
  destruct (transition_event s). preserve; done.
Qed.

Lemma cycle_row id t now :
  t_FailureReason t = None -> preserves (row_is id t) (cycle now).
Proof.
  intros Ht. unfold cycle, detectStuckTasks, probeHalfOpenCircuits, gcOldEvents.
  apply preserves_bind; [|intros ?; preserve; try done; apply transitionCircuit_row].
  intros w Hw. destruct (query_cases (stuck_tasks (now - stuckTaskThreshold)) w) as [E|E];
    rewrite (run_eq _ _ _ _ _ E); [exact Hw|].
  apply (stuck_rows_row id t); [|exact Hw].
  intros k r [Hr _]%stuck_tasks_elem_of ->. unfold row_is in Hw. simpl in Hr. congruence.
Qed.

(** A task whose [failure_reason] is NULL, as [CreateTask] leaves it, is never
    touched by stuck-task detection, however old it is and however many cycles
    run: the NULL does not scan into the string the code reads it into. *)
Theorem null_reason_never_recovered nows id t w :
  tasks w !! id = Some t -> t_FailureReason t = None ->
  tasks (for_rows nows cycle w).2 !! id = Some t.
Proof.
  intros Ht Hr.
  assert (preserves (row_is id t) (for_rows nows cycle)) as Hp; [|by apply Hp].
  apply preserves_for_rows. intros now. by apply cycle_row.
Qed.

Definition heal (now : Z) (t : Task) : Task :=
  if t_RetryCount t <? MaxRetries then recovered t else exhausted now t.

Lemma recordEvent_ok now a b c d e f w :
  no_faults w ->
  exists w', recordEvent now a b c d e f w = (tt, w') /\ no_faults w' /\ tasks w' = tasks w.
Proof.
  intros Hw. unfold recordEvent. rewrite exec__ok by done. eexists. by split.
Qed.

Lemma heal_row_ok now id t w :
  no_faults w -> tasks w !! id = Some t ->
  exists w', no_faults w' /\ tasks w' = <[id := heal now t]> (tasks w) /\
    (if t_RetryCount t <? MaxRetries
     then recoverStuckTask now id (t_RetryCount t)
     else exec_ (set_tasks (alter (exhausted now) id))) w = (tt, w').
Proof.
  intros Hw Ht.
  assert (forall g, alter g id (tasks w) = <[id := g t]> (tasks w)) as Halt.
  { intros g. apply map_eq. intros k. rewrite lookup_alter, lookup_insert.
    case_decide; [|done]. subst k. by rewrite Ht. }
  unfold heal. destruct (t_RetryCount t <? MaxRetries).
  - unfold recoverStuckTask. run.
    edestruct (recordEvent_ok now SHEventTaskTimeoutRecover "" (Some id) None
        [("retry_count", itoa (t_RetryCount t + 1)); ("max_retries", itoa MaxRetries);
         ("action", "resubmitted")] SeverityInfo
        (set_tasks (alter recovered id) w)) as (w' & E & Hf & Htk); [done|].
    rewrite (run_eq _ _ _ _ _ E). destruct has_hub; eexists; (split_and!; [| |reflexivity]);
      try exact Hf; simpl; rewrite Htk; apply Halt.
  - rewrite exec__ok by done. eexists. split_and!; [| |reflexivity]; [done|]. apply Halt.
Qed.

Lemma stuck_rows_ok now rows w :
  no_faults w -> NoDup rows.*1 ->
  (forall id t, (id, t) ∈ rows -> tasks w !! id = Some t /\ t_FailureReason t <> None) ->
  (forall id t, (id, t) ∈ rows -> tasks (stuck_rows now rows w).2 !! id = Some (heal now t)) /\
  (forall id, id ∉ rows.*1 -> tasks (stuck_rows now rows w).2 !! id = tasks w !! id).
Proof.
  revert w. induction rows as [|[k r] rows IH]; intros w Hw Hnd Hin;
    [split; [by intros ? ? ?%elem_of_nil|done]|].
  apply NoDup_cons in Hnd as [Hk Hnd]. destruct (Hin k r) as [Hr Hreason]; [by constructor|].
  simpl. destruct (t_FailureReason r) as [reason|]; [|done].
  edestruct (recordEvent_ok now SHEventStuckTask "" (Some k) None
     [("status", t_Status r); ("retry_count", itoa (t_RetryCount r));
             ("failure_reason", reason)] SeverityWarn w) as (w1 & E1 & Hf1 & Ht1); [done|].
  rewrite (run_eq _ _ _ _ _ E1).
  destruct (heal_row_ok now k r w1) as (w2 & Hf2 & Ht2 & E2); [done|by rewrite Ht1|].
  rewrite (run_eq _ _ _ _ _ E2). rewrite Ht1 in Ht2.
  destruct (IH w2) as [IH1 IH2]; [done|done| |].
  { intros id t Hid. rewrite Ht2, lookup_insert_ne; [apply Hin; by constructor|].
    intros ->. apply Hk. apply list_elem_of_fmap. by exists (id, t). }
  split.
  - intros id t [[= -> ->]|Hid]%elem_of_cons; [|by apply IH1].
    rewrite IH2 by done. by rewrite Ht2, lookup_insert_eq.
  - intros id [Hid Hid']%not_elem_of_cons. rewrite IH2 by done.
    by rewrite Ht2, lookup_insert_ne.
Qed.

(** When its statements succeed and every stuck row has a failure reason,
    a pass of [detectStuckTasks] resubmits the oldest twenty stuck tasks that
    have retries left, with one more retry counted, times out those that have
    none, and changes no other task. *)
Theorem detectStuckTasks_spec now w :
  no_faults w ->
  (forall id t, tasks w !! id = Some t -> is_stuck (now - stuckTaskThreshold) t = true ->
     t_FailureReason t <> None) ->
  let rows := stuck_tasks (now - stuckTaskThreshold) w in
  (forall id t, (id, t) ∈ rows ->
     tasks (detectStuckTasks now w).2 !! id = Some (heal now t)) /\
  (forall id, id ∉ rows.*1 -> tasks (detectStuckTasks now w).2 !! id = tasks w !! id).
Proof.
  intros Hw Hr rows. unfold detectStuckTasks. run. fold rows.
  apply stuck_rows_ok; [done| |].
  - apply stuck_tasks_NoDup.
  - intros id t Hin%stuck_tasks_elem_of. naive_solver.
Qed.

End self_heal.

(** ** Witnesses *)

#[export] Instance fresh_uuid : GenUUID :=
  {| gen_uuid := fun X => fresh X; gen_uuid_fresh := fun X => is_fresh X |}.
#[export] Instance closing_driver : Driver := {| scan_closes := true |}.

Lemma sh_steps_ok_witness :
  sh_ok (sh_view [] empty_world) /\
  sh_ok (sh_view [] (run_sh_op (OpOutcome 0 0 (report_of "openai" false)) empty_world).2).
Proof.
  assert (sh_ok (sh_view [] empty_world)) as Hok.
  { split_and!; [apply map_Forall_empty|apply map_Forall_empty|by apply Forall_nil_2..|done]. }
  split; [exact Hok|]. apply (sh_steps_ok (sh_view [] empty_world)); [|exact Hok].
  exact (RecordProviderOutcome_reaches (sh_view [] empty_world) 0 0
    (report_of "openai" false) empty_world (rtc_refl _ _)).
Defined.

Lemma available_iff_no_five_failures_witness :
  trips (failures 5) /\
  (IsProviderAvailable "openai" (run_history 0 "openai" (failures 5) empty_world).2).1 = false.
Proof.
  assert (trips (failures 5)) as Ht by (by exists [], []).
  split; [exact Ht|].
  exact (proj2 (available_iff_no_five_failures 0 "openai" (failures 5) empty_world eq_refl) Ht).
Defined.

Definition half_open_circuit : providerCircuit :=
  transition_one 0 CircuitHalfOpen closed_circuit.

Lemma half_open_recovery_witness :
  c_state (breaker_after 0 [true; false; false; false; false; false; true; true]
    half_open_circuit) = CircuitClosed.
Proof.
  apply (half_open_recovery 0 [true; false; false; false; false; false; true]
    half_open_circuit eq_refl eq_refl). reflexivity.
Defined.

Lemma null_reason_never_recovered_witness :
  tasks (for_rows [stuckTaskThreshold * 2; stuckTaskThreshold * 3] cycle sample_world).2 !! 1%N
    = Some sample_task.
Proof.
  apply (null_reason_never_recovered _ 1%N sample_task sample_world); reflexivity.
Defined.

(** The sample task on its second attempt. *)
Definition second_attempt : World :=
  set_tasks (fun _ => {[1%N := set_FailureReason (Some "") sample_task]}) sample_world.

Lemma detectStuckTasks_spec_witness :
  tasks (detectStuckTasks (stuckTaskThreshold * 2) second_attempt).2 !! 1%N
    = Some (heal (stuckTaskThreshold * 2) (set_FailureReason (Some "") sample_task)).
Proof.
  apply (detectStuckTasks_spec (stuckTaskThreshold * 2) second_attempt).
  - reflexivity.
  - intros id t Ht _. unfold second_attempt in Ht. simpl in Ht.
    apply lookup_singleton_Some in Ht as [_ <-]. discriminate.
  - assert (stuck_tasks (stuckTaskThreshold * 2 - stuckTaskThreshold) second_attempt =
      [(1%N, set_FailureReason (Some "") sample_task)]) as -> by (vm_compute; reflexivity).
    constructor.
Defined.

(** The event of an opening breaker says that it was open before: the outcome
    section sets the state before [transitionCircuit] reads it. *)
Example opened_event_old_state :
  map (fun e => (ev_EventType e.2, ev_Details e.2))
    (map_to_list (db_events (run_history 0 "openai" (failures 5) empty_world).2))
  = [("circuit_opened", [("old_state", "open"); ("new_state", "open")])].
Proof. vm_compute. reflexivity. Qed.

(** A resubmitted task keeps its creation time, so each pass finds it stuck
    again: two passes use up the retries and the third times it out. *)
Example retries_burn_out :
  let t0 := stuckTaskThreshold * 2 in
  t_Status <$> tasks (for_rows [t0; t0 + 30 * second; t0 + 60 * second] cycle
                        second_attempt).2 !! 1%N = Some StatusTimedOut.
Proof. vm_compute. reflexivity. Qed.
