(* ===== verification/Swarm.v ===== *)
(** * The swarm controller as a whole

    Every operation of the team manager, the task manager and the self-healing
    service that changes state, as one type [swarm_op], and the invariants that
    any sequence of them keeps, whatever statements fail. *)

From Stdlib Require Import ZArith Lia Ascii String.
From stdpp Require Import base list gmap strings sorting.
From S2P Require Import Prelude GoStrings SwarmDb TeamManager TaskManager SelfHeal.
Local Open Scope string_scope.
Local Open Scope Z_scope.

Section swarm.
Context `{RowOrder} `{UuidText} `{Config} `{UnicodeTables} `{GenUUID} `{Driver}.

Inductive swarm_op :=
| SwTeam (o : team_op)
| SwCreateTask (id : UUID) (now : Z) (lookup : string -> string -> option UUID)
    (repoID title description : string) (submittedBy : UUID)
| SwUpdateStatus (taskID : UUID) (newStatus : string)
| SwDeleteTask (taskID : UUID)
| SwSetPlan (taskID : UUID) (plan : option string)
| SwCompleteTask (now : Z) (taskID : UUID)
| SwFailTask (now : Z) (taskID : UUID) (reason : string)
| SwAddDiff (id : UUID) (now : Z) (taskID : UUID) (diff : TaskDiff)
| SwHeartbeat (now : Z) (agentID : UUID)
| SwRateTask (taskID : UUID) (rating : Z) (comment : string)
| SwMessages (now : Z) (setnx : UUID -> result bool string) (messages : list XMessage)
| SwAssign (now : Z) (taskID teamID : UUID)
| SwCleanup
| SwTimeouts (now : Z)
| SwRetry (taskID : UUID)
| SwHeartbeats (now : Z) (hb : UUID -> redis_get)
| SwReconcile (now : Z) (hb : UUID -> redis_get)
| SwReap (now : Z)
| SwBreakers (o : sh_op)
| SwHealCycle (now : Z)
| SwResolveEvent (now : Z) (eventID : UUID).

Definition run_swarm_op (o : swarm_op) : M unit :=
  match o with
  | SwTeam o => run_team_op o
  | SwCreateTask id now lookup r t d by_ => CreateTask id now lookup r t d by_;; mret tt
  | SwUpdateStatus id s => UpdateStatus id s;; mret tt
  | SwDeleteTask id => DeleteTask id;; mret tt
  | SwSetPlan id p => SetPlan id p;; mret tt
  | SwCompleteTask now id => CompleteTask now id;; mret tt
  | SwFailTask now id r => FailTask now id r;; mret tt
  | SwAddDiff id now t d => AddDiff id now t d;; mret tt
  | SwHeartbeat now a => Heartbeat now a;; mret tt
  | SwRateTask id r c => RateTask id r c;; mret tt
  | SwMessages now setnx l => handleStreamMessages now setnx l
  | SwAssign now id t => assignTask now id t;; mret tt
  | SwCleanup => cleanupInconsistentAgents
  | SwTimeouts now => checkTimeouts now
  | SwRetry id => RetryTask id;; mret tt
  | SwHeartbeats now hb => checkHeartbeats now hb
  | SwReconcile now hb => reconcileOnStartup now hb
  | SwReap now => reapStaleRows now
  | SwBreakers o => run_sh_op o
  | SwHealCycle now => cycle now
  | SwResolveEvent now id => ResolveEvent now id;; mret tt
  end.

(** ** Retries *)

Definition retries_bounded (w : World) : Prop :=
  forall id t, tasks w !! id = Some t -> 0 <= t_RetryCount t <= MaxRetries.

#[local] Instance retries_bounded_inv : TableInv retries_bounded.
Proof. by split. Qed.

Lemma retries_alter g id w :
  (forall t, t_RetryCount (g t) = t_RetryCount t) ->
  retries_bounded w -> retries_bounded (set_tasks (alter g id) w).
Proof.
  intros Hg Hw k t. simpl. rewrite lookup_alter. case_decide; [|by apply Hw].
  intros (x & Hx & ->)%fmap_Some. rewrite Hg. by eapply Hw.
Qed.

(** What leaves the task table alone. *)
Lemma retries_same w w' : tasks w' = tasks w -> retries_bounded w -> retries_bounded w'.
Proof. intros E Hw id t. rewrite E. apply Hw. Qed.

Ltac retries :=
  preserve; try (apply retries_alter; [by intros []|done]);
  try (by eapply retries_same; [|eassumption]).

Lemma ReleaseTeam_retries t : preserves retries_bounded (ReleaseTeam t).
Proof. unfold ReleaseTeam. retries. Qed.
Lemma revokeTeamTokens_retries t : preserves retries_bounded (revokeTeamTokens t).
Proof. unfold revokeTeamTokens, revoke_agent. retries. Qed.
#[local] Hint Resolve ReleaseTeam_retries revokeTeamTokens_retries : preserves.
Lemma release_team_of_retries r : preserves retries_bounded (release_team_of r).
Proof. unfold release_team_of. retries. Qed.
Lemma GetTask_retries id : preserves retries_bounded (GetTask id).
Proof. unfold GetTask. retries. Qed.
#[local] Hint Resolve release_team_of_retries GetTask_retries : preserves.
Lemma FailTask_retries now id r : preserves retries_bounded (FailTask now id r).
Proof. unfold FailTask, broadcast_task. retries. Qed.
#[local] Hint Resolve FailTask_retries : preserves.
Lemma markAgentOffline_retries now a t s :
  preserves retries_bounded (markAgentOffline now a t s).
Proof. unfold markAgentOffline, checkTeamHealth, MarkTeamOffline. retries. Qed.
Lemma assignTask_retries now id t : preserves retries_bounded (assignTask now id t).
Proof. unfold assignTask, MarkTeamBusy. retries. Qed.
Lemma request_team_retries f m id : preserves retries_bounded (request_team f m id).
Proof. apply request_team_keeps, _. Qed.
Lemma ack_retries m : preserves retries_bounded (ack m).
Proof. unfold ack. retries. Qed.
Lemma recordEvent_retries now a b c d e f :
  preserves retries_bounded (recordEvent now a b c d e f).
Proof. unfold recordEvent. retries. Qed.
#[local] Hint Resolve markAgentOffline_retries assignTask_retries request_team_retries
  ack_retries recordEvent_retries : preserves.
Lemma handle_message_retries now f m : preserves retries_bounded (handle_message now f m).
Proof.
  unfold handle_message, carve_or_request, GetIdleTeam, FindIdleTeamWithCapacity. retries.
Qed.
Lemma transitionCircuit_retries now p s :
  preserves retries_bounded (transitionCircuit now p s).
Proof. unfold transitionCircuit, persistCircuit. retries. Qed.
#[local] Hint Resolve handle_message_retries transitionCircuit_retries : preserves.
Lemma run_sh_op_retries o : preserves retries_bounded (run_sh_op o).
Proof.
  destruct o; simpl; unfold RecordProviderOutcome, probeHalfOpenCircuits, ResetCircuit,
    hydrateCircuits, persistCircuit; retries.
Qed.
Lemma run_team_op_retries o : preserves retries_bounded (run_team_op o).
Proof.
  destruct o; simpl; unfold CreateTeam, activeTeamCount, MarkTeamBusy, ReleaseTeam,
    MarkTeamOffline, DisbandTeam, ScaleTeam, RegisterAgent; retries.
Qed.
#[local] Hint Resolve run_sh_op_retries run_team_op_retries : preserves.

Lemma RetryTask_retries id : preserves retries_bounded (RetryTask id).
Proof.
  unfold RetryTask.
  eapply triple_bind with (R := fun r w => retries_bounded w /\
    forall t, r = Ok t -> 0 <= t_RetryCount t <= MaxRetries).
  - intros w Hw. unfold GetTask.
    destruct (query_cases (fun w => tasks w !! id) w) as [E|E];
      rewrite (run_eq _ _ _ _ _ E); [done|]. simpl.
    destruct (tasks w !! id) as [t|] eqn:Et; (split; [done|]); [|done].
    intros t' [= <-]. by apply (Hw id).
  - intros r. apply triple_pure. intros Hr.
    assert (forall t g, r = Ok t -> t_RetryCount t < MaxRetries ->
      (forall x, t_RetryCount (g x) = t_RetryCount t + 1) ->
      forall w, retries_bounded w -> retries_bounded (set_tasks (alter g id) w)) as Hup.
    { intros t g Ht Hlt Hg w Hw k x. simpl. rewrite lookup_alter.
      case_decide; [|by apply Hw]. intros (y & _ & ->)%fmap_Some. rewrite Hg.
      specialize (Hr t Ht). lia. }
    assert (preserves retries_bounded match r with
      | Ok task =>
        if negb (String.eqb (t_Status task) StatusFailed)
           && negb (String.eqb (t_Status task) StatusTimedOut)
        then mret (Err (not_retryable id (t_Status task)) : result unit string)
        else if MaxRetries <=? t_RetryCount task
        then mret (Err ("task " ++ uuid_String id ++ " has reached max retries ("
                        ++ itoa MaxRetries ++ ")"))
        else
          r ← exec (fun w => affected id (tasks w))
                 (set_tasks (alter (reset_for_retry (t_RetryCount task + 1)) id));
          match r with
          | Ok _ =>
            emit (XAdd streamPending [("task_id", uuid_String id);
                                      ("repo_id", t_RepoID task)]);;
            broadcast_task "retried" id;;
            mret (Ok tt)
          | Err e => mret (Err ("retry update: " ++ e))
          end
      | Err e => mret (Err ("retry: " ++ e))
      end) as Hp; [|exact Hp].
    unfold broadcast_task. preserve. bool_to_prop. eapply Hup; [done|lia| |done].
    by intros [].
Qed.

(** The rows still to be healed are those of the table. *)
Definition pending_rows (l : list (UUID * Task)) (w : World) : Prop :=
  retries_bounded w /\ forall id t, (id, t) ∈ l -> tasks w !! id = Some t.

#[local] Instance pending_rows_inv l : TableInv (pending_rows l).
Proof. by split. Qed.

Lemma pending_rows_tail k r l g w :
  NoDup ((k, r) :: l).*1 ->
  (forall t, tasks w !! k = Some t -> 0 <= t_RetryCount (g t) <= MaxRetries) ->
  pending_rows l w -> pending_rows l (set_tasks (alter g k) w).
Proof.
  intros [Hk _]%NoDup_cons Hg [Hw Hl]. split.
  - intros id t. simpl. rewrite lookup_alter. case_decide; [|by apply Hw]. subst id.
    intros (x & Hx & ->)%fmap_Some. by apply Hg.
  - intros id t Hid. simpl. rewrite lookup_alter_ne; [by apply Hl|]. intros ->.
    apply Hk, list_elem_of_fmap. by exists (id, t).
Qed.

Lemma stuck_rows_retries now l :
  NoDup l.*1 -> triple (pending_rows l) (stuck_rows now l) (fun _ => retries_bounded).
Proof.
  induction l as [|[k r] l IH]; intros Hnd; simpl; [apply triple_ret; by intros ? []|].
  assert (triple (pending_rows ((k, r) :: l)) (stuck_rows now l)
    (fun _ => retries_bounded)) as Hrest.
  { eapply triple_conseq; [apply IH; by apply NoDup_cons in Hnd as []| |done].
    intros w [Hw Hl]. split; [done|]. intros. apply Hl. by constructor. }
  destruct (t_FailureReason r).
  2:{ destruct scan_closes; [apply triple_ret; by intros ? []|done]. }
  set (P w := pending_rows l w /\ tasks w !! k = Some r).
  assert (TableInv P) by (by split).
  eapply (triple_bind _ (fun _ => P)).
  { eapply triple_conseq with (P' := P).
    - assert (preserves P (recordEvent now SHEventStuckTask "" (Some k) None
        [("status", t_Status r); ("retry_count", itoa (t_RetryCount r));
         ("failure_reason", s)] SeverityWarn)) as Hp
        by (unfold recordEvent; preserve; done). exact Hp.
    - intros w [Hw Hl]. split; [split; [done|]|]; [|apply Hl; by constructor].
      intros. apply Hl. by constructor.
    - done. }
  intros u. eapply (triple_bind _ (fun _ => pending_rows l));
    [|intros u'; apply IH; by apply NoDup_cons in Hnd as []].
  assert (forall rows g, (forall t, t = r -> 0 <= t_RetryCount (g t) <= MaxRetries) ->
    triple P (exec rows (set_tasks (alter g k))) (fun _ => pending_rows l)) as Hexec.
  { intros rows g Hg w [Hp Hk]. unfold exec. cbn. case_match; simpl; [done|].
    eapply (pending_rows_tail k r); [done| |done]. intros t Ht. apply Hg. simpl in Ht.
    congruence. }
  destruct (t_RetryCount r <? MaxRetries) eqn:E; bool_to_prop.
  - unfold recoverStuckTask. intros w [Hp Hk]. revert w Hp Hk.
    assert (0 <= t_RetryCount r \/ t_RetryCount r < 0) as [?|?] by lia.
    + assert (triple P (recoverStuckTask now k (t_RetryCount r))
        (fun _ => pending_rows l)) as Ht; [|by intros w Hp Hk; apply Ht].
      eapply triple_bind; [apply Hexec; intros t ->; simpl; lia|]. intros res.
      assert (preserves (pending_rows l) match res with
        | Ok _ =>
          recordEvent now SHEventTaskTimeoutRecover "" (Some k) None
            [("retry_count", itoa (t_RetryCount r + 1)); ("max_retries", itoa MaxRetries);
             ("action", "resubmitted")] SeverityInfo;;
          (if has_hub then emit (BroadcastTask "self_heal_retry" k) else mret tt)
        | Err _ => mret tt
        end) as Hp by (unfold recordEvent; preserve; done). exact Hp.
    + intros w [Hp _] Hk. specialize (Hp k r Hk). lia.
  - unfold exec_. eapply triple_bind; [|intros ?; apply triple_ret; intros ? Hx; exact Hx].
    intros w Hw. apply Hexec; [|done]. intros t ->. simpl.
    destruct Hw as [[Hb _] Hk]. by apply (Hb k).
Qed.

Lemma cycle_retries now : preserves retries_bounded (cycle now).
Proof.
  unfold cycle, detectStuckTasks, probeHalfOpenCircuits, gcOldEvents.
  apply preserves_bind; [|intros ?; retries].
  intros w Hw. destruct (query_cases (stuck_tasks (now - stuckTaskThreshold)) w) as [E|E];
    rewrite (run_eq _ _ _ _ _ E); [exact Hw|].
  apply stuck_rows_retries; [apply stuck_tasks_NoDup|]. split; [exact Hw|].
  intros id t Hin. by apply stuck_tasks_elem_of in Hin as [? _].
Qed.
#[local] Hint Resolve RetryTask_retries cycle_retries : preserves.

Lemma run_swarm_op_retries o : preserves retries_bounded (run_swarm_op o).
Proof.
  destruct o; simpl; try (by auto with preserves);
    unfold CreateTask, UpdateStatus, DeleteTask, SetPlan, CompleteTask, AddDiff, Heartbeat,
      RateTask, handleStreamMessages, cleanupInconsistentAgents, checkTimeouts,
      checkHeartbeats, reconcileOnStartup, reapStaleRows, revoke_agent, broadcast_task,
      ResolveEvent; retries.
  all: try (intros k t; simpl; match goal with Hw : retries_bounded _ |- _ =>
              specialize (Hw k) end).
  - rewrite lookup_insert. case_decide; [intros [= <-]; simpl; unfold MaxRetries; lia|eauto].
  - intros [_ Hk]%lookup_delete_Some. eauto.
  - rewrite lookup_fmap. intros (x & Hx & ->)%fmap_Some. repeat case_match; simpl; eauto.
  - destruct (unresolved eventID w); simpl; eauto.
Qed.

(** No sequence of operations of the swarm, whatever statements fail, takes
    the retry count of a task above three. *)
Theorem swarm_retries_bounded ops :
  preserves retries_bounded (for_rows ops run_swarm_op).
Proof. apply preserves_for_rows, run_swarm_op_retries. Qed.

(** ** References between rows *)

(** The foreign keys of the tables, as the statements have to keep them. *)
Definition references_ok (w : World) : Prop :=
  (forall id t team, tasks w !! id = Some t -> t_AssignedTeamID t = Some team ->
     is_Some (teams w !! team)) /\
  (forall a x team, agents w !! a = Some x -> a_TeamID x = Some team ->
     is_Some (teams w !! team)) /\
  (forall d x, diffs w !! d = Some x -> is_Some (tasks w !! d_TaskID x)) /\
  (forall d x a, diffs w !! d = Some x -> d_AgentID x = Some a -> is_Some (agents w !! a)).

#[local] Instance references_ok_inv : TableInv references_ok.
Proof. by split. Qed.

(** Rows of [m'] refer, through [ref], to what the rows of [m] refer to. *)
Definition refs_from {A} (ref : A -> option UUID) (m m' : gmap UUID A) : Prop :=
  forall k x' r, m' !! k = Some x' -> ref x' = Some r ->
    exists x, m !! k = Some x /\ ref x = Some r.
Definition keeps_keys {A} (m m' : gmap UUID A) : Prop :=
  forall k, is_Some (m !! k) -> is_Some (m' !! k).

Lemma refs_set_tasks f w :
  refs_from t_AssignedTeamID (tasks w) (f (tasks w)) -> keeps_keys (tasks w) (f (tasks w)) ->
  references_ok w -> references_ok (set_tasks f w).
Proof.
  intros Hf Hk (H1' & H2' & H3' & H4'). split_and!; simpl; [|done| |done].
  - intros id t team Ht Ha. destruct (Hf id t team Ht Ha) as (x & ? & ?). eauto.
  - intros d x Hx. apply Hk. eauto.
Qed.

Lemma refs_set_teams f w :
  keeps_keys (teams w) (f (teams w)) -> references_ok w -> references_ok (set_teams f w).
Proof. intros Hk (H1' & H2' & H3' & H4'). split_and!; simpl; eauto. Qed.

Lemma refs_set_agents f w :
  refs_from a_TeamID (agents w) (f (agents w)) -> keeps_keys (agents w) (f (agents w)) ->
  references_ok w -> references_ok (set_agents f w).
Proof.
  intros Hf Hk (H1' & H2' & H3' & H4'). split_and!; simpl; [done| |done|by eauto].
  intros id t team Ht Ha. destruct (Hf id t team Ht Ha) as (x & ? & ?). eauto.
Qed.

Lemma refs_alter {A} (ref : A -> option UUID) g k (m : gmap UUID A) :
  (forall x r, ref (g x) = Some r -> ref x = Some r) ->
  refs_from ref m (alter g k m).
Proof.
  intros Hg k' x' r. rewrite lookup_alter. case_decide; [|by eauto].
  intros (x & Hx & ->)%fmap_Some Hr. subst. eauto.
Qed.

Lemma refs_update_where {A} (ref : A -> option UUID) p g (m : gmap UUID A) :
  (forall x, ref (g x) = ref x) -> refs_from ref m (update_where p g m).
Proof.
  intros Hg k' x' r. rewrite update_where_lookup. intros (x & Hx & ->)%fmap_Some.
  case_match; rewrite ?Hg; eauto.
Qed.

Lemma keys_alter {A} (g : A -> A) k m : keeps_keys m (alter g k m).
Proof. intros k'. rewrite lookup_alter. case_decide; [subst|done]. by intros [x ->]; eauto. Qed.
Lemma keys_update_where {A} p (g : A -> A) m : keeps_keys m (update_where p g m).
Proof. intros k'. rewrite update_where_lookup. intros [x ->]. simpl. eauto. Qed.
Lemma keys_insert {A} k (x : A) m : keeps_keys m (<[k := x]> m).
Proof. intros k'. rewrite lookup_insert. case_decide; [by eauto|done]. Qed.

#[local] Hint Resolve keys_alter keys_update_where keys_insert : refs.

Lemma references_same w w' :
  tasks w' = tasks w -> teams w' = teams w -> agents w' = agents w -> diffs w' = diffs w ->
  references_ok w -> references_ok w'.
Proof. unfold references_ok. by intros -> -> -> ->. Qed.

Ltac refs :=
  preserve;
  try (apply refs_set_tasks;
       [apply refs_alter; intros [] ?; simpl; congruence | by auto with refs | done]);
  try (apply refs_set_agents;
       [first [apply refs_alter; intros [] ?; simpl; congruence
              | apply refs_update_where; by intros []] | by auto with refs | done]);
  try (unfold set_team_status; apply refs_set_teams; [by auto with refs | done]);
  try (by eapply references_same; [..|eassumption]).

Lemma ReleaseTeam_refs t : preserves references_ok (ReleaseTeam t).
Proof. unfold ReleaseTeam, set_team_agents_status. refs. Qed.
Lemma revokeTeamTokens_refs t : preserves references_ok (revokeTeamTokens t).
Proof. unfold revokeTeamTokens, revoke_agent. refs. Qed.
#[local] Hint Resolve ReleaseTeam_refs revokeTeamTokens_refs : preserves.
Lemma release_team_of_refs r : preserves references_ok (release_team_of r).
Proof. unfold release_team_of. refs. Qed.
Lemma GetTask_refs id : preserves references_ok (GetTask id).
Proof. unfold GetTask. refs. Qed.
#[local] Hint Resolve release_team_of_refs GetTask_refs : preserves.
Lemma FailTask_refs now id r : preserves references_ok (FailTask now id r).
Proof. unfold FailTask, broadcast_task. refs. Qed.
#[local] Hint Resolve FailTask_refs : preserves.
Lemma markAgentOffline_refs now a t s :
  preserves references_ok (markAgentOffline now a t s).
Proof. unfold markAgentOffline, checkTeamHealth, MarkTeamOffline. refs. Qed.
Lemma MarkTeamBusy_refs t : preserves references_ok (MarkTeamBusy t).
Proof. unfold MarkTeamBusy. refs. Qed.
#[local] Hint Resolve markAgentOffline_refs MarkTeamBusy_refs : preserves.
Lemma assignTask_refs now id t : preserves references_ok (assignTask now id t).
Proof.
  unfold assignTask. apply preserves_bind; [|intros ?; refs].
  apply preserves_exec_when; [apply _|]. intros w (H1' & H2' & H3' & H4') Hg.
  split_and!; simpl; [|done| |done].
  - intros k x team. rewrite lookup_alter. case_decide as Hk; [subst k|by apply H1'].
    intros (y & Hy & ->)%fmap_Some [= <-]. rewrite Hy in Hg. simpl in Hg.
    by apply bool_decide_eq_true in Hg.
  - intros d x Hx. by eapply keys_alter, H3'.
Qed.
Lemma request_team_refs f m id : preserves references_ok (request_team f m id).
Proof. apply request_team_keeps, _. Qed.
Lemma ack_refs m : preserves references_ok (ack m).
Proof. unfold ack. refs. Qed.
Lemma recordEvent_refs now a b c d e f :
  preserves references_ok (recordEvent now a b c d e f).
Proof. unfold recordEvent. refs. Qed.
#[local] Hint Resolve assignTask_refs request_team_refs ack_refs recordEvent_refs : preserves.
Lemma handle_message_refs now f m : preserves references_ok (handle_message now f m).
Proof.
  unfold handle_message, carve_or_request, GetIdleTeam, FindIdleTeamWithCapacity. refs.
Qed.
Lemma transitionCircuit_refs now p s :
  preserves references_ok (transitionCircuit now p s).
Proof. unfold transitionCircuit, persistCircuit. refs. Qed.
Lemma RetryTask_refs id : preserves references_ok (RetryTask id).
Proof. unfold RetryTask, broadcast_task. refs. Qed.
Lemma stuck_rows_refs now l : preserves references_ok (stuck_rows now l).
Proof.
  induction l as [|[k r] l IH]; simpl; [apply preserves_ret|].
  unfold recoverStuckTask. refs; exact IH.
Qed.
#[local] Hint Resolve handle_message_refs transitionCircuit_refs RetryTask_refs
  stuck_rows_refs : preserves.

Lemma refs_register w (x : Agent) a :
  (forall t, a_TeamID x = Some t -> is_Some (teams w !! t)) ->
  references_ok w -> references_ok (set_agents (<[a := x]>) w).
Proof.
  intros Hx (H1' & H2' & H3' & H4'). split_and!; simpl; [done| |done|].
  - intros k y t. rewrite lookup_insert. case_decide; [intros [= <-]; apply Hx|apply H2'].
  - intros d y r Hd Hr. eapply keys_insert, H4'; eauto.
Qed.

Lemma RegisterAgent_refs now a role t tn h v :
  preserves references_ok (RegisterAgent now a role t tn h v).
Proof.
  unfold RegisterAgent. refs.
  - apply refs_set_teams; [|done]. intros k Hk. destruct (teams w !! t) eqn:E; [done|].
    by apply keys_insert.
  - apply (refs_register w); [|done]. simpl. intros t' Ht'.
    destruct (t =? uuid_Nil)%N eqn:E; simplify_eq/=. by eapply bool_decide_eq_true_1.
Qed.
#[local] Hint Resolve RegisterAgent_refs : preserves.

Lemma run_team_op_refs o : preserves references_ok (run_team_op o).
Proof.
  destruct o; simpl; unfold CreateTeam, activeTeamCount, MarkTeamOffline, DisbandTeam,
    ScaleTeam, set_team_agents_status; refs.
Qed.

Lemma run_sh_op_refs o : preserves references_ok (run_sh_op o).
Proof.
  destruct o; simpl; unfold RecordProviderOutcome, probeHalfOpenCircuits, ResetCircuit,
    hydrateCircuits, persistCircuit; refs.
Qed.

Lemma delete_agents_refs p w : references_ok w -> references_ok (delete_agents p w).
Proof.
  intros (H1' & H2' & H3' & H4'). unfold delete_agents. split_and!; simpl.
  - intros id t team Ht Ha. rewrite lookup_fmap. apply fmap_is_Some. eauto.
  - intros a x team [Hx _]%delete_where_lookup Ha. rewrite lookup_fmap.
    apply fmap_is_Some. eauto.
  - intros d x. rewrite lookup_fmap. intros (y & Hy & ->)%fmap_Some. simpl. eauto.
  - intros d x a. rewrite lookup_fmap. intros (y & Hy & ->)%fmap_Some. simpl.
    destruct (d_AgentID y) as [b|] eqn:Eb; [|done].
    destruct (H4' d y b Hy Eb) as [z Hz]. rewrite Hz.
    destruct (p z) eqn:Ep; [done|]. intros [= <-]. exists z. by apply delete_where_lookup.
Qed.

Lemma count_where_zero {A} (p : UUID -> A -> bool) m k a :
  count_where p m = 0 -> m !! k = Some a -> p k a = false.
Proof.
  unfold count_where. intros Hz Hk. destruct (p k a) eqn:E; [exfalso|done].
  assert (size (base.filter (fun kv => p kv.1 kv.2 = true) m) = 0%nat) as Hs by lia.
  apply map_size_empty_inv in Hs. apply (lookup_empty_Some k a). rewrite <- Hs.
  by apply map_lookup_filter_Some.
Qed.

Lemma delete_teams_refs w : references_ok w -> references_ok (delete_teams w).
Proof.
  intros (H1' & H2' & H3' & H4'). unfold delete_teams. split_and!; simpl; [| | |done].
  - intros id t team. rewrite lookup_fmap. intros (y & Hy & ->)%fmap_Some Ha.
    destruct (t_AssignedTeamID y) as [b|] eqn:Eb; [|congruence].
    destruct (H1' id y b Hy Eb) as [z Hz]. rewrite Hz in Ha.
    destruct (stale_team w b z) eqn:Ep; [done|].
    assert (b = team) as -> by congruence. exists z. by apply delete_where_lookup.
  - intros a x team Hx Ha. destruct (H2' a x team Hx Ha) as [z Hz]. exists z.
    apply delete_where_lookup. split; [done|]. unfold stale_team.
    destruct (count_where _ _ =? 0) eqn:Ec; [exfalso|by rewrite andb_false_r].
    bool_to_prop. pose proof (count_where_zero _ _ a x Ec Hx) as Hp. simpl in Hp.
    by apply bool_decide_eq_false in Hp.
  - intros d x Hx. rewrite lookup_fmap. apply fmap_is_Some. eauto.
Qed.

Lemma AddDiff_refs id now t d : preserves references_ok (AddDiff id now t d).
Proof.
  unfold AddDiff. refs.
  match goal with Hw : references_ok _ |- _ => destruct Hw as (H1' & H2' & H3' & H4') end.
  bool_to_prop.
  split_and!; simpl; [done|done| |].
  - intros k x. rewrite lookup_insert. case_decide; [|apply H3']. intros [= <-]. simpl.
    by eapply bool_decide_eq_true_1.
  - intros k x a. rewrite lookup_insert. case_decide; [|apply H4']. intros [= <-]. simpl.
    intros E. rewrite E in *. by eapply bool_decide_eq_true_1.
Qed.

Lemma cycle_refs now : preserves references_ok (cycle now).
Proof.
  unfold cycle, detectStuckTasks, probeHalfOpenCircuits, gcOldEvents. refs.
Qed.

Lemma reapStaleRows_refs now : preserves references_ok (reapStaleRows now).
Proof.
  unfold reapStaleRows, revoke_agent. refs;
    [by apply delete_agents_refs|by apply delete_teams_refs].
Qed.
#[local] Hint Resolve run_team_op_refs run_sh_op_refs AddDiff_refs cycle_refs
  reapStaleRows_refs : preserves.

Lemma insert_task_refs id t w :
  t_AssignedTeamID t = None -> references_ok w ->
  references_ok (set_tasks (<[id := t]>) w).
Proof.
  intros Ht. apply refs_set_tasks; [|apply keys_insert]. intros k x r.
  rewrite lookup_insert. case_decide; [intros [= <-]; congruence|by eauto].
Qed.

Lemma delete_task_refs id w :
  references_ok w ->
  references_ok (set_diffs (delete_where (fun _ d => (d_TaskID d =? id)%N))
                   (set_tasks (delete id) w)).
Proof.
  intros (H1' & H2' & H3' & H4'). split_and!; simpl; [|done| |].
  - intros k t team [_ Ht]%lookup_delete_Some. eauto.
  - intros d x [Hx Hne]%delete_where_lookup. apply N.eqb_neq in Hne.
    destruct (H3' d x Hx) as [z Hz]. exists z. by apply lookup_delete_Some.
  - intros d x a [Hx _]%delete_where_lookup. eauto.
Qed.

Lemma run_swarm_op_refs o : preserves references_ok (run_swarm_op o).
Proof.
  destruct o; simpl; try (by auto with preserves);
    unfold CreateTask, UpdateStatus, DeleteTask, SetPlan, CompleteTask, Heartbeat,
      RateTask, handleStreamMessages, cleanupInconsistentAgents, checkTimeouts,
      checkHeartbeats, reconcileOnStartup, broadcast_task, ResolveEvent; refs.
  - by apply insert_task_refs.
  - by apply delete_task_refs.
  - apply refs_set_agents; [|apply keys_alter|done]. apply refs_alter. intros x r. by case_if.
  - by destruct (unresolved eventID w).
Qed.

(** No sequence of operations of the swarm, whatever statements fail, leaves
    a dangling reference: the team of a task or agent, the task of a diff and the
    agent of a diff all have a row. *)
Theorem swarm_references_ok ops :
  preserves references_ok (for_rows ops run_swarm_op).
Proof. apply preserves_for_rows, run_swarm_op_refs. Qed.

End swarm.
