(* ===== verification/Sandbox.v ===== *)
(** * The build sandbox: plans, skipping, limits ([internal/sandbox])

    [build_system.go], [skip.go], [cache.go], [sandbox.go], the plan generator
    of [plan.go] and the limit functions of [handler.go].  SHA-256 is the
    parameter [sha256_hex] of the class [Digest]. *)

From Stdlib Require Import ZArith Lia Ascii String.
From stdpp Require Import base list gmap strings.
From S2P Require Import Prelude GoStrings SwarmDb.
Local Open Scope string_scope.
Local Open Scope Z_scope.

Definition mem_string (s : string) (l : list string) : bool := existsb (String.eqb s) l.

Lemma mem_string_spec s l : mem_string s l = true <-> s ∈ l.
Proof.
  unfold mem_string. rewrite existsb_elem_of. split; [by intros (x & ? & ->%String.eqb_eq)|].
  intros ?. exists s. by rewrite String.eqb_refl.
Qed.

(** ** Build systems ([build_system.go]) *)

Record BuildSystemInfo := {
  bs_Name : string;
  bs_DefaultCommand : string;
  bs_DefaultImage : string
}.

(** Priority-ordered; the first match wins. *)
Definition buildSystemRules : list (string * BuildSystemInfo) :=
  let bs := Build_BuildSystemInfo in
  [("SANDBOX.md", bs "custom" "" "");
   (".rtvortex/build.yml", bs "custom" "" "");
   ("BUILD.md", bs "custom" "" "");
   ("build.gradle.kts", bs "gradle" "./gradlew build" "rtvortex/builder-jvm:17");
   ("build.gradle", bs "gradle" "./gradlew build" "rtvortex/builder-jvm:17");
   ("pom.xml", bs "maven" "mvn package -q" "rtvortex/builder-jvm:17");
   ("CMakeLists.txt", bs "cmake" "cmake --build build/" "rtvortex/builder-cpp:latest");
   ("Cargo.toml", bs "rust" "cargo build" "rtvortex/builder-rust:latest");
   ("go.mod", bs "go" "go build ./..." "rtvortex/builder-go:1.24");
   ("pyproject.toml", bs "python" "pip install -e . && pytest" "rtvortex/builder-python:3.12");
   ("setup.py", bs "python" "pip install -e . && pytest" "rtvortex/builder-python:3.12");
   ("package.json", bs "node" "npm ci && npm run build" "rtvortex/builder-node:20");
   ("Makefile", bs "make" "make" "rtvortex/builder-general:latest")].

(** The set of full paths and base names. *)
Definition nameSet (filePaths : list string) : list string :=
  concat (map (fun fp => [fp; Base fp]) filePaths).

Definition DetectBuildSystem (filePaths : list string) : option BuildSystemInfo :=
  snd <$> find (fun r => mem_string r.1 (nameSet filePaths)) buildSystemRules.

Definition buildFiles : list string :=
  ["Makefile"; "CMakeLists.txt"; "build.gradle"; "build.gradle.kts"; "pom.xml";
   "pyproject.toml"; "setup.py"; "setup.cfg"; "package.json"; "Dockerfile";
   "docker-compose.yml"; "docker-compose.yaml"; "go.mod"; "go.sum"; "Cargo.toml";
   "Cargo.lock"; "meson.build"; "BUILD.bazel"; "WORKSPACE"; "Gemfile"; "requirements.txt";
   "SANDBOX.md"; "BUILD.md"].

Definition affects (fp : string) : bool :=
  mem_string (after_last_slash fp) buildFiles || String.eqb fp ".rtvortex/build.yml".

Definition AffectsBuildSystem (changedFiles : list string) : bool :=
  existsb affects changedFiles.

(** ** Skipping ([skip.go]) *)

Definition skipExtensions : list string :=
  [".md"; ".txt"; ".rst"; ".adoc"; ".png"; ".jpg"; ".jpeg"; ".gif"; ".svg"; ".ico"; ".webp";
   ".bmp"; ".pdf"; ".doc"; ".docx"; ".csv"; ".json"; ".yaml"; ".yml"; ".toml"; ".ini";
   ".cfg"; ".env"; ".gitignore"; ".gitattributes"; ".editorconfig"; ".prettierrc";
   ".eslintignore"; ".dockerignore"; ".mailmap"].

Definition skipBasenames : list string :=
  ["LICENSE"; "LICENSE.md"; "LICENSE.txt"; "LICENCE"; "LICENCE.md"; "CHANGELOG.md";
   "CHANGELOG"; "CONTRIBUTING.md"; "CODE_OF_CONDUCT.md"; "CODEOWNERS"; "AUTHORS";
   "AUTHORS.md"; "SECURITY.md"; "FUNDING.yml"; ".github/FUNDING.yml"; "NOTICE"; "NOTICE.md"].

Definition skipPrefixes : list string :=
  ["docs/"; "doc/"; ".github/"; ".vscode/"; ".idea/"; "assets/"; "images/"; "img/";
   "screenshots/"].

Definition alwaysBuildBasenames : list string :=
  ["package.json"; "package-lock.json"; "tsconfig.json"; "tsconfig.build.json";
   "composer.json"; "Pipfile"; "Pipfile.lock"; "pyproject.toml"; "setup.cfg"; "Cargo.toml";
   "Cargo.lock"; "go.mod"; "go.sum"; "pom.xml"; "build.gradle"; "build.gradle.kts";
   "settings.gradle"; "settings.gradle.kts"; "CMakeLists.txt"; "Makefile"; "Dockerfile";
   "docker-compose.yml"; "docker-compose.yaml"; "meson.build"; "BUILD.bazel"; "WORKSPACE";
   "Gemfile"; "Gemfile.lock"; "requirements.txt"; "SANDBOX.md"; "BUILD.md";
   ".rtvortex/build.yml"].


Section sandbox.
Context `{UnicodeTables}.

Definition isSkippableFile (fp : string) : bool :=
  let basename := Base fp in
  if mem_string basename alwaysBuildBasenames then false
  else if mem_string fp alwaysBuildBasenames then false
  else if mem_string basename skipBasenames then true
  else if mem_string fp skipBasenames then true
  else if existsb (HasPrefix fp) skipPrefixes then true
  else
    let ext := ToLower (Ext basename) in
    if String.eqb ext "" then false else mem_string ext skipExtensions.

Definition CanSkipBuild (changedFiles : list string) : bool :=
  negb (Nat.eqb (List.length changedFiles) 0) && forallb isSkippableFile changedFiles.

Definition SkipReason (changedFiles : list string) : string :=
  if negb (CanSkipBuild changedFiles) then ""
  else "all changed files are non-code (docs, images, or metadata) — build skipped".

(** ** Caches ([cache.go]) *)

Record CacheConfig := { cc_VolumeName : string; cc_ContainerPath : string }.

Definition buildSystemCachePaths : list (string * string) :=
  [("go", "/go/pkg/mod"); ("node", "/home/builder/.npm");
   ("python", "/home/builder/.cache/pip"); ("gradle", "/home/builder/.gradle/caches");
   ("maven", "/home/builder/.m2/repository"); ("rust", "/home/builder/.cargo/registry");
   ("cmake", "/home/builder/.cache/cmake"); ("make", ""); ("custom", ""); ("unknown", "")].

Definition assoc (k : string) (l : list (string * string)) : option string :=
  snd <$> find (fun kv => String.eqb k kv.1) l.

Definition CacheVolumePrefix := "rtvortex-depcache".

Definition volume_byte (a : ascii) : ascii :=
  if is_lower a || is_digit a || Ascii.eqb a "-"%char then a else "-"%char.

Definition sanitiseBuildSystem (bs : string) : string :=
  let bs := map_runes volume_byte "-"%char (ToLower bs) in
  if (20 <? String.length bs)%nat then str_take 20 bs else bs.

(** [hex.EncodeToString] of [sha256.Sum256]: two hexadecimal digits a byte. *)
Class Digest := {
  sha256_hex : string -> string;
  sha256_hex_length : forall s, String.length (sha256_hex s) = 64%nat;
  sha256_hex_digits : forall s, forallb (fun a => is_digit a || in_range 97 102 a)
                                  (bytes (sha256_hex s)) = true
}.
Context `{Digest}.

Definition cacheVolumeName (repoID buildSystem : string) : string :=
  CacheVolumePrefix ++ "-" ++ str_take 12 (sha256_hex repoID) ++ "-"
  ++ sanitiseBuildSystem buildSystem.

Definition ResolveCacheConfig (repoID buildSystem : string) : option CacheConfig :=
  match assoc buildSystem buildSystemCachePaths with
  | None => None
  | Some containerPath =>
      if String.eqb containerPath "" then None
      else Some {| cc_VolumeName := cacheVolumeName repoID buildSystem;
                   cc_ContainerPath := containerPath |}
  end.

Definition CacheDockerArgs (cfg : option CacheConfig) : list string :=
  match cfg with
  | None => []
  | Some c => ["-v"; cc_VolumeName c ++ ":" ++ cc_ContainerPath c]
  end.

(** ** Plans ([sandbox.go], [plan.go]) *)

Definition DefaultTimeout : Z := 10 * minute.
Definition DefaultMemoryLimit := "2g".
Definition DefaultCPULimit := "2".
Definition MaxBuildRetries : Z := 2.

(** Absent and empty maps of the plan are not told apart; [WorkspaceFS] and
    [EnvVars] are maps. *)
Record BuildPlan := {
  bp_ID : UUID;
  bp_TaskID : UUID;
  bp_RepoID : string;
  bp_BuildSystem : string;
  bp_Command : string;
  bp_PreCommands : list string;
  bp_EnvVars : gmap string string;
  bp_SecretRefs : list string;
  bp_BaseImage : string;
  bp_SandboxMode : bool;
  bp_Timeout : Z;
  bp_MemoryLimit : string;
  bp_CPULimit : string;
  bp_Cache : option CacheConfig;
  bp_WorkspaceFS : gmap string string;
  bp_WorkspaceDir : string;
  bp_ArtifactPaths : option (list string)
}.

Record BuildResult := {
  br_ExitCode : Z;
  br_Logs : string;
  br_Duration : Z;
  br_SecretRefs : list string
}.

Definition Success (r : BuildResult) : bool := br_ExitCode r =? 0.

Record PlanOptions := {
  po_TaskID : UUID;
  po_RepoID : string;
  po_RepoFiles : list string;
  po_ChangedFiles : list string;
  po_SecretNames : list string;
  po_SandboxMode : bool;
  po_Timeout : Z;
  po_MemoryLimit : string;
  po_CPULimit : string
}.

Definition no_build_command := "echo 'No build system detected'".
Definition general_image := "rtvortex/builder-general:latest".

Definition GeneratePlan (id : UUID) (opts : PlanOptions) : BuildPlan :=
  let bs := DetectBuildSystem (po_RepoFiles opts) in
  {| bp_ID := id; bp_TaskID := po_TaskID opts; bp_RepoID := po_RepoID opts;
     bp_BuildSystem := match bs with Some b => bs_Name b | None => "unknown" end;
     bp_Command := match bs with Some b => bs_DefaultCommand b | None => no_build_command end;
     bp_PreCommands := []; bp_EnvVars := ∅; bp_SecretRefs := po_SecretNames opts;
     bp_BaseImage := match bs with Some b => bs_DefaultImage b | None => general_image end;
     bp_SandboxMode := po_SandboxMode opts;
     bp_Timeout := if po_Timeout opts =? 0 then DefaultTimeout else po_Timeout opts;
     bp_MemoryLimit := if String.eqb (po_MemoryLimit opts) "" then DefaultMemoryLimit
                       else po_MemoryLimit opts;
     bp_CPULimit := if String.eqb (po_CPULimit opts) "" then DefaultCPULimit
                    else po_CPULimit opts;
     bp_Cache := None; bp_WorkspaceFS := ∅; bp_WorkspaceDir := "";
     bp_ArtifactPaths := None |}.

End sandbox.

(** ** Limits ([handler.go]) *)

(** The digits of [n > 0] in front of [acc]; 19 digits are enough for an int. *)
Fixpoint prepend_digits (fuel : nat) (n : Z) (acc : string) : string :=
  match fuel with
  | O => acc
  | S fuel =>
      if 0 <? n
      then prepend_digits fuel (n / 10)
             (String (ascii_of_N (Z.to_N (48 + n mod 10))) acc)
      else acc
  end.

Definition intToStr (n : Z) : string :=
  if n =? 0 then "0"
  else
    let neg := n <? 0 in
    let n := if neg then wrap64 (- n) else n in
    let digits := prepend_digits 20 n "" in
    if neg then "-" ++ digits else digits.

(** The loop over runes adds the digits and skips everything else. *)
Fixpoint add_digits (s : string) (n : Z) : Z :=
  match s with
  | EmptyString => n
  | String c s =>
      if is_digit c then add_digits s (wrap64 (n * 10 + Z.of_N (byte_of c - 48)))
      else add_digits s n
  end.

Definition parseCPU (s : string) : Z := add_digits s 0.

Definition drop_last (s : string) : string := str_take (String.length s - 1) s.

Definition parseMemoryMB (s : string) : Z :=
  if String.eqb s "" then 0
  else
    let s := TrimSpace s in
    if HasSuffix s "g" || HasSuffix s "G" then wrap64 (add_digits (drop_last s) 0 * 1024)
    else if HasSuffix s "m" || HasSuffix s "M" then add_digits (drop_last s) 0
    else add_digits s 0.

Definition memoryLimitString (mb : Z) : string :=
  if (1024 <=? mb) && (mb mod 1024 =? 0) then intToStr (mb / 1024) ++ "g"
  else intToStr mb ++ "m".

Record SandboxLimits := {
  sl_MaxTimeoutSec : Z;
  sl_MaxMemoryMB : Z;
  sl_MaxCPU : Z;
  sl_MaxRetries : Z;
  sl_DefaultSandbox : bool
}.

(** The request values [applyLimits] rewrites in place. *)
Record request_limits := {
  rl_timeoutSec : Z;
  rl_memoryLimit : string;
  rl_cpuLimit : string;
  rl_sandboxMode : bool
}.

Definition clamp_timeout (L : SandboxLimits) (r : request_limits) : request_limits * bool :=
  if (0 <? sl_MaxTimeoutSec L) && (sl_MaxTimeoutSec L <? rl_timeoutSec r)
  then ({| rl_timeoutSec := sl_MaxTimeoutSec L; rl_memoryLimit := rl_memoryLimit r;
           rl_cpuLimit := rl_cpuLimit r; rl_sandboxMode := rl_sandboxMode r |}, true)
  else (r, false).
Definition clamp_memory (L : SandboxLimits) (r : request_limits) : request_limits * bool :=
  if (0 <? sl_MaxMemoryMB L) && (sl_MaxMemoryMB L <? parseMemoryMB (rl_memoryLimit r))
  then ({| rl_timeoutSec := rl_timeoutSec r;
           rl_memoryLimit := memoryLimitString (sl_MaxMemoryMB L);
           rl_cpuLimit := rl_cpuLimit r; rl_sandboxMode := rl_sandboxMode r |}, true)
  else (r, false).
Definition clamp_cpu (L : SandboxLimits) (r : request_limits) : request_limits * bool :=
  if (0 <? sl_MaxCPU L) && (sl_MaxCPU L <? parseCPU (rl_cpuLimit r))
  then ({| rl_timeoutSec := rl_timeoutSec r; rl_memoryLimit := rl_memoryLimit r;
           rl_cpuLimit := intToStr (sl_MaxCPU L); rl_sandboxMode := rl_sandboxMode r |}, true)
  else (r, false).
Definition force_sandbox (L : SandboxLimits) (r : request_limits) : request_limits * bool :=
  if sl_DefaultSandbox L && negb (rl_sandboxMode r)
  then ({| rl_timeoutSec := rl_timeoutSec r; rl_memoryLimit := rl_memoryLimit r;
           rl_cpuLimit := rl_cpuLimit r; rl_sandboxMode := true |}, true)
  else (r, false).

Definition applyLimits (limits : option SandboxLimits) (r : request_limits)
    : request_limits * bool :=
  match limits with
  | None => (r, false)
  | Some L =>
      let '(r, a1) := clamp_timeout L r in
      let '(r, a2) := clamp_memory L r in
      let '(r, a3) := clamp_cpu L r in
      let '(r, a4) := force_sandbox L r in
      (r, a1 || a2 || a3 || a4)
  end.

(** ** Decimal numbers *)

Lemma digit_byte r :
  0 <= r < 10 ->
  is_digit (ascii_of_N (Z.to_N (48 + r))) = true /\
  Z.of_N (byte_of (ascii_of_N (Z.to_N (48 + r))) - 48) = r.
Proof.
  intros Hr. unfold is_digit, in_range, byte_of. rewrite N_ascii_embedding by lia.
  split; [|lia]. apply andb_true_iff. split; apply N.leb_le; lia.
Qed.

Lemma prepend_digits_value fuel n acc :
  in_int64 n -> 0 <= n < 10 ^ Z.of_nat fuel ->
  add_digits (prepend_digits fuel n acc) 0 = add_digits acc n.
Proof.
  revert n acc. induction fuel as [|fuel IH]; intros n acc Hi Hn; simpl.
  - replace n with 0 by (simpl in Hn; lia). done.
  - destruct (0 <? n) eqn:E; bool_to_prop; [|by replace n with 0 by lia].
    pose proof (Z.div_mod n 10 ltac:(lia)). pose proof (Z.mod_pos_bound n 10 ltac:(lia)).
    assert (0 <= n / 10 < 10 ^ Z.of_nat fuel) as Hq.
    { split; [apply Z.div_pos; lia|]. apply Z.div_lt_upper_bound; [lia|].
      rewrite Nat2Z.inj_succ, Z.pow_succ_r in Hn by lia. lia. }
    rewrite IH by (unfold in_int64 in *; lia). simpl.
    destruct (digit_byte (n mod 10)) as [-> ->]; [done|].
    rewrite wrap64_id by (unfold in_int64 in *; lia). f_equal. lia.
Qed.

Lemma prepend_digits_all fuel n acc :
  0 <= n -> forallb is_digit (bytes acc) = true ->
  forallb is_digit (bytes (prepend_digits fuel n acc)) = true.
Proof.
  revert n acc. induction fuel as [|fuel IH]; intros n acc Hn Ha; simpl; [done|].
  destruct (0 <? n); [|done]. apply IH; [apply Z.div_pos; lia|]. simpl.
  destruct (digit_byte (n mod 10)) as [-> _]; [apply Z.mod_pos_bound; lia|done].
Qed.

Lemma prepend_digits_longer fuel n acc :
  (String.length acc <= String.length (prepend_digits fuel n acc))%nat.
Proof.
  revert n acc. induction fuel as [|fuel IH]; intros n acc; simpl; [done|].
  destruct (0 <? n); [|done]. etransitivity; [|apply IH]. simpl. lia.
Qed.

Lemma prepend_digits_S fuel n acc :
  0 < n ->
  prepend_digits (S fuel) n acc =
  prepend_digits fuel (n / 10) (String (ascii_of_N (Z.to_N (48 + n mod 10))) acc).
Proof. intros Hn%Z.ltb_lt. cbn [prepend_digits]. by rewrite Hn. Qed.

(** The text of a non-negative int: digits only, at least one, read back by the
    digit loop. *)
Lemma intToStr_digits n :
  0 <= n < 2 ^ 63 ->
  add_digits (intToStr n) 0 = n /\ forallb is_digit (bytes (intToStr n)) = true /\
  intToStr n <> "".
Proof.
  intros Hn. unfold intToStr. destruct (n =? 0) eqn:E0; bool_to_prop; [by subst|].
  replace (n <? 0) with false by (symmetry; apply Z.ltb_ge; lia).
  assert (in_int64 n) by (unfold in_int64; lia). split_and!.
  - rewrite prepend_digits_value; [done|done|]. split; [lia|].
    etransitivity; [apply Hn|]. vm_compute. done.
  - apply prepend_digits_all; [lia|done].
  - intros E. rewrite prepend_digits_S in E by lia.
    pose proof (prepend_digits_longer 19 (n / 10)
      (String (ascii_of_N (Z.to_N (48 + n mod 10))) "")) as Hl.
    rewrite E in Hl. simpl in Hl. lia.
Qed.

Lemma digit_not_space a : is_digit a = true -> not_first space_runes a = true.
Proof. destruct a as [[] [] [] [] [] [] [] []]; vm_compute; congruence. Qed.

(** A number with a unit is not trimmed. *)
Lemma trim_unit s b :
  forallb is_digit (bytes s) = true -> s <> "" -> b = "g"%char \/ b = "m"%char ->
  TrimSpace (s ++ String b "") = s ++ String b "".
Proof.
  intros Hs Hne Hb. destruct s as [|a s]; [done|]. simpl in Hs.
  apply andb_prop in Hs as [Ha _].
  apply (TrimSpace_noop _ a b (s ++ String b "") (String a s)); [done|done| |].
  - by apply digit_not_space.
  - by destruct Hb as [-> | ->].
Qed.

Lemma drop_last_unit s b : drop_last (s ++ String b "") = s.
Proof.
  unfold drop_last. rewrite string_app_length. simpl. rewrite Nat.add_sub.
  apply str_take_app.
Qed.

Lemma unit_suffix s b c :
  HasSuffix (s ++ String b "") (String c "") = Ascii.eqb b c.
Proof.
  unfold HasSuffix. rewrite string_rev_app.
  change (HasPrefix (String b (string_rev s)) (String c "") = Ascii.eqb b c).
  simpl. destruct (string_rev s); apply andb_true_r.
Qed.

Lemma parse_unit s b :
  forallb is_digit (bytes s) = true -> s <> "" -> b = "g"%char \/ b = "m"%char ->
  parseMemoryMB (s ++ String b "") =
  if Ascii.eqb b "g"%char then wrap64 (add_digits s 0 * 1024) else add_digits s 0.
Proof.
  intros Hs Hne Hb. unfold parseMemoryMB.
  replace (String.eqb (s ++ String b "") "") with false by (by destruct s).
  rewrite trim_unit, !unit_suffix, drop_last_unit by done. by destruct Hb as [-> | ->].
Qed.

(** What [memoryLimitString] prints for a positive number of megabytes is
    read back by [parseMemoryMB] as that number. *)
Lemma parse_memoryLimitString mb :
  0 < mb < 2 ^ 63 -> parseMemoryMB (memoryLimitString mb) = mb.
Proof.
  intros Hmb. unfold memoryLimitString.
  destruct ((1024 <=? mb) && (mb mod 1024 =? 0)) eqn:E; bool_to_prop.
  - pose proof (Z.div_mod mb 1024 ltac:(lia)).
    destruct (intToStr_digits (mb / 1024)) as (Hv & Hd & Hne); [lia|].
    rewrite parse_unit by auto. simpl. rewrite Hv, wrap64_id by (unfold in_int64; lia). lia.
  - destruct (intToStr_digits mb) as (Hv & Hd & Hne); [lia|].
    by rewrite parse_unit by auto.
Qed.

Lemma parse_intToStr n : 0 <= n < 2 ^ 63 -> parseCPU (intToStr n) = n.
Proof. intros Hn. by apply intToStr_digits. Qed.

(** ** Limits *)

(** The request respects every limit that is set. *)
Definition within (L : SandboxLimits) (r : request_limits) : Prop :=
  (0 < sl_MaxTimeoutSec L -> rl_timeoutSec r <= sl_MaxTimeoutSec L) /\
  (0 < sl_MaxMemoryMB L -> parseMemoryMB (rl_memoryLimit r) <= sl_MaxMemoryMB L) /\
  (0 < sl_MaxCPU L -> parseCPU (rl_cpuLimit r) <= sl_MaxCPU L) /\
  (sl_DefaultSandbox L = true -> rl_sandboxMode r = true).

Definition int_limits (L : SandboxLimits) : Prop :=
  in_int64 (sl_MaxTimeoutSec L) /\ in_int64 (sl_MaxMemoryMB L) /\ in_int64 (sl_MaxCPU L).

Ltac limit_case :=
  match goal with
  | |- context [if ?b then (_, true) else _] => destruct b eqn:?
  end; bool_to_prop; simpl.

Lemma clamp_memory_spec L r :
  in_int64 (sl_MaxMemoryMB L) -> 0 < sl_MaxMemoryMB L ->
  parseMemoryMB (rl_memoryLimit (clamp_memory L r).1) <= sl_MaxMemoryMB L.
Proof.
  unfold in_int64. intros Hi Hp. unfold clamp_memory.
  replace (0 <? sl_MaxMemoryMB L) with true by (symmetry; apply Z.ltb_lt; lia). simpl.
  limit_case; [rewrite parse_memoryLimitString; lia|done].
Qed.

Lemma clamp_cpu_spec L r :
  in_int64 (sl_MaxCPU L) -> 0 < sl_MaxCPU L ->
  parseCPU (rl_cpuLimit (clamp_cpu L r).1) <= sl_MaxCPU L.
Proof.
  unfold in_int64. intros Hi Hp. unfold clamp_cpu.
  replace (0 <? sl_MaxCPU L) with true by (symmetry; apply Z.ltb_lt; lia). simpl.
  limit_case; [rewrite parse_intToStr; lia|done].
Qed.

Lemma clamp_timeout_spec L r :
  0 < sl_MaxTimeoutSec L ->
  rl_timeoutSec (clamp_timeout L r).1 <= sl_MaxTimeoutSec L.
Proof.
  intros Hp. unfold clamp_timeout.
  replace (0 <? sl_MaxTimeoutSec L) with true by (symmetry; apply Z.ltb_lt; lia). simpl.
  limit_case; lia.
Qed.

Lemma force_sandbox_spec L r :
  sl_DefaultSandbox L = true -> rl_sandboxMode (force_sandbox L r).1 = true.
Proof.
  intros HL. unfold force_sandbox. rewrite HL. destruct (rl_sandboxMode r) eqn:E; simpl; done.
Qed.

(** Each clamp touches its own value only. *)
Lemma clamp_frames L r :
  (rl_memoryLimit (clamp_timeout L r).1 = rl_memoryLimit r /\
   rl_cpuLimit (clamp_timeout L r).1 = rl_cpuLimit r) /\
  (rl_timeoutSec (clamp_memory L r).1 = rl_timeoutSec r /\
   rl_cpuLimit (clamp_memory L r).1 = rl_cpuLimit r) /\
  (rl_timeoutSec (clamp_cpu L r).1 = rl_timeoutSec r /\
   rl_memoryLimit (clamp_cpu L r).1 = rl_memoryLimit r) /\
  (rl_timeoutSec (force_sandbox L r).1 = rl_timeoutSec r /\
   rl_memoryLimit (force_sandbox L r).1 = rl_memoryLimit r /\
   rl_cpuLimit (force_sandbox L r).1 = rl_cpuLimit r).
Proof.
  unfold clamp_timeout, clamp_memory, clamp_cpu, force_sandbox.
  split_and!; limit_case; done.
Qed.

Lemma applyLimits_eq L r :
  (applyLimits (Some L) r).1 =
  (force_sandbox L (clamp_cpu L (clamp_memory L (clamp_timeout L r).1).1).1).1.
Proof.
  simpl. destruct (clamp_timeout L r) as [r1 ?]; simpl.
  destruct (clamp_memory L r1) as [r2 ?]; simpl. destruct (clamp_cpu L r2) as [r3 ?]; simpl.
  by destruct (force_sandbox L r3).
Qed.

Lemma limits_respected L r : int_limits L -> within L (applyLimits (Some L) r).1.
Proof.
  intros (Ht & Hm & Hc). rewrite applyLimits_eq.
  set (r1 := (clamp_timeout L r).1). set (r2 := (clamp_memory L r1).1).
  set (r3 := (clamp_cpu L r2).1). set (r4 := (force_sandbox L r3).1).
  destruct (clamp_frames L r1) as (_ & [Em1 Em2] & _).
  destruct (clamp_frames L r2) as (_ & _ & [Ec1 Ec2] & _).
  destruct (clamp_frames L r3) as (_ & _ & _ & Ef1 & Ef2 & Ef3).
  fold r2 in Em1, Em2. fold r3 in Ec1, Ec2. fold r4 in Ef1, Ef2, Ef3. split_and!.
  - intros Hp. rewrite Ef1, Ec1, Em1. by apply clamp_timeout_spec.
  - intros Hp. rewrite Ef2, Ec2. by apply clamp_memory_spec.
  - intros Hp. rewrite Ef3. by apply clamp_cpu_spec.
  - apply force_sandbox_spec.
Qed.

(** After [applyLimits] the timeout, the memory and CPU limits as the
    sandbox reads them, and the sandbox mode respect every configured limit,
    and a request that respected all of them is returned unchanged. *)
Theorem applyLimits_within L r :
  int_limits L ->
  within L (applyLimits (Some L) r).1 /\
  (within L r -> applyLimits (Some L) r = (r, false)).
Proof.
  intros HL. split; [by apply limits_respected|]. intros (Wt & Wm & Wc & Ws). simpl.
  assert (clamp_timeout L r = (r, false)) as -> by (unfold clamp_timeout; limit_case;
    [lia|done]).
  assert (clamp_memory L r = (r, false)) as -> by (unfold clamp_memory; limit_case;
    [lia|done]).
  assert (clamp_cpu L r = (r, false)) as -> by (unfold clamp_cpu; limit_case; [lia|done]).
  assert (force_sandbox L r = (r, false)) as ->; [|done].
  unfold force_sandbox. destruct (sl_DefaultSandbox L); simpl; [|done]. by rewrite Ws.
Qed.

(** ** Skipping *)

Lemma not_elem_mem s l : mem_string s l = false -> s ∉ l.
Proof. intros E Hs%mem_string_spec. congruence. Qed.

(** A path that does not end in a slash has the same base name in both files. *)
Lemma Base_after_last_slash fp : after_last_slash fp <> "" -> Base fp = after_last_slash fp.
Proof.
  unfold Base, after_last_slash. intros Hne.
  destruct (String.eqb_spec fp "") as [->|Hfp]; [done|].
  assert (string_rev (drop_while (fun a => Ascii.eqb a slash) (string_rev fp)) = fp) as Hq.
  { destruct (string_rev fp) as [|a r] eqn:E; [done|]. cbn [take_while drop_while] in *.
    destruct (Ascii.eqb a slash); [done|]. by rewrite <- E, string_rev_rev. }
  rewrite Hq. cbv zeta.
  by destruct (String.eqb_spec (string_rev (take_while (fun a => negb (Ascii.eqb a slash))
    (string_rev fp))) "").
Qed.

Definition build_not_always : list string :=
  base.filter (fun f => mem_string f alwaysBuildBasenames = false) buildFiles.

Section sandbox_facts.
Context `{UnicodeTables}.

(** A change set that is skipped touches no build file, except a [setup.py]
    below one of the documentation or asset directories. *)
Theorem skipped_affects_only_setup_py l :
  CanSkipBuild l = true -> AffectsBuildSystem l = true ->
  exists fp, fp ∈ l /\ after_last_slash fp = "setup.py" /\
    existsb (HasPrefix fp) skipPrefixes = true.
Proof.
  unfold CanSkipBuild, AffectsBuildSystem. intros [_ Hskip]%andb_prop Ha.
  apply existsb_elem_of in Ha as (fp & Hfp & Ha). exists fp. split; [done|].
  apply forallb_elem_of with (x := fp) in Hskip; [|done].
  unfold isSkippableFile in Hskip. unfold affects in Ha.
  destruct (mem_string (Base fp) alwaysBuildBasenames) eqn:E1; [done|].
  destruct (mem_string fp alwaysBuildBasenames) eqn:E2; [done|].
  assert (after_last_slash fp ∈ buildFiles) as Hb.
  { apply orb_prop in Ha as [?%mem_string_spec | ->%String.eqb_eq]; [done|].
    vm_compute in E2. done. }
  assert (Base fp = after_last_slash fp) as HB.
  { apply Base_after_last_slash. intros E. rewrite E in Hb.
    apply mem_string_spec in Hb. vm_compute in Hb. done. }
  assert (after_last_slash fp = "setup.py") as Hs.
  { assert (after_last_slash fp ∈ build_not_always) as Hn
      by (apply list_elem_of_filter; by rewrite <- HB at 1).
    change build_not_always with ["setup.py"] in Hn. set_solver. }
  split; [done|]. rewrite HB, Hs in Hskip.
  destruct (mem_string fp skipBasenames) eqn:E3.
  - exfalso. apply mem_string_spec in E3. clear -E3 Hs.
    assert (Forall (fun f => after_last_slash f <> "setup.py") skipBasenames) as Hf
      by (repeat constructor; discriminate).
    rewrite Forall_forall in Hf. by apply (Hf fp).
  - destruct (existsb (HasPrefix fp) skipPrefixes); [done|]. vm_compute in Hskip. done.
Qed.

(** ** Cache volumes *)

Definition volume_char (a : ascii) : bool :=
  is_lower a || is_digit a || Ascii.eqb a "-"%char.

Lemma volume_byte_ok a : volume_char (volume_byte a) = true.
Proof.
  unfold volume_char, volume_byte. destruct (is_lower a || is_digit a || _) eqn:E; done.
Qed.

Lemma map_runes_volume k s :
  forallb volume_char (bytes (map_runes_from k volume_byte "-"%char s)) = true.
Proof.
  revert k. induction s as [|a s IH]; intros k; simpl; [done|].
  destruct k as [|k]; [|apply IH]. simpl. rewrite IH.
  destruct (is_ascii a); [by rewrite volume_byte_ok|done].
Qed.

Lemma forallb_take f n s :
  forallb f (bytes s) = true -> forallb f (bytes (str_take n s)) = true.
Proof.
  revert s. induction n as [|n IH]; intros [|a s]; simpl; try done.
  intros [-> ?]%andb_prop. by apply IH.
Qed.

Lemma length_take n s : String.length (str_take n s) = Nat.min n (String.length s).
Proof. revert s. induction n as [|n IH]; intros [|a s]; simpl; try done. by rewrite IH. Qed.

Lemma sanitise_ok bs :
  forallb volume_char (bytes (sanitiseBuildSystem bs)) = true /\
  (String.length (sanitiseBuildSystem bs) <= 20)%nat.
Proof.
  unfold sanitiseBuildSystem.
  destruct (20 <? _)%nat eqn:E; [apply Nat.ltb_lt in E|apply Nat.ltb_ge in E]; split.
  - apply forallb_take, map_runes_volume.
  - rewrite length_take. lia.
  - apply map_runes_volume.
  - done.
Qed.

(** The name of a cache volume consists of lower-case letters, digits and
    dashes, starts with the sandbox prefix and has at most 51 bytes, whatever
    the repository identifier and the build system are. *)
Theorem cacheVolumeName_valid `{Digest} repoID bs :
  let v := cacheVolumeName repoID bs in
  forallb volume_char (bytes v) = true /\ HasPrefix v CacheVolumePrefix = true /\
  (String.length v <= 51)%nat.
Proof.
  destruct (sanitise_ok bs) as [Hs Hl].
  assert (forallb volume_char (bytes (str_take 12 (sha256_hex repoID))) = true) as Hd.
  { apply forallb_take. pose proof (sha256_hex_digits repoID) as Hh.
    apply forallb_forall. intros a Ha. rewrite forallb_forall in Hh. specialize (Hh a Ha).
    clear -Hh. destruct a as [[] [] [] [] [] [] [] []]; vm_compute in *; congruence. }
  unfold cacheVolumeName. split_and!.
  - rewrite !bytes_app, !forallb_app, Hd, Hs. done.
  - apply HasPrefix_refl.
  - rewrite !string_app_length, length_take, sha256_hex_length. simpl. lia.
Qed.

End sandbox_facts.

(** ** Witnesses *)

Definition sample_limits : SandboxLimits :=
  {| sl_MaxTimeoutSec := 600; sl_MaxMemoryMB := 4096; sl_MaxCPU := 4; sl_MaxRetries := 2;
     sl_DefaultSandbox := true |}.
Definition sample_request : request_limits :=
  {| rl_timeoutSec := 900; rl_memoryLimit := "16g"; rl_cpuLimit := "8";
     rl_sandboxMode := false |}.

Lemma applyLimits_within_witness :
  within sample_limits (applyLimits (Some sample_limits) sample_request).1 /\
  (applyLimits (Some sample_limits) sample_request).2 = true.
Proof.
  split; [|vm_compute; reflexivity].
  apply (applyLimits_within sample_limits sample_request).
  unfold int_limits, in_int64. simpl. lia.
Defined.

(** A fractional CPU request below the maximum is read as ten times as much and
    raised to the maximum. *)
Example fractional_cpu_raised :
  rl_cpuLimit (applyLimits (Some sample_limits)
    {| rl_timeoutSec := 60; rl_memoryLimit := "2g"; rl_cpuLimit := "1.5";
       rl_sandboxMode := true |}).1 = "4".
Proof. vm_compute. reflexivity. Qed.

#[export] Instance identity_case : UnicodeTables :=
  {| unicode_to_lower s := s; unicode_to_upper s := s |}.

Lemma skipped_affects_only_setup_py_witness :
  CanSkipBuild ["docs/setup.py"] = true /\
  exists fp, fp ∈ ["docs/setup.py"] /\ after_last_slash fp = "setup.py" /\
    existsb (HasPrefix fp) skipPrefixes = true.
Proof.
  split; [vm_compute; reflexivity|].
  apply (skipped_affects_only_setup_py ["docs/setup.py"]); vm_compute; reflexivity.
Defined.
