(* ===== verification/Fingerprint.v ===== *)
(** * Build fingerprints and the fast path ([internal/sandbox/fingerprint.go])

    Which files of a workspace define its dependencies, the hash over them, and
    the rewriting of the build command when the hash has not changed.  The
    workspace is a map; Go chooses the order in which it is ranged over. *)

From Stdlib Require Import ZArith Lia Ascii String.
From stdpp Require Import base list gmap strings sorting.
From S2P Require Import Prelude GoStrings SwarmDb TeamManager Sandbox Redact.
Local Open Scope string_scope.

Record BuildFingerprint := {
  fp_Hash : string;
  fp_BuildSystem : string;
  fp_Files : list string;
  fp_FastPath : bool
}.

Definition buildConfigFiles : list (string * list string) :=
  [("go", ["go.mod"; "go.sum"]);
   ("node", ["package.json"; "package-lock.json"; "yarn.lock"; "pnpm-lock.yaml"]);
   ("python", ["requirements.txt"; "pyproject.toml"; "setup.py"; "setup.cfg"; "Pipfile";
               "Pipfile.lock"; "poetry.lock"]);
   ("gradle", ["build.gradle"; "build.gradle.kts"; "settings.gradle";
               "settings.gradle.kts"; "gradle.properties"]);
   ("maven", ["pom.xml"]);
   ("rust", ["Cargo.toml"; "Cargo.lock"]);
   ("cmake", ["CMakeLists.txt"; "conanfile.txt"; "conanfile.py"; "vcpkg.json"]);
   ("make", ["Makefile"])].

(** [strings.EqualFold] when a string is not ASCII: the runtime's tables. *)
Class FoldTables := { unicode_equal_fold : string -> string -> bool }.

Definition EqualFold `{FoldTables} (s t : string) : bool :=
  if all_ascii s && all_ascii t
  then String.eqb (string_map lower_byte s) (string_map lower_byte t)
  else unicode_equal_fold s t.

(** The loop of [baseName]: the text after the last slash. *)
Definition baseName (path : string) : string := after_last_slash path.

Definition nul : string := str1 0.

Section fingerprint.
Context `{UnicodeTables} `{FoldTables} `{RowOrder} `{Digest}.

Definition configNames (buildSystem : string) : list string :=
  default [] (snd <$> find (fun kv => String.eqb (ToLower buildSystem) kv.1) buildConfigFiles).

(** The nested loops: for every name the paths whose base name is it. *)
Definition matched_files (names : list string) (workspace : gmap string string)
    : list string :=
  concat (map (fun name =>
    List.filter (fun wsPath => EqualFold (baseName wsPath) name) (range_map workspace).*1)
    names).

(** What is written to the hash. *)
Definition hash_input (buildSystem : string) (files : list string)
    (workspace : gmap string string) : string :=
  buildSystem ++ nul ++
  String.concat "" (map (fun path => path ++ nul ++ default "" (workspace !! path) ++ nul)
                        files).

Definition ComputeBuildFingerprint (buildSystem : string) (workspace : gmap string string)
    : BuildFingerprint :=
  let fp := {| fp_Hash := ""; fp_BuildSystem := buildSystem; fp_Files := [];
               fp_FastPath := false |} in
  match configNames buildSystem with
  | [] => fp
  | configs =>
      match matched_files configs workspace with
      | [] => fp
      | matched =>
          let matched := sort_strings matched in
          {| fp_Hash := sha256_hex (hash_input buildSystem matched workspace);
             fp_BuildSystem := buildSystem; fp_Files := matched; fp_FastPath := false |}
      end
  end.

Definition IsFastPath (current previous : option BuildFingerprint) : bool :=
  match current, previous with
  | Some current, Some previous =>
      if String.eqb (fp_Hash current) "" || String.eqb (fp_Hash previous) "" then false
      else String.eqb (fp_Hash current) (fp_Hash previous)
           && String.eqb (fp_BuildSystem current) (fp_BuildSystem previous)
  | _, _ => false
  end.

Definition AnnotateFastPath (current previous : option BuildFingerprint)
    : option BuildFingerprint :=
  match current with
  | Some c => Some {| fp_Hash := fp_Hash c; fp_BuildSystem := fp_BuildSystem c;
                      fp_Files := fp_Files c; fp_FastPath := IsFastPath current previous |}
  | None => None
  end.

Definition depPrefixes : list string :=
  ["npm ci"; "npm install"; "yarn install"; "yarn --frozen-lockfile"; "pnpm install";
   "pip install"; "pip3 install"; "python -m pip install"; "python3 -m pip install";
   "bundle install"; "composer install"].

Definition isDepInstallCommand (cmd : string) : bool :=
  existsb (HasPrefix (ToLower cmd)) depPrefixes.

(** [rewriteNodeFastPath] and [rewritePythonFastPath] have the same body. *)
Definition rewriteNodeFastPath (command : string) : string :=
  let kept := List.filter (fun part => negb (isDepInstallCommand (TrimSpace part)))
                (Split command "&&") in
  match kept with
  | [] => command
  | _ => Join kept "&&"
  end.
Definition rewritePythonFastPath := rewriteNodeFastPath.

Definition FastPathCommand (buildSystem command : string) (fastPath : bool) : string :=
  if negb fastPath then command
  else
    let bs := ToLower buildSystem in
    if String.eqb bs "go" then command
    else if String.eqb bs "node" then rewriteNodeFastPath command
    else if String.eqb bs "python" then rewritePythonFastPath command
    else if String.eqb bs "gradle" then
      if negb (Contains command "--no-rebuild") then command ++ " --build-cache" else command
    else if String.eqb bs "maven" then
      if negb (Contains command "-o") then command ++ " -o" else command
    else command.

(** The slice [Hash[:12]] panics on a shorter hash; a computed one has 64 bytes. *)
Definition ImageTag (repoID : string) (fingerprint : option BuildFingerprint) : string :=
  match fingerprint with
  | None => ""
  | Some fp =>
      if String.eqb (fp_Hash fp) "" then ""
      else "rtvortex/cache:" ++ str_take 8 (sha256_hex repoID) ++ "-"
           ++ str_take 12 (fp_Hash fp)
  end.

(** ** The order of the map does not matter *)

Lemma filter_perm {A} (f : A -> bool) l1 l2 :
  l1 ≡ₚ l2 -> List.filter f l1 ≡ₚ List.filter f l2.
Proof.
  induction 1; simpl; repeat case_match; try done.
  - by constructor.
  - apply perm_swap.
  - by etransitivity.
Qed.

Lemma range_map_keys (m : gmap string string) k : k ∈ (range_map m).*1 <-> is_Some (m !! k).
Proof.
  rewrite list_elem_of_fmap. split.
  - intros ([k' v] & -> & Hin%range_map_elem_of). eauto.
  - intros [v Hv]. exists (k, v). split; [done|]. by apply range_map_elem_of.
Qed.

Lemma matched_files_elem_of names ws p :
  p ∈ matched_files names ws <->
  is_Some (ws !! p) /\ exists name, name ∈ names /\ EqualFold (baseName p) name = true.
Proof.
  unfold matched_files. rewrite <- range_map_keys. split.
  - intros (l & Hl & Hp)%list_elem_of_In%in_concat.
    apply in_map_iff in Hl as (name & <- & Hname). apply filter_In in Hp as [Hp He].
    split; [by apply list_elem_of_In|]. exists name. split; [by apply list_elem_of_In|done].
  - intros [Hp (name & Hname & He)]. apply list_elem_of_In, in_concat. eexists. split.
    + apply in_map_iff. exists name. split; [done|]. by apply list_elem_of_In.
    + apply filter_In. split; [by apply list_elem_of_In|done].
Qed.

(** ** The hash input determines the files *)

Definition nul_free (s : string) : Prop := cut_byte (chr 0) s = None.

Lemma cut_byte_app c u v : cut_byte c u = None -> cut_byte c (u ++ String c v) = Some (u, v).
Proof.
  induction u as [|a u IH]; simpl; [by rewrite Ascii.eqb_refl|].
  destruct (Ascii.eqb a c); [done|]. destruct (cut_byte c u) as [[]|]; [done|].
  intros _. by rewrite IH.
Qed.

(** Reading up to the first NUL is unambiguous. *)
Lemma nul_inj u u' v v' :
  nul_free u -> nul_free u' -> u ++ nul ++ v = u' ++ nul ++ v' -> u = u' /\ v = v'.
Proof.
  intros Hu Hu' E. change (nul ++ v) with (String (chr 0) v) in E.
  change (nul ++ v') with (String (chr 0) v') in E.
  pose proof (cut_byte_app (chr 0) u v Hu) as E1. rewrite E in E1.
  rewrite (cut_byte_app _ _ _ Hu') in E1. by injection E1.
Qed.

Definition entry (ws : gmap string string) (path : string) : string :=
  path ++ nul ++ default "" (ws !! path) ++ nul.

Lemma concat_cons w ws : String.concat "" (w :: ws) = w ++ String.concat "" ws.
Proof. simpl. destruct ws; simpl; [by rewrite string_app_nil_r|done]. Qed.

Lemma entries_inj ws1 ws2 l1 l2 :
  (forall p, p ∈ l1 -> nul_free p /\ nul_free (default "" (ws1 !! p))) ->
  (forall p, p ∈ l2 -> nul_free p /\ nul_free (default "" (ws2 !! p))) ->
  String.concat "" (map (entry ws1) l1) = String.concat "" (map (entry ws2) l2) ->
  l1 = l2 /\ forall p, p ∈ l1 -> default "" (ws1 !! p) = default "" (ws2 !! p).
Proof.
  revert l2. induction l1 as [|p l1 IH]; intros [|q l2] H1' H2' E; cbn [map] in E;
    rewrite ?concat_cons in E.
  - split; [done|]. by intros ? ?%elem_of_nil.
  - exfalso. clear -E. unfold entry in E. by destruct q.
  - exfalso. clear -E. unfold entry in E. by destruct p.
  - unfold entry in E at 1 3. rewrite !string_app_assoc in E.
    destruct (H1' p) as [Hp Hcp]; [constructor|]. destruct (H2' q) as [Hq Hcq]; [constructor|].
    apply nul_inj in E as [-> E]; [|done..]. apply nul_inj in E as [Hc E]; [|done..].
    destruct (IH l2) as [-> Hall]; [| |done|].
    + intros r Hr. apply H1'. by constructor.
    + intros r Hr. apply H2'. by constructor.
    + split; [done|]. intros r [-> | Hr]%elem_of_cons; [done|]. by apply Hall.
Qed.

(** No NUL byte in the paths and contents of a workspace. *)
Definition text_workspace (ws : gmap string string) : Prop :=
  forall p c, ws !! p = Some c -> nul_free p /\ nul_free c.

(** No collision of the hash between two inputs. *)
Definition no_collision (x y : string) : Prop := sha256_hex x = sha256_hex y -> x = y.

Lemma Compute_cases bs ws :
  (fp_Hash (ComputeBuildFingerprint bs ws) = "" \/
   fp_Hash (ComputeBuildFingerprint bs ws) =
     sha256_hex (hash_input bs (fp_Files (ComputeBuildFingerprint bs ws)) ws)) /\
  fp_BuildSystem (ComputeBuildFingerprint bs ws) = bs /\
  forall p, p ∈ fp_Files (ComputeBuildFingerprint bs ws) <->
    p ∈ matched_files (configNames bs) ws.
Proof.
  unfold ComputeBuildFingerprint. destruct (configNames bs) as [|n names].
  { split_and!; [by left|done|done]. }
  destruct (matched_files (n :: names) ws) as [|p ps] eqn:Em; cbn [fp_Hash fp_BuildSystem fp_Files].
  - by split_and!; [left| |].
  - split_and!; [by right|done|]. intros q. unfold sort_strings.
    by rewrite merge_sort_Permutation.
Qed.

(** The fast path is sound: if two text workspaces of a build system get
    matching fingerprints and their hash inputs do not collide, then they have
    the same dependency files with the same contents. *)
Theorem fast_path_same_dependencies bs1 bs2 ws1 ws2 :
  let fp1 := ComputeBuildFingerprint bs1 ws1 in
  let fp2 := ComputeBuildFingerprint bs2 ws2 in
  text_workspace ws1 -> text_workspace ws2 ->
  no_collision (hash_input bs1 (fp_Files fp1) ws1) (hash_input bs2 (fp_Files fp2) ws2) ->
  IsFastPath (Some fp1) (Some fp2) = true ->
  bs1 = bs2 /\ fp_Files fp1 = fp_Files fp2 /\
  forall p name, name ∈ configNames bs1 -> EqualFold (baseName p) name = true ->
    ws1 !! p = ws2 !! p.
Proof.
  intros fp1 fp2 T1 T2 Hcol Hfast. unfold IsFastPath in Hfast.
  destruct (Compute_cases bs1 ws1) as (Hh1 & Hb1 & Hf1).
  destruct (Compute_cases bs2 ws2) as (Hh2 & Hb2 & Hf2).
  fold fp1 in Hh1, Hb1, Hf1. fold fp2 in Hh2, Hb2, Hf2.
  destruct (_ || _) eqn:Ene in Hfast; [done|]. apply orb_false_elim in Ene as [N1 N2].
  apply String.eqb_neq in N1, N2. apply andb_prop in Hfast as [Hh Hb].
  apply String.eqb_eq in Hh, Hb.
  destruct Hh1 as [|Hh1]; [done|]. destruct Hh2 as [|Hh2]; [done|].
  rewrite Hb1, Hb2 in Hb. subst bs2. rewrite Hh1, Hh2 in Hh. specialize (Hcol Hh).
  unfold hash_input in Hcol. apply (inj (String.append bs1)), (inj (String.append nul)) in Hcol.
  assert (forall ws fp, text_workspace ws ->
    (forall p, p ∈ fp_Files fp <-> p ∈ matched_files (configNames bs1) ws) ->
    forall p, p ∈ fp_Files fp -> nul_free p /\ nul_free (default "" (ws !! p))) as Hnf.
  { intros ws fp T Hf p Hp. apply Hf, matched_files_elem_of in Hp as [[c Hc] _].
    rewrite Hc. by apply T in Hc. }
  destruct (entries_inj ws1 ws2 (fp_Files fp1) (fp_Files fp2)) as [Hfiles Hall];
    [by apply Hnf|by apply Hnf|exact Hcol|].
  split_and!; [done|done|]. intros p name Hname He.
  assert (forall ws, is_Some (ws !! p) -> p ∈ matched_files (configNames bs1) ws) as Hin.
  { intros ws Hp. apply matched_files_elem_of. eauto. }
  destruct (ws1 !! p) as [c1|] eqn:E1, (ws2 !! p) as [c2|] eqn:E2; [| | |done].
  - assert (p ∈ fp_Files fp1) as Hp by (apply Hf1, Hin; eauto).
    specialize (Hall p Hp). rewrite E1, E2 in Hall. simpl in Hall. by rewrite Hall.
  - assert (p ∈ fp_Files fp2) as Hp by (rewrite <- Hfiles; apply Hf1, Hin; eauto).
    apply Hf2, matched_files_elem_of in Hp as [[? Hp] _]. congruence.
  - assert (p ∈ fp_Files fp1) as Hp by (rewrite Hfiles; apply Hf2, Hin; eauto).
    apply Hf1, matched_files_elem_of in Hp as [[? Hp] _]. congruence.
Qed.

(** ** Rewriting the command *)

Definition is_step (part : string) : bool := negb (isDepInstallCommand (TrimSpace part)).

(** The rewritten command is the original one without its install steps: the
    steps that install nothing are kept with their text and order, a command
    without an install step or with nothing else is unchanged. *)
Theorem rewriteNodeFastPath_keeps_steps command :
  let parts := Split command "&&" in
  let kept := List.filter is_step parts in
  (kept <> [] -> rewriteNodeFastPath command = Join kept "&&") /\
  (kept = [] \/ forallb is_step parts = true -> rewriteNodeFastPath command = command).
Proof.
  intros parts kept. unfold rewriteNodeFastPath. fold is_step. fold parts.
  fold kept. split; [by destruct kept|]. intros [Hk|Hall]; [by rewrite Hk|].
  assert (kept = parts) as Hk.
  { unfold kept. clearbody parts. induction parts as [|p ps IH]; simpl in *; [done|].
    apply andb_prop in Hall as [-> Hall]. by rewrite IH. }
  rewrite Hk. destruct parts eqn:E; [done|]. rewrite <- E. apply Split_join.
Qed.

End fingerprint.

(** The fingerprint does not depend on the order in which the workspace is
    ranged over. *)
Theorem fingerprint_order_irrelevant `{UnicodeTables} `{FoldTables} `{Digest}
    (o1 o2 : RowOrder) bs ws :
  ComputeBuildFingerprint (H1 := o1) bs ws = ComputeBuildFingerprint (H1 := o2) bs ws.
Proof.
  unfold ComputeBuildFingerprint. destruct (configNames bs) as [|n names]; [done|].
  assert (matched_files (H1 := o1) (n :: names) ws ≡ₚ
          matched_files (H1 := o2) (n :: names) ws) as Hp.
  { unfold matched_files. generalize (n :: names). intros l. induction l as [|m l IH];
      cbn [map concat]; [done|]. apply Permutation_app; [|done]. apply filter_perm.
    apply fmap_Permutation. unfold range_map. apply omap_Permutation.
    etransitivity; [apply row_order_perm|]. symmetry. apply row_order_perm. }
  pose proof (sort_strings_perm _ _ Hp) as Hs.
  destruct (matched_files (H1 := o1) (n :: names) ws) as [|a l1] eqn:E1,
    (matched_files (H1 := o2) (n :: names) ws) as [|b l2] eqn:E2; [done| | |].
  - by apply Permutation_nil_l in Hp.
  - symmetry in Hp. by apply Permutation_nil_l in Hp.
  - by rewrite Hs.
Qed.

(** ** Witnesses *)

(** A digest that hashes everything to the same text: it satisfies the laws, and
    equal inputs cannot collide. *)
#[export] Instance constant_digest : Digest := {|
  sha256_hex _ := Repeat "0" 64;
  sha256_hex_length _ := eq_refl;
  sha256_hex_digits _ := eq_refl
|}.
#[export] Instance ascii_fold : FoldTables := {| unicode_equal_fold s t := String.eqb s t |}.

Lemma small_text_workspace l :
  forallb (fun kc => match cut_byte (chr 0) kc.1, cut_byte (chr 0) kc.2 with
                     | None, None => true | _, _ => false end) l = true ->
  text_workspace (list_to_map l).
Proof.
  intros Hl p c Hp. apply elem_of_list_to_map_2 in Hp.
  rewrite forallb_forall in Hl. apply list_elem_of_In in Hp. specialize (Hl _ Hp).
  unfold nul_free. simpl in Hl. by repeat case_match.
Qed.

(** Only a source file differs. *)
Definition before : gmap string string :=
  list_to_map [("go.mod", "module m"); ("main.go", "package main")].
Definition after : gmap string string :=
  list_to_map [("go.mod", "module m"); ("main.go", "package main // edited")].

Lemma fast_path_same_dependencies_witness :
  IsFastPath (Some (ComputeBuildFingerprint "go" before))
             (Some (ComputeBuildFingerprint "go" after)) = true /\
  before !! "go.mod" = after !! "go.mod".
Proof.
  assert (IsFastPath (Some (ComputeBuildFingerprint "go" before))
             (Some (ComputeBuildFingerprint "go" after)) = true) as Hf
    by (vm_compute; reflexivity).
  split; [exact Hf|].
  apply (fast_path_same_dependencies "go" "go" before after) with (name := "go.mod");
    [apply small_text_workspace; reflexivity|apply small_text_workspace; reflexivity| |exact Hf
    |vm_compute; left|vm_compute; reflexivity].
  intros _. vm_compute. reflexivity.
Defined.

(** The gradle test looks for another flag than the one it appends. *)
Example gradle_flag_repeated :
  FastPathCommand "gradle" (FastPathCommand "gradle" "./gradlew build" true) true
  = "./gradlew build --build-cache --build-cache".
Proof. vm_compute. reflexivity. Qed.

(** The maven test takes any text with -o in it for the offline flag. *)
Example maven_offline_missed :
  FastPathCommand "maven" "mvn package -Dfile-out=x" true = "mvn package -Dfile-out=x".
Proof. vm_compute. reflexivity. Qed.
