(* ===== verification/DockerRuntime.v ===== *)
(** * The container runtime ([internal/sandbox/executor.go], [artifacts.go])

    The plan table of [DockerRuntime], the argument list of [docker run], the
    result of a run, the workspace on the host and the artifacts.  Running a
    process is a parameter: [run_outcome] is what the code reads of it. *)

From Stdlib Require Import ZArith Lia Ascii String.
From stdpp Require Import base list gmap strings.
From S2P Require Import Prelude GoStrings SwarmDb TeamManager Sandbox Redact.
Local Open Scope string_scope.
Local Open Scope Z_scope.

Section docker.
Context `{UuidText} `{RowOrder}.

(** ** The plan table *)

Notation plan_table := (gmap string BuildPlan).

Definition GetPlan (containerID : string) (d : plan_table) : option BuildPlan :=
  d !! containerID.
Definition PlanCount (d : plan_table) : nat := size d.

Definition Create (plan : BuildPlan) (d : plan_table) : result string string * plan_table :=
  if String.eqb (bp_BaseImage plan) "" then (Err "sandbox: base image is required", d)
  else if String.eqb (bp_Command plan) "" then (Err "sandbox: build command is required", d)
  else
    let containerID := uuid_String (bp_ID plan) in
    (Ok containerID, <[containerID := plan]> d).

(** [docker rm -f] is best effort; its outcome is dropped, and it is not started at all when the
    context of the request is cancelled.  It is outside of the table and not modelled. *)
Definition Destroy (containerID : string) (d : plan_table) : plan_table :=
  delete containerID d.

(** ** The arguments of [docker run] *)

Definition security_args (plan : BuildPlan) : list string :=
  ["run"; "--rm";
   "--name"; "rtvortex-build-" ++ str_take 8 (uuid_String (bp_ID plan));
   "--user"; "1000:1000";
   "--network"; "none";
   "--security-opt"; "no-new-privileges:true";
   "--memory"; bp_MemoryLimit plan;
   "--cpus"; bp_CPULimit plan;
   "--tmpfs"; "/tmp:rw,noexec,nosuid,size=512m"].

Definition option_args (plan : BuildPlan) : list string :=
  (security_args plan
   ++ (if bp_SandboxMode plan then ["--read-only"] else [])
   ++ CacheDockerArgs (bp_Cache plan)
   ++ (if String.eqb (bp_WorkspaceDir plan) "" then []
       else ["-v"; (bp_WorkspaceDir plan ++ ":/workspace:ro")%string; "-w"; "/workspace"]))%list.

Definition env_args (show : string -> string -> string) (env : gmap string string)
    : list string :=
  concat (map (fun kv => ["--env"; show kv.1 kv.2]) (range_map env)).

Definition fullCmd (plan : BuildPlan) : string :=
  match bp_PreCommands plan with
  | [] => bp_Command plan
  | pre => Join pre " && " ++ " && " ++ bp_Command plan
  end.

Definition BuildDockerArgs (plan : BuildPlan) : list string * list string :=
  let tail := [bp_BaseImage plan; "sh"; "-c"; fullCmd plan] in
  ((option_args plan ++ env_args (fun k v => (k ++ "=" ++ v)%string) (bp_EnvVars plan)
    ++ tail)%list,
   (option_args plan ++ env_args (fun k _ => (k ++ "=***")%string) (bp_EnvVars plan)
    ++ tail)%list).

(** ** Wait *)

(** Exit status of the process: fine, an [ExitError], or another error. *)
Inductive run_error := RunOk | RunExit (code : Z) | RunOther.

Record run_outcome := {
  ro_stdout : string;
  ro_stderr : string;
  ro_deadline : bool;   (* the context's deadline was exceeded *)
  ro_error : run_error;
  ro_duration : Z
}.

Definition maxLogBytes : nat := Z.to_nat (64 * 1024).

Definition combined_logs (o : run_outcome) : string :=
  if String.eqb (ro_stderr o) "" then ro_stdout o
  else ro_stdout o ++ newline ++ "--- stderr ---" ++ newline ++ ro_stderr o.

Definition truncate_logs (n : nat) (logs : string) : string :=
  if (n <? String.length logs)%nat
  then str_take n logs ++ newline ++ "... [truncated]" else logs.

Definition Wait (run : list string -> Z -> run_outcome) (containerID : string)
    (timeout : Z) (d : plan_table) : option BuildResult * option string :=
  match d !! containerID with
  | None => (None, Some ("sandbox: unknown container " ++ String dq containerID
                         ++ String dq " (was Create called?)"))
  | Some plan =>
      let timeout := if timeout <=? 0 then DefaultTimeout else timeout in
      let args := (BuildDockerArgs plan).1 in
      let o := run args timeout in
      let logs := truncate_logs maxLogBytes (combined_logs o) in
      if ro_deadline o then
        (Some {| br_ExitCode := -1;
                 br_Logs := logs ++ newline ++ newline ++ "⏰ Build timed out after "
                            ++ DurationString timeout;
                 br_Duration := ro_duration o; br_SecretRefs := bp_SecretRefs plan |},
         Some "sandbox: build timed out")
      else
        (Some {| br_ExitCode := match ro_error o with
                                | RunOk => 0 | RunExit c => c | RunOther => -1
                                end;
                 br_Logs := logs; br_Duration := ro_duration o;
                 br_SecretRefs := bp_SecretRefs plan |}, None)
  end.

(** ** Paths ([path/filepath], lexically) *)

(** [filepath.Clean] of a rooted path as its components, innermost first. *)
Fixpoint clean_rooted (stack comps : list string) : list string :=
  match comps with
  | [] => stack
  | c :: comps =>
      if String.eqb c "" || String.eqb c "." then clean_rooted stack comps
      else if String.eqb c ".." then clean_rooted (tail stack) comps
      else clean_rooted (c :: stack) comps
  end.

(** [filepath.Join(dir, rel)] for a rooted [dir]. *)
Definition join_components (dir rel : string) : list string :=
  rev (clean_rooted [] (split_byte slash dir ++ split_byte slash rel)%list).
Definition JoinRooted (dir rel : string) : string := "/" ++ Join (join_components dir rel) "/".

(** ** Workspace *)

(** The files of the host; an operation of the file system may fail. *)
Notation host_files := (gmap string string).

Fixpoint write_files (fails : string -> option string) (dir : string)
    (files : list (string * string)) (h : host_files) : result host_files string :=
  match files with
  | [] => Ok h
  | (relPath, content) :: files =>
      if String.eqb content "" then write_files fails dir files h
      else
        let cleanPath := TrimLeft relPath "/" in
        let fullPath := JoinRooted dir cleanPath in
        match fails fullPath with
        | Some e => Err ("sandbox: write " ++ fullPath ++ ": " ++ e)
        | None => write_files fails dir files (<[fullPath := content]> h)
        end
  end.

Definition with_dir (dir : string) (p : BuildPlan) : BuildPlan :=
  {| bp_ID := bp_ID p; bp_TaskID := bp_TaskID p; bp_RepoID := bp_RepoID p;
     bp_BuildSystem := bp_BuildSystem p; bp_Command := bp_Command p;
     bp_PreCommands := bp_PreCommands p; bp_EnvVars := bp_EnvVars p;
     bp_SecretRefs := bp_SecretRefs p; bp_BaseImage := bp_BaseImage p;
     bp_SandboxMode := bp_SandboxMode p; bp_Timeout := bp_Timeout p;
     bp_MemoryLimit := bp_MemoryLimit p; bp_CPULimit := bp_CPULimit p;
     bp_Cache := bp_Cache p; bp_WorkspaceFS := bp_WorkspaceFS p; bp_WorkspaceDir := dir;
     bp_ArtifactPaths := bp_ArtifactPaths p |}.

(** [dir] is the answer of [os.MkdirTemp]; on an error the code removes the
    directory again. *)
Definition PrepareWorkspace (mkdir_temp : result string string)
    (fails : string -> option string) (plan : BuildPlan) (h : host_files)
    : result (BuildPlan * host_files) string :=
  if Nat.eqb (size (bp_WorkspaceFS plan)) 0 then Ok (plan, h)
  else
    match mkdir_temp with
    | Err e => Err ("sandbox: create workspace tmpdir: " ++ e)
    | Ok dir =>
        match write_files fails dir (range_map (bp_WorkspaceFS plan)) h with
        | Err e => Err e
        | Ok h => Ok (with_dir dir plan, h)
        end
    end.

(** [os.RemoveAll(dir)] removes the files below it. *)
Definition CleanupWorkspace (plan : BuildPlan) (h : host_files) : BuildPlan * host_files :=
  if String.eqb (bp_WorkspaceDir plan) "" then (plan, h)
  else (with_dir "" plan,
        base.filter (fun kv => HasPrefix kv.1 (bp_WorkspaceDir plan ++ "/") = false) h).

(** ** Artifacts *)

Definition MaxArtifactSize : Z := 10 * 1024 * 1024.
Definition MaxArtifactsPerBuild : nat := 20.
Definition MaxTotalArtifactBytes : Z := 50 * 1024 * 1024.
Definition MaxWorkspaceBytes : Z := 100 * 1024 * 1024.

Definition ArtifactTestReport := "test_report".
Definition ArtifactCoverage := "coverage".
Definition ArtifactLog := "log".
Definition ArtifactGeneric := "generic".

Record BuildArtifact := {
  ba_Kind : string;
  ba_Path : string;
  ba_SizeBytes : Z;
  ba_Data : string
}.

Definition DefaultArtifactPaths : list string :=
  ["build/reports/tests/"; "target/surefire-reports/"; "target/site/jacoco/"; "coverage/";
   "htmlcov/"; ".coverage"; "test-results/"; "junit.xml"; "test-report.xml";
   "coverage.xml"; "lcov.info"; "cover.out"; "cobertura.xml"].

Definition ClassifyArtifact `{UnicodeTables} (path : string) : string :=
  let lower := ToLower path in
  let base := ToLower (Base path) in
  if Contains lower "coverage" || Contains lower "jacoco" || Contains lower "htmlcov"
     || mem_string base [".coverage"; "lcov.info"; "cover.out"; "cobertura.xml";
                         "coverage.xml"]
  then ArtifactCoverage
  else if Contains lower "test-report" || Contains lower "test-results"
          || Contains lower "surefire-reports"
          || mem_string base ["junit.xml"; "test-report.xml"]
  then ArtifactTestReport
  else if mem_string base ["build.log"; "output.log"] then ArtifactLog
  else ArtifactGeneric.

(** The inner loop of [CollectArtifacts] over the entries of one path. *)
Fixpoint take_artifacts (extracted artifacts : list BuildArtifact) (totalBytes : Z)
    : list BuildArtifact * Z :=
  match extracted with
  | [] => (artifacts, totalBytes)
  | a :: rest =>
      if MaxTotalArtifactBytes <? totalBytes + ba_SizeBytes a then (artifacts, totalBytes)
      else if (MaxArtifactsPerBuild <=? List.length artifacts)%nat
      then (artifacts, totalBytes)
      else take_artifacts rest (artifacts ++ [a])%list (totalBytes + ba_SizeBytes a)
  end.

(** [extract p] is what [docker cp] and the tar reader yield for a path. *)
Fixpoint collect_paths (extract : string -> option (list BuildArtifact))
    (paths : list string) (artifacts : list BuildArtifact) (totalBytes : Z)
    : list BuildArtifact :=
  match paths with
  | [] => artifacts
  | p :: paths =>
      if (MaxArtifactsPerBuild <=? List.length artifacts)%nat then artifacts
      else
        match extract p with
        | None => collect_paths extract paths artifacts totalBytes
        | Some extracted =>
            let '(artifacts, totalBytes) := take_artifacts extracted artifacts totalBytes in
            collect_paths extract paths artifacts totalBytes
        end
  end.

Definition CollectArtifacts (extract : string -> option (list BuildArtifact))
    (paths : list string) : list BuildArtifact :=
  collect_paths extract (match paths with [] => DefaultArtifactPaths | _ => paths end) [] 0.

Definition is_coverage_line (trimmed : string) : bool :=
  HasPrefix trimmed "coverage:" || Contains trimmed "% of statements".

Definition ParseArtifactsFromLogs (logs : string) : list BuildArtifact :=
  map (fun trimmed => {| ba_Kind := ArtifactCoverage;
                         ba_Path := "inline/coverage-summary.txt";
                         ba_SizeBytes := Z.of_nat (String.length trimmed);
                         ba_Data := trimmed |})
    (List.filter is_coverage_line (map TrimSpace (Split logs newline))).

Definition WorkspaceSize (changeset : gmap string string) : Z :=
  fold_left (fun total kv => wrap64 (total + Z.of_nat (String.length kv.2)))
    (range_map changeset) 0.

(** ** Properties: arguments and results *)

(** Two plans that differ in the values of their secrets only. *)
Definition same_but_values (p q : BuildPlan) : Prop :=
  option_args p = option_args q /\ bp_BaseImage p = bp_BaseImage q /\
  fullCmd p = fullCmd q /\ dom (bp_EnvVars p) = dom (bp_EnvVars q).

Lemma range_map_fst {A} (m : gmap string A) : (range_map m).*1 = row_order (elements (dom m)).
Proof.
  unfold range_map.
  assert (forall k, k ∈ row_order (elements (dom m)) -> is_Some (m !! k)) as Hin.
  { intros k. rewrite row_order_perm, elem_of_elements, elem_of_dom. done. }
  induction (row_order (elements (dom m))) as [|k l IH]; [done|].
  destruct (Hin k) as [v Hv]; [constructor|]. simpl. rewrite Hv. simpl. f_equal.
  apply IH. intros k' Hk'. apply Hin. by constructor.
Qed.

Lemma env_args_names show (m : gmap string string) :
  env_args (fun k _ => show k) m =
  concat (map (fun k => ["--env"; show k]) (row_order (elements (dom m)))).
Proof.
  unfold env_args. rewrite <- range_map_fst. induction (range_map m) as [|kv l IH]; [done|].
  simpl. by rewrite IH.
Qed.

(** The arguments that are logged do not depend on the values of the secrets,
    and there are as many of them as of the real ones, one for one. *)
Theorem logged_args_hide_values p q :
  same_but_values p q ->
  (BuildDockerArgs p).2 = (BuildDockerArgs q).2 /\
  List.length (BuildDockerArgs p).1 = List.length (BuildDockerArgs p).2.
Proof.
  intros (Ho & Hi & Hc & Hd). unfold BuildDockerArgs. cbn [fst snd]. split.
  - by rewrite Ho, Hi, Hc, !env_args_names, Hd.
  - rewrite !length_app. do 2 f_equal. unfold env_args.
    induction (range_map (bp_EnvVars p)) as [|kv l IH]; [done|]. cbn [map concat].
    rewrite !length_app, IH. done.
Qed.

Lemma truncate_logs_bound n logs : (String.length (truncate_logs n logs) <= n + 16)%nat.
Proof.
  unfold truncate_logs. destruct (n <? String.length logs)%nat eqn:E.
  - rewrite !string_app_length, str_take_length. cbn. lia.
  - apply Nat.ltb_ge in E. lia.
Qed.

(** A container created and not destroyed can be waited for: the result
    carries the references of its plan, at most 64 KiB of output and its mark,
    and exit code 0 only if the process ended well before the deadline; after
    [Destroy] the container is unknown. *)
Theorem wait_after_create run plan d timeout id d' :
  Create plan d = (Ok id, d') ->
  (exists r e, Wait run id timeout d' = (Some r, e) /\
     br_SecretRefs r = bp_SecretRefs plan /\
     (e = None -> (String.length (br_Logs r) <= maxLogBytes + 16)%nat) /\
     (br_ExitCode r = 0 -> e = None /\
        let o := run (BuildDockerArgs plan).1
                   (if timeout <=? 0 then DefaultTimeout else timeout) in
        ro_error o = RunOk \/ ro_error o = RunExit 0)) /\
  (exists e, Wait run id timeout (Destroy id d') = (None, Some e)).
Proof.
  unfold Create. intros Hc.
  destruct (String.eqb (bp_BaseImage plan) ""); [done|].
  destruct (String.eqb (bp_Command plan) ""); [done|]. injection Hc as <- <-.
  set (id := uuid_String (bp_ID plan)). split.
  - unfold Wait. rewrite lookup_insert_eq.
    set (o := run _ _). destruct (ro_deadline o); do 2 eexists; (split; [reflexivity|]);
      cbn [br_SecretRefs br_Logs br_ExitCode]; (split_and!; [done| |]); try done.
    + intros _. apply truncate_logs_bound.
    + intros Hx. split; [done|]. destruct (ro_error o); [by left|right; by subst|done].
  - unfold Wait, Destroy. rewrite lookup_delete_eq. eauto.
Qed.

(** ** Properties: the workspace *)

(** Walking [comps] from a directory never climbs above it; [n] is the depth. *)
Fixpoint stays (n : nat) (comps : list string) : bool :=
  match comps with
  | [] => true
  | c :: comps =>
      if String.eqb c "" || String.eqb c "." then stays n comps
      else if String.eqb c ".." then match n with O => false | S n => stays n comps end
      else stays (S n) comps
  end.

Lemma clean_rooted_stays base extra comps :
  stays (List.length extra) comps = true ->
  exists extra', clean_rooted (extra ++ base) comps = (extra' ++ base)%list.
Proof.
  revert extra. induction comps as [|c comps IH]; intros extra Hs; simpl in *; [eauto|].
  destruct (String.eqb c "" || String.eqb c "."); [by apply IH|].
  destruct (String.eqb c "..").
  - destruct extra as [|x extra]; [done|]. simpl. by apply IH.
  - apply (IH (c :: extra)). exact Hs.
Qed.

Lemma clean_rooted_app stack a b :
  clean_rooted stack (a ++ b) = clean_rooted (clean_rooted stack a) b.
Proof.
  revert stack. induction a as [|c a IH]; intros stack; simpl; [done|].
  repeat case_match; apply IH.
Qed.

(** The components of a path inside a directory extend those of the directory. *)
Definition inside (dir path : string) : Prop :=
  exists sub, path = "/" ++ Join (rev (clean_rooted [] (split_byte slash dir)) ++ sub) "/".

Lemma join_inside dir rel :
  stays 0 (split_byte slash rel) = true -> inside dir (JoinRooted dir rel).
Proof.
  intros Hs. unfold JoinRooted, join_components, inside. rewrite clean_rooted_app.
  destruct (clean_rooted_stays (clean_rooted [] (split_byte slash dir)) [] _ Hs) as [e He].
  simpl in He. rewrite He, rev_app_distr. eauto.
Qed.

Lemma write_files_inside fails dir files h h' :
  (forall k c, (k, c) ∈ files -> stays 0 (split_byte slash (TrimLeft k "/")) = true) ->
  write_files fails dir files h = Ok h' ->
  forall path, h' !! path = h !! path \/ inside dir path.
Proof.
  revert h. induction files as [|[k c] files IH]; intros h Hin Hw path; simpl in Hw.
  - injection Hw as <-. by left.
  - assert (forall h, write_files fails dir files h = Ok h' ->
      h' !! path = h !! path \/ inside dir path) as Hrest.
    { intros h1 Hw1. apply (IH h1); [|done]. intros k' c' Hk. apply (Hin k' c').
      by constructor. }
    destruct (String.eqb c ""); [by apply Hrest|]. destruct (fails _); [done|].
    destruct (Hrest _ Hw) as [E|]; [|by right]. rewrite E, lookup_insert.
    case_decide as Hp; [subst path|by left]. right. apply join_inside.
    apply (Hin k c). constructor.
Qed.

(** Preparing a workspace whose relative paths never climb above their root
    writes below the temporary directory only. *)
Theorem PrepareWorkspace_confined dir fails plan h plan' h' :
  (forall k c, bp_WorkspaceFS plan !! k = Some c ->
     stays 0 (split_byte slash (TrimLeft k "/")) = true) ->
  PrepareWorkspace (Ok dir) fails plan h = Ok (plan', h') ->
  forall path, h' !! path = h !! path \/ inside dir path.
Proof.
  intros Hs. unfold PrepareWorkspace. case_match; [intros [= <- <-]; by left|].
  destruct (write_files _ _ _ _) as [h1|] eqn:Ew; [|done]. intros [= <- <-].
  eapply write_files_inside; [|exact Ew].
  intros k c Hk. apply (Hs k c). by apply range_map_elem_of.
Qed.

(** ** Properties: artifacts *)

Definition total_size (l : list BuildArtifact) : Z := foldr (fun a n => ba_SizeBytes a + n) 0 l.

Lemma total_size_app l1 l2 : total_size (l1 ++ l2) = total_size l1 + total_size l2.
Proof. unfold total_size. induction l1 as [|a l1 IH]; simpl; [done|]. lia. Qed.

Definition artifacts_ok (artifacts : list BuildArtifact) (totalBytes : Z) : Prop :=
  (List.length artifacts <= MaxArtifactsPerBuild)%nat /\
  total_size artifacts = totalBytes /\ totalBytes <= MaxTotalArtifactBytes.

Lemma take_artifacts_ok extracted artifacts n :
  artifacts_ok artifacts n ->
  artifacts_ok (take_artifacts extracted artifacts n).1 (take_artifacts extracted artifacts n).2.
Proof.
  revert artifacts n. induction extracted as [|a rest IH]; intros artifacts n Hok; [done|].
  cbn [take_artifacts].
  destruct (MaxTotalArtifactBytes <? n + ba_SizeBytes a) eqn:E1; [done|].
  destruct (MaxArtifactsPerBuild <=? List.length artifacts)%nat eqn:E2; [done|].
  bool_to_prop. destruct Hok as (Hl & Ht & Hb). apply IH.
  split_and!.
  - rewrite length_app. cbn [List.length]. lia.
  - rewrite total_size_app. change (total_size [a]) with (ba_SizeBytes a + 0). lia.
  - done.
Qed.

(** Whatever the container yields, at most twenty artifacts with at most
    50 MiB in total are collected. *)
Theorem CollectArtifacts_bounded extract paths :
  (List.length (CollectArtifacts extract paths) <= MaxArtifactsPerBuild)%nat /\
  total_size (CollectArtifacts extract paths) <= MaxTotalArtifactBytes.
Proof.
  assert (forall paths artifacts n, artifacts_ok artifacts n ->
    let r := collect_paths extract paths artifacts n in
    (List.length r <= MaxArtifactsPerBuild)%nat /\ total_size r <= MaxTotalArtifactBytes)
    as Hc.
  { intros ps. induction ps as [|p ps IH]; intros artifacts n Hok; cbv zeta;
      cbn [collect_paths].
    - destruct Hok as (? & -> & ?). done.
    - destruct (MaxArtifactsPerBuild <=? List.length artifacts)%nat.
      { destruct Hok as (? & -> & ?). done. }
      destruct (extract p) as [l|]; [|by apply IH].
      pose proof (take_artifacts_ok l artifacts n Hok) as Hok'.
      destruct (take_artifacts l artifacts n). by apply IH. }
  apply Hc. split_and!; [simpl; lia|done|]. vm_compute. discriminate.
Qed.

End docker.

(** ** Witnesses *)

Definition sample_plan (env fs : gmap string string) : BuildPlan :=
  {| bp_ID := 5%N; bp_TaskID := 1%N; bp_RepoID := "r"; bp_BuildSystem := "go";
     bp_Command := "go build ./..."; bp_PreCommands := []; bp_EnvVars := env;
     bp_SecretRefs := ["TOKEN"]; bp_BaseImage := "golang"; bp_SandboxMode := true;
     bp_Timeout := DefaultTimeout; bp_MemoryLimit := "2g"; bp_CPULimit := "2";
     bp_Cache := None; bp_WorkspaceFS := fs; bp_WorkspaceDir := "";
     bp_ArtifactPaths := None |}.

Lemma logged_args_hide_values_witness :
  (BuildDockerArgs (sample_plan {["TOKEN" := "hunter22"]} ∅)).2 =
  (BuildDockerArgs (sample_plan {["TOKEN" := "swordfish"]} ∅)).2 /\
  "TOKEN=hunter22" ∈ (BuildDockerArgs (sample_plan {["TOKEN" := "hunter22"]} ∅)).1.
Proof.
  split.
  - apply (logged_args_hide_values (sample_plan {["TOKEN" := "hunter22"]} ∅)
      (sample_plan {["TOKEN" := "swordfish"]} ∅)).
    split_and!; try reflexivity.
  - apply mem_string_spec. vm_compute. reflexivity.
Defined.

Definition ok_run (_ : list string) (_ : Z) : run_outcome :=
  {| ro_stdout := "built"; ro_stderr := "warning"; ro_deadline := false; ro_error := RunOk;
     ro_duration := 3 |}.

Lemma wait_after_create_witness :
  exists r e, Wait ok_run (uuid_String 5%N) 60
    (Create (sample_plan ∅ ∅) ∅).2 = (Some r, e) /\ br_SecretRefs r = ["TOKEN"].
Proof.
  destruct (wait_after_create ok_run (sample_plan ∅ ∅) ∅ 60
    (uuid_String 5%N) (Create (sample_plan ∅ ∅) ∅).2 eq_refl) as [(r & e & Hw & Hr & _) _].
  exists r, e. split; [exact Hw|exact Hr].
Defined.

Definition prepared (rel : string) : result (BuildPlan * gmap string string) string :=
  PrepareWorkspace (Ok "/tmp/rtvortex-ws-1") (fun _ => None)
    (sample_plan ∅ {[rel := "x"]}) ∅.

Lemma PrepareWorkspace_confined_witness :
  exists plan h, prepared "a/../b.go" = Ok (plan, h) /\
    forall path, h !! path = (∅ : gmap string string) !! path \/
      inside "/tmp/rtvortex-ws-1" path.
Proof.
  destruct (prepared "a/../b.go") as [[plan h]|e] eqn:E; [|vm_compute in E; discriminate].
  exists plan, h. split; [reflexivity|].
  apply (PrepareWorkspace_confined "/tmp/rtvortex-ws-1" (fun _ => None)
    (sample_plan ∅ {["a/../b.go" := "x"]}) ∅ plan h); [|exact E].
  intros k c Hk. simpl in Hk. apply lookup_singleton_Some in Hk as [<- _].
  vm_compute. reflexivity.
Defined.

(** A path that climbs writes outside the temporary directory. *)
Example workspace_escape :
  match prepared "../../etc/cron.d/job" with
  | Ok (_, h) => h !! "/etc/cron.d/job"
  | Err _ => None
  end = Some "x".
Proof. vm_compute. reflexivity. Qed.

(** An image name that starts with a dash is one more option of [docker run]. *)
Example image_as_option :
  let p := sample_plan ∅ ∅ in
  let q := {| bp_ID := 5%N; bp_TaskID := 1%N; bp_RepoID := "r"; bp_BuildSystem := "go";
     bp_Command := "id"; bp_PreCommands := []; bp_EnvVars := ∅; bp_SecretRefs := [];
     bp_BaseImage := "--privileged"; bp_SandboxMode := true; bp_Timeout := DefaultTimeout;
     bp_MemoryLimit := "2g"; bp_CPULimit := "2"; bp_Cache := None; bp_WorkspaceFS := ∅;
     bp_WorkspaceDir := ""; bp_ArtifactPaths := None |} in
  (exists id d, Create q ∅ = (Ok id, d)) /\
  exists pre, (BuildDockerArgs q).1 = (pre ++ ["--privileged"; "sh"; "-c"; "id"])%list.
Proof. split; [do 2 eexists; reflexivity|]. exists (option_args (sample_plan ∅ ∅)). reflexivity. Qed.

(** Output is cut before it is redacted: a secret that straddles the limit leaves
    its first bytes in the log. *)
Example cut_secret_survives :
  redact_values {["TOKEN" := "hunter22"]}
    (truncate_logs 12 "token: hunter22 was used") =
  "token: hunte" ++ newline ++ "... [truncated]".
Proof. vm_compute. reflexivity. Qed.
