(* ===== verification/GoFloat.v ===== *)
(** * Go's [float64]

    IEEE 754 binary64 as [spec_float] of the Standard Library (53 bits of
    precision, largest exponent 1024): every operation is the exact one followed
    by rounding to nearest even, as Go computes on amd64 without fused
    operations.  [math.Min], [math.Max], [math.Round], [math.Ceil] and the
    conversion to int follow the documentation of the [math] package; a
    conversion out of range yields the smallest int, as on amd64. *)

From Stdlib Require Import ZArith Lia SpecFloat.
From stdpp Require Import base tactics option.
From S2P Require Import Prelude.
Local Open Scope Z_scope.

Definition float64 : Type := spec_float.

Definition fadd : float64 -> float64 -> float64 := SFadd 53 1024.
Definition fsub : float64 -> float64 -> float64 := SFsub 53 1024.
Definition fmul : float64 -> float64 -> float64 := SFmul 53 1024.
Definition fdiv : float64 -> float64 -> float64 := SFdiv 53 1024.
Definition flt : float64 -> float64 -> bool := SFltb.
Definition fle : float64 -> float64 -> bool := SFleb.
Definition feq : float64 -> float64 -> bool := SFeqb.

(** [float64(n)] *)
Definition of_int (n : Z) : float64 := binary_normalize 53 1024 n 0 false.

(** A decimal literal [n / d]: the nearest float, [n] and [d] being exact. *)
Definition lit (n d : Z) : float64 := fdiv (of_int n) (of_int d).

Definition is_nan (f : float64) : bool :=
  match f with S754_nan => true | _ => false end.
Definition sign_bit (f : float64) : bool :=
  match f with
  | S754_zero s | S754_infinity s | S754_finite s _ _ => s
  | S754_nan => false
  end.

Definition fmin (x y : float64) : float64 :=
  match x, y with
  | S754_infinity true, _ | _, S754_infinity true => S754_infinity true
  | S754_nan, _ | _, S754_nan => S754_nan
  | S754_zero s, S754_zero _ => if s then x else y
  | _, _ => if flt x y then x else y
  end.
Definition fmax (x y : float64) : float64 :=
  match x, y with
  | S754_infinity false, _ | _, S754_infinity false => S754_infinity false
  | S754_nan, _ | _, S754_nan => S754_nan
  | S754_zero s, S754_zero _ => if s then y else x
  | _, _ => if flt y x then x else y
  end.

(** The magnitude [m * 2^e] rounded down, and whether something is left. *)
Definition magnitude (m : positive) (e : Z) : Z * bool :=
  if 0 <=? e then (Z.pos m * 2 ^ e, false)
  else (Z.pos m / 2 ^ (- e), negb (Z.pos m mod 2 ^ (- e) =? 0)).

Definition signed (s : bool) (n : Z) : Z := if s then - n else n.

(** [int(f)]: towards zero. *)
Definition to_int (f : float64) : Z :=
  match f with
  | S754_zero _ => 0
  | S754_finite s m e =>
      let n := signed s (magnitude m e).1 in
      if (- 2 ^ 63 <=? n) && (n <? 2 ^ 63) then n else - 2 ^ 63
  | _ => - 2 ^ 63
  end.

(** A float from an integer of known sign, keeping the sign of zero. *)
Definition of_signed (s : bool) (n : Z) : float64 :=
  if n =? 0 then S754_zero s else of_int (signed s n).

Definition fceil (f : float64) : float64 :=
  match f with
  | S754_finite s m e =>
      let '(n, rest) := magnitude m e in
      if s then of_signed true n else of_signed false (if rest then n + 1 else n)
  | _ => f
  end.

(** Half away from zero. *)
Definition fround (f : float64) : float64 :=
  match f with
  | S754_finite s m e =>
      if 0 <=? e then f
      else of_signed s ((2 * Z.pos m + 2 ^ (- e)) / (2 * 2 ^ (- e)))
  | _ => f
  end.

(** [math.Pow] *)
Class MathPow := { math_pow : float64 -> float64 -> float64 }.

(** A power function that is right where the exponent is an integer. *)
Definition integer_pow : MathPow := {|
  math_pow x y :=
    let n := to_int y in
    let p := Nat.iter (Z.to_nat (Z.abs n)) (fmul x) (of_int 1) in
    if 0 <=? n then p else fdiv (of_int 1) p
|}.

(** ** Order *)

Lemma SFcompare_antisym x y : SFcompare y x = CompOpp <$> SFcompare x y.
Proof.
  destruct x as [sx|sx| |sx mx ex], y as [sy|sy| |sy my ey]; simpl; try done;
    try (destruct sx, sy; done); try (by destruct sx); try (by destruct sy).
  destruct sx, sy; try done; rewrite (Z.compare_antisym ex ey);
    destruct (ex ?= ey) eqn:E; simpl; try done;
    by rewrite (Pos.compare_cont_antisym mx my Eq), ?CompOpp_involutive.
Qed.

Lemma SFcompare_not_nan x y :
  is_nan x = false -> is_nan y = false -> is_Some (SFcompare x y).
Proof.
  destruct x as [sx|sx| |sx mx ex], y as [sy|sy| |sy my ey]; simpl; try done; intros _ _;
    try (by destruct sx; eauto); try (by destruct sy; eauto);
    try (by destruct sx, sy; eauto); eauto.
Qed.

(** What is not smaller is at least as large. *)
Lemma flt_false_fle x y :
  is_nan x = false -> is_nan y = false -> flt x y = false -> fle y x = true.
Proof.
  intros Hx Hy. unfold flt, fle, SFltb, SFleb. rewrite (SFcompare_antisym x y).
  destruct (SFcompare_not_nan x y Hx Hy) as [c ->]. by destruct c.
Qed.

Lemma flt_fle x y : flt x y = true -> fle x y = true.
Proof. unfold flt, fle, SFltb, SFleb. by destruct (SFcompare x y) as [[]|]. Qed.

Lemma fle_negb_flt x y :
  is_nan x = false -> is_nan y = false -> fle x y = negb (flt y x).
Proof.
  intros Hx Hy. unfold flt, fle, SFltb, SFleb. rewrite (SFcompare_antisym x y).
  destruct (SFcompare_not_nan x y Hx Hy) as [c ->]. by destruct c.
Qed.

(** Clamping: not a number, or between the bounds. *)
Definition clamp (lo hi x : float64) : float64 := fmax lo (fmin hi x).

Definition in_unit (f : float64) : Prop :=
  f = S754_nan \/ (fle (of_int 0) f = true /\ fle f (of_int 1) = true).

Lemma clamp_unit x : in_unit (clamp (of_int 0) (of_int 1) x).
Proof.
  unfold clamp. set (one := of_int 1). vm_compute in one.
  change (of_int 0) with (S754_zero false). unfold in_unit.
  assert (forall y, is_nan y = false -> fle y one = true -> y <> S754_infinity false ->
    fle (S754_zero false) (fmax (S754_zero false) y) = true /\
    fle (fmax (S754_zero false) y) one = true) as Hmax.
  { intros y Hy H1 Hi. destruct y as [s|[]| |[] m e]; try done. }
  destruct x as [s|[]| |s m e].
  - right. apply Hmax; by destruct s.
  - right. by apply Hmax.
  - right. by apply Hmax.
  - by left.
  - right. unfold fmin, one. fold one. cbn beta iota.
    destruct (flt one (S754_finite s m e)) eqn:E.
    + by apply Hmax.
    + apply Hmax; [done| |done]. by apply flt_false_fle.
Qed.

(** ** Numbers that are not negative *)

Definition nonneg (f : float64) : Prop := is_nan f = false /\ sign_bit f = false.

Lemma digits_log2 m : Zdigits2 m <= Z.log2 m + 1 \/ m <= 0.
Proof.
  destruct m as [|p|p]; [right; lia| |right; lia]. left. simpl Zdigits2.
  assert (digits2_pos p = Pos.size p) as -> by (induction p; simpl; congruence).
  destruct p; simpl; lia.
Qed.

(** The mantissa does not grow under [shr]. *)
Lemma shr_1_bound mrs : 0 <= shr_m mrs -> 0 <= shr_m (shr_1 mrs) <= shr_m mrs.
Proof. destruct mrs as [[|[]|] r s]; simpl; lia. Qed.

Lemma iter_shr_bound p mrs :
  0 <= shr_m mrs -> 0 <= shr_m (iter_pos shr_1 p mrs) <= shr_m mrs.
Proof.
  revert mrs. induction p as [p IH|p IH|]; intros mrs H; simpl.
  - pose proof (shr_1_bound mrs H) as H1.
    pose proof (IH (shr_1 mrs) ltac:(lia)) as H2.
    pose proof (IH (iter_pos shr_1 p (shr_1 mrs)) ltac:(lia)). lia.
  - pose proof (IH mrs H) as H1. pose proof (IH (iter_pos shr_1 p mrs) ltac:(lia)). lia.
  - by apply shr_1_bound.
Qed.

Lemma shr_fexp_bound m e l :
  0 <= m -> let r := shr_fexp 53 1024 m e l in
  0 <= shr_m r.1 <= m /\ (r.2 <= e \/ r.2 <= fexp 53 1024 (Zdigits2 m + e)).
Proof.
  intros Hm. cbv zeta. unfold shr_fexp.
  assert (shr_m (shr_record_of_loc m l) = m) as Hl by (by destruct l as [|[]]).
  unfold shr. destruct (fexp 53 1024 (Zdigits2 m + e) - e) as [|p|p] eqn:En; simpl; rewrite ?Hl;
    [lia| |lia].
  pose proof (iter_shr_bound p (shr_record_of_loc m l)) as Hb. rewrite Hl in Hb.
  specialize (Hb Hm). lia.
Qed.

Lemma round_even_bound m l : m <= round_nearest_even m l <= m + 1.
Proof. unfold round_nearest_even. destruct l as [|[]]; try destruct (Z.even m); lia. Qed.

Lemma round_aux_sign s m e l :
  0 <= m -> is_nan (binary_round_aux 53 1024 s m e l) = false /\
            sign_bit (binary_round_aux 53 1024 s m e l) = s.
Proof.
  intros Hm. unfold binary_round_aux.
  destruct (shr_fexp_bound m e l Hm) as [H1 _]. destruct (shr_fexp 53 1024 m e l) as [r e']. simpl in H1.
  pose proof (round_even_bound (shr_m r) (loc_of_shr_record r)) as Hr.
  set (m' := round_nearest_even _ _) in *.
  destruct (shr_fexp_bound m' e' loc_Exact ltac:(lia)) as [H2 _].
  destruct (shr_fexp 53 1024 m' e' loc_Exact) as [r' e'']. simpl in H2.
  destruct (shr_m r'); [done| |lia]. by destruct (_ <=? _).
Qed.

Lemma fexp_bound d : fexp 53 1024 d <= Z.max (d - 53) (-1074).
Proof. unfold fexp, emin. lia. Qed.

(** A number of at most 64 bits does not overflow. *)
Lemma round_aux_finite s p e :
  Z.pos p < 2 ^ 64 -> e <= 0 ->
  (exists m e', binary_round_aux 53 1024 s (Z.pos p) e loc_Exact = S754_finite s m e') \/
  binary_round_aux 53 1024 s (Z.pos p) e loc_Exact = S754_zero s.
Proof.
  intros Hp He. unfold binary_round_aux.
  destruct (shr_fexp_bound (Z.pos p) e loc_Exact ltac:(lia)) as [H1 E1].
  pose proof (fexp_bound (Zdigits2 (Z.pos p) + e)).
  assert (forall m, 0 <= m <= 2 ^ 64 -> Zdigits2 m <= 65) as Hd.
  { intros m Hm. destruct (digits_log2 m) as [Hl|Hl].
    - pose proof (Z.log2_le_mono m (2 ^ 64) ltac:(lia)) as Hle.
      rewrite Z.log2_pow2 in Hle by lia. lia.
    - assert (m = 0) as -> by lia. simpl. lia. }
  pose proof (Hd (Z.pos p) ltac:(lia)) as D1.
  destruct (shr_fexp 53 1024 (Z.pos p) e loc_Exact) as [r e']. cbn [fst snd] in *.
  pose proof (round_even_bound (shr_m r) (loc_of_shr_record r)) as Hr.
  set (m' := round_nearest_even _ _) in *.
  destruct (shr_fexp_bound m' e' loc_Exact ltac:(lia)) as [H2 E2].
  pose proof (fexp_bound (Zdigits2 m' + e')). pose proof (Hd m' ltac:(lia)) as D2.
  destruct (shr_fexp 53 1024 m' e' loc_Exact) as [r' e'']. cbn [fst snd] in *.
  destruct (shr_m r') as [|q|q]; [by right| |lia]. left.
  rewrite (proj2 (Z.leb_le e'' (1024 - 53))) by lia. eauto.
Qed.

Lemma binary_round_sign s p e :
  is_nan (binary_round 53 1024 s p e) = false /\ sign_bit (binary_round 53 1024 s p e) = s.
Proof. unfold binary_round. destruct (shl_align _ _ _). by apply round_aux_sign. Qed.

Lemma of_int_nonneg n : 0 <= n -> nonneg (of_int n).
Proof.
  unfold of_int, binary_normalize. destruct n; [done| |lia]. intros _. apply binary_round_sign.
Qed.

Lemma shift_pos_value d p : Z.pos (shift_pos d p) = Z.pos p * 2 ^ Z.pos d.
Proof.
  unfold shift_pos. revert p. induction d as [|d IH] using Pos.peano_ind; intros p; [simpl; lia|].
  rewrite Pos.iter_succ, Pos2Z.inj_xO.
  rewrite IH, Pos2Z.inj_succ, Z.pow_succ_r by lia. ring.
Qed.

Lemma of_int_finite n :
  0 < n < 2 ^ 63 -> (exists m e, of_int n = S754_finite false m e) \/ of_int n = S754_zero false.
Proof.
  intros Hn. unfold of_int, binary_normalize. destruct n as [|p|]; [lia| |lia].
  unfold binary_round, shl_align.
  assert (digits2_pos p = Pos.size p) as -> by (clear; induction p; simpl; congruence).
  pose proof (Pos.size_gt p) as Hgt. apply Pos2Z.pos_lt_pos in Hgt.
  rewrite Pos2Z.inj_pow in Hgt. set (d := Z.pos (Pos.size p)) in *.
  assert (1 <= d) by (unfold d; lia).
  assert (fexp 53 1024 (d + 0) = d - 53) as -> by (unfold fexp, emin; lia).
  destruct (d - 53 - 0) as [|k|k] eqn:Ek; try (apply round_aux_finite; lia).
  apply round_aux_finite; [|lia]. fold (shift_pos k p). rewrite shift_pos_value.
  assert (Z.pos k = 53 - d) as -> by lia.
  apply (Z.lt_le_trans _ (2 ^ d * 2 ^ (53 - d))).
  - apply Z.mul_lt_mono_pos_r; [apply Z.pow_pos_nonneg|]; lia.
  - rewrite <- Z.pow_add_r by lia. replace (d + (53 - d)) with 53 by lia. lia.
Qed.

Lemma fadd_nonneg x y : nonneg x -> nonneg y -> nonneg (fadd x y).
Proof.
  unfold nonneg, fadd. destruct x as [[]|[]| |[] mx ex], y as [[]|[]| |[] my ey]; 
    intros [? ?] [? ?]; try done. apply binary_round_sign.
Qed.

Lemma fmul_nonneg m e y : nonneg y -> nonneg (fmul (S754_finite false m e) y).
Proof.
  unfold nonneg, fmul. destruct y as [[]|[]| |[] my ey]; intros [? ?]; try done.
  by apply round_aux_sign.
Qed.

Lemma fdiv_nonneg m e y : nonneg y -> nonneg (fdiv (S754_finite false m e) y).
Proof.
  unfold nonneg, fdiv. destruct y as [[]|[]| |[] my ey]; intros [? ?]; try done.
  cbn [SFdiv]. unfold SFdiv_core_binary. set (m' := match _ - _ - _ with Z0 => _ | _ => _ end).
  assert (0 <= m') as Hm.
  { unfold m'. destruct (_ - _ - _); [lia| |lia]. apply Z.shiftl_nonneg. lia. }
  pose proof (Z_div_mod m' (Z.pos my) ltac:(lia)) as Hd.
  destruct (Z.div_eucl m' (Z.pos my)) as [q r]. apply round_aux_sign. nia.
Qed.

Lemma fmin_nonneg x y : nonneg x -> nonneg y -> nonneg (fmin x y).
Proof.
  unfold nonneg. destruct x as [[]|[]| |[] mx ex], y as [[]|[]| |[] my ey];
    cbn [is_nan sign_bit]; try (intros [? ?] [? ?]; done); intros _ _; unfold fmin;
    try done; by destruct (flt _ _).
Qed.

(** A number that is not negative is clamped to the unit interval, and stays a number. *)
Lemma clamp_nonneg x :
  nonneg x -> let c := clamp (of_int 0) (of_int 1) x in
  is_nan c = false /\ fle (of_int 0) c = true /\ fle c (of_int 1) = true.
Proof.
  intros Hx. cbv zeta. assert (is_nan (clamp (of_int 0) (of_int 1) x) = false) as Hn.
  { unfold clamp. destruct (fmin_nonneg (of_int 1) x) as [Hm Hs]; [by apply of_int_nonneg|done|].
    unfold fmax. change (of_int 0) with (S754_zero false).
    destruct (fmin (of_int 1) x) as [[]|[]| |[] m e]; try done; by destruct (flt _ _). }
  split; [done|]. destruct (clamp_unit x) as [E|E]; [by rewrite E in Hn|done].
Qed.
