(* ===== verification/Ratings.v ===== *)
(** * Ratings and tiers ([internal/swarm/elo.go], [elo_auto_tier.go], [role_elo.go])

    Elo scores of agents and of (role, repository) pairs, their tiers, the decay of
    inactive roles and the history.  Scores are [float64]; [math.Pow] is a parameter,
    because its last bits depend on the implementation.  A statement fails when the next
    entry of [el_faults] is [true]; a failed statement changes nothing.  The JSON detail
    of a history entry, the metrics and the id in an error text are left out. *)

From Stdlib Require Import ZArith Lia Ascii String SpecFloat.
From stdpp Require Import base list gmap strings sorting.
From S2P Require Import Prelude GoStrings SwarmDb GoFloat.
Local Open Scope string_scope.
Local Open Scope Z_scope.

(** ** Constants *)

Definition DefaultELO : float64 := of_int 1200.
Definition KFactor : float64 := of_int 32.
Definition PromotionThreshold : float64 := of_int 1400.
Definition DemotionThreshold : float64 := of_int 1000.
Definition MinRatedTasks : Z := 5.
Definition TierStandard := "standard".
Definition TierExpert := "expert".
Definition TierRestricted := "restricted".
Definition RoleELODefault : float64 := of_int 1200.
Definition RoleELOKFactor : float64 := of_int 32.
Definition RoleELODecayPerDay : float64 := of_int 2.
Definition RoleELOFloor : float64 := of_int 1100.
Definition RoleELOExpertMin : float64 := of_int 1400.
Definition RoleELORestrictMin : float64 := of_int 1000.
Definition WeightHumanRating : float64 := lit 40 100.
Definition WeightConsensusQuality : float64 := lit 35 100.
Definition WeightAutoMetrics : float64 := lit 25 100.

Definition hour : Z := 60 * minute.

(** ** Data *)

(** [HumanRating = 0]: not rated. *)
Record TaskOutcome := {
  to_TaskID : string;
  to_HumanRating : Z;
  to_ConsensusConf : float64;
  to_ConsensusStrategy : string;
  to_TestsPassed : bool;
  to_PRAccepted : bool;
  to_BuildSuccess : bool;
  to_ConsensusWin : bool
}.

(** A row of [swarm_role_elo]; its role and repository are the key. *)
Record RoleELO := {
  re_ELOScore : float64;
  re_Tier : string;
  re_TasksDone : Z;
  re_TasksRated : Z;
  re_AvgRating : float64;
  re_Wins : Z;
  re_Losses : Z;
  re_ConsensusAvg : float64;
  re_BestStrategy : string;
  re_TrainingProbes : Z;
  re_LastActive : Z;
  re_CreatedAt : Z;
  re_UpdatedAt : Z
}.

Record RoleELOHistory := {
  rh_Role : string;
  rh_RepoID : string;
  rh_TaskID : string;
  rh_EventType : string;
  rh_OldELO : float64;
  rh_NewELO : float64;
  rh_Delta : float64;
  rh_CreatedAt : Z
}.

(** The rating columns of [swarm_agents]; a NULL tier is read as "standard". *)
Record RatedAgent := {
  ra_Status : string;
  ra_ELOScore : float64;
  ra_TasksDone : Z;
  ra_TasksRated : Z;
  ra_AvgRating : float64;
  ra_Tier : string
}.

Record EloWorld := {
  el_roles : gmap (string * string) RoleELO;
  el_history : list RoleELOHistory;
  el_agents : gmap UUID RatedAgent;
  el_faults : list bool
}.

Definition set_roles (f : gmap (string * string) RoleELO -> gmap (string * string) RoleELO)
    (w : EloWorld) : EloWorld :=
  {| el_roles := f (el_roles w); el_history := el_history w; el_agents := el_agents w;
     el_faults := el_faults w |}.
Definition add_history (x : RoleELOHistory) (w : EloWorld) : EloWorld :=
  {| el_roles := el_roles w; el_history := (el_history w ++ [x])%list;
     el_agents := el_agents w; el_faults := el_faults w |}.
Definition set_rated (f : gmap UUID RatedAgent -> gmap UUID RatedAgent) (w : EloWorld)
    : EloWorld :=
  {| el_roles := el_roles w; el_history := el_history w; el_agents := f (el_agents w);
     el_faults := el_faults w |}.

(** ** Statements *)

Definition E (A : Type) : Type := EloWorld -> A * EloWorld.
#[export] Instance E_ret : MRet E := fun A a w => (a, w).
#[export] Instance E_bind : MBind E := fun A B f m w => let '(a, w') := m w in f a w'.

(** Whether the next statement fails, and the state it runs in. *)
Definition next_fault (w : EloWorld) : bool * EloWorld :=
  (match el_faults w with b :: _ => b | [] => false end,
   {| el_roles := el_roles w; el_history := el_history w; el_agents := el_agents w;
      el_faults := tail (el_faults w) |}).

Definition elo_exec (f : EloWorld -> EloWorld) : E (option string) := fun w =>
  let '(b, w) := next_fault w in
  if b then (Some "statement failed", w) else (None, f w).
Definition elo_query {A} (f : EloWorld -> A) : E (result A string) := fun w =>
  let '(b, w) := next_fault w in
  (if b then Err "statement failed" else Ok (f w), w).

Section ratings.
Context `{RowOrder} `{MathPow}.

(** ** [ELOService] *)

(** The expected score against the baseline. *)
Definition expected_score (base current : float64) : float64 :=
  fdiv (of_int 1)
    (fadd (of_int 1) (math_pow (of_int 10) (fdiv (fsub base current) (of_int 400)))).

(** A rating from 1 to 5 as a score from 0 to 1. *)
Definition rating_score (rating : Z) : float64 := fdiv (of_int (rating - 1)) (of_int 4).

(** The new score and average. *)
Definition feedback (rating : Z) (a : RatedAgent) : float64 * float64 :=
  let actual := rating_score rating in
  let expected := expected_score DefaultELO (ra_ELOScore a) in
  let newELO := fadd (ra_ELOScore a) (fmul KFactor (fsub actual expected)) in
  let newAvg := fdiv (fadd (fmul (ra_AvgRating a) (of_int (ra_TasksRated a))) (of_int rating))
                     (of_int (ra_TasksRated a + 1)) in
  (newELO, newAvg).

(** [SET elo_score = $1, tasks_rated = tasks_rated + 1, avg_rating = $2] *)
Definition with_rating (new : float64 * float64) (a : RatedAgent) : RatedAgent :=
  {| ra_Status := ra_Status a; ra_ELOScore := new.1; ra_TasksDone := ra_TasksDone a;
     ra_TasksRated := ra_TasksRated a + 1; ra_AvgRating := new.2; ra_Tier := ra_Tier a |}.

Definition RecordFeedback (agentID : UUID) (rating : Z) : E (option string) :=
  r ← elo_query (fun w => el_agents w !! agentID);
  match r with
  | Ok (Some a) =>
      err ← elo_exec (set_rated (alter (fun row => with_rating (feedback rating a) row) agentID));
      match err with
      | Some e => mret (Some ("updating ELO for agent: " ++ e))
      | None => mret None
      end
  | Ok None => mret (Some "fetching agent for ELO: no rows in result set")
  | Err e => mret (Some ("fetching agent for ELO: " ++ e))
  end.

Definition IncrementTasksDone (agentID : UUID) : E (option string) :=
  elo_exec (set_rated (alter (fun a =>
    {| ra_Status := ra_Status a; ra_ELOScore := ra_ELOScore a;
       ra_TasksDone := ra_TasksDone a + 1; ra_TasksRated := ra_TasksRated a;
       ra_AvgRating := ra_AvgRating a; ra_Tier := ra_Tier a |}) agentID)).

(** ** [ELOAutoTierService] *)

Definition new_tier (eloScore : float64) (currentTier : string) : string :=
  if fle PromotionThreshold eloScore && negb (String.eqb currentTier TierExpert)
  then TierExpert
  else if fle eloScore DemotionThreshold && negb (String.eqb currentTier TierRestricted)
  then TierRestricted
  else if flt DemotionThreshold eloScore && flt eloScore PromotionThreshold
          && negb (String.eqb currentTier TierStandard)
  then TierStandard else currentTier.

Definition set_tier (tier : string) (a : RatedAgent) : RatedAgent :=
  {| ra_Status := ra_Status a; ra_ELOScore := ra_ELOScore a; ra_TasksDone := ra_TasksDone a;
     ra_TasksRated := ra_TasksRated a; ra_AvgRating := ra_AvgRating a; ra_Tier := tier |}.

Definition reviewed (a : RatedAgent) : bool :=
  (MinRatedTasks <=? ra_TasksRated a) && negb (String.eqb (ra_Status a) "offline").

Definition review_row (agentID : UUID) (a : RatedAgent) : E unit :=
  let tier := new_tier (ra_ELOScore a) (ra_Tier a) in
  if negb (String.eqb tier (ra_Tier a))
  then elo_exec (set_rated (alter (set_tier tier) agentID));; mret tt
  else mret tt.

Fixpoint review_rows (rows : list (UUID * RatedAgent)) : E unit :=
  match rows with
  | [] => mret tt
  | (agentID, a) :: rows => review_row agentID a;; review_rows rows
  end.

Definition reviewTiers : E unit :=
  rows ← elo_query (fun w => select (fun _ a => reviewed a) (el_agents w));
  match rows with
  | Err _ => mret tt
  | Ok rows => review_rows rows
  end.

Definition GetAgentTier (agentID : UUID) : E string :=
  r ← elo_query (fun w => ra_Tier <$> el_agents w !! agentID);
  match r with Ok (Some tier) => mret tier | _ => mret TierStandard end.

(** ** [RoleELOService] *)

Definition fetchRoleELO (role repoID : string) : E (result (option RoleELO) string) :=
  r ← elo_query (fun w => el_roles w !! (role, repoID));
  match r with
  | Err e => mret (Err ("fetching role ELO for " ++ role ++ "/" ++ repoID ++ ": " ++ e))
  | Ok o => mret (Ok o)
  end.

Definition default_role (now : Z) : RoleELO :=
  {| re_ELOScore := RoleELODefault; re_Tier := TierStandard; re_TasksDone := 0;
     re_TasksRated := 0; re_AvgRating := of_int 0; re_Wins := 0; re_Losses := 0;
     re_ConsensusAvg := of_int 0; re_BestStrategy := ""; re_TrainingProbes := 0;
     re_LastActive := now; re_CreatedAt := now; re_UpdatedAt := now |}.

(** [INSERT ... ON CONFLICT (role, repo_id) DO NOTHING] *)
Definition insert_default (role repoID : string) (now : Z)
    (m : gmap (string * string) RoleELO) : gmap (string * string) RoleELO :=
  match m !! (role, repoID) with
  | Some _ => m
  | None => <[(role, repoID) := default_role now]> m
  end.

Definition GetRoleELO (now : Z) (role repoID : string) : E (result (option RoleELO) string) :=
  r ← fetchRoleELO role repoID;
  match r with
  | Err e => mret (Err e)
  | Ok (Some re) => mret (Ok (Some re))
  | Ok None =>
      err ← elo_exec (set_roles (insert_default role repoID now));
      match err with
      | Some e => mret (Err ("creating role ELO for " ++ role ++ "/" ++ repoID ++ ": " ++ e))
      | None => fetchRoleELO role repoID
      end
  end.

Definition count_true (l : list bool) : Z := Z.of_nat (List.length (List.filter id l)).

(** Sums of ones are exact, so [autoScore] is the float of the count. *)
Definition computeCompositeScore (o : TaskOutcome) : float64 :=
  let zero := of_int 0 in
  let '(score, weight) :=
    if 0 <? to_HumanRating o
    then (fadd zero (fmul WeightHumanRating (rating_score (to_HumanRating o))),
          fadd zero WeightHumanRating)
    else (zero, zero) in
  let '(score, weight) :=
    if flt zero (to_ConsensusConf o) then
      let consScore := if to_ConsensusWin o
                       then fmin (of_int 1) (fmul (to_ConsensusConf o) (lit 12 10))
                       else to_ConsensusConf o in
      (fadd score (fmul WeightConsensusQuality consScore), fadd weight WeightConsensusQuality)
    else (score, weight) in
  let autoCount := count_true [to_TestsPassed o; to_PRAccepted o; to_BuildSuccess o] in
  let autoScore := of_int autoCount in
  let '(score, weight) :=
    if 0 <? autoCount then
      let autoNorm := fdiv autoScore (of_int autoCount) in
      (fadd score (fmul WeightAutoMetrics autoNorm), fadd weight WeightAutoMetrics)
    else (score, weight) in
  if feq weight zero then lit 5 10 else fdiv score weight.

(** The tier both updates of a role's score give it. *)
Definition role_tier (newELO : float64) : string :=
  if fle RoleELOExpertMin newELO then TierExpert
  else if fle newELO RoleELORestrictMin then TierRestricted
  else TierStandard.

Definition floored (newELO : float64) : float64 :=
  if flt newELO RoleELOFloor then RoleELOFloor else newELO.

(** The new row. *)
Definition rewarded (now : Z) (o : TaskOutcome) (re : RoleELO) : RoleELO :=
  let actual := computeCompositeScore o in
  let expected := expected_score RoleELODefault (re_ELOScore re) in
  let newELO := floored (fadd (re_ELOScore re) (fmul RoleELOKFactor (fsub actual expected))) in
  let newTier := role_tier newELO in
  let rated := 0 <? to_HumanRating o in
  let newTasksRated := if rated then re_TasksRated re + 1 else re_TasksRated re in
  let seen := flt (of_int 0) (to_ConsensusConf o) in
  let total := re_Wins re + re_Losses re in
  {| re_ELOScore := newELO;
     re_Tier := newTier;
     re_TasksDone := re_TasksDone re + 1;
     re_TasksRated := newTasksRated;
     re_AvgRating :=
       if rated
       then fdiv (fadd (fmul (re_AvgRating re) (of_int (re_TasksRated re)))
                       (of_int (to_HumanRating o))) (of_int newTasksRated)
       else re_AvgRating re;
     re_Wins := if to_ConsensusWin o then re_Wins re + 1 else re_Wins re;
     re_Losses := if negb (to_ConsensusWin o) && seen then re_Losses re + 1 else re_Losses re;
     re_ConsensusAvg :=
       if seen then
         if 0 <? total
         then fdiv (fadd (fmul (re_ConsensusAvg re) (of_int total)) (to_ConsensusConf o))
                   (of_int (total + 1))
         else to_ConsensusConf o
       else re_ConsensusAvg re;
     re_BestStrategy :=
       if negb (String.eqb (to_ConsensusStrategy o) "") && flt (lit 7 10) (to_ConsensusConf o)
       then to_ConsensusStrategy o else re_BestStrategy re;
     re_TrainingProbes :=
       if String.eqb newTier TierRestricted then re_TrainingProbes re + 1
       else re_TrainingProbes re;
     re_LastActive := now; re_CreatedAt := re_CreatedAt re; re_UpdatedAt := now |}.

Definition event_type (o : TaskOutcome) : string :=
  if flt (of_int 0) (to_ConsensusConf o) then "consensus"
  else if to_HumanRating o =? 0 then "auto_metric" else "rating".

Definition history_entry (now : Z) (role repoID taskID event : string) (old new : float64)
    : RoleELOHistory :=
  {| rh_Role := role; rh_RepoID := repoID; rh_TaskID := taskID; rh_EventType := event;
     rh_OldELO := old; rh_NewELO := new; rh_Delta := fsub new old; rh_CreatedAt := now |}.

Definition appendHistory (x : RoleELOHistory) : E unit :=
  elo_exec (add_history x);; mret tt.

(** [GetRoleELO] returns no nil record without an error: the row it inserted or
    found is there. *)
Definition RecordRoleOutcome (now : Z) (role repoID : string) (outcome : TaskOutcome)
    : E (option string) :=
  r ← GetRoleELO now role repoID;
  match r with
  | Err e => mret (Some e)
  | Ok None => mret (Some "nil dereference")
  | Ok (Some re) =>
      let row := rewarded now outcome re in
      err ← elo_exec (set_roles (alter (fun _ => row) (role, repoID)));
      match err with
      | Some e => mret (Some ("updating role ELO for " ++ role ++ "/" ++ repoID ++ ": " ++ e))
      | None =>
          appendHistory (history_entry now role repoID (to_TaskID outcome)
            (event_type outcome) (re_ELOScore re) (re_ELOScore row));;
          mret None
      end
  end.

(** *** Decay *)

(** [Duration.Hours() / 24] *)
Definition days (d : Z) : float64 :=
  fdiv (fadd (of_int (Z.quot d hour)) (fdiv (of_int (Z.rem d hour)) (of_int hour))) (of_int 24).

Definition decay_candidates (now : Z) (w : EloWorld) : list ((string * string) * RoleELO) :=
  row_order (base.filter (fun kv => (re_LastActive kv.2 <? now - 24 * hour)
                                    && flt RoleELOFloor (re_ELOScore kv.2) = true)
                         (map_to_list (el_roles w))).

Definition decayed_score (now : Z) (re : RoleELO) : float64 :=
  floored (fsub (re_ELOScore re) (fmul RoleELODecayPerDay (days (now - re_LastActive re)))).

Definition set_score (now : Z) (score : float64) (re : RoleELO) : RoleELO :=
  {| re_ELOScore := score; re_Tier := role_tier score; re_TasksDone := re_TasksDone re;
     re_TasksRated := re_TasksRated re; re_AvgRating := re_AvgRating re;
     re_Wins := re_Wins re; re_Losses := re_Losses re; re_ConsensusAvg := re_ConsensusAvg re;
     re_BestStrategy := re_BestStrategy re; re_TrainingProbes := re_TrainingProbes re;
     re_LastActive := re_LastActive re; re_CreatedAt := re_CreatedAt re;
     re_UpdatedAt := now |}.

Fixpoint decay_rows (now : Z) (rows : list ((string * string) * RoleELO)) (decayed : Z)
    : E Z :=
  match rows with
  | [] => mret decayed
  | ((role, repoID), re) :: rows =>
      if flt (days (now - re_LastActive re)) (of_int 1) then decay_rows now rows decayed
      else
        let newELO := decayed_score now re in
        err ← elo_exec (set_roles (alter (set_score now newELO) (role, repoID)));
        match err with
        | Some _ => decay_rows now rows decayed
        | None =>
            appendHistory (history_entry now role repoID "" "decay" (re_ELOScore re) newELO);;
            decay_rows now rows (decayed + 1)
        end
  end.

Definition ApplyDecay (now : Z) : E (result Z string) :=
  rows ← elo_query (decay_candidates now);
  match rows with
  | Err e => mret (Err ("querying decay candidates: " ++ e))
  | Ok rows => n ← decay_rows now rows 0; mret (Ok n)
  end.

(** *** Queries *)

(** [ORDER BY elo_score DESC] *)
Definition by_score (l : list ((string * string) * RoleELO)) : list ((string * string) * RoleELO) :=
  merge_sort (fun x y => Is_true (fle (re_ELOScore y.2) (re_ELOScore x.2))) l.

Definition ListRoleELOs (repoID : string) (limit : Z)
    : E (result (list ((string * string) * RoleELO)) string) :=
  let limit := if limit <=? 0 then 50 else limit in
  elo_query (fun w => take (Z.to_nat limit) (by_score (row_order
    (List.filter (fun kv => String.eqb repoID "" || String.eqb kv.1.2 repoID)
                 (map_to_list (el_roles w)))))).

Definition GetRoleELOHistory (role repoID : string) (limit : Z)
    : E (result (list RoleELOHistory) string) :=
  let limit := if limit <=? 0 then 50 else limit in
  elo_query (fun w => take (Z.to_nat limit) (order_by (fun x => - rh_CreatedAt x) (row_order
    (List.filter (fun x => String.eqb (rh_Role x) role && String.eqb (rh_RepoID x) repoID)
                 (el_history w))))).

Definition TierForRole (role repoID : string) : E (string * float64) :=
  r ← elo_query (fun w => el_roles w !! (role, repoID));
  match r with
  | Ok (Some re) => mret (re_Tier re, re_ELOScore re)
  | _ => mret (TierStandard, RoleELODefault)
  end.

Definition ProbeCountForTier (tier : string) : Z :=
  if String.eqb tier TierRestricted then 5
  else if String.eqb tier TierExpert then 2 else 3.

(** ** Operations that change the tables *)

Inductive RatingOp :=
  | OpGetRole (now : Z) (role repoID : string)
  | OpOutcome (now : Z) (role repoID : string) (o : TaskOutcome)
  | OpDecay (now : Z)
  | OpFeedback (agentID : UUID) (rating : Z)
  | OpTaskDone (agentID : UUID)
  | OpReviewTiers.

Definition run_op (op : RatingOp) (w : EloWorld) : EloWorld :=
  match op with
  | OpGetRole now role repoID => (GetRoleELO now role repoID w).2
  | OpOutcome now role repoID o => (RecordRoleOutcome now role repoID o w).2
  | OpDecay now => (ApplyDecay now w).2
  | OpFeedback agentID rating => (RecordFeedback agentID rating w).2
  | OpTaskDone agentID => (IncrementTasksDone agentID w).2
  | OpReviewTiers => (reviewTiers w).2
  end.

(** ** Rows of the role table *)

Record role_ok (re : RoleELO) : Prop := {
  ok_floor : flt (re_ELOScore re) RoleELOFloor = false;
  ok_tier : re_Tier re = role_tier (re_ELOScore re);
  ok_probes : re_TrainingProbes re = 0;
  ok_rated : 0 <= re_TasksRated re <= re_TasksDone re;
  ok_wins : 0 <= re_Wins re;
  ok_losses : 0 <= re_Losses re;
  ok_games : re_Wins re + re_Losses re <= re_TasksDone re
}.

Definition roles_ok (w : EloWorld) : Prop := map_Forall (fun _ re => role_ok re) (el_roles w).

(** [m] keeps the rows, and its result satisfies [Q]. *)
Definition roles_kept {A} (m : E A) (Q : A -> Prop) : Prop :=
  forall w, roles_ok w -> Q (m w).1 /\ roles_ok (m w).2.

Lemma roles_kept_ret {A} (a : A) (Q : A -> Prop) : Q a -> roles_kept (mret a) Q.
Proof. by intros Ha w Hw. Qed.

Lemma roles_kept_bind {A B} (m : E A) (f : A -> E B) P Q :
  roles_kept m P -> (forall a, P a -> roles_kept (f a) Q) -> roles_kept (m ≫= f) Q.
Proof.
  intros Hm Hf w Hw. unfold mbind, E_bind. destruct (Hm w Hw) as [Ha Hw'].
  destruct (m w) as [a w']. by apply Hf.
Qed.

Lemma roles_kept_weaken {A} (m : E A) (P Q : A -> Prop) :
  roles_kept m P -> (forall a, P a -> Q a) -> roles_kept m Q.
Proof. intros Hm HPQ w Hw. destruct (Hm w Hw). eauto. Qed.

Lemma roles_kept_exec f Q :
  (forall w, roles_ok w -> roles_ok (f w)) -> Q None -> Q (Some "statement failed") ->
  roles_kept (elo_exec f) Q.
Proof.
  intros Hf Hn Hs w Hw. unfold elo_exec, next_fault.
  destruct (el_faults w) as [|[] l]; simpl; split; auto.
Qed.

Lemma roles_kept_query {A} (f : EloWorld -> A) (Q : result A string -> Prop) :
  (forall w, roles_ok w -> Q (Ok (f w))) -> (forall e, Q (Err e)) -> roles_kept (elo_query f) Q.
Proof.
  intros Hf He w Hw. unfold elo_query, next_fault.
  destruct (el_faults w) as [|[] l]; simpl; split; auto; by apply Hf.
Qed.

(** A score of at most 1000 is below 1100. *)
Lemma restricted_below_floor x : fle x RoleELORestrictMin = true -> flt x RoleELOFloor = true.
Proof.
  assert (RoleELORestrictMin = S754_finite false 8796093022208000 (-43)) as -> by by vm_compute.
  assert (RoleELOFloor = S754_finite false 4837851162214400 (-42)) as -> by by vm_compute.
  unfold fle, flt, SFleb, SFltb. destruct x as [[]|[]| |[] m e]; cbn [SFcompare]; try done.
  intros Hle. assert (e < -42) as ->%Z.compare_lt_iff; [|done].
  destruct (Z.compare_spec e (-43)); [lia..|discriminate Hle].
Qed.

Lemma above_floor_tier x : flt x RoleELOFloor = false -> role_tier x <> TierRestricted.
Proof.
  intros Hx. unfold role_tier. destruct (fle RoleELOExpertMin x); [done|].
  destruct (fle x RoleELORestrictMin) eqn:E; [|done].
  apply restricted_below_floor in E. congruence.
Qed.

Lemma floored_above x : flt (floored x) RoleELOFloor = false.
Proof. unfold floored. destruct (flt x RoleELOFloor) eqn:E; [by vm_compute|done]. Qed.

Lemma default_role_ok now : role_ok (default_role now).
Proof. by split. Qed.

Lemma rewarded_ok now o re : role_ok re -> role_ok (rewarded now o re).
Proof.
  intros [Hf Ht Hp Hr Hw Hl Hg]. unfold rewarded. set (new := floored _).
  assert (flt new RoleELOFloor = false) as Hnew by apply floored_above.
  destruct (String.eqb_spec (role_tier new) TierRestricted) as [E|_];
    [by apply above_floor_tier in E|].
  split; simpl; try done; clear new Hnew.
  - destruct (0 <? to_HumanRating o); lia.
  - destruct (to_ConsensusWin o); lia.
  - destruct (_ && _); lia.
  - destruct (to_ConsensusWin o); cbn; [lia|].
    destruct (flt (S754_zero false) (to_ConsensusConf o)); lia.
Qed.

Lemma set_score_ok now re0 re : role_ok re -> role_ok (set_score now (decayed_score now re0) re).
Proof. intros []. split; simpl; try done. apply floored_above. Qed.

Lemma roles_ok_alter f key w :
  (forall re, role_ok re -> role_ok (f re)) -> roles_ok w ->
  roles_ok (set_roles (alter f key) w).
Proof.
  intros Hf Hw k re. cbn. destruct (decide (key = k)) as [->|].
  - rewrite lookup_alter_eq. intros (re0 & Hre & ->)%fmap_Some. eauto.
  - rewrite lookup_alter_ne by done. apply Hw.
Qed.

Lemma roles_ok_insert_default role repoID now w :
  roles_ok w -> roles_ok (set_roles (insert_default role repoID now) w).
Proof.
  intros Hw. unfold roles_ok. cbn. unfold insert_default.
  destruct (el_roles w !! _); [done|]. by apply map_Forall_insert_2; [apply default_role_ok|].
Qed.

Definition result_ok (r : result (option RoleELO) string) : Prop :=
  forall re, r = Ok (Some re) -> role_ok re.

Lemma fetchRoleELO_kept role repoID : roles_kept (fetchRoleELO role repoID) result_ok.
Proof.
  eapply roles_kept_bind.
  - apply (roles_kept_query _ result_ok); [|by intros e re].
    intros w Hw re [= Hre]. by apply Hw in Hre.
  - intros [o|e] Ho; by apply roles_kept_ret.
Qed.

Lemma GetRoleELO_kept now role repoID : roles_kept (GetRoleELO now role repoID) result_ok.
Proof.
  eapply roles_kept_bind; [apply fetchRoleELO_kept|]. intros [[re|]|e] Hr.
  - by apply roles_kept_ret.
  - eapply (roles_kept_bind _ _ (fun _ => True)).
    + apply roles_kept_exec; [|done..]. intros w. apply roles_ok_insert_default.
    + intros [e|] _; [by apply roles_kept_ret|apply fetchRoleELO_kept].
  - by apply roles_kept_ret.
Qed.

Lemma appendHistory_kept x : roles_kept (appendHistory x) (fun _ => True).
Proof.
  eapply (roles_kept_bind _ _ (fun _ => True)); [by apply roles_kept_exec|].
  intros ? _. by apply roles_kept_ret.
Qed.

Lemma RecordRoleOutcome_kept now role repoID o :
  roles_kept (RecordRoleOutcome now role repoID o) (fun _ => True).
Proof.
  eapply roles_kept_bind; [apply GetRoleELO_kept|].
  intros [[re|]|e] Hr; [|by apply roles_kept_ret..].
  eapply (roles_kept_bind _ _ (fun _ => True)).
  - apply roles_kept_exec; [|done..]. intros w. apply roles_ok_alter. intros _ _.
    by apply rewarded_ok, Hr.
  - intros [e|] _; [by apply roles_kept_ret|].
    eapply roles_kept_bind; [apply appendHistory_kept|]. intros ? _. by apply roles_kept_ret.
Qed.

Lemma decay_rows_kept now rows n : roles_kept (decay_rows now rows n) (fun _ => True).
Proof.
  revert n. induction rows as [|[[role repoID] re] rows IH]; intros n; [by apply roles_kept_ret|].
  simpl. destruct (flt _ _); [done|].
  eapply (roles_kept_bind _ _ (fun _ => True)).
  - apply roles_kept_exec; [|done..]. intros w. apply roles_ok_alter.
    intros re'. apply set_score_ok.
  - intros [e|] _; [done|].
    eapply roles_kept_bind; [apply appendHistory_kept|]. intros ? _. apply IH.
Qed.

Lemma ApplyDecay_kept now : roles_kept (ApplyDecay now) (fun _ => True).
Proof.
  eapply (roles_kept_bind _ _ (fun _ => True)); [by apply roles_kept_query|].
  intros [rows|e] _; [|by apply roles_kept_ret].
  eapply roles_kept_bind; [apply decay_rows_kept|]. intros n _. by apply roles_kept_ret.
Qed.

(** Statements on the agents. *)
Lemma roles_kept_rated f Q :
  Q None -> Q (Some "statement failed") -> roles_kept (elo_exec (set_rated f)) Q.
Proof. intros. by apply roles_kept_exec. Qed.

Lemma RecordFeedback_kept agentID rating :
  roles_kept (RecordFeedback agentID rating) (fun _ => True).
Proof.
  eapply (roles_kept_bind _ _ (fun _ => True)); [by apply roles_kept_query|].
  intros [[a|]|e] _; [|by apply roles_kept_ret..].
  eapply (roles_kept_bind _ _ (fun _ => True)); [by apply roles_kept_rated|].
  intros [e|] _; by apply roles_kept_ret.
Qed.

Lemma review_rows_kept rows : roles_kept (review_rows rows) (fun _ => True).
Proof.
  induction rows as [|[id a] rows IH]; [by apply roles_kept_ret|].
  cbn [review_rows]. unfold review_row.
  eapply (roles_kept_bind _ _ (fun _ => True)); [|by intros ? _].
  destruct (negb _); [|by apply roles_kept_ret].
  eapply (roles_kept_bind _ _ (fun _ => True)); [by apply roles_kept_rated|].
  intros ? _. by apply roles_kept_ret.
Qed.

Lemma run_op_roles_ok op w : roles_ok w -> roles_ok (run_op op w).
Proof.
  destruct op; intros Hw; simpl.
  - by apply GetRoleELO_kept.
  - by apply RecordRoleOutcome_kept.
  - by apply ApplyDecay_kept.
  - by apply RecordFeedback_kept.
  - refine (proj2 (roles_kept_rated _ (fun _ => True) I I w Hw)).
  - refine (proj2 (roles_kept_bind _ _ (fun _ => True) (fun _ => True) _ _ w Hw)).
    + by apply roles_kept_query.
    + intros [rows|e] _; [apply review_rows_kept|by apply roles_kept_ret].
Qed.

(** Whatever operations run, whichever statements fail, every row of the role table
    roles_kept a score that is not below the floor, the tier of its score, which is never
    "restricted", no training probes, and counters that add up: at most as many rated tasks,
    and at most as many wins and losses together, as tasks.  So no role gets the five probes
    of the restricted tier. *)
Theorem role_table_invariant ops w key re :
  roles_ok w ->
  el_roles (fold_left (fun w op => run_op op w) ops w) !! key = Some re ->
  role_ok re /\ re_Tier re <> TierRestricted /\ ProbeCountForTier (re_Tier re) <> 5.
Proof.
  intros Hw Hre.
  assert (roles_ok (fold_left (fun w op => run_op op w) ops w)) as Hok.
  { clear Hre. revert w Hw. induction ops as [|op ops IH]; [done|]. intros w Hw.
    by apply IH, run_op_roles_ok. }
  specialize (Hok key re Hre). assert (re_Tier re <> TierRestricted) as Htier.
  { rewrite (ok_tier re Hok). apply above_floor_tier, (ok_floor re Hok). }
  split_and!; try done. unfold ProbeCountForTier. apply String.eqb_neq in Htier as ->.
  by destruct (String.eqb _ _).
Qed.

(** ** Reward *)

Definition with_auto (tests pr build : bool) (o : TaskOutcome) : TaskOutcome :=
  {| to_TaskID := to_TaskID o; to_HumanRating := to_HumanRating o;
     to_ConsensusConf := to_ConsensusConf o; to_ConsensusStrategy := to_ConsensusStrategy o;
     to_TestsPassed := tests; to_PRAccepted := pr; to_BuildSuccess := build;
     to_ConsensusWin := to_ConsensusWin o |}.

(** One positive automatic signal counts as much as all three: the composite score of
    a task whose tests passed, whose pull request was accepted or whose build succeeded does
    not depend on which of the three hold, so a failed signal lowers no score. *)
Theorem composite_auto_all_or_nothing tests pr build o :
  tests || pr || build = true ->
  computeCompositeScore (with_auto tests pr build o) =
  computeCompositeScore (with_auto true true true o).
Proof.
  assert (forall n, n ∈ [1; 2; 3] -> fdiv (of_int n) (of_int n) = of_int 1) as Hone.
  { apply Forall_forall. repeat constructor. }
  assert (forall t p b, t || p || b = true ->
    0 <? count_true [t; p; b] = true /\ count_true [t; p; b] ∈ [1; 2; 3]) as Hcount.
  { intros [] [] []; try done; intros _; split; try done; set_solver. }
  intros Ht. destruct (Hcount _ _ _ Ht) as [Hp He].
  destruct (Hcount true true true eq_refl) as [Hp1 He1].
  unfold computeCompositeScore. cbn [with_auto to_HumanRating to_ConsensusConf to_ConsensusWin
    to_TestsPassed to_PRAccepted to_BuildSuccess].
  by rewrite Hp, Hp1, (Hone _ He), (Hone _ He1).
Qed.

(** ** Recording an outcome *)

Lemma alter_const `{Countable K} {A} (y : A) k (m : gmap K A) x :
  m !! k = Some x -> alter (fun _ => y) k m = <[k := y]> m.
Proof.
  intros Hk. apply map_eq. intros j. destruct (decide (k = j)) as [<-|].
  - by rewrite lookup_alter_eq, lookup_insert_eq, Hk.
  - by rewrite lookup_alter_ne, lookup_insert_ne.
Qed.

(** When no statement fails, an outcome creates the row of its role where there is
    none, replaces it by the rewarded row and appends one entry to the history, from the old
    score to the new; other roles and the agents stay as they are. *)
Lemma RecordRoleOutcome_spec now role repoID o w :
  el_faults w = [] ->
  let old := default (default_role now) (el_roles w !! (role, repoID)) in
  let new := rewarded now o old in
  RecordRoleOutcome now role repoID o w =
  (None, {| el_roles := <[(role, repoID) := new]> (el_roles w);
            el_history := (el_history w ++ [history_entry now role repoID (to_TaskID o)
              (event_type o) (re_ELOScore old) (re_ELOScore new)])%list;
            el_agents := el_agents w; el_faults := [] |}).
Proof.
  destruct w as [roles history agents faults]. cbn [el_faults el_roles el_history el_agents].
  intros ->. cbv zeta.
  unfold RecordRoleOutcome, GetRoleELO, fetchRoleELO, appendHistory, elo_exec, elo_query,
    next_fault, mbind, E_bind, mret, E_ret. cbn -[rewarded].
  destruct (roles !! (role, repoID)) as [re|] eqn:E; cbn -[rewarded].
  - by rewrite (alter_const _ _ _ re).
  - unfold insert_default. rewrite E, lookup_insert_eq. cbn -[rewarded].
    by rewrite (alter_const _ _ _ (default_role now)), insert_insert_eq
      by apply lookup_insert_eq.
Qed.

(** ** Tier review *)

(** A score of at least 1400 is above 1000. *)
Lemma expert_above_restricted x :
  fle PromotionThreshold x = true -> flt DemotionThreshold x = true.
Proof.
  assert (DemotionThreshold = S754_finite false 8796093022208000 (-43)) as -> by by vm_compute.
  assert (PromotionThreshold = S754_finite false 6157265115545600 (-42)) as -> by by vm_compute.
  unfold fle, flt, SFleb, SFltb. destruct x as [[]|[]| |[] m e]; cbn [SFcompare]; try done.
  intros Hle. assert (-43 < e) as ->%Z.compare_lt_iff; [|done].
  destruct (Z.compare_spec (-42) e); [lia..|discriminate Hle].
Qed.

Lemma new_tier_spec score tier :
  new_tier score tier = if is_nan score then tier else role_tier score.
Proof.
  pose proof (expert_above_restricted score) as Hord.
  unfold new_tier, role_tier. change RoleELOExpertMin with PromotionThreshold.
  change RoleELORestrictMin with DemotionThreshold.
  destruct (is_nan score) eqn:Hn; [by destruct score|].
  rewrite (fle_negb_flt score DemotionThreshold), (fle_negb_flt PromotionThreshold score)
    in * by done.
  destruct (flt score PromotionThreshold), (flt DemotionThreshold score); cbn [negb andb] in *;
    try (by discriminate Hord);
    [destruct (String.eqb_spec tier TierStandard)|destruct (String.eqb_spec tier TierRestricted)
    |destruct (String.eqb_spec tier TierExpert)]; done.
Qed.

(** What a review makes of a row. *)
Definition review (a : RatedAgent) : RatedAgent :=
  if reviewed a then set_tier (new_tier (ra_ELOScore a) (ra_Tier a)) a else a.

Lemma set_tier_same a : set_tier (ra_Tier a) a = a.
Proof. by destruct a. Qed.

Lemma review_tier a :
  ra_Tier (review a) =
  if reviewed a && negb (is_nan (ra_ELOScore a)) then role_tier (ra_ELOScore a) else ra_Tier a.
Proof.
  unfold review. destruct (reviewed a); [|done]. simpl. rewrite new_tier_spec.
  by destruct (is_nan _).
Qed.

(** One row of the review: its agent is reviewed, or its statement failed. *)
Lemma review_row_step id (a : RatedAgent) (w : EloWorld) :
  el_agents w !! id = Some a -> reviewed a = true ->
  let w' := (review_row id a w).2 in
  (el_agents w' = <[id := review a]> (el_agents w) \/
   (el_agents w' = el_agents w /\ el_faults w <> [])) /\
  el_roles w' = el_roles w /\ el_history w' = el_history w /\
  (el_faults w = [] -> el_faults w' = []).
Proof.
  intros Ha Hr w'. subst w'. unfold review_row. set (tier := new_tier _ _).
  destruct (String.eqb_spec tier (ra_Tier a)) as [E|_].
  - simpl. split_and!; try done. left. unfold review. rewrite Hr. fold tier.
    by rewrite E, set_tier_same, insert_id.
  - cbn. unfold mbind, E_bind, elo_exec, next_fault.
    destruct (el_faults w) as [|[] l]; cbn; split_and!; try done; [left|by right|left].
    all: apply map_eq; intros k; destruct (decide (id = k)) as [<-|];
      [by rewrite lookup_alter_eq, lookup_insert_eq, Ha; unfold review; rewrite Hr
      |by rewrite lookup_alter_ne, lookup_insert_ne].
Qed.

Lemma review_rows_effect rows w :
  NoDup rows.*1 ->
  (forall id a, (id, a) ∈ rows -> el_agents w !! id = Some a /\ reviewed a = true) ->
  let w' := (review_rows rows w).2 in
  (forall id, el_agents w' !! id = el_agents w !! id \/
     (id ∈ rows.*1 /\ el_agents w' !! id = review <$> el_agents w !! id)) /\
  (el_faults w = [] -> forall id, id ∈ rows.*1 ->
     el_agents w' !! id = review <$> el_agents w !! id) /\
  el_roles w' = el_roles w /\ el_history w' = el_history w.
Proof.
  revert w. induction rows as [|[id a] rows IH]; intros w Hnd Hrows w'; subst w'.
  { split_and!; auto. intros _ id Hid. by apply not_elem_of_nil in Hid. }
  apply NoDup_cons in Hnd as [Hid Hnd]. cbn [review_rows].
  destruct (Hrows id a ltac:(by left)) as [Ha Hr].
  pose proof (review_row_step id a w Ha Hr) as Hstep. cbv zeta in Hstep.
  assert ((review_row id a;; review_rows rows) w = review_rows rows (review_row id a w).2)
    as -> by (unfold mbind, E_bind; by destruct (review_row id a w)).
  set (w1 := (review_row id a w).2) in *. clearbody w1.
  destruct Hstep as (Hag & Hro & Hhi & Hfa).
  assert (forall k, k <> id -> el_agents w1 !! k = el_agents w !! k) as Hother.
  { intros k Hk. destruct Hag as [->|[-> _]]; [by rewrite lookup_insert_ne|done]. }
  destruct (IH w1) as (Hall & Hok & Hro1 & Hhi1); [done| |].
  { intros k b Hkb. assert (k <> id).
    { intros ->. apply Hid. apply list_elem_of_fmap. by exists (id, b). }
    rewrite Hother by done. apply Hrows. by right. }
  assert (el_agents (review_rows rows w1).2 !! id = el_agents w1 !! id) as Hsame.
  { destruct (Hall id) as [|[]]; done. }
  split_and!; [| |by rewrite Hro1|by rewrite Hhi1].
  - intros k. destruct (decide (k = id)) as [->|Hk].
    + rewrite Hsame. destruct Hag as [->|[-> _]]; [right|by left].
      split; [by left|]. by rewrite lookup_insert_eq, Ha.
    + rewrite <- (Hother k Hk). destruct (Hall k) as [|[]]; [by left|right].
      split; [by right|done].
  - intros Hf k Hin. destruct (decide (k = id)) as [->|Hk].
    + rewrite Hsame. destruct Hag as [->|[_ ?]]; [|done]. by rewrite lookup_insert_eq, Ha.
    + rewrite <- (Hother k Hk). apply Hok; [auto|]. cbn in Hin.
      apply elem_of_cons in Hin as [|]; [done|done].
Qed.

(** A review of the tiers puts the tier of its score on every agent that is not offline
    and has five rated tasks, when no statement fails; whatever fails, each agent roles_kept its
    row or gets that tier, and nothing else changes.  An agent whose score is not a number
    roles_kept its tier. *)
Theorem reviewTiers_spec w :
  let w' := (reviewTiers w).2 in
  (forall id, el_agents w' !! id = el_agents w !! id \/
              el_agents w' !! id = review <$> el_agents w !! id) /\
  (el_faults w = [] -> el_agents w' = review <$> el_agents w) /\
  (forall a, set_tier (ra_Tier a) (review a) = a /\
     ra_Tier (review a) = if reviewed a && negb (is_nan (ra_ELOScore a))
                          then role_tier (ra_ELOScore a) else ra_Tier a) /\
  el_roles w' = el_roles w /\ el_history w' = el_history w.
Proof.
  assert (forall a, set_tier (ra_Tier a) (review a) = a /\ ra_Tier (review a) =
     if reviewed a && negb (is_nan (ra_ELOScore a))
     then role_tier (ra_ELOScore a) else ra_Tier a) as Hrow.
  { intros a. split; [|apply review_tier]. unfold review. destruct (reviewed a); by destruct a. }
  unfold reviewTiers, mbind, E_bind, elo_query, next_fault.
  destruct w as [roles history agents [|[] l]]; cbn;
    [|split_and!; try done; by left|].
  all: match goal with |- context [review_rows ?rows ?w0] =>
      destruct (review_rows_effect rows w0) as (Hall & Hok & Hro & Hhi) end;
    [apply select_NoDup
    |intros id a Ha; apply select_elem_of in Ha; exact Ha
    |split_and!; [intros id; destruct (Hall id) as [|[]]; [by left|by right]| |done..]].
  - intros _. apply map_eq. intros id. rewrite lookup_fmap.
    destruct (decide (id ∈ (select (fun _ a => reviewed a) agents).*1)) as [Hid|Hid].
    + by rewrite Hok.
    + destruct (Hall id) as [->|[]]; [|done]. cbn.
      destruct (agents !! id) as [a|] eqn:E; [|done]. cbn. f_equal. unfold review.
      destruct (reviewed a) eqn:Er; [|done]. destruct Hid.
      apply select_fst_elem_of. eauto.
  - done.
Qed.
End ratings.

(** ** Evaluation *)

#[local] Existing Instance integer_pow.

#[local] Instance written_order : RowOrder :=
  {| row_order := fun _ l => l; row_order_perm := fun _ l => reflexivity l |}.

Definition no_ratings : EloWorld :=
  {| el_roles := ∅; el_history := []; el_agents := ∅; el_faults := [] |}.

Definition failing_task : TaskOutcome :=
  {| to_TaskID := "t1"; to_HumanRating := 1; to_ConsensusConf := of_int 0;
     to_ConsensusStrategy := ""; to_TestsPassed := false; to_PRAccepted := false;
     to_BuildSuccess := false; to_ConsensusWin := false |}.

(** Ten of the worst ratings in a row. *)
Definition worst_ratings : list RatingOp := repeat (OpOutcome 0 "coder" "r1" failing_task) 10.

(** The role ends on the floor, in the standard tier and without a training probe. *)
Lemma role_table_invariant_witness :
  exists re, el_roles (fold_left (fun w op => run_op op w) worst_ratings no_ratings)
               !! ("coder", "r1") = Some re /\
    re_ELOScore re = RoleELOFloor /\ re_TasksDone re = 10 /\
    role_ok re /\ re_Tier re <> TierRestricted /\ ProbeCountForTier (re_Tier re) <> 5.
Proof.
  destruct (el_roles (fold_left (fun w op => run_op op w) worst_ratings no_ratings)
              !! ("coder", "r1")) as [re|] eqn:E.
  - exists re. split; [done|]. pose proof E as E2. vm_compute in E2. injection E2 as <-.
    split; [done|]. split; [done|].
    apply (role_table_invariant worst_ratings no_ratings ("coder", "r1")); [|done].
    apply map_Forall_empty.
  - vm_compute in E. discriminate E.
Defined.

Lemma composite_auto_all_or_nothing_witness :
  false || false || true = true /\
  computeCompositeScore (with_auto false false true failing_task) =
  computeCompositeScore (with_auto true true true failing_task).
Proof.
  split; [done|]. apply (composite_auto_all_or_nothing false false true failing_task). done.
Defined.

Definition rated_agent (score : Z) (tier : string) : RatedAgent :=
  {| ra_Status := "idle"; ra_ELOScore := of_int score; ra_TasksDone := 9; ra_TasksRated := 5;
     ra_AvgRating := of_int 3; ra_Tier := tier |}.

Definition two_agents : EloWorld :=
  {| el_roles := ∅; el_history := [];
     el_agents := {[1%N := rated_agent 1500 TierRestricted; 2%N := rated_agent 900 TierStandard]};
     el_faults := [] |}.

Lemma reviewTiers_spec_witness :
  el_faults two_agents = [] /\
  el_agents (reviewTiers two_agents).2 =
  {[1%N := rated_agent 1500 TierExpert; 2%N := rated_agent 900 TierRestricted]}.
Proof.
  split; [done|]. destruct (reviewTiers_spec two_agents) as (_ & Hok & _).
  rewrite (Hok eq_refl). by vm_compute.
Defined.

(** A failed build and failed tests beside an accepted pull request still score 1. *)
Example failed_tests_score_one :
  computeCompositeScore {| to_TaskID := "t2"; to_HumanRating := 0; to_ConsensusConf := of_int 0;
    to_ConsensusStrategy := ""; to_TestsPassed := false; to_PRAccepted := true;
    to_BuildSuccess := false; to_ConsensusWin := false |} = of_int 1.
Proof. by vm_compute. Qed.

Definition resting_role : RoleELO :=
  {| re_ELOScore := of_int 1400; re_Tier := TierExpert; re_TasksDone := 40;
     re_TasksRated := 40; re_AvgRating := of_int 4; re_Wins := 0; re_Losses := 0;
     re_ConsensusAvg := of_int 0; re_BestStrategy := ""; re_TrainingProbes := 0;
     re_LastActive := 0; re_CreatedAt := 0; re_UpdatedAt := 0 |}.

(** A pass takes two points per day since the last activity, and the next pass takes
    them again: four passes on the tenth day cost eighty points, where ten days at two
    points are twenty. *)
Example decay_repeats :
  (fun re => re_ELOScore re) <$>
    el_roles (fold_left (fun w op => run_op op w) (repeat (OpDecay (10 * 24 * hour)) 4)
      {| el_roles := {[("coder", "r1") := resting_role]}; el_history := [];
         el_agents := ∅; el_faults := [] |}) !! ("coder", "r1")
  = Some (of_int 1320).
Proof. by vm_compute. Qed.
