(* ===== verification/KeychainCrypto.v ===== *)
(** * Keys, wrapping and recovery phrases ([internal/vault/keychain]: [crypto.go],
    [recovery.go])

    Byte slices and arrays are byte strings.  AES-256-GCM, HKDF, Argon2id and HMAC are the
    class [Primitives] with the documented behaviour of their packages; the random source is
    the class [Entropy], read by a counter in the state.  Zeroing of local copies is left
    out; error texts of the packages are abbreviated, and the word that [ValidateRecoveryPhrase]
    quotes is left out. *)

From Stdlib Require Import ZArith Lia Ascii String.
From stdpp Require Import base list gmap strings.
From S2P Require Import Prelude GoStrings Bip39 SwarmDb Db.
Local Open Scope string_scope.
Local Open Scope rtv_scope.

Definition MasterKeySize : nat := 32.
Definition EncryptionKeySize : nat := 32.
Definition AuthKeySize : nat := 32.
Definition SyncKeySize : nat := 32.
Definition DEKSize : nat := 32.
Definition NonceSize : nat := 12.
Definition SaltSize : nat := 16.
Definition RecoverySaltSize : nat := 16.

(** ** Packages *)

(** Seal and open of a GCM with a key of a valid size; an open succeeds exactly on what a
    seal with the same key and nonce makes of the plaintext. *)
Class Primitives := {
  seal : string -> string -> string -> string;
  open : string -> string -> string -> option string;
  hkdf : string -> string -> string -> nat -> string;
  argon2 : string -> string -> string;
  hmac : string -> string -> string;
  open_seal : forall k n p, open k n (seal k n p) = Some p;
  open_sound : forall k n c p, open k n c = Some p -> c = seal k n p;
  seal_nonempty : forall k n p, seal k n p <> "";
  hkdf_length : forall s t i n, String.length (hkdf s t i n) = n;
  argon2_length : forall p s, String.length (argon2 p s) = MasterKeySize
}.

(** The [i]-th reading of the random source. *)
Class Entropy := {
  random_bytes : nat -> nat -> string;
  random_int : nat -> nat -> nat;
  random_uuid : nat -> UUID;
  random_bytes_length : forall i n, String.length (random_bytes i n) = n;
  random_int_bound : forall i n, 0 < n -> random_int i n < n
}.

(** A state that counts the readings. *)
Class Draws (T : Type) := { draws : T -> nat; drawn : T -> T }.

Section crypto.
Context `{UnicodeTables} `{Primitives} `{Entropy} {T : Type} `{Draws T}.

(** [io.ReadFull(rand.Reader, b)] *)
Definition read_random (n : nat) (what : string) : DBE T string :=
  wrapping ("keychain: " ++ what)
    (i ←? query draws; writes drawn;; ok (random_bytes i n)).

(** [uuid.New()] *)
Definition new_uuid : DB T UUID := i ← reads draws; writes drawn;; mret (random_uuid i).

(** ** [crypto.go] *)

Definition GenerateMasterKey : DBE T string := read_random MasterKeySize "generate master key".
Definition GenerateDEK : DBE T string := read_random DEKSize "generate DEK".
Definition GenerateSalt : DBE T string := read_random SaltSize "generate salt".
Definition GenerateChallenge : DBE T string := read_random 32 "generate challenge".
Definition GenerateRecoverySalt : DBE T string :=
  read_random RecoverySaltSize "generate recovery salt".

Record DerivedKeys := {
  EncryptionKey : string;
  AuthKey : string;
  SyncKey : string
}.

Fixpoint zeros (n : nat) : string :=
  match n with O => "" | S n => String "000"%char (zeros n) end.

Definition Wipe (dk : DerivedKeys) : DerivedKeys :=
  {| EncryptionKey := zeros (String.length (EncryptionKey dk));
     AuthKey := zeros (String.length (AuthKey dk));
     SyncKey := zeros (String.length (SyncKey dk)) |}.

Definition DeriveKeys (masterKey salt : string) : result DerivedKeys string :=
  if (String.length salt <? SaltSize)%nat then Err "keychain: salt must be at least 16 bytes"
  else Ok {|
    EncryptionKey := hkdf masterKey salt "rtvortex-keychain-encryption-v1" EncryptionKeySize;
    AuthKey := hkdf masterKey salt "rtvortex-keychain-auth-v1" AuthKeySize;
    SyncKey := hkdf masterKey salt "rtvortex-keychain-sync-v1" SyncKeySize |}.

(** [aes.NewCipher] refuses other key sizes. *)
Definition newGCM (key : string) : result unit string :=
  if bool_decide (String.length key ∈ [16; 24; 32]) then Ok tt
  else Err "keychain: create cipher: crypto/aes: invalid key size".

(** [gcm.Seal(nonce, nonce, plaintext, nil)] with a fresh nonce. *)
Definition encrypt (key plaintext : string) : DBE T string :=
  match newGCM key with
  | Err e => fail e
  | Ok _ => nonce ←? read_random NonceSize "generate nonce"; ok (nonce ++ seal key nonce plaintext)
  end.

Definition decrypt (key ciphertext short what : string) : result string string :=
  match newGCM key with
  | Err e => Err e
  | Ok _ =>
      if (String.length ciphertext <? NonceSize + 1)%nat then Err short
      else match open key (str_take NonceSize ciphertext) (str_drop NonceSize ciphertext) with
           | Some plaintext => Ok plaintext
           | None => Err (what ++ ": cipher: message authentication failed")
           end
  end.

Definition WrapDEK (encryptionKey dek : string) : DBE T string := encrypt encryptionKey dek.

Definition UnwrapDEK (encryptionKey wrappedDEK : string) : result string string :=
  match decrypt encryptionKey wrappedDEK "keychain: wrapped DEK too short"
          "keychain: unwrap DEK" with
  | Err e => Err e
  | Ok plaintext =>
      if (String.length plaintext =? DEKSize)%nat then Ok plaintext
      else Err ("keychain: unwrapped DEK has wrong size ("
                ++ itoa (Z.of_nat (String.length plaintext)) ++ ")")
  end.

Definition EncryptSecret (dek plaintext : string) : DBE T string := encrypt dek plaintext.

Definition DecryptSecret (dek ciphertext : string) : result string string :=
  decrypt dek ciphertext "keychain: ciphertext too short" "keychain: decrypt".

Definition ComputeAuthProof (authKey challenge : string) : string := hmac authKey challenge.
Definition VerifyAuthProof (authKey challenge proof : string) : bool :=
  String.eqb (ComputeAuthProof authKey challenge) proof.

(** *** [encoding/hex] *)

Definition hex_digit (n : N) : ascii :=
  if (n <? 10)%N then chr (48 + n) else chr (87 + n).

Fixpoint hex_encode (s : string) : string :=
  match s with
  | "" => ""
  | String a s => String (hex_digit (byte_of a / 16))
                    (String (hex_digit (byte_of a mod 16)) (hex_encode s))
  end.

Definition from_hex (a : ascii) : option N :=
  if in_range 48 57 a then Some (byte_of a - 48)%N
  else if in_range 97 102 a then Some (byte_of a - 87)%N
  else if in_range 65 70 a then Some (byte_of a - 55)%N
  else None.

Fixpoint hex_decode (s : string) : result string string :=
  match s with
  | "" => Ok ""
  | String a "" =>
      if from_hex a then Err "encoding/hex: odd length hex string"
      else Err "encoding/hex: invalid byte"
  | String a (String b s) =>
      match from_hex a, from_hex b with
      | Some m, Some n =>
          match hex_decode s with
          | Ok t => Ok (String (chr (16 * m + n)) t)
          | Err e => Err e
          end
      | _, _ => Err "encoding/hex: invalid byte"
      end
  end.

Definition MasterKeyToHex (key : string) : string := hex_encode key.

Definition MasterKeyFromHex (h : string) : result string string :=
  match hex_decode h with
  | Err e => Err ("keychain: decode hex: " ++ e)
  | Ok b => if (String.length b =? MasterKeySize)%nat then Ok b
            else Err ("keychain: hex key has wrong length ("
                      ++ itoa (Z.of_nat (String.length b)) ++ ")")
  end.

(** *** Recovery wrapping key *)

(** The four bytes the loop treats as space. *)
Definition phrase_space (c : ascii) : bool :=
  bool_decide (c ∈ [" "; "009"; "010"; "013"]%char).

(** The loop: the words read so far and [inSpace]. *)
Fixpoint normalize_from (s words : string) (inSpace : bool) : string :=
  match s with
  | "" => words
  | String c s =>
      if phrase_space c
      then normalize_from s (if negb inSpace && negb (String.eqb words "") then words ++ " "
                             else words) true
      else normalize_from s (words ++ String (lower_byte c) "") false
  end.

Definition normalizePhrase (phrase : string) : string :=
  let words := normalize_from phrase "" true in
  if HasSuffix words " " then str_take (String.length words - 1) words else words.

Definition DeriveRecoveryWrappingKey (phrase salt : string) : result string string :=
  if (String.length salt <? RecoverySaltSize)%nat then Err "keychain: recovery salt too short"
  else Ok (argon2 (normalizePhrase phrase) salt).

Definition WrapMasterKeyWithPhrase (masterKey phrase recoverySalt : string) : DBE T string :=
  match DeriveRecoveryWrappingKey phrase recoverySalt with
  | Err e => fail e
  | Ok wk => wrapping "keychain: wrap master key with phrase" (WrapDEK wk masterKey)
  end.

Definition UnwrapMasterKeyWithPhrase (wrappedBlob phrase recoverySalt : string)
    : result string string :=
  match DeriveRecoveryWrappingKey phrase recoverySalt with
  | Err e => Err e
  | Ok wk => wrap_err "keychain: unwrap master key with phrase" (UnwrapDEK wk wrappedBlob)
  end.

(** [store.go] *)
Definition ComputeAuthKeyVerifier (authKey : string) : string :=
  hex_encode (ComputeAuthProof authKey "rtvortex-keychain-auth-verifier-v1").

(** ** [recovery.go] *)

(** [rand.Int(rand.Reader, n)] *)
Definition random_below (n : nat) : DBE T nat :=
  wrapping "keychain: random word selection"
    (i ←? query draws; writes drawn;; ok (random_int i n)).

Fixpoint random_words (count : nat) : DBE T (list string) :=
  match count with
  | O => ok []
  | S count =>
      idx ←? random_below (List.length bip39WordList);
      words ←? random_words count;
      ok (nth idx bip39WordList "" :: words)
  end.

(** The entropy that is read first is not used. *)
Definition entropyToMnemonic (bits : Z) : DBE T (list string) :=
  if negb (bits =? 128)%Z
  then fail "keychain: only 128-bit entropy (12 words) is supported"
  else _ ←? read_random 16 "random entropy"; random_words 12.

Definition GenerateRecoveryPhrase : DBE T string :=
  words ←? wrapping "keychain: generate recovery phrase" (entropyToMnemonic 128);
  ok (Join words " ").

Fixpoint check_words (i : Z) (ws : list string) : option string :=
  match ws with
  | [] => None
  | w :: ws =>
      match bip39WordIndex (ToLower w) with
      | Some _ => check_words (i + 1) ws
      | None => Some ("keychain: word " ++ itoa i ++ " is not a valid BIP39 word")
      end
  end.

Definition ValidateRecoveryPhrase (phrase : string) : option string :=
  let words := Fields (TrimSpace phrase) in
  if negb (List.length words =? 12)%nat
  then Some ("keychain: expected 12 words, got " ++ itoa (Z.of_nat (List.length words)))
  else check_words 1 words.
End crypto.

(** ** Hexadecimal text *)

Lemma hex_digit_from (n : N) : (n < 16)%N -> from_hex (hex_digit n) = Some n.
Proof.
  intros Hn. assert (n ∈ [0; 1; 2; 3; 4; 5; 6; 7; 8; 9; 10; 11; 12; 13; 14; 15])%N as Hin.
  { rewrite !elem_of_cons. lia. }
  clear Hn. revert n Hin. apply Forall_forall. repeat constructor.
Qed.

Lemma chr_byte_of a : chr (byte_of a) = a.
Proof. apply ascii_N_embedding. Qed.

Lemma hex_decode_encode s : hex_decode (hex_encode s) = Ok s.
Proof.
  induction s as [|a s IH]; [done|]. cbn [hex_encode].
  assert (byte_of a < 256)%N as Ha by apply N_ascii_bounded.
  change (hex_decode (String ?x (String ?y ?t))) with
    (match from_hex x, from_hex y with
     | Some m, Some n => match hex_decode t with
                         | Ok u => Ok (String (chr (16 * m + n)) u) | Err e => Err e end
     | _, _ => Err "encoding/hex: invalid byte" end).
  rewrite !hex_digit_from, IH by (try apply N.mod_lt; try apply N.Div0.div_lt_upper_bound; lia).
  by rewrite <- N.div_mod', chr_byte_of.
Qed.

Lemma MasterKeyFromHex_ToHex key :
  String.length key = MasterKeySize -> MasterKeyFromHex (MasterKeyToHex key) = Ok key.
Proof.
  intros Hk. unfold MasterKeyFromHex, MasterKeyToHex. by rewrite hex_decode_encode, Hk.
Qed.

(** ** Sealing and opening *)

Section crypto_facts.
Context `{UnicodeTables} `{Primitives} `{Entropy} {T : Type} `{Draws T}.
Implicit Types t : T.

Lemma read_random_quiet n what t :
  read_random n what (quiet t) = (Ok (random_bytes (draws t) n), quiet (drawn t)).
Proof. done. Qed.

Lemma newGCM_32 key : String.length key = 32 -> newGCM key = Ok tt.
Proof. intros Hk. unfold newGCM. by rewrite Hk. Qed.

(** What [encrypt] makes of a plaintext with the nonce of state [t]. *)
Definition sealed t (key plaintext : string) : string :=
  let nonce := random_bytes (draws t) NonceSize in nonce ++ seal key nonce plaintext.

Lemma encrypt_quiet key p t :
  String.length key = 32 -> encrypt key p (quiet t) = (Ok (sealed t key p), quiet (drawn t)).
Proof. intros Hk. unfold encrypt. by rewrite (newGCM_32 _ Hk). Qed.

Lemma decrypt_sealed key p t short what :
  String.length key = 32 -> decrypt key (sealed t key p) short what = Ok p.
Proof.
  intros Hk. unfold decrypt, sealed. rewrite (newGCM_32 _ Hk).
  set (nonce := random_bytes _ _).
  assert (String.length nonce = NonceSize) as Hn by apply random_bytes_length.
  rewrite string_app_length, Hn.
  assert (0 < String.length (seal key nonce p)).
  { destruct (seal key nonce p) eqn:E; simpl; [|lia]. by apply seal_nonempty in E. }
  rewrite (proj2 (Nat.ltb_ge _ _)) by lia.
  by rewrite <- Hn, str_take_app, str_drop_app, open_seal.
Qed.

Lemma UnwrapDEK_sealed key dek t :
  String.length key = 32 -> String.length dek = DEKSize -> UnwrapDEK key (sealed t key dek) = Ok dek.
Proof. intros Hk Hd. unfold UnwrapDEK. by rewrite decrypt_sealed, Hd. Qed.

Lemma UnwrapDEK_length key w dek : UnwrapDEK key w = Ok dek -> String.length dek = DEKSize.
Proof.
  unfold UnwrapDEK. destruct (decrypt _ _ _ _) as [p|]; [|done].
  destruct (Nat.eqb_spec (String.length p) DEKSize); [|done]. by intros [= <-].
Qed.

Lemma DeriveKeys_lengths m salt dk :
  DeriveKeys m salt = Ok dk -> String.length (EncryptionKey dk) = 32 /\
  String.length (AuthKey dk) = 32 /\ String.length (SyncKey dk) = 32.
Proof.
  unfold DeriveKeys. destruct (_ <? _)%nat; [done|]. intros [= <-]. cbn.
  by rewrite !hkdf_length.
Qed.

(** ** Phrases *)

(** The words of a phrase in lower case. *)
Fixpoint phrase_words (w s : string) : list string :=
  let flush := if String.eqb w "" then [] else [w] in
  match s with
  | "" => flush
  | String c s =>
      if phrase_space c then (flush ++ phrase_words "" s)%list
      else phrase_words (w ++ String (lower_byte c) "") s
  end.

Lemma Join_cons v ws : ws <> [] -> Join (v :: ws) " " = v ++ " " ++ Join ws " ".
Proof. by destruct ws. Qed.

Lemma Join_snoc ws w :
  Join (ws ++ [w]) " " = match ws with [] => w | _ => Join ws " " ++ " " ++ w end.
Proof.
  induction ws as [|v ws IH]; [done|]. destruct ws as [|v' ws]; [done|].
  change ((v :: v' :: ws) ++ [w])%list with (v :: ((v' :: ws) ++ [w]))%list.
  rewrite !Join_cons, IH by done. by rewrite !string_app_assoc.
Qed.

Definition no_spaces (w : string) : Prop :=
  w <> "" /\ forallb (fun c => negb (phrase_space c)) (bytes w) = true.

Lemma lower_no_space c : phrase_space c = false -> phrase_space (lower_byte c) = false.
Proof.
  unfold lower_byte. destruct (is_upper c) eqn:E; [|done]. intros _.
  by destruct c as [[] [] [] [] [] [] [] []].
Qed.

Lemma no_spaces_snoc w c :
  (w = "" \/ no_spaces w) -> phrase_space c = false -> no_spaces (w ++ String (lower_byte c) "").
Proof.
  intros Hw Hc. split; [by destruct w|]. rewrite bytes_app, forallb_app. apply andb_true_intro.
  split; [by destruct Hw as [->|[_ ?]]|]. simpl. by rewrite lower_no_space.
Qed.

Lemma no_space_suffix u w : no_spaces w -> HasSuffix (u ++ w) " " = false.
Proof.
  intros [Hne Hw]. unfold HasSuffix. rewrite string_rev_app.
  assert (forall c, c ∈ bytes (string_rev w) -> phrase_space c = false) as Hc.
  { intros c Hin. rewrite bytes_rev in Hin. apply list_elem_of_In, in_rev, list_elem_of_In in Hin.
    rewrite forallb_elem_of in Hw. by apply negb_true_iff, Hw. }
  destruct (string_rev w) as [|c r] eqn:E.
  { apply (f_equal string_rev) in E. by rewrite string_rev_rev in E. }
  specialize (Hc c ltac:(by left)). change (string_rev " ") with " ".
  change (HasPrefix (String c r ++ string_rev u) " ") with
    (Ascii.eqb c " "%char && HasPrefix (r ++ string_rev u) "").
  destruct (Ascii.eqb_spec c " "%char) as [->|]; done.
Qed.

Lemma join_no_empty ws w : Forall no_spaces ws -> no_spaces w -> Join (ws ++ [w]) " " <> "".
Proof.
  intros Hws [Hw _]. rewrite Join_snoc. destruct ws; [done|].
  intros E. apply (f_equal String.length) in E. rewrite !string_app_length in E. simpl in E. lia.
Qed.

(** The accumulator of the loop after the words [ws] and the letters [w]. *)
Definition phrase_acc (ws : list string) (w : string) : string :=
  if String.eqb w "" then match ws with [] => "" | _ => Join ws " " ++ " " end
  else Join (ws ++ [w]) " ".

Definition trim_last (words : string) : string :=
  if HasSuffix words " " then str_take (String.length words - 1) words else words.

Lemma trim_last_space u : trim_last (u ++ " ") = u.
Proof.
  unfold trim_last. rewrite (proj2 (HasSuffix_spec _ _)) by eauto.
  rewrite string_app_length. simpl. rewrite Nat.add_sub. apply str_take_app.
Qed.

Lemma normalize_from_words s ws w :
  Forall no_spaces ws -> (w = "" \/ no_spaces w) ->
  trim_last (normalize_from s (phrase_acc ws w) (String.eqb w "")) =
  Join (ws ++ phrase_words w s) " ".
Proof.
  revert ws w. induction s as [|c s IH]; intros ws w Hws Hw.
  - cbn [normalize_from phrase_words]. unfold phrase_acc.
    destruct (String.eqb_spec w "") as [->|Hne].
    + rewrite app_nil_r. destruct ws; [done|]. apply trim_last_space.
    + destruct Hw as [|Hw]; [done|]. unfold trim_last. rewrite Join_snoc.
      destruct ws as [|v ws].
      * pose proof (no_space_suffix "" w Hw) as E. cbn [append] in E. by rewrite E.
      * by rewrite <- string_app_assoc, no_space_suffix.
  - cbn [normalize_from phrase_words]. destruct (phrase_space c) eqn:Hc.
    + destruct (String.eqb_spec w "") as [->|Hne].
      * cbn [negb andb app]. apply (IH ws ""); auto.
      * destruct Hw as [|Hw]; [done|].
        specialize (IH (ws ++ [w])%list ""). cbn [String.eqb] in IH.
        rewrite app_assoc, <- IH; [|by apply Forall_app; split; [|constructor]|by left].
        unfold phrase_acc at 1 2 3. apply String.eqb_neq in Hne as ->. cbn [negb andb].
        pose proof (join_no_empty ws w Hws Hw) as Hj. apply String.eqb_neq in Hj as ->.
        cbn [negb String.eqb]. by destruct ws.
    + specialize (IH ws (w ++ String (lower_byte c) "") Hws).
      pose proof (no_spaces_snoc w c Hw Hc) as Hw'. pose proof Hw' as [Hne _].
      apply String.eqb_neq in Hne. rewrite Hne in IH. rewrite <- IH by auto.
      unfold phrase_acc. rewrite Hne. f_equal. f_equal.
      destruct (String.eqb_spec w "") as [->|Hne'].
      * rewrite Join_snoc. destruct ws; [done|]. by rewrite string_app_assoc.
      * rewrite !Join_snoc. destruct ws; [done|]. by rewrite !string_app_assoc.
Qed.

(** The phrase that is hashed: its words, in lower case, with single spaces. *)
Lemma normalizePhrase_words phrase :
  normalizePhrase phrase = Join (phrase_words "" phrase) " ".
Proof. apply (normalize_from_words phrase [] ""); auto. Qed.

(** *** Generated phrases *)

Lemma lower_not_first c : is_lower c = true -> not_first space_runes c = true.
Proof. by destruct c as [[] [] [] [] [] [] [] []]. Qed.

Lemma lower_not_last c : is_lower c = true -> not_first (string_rev <$> space_runes) c = true.
Proof. by destruct c as [[] [] [] [] [] [] [] []]. Qed.

Lemma not_first_find seqs c s :
  not_first seqs c = true -> find (HasPrefix (String c s)) seqs = None.
Proof.
  induction seqs as [|v seqs IH]; [done|]. intros Hs. cbn [not_first forallb] in Hs.
  apply andb_prop in Hs as [Hv Hs]. destruct v as [|b v]; [done|]. apply negb_true_iff in Hv.
  cbn [find]. change (HasPrefix (String c s) (String b v)) with (Ascii.eqb c b && HasPrefix s v).
  rewrite Hv. auto.
Qed.

Lemma fields_lower u w s :
  forallb is_lower (bytes u) = true -> fields_from 0 w (u ++ s) = fields_from 0 (w ++ u) s.
Proof.
  revert w. induction u as [|c u IH]; intros w Hu; [by rewrite string_app_nil_r|].
  cbn [bytes list_ascii_of_string forallb] in Hu. apply andb_prop in Hu as [Hc Hu].
  change (String c u ++ s) with (String c (u ++ s)). cbn [fields_from].
  rewrite not_first_find by by apply lower_not_first. rewrite IH by done.
  by rewrite string_app_assoc.
Qed.

Lemma fields_space w s :
  w <> "" -> fields_from 0 w (" " ++ s) = (w :: fields_from 0 "" s)%list.
Proof.
  intros Hw. apply String.eqb_neq in Hw. change (" " ++ s) with (String " " s).
  cbn [fields_from]. rewrite Hw.
  assert (find (HasPrefix (String " " s)) space_runes = Some " ") as -> by by destruct s.
  done.
Qed.

Lemma plain_word_spec w : plain_word w = true -> w <> "" /\ forallb is_lower (bytes w) = true.
Proof.
  intros [Hw Hl]%andb_prop. split; [|done]. apply negb_true_iff in Hw. by apply String.eqb_neq.
Qed.

Lemma Fields_Join ws : Forall (fun w => plain_word w = true) ws -> Fields (Join ws " ") = ws.
Proof.
  unfold Fields. induction ws as [|w ws IH]; [done|]. intros [Hw Hws]%Forall_cons.
  apply plain_word_spec in Hw as [Hne Hl]. destruct ws as [|v ws].
  - cbn [Join]. rewrite <- (string_app_nil_r w) at 1. rewrite fields_lower by done.
    cbn. by apply String.eqb_neq in Hne as ->.
  - rewrite Join_cons, fields_lower, fields_space, IH by done. done.
Qed.

Lemma lower_ascii c : is_lower c = true -> is_ascii c = true /\ lower_byte c = c /\
  phrase_space c = false.
Proof. by destruct c as [[] [] [] [] [] [] [] []]. Qed.

Lemma ToLower_plain w : plain_word w = true -> ToLower w = w.
Proof.
  intros [_ Hl]%plain_word_spec. unfold ToLower, all_ascii.
  assert (forallb is_ascii (bytes w) = true /\ string_map lower_byte w = w) as [-> ->]; [|done].
  induction w as [|c w IH]; [done|]. cbn in Hl. apply andb_prop in Hl as [Hc Hl].
  destruct (lower_ascii c Hc) as (Ha & Hb & _). destruct (IH Hl) as [IHa IHb].
  cbn. by rewrite Ha, Hb, IHb.
Qed.

Lemma check_words_ok i ws : Forall (fun w => w ∈ bip39WordList) ws -> check_words i ws = None.
Proof.
  revert i. induction ws as [|w ws IH]; intros i; [done|]. intros [Hw Hws]%Forall_cons. simpl.
  rewrite ToLower_plain by by apply bip39_plain.
  apply bip39WordIndex_elem in Hw as [k ->]. auto.
Qed.

Lemma phrase_words_lower u w s :
  forallb is_lower (bytes u) = true -> phrase_words w (u ++ s) = phrase_words (w ++ u) s.
Proof.
  revert w. induction u as [|c u IH]; intros w Hu; [by rewrite string_app_nil_r|].
  cbn [bytes list_ascii_of_string forallb] in Hu. apply andb_prop in Hu as [Hc Hu].
  change (String c u ++ s) with (String c (u ++ s)). cbn [phrase_words].
  destruct (lower_ascii c Hc) as (_ & -> & ->). rewrite IH by done. by rewrite string_app_assoc.
Qed.

Lemma phrase_words_Join ws :
  Forall (fun w => plain_word w = true) ws -> phrase_words "" (Join ws " ") = ws.
Proof.
  induction ws as [|w ws IH]; [done|]. intros [Hw Hws]%Forall_cons.
  apply plain_word_spec in Hw as [Hne Hl]. apply String.eqb_neq in Hne. destruct ws as [|v ws].
  - cbn [Join]. rewrite <- (string_app_nil_r w) at 1. rewrite phrase_words_lower by done.
    cbn. by rewrite Hne.
  - rewrite Join_cons, phrase_words_lower by done. change (" " ++ ?s) with (String " " s).
    cbn [phrase_words append]. change (phrase_space " "%char) with true. cbn beta iota.
    by rewrite Hne, IH.
Qed.

(** Twelve words of the list, joined by spaces. *)
Definition recovery_phrase (p : string) : Prop :=
  exists ws, p = Join ws " " /\ length ws = 12 /\ Forall (fun w => w ∈ bip39WordList) ws.

Lemma plain_words ws :
  Forall (fun w => w ∈ bip39WordList) ws -> Forall (fun w => plain_word w = true) ws.
Proof. intros Hws. eapply Forall_impl; [exact Hws|]. intros w. apply bip39_plain. Qed.

Lemma recovery_phrase_normal p : recovery_phrase p -> normalizePhrase p = p.
Proof.
  intros (ws & -> & _ & Hws). rewrite normalizePhrase_words, phrase_words_Join; [done|].
  by apply plain_words.
Qed.

Lemma Join_ends ws :
  ws <> [] -> Forall (fun w => plain_word w = true) ws ->
  exists a b u v, Join ws " " = String a u /\ Join ws " " = v ++ String b "" /\
    is_lower a = true /\ is_lower b = true.
Proof.
  assert (forall w, plain_word w = true -> exists a b u v, w = String a u /\
    w = v ++ String b "" /\ is_lower a = true /\ is_lower b = true) as Hone.
  { intros w [Hne Hl]%plain_word_spec. rewrite forallb_elem_of in Hl.
    destruct w as [|a u]; [done|]. assert (is_lower a = true) as Ha by (apply Hl; by left).
    destruct (string_rev (String a u)) as [|b r] eqn:E.
    { apply (f_equal string_rev) in E. by rewrite string_rev_rev in E. }
    apply (f_equal string_rev) in E. rewrite string_rev_rev in E.
    exists a, b, u, (string_rev r).
    assert (String a u = string_rev r ++ String b "") as Hb.
    { rewrite E. change (String b r) with (String b "" ++ r). by rewrite string_rev_app. }
    split_and!; try done. apply Hl. rewrite Hb, bytes_app. set_solver. }
  intros Hne Hws. induction ws as [|w ws IH]; [done|]. apply Forall_cons in Hws as [Hw Hws].
  destruct (Hone w Hw) as (a & b & u & v & Ha & Hb & Hla & Hlb). destruct ws as [|w' ws].
  { cbn [Join]. eauto 10. }
  destruct IH as (_ & b' & _ & v' & _ & Hb' & _ & Hlb'); [done..|].
  rewrite Join_cons by done. exists a, b', (u ++ " " ++ Join (w' :: ws) " "), (w ++ " " ++ v').
  split_and!; try done; [by rewrite Ha|]. rewrite Hb'. by rewrite !string_app_assoc.
Qed.

Lemma recovery_phrase_valid p : recovery_phrase p -> ValidateRecoveryPhrase p = None.
Proof.
  intros (ws & -> & Hlen & Hws). pose proof (plain_words ws Hws) as Hpl.
  destruct (Join_ends ws) as (a & b & u & v & Ha & Hb & Hla & Hlb); [by destruct ws|done|].
  unfold ValidateRecoveryPhrase.
  rewrite (TrimSpace_noop _ a b u v), Fields_Join, Hlen
    by auto using lower_not_first, lower_not_last.
  simpl. by apply check_words_ok.
Qed.

Lemma random_words_quiet n t :
  exists ws, random_words n (quiet t) = (Ok ws, quiet (Nat.iter n drawn t)) /\
    length ws = n /\ Forall (fun w => w ∈ bip39WordList) ws.
Proof.
  revert t. induction n as [|n IH]; intros t; [by exists []|]. simpl random_words.
  destruct (IH (drawn t)) as (ws & Hws & Hlen & Hall).
  exists (nth (random_int (draws t) 2048) bip39WordList "" :: ws). split_and!.
  - erewrite try_run by reflexivity. erewrite try_run by exact Hws.
    by rewrite Nat.iter_succ_r.
  - simpl. by rewrite Hlen.
  - constructor; [|done]. apply list_elem_of_In, nth_In. rewrite bip39_length.
    apply random_int_bound. lia.
Qed.

Lemma GenerateRecoveryPhrase_quiet t :
  exists p, GenerateRecoveryPhrase (quiet t) = (Ok p, quiet (Nat.iter 13 drawn t)) /\
    recovery_phrase p.
Proof.
  destruct (random_words_quiet 12 (drawn t)) as (ws & Hws & Hlen & Hall).
  exists (Join ws " "). split; [|by exists ws].
  assert (entropyToMnemonic 128 (quiet t) = (Ok ws, quiet (Nat.iter 13 drawn t))) as Hm.
  { unfold entropyToMnemonic. change (negb (128 =? 128)%Z) with false. cbn beta iota.
    rewrite (try_run _ _ _ _ _ (read_random_quiet _ _ t)), Hws. by rewrite <- Nat.iter_succ_r. }
  unfold GenerateRecoveryPhrase.
  by rewrite (try_run _ _ _ _ _ (wrapping_run "keychain: generate recovery phrase" _ _ _ _ Hm)).
Qed.
End crypto_facts.
