(* ===== verification/KeychainStore.v ===== *)
(** * The tables of the keychain ([internal/vault/keychain/store.go])

    The rows of [user_keychains], [keychain_secrets] and [keychain_audit_log], and every
    statement on them.  A row of secrets is found by its unique index: user, name and
    repository, where NULL counts as the nil identifier.  Statements ordered by name return
    their rows in the order of [RowOrder], since the collation is the database's.  A violated
    foreign key is a failed statement. *)

From Stdlib Require Import ZArith Lia Ascii String.
From stdpp Require Import base list gmap strings sorting.
From S2P Require Import Prelude GoStrings SwarmDb Db KeychainCrypto.
Local Open Scope string_scope.
Local Open Scope rtv_scope.
Local Open Scope Z_scope.

(** ** Rows *)

(** [se_WrappedDEK] is [None] where the slice is nil. *)
Record SecretEntry := {
  se_ID : UUID;
  se_UserID : UUID;
  se_RepoID : option UUID;
  se_Name : string;
  se_Ciphertext : string;
  se_WrappedDEK : option string;
  se_Version : Z;
  se_Category : string;
  se_Metadata : string;
  se_CreatedAt : Z;
  se_UpdatedAt : Z
}.

Record UserKeychain := {
  uk_Salt : string;
  uk_AuthKeyHash : string;
  uk_RecoveryHint : string;
  uk_RecoverySalt : option string;
  uk_RecoveryWrappedKey : option string;
  uk_KeyVersion : Z;
  uk_CreatedAt : Z;
  uk_UpdatedAt : Z
}.

Record SecretVersionEntry := {
  sv_Name : string;
  sv_Version : Z;
  sv_Category : string;
  sv_RepoID : option UUID;
  sv_UpdatedAt : Z
}.

Inductive AuditAction :=
  | AuditInit | AuditPutSecret | AuditGetSecret | AuditDeleteSecret | AuditSync
  | AuditRotateKey | AuditRecover | AuditRefreshRecovery | AuditBuildSecretPut
  | AuditBuildSecretGet | AuditBuildSecretDel | AuditBuildSecretList.

Record AuditLogEntry := {
  al_ID : UUID;
  al_UserID : UUID;
  al_Action : AuditAction;
  al_SecretName : string;
  al_IPAddr : string;
  al_UserAgent : string;
  al_CreatedAt : Z
}.

(** The derived keys that the cache of the service points to are shared with whoever loaded
    them: the cache holds a place in [v_keys]. *)
Record cachedKey := { ck_keys : nat; ck_expiresAt : Z }.

(** User, name, [COALESCE(repo_id, nil)]. *)
Notation SecretKey := (UUID * string * UUID)%type (only parsing).

Record Vault := {
  v_keychains : gmap UUID UserKeychain;
  v_secrets : gmap SecretKey SecretEntry;
  v_audit : list AuditLogEntry;
  v_cache : gmap UUID cachedKey;
  v_keys : list DerivedKeys;
  v_draws : nat
}.

Definition set_keychains (f : gmap UUID UserKeychain -> gmap UUID UserKeychain) (v : Vault) :=
  {| v_keychains := f (v_keychains v); v_secrets := v_secrets v; v_audit := v_audit v;
     v_cache := v_cache v; v_keys := v_keys v; v_draws := v_draws v |}.
Definition set_secrets (f : gmap SecretKey SecretEntry -> gmap SecretKey SecretEntry)
    (v : Vault) :=
  {| v_keychains := v_keychains v; v_secrets := f (v_secrets v); v_audit := v_audit v;
     v_cache := v_cache v; v_keys := v_keys v; v_draws := v_draws v |}.
Definition set_audit (f : list AuditLogEntry -> list AuditLogEntry) (v : Vault) :=
  {| v_keychains := v_keychains v; v_secrets := v_secrets v; v_audit := f (v_audit v);
     v_cache := v_cache v; v_keys := v_keys v; v_draws := v_draws v |}.
Definition set_cache (f : gmap UUID cachedKey -> gmap UUID cachedKey) (v : Vault) :=
  {| v_keychains := v_keychains v; v_secrets := v_secrets v; v_audit := v_audit v;
     v_cache := f (v_cache v); v_keys := v_keys v; v_draws := v_draws v |}.
Definition set_keys (f : list DerivedKeys -> list DerivedKeys) (v : Vault) :=
  {| v_keychains := v_keychains v; v_secrets := v_secrets v; v_audit := v_audit v;
     v_cache := v_cache v; v_keys := f (v_keys v); v_draws := v_draws v |}.

#[export] Instance Vault_draws : Draws Vault := {|
  draws := v_draws;
  drawn v :=
    {| v_keychains := v_keychains v; v_secrets := v_secrets v; v_audit := v_audit v;
       v_cache := v_cache v; v_keys := v_keys v; v_draws := S (v_draws v) |}
|}.

Section store.
Context `{RowOrder} `{Entropy}.

(** ** [user_keychains] *)

(** On a conflict the row keeps [created_at]. *)
Definition upsert_keychain (userID : UUID) (kc : UserKeychain)
    (m : gmap UUID UserKeychain) : gmap UUID UserKeychain :=
  match m !! userID with
  | None => <[userID := kc]> m
  | Some old =>
      <[userID := {| uk_Salt := uk_Salt kc; uk_AuthKeyHash := uk_AuthKeyHash kc;
         uk_RecoveryHint := uk_RecoveryHint kc; uk_RecoverySalt := uk_RecoverySalt kc;
         uk_RecoveryWrappedKey := uk_RecoveryWrappedKey kc; uk_KeyVersion := uk_KeyVersion kc;
         uk_CreatedAt := uk_CreatedAt old; uk_UpdatedAt := uk_UpdatedAt kc |}]> m
  end.

Definition InitKeychain (now : Z) (userID : UUID) (kc : UserKeychain) : DBE Vault unit :=
  statement (set_keychains (upsert_keychain userID
    {| uk_Salt := uk_Salt kc; uk_AuthKeyHash := uk_AuthKeyHash kc;
       uk_RecoveryHint := uk_RecoveryHint kc; uk_RecoverySalt := uk_RecoverySalt kc;
       uk_RecoveryWrappedKey := uk_RecoveryWrappedKey kc; uk_KeyVersion := uk_KeyVersion kc;
       uk_CreatedAt := now; uk_UpdatedAt := now |})).

Definition GetKeychain (userID : UUID) : DBE Vault UserKeychain :=
  query_row (fun v => v_keychains v !! userID).

Definition UpdateKeychainKeys (now : Z) (userID : UUID) (salt authKeyHash : string)
    (keyVersion : Z) : DBE Vault unit :=
  statement (set_keychains (alter (fun kc =>
    {| uk_Salt := salt; uk_AuthKeyHash := authKeyHash; uk_RecoveryHint := uk_RecoveryHint kc;
       uk_RecoverySalt := uk_RecoverySalt kc;
       uk_RecoveryWrappedKey := uk_RecoveryWrappedKey kc; uk_KeyVersion := keyVersion;
       uk_CreatedAt := uk_CreatedAt kc; uk_UpdatedAt := now |}) userID)).

Definition UpdateRecoveryWrappedKey (now : Z) (userID : UUID)
    (recoverySalt recoveryWrappedKey : option string) : DBE Vault unit :=
  statement (set_keychains (alter (fun kc =>
    {| uk_Salt := uk_Salt kc; uk_AuthKeyHash := uk_AuthKeyHash kc;
       uk_RecoveryHint := uk_RecoveryHint kc; uk_RecoverySalt := recoverySalt;
       uk_RecoveryWrappedKey := recoveryWrappedKey; uk_KeyVersion := uk_KeyVersion kc;
       uk_CreatedAt := uk_CreatedAt kc; uk_UpdatedAt := now |}) userID)).

(** ** [keychain_secrets] *)

Definition repo_key (repoID : option UUID) : UUID := default 0%N repoID.
Definition secret_key (e : SecretEntry) : SecretKey :=
  (se_UserID e, se_Name e, repo_key (se_RepoID e)).

(** [INSERT ... ON CONFLICT ... DO UPDATE ... WHERE version < EXCLUDED.version] *)
Definition upsert_secret (e : SecretEntry) (m : gmap SecretKey SecretEntry)
    : gmap SecretKey SecretEntry :=
  match m !! secret_key e with
  | None => <[secret_key e := e]> m
  | Some old =>
      if se_Version old <? se_Version e then
        <[secret_key e := {| se_ID := se_ID old; se_UserID := se_UserID old;
           se_RepoID := se_RepoID old; se_Name := se_Name old;
           se_Ciphertext := se_Ciphertext e; se_WrappedDEK := se_WrappedDEK e;
           se_Version := se_Version e; se_Category := se_Category e;
           se_Metadata := se_Metadata e; se_CreatedAt := se_CreatedAt old;
           se_UpdatedAt := se_UpdatedAt e |}]> m
      else m
  end.

Definition stamped (now : Z) (fresh : UUID) (e : SecretEntry) : SecretEntry :=
  {| se_ID := if (se_ID e =? 0)%N then fresh else se_ID e; se_UserID := se_UserID e;
     se_RepoID := se_RepoID e; se_Name := se_Name e; se_Ciphertext := se_Ciphertext e;
     se_WrappedDEK := se_WrappedDEK e; se_Version := se_Version e;
     se_Category := se_Category e; se_Metadata := se_Metadata e;
     se_CreatedAt := if (se_ID e =? 0)%N then now else se_CreatedAt e; se_UpdatedAt := now |}.

(** A new identifier is drawn for an entry without one. *)
Definition with_id (now : Z) (e : SecretEntry) : DB Vault SecretEntry :=
  if (se_ID e =? 0)%N then fresh ← new_uuid; mret (stamped now fresh e)
  else mret (stamped now 0%N e).

Definition PutSecret (now : Z) (entry : SecretEntry) : DBE Vault unit :=
  e ← with_id now entry;
  wrapping "keychain: put secret" (statement (set_secrets (upsert_secret e))).

(** [user_id = $1 AND name = $2 AND repo_id = $3], or [repo_id IS NULL]. *)
Definition find_secret (userID : UUID) (name : string) (repoID : option UUID)
    (m : gmap SecretKey SecretEntry) : option SecretEntry :=
  match m !! (userID, name, repo_key repoID) with
  | Some e => if bool_decide (se_RepoID e = repoID) then Some e else None
  | None => None
  end.

Definition GetSecret (userID : UUID) (name : string) (repoID : option UUID)
    : DBE Vault SecretEntry :=
  query_row (fun v => find_secret userID name repoID (v_secrets v)).

Definition rows_where (p : SecretEntry -> bool) (v : Vault) : list SecretEntry :=
  row_order (List.filter p (map_to_list (v_secrets v)).*2).

Definition is_global (userID : UUID) (e : SecretEntry) : bool :=
  (se_UserID e =? userID)%N && bool_decide (se_RepoID e = None).

Definition ListSecrets (userID : UUID) : DBE Vault (list SecretEntry) :=
  query (rows_where (is_global userID)).

Definition ListSecretsByCategory (userID : UUID) (category : string)
    : DBE Vault (list SecretEntry) :=
  query (rows_where (fun e => is_global userID e && String.eqb (se_Category e) category)).

(** A row that [find_secret] finds. *)
Definition delete_secret (userID : UUID) (name : string) (repoID : option UUID)
    (m : gmap SecretKey SecretEntry) : gmap SecretKey SecretEntry :=
  match find_secret userID name repoID m with
  | Some _ => delete (userID, name, repo_key repoID) m
  | None => m
  end.

Definition DeleteSecret (userID : UUID) (name : string) : DBE Vault unit :=
  statement (set_secrets (delete_secret userID name None)).
Definition DeleteRepoSecret (userID repoID : UUID) (name : string) : DBE Vault unit :=
  statement (set_secrets (delete_secret userID name (Some repoID))).
Definition DeleteAllSecrets (userID : UUID) : DBE Vault unit :=
  statement (set_secrets (base.filter (fun kv => (se_UserID kv.2 =? userID)%N = false))).

Definition version_entry (e : SecretEntry) : SecretVersionEntry :=
  {| sv_Name := se_Name e; sv_Version := se_Version e; sv_Category := se_Category e;
     sv_RepoID := se_RepoID e; sv_UpdatedAt := se_UpdatedAt e |}.

Definition ListVersions (userID : UUID) : DBE Vault (list SecretVersionEntry) :=
  query (fun v => version_entry <$> rows_where (is_global userID) v).
Definition ListRepoSecretVersions (userID repoID : UUID)
    : DBE Vault (list SecretVersionEntry) :=
  query (fun v => version_entry <$> rows_where (fun e =>
    (se_UserID e =? userID)%N && bool_decide (se_RepoID e = Some repoID)) v).

Definition MergeSecrets (now : Z) (entries : list SecretEntry) : DBE Vault unit :=
  match entries with
  | [] => ok tt
  | _ => transaction (for_all entries (fun entry =>
           e ← with_id now entry;
           wrapping ("keychain: merge secret " ++ se_Name e)
             (statement (set_secrets (upsert_secret e)))))
  end.

Definition rewrap (now : Z) (newWrapped : string) (e : SecretEntry) : SecretEntry :=
  {| se_ID := se_ID e; se_UserID := se_UserID e; se_RepoID := se_RepoID e;
     se_Name := se_Name e; se_Ciphertext := se_Ciphertext e;
     se_WrappedDEK := Some newWrapped; se_Version := se_Version e;
     se_Category := se_Category e; se_Metadata := se_Metadata e;
     se_CreatedAt := se_CreatedAt e; se_UpdatedAt := now |}.

(** [UPDATE ... WHERE user_id = $2 AND name = $3], whatever the repository. *)
Definition rewrap_name (now : Z) (userID : UUID) (name newWrapped : string)
    (m : gmap SecretKey SecretEntry) : gmap SecretKey SecretEntry :=
  (fun e => if (se_UserID e =? userID)%N && String.eqb (se_Name e) name
            then rewrap now newWrapped e else e) <$> m.

(** The map is ranged over in some order. *)
Definition ReWrapAllDEKs (now : Z) (userID : UUID) (reWrapped : gmap string string)
    : DBE Vault unit :=
  if bool_decide (reWrapped = ∅) then ok tt
  else transaction (for_all (row_order (map_to_list reWrapped)) (fun kv =>
         wrapping ("keychain: rewrap DEK for " ++ kv.1)
           (statement (set_secrets (rewrap_name now userID kv.1 kv.2))))).

(** ** [keychain_audit_log] *)

(** A failed insertion is only logged; every caller passes no address and no agent. *)
Definition LogAccess (now : Z) (userID : UUID) (action : AuditAction)
    (secretName ipAddr userAgent : string) : DB Vault unit :=
  id ← new_uuid;
  ignoring (statement (set_audit (fun l => (l ++ [
    {| al_ID := id; al_UserID := userID; al_Action := action; al_SecretName := secretName;
       al_IPAddr := ipAddr; al_UserAgent := userAgent; al_CreatedAt := now |}])%list))).

(** Newest first. *)
Definition ListAuditLog (userID : UUID) (limit : Z) : DBE Vault (list AuditLogEntry) :=
  let limit := if (limit <=? 0) || (200 <? limit) then 50 else limit in
  query (fun v => take (Z.to_nat limit) (order_by (fun x => - al_CreatedAt x) (row_order
    (List.filter (fun x => (al_UserID x =? userID)%N) (v_audit v))))).

(** [LIKE]: [%] matches any text, [_] one byte, a backslash takes the next byte as it is. *)
Fixpoint like (p s : string) : bool :=
  match p with
  | "" => String.eqb s ""
  | String "%" p =>
      (fix any s := like p s || match s with "" => false | String _ s => any s end) s
  | String "\" (String c p) => match s with String a s => Ascii.eqb a c && like p s | "" => false end
  | String "_" p => match s with String _ s => like p s | "" => false end
  | String c p => match s with String a s => Ascii.eqb a c && like p s | "" => false end
  end.

Definition FindUsersWithSecretPrefix (prefix : string) : DBE Vault (list UUID) :=
  query (fun v => row_order (remove_dups (se_UserID <$>
    List.filter (fun e => like (prefix ++ "%") (se_Name e)) (map_to_list (v_secrets v)).*2))).

End store.
