(* ===== verification/Keychain.v ===== *)
(** * The keychain service ([internal/vault/keychain]: [service.go], [migrate.go])

    Every method of [Service] and [UserScopedService], the body of the eviction loop, and
    the migration of the old vault.  A method is one step; the steps of a method that run on
    keys loaded before are definitions of their own ([put_with], [get_with]), because another
    goroutine can evict the keys in between.  [now] is the clock of the method.  Error texts
    leave out identifiers and quotes. *)

From Stdlib Require Import ZArith Lia Ascii String.
From stdpp Require Import base list gmap strings sorting.
From S2P Require Import Prelude GoStrings SwarmDb Db KeychainCrypto.
From S2P Require KeychainStore.
From S2P Require Import KeychainStore.
Local Open Scope string_scope.
Local Open Scope rtv_scope.
Local Open Scope Z_scope.

(** The fields of [Service] that do not change. *)
Record ServiceConfig := { svc_serverMasterKey : string; svc_cacheTTL : Z }.

Definition master_name : string := "__master_key__".

Section service.
Context `{UnicodeTables} `{Primitives} `{Entropy} `{RowOrder} (svc : ServiceConfig).

(** [NewService]: the key in hexadecimal, thirty minutes by default. *)
Definition NewService (serverEncryptionKey : string) (cacheTTL : Z)
    : result ServiceConfig string :=
  match MasterKeyFromHex serverEncryptionKey with
  | Err e => Err ("keychain: invalid server encryption key: " ++ e)
  | Ok serverKey =>
      Ok {| svc_serverMasterKey := serverKey;
            svc_cacheTTL := if cacheTTL =? 0 then 30 * minute else cacheTTL |}
  end.

(** ** Initialisation *)

Record InitResult := { RecoveryPhrase : string; MasterKeyHex : string }.

(** The row of the wrapped master key. *)
Definition master_entry (userID : UUID) (ciphertext : string) (version : Z) : SecretEntry :=
  {| se_ID := 0%N; se_UserID := userID; se_RepoID := None; se_Name := master_name;
     se_Ciphertext := ciphertext; se_WrappedDEK := None; se_Version := version;
     se_Category := "system"; se_Metadata := "{}"; se_CreatedAt := 0; se_UpdatedAt := 0 |}.

Definition lift_result {A} (r : result A string) : DBE Vault A := mret r.

Definition InitForUser (now : Z) (userID : UUID) : DBE Vault InitResult :=
  r ← GetKeychain userID;
  match r with
  | Ok _ => fail "keychain: already initialized"
  | Err _ =>
      masterKey ←? GenerateMasterKey;
      salt ←? GenerateSalt;
      dk ←? lift_result (DeriveKeys masterKey salt);
      phrase ←? GenerateRecoveryPhrase;
      wrappedMasterKEK ←? wrapping "keychain: wrap master key with KEK"
        (WrapDEK (svc_serverMasterKey svc) masterKey);
      recoverySalt ←? GenerateRecoverySalt;
      wrappedMasterPhrase ←? wrapping "keychain: wrap master key with phrase"
        (WrapMasterKeyWithPhrase masterKey phrase recoverySalt);
      _ ←? wrapping "keychain: init keychain record" (InitKeychain now userID
        {| uk_Salt := salt; uk_AuthKeyHash := ComputeAuthKeyVerifier (AuthKey dk);
           uk_RecoveryHint := ""; uk_RecoverySalt := Some recoverySalt;
           uk_RecoveryWrappedKey := Some wrappedMasterPhrase; uk_KeyVersion := 1;
           uk_CreatedAt := 0; uk_UpdatedAt := 0 |});
      _ ←? wrapping "keychain: store wrapped master key"
        (KeychainStore.PutSecret now (master_entry userID wrappedMasterKEK 1));
      LogAccess now userID AuditInit "" "" "";;
      ok {| RecoveryPhrase := phrase; MasterKeyHex := MasterKeyToHex masterKey |}
  end.

(** ** Keys *)

(** The keys at a place, as they are now. *)
Definition keys_at (i : nat) (v : Vault) : DerivedKeys :=
  default {| EncryptionKey := ""; AuthKey := ""; SyncKey := "" |} (v_keys v !! i).

Definition cached (now : Z) (userID : UUID) (v : Vault) : option nat :=
  match v_cache v !! userID with
  | Some ck => if now <? ck_expiresAt ck then Some (ck_keys ck) else None
  | None => None
  end.

(** Allocate the derived keys and point the cache to them. *)
Definition cache_keys (now : Z) (userID : UUID) (dk : DerivedKeys) : DB Vault nat :=
  i ← reads (fun v => List.length (v_keys v));
  writes (set_keys (fun ks => (ks ++ [dk])%list));;
  writes (set_cache <[userID := {| ck_keys := i; ck_expiresAt := now + svc_cacheTTL svc |}]>);;
  mret i.

(** The place of the keys of the user. *)
Definition LoadKeys (now : Z) (userID : UUID) : DBE Vault nat :=
  c ← reads (cached now userID);
  match c with
  | Some i => ok i
  | None =>
      r ← GetKeychain userID;
      match r with
      | Err _ => fail "keychain: user not initialized"
      | Ok kc =>
          r ← KeychainStore.GetSecret userID master_name None;
          match r with
          | Err _ => fail "keychain: master key not found for user"
          | Ok masterEntry =>
              masterKey ←? wrapping "keychain: unwrap master key"
                (lift_result (UnwrapDEK (svc_serverMasterKey svc) (se_Ciphertext masterEntry)));
              dk ←? wrapping "keychain: derive keys"
                (lift_result (DeriveKeys masterKey (uk_Salt kc)));
              i ← cache_keys now userID dk; ok i
          end
      end
  end.

(** Wipe the keys where they are and forget the place. *)
Definition evict (userID : UUID) (v : Vault) : Vault :=
  match v_cache v !! userID with
  | Some ck => set_cache (delete userID) (set_keys (alter Wipe (ck_keys ck)) v)
  | None => v
  end.

Definition EvictKeys (userID : UUID) : DB Vault unit := writes (evict userID).

(** One tick of [evictionLoop]. *)
Definition evict_expired (now : Z) (v : Vault) : Vault :=
  fold_left (fun v kv => if ck_expiresAt kv.2 <? now then evict kv.1 v else v)
    (row_order (map_to_list (v_cache v))) v.

(** ** Secrets *)

(** The rest of [putSecretInternal], with the keys at place [i]. *)
Definition put_with (now : Z) (i : nat) (userID : UUID) (repoID : option UUID)
    (name category plaintext metadata : string) : DBE Vault unit :=
  dek ←? GenerateDEK;
  ciphertext ←? EncryptSecret dek plaintext;
  encryptionKey ← reads (fun v => EncryptionKey (keys_at i v));
  wrappedDEK ←? WrapDEK encryptionKey dek;
  existing ← KeychainStore.GetSecret userID name repoID;
  let entry := {|
    se_ID := match existing with Ok e => se_ID e | Err _ => 0%N end;
    se_UserID := userID; se_RepoID := repoID; se_Name := name; se_Ciphertext := ciphertext;
    se_WrappedDEK := Some wrappedDEK;
    se_Version := match existing with Ok e => wrap64 (se_Version e + 1) | Err _ => 1 end;
    se_Category := category; se_Metadata := metadata;
    se_CreatedAt := match existing with Ok e => se_CreatedAt e | Err _ => 0 end;
    se_UpdatedAt := 0 |} in
  _ ←? KeychainStore.PutSecret now entry;
  LogAccess now userID (if repoID then AuditBuildSecretPut else AuditPutSecret) name "" "";;
  ok tt.

Definition putSecretInternal (now : Z) (userID : UUID) (repoID : option UUID)
    (name category plaintext metadata : string) : DBE Vault unit :=
  i ←? LoadKeys now userID; put_with now i userID repoID name category plaintext metadata.

Definition PutSecret (now : Z) (userID : UUID) (name category plaintext metadata : string) :=
  putSecretInternal now userID None name category plaintext metadata.
Definition PutBuildSecret (now : Z) (userID repoID : UUID) (name plaintext metadata : string) :=
  putSecretInternal now userID (Some repoID) name "build" plaintext metadata.

(** The two layers of a stored secret. *)
Definition open_secret (encryptionKey : string) (e : SecretEntry) : result string string :=
  match UnwrapDEK encryptionKey (default "" (se_WrappedDEK e)) with
  | Err err => Err ("keychain: unwrap DEK for " ++ se_Name e ++ ": " ++ err)
  | Ok dek => wrap_err ("keychain: decrypt " ++ se_Name e) (DecryptSecret dek (se_Ciphertext e))
  end.

(** The rest of [getSecretInternal], with the keys at place [i]. *)
Definition get_with (now : Z) (i : nat) (userID : UUID) (name : string)
    (repoID : option UUID) : DBE Vault string :=
  r ← KeychainStore.GetSecret userID name repoID;
  match r with
  | Err _ => fail ("keychain: secret " ++ name ++ " not found")
  | Ok entry =>
      encryptionKey ← reads (fun v => EncryptionKey (keys_at i v));
      plaintext ←? lift_result (open_secret encryptionKey entry);
      LogAccess now userID (if repoID then AuditBuildSecretGet else AuditGetSecret) name "" "";;
      ok plaintext
  end.

Definition getSecretInternal (now : Z) (userID : UUID) (name : string) (repoID : option UUID)
    : DBE Vault string :=
  i ←? LoadKeys now userID; get_with now i userID name repoID.

Definition GetSecret (now : Z) (userID : UUID) (name : string) :=
  getSecretInternal now userID name None.
Definition GetBuildSecret (now : Z) (userID repoID : UUID) (name : string) :=
  getSecretInternal now userID name (Some repoID).

Definition DeleteSecret (now : Z) (userID : UUID) (name : string) : DBE Vault unit :=
  _ ←? KeychainStore.DeleteSecret userID name;
  LogAccess now userID AuditDeleteSecret name "" "";; ok tt.
Definition DeleteBuildSecret (now : Z) (userID repoID : UUID) (name : string)
    : DBE Vault unit :=
  _ ←? DeleteRepoSecret userID repoID name;
  LogAccess now userID AuditBuildSecretDel name "" "";; ok tt.

Definition ListSecretNames (userID : UUID) := ListVersions userID.
Definition ListBuildSecretNames (now : Z) (userID repoID : UUID)
    : DBE Vault (list SecretVersionEntry) :=
  LogAccess now userID AuditBuildSecretList "" "" "";; ListRepoSecretVersions userID repoID.

(** ** Synchronisation *)

Record SyncResponse := {
  Updated : list SecretVersionEntry;
  Deleted : list string;
  ServerVersions : gmap string Z
}.

(** The response from the server's entries and the client's versions. *)
Definition sync_diff (serverEntries : list SecretVersionEntry) (client : gmap string Z)
    : SyncResponse :=
  let entries := List.filter (fun e => negb (String.eqb (sv_Name e) master_name)) serverEntries in
  let serverMap := fold_left (fun m e => <[sv_Name e := e]> m) entries
                     (∅ : gmap string SecretVersionEntry) in
  {| Updated := List.filter (fun e =>
       match client !! sv_Name e with Some ver => ver <? sv_Version e | None => true end)
       (row_order (map_to_list serverMap)).*2;
     Deleted := List.filter (fun name => negb (String.eqb name master_name)
                                         && bool_decide (serverMap !! name = None))
       (row_order (map_to_list client)).*1;
     ServerVersions := sv_Version <$> serverMap |}.

Definition SyncSecrets (now : Z) (userID : UUID) (client : gmap string Z)
    : DBE Vault SyncResponse :=
  serverEntries ←? wrapping "keychain: list versions for sync" (ListVersions userID);
  LogAccess now userID AuditSync "" "" "";;
  ok (sync_diff serverEntries client).

(** ** Rotation *)

(** The loop that wraps every key again: entries that cannot be unwrapped are skipped. *)
Fixpoint rewrap_all (oldKey newKey : string) (secrets : list SecretEntry)
    (reWrapped : gmap string string) : DBE Vault (gmap string string) :=
  match secrets with
  | [] => ok reWrapped
  | s :: secrets =>
      match se_WrappedDEK s with
      | None => rewrap_all oldKey newKey secrets reWrapped
      | Some w =>
          if String.eqb (se_Name s) master_name
          then rewrap_all oldKey newKey secrets reWrapped
          else
            match UnwrapDEK oldKey w with
            | Err _ => rewrap_all oldKey newKey secrets reWrapped
            | Ok dek =>
                newWrapped ←? wrapping ("keychain: rotation re-wrap " ++ se_Name s)
                  (WrapDEK newKey dek);
                rewrap_all oldKey newKey secrets (<[se_Name s := newWrapped]> reWrapped)
            end
      end
  end.

Definition RotateKeys (now : Z) (userID : UUID) : DBE Vault unit :=
  i ←? LoadKeys now userID;
  kc ←? GetKeychain userID;
  newMaster ←? GenerateMasterKey;
  newSalt ←? GenerateSalt;
  newDK ←? lift_result (DeriveKeys newMaster newSalt);
  secrets ←? wrapping "keychain: list secrets for rotation" (ListSecrets userID);
  oldKey ← reads (fun v => EncryptionKey (keys_at i v));
  reWrapped ←? rewrap_all oldKey (EncryptionKey newDK) secrets ∅;
  wrappedNewMaster ←? wrapping "keychain: wrap new master key"
    (WrapDEK (svc_serverMasterKey svc) newMaster);
  let newVersion := wrap64 (uk_KeyVersion kc + 1) in
  _ ←? wrapping "keychain: persist re-wrapped DEKs" (ReWrapAllDEKs now userID reWrapped);
  _ ←? wrapping "keychain: update master key"
    (KeychainStore.PutSecret now (master_entry userID wrappedNewMaster newVersion));
  _ ←? wrapping "keychain: update keychain keys" (UpdateKeychainKeys now userID newSalt
         (ComputeAuthKeyVerifier (AuthKey newDK)) newVersion);
  ignoring (UpdateRecoveryWrappedKey now userID None None);;
  EvictKeys userID;;
  LogAccess now userID AuditRotateKey "" "" "";;
  ok tt.

(** ** Recovery *)

Definition RefreshRecovery (now : Z) (userID : UUID) (phrase : string) : DBE Vault unit :=
  match ValidateRecoveryPhrase phrase with
  | Some e => fail e
  | None =>
      r ← KeychainStore.GetSecret userID master_name None;
      match r with
      | Err _ => fail "keychain: master key not found for user"
      | Ok masterEntry =>
          masterKey ←? wrapping "keychain: unwrap master key for recovery refresh"
            (lift_result (UnwrapDEK (svc_serverMasterKey svc) (se_Ciphertext masterEntry)));
          recoverySalt ←? GenerateRecoverySalt;
          wrapped ←? wrapping "keychain: wrap master key with phrase"
            (WrapMasterKeyWithPhrase masterKey phrase recoverySalt);
          _ ←? wrapping "keychain: persist recovery blob"
            (UpdateRecoveryWrappedKey now userID (Some recoverySalt) (Some wrapped));
          LogAccess now userID AuditRefreshRecovery "" "" "";; ok tt
      end
  end.

(** The recovered master key, checked against the verifier. *)
Definition recovered_master (kc : UserKeychain) (phrase : string) : result string string :=
  match uk_RecoveryWrappedKey kc, uk_RecoverySalt kc with
  | Some blob, Some salt =>
      if String.eqb blob "" || String.eqb salt ""
      then Err "keychain: no recovery blob stored for user"
      else
        match UnwrapMasterKeyWithPhrase blob phrase salt with
        | Err _ => Err "keychain: recovery phrase does not match"
        | Ok masterKey =>
            match DeriveKeys masterKey (uk_Salt kc) with
            | Err e => Err ("keychain: derive keys from recovered master: " ++ e)
            | Ok dk =>
                if String.eqb (ComputeAuthKeyVerifier (AuthKey dk)) (uk_AuthKeyHash kc)
                then Ok masterKey
                else Err "keychain: recovery phrase does not match (auth verifier mismatch)"
            end
        end
  | _, _ => Err "keychain: no recovery blob stored for user"
  end.

Definition RecoverFromPhrase (now : Z) (userID : UUID) (phrase : string) : DBE Vault unit :=
  r ← GetKeychain userID;
  match r with
  | Err _ => fail "keychain: no keychain found for user"
  | Ok kc =>
      masterKey ←? lift_result (recovered_master kc phrase);
      wrappedMasterKEK ←? wrapping "keychain: re-wrap master key after recovery"
        (WrapDEK (svc_serverMasterKey svc) masterKey);
      _ ←? wrapping "keychain: update master key after recovery"
        (KeychainStore.PutSecret now (master_entry userID wrappedMasterKEK (uk_KeyVersion kc)));
      EvictKeys userID;;
      LogAccess now userID AuditRecover "" "" "";; ok tt
  end.

Definition FindUsersWithLLMKeys : DBE Vault (list UUID) := FindUsersWithSecretPrefix "llm.".

(** ** [UserScopedService] *)

Definition categorize (key : string) : string :=
  if (4 <? String.length key)%nat then
    let p := str_take 4 key in
    if String.eqb p "vcs." then "vcs"
    else if String.eqb p "llm." then "llm"
    else if String.eqb p "mcp:" then "mcp" else "custom"
  else "custom".

(** No error of [GetSecret] is [pgx.ErrNoRows]. *)
Definition user_Get (now : Z) (userID : UUID) (key : string) := GetSecret now userID key.
Definition user_Delete (now : Z) (userID : UUID) (key : string) := DeleteSecret now userID key.
Definition user_Set (now : Z) (userID : UUID) (key value : string) : DBE Vault unit :=
  if String.eqb value "" then user_Delete now userID key
  else PutSecret now userID key (categorize key) value "{}".
Definition user_List (userID : UUID) : DBE Vault (list string) :=
  versions ←? ListSecretNames userID;
  ok (List.filter (fun n => negb (String.eqb n master_name)) (sv_Name <$> versions)).

Definition user_GetAll (now : Z) (userID : UUID) : DBE Vault (gmap string string) :=
  entries ←? ListSecrets userID;
  i ←? LoadKeys now userID;
  encryptionKey ← reads (fun v => EncryptionKey (keys_at i v));
  ok (fold_left (fun m e =>
        match se_WrappedDEK e with
        | None => m
        | Some _ =>
            if String.eqb (se_Name e) master_name then m
            else match open_secret encryptionKey e with
                 | Ok plaintext => <[se_Name e := plaintext]> m
                 | Err _ => m
                 end
        end) entries ∅).

(** ** [migrate.go] *)

Record MigrationConfig := { DryRun : bool; SkipCategories : list string }.

Record MigrateResult := {
  mr_Migrated : Z;
  mr_Skipped : Z;
  mr_Errors : Z;
  mr_ErrorDetails : list string
}.

Definition inferCategory (key : string) : string :=
  if HasPrefix key "vcs." then "vcs"
  else if HasPrefix key "llm." || HasPrefix key "llm_" then "llm"
  else if HasPrefix key "mcp:" || HasPrefix key "mcp." then "mcp"
  else if HasPrefix key "embed_key." then "embedding" else "custom".

Fixpoint migrate_all (now : Z) (userID : UUID) (cfg : MigrationConfig)
    (secrets : list (string * string)) (r : MigrateResult) : DB Vault MigrateResult :=
  match secrets with
  | [] => mret r
  | (key, value) :: secrets =>
      let migrated := {| mr_Migrated := mr_Migrated r + 1; mr_Skipped := mr_Skipped r;
                         mr_Errors := mr_Errors r; mr_ErrorDetails := mr_ErrorDetails r |} in
      if String.eqb value ""
         || bool_decide (inferCategory key ∈ SkipCategories cfg)
      then migrate_all now userID cfg secrets
             {| mr_Migrated := mr_Migrated r; mr_Skipped := mr_Skipped r + 1;
                mr_Errors := mr_Errors r; mr_ErrorDetails := mr_ErrorDetails r |}
      else if DryRun cfg then migrate_all now userID cfg secrets migrated
      else
        res ← PutSecret now userID key (inferCategory key) value "{}";
        match res with
        | Ok _ => migrate_all now userID cfg secrets migrated
        | Err e => migrate_all now userID cfg secrets
            {| mr_Migrated := mr_Migrated r; mr_Skipped := mr_Skipped r;
               mr_Errors := mr_Errors r + 1;
               mr_ErrorDetails := (mr_ErrorDetails r ++ [(key ++ ": " ++ e)%string])%list |}
        end
  end.

(** [oldVault] is the result of [GetAll] of the old vault. *)
Definition MigrateUserSecrets (now : Z) (oldVault : result (gmap string string) string)
    (userID : UUID) (cfg : MigrationConfig) : DBE Vault MigrateResult :=
  r ← GetKeychain userID;
  match r, oldVault with
  | Err _, _ => fail "keychain migration: user has no keychain"
  | _, Err e => fail ("keychain migration: read old vault: " ++ e)
  | Ok _, Ok allSecrets =>
      res ← migrate_all now userID cfg (row_order (map_to_list allSecrets))
        {| mr_Migrated := 0; mr_Skipped := 0; mr_Errors := 0; mr_ErrorDetails := [] |};
      ok res
  end.

Fixpoint migrate_users (now : Z) (cfg : MigrationConfig)
    (readers : list (UUID * result (gmap string string) string))
    : DB Vault (list (UUID * MigrateResult)) :=
  match readers with
  | [] => mret []
  | (userID, reader) :: readers =>
      r ← MigrateUserSecrets now reader userID cfg;
      rest ← migrate_users now cfg readers;
      mret ((userID, match r with
                     | Ok res => res
                     | Err e => {| mr_Migrated := 0; mr_Skipped := 0; mr_Errors := 1;
                                   mr_ErrorDetails := [e] |}
                     end) :: rest)
  end.

Definition BulkMigrate (now : Z) (readers : gmap UUID (result (gmap string string) string))
    (cfg : MigrationConfig) : DB Vault (list (UUID * MigrateResult)) :=
  migrate_users now cfg (row_order (map_to_list readers)).

End service.
