(* ===== verification/KeychainSpec.v ===== *)
(** * What the keychain promises

    A map from names to plaintexts per user, which the encrypted tables, the cache of keys and
    its eviction implement ([keychain_refines_map]); recovery phrases; rotation; merging and
    synchronisation. *)

From Stdlib Require Import ZArith Lia Ascii String.
From stdpp Require Import base list gmap strings sorting.
From S2P Require Import Prelude GoStrings SwarmDb Db KeychainCrypto.
From S2P Require KeychainStore.
From S2P Require Import KeychainStore Keychain.
Local Open Scope string_scope.
Local Open Scope rtv_scope.
Local Open Scope Z_scope.

(** Take one step of a program, given its equation. *)
Tactic Notation "run" uconstr(E) :=
  first [rewrite (try_run _ _ _ _ _ E) | rewrite (bind_run _ _ _ _ _ E)].

(** ** The specification *)

Inductive KOp :=
  | KInit (userID : UUID)
  | KPut (userID : UUID) (repoID : option UUID) (name category value metadata : string)
  | KGet (userID : UUID) (repoID : option UUID) (name : string)
  | KDelete (userID : UUID) (repoID : option UUID) (name : string)
  | KRotate (userID : UUID)
  | KEvict (userID : UUID)
  | KTick.

Inductive KOut := Done | Refused | Value (p : string).

(** Who has a keychain, and the plaintexts. *)
Record Secrets := { sp_users : gset UUID; sp_secrets : gmap SecretKey string }.

Definition spec_step (op : KOp) (s : Secrets) : KOut * Secrets :=
  let known u := bool_decide (u ∈ sp_users s) in
  match op with
  | KInit u => if known u then (Refused, s)
               else (Done, {| sp_users := {[u]} ∪ sp_users s; sp_secrets := sp_secrets s |})
  | KPut u repo name _ value _ =>
      if known u then (Done, {| sp_users := sp_users s;
        sp_secrets := <[(u, name, repo_key repo) := value]> (sp_secrets s) |})
      else (Refused, s)
  | KGet u repo name =>
      if known u then
        match sp_secrets s !! (u, name, repo_key repo) with
        | Some p => (Value p, s)
        | None => (Refused, s)
        end
      else (Refused, s)
  | KDelete u repo name =>
      (Done, {| sp_users := sp_users s;
                sp_secrets := delete (u, name, repo_key repo) (sp_secrets s) |})
  | KRotate u => (if known u then Done else Refused, s)
  | KEvict _ | KTick => (Done, s)
  end.

Section spec.
Context `{UnicodeTables} `{Primitives} `{Entropy} `{RowOrder} (svc : ServiceConfig).

Definition out_unit (r : result unit string) : KOut :=
  match r with Ok _ => Done | Err _ => Refused end.

(** The service, when no step fails. *)
Definition vault_step (now : Z) (op : KOp) (v : Vault) : KOut * Vault :=
  match op with
  | KInit u => let '(r, s) := InitForUser svc now u (quiet v) in
               (match r with Ok _ => Done | Err _ => Refused end, tables s)
  | KPut u repo name category value metadata =>
      let '(r, s) := putSecretInternal svc now u repo name category value metadata (quiet v) in
      (out_unit r, tables s)
  | KGet u repo name =>
      let '(r, s) := getSecretInternal svc now u name repo (quiet v) in
      (match r with Ok p => Value p | Err _ => Refused end, tables s)
  | KDelete u repo name =>
      let '(r, s) := match repo with
                     | None => DeleteSecret now u name (quiet v)
                     | Some repoID => DeleteBuildSecret now u repoID name (quiet v)
                     end in
      (out_unit r, tables s)
  | KRotate u => let '(r, s) := RotateKeys svc now u (quiet v) in (out_unit r, tables s)
  | KEvict u => (Done, evict u v)
  | KTick => (Done, evict_expired now v)
  end.

Fixpoint run_vault (ops : list (Z * KOp)) (v : Vault) : list KOut :=
  match ops with
  | [] => []
  | (now, op) :: ops => let '(o, v) := vault_step now op v in o :: run_vault ops v
  end.

Fixpoint run_spec (ops : list (Z * KOp)) (s : Secrets) : list KOut :=
  match ops with
  | [] => []
  | (_, op) :: ops => let '(o, s) := spec_step op s in o :: run_spec ops s
  end.

(** The tables after a sequence. *)
Definition end_vault (ops : list (Z * KOp)) (v : Vault) : Vault :=
  fold_left (fun v x => (vault_step x.1 x.2 v).2) ops v.
Definition end_spec (ops : list (Z * KOp)) (s : Secrets) : Secrets :=
  fold_left (fun s x => (spec_step x.2 s).2) ops s.

(** No operation names the row of the master key or the nil repository. *)
Definition plain_op (op : KOp) : Prop :=
  match op with
  | KPut _ repo name _ _ _ | KGet _ repo name | KDelete _ repo name =>
      name <> master_name /\ repo <> Some 0%N
  | _ => True
  end.

(** ** The keys and plaintexts of the tables *)

Definition user_keys (v : Vault) (u : UUID) : option DerivedKeys :=
  kc ← v_keychains v !! u;
  e ← v_secrets v !! (u, master_name, 0%N);
  match UnwrapDEK (svc_serverMasterKey svc) (se_Ciphertext e) with
  | Ok m => match DeriveKeys m (uk_Salt kc) with Ok dk => Some dk | Err _ => None end
  | Err _ => None
  end.

Definition reveal (dk : DerivedKeys) (e : SecretEntry) : option string :=
  match open_secret (EncryptionKey dk) e with Ok p => Some p | Err _ => None end.

Definition revealed (v : Vault) (k : SecretKey) : option string :=
  dk ← user_keys v k.1.1; e ← v_secrets v !! k; reveal dk e.

(** Rows are found under their key, have versions up to [n] and belong to known users. *)
Definition row_ok (n : Z) (v : Vault) (k : SecretKey) (e : SecretEntry) : Prop :=
  secret_key e = k /\ se_RepoID e <> Some 0%N /\ 1 <= se_Version e <= n /\
  is_Some (v_keychains v !! k.1.1) /\
  (k.1.2 = master_name -> k.2 = 0%N /\ se_WrappedDEK e = None) /\
  (k.1.2 <> master_name -> is_Some (revealed v k) /\ is_Some (se_WrappedDEK e)).

Record tables_ok (n : Z) (v : Vault) (s : Secrets) : Prop := {
  tb_rows : map_Forall (row_ok n v) (v_secrets v);
  tb_users : dom (v_keychains v) = sp_users s;
  tb_versions : forall u kc, v_keychains v !! u = Some kc -> 1 <= uk_KeyVersion kc <= n;
  tb_master : forall u kc e, v_keychains v !! u = Some kc ->
    v_secrets v !! (u, master_name, 0%N) = Some e -> se_Version e = uk_KeyVersion kc;
  tb_keys : forall u, is_Some (v_keychains v !! u) -> is_Some (user_keys v u);
  tb_secrets : forall k, k.1.2 <> master_name -> sp_secrets s !! k = revealed v k
}.

(** The cached keys are those of the tables, each user's in a place of its own. *)
Record cache_ok (v : Vault) : Prop := {
  ca_keys : forall u ck, v_cache v !! u = Some ck ->
    is_Some (user_keys v u) /\ v_keys v !! ck_keys ck = user_keys v u;
  ca_inj : forall u u' ck ck', v_cache v !! u = Some ck -> v_cache v !! u' = Some ck' ->
    ck_keys ck = ck_keys ck' -> u = u'
}.

Definition sim (n : Z) (v : Vault) (s : Secrets) : Prop := tables_ok n v s /\ cache_ok v.

(** Two states with the same keychains and secrets. *)
Definition same_tables (v v' : Vault) : Prop :=
  v_keychains v' = v_keychains v /\ v_secrets v' = v_secrets v.
Definition same_cache (v v' : Vault) : Prop :=
  v_cache v' = v_cache v /\ v_keys v' = v_keys v.

Lemma user_keys_same v v' u : same_tables v v' -> user_keys v' u = user_keys v u.
Proof. intros [E1 E2]. unfold user_keys. by rewrite E1, E2. Qed.

Lemma revealed_same v v' k : same_tables v v' -> revealed v' k = revealed v k.
Proof.
  intros Hs. unfold revealed. rewrite (user_keys_same v v') by done. by destruct Hs as [_ ->].
Qed.

Lemma tables_ok_same n v v' s : same_tables v v' -> tables_ok n v s -> tables_ok n v' s.
Proof.
  intros Hs [I1 I2 I3 I4 I5 I6]. pose proof Hs as [E1 E2]. split.
  - rewrite E2. eapply map_Forall_impl; [exact I1|]. intros k e.
    unfold row_ok. by rewrite E1, (revealed_same v v').
  - by rewrite E1.
  - by rewrite E1.
  - by rewrite E1, E2.
  - intros u. rewrite E1, (user_keys_same v v') by done. auto.
  - intros k Hk. rewrite (revealed_same v v') by done. auto.
Qed.

Lemma cache_ok_same v v' : same_tables v v' -> same_cache v v' -> cache_ok v -> cache_ok v'.
Proof.
  intros Hs [Ec Ek] [I1 I2]. split.
  - intros u ck. rewrite Ec, Ek, (user_keys_same v v') by done. auto.
  - intros u u' ck ck'. rewrite Ec. eauto.
Qed.

Lemma sim_same n v v' s : same_tables v v' -> same_cache v v' -> sim n v s -> sim n v' s.
Proof. intros Ht Hc [? ?]. split; eauto using tables_ok_same, cache_ok_same. Qed.

Lemma find_secret_lookup n v s u name repo :
  tables_ok n v s -> repo <> Some 0%N ->
  find_secret u name repo (v_secrets v) = v_secrets v !! (u, name, repo_key repo).
Proof.
  intros Hs Hr. unfold find_secret. destruct (v_secrets v !! _) as [e|] eqn:E; [|done].
  destruct (tb_rows _ _ _ Hs _ _ E) as (Hk & Hr0 & _). unfold secret_key in Hk.
  injection Hk as _ _ Hk. rewrite bool_decide_true; [done|].
  unfold repo_key in Hk. destruct repo as [r|], (se_RepoID e) as [r'|]; simpl in Hk;
    congruence.
Qed.

(** ** The audit log and draws change neither tables nor cache *)

Lemma LogAccess_quiet now u a name ip ua v :
  exists v', LogAccess now u a name ip ua (quiet v) = (tt, quiet v') /\
    same_tables v v' /\ same_cache v v'.
Proof. eexists. split; [reflexivity|]. by split. Qed.

(** ** Steps without failure *)

Lemma GetKeychain_quiet u v :
  GetKeychain u (quiet v) =
  (match v_keychains v !! u with Some kc => Ok kc | None => Err no_rows end, quiet v).
Proof. exact (query_row_quiet (fun v => v_keychains v !! u) v). Qed.

Lemma GetSecret_quiet n v s u name repo :
  tables_ok n v s -> repo <> Some 0%N ->
  KeychainStore.GetSecret u name repo (quiet v) =
  (match v_secrets v !! (u, name, repo_key repo) with
   | Some e => Ok e | None => Err no_rows end, quiet v).
Proof.
  intros Hs Hr. unfold KeychainStore.GetSecret. rewrite query_row_quiet.
  by rewrite (find_secret_lookup n v s).
Qed.

Lemma reads_quiet {A} (f : Vault -> A) v : reads f (quiet v) = (f v, quiet v).
Proof. done. Qed.

Lemma lift_run {A} (x : result A string) v : lift_result x (quiet v) = (x, quiet v).
Proof. done. Qed.

(** ** Loading and evicting keys *)

Lemma cached_place n now u v s i :
  sim n v s -> cached now u v = Some i ->
  exists dk, user_keys v u = Some dk /\ keys_at i v = dk.
Proof.
  intros [_ Hc]. unfold cached. destruct (v_cache v !! u) as [ck|] eqn:E; [|done].
  destruct (now <? ck_expiresAt ck); [|done]. intros [= <-].
  destruct (ca_keys _ Hc _ _ E) as [[dk Hdk] Hk]. exists dk. split; [done|].
  unfold keys_at. by rewrite Hk, Hdk.
Qed.

Lemma cache_keys_ok v u dk exp :
  cache_ok v -> user_keys v u = Some dk ->
  cache_ok (set_cache <[u := {| ck_keys := List.length (v_keys v); ck_expiresAt := exp |}]>
    (set_keys (fun ks => (ks ++ [dk])%list) v)).
Proof.
  intros [I1 I2] Hdk. set (v' := set_cache _ _).
  assert (same_tables v v') as Hs by done.
  assert (forall u' ck, v_cache v !! u' = Some ck -> (ck_keys ck < List.length (v_keys v))%nat)
    as Hlt.
  { intros u' ck Hck. destruct (I1 _ _ Hck) as [[dk' Hdk'] Hk]. rewrite Hdk' in Hk.
    by apply lookup_lt_Some in Hk. }
  split.
  - intros u' ck. rewrite (user_keys_same v v') by done. cbn. destruct (decide (u = u')) as [<-|].
    + rewrite lookup_insert_eq. intros [= <-]. rewrite Hdk. cbn. split; [done|].
      by rewrite lookup_app_r, Nat.sub_diag by done.
    + rewrite lookup_insert_ne by done. intros Hck. split; [by apply (I1 _ _ Hck)|].
      rewrite lookup_app_l by (by eapply Hlt). by apply I1.
  - intros u1 u2 ck1 ck2. cbn.
    destruct (decide (u = u1)) as [<-|], (decide (u = u2)) as [<-|]; [done|..];
      rewrite ?lookup_insert_eq, ?lookup_insert_ne by done.
    + intros [= <-] Hck Heq. apply Hlt in Hck. cbn in Heq. lia.
    + intros Hck [= <-] Heq. apply Hlt in Hck. cbn in Heq. lia.
    + eauto.
Qed.

Lemma LoadKeys_known n now u v s :
  sim n v s -> u ∈ sp_users s ->
  exists i v' dk, LoadKeys svc now u (quiet v) = (Ok i, quiet v') /\ same_tables v v' /\
    sim n v' s /\ user_keys v u = Some dk /\ keys_at i v' = dk.
Proof.
  intros Hsim Hu. pose proof Hsim as [Ht Hc]. unfold LoadKeys.
  run (reads_quiet (cached now u) v). destruct (cached now u v) as [i|] eqn:Ei.
  { destruct (cached_place _ _ _ _ _ _ Hsim Ei) as (dk & Hdk & Hi). by exists i, v, dk. }
  rewrite <- (tb_users _ _ _ Ht), elem_of_dom in Hu. destruct (tb_keys _ _ _ Ht u Hu) as [dk Hdk].
  destruct Hu as [kc Hkc]. pose proof Hdk as Hdk'. unfold user_keys in Hdk'.
  rewrite Hkc in Hdk'. cbn in Hdk'.
  destruct (v_secrets v !! (u, master_name, 0%N)) as [e|] eqn:He; [|done]. cbn in Hdk'.
  destruct (UnwrapDEK _ _) as [m|] eqn:Hm; [|done].
  destruct (DeriveKeys m _) as [dk0|] eqn:Hd; [|done]. injection Hdk' as ->.
  run (GetKeychain_quiet u v). rewrite Hkc. cbn beta iota.
  run (GetSecret_quiet n v s u master_name None Ht ltac:(done)).
  change (repo_key None) with 0%N. rewrite He. cbn beta iota.
  rewrite Hm. run (wrapping_run "keychain: unwrap master key" _ _ _ _ (lift_run (Ok m) v)).
  rewrite Hd. run (wrapping_run "keychain: derive keys" _ _ _ _ (lift_run (Ok dk) v)).
  eexists _, _, dk. split; [reflexivity|].
  split; [done|]. split; [|split; [done|]].
  - split; [by eapply tables_ok_same; [|exact Ht]|]. by apply cache_keys_ok.
  - unfold keys_at. cbn. by rewrite lookup_app_r, Nat.sub_diag by done.
Qed.

Lemma LoadKeys_unknown n now u v s :
  sim n v s -> u ∉ sp_users s -> exists e, LoadKeys svc now u (quiet v) = (Err e, quiet v).
Proof.
  intros [Ht Hc] Hu. rewrite <- (tb_users _ _ _ Ht) in Hu. apply not_elem_of_dom in Hu.
  unfold LoadKeys. run (reads_quiet (cached now u) v).
  destruct (cached now u v) as [i|] eqn:Ei.
  { unfold cached in Ei. destruct (v_cache v !! u) as [ck|] eqn:E; [|done].
    destruct (ca_keys _ Hc _ _ E) as [[dk Hdk] _]. unfold user_keys in Hdk.
    by rewrite Hu in Hdk. }
  run (GetKeychain_quiet u v). rewrite Hu. eauto.
Qed.

Lemma evict_sim n v s u : sim n v s -> sim n (evict u v) s /\ same_tables v (evict u v).
Proof.
  intros Hsim. unfold evict. destruct (v_cache v !! u) as [ck|] eqn:E; [|done].
  destruct Hsim as [Ht [I1 I2]].
  set (v' := set_cache _ _). assert (same_tables v v') as Hs by done. split; [|done].
  split; [by eapply tables_ok_same|]. split.
  - intros u' ck'. cbn. intros [Hne Hck]%lookup_delete_Some.
    rewrite (user_keys_same v v') by done. split; [by apply (I1 _ _ Hck)|].
    rewrite list_lookup_alter_ne; [by apply I1|]. intros Hp. apply Hne. by eapply I2.
  - intros u1 u2 ck1 ck2. cbn. intros [_ Hc1]%lookup_delete_Some [_ Hc2]%lookup_delete_Some. eauto.
Qed.

Lemma evict_expired_sim n now v s : sim n v s -> sim n (evict_expired now v) s.
Proof.
  unfold evict_expired. generalize (row_order (map_to_list (v_cache v))) as l. intros l.
  revert v. induction l as [|[u ck] l IH]; intros v Hs; [done|]. simpl. apply IH.
  destruct (_ <? now); [|done]. by apply evict_sim.
Qed.
(** ** Storing a secret *)

Lemma user_keys_length v u dk :
  user_keys v u = Some dk -> String.length (EncryptionKey dk) = 32%nat.
Proof.
  unfold user_keys. destruct (v_keychains v !! u) as [kc|]; [|done]. simpl.
  destruct (v_secrets v !! _) as [e|]; [|done]. simpl. destruct (UnwrapDEK _ _); [|done].
  destruct (DeriveKeys _ _) eqn:E; [|done]. intros [= <-].
  by destruct (DeriveKeys_lengths _ _ _ E).
Qed.

Lemma tables_ok_le n n' v s : n <= n' -> tables_ok n v s -> tables_ok n' v s.
Proof.
  intros Hn [I1 I2 I3 I4 I5 I6]. split; try done.
  - eapply map_Forall_impl; [exact I1|]. intros k e (R1&R2&R3&R4).
    split; [done|]. split; [done|]. split; [lia|done].
  - intros u kc Hkc. specialize (I3 u kc Hkc). lia.
Qed.

Lemma sim_le n n' v s : n <= n' -> sim n v s -> sim n' v s.
Proof. intros Hn [? ?]. split; [by eapply tables_ok_le|done]. Qed.

(** Only the secret at [k] changes. *)
Definition same_but (k : SecretKey) (v v' : Vault) : Prop :=
  v_keychains v' = v_keychains v /\ (forall k', k' <> k -> v_secrets v' !! k' = v_secrets v !! k') /\
  same_cache v v'.

Lemma user_keys_but k v v' u :
  k.1.2 <> master_name -> same_but k v v' -> user_keys v' u = user_keys v u.
Proof. intros Hk (E1 & E2 & _). unfold user_keys. rewrite E1, E2; [done|]. by intros <-. Qed.

Lemma revealed_but k v v' k' :
  k.1.2 <> master_name -> same_but k v v' -> k' <> k -> revealed v' k' = revealed v k'.
Proof.
  intros Hk Hs Hne. unfold revealed. rewrite (user_keys_but k v v') by done.
  by destruct Hs as (_ & -> & _).
Qed.

Lemma cache_ok_but k v v' :
  k.1.2 <> master_name -> same_but k v v' -> cache_ok v -> cache_ok v'.
Proof.
  intros Hk Hs [I1 I2]. pose proof Hs as (_ & _ & Ec & Ek). split.
  - intros u ck. rewrite Ec, Ek, (user_keys_but k v v') by done. auto.
  - intros u u' ck ck'. rewrite Ec. eauto.
Qed.

(** The table after one secret was stored or removed. *)
Lemma sim_but n k v v' s :
  k.1.2 <> master_name -> same_but k v v' -> sim n v s ->
  match v_secrets v' !! k with Some e => row_ok n v' k e | None => True end ->
  sim n v' {| sp_users := sp_users s;
              sp_secrets := partial_alter (fun _ => revealed v' k) k (sp_secrets s) |}.
Proof.
  intros Hk Hs [[I1 I2 I3 I4 I5 I6] Hc] Hrow. pose proof Hs as (E1 & E2 & _).
  split; [|by eapply cache_ok_but]. split; cbn [sp_users sp_secrets].
  - intros k' e He. destruct (decide (k' = k)) as [->|Hne]; [by rewrite He in Hrow|].
    rewrite E2 in He by done. specialize (I1 k' e He). unfold row_ok in *.
    by rewrite E1, (revealed_but k v v').
  - by rewrite E1.
  - by rewrite E1.
  - intros u kc e. rewrite E1, E2 by (by intros <-). eauto.
  - intros u. rewrite E1, (user_keys_but k v v') by done. auto.
  - intros k' Hk'. destruct (decide (k = k')) as [<-|Hne].
    + by rewrite lookup_partial_alter_eq.
    + rewrite lookup_partial_alter_ne, (revealed_but k v v') by done. auto.
Qed.

Lemma with_id_quiet now e v :
  exists fresh v', with_id now e (quiet v) = (stamped now fresh e, quiet v') /\
    same_tables v v' /\ same_cache v v'.
Proof. unfold with_id. destruct (se_ID e =? 0)%N; by eexists _, _. Qed.

Lemma PutSecret_quiet now e v :
  exists v' fresh, KeychainStore.PutSecret now e (quiet v) = (Ok tt, quiet v') /\
    v_keychains v' = v_keychains v /\ same_cache v v' /\
    v_secrets v' = upsert_secret (stamped now fresh e) (v_secrets v).
Proof.
  destruct (with_id_quiet now e v) as (fresh & v1 & E & [Hk Hs] & Hc).
  exists (set_secrets (upsert_secret (stamped now fresh e)) v1), fresh.
  unfold KeychainStore.PutSecret. run E. split_and!; [done..|]. cbn. by rewrite Hs.
Qed.

(** An entry with a newer version takes the place of the row. *)
Lemma upsert_newer e m :
  (forall old, m !! secret_key e = Some old -> secret_key old = secret_key e /\
     se_RepoID old = se_RepoID e /\ se_Version old < se_Version e) ->
  exists e', upsert_secret e m = <[secret_key e := e']> m /\ secret_key e' = secret_key e /\
    se_RepoID e' = se_RepoID e /\ se_Version e' = se_Version e /\ se_Name e' = se_Name e /\
    se_Ciphertext e' = se_Ciphertext e /\ se_WrappedDEK e' = se_WrappedDEK e.
Proof.
  intros Hold. unfold upsert_secret. destruct (m !! secret_key e) as [old|]; [|by exists e].
  destruct (Hold old eq_refl) as (Hk & Hr & Hv). rewrite (proj2 (Z.ltb_lt _ _) Hv).
  eexists. split; [done|]. cbn. injection Hk as Hu Hn _.
  split_and!; try done. unfold secret_key. cbn. by rewrite Hu, Hn, Hr.
Qed.

Lemma put_with_quiet n now i u repo name category value metadata v s dk :
  sim n v s -> 0 <= n < 2 ^ 63 - 1 -> user_keys v u = Some dk -> keys_at i v = dk ->
  name <> master_name -> repo <> Some 0%N ->
  exists v', put_with now i u repo name category value metadata (quiet v) = (Ok tt, quiet v') /\
    sim (n + 1) v' {| sp_users := sp_users s;
                      sp_secrets := <[(u, name, repo_key repo) := value]> (sp_secrets s) |} /\
    same_but (u, name, repo_key repo) v v'.
Proof.
  intros Hsim Hn Hdk Hi Hname Hrepo. pose proof (user_keys_length _ _ _ Hdk) as Hlen.
  pose proof Hsim as [Ht _]. set (k := (u, name, repo_key repo)).
  unfold put_with, GenerateDEK. run (read_random_quiet DEKSize "generate DEK" v).
  set (dek := random_bytes _ _). set (v1 := drawn v).
  assert (String.length dek = 32%nat) as Hdek by apply random_bytes_length.
  run (encrypt_quiet dek value v1 Hdek). set (v2 := drawn v1).
  run (reads_quiet (fun v => EncryptionKey (keys_at i v)) v2).
  change (keys_at i v2) with (keys_at i v). rewrite Hi.
  run (encrypt_quiet (EncryptionKey dk) dek v2 Hlen). set (v3 := drawn v2).
  assert (tables_ok n v3 s) as Ht3 by (eapply tables_ok_same; [|exact Ht]; done).
  run (GetSecret_quiet n v3 s u name repo Ht3 Hrepo). change (v_secrets v3) with (v_secrets v).
  fold k. cbn zeta. set (entry := Build_SecretEntry _ _ _ _ _ _ _ _ _ _ _).
  destruct (PutSecret_quiet now entry v3) as (v4 & fresh & E4 & Hk4 & Hc4 & Hs4). run E4.
  destruct (LogAccess_quiet now u (if repo then AuditBuildSecretPut else AuditPutSecret)
    name "" "" v4) as (v5 & E5 & Ht5 & Hc5). run E5.
  exists v5. split; [done|].
  destruct (upsert_newer (stamped now fresh entry) (v_secrets v)) as
    (e' & Hup & Hk' & Hr' & Hv' & Hn' & Hct & Hw).
  { change (secret_key (stamped now fresh entry)) with k. intros old Hold.
    destruct (tb_rows _ _ _ Ht _ _ Hold) as (Hkey & Hr & Hver & _).
    split; [done|]. subst entry. cbn. rewrite Hold. split.
    - unfold secret_key in Hkey. injection Hkey as _ _ Hkey. unfold repo_key in Hkey.
      destruct repo, (se_RepoID old); simpl in Hkey; congruence.
    - rewrite wrap64_id by (unfold in_int64; lia). lia. }
  change (secret_key (stamped now fresh entry)) with k in *.
  assert (same_but k v v5) as Hbut.
  { destruct Ht5 as [Ek5 Es5]. split; [by rewrite Ek5, Hk4|]. split.
    - intros k' Hne. rewrite Es5, Hs4. change (v_secrets v3) with (v_secrets v).
      by rewrite Hup, lookup_insert_ne.
    - destruct Hc4 as [C1 C2], Hc5 as [D1 D2]. split; [by rewrite D1, C1|by rewrite D2, C2]. }
  assert (v_secrets v5 !! k = Some e') as He'.
  { destruct Ht5 as [_ ->]. rewrite Hs4. change (v_secrets v3) with (v_secrets v).
    by rewrite Hup, lookup_insert_eq. }
  assert (revealed v5 k = Some value) as Hrev.
  { unfold revealed. cbn [fst k]. rewrite (user_keys_but k v v5), Hdk, He' by done. cbn.
    unfold reveal, open_secret. rewrite Hw, Hct. cbn.
    rewrite UnwrapDEK_sealed by done. unfold DecryptSecret. by rewrite decrypt_sealed. }
  assert (sim (n + 1) v s) as Hsim1 by (eapply sim_le; [|exact Hsim]; lia).
  pose proof (sim_but (n + 1) k v v5 s Hname Hbut Hsim1) as Hfin.
  rewrite Hrev in Hfin. split; [|done]. apply Hfin. rewrite He'.
  split; [|split; [|split; [|split; [|split]]]].
  - done.
  - by rewrite Hr'.
  - rewrite Hv'. subst entry. cbn. destruct (v_secrets v !! k) as [old|] eqn:Hold; [|lia].
    destruct (tb_rows _ _ _ Ht _ _ Hold) as (_ & _ & Hver & _).
    rewrite wrap64_id; unfold in_int64; lia.
  - destruct Hbut as (-> & _). unfold user_keys in Hdk. cbn.
    by destruct (v_keychains v !! u).
  - done.
  - intros _. rewrite Hrev, Hw. split; eauto.
Qed.
(** ** Reading and removing a secret *)

Lemma getSecret_quiet n now u repo name v s :
  sim n v s -> u ∈ sp_users s -> name <> master_name -> repo <> Some 0%N ->
  exists r v', getSecretInternal svc now u name repo (quiet v) = (r, quiet v') /\ sim n v' s /\
    same_tables v v' /\
    match sp_secrets s !! (u, name, repo_key repo) with
    | Some p => r = Ok p | None => exists e, r = Err e end.
Proof.
  intros Hsim Hu Hname Hrepo. set (k := (u, name, repo_key repo)).
  destruct (LoadKeys_known n now u v s Hsim Hu) as (i & v1 & dk & E1 & Hs1 & Hsim1 & Hdk & Hi).
  pose proof Hsim1 as [Ht1 _]. pose proof (tb_secrets _ _ _ Ht1 k Hname) as Hsp.
  unfold getSecretInternal. run E1. unfold get_with.
  run (GetSecret_quiet n v1 s u name repo Ht1 Hrepo). fold k.
  unfold revealed in Hsp. rewrite (user_keys_same v v1) in Hsp by done.
  change k.1.1 with u in Hsp. rewrite Hdk in Hsp. cbn in Hsp.
  destruct (v_secrets v1 !! k) as [e|] eqn:He; cbn beta iota in *; cbn in Hsp.
  2: { rewrite Hsp. eexists _, v1. eauto. }
  run (reads_quiet (fun v => EncryptionKey (keys_at i v)) v1). rewrite Hi.
  destruct (tb_rows _ _ _ Ht1 _ _ He) as (_ & _ & _ & _ & _ & Hrev).
  destruct (Hrev Hname) as [[p Hp] _]. unfold revealed in Hp.
  rewrite (user_keys_same v v1) in Hp by done. change k.1.1 with u in Hp.
  rewrite Hdk, He in Hp. cbn in Hp. rewrite Hp in Hsp. rewrite Hsp.
  unfold reveal in Hp. destruct (open_secret (EncryptionKey dk) e) as [p'|] eqn:Eo; [|done].
  injection Hp as ->. run (lift_run (Ok p) v1).
  destruct (LogAccess_quiet now u (if repo then AuditBuildSecretGet else AuditGetSecret)
    name "" "" v1) as (v2 & E2 & Ht2 & Hc2). run E2.
  eexists _, v2. split; [done|]. split; [by eapply sim_same|]. split; [|done].
  destruct Hs1, Ht2. split; congruence.
Qed.

Lemma delete_secret_lookup n v s u name repo :
  tables_ok n v s -> repo <> Some 0%N ->
  delete_secret u name repo (v_secrets v) = delete (u, name, repo_key repo) (v_secrets v).
Proof.
  intros Ht Hr. unfold delete_secret. rewrite (find_secret_lookup n v s) by done.
  destruct (v_secrets v !! _) eqn:E; [done|]. by rewrite delete_id.
Qed.

Lemma delete_sim n v s u name repo :
  sim n v s -> name <> master_name -> repo <> Some 0%N ->
  sim n (set_secrets (delete_secret u name repo) v)
    {| sp_users := sp_users s; sp_secrets := delete (u, name, repo_key repo) (sp_secrets s) |}.
Proof.
  intros Hsim Hname Hrepo. pose proof Hsim as [Ht _]. set (k := (u, name, repo_key repo)).
  set (v' := set_secrets _ v).
  assert (v_secrets v' = delete k (v_secrets v)) as E by by apply (delete_secret_lookup n v s).
  pose proof (sim_but n k v v' s Hname) as Hfin.
  assert (revealed v' k = None) as Hrev.
  { unfold revealed. rewrite E, lookup_delete_eq. by destruct (user_keys v' _). }
  rewrite Hrev in Hfin. apply Hfin; [|done|by rewrite E, lookup_delete_eq].
  split; [done|]. split; [|done]. intros k' Hne. by rewrite E, lookup_delete_ne.
Qed.

Lemma delete_quiet now u repo name v :
  exists v', (match repo with
              | None => DeleteSecret now u name
              | Some repoID => DeleteBuildSecret now u repoID name
              end) (quiet v) = (Ok tt, quiet v') /\
    same_tables (set_secrets (delete_secret u name repo) v) v' /\
    same_cache (set_secrets (delete_secret u name repo) v) v'.
Proof. destruct repo; by eexists. Qed.

(** ** A new keychain *)

Lemma unknown_no_rows n v s u k :
  tables_ok n v s -> v_keychains v !! u = None -> k.1.1 = u -> v_secrets v !! k = None.
Proof.
  intros Ht Hu Hk. destruct (v_secrets v !! k) as [e|] eqn:E; [|done].
  destruct (tb_rows _ _ _ Ht _ _ E) as (_ & _ & _ & [kc Hkc] & _). congruence.
Qed.

(** The tables with the two rows of a new keychain. *)
Lemma init_sim n v v' s u kc e m dk :
  sim n v s -> 1 <= n -> v_keychains v !! u = None ->
  v_keychains v' = <[u := kc]> (v_keychains v) ->
  v_secrets v' = <[(u, master_name, 0%N) := e]> (v_secrets v) -> same_cache v v' ->
  secret_key e = (u, master_name, 0%N) -> se_RepoID e = None -> se_WrappedDEK e = None ->
  se_Version e = 1 -> uk_KeyVersion kc = 1 ->
  UnwrapDEK (svc_serverMasterKey svc) (se_Ciphertext e) = Ok m ->
  DeriveKeys m (uk_Salt kc) = Ok dk ->
  sim n v' {| sp_users := {[u]} ∪ sp_users s; sp_secrets := sp_secrets s |}.
Proof.
  intros [Ht Hc] Hn Hu Ek Es Hcache Hkey Hrepo Hwrap Hver Hkv Hm Hd.
  assert (user_keys v' u = Some dk) as Hdk.
  { unfold user_keys. rewrite Ek, Es, !lookup_insert_eq. cbn. by rewrite Hm, Hd. }
  assert (forall u', u' <> u -> user_keys v' u' = user_keys v u') as Hother.
  { intros u' Hne. unfold user_keys. by rewrite Ek, Es, !lookup_insert_ne by congruence. }
  assert (forall k, k.1.2 <> master_name -> revealed v' k = revealed v k) as Hrev.
  { intros k Hk. unfold revealed.
    rewrite Es, lookup_insert_ne by (by intros <-). destruct (decide (k.1.1 = u)) as [Hku|Hku].
    - rewrite (unknown_no_rows n v s u k) by done.
      by destruct (user_keys v' k.1.1), (user_keys v k.1.1).
    - by rewrite Hother. }
  pose proof Ht as [I1 I2 I3 I4 I5 I6]. split; [split|]; cbn [sp_users sp_secrets].
  - rewrite Es. apply map_Forall_insert_2.
    + split; [done|]. split; [by rewrite Hrepo|]. split; [lia|].
      split; [rewrite Ek; cbn; by rewrite lookup_insert_eq|]. by split.
    + eapply map_Forall_impl; [exact I1|]. intros k e' (R1 & R2 & R3 & R4 & R5 & R6).
      split; [done|]. split; [done|]. split; [done|].
      split; [rewrite Ek; destruct R4 as [kc' R4];
        destruct (decide (u = k.1.1)) as [->|]; [by rewrite lookup_insert_eq
        |by rewrite lookup_insert_ne, R4]|].
      split; [done|]. intros Hk. rewrite Hrev by done. auto.
  - rewrite Ek, dom_insert_L, I2. done.
  - intros u' kc'. rewrite Ek. destruct (decide (u = u')) as [<-|].
    + rewrite lookup_insert_eq. intros [= <-]. lia.
    + rewrite lookup_insert_ne by done. eauto.
  - intros u' kc' e'. rewrite Ek, Es. destruct (decide (u = u')) as [<-|].
    + rewrite !lookup_insert_eq. intros [= <-] [= <-]. lia.
    + rewrite !lookup_insert_ne by congruence. eauto.
  - intros u'. rewrite Ek. destruct (decide (u = u')) as [<-|]; [by rewrite Hdk|].
    rewrite lookup_insert_ne, Hother by done. auto.
  - intros k Hk. rewrite Hrev by done. auto.
  - destruct Hc as [C1 C2], Hcache as [Ec Ec']. split.
    + intros u' ck. rewrite Ec, Ec'. intros Hck. destruct (C1 _ _ Hck) as [Hs Hl].
      rewrite Hother; [done|]. intros ->. unfold user_keys in Hs. rewrite Hu in Hs. by destruct Hs.
    + intros u1 u2 ck1 ck2. rewrite Ec. eauto.
Qed.
Lemma string_length_ne n x : String.length x = S n -> String.eqb x "" = false.
Proof. by destruct x. Qed.

Lemma sealed_ne (v : Vault) key p : String.eqb (sealed v key p) "" = false.
Proof.
  unfold sealed. apply (string_length_ne (11 + String.length (seal key
    (random_bytes (draws v) NonceSize) p))).
  by rewrite string_app_length, random_bytes_length.
Qed.

(** A key wrapped with a phrase is recovered with every phrase of the same words. *)
Lemma UnwrapMasterKeyWithPhrase_sealed v m phrase phrase' salt :
  String.length m = MasterKeySize -> String.length salt = RecoverySaltSize ->
  normalizePhrase phrase' = normalizePhrase phrase ->
  UnwrapMasterKeyWithPhrase (sealed v (argon2 (normalizePhrase phrase) salt) m) phrase' salt = Ok m.
Proof.
  intros Hm Hsalt Hn. unfold UnwrapMasterKeyWithPhrase, DeriveRecoveryWrappingKey.
  rewrite Hsalt, Hn. simpl. rewrite UnwrapDEK_sealed; [done| |done]. apply argon2_length.
Qed.

Lemma WrapMasterKeyWithPhrase_quiet m phrase salt v :
  String.length salt = RecoverySaltSize ->
  WrapMasterKeyWithPhrase m phrase salt (quiet v) =
  (Ok (sealed v (argon2 (normalizePhrase phrase) salt) m), quiet (drawn v)).
Proof.
  intros Hs. unfold WrapMasterKeyWithPhrase, DeriveRecoveryWrappingKey. rewrite Hs. simpl.
  by rewrite (wrapping_run _ _ _ _ _ (encrypt_quiet _ m v (argon2_length _ _))).
Qed.

(** The phrases with which a keychain row gives back the master key. *)
Definition recovers (kc : UserKeychain) (phrase m : string) : Prop :=
  forall phrase', normalizePhrase phrase' = normalizePhrase phrase ->
    recovered_master kc phrase' = Ok m.

Lemma recovers_sealed v m phrase salt kc dk :
  String.length m = MasterKeySize -> String.length salt = RecoverySaltSize ->
  uk_RecoverySalt kc = Some salt ->
  uk_RecoveryWrappedKey kc = Some (sealed v (argon2 (normalizePhrase phrase) salt) m) ->
  DeriveKeys m (uk_Salt kc) = Ok dk -> uk_AuthKeyHash kc = ComputeAuthKeyVerifier (AuthKey dk) ->
  recovers kc phrase m.
Proof.
  intros Hm Hs Es Ew Hd Ha phrase' Hn. unfold recovered_master. rewrite Ew, Es, sealed_ne.
  rewrite (string_length_ne 15) by done. cbn [orb].
  rewrite UnwrapMasterKeyWithPhrase_sealed, Hd, Ha by done. by rewrite String.eqb_refl.
Qed.

Lemma iter_drawn n (v : Vault) :
  same_tables v (Nat.iter n drawn v) /\ same_cache v (Nat.iter n drawn v).
Proof. induction n as [|n [[] []]]; [by split|]. by repeat split. Qed.

Lemma InitKeychain_quiet now u kc v :
  InitKeychain now u kc (quiet v) = (Ok tt, quiet (set_keychains (upsert_keychain u
    {| uk_Salt := uk_Salt kc; uk_AuthKeyHash := uk_AuthKeyHash kc;
       uk_RecoveryHint := uk_RecoveryHint kc; uk_RecoverySalt := uk_RecoverySalt kc;
       uk_RecoveryWrappedKey := uk_RecoveryWrappedKey kc; uk_KeyVersion := uk_KeyVersion kc;
       uk_CreatedAt := now; uk_UpdatedAt := now |}) v)).
Proof. done. Qed.

Lemma InitForUser_quiet now u v :
  String.length (svc_serverMasterKey svc) = 32%nat ->
  v_keychains v !! u = None -> v_secrets v !! (u, master_name, 0%N) = None ->
  exists res v' kc e m dk, InitForUser svc now u (quiet v) = (Ok res, quiet v') /\
    v_keychains v' = <[u := kc]> (v_keychains v) /\
    v_secrets v' = <[(u, master_name, 0%N) := e]> (v_secrets v) /\ same_cache v v' /\
    secret_key e = (u, master_name, 0%N) /\ se_RepoID e = None /\ se_WrappedDEK e = None /\
    se_Version e = 1 /\ uk_KeyVersion kc = 1 /\
    UnwrapDEK (svc_serverMasterKey svc) (se_Ciphertext e) = Ok m /\
    DeriveKeys m (uk_Salt kc) = Ok dk /\ MasterKeyHex res = MasterKeyToHex m /\
    recovery_phrase (RecoveryPhrase res) /\ recovers kc (RecoveryPhrase res) m.
Proof.
  intros Hkek Hu Hmaster. unfold InitForUser. run (GetKeychain_quiet u v). rewrite Hu.
  cbn beta iota. unfold GenerateMasterKey, GenerateSalt, GenerateRecoverySalt.
  run (read_random_quiet MasterKeySize "generate master key" v).
  set (m := random_bytes _ _). set (v1 := drawn v).
  run (read_random_quiet SaltSize "generate salt" v1).
  set (salt := random_bytes _ _). set (v2 := drawn v1).
  assert (String.length m = 32%nat) as Hm by apply random_bytes_length.
  assert (String.length salt = 16%nat) as Hsalt by apply random_bytes_length.
  destruct (DeriveKeys m salt) as [dk|] eqn:Hd.
  2: { unfold DeriveKeys in Hd. by rewrite Hsalt in Hd. }
  run (lift_run (Ok dk) v2). destruct (GenerateRecoveryPhrase_quiet v2) as (phrase & Ep & Hp).
  run Ep. set (v3 := Nat.iter 13 drawn v2).
  run (wrapping_run "keychain: wrap master key with KEK" _ _ _ _
         (encrypt_quiet _ m v3 Hkek)). set (v4 := drawn v3).
  run (read_random_quiet RecoverySaltSize "generate recovery salt" v4).
  set (rsalt := random_bytes _ _). set (v5 := drawn v4).
  assert (String.length rsalt = 16%nat) as Hrs by apply random_bytes_length.
  run (wrapping_run "keychain: wrap master key with phrase" _ _ _ _
         (WrapMasterKeyWithPhrase_quiet m phrase rsalt v5 Hrs)). set (v6 := drawn v5).
  assert (same_tables v v6 /\ same_cache v v6) as [[Ek6 Es6] [Ec6 Ey6]].
  { destruct (iter_drawn 13 v2) as [[] []]. by repeat split. }
  run (wrapping_run "keychain: init keychain record" _ _ _ _ (InitKeychain_quiet now u _ v6)).
  match goal with |- context [set_keychains (upsert_keychain u ?k) v6] => set (kc := k) end.
  set (v7 := set_keychains _ v6).
  destruct (PutSecret_quiet now (master_entry u (sealed v3 (svc_serverMasterKey svc) m) 1) v7)
    as (v8 & fresh & E8 & Ek8 & [Ec8 Ey8] & Es8).
  run (wrapping_run "keychain: store wrapped master key" _ _ _ _ E8).
  destruct (LogAccess_quiet now u AuditInit "" "" "" v8) as (v9 & E9 & [Ek9 Es9] & [Ec9 Ey9]).
  run E9. set (entry := stamped now fresh _) in *.
  exists {| RecoveryPhrase := phrase; MasterKeyHex := MasterKeyToHex m |}, v9, kc, entry, m, dk.
  split; [done|]. split.
  { rewrite Ek9, Ek8. change (v_keychains v7) with (upsert_keychain u kc (v_keychains v6)).
    unfold upsert_keychain. by rewrite Ek6, Hu. }
  split.
  { rewrite Es9, Es8. change (v_secrets v7) with (v_secrets v6). rewrite Es6.
    unfold upsert_secret. change (secret_key entry) with (u, master_name, 0%N). by rewrite Hmaster. }
  split; [split; [by rewrite Ec9, Ec8|by rewrite Ey9, Ey8]|].
  do 5 (split; [done|]).
  split; [cbn; by apply UnwrapDEK_sealed|]. split; [done|]. split; [done|]. split; [done|].
  by eapply (recovers_sealed v5).
Qed.
(** ** Rotation *)

(** What the loop of the rotation makes of the rows: a new wrapping for each key. *)
Lemma rewrap_all_quiet oldKey newKey secrets acc v :
  String.length newKey = 32%nat ->
  NoDup (se_Name <$> secrets) -> (forall s, s ∈ secrets -> acc !! se_Name s = None) ->
  exists R v', rewrap_all oldKey newKey secrets acc (quiet v) = (Ok R, quiet v') /\
    same_tables v v' /\ same_cache v v' /\
    (forall name, name ∉ se_Name <$> secrets -> R !! name = acc !! name) /\
    (forall s, s ∈ secrets -> se_Name s = master_name -> R !! se_Name s = None) /\
    (forall s w dek, s ∈ secrets -> se_Name s <> master_name -> se_WrappedDEK s = Some w ->
       UnwrapDEK oldKey w = Ok dek ->
       exists w', R !! se_Name s = Some w' /\ UnwrapDEK newKey w' = Ok dek).
Proof.
  intros Hlen. revert acc v. induction secrets as [|s secrets IH]; intros acc v Hnd Hacc.
  { exists acc, v. split_and!; try done; intros s; [|intros w dek]; by intros ?%not_elem_of_nil. }
  cbn [fmap list_fmap] in Hnd. apply NoDup_cons in Hnd as [Hs Hnd].
  assert (forall s', s' ∈ secrets -> se_Name s' <> se_Name s) as Hne.
  { intros s' Hin E. apply Hs. rewrite <- E. by apply list_elem_of_fmap_2. }
  assert (acc !! se_Name s = None) as Hnone by (apply Hacc; by left).
  (* the entry is skipped *)
  assert ((forall w dek, se_Name s <> master_name -> se_WrappedDEK s = Some w ->
             UnwrapDEK oldKey w <> Ok dek) ->
    exists R v', rewrap_all oldKey newKey secrets acc (quiet v) = (Ok R, quiet v') /\
    same_tables v v' /\ same_cache v v' /\
    (forall name, name ∉ se_Name <$> s :: secrets -> R !! name = acc !! name) /\
    (forall s', s' ∈ s :: secrets -> se_Name s' = master_name -> R !! se_Name s' = None) /\
    (forall s' w dek, s' ∈ s :: secrets -> se_Name s' <> master_name ->
       se_WrappedDEK s' = Some w -> UnwrapDEK oldKey w = Ok dek ->
       exists w', R !! se_Name s' = Some w' /\ UnwrapDEK newKey w' = Ok dek)) as Hskip.
  { intros Hno. destruct (IH acc v Hnd) as (R & v' & E & Ht & Hc & Hout & Hm & Hin).
    { intros s' Hs'. apply Hacc. by right. }
    exists R, v'. split_and!; try done.
    - intros name Hname. apply Hout. intros ?. apply Hname. by right.
    - intros s' [->|Hs']%elem_of_cons Hsm; [by rewrite Hout|auto].
    - intros s' w dek [->|Hs']%elem_of_cons Hsm Hw Hd; [by apply Hno in Hd|eauto]. }
  cbn [rewrap_all]. destruct (se_WrappedDEK s) as [w|] eqn:Hw; [|apply Hskip; congruence].
  destruct (String.eqb_spec (se_Name s) master_name) as [E|Hn]; [by apply Hskip|].
  destruct (UnwrapDEK oldKey w) as [dek|] eqn:Hd; [|apply Hskip; intros; congruence].
  run (wrapping_run _ _ _ _ _ (encrypt_quiet newKey dek v Hlen)).
  set (w' := sealed v newKey dek).
  destruct (IH (<[se_Name s := w']> acc) (drawn v) Hnd) as (R & v' & E & Ht & Hc & Hout & Hm & Hin).
  { intros s' Hs'. rewrite lookup_insert_ne by (intros ?; by eapply Hne). apply Hacc. by right. }
  exists R, v'. split_and!; try done.
  - intros name Hname. rewrite Hout by (intros ?; apply Hname; by right).
    apply lookup_insert_ne. intros <-. apply Hname. by left.
  - intros s' [->|Hs']%elem_of_cons Hsm; [done|auto].
  - intros s' w0 dek0 [->|Hs']%elem_of_cons Hsm Hw0 Hd0; [|eauto].
    rewrite Hw in Hw0. injection Hw0 as <-. rewrite Hd in Hd0. injection Hd0 as <-.
    exists w'. split; [by rewrite Hout, lookup_insert_eq|].
    apply UnwrapDEK_sealed; [done|]. by eapply UnwrapDEK_length.
Qed.

(** The new wrapping of a row, where there is one. *)
Definition rewrapped (now : Z) (u : UUID) (R : gmap string string) (e : SecretEntry)
    : SecretEntry :=
  if (se_UserID e =? u)%N then
    match R !! se_Name e with Some w => rewrap now w e | None => e end
  else e.

Lemma rewrap_names_fold (now : Z) (u : UUID) (l : list (string * string)) (m : gmap SecretKey SecretEntry) :
  NoDup l.*1 ->
  fold_left (fun (m : gmap SecretKey SecretEntry) kv => rewrap_name now u kv.1 kv.2 m) l m =
  rewrapped now u (list_to_map l) <$> m.
Proof.
  revert m. induction l as [|[name w] l IH]; intros m Hnd; simpl.
  - rewrite <- (map_fmap_id m) at 1. apply map_fmap_ext. intros k e _. unfold rewrapped.
    by destruct (_ =? _)%N.
  - apply NoDup_cons in Hnd as [Hname Hnd]. rewrite IH by done.
    unfold rewrap_name. rewrite <- map_fmap_compose. apply map_fmap_ext. intros k e _.
    cbn. unfold rewrapped. destruct (se_UserID e =? u)%N eqn:Hu; cbn [andb]; [|by rewrite Hu].
    destruct (String.eqb_spec (se_Name e) name) as [<-|Hne].
    + rewrite lookup_insert_eq. cbn. rewrite Hu.
      by rewrite not_elem_of_list_to_map_1.
    + rewrite Hu. by rewrite lookup_insert_ne by congruence.
Qed.

Lemma ReWrapAllDEKs_quiet (now : Z) (u : UUID) (R : gmap string string) v :
  exists v', ReWrapAllDEKs now u R (quiet v) = (Ok tt, quiet v') /\
    v_keychains v' = v_keychains v /\ same_cache v v' /\
    v_secrets v' = rewrapped now u R <$> v_secrets v.
Proof.
  unfold ReWrapAllDEKs. destruct (bool_decide_reflect (R = ∅)) as [->|Hne].
  { exists v. split_and!; try done. rewrite <- (map_fmap_id (v_secrets v)) at 1.
    apply map_fmap_ext. intros k e _. unfold rewrapped. rewrite lookup_empty.
    by destruct (_ =? _)%N. }
  set (l := row_order (map_to_list R)).
  assert (l ≡ₚ map_to_list R) as Hl by apply row_order_perm.
  assert (NoDup l.*1) as Hnd by (rewrite Hl; apply NoDup_fst_map_to_list).
  exists (fold_left (fun v kv => set_secrets (rewrap_name now u kv.1 kv.2) v) l v).
  assert (forall v, same_cache v (fold_left
    (fun v kv => set_secrets (rewrap_name now u kv.1 kv.2) v) l v) /\
    v_keychains (fold_left (fun v kv => set_secrets (rewrap_name now u kv.1 kv.2) v) l v) =
    v_keychains v /\
    v_secrets (fold_left (fun v kv => set_secrets (rewrap_name now u kv.1 kv.2) v) l v) =
    fold_left (fun m kv => rewrap_name now u kv.1 kv.2 m) l (v_secrets v)) as Hfold.
  { clear. induction l as [|kv l IH]; intros v; [done|]. simpl.
    destruct (IH (set_secrets (rewrap_name now u kv.1 kv.2) v)) as (Hc & -> & ->). done. }
  destruct (Hfold v) as (Hc & Hk & Hs). split_and!; try done.
  - apply transaction_quiet.
    apply (for_all_quiet l _ (fun kv v => set_secrets (rewrap_name now u kv.1 kv.2) v)).
    intros kv v0. apply (wrapping_run _ _ _ (Ok tt)). apply statement_quiet.
  - rewrite Hs, rewrap_names_fold by done. f_equal.
    assert (list_to_map l = R) as ->; [|done].
    rewrite (list_to_map_proper l (map_to_list R)) by done. apply list_to_map_to_list.
Qed.
(** *** The rows of a user *)

Lemma NoDup_fmap_filter {A B} (f : A -> B) (p : A -> bool) l :
  NoDup (f <$> l) -> NoDup (f <$> List.filter p l).
Proof.
  induction l as [|x l IH]; [done|]. cbn [fmap list_fmap]. intros [Hx Hl]%NoDup_cons. simpl.
  destruct (p x); [|auto]. apply NoDup_cons. split; [|auto].
  intros (y & E & Hy)%list_elem_of_fmap. apply Hx. rewrite E. apply list_elem_of_fmap_2.
  apply list_elem_of_In, filter_In in Hy as [Hy _]. by apply list_elem_of_In.
Qed.

Lemma rows_where_elem p v e :
  e ∈ rows_where p v <-> (exists k, v_secrets v !! k = Some e) /\ p e = true.
Proof.
  unfold rows_where. rewrite row_order_perm. rewrite list_elem_of_In, filter_In,
    <- list_elem_of_In, list_elem_of_fmap. split.
  - intros [([k e'] & -> & Hk%elem_of_map_to_list) Hp]. eauto.
  - intros [[k Hk] Hp]. split; [|done]. exists (k, e). by rewrite elem_of_map_to_list.
Qed.

Lemma global_names_NoDup n v s u :
  tables_ok n v s -> NoDup (se_Name <$> rows_where (is_global u) v).
Proof.
  intros Ht. unfold rows_where. rewrite row_order_perm.
  assert (forall l, Forall (fun e => is_global u e = true) l -> NoDup (secret_key <$> l) ->
    NoDup (se_Name <$> l)) as Hnames.
  { intros l Hl Hnd. apply (NoDup_fmap_1 (fun name => (u, name, 0%N))).
    rewrite <- list_fmap_compose. erewrite list_fmap_ext; [exact Hnd|].
    intros i e He. rewrite Forall_lookup in Hl. specialize (Hl i e He).
    unfold is_global in Hl. apply andb_prop in Hl as [Hu%N.eqb_eq Hr%bool_decide_eq_true].
    unfold secret_key. by rewrite Hu, Hr. }
  apply Hnames.
  - apply Forall_forall. intros e He. apply list_elem_of_In, filter_In in He. tauto.
  - apply NoDup_fmap_filter. rewrite <- list_fmap_compose.
    erewrite (list_fmap_ext _ fst); [apply NoDup_fst_map_to_list|].
    intros i [k e] Hk. cbn. apply list_elem_of_lookup_2, elem_of_map_to_list in Hk.
    by destruct (tb_rows _ _ _ Ht _ _ Hk).
Qed.

Definition global_only (v : Vault) : Prop :=
  forall k e, v_secrets v !! k = Some e -> k.2 = 0%N.

Lemma global_row n v s u k e :
  tables_ok n v s -> global_only v -> v_secrets v !! k = Some e -> k.1.1 = u ->
  e ∈ rows_where (is_global u) v /\ se_Name e = k.1.2 /\ se_UserID e = u.
Proof.
  intros Ht Hg He Hu. destruct (tb_rows _ _ _ Ht _ _ He) as (Hkey & Hr & _).
  pose proof (Hg _ _ He) as H0'. unfold secret_key in Hkey. subst k. cbn in *.
  split; [|done]. apply rows_where_elem. split; [eauto|]. unfold is_global. rewrite Hu.
  rewrite N.eqb_refl. cbn. apply bool_decide_eq_true_2.
  unfold repo_key in H0'. destruct (se_RepoID e) as [r|]; [|done]. by cbn in H0'; subst.
Qed.

(** The cache after the eviction of the one user whose keys changed. *)
Lemma cache_ok_evict u v v' :
  cache_ok v -> (forall u', u' <> u -> user_keys v' u' = user_keys v u') ->
  v_cache v' = v_cache (evict u v) -> v_keys v' = v_keys (evict u v) -> cache_ok v'.
Proof.
  intros [I1 I2] Hk Ec Ey. unfold evict in *. destruct (v_cache v !! u) as [ck|] eqn:E.
  - split; rewrite Ec; cbn.
    + intros u' ck' [Hne Hck]%lookup_delete_Some. rewrite Hk, Ey by done. cbn.
      destruct (I1 _ _ Hck) as [Hs Hl]. split; [done|].
      rewrite list_lookup_alter_ne; [done|]. intros Hp. apply Hne. by eapply I2.
    + intros u1 u2 ck1 ck2 [_ Hc1]%lookup_delete_Some [_ Hc2]%lookup_delete_Some. eauto.
  - split; rewrite Ec.
    + intros u' ck' Hck. rewrite Ey, Hk by (by intros ->; rewrite E in Hck). auto.
    + eauto.
Qed.

(** *** The tables after a rotation *)

Lemma rotate_sim n v v' s u kc' e' m dk ndk (R : gmap string string) now :
  tables_ok n v s -> cache_ok v -> global_only v -> u ∈ sp_users s ->
  user_keys v u = Some dk ->
  (forall e w dek, e ∈ rows_where (is_global u) v -> se_Name e <> master_name ->
     se_WrappedDEK e = Some w -> UnwrapDEK (EncryptionKey dk) w = Ok dek ->
     exists w', R !! se_Name e = Some w' /\ UnwrapDEK (EncryptionKey ndk) w' = Ok dek) ->
  v_keychains v' = <[u := kc']> (v_keychains v) ->
  v_secrets v' = <[(u, master_name, 0%N) := e']> (rewrapped now u R <$> v_secrets v) ->
  v_cache v' = v_cache (evict u v) -> v_keys v' = v_keys (evict u v) ->
  secret_key e' = (u, master_name, 0%N) -> se_RepoID e' = None -> se_WrappedDEK e' = None ->
  1 <= se_Version e' <= n + 1 -> se_Version e' = uk_KeyVersion kc' ->
  UnwrapDEK (svc_serverMasterKey svc) (se_Ciphertext e') = Ok m ->
  DeriveKeys m (uk_Salt kc') = Ok ndk ->
  sim (n + 1) v' s /\ global_only v' /\ user_keys v' u = Some ndk.
Proof.
  intros Ht Hc Hg Hu Hdk HR Ek Es Ec Ey Hkey Hrepo Hwrap Hver Hkv Hm Hd.
  set (mk := (u, master_name, 0%N)) in *.
  assert (user_keys v' u = Some ndk) as Hndk.
  { unfold user_keys. rewrite Ek, Es. fold mk. rewrite !lookup_insert_eq. cbn. by rewrite Hm, Hd. }
  assert (forall k e, v_secrets v' !! k = Some e -> k <> mk ->
    exists e0, v_secrets v !! k = Some e0 /\ e = rewrapped now u R e0) as Hrow.
  { intros k e He Hk. rewrite Es, lookup_insert_ne, lookup_fmap in He by done.
    destruct (v_secrets v !! k) as [e0|]; [|done]. injection He as <-. eauto. }
  assert (forall u', u' <> u -> user_keys v' u' = user_keys v u') as Hother.
  { intros u' Hne. assert (mk <> (u', master_name, 0%N)) by (unfold mk; congruence).
    unfold user_keys. rewrite Ek, Es, !lookup_insert_ne, lookup_fmap by done.
    destruct (v_keychains v !! u') as [kc|]; [|done]. cbn.
    destruct (v_secrets v !! (u', master_name, 0%N)) as [e0|] eqn:E0; [|done]. cbn.
    destruct (tb_rows _ _ _ Ht _ _ E0) as (Hk0 & _). unfold secret_key in Hk0.
    injection Hk0 as Hu0 _ _. unfold rewrapped. rewrite Hu0.
    by apply N.eqb_neq in Hne as ->. }
  assert (forall k, k.1.2 <> master_name -> revealed v' k = revealed v k) as Hrev.
  { intros k Hk. unfold revealed at 1. rewrite Es, lookup_insert_ne, lookup_fmap by (by intros <-).
    unfold revealed. destruct (v_secrets v !! k) as [e|] eqn:He.
    2: { by destruct (user_keys v' k.1.1), (user_keys v k.1.1). }
    cbn. destruct (tb_rows _ _ _ Ht _ _ He) as (Hkey0 & _ & _ & _ & _ & Hrv).
    destruct (Hrv Hk) as [[p Hp] [w Hw]]. unfold revealed in Hp.
    destruct (decide (k.1.1 = u)) as [Hku|Hku].
    - rewrite Hku, Hndk, Hdk. rewrite Hku, Hdk, He in Hp. cbn in Hp |- *. rewrite Hp.
      destruct (global_row n v s u k e Ht Hg He Hku) as (Hin & Hname & Huser).
      unfold reveal, open_secret in Hp. rewrite Hw in Hp. cbn in Hp.
      destruct (UnwrapDEK (EncryptionKey dk) w) as [dek|] eqn:Hdek; [|done].
      destruct (HR e w dek Hin ltac:(by rewrite Hname) Hw Hdek) as (w' & Hw' & Hdek').
      unfold rewrapped. rewrite Huser, N.eqb_refl, Hw'. unfold reveal, open_secret. cbn.
      by rewrite Hdek'.
    - rewrite Hother by done. unfold rewrapped.
      assert (se_UserID e <> u) as Hne by (unfold secret_key in Hkey0; by subst k).
      by apply N.eqb_neq in Hne as ->. }
  assert (forall e, secret_key (rewrapped now u R e) = secret_key e /\
    se_RepoID (rewrapped now u R e) = se_RepoID e /\
    se_Version (rewrapped now u R e) = se_Version e) as Hsame.
  { intros e. unfold rewrapped. destruct (_ =? _)%N; [|done]. by destruct (R !! _). }
  pose proof Ht as [I1 I2 I3 I4 I5 I6].
  assert (dom (v_keychains v') = dom (v_keychains v)) as Hdom.
  { rewrite Ek, dom_insert_L, I2. set_solver. }
  split; [split; [split|]|split; [|done]].
  - intros k e He. destruct (decide (k = mk)) as [->|Hne].
    + rewrite Es, lookup_insert_eq in He. injection He as <-.
      split; [done|]. split; [by rewrite Hrepo|]. split; [done|].
      split; [rewrite Ek; cbn; by rewrite lookup_insert_eq|]. by split.
    + destruct (Hrow k e He Hne) as (e0 & He0 & ->).
      destruct (I1 k e0 He0) as (R1 & R2 & R3 & R4 & R5 & R6).
      destruct (Hsame e0) as (S1 & S2 & S3).
      split; [by rewrite S1|]. split; [by rewrite S2|]. split; [rewrite S3; lia|].
      split; [by rewrite <- elem_of_dom, Hdom, elem_of_dom|]. split.
      * intros Hk. destruct (R5 Hk) as [Hk2 _]. destruct k as [[u' name] rid]. cbn in *. subst.
        assert (u' <> u) as Hu' by (intros ->; by apply Hne). split; [done|].
        unfold secret_key in R1. injection R1 as Hue _ _. unfold rewrapped. rewrite Hue.
        apply N.eqb_neq in Hu' as ->. by destruct (R5 eq_refl).
      * intros Hk. rewrite Hrev by done. destruct (R6 Hk) as [? Hw]. split; [done|].
        unfold rewrapped. destruct (_ =? _)%N; [|done]. by destruct (R !! _).
  - by rewrite Hdom.
  - intros u' kc. rewrite Ek. destruct (decide (u = u')) as [<-|].
    + rewrite lookup_insert_eq. intros [= <-]. lia.
    + rewrite lookup_insert_ne by done. intros Hkc. specialize (I3 _ _ Hkc). lia.
  - intros u' kc e. rewrite Ek. destruct (decide (u = u')) as [<-|Hne].
    + rewrite Es, !lookup_insert_eq. intros [= <-] [= <-]. lia.
    + rewrite lookup_insert_ne by done. intros Hkc He.
      destruct (Hrow _ _ He) as (e0 & He0 & ->); [by intros [= ->]|].
      destruct (Hsame e0) as (_ & _ & ->). eauto.
  - intros u' Hu'. destruct (decide (u' = u)) as [->|]; [by rewrite Hndk|].
    rewrite Hother by done. apply I5. by rewrite <- elem_of_dom, <- Hdom, elem_of_dom.
  - intros k Hk. rewrite Hrev by done. auto.
  - by eapply cache_ok_evict.
  - intros k e He. destruct (decide (k = mk)) as [->|Hne]; [done|].
    destruct (Hrow k e He Hne) as (e0 & He0 & _). eauto.
Qed.
Lemma global_only_same v v' : same_tables v v' -> global_only v -> global_only v'.
Proof. intros [_ E] Hg k e. rewrite E. apply Hg. Qed.

Lemma evict_same_cache u v v' :
  v_cache v' = v_cache v -> v_keys v' = v_keys v ->
  v_cache (evict u v') = v_cache (evict u v) /\ v_keys (evict u v') = v_keys (evict u v).
Proof.
  intros Ec Ey. unfold evict. rewrite Ec. destruct (v_cache v !! u); [|done].
  cbn. by rewrite Ec, Ey.
Qed.

Lemma evict_same_tables u v :
  v_keychains (evict u v) = v_keychains v /\ v_secrets (evict u v) = v_secrets v.
Proof. unfold evict. by destruct (v_cache v !! u). Qed.

Lemma RotateKeys_quiet n now u v s :
  sim n v s -> 0 <= n < 2 ^ 63 - 1 -> global_only v -> u ∈ sp_users s ->
  String.length (svc_serverMasterKey svc) = 32%nat ->
  exists v', RotateKeys svc now u (quiet v) = (Ok tt, quiet v') /\ sim (n + 1) v' s /\
    global_only v' /\
    exists kc dk, v_keychains v' !! u = Some kc /\ uk_RecoveryWrappedKey kc = None /\
      user_keys v' u = Some dk /\ uk_AuthKeyHash kc = ComputeAuthKeyVerifier (AuthKey dk).
Proof.
  intros Hsim Hn Hg Hu Hkek. unfold RotateKeys.
  destruct (LoadKeys_known n now u v s Hsim Hu) as (i & v1 & dk & E1 & Hs1 & Hsim1 & Hdk & Hi).
  run E1. pose proof Hsim1 as [Ht1 Hc1].
  assert (is_Some (v_keychains v1 !! u)) as [kc Hkc].
  { by rewrite <- elem_of_dom, (tb_users _ _ _ Ht1). }
  assert (GetKeychain u (quiet v1) = (Ok kc, quiet v1)) as Eg by by rewrite GetKeychain_quiet, Hkc.
  run Eg. unfold GenerateMasterKey, GenerateSalt.
  run (read_random_quiet MasterKeySize "generate master key" v1).
  set (m := random_bytes _ _). set (v2 := drawn v1).
  run (read_random_quiet SaltSize "generate salt" v2). set (salt := random_bytes _ _).
  set (v3 := drawn v2).
  assert (String.length m = 32%nat) as Hm by apply random_bytes_length.
  assert (String.length salt = 16%nat) as Hsalt by apply random_bytes_length.
  destruct (DeriveKeys m salt) as [ndk|] eqn:Hd.
  2: { unfold DeriveKeys in Hd. by rewrite Hsalt in Hd. }
  run (lift_run (Ok ndk) v3). destruct (DeriveKeys_lengths _ _ _ Hd) as (Hnlen & _ & _).
  unfold ListSecrets. run (wrapping_run "keychain: list secrets for rotation" _ _ _ _
         (query_quiet (rows_where (is_global u)) v3)).
  run (reads_quiet (fun v => EncryptionKey (keys_at i v)) v3).
  change (keys_at i v3) with (keys_at i v1). rewrite Hi.
  change (rows_where (is_global u) v3) with (rows_where (is_global u) v1).
  destruct (rewrap_all_quiet (EncryptionKey dk) (EncryptionKey ndk)
    (rows_where (is_global u) v1) ∅ v3 Hnlen) as (R & v4 & E4 & [Ek4 Es4] & [Ec4 Ey4] & Hout & Hmn & HR).
  { by eapply global_names_NoDup. }
  { done. }
  run E4.
  run (wrapping_run "keychain: wrap new master key" _ _ _ _ (encrypt_quiet _ m v4 Hkek)).
  cbn zeta. set (v5 := drawn v4).
  assert (1 <= uk_KeyVersion kc <= n) as Hver by exact (tb_versions _ _ _ Ht1 u kc Hkc).
  rewrite wrap64_id by (unfold in_int64; lia).
  destruct (ReWrapAllDEKs_quiet now u R v5) as (v6 & E6 & Ek6 & [Ec6 Ey6] & Es6).
  run (wrapping_run "keychain: persist re-wrapped DEKs" _ _ _ _ E6).
  destruct (PutSecret_quiet now (master_entry u (sealed v4 (svc_serverMasterKey svc) m)
    (uk_KeyVersion kc + 1)) v6) as (v7 & fresh & E7 & Ek7 & [Ec7 Ey7] & Es7).
  run (wrapping_run "keychain: update master key" _ _ _ _ E7).
  set (entry := stamped now fresh _) in *.
  unfold UpdateKeychainKeys, UpdateRecoveryWrappedKey.
  run (wrapping_run "keychain: update keychain keys" _ _ _ _ (statement_quiet _ v7)).
  match goal with |- context [quiet (set_keychains ?f v7)] => set (v8 := set_keychains f v7) end.
  match goal with |- context [ignoring (statement (set_keychains ?f))] =>
    set (v9 := set_keychains f v8);
    assert (ignoring (statement (set_keychains f)) (quiet v8) = (tt, quiet v9)) as E9 by done end.
  run E9. assert (EvictKeys u (quiet v9) = (tt, quiet (evict u v9))) as E10 by done. run E10.
  destruct (LogAccess_quiet now u AuditRotateKey "" "" "" (evict u v9))
    as (v11 & E11 & [Ek11 Es11] & [Ec11 Ey11]). run E11.
  assert (v_cache v9 = v_cache v1 /\ v_keys v9 = v_keys v1) as [Ec9 Ey9].
  { split; [change (v_cache v9) with (v_cache v7); rewrite Ec7, Ec6; exact Ec4
           |change (v_keys v9) with (v_keys v7); rewrite Ey7, Ey6; exact Ey4]. }
  assert (v_cache (evict u v9) = v_cache (evict u v1) /\
    v_keys (evict u v9) = v_keys (evict u v1)) as [Ec10 Ey10] by by apply evict_same_cache.
  destruct (evict_same_tables u v9) as [Ek10 Es10].
  assert (v_secrets v6 = rewrapped now u R <$> v_secrets v1) as Hs6.
  { rewrite Es6. f_equal. exact Es4. }
  assert (v_keychains v7 = v_keychains v1) as Hk7.
  { rewrite Ek7, Ek6. exact Ek4. }
  assert (exists old, v_secrets v1 !! (u, master_name, 0%N) = Some old) as [old Hold].
  { rewrite <- (user_keys_same v v1) in Hdk by done. unfold user_keys in Hdk.
    rewrite Hkc in Hdk. cbn in Hdk. destruct (v_secrets v1 !! _); [eauto|done]. }
  destruct (tb_rows _ _ _ Ht1 _ _ Hold) as (Hko & Hro & Hvo & _ & Hmo & _).
  assert (v_secrets v6 !! (u, master_name, 0%N) = Some old) as Hold6.
  { rewrite Hs6, lookup_fmap, Hold. cbn. unfold rewrapped.
    destruct (global_row n v1 s u _ old Ht1 (global_only_same _ _ Hs1 Hg) Hold eq_refl)
      as (Hin & Hname & Huser). rewrite Huser, N.eqb_refl. by rewrite Hmn. }
  destruct (upsert_newer entry (v_secrets v6)) as
    (e' & Hup & Hk' & Hr' & Hv' & Hn' & Hct & Hw).
  { change (secret_key entry) with (u, master_name, 0%N). intros o Ho. rewrite Hold6 in Ho.
    injection Ho as <-. split; [done|]. pose proof (tb_master _ _ _ Ht1 u kc old Hkc Hold).
    split; [|cbn; lia]. cbn. unfold secret_key in Hko. injection Hko as _ _ Hko.
    unfold repo_key in Hko. destruct (se_RepoID old); [|done]. by cbn in Hko; subst. }
  change (secret_key entry) with (u, master_name, 0%N) in *.
  assert (exists kc', v_keychains v9 = <[u := kc']> (v_keychains v1) /\
    uk_Salt kc' = salt /\ uk_KeyVersion kc' = uk_KeyVersion kc + 1 /\
    uk_RecoveryWrappedKey kc' = None /\
    uk_AuthKeyHash kc' = ComputeAuthKeyVerifier (AuthKey ndk))
    as (kc' & Ek9 & Hsalt' & Hkv' & Hrec & Hauth).
  { change (v_keychains v9) with (alter (fun kc => {| uk_Salt := uk_Salt kc;
      uk_AuthKeyHash := uk_AuthKeyHash kc; uk_RecoveryHint := uk_RecoveryHint kc;
      uk_RecoverySalt := None; uk_RecoveryWrappedKey := None;
      uk_KeyVersion := uk_KeyVersion kc; uk_CreatedAt := uk_CreatedAt kc;
      uk_UpdatedAt := now |}) u (v_keychains v8)).
    change (v_keychains v8) with (alter (fun kc0 => {| uk_Salt := salt;
      uk_AuthKeyHash := ComputeAuthKeyVerifier (AuthKey ndk);
      uk_RecoveryHint := uk_RecoveryHint kc0; uk_RecoverySalt := uk_RecoverySalt kc0;
      uk_RecoveryWrappedKey := uk_RecoveryWrappedKey kc0;
      uk_KeyVersion := uk_KeyVersion kc + 1; uk_CreatedAt := uk_CreatedAt kc0;
      uk_UpdatedAt := now |}) u (v_keychains v7)).
    rewrite Hk7. eexists. split.
    - apply map_eq. intros u'. destruct (decide (u = u')) as [<-|].
      + rewrite !lookup_alter_eq, lookup_insert_eq, Hkc. reflexivity.
      + by rewrite !lookup_alter_ne, lookup_insert_ne.
    - done. }
  exists v11. split; [done|].
  assert (sim (n + 1) v11 s /\ global_only v11 /\ user_keys v11 u = Some ndk)
    as (Hfin & Hgfin & Hndk).
  { apply (rotate_sim n v1 v11 s u kc' e' m dk ndk R now); try done.
    - by eapply global_only_same.
    - by rewrite (user_keys_same v v1).
    - by rewrite Ek11, Ek10.
    - rewrite Es11, Es10. change (v_secrets v9) with (v_secrets v7). by rewrite Es7, Hup, Hs6.
    - by rewrite Ec11, Ec10.
    - by rewrite Ey11, Ey10.
    - rewrite Hv'. cbn. lia.
    - by rewrite Hv', Hkv'.
    - rewrite Hct. cbn. by apply UnwrapDEK_sealed.
    - by rewrite Hsalt'. }
  split_and!; try done. exists kc', ndk. by rewrite Ek11, Ek10, Ek9, lookup_insert_eq.
Qed.
(** ** The simulation *)

Definition rotates (op : KOp) : bool := match op with KRotate _ => true | _ => false end.
Definition global_op (op : KOp) : Prop :=
  match op with KPut _ repo _ _ _ _ | KGet _ repo _ | KDelete _ repo _ => repo = None | _ => True end.

Lemma put_step n now u repo name category value metadata v s :
  sim n v s -> 0 <= n < 2 ^ 63 - 1 -> name <> master_name -> repo <> Some 0%N ->
  let op := KPut u repo name category value metadata in
  (vault_step now op v).1 = (spec_step op s).1 /\
  sim (n + 1) (vault_step now op v).2 (spec_step op s).2 /\
  (repo = None -> global_only v -> global_only (vault_step now op v).2).
Proof.
  intros Hsim Hn Hname Hrepo op. subst op. cbn [vault_step spec_step].
  unfold putSecretInternal. case_bool_decide as Hu.
  - destruct (LoadKeys_known n now u v s Hsim Hu) as (i & v1 & dk & E1 & Hs1 & Hsim1 & Hdk & Hi).
    run E1. rewrite <- (user_keys_same v v1) in Hdk by done.
    destruct (put_with_quiet n now i u repo name category value metadata v1 s dk)
      as (v2 & -> & Hsim2 & _ & Hbut & _); try done.
    split; [done|]. split; [done|]. intros -> Hg k e. cbn.
    destruct (decide (k = (u, name, 0%N))) as [->|Hk]; [done|].
    rewrite Hbut by done. destruct Hs1 as [_ ->]. apply Hg.
  - destruct (LoadKeys_unknown n now u v s Hsim Hu) as (e & E). rewrite (try_run_err _ _ _ _ _ E).
    split; [done|]. split; [|done]. eapply sim_le; [|exact Hsim]. lia.
Qed.

Lemma get_step n now u repo name v s :
  sim n v s -> name <> master_name -> repo <> Some 0%N ->
  let op := KGet u repo name in
  (vault_step now op v).1 = (spec_step op s).1 /\
  sim n (vault_step now op v).2 (spec_step op s).2 /\
  (global_only v -> global_only (vault_step now op v).2).
Proof.
  intros Hsim Hname Hrepo op. subst op. cbn [vault_step spec_step].
  case_bool_decide as Hu.
  - destruct (getSecret_quiet n now u repo name v s) as (r & v1 & -> & Hsim1 & Ht & Hr); try done.
    destruct (sp_secrets s !! _); [subst r|destruct Hr as [e ->]];
      (split; [done|]; split; [done|]; by apply global_only_same).
  - destruct (LoadKeys_unknown n now u v s Hsim Hu) as (e & E). unfold getSecretInternal.
    by rewrite (try_run_err _ _ _ _ _ E).
Qed.

Lemma delete_step n now u repo name v s :
  sim n v s -> name <> master_name -> repo <> Some 0%N ->
  let op := KDelete u repo name in
  (vault_step now op v).1 = (spec_step op s).1 /\
  sim n (vault_step now op v).2 (spec_step op s).2 /\
  (global_only v -> global_only (vault_step now op v).2).
Proof.
  intros Hsim Hname Hrepo op. subst op. cbn [vault_step spec_step].
  pose proof (delete_sim n v s u name repo Hsim Hname Hrepo) as Hdel.
  assert (global_only v -> global_only (set_secrets (delete_secret u name repo) v)) as Hg.
  { intros Hg k e. cbn. rewrite (delete_secret_lookup n v s) by (done || apply Hsim).
    intros [_ He]%lookup_delete_Some. eauto. }
  destruct (delete_quiet now u repo name v) as (v1 & E & Ht & Hc).
  destruct repo; rewrite E; (split; [done|]; split; [by eapply sim_same|];
    intros ?; eapply global_only_same; [exact Ht|auto]).
Qed.

Lemma init_step n now u v s :
  sim n v s -> 1 <= n -> String.length (svc_serverMasterKey svc) = 32%nat ->
  (vault_step now (KInit u) v).1 = (spec_step (KInit u) s).1 /\
  sim n (vault_step now (KInit u) v).2 (spec_step (KInit u) s).2 /\
  (global_only v -> global_only (vault_step now (KInit u) v).2).
Proof.
  intros Hsim Hn Hkek. pose proof Hsim as [Ht _]. cbn [vault_step spec_step].
  case_bool_decide as Hu; rewrite <- (tb_users _ _ _ Ht) in Hu.
  - apply elem_of_dom in Hu as [kc Hkc]. unfold InitForUser. run (GetKeychain_quiet u v).
    by rewrite Hkc.
  - apply not_elem_of_dom in Hu.
    destruct (InitForUser_quiet now u v Hkek Hu) as
      (res & v1 & kc & e & m & dk & -> & Ek & Es & Hc & Hkey & Hr & Hw & Hv & Hkv & Hm & Hd & _).
    { by eapply unknown_no_rows. }
    split; [done|]. split; [by eapply init_sim|]. intros Hg k e'. cbn. rewrite Es.
    intros [[<- _]|[_ He]]%lookup_insert_Some; eauto.
Qed.

Lemma vault_step_sim n now op v s :
  sim n v s -> 1 <= n < 2 ^ 63 - 1 -> String.length (svc_serverMasterKey svc) = 32%nat ->
  plain_op op -> (rotates op = true -> global_only v) ->
  (vault_step now op v).1 = (spec_step op s).1 /\
  sim (n + 1) (vault_step now op v).2 (spec_step op s).2 /\
  (global_op op -> global_only v -> global_only (vault_step now op v).2).
Proof.
  intros Hsim Hn Hkek Hop Hrot.
  assert (forall n v s, sim n v s -> sim (n + 1) v s) as Hle.
  { intros ? ? ?. apply sim_le. lia. }
  destruct op as [u|u repo name cat val md|u repo name|u repo name|u|u|]; cbn [plain_op] in Hop.
  - destruct (init_step n now u v s) as (? & ? & ?); auto; lia.
  - destruct Hop. destruct (put_step n now u repo name cat val md v s) as (? & ? & ?); auto; lia.
  - destruct Hop. destruct (get_step n now u repo name v s) as (? & ? & ?); auto.
  - destruct Hop. destruct (delete_step n now u repo name v s) as (? & ? & ?); auto.
  - cbn [vault_step spec_step]. case_bool_decide as Hu.
    + destruct (RotateKeys_quiet n now u v s) as (v1 & -> & ? & ? & _); auto; lia.
    + destruct (LoadKeys_unknown n now u v s Hsim Hu) as (e & E). unfold RotateKeys.
      rewrite (try_run_err _ _ _ _ _ E). auto.
  - cbn. destruct (evict_sim n v s u Hsim) as [? ?]. split_and!; auto.
    intros _. by apply global_only_same.
  - cbn. split_and!; auto using evict_expired_sim. intros _ Hg k e.
    assert (v_secrets (evict_expired now v) = v_secrets v) as ->; [|apply Hg].
    unfold evict_expired. generalize (row_order (map_to_list (v_cache v))) as l. clear.
    intros l. revert v. induction l as [|[u ck] l IH]; intros v; [done|]. simpl. rewrite IH.
    destruct (_ <? now); [|done]. apply evict_same_tables.
Qed.

Definition no_vault : Vault :=
  {| v_keychains := ∅; v_secrets := ∅; v_audit := []; v_cache := ∅; v_keys := []; v_draws := 0 |}.
Definition no_secrets : Secrets := {| sp_users := ∅; sp_secrets := ∅ |}.

Lemma no_vault_sim n : sim n no_vault no_secrets.
Proof.
  split; split; cbn; try done.
  - intros u [? H']. by rewrite lookup_empty in H'.
Qed.

Lemma run_vault_sim n ops v s :
  sim n v s -> 1 <= n -> n + Z.of_nat (List.length ops) < 2 ^ 63 - 1 ->
  String.length (svc_serverMasterKey svc) = 32%nat ->
  Forall (fun x => plain_op x.2) ops ->
  (Forall (fun x => rotates x.2 = false) ops \/
   (global_only v /\ Forall (fun x => global_op x.2) ops)) ->
  run_vault ops v = run_spec ops s /\
  sim (n + Z.of_nat (List.length ops)) (end_vault ops v) (end_spec ops s) /\
  (global_only v -> Forall (fun x => global_op x.2) ops -> global_only (end_vault ops v)).
Proof.
  revert n v s. induction ops as [|[now op] ops IH]; intros n v s Hsim Hn Hlen Hkek Hpl Hrot.
  { split; [done|]. cbn. by rewrite Z.add_0_r. }
  apply Forall_cons in Hpl as [Hop Hpl]. cbn [run_vault run_spec List.length] in *.
  destruct (vault_step_sim n now op v s) as (Ho & Hsim1 & Hg1); auto; [lia| |].
  { intros Hr. destruct Hrot as [Hrot|[Hg _]]; [|done]. apply Forall_cons in Hrot as [Hrot _].
    cbn in Hrot. congruence. }
  change (end_vault ((now, op) :: ops) v) with (end_vault ops (vault_step now op v).2).
  change (end_spec ((now, op) :: ops) s) with (end_spec ops (spec_step op s).2).
  destruct (vault_step now op v) as [o v1], (spec_step op s) as [o' s1]. cbn [fst snd] in *.
  subst o'. destruct (IH (n + 1) v1 s1) as (-> & Hend & Hgend); try done; [lia..| |].
  { destruct Hrot as [Hrot|[Hg Hrot]]; apply Forall_cons in Hrot as [Hro Hrot]; [by left|].
    right. split; [|done]. by apply Hg1. }
  split; [done|]. split.
  - by replace (n + Z.of_nat (S (List.length ops))) with
      (n + 1 + Z.of_nat (List.length ops)) by lia.
  - intros Hg [Hgo Hgl]%Forall_cons. auto.
Qed.

Lemma sequence_start ops :
  (Forall (fun x => rotates x.2 = false) ops \/ Forall (fun x => global_op x.2) ops) ->
  Forall (fun x : Z * KOp => rotates x.2 = false) ops \/
  (global_only no_vault /\ Forall (fun x => global_op x.2) ops).
Proof.
  intros [?|?]; [by left|right]. split; [|done]. intros k e. cbn. by rewrite lookup_empty.
Qed.

(** C7: The keychain implements a map.  From the empty tables, any sequence of
    initialisations, stored, read and deleted secrets, rotations, logouts and expiries of the
    cache, of any users at any times, answers exactly as a map from user, repository and name
    to plaintext does, as long as no statement fails, no operation names the row of the master
    key, and no key is rotated in a sequence that stores secrets of repositories. *)
Theorem keychain_refines_map ops :
  String.length (svc_serverMasterKey svc) = 32%nat ->
  Z.of_nat (List.length ops) < 2 ^ 62 ->
  Forall (fun x => plain_op x.2) ops ->
  (Forall (fun x => rotates x.2 = false) ops \/ Forall (fun x => global_op x.2) ops) ->
  run_vault ops no_vault = run_spec ops no_secrets.
Proof.
  intros Hkek Hlen Hpl Hrot.
  apply (run_vault_sim 1); try done; [apply no_vault_sim|lia|by apply sequence_start].
Qed.
End spec.
