(* ===== verification/KeychainSafety.v ===== *)
(** * Recovery, rotation, merging and synchronisation of the keychain

    What the recovery phrase gives back, what a rotation leaves behind, the laws of the
    versioned merge, the answer to a synchronising client, and runs in which a failure or
    another goroutine comes between the steps. *)

From Stdlib Require Import ZArith Lia Ascii String.
From stdpp Require Import base list gmap strings sorting.
From S2P Require Import Prelude GoStrings SwarmDb Db KeychainCrypto.
From S2P Require KeychainStore.
From S2P Require Import KeychainStore Keychain KeychainSpec.
Local Open Scope string_scope.
Local Open Scope rtv_scope.
Local Open Scope Z_scope.

Section recovery.
Context `{UnicodeTables} `{Primitives} `{Entropy} `{RowOrder} (svc : ServiceConfig).

(** ** Recovery *)

(** The entry of a recovery is not newer than the row of the master key. *)
Lemma upsert_not_newer e m old :
  m !! secret_key e = Some old -> se_Version e <= se_Version old -> upsert_secret e m = m.
Proof. intros Ho Hv. unfold upsert_secret. rewrite Ho. by rewrite (proj2 (Z.ltb_ge _ _) Hv). Qed.

Lemma RecoverFromPhrase_quiet now u phrase v kc m old :
  String.length (svc_serverMasterKey svc) = 32%nat ->
  v_keychains v !! u = Some kc -> recovered_master kc phrase = Ok m ->
  v_secrets v !! (u, master_name, 0%N) = Some old -> uk_KeyVersion kc <= se_Version old ->
  exists v', RecoverFromPhrase svc now u phrase (quiet v) = (Ok tt, quiet v') /\ same_tables v v'.
Proof.
  intros Hkek Hkc Hm Hold Hver. unfold RecoverFromPhrase.
  run (GetKeychain_quiet u v). rewrite Hkc. cbn beta iota. rewrite Hm. run (lift_run (Ok m) v).
  run (wrapping_run "keychain: re-wrap master key after recovery" _ _ _ _
         (encrypt_quiet _ m v Hkek)).
  destruct (PutSecret_quiet now (master_entry u (sealed v (svc_serverMasterKey svc) m)
    (uk_KeyVersion kc)) (drawn v)) as (v1 & fresh & E1 & Ek1 & Ec1 & Es1).
  run (wrapping_run "keychain: update master key after recovery" _ _ _ _ E1).
  assert (EvictKeys u (quiet v1) = (tt, quiet (evict u v1))) as E2 by done. run E2.
  destruct (LogAccess_quiet now u AuditRecover "" "" "" (evict u v1)) as (v3 & E3 & [Ek3 Es3] & _).
  run E3. exists v3. split; [done|]. destruct (evict_same_tables u v1) as [Ek2 Es2].
  split; [by rewrite Ek3, Ek2, Ek1|]. rewrite Es3, Es2, Es1.
  apply (upsert_not_newer _ _ old); [exact Hold|]. exact Hver.
Qed.

(** C38: If no statement fails, the server's key has 32 bytes and the user has neither a keychain
    nor a row of a master key, an initialisation returns a phrase and a hexadecimal text for one
    and the same master key, the one that its row holds: the text is read back as that key, the
    phrase is a valid recovery phrase and opens the blob of the stored keychain to that key, and
    right after the initialisation a recovery with the phrase succeeds, in any case and with any
    blanks, tabs and line ends between its words.  The recovery leaves keychains and secrets as
    they are; what fails, and what happens between the two, is not part of this. *)
Theorem recovery_roundtrip now later u v :
  String.length (svc_serverMasterKey svc) = 32%nat ->
  v_keychains v !! u = None -> v_secrets v !! (u, master_name, 0%N) = None ->
  exists res v' kc e m, InitForUser svc now u (quiet v) = (Ok res, quiet v') /\
    v_keychains v' !! u = Some kc /\ v_secrets v' !! (u, master_name, 0%N) = Some e /\
    UnwrapDEK (svc_serverMasterKey svc) (se_Ciphertext e) = Ok m /\
    MasterKeyFromHex (MasterKeyHex res) = Ok m /\
    ValidateRecoveryPhrase (RecoveryPhrase res) = None /\
    forall phrase, phrase_words "" phrase = phrase_words "" (RecoveryPhrase res) ->
      recovered_master kc phrase = Ok m /\
      exists v'', RecoverFromPhrase svc later u phrase (quiet v') = (Ok tt, quiet v'') /\
        same_tables v' v''.
Proof.
  intros Hkek Hu Hmaster. destruct (InitForUser_quiet svc now u v Hkek Hu Hmaster) as
    (res & v' & kc & e & m & dk & E & Ek & Es & Hc & Hkey & Hr & Hw & Hv & Hkv & Hm & Hd & Hhex &
     Hp & Hrec).
  assert (v_keychains v' !! u = Some kc) as Hkc by by rewrite Ek, lookup_insert_eq.
  assert (v_secrets v' !! (u, master_name, 0%N) = Some e) as He by by rewrite Es, lookup_insert_eq.
  exists res, v', kc, e, m. split_and!; [done|done|done|done| |by apply recovery_phrase_valid|].
  { rewrite Hhex. apply MasterKeyFromHex_ToHex. by eapply UnwrapDEK_length. }
  intros phrase Hph. assert (recovered_master kc phrase = Ok m) as Hrm.
  { apply Hrec. by rewrite !normalizePhrase_words, Hph. }
  split; [done|]. apply (RecoverFromPhrase_quiet later u phrase v' kc m e); try done. lia.
Qed.
(** *** Whatever fails *)

(** Steps that change neither keychains nor secrets. *)
Definition tables_are (v t : Vault) : Prop := same_tables v t.
Definition frames {A} (m : DB Vault A) : Prop :=
  forall v, ensures (tables_are v) m (fun _ => tables_are v).

Lemma read_random_frames n what : frames (read_random n what : DBE Vault string).
Proof.
  intros v. apply ensures_wrapping. eapply (ensures_try _ (fun _ => tables_are v)).
  - by apply ensures_query.
  - intros i. eapply (ensures_bind _ (fun _ => tables_are v)); [|intros _; by apply ensures_ret].
    by apply ensures_writes.
Qed.

Lemma encrypt_frames key p : frames (encrypt key p : DBE Vault string).
Proof.
  intros v. unfold encrypt. destruct (newGCM key); [|by apply ensures_ret].
  eapply (ensures_try _ (fun _ => tables_are v)).
  - eapply ensures_conseq; [apply read_random_frames|done|]. by intros [] ?.
  - intros nonce. by apply ensures_ret.
Qed.

Lemma new_uuid_frames : frames (new_uuid : DB Vault UUID).
Proof.
  intros v. eapply (ensures_bind _ (fun _ => tables_are v)); [by apply ensures_reads|].
  intros i. eapply (ensures_bind _ (fun _ => tables_are v)); [by apply ensures_writes|].
  intros _. by apply ensures_ret.
Qed.

Lemma with_id_frames now e v :
  ensures (tables_are v) (with_id now e) (fun e' t =>
    tables_are v t /\ secret_key e' = secret_key e /\ se_Version e' = se_Version e).
Proof.
  unfold with_id. destruct (se_ID e =? 0)%N.
  - eapply (ensures_bind _ (fun _ => tables_are v)); [apply new_uuid_frames|].
    intros fresh. by apply ensures_ret.
  - by apply ensures_ret.
Qed.

Lemma LogAccess_frames now u a name ip ua : frames (LogAccess now u a name ip ua).
Proof.
  intros v. eapply (ensures_bind _ (fun _ => tables_are v)); [apply new_uuid_frames|].
  intros id. apply ensures_ignoring. by apply ensures_statement.
Qed.

Lemma EvictKeys_frames u : frames (EvictKeys u).
Proof.
  intros v. apply ensures_writes. intros t [Ek Es]. destruct (evict_same_tables u t) as [E1 E2].
  split; congruence.
Qed.

(** A master entry that is not newer than the row. *)
Lemma PutSecret_not_newer now e old v :
  v_secrets v !! secret_key e = Some old -> se_Version e <= se_Version old ->
  ensures (tables_are v) (KeychainStore.PutSecret now e) (fun _ => tables_are v).
Proof.
  intros Ho Hv. unfold KeychainStore.PutSecret.
  eapply ensures_bind; [apply with_id_frames|]. intros e'. apply ensures_wrapping.
  apply ensures_statement; [|tauto]. intros t ([Ek Es] & Hk & Hver). split; [done|]. cbn.
  rewrite Es. apply (upsert_not_newer _ _ old); [by rewrite Hk|lia].
Qed.

Lemma ensures_ok {A B} v (m : DBE Vault A) (f : A -> DBE Vault B) :
  ensures (tables_are v) m (fun _ => tables_are v) ->
  (forall a, ensures (tables_are v) (f a) (fun _ => tables_are v)) ->
  ensures (tables_are v) (try_bind m f) (fun _ => tables_are v).
Proof.
  intros Hm Hf. eapply (ensures_try _ (fun _ => tables_are v)); [|done].
  eapply ensures_conseq; [exact Hm|done|]. by intros [] ?.
Qed.

Lemma RecoverFromPhrase_frames now u phrase v kc old :
  v_keychains v !! u = Some kc -> v_secrets v !! (u, master_name, 0%N) = Some old ->
  uk_KeyVersion kc <= se_Version old ->
  ensures (tables_are v) (RecoverFromPhrase svc now u phrase) (fun _ => tables_are v).
Proof.
  intros Hkc Hold Hver. unfold RecoverFromPhrase.
  eapply (ensures_bind _ (fun r t => tables_are v t /\ forall kc', r = Ok kc' -> kc' = kc)).
  { apply ensures_query_row; [|done]. intros t kc' Ht Hkc'. split; [done|].
    intros kc'' [= <-]. destruct Ht as [Ek _]. congruence. }
  intros [kc'|e]; [|by apply ensures_ret; intros ? []].
  apply ensures_pure. intros Heq. rewrite (Heq kc' eq_refl). clear Heq.
  apply ensures_ok; [by apply ensures_ret|]. intros m.
  apply ensures_ok; [apply ensures_wrapping, encrypt_frames|]. intros w.
  apply ensures_ok.
  { apply ensures_wrapping. by apply (PutSecret_not_newer _ _ old). }
  intros _. eapply (ensures_bind _ (fun _ => tables_are v)); [apply EvictKeys_frames|]. intros _.
  eapply (ensures_bind _ (fun _ => tables_are v)); [apply LogAccess_frames|]. intros _.
  by apply ensures_ret.
Qed.

(** Recovery never wraps the master key again.  After any sequence of operations from
    the empty tables, a recovery, with any phrase and whatever fails in it, leaves the rows of
    keychains and secrets as they are: the entry it stores has the version of the row, and a
    row is only replaced by a newer version. *)
Theorem recovery_never_rewraps ops now u phrase fs :
  String.length (svc_serverMasterKey svc) = 32%nat ->
  Z.of_nat (List.length ops) < 2 ^ 62 ->
  Forall (fun x => plain_op x.2) ops ->
  (Forall (fun x => rotates x.2 = false) ops \/ Forall (fun x => global_op x.2) ops) ->
  let v := end_vault svc ops no_vault in
  same_tables v (tables (RecoverFromPhrase svc now u phrase (MkRun v fs)).2).
Proof.
  intros Hkek Hlen Hpl Hrot v.
  destruct (run_vault_sim svc 1 ops no_vault no_secrets) as (_ & [Ht _] & _);
    try done; [apply no_vault_sim|lia|by apply sequence_start|]. fold v in Ht.
  destruct (v_keychains v !! u) as [kc|] eqn:Hkc.
  - destruct (tb_keys _ _ _ _ Ht u) as [dk Hdk]; [by rewrite Hkc|].
    unfold user_keys in Hdk. rewrite Hkc in Hdk. cbn in Hdk.
    destruct (v_secrets v !! (u, master_name, 0%N)) as [old|] eqn:Hold; [|done].
    apply (RecoverFromPhrase_frames now u phrase v kc old Hkc Hold); [|done].
    rewrite (tb_master _ _ _ _ Ht u kc old Hkc Hold). lia.
  - unfold RecoverFromPhrase, mbind, DB_bind.
    assert (exists e, GetKeychain u (MkRun v fs) = (Err e, MkRun v (tail fs))) as [e ->]; [|done].
    unfold GetKeychain, query_row, try_bind, query, next_fails, mbind, DB_bind. cbn.
    destruct fs as [|[] fs]; cbn; eauto; rewrite Hkc; cbn; eauto.
Qed.
(** ** Rotation and the recovery blob *)

(** A refreshed blob is opened by every phrase of the same words. *)
Lemma RefreshRecovery_quiet n now u phrase v s kc dk :
  sim svc n v s -> ValidateRecoveryPhrase phrase = None ->
  v_keychains v !! u = Some kc -> user_keys svc v u = Some dk ->
  uk_AuthKeyHash kc = ComputeAuthKeyVerifier (AuthKey dk) ->
  exists v' kc' m, RefreshRecovery svc now u phrase (quiet v) = (Ok tt, quiet v') /\
    v_secrets v' = v_secrets v /\ v_keychains v' = <[u := kc']> (v_keychains v) /\
    uk_Salt kc' = uk_Salt kc /\ uk_KeyVersion kc' = uk_KeyVersion kc /\ recovers kc' phrase m.
Proof.
  intros [Ht _] Hph Hkc Hdk Hauth. unfold RefreshRecovery. rewrite Hph.
  unfold user_keys in Hdk. rewrite Hkc in Hdk. cbn in Hdk.
  run (GetSecret_quiet svc n v s u master_name None Ht ltac:(done)).
  change (repo_key None) with 0%N.
  destruct (v_secrets v !! (u, master_name, 0%N)) as [e|] eqn:He; [|done]. cbn in Hdk.
  cbn beta iota. destruct (UnwrapDEK _ (se_Ciphertext e)) as [m|] eqn:Hm; [|done].
  destruct (DeriveKeys m _) as [dk'|] eqn:Hd; [|done]. injection Hdk as ->.
  run (wrapping_run "keychain: unwrap master key for recovery refresh" _ _ _ _ (lift_run (Ok m) v)).
  unfold GenerateRecoverySalt.
  run (read_random_quiet RecoverySaltSize "generate recovery salt" v). set (salt := random_bytes _ _).
  assert (String.length salt = RecoverySaltSize) as Hsalt by apply random_bytes_length.
  set (v1 := drawn v).
  run (wrapping_run "keychain: wrap master key with phrase" _ _ _ _
         (WrapMasterKeyWithPhrase_quiet m phrase salt v1 Hsalt)).
  unfold UpdateRecoveryWrappedKey.
  run (wrapping_run "keychain: persist recovery blob" _ _ _ _ (statement_quiet _ (drawn v1))).
  match goal with |- context [quiet (set_keychains ?f (drawn v1))] =>
    set (v3 := set_keychains f (drawn v1)) end.
  destruct (LogAccess_quiet now u AuditRefreshRecovery "" "" "" v3) as (v4 & E4 & [Ek4 Es4] & _).
  run E4. eexists v4, _, m. split; [done|]. split; [by rewrite Es4|]. split.
  { rewrite Ek4. cbn. apply map_eq. intros u'. destruct (decide (u = u')) as [<-|].
    - rewrite lookup_alter_eq, lookup_insert_eq, Hkc. reflexivity.
    - by rewrite lookup_alter_ne, lookup_insert_ne. }
  split; [done|]. split; [done|].
  eapply (recovers_sealed v1); [by eapply UnwrapDEK_length|exact Hsalt|done|done|exact Hd|exact Hauth].
Qed.

(** A rotation keeps every global secret readable and puts the recovery phrase out of
    use: no phrase recovers the keychain any more until [RefreshRecovery] is given one, and
    from then on that phrase does, in any case and spacing. *)
Theorem rotate_then_refresh ops t1 t2 t3 u phrase :
  String.length (svc_serverMasterKey svc) = 32%nat ->
  Z.of_nat (List.length ops) < 2 ^ 62 ->
  Forall (fun x => plain_op x.2) ops -> Forall (fun x => global_op x.2) ops ->
  u ∈ sp_users (end_spec ops no_secrets) -> ValidateRecoveryPhrase phrase = None ->
  let v := end_vault svc ops no_vault in
  exists v1 v2, RotateKeys svc t1 u (quiet v) = (Ok tt, quiet v1) /\
    RefreshRecovery svc t2 u phrase (quiet v1) = (Ok tt, quiet v2) /\
    (forall p, (RecoverFromPhrase svc t2 u p (quiet v1)).1 =
               Err "keychain: no recovery blob stored for user") /\
    (forall p, phrase_words "" p = phrase_words "" phrase ->
       (RecoverFromPhrase svc t3 u p (quiet v2)).1 = Ok tt) /\
    (forall k, k.1.2 <> master_name ->
       revealed svc v1 k = revealed svc v k /\ revealed svc v2 k = revealed svc v k).
Proof.
  intros Hkek Hlen Hpl Hgl Hu Hph v.
  assert (global_only no_vault) as Hg0 by (intros k e; cbn; by rewrite lookup_empty).
  destruct (run_vault_sim svc 1 ops no_vault no_secrets) as (_ & Hsim & Hg);
    try done; [apply no_vault_sim|lia|by right|]. fold v in Hsim, Hg. specialize (Hg Hg0 Hgl).
  set (n := 1 + Z.of_nat (List.length ops)) in *. set (s := end_spec ops no_secrets) in *.
  destruct (RotateKeys_quiet svc n t1 u v s) as
    (v1 & E1 & Hsim1 & _ & kc & dk & Hkc & Hnone & Hdk & Hauth); try done; [lia|].
  destruct (RefreshRecovery_quiet (n + 1) t2 u phrase v1 s kc dk) as
    (v2 & kc2 & m & E2 & Es2 & Ek2 & Hsalt & Hver & Hrec); try done.
  pose proof Hsim as [Ht _]. pose proof Hsim1 as [Ht1 _].
  exists v1, v2. split; [done|]. split; [done|]. split.
  { intros p. unfold RecoverFromPhrase. run (GetKeychain_quiet u v1). rewrite Hkc.
    cbn beta iota. unfold recovered_master. by rewrite Hnone. }
  assert (forall k, revealed svc v2 k = revealed svc v1 k) as Hrev.
  { intros k. unfold revealed. rewrite Es2. f_equal. unfold user_keys. rewrite Ek2, Es2.
    destruct (decide (u = k.1.1)) as [<-|Hne].
    - rewrite lookup_insert_eq, Hkc. cbn. by rewrite Hsalt.
    - by rewrite lookup_insert_ne. }
  split.
  - intros p Hp. unfold user_keys in Hdk. rewrite Hkc in Hdk. cbn in Hdk.
    destruct (v_secrets v1 !! (u, master_name, 0%N)) as [e|] eqn:He; [|done].
    destruct (RecoverFromPhrase_quiet t3 u p v2 kc2 m e) as (v3 & -> & _); try done.
    + by rewrite Ek2, lookup_insert_eq.
    + apply Hrec. by rewrite !normalizePhrase_words, Hp.
    + by rewrite Es2.
    + rewrite Hver, (tb_master _ _ _ _ Ht1 u kc e Hkc He). lia.
  - intros k Hk. rewrite Hrev.
    by rewrite <- (tb_secrets _ _ _ _ Ht1 k Hk), (tb_secrets _ _ _ _ Ht k Hk).
Qed.
End recovery.

(** ** Merging *)

Ltac split_ltb := repeat match goal with |- context [?a <? ?b] => destruct (Z.ltb_spec a b) end.

Section merge.
Context `{RowOrder} `{Entropy}.

(** What a merge compares and moves. *)
Definition payload (e : SecretEntry) : Z * string * option string * string * string :=
  (se_Version e, se_Ciphertext e, se_WrappedDEK e, se_Category e, se_Metadata e).
Notation Payload := (Z * string * option string * string * string)%type.

Definition payload_version (p : Payload) : Z := p.1.1.1.1.

(** The join of one payload: the higher version stays. *)
Definition join_payload (x : SecretKey * Payload) (m : gmap SecretKey Payload)
    : gmap SecretKey Payload :=
  match m !! x.1 with
  | Some old => if payload_version old <? payload_version x.2 then <[x.1 := x.2]> m else m
  | None => <[x.1 := x.2]> m
  end.

Definition join_all (l : list (SecretKey * Payload)) (m : gmap SecretKey Payload)
    : gmap SecretKey Payload := fold_left (fun m x => join_payload x m) l m.

Definition keyed_payload (e : SecretEntry) : SecretKey * Payload := (secret_key e, payload e).

Lemma payload_upsert e m :
  payload <$> upsert_secret e m = join_payload (keyed_payload e) (payload <$> m).
Proof.
  unfold upsert_secret, join_payload. cbn [keyed_payload fst snd]. rewrite lookup_fmap.
  destruct (m !! secret_key e) as [old|]; cbn; [|by rewrite fmap_insert].
  change (payload_version (payload old)) with (se_Version old).
  change (payload_version (payload e)) with (se_Version e).
  destruct (_ <? _); [|done]. by rewrite fmap_insert.
Qed.

Lemma MergeSecrets_quiet now es v :
  exists v', MergeSecrets now es (quiet v) = (Ok tt, quiet v') /\
    payload <$> v_secrets v' = join_all (keyed_payload <$> es) (payload <$> v_secrets v).
Proof.
  assert (exists v', for_all es (fun entry =>
      e ← with_id now entry;
      wrapping ("keychain: merge secret " ++ se_Name e)
        (statement (set_secrets (upsert_secret e)))) (quiet v) = (Ok tt, quiet v') /\
    payload <$> v_secrets v' = join_all (keyed_payload <$> es) (payload <$> v_secrets v))
    as (v' & E & Hv').
  { revert v. induction es as [|e es IH]; intros v; [by exists v|]. cbn [for_all].
    destruct (with_id_quiet now e v) as (fresh & v1 & E & [_ Es] & _).
    set (v2 := set_secrets (upsert_secret (stamped now fresh e)) v1).
    assert ((e0 ← with_id now e;
      wrapping ("keychain: merge secret " ++ se_Name e0)
        (statement (set_secrets (upsert_secret e0)))) (quiet v) = (Ok tt, quiet v2)) as Estep.
    { run E. apply (wrapping_run _ _ _ (Ok tt)). apply statement_quiet. }
    run Estep. destruct (IH v2) as (v' & -> & Hv'). exists v'. split; [done|]. rewrite Hv'.
    cbn [fmap list_fmap join_all fold_left]. f_equal. cbn. by rewrite payload_upsert, Es. }
  exists v'. split; [|done]. destruct es as [|e es].
  - cbn in E. by injection E as <-.
  - by apply transaction_quiet.
Qed.

(** Entries that agree where key and version agree. *)
Definition consistent (l : list (SecretKey * Payload)) : Prop :=
  forall x y, x ∈ l -> y ∈ l -> x.1 = y.1 ->
    payload_version x.2 = payload_version y.2 -> x = y.

Lemma join_payload_comm x y m :
  (x.1 = y.1 -> payload_version x.2 = payload_version y.2 -> x = y) ->
  join_payload x (join_payload y m) = join_payload y (join_payload x m).
Proof.
  destruct x as [k p], y as [k' p']. cbn [fst snd]. intros Hxy.
  destruct (decide (k = k')) as [<-|Hne].
  - destruct (decide (payload_version p = payload_version p')) as [Hv|Hv].
    { by injection (Hxy eq_refl Hv) as <-. }
    unfold join_payload. cbn [fst snd].
    destruct (m !! k) as [old|] eqn:E.
    + destruct (Z.ltb_spec (payload_version old) (payload_version p)),
        (Z.ltb_spec (payload_version old) (payload_version p'));
        rewrite ?lookup_insert_eq, ?E; cbn beta iota;
        split_ltb; try lia; rewrite ?insert_insert_eq; done.
    + rewrite !lookup_insert_eq.
      split_ltb; try lia; by rewrite ?insert_insert_eq.
  - unfold join_payload. cbn [fst snd].
    destruct (m !! k) as [o|] eqn:E, (m !! k') as [o'|] eqn:E';
      split_ltb; rewrite ?lookup_insert_ne, ?E, ?E' by done;
      split_ltb; try lia; try done; by apply insert_insert_ne.
Qed.

Lemma join_all_perm l l' m : l ≡ₚ l' -> consistent l -> join_all l m = join_all l' m.
Proof.
  intros Hp. revert m. induction Hp as [|x l l' Hp IH|x y l|l l' l'' Hp1 IH1 Hp2 IH2];
    intros m Hc; [done|..].
  - apply IH. intros ? ? ? ?. apply Hc; by right.
  - cbn. f_equal. apply join_payload_comm. intros. apply Hc; try done; set_solver.
  - rewrite IH1 by done. apply IH2. intros a b Ha Hb. rewrite <- Hp1 in Ha, Hb. by apply Hc.
Qed.

(** [m] holds at least the version of [x]. *)
Definition covers (m : gmap SecretKey Payload) (x : SecretKey * Payload) : Prop :=
  exists old, m !! x.1 = Some old /\ payload_version x.2 <= payload_version old.

Lemma join_covers x m : covers (join_payload x m) x.
Proof.
  unfold covers, join_payload. destruct (m !! x.1) as [old|] eqn:E.
  - destruct (Z.ltb_spec (payload_version old) (payload_version x.2)); [|eauto].
    rewrite lookup_insert_eq. eauto with lia.
  - rewrite lookup_insert_eq. eauto with lia.
Qed.

Lemma join_keeps_cover x y m : covers m x -> covers (join_payload y m) x.
Proof.
  intros (old & Ho & Hv). unfold covers, join_payload. destruct (decide (y.1 = x.1)) as [E|Hne].
  - rewrite E, Ho. destruct (Z.ltb_spec (payload_version old) (payload_version y.2)); [|eauto].
    rewrite lookup_insert_eq. eexists. split; [done|]. lia.
  - exists old. split; [|done]. destruct (m !! y.1) as [o|]; [destruct (_ <? _)|];
      by rewrite ?lookup_insert_ne.
Qed.

Lemma join_all_keeps_cover x l m : covers m x -> covers (join_all l m) x.
Proof. revert m. induction l as [|y l IH]; intros m Hm; [done|]. apply IH. by apply join_keeps_cover. Qed.

Lemma join_all_covers x l m : x ∈ l -> covers (join_all l m) x.
Proof.
  revert m. induction l as [|y l IH]; intros m; [by intros ?%not_elem_of_nil|].
  intros [->|Hx]%elem_of_cons; cbn; [|by apply IH].
  apply join_all_keeps_cover, join_covers.
Qed.

Lemma join_all_covered l m : (forall x, x ∈ l -> covers m x) -> join_all l m = m.
Proof.
  induction l as [|x l IH]; intros Hc; [done|]. cbn.
  assert (join_payload x m = m) as ->.
  { destruct (Hc x ltac:(by left)) as (old & Ho & Hv). unfold join_payload. rewrite Ho.
    by rewrite (proj2 (Z.ltb_ge _ _) Hv). }
  apply IH. intros y Hy. apply Hc. by right.
Qed.

(** The payloads after a merge without failures. *)
Definition merged (now : Z) (es : list SecretEntry) (v : Vault) : Vault :=
  tables (MergeSecrets now es (quiet v)).2.

(** Merging is a join: for entries that agree where key and version agree, the order of
    the entries does not matter, merging again changes nothing, and no version goes down. *)
Theorem merge_is_a_join now es es' v :
  es ≡ₚ es' -> consistent (keyed_payload <$> es) ->
  payload <$> v_secrets (merged now es v) = payload <$> v_secrets (merged now es' v) /\
  payload <$> v_secrets (merged now es (merged now es v)) = payload <$> v_secrets (merged now es v) /\
  (forall k e, v_secrets v !! k = Some e ->
     exists e', v_secrets (merged now es v) !! k = Some e' /\ se_Version e <= se_Version e').
Proof.
  intros Hp Hc. unfold merged.
  destruct (MergeSecrets_quiet now es v) as (v1 & E1 & H1').
  destruct (MergeSecrets_quiet now es' v) as (v2 & E2 & H2').
  rewrite E1, E2. cbn [tables snd quiet].
  destruct (MergeSecrets_quiet now es v1) as (v3 & E3 & H3'). rewrite E3. cbn [tables snd quiet].
  split; [|split].
  - rewrite H1', H2'. by apply join_all_perm; [rewrite Hp|].
  - rewrite H3'. apply join_all_covered. intros x Hx. rewrite H1'. by apply join_all_covers.
  - intros k e He.
    assert (covers (payload <$> v_secrets v) (k, payload e)) as Hcov.
    { exists (payload e). split; [by rewrite lookup_fmap; cbn; rewrite He|done]. }
    apply (join_all_keeps_cover _ (keyed_payload <$> es)) in Hcov. rewrite <- H1' in Hcov.
    destruct Hcov as (p & Hp' & Hv). cbn [fst] in Hp'. rewrite lookup_fmap in Hp'.
    destruct (v_secrets v1 !! k) as [e'|]; [|done]. injection Hp' as <-. eauto.
Qed.
End merge.

(** ** Synchronisation *)

Section sync.
Context `{RowOrder}.

Definition server_map (entries : list SecretVersionEntry) : gmap string SecretVersionEntry :=
  fold_left (fun m e => <[sv_Name e := e]> m)
    (List.filter (fun e => negb (String.eqb (sv_Name e) master_name)) entries) ∅.

Lemma fold_insert_lookup (l : list SecretVersionEntry) (m : gmap string SecretVersionEntry)
    name e :
  NoDup (sv_Name <$> l) ->
  fold_left (fun (m : gmap string SecretVersionEntry) e => <[sv_Name e := e]> m) l m !! name =
    Some e <->
  (e ∈ l /\ sv_Name e = name) \/ (m !! name = Some e /\ name ∉ sv_Name <$> l).
Proof.
  revert m. induction l as [|x l IH]; intros m Hnd.
  { cbn. set_solver. }
  cbn [fmap list_fmap] in Hnd. apply NoDup_cons in Hnd as [Hx Hnd]. cbn [fold_left].
  rewrite IH by done. cbn [fmap list_fmap]. rewrite !not_elem_of_cons, elem_of_cons.
  destruct (decide (sv_Name x = name)) as [<-|Hne].
  - rewrite lookup_insert_eq. split; [|naive_solver].
    intros [[He Hn]|[[= <-] Hn]]; [by left; auto|left; auto].
  - rewrite lookup_insert_ne by done. split; [|naive_solver].
    intros [[He Hn]|[He Hn]]; [by left; auto|right; split; [done|]; split; [congruence|done]].
Qed.

Lemma server_map_lookup entries name e :
  NoDup (sv_Name <$> entries) ->
  server_map entries !! name = Some e <->
  e ∈ entries /\ sv_Name e = name /\ name <> master_name.
Proof.
  intros Hnd. unfold server_map.
  rewrite fold_insert_lookup by by apply NoDup_fmap_filter.
  rewrite lookup_empty, list_elem_of_In, filter_In, <- list_elem_of_In, negb_true_iff,
    String.eqb_neq. naive_solver.
Qed.

Lemma sync_updated entries client e :
  NoDup (sv_Name <$> entries) ->
  e ∈ Updated (sync_diff entries client) <-> e ∈ entries /\ sv_Name e <> master_name /\
    match client !! sv_Name e with Some ver => ver < sv_Version e | None => True end.
Proof.
  intros Hnd. unfold sync_diff. cbn [Updated]. fold (server_map entries).
  rewrite list_elem_of_In, filter_In, <- list_elem_of_In, list_elem_of_fmap.
  assert ((exists kv, e = kv.2 /\ kv ∈ row_order (map_to_list (server_map entries))) <->
    e ∈ entries /\ sv_Name e <> master_name) as ->.
  { split.
    - intros ([k e'] & -> & Hk). apply row_order_elem, elem_of_map_to_list in Hk. cbn.
      apply server_map_lookup in Hk; [|done]. naive_solver.
    - intros [He Hn]. exists (sv_Name e, e). split; [done|].
      by apply row_order_elem, elem_of_map_to_list, server_map_lookup. }
  destruct (client !! sv_Name e); rewrite ?Z.ltb_lt; naive_solver.
Qed.

Lemma server_map_none entries name :
  NoDup (sv_Name <$> entries) -> name <> master_name ->
  server_map entries !! name = None <-> name ∉ sv_Name <$> entries.
Proof.
  intros Hnd Hn. rewrite eq_None_not_Some. apply not_iff_compat. rewrite list_elem_of_fmap. split.
  - intros [e He%server_map_lookup]; [|done]. exists e. naive_solver.
  - intros (e & -> & He). exists e. by apply server_map_lookup.
Qed.

Lemma sync_deleted entries client name :
  NoDup (sv_Name <$> entries) ->
  name ∈ Deleted (sync_diff entries client) <-> is_Some (client !! name) /\
    name <> master_name /\ name ∉ sv_Name <$> entries.
Proof.
  intros Hnd. unfold sync_diff. cbn [Deleted]. fold (server_map entries).
  rewrite list_elem_of_In, filter_In, <- list_elem_of_In, list_elem_of_fmap.
  rewrite andb_true_iff, negb_true_iff, String.eqb_neq, bool_decide_eq_true.
  assert ((exists kv : string * Z, name = kv.1 /\ kv ∈ row_order (map_to_list client)) <->
    is_Some (client !! name)) as ->.
  { split.
    - intros ([k z] & -> & Hk%row_order_elem%elem_of_map_to_list). by eexists.
    - intros [z Hz]. exists (name, z). split; [done|].
      by apply row_order_elem, elem_of_map_to_list. }
  pose proof (server_map_none entries name Hnd). naive_solver.
Qed.

Lemma sync_nodup entries client :
  NoDup (sv_Name <$> entries) ->
  NoDup (sv_Name <$> Updated (sync_diff entries client)) /\
  NoDup (Deleted (sync_diff entries client)).
Proof.
  intros Hnd. unfold sync_diff. cbn [Updated Deleted]. split.
  - apply NoDup_fmap_filter. rewrite row_order_perm, <- list_fmap_compose.
    erewrite (list_fmap_ext _ fst); [apply NoDup_fst_map_to_list|].
    intros i [k e] Hk. apply list_elem_of_lookup_2, elem_of_map_to_list in Hk.
    fold (server_map entries) in Hk. apply server_map_lookup in Hk; [|done]. cbn. naive_solver.
  - rewrite <- (list_fmap_id (List.filter _ _)).
    apply NoDup_fmap_filter. rewrite list_fmap_id, row_order_perm.
    apply NoDup_fst_map_to_list.
Qed.

Lemma server_version entries client e :
  NoDup (sv_Name <$> entries) -> e ∈ entries -> sv_Name e <> master_name ->
  ServerVersions (sync_diff entries client) !! sv_Name e = Some (sv_Version e).
Proof.
  intros Hnd He Hn. cbn [sync_diff ServerVersions]. fold (server_map entries).
  by rewrite lookup_fmap, (proj2 (server_map_lookup entries (sv_Name e) e Hnd)).
Qed.

(** The answer to a synchronising client: exactly the secrets that are new to it or
    have a higher version, exactly the names it holds that are gone, each once, and the
    versions of the server; a client that takes these versions is told nothing the next time. *)
Theorem sync_diff_spec entries client :
  NoDup (sv_Name <$> entries) ->
  let r := sync_diff entries client in
  (forall e, e ∈ Updated r <-> e ∈ entries /\ sv_Name e <> master_name /\
     match client !! sv_Name e with Some ver => ver < sv_Version e | None => True end) /\
  (forall name, name ∈ Deleted r <-> is_Some (client !! name) /\ name <> master_name /\
     name ∉ sv_Name <$> entries) /\
  NoDup (sv_Name <$> Updated r) /\ NoDup (Deleted r) /\
  Updated (sync_diff entries (ServerVersions r)) = [] /\
  Deleted (sync_diff entries (ServerVersions r)) = [].
Proof.
  intros Hnd r.
  split; [intros; by apply sync_updated|]. split; [intros; by apply sync_deleted|].
  destruct (sync_nodup entries client Hnd). split; [done|]. split; [done|].
  split; apply elem_of_nil_inv.
  - intros e (He & Hn & Hv)%sync_updated; [|done]. subst r. rewrite server_version in Hv by done. lia.
  - intros name ([v Hv] & Hn & Hin)%sync_deleted; [|done]. apply Hin.
    cbn [r sync_diff ServerVersions] in Hv. fold (server_map entries) in Hv.
    rewrite lookup_fmap in Hv. destruct (server_map entries !! name) as [e|] eqn:E; [|done].
    apply server_map_lookup in E as (He & <- & _); [|done]. by apply list_elem_of_fmap_2.
Qed.
End sync.
