(* ===== verification/KeychainExamples.v ===== *)
(** * Runs of the keychain

    Concrete primitives, the witnesses of the theorems, and runs in which a secret is lost:
    through a rotation, through a failure between the steps of a method, or through another
    goroutine. *)

From Stdlib Require Import ZArith Lia Ascii String.
From stdpp Require Import base list gmap strings sorting.
From S2P Require Import Prelude GoStrings SwarmDb Db KeychainCrypto.
From S2P Require KeychainStore.
From S2P Require Import KeychainStore Keychain KeychainSpec KeychainSafety.
Local Open Scope string_scope.
Local Open Scope rtv_scope.
Local Open Scope Z_scope.

(** ** Concrete primitives *)

(** The first [n] bytes, filled up with zeros. *)
Definition padded (n : nat) (s : string) : string := str_take n (s ++ zeros n).

Lemma zeros_length n : String.length (zeros n) = n.
Proof. induction n as [|n IH]; [done|]. simpl. by rewrite IH. Qed.

Lemma padded_length n s : String.length (padded n s) = n.
Proof. unfold padded. rewrite str_take_length, string_app_length, zeros_length. lia. Qed.

(** The sealed text shows key and nonce: right in every law, and no cipher. *)
Definition toy_seal (k n p : string) : string := k ++ n ++ "|" ++ p.
Definition toy_open (k n c : string) : option string :=
  let h := k ++ n ++ "|" in
  if HasPrefix c h then Some (str_drop (String.length h) c) else None.

Lemma toy_open_seal k n p : toy_open k n (toy_seal k n p) = Some p.
Proof.
  unfold toy_open, toy_seal.
  assert (k ++ n ++ "|" ++ p = (k ++ n ++ "|") ++ p) as -> by by rewrite !string_app_assoc.
  by rewrite HasPrefix_refl, str_drop_app.
Qed.

Lemma toy_open_sound k n c p : toy_open k n c = Some p -> c = toy_seal k n p.
Proof.
  unfold toy_open, toy_seal. destruct (HasPrefix c _) eqn:E; [|done].
  apply HasPrefix_spec in E as [t ->]. rewrite str_drop_app. intros [= ->].
  by rewrite !string_app_assoc.
Qed.

Lemma toy_seal_nonempty k n p : toy_seal k n p <> "".
Proof. unfold toy_seal. by destruct k, n. Qed.

#[local] Instance toy_primitives : Primitives := {|
  seal := toy_seal;
  open := toy_open;
  hkdf s t i n := padded n (t ++ s ++ i);
  argon2 p s := padded MasterKeySize (p ++ s);
  hmac k m := k ++ m;
  open_seal := toy_open_seal;
  open_sound := toy_open_sound;
  seal_nonempty := toy_seal_nonempty;
  hkdf_length s t i n := padded_length n _;
  argon2_length p s := padded_length MasterKeySize _
|}.

(** The [i]-th reading repeats the [i]-th byte. *)
Fixpoint repeated (n : nat) (a : ascii) : string :=
  match n with O => "" | S n => String a (repeated n a) end.

Lemma repeated_length n a : String.length (repeated n a) = n.
Proof. induction n as [|n IH]; [done|]. simpl. by rewrite IH. Qed.

#[local] Instance toy_entropy : Entropy := {|
  random_bytes i n := repeated n (ascii_of_nat i);
  random_int i n := Nat.modulo i n;
  random_uuid i := N.of_nat (S i);
  random_bytes_length i n := repeated_length n _;
  random_int_bound i n H := Nat.mod_upper_bound i n (Nat.neq_sym _ _ (Nat.lt_neq 0 n H))
|}.

#[local] Instance ascii_tables : UnicodeTables :=
  {| unicode_to_lower s := s; unicode_to_upper s := s |}.
#[local] Instance listed_order : RowOrder :=
  {| row_order := fun _ l => l; row_order_perm := fun _ l => reflexivity l |}.

Definition server : ServiceConfig :=
  {| svc_serverMasterKey := repeated 32 "K"; svc_cacheTTL := 30 * minute |}.

(** ** Witnesses *)

(** A user stores, rotates, logs out, reads, deletes and reads. *)
Definition day_of_a_user : list (Z * KOp) :=
  [(0, KInit 1%N); (1, KPut 1%N None "llm.openai" "llm" "sk-1" "{}"); (2, KRotate 1%N);
   (3, KEvict 1%N); (60 * minute, KTick); (60 * minute, KGet 1%N None "llm.openai");
   (60 * minute, KDelete 1%N None "llm.openai"); (60 * minute, KGet 1%N None "llm.openai");
   (60 * minute, KGet 2%N None "llm.openai")].

Lemma day_of_a_user_ok :
  String.length (svc_serverMasterKey server) = 32%nat /\
  Z.of_nat (List.length day_of_a_user) < 2 ^ 62 /\
  Forall (fun x => plain_op x.2) day_of_a_user /\
  Forall (fun x => global_op x.2) day_of_a_user.
Proof.
  split; [reflexivity|]. split; [vm_compute; reflexivity|].
  split; repeat (apply Forall_cons; split); try apply Forall_nil; cbn; done.
Qed.

Lemma keychain_refines_map_witness :
  run_vault server day_of_a_user no_vault =
  [Done; Done; Done; Done; Done; Value "sk-1"; Done; Refused; Refused].
Proof.
  destruct day_of_a_user_ok as (? & ? & ? & ?).
  rewrite (keychain_refines_map server day_of_a_user) by auto. reflexivity.
Defined.

Lemma recovery_roundtrip_witness :
  exists res v', InitForUser server 0 1%N (quiet no_vault) = (Ok res, quiet v') /\
    ValidateRecoveryPhrase (RecoveryPhrase res) = None /\
    exists v'', RecoverFromPhrase server 5 1%N (RecoveryPhrase res) (quiet v') = (Ok tt, quiet v'').
Proof.
  destruct (recovery_roundtrip server 0 5 1%N no_vault)
    as (res & v' & kc & e & m & E & _ & _ & _ & _ & Hv & Hr); [reflexivity..|].
  exists res, v'. split; [exact E|]. split; [exact Hv|].
  destruct (Hr _ eq_refl) as (_ & v'' & E' & _). by exists v''.
Defined.

Lemma recovery_never_rewraps_witness :
  let v := end_vault server day_of_a_user no_vault in
  same_tables v (tables (RecoverFromPhrase server 9 1%N "x" (MkRun v [false; true])).2).
Proof.
  destruct day_of_a_user_ok as (? & ? & ? & ?).
  apply (recovery_never_rewraps server day_of_a_user 9 1%N "x" [false; true]); auto.
Defined.

Definition twelve_words : string :=
  "zoo abandon zoo abandon zoo abandon zoo abandon zoo abandon zoo ability".

Lemma rotate_then_refresh_witness :
  let v := end_vault server (take 2 day_of_a_user) no_vault in
  exists v1 v2, RotateKeys server 5 1%N (quiet v) = (Ok tt, quiet v1) /\
    RefreshRecovery server 6 1%N twelve_words (quiet v1) = (Ok tt, quiet v2) /\
    (RecoverFromPhrase server 6 1%N twelve_words (quiet v1)).1 =
      Err "keychain: no recovery blob stored for user" /\
    (RecoverFromPhrase server 7 1%N twelve_words (quiet v2)).1 = Ok tt.
Proof.
  destruct (rotate_then_refresh server (take 2 day_of_a_user) 5 6 7 1%N twelve_words)
    as (v1 & v2 & E1 & E2 & Hno & Hyes & _).
  - reflexivity.
  - vm_compute. reflexivity.
  - repeat (apply Forall_cons; split); try apply Forall_nil; cbn; done.
  - repeat (apply Forall_cons; split); try apply Forall_nil; cbn; done.
  - apply (bool_decide_unpack _). vm_compute. exact I.
  - vm_compute. reflexivity.
  - exists v1, v2. split; [exact E1|]. split; [exact E2|]. split; [apply Hno|by apply Hyes].
Defined.

Definition synced (version : Z) (ct : string) : SecretEntry :=
  {| se_ID := 7%N; se_UserID := 1%N; se_RepoID := None; se_Name := "a"; se_Ciphertext := ct;
     se_WrappedDEK := Some "w"; se_Version := version; se_Category := "custom";
     se_Metadata := "{}"; se_CreatedAt := 0; se_UpdatedAt := 0 |}.

Lemma merge_is_a_join_witness :
  payload <$> v_secrets (merged 0 [synced 2 "x"; synced 3 "y"] no_vault) =
  payload <$> v_secrets (merged 0 [synced 3 "y"; synced 2 "x"] no_vault).
Proof.
  apply (merge_is_a_join 0 [synced 2 "x"; synced 3 "y"] [synced 3 "y"; synced 2 "x"] no_vault).
  - apply Permutation_swap.
  - intros x y Hx Hy _ Hv. cbn in Hx, Hy. rewrite !elem_of_cons in Hx, Hy.
    destruct Hx as [->|[->|?%not_elem_of_nil]], Hy as [->|[->|?%not_elem_of_nil]]; done.
Defined.

Lemma sync_diff_spec_witness :
  let entries := [version_entry (synced 3 "y")] in
  let r := sync_diff entries {["a" := 2; "b" := 1]} in
  NoDup (sv_Name <$> entries) /\ version_entry (synced 3 "y") ∈ Updated r /\ "b" ∈ Deleted r.
Proof.
  assert (NoDup (sv_Name <$> [version_entry (synced 3 "y")])) as Hnd by apply NoDup_singleton.
  destruct (sync_diff_spec _ {["a" := 2; "b" := 1]} Hnd) as (Hup & Hdel & _).
  split; [exact Hnd|]. split.
  - apply Hup. split; [by left|]. split; [done|]. vm_compute. reflexivity.
  - apply Hdel. split; [by eexists|]. split; [done|].
    intros [Hb|Hb%not_elem_of_nil]%elem_of_cons; done.
Defined.

(** ** Runs in which a secret is lost *)

Definition outputs (ops : list (Z * KOp)) : list KOut := run_vault server ops no_vault.

(** A rotation wraps the keys of global secrets only: a secret of a repository stays wrapped
    with the old key, which is gone. *)
Example rotation_loses_build_secrets :
  outputs [(0, KInit 1%N); (0, KPut 1%N (Some 5%N) "TOKEN" "build" "t" "{}");
           (0, KGet 1%N (Some 5%N) "TOKEN"); (0, KRotate 1%N); (0, KGet 1%N (Some 5%N) "TOKEN")]
  = [Done; Done; Value "t"; Done; Refused].
Proof. vm_compute. reflexivity. Qed.

(** Where a global secret has the same name, its wrapped key is written over the one of the
    repository's secret. *)
Example rotation_overwrites_build_key :
  let v := end_vault server [(0, KInit 1%N); (0, KPut 1%N (Some 5%N) "TOKEN" "build" "t" "{}");
             (0, KPut 1%N None "TOKEN" "custom" "g" "{}"); (0, KRotate 1%N)] no_vault in
  se_WrappedDEK <$> find_secret 1%N "TOKEN" (Some 5%N) (v_secrets v) =
  se_WrappedDEK <$> find_secret 1%N "TOKEN" None (v_secrets v).
Proof. vm_compute. reflexivity. Qed.

Definition stored : list (Z * KOp) :=
  [(0, KInit 1%N); (0, KPut 1%N None "a" "custom" "secret" "{}"); (0, KEvict 1%N)].

(** The result of [m] after [ops], and of a later read of the user's secret "a". *)
Definition then_read (ops : list (Z * KOp)) (m : DBE Vault unit) (fs : list bool)
    : result unit string * KOut :=
  let '(r, s) := m (MkRun (end_vault server ops no_vault) fs) in
  (r, (vault_step server 1 (KGet 1%N None "a") (tables s)).1).

(** The statements of a rotation are no transaction: when the master key cannot be stored
    after the wrapped keys were, every secret is lost. *)
Example failed_rotation_loses_secrets :
  then_read stored (RotateKeys server 1 1%N) (repeat false 11 ++ [true])%list
  = (Err "keychain: update master key: keychain: put secret: statement failed", Refused).
Proof. vm_compute. reflexivity. Qed.
Example rotation_keeps_secrets :
  then_read stored (RotateKeys server 1 1%N) [] = (Ok tt, Value "secret").
Proof. vm_compute. reflexivity. Qed.

(** An initialisation takes any error of the first query for a missing keychain: a failed
    query of an existing one replaces its salt, and every secret is lost. *)
Example failed_query_reinitialises :
  then_read stored (InitForUser server 1 1%N;? ok tt) [true] = (Ok tt, Refused) /\
  then_read stored (InitForUser server 1 1%N;? ok tt) [] =
    (Err "keychain: already initialized", Value "secret").
Proof. split; vm_compute; reflexivity. Qed.

(** Keys that are evicted while a goroutine stores a secret with them are wiped under its
    hands: the secret is wrapped with zeros and cannot be read. *)
Example eviction_during_put :
  let m := i ←? LoadKeys server 1 1%N; EvictKeys 1%N;;
           put_with 1 i 1%N None "a" "custom" "new" "{}" in
  then_read stored m [] = (Ok tt, Refused) /\
  (match (m (quiet (end_vault server stored no_vault))).2.(tables).(v_secrets)
           !! (1%N, "a", 0%N) with
   | Some e => match UnwrapDEK (zeros 32) (default "" (se_WrappedDEK e)) with
               | Ok _ => true | Err _ => false end
   | None => false
   end) = true.
Proof. split; vm_compute; reflexivity. Qed.

(** The row of the master key is an ordinary name: storing a secret under it replaces the
    key. *)
Example master_name_is_writable :
  then_read stored (PutSecret server 1 1%N "__master_key__" "custom" "x" "{}";?
                    (EvictKeys 1%N;; ok tt)) [] = (Ok tt, Refused).
Proof. vm_compute. reflexivity. Qed.

(** The migration writes a secret that the keychain has already. *)
Example migration_overwrites :
  then_read stored (MigrateUserSecrets server 1 (Ok {["a" := "old"]}) 1%N
                      {| DryRun := false; SkipCategories := [] |};? ok tt) []
  = (Ok tt, Value "old").
Proof. vm_compute. reflexivity. Qed.

(** A secret that was deleted and stored again starts with version one: a client that has
    the deleted secret in version two is not told. *)
Example sync_misses_recreated_secret :
  let v := end_vault server (stored ++ [(2, KDelete 1%N None "a");
             (3, KPut 1%N None "a" "custom" "another" "{}")])%list no_vault in
  match (SyncSecrets 4 1%N {["a" := 2]} (quiet v)).1 with
  | Ok r => Updated r = [] /\ Deleted r = []
  | Err _ => False
  end.
Proof. vm_compute. split; reflexivity. Qed.

(** Two entries of one version: the one that comes first stays. *)
Example merge_tie_depends_on_order :
  payload <$> v_secrets (merged 0 [synced 2 "x"; synced 2 "y"] no_vault) !! (1%N, "a", 0%N) <>
  payload <$> v_secrets (merged 0 [synced 2 "y"; synced 2 "x"] no_vault) !! (1%N, "a", 0%N).
Proof. vm_compute. discriminate. Qed.

(** A no-break space separates words for [ValidateRecoveryPhrase] and belongs to a word for
    [normalizePhrase]: the refreshed phrase does not recover when it is typed with blanks. *)
Definition nbsp : string := String "194" (String "160" "").
Example nbsp_phrase_does_not_recover :
  let phrase := Join (Fields twelve_words) nbsp in
  let v := tables (RefreshRecovery server 1 1%N phrase
             (quiet (end_vault server stored no_vault))).2 in
  ValidateRecoveryPhrase phrase = None /\ Fields phrase = Fields twelve_words /\
  (RecoverFromPhrase server 2 1%N phrase (quiet v)).1 = Ok tt /\
  (RecoverFromPhrase server 2 1%N twelve_words (quiet v)).1 =
    Err "keychain: recovery phrase does not match".
Proof. vm_compute. repeat split. Qed.
