(* ===== verification/WebhookQ.v ===== *)
(** * The queue of webhook deliveries ([internal/webhookq/delivery.go])

    A delivery is a review to be tried again: a row of [webhook_deliveries] that is pending,
    being processed, failed with a time for the next attempt, completed or dead.
    [Create] to [CleanupOld] are the methods of [Repository], [processBatch] and
    [processDelivery] those of [RetryWorker], and [Start] some ticks of its loop.

    The clock is part of the state, since a review takes time, and is also the [NOW()] of the
    database.  The executor is a parameter: it gets the number of the call, the deadline of
    its context, the repository and the pull request, and answers with the time it took and
    the text of its error.  A worker that is stopped sees its statements fail.  Rows are keyed
    by their [ID]. *)

From Stdlib Require Import ZArith Lia String.
From stdpp Require Import countable base list gmap strings sorting.
From S2P Require Import Prelude GoStrings GoFloat SwarmDb Db.
Local Open Scope string_scope.
Local Open Scope rtv_scope.
Local Open Scope Z_scope.

(** ** Data *)

Inductive DeliveryStatus :=
  | StatusPending | StatusProcessing | StatusCompleted | StatusFailed | StatusDead.

#[export] Instance DeliveryStatus_eq_dec : EqDecision DeliveryStatus.
Proof. solve_decision. Defined.

Definition status_text (s : DeliveryStatus) : string :=
  match s with
  | StatusPending => "pending"
  | StatusProcessing => "processing"
  | StatusCompleted => "completed"
  | StatusFailed => "failed"
  | StatusDead => "dead"
  end.

Definition parse_status (s : string) : DeliveryStatus :=
  if String.eqb s "pending" then StatusPending
  else if String.eqb s "processing" then StatusProcessing
  else if String.eqb s "completed" then StatusCompleted
  else if String.eqb s "failed" then StatusFailed
  else StatusDead.

#[export] Program Instance DeliveryStatus_countable : Countable DeliveryStatus :=
  inj_countable' status_text parse_status _.
Next Obligation. by intros []. Qed.

Record Delivery := {
  d_WebhookEventID : UUID;
  d_RepoID : UUID;
  d_Platform : string;
  d_PRNumber : Z;
  d_Status : DeliveryStatus;
  d_Attempts : Z;
  d_MaxAttempts : Z;
  d_LastError : string;
  d_NextRetryAt : option Z;
  d_CreatedAt : Z;
  d_CompletedAt : option Z
}.

Definition DefaultMaxAttempts : Z := 5.

(** [q_calls] lists the calls of the executor with the delivery they were made for. *)
Record Queue := {
  q_rows : gmap UUID Delivery;
  q_now : Z;
  q_calls : list (UUID * UUID * Z)
}.

Definition set_rows (f : gmap UUID Delivery -> gmap UUID Delivery) (q : Queue) : Queue :=
  {| q_rows := f (q_rows q); q_now := q_now q; q_calls := q_calls q |}.
Definition elapse (dt : N) (q : Queue) : Queue :=
  {| q_rows := q_rows q; q_now := q_now q + Z.of_N dt; q_calls := q_calls q |}.
Definition add_call (c : UUID * UUID * Z) (q : Queue) : Queue :=
  {| q_rows := q_rows q; q_now := q_now q; q_calls := q_calls q ++ [c] |}.

Definition set_outcome (s : DeliveryStatus) (attempts : Z) (err : string) (retry : option Z)
    (completed : option Z) (d : Delivery) : Delivery :=
  {| d_WebhookEventID := d_WebhookEventID d; d_RepoID := d_RepoID d;
     d_Platform := d_Platform d; d_PRNumber := d_PRNumber d; d_Status := s;
     d_Attempts := attempts; d_MaxAttempts := d_MaxAttempts d; d_LastError := err;
     d_NextRetryAt := retry; d_CreatedAt := d_CreatedAt d; d_CompletedAt := completed |}.

(** [SET status = 'processing', attempts = attempts + 1] and so on: the other columns stay. *)
Definition processing (d : Delivery) : Delivery :=
  set_outcome StatusProcessing (d_Attempts d + 1) (d_LastError d) (d_NextRetryAt d)
    (d_CompletedAt d) d.
Definition completed (now : Z) (d : Delivery) : Delivery :=
  set_outcome StatusCompleted (d_Attempts d) "" (d_NextRetryAt d) (Some now) d.
Definition dead (errMsg : string) (d : Delivery) : Delivery :=
  set_outcome StatusDead (d_Attempts d) errMsg (d_NextRetryAt d) (d_CompletedAt d) d.
Definition failed (errMsg : string) (nextRetry : Z) (d : Delivery) : Delivery :=
  set_outcome StatusFailed (d_Attempts d) errMsg (Some nextRetry) (d_CompletedAt d) d.

(** A column of type INTEGER. *)
Definition fits_int4 (z : Z) : bool := (- 2 ^ 31 <=? z) && (z <? 2 ^ 31).

Definition second : Z := 1000000000.
Definition hour : Z := 3600 * second.
Definition minute : Z := 60 * second.

Class ReviewExecutor := {
  execute : nat -> Z -> UUID -> Z -> N * option string
}.

Section webhookq.
Context `{RowOrder} `{MathPow}.

(** ** [Repository] *)

Definition Create (id : UUID) (d : Delivery) : DBE Queue Delivery :=
  now ← reads q_now;
  let d := {| d_WebhookEventID := d_WebhookEventID d; d_RepoID := d_RepoID d;
              d_Platform := d_Platform d; d_PRNumber := d_PRNumber d;
              d_Status := StatusPending; d_Attempts := 0;
              d_MaxAttempts := if d_MaxAttempts d =? 0 then DefaultMaxAttempts
                               else d_MaxAttempts d;
              d_LastError := d_LastError d; d_NextRetryAt := d_NextRetryAt d;
              d_CreatedAt := now; d_CompletedAt := d_CompletedAt d |} in
  _ ←? wrapping "create webhook delivery"
    (guarded (fun q => bool_decide (q_rows q !! id = None)
                       && fits_int4 (d_PRNumber d) && fits_int4 (d_MaxAttempts d))
             (set_rows (<[id := d]>)));
  ok d.

Definition MarkProcessing (id : UUID) : DBE Queue unit :=
  wrapping "mark processing"
    (guarded (fun q => match q_rows q !! id with
                       | Some d => fits_int4 (d_Attempts d + 1)
                       | None => true
                       end)
             (set_rows (alter processing id))).

Definition MarkCompleted (id : UUID) : DBE Queue unit :=
  now ← reads q_now;
  wrapping "mark completed" (statement (set_rows (alter (completed now) id))).

(** [time.Duration(math.Pow(4, float64(attempts))) * 30 * time.Second], at most two hours. *)
Definition backoff (attempts : Z) : Z :=
  let b := wrap64 (wrap64 (to_int (math_pow (of_int 4) (of_int attempts)) * 30) * second) in
  if 2 * hour <? b then 2 * hour else b.

Definition MarkFailed (id : UUID) (errMsg : string) : DBE Queue unit :=
  state ←? wrapping "get delivery state"
    (query_row (fun q => d ← q_rows q !! id; Some (d_Attempts d, d_MaxAttempts d)));
  let '(attempts, maxAttempts) := state in
  wrapping "mark failed"
    (if maxAttempts <=? attempts
     then statement (set_rows (alter (dead errMsg) id))
     else
       now ← reads q_now;
       statement (set_rows (alter (failed errMsg (now + backoff attempts)) id))).

(** A listing: PostgreSQL refuses a negative LIMIT. *)
Definition listing (what : string) (p : Queue -> UUID -> Delivery -> bool) (key : Delivery -> Z)
    (limit : Z) : DBE Queue (list (UUID * Delivery)) :=
  wrapping ("list " ++ what)
    (_ ←? guarded (fun _ => 0 <=? limit) id;
     rows ← reads (fun q => firstn (Z.to_nat limit)
       (order_by (fun kd => key kd.2) (select (p q) (q_rows q))));
     ok rows).

Definition has_status (s : DeliveryStatus) (d : Delivery) : bool :=
  bool_decide (d_Status d = s).

(** The comparison with NULL is not true. *)
Definition due (now : Z) (d : Delivery) : bool :=
  match d_NextRetryAt d with Some t => t <=? now | None => false end.

Definition ListRetryable : Z -> DBE Queue (list (UUID * Delivery)) :=
  listing "retryable" (fun q _ d => has_status StatusFailed d && due (q_now q) d)
    (fun d => default 0 (d_NextRetryAt d)).
Definition ListPending : Z -> DBE Queue (list (UUID * Delivery)) :=
  listing "pending" (fun _ _ => has_status StatusPending) d_CreatedAt.
Definition ListDeadLetters : Z -> DBE Queue (list (UUID * Delivery)) :=
  listing "dead letters" (fun _ _ => has_status StatusDead) (fun d => - d_CreatedAt d).

(** [GROUP BY status] *)
Definition status_counts (m : gmap UUID Delivery) : gmap DeliveryStatus Z :=
  map_fold (fun _ d counts => <[d_Status d := default 0 (counts !! d_Status d) + 1]> counts) ∅ m.

Definition CountByStatus : DBE Queue (gmap DeliveryStatus Z) :=
  wrapping "count by status" (query (fun q => status_counts (q_rows q))).

Definition expired (cutoff : Z) (_ : UUID) (d : Delivery) : bool :=
  (has_status StatusCompleted d || has_status StatusDead d) && (d_CreatedAt d <? cutoff).

Definition CleanupOld (olderThan : Z) : DBE Queue Z :=
  now ← reads q_now;
  let cutoff := now - olderThan in
  wrapping "cleanup old deliveries" (returning (fun q =>
    (count_where (expired cutoff) (q_rows q), set_rows (delete_where (expired cutoff)) q))).

(** ** [RetryWorker] *)

Context `{ReviewExecutor}.

Definition run_executor (id repoID : UUID) (prNumber : Z) : DB Queue (option string) :=
  now ← reads q_now;
  n ← reads (fun q => length (q_calls q));
  let '(took, err) := execute n (now + 10 * minute) repoID prNumber in
  writes (fun q => elapse took (add_call (id, repoID, prNumber) q));;
  mret err.

Definition processDelivery (kd : UUID * Delivery) : DB Queue unit :=
  let '(id, d) := kd in
  marked ← MarkProcessing id;
  match marked with
  | Err _ => mret tt
  | Ok _ =>
      err ← run_executor id (d_RepoID d) (d_PRNumber d);
      match err with
      | Some e => ignoring (MarkFailed id e)
      | None => ignoring (MarkCompleted id)
      end
  end.

Definition processBatch : DB Queue unit :=
  pending ← ListPending 10;
  match pending with
  | Err _ => mret tt
  | Ok pending =>
      every pending processDelivery;;
      retryable ← ListRetryable 10;
      match retryable with
      | Err _ => mret tt
      | Ok retryable => every retryable processDelivery
      end
  end.

(** A [time.Ticker] fires every [interval]; its channel holds one tick, and drops those that come
    while it is full.  The tick after the one of time [next], if that is received at [now] or,
    when it is not there yet, at [next]. *)
Definition following (interval : N) (next now : Z) : Z :=
  next + ((Z.max next now - next) / Z.of_N interval + 1) * Z.of_N interval.

(** Wait for a tick and process a batch. *)
Definition tick (interval : N) (next : Z) : DB Queue Z :=
  now ← reads q_now;
  writes (elapse (Z.to_N (next - now)));;
  processBatch;;
  mret (following interval next now).

(** The loop of [Start] for [n] ticks, the first of which is that of [next]. *)
Fixpoint Start (interval : N) (next : Z) (n : nat) : DB Queue Z :=
  match n with
  | O => mret next
  | S n => next ← tick interval next; Start interval next n
  end.

(** ** One attempt *)

Definition live (d : Delivery) : Prop :=
  d_Status d = StatusPending \/ d_Status d = StatusFailed.

(** The row once the outcome of the executor is recorded. *)
Definition conclude (err : option string) (now : Z) (d : Delivery) : Delivery :=
  match err with
  | None => completed now d
  | Some e =>
      if d_MaxAttempts d <=? d_Attempts d then dead e d
      else failed e (now + backoff (d_Attempts d)) d
  end.

(** The queue after an attempt whose outcome was recorded, or was not. *)
Definition tried (recorded : bool) (took : N) (err : option string) (id : UUID) (d : Delivery)
    (q : Queue) : Queue :=
  let now := q_now q + Z.of_N took in
  set_rows (alter (fun d => if recorded then conclude err now (processing d) else processing d) id)
    (elapse took (add_call (id, d_RepoID d, d_PRNumber d) q)).

(** An attempt at a live row. *)
Definition step (q q' : Queue) : Prop :=
  exists recorded took err id d,
    q_rows q !! id = Some d /\ live d /\ q' = tried recorded took err id d q.

Lemma run_executor_run id repo pr (r : Run Queue) :
  let '(took, err) := execute (length (q_calls (tables r))) (q_now (tables r) + 10 * minute)
                        repo pr in
  run_executor id repo pr r =
    (err, set_tables (elapse took (add_call (id, repo, pr) (tables r))) r).
Proof. unfold run_executor, mbind, DB_bind. cbn. by destruct (execute _ _ _ _). Qed.

Lemma MarkFailed_cases id d e q :
  q_rows q !! id = Some d ->
  ensures (eq q) (MarkFailed id e)
    (fun _ q' => q' = q \/ q' = set_rows (alter (conclude (Some e) (q_now q)) id) q).
Proof.
  intros Hd. eapply (ensures_try _ (fun a q' => q' = q /\ a = (d_Attempts d, d_MaxAttempts d))).
  - apply ensures_wrapping, ensures_query_row; [|by left].
    intros ? a <-. rewrite Hd. by intros [= <-].
  - intros [attempts maxAttempts]. apply ensures_pure. intros [= -> ->]. apply ensures_wrapping.
    assert (forall g, g d = conclude (Some e) (q_now q) d ->
      alter g id (q_rows q) = alter (conclude (Some e) (q_now q)) id (q_rows q)) as Hg.
    { intros g Eg. apply alter_ext. rewrite Hd. by intros ? [= <-]. }
    destruct (_ <=? _) eqn:E.
    + apply ensures_statement; [|by left]. intros ? ->. right. unfold set_rows.
      rewrite Hg; [done|]. unfold conclude. by rewrite E.
    + eapply (ensures_bind _ (fun a q' => q' = q /\ a = q_now q)); [by apply ensures_reads; intros ? ->|].
      intros now. apply ensures_pure. intros ->. apply ensures_statement; [|by left].
      intros ? ->. right. unfold set_rows. rewrite Hg; [done|]. unfold conclude. by rewrite E.
Qed.

Lemma MarkCompleted_cases id q :
  ensures (eq q) (MarkCompleted id)
    (fun _ q' => q' = q \/ q' = set_rows (alter (completed (q_now q)) id) q).
Proof.
  eapply (ensures_bind _ (fun a q' => q' = q /\ a = q_now q));
    [by apply ensures_reads; intros ? <-|].
  intros now. apply ensures_pure. intros ->. apply ensures_wrapping, ensures_statement; [|by left].
  intros ? ->. by right.
Qed.

(** Whatever fails, a delivery is left alone or tried. *)
Lemma processDelivery_cases id d q :
  q_rows q !! id = Some d ->
  ensures (eq q) (processDelivery (id, d))
    (fun _ q' => q' = q \/ exists recorded took err, q' = tried recorded took err id d q).
Proof.
  intros Hd. set (q1 := set_rows (alter processing id) q).
  eapply (ensures_bind _ (fun x q' => match x with Ok _ => q' = q1 | Err _ => q' = q end)).
  { apply ensures_wrapping, ensures_guarded; [|done]. by intros ? <-. }
  intros [[]|e]; [|apply ensures_ret; auto].
  destruct (execute (length (q_calls q)) (q_now q + 10 * minute) (d_RepoID d) (d_PRNumber d))
    as [took err] eqn:Ex.
  set (q2 := elapse took (add_call (id, d_RepoID d, d_PRNumber d) q1)).
  eapply (ensures_bind _ (fun x q' => q' = q2 /\ x = err)).
  { intros [q' fs] E. cbn in E. subst q'.
    pose proof (run_executor_run id (d_RepoID d) (d_PRNumber d) (MkRun q1 fs)) as Hr.
    cbn [tables] in Hr. change (q_calls q1) with (q_calls q) in Hr.
    change (q_now q1) with (q_now q) in Hr. rewrite Ex in Hr. by rewrite Hr. }
  intros x. apply ensures_pure. intros ->.
  assert (forall (m : DBE Queue unit), ensures (eq q2) m
    (fun _ q' => q' = q2 \/ q' = set_rows (alter (conclude err (q_now q2)) id) q2) ->
    ensures (fun q' => q' = q2) (ignoring m)
      (fun _ q' => q' = q \/ exists recorded took err, q' = tried recorded took err id d q))
    as Hm.
  { intros m Hm. eapply ensures_bind; [eapply ensures_conseq; [exact Hm|done|]|].
    - intros a t Ht. exact Ht.
    - intros []; apply ensures_ret; intros t [-> | ->]; right.
      all: first [by exists false, took, err | idtac].
      all: exists true, took, err; unfold tried, q2, q1, set_rows, elapse, add_call; cbn;
        by rewrite alter_alter_eq. }
  destruct err as [e|]; apply Hm.
  - apply (MarkFailed_cases id (processing d)). cbn. by rewrite lookup_alter_eq, Hd.
  - apply MarkCompleted_cases.
Qed.

(** Without failures the outcome is recorded. *)
Lemma processDelivery_quiet id d q :
  q_rows q !! id = Some d -> fits_int4 (d_Attempts d + 1) = true ->
  let '(took, err) := execute (length (q_calls q)) (q_now q + 10 * minute) (d_RepoID d)
                        (d_PRNumber d) in
  processDelivery (id, d) (quiet q) = (tt, quiet (tried true took err id d q)).
Proof.
  intros Hd Hfit. set (q1 := set_rows (alter processing id) q).
  destruct (execute (length (q_calls q)) (q_now q + 10 * minute) (d_RepoID d) (d_PRNumber d))
    as [took err] eqn:Ex.
  set (q2 := elapse took (add_call (id, d_RepoID d, d_PRNumber d) q1)).
  unfold processDelivery.
  assert (MarkProcessing id (quiet q) = (Ok tt, quiet q1)) as E1.
  { apply (wrapping_run _ _ _ (Ok tt)). rewrite guarded_quiet, Hd. by rewrite Hfit. }
  rewrite (bind_run _ _ _ _ _ E1).
  pose proof (run_executor_run id (d_RepoID d) (d_PRNumber d) (quiet q1)) as Hr.
  cbn [tables quiet] in Hr. change (q_calls q1) with (q_calls q) in Hr.
  change (q_now q1) with (q_now q) in Hr. rewrite Ex in Hr. rewrite (bind_run _ _ _ _ _ Hr).
  assert (q_rows q2 !! id = Some (processing d)) as Hd2
    by (cbn; by rewrite lookup_alter_eq, Hd).
  assert (forall f, alter f id (q_rows q2) = alter (fun d => conclude err (q_now q2) (processing d)) id (q_rows q) ->
    set_rows (alter f id) q2 = tried true took err id d q) as Hq.
  { intros f Ef. unfold tried, set_rows. by rewrite Ef. }
  assert (forall f, f (processing d) = conclude err (q_now q2) (processing d) ->
    set_rows (alter f id) q2 = tried true took err id d q) as Hf.
  { intros f Ef. apply Hq. cbn. rewrite alter_alter_eq. apply alter_ext. rewrite Hd.
    intros ? [= <-]. apply Ef. }
  change (set_tables _ (quiet q1)) with (quiet q2).
  destruct err as [e|]; unfold ignoring, mbind, DB_bind; cbn - [set_rows q2 processing quiet].
  - unfold MarkFailed.
    assert (wrapping "get delivery state" (query_row (fun q => d ← q_rows q !! id;
      Some (d_Attempts d, d_MaxAttempts d))) (quiet q2) =
      (Ok (d_Attempts (processing d), d_MaxAttempts d), quiet q2)) as E2.
    { apply (wrapping_run _ _ _ (Ok _)). rewrite query_row_quiet, Hd2. done. }
    rewrite (try_run _ _ _ _ _ E2). unfold conclude in Hf.
    cbn [d_MaxAttempts processing set_outcome] in Hf.
    change (d_MaxAttempts (processing d)) with (d_MaxAttempts d) in *.
    destruct (d_MaxAttempts d <=? d_Attempts (processing d)).
    + transitivity (tt, quiet (set_rows (alter (dead e) id) q2)); [done|by rewrite Hf].
    + transitivity (tt, quiet (set_rows (alter (failed e
        (q_now q2 + backoff (d_Attempts (processing d)))) id) q2)); [done|by rewrite Hf].
  - transitivity (tt, quiet (set_rows (alter (completed (q_now q2)) id) q2)); [done|].
    by rewrite Hf.
Qed.

(** ** Batches *)

Lemma tried_other recorded took err id d q k :
  k <> id -> q_rows (tried recorded took err id d q) !! k = q_rows q !! k.
Proof. intros Hk. cbn. by rewrite lookup_alter_ne. Qed.

Lemma every_steps l (r : Run Queue) :
  NoDup l.*1 -> (forall kd, kd ∈ l -> q_rows (tables r) !! kd.1 = Some kd.2 /\ live kd.2) ->
  rtc step (tables r) (tables (every l processDelivery r).2).
Proof.
  revert r. induction l as [|[id d] l IH]; intros r Hnd Hl; [done|].
  cbn [fmap list_fmap fst] in Hnd. apply NoDup_cons in Hnd as [Hid Hnd].
  cbn [every]. unfold mbind, DB_bind. destruct (Hl (id, d)) as [Hd Hlive]; [by left|]. cbn in Hd, Hlive.
  pose proof (processDelivery_cases id d _ Hd r eq_refl) as Hc.
  destruct (processDelivery (id, d) r) as [[] r1]. cbn [fst snd] in Hc.
  assert (rtc step (tables r) (tables r1)) as Hs.
  { destruct Hc as [-> |(recorded & took & err & ->)]; [done|]. apply rtc_once.
    unfold step. eauto 8. }
  etrans; [exact Hs|]. apply IH; [done|].
  intros [k x] Hk. destruct (Hl (k, x)) as [Hx Hxl]; [by right|]. split; [|done]. cbn in *.
  assert (k <> id) by (intros ->; apply Hid; by apply (list_elem_of_fmap_2 fst) in Hk).
  destruct Hc as [-> |(recorded & took & err & ->)]; [done|]. by rewrite tried_other.
Qed.

Definition listed (p : Queue -> UUID -> Delivery -> bool) (q : Queue) (l : list (UUID * Delivery)) :=
  NoDup l.*1 /\ (forall k d, (k, d) ∈ l -> q_rows q !! k = Some d /\ p q k d = true).

Lemma listing_cases what p key limit q :
  ensures (eq q) (listing what p key limit)
    (fun x q' => q' = q /\ match x with Ok l => listed p q l | Err _ => True end).
Proof.
  apply ensures_wrapping. eapply (ensures_try _ (fun _ => eq q)).
  - apply ensures_guarded; [by intros ? <-|by intros ? <-].
  - intros _. eapply (ensures_bind _ (fun l q' => q' = q /\ listed p q l)).
    + apply ensures_reads. intros ? <-. split; [done|]. split; [apply top_rows_NoDup|].
      intros k d Hk. by apply top_rows_elem_of in Hk.
    + intros l. by apply ensures_ret.
Qed.

Lemma pending_live q l : listed (fun _ _ => has_status StatusPending) q l ->
  forall kd, kd ∈ l -> q_rows q !! kd.1 = Some kd.2 /\ live kd.2.
Proof.
  intros [_ Hl] [k d] Hk. destruct (Hl k d Hk) as [Hd Hs]. split; [done|]. left.
  by apply bool_decide_eq_true in Hs.
Qed.

Lemma retryable_live q l :
  listed (fun q _ d => has_status StatusFailed d && due (q_now q) d) q l ->
  forall kd, kd ∈ l -> q_rows q !! kd.1 = Some kd.2 /\ live kd.2.
Proof.
  intros [_ Hl] [k d] Hk. destruct (Hl k d Hk) as [Hd [Hs _]%andb_prop]. split; [done|]. right.
  by apply bool_decide_eq_true in Hs.
Qed.

(** A batch is a sequence of attempts at live rows, whatever fails. *)
Lemma processBatch_steps (r : Run Queue) : rtc step (tables r) (tables (processBatch r).2).
Proof.
  unfold processBatch. unfold mbind at 1, DB_bind at 1.
  pose proof (listing_cases "pending" (fun _ _ => has_status StatusPending) d_CreatedAt 10
    _ r eq_refl) as Hp. fold ListPending in Hp.
  destruct (ListPending 10 r) as [[l|e] r1]; cbn [fst snd] in Hp; destruct Hp as [E Hp];
    rewrite <- E; [|done].
  unfold mbind at 1, DB_bind at 1.
  pose proof (every_steps l r1 (proj1 Hp)) as Hs.
  destruct (every l processDelivery r1) as [[] r2]. cbn [snd] in Hs.
  etrans; [apply Hs; rewrite E; by apply pending_live|].
  unfold mbind, DB_bind.
  pose proof (listing_cases "retryable" (fun q _ d => has_status StatusFailed d && due (q_now q) d)
    (fun d => default 0 (d_NextRetryAt d)) 10 _ r2 eq_refl) as Hr. fold ListRetryable in Hr.
  destruct (ListRetryable 10 r2) as [[l'|e] r3]; cbn [fst snd] in Hr; destruct Hr as [E' Hr];
    rewrite <- E'; [|done].
  apply every_steps; [apply Hr|]. rewrite E'. by apply retryable_live.
Qed.

(** The worker: attempts, and time that passes. *)
Definition worker_step (q q' : Queue) : Prop := step q q' \/ exists dt, q' = elapse dt q.

Lemma tick_steps interval next (r : Run Queue) :
  rtc worker_step (tables r) (tables (tick interval next r).2).
Proof.
  unfold tick, mbind, DB_bind, reads, writes.
  set (q := elapse (Z.to_N (next - q_now (tables r))) (tables r)).
  pose proof (processBatch_steps (set_tables q r)) as Hb.
  destruct (processBatch _) as [[] r1]. cbn in *.
  eapply rtc_l; [right; by eexists|].
  eapply rtc_subrel; [|exact Hb]. intros ? ? ?. by left.
Qed.

Lemma Start_steps interval next n (r : Run Queue) :
  rtc worker_step (tables r) (tables (Start interval next n r).2).
Proof.
  revert next r. induction n as [|n IH]; intros next r; [done|].
  cbn [Start]. unfold mbind, DB_bind. pose proof (tick_steps interval next r) as Ht.
  destruct (tick interval next r) as [next' r1]. etrans; [exact Ht|apply IH].
Qed.

(** ** Invariant *)

(** What the columns of a row say about each other, and how often its review was run. *)
Definition delivery_ok (now : Z) (runs : nat) (d : Delivery) : Prop :=
  d_Attempts d = Z.of_nat runs /\ d_Attempts d <= Z.max 1 (d_MaxAttempts d) /\
  fits_int4 (d_MaxAttempts d) = true /\
  match d_Status d with
  | StatusPending => d_Attempts d = 0
  | StatusProcessing => 1 <= d_Attempts d
  | StatusCompleted => 1 <= d_Attempts d /\ is_Some (d_CompletedAt d) /\ d_LastError d = ""
  | StatusFailed => 1 <= d_Attempts d < d_MaxAttempts d /\
      exists t, d_NextRetryAt d = Some t /\ t <= now + 2 * hour
  | StatusDead => d_MaxAttempts d <= d_Attempts d /\ 1 <= d_Attempts d
  end.

Definition runs_of (id : UUID) (q : Queue) : nat :=
  length (base.filter (fun c => c.1.1 = id) (q_calls q)).

Definition queue_ok (q : Queue) : Prop :=
  map_Forall (fun id d => delivery_ok (q_now q) (runs_of id q) d) (q_rows q).

Lemma backoff_cap attempts : backoff attempts <= 2 * hour.
Proof. unfold backoff. destruct (Z.ltb_spec (2 * hour) (wrap64 (wrap64
  (to_int (math_pow (of_int 4) (of_int attempts)) * 30) * second))); lia. Qed.

Lemma delivery_ok_later now now' runs d :
  now <= now' -> delivery_ok now runs d -> delivery_ok now' runs d.
Proof.
  intros Hle (Ha & Hm & Hf & Hs). split_and!; [done..|].
  destruct (d_Status d); try done. destruct Hs as [? (t & ? & ?)]. split; [done|].
  exists t. split; [done|lia].
Qed.

Lemma runs_of_tried recorded took err id d q k :
  runs_of k (tried recorded took err id d q) = (runs_of k q + if decide (id = k) then 1 else 0)%nat.
Proof.
  unfold runs_of. cbn. rewrite filter_app, length_app. f_equal.
  rewrite filter_cons. cbn [fst]. by destruct (decide (id = k)).
Qed.

Lemma tried_delivery_ok (recorded : bool) err now runs d :
  live d -> delivery_ok now runs d ->
  delivery_ok now (S runs) (if recorded then conclude err now (processing d) else processing d).
Proof.
  intros Hlive (Ha & Hm & Hf & Hs).
  assert (0 <= d_Attempts d /\ d_Attempts d + 1 <= Z.max 1 (d_MaxAttempts d)) as [Hn Hn1].
  { destruct Hlive as [E|E]; rewrite E in Hs; lia. }
  assert (d_Attempts d + 1 = Z.of_nat (S runs)) as Hr by lia.
  destruct recorded; [|unfold delivery_ok; cbn; split_and!; first [done|lia]].
  unfold conclude. destruct err as [e|]; [destruct (Z.leb_spec (d_MaxAttempts (processing d))
    (d_Attempts (processing d))) as [Hge|Hlt]|]; cbn in *; unfold delivery_ok; cbn.
  - split_and!; first [done|lia].
  - pose proof (backoff_cap (d_Attempts d + 1)).
    split_and!; try first [done|lia]. eexists. split; [done|lia].
  - split_and!; try first [done|lia].
Qed.

Lemma elapse_ok dt q : queue_ok q -> queue_ok (elapse dt q).
Proof. intros Hq k d Hd. eapply delivery_ok_later, (Hq k d Hd). cbn. lia. Qed.

Lemma step_ok q q' : step q q' -> queue_ok q -> queue_ok q'.
Proof.
  intros (recorded & took & err & id & d & Hd & Hlive & ->) Hq k x Hx.
  rewrite runs_of_tried. apply (elapse_ok took) in Hq. cbn in Hx.
  destruct (decide (id = k)) as [<-|Hne].
  - rewrite lookup_alter_eq, Hd in Hx. injection Hx as <-.
    rewrite Nat.add_1_r. apply tried_delivery_ok; [done|]. apply (Hq id d Hd).
  - rewrite lookup_alter_ne in Hx by done. rewrite Nat.add_0_r. apply (Hq k x Hx).
Qed.

Lemma worker_ok q q' : rtc worker_step q q' -> queue_ok q -> queue_ok q'.
Proof.
  induction 1 as [|q q1 q' [Hs|[dt ->]] _ IH]; intros Hq; [done|..]; apply IH.
  - by eapply step_ok.
  - by apply elapse_ok.
Qed.

(** What happens to a queue: deliveries are created under identifiers never used before, the
    worker runs, old rows are deleted, time passes. *)
Inductive queue_op :=
  | OpCreate (id : UUID) (d : Delivery)
  | OpStart (interval : N) (next : Z) (n : nat)
  | OpCleanup (olderThan : Z)
  | OpWait (dt : N).

Definition run_queue_op (op : queue_op) : DB Queue unit :=
  match op with
  | OpCreate id d => ignoring (Create id d)
  | OpStart interval next n => Start interval next n;; mret tt
  | OpCleanup olderThan => ignoring (CleanupOld olderThan)
  | OpWait dt => writes (elapse dt)
  end.

Inductive queue_reachable : Queue -> Prop :=
  | reach_empty now : queue_reachable {| q_rows := ∅; q_now := now; q_calls := [] |}
  | reach_op op (r : Run Queue) :
      queue_reachable (tables r) ->
      match op with OpCreate id _ => runs_of id (tables r) = 0%nat | _ => True end ->
      queue_reachable (tables (run_queue_op op r).2).

Lemma Create_ok id d :
  ensures (fun q => queue_ok q /\ runs_of id q = 0%nat) (Create id d) (fun _ => queue_ok).
Proof.
  eapply ensures_bind; [apply (ensures_reads _ (fun _ q => queue_ok q /\ runs_of id q = 0%nat)); auto|].
  intros now. eapply (ensures_try _ (fun _ => queue_ok)); [|intros; by apply ensures_ret].
  apply ensures_wrapping, ensures_guarded; [|by intros q []].
  intros q [Hq Hr] [[_ _]%andb_prop Hf]%andb_prop k x Hx. cbn in Hx.
  apply lookup_insert_Some in Hx as [[<- <-]|[_ Hx]]; [|by apply (Hq k x)].
  assert (runs_of id (set_rows <[id:=
    {| d_WebhookEventID := d_WebhookEventID d; d_RepoID := d_RepoID d;
       d_Platform := d_Platform d; d_PRNumber := d_PRNumber d;
       d_Status := StatusPending; d_Attempts := 0;
       d_MaxAttempts := if d_MaxAttempts d =? 0 then DefaultMaxAttempts else d_MaxAttempts d;
       d_LastError := d_LastError d; d_NextRetryAt := d_NextRetryAt d;
       d_CreatedAt := now; d_CompletedAt := d_CompletedAt d |}]> q) = runs_of id q) as -> by done.
  rewrite Hr. unfold delivery_ok. cbn in *. split_and!; try done. lia.
Qed.

(** C25: Whatever happens to the queue and whatever statements fail, the columns of every row
    fit together, its review was run exactly as often as its counter says, and so never more
    often than its maximum (or once). *)
Theorem queue_reachable_ok q : queue_reachable q -> queue_ok q.
Proof.
  induction 1 as [|op r _ IH Hop]; [by apply map_Forall_empty|].
  destruct op as [id d|interval next n|older|dt]; cbn [run_queue_op].
  - assert (ensures (fun q => queue_ok q /\ runs_of id q = 0%nat) (ignoring (Create id d))
      (fun _ => queue_ok)) as Hc; [|by apply Hc].
    eapply ensures_bind; [apply Create_ok|]. intros ?. by apply ensures_ret.
  - pose proof (Start_steps interval next n r) as Hs. unfold mbind, DB_bind.
    destruct (Start interval next n r) as [x r']. by eapply worker_ok.
  - assert (ensures queue_ok (ignoring (CleanupOld older)) (fun _ => queue_ok)) as Hc; [|by apply Hc].
    apply ensures_ignoring. eapply ensures_bind; [by apply (ensures_reads _ (fun _ => queue_ok))|].
    intros now. apply ensures_wrapping, ensures_returning; [|done].
    intros q' Hq k d Hd. cbn in Hd. apply delete_where_lookup in Hd as [Hd _]. by apply (Hq k d).
  - by apply elapse_ok.
Qed.

(** A run of the worker never touches a delivery that is completed, dead or still
    marked as being processed, whatever fails: no review is repeated after it succeeded, and one
    whose outcome could not be recorded is never tried again. *)
Theorem worker_leaves_settled interval next n (r : Run Queue) id d :
  q_rows (tables r) !! id = Some d -> d_Status d <> StatusPending -> d_Status d <> StatusFailed ->
  q_rows (tables (Start interval next n r).2) !! id = Some d.
Proof.
  intros Hd Hp Hf. pose proof (Start_steps interval next n r) as Hs. revert Hd.
  induction Hs as [|q q1 q' [Hs|[dt ->]] _ IH]; intros Hd; [done|..]; apply IH; [|done].
  destruct Hs as (recorded & took & err & k & x & Hx & Hlive & ->).
  rewrite tried_other; [done|]. intros ->. rewrite Hd in Hx. injection Hx as <-.
  by destruct Hlive.
Qed.

(** ** Termination *)

(** The attempts a delivery has left. *)
Definition weight (d : Delivery) : nat :=
  match d_Status d with
  | StatusPending => Z.to_nat (Z.max 1 (d_MaxAttempts d))
  | StatusFailed => Z.to_nat (d_MaxAttempts d - d_Attempts d)
  | _ => 0
  end.

Definition work (m : gmap UUID Delivery) : nat := sum_list_with (fun kd => weight kd.2) (map_to_list m).

Definition none_processing (q : Queue) : Prop :=
  map_Forall (fun _ d => d_Status d <> StatusProcessing) (q_rows q).

Lemma work_lookup m id d : m !! id = Some d -> work m = (weight d + work (delete id m))%nat.
Proof. intros Hd. unfold work. by rewrite <- (map_to_list_delete _ _ _ Hd). Qed.

Lemma work_alter f m id d :
  m !! id = Some d -> (work (alter f id m) + weight d = work m + weight (f d))%nat.
Proof.
  intros Hd. rewrite (work_lookup m id d Hd), (work_lookup (alter f id m) id (f d)).
  - rewrite delete_alter_eq. lia.
  - by rewrite lookup_alter_eq, Hd.
Qed.

Lemma work_zero q id d :
  queue_ok q -> work (q_rows q) = 0%nat -> q_rows q !! id = Some d -> ~ live d.
Proof.
  intros Hq Hw Hd Hlive. rewrite (work_lookup _ _ _ Hd) in Hw.
  destruct (Hq id d Hd) as (_ & _ & _ & Hs). unfold weight in Hw.
  destruct Hlive as [E|E]; rewrite E in *; lia.
Qed.

(** A recorded attempt uses up one of the attempts left. *)
Lemma tried_work took err id d q :
  queue_ok q -> q_rows q !! id = Some d -> live d ->
  (work (q_rows (tried true took err id d q)) < work (q_rows q))%nat.
Proof.
  intros Hq Hd Hlive. cbn.
  pose proof (work_alter (fun d => conclude err (q_now q + Z.of_N took) (processing d)) _ _ _ Hd) as Hw.
  destruct (Hq id d Hd) as (_ & _ & _ & Hs).
  assert (weight (conclude err (q_now q + Z.of_N took) (processing d)) < weight d)%nat; [|lia].
  unfold conclude. destruct err as [e|]; [destruct (Z.leb_spec (d_MaxAttempts (processing d))
    (d_Attempts (processing d)))|]; cbn in *; unfold weight; cbn;
    destruct Hlive as [E|E]; rewrite E in *; lia.
Qed.

Definition recorded_step (q q' : Queue) : Prop :=
  exists took err id d, q_rows q !! id = Some d /\ live d /\ q' = tried true took err id d q.

(** What recorded attempts keep, and that they use up work. *)
Lemma recorded_steps q q' :
  rtc recorded_step q q' -> queue_ok q -> none_processing q ->
  queue_ok q' /\ none_processing q' /\ dom (q_rows q') = dom (q_rows q) /\
  (q' = q \/ work (q_rows q') < work (q_rows q))%nat.
Proof.
  induction 1 as [|q q1 q' (took & err & id & d & Hd & Hlive & ->) _ IH]; intros Hq Hn; [by auto|].
  pose proof (tried_work took err id d q Hq Hd Hlive) as Hw.
  destruct IH as (Hq' & Hn' & Hdom & Hw').
  - eapply step_ok; [|exact Hq]. exists true, took, err, id, d. auto.
  - intros k x Hx. cbn in Hx. destruct (decide (k = id)) as [->|Hne].
    + rewrite lookup_alter_eq, Hd in Hx. injection Hx as <-. unfold conclude.
      destruct err as [e|]; [destruct (_ <=? _)|]; done.
    + rewrite lookup_alter_ne in Hx by done. by apply (Hn k x).
  - split_and!; [done..| |].
    + rewrite Hdom. cbn. apply dom_alter_L.
    + right. destruct Hw' as [-> |]; lia.
Qed.

Lemma live_fits q id d :
  queue_ok q -> q_rows q !! id = Some d -> live d -> fits_int4 (d_Attempts d + 1) = true.
Proof.
  intros Hq Hd Hlive. destruct (Hq id d Hd) as (Ha & _ & Hf & Hs). unfold fits_int4 in *.
  destruct Hlive as [E|E]; rewrite E in Hs; lia.
Qed.

Lemma every_quiet l q :
  queue_ok q -> NoDup l.*1 ->
  (forall kd, kd ∈ l -> q_rows q !! kd.1 = Some kd.2 /\ live kd.2) ->
  exists q', every l processDelivery (quiet q) = (tt, quiet q') /\ rtc recorded_step q q' /\
    (l <> [] -> (work (q_rows q') < work (q_rows q))%nat).
Proof.
  revert q. induction l as [|[id d] l IH]; intros q Hq Hnd Hl; [by exists q|].
  cbn [fmap list_fmap fst] in Hnd. apply NoDup_cons in Hnd as [Hid Hnd].
  destruct (Hl (id, d)) as [Hd Hlive]; [by left|]. cbn in Hd, Hlive.
  pose proof (processDelivery_quiet id d q Hd (live_fits q id d Hq Hd Hlive)) as E.
  destruct (execute _ _ _ _) as [took err]. set (q1 := tried true took err id d q) in *.
  assert (step q q1) as Hs by (exists true, took, err, id, d; auto).
  pose proof (step_ok q q1 Hs Hq) as Hq1.
  destruct (IH q1) as (q' & E' & Hs' & Hw'); [done..| |].
  { intros [k x] Hk. destruct (Hl (k, x)) as [Hx Hxl]; [by right|]. split; [|done]. cbn in *.
    rewrite lookup_alter_ne; [done|].
    intros <-. apply Hid. by apply (list_elem_of_fmap_2 fst) in Hk. }
  exists q'. cbn [every]. rewrite (bind_run _ _ _ _ _ E). split; [exact E'|]. split.
  - eapply rtc_l; [|exact Hs']. exists took, err, id, d. auto.
  - intros _. pose proof (tried_work took err id d q Hq Hd Hlive) as Hw. fold q1 in Hw.
    destruct l; [cbn in E'; injection E' as <-; done|]. specialize (Hw' ltac:(done)). lia.
Qed.

Lemma listing_quiet what p key limit q :
  0 <= limit ->
  listing what p key limit (quiet q) =
    (Ok (firstn (Z.to_nat limit) (order_by (fun kd => key kd.2) (select (p q) (q_rows q)))), quiet q).
Proof.
  intros Hl. unfold listing. apply (wrapping_run _ _ _ (Ok _)).
  erewrite try_run; [|rewrite guarded_quiet; cbn beta; by rewrite (proj2 (Z.leb_le _ _) Hl)].
  done.
Qed.

(** A batch without failures does something unless nothing is pending and nothing is due. *)
Lemma processBatch_quiet q :
  queue_ok q ->
  exists q', processBatch (quiet q) = (tt, quiet q') /\ rtc recorded_step q q' /\
    ((work (q_rows q') < work (q_rows q))%nat \/
     (q' = q /\ map_Forall (fun _ d => d_Status d <> StatusPending /\
       (d_Status d = StatusFailed -> due (q_now q) d = false)) (q_rows q))).
Proof.
  intros Hq. unfold processBatch, ListPending, ListRetryable.
  rewrite (bind_run _ _ _ _ _ (listing_quiet _ _ _ 10 q ltac:(lia))).
  set (l := firstn _ _).
  assert (listed (fun _ _ => has_status StatusPending) q l) as Hl.
  { split; [apply top_rows_NoDup|]. intros k d Hk. by apply top_rows_elem_of in Hk. }
  destruct (every_quiet l q Hq (proj1 Hl) (pending_live q l Hl)) as (q1 & E1 & Hs1 & Hw1).
  rewrite (bind_run _ _ _ _ _ E1).
  rewrite (bind_run _ _ _ _ _ (listing_quiet _ _ _ 10 q1 ltac:(lia))).
  assert (queue_ok q1) as Hq1.
  { clear -Hs1 Hq. induction Hs1 as [|q q2 q1 (took & err & id & d & Hd) _ IH]; [done|].
    apply IH. eapply step_ok; [|exact Hq]. exists true, took, err, id, d. done. }
  set (l' := firstn _ _).
  assert (listed (fun q _ d => has_status StatusFailed d && due (q_now q) d) q1 l') as Hl'.
  { split; [apply top_rows_NoDup|]. intros k d Hk. by apply top_rows_elem_of in Hk. }
  destruct (every_quiet l' q1 Hq1 (proj1 Hl') (retryable_live q1 l' Hl')) as (q2 & E2 & Hs2 & Hw2).
  exists q2. split; [exact E2|]. split; [by etrans|].
  destruct (decide (l = [])) as [El|Hne].
  - rewrite El in E1. injection E1 as <-.
    destruct (decide (l' = [])) as [El'|Hne']; [|left; by apply Hw2].
    rewrite El' in E2. injection E2 as <-. right. split; [done|]. intros k d Hd. split.
    + pose proof (top_rows_nil _ _ _ 9 k d El Hd) as Hx. cbn beta in Hx.
      by apply bool_decide_eq_false in Hx.
    + intros E. pose proof (top_rows_nil _ _ _ 9 k d El' Hd) as Hx. cbn beta in Hx.
      apply andb_false_iff in Hx as [Hx|Hx]; [|done]. by apply bool_decide_eq_false in Hx.
  - left. destruct (decide (l' = [])) as [El'|Hne'].
    + rewrite El' in E2. injection E2 as <-. by apply Hw1.
    + specialize (Hw1 Hne). specialize (Hw2 Hne'). lia.
Qed.

(** ** The worker settles every delivery *)

Definition idle (q : Queue) : Prop :=
  map_Forall (fun _ d => d_Status d <> StatusPending /\
    (d_Status d = StatusFailed -> due (q_now q) d = false)) (q_rows q).

Definition settled_by (q q' : Queue) : Prop :=
  queue_ok q' /\ none_processing q' /\ dom (q_rows q') = dom (q_rows q).

Lemma Start_add interval next n m (r r1 : Run Queue) next1 :
  Start interval next n r = (next1, r1) ->
  Start interval next (n + m) r = Start interval next1 m r1.
Proof.
  revert next r. induction n as [|n IH]; intros next r E; [by injection E as -> ->|].
  cbn [Start Nat.add] in *. unfold mbind, DB_bind in *.
  destruct (tick interval next r) as [next2 r2]. by apply IH.
Qed.

Lemma following_ahead interval next now :
  (0 < interval)%N -> Z.max next now < following interval next now.
Proof.
  intros Hi. unfold following.
  pose proof (Z.div_mod (Z.max next now - next) (Z.of_N interval) ltac:(lia)).
  pose proof (Z.mod_pos_bound (Z.max next now - next) (Z.of_N interval) ltac:(lia)). nia.
Qed.

(** A tick that is waited for comes an interval after the one before. *)
Lemma following_waited interval next now :
  (0 < interval)%N -> now <= next -> following interval next now = next + Z.of_N interval.
Proof.
  intros Hi Hn. unfold following. rewrite Z.max_l, Z.sub_diag by done.
  rewrite Z.div_0_l by lia. lia.
Qed.

Lemma tick_quiet interval next q :
  queue_ok q -> none_processing q ->
  exists q', tick interval next (quiet q) = (following interval next (q_now q), quiet q') /\
    settled_by q q' /\
    ((work (q_rows q') < work (q_rows q))%nat \/
     (q' = elapse (Z.to_N (next - q_now q)) q /\ idle q')).
Proof.
  intros Hq Hn. apply (elapse_ok (Z.to_N (next - q_now q))) in Hq.
  destruct (processBatch_quiet _ Hq) as (q' & E & Hs & Hw).
  exists q'. split; [|split].
  - unfold tick. unfold mbind, DB_bind, reads, writes. cbn [tables quiet].
    change (set_tables _ (quiet q)) with (quiet (elapse (Z.to_N (next - q_now q)) q)). by rewrite E.
  - destruct (recorded_steps _ _ Hs Hq Hn) as (? & ? & ? & _). done.
  - destruct Hw as [Hw|[-> Hi]]; [by left|by right].
Qed.

(** Ticks never make work. *)
Lemma ticks_keep n interval next q :
  queue_ok q -> none_processing q ->
  exists next' q', Start interval next n (quiet q) = (next', quiet q') /\ settled_by q q' /\
    (work (q_rows q') <= work (q_rows q))%nat.
Proof.
  revert next q. induction n as [|n IH]; intros next q Hq Hn; [by exists next, q|].
  destruct (tick_quiet interval next q Hq Hn) as (q1 & E1 & (Hq1 & Hn1 & Hd1) & Hw1).
  destruct (IH (following interval next (q_now q)) q1 Hq1 Hn1)
    as (next' & q' & E & (Hq' & Hn' & Hd) & Hw).
  exists next', q'. cbn [Start]. rewrite (bind_run _ _ _ _ _ E1). split; [exact E|].
  split; [split_and!; [done..|congruence]|]. destruct Hw1 as [Hw1|[-> _]]; [lia|done].
Qed.

(** From the worker waiting for a tick, [k] more ticks take [k] intervals unless there is work. *)
Lemma idle_or_work k interval next q :
  (0 < interval)%N -> q_now q <= next -> queue_ok q -> none_processing q ->
  exists next' q', Start interval next (S k) (quiet q) = (next', quiet q') /\ settled_by q q' /\
    ((work (q_rows q') < work (q_rows q))%nat \/
     (q' = elapse (Z.to_N (next - q_now q) + N.of_nat k * interval) q /\ idle q')).
Proof.
  intros Hi. revert next q. induction k as [|k IH]; intros next q Hnext Hq Hn.
  - destruct (tick_quiet interval next q Hq Hn) as (q' & E & Hs & Hw). eexists _, q'.
    split; [cbn [Start]; by rewrite (bind_run _ _ _ _ _ E)|]. split; [done|].
    by replace (Z.to_N (next - q_now q) + N.of_nat 0 * interval)%N with (Z.to_N (next - q_now q)) by lia.
  - destruct (tick_quiet interval next q Hq Hn) as (q1 & E1 & (Hq1 & Hn1 & Hd1) & Hw1).
    rewrite following_waited in E1 by done. destruct Hw1 as [Hw1|[-> _]].
    + destruct (ticks_keep (S k) interval (next + Z.of_N interval) q1 Hq1 Hn1)
        as (next' & q' & E & (Hq' & Hn' & Hd) & Hw).
      exists next', q'. change (S (S k)) with (1 + S k)%nat.
      rewrite (Start_add interval next 1 (S k) _ _ _ (eq_trans (bind_run _ _ _ _ _ E1) eq_refl)).
      split; [exact E|]. split; [split_and!; [done..|congruence]|left; lia].
    + destruct (IH (next + Z.of_N interval) (elapse (Z.to_N (next - q_now q)) q))
        as (next' & q' & E & (Hq' & Hn' & Hd) & Hw); [cbn; lia|done..|].
      exists next', q'. change (S (S k)) with (1 + S k)%nat.
      rewrite (Start_add interval next 1 (S k) _ _ _ (eq_trans (bind_run _ _ _ _ _ E1) eq_refl)).
      split; [exact E|]. split; [done|]. destruct Hw as [|[-> Hid]]; [by left|right].
      split; [|done]. unfold elapse. cbn. f_equal. lia.
Qed.

(** Ticks that cover the longest backoff: as many intervals as make two hours, one tick that may be
    waiting and the one that ends the last interval. *)
Definition intervals (interval : N) : nat :=
  Z.to_nat ((2 * hour + Z.of_N interval - 1) / Z.of_N interval).
Definition window (interval : N) : nat := (intervals interval + 2)%nat.

Lemma intervals_cover interval :
  (0 < interval)%N -> 2 * hour <= Z.of_nat (intervals interval) * Z.of_N interval.
Proof.
  intros Hg. unfold intervals.
  pose proof (Z.div_mod (2 * hour + Z.of_N interval - 1) (Z.of_N interval) ltac:(lia)).
  pose proof (Z.mod_pos_bound (2 * hour + Z.of_N interval - 1) (Z.of_N interval) ltac:(lia)).
  set (n := (2 * hour + Z.of_N interval - 1) / Z.of_N interval) in *.
  assert (0 < 2 * hour) by done. assert (0 < n) by nia.
  rewrite Z2Nat.id by lia. nia.
Qed.

Lemma work_none m : map_Forall (fun _ d => weight d = 0%nat) m -> work m = 0%nat.
Proof.
  intros Hm. unfold work. apply map_Forall_to_list in Hm.
  induction Hm as [|[k d] l Hd _ IH]; [done|]. cbn in *. lia.
Qed.

(** Two hours after a row was written, it is due. *)
Lemma idle_done dt q :
  queue_ok q -> 2 * hour <= Z.of_N dt -> idle (elapse dt q) -> work (q_rows q) = 0%nat.
Proof.
  intros Hq Hdt Hi. apply work_none. intros id d Hd. destruct (Hi id d Hd) as [Hp Hf].
  unfold weight. destruct (d_Status d) eqn:Es; try done. specialize (Hf eq_refl).
  destruct (Hq id d Hd) as (_ & _ & _ & Hst). rewrite Es in Hst.
  destruct Hst as (_ & t & Et & Hle). unfold due in Hf. rewrite Et in Hf. cbn [elapse q_now] in Hf.
  apply Z.leb_gt in Hf. lia.
Qed.

Lemma window_progress interval next q :
  (0 < interval)%N -> queue_ok q -> none_processing q ->
  exists next' q', Start interval next (window interval) (quiet q) = (next', quiet q') /\
    settled_by q q' /\
    ((work (q_rows q') < work (q_rows q))%nat \/ work (q_rows q') = 0%nat).
Proof.
  intros Hi Hq Hn. unfold window.
  destruct (tick_quiet interval next q Hq Hn) as (q1 & E1 & (Hq1 & Hn1 & Hd1) & Hw1).
  set (next1 := following interval next (q_now q)) in *.
  replace (intervals interval + 2)%nat with (1 + S (intervals interval))%nat by lia.
  destruct Hw1 as [Hw1|[-> _]].
  - destruct (ticks_keep (S (intervals interval)) interval next1 q1 Hq1 Hn1)
      as (next' & q' & E & (Hq' & Hn' & Hd) & Hw).
    exists next', q'. rewrite (Start_add interval next 1 _ _ _ _ (eq_trans (bind_run _ _ _ _ _ E1) eq_refl)).
    split; [exact E|]. split; [split_and!; [done..|congruence]|left; lia].
  - destruct (idle_or_work (intervals interval) interval next1 (elapse (Z.to_N (next - q_now q)) q))
      as (next' & q' & E & Hs & Hw); [done| |done..|].
    { pose proof (following_ahead interval next (q_now q) Hi) as Hf. fold next1 in Hf. cbn. lia. }
    exists next', q'. rewrite (Start_add interval next 1 _ _ _ _ (eq_trans (bind_run _ _ _ _ _ E1) eq_refl)).
    split; [exact E|]. split; [exact Hs|]. destruct Hw as [|[-> Hid]]; [by left|right].
    refine (idle_done _ (elapse (Z.to_N (next - q_now q)) q) Hq1 _ Hid).
    pose proof (intervals_cover interval Hi). lia.
Qed.

Lemma windows_settle n interval next q :
  (0 < interval)%N -> queue_ok q -> none_processing q -> (work (q_rows q) <= n)%nat ->
  exists next' q', Start interval next (n * window interval) (quiet q) = (next', quiet q') /\
    settled_by q q' /\ work (q_rows q') = 0%nat.
Proof.
  intros Hi. revert next q. induction n as [|n IH]; intros next q Hq Hn Hw.
  { exists next, q. split; [done|]. split; [by unfold settled_by|lia]. }
  destruct (window_progress interval next q Hi Hq Hn) as (next1 & q1 & E1 & (Hq1 & Hn1 & Hd1) & Hw1).
  destruct (IH next1 q1 Hq1 Hn1) as (next' & q' & E & (Hq' & Hn' & Hd) & Hw'); [lia|].
  exists next', q'. cbn [Nat.mul].
  rewrite (Start_add _ _ _ _ _ _ _ E1). split; [exact E|]. split; [|done].
  split_and!; [done..|congruence].
Qed.

(** C24: If statements succeed, every delivery ends: from a queue whose rows fit together and
    none of which is being processed, for every interval of the ticker and whenever its next tick
    is, whatever the executor answers and however long it takes, so that ticks wait or are
    dropped, after as many windows of two hours and two ticks as attempts are left each delivery
    is completed or dead. *)
Theorem deliveries_settle interval next q :
  (0 < interval)%N -> queue_ok q -> none_processing q ->
  exists next' q',
    Start interval next (work (q_rows q) * window interval) (quiet q) = (next', quiet q') /\
    dom (q_rows q') = dom (q_rows q) /\
    map_Forall (fun _ d => d_Status d = StatusCompleted \/ d_Status d = StatusDead) (q_rows q').
Proof.
  intros Hi Hq Hn.
  destruct (windows_settle (work (q_rows q)) interval next q Hi Hq Hn ltac:(done))
    as (next' & q' & E & (Hq' & Hn' & Hd) & Hw).
  exists next', q'. split; [done|]. split; [done|]. intros id d Hid.
  pose proof (work_zero q' id d Hq' Hw Hid) as Hlive. specialize (Hn' id d Hid). unfold live in Hlive.
  cbn in Hn'. destruct (d_Status d); naive_solver.
Qed.

(** One attempt at a delivery, if statements succeed: the executor is called once, for
    its repository and pull request; the row is completed, or dead when that was its last
    attempt, or waits for the backoff of the attempts made; nothing else changes. *)
Theorem processDelivery_spec id d q :
  q_rows q !! id = Some d -> fits_int4 (d_Attempts d + 1) = true ->
  let '(took, err) := execute (length (q_calls q)) (q_now q + 10 * minute) (d_RepoID d)
                        (d_PRNumber d) in
  let now := q_now q + Z.of_N took in
  exists q', processDelivery (id, d) (quiet q) = (tt, quiet q') /\
    q_now q' = now /\ q_calls q' = (q_calls q ++ [(id, d_RepoID d, d_PRNumber d)])%list /\
    q_rows q' = <[id := match err with
      | None => set_outcome StatusCompleted (d_Attempts d + 1) "" (d_NextRetryAt d) (Some now) d
      | Some e =>
          if d_MaxAttempts d <=? d_Attempts d + 1
          then set_outcome StatusDead (d_Attempts d + 1) e (d_NextRetryAt d) (d_CompletedAt d) d
          else set_outcome StatusFailed (d_Attempts d + 1) e
                 (Some (now + backoff (d_Attempts d + 1))) (d_CompletedAt d) d
      end]> (q_rows q).
Proof.
  intros Hd Hf. pose proof (processDelivery_quiet id d q Hd Hf) as E.
  destruct (execute _ _ _ _) as [took err]. exists (tried true took err id d q).
  split; [exact E|]. split; [done|]. split; [done|].
  apply map_eq. intros k. cbn. destruct (decide (k = id)) as [->|Hne].
  - rewrite lookup_alter_eq, lookup_insert_eq, Hd. unfold conclude. cbn.
    by destruct err; [destruct (_ <=? _)|].
  - by rewrite lookup_alter_ne, lookup_insert_ne.
Qed.

(** ** Backoff *)

Section backoff.
Hypothesis pow4 : forall n, 0 <= n <= 14 -> to_int (math_pow (of_int 4) (of_int n)) = 4 ^ n.

(** The pause after [n] attempts is thirty seconds times [4^n], at most two hours, up to
    fourteen attempts; it is then two hours from the fourth attempt on. *)
Theorem backoff_spec n :
  0 <= n <= 14 -> backoff n = Z.min (30 * second * 4 ^ n) (2 * hour).
Proof.
  intros Hn. unfold backoff. rewrite pow4 by done.
  assert (4 ^ n <= 4 ^ 14) as Hp by (apply Z.pow_le_mono_r; lia).
  assert (0 < 4 ^ n) by (apply Z.pow_pos_nonneg; lia).
  assert (4 ^ 14 = 268435456) as E by done. rewrite E in Hp.
  unfold second, hour, second in *.
  rewrite (wrap64_id (4 ^ n * 30)) by (unfold in_int64; lia).
  rewrite (wrap64_id (4 ^ n * 30 * 1000000000)) by (unfold in_int64; lia).
  destruct (Z.ltb_spec (2 * (3600 * 1000000000)) (4 ^ n * 30 * 1000000000)); lia.
Qed.
End backoff.
End webhookq.

(** ** Evaluation *)

#[local] Existing Instance integer_pow.
#[local] Instance written_rows : RowOrder :=
  {| row_order := fun _ l => l; row_order_perm := fun _ l => reflexivity l |}.

(** Pull request 7 cannot be reviewed, every review takes a minute. *)
#[local] Instance sample_executor : ReviewExecutor := {|
  execute _ _ _ pr := (60000000000%N, if pr =? 7 then Some "engine down" else None)
|}.

Definition sample_delivery (pr maxAttempts : Z) : Delivery :=
  {| d_WebhookEventID := 1%N; d_RepoID := 2%N; d_Platform := "github"; d_PRNumber := pr;
     d_Status := StatusPending; d_Attempts := 0; d_MaxAttempts := maxAttempts; d_LastError := "";
     d_NextRetryAt := None; d_CreatedAt := 0; d_CompletedAt := None |}.

Definition no_deliveries : Queue := {| q_rows := ∅; q_now := 0; q_calls := [] |}.

(** Two deliveries, one of which cannot succeed. *)
Definition sample_queue : Queue :=
  tables ((ignoring (Create 11%N (sample_delivery 7 2));;
           ignoring (Create 12%N (sample_delivery 8 0))) (quiet no_deliveries)).2.

Lemma sample_reachable : queue_reachable sample_queue.
Proof.
  change sample_queue with (tables (run_queue_op (OpCreate 12%N (sample_delivery 8 0))
    (quiet (tables (run_queue_op (OpCreate 11%N (sample_delivery 7 2)) (quiet no_deliveries)).2))).2).
  apply reach_op; [|by vm_compute]. apply reach_op; [apply (reach_empty 0)|by vm_compute].
Qed.

Lemma queue_reachable_ok_witness : queue_reachable sample_queue /\ queue_ok sample_queue.
Proof. split; [apply sample_reachable|]. apply queue_reachable_ok, sample_reachable. Defined.

(** Two ticks of a minute complete one delivery and leave the other to be tried again. *)
Definition after_two_ticks : Run Queue := (Start 60000000000 60000000000 2 (quiet sample_queue)).2.

Example two_ticks :
  (d_Status <$> q_rows (tables after_two_ticks) !! 11%N,
   d_Status <$> q_rows (tables after_two_ticks) !! 12%N, length (q_calls (tables after_two_ticks))) =
  (Some StatusFailed, Some StatusCompleted, 2%nat).
Proof. by vm_compute. Qed.

Lemma worker_leaves_settled_witness :
  exists d, q_rows (tables after_two_ticks) !! 12%N = Some d /\
    q_rows (tables (Start 60000000000 180000000000 1 after_two_ticks).2) !! 12%N = Some d.
Proof.
  eexists. split; [vm_compute; reflexivity|].
  apply worker_leaves_settled; [vm_compute; reflexivity|discriminate..].
Defined.

Lemma deliveries_settle_witness :
  exists next' q', Start 600000000000 600000000000
      (work (q_rows sample_queue) * window 600000000000) (quiet sample_queue) = (next', quiet q') /\
    dom (q_rows q') = dom (q_rows sample_queue) /\
    map_Forall (fun _ d => d_Status d = StatusCompleted \/ d_Status d = StatusDead) (q_rows q').
Proof.
  apply deliveries_settle; [done|apply queue_reachable_ok_witness|].
  apply map_Forall_to_list. vm_compute. repeat constructor; discriminate.
Defined.

Lemma processDelivery_spec_witness :
  exists q', processDelivery (11%N, sample_delivery 7 2) (quiet sample_queue) = (tt, quiet q') /\
    d_NextRetryAt <$> q_rows q' !! 11%N = Some (Some (60 * second + 120 * second)).
Proof.
  destruct (processDelivery_spec 11%N (sample_delivery 7 2) sample_queue) as (q' & E & _ & _ & Hr);
    [vm_compute; reflexivity|vm_compute; reflexivity|].
  exists q'. split; [exact E|]. rewrite Hr, lookup_insert_eq. vm_compute. reflexivity.
Defined.

Lemma small_cases (f g : Z -> Z) (k : nat) :
  forallb (fun n => f n =? g n) (seqZ 0 (Z.of_nat k)) = true ->
  forall n, 0 <= n < Z.of_nat k -> f n = g n.
Proof.
  intros Hk n Hn. apply Z.eqb_eq. rewrite forallb_forall in Hk. apply Hk.
  apply list_elem_of_In, elem_of_seqZ. lia.
Qed.

Lemma backoff_spec_witness : backoff 3 = 32 * minute /\ backoff 4 = 2 * hour.
Proof.
  assert (forall n, 0 <= n <= 14 -> to_int (math_pow (of_int 4) (of_int n)) = 4 ^ n) as Hp.
  { intros n Hn. apply (small_cases (fun n => to_int (math_pow (of_int 4) (of_int n)))
      (fun n => 4 ^ n) 15); [vm_compute; reflexivity|lia]. }
  split; [rewrite (backoff_spec Hp 3); [reflexivity|lia]|].
  rewrite (backoff_spec Hp 4); [reflexivity|lia].
Defined.

(** The product overflows after fifteen attempts: the next one is due at once. *)
Example backoff_overflows : backoff 15 < 0.
Proof. by vm_compute. Qed.

(** The comment lists thirty seconds first, but the counter is one when it is first used. *)
Example first_backoff : backoff 1 = 2 * minute.
Proof. by vm_compute. Qed.

(** The statement that records the failure fails: the row stays in [processing], and by
    [worker_leaves_settled] no run of the worker takes it up again. *)
Example unrecorded_failure_is_stuck :
  let r := (processDelivery (11%N, sample_delivery 7 2)
              (MkRun sample_queue [false; false; true])).2 in
  (d_Status <$> q_rows (tables r) !! 11%N, fails r) = (Some StatusProcessing, []).
Proof. by vm_compute. Qed.
