(* ===== verification/CrossRepoStore.v ===== *)
(** * Links between repositories: data and statements

    [model/repo_link.go] and [store/repo_link_repo.go], with the queries of
    [store/org_repo.go], [store/repo_repo.go] and [store/repo_member_repo.go] that the
    authorisation reads.  The tables are those of the migration [000018]: the database refuses
    a second link between the same repositories of an organisation, a link of a repository
    with itself, an unknown profile, and an event of a link that does not exist; it sets the
    link of an event to NULL when the link is deleted.  A setting of an organisation is a JSON
    value, of which only booleans and numbers matter here. *)

From Stdlib Require Import ZArith Lia String.
From stdpp Require Import base list gmap strings sorting.
From S2P Require Import Prelude GoStrings GoFloat SwarmDb Db.
Local Open Scope string_scope.
Local Open Scope rtv_scope.
Local Open Scope Z_scope.

(** ** [model] *)

Definition ShareFull := "full".
Definition ShareSymbols := "symbols".
Definition ShareMetadata := "metadata".
Definition ShareNone := "none".

Definition ValidShareProfiles (p : string) : bool :=
  existsb (String.eqb p) [ShareFull; ShareSymbols; ShareMetadata; ShareNone].

Definition ActionCrossRepoSearch := "cross_repo.search".
Definition ActionCrossRepoSymbols := "cross_repo.symbols".
Definition ActionCrossRepoMetadata := "cross_repo.metadata".
Definition ActionCrossRepoFileRead := "cross_repo.file_read".
Definition ActionCrossRepoGraphView := "cross_repo.graph_view".
Definition ActionCrossRepoChatMention := "cross_repo.chat_mention".

Record RepoLink := {
  l_ID : UUID;
  l_OrgID : UUID;
  l_SourceRepoID : UUID;
  l_TargetRepoID : UUID;
  l_ShareProfile : string;
  l_Label : string;
  l_CreatedBy : UUID;
  l_CreatedAt : Z;
  l_UpdatedAt : Z
}.

Definition IsActive (l : RepoLink) : bool := negb (String.eqb (l_ShareProfile l) ShareNone).

Definition one_of (s : string) (l : list string) : bool := existsb (String.eqb s) l.

Definition AllowsAction (l : RepoLink) (action : string) : bool :=
  if String.eqb (l_ShareProfile l) ShareFull then true
  else if String.eqb (l_ShareProfile l) ShareSymbols then
    one_of action [ActionCrossRepoSymbols; ActionCrossRepoMetadata; ActionCrossRepoGraphView;
                   ActionCrossRepoChatMention]
  else if String.eqb (l_ShareProfile l) ShareMetadata then
    one_of action [ActionCrossRepoMetadata; ActionCrossRepoGraphView]
  else false.

Record RepoLinkEvent := {
  ev_ID : UUID;
  ev_LinkID : option UUID;
  ev_OrgID : UUID;
  ev_SourceRepoID : UUID;
  ev_TargetRepoID : UUID;
  ev_Action : string;
  ev_ActorID : option UUID;
  ev_Metadata : list (string * string);
  ev_CreatedAt : Z
}.

Record RepoLinkWithNames := {
  ln_Link : RepoLink;
  ln_SourceRepoName : string;
  ln_TargetRepoName : string
}.

Inductive Setting := SBool (b : bool) | SNumber (f : float64) | SOther.

Record Organization := { o_Settings : option (gmap string Setting) }.
Record Repository := { r_OrgID : UUID; r_Owner : string; r_Name : string }.
Record OrgMember := { m_Role : string; m_JoinedAt : Z }.
Record RepoMember := { rm_Role : string; rm_AddedAt : Z }.

(** An entry of [audit_log]. *)
Record AuditEntry := {
  ae_UserID : option UUID;
  ae_Action : string;
  ae_ResourceType : string;
  ae_ResourceID : string;
  ae_Metadata : list (string * string)
}.

(** ** State *)

(** A call of the engine, with the repositories it is given. *)
Inductive EngineCall :=
  | CallManifest (repoID : string)
  | CallSearch (query : string) (repoIDs symbols : list string)
  | CallDependencies (sourceID : string) (targetIDs : list string) (maxDepth : Z)
  | CallGraph (orgID : string) (repoIDs : list string) (forceRescan : bool).

Record Observatory := {
  x_orgs : gmap UUID Organization;
  x_repos : gmap UUID Repository;
  x_members : gmap (UUID * UUID) OrgMember;
  x_repo_members : gmap (UUID * UUID) RepoMember;
  x_links : gmap UUID RepoLink;
  x_events : list RepoLinkEvent;
  x_audit : list AuditEntry;
  x_calls : list EngineCall
}.

Definition set_repo_members (f : gmap (UUID * UUID) RepoMember -> gmap (UUID * UUID) RepoMember)
    (x : Observatory) : Observatory :=
  {| x_orgs := x_orgs x; x_repos := x_repos x; x_members := x_members x;
     x_repo_members := f (x_repo_members x); x_links := x_links x; x_events := x_events x;
     x_audit := x_audit x; x_calls := x_calls x |}.
Definition set_links (f : gmap UUID RepoLink -> gmap UUID RepoLink) (x : Observatory)
    : Observatory :=
  {| x_orgs := x_orgs x; x_repos := x_repos x; x_members := x_members x;
     x_repo_members := x_repo_members x; x_links := f (x_links x); x_events := x_events x;
     x_audit := x_audit x; x_calls := x_calls x |}.
Definition set_events (f : list RepoLinkEvent -> list RepoLinkEvent) (x : Observatory)
    : Observatory :=
  {| x_orgs := x_orgs x; x_repos := x_repos x; x_members := x_members x;
     x_repo_members := x_repo_members x; x_links := x_links x; x_events := f (x_events x);
     x_audit := x_audit x; x_calls := x_calls x |}.
Definition add_audit (a : AuditEntry) (x : Observatory) : Observatory :=
  {| x_orgs := x_orgs x; x_repos := x_repos x; x_members := x_members x;
     x_repo_members := x_repo_members x; x_links := x_links x; x_events := x_events x;
     x_audit := x_audit x ++ [a]; x_calls := x_calls x |}.
Definition add_engine_call (c : EngineCall) (x : Observatory) : Observatory :=
  {| x_orgs := x_orgs x; x_repos := x_repos x; x_members := x_members x;
     x_repo_members := x_repo_members x; x_links := x_links x; x_events := x_events x;
     x_audit := x_audit x; x_calls := x_calls x ++ [c] |}.

(** ** Statements *)

(** [OrgRepository.GetByID], [OrgRepository.GetMember], [RepositoryRepo.GetByID] *)
Definition GetOrg (id : UUID) : DBE Observatory Organization :=
  get_row "get organization" (fun x => x_orgs x !! id).
Definition GetMember (orgID userID : UUID) : DBE Observatory OrgMember :=
  get_row "get org member" (fun x => x_members x !! (orgID, userID)).
Definition GetRepo (id : UUID) : DBE Observatory Repository :=
  get_row "get repository" (fun x => x_repos x !! id).

Section store.
Context `{RowOrder}.

(** *** [RepoMemberRepo] *)

Definition AddMember (now : Z) (repoID userID : UUID) (role : string) : DBE Observatory unit :=
  wrapping "add repo member" (statement (set_repo_members (fun m =>
    <[(repoID, userID) := match m !! (repoID, userID) with
                          | Some old => {| rm_Role := role; rm_AddedAt := rm_AddedAt old |}
                          | None => {| rm_Role := role; rm_AddedAt := now |}
                          end]> m))).

Definition RemoveMember (repoID userID : UUID) : DBE Observatory unit :=
  exec_row "remove repo member" (fun _ => true) (fun x =>
    (match x_repo_members x !! (repoID, userID) with Some _ => 1 | None => 0 end,
     set_repo_members (delete (repoID, userID)) x)).

Definition ListReposByUser (userID : UUID) : DBE Observatory (list UUID) :=
  wrapping "list repos by user" (query (fun x =>
    row_order (omap (fun kv : UUID * UUID * RepoMember =>
                       if (kv.1.2 =? userID)%N then Some kv.1.1 else None)
                    (map_to_list (x_repo_members x))))).

Definition HasAccess (repoID userID : UUID) : DBE Observatory bool :=
  count ←? wrapping "count repo members" (query (fun x =>
    length (List.filter (fun kv : UUID * UUID * RepoMember => (kv.1.1 =? repoID)%N)
              (map_to_list (x_repo_members x)))));
  if (count =? 0)%nat then ok true
  else
    wrapping "check repo access" (query (fun x =>
      match x_repo_members x !! (repoID, userID) with Some _ => true | None => false end)).

(** *** [RepoLinkRepo] *)

Definition same_ends (l l' : RepoLink) : bool :=
  (l_OrgID l =? l_OrgID l')%N && (l_SourceRepoID l =? l_SourceRepoID l')%N
  && (l_TargetRepoID l =? l_TargetRepoID l')%N.

(** The constraints on a new row: the unique ones, and the others. *)
Definition link_duplicate (l : RepoLink) (x : Observatory) : bool :=
  bool_decide (is_Some (x_links x !! l_ID l))
  || existsb (fun kv => same_ends kv.2 l) (map_to_list (x_links x)).
Definition link_accepted (l : RepoLink) (x : Observatory) : bool :=
  ValidShareProfiles (l_ShareProfile l)
  && negb (l_SourceRepoID l =? l_TargetRepoID l)%N
  && bool_decide (is_Some (x_orgs x !! l_OrgID l))
  && bool_decide (is_Some (x_repos x !! l_SourceRepoID l))
  && bool_decide (is_Some (x_repos x !! l_TargetRepoID l)).

Definition Create (now : Z) (id : UUID) (link : RepoLink) : DBE Observatory RepoLink :=
  let link := {| l_ID := id; l_OrgID := l_OrgID link; l_SourceRepoID := l_SourceRepoID link;
                 l_TargetRepoID := l_TargetRepoID link; l_ShareProfile := l_ShareProfile link;
                 l_Label := l_Label link; l_CreatedBy := l_CreatedBy link;
                 l_CreatedAt := now; l_UpdatedAt := now |} in
  next_fails ≫= fun failing : bool =>
  if failing then fail ("create repo link: " ++ failure)
  else
    reads (link_duplicate link) ≫= fun duplicate : bool =>
    if duplicate then fail ErrConflict
    else
      reads (link_accepted link) ≫= fun accepted : bool =>
      if accepted then writes (set_links (<[id := link]>));; ok link
      else fail ("create repo link: " ++ failure).

Definition GetByID (id : UUID) : DBE Observatory RepoLink :=
  get_row "get repo link" (fun x => x_links x !! id).

Definition between (orgID sourceRepoID targetRepoID : UUID) (_ : UUID) (l : RepoLink) : bool :=
  (l_OrgID l =? orgID)%N && (l_SourceRepoID l =? sourceRepoID)%N
  && (l_TargetRepoID l =? targetRepoID)%N.

Definition GetByRepos (orgID sourceRepoID targetRepoID : UUID) : DBE Observatory RepoLink :=
  get_row "get repo link by repos" (fun x =>
    snd <$> head (select (between orgID sourceRepoID targetRepoID) (x_links x))).

Definition set_profile (now : Z) (shareProfile label : string) (l : RepoLink) : RepoLink :=
  {| l_ID := l_ID l; l_OrgID := l_OrgID l; l_SourceRepoID := l_SourceRepoID l;
     l_TargetRepoID := l_TargetRepoID l; l_ShareProfile := shareProfile; l_Label := label;
     l_CreatedBy := l_CreatedBy l; l_CreatedAt := l_CreatedAt l; l_UpdatedAt := now |}.

Definition UpdateShareProfile (now : Z) (id : UUID) (shareProfile label : string)
    : DBE Observatory unit :=
  exec_row "update repo link"
    (fun x => ValidShareProfiles shareProfile || bool_decide (x_links x !! id = None))
    (fun x => (affected id (x_links x),
               set_links (alter (set_profile now shareProfile label) id) x)).

Definition unlink (id : UUID) (e : RepoLinkEvent) : RepoLinkEvent :=
  {| ev_ID := ev_ID e;
     ev_LinkID := if bool_decide (ev_LinkID e = Some id) then None else ev_LinkID e;
     ev_OrgID := ev_OrgID e; ev_SourceRepoID := ev_SourceRepoID e;
     ev_TargetRepoID := ev_TargetRepoID e; ev_Action := ev_Action e; ev_ActorID := ev_ActorID e;
     ev_Metadata := ev_Metadata e; ev_CreatedAt := ev_CreatedAt e |}.

Definition Delete (id : UUID) : DBE Observatory unit :=
  exec_row "delete repo link" (fun _ => true) (fun x =>
    (affected id (x_links x), set_events (map (unlink id)) (set_links (delete id) x))).

(** [COALESCE(owner || '/' || name, '')] of the joined row. *)
Definition repo_label (x : Observatory) (id : UUID) : string :=
  match x_repos x !! id with Some r => r_Owner r ++ "/" ++ r_Name r | None => "" end.
Definition with_names (x : Observatory) (l : RepoLink) : RepoLinkWithNames :=
  {| ln_Link := l; ln_SourceRepoName := repo_label x (l_SourceRepoID l);
     ln_TargetRepoName := repo_label x (l_TargetRepoID l) |}.

Definition in_org (orgID : UUID) (_ : UUID) (l : RepoLink) : bool := (l_OrgID l =? orgID)%N.

Definition ListByOrg (orgID : UUID) (limit offset : Z)
    : DBE Observatory (list RepoLinkWithNames * Z) :=
  total ←? wrapping "count repo links" (query (fun x => count_where (in_org orgID) (x_links x)));
  rows ←? wrapping "list repo links"
    (_ ←? guarded (fun _ => (0 <=? limit) && (0 <=? offset)) (fun x => x);
     rows ← reads (fun x =>
       with_names x <$> firstn (Z.to_nat limit) (skipn (Z.to_nat offset)
         (order_by (fun l => - l_CreatedAt l) (select (in_org orgID) (x_links x)).*2)));
     ok rows);
  ok (rows, total).

Definition touches (repoID : UUID) (_ : UUID) (l : RepoLink) : bool :=
  (l_SourceRepoID l =? repoID)%N || (l_TargetRepoID l =? repoID)%N.

Definition ListByRepo (repoID : UUID) : DBE Observatory (list RepoLinkWithNames) :=
  wrapping "list links by repo" (query (fun x =>
    with_names x <$> order_by (fun l => - l_CreatedAt l)
                       (select (touches repoID) (x_links x)).*2)).

Definition active_from (sourceRepoID : UUID) (_ : UUID) (l : RepoLink) : bool :=
  (l_SourceRepoID l =? sourceRepoID)%N && IsActive l.

Definition ListLinkedRepoIDs (sourceRepoID : UUID) : DBE Observatory (list UUID) :=
  wrapping "list linked repo IDs" (query (fun x =>
    (fun kv => l_TargetRepoID kv.2) <$> select (active_from sourceRepoID) (x_links x))).

Definition active_in (orgID : UUID) (_ : UUID) (l : RepoLink) : bool :=
  (l_OrgID l =? orgID)%N && IsActive l.

Definition CountByOrg (orgID : UUID) : DBE Observatory Z :=
  wrapping "count repo links by org" (query (fun x => count_where (active_in orgID) (x_links x))).

(** The foreign keys of an event: its link, if it names one, and its organisation. *)
Definition event_accepted (e : RepoLinkEvent) (x : Observatory) : bool :=
  match ev_LinkID e with
  | Some id => bool_decide (is_Some (x_links x !! id))
  | None => true
  end && bool_decide (is_Some (x_orgs x !! ev_OrgID e)).

Definition LogEvent (e : RepoLinkEvent) : DBE Observatory unit :=
  wrapping "log repo link event" (guarded (event_accepted e) (set_events (fun l => l ++ [e])%list)).

Definition ListEvents (orgID : UUID) (linkID : option UUID) (limit : Z)
    : DBE Observatory (list RepoLinkEvent) :=
  let limit := if (limit <=? 0) || (500 <? limit) then 100 else limit in
  wrapping "list repo link events" (query (fun x =>
    firstn (Z.to_nat limit) (order_by (fun e => - ev_CreatedAt e) (row_order
      (List.filter (fun e => (ev_OrgID e =? orgID)%N
         && match linkID with
            | Some id => bool_decide (ev_LinkID e = Some id)
            | None => true
            end) (x_events x)))))).

End store.

(** ** The audit log ([audit/audit.go]) *)

(** [LogRequest]: written by a goroutine, its error is dropped. *)
Definition LogRequest (userID : option UUID) (action resourceType resourceID : string)
    (meta : list (string * string)) : DB Observatory unit :=
  ignoring (statement (add_audit {| ae_UserID := userID; ae_Action := action;
    ae_ResourceType := resourceType; ae_ResourceID := resourceID; ae_Metadata := meta |})).
