(* ===== verification/CrossRepo.v ===== *)
(** * Cross-repository access ([internal/crossrepo])

    The authoriser ([authorizer.go]), the federated search ([federated_search.go]), the
    dependency graph ([dep_graph.go]) and the enricher of the review pipeline
    ([pipeline_enricher.go]) on the tables of CrossRepoStore.v.  The engine is a parameter that
    answers every call by its number and its arguments; a call is recorded before it is
    answered.  Durations, metrics and log lines are left out, and so is the text that
    [FormatForPrompt] renders.  [%q] adds quotes, which is right for profiles and actions,
    since no character of theirs is escaped. *)

From Stdlib Require Import ZArith Lia String.
From stdpp Require Import base list gmap strings sorting.
From S2P Require Import Prelude GoStrings GoFloat SwarmDb Db CrossRepoStore.
Local Open Scope string_scope.
Local Open Scope rtv_scope.
Local Open Scope Z_scope.

(** ** Decisions *)

Definition ErrCrossRepoDisabled := "cross-repo features are disabled for this organization".
Definition ErrLinkNotFound := "no link exists between these repositories".
Definition ErrLinkPaused := "cross-repo link is paused (share_profile=none)".
Definition ErrActionNotPermitted := "share profile does not permit this action".
Definition ErrUserNotInOrg := "user is not a member of the organization".
Definition ErrUserNoTargetAccess := "user does not have access to the target repository".
Definition ErrMaxLinksReached :=
  "organization has reached the maximum number of cross-repo links".

Record Decision := { Allowed : bool; Reason : string }.
Definition Allow : Decision := {| Allowed := true; Reason := "" |}.
Definition Deny (reason : string) : Decision := {| Allowed := false; Reason := reason |}.

(** [a, err := m; if err != nil { return Deny(reason(err)) }] *)
Definition or_deny {A} (m : DBE Observatory A) (reason : string -> string)
    (k : A -> DB Observatory Decision) : DB Observatory Decision :=
  m ≫= fun r : result A string =>
    match r with Ok a => k a | Err e => mret (Deny (reason e)) end.

Definition quoted (s : string) : string := str1 34 ++ s ++ str1 34.

Definition IsOrgCrossRepoEnabled (org : Organization) : bool :=
  match o_Settings org with
  | None => true
  | Some settings =>
      match settings !! "cross_repo_enabled" with
      | Some (SBool b) => b
      | _ => true
      end
  end.

Definition GetOrgMaxLinks (org : Organization) : Z :=
  match o_Settings org with
  | None => 0
  | Some settings =>
      match settings !! "max_linked_repos" with
      | Some (SNumber n) => to_int n
      | _ => 0
      end
  end.

Definition RequiresTargetRepoAccess (action : string) : bool :=
  one_of action [ActionCrossRepoSearch; ActionCrossRepoFileRead].

Definition org_manager (role : string) : bool := one_of role ["owner"; "admin"].

Section crossrepo.
Context `{RowOrder}.

Definition userHasTargetAccess (targetRepoID userID : UUID) (orgRole : string)
    : DB Observatory bool :=
  if org_manager orgRole then mret true
  else
    ListReposByUser userID ≫= fun r : result (list UUID) string =>
      match r with
      | Err _ => mret false
      | Ok repos => mret (existsb (N.eqb targetRepoID) repos)
      end.

Definition Authorize (userID sourceRepoID targetRepoID : UUID) (action : string)
    : DB Observatory Decision :=
  or_deny (GetRepo sourceRepoID) (fun _ => "source repository not found") (fun sourceRepo =>
  or_deny (GetRepo targetRepoID) (fun _ => "target repository not found") (fun targetRepo =>
  if negb (r_OrgID sourceRepo =? r_OrgID targetRepo)%N
  then mret (Deny "repositories belong to different organizations")
  else
    let orgID := r_OrgID sourceRepo in
    or_deny (GetOrg orgID) (fun _ => "organization not found") (fun org =>
    if negb (IsOrgCrossRepoEnabled org) then mret (Deny ErrCrossRepoDisabled)
    else
      or_deny (GetByRepos orgID sourceRepoID targetRepoID)
        (fun e => if is_not_found e then ErrLinkNotFound else "internal error checking repo link")
        (fun link =>
      if negb (IsActive link) then mret (Deny ErrLinkPaused)
      else if negb (AllowsAction link action)
      then mret (Deny (ErrActionNotPermitted ++ ": profile=" ++ quoted (l_ShareProfile link)
                       ++ " does not permit action=" ++ quoted action))
      else
        or_deny (GetMember orgID userID)
          (fun e => if is_not_found e then ErrUserNotInOrg
                    else "internal error checking org membership")
          (fun member =>
        if String.eqb (m_Role member) "viewer"
           && negb (String.eqb action ActionCrossRepoMetadata)
           && negb (String.eqb action ActionCrossRepoGraphView)
        then mret (Deny "viewer role can only access metadata and graph views")
        else if RequiresTargetRepoAccess action
        then
          userHasTargetAccess targetRepoID userID (m_Role member) ≫= fun has : bool =>
          if has then mret Allow else mret (Deny ErrUserNoTargetAccess)
        else mret Allow))))).

Definition AuthorizeLink (userID orgID : UUID) : DB Observatory Decision :=
  or_deny (GetOrg orgID) (fun _ => "organization not found") (fun org =>
  if negb (IsOrgCrossRepoEnabled org) then mret (Deny ErrCrossRepoDisabled)
  else
    or_deny (GetMember orgID userID)
      (fun e => if is_not_found e then ErrUserNotInOrg else "internal error checking membership")
      (fun member =>
    if org_manager (m_Role member) then mret Allow
    else mret (Deny "only org owners and admins can manage cross-repo links"))).

Definition CheckOrgLinkBudget (orgID : UUID) : DB Observatory Decision :=
  or_deny (GetOrg orgID) (fun _ => "organization not found") (fun org =>
  let maxLinks := GetOrgMaxLinks org in
  if maxLinks <=? 0 then mret Allow
  else
    or_deny (CountByOrg orgID) (fun _ => "internal error checking link budget") (fun count =>
    if maxLinks <=? count
    then mret (Deny (ErrMaxLinksReached ++ ": " ++ itoa count ++ "/" ++ itoa maxLinks
                     ++ " links used"))
    else mret Allow)).

End crossrepo.

(** ** The engine *)

(** A [float32] is given as the same number. *)
Record ContextChunk := {
  cc_ID : string;
  cc_FilePath : string;
  cc_StartLine : Z;
  cc_EndLine : Z;
  cc_Content : string;
  cc_Language : string;
  cc_Symbols : list string;
  cc_RelevanceScore : float64;
  cc_ChunkType : string
}.

Record FederatedChunk := {
  fc_RepoID : string;
  fc_RepoName : string;
  fc_Chunk : ContextChunk;
  fc_NormalizedScore : float64;
  fc_RawScore : float64
}.

Record FederatedSearchConfig := {
  sc_TopK : Z;
  sc_MaxTotalResults : Z;
  sc_MaxConcurrent : Z;
  sc_ScoreNormalization : string
}.

Record CrossRepoDependency := {
  cd_SourceRepoID : string;
  cd_SourceFile : string;
  cd_SourceSymbol : string;
  cd_TargetRepoID : string;
  cd_TargetFile : string;
  cd_TargetSymbol : string;
  cd_DependencyType : string;
  cd_Confidence : float64
}.

Record DepGraphNode := {
  gn_ID : string;
  gn_RepoID : string;
  gn_Label : string;
  gn_NodeType : string;
  gn_Language : string;
  gn_RepoType : string;
  gn_Metadata : list (string * string)
}.

Record DepGraphEdge := {
  ge_SourceNodeID : string;
  ge_TargetNodeID : string;
  ge_EdgeType : string;
  ge_Weight : float64;
  ge_Metadata : list (string * string)
}.

Record DepGraphResult := {
  dg_Success : bool;
  dg_Message : string;
  dg_ReposScanned : Z;
  dg_TotalNodes : Z;
  dg_TotalEdges : Z;
  dg_Nodes : list DepGraphNode;
  dg_Edges : list DepGraphEdge
}.

(** The answers of the engine over gRPC.  Manifest and metrics are only handed on. *)
Class Engine := {
  RepoManifest : Type;
  SearchMetrics : Type;
  rpc_manifest : nat -> string -> result RepoManifest string;
  rpc_search : nat -> string -> list string -> list string -> FederatedSearchConfig ->
    result (list FederatedChunk * SearchMetrics) string;
  rpc_dependencies : nat -> string -> list string -> Z ->
    result (list CrossRepoDependency * Z) string;
  rpc_graph : nat -> string -> list string -> bool -> result DepGraphResult string
}.

(** Record the call and return its answer. *)
Definition call {A} (c : EngineCall) (answer : nat -> result A string) : DBE Observatory A :=
  reads (fun x => length (x_calls x)) ≫= fun n : nat =>
  writes (add_engine_call c);;
  mret (answer n).

Definition uint32 (z : Z) : Z := z mod 2 ^ 32.

Section services.
Context `{RowOrder} `{UuidText} `{Engine}.

(** ** [federated_search.go] *)

Record FederatedSearchRequest := {
  sq_UserID : UUID;
  sq_SourceRepoID : UUID;
  sq_Query : string;
  sq_TouchedSymbols : list string;
  sq_Config : FederatedSearchConfig
}.

Record FederatedSearchResponse := {
  sr_Chunks : list FederatedChunk;
  sr_Metrics : option SearchMetrics;
  sr_ReposAuthorized : nat;
  sr_ReposDenied : nat;
  sr_DeniedReasons : gmap string string
}.

(** The loop over the targets: those allowed in order, and the reasons of the others. *)
Fixpoint authorize_targets (userID sourceRepoID : UUID) (action : string) (targets : list UUID)
    (authorized : list string) (denied : gmap string string)
    : DB Observatory (list string * gmap string string) :=
  match targets with
  | [] => mret (authorized, denied)
  | targetID :: targets =>
      Authorize userID sourceRepoID targetID action ≫= fun decision : Decision =>
      if Allowed decision
      then authorize_targets userID sourceRepoID action targets
             (authorized ++ [uuid_String targetID]) denied
      else authorize_targets userID sourceRepoID action targets authorized
             (<[uuid_String targetID := Reason decision]> denied)
  end.

Fixpoint resolveRepoNames (repoIDs : list string) (names : gmap string string)
    : DB Observatory (gmap string string) :=
  match repoIDs with
  | [] => mret names
  | idStr :: repoIDs =>
      match uuid_Parse idStr with
      | None => resolveRepoNames repoIDs names
      | Some id =>
          GetRepo id ≫= fun r : result Repository string =>
          match r with
          | Err _ => resolveRepoNames repoIDs names
          | Ok repo => resolveRepoNames repoIDs (<[idStr := r_Name repo]> names)
          end
      end
  end.

Definition name_chunk (names : gmap string string) (c : FederatedChunk) : FederatedChunk :=
  match names !! fc_RepoID c with
  | Some name => {| fc_RepoID := fc_RepoID c; fc_RepoName := name; fc_Chunk := fc_Chunk c;
                    fc_NormalizedScore := fc_NormalizedScore c; fc_RawScore := fc_RawScore c |}
  | None => c
  end.

Definition no_chunks (denied : gmap string string) : FederatedSearchResponse :=
  {| sr_Chunks := []; sr_Metrics := None; sr_ReposAuthorized := 0; sr_ReposDenied := size denied;
     sr_DeniedReasons := denied |}.

Definition Search (req : FederatedSearchRequest) : DBE Observatory FederatedSearchResponse :=
  linkedIDs ←? wrapping "list linked repo IDs" (ListLinkedRepoIDs (sq_SourceRepoID req));
  match linkedIDs with
  | [] => ok (no_chunks ∅)
  | _ =>
      authorize_targets (sq_UserID req) (sq_SourceRepoID req) ActionCrossRepoSearch linkedIDs [] ∅
      ≫= fun '(authorized, denied) =>
      match authorized with
      | [] => ok (no_chunks denied)
      | _ =>
          let allRepoIDs := uuid_String (sq_SourceRepoID req) :: authorized in
          found ←? wrapping "engine federated search"
            (call (CallSearch (sq_Query req) allRepoIDs (sq_TouchedSymbols req))
               (fun n => rpc_search n (sq_Query req) allRepoIDs (sq_TouchedSymbols req)
                           (sq_Config req)));
          let '(chunks, metrics) := found : list FederatedChunk * SearchMetrics in
          resolveRepoNames allRepoIDs ∅ ≫= fun names : gmap string string =>
          ok {| sr_Chunks := map (name_chunk names) chunks; sr_Metrics := Some metrics;
                sr_ReposAuthorized := length authorized; sr_ReposDenied := size denied;
                sr_DeniedReasons := denied |}
      end
  end.

(** ** [dep_graph.go] *)

Definition GetManifest (userID repoID : UUID) : DBE Observatory RepoManifest :=
  wrapping "engine get manifest"
    (call (CallManifest (uuid_String repoID)) (fun n => rpc_manifest n (uuid_String repoID))).

Record GetDependenciesRequest := {
  dq_UserID : UUID;
  dq_SourceRepoID : UUID;
  dq_TargetRepoIDs : list UUID;
  dq_MaxDepth : Z
}.

Record GetDependenciesResponse := {
  dr_Dependencies : list CrossRepoDependency;
  dr_TotalEdges : Z;
  dr_ReposAuthorized : nat;
  dr_ReposDenied : nat
}.

(** The loop over the targets, where the others are only counted. *)
Fixpoint count_targets (userID sourceRepoID : UUID) (targets : list UUID)
    (authorized : list string) (denied : nat) : DB Observatory (list string * nat) :=
  match targets with
  | [] => mret (authorized, denied)
  | tid :: targets =>
      Authorize userID sourceRepoID tid ActionCrossRepoGraphView ≫= fun decision : Decision =>
      if Allowed decision
      then count_targets userID sourceRepoID targets (authorized ++ [uuid_String tid]) denied
      else count_targets userID sourceRepoID targets authorized (S denied)
  end.

Definition GetDependencies (req : GetDependenciesRequest)
    : DBE Observatory GetDependenciesResponse :=
  targetIDs ←? match dq_TargetRepoIDs req with
               | [] => wrapping "list linked repos" (ListLinkedRepoIDs (dq_SourceRepoID req))
               | ids => ok ids
               end;
  count_targets (dq_UserID req) (dq_SourceRepoID req) targetIDs [] 0 ≫= fun '(authorized, denied) =>
  match authorized with
  | [] => ok {| dr_Dependencies := []; dr_TotalEdges := 0; dr_ReposAuthorized := 0;
                dr_ReposDenied := denied |}
  | _ =>
      found ←? wrapping "engine get cross-repo deps"
        (call (CallDependencies (uuid_String (dq_SourceRepoID req)) authorized (dq_MaxDepth req))
           (fun n => rpc_dependencies n (uuid_String (dq_SourceRepoID req)) authorized
                       (dq_MaxDepth req)));
      let '(dependencies, total) := found : list CrossRepoDependency * Z in
      ok {| dr_Dependencies := dependencies; dr_TotalEdges := total;
            dr_ReposAuthorized := length authorized; dr_ReposDenied := denied |}
  end.

Record BuildGraphRequest := {
  bq_UserID : UUID;
  bq_OrgID : UUID;
  bq_RepoIDs : list UUID;
  bq_ForceRescan : bool
}.

(** The repositories of links, each once, in the order in which they are first seen. *)
Definition push_unseen (ids : list UUID) (id : UUID) : list UUID :=
  if existsb (N.eqb id) ids then ids else ids ++ [id].
Definition linked_repos (links : list RepoLink) : list UUID :=
  fold_left (fun ids l => push_unseen (push_unseen ids (l_SourceRepoID l)) (l_TargetRepoID l))
    links [].

(** The inner loop: whether some other repository of the list may be viewed from [rid]. *)
Fixpoint views_some (userID rid : UUID) (others : list UUID) : DB Observatory bool :=
  match others with
  | [] => mret false
  | other :: others =>
      if (rid =? other)%N then views_some userID rid others
      else
        Authorize userID rid other ActionCrossRepoGraphView ≫= fun decision : Decision =>
        if Allowed decision then mret true else views_some userID rid others
  end.

Fixpoint authorize_nodes (userID : UUID) (repoIDs all : list UUID) (authorized : list string)
    : DB Observatory (list string) :=
  match repoIDs with
  | [] => mret authorized
  | rid :: repoIDs =>
      views_some userID rid all ≫= fun views : bool =>
      authorize_nodes userID repoIDs all
        (if views && negb (one_of (uuid_String rid) authorized)
         then authorized ++ [uuid_String rid] else authorized)
  end.

Definition BuildGraph (req : BuildGraphRequest) : DBE Observatory DepGraphResult :=
  repoIDs ←? match bq_RepoIDs req with
             | [] =>
                 page ←? wrapping "list org links" (ListByOrg (bq_OrgID req) 500 0);
                 ok (linked_repos (map ln_Link (fst page)))
             | ids => ok ids
             end;
  authorize_nodes (bq_UserID req) repoIDs repoIDs [] ≫= fun authorized : list string =>
  match authorized with
  | [] => ok {| dg_Success := false; dg_Message := "no authorized repos for graph building";
                dg_ReposScanned := 0; dg_TotalNodes := 0; dg_TotalEdges := 0; dg_Nodes := [];
                dg_Edges := [] |}
  | _ =>
      wrapping "engine build dep graph"
        (call (CallGraph (uuid_String (bq_OrgID req)) authorized (bq_ForceRescan req))
           (fun n => rpc_graph n (uuid_String (bq_OrgID req)) authorized (bq_ForceRescan req)))
  end.

(** ** [pipeline_enricher.go] *)

Record EnricherConfig := {
  ec_MaxCrossRepoChunks : Z;
  ec_MinRelevanceScore : float64;
  ec_Timeout : Z;
  ec_MaxConcurrentRepos : Z;
  ec_ScoreNormalization : string;
  ec_Enabled : bool
}.

Record CrossRepoContext := {
  ctx_Chunks : list FederatedChunk;
  ctx_ReposSearched : nat;
  ctx_ReposAuthorized : nat;
  ctx_ReposDenied : nat;
  ctx_Empty : bool
}.

Definition empty_context : CrossRepoContext :=
  {| ctx_Chunks := []; ctx_ReposSearched := 0; ctx_ReposAuthorized := 0; ctx_ReposDenied := 0;
     ctx_Empty := true |}.

Definition filterAndCapChunks (chunks : list FederatedChunk) (minScore : float64) (maxChunks : Z)
    : list FederatedChunk :=
  let filtered := List.filter (fun c => fle minScore (fc_NormalizedScore c)) chunks in
  if (0 <? maxChunks) && (maxChunks <? Z.of_nat (length filtered))
  then firstn (Z.to_nat maxChunks) filtered else filtered.

(** [e] is nil where there is no enricher. *)
Definition Enrich (e : option EnricherConfig) (userID repoID : UUID)
    (touchedSymbols : list string) (query : string) : DB Observatory CrossRepoContext :=
  match e with
  | None => mret empty_context
  | Some config =>
      if negb (ec_Enabled config) then mret empty_context
      else
        ListLinkedRepoIDs repoID ≫= fun linked : result (list UUID) string =>
        match linked with
        | Err _ => mret empty_context
        | Ok [] => mret empty_context
        | Ok _ =>
            let searchQuery := if String.eqb query "" then hd "" touchedSymbols else query in
            if String.eqb searchQuery "" then mret empty_context
            else
              Search {| sq_UserID := userID; sq_SourceRepoID := repoID; sq_Query := searchQuery;
                        sq_TouchedSymbols := touchedSymbols;
                        sq_Config := {|
                          sc_TopK := uint32 (wrap64 (ec_MaxCrossRepoChunks config * 2));
                          sc_MaxTotalResults := uint32 (wrap64 (ec_MaxCrossRepoChunks config * 3));
                          sc_MaxConcurrent := ec_MaxConcurrentRepos config;
                          sc_ScoreNormalization := ec_ScoreNormalization config |} |}
              ≫= fun found : result FederatedSearchResponse string =>
              match found with
              | Err _ => mret empty_context
              | Ok found =>
                  let filtered := filterAndCapChunks (sr_Chunks found)
                    (ec_MinRelevanceScore config) (ec_MaxCrossRepoChunks config) in
                  mret {| ctx_Chunks := filtered; ctx_ReposSearched := sr_ReposAuthorized found;
                          ctx_ReposAuthorized := sr_ReposAuthorized found;
                          ctx_ReposDenied := sr_ReposDenied found;
                          ctx_Empty := match filtered with [] => true | _ => false end |}
              end
        end
  end.

(** The score is the [float32] nearest to 0.3. *)
Definition DefaultEnricherConfig : EnricherConfig :=
  {| ec_MaxCrossRepoChunks := 10; ec_MinRelevanceScore := lit 10066330 (2 ^ 25);
     ec_Timeout := 30 * 1000000000; ec_MaxConcurrentRepos := 4;
     ec_ScoreNormalization := "min_max"; ec_Enabled := true |}.

End services.
