(* ===== verification/CrossRepoHandler.v ===== *)
(** * The endpoints of cross-repository links ([crossrepo/handler.go], [graph_handler.go])

    A handler gets the user of the token, the parameters of the path and of the query as texts,
    and the decoded body ([None] where it cannot be decoded), and ends with a response.  The
    entry of the audit log and the event of a link are written by goroutines after the
    statements of the handler; here they follow them at once. *)

From Stdlib Require Import ZArith Lia Ascii String.
From stdpp Require Import base list gmap strings sorting.
From S2P Require Import Prelude GoStrings GoFloat SwarmDb Db CrossRepoStore CrossRepo.
Local Open Scope string_scope.
Local Open Scope rtv_scope.
Local Open Scope Z_scope.

Definition AuditActionLinkCreated := "crossrepo.link_created".
Definition AuditActionLinkUpdated := "crossrepo.link_updated".
Definition AuditActionLinkDeleted := "crossrepo.link_deleted".
Definition AuditActionAccessDenied := "crossrepo.access_denied".

Record createLinkRequest := {
  cr_TargetRepoID : string;
  cr_ShareProfile : string;
  cr_Label : string
}.

Record updateLinkRequest := { ur_ShareProfile : string; ur_Label : string }.

Record buildGraphRequest := { br_RepoIDs : list string; br_ForceRescan : bool }.

Record federatedSearchRequest := {
  fr_Query : string;
  fr_TouchedSymbols : list string;
  fr_TopK : Z;
  fr_MaxTotalResults : Z;
  fr_MaxConcurrent : Z;
  fr_ScoreNormalization : string
}.

(** What a request takes from outside: the clock and the identifiers it generates. *)
Record Env := { e_now : Z; e_linkID : UUID; e_eventID : UUID }.

(** [parseIntParam] and [parseIntQuery] on the text of a query parameter. *)
Definition parseIntParam (s : string) (defaultVal : Z) : Z :=
  if String.eqb s "" then defaultVal
  else match Atoi s with
       | Some v => if v <? 0 then defaultVal else v
       | None => defaultVal
       end.

Definition nonempty (s : string) : list string := if String.eqb s "" then [] else [s].

(** [splitComma]: over runes, an invalid byte becoming U+FFFD; [skip] counts the bytes left of
    the current rune. *)
Fixpoint split_comma (skip : nat) (current s : string) : list string :=
  match s with
  | EmptyString => nonempty current
  | String a s =>
      match skip with
      | S k => split_comma k (current ++ String a "") s
      | O =>
          if Ascii.eqb a "," then (nonempty current ++ split_comma 0 "" s)%list
          else if Ascii.eqb a " " then split_comma 0 current s
          else if is_ascii a then split_comma 0 (current ++ String a "") s
          else
            match rune_width a s with
            | S (S k) => split_comma (S k) (current ++ String a "") s
            | _ => split_comma 0 (current ++ str3 239 191 189) s
            end
      end
  end.
Definition splitComma (s : string) : list string := split_comma 0 "" s.

(** The identifiers that parse; the others are skipped. *)
Definition parsed_ids `{UuidText} (ids : list string) : list UUID := omap uuid_Parse ids.

Section handlers.
Context `{RowOrder} `{UuidText} `{Engine}.

Inductive Body :=
  | BError (message : string)
  | BLink (link : RepoLink)
  | BLinks (links : list RepoLinkWithNames)
  | BPage (links : list RepoLinkWithNames) (total limit offset : Z)
  | BEvents (events : list RepoLinkEvent)
  | BDeleted
  | BManifest (m : RepoManifest)
  | BDependencies (d : GetDependenciesResponse)
  | BGraph (g : DepGraphResult)
  | BSearch (s : FederatedSearchResponse).

Record Response := { code : Z; body : Body }.
Definition error_reply (status : Z) (message : string) : Response :=
  {| code := status; body := BError message |}.

(** A handler returns early with the response of an error. *)
Notation HTTP A := (DB Observatory (result A Response)).

Definition require {A} (o : option A) (status : Z) (message : string) : HTTP A :=
  match o with Some a => ok a | None => fail (error_reply status message) end.

Definition or_reply {A} (m : DBE Observatory A) (reply : string -> Response) : HTTP A :=
  m ≫= fun r : result A string => match r with Ok a => ok a | Err e => fail (reply e) end.

Definition internal (_ : string) : Response := error_reply 500 "internal error".
Definition not_found_or_internal (e : string) : Response :=
  if is_not_found e then error_reply 404 "link not found" else internal e.

Definition respond (m : HTTP Response) : DB Observatory Response :=
  m ≫= fun r : result Response Response => match r with Ok resp | Err resp => mret resp end.

Definition logLinkEvent (env : Env) (link : RepoLink) (action : string) (actorID : UUID)
    (meta : list (string * string)) : DB Observatory unit :=
  LogRequest (Some actorID) action "repo_link" (uuid_String (l_ID link)) meta;;
  ignoring (LogEvent {| ev_ID := e_eventID env; ev_LinkID := Some (l_ID link);
    ev_OrgID := l_OrgID link; ev_SourceRepoID := l_SourceRepoID link;
    ev_TargetRepoID := l_TargetRepoID link; ev_Action := action; ev_ActorID := Some actorID;
    ev_Metadata := meta; ev_CreatedAt := e_now env |}).

(** [AuthorizeLink], whose denial is written to the audit log. *)
Definition manage (userID orgID : UUID) (resourceID action : string) : HTTP unit :=
  AuthorizeLink userID orgID ≫= fun decision : Decision =>
  if Allowed decision then ok tt
  else
    LogRequest (Some userID) AuditActionAccessDenied "repo_link" resourceID
      [("action", action); ("reason", Reason decision)];;
    fail (error_reply 403 (Reason decision)).

(** ** Links of a repository *)

Definition CreateLink (env : Env) (user : option UUID) (repoID : string)
    (request : option createLinkRequest) : DB Observatory Response := respond (
  userID ←? require user 401 "unauthorized";
  sourceRepoID ←? require (uuid_Parse repoID) 400 "invalid repo ID";
  req ←? require request 400 "invalid request body";
  targetRepoID ←? require (uuid_Parse (cr_TargetRepoID req)) 400 "invalid target_repo_id";
  if (sourceRepoID =? targetRepoID)%N
  then fail (error_reply 400 "cannot link a repo to itself")
  else
  let profile := if String.eqb (cr_ShareProfile req) "" then ShareMetadata
                 else cr_ShareProfile req in
  if negb (ValidShareProfiles profile)
  then fail (error_reply 400 "invalid share_profile; allowed: full, symbols, metadata, none")
  else
  sourceRepo ←? or_reply (GetRepo sourceRepoID)
    (fun _ => error_reply 404 "source repository not found");
  manage userID (r_OrgID sourceRepo) (uuid_String sourceRepoID) "create";?
  CheckOrgLinkBudget (r_OrgID sourceRepo) ≫= fun budget : Decision =>
  if negb (Allowed budget) then fail (error_reply 403 (Reason budget))
  else
  targetRepo ←? or_reply (GetRepo targetRepoID)
    (fun _ => error_reply 404 "target repository not found");
  if negb (r_OrgID sourceRepo =? r_OrgID targetRepo)%N
  then fail (error_reply 400 "target repository must be in the same organization")
  else
  link ←? or_reply
    (Create (e_now env) (e_linkID env)
      {| l_ID := 0%N; l_OrgID := r_OrgID sourceRepo; l_SourceRepoID := sourceRepoID;
         l_TargetRepoID := targetRepoID; l_ShareProfile := profile; l_Label := cr_Label req;
         l_CreatedBy := userID; l_CreatedAt := 0; l_UpdatedAt := 0 |})
    (fun e => if String.eqb e ErrConflict
              then error_reply 409 "link already exists between these repositories"
              else internal e);
  logLinkEvent env link AuditActionLinkCreated userID
    [("share_profile", profile); ("label", cr_Label req)];;
  ok {| code := 201; body := BLink link |}).

Definition ListLinks (user : option UUID) (repoID : string) : DB Observatory Response := respond (
  require user 401 "unauthorized";?
  id ←? require (uuid_Parse repoID) 400 "invalid repo ID";
  links ←? or_reply (ListByRepo id) internal;
  ok {| code := 200; body := BLinks links |}).

Definition GetLink (user : option UUID) (linkID : string) : DB Observatory Response := respond (
  require user 401 "unauthorized";?
  id ←? require (uuid_Parse linkID) 400 "invalid link ID";
  link ←? or_reply (GetByID id) not_found_or_internal;
  ok {| code := 200; body := BLink link |}).

Definition UpdateLink (env : Env) (user : option UUID) (linkID : string)
    (request : option updateLinkRequest) : DB Observatory Response := respond (
  userID ←? require user 401 "unauthorized";
  id ←? require (uuid_Parse linkID) 400 "invalid link ID";
  req ←? require request 400 "invalid request body";
  if negb (String.eqb (ur_ShareProfile req) "") && negb (ValidShareProfiles (ur_ShareProfile req))
  then fail (error_reply 400 "invalid share_profile; allowed: full, symbols, metadata, none")
  else
  link ←? or_reply (GetByID id) not_found_or_internal;
  manage userID (l_OrgID link) (uuid_String id) "update";?
  let newProfile := if String.eqb (ur_ShareProfile req) "" then l_ShareProfile link
                    else ur_ShareProfile req in
  let newLabel := if String.eqb (ur_Label req) "" then l_Label link else ur_Label req in
  or_reply (UpdateShareProfile (e_now env) id newProfile newLabel) not_found_or_internal;?
  logLinkEvent env link AuditActionLinkUpdated userID
    [("old_share_profile", l_ShareProfile link); ("new_share_profile", newProfile);
     ("label", newLabel)];;
  ok {| code := 200;
        body := BLink {| l_ID := l_ID link; l_OrgID := l_OrgID link;
          l_SourceRepoID := l_SourceRepoID link; l_TargetRepoID := l_TargetRepoID link;
          l_ShareProfile := newProfile; l_Label := newLabel; l_CreatedBy := l_CreatedBy link;
          l_CreatedAt := l_CreatedAt link; l_UpdatedAt := l_UpdatedAt link |} |}).

Definition DeleteLink (env : Env) (user : option UUID) (linkID : string)
    : DB Observatory Response := respond (
  userID ←? require user 401 "unauthorized";
  id ←? require (uuid_Parse linkID) 400 "invalid link ID";
  link ←? or_reply (GetByID id) not_found_or_internal;
  manage userID (l_OrgID link) (uuid_String id) "delete";?
  or_reply (Delete id) not_found_or_internal;?
  logLinkEvent env link AuditActionLinkDeleted userID [("share_profile", l_ShareProfile link)];;
  ok {| code := 200; body := BDeleted |}).

Definition ListLinkEvents (user : option UUID) (linkID limit : string)
    : DB Observatory Response := respond (
  require user 401 "unauthorized";?
  id ←? require (uuid_Parse linkID) 400 "invalid link ID";
  link ←? or_reply (GetByID id) not_found_or_internal;
  events ←? or_reply (ListEvents (l_OrgID link) (Some id) (parseIntParam limit 50)) internal;
  ok {| code := 200; body := BEvents events |}).

(** ** Links of an organisation *)

Definition ListOrgLinks (user : option UUID) (orgID limit offset : string)
    : DB Observatory Response := respond (
  require user 401 "unauthorized";?
  id ←? require (uuid_Parse orgID) 400 "invalid org ID";
  let limit := parseIntParam limit 50 in
  let offset := parseIntParam offset 0 in
  page ←? or_reply (ListByOrg id limit offset) internal;
  let '(links, total) := page : list RepoLinkWithNames * Z in
  ok {| code := 200; body := BPage links total limit offset |}).

Definition ListOrgEvents (user : option UUID) (orgID limit : string)
    : DB Observatory Response := respond (
  require user 401 "unauthorized";?
  id ←? require (uuid_Parse orgID) 400 "invalid org ID";
  events ←? or_reply (ListEvents id None (parseIntParam limit 50)) internal;
  ok {| code := 200; body := BEvents events |}).

(** ** Graph and search *)

Definition failed_with (e : string) : Response := error_reply 500 e.

Definition HandleGetManifest (user : option UUID) (repoID : string)
    : DB Observatory Response := respond (
  userID ←? require user 401 "unauthorized";
  id ←? require (uuid_Parse repoID) 400 "invalid repo ID";
  m ←? or_reply (GetManifest userID id) failed_with;
  ok {| code := 200; body := BManifest m |}).

Definition HandleGetDependencies (user : option UUID) (repoID targets maxDepth : string)
    : DB Observatory Response := respond (
  userID ←? require user 401 "unauthorized";
  id ←? require (uuid_Parse repoID) 400 "invalid repo ID";
  found ←? or_reply (GetDependencies {| dq_UserID := userID; dq_SourceRepoID := id;
      dq_TargetRepoIDs := parsed_ids (splitComma targets);
      dq_MaxDepth := uint32 (parseIntParam maxDepth 0) |}) failed_with;
  ok {| code := 200; body := BDependencies found |}).

Definition HandleBuildGraph (user : option UUID) (orgID : string)
    (request : option buildGraphRequest) : DB Observatory Response := respond (
  userID ←? require user 401 "unauthorized";
  id ←? require (uuid_Parse orgID) 400 "invalid org ID";
  req ←? require request 400 "invalid request body";
  g ←? or_reply (BuildGraph {| bq_UserID := userID; bq_OrgID := id;
      bq_RepoIDs := parsed_ids (br_RepoIDs req); bq_ForceRescan := br_ForceRescan req |})
    failed_with;
  ok {| code := 200; body := BGraph g |}).

Definition FederatedSearch (user : option UUID) (repoID : string)
    (request : option federatedSearchRequest) : DB Observatory Response := respond (
  userID ←? require user 401 "unauthorized";
  id ←? require (uuid_Parse repoID) 400 "invalid repo ID";
  req ←? require request 400 "invalid request body";
  if String.eqb (fr_Query req) "" then fail (error_reply 400 "query is required")
  else
  found ←? or_reply (Search {| sq_UserID := userID; sq_SourceRepoID := id;
      sq_Query := fr_Query req; sq_TouchedSymbols := fr_TouchedSymbols req;
      sq_Config := {| sc_TopK := fr_TopK req; sc_MaxTotalResults := fr_MaxTotalResults req;
                      sc_MaxConcurrent := fr_MaxConcurrent req;
                      sc_ScoreNormalization := fr_ScoreNormalization req |} |}) failed_with;
  LogRequest (Some userID) "crossrepo.federated_search" "repository" (uuid_String id)
    [("query", fr_Query req); ("repos_authorized", itoa (Z.of_nat (sr_ReposAuthorized found)));
     ("repos_denied", itoa (Z.of_nat (sr_ReposDenied found)));
     ("results_count", itoa (Z.of_nat (length (sr_Chunks found))))];;
  ok {| code := 200; body := BSearch found |}).

(** ** Requests *)

Inductive Request :=
  | ReqCreateLink (repoID : string) (r : option createLinkRequest)
  | ReqListLinks (repoID : string)
  | ReqGetLink (linkID : string)
  | ReqUpdateLink (linkID : string) (r : option updateLinkRequest)
  | ReqDeleteLink (linkID : string)
  | ReqListLinkEvents (linkID limit : string)
  | ReqListOrgLinks (orgID limit offset : string)
  | ReqListOrgEvents (orgID limit : string)
  | ReqManifest (repoID : string)
  | ReqDependencies (repoID targets maxDepth : string)
  | ReqGraph (orgID : string) (r : option buildGraphRequest)
  | ReqSearch (repoID : string) (r : option federatedSearchRequest).

(** [RegisterRoutes], [RegisterOrgRoutes] and [RegisterRepoRoutes] *)
Definition serve (env : Env) (user : option UUID) (r : Request) : DB Observatory Response :=
  match r with
  | ReqCreateLink repoID r => CreateLink env user repoID r
  | ReqListLinks repoID => ListLinks user repoID
  | ReqGetLink linkID => GetLink user linkID
  | ReqUpdateLink linkID r => UpdateLink env user linkID r
  | ReqDeleteLink linkID => DeleteLink env user linkID
  | ReqListLinkEvents linkID limit => ListLinkEvents user linkID limit
  | ReqListOrgLinks orgID limit offset => ListOrgLinks user orgID limit offset
  | ReqListOrgEvents orgID limit => ListOrgEvents user orgID limit
  | ReqManifest repoID => HandleGetManifest user repoID
  | ReqDependencies repoID targets maxDepth => HandleGetDependencies user repoID targets maxDepth
  | ReqGraph orgID r => HandleBuildGraph user orgID r
  | ReqSearch repoID r => FederatedSearch user repoID r
  end.

End handlers.
