(* ===== verification/CrossRepoSafety.v ===== *)
(** * What cross-repository access guarantees

    The authoriser allows exactly what the documented layers permit, the engine only sees
    repositories the user may use, links change only by their organisation's managers and
    stay well formed.  At the end a concrete observatory, the witnesses and the examples. *)

From Stdlib Require Import ZArith Lia String.
From stdpp Require Import base list gmap strings sorting.
From S2P Require Import Prelude GoStrings SwarmDb Db GoFloat CrossRepoStore CrossRepo CrossRepoHandler.
Local Open Scope string_scope.
Local Open Scope rtv_scope.
Local Open Scope Z_scope.

(** ** The rule *)

(** The user may use the action on [t] while working in [s]: both repositories are in one
    organisation, which has not switched the feature off, a link from [s] to [t] shares
    enough, and the user is a member whose role is enough, with access to [t] of their own
    where content is read. *)
Definition permitted (x : Observatory) (u s t : UUID) (action : string) : Prop :=
  exists source target org link member,
    x_repos x !! s = Some source /\ x_repos x !! t = Some target /\
    r_OrgID source = r_OrgID target /\
    x_orgs x !! r_OrgID source = Some org /\ IsOrgCrossRepoEnabled org = true /\
    (exists id, x_links x !! id = Some link) /\
    l_OrgID link = r_OrgID source /\ l_SourceRepoID link = s /\ l_TargetRepoID link = t /\
    AllowsAction link action = true /\
    x_members x !! (r_OrgID source, u) = Some member /\
    (m_Role member = "viewer" ->
       action = ActionCrossRepoMetadata \/ action = ActionCrossRepoGraphView) /\
    (action = ActionCrossRepoSearch \/ action = ActionCrossRepoFileRead ->
       m_Role member = "owner" \/ m_Role member = "admin" \/
       is_Some (x_repo_members x !! (t, u))).

(** The user manages the links of an organisation. *)
Definition manages (x : Observatory) (u orgID : UUID) : Prop :=
  exists org member, x_orgs x !! orgID = Some org /\ IsOrgCrossRepoEnabled org = true /\
    x_members x !! (orgID, u) = Some member /\
    (m_Role member = "owner" \/ m_Role member = "admin").

(** At most one link between two repositories. *)
Definition links_unique (x : Observatory) : Prop :=
  forall id id' l l', x_links x !! id = Some l -> x_links x !! id' = Some l' ->
    same_ends l l' = true -> id = id'.

Lemma one_of_spec s l : one_of s l = true <-> s ∈ l.
Proof.
  unfold one_of. rewrite existsb_exists. setoid_rewrite String.eqb_eq.
  rewrite list_elem_of_In. naive_solver.
Qed.

Lemma org_manager_spec role : org_manager role = true <-> role = "owner" \/ role = "admin".
Proof. unfold org_manager. rewrite one_of_spec. set_solver. Qed.

Lemma requires_target_spec action :
  RequiresTargetRepoAccess action = true <->
  action = ActionCrossRepoSearch \/ action = ActionCrossRepoFileRead.
Proof. unfold RequiresTargetRepoAccess. rewrite one_of_spec. set_solver. Qed.

Lemma allows_active l action : AllowsAction l action = true -> IsActive l = true.
Proof.
  unfold AllowsAction, IsActive. intros Ha. destruct (String.eqb_spec (l_ShareProfile l) ShareNone)
    as [E|]; [|done]. by rewrite E in Ha.
Qed.

Section safety.
Context `{RowOrder} `{UuidText} `{Engine}.

(** ** Rules for reading *)

Lemma ensures_eq_row {A} what f (x : Observatory) (Q : result A string -> Observatory -> Prop) :
  (forall a, f x = Some a -> Q (Ok a) x) -> (forall e, Q (Err e) x) ->
  ensures (eq x) (get_row what f) Q.
Proof.
  intros Hok Herr. eapply (ensures_try _ (fun o x' => x' = x /\ o = f x)).
  - apply ensures_wrapping, ensures_query; intros ? <-; cbn; auto.
  - intros o. apply ensures_pure. intros ->. destruct (f x) eqn:E; apply ensures_ret; intros ? ->; auto.
Qed.

Lemma ensures_or_deny {A} (x : Observatory) (m : DBE Observatory A) reason k
    (Q : Decision -> Observatory -> Prop) (R : A -> Prop) :
  ensures (eq x) m (fun r x' => x' = x /\ match r with Ok a => R a | Err _ => True end) ->
  (forall a, R a -> ensures (eq x) (k a) Q) -> (forall d, Q (Deny d) x) ->
  ensures (eq x) (or_deny m reason k) Q.
Proof.
  intros Hm Hk Hd. eapply ensures_bind; [exact Hm|]. intros [a|e].
  - apply ensures_pure. intros Ha. eapply ensures_conseq; [apply (Hk a Ha)|by intros ? ->|auto].
  - apply ensures_ret. by intros ? [-> _].
Qed.

Lemma or_deny_row {A} what f (x : Observatory) reason k Q :
  (forall a : A, f x = Some a -> ensures (eq x) (k a) Q) -> (forall d, Q (Deny d) x) ->
  ensures (eq x) (or_deny (get_row what f) reason k) Q.
Proof.
  intros Hk Hd. apply (ensures_or_deny _ _ _ _ _ (fun a => f x = Some a)); [|done..].
  apply ensures_eq_row; auto.
Qed.

Lemma get_row_found {A} what f (x : Observatory) (a : A) :
  f x = Some a -> get_row what f (quiet x) = (Ok a, quiet x).
Proof.
  intros E. unfold get_row.
  rewrite (try_run _ _ _ _ _ (wrapping_run _ _ _ (Ok _) _ (query_quiet f x))). by rewrite E.
Qed.

Lemma or_deny_quiet {A} what f (x : Observatory) reason k (a : A) :
  f x = Some a -> or_deny (get_row what f) reason k (quiet x) = k a (quiet x).
Proof. intros E. unfold or_deny. by rewrite (bind_run _ _ _ _ _ (get_row_found what f x a E)). Qed.

Lemma ensures_deny (x : Observatory) d (Q : Decision -> Observatory -> Prop) :
  Q d x -> ensures (eq x) (mret d) Q.
Proof. intros HQ. apply ensures_ret. by intros ? <-. Qed.

Lemma between_lookup x org s t l :
  snd <$> head (select (between org s t) (x_links x)) = Some l ->
  exists id, x_links x !! id = Some l /\ l_OrgID l = org /\ l_SourceRepoID l = s /\
    l_TargetRepoID l = t.
Proof.
  intros E. destruct (select (between org s t) (x_links x)) as [|[id l'] rows] eqn:Es; [done|].
  injection E as ->. exists id.
  assert ((id, l) ∈ select (between org s t) (x_links x)) as Hin by (rewrite Es; by left).
  apply select_elem_of in Hin as [Hl [[Ho Hs]%andb_prop Ht]%andb_prop].
  by rewrite N.eqb_eq in Ho, Hs, Ht.
Qed.

Lemma between_found x id l :
  links_unique x -> x_links x !! id = Some l ->
  snd <$> head (select (between (l_OrgID l) (l_SourceRepoID l) (l_TargetRepoID l)) (x_links x)) =
  Some l.
Proof.
  intros Hu Hl.
  set (p := between (l_OrgID l) (l_SourceRepoID l) (l_TargetRepoID l)).
  assert ((id, l) ∈ select p (x_links x)) as Hin.
  { apply select_elem_of. split; [done|]. unfold p, between. by rewrite !N.eqb_refl. }
  destruct (select p (x_links x)) as [|[id' l'] rows] eqn:Es; [by apply elem_of_nil in Hin|].
  cbn. assert ((id', l') ∈ select p (x_links x)) as Hin' by (rewrite Es; by left).
  apply select_elem_of in Hin' as [Hl' Hp]. rewrite <- (Hu id' id l' l Hl' Hl Hp) in Hl.
  congruence.
Qed.

(** ** The authoriser *)

Lemma user_repos_elem x u t :
  existsb (N.eqb t) (row_order (omap (fun kv : UUID * UUID * RepoMember =>
    if (kv.1.2 =? u)%N then Some kv.1.1 else None) (map_to_list (x_repo_members x)))) = true <->
  is_Some (x_repo_members x !! (t, u)).
Proof.
  rewrite existsb_exists. setoid_rewrite <- list_elem_of_In. setoid_rewrite row_order_elem.
  setoid_rewrite list_elem_of_omap. split.
  - intros (id & ([[rid uid] m] & Hm & E) & Hid%N.eqb_eq). cbn in E. subst id.
    destruct (uid =? u)%N eqn:Eu; [|done]. apply N.eqb_eq in Eu as ->. injection E as ->.
    apply elem_of_map_to_list in Hm. eauto.
  - intros [m Hm]. exists t. split; [|apply N.eqb_refl]. exists (t, u, m). cbn.
    rewrite N.eqb_refl. split; [by apply elem_of_map_to_list|done].
Qed.

Lemma target_access_sound x t u role :
  ensures (eq x) (userHasTargetAccess t u role)
    (fun has x' => x' = x /\ (has = true ->
       role = "owner" \/ role = "admin" \/ is_Some (x_repo_members x !! (t, u)))).
Proof.
  unfold userHasTargetAccess. destruct (org_manager role) eqn:Em.
  - apply ensures_ret. intros ? <-. split; [done|]. apply org_manager_spec in Em. tauto.
  - eapply (ensures_bind _ (fun r x' => x' = x /\ match r with
      | Ok repos => existsb (N.eqb t) repos = true -> is_Some (x_repo_members x !! (t, u))
      | Err _ => True end)).
    + apply ensures_wrapping, ensures_query; intros ? <-; cbn; [|done].
      split; [done|]. apply user_repos_elem.
    + intros [repos|e]; apply ensures_pure; intros Hr; apply ensures_ret; intros ? ->; naive_solver.
Qed.

Lemma target_access_complete x t u role :
  role = "owner" \/ role = "admin" \/ is_Some (x_repo_members x !! (t, u)) ->
  userHasTargetAccess t u role (quiet x) = (true, quiet x).
Proof.
  intros Hacc. unfold userHasTargetAccess. destruct (org_manager role) eqn:Em; [done|].
  assert (is_Some (x_repo_members x !! (t, u))) as Hr.
  { destruct Hacc as [-> |[-> |?]]; done. }
  apply user_repos_elem in Hr. unfold ListReposByUser.
  rewrite (bind_run _ _ _ _ _ (wrapping_run _ _ _ _ _ (query_quiet _ x))).
  cbn [wrap_err]. by rewrite Hr.
Qed.

Lemma Authorize_sound x u s t action :
  ensures (eq x) (Authorize u s t action)
    (fun d x' => x' = x /\ (Allowed d = true -> permitted x u s t action)).
Proof.
  assert (forall d, x = x /\ (Allowed (Deny d) = true -> permitted x u s t action)) as Hdeny by done.
  unfold Authorize. apply or_deny_row; [|done]. intros source Hs.
  apply or_deny_row; [|done]. intros target Ht.
  destruct (N.eqb_spec (r_OrgID source) (r_OrgID target)) as [Eo|]; cbn [negb];
    [|by apply ensures_deny].
  apply or_deny_row; [|done]. intros org Ho.
  destruct (IsOrgCrossRepoEnabled org) eqn:Een; cbn [negb]; [|by apply ensures_deny].
  apply or_deny_row; [|done]. intros link Hl.
  apply between_lookup in Hl as (id & Hl & El1 & El2 & El3).
  destruct (IsActive link) eqn:Ea; cbn [negb]; [|by apply ensures_deny].
  destruct (AllowsAction link action) eqn:Eall; cbn [negb]; [|by apply ensures_deny].
  apply or_deny_row; [|done]. intros member Hm.
  destruct (_ && _) eqn:Ev; [by apply ensures_deny|].
  assert (m_Role member = "viewer" ->
    action = ActionCrossRepoMetadata \/ action = ActionCrossRepoGraphView) as Hv.
  { intros E. rewrite E in Ev. cbn in Ev.
    destruct (String.eqb_spec action ActionCrossRepoMetadata); [by left|].
    destruct (String.eqb_spec action ActionCrossRepoGraphView); [by right|done]. }
  assert (forall (Hacc : action = ActionCrossRepoSearch \/ action = ActionCrossRepoFileRead ->
    m_Role member = "owner" \/ m_Role member = "admin" \/ is_Some (x_repo_members x !! (t, u))),
    permitted x u s t action) as Hp.
  { intros Hacc. exists source, target, org, link, member. split_and!; eauto. }
  destruct (RequiresTargetRepoAccess action) eqn:Er.
  - eapply ensures_bind; [apply target_access_sound|]. intros has. apply ensures_pure. intros Hh.
    destruct has; apply ensures_ret; intros ? ->; split; [done|auto|done|done].
  - apply ensures_ret. intros ? <-. split; [done|]. intros _. apply Hp.
    intros Ha%requires_target_spec. congruence.
Qed.

Lemma Authorize_complete x u s t action :
  links_unique x -> permitted x u s t action ->
  Authorize u s t action (quiet x) = (Allow, quiet x).
Proof.
  intros Hu (source & target & org & link & member & Hs & Ht & Eo & Ho & Een & [id Hl] & El1 & El2
    & El3 & Eall & Hm & Hv & Hacc).
  unfold Authorize, GetRepo, GetOrg, GetByRepos, GetMember.
  rewrite (or_deny_quiet _ _ _ _ _ _ Hs), (or_deny_quiet _ _ _ _ _ _ Ht), Eo, N.eqb_refl.
  cbn [negb]. rewrite <- Eo, (or_deny_quiet _ _ _ _ _ _ Ho), Een. cbn [negb].
  pose proof (between_found x id link Hu Hl) as Hf. rewrite El1, El2, El3 in Hf.
  rewrite (or_deny_quiet _ _ _ _ _ _ Hf), (allows_active _ _ Eall), Eall. cbn [negb].
  rewrite (or_deny_quiet _ _ _ _ _ _ Hm).
  destruct (_ && _) eqn:Ev.
  { apply andb_prop in Ev as [[E1%String.eqb_eq E2]%andb_prop E3].
    apply negb_true_iff, String.eqb_neq in E2, E3. by destruct (Hv E1). }
  destruct (RequiresTargetRepoAccess action) eqn:Er; [|done].
  apply requires_target_spec in Er. specialize (Hacc Er).
  by rewrite (bind_run _ _ _ _ _ (target_access_complete x t u _ Hacc)).
Qed.

(** C19: The authoriser allows exactly what its checks permit, as [permitted] puts them together:
    whatever fails, it changes nothing and an action it allows is permitted; and if no statement
    fails and no two links join the same repositories, it allows every permitted action.  This is
    what the code permits, and more than its documentation does: the head of [authorizer.go] asks
    for the role of a member at least, and the migration of the links for a role in the target
    before any access, while a viewer without a role in the target may read its metadata and view
    its graph, and a member without one its symbols too (Example [viewer_reads_metadata]). *)
Theorem Authorize_spec (r : Run Observatory) u s t action :
  let '(d, r') := Authorize u s t action r in
  tables r' = tables r /\
  (Allowed d = true -> permitted (tables r) u s t action) /\
  (fails r = [] -> links_unique (tables r) -> permitted (tables r) u s t action ->
     Allowed d = true).
Proof.
  pose proof (Authorize_sound (tables r) u s t action r eq_refl) as Hs.
  destruct (Authorize u s t action r) as [d r'] eqn:E. destruct Hs as [Ht Hp].
  split; [done|]. split; [done|]. intros Hf Hu Hperm.
  pose proof (Authorize_complete (tables r) u s t action Hu Hperm) as Hc.
  destruct r as [x fs]. cbn in Hf. subst fs. unfold quiet in Hc. cbn in Hc.
  rewrite E in Hc. by injection Hc as -> ->.
Qed.

(** ** What the engine is asked *)

(** The tables that decide what is permitted. *)
Definition same_tables (x x' : Observatory) : Prop :=
  x_orgs x' = x_orgs x /\ x_repos x' = x_repos x /\ x_members x' = x_members x /\
  x_repo_members x' = x_repo_members x /\ x_links x' = x_links x.

Lemma permitted_same x x' u s t action :
  same_tables x x' -> permitted x' u s t action -> permitted x u s t action.
Proof.
  unfold permitted. intros (E1 & E2 & E3 & E4 & E5). by rewrite E1, E2, E3, E4, E5.
Qed.

Definition may_use (x : Observatory) (u s : UUID) (action : string) (repo : string) : Prop :=
  exists t, repo = uuid_String t /\ permitted x u s t action.

(** The repository in the path of a request that asks the engine about one. *)
Definition path_repo (req : Request) : option UUID :=
  match req with
  | ReqManifest id | ReqDependencies id _ _ | ReqSearch id _ => uuid_Parse id
  | _ => None
  end.

(** A call of the engine made for the user and the repository [own]: a search runs over this
    repository and such as may be searched from it, dependencies go from it to repositories whose
    graph may be viewed, and a graph is built of repositories that may view another one's.  The
    manifest is that of [own], whoever asks: nothing is said of the user. *)
Definition call_ok (own : option UUID) (x : Observatory) (u : UUID) (c : EngineCall) : Prop :=
  match c with
  | CallManifest repo => exists s, own = Some s /\ repo = uuid_String s
  | CallSearch _ repos _ => exists s targets, own = Some s /\ repos = uuid_String s :: targets /\
      targets <> [] /\ Forall (may_use x u s ActionCrossRepoSearch) targets
  | CallDependencies src targets _ => exists s, own = Some s /\ src = uuid_String s /\
      targets <> [] /\ Forall (may_use x u s ActionCrossRepoGraphView) targets
  | CallGraph _ repos _ =>
      Forall (fun repo => exists r, repo = uuid_String r /\
        exists t, permitted x u r t ActionCrossRepoGraphView) repos
  end.

(** The state of a request that began in [x]. *)
Definition served (own : option UUID) (x : Observatory) (u : UUID) (x' : Observatory) : Prop :=
  same_tables x x' /\
  exists calls, x_calls x' = (x_calls x ++ calls)%list /\ Forall (call_ok own x u) calls.

Lemma served_refl own x u : served own x u x.
Proof. split; [by unfold same_tables|]. exists []. by rewrite app_nil_r. Qed.

Lemma Authorize_served own x u s t action :
  ensures (served own x u) (Authorize u s t action)
    (fun d x' => served own x u x' /\ (Allowed d = true -> permitted x u s t action)).
Proof.
  intros r Hr. pose proof (Authorize_sound (tables r) u s t action r eq_refl) as [E Hp].
  rewrite E. split; [done|]. intros Ha. eapply permitted_same; [apply Hr|auto].
Qed.

Lemma targets_served own x u s action targets auth denied :
  Forall (may_use x u s action) auth ->
  ensures (served own x u) (authorize_targets u s action targets auth denied)
    (fun res x' => served own x u x' /\ Forall (may_use x u s action) res.1).
Proof.
  revert auth denied. induction targets as [|t targets IH]; intros auth denied Ha;
    cbn [authorize_targets]; [by apply ensures_ret|].
  eapply ensures_bind_pure; [apply Authorize_served|]. intros d Hd. cbn beta in Hd.
  destruct (Allowed d); apply IH; [|done]. apply Forall_app. split; [done|].
  constructor; [|done]. exists t. auto.
Qed.

Lemma counted_served own x u s targets auth denied :
  Forall (may_use x u s ActionCrossRepoGraphView) auth ->
  ensures (served own x u) (count_targets u s targets auth denied)
    (fun res x' => served own x u x' /\ Forall (may_use x u s ActionCrossRepoGraphView) res.1).
Proof.
  revert auth denied. induction targets as [|t targets IH]; intros auth denied Ha;
    cbn [count_targets]; [by apply ensures_ret|].
  eapply ensures_bind_pure; [apply Authorize_served|]. intros d Hd. cbn beta in Hd.
  destruct (Allowed d); apply IH; [|done]. apply Forall_app. split; [done|].
  constructor; [|done]. exists t. auto.
Qed.

Lemma call_served {A} own x u c (answer : nat -> result A string) :
  call_ok own x u c -> stays (served own x u) (call c answer).
Proof.
  intros Hc. unfold call. stay. intros x' [Hs (calls & E & Hcalls)]. split; [done|].
  exists (calls ++ [c])%list. cbn. rewrite E, app_assoc. split; [done|].
  apply Forall_app. by split; [|constructor].
Qed.

Lemma names_served own x u ids names : stays (served own x u) (resolveRepoNames ids names).
Proof.
  revert names. induction ids as [|id ids IH]; intros names; cbn [resolveRepoNames]; [stay|].
  unfold GetRepo, get_row. stay; apply IH.
Qed.

Lemma Search_served own x req :
  own = Some (sq_SourceRepoID req) -> stays (served own x (sq_UserID req)) (Search req).
Proof.
  intros Hown. unfold Search. apply stays_try; [unfold ListLinkedRepoIDs; stay|]. intros linked.
  destruct linked as [|id linked]; [stay|].
  eapply ensures_bind_pure; [by apply targets_served|]. intros [auth denied] Ha. cbn in Ha.
  destruct auth as [|a auth]; [by apply stays_ret|].
  apply stays_try.
  - apply stays_wrapping, call_served. exists (sq_SourceRepoID req), (a :: auth). done.
  - intros [chunks metrics]. apply stays_bind; [apply names_served|]. intros. apply stays_ret.
Qed.

Lemma GetDependencies_served own x req :
  own = Some (dq_SourceRepoID req) -> stays (served own x (dq_UserID req)) (GetDependencies req).
Proof.
  intros Hown. unfold GetDependencies. apply stays_try; [unfold ListLinkedRepoIDs; stay|]. intros ids.
  eapply ensures_bind_pure; [by apply counted_served|]. intros [auth denied] Ha. cbn in Ha.
  destruct auth as [|a auth]; [by apply stays_ret|].
  apply stays_try; [|by intros []; apply stays_ret].
  apply stays_wrapping, call_served. by exists (dq_SourceRepoID req).
Qed.

Lemma views_served own x u rid others :
  ensures (served own x u) (views_some u rid others)
    (fun views x' => served own x u x' /\
       (views = true -> exists t, permitted x u rid t ActionCrossRepoGraphView)).
Proof.
  induction others as [|t others IH]; cbn [views_some]; [by apply ensures_ret|].
  destruct (rid =? t)%N; [done|].
  eapply ensures_bind_pure; [apply Authorize_served|]. intros d Hd. cbn beta in Hd.
  destruct (Allowed d); [|done]. apply ensures_ret. eauto.
Qed.

Lemma nodes_served own x u ids all auth :
  let ok repo := exists r, repo = uuid_String r /\
    exists t, permitted x u r t ActionCrossRepoGraphView in
  Forall ok auth ->
  ensures (served own x u) (authorize_nodes u ids all auth)
    (fun res x' => served own x u x' /\ Forall ok res).
Proof.
  intros okr. revert auth. induction ids as [|r ids IH]; intros auth Ha;
    cbn [authorize_nodes]; [by apply ensures_ret|].
  eapply ensures_bind_pure; [apply views_served|]. intros views Hv. cbn beta in Hv.
  apply IH. destruct views; cbn [andb]; [|done]. destruct (negb _); [|done].
  apply Forall_app. split; [done|]. constructor; [|done]. exists r. auto.
Qed.

Lemma BuildGraph_served own x req : stays (served own x (bq_UserID req)) (BuildGraph req).
Proof.
  unfold BuildGraph. apply stays_try; [unfold ListByOrg; stay; done|]. intros ids.
  eapply ensures_bind_pure; [by apply nodes_served|]. intros auth Ha. cbn beta in Ha.
  destruct auth as [|a auth]; [by apply stays_ret|].
  by apply stays_wrapping, call_served.
Qed.

Lemma Enrich_served x e u repo symbols query :
  stays (served (Some repo) x u) (Enrich e u repo symbols query).
Proof.
  unfold Enrich, ListLinkedRepoIDs. stay. by apply (Search_served (Some repo) x {| sq_UserID := u |}).
Qed.

(** ** Requests *)

Lemma require_stays {A} I (o : option A) status message :
  stays I (require o status message : DB Observatory (result A Response)).
Proof. unfold require. stay. Qed.

Lemma or_reply_stays {A} I (m : DBE Observatory A) (reply : string -> Response) :
  stays I m -> stays I (or_reply m reply).
Proof. intros Hm. unfold or_reply. stay. Qed.

Lemma respond_stays I (m : DB Observatory (result Response Response)) :
  stays I m -> stays I (respond m).
Proof. intros Hm. unfold respond. stay. Qed.

(** Take a handler apart; the statements that write are left. *)
Ltac handle :=
  repeat first
    [ apply require_stays
    | progress stay
    | match goal with
      | |- stays _ (respond _) => apply respond_stays
      | |- stays _ (or_reply _ _) => apply or_reply_stays
      | |- stays _ (or_deny _ _ _) => unfold or_deny
      end ].

Lemma stays_LogRequest (I : Observatory -> Prop) user action rtype rid meta :
  (forall a x, I x -> I (add_audit a x)) -> stays I (LogRequest user action rtype rid meta).
Proof. intros HI. unfold LogRequest. stay. Qed.

Lemma audit_served own x u a x' : served own x u x' -> served own x u (add_audit a x').
Proof. done. Qed.

(** Requests that only read or ask the engine. *)
Definition mutates (req : Request) : bool :=
  match req with ReqCreateLink _ _ | ReqUpdateLink _ _ | ReqDeleteLink _ => true | _ => false end.

Lemma serve_reading x env u req :
  mutates req = false -> stays (served (path_repo req) x u) (serve env (Some u) req).
Proof.
  destruct req; cbn [mutates serve path_repo]; try discriminate; intros _;
    unfold ListLinks, GetLink, ListLinkEvents, ListOrgLinks, ListOrgEvents, HandleGetManifest,
      HandleGetDependencies, HandleBuildGraph, FederatedSearch; apply respond_stays;
    cbn [require]; rewrite try_ok.
  - unfold ListByRepo. handle.
  - unfold GetByID, get_row. handle.
  - unfold GetByID, get_row, ListEvents. handle.
  - unfold ListByOrg. handle.
  - unfold ListEvents. handle.
  - unfold GetManifest. destruct (uuid_Parse repoID) as [id|]; [cbn [require]; rewrite try_ok|apply stays_ret].
    handle. apply call_served. by exists id.
  - destruct (uuid_Parse repoID) as [id|]; [cbn [require]; rewrite try_ok|apply stays_ret].
    handle. by apply (GetDependencies_served (Some id) x {| dq_UserID := u; dq_SourceRepoID := id |}).
  - handle. apply (BuildGraph_served None x {| bq_UserID := u |}).
  - destruct (uuid_Parse repoID) as [id|]; [cbn [require]; rewrite try_ok|apply stays_ret]. handle.
    + by apply (Search_served (Some id) x {| sq_UserID := u; sq_SourceRepoID := id |}).
    + apply stays_LogRequest. intros ? ?. apply audit_served.
Qed.

(** ** Changes of links *)

Definition within_budget (x : Observatory) (orgID : UUID) : Prop :=
  exists org, x_orgs x !! orgID = Some org /\
    (0 < GetOrgMaxLinks org -> count_where (active_in orgID) (x_links x) < GetOrgMaxLinks org).

(** The links after a change by the user: a new link that the constraints accept between
    repositories of its organisation, within its budget; a new profile; or a deletion. *)
Inductive link_change (x : Observatory) (u : UUID) : gmap UUID RepoLink -> Prop :=
  | link_created l source target :
      manages x u (l_OrgID l) -> within_budget x (l_OrgID l) ->
      x_repos x !! l_SourceRepoID l = Some source -> x_repos x !! l_TargetRepoID l = Some target ->
      r_OrgID source = l_OrgID l -> r_OrgID target = l_OrgID l ->
      link_duplicate l x = false -> link_accepted l x = true ->
      link_change x u (<[l_ID l := l]> (x_links x))
  | link_updated id l now profile label :
      x_links x !! id = Some l -> manages x u (l_OrgID l) -> ValidShareProfiles profile = true ->
      link_change x u (alter (set_profile now profile label) id (x_links x))
  | link_deleted id l :
      x_links x !! id = Some l -> manages x u (l_OrgID l) ->
      link_change x u (delete id (x_links x)).

(** All but the links, the events and the audit log. *)
Definition same_frame (x x' : Observatory) : Prop :=
  x_orgs x' = x_orgs x /\ x_repos x' = x_repos x /\ x_members x' = x_members x /\
  x_repo_members x' = x_repo_members x /\ x_calls x' = x_calls x.

Definition unchanged (x x' : Observatory) : Prop := same_frame x x' /\ x_links x' = x_links x.
Definition changed (x : Observatory) (u : UUID) (x' : Observatory) : Prop :=
  same_frame x x' /\ (x_links x' = x_links x \/ link_change x u (x_links x')).

Lemma unchanged_changed x u x' : unchanged x x' -> changed x u x'.
Proof. intros [Hf Hl]. split; [done|by left]. Qed.

Lemma row_unchanged {A} x what (f : Observatory -> option A) :
  (forall x', unchanged x x' -> f x' = f x) ->
  ensures (unchanged x) (get_row what f)
    (fun r x' => unchanged x x' /\ match r with Ok a => f x = Some a | Err _ => True end).
Proof.
  intros Hf. apply (ensures_reading _ _ (fun y r => match r with Ok a => f y = Some a | Err _ => True end)).
  - intros y. apply ensures_eq_row; auto.
  - intros y [a|e] Hy; [|done]. by rewrite (Hf y Hy).
Qed.

Lemma or_reply_ensures {A} (P : Observatory -> Prop) (Q : result A Response -> Observatory -> Prop)
    (m : DBE Observatory A) reply :
  ensures P m (fun r x => match r with Ok a => Q (Ok a) x | Err e => Q (Err (reply e)) x end) ->
  ensures P (or_reply m reply) Q.
Proof. intros Hm. eapply ensures_bind; [exact Hm|]. intros [a|e]; by apply ensures_ret. Qed.

Lemma AuthorizeLink_unchanged x u orgID :
  ensures (unchanged x) (AuthorizeLink u orgID)
    (fun d x' => unchanged x x' /\ (Allowed d = true -> manages x u orgID)).
Proof.
  apply (ensures_reading _ _ (fun y d => Allowed d = true -> manages y u orgID)).
  - intros y. unfold AuthorizeLink. apply or_deny_row; [|done]. intros org Ho.
    destruct (IsOrgCrossRepoEnabled org) eqn:Een; cbn [negb]; [|by apply ensures_deny].
    apply or_deny_row; [|done]. intros member Hm.
    destruct (org_manager (m_Role member)) eqn:Er; [|by apply ensures_deny].
    apply ensures_deny. split; [done|]. intros _. exists org, member.
    by rewrite <- org_manager_spec.
  - intros y d [(E1 & E2 & E3 & _) _]. unfold manages. by rewrite E1, E3.
Qed.

Lemma CheckOrgLinkBudget_unchanged x orgID :
  ensures (unchanged x) (CheckOrgLinkBudget orgID)
    (fun d x' => unchanged x x' /\ (Allowed d = true -> within_budget x orgID)).
Proof.
  apply (ensures_reading _ _ (fun y d => Allowed d = true -> within_budget y orgID)).
  - intros y. unfold CheckOrgLinkBudget. apply or_deny_row; [|done]. intros org Ho.
    destruct (Z.leb_spec (GetOrgMaxLinks org) 0).
    { apply ensures_deny. split; [done|]. intros _. exists org. split; [done|lia]. }
    eapply (ensures_or_deny _ _ _ _ _ (fun n => n = count_where (active_in orgID) (x_links y)));
      [|intros count ->|done].
    + apply ensures_wrapping, ensures_query; intros ? <-; done.
    + destruct (Z.leb_spec (GetOrgMaxLinks org) (count_where (active_in orgID) (x_links y)));
        apply ensures_deny; [done|]. split; [done|]. intros _. by exists org.
  - intros y d [(E1 & _) E2]. unfold within_budget. by rewrite E1, E2.
Qed.

Lemma manage_unchanged x u orgID rid action :
  ensures (unchanged x) (manage u orgID rid action)
    (fun r x' => unchanged x x' /\
       match r with Ok _ => manages x u orgID | Err _ => True end).
Proof.
  unfold manage. eapply ensures_bind_pure; [apply AuthorizeLink_unchanged|]. intros d Hd.
  cbn beta in Hd. destruct (Allowed d).
  - apply ensures_ret. auto.
  - eapply (ensures_bind _ (fun _ => unchanged x)).
    + by apply stays_LogRequest.
    + intros _. by apply ensures_ret.
Qed.

Lemma logLinkEvent_stays (I : Observatory -> Prop) env link action actor meta :
  (forall x a, I x -> I (add_audit a x)) -> (forall x f, I x -> I (set_events f x)) ->
  stays I (logLinkEvent env link action actor meta).
Proof.
  intros Ha He. unfold logLinkEvent, LogEvent. handle. apply stays_LogRequest. auto.
Qed.

Lemma ensures_error {A} (P : Observatory -> Prop) (Q : result A Response -> Observatory -> Prop) resp :
  (forall x, P x -> Q (Err resp) x) -> ensures P (fail resp) Q.
Proof. apply ensures_ret. Qed.

Lemma changed_events x u x' f : changed x u x' -> changed x u (set_events f x').
Proof. done. Qed.

Lemma changed_audit x u x' a : changed x u x' -> changed x u (add_audit a x').
Proof. done. Qed.

(** The end of a handler: log and answer. *)
Lemma logged_changed x u env link action actor meta (resp : Response) :
  ensures (changed x u) (logLinkEvent env link action actor meta;; ok resp)
    (fun (_ : result Response Response) => changed x u).
Proof.
  apply stays_bind; [|intros; apply stays_ret]. by apply logLinkEvent_stays.
Qed.

Lemma respond_ensures P Q (m : DB Observatory (result Response Response)) :
  ensures P m (fun _ => Q) -> ensures P (respond m) (fun _ => Q).
Proof. intros Hm. eapply ensures_bind; [exact Hm|]. intros []; by apply ensures_ret. Qed.

Lemma bail {A} x u (resp : Response) :
  ensures (unchanged x) (fail resp) (fun (_ : result A Response) => changed x u).
Proof. apply ensures_ret. intros ?. apply unchanged_changed. Qed.

(** Read a row; without it the request ends. *)
Lemma reply_row {A B} x u what (f : Observatory -> option A) reply
    (k : A -> DB Observatory (result B Response)) :
  (forall x', unchanged x x' -> f x' = f x) ->
  (forall a, f x = Some a -> ensures (unchanged x) (k a) (fun _ => changed x u)) ->
  ensures (unchanged x) (try_bind (or_reply (get_row what f) reply) k) (fun _ => changed x u).
Proof.
  intros Hf Hk. eapply (ensures_try_pure _ (unchanged x) (fun a => f x = Some a)); [|done|].
  - apply or_reply_ensures. eapply ensures_conseq; [by apply row_unchanged|done|].
    by intros [] ?.
  - intros _ ?. apply unchanged_changed.
Qed.

Lemma reply_manage {B} x u orgID rid action (k : unit -> DB Observatory (result B Response)) :
  (manages x u orgID -> ensures (unchanged x) (k tt) (fun _ => changed x u)) ->
  ensures (unchanged x) (try_bind (manage u orgID rid action) k) (fun _ => changed x u).
Proof.
  intros Hk. eapply (ensures_try_pure _ (unchanged x) (fun _ => manages x u orgID)).
  - apply manage_unchanged.
  - by intros [].
  - intros _ ?. apply unchanged_changed.
Qed.

(** A last statement, then log and answer. *)
Lemma reply_write {A} x u (m : DBE Observatory A) reply env link action actor meta
    (resp : A -> Response) :
  ensures (unchanged x) m (fun _ => changed x u) ->
  ensures (unchanged x)
    (try_bind (or_reply m reply) (fun a => logLinkEvent env (link a) action actor meta;; ok (resp a)))
    (fun (_ : result Response Response) => changed x u).
Proof.
  intros Hm. eapply (ensures_try _ (fun _ => changed x u)).
  - apply or_reply_ensures. eapply ensures_conseq; [exact Hm|done|]. by intros [] ?.
  - intros a. apply logged_changed.
Qed.

Lemma repo_unchanged x id x' : unchanged x x' -> x_repos x' !! id = x_repos x !! id.
Proof. intros [(_ & E & _) _]. by rewrite E. Qed.

Lemma link_unchanged x id x' : unchanged x x' -> x_links x' !! id = x_links x !! id.
Proof. intros [_ E]. by rewrite E. Qed.

Lemma Create_changed x u now id link source target :
  manages x u (l_OrgID link) -> within_budget x (l_OrgID link) ->
  x_repos x !! l_SourceRepoID link = Some source -> x_repos x !! l_TargetRepoID link = Some target ->
  r_OrgID source = l_OrgID link -> r_OrgID target = l_OrgID link ->
  ensures (unchanged x) (Create now id link) (fun _ => changed x u).
Proof.
  intros Hm Hb Hs Ht Eos Eot. unfold Create. set (l := {| l_ID := id |}).
  eapply ensures_bind; [apply ensures_next_fails|].
  intros []; [apply ensures_ret; intros ?; apply unchanged_changed|].
  eapply (ensures_bind_pure _ (unchanged x) (fun d => d = link_duplicate l x)).
  { apply ensures_reads. intros y Hy. split; [done|]. unfold link_duplicate.
    by rewrite (proj2 Hy). }
  intros d Hd. destruct d; [apply ensures_ret; intros ?; apply unchanged_changed|].
  eapply (ensures_bind_pure _ (unchanged x) (fun a => a = link_accepted l x)).
  { apply ensures_reads. intros y Hy. split; [done|].
    destruct Hy as [(E1 & E2 & _) _]. unfold link_accepted. by rewrite E1, E2. }
  intros a Ha. destruct a; [|apply ensures_ret; intros ?; apply unchanged_changed].
  eapply (ensures_bind _ (fun _ => changed x u)); [|intros; by apply ensures_ret].
  apply ensures_writes. intros y [Hf El]. split; [done|]. right. cbn. rewrite El.
  apply (link_created x u l source target); auto.
Qed.

Lemma CreateLink_changed x env u repoID req :
  ensures (unchanged x) (CreateLink env (Some u) repoID req) (fun _ => changed x u).
Proof.
  unfold CreateLink. cbn [require]. rewrite try_ok. apply respond_ensures.
  destruct (uuid_Parse repoID) as [s|]; cbn [require]; [rewrite try_ok|apply bail].
  destruct req as [req|]; cbn [require]; [rewrite try_ok|apply bail].
  destruct (uuid_Parse (cr_TargetRepoID req)) as [t|]; cbn [require]; [rewrite try_ok|apply bail].
  destruct (s =? t)%N; [apply bail|].
  destruct (ValidShareProfiles _); cbn [negb]; [|apply bail].
  apply reply_row; [apply repo_unchanged|]. intros source Hs.
  apply reply_manage. intros Hm.
  eapply ensures_bind_pure; [apply CheckOrgLinkBudget_unchanged|]. intros budget Hb.
  cbn beta in Hb. destruct (Allowed budget); cbn [negb]; [|apply bail].
  apply reply_row; [apply repo_unchanged|]. intros target Ht.
  destruct (N.eqb_spec (r_OrgID source) (r_OrgID target)) as [Eo|]; cbn [negb]; [|apply bail].
  apply (reply_write x u _ _ _ (fun link => link)). by apply (Create_changed _ _ _ _ _ source target); auto.
Qed.

Lemma exec_changed x u what accepts f :
  (forall y, unchanged x y -> accepts y = true -> changed x u (f y).2) ->
  ensures (unchanged x) (exec_row what accepts f) (fun _ => changed x u).
Proof.
  intros Hf. unfold exec_row. eapply (ensures_try _ (fun _ => changed x u)).
  - apply ensures_wrapping, ensures_checked; [exact Hf|]. intros ? ?. by apply unchanged_changed.
  - intros n. destruct (n =? 0); by apply ensures_ret.
Qed.

Lemma UpdateLink_changed x env u linkID req :
  ensures (unchanged x) (UpdateLink env (Some u) linkID req) (fun _ => changed x u).
Proof.
  unfold UpdateLink. cbn [require]. rewrite try_ok. apply respond_ensures.
  destruct (uuid_Parse linkID) as [id|]; cbn [require]; [rewrite try_ok|apply bail].
  destruct req as [req|]; cbn [require]; [rewrite try_ok|apply bail].
  destruct (_ && _); [apply bail|].
  apply reply_row; [apply link_unchanged|]. intros link Hl.
  apply reply_manage. intros Hm.
  apply (reply_write x u _ _ _ (fun _ => link)), exec_changed.
  intros y [Hf El] Hacc. split; [done|]. cbn. rewrite El in Hacc |- *.
  apply orb_prop in Hacc as [Hv|Hn%bool_decide_eq_true]; [|congruence].
  right. by apply (link_updated x u id link).
Qed.

Lemma DeleteLink_changed x env u linkID :
  ensures (unchanged x) (DeleteLink env (Some u) linkID) (fun _ => changed x u).
Proof.
  unfold DeleteLink. cbn [require]. rewrite try_ok. apply respond_ensures.
  destruct (uuid_Parse linkID) as [id|]; cbn [require]; [rewrite try_ok|apply bail].
  apply reply_row; [apply link_unchanged|]. intros link Hl.
  apply reply_manage. intros Hm.
  apply (reply_write x u _ _ _ (fun _ => link)), exec_changed.
  intros y [Hf El] _. split; [done|]. cbn. rewrite El. right. by apply (link_deleted x u id link).
Qed.

(** Without a user every endpoint ends with 401. *)
Lemma serve_anonymous env req (r : Run Observatory) :
  serve env None req r = (error_reply 401 "unauthorized", r).
Proof. by destruct req. Qed.

Lemma serve_mutating x env u req :
  mutates req = true -> ensures (unchanged x) (serve env (Some u) req) (fun _ => changed x u).
Proof.
  destruct req; cbn [mutates serve]; try discriminate; intros _.
  - apply CreateLink_changed.
  - apply UpdateLink_changed.
  - apply DeleteLink_changed.
Qed.

Lemma unchanged_refl x : unchanged x x.
Proof. by repeat split. Qed.

(** C18: Whatever fails, every call of the engine made for a request or for the review pipeline is
    about the repository that the request names in its path, or that is under review, and
    otherwise only about repositories for which the matching action is permitted to the user: a
    search from the repository, dependencies of the repository, and a graph of repositories each
    of which may view another one's.  Searches and dependencies are asked only if there is such a
    repository, which makes the user a member of the organisation.  Without a user there is no
    call.  The exception is the manifest: any user gets that of any repository they name
    ([call_ok] asks nothing of the user there, and Example [outsider_lists_links] shows one). *)
Theorem engine_calls_permitted env user req config repo symbols query (r : Run Observatory) :
  (exists calls,
     x_calls (tables (serve env user req r).2) = (x_calls (tables r) ++ calls)%list /\
     match user with Some u => Forall (call_ok (path_repo req) (tables r) u) calls | None => calls = [] end) /\
  (forall u, exists calls,
     x_calls (tables (Enrich config u repo symbols query r).2) =
       (x_calls (tables r) ++ calls)%list /\
     Forall (call_ok (Some repo) (tables r) u) calls).
Proof.
  split.
  - destruct user as [u|]; [|exists []; by rewrite serve_anonymous, app_nil_r].
    destruct (mutates req) eqn:Em.
    + pose proof (serve_mutating (tables r) env u req Em r (unchanged_refl _)) as [Hf _].
      exists []. rewrite app_nil_r. split; [apply Hf|done].
    + pose proof (serve_reading (tables r) env u req Em r (served_refl _ _ u)) as [_ Hc]. done.
  - intros u.
    by destruct (Enrich_served (tables r) config u repo symbols query r (served_refl _ _ u)).
Qed.

(** C39: Whatever fails, a request leaves organisations, repositories and memberships alone,
    and changes the links only for a user who manages the organisation of the link: it
    creates one between two of its repositories within its budget, sets a valid profile, or
    deletes one. *)
Theorem links_change_authorized env user req (r : Run Observatory) :
  let x := tables r in
  let x' := tables (serve env user req r).2 in
  x_orgs x' = x_orgs x /\ x_repos x' = x_repos x /\ x_members x' = x_members x /\
  x_repo_members x' = x_repo_members x /\
  (x_links x' = x_links x \/
   exists u, user = Some u /\ link_change x u (x_links x')).
Proof.
  cbn zeta. destruct user as [u|]; [|rewrite serve_anonymous; by auto 6].
  destruct (mutates req) eqn:Em.
  - pose proof (serve_mutating (tables r) env u req Em r (unchanged_refl _))
      as [(? & ? & ? & ? & _) Hl]. split_and!; [done..|].
    destruct Hl; [by left|right; eauto].
  - pose proof (serve_reading (tables r) env u req Em r (served_refl _ _ u))
      as [(? & ? & ? & ? & ?) _]. split_and!; [done..|by left].
Qed.

(** ** The links stay well formed *)

Definition link_ok (x : Observatory) (id : UUID) (l : RepoLink) : Prop :=
  l_ID l = id /\ ValidShareProfiles (l_ShareProfile l) = true /\
  l_SourceRepoID l <> l_TargetRepoID l /\
  (exists source, x_repos x !! l_SourceRepoID l = Some source /\ r_OrgID source = l_OrgID l) /\
  (exists target, x_repos x !! l_TargetRepoID l = Some target /\ r_OrgID target = l_OrgID l).

(** Every link is between two repositories of its organisation, with a valid profile, and no
    two links are between the same ones. *)
Definition links_ok (x : Observatory) : Prop :=
  map_Forall (link_ok x) (x_links x) /\ links_unique x.

Lemma duplicate_none x l id l' :
  link_duplicate l x = false -> x_links x !! id = Some l' -> same_ends l' l = false.
Proof.
  unfold link_duplicate. intros [_ Hd]%orb_false_elim Hl'.
  destruct (same_ends l' l) eqn:E; [|done]. rewrite <- Hd. symmetry. apply existsb_exists.
  exists (id, l'). split; [|done]. by apply list_elem_of_In, elem_of_map_to_list.
Qed.

Lemma same_ends_sym l l' : same_ends l l' = same_ends l' l.
Proof.
  unfold same_ends. by rewrite (N.eqb_sym (l_OrgID l)), (N.eqb_sym (l_SourceRepoID l)),
    (N.eqb_sym (l_TargetRepoID l)).
Qed.

Lemma unique_insert_link (m : gmap UUID RepoLink) l :
  (forall id id' k k', m !! id = Some k -> m !! id' = Some k' -> same_ends k k' = true -> id = id') ->
  (forall id l', m !! id = Some l' -> same_ends l' l = false) ->
  forall id id' k k', <[l_ID l := l]> m !! id = Some k -> <[l_ID l := l]> m !! id' = Some k' ->
    same_ends k k' = true -> id = id'.
Proof.
  intros Hu Hn id id' k k' [[<- <-]|[_ Hk]]%lookup_insert_Some [[<- <-]|[_ Hk']]%lookup_insert_Some E;
    [done| | |eauto].
  - rewrite same_ends_sym in E. by rewrite (Hn id' k' Hk') in E.
  - by rewrite (Hn id k Hk) in E.
Qed.

Lemma link_change_ok x u m :
  links_ok x -> link_change x u m ->
  map_Forall (link_ok x) m /\
  (forall id id' l l', m !! id = Some l -> m !! id' = Some l' -> same_ends l l' = true -> id = id').
Proof.
  intros [Hok Hu] Hc.
  destruct Hc as [l source target Hm Hb Hs Ht Es Et Hd Ha|id l now profile label Hl Hm Hv|id l Hl Hm].
  - split.
    + apply map_Forall_insert_2; [|done].
      unfold link_accepted in Ha. bool_to_prop. split_and!; [done|done| |eauto|eauto].
      by apply N.eqb_neq.
    + apply unique_insert_link; [exact Hu|]. intros id l'. by apply duplicate_none.
  - split.
    + intros k y [(-> & y0 & Hy & ->)|[? Hy]]%lookup_alter_Some; [|by apply Hok].
      destruct (Hok k _ Hy) as (? & _ & ? & ? & ?). unfold link_ok. by split_and!.
    + assert (forall k y, alter (set_profile now profile label) id (x_links x) !! k = Some y ->
        exists y0, x_links x !! k = Some y0 /\ forall z, same_ends y z = same_ends y0 z) as Hinv.
      { intros k y [(-> & y0 & Hy & ->)|[? Hy]]%lookup_alter_Some; eauto. }
      intros i i' y y' (y0 & Hy & E)%Hinv (y0' & Hy' & E')%Hinv Hsame.
      apply (Hu i i' y0 y0'); [done..|]. by rewrite <- E, same_ends_sym, <- E', same_ends_sym.
  - split.
    + by apply map_Forall_delete.
    + intros i i' y y' [_ Hy]%lookup_delete_Some [_ Hy']%lookup_delete_Some. eauto.
Qed.

(** Whatever fails, no request breaks the links: they join distinct repositories of the
    organisation they belong to, have a valid profile and are unique. *)
Theorem serve_links_ok env user req (r : Run Observatory) :
  links_ok (tables r) -> links_ok (tables (serve env user req r).2).
Proof.
  intros Hok. destruct user as [u|]; [|by rewrite serve_anonymous].
  assert (forall x', x_repos x' = x_repos (tables r) -> map_Forall (link_ok (tables r)) (x_links x') ->
    map_Forall (link_ok x') (x_links x')) as Hrepos.
  { intros x' E Hx id l Hl. specialize (Hx id l Hl). unfold link_ok in *. by rewrite E. }
  destruct (mutates req) eqn:Em.
  - pose proof (serve_mutating (tables r) env u req Em r (unchanged_refl _))
      as [(_ & Er & _) [El|Hc]].
    + split; [apply Hrepos; [done|]|unfold links_unique]; rewrite El; apply Hok.
    + apply link_change_ok in Hc as [Hc Hu]; [|done]. split; [by apply Hrepos|done].
  - pose proof (serve_reading (tables r) env u req Em r (served_refl _ _ u))
      as [(_ & Er & _ & _ & El) _].
    split; [apply Hrepos; [done|]|unfold links_unique]; rewrite El; apply Hok.
Qed.

(** ** Events of deletions *)

Lemma log_without_link env link action actor meta events :
  stays (fun x' => x_links x' !! l_ID link = None /\ x_events x' = events)
    (logLinkEvent env link action actor meta).
Proof.
  unfold logLinkEvent, LogEvent. handle; [by apply stays_LogRequest|].
  intros x' [El Ee] Hacc. unfold event_accepted in Hacc. cbn in Hacc. by rewrite El in Hacc.
Qed.

(** Whatever fails, a request to delete a link writes no event, because the row that the event
    would refer to is gone; the link of earlier events becomes NULL. *)
Theorem deletion_never_logged env user linkID (r : Run Observatory) :
  map_Forall (fun id l => l_ID l = id) (x_links (tables r)) ->
  let x' := tables (DeleteLink env user linkID r).2 in
  x_events x' = x_events (tables r) \/
  exists id, x_events x' = map (unlink id) (x_events (tables r)).
Proof.
  intros Hid. set (x := tables r) in *.
  set (J := fun x' => x_links x' = x_links x /\ x_events x' = x_events x).
  set (Q := fun x' => x_events x' = x_events x \/
    exists id, x_events x' = map (unlink id) (x_events x)).
  assert (forall x', J x' -> Q x') as HJ by (intros x' []; by left).
  assert (ensures J (DeleteLink env user linkID) (fun _ => Q)) as Hd; [|by apply Hd].
  unfold DeleteLink. apply respond_ensures.
  destruct user as [u|]; cbn [require]; [rewrite try_ok|by apply ensures_ret].
  destruct (uuid_Parse linkID) as [id|]; cbn [require]; [rewrite try_ok|by apply ensures_ret].
  eapply (ensures_try_pure _ J (fun l => x_links x !! id = Some l)); [| |by intros ? ? ?; apply HJ].
  { apply or_reply_ensures. eapply ensures_conseq; [apply (ensures_reading J _
      (fun y r => match r with Ok a => x_links y !! id = Some a | Err _ => True end)
      (fun r => match r with Ok a => x_links x !! id = Some a | Err _ => True end))|done|].
    - intros y. apply ensures_eq_row; auto.
    - intros y [l|e] [El _]; [by rewrite El|done].
    - by intros [] ?. }
  intros link Hl. rewrite <- (Hid id link Hl).
  eapply (ensures_try _ (fun _ => J)).
  { apply (ensures_conseq _ J _ (fun _ => J)); [|done|by intros [] ? Ht; [|apply HJ]].
    change (stays J (manage u (l_OrgID link) (uuid_String (l_ID link)) "delete")).
    unfold manage, AuthorizeLink, GetOrg, GetMember, get_row. handle; by apply stays_LogRequest. }
  intros _. eapply (ensures_try _ (fun _ x' => x_links x' !! l_ID link = None /\
    x_events x' = map (unlink (l_ID link)) (x_events x))).
  { apply or_reply_ensures. eapply (ensures_try _ (fun _ x' => x_links x' !! l_ID link = None /\
      x_events x' = map (unlink (l_ID link)) (x_events x))).
    - apply ensures_wrapping, ensures_checked.
      + intros y [El Ee] _. cbn. by rewrite El, Ee, lookup_delete_eq.
      + intros y Hy. by apply HJ.
    - intros n. destruct (n =? 0); apply ensures_ret; [|done]. intros y [_ Ey]. right. eauto. }
  intros _. eapply ensures_conseq; [apply (stays_bind _ _ _ (log_without_link env link
    AuditActionLinkDeleted u _ (map (unlink (l_ID link)) (x_events x))))|done|].
  - intros _. apply stays_ret.
  - intros _ y [_ Ey]. right. eauto.
Qed.
End safety.

(** ** Cross-repository access evaluated

    An organisation of three repositories, an engine that answers every search with one chunk
    per repository, the witnesses of the theorems of CrossRepoSafety.v and what goes wrong. *)

#[local] Instance stored_order : RowOrder :=
  {| row_order := fun _ l => l; row_order_perm := fun _ l => reflexivity l |}.
#[local] Existing Instance unary_uuid.

Definition chunk_of (repo : string) : FederatedChunk :=
  {| fc_RepoID := repo; fc_RepoName := "";
     fc_Chunk := {| cc_ID := ""; cc_FilePath := "a.go"; cc_StartLine := 1; cc_EndLine := 2;
                    cc_Content := "x"; cc_Language := "go"; cc_Symbols := [];
                    cc_RelevanceScore := of_int 1; cc_ChunkType := "" |};
     fc_NormalizedScore := of_int 1; fc_RawScore := of_int 1 |}.

#[local] Instance echo_engine : Engine := {|
  RepoManifest := string;
  SearchMetrics := unit;
  rpc_manifest _ repo := Ok repo;
  rpc_search _ _ repos _ _ := Ok (map chunk_of repos, tt);
  rpc_dependencies _ _ _ _ := Ok ([], 0);
  rpc_graph _ _ repos _ := Ok {| dg_Success := true; dg_Message := ""; dg_ReposScanned := 0;
    dg_TotalNodes := 0; dg_TotalEdges := 0; dg_Nodes := []; dg_Edges := [] |}
|}.

Definition sample_repo (org : UUID) (name : string) : Repository :=
  {| r_OrgID := org; r_Owner := "acme"; r_Name := name |}.
Definition sample_link (id s t : UUID) (profile : string) : RepoLink :=
  {| l_ID := id; l_OrgID := 1%N; l_SourceRepoID := s; l_TargetRepoID := t;
     l_ShareProfile := profile; l_Label := ""; l_CreatedBy := 7%N; l_CreatedAt := 0;
     l_UpdatedAt := 0 |}.
Definition sample_member (role : string) : OrgMember := {| m_Role := role; m_JoinedAt := 0 |}.

(** User 7 owns organisation 1, user 8 is a member, user 9 belongs to organisation 2; at most
    one link may be active. *)
Definition acme : Observatory := {|
  x_orgs := {[ 1%N := {| o_Settings := Some {[ "max_linked_repos" := SNumber (of_int 1) ]} |};
               2%N := {| o_Settings := None |} ]};
  x_repos := {[ 11%N := sample_repo 1 "api"; 12%N := sample_repo 1 "lib";
                13%N := sample_repo 1 "web" ]};
  x_members := {[ (1%N, 7%N) := sample_member "owner"; (1%N, 8%N) := sample_member "member";
                  (2%N, 9%N) := sample_member "owner" ]};
  x_repo_members := ∅;
  x_links := {[ 21%N := sample_link 21 11 12 "full"; 22%N := sample_link 22 11 13 "none" ]};
  x_events := []; x_audit := []; x_calls := []
|}.

Definition at_noon : Env := {| e_now := 100; e_linkID := 30%N; e_eventID := 31%N |}.
Definition uid (u : UUID) : string := uuid_String u.

Lemma acme_link id l :
  x_links acme !! id = Some l ->
  (id, l) = (21%N, sample_link 21 11 12 "full") \/ (id, l) = (22%N, sample_link 22 11 13 "none").
Proof.
  cbn. intros [[<- <-]|[_ [<- <-]%lookup_singleton_Some]]%lookup_insert_Some; auto.
Qed.

Lemma acme_links_ok : links_ok acme.
Proof.
  split.
  - intros id l [[= -> ->]|[= -> ->]]%acme_link; repeat split; try discriminate; by eexists.
  - intros i j l l' [[= -> ->]|[= -> ->]]%acme_link [[= -> ->]|[= -> ->]]%acme_link; done.
Qed.

(** The owner may search the library, a member without access of their own may not. *)
Lemma Authorize_spec_witness :
  permitted acme 7 11 12 ActionCrossRepoSearch /\ ~ permitted acme 8 11 12 ActionCrossRepoSearch.
Proof.
  pose proof (Authorize_spec (quiet acme) 7 11 12 ActionCrossRepoSearch) as Ho.
  pose proof (Authorize_spec (quiet acme) 8 11 12 ActionCrossRepoSearch) as Hm.
  assert ((Authorize 7 11 12 ActionCrossRepoSearch (quiet acme)).1 = Allow) as E by (vm_compute; reflexivity).
  assert (Allowed (Authorize 8 11 12 ActionCrossRepoSearch (quiet acme)).1 = false) as E'
    by (vm_compute; reflexivity).
  destruct (Authorize 7 11 12 ActionCrossRepoSearch (quiet acme)) as [d r'].
  destruct (Authorize 8 11 12 ActionCrossRepoSearch (quiet acme)) as [d' r''].
  cbn [fst] in E, E'. split.
  - apply Ho. by rewrite E.
  - intros Hp. destruct Hm as (_ & _ & Hc). specialize (Hc eq_refl (proj2 acme_links_ok) Hp). congruence.
Defined.

(** A viewer, below a member, and a member, both without a role in the library. *)
Example viewer_reads_metadata :
  let viewers := {| x_orgs := x_orgs acme; x_repos := x_repos acme;
    x_members := <[(1%N, 9%N) := sample_member "viewer"]> (x_members acme);
    x_repo_members := x_repo_members acme; x_links := x_links acme; x_events := [];
    x_audit := []; x_calls := [] |} in
  let allowed u action := Allowed (Authorize u 11 12 action (quiet viewers)).1 in
  x_repo_members viewers = ∅ /\
  allowed 9%N ActionCrossRepoMetadata = true /\ allowed 9%N ActionCrossRepoGraphView = true /\
  allowed 9%N ActionCrossRepoSymbols = false /\ allowed 8%N ActionCrossRepoSymbols = true.
Proof. by vm_compute. Qed.

Lemma serve_links_ok_witness :
  links_ok (tables (serve at_noon (Some 7%N) (ReqDeleteLink (uid 21)) (quiet acme)).2).
Proof. apply serve_links_ok, acme_links_ok. Defined.

(** A search of the owner reaches the linked library, and not the paused link. *)
Example search_reaches_library :
  x_calls (tables (serve at_noon (Some 7%N) (ReqSearch (uid 11)
    (Some {| fr_Query := "q"; fr_TouchedSymbols := []; fr_TopK := 0; fr_MaxTotalResults := 0;
             fr_MaxConcurrent := 0; fr_ScoreNormalization := "" |})) (quiet acme)).2) =
  [CallSearch "q" [uid 11; uid 12] []].
Proof. by vm_compute. Qed.

(** A review triggered by a webhook runs for the nil user, who is in no organisation, so it
    never gets context from other repositories. *)
Example webhook_review_gets_no_context :
  let c := (Enrich (Some DefaultEnricherConfig) 0 11 ["f"] "title" (quiet acme)).1 in
  (ctx_Empty c, ctx_ReposDenied c) = (true, 1%nat).
Proof. by vm_compute. Qed.

(** The budget of one active link is used up, so no third link can be created; but the paused
    link can be resumed, since an update does not look at the budget. *)
Example budget_refuses_creation :
  code (serve at_noon (Some 7%N) (ReqCreateLink (uid 12) (Some {| cr_TargetRepoID := uid 13;
    cr_ShareProfile := "full"; cr_Label := "" |})) (quiet acme)).1 = 403.
Proof. by vm_compute. Qed.

Example update_exceeds_budget :
  let '(resp, r) := serve at_noon (Some 7%N) (ReqUpdateLink (uid 22)
    (Some {| ur_ShareProfile := "full"; ur_Label := "" |})) (quiet acme) in
  (code resp, count_where (active_in 1) (x_links (tables r))) = (200, 2).
Proof. by vm_compute. Qed.

(** The deletion is answered with 200 and leaves no event. *)
Example deletion_leaves_no_event :
  let '(resp, r) := serve at_noon (Some 7%N) (ReqDeleteLink (uid 21)) (quiet acme) in
  (code resp, x_events (tables r), length (x_audit (tables r))) = (200, [], 1%nat).
Proof. by vm_compute. Qed.

(** A user of another organisation reads the links of this one, and manifests. *)
Example outsider_lists_links :
  code (serve at_noon (Some 9%N) (ReqListOrgLinks (uid 1) "" "") (quiet acme)).1 = 200 /\
  x_calls (tables (serve at_noon (Some 9%N) (ReqManifest (uid 12)) (quiet acme)).2) =
    [CallManifest (uid 12)].
Proof. by vm_compute. Qed.

(** The library is only the target of links, so the graph of the organisation leaves it out. *)
Example graph_leaves_target_out :
  x_calls (tables (serve at_noon (Some 7%N) (ReqGraph (uid 1)
    (Some {| br_RepoIDs := []; br_ForceRescan := false |})) (quiet acme)).2) =
  [CallGraph (uid 1) [uid 11] false].
Proof. by vm_compute. Qed.

Lemma deletion_never_logged_witness :
  x_events (tables (DeleteLink at_noon (Some 7%N) (uid 21) (quiet acme)).2) = [] \/
  exists id, x_events (tables (DeleteLink at_noon (Some 7%N) (uid 21) (quiet acme)).2) =
    map (unlink id) [].
Proof.
  apply (deletion_never_logged at_noon (Some 7%N) (uid 21) (quiet acme)).
  intros id l Hl. by apply acme_links_ok.
Defined.
