(* ===== verification/Session.v ===== *)
(** * Sessions and rate limits ([internal/session])

    [manager.go], [ratelimit.go] and [ratelimit_middleware.go] on a Redis that keeps strings and
    sorted sets with times of expiry.  The clock is part of the state; a key is there until its
    expiry.  A value is kept as the Go value that is marshalled: JSON is left out.  A pipeline
    fails as a whole and then has done nothing.  Members of a sorted set are the decimal texts
    of their scores, so a set is a set of scores; they are exact in a [float64] until the
    year 2255. *)

From Stdlib Require Import ZArith Lia String.
From stdpp Require Import base list gmap strings sorting.
From S2P Require Import Prelude GoStrings SwarmDb Db.
Local Open Scope string_scope.
Local Open Scope rtv_scope.
Local Open Scope Z_scope.

(** ** Redis *)

Record SessionData := {
  sd_UserID : UUID;
  sd_Email : string;
  sd_Name : string;
  sd_Role : string;
  sd_OrgID : UUID;
  sd_CreatedAt : Z
}.

Inductive Value :=
  | VSession (data : SessionData)
  | VState (provider redirectURL userID orgID : string)
  | VScores (scores : gset Z).

Record Entry := { en_Value : Value; en_Expires : Z }.

Record Redis := { rd_keys : gmap string Entry; rd_now : Z }.

Definition set_keys (f : gmap string Entry -> gmap string Entry) (rd : Redis) : Redis :=
  {| rd_keys := f (rd_keys rd); rd_now := rd_now rd |}.
Definition set_clock (now : Z) (rd : Redis) : Redis :=
  {| rd_keys := rd_keys rd; rd_now := now |}.

(** An entry that has not expired. *)
Definition live_entry (rd : Redis) (key : string) : option Entry :=
  e ← rd_keys rd !! key; if rd_now rd <? en_Expires e then Some e else None.

Definition second : Z := 1000000000.

(** [SET key v EX ttl], [GET], [DEL], [EXPIRE]: [EXPIRE] answers whether the key was there and
    takes whole seconds, at least one where the duration is positive. *)
Definition redis_set (key : string) (v : Value) (ttl : Z) : DBE Redis unit :=
  statement (fun rd => set_keys <[key := {| en_Value := v; en_Expires := rd_now rd + ttl |}]> rd).
Definition redis_get (key : string) : DBE Redis (option Value) :=
  query (fun rd => en_Value <$> live_entry rd key).
Definition redis_del (key : string) : DBE Redis unit := statement (set_keys (delete key)).

Definition whole_seconds (d : Z) : Z :=
  if (0 <? d) && (d <? second) then second else d / second * second.

Definition expire_at (key : string) (d : Z) (rd : Redis) : Redis :=
  match live_entry rd key with
  | Some e => set_keys <[key := {| en_Value := en_Value e;
                                   en_Expires := rd_now rd + whole_seconds d |}]> rd
  | None => rd
  end.
Definition redis_expire (key : string) (d : Z) : DBE Redis bool :=
  returning (fun rd => (bool_decide (is_Some (live_entry rd key)), expire_at key d rd)).

(** ** Sessions *)

Definition sessionPrefix := "session:".
Definition statePrefix := "oauth_state:".
Definition defaultTTL : Z := 24 * 3600 * second.
Definition oauthStateTTL : Z := 10 * 60 * second.

(** [m.ttl] *)
Definition NewManager (ttl : Z) : Z := if ttl =? 0 then defaultTTL else ttl.

Section sessions.
Variable ttl : Z.

Definition Create (sessionID : string) (data : SessionData) : DBE Redis string :=
  now ← reads rd_now;
  let data := {| sd_UserID := sd_UserID data; sd_Email := sd_Email data; sd_Name := sd_Name data;
                 sd_Role := sd_Role data; sd_OrgID := sd_OrgID data; sd_CreatedAt := now |} in
  wrapping "store session" (redis_set (sessionPrefix ++ sessionID) (VSession data) ttl);?
  ok sessionID.

Definition Get (sessionID : string) : DBE Redis SessionData :=
  val ←? wrapping "get session" (redis_get (sessionPrefix ++ sessionID));
  match val with
  | None => fail "session not found"
  | Some (VSession data) => ok data
  | Some _ => fail "unmarshal session"
  end.

Definition Refresh (sessionID : string) : DBE Redis unit :=
  found ←? wrapping "refresh session" (redis_expire (sessionPrefix ++ sessionID) ttl);
  if found : bool then ok tt else fail "session not found".

Definition Destroy (sessionID : string) : DBE Redis unit :=
  redis_del (sessionPrefix ++ sessionID).

End sessions.

(** ** OAuth state *)

Definition StoreOAuthStateWithUser (state provider redirectURL userID orgID : string)
    : DBE Redis unit :=
  redis_set (statePrefix ++ state) (VState provider redirectURL userID orgID) oauthStateTTL.

Definition StoreOAuthState (state provider redirectURL : string) : DBE Redis unit :=
  StoreOAuthStateWithUser state provider redirectURL "" "".

(** The first half of the validation: the read. *)
Definition read_oauth_state (state : string) : DBE Redis Value :=
  val ←? wrapping "get oauth state" (redis_get (statePrefix ++ state));
  match val with
  | None => fail "invalid or expired OAuth state"
  | Some v => ok v
  end.

(** The second half: the state is deleted, without a look at the error, and decoded. *)
Definition consume_oauth_state (state : string) (v : Value)
    : DBE Redis (string * string * string * string) :=
  ignoring (redis_del (statePrefix ++ state));;
  match v with
  | VState provider redirectURL userID orgID => ok (provider, redirectURL, userID, orgID)
  | _ => fail "unmarshal state"
  end.

Definition ValidateOAuthStateWithUser (state : string)
    : DBE Redis (string * string * string * string) :=
  v ←? read_oauth_state state;
  consume_oauth_state state v.

Definition ValidateOAuthState (state : string) : DBE Redis (string * string) :=
  found ←? ValidateOAuthStateWithUser state;
  let '(provider, redirectURL, _, _) := found : string * string * string * string in
  ok (provider, redirectURL).

(** ** Rate limits *)

Definition rateLimitPrefix := "rl:".

Record RateLimitConfig := { MaxRequests : Z; Window : Z }.

(** [Configure] *)
Definition Configure (name : string) (cfg : RateLimitConfig)
    (configs : gmap string RateLimitConfig) : gmap string RateLimitConfig :=
  <[name := cfg]> configs.

(** [rr_ResetAt] is [None] for the zero time. *)
Record RateLimitResult := { rr_Allowed : bool; rr_Remaining : Z; rr_ResetAt : option Z }.

(** [UnixMicro] *)
Definition UnixMicro (t : Z) : Z := t / 1000.

Definition scores_of (rd : Redis) (key : string) : gset Z :=
  match live_entry rd key with
  | Some e => match en_Value e with VScores s => s | _ => ∅ end
  | None => ∅
  end.

(** [ZREMRANGEBYSCORE key 0 max], which keeps the expiry and drops an empty set. *)
Definition drop_scores (key : string) (max : Z) (rd : Redis) : Redis :=
  match live_entry rd key with
  | None => set_keys (delete key) rd
  | Some e =>
      let left := filter (fun z => z < 0 \/ max < z) (scores_of rd key) in
      if decide (left = ∅) then set_keys (delete key) rd
      else set_keys <[key := {| en_Value := VScores left; en_Expires := en_Expires e |}]> rd
  end.

(** [ZADD] of a score and [EXPIRE]. *)
Definition add_score (key : string) (z d : Z) (rd : Redis) : Redis :=
  set_keys <[key := {| en_Value := VScores ({[ z ]} ∪ scores_of rd key);
                       en_Expires := rd_now rd + whole_seconds d |}]> rd.

(** [ZRANGE key 0 0 WITHSCORES] *)
Definition first_score (rd : Redis) (key : string) : option Z :=
  head (merge_sort Z.le (elements (scores_of rd key))).

Definition limit_key (limiterName key : string) : string :=
  rateLimitPrefix ++ limiterName ++ ":" ++ key.

Section limiter.
Variable configs : gmap string RateLimitConfig.

Definition Allow (limiterName key : string) : DB Redis RateLimitResult :=
  match configs !! limiterName with
  | None => mret {| rr_Allowed := true; rr_Remaining := -1; rr_ResetAt := None |}
  | Some cfg =>
      now ← reads rd_now;
      let windowStart := now - Window cfg in
      let redisKey := limit_key limiterName key in
      counted ← returning (fun rd =>
        let rd' := drop_scores redisKey (UnixMicro windowStart) rd in
        (Z.of_nat (size (scores_of rd' redisKey)), rd'));
      match counted with
      | Err _ => mret {| rr_Allowed := true; rr_Remaining := MaxRequests cfg; rr_ResetAt := None |}
      | Ok currentCount =>
          let remaining := MaxRequests cfg - currentCount in
          if remaining <=? 0 then
            entries ← query (fun rd => first_score rd redisKey);
            mret {| rr_Allowed := false; rr_Remaining := 0;
                    rr_ResetAt := Some (match entries with
                                        | Ok (Some micro) => micro * 1000 + Window cfg
                                        | _ => now + Window cfg
                                        end) |}
          else
            ignoring (statement (add_score redisKey (UnixMicro now) (Window cfg + second)));;
            mret {| rr_Allowed := true; rr_Remaining := remaining - 1;
                    rr_ResetAt := Some (now + Window cfg) |}
      end
  end.

(** *** [RateLimitMiddleware] *)

(** What the middleware makes of a request: it is handed on with the headers of the limit, or
    rejected with the seconds to wait. *)
Inductive Verdict :=
  | Pass (limit remaining : Z) (reset : option Z)
  | Reject (organization : bool) (retryAfter : Z).

(** [time.Until(resetAt).Seconds()], at least one, as a whole number. *)
Definition retry_after (now : Z) (resetAt : option Z) : Z :=
  match resetAt with
  | Some t => if t - now <? second then 1 else (t - now) / second
  | None => 1
  end.

Definition RateLimitMiddleware `{UuidText} (limiterName remoteAddr : string)
    (userID orgClaim : option UUID) : DB Redis Verdict :=
  let key := match userID with Some u => uuid_String u | None => remoteAddr end in
  result ← Allow limiterName key;
  orgDenied ←
    match orgClaim with
    | Some org =>
        if (org =? 0)%N then mret None
        else
          orgResult ← Allow (limiterName ++ ":org") (uuid_String org);
          mret (if rr_Allowed orgResult then None else Some (rr_ResetAt orgResult))
    | None => mret None
    end;
  now ← reads rd_now;
  mret (match orgDenied with
        | Some resetAt => Reject true (retry_after now resetAt)
        | None =>
            if rr_Allowed result
            then Pass (rr_Remaining result + 1) (rr_Remaining result) (rr_ResetAt result)
            else Reject false (retry_after now (rr_ResetAt result))
        end).

(** Requests at the times [ts], one after the other; the times of those granted. *)
Fixpoint serve_all (limiterName key : string) (ts granted : list Z) : DB Redis (list Z) :=
  match ts with
  | [] => mret granted
  | t :: ts =>
      writes (set_clock t);;
      result ← Allow limiterName key;
      serve_all limiterName key ts (if rr_Allowed result then granted ++ [t] else granted)
  end.

End limiter.

(** ** Sessions and states come back *)

Section facts.

Lemma live_entry_set rd key v ttl dt :
  dt < ttl ->
  live_entry (set_clock (rd_now rd + dt)
    (set_keys <[key := {| en_Value := v; en_Expires := rd_now rd + ttl |}]> rd)) key =
  Some {| en_Value := v; en_Expires := rd_now rd + ttl |}.
Proof.
  intros Hdt. unfold live_entry. cbn. rewrite lookup_insert_eq. cbn.
  by rewrite (proj2 (Z.ltb_lt _ _)) by lia.
Qed.

Lemma live_entry_expired rd key v ttl dt :
  ttl <= dt ->
  live_entry (set_clock (rd_now rd + dt)
    (set_keys <[key := {| en_Value := v; en_Expires := rd_now rd + ttl |}]> rd)) key = None.
Proof.
  intros Hdt. unfold live_entry. cbn. rewrite lookup_insert_eq. cbn.
  by rewrite (proj2 (Z.ltb_ge _ _)) by lia.
Qed.

Lemma live_entry_deleted rd key : live_entry (set_keys (delete key) rd) key = None.
Proof. unfold live_entry. cbn. by rewrite lookup_delete_eq. Qed.

Lemma redis_get_quiet key rd :
  redis_get key (quiet rd) = (Ok (en_Value <$> live_entry rd key), quiet rd).
Proof. done. Qed.

Lemma validate_quiet state rd :
  ValidateOAuthStateWithUser state (quiet rd) =
  match en_Value <$> live_entry rd (statePrefix ++ state) with
  | Some (VState p u i o) => (Ok (p, u, i, o), quiet (set_keys (delete (statePrefix ++ state)) rd))
  | Some _ => (Err "unmarshal state", quiet (set_keys (delete (statePrefix ++ state)) rd))
  | None => (Err "invalid or expired OAuth state", quiet rd)
  end.
Proof.
  unfold ValidateOAuthStateWithUser.
  assert (read_oauth_state state (quiet rd) =
    (match en_Value <$> live_entry rd (statePrefix ++ state) with
     | None => Err "invalid or expired OAuth state" | Some v => Ok v end, quiet rd)) as E.
  { unfold read_oauth_state.
    rewrite (try_run _ _ _ _ _ (wrapping_run _ _ _ (Ok _) _ (redis_get_quiet _ _))).
    by destruct (en_Value <$> _). }
  destruct (en_Value <$> _) as [v|].
  - rewrite (try_run _ _ _ _ _ E). by destruct v.
  - by rewrite (try_run_err _ _ _ _ _ E).
Qed.

(** An OAuth state that is stored comes back once, within ten minutes: if no command
    fails, the first validation returns what was stored and the next one fails; after ten
    minutes the first one fails too. *)
Theorem oauth_state_roundtrip state provider redirectURL userID orgID rd dt :
  0 <= dt ->
  exists rd1, StoreOAuthStateWithUser state provider redirectURL userID orgID (quiet rd) =
      (Ok tt, quiet rd1) /\
    let later := set_clock (rd_now rd + dt) rd1 in
    (dt < oauthStateTTL ->
       exists rd2, ValidateOAuthStateWithUser state (quiet later) =
           (Ok (provider, redirectURL, userID, orgID), quiet rd2) /\
         ValidateOAuthStateWithUser state (quiet rd2) =
           (Err "invalid or expired OAuth state", quiet rd2)) /\
    (oauthStateTTL <= dt ->
       ValidateOAuthStateWithUser state (quiet later) =
         (Err "invalid or expired OAuth state", quiet later)).
Proof.
  intros Hdt. eexists. split; [reflexivity|]. cbn zeta. split; intros Ht.
  - eexists. rewrite !validate_quiet, live_entry_set, live_entry_deleted by done. done.
  - by rewrite validate_quiet, live_entry_expired.
Qed.

(** A session comes back until it expires or is destroyed. *)
Theorem session_roundtrip ttl id data rd dt :
  0 <= dt < ttl ->
  exists rd1, Create ttl id data (quiet rd) = (Ok id, quiet rd1) /\
    let later := set_clock (rd_now rd + dt) rd1 in
    (exists got, Get id (quiet later) = (Ok got, quiet later) /\
       sd_UserID got = sd_UserID data /\ sd_Role got = sd_Role data /\
       sd_CreatedAt got = rd_now rd) /\
    exists rd2, Destroy id (quiet later) = (Ok tt, quiet rd2) /\
      Get id (quiet rd2) = (Err "session not found", quiet rd2).
Proof.
  intros [_ Hdt].
  set (stored := {| sd_UserID := sd_UserID data; sd_Email := sd_Email data;
    sd_Name := sd_Name data; sd_Role := sd_Role data; sd_OrgID := sd_OrgID data;
    sd_CreatedAt := rd_now rd |}).
  exists (set_keys <[sessionPrefix ++ id := {| en_Value := VSession stored;
    en_Expires := rd_now rd + ttl |}]> rd). split; [done|]. cbn zeta. split.
  - eexists. unfold Get.
    rewrite (try_run _ _ _ _ _ (wrapping_run _ _ _ (Ok _) _ (redis_get_quiet _ _))).
    rewrite live_entry_set by done. done.
  - eexists. split; [reflexivity|]. unfold Get.
    rewrite (try_run _ _ _ _ _ (wrapping_run _ _ _ (Ok _) _ (redis_get_quiet _ _))).
    by rewrite live_entry_deleted.
Qed.

(** ** The sliding window *)

Variable configs : gmap string RateLimitConfig.
Variables (limiterName key : string) (cfg : RateLimitConfig).
Hypothesis configured : configs !! limiterName = Some cfg.
Notation rkey := (limit_key limiterName key).
Notation W := (Window cfg).

(** [micro(t - W) < micro(g)]: the request at [g] is in the window that ends at [t]. *)
Definition in_window (w t g : Z) : Prop := UnixMicro (t - w) < UnixMicro g <= UnixMicro t.
#[global] Instance in_window_dec w t g : Decision (in_window w t g).
Proof. unfold in_window. apply _. Defined.

Lemma micro_mono a b : a <= b -> UnixMicro a <= UnixMicro b.
Proof. intros. unfold UnixMicro. by apply Z.div_le_mono. Qed.

Lemma micro_lt a b : UnixMicro a < UnixMicro b -> a < b.
Proof. intros Hlt. destruct (Z.lt_ge_cases a b) as [|Hge]; [done|]. apply micro_mono in Hge. lia. Qed.

(** What the limiter does without failures. *)
Lemma Allow_quiet rd :
  let rd1 := drop_scores rkey (UnixMicro (rd_now rd - W)) rd in
  let count := Z.of_nat (size (scores_of rd1 rkey)) in
  exists reset,
  Allow configs limiterName key (quiet rd) =
  if MaxRequests cfg - count <=? 0
  then ({| rr_Allowed := false; rr_Remaining := 0; rr_ResetAt := Some reset |}, quiet rd1)
  else ({| rr_Allowed := true; rr_Remaining := MaxRequests cfg - count - 1;
           rr_ResetAt := Some (rd_now rd + W) |},
        quiet (add_score rkey (UnixMicro (rd_now rd)) (W + second) rd1)).
Proof.
  cbn zeta. eexists. unfold Allow. rewrite configured.
  rewrite (bind_run (reads rd_now) _ (quiet rd) (rd_now rd) (quiet rd) eq_refl).
  rewrite (bind_run _ _ _ _ _ (returning_quiet _ rd)). cbn [fst snd].
  destruct (_ <=? 0); done.
Qed.

(** The request at [g] is remembered. *)
Definition held (rd : Redis) (g : Z) : Prop :=
  exists e s, rd_keys rd !! rkey = Some e /\ en_Value e = VScores s /\ UnixMicro g ∈ s /\
    g + W < en_Expires e.

Lemma held_live rd g : held rd g -> rd_now rd < g + W -> UnixMicro g ∈ scores_of rd rkey.
Proof.
  intros (e & s & E & Es & Hg & Hexp) Hnow. unfold scores_of, live_entry. rewrite E. cbn.
  by rewrite (proj2 (Z.ltb_lt _ _)), Es by lia.
Qed.

Lemma held_drop rd g :
  held rd g -> in_window W (rd_now rd) g ->
  held (drop_scores rkey (UnixMicro (rd_now rd - W)) rd) g.
Proof.
  intros Hheld [Hw _]. assert (rd_now rd < g + W) as Hnow by (apply micro_lt in Hw; lia).
  pose proof (held_live rd g Hheld Hnow) as Hin.
  destruct Hheld as (e & s & E & Es & Hg & Hexp). unfold drop_scores, live_entry. rewrite E. cbn.
  rewrite (proj2 (Z.ltb_lt _ _)) by lia.
  set (left := filter _ _). assert (UnixMicro g ∈ left) as Hl.
  { unfold left. apply elem_of_filter. split; [by right|done]. }
  destruct (decide (left = ∅)) as [El|]; [set_solver|].
  eexists _, left. cbn. rewrite lookup_insert_eq. split_and!; [done..|exact Hexp].
Qed.

Lemma whole_seconds_after d : d < whole_seconds (d + second).
Proof.
  unfold whole_seconds, second. case_if; bool_to_prop; [lia|]. pose proof (Z.div_mod (d + 1000000000) 1000000000 ltac:(lia)).
  pose proof (Z.mod_pos_bound (d + 1000000000) 1000000000 ltac:(lia)). lia.
Qed.

Lemma held_add_new rd :
  held (add_score rkey (UnixMicro (rd_now rd)) (W + second) rd) (rd_now rd).
Proof.
  eexists _, _. cbn. rewrite lookup_insert_eq. split_and!; [done..|set_solver|].
  cbn. pose proof (whole_seconds_after W). lia.
Qed.

Lemma held_add rd g :
  held rd g -> g <= rd_now rd < g + W ->
  held (add_score rkey (UnixMicro (rd_now rd)) (W + second) rd) g.
Proof.
  intros Hheld [Hle Hlt]. pose proof (held_live rd g Hheld Hlt) as Hin.
  eexists _, _. cbn. rewrite lookup_insert_eq. split_and!; [done..|set_solver|].
  cbn. pose proof (whole_seconds_after W). lia.
Qed.

(** The requests granted in the window that ends at [t]. *)
Definition granted_in (t : Z) (granted : list Z) : Z :=
  Z.of_nat (length (filter (in_window W t) granted)).

Definition within_limit (granted : list Z) : Prop :=
  forall t, t ∈ granted -> granted_in t granted <= MaxRequests cfg.

Record limiter_inv (granted ts : list Z) (rd : Redis) : Prop := {
  inv_distinct : NoDup (UnixMicro <$> granted);
  inv_before : forall g t, g ∈ granted -> t ∈ ts -> UnixMicro g < UnixMicro t;
  inv_held : forall g t, g ∈ granted -> t ∈ ts -> in_window W t g -> held rd g;
  inv_limit : within_limit granted
}.

Lemma count_granted granted rd t :
  NoDup (UnixMicro <$> granted) -> rd_now rd = t ->
  (forall g, g ∈ granted -> in_window W t g -> held rd g) ->
  granted_in t granted <= Z.of_nat (size (scores_of rd rkey)).
Proof.
  intros Hnd Et Hheld. unfold granted_in. apply inj_le.
  set (l := filter (in_window W t) granted).
  assert (NoDup (UnixMicro <$> l)) as Hl.
  { eapply sublist_NoDup; [exact Hnd|]. apply fmap_sublist, sublist_filter. }
  rewrite <- (length_fmap UnixMicro), <- (size_list_to_set (C := gset Z)) by done.
  apply subseteq_size. intros m Hm%elem_of_list_to_set.
  apply list_elem_of_fmap in Hm as (g & -> & [Hw Hg]%list_elem_of_filter).
  apply held_live; [auto|]. destruct Hw as [Hw _]. apply micro_lt in Hw. lia.
Qed.

Lemma within_limit_snoc granted t :
  within_limit granted -> (forall g, g ∈ granted -> UnixMicro g < UnixMicro t) ->
  granted_in t granted < MaxRequests cfg -> within_limit (granted ++ [t]).
Proof.
  intros Hlim Hbefore Hroom u Hu. unfold granted_in. rewrite filter_app, length_app.
  apply elem_of_app in Hu as [Hu|Hu%list_elem_of_singleton].
  - rewrite (filter_cons_False _ t) by (intros [_ Hle]; specialize (Hbefore u Hu); lia).
    cbn. rewrite Nat.add_0_r. by apply Hlim.
  - subst u. unfold granted_in in Hroom. rewrite filter_cons. destruct (decide _); cbn; lia.
Qed.

Lemma window_earlier g t t' :
  in_window W t' g -> UnixMicro g < UnixMicro t -> t < t' -> in_window W t g.
Proof.
  intros [Hlo _] Hg Ht. split; [|lia].
  pose proof (micro_mono (t - W) (t' - W) ltac:(lia)). lia.
Qed.

Lemma limiter_step granted t ts rd :
  limiter_inv granted (t :: ts) rd -> Forall (fun t' => UnixMicro t < UnixMicro t') ts ->
  exists result rd', Allow configs limiterName key (quiet (set_clock t rd)) = (result, quiet rd') /\
    limiter_inv (if rr_Allowed result then granted ++ [t] else granted) ts rd'.
Proof.
  intros [Hnd Hbefore Hheld Hlim] Hlater. rewrite Forall_forall in Hlater.
  destruct (Allow_quiet (set_clock t rd)) as [reset E]. cbn zeta in E. cbn [rd_now set_clock] in E.
  set (rd1 := drop_scores rkey (UnixMicro (t - W)) (set_clock t rd)) in E.
  assert (rd_now rd1 = t) as Enow.
  { unfold rd1, drop_scores. destruct (live_entry _ _); [|done]. by destruct (decide _). }
  assert (forall g, g ∈ granted -> in_window W t g -> held rd1 g) as Hheld1.
  { intros g Hg Hw. apply (held_drop (set_clock t rd)); [|done]. apply (Hheld g t); [done|by left|done]. }
  assert (forall g t', g ∈ granted -> t' ∈ ts -> in_window W t' g -> in_window W t g) as Hearlier.
  { intros g t' Hg Ht' Hw. eapply window_earlier; [exact Hw|apply Hbefore; [done|by left]|].
    by apply micro_lt, Hlater. }
  pose proof (count_granted granted rd1 t Hnd Enow Hheld1) as Hcount.
  destruct (Z.leb_spec (MaxRequests cfg - Z.of_nat (size (scores_of rd1 rkey))) 0) as [Hfull|Hroom];
    eexists _, _; (split; [exact E|]); cbn [rr_Allowed].
  - split; [done| | |done].
    + intros g t' Hg Ht'. apply Hbefore; [done|by right].
    + intros g t' Hg Ht' Hw. eauto.
  - split.
    + rewrite fmap_app. apply NoDup_app. split_and!; [done| |apply NoDup_singleton].
      intros m (g & -> & Hg)%list_elem_of_fmap Hm%list_elem_of_singleton.
      specialize (Hbefore g t Hg ltac:(by left)). lia.
    + intros g t' [Hg| ->%list_elem_of_singleton]%elem_of_app Ht'; [|by apply Hlater].
      apply Hbefore; [done|by right].
    + intros g t' Hg Ht' Hw. rewrite <- Enow.
      apply elem_of_app in Hg as [Hg| ->%list_elem_of_singleton]; [|rewrite <- Enow; apply held_add_new].
      pose proof (Hearlier g t' Hg Ht' Hw) as Hwt. apply held_add; [auto|]. rewrite Enow.
      specialize (Hbefore g t Hg ltac:(by left)). apply micro_lt in Hbefore.
      destruct Hwt as [Hlo _]. apply micro_lt in Hlo. lia.
    + apply within_limit_snoc; [done| |lia]. intros g Hg. apply Hbefore; [done|by left].
Qed.

Lemma serve_all_inv ts granted rd :
  StronglySorted (fun t t' => UnixMicro t < UnixMicro t') ts -> limiter_inv granted ts rd ->
  exists granted' rd', serve_all configs limiterName key ts granted (quiet rd) =
      (granted', quiet rd') /\ within_limit granted'.
Proof.
  revert granted rd. induction ts as [|t ts IH]; intros granted rd Hs Hinv.
  { exists granted, rd. split; [done|apply Hinv]. }
  apply StronglySorted_inv in Hs as [Hs Hlater].
  destruct (limiter_step granted t ts rd Hinv Hlater) as (result & rd1 & E & Hinv1).
  destruct (IH _ _ Hs Hinv1) as (granted' & rd' & E' & Hlim).
  exists granted', rd'. split; [|done]. cbn [serve_all].
  rewrite (bind_run (writes (set_clock t)) _ (quiet rd) tt (quiet (set_clock t rd)) eq_refl).
  by rewrite (bind_run _ _ _ _ _ E).
Qed.

(** C40: If no command fails, requests are served one after the other and no two fall into
    one microsecond, the limiter grants at most the configured number in every window: of
    the granted requests, those in the window that ends at a granted one are at most
    [MaxRequests]. *)
Theorem rate_limit_holds ts rd :
  StronglySorted (fun t t' => UnixMicro t < UnixMicro t') ts ->
  exists granted rd', serve_all configs limiterName key ts [] (quiet rd) = (granted, quiet rd') /\
    forall t, t ∈ granted ->
      Z.of_nat (length (filter (in_window W t) granted)) <= MaxRequests cfg.
Proof.
  intros Hs. apply (serve_all_inv ts [] rd Hs). split; try (by intros ? ? []%elem_of_nil).
  - apply NoDup_nil_2.
  - by intros ? []%elem_of_nil.
Qed.
End facts.

(** ** Evaluation *)

Definition no_keys : Redis := {| rd_keys := ∅; rd_now := 1000000000 |}.
Definition two_per_second : RateLimitConfig := {| MaxRequests := 2; Window := second |}.
Definition sample_configs : gmap string RateLimitConfig := {[ "api" := two_per_second ]}.

(** Five requests a tenth of a second apart and one after a second. *)
Definition sample_times : list Z :=
  [1000000000; 1100000000; 1200000000; 1300000000; 1400000000; 2050000000].

Example sample_granted :
  (serve_all sample_configs "api" "u" sample_times [] (quiet no_keys)).1 =
  [1000000000; 1100000000; 2050000000].
Proof. by vm_compute. Qed.

Lemma rate_limit_holds_witness :
  exists granted rd', serve_all sample_configs "api" "u" sample_times [] (quiet no_keys) =
      (granted, quiet rd') /\
    forall t, t ∈ granted ->
      Z.of_nat (length (filter (in_window (Window two_per_second) t) granted)) <= 2.
Proof.
  apply (rate_limit_holds sample_configs "api" "u" two_per_second).
  - reflexivity.
  - repeat constructor.
Defined.

Lemma oauth_state_roundtrip_witness :
  exists rd1, StoreOAuthStateWithUser "s" "github" "/" "u" "o" (quiet no_keys) = (Ok tt, quiet rd1) /\
    exists rd2, ValidateOAuthStateWithUser "s" (quiet (set_clock (1000000000 + 60) rd1)) =
      (Ok ("github", "/", "u", "o"), quiet rd2).
Proof.
  destruct (oauth_state_roundtrip "s" "github" "/" "u" "o" no_keys 60 ltac:(lia))
    as (rd1 & E & Hlater & _).
  exists rd1. split; [exact E|]. destruct (Hlater ltac:(reflexivity)) as (rd2 & E2 & _).
  exists rd2. exact E2.
Defined.

(** Requests of one microsecond add one member to the set, so a burst is not limited. *)
Example burst_is_not_limited :
  length (serve_all sample_configs "api" "u" (replicate 10 1000000000) [] (quiet no_keys)).1 = 10%nat.
Proof. by vm_compute. Qed.

(** A failed pipeline grants the request. *)
Example limiter_fails_open :
  rr_Allowed (Allow sample_configs "api" "u" (MkRun no_keys [true])).1 = true.
Proof. by vm_compute. Qed.

(** The header of the limit is what was left before the request, and not the limit. *)
Definition second_request : Redis :=
  tables (Allow sample_configs "api" "u" (quiet no_keys)).2.
Example limit_header_counts_down :
  let middleware := RateLimitMiddleware (H := unary_uuid) sample_configs "api" "u" None None in
  (match (middleware (quiet no_keys)).1 with Pass limit _ _ => limit | _ => 0 end,
   match (middleware (quiet (set_clock 1100000000 second_request))).1 with
   | Pass limit _ _ => limit | _ => 0 end) = (2, 1).
Proof. by vm_compute. Qed.

(** Two validations of one state whose reads come before the deletions both succeed. *)
Definition stored_state : Redis :=
  tables (StoreOAuthStateWithUser "s" "github" "/" "u" "o" (quiet no_keys)).2.
Example state_consumed_twice :
  let race : DB Redis _ :=
    v1 ← read_oauth_state "s";
    v2 ← read_oauth_state "s";
    match v1, v2 with
    | Ok v1, Ok v2 =>
        a ← consume_oauth_state "s" v1;
        b ← consume_oauth_state "s" v2;
        mret (Some (a, b))
    | _, _ => mret None
    end in
  (race (quiet stored_state)).1 =
  Some (Ok ("github", "/", "u", "o"), Ok ("github", "/", "u", "o")).
Proof. by vm_compute. Qed.

(** The error of the deletion is dropped: the state can be used again. *)
Example failed_deletion_keeps_state :
  let '(first, r) := ValidateOAuthStateWithUser "s" (MkRun stored_state [false; true]) in
  (first, (ValidateOAuthStateWithUser "s" r).1) =
  (Ok ("github", "/", "u", "o"), Ok ("github", "/", "u", "o")).
Proof. by vm_compute. Qed.
