(* ===== verification/Hub.v ===== *)
(** * The websocket hub ([internal/ws/hub.go])

    Every goroutine of the package is a part of one state machine: the hub's [run], one
    subscriber per connection ([Subscribe...] followed by [WritePump]), and any number of
    broadcasts.  An [Action] is what one of them does between two points where others can run,
    and [act] is [None] where the goroutine has to wait: a full channel, a lock that is taken.
    The inner maps of subscribers are shared objects: a broadcast keeps the object it found
    while the registry moves on.  A panic ends the process.

    Events are kept as Go values: JSON is left out, apart from metadata that cannot be
    marshalled.  What a connection was sent is the list [cl_written]; the log [hb_log] of all
    that was published is not part of the program. *)

From Stdlib Require Import ZArith Lia String.
From stdpp Require Import base list gmap strings.
From S2P Require Import Prelude.
Local Open Scope string_scope.

(** ** Events *)

(** Metadata is its JSON text, if it has one; the zero time is [None]. *)
Record ProgressEvent := {
  pe_ReviewID : UUID; pe_Step : string; pe_StepIndex : Z; pe_TotalStep : Z; pe_Status : string;
  pe_Message : string; pe_Metadata : option string; pe_Timestamp : option Z
}.

Record IndexProgressEvent := {
  ie_Type : string; ie_RepoID : string; ie_JobID : string; ie_State : string; ie_Progress : Z;
  ie_Phase : string; ie_Message : string; ie_FilesProcessed : Z; ie_FilesTotal : Z;
  ie_CurrentFile : string; ie_ETASeconds : Z; ie_Error : string; ie_Timestamp : option Z
}.

Record PREmbedProgressEvent := {
  me_Type : string; me_RepoID : string; me_PRNumber : Z; me_PRID : string; me_State : string;
  me_Progress : Z; me_Phase : string; me_Message : string; me_FilesProcessed : Z;
  me_FilesTotal : Z; me_CurrentFile : string; me_ETASeconds : Z; me_Error : string;
  me_Timestamp : option Z
}.

Record SwarmEvent := {
  se_Type : string; se_TaskID : string; se_AgentID : string; se_Event : string;
  se_Data : option string; se_Timestamp : option Z
}.

Inductive Message :=
  | MReview (e : ProgressEvent)
  | MIndex (e : IndexProgressEvent)
  | MEmbed (e : PREmbedProgressEvent)
  | MSwarm (e : SwarmEvent)
  | MMetrics (data : string).

#[export] Instance ProgressEvent_eq_dec : EqDecision ProgressEvent.
Proof. solve_decision. Defined.
#[export] Instance IndexProgressEvent_eq_dec : EqDecision IndexProgressEvent.
Proof. solve_decision. Defined.
#[export] Instance PREmbedProgressEvent_eq_dec : EqDecision PREmbedProgressEvent.
Proof. solve_decision. Defined.
#[export] Instance SwarmEvent_eq_dec : EqDecision SwarmEvent.
Proof. solve_decision. Defined.
#[export] Instance Message_eq_dec : EqDecision Message.
Proof. solve_decision. Defined.

(** ** Clients and the hub *)

Definition sendBufSize : nat := 64.
Definition queueSize : nat := 32.
Definition swarmHistoryMax : nat := 200.

(** Where the goroutine of a subscriber is. *)
Inductive Pc :=
  | Registering
  | ReadingHistory
  | Replaying (l : list Message)
  | Selecting
  | Draining (n : nat)
  | Writing (drain : option nat) (m : Message)
  | Leaving
  | Left.

Record Client := {
  cl_reviewID : UUID;
  cl_indexRepoID : string;
  cl_embedRepoID : string;
  cl_swarmTaskID : string;
  cl_metrics : bool;
  cl_send : list Message;
  cl_closed : bool;
  cl_pc : Pc;
  cl_written : list Message
}.

Inductive LogEntry := Published (m : Message) | Cleared (taskID : string).

Record Hub := {
  hb_clients : gmap nat Client;
  hb_sets : gmap nat (gset nat);
  hb_reviews : gmap UUID nat;
  hb_indexes : gmap string nat;
  hb_prEmbeds : gmap string nat;
  hb_swarm : gmap string nat;
  hb_metrics : nat;
  hb_swarmHistory : gmap string (list Message);
  hb_register : list nat;
  hb_unregister : list nat;
  hb_done : bool;
  hb_running : bool;
  (** broadcasts after their first section, and those in their loop under the read lock *)
  hb_found : list (nat * Message);
  hb_loops : list (gset nat * Message);
  hb_panic : option string;
  hb_log : list LogEntry
}.

Definition NewHub : Hub := {|
  hb_clients := ∅; hb_sets := {[ 0 := ∅ ]}; hb_reviews := ∅; hb_indexes := ∅; hb_prEmbeds := ∅;
  hb_swarm := ∅; hb_metrics := 0; hb_swarmHistory := ∅; hb_register := []; hb_unregister := [];
  hb_done := false; hb_running := true; hb_found := []; hb_loops := []; hb_panic := None;
  hb_log := [] |}.

Definition set_clients (f : gmap nat Client -> gmap nat Client) (h : Hub) : Hub := {|
  hb_clients := f (hb_clients h); hb_sets := hb_sets h; hb_reviews := hb_reviews h;
  hb_indexes := hb_indexes h; hb_prEmbeds := hb_prEmbeds h; hb_swarm := hb_swarm h;
  hb_metrics := hb_metrics h; hb_swarmHistory := hb_swarmHistory h;
  hb_register := hb_register h; hb_unregister := hb_unregister h; hb_done := hb_done h;
  hb_running := hb_running h; hb_found := hb_found h; hb_loops := hb_loops h;
  hb_panic := hb_panic h; hb_log := hb_log h |}.

Definition set_sets (f : gmap nat (gset nat) -> gmap nat (gset nat)) (h : Hub) : Hub := {|
  hb_clients := hb_clients h; hb_sets := f (hb_sets h); hb_reviews := hb_reviews h;
  hb_indexes := hb_indexes h; hb_prEmbeds := hb_prEmbeds h; hb_swarm := hb_swarm h;
  hb_metrics := hb_metrics h; hb_swarmHistory := hb_swarmHistory h;
  hb_register := hb_register h; hb_unregister := hb_unregister h; hb_done := hb_done h;
  hb_running := hb_running h; hb_found := hb_found h; hb_loops := hb_loops h;
  hb_panic := hb_panic h; hb_log := hb_log h |}.

Definition set_registry (rv : gmap UUID nat) (ix em sw : gmap string nat) (mt : nat) (h : Hub)
    : Hub := {|
  hb_clients := hb_clients h; hb_sets := hb_sets h; hb_reviews := rv;
  hb_indexes := ix; hb_prEmbeds := em; hb_swarm := sw;
  hb_metrics := mt; hb_swarmHistory := hb_swarmHistory h;
  hb_register := hb_register h; hb_unregister := hb_unregister h; hb_done := hb_done h;
  hb_running := hb_running h; hb_found := hb_found h; hb_loops := hb_loops h;
  hb_panic := hb_panic h; hb_log := hb_log h |}.

Definition set_history (f : gmap string (list Message) -> gmap string (list Message))
    (entry : LogEntry) (h : Hub) : Hub := {|
  hb_clients := hb_clients h; hb_sets := hb_sets h; hb_reviews := hb_reviews h;
  hb_indexes := hb_indexes h; hb_prEmbeds := hb_prEmbeds h; hb_swarm := hb_swarm h;
  hb_metrics := hb_metrics h; hb_swarmHistory := f (hb_swarmHistory h);
  hb_register := hb_register h; hb_unregister := hb_unregister h; hb_done := hb_done h;
  hb_running := hb_running h; hb_found := hb_found h; hb_loops := hb_loops h;
  hb_panic := hb_panic h; hb_log := hb_log h ++ [entry] |}.

Definition set_queues (r u : list nat) (h : Hub) : Hub := {|
  hb_clients := hb_clients h; hb_sets := hb_sets h; hb_reviews := hb_reviews h;
  hb_indexes := hb_indexes h; hb_prEmbeds := hb_prEmbeds h; hb_swarm := hb_swarm h;
  hb_metrics := hb_metrics h; hb_swarmHistory := hb_swarmHistory h;
  hb_register := r; hb_unregister := u; hb_done := hb_done h;
  hb_running := hb_running h; hb_found := hb_found h; hb_loops := hb_loops h;
  hb_panic := hb_panic h; hb_log := hb_log h |}.

Definition set_run (d r : bool) (h : Hub) : Hub := {|
  hb_clients := hb_clients h; hb_sets := hb_sets h; hb_reviews := hb_reviews h;
  hb_indexes := hb_indexes h; hb_prEmbeds := hb_prEmbeds h; hb_swarm := hb_swarm h;
  hb_metrics := hb_metrics h; hb_swarmHistory := hb_swarmHistory h;
  hb_register := hb_register h; hb_unregister := hb_unregister h; hb_done := d;
  hb_running := r; hb_found := hb_found h; hb_loops := hb_loops h;
  hb_panic := hb_panic h; hb_log := hb_log h |}.

Definition set_broadcasts (found : list (nat * Message)) (loops : list (gset nat * Message))
    (h : Hub) : Hub := {|
  hb_clients := hb_clients h; hb_sets := hb_sets h; hb_reviews := hb_reviews h;
  hb_indexes := hb_indexes h; hb_prEmbeds := hb_prEmbeds h; hb_swarm := hb_swarm h;
  hb_metrics := hb_metrics h; hb_swarmHistory := hb_swarmHistory h;
  hb_register := hb_register h; hb_unregister := hb_unregister h; hb_done := hb_done h;
  hb_running := hb_running h; hb_found := found; hb_loops := loops;
  hb_panic := hb_panic h; hb_log := hb_log h |}.

Definition panic (what : string) (h : Hub) : Hub := {|
  hb_clients := hb_clients h; hb_sets := hb_sets h; hb_reviews := hb_reviews h;
  hb_indexes := hb_indexes h; hb_prEmbeds := hb_prEmbeds h; hb_swarm := hb_swarm h;
  hb_metrics := hb_metrics h; hb_swarmHistory := hb_swarmHistory h;
  hb_register := hb_register h; hb_unregister := hb_unregister h; hb_done := hb_done h;
  hb_running := hb_running h; hb_found := hb_found h; hb_loops := hb_loops h;
  hb_panic := Some what; hb_log := hb_log h |}.

Definition with_send (send : list Message) (c : Client) : Client := {|
  cl_reviewID := cl_reviewID c; cl_indexRepoID := cl_indexRepoID c;
  cl_embedRepoID := cl_embedRepoID c; cl_swarmTaskID := cl_swarmTaskID c;
  cl_metrics := cl_metrics c; cl_send := send; cl_closed := cl_closed c; cl_pc := cl_pc c;
  cl_written := cl_written c |}.
Definition with_closed (c : Client) : Client := {|
  cl_reviewID := cl_reviewID c; cl_indexRepoID := cl_indexRepoID c;
  cl_embedRepoID := cl_embedRepoID c; cl_swarmTaskID := cl_swarmTaskID c;
  cl_metrics := cl_metrics c; cl_send := cl_send c; cl_closed := true; cl_pc := cl_pc c;
  cl_written := cl_written c |}.
Definition with_pc (pc : Pc) (c : Client) : Client := {|
  cl_reviewID := cl_reviewID c; cl_indexRepoID := cl_indexRepoID c;
  cl_embedRepoID := cl_embedRepoID c; cl_swarmTaskID := cl_swarmTaskID c;
  cl_metrics := cl_metrics c; cl_send := cl_send c; cl_closed := cl_closed c; cl_pc := pc;
  cl_written := cl_written c |}.
Definition with_written (m : Message) (c : Client) : Client := {|
  cl_reviewID := cl_reviewID c; cl_indexRepoID := cl_indexRepoID c;
  cl_embedRepoID := cl_embedRepoID c; cl_swarmTaskID := cl_swarmTaskID c;
  cl_metrics := cl_metrics c; cl_send := cl_send c; cl_closed := cl_closed c; cl_pc := cl_pc c;
  cl_written := cl_written c ++ [m] |}.

(** ** The registry *)

(** The key under which a client is registered: the cases of [run]. *)
Inductive Topic :=
  | TReview (reviewID : UUID)
  | TIndex (repoID : string)
  | TEmbed (repoID : string)
  | TSwarm (taskID : string)
  | TMetrics.

#[export] Instance Topic_eq_dec : EqDecision Topic.
Proof. solve_decision. Defined.

Definition topic_of (c : Client) : Topic :=
  if cl_metrics c then TMetrics
  else if negb (String.eqb (cl_swarmTaskID c) "") then TSwarm (cl_swarmTaskID c)
  else if negb (String.eqb (cl_embedRepoID c) "") then TEmbed (cl_embedRepoID c)
  else if negb (String.eqb (cl_indexRepoID c) "") then TIndex (cl_indexRepoID c)
  else TReview (cl_reviewID c).

Definition find_set (t : Topic) (h : Hub) : option nat :=
  match t with
  | TReview id => hb_reviews h !! id
  | TIndex r => hb_indexes h !! r
  | TEmbed r => hb_prEmbeds h !! r
  | TSwarm t => hb_swarm h !! t
  | TMetrics => Some (hb_metrics h)
  end.

(** The object under a key is replaced, or the key deleted. *)
Definition put_set (t : Topic) (l : option nat) (h : Hub) : Hub :=
  let put {K} `{Countable K} (k : K) (m : gmap K nat) := partial_alter (fun _ => l) k m in
  let rv := hb_reviews h in
  match t with
  | TReview id => set_registry (put id rv) (hb_indexes h) (hb_prEmbeds h) (hb_swarm h) (hb_metrics h) h
  | TIndex r => set_registry rv (put r (hb_indexes h)) (hb_prEmbeds h) (hb_swarm h) (hb_metrics h) h
  | TEmbed r => set_registry rv (hb_indexes h) (put r (hb_prEmbeds h)) (hb_swarm h) (hb_metrics h) h
  | TSwarm t => set_registry rv (hb_indexes h) (hb_prEmbeds h) (put t (hb_swarm h)) (hb_metrics h) h
  | TMetrics => h
  end.

Definition set_at (l : nat) (h : Hub) : gset nat := default ∅ (hb_sets h !! l).

(** [make(map[*Client]struct{})] *)
Definition fresh_set (h : Hub) : nat := fresh (dom (hb_sets h)).

(** ** Channels of clients *)

Definition upd (f : Client -> Client) (c : nat) (h : Hub) : Hub := set_clients (alter f c) h.

(** [close(c.send)] *)
Definition close_send (c : nat) (h : Hub) : Hub :=
  match hb_clients h !! c with
  | Some cl => if cl_closed cl then panic "close of closed channel" h else upd with_closed c h
  | None => h
  end.

(** [select { case c.send <- data: default: }] *)
Definition try_send (m : Message) (c : nat) (h : Hub) : Hub :=
  match hb_clients h !! c with
  | Some cl =>
      if cl_closed cl then panic "send on closed channel" h
      else if (List.length (cl_send cl) <? sendBufSize)%nat
      then upd (with_send (cl_send cl ++ [m])) c h
      else h
  | None => h
  end.

Definition send_all (m : Message) (cs : list nat) (h : Hub) : Hub :=
  foldl (fun h c => try_send m c h) h cs.

(** ** [run] *)

(** [case c := <-h.register] *)
Definition run_register (c : nat) (h : Hub) : Hub :=
  match hb_clients h !! c with
  | Some cl =>
      match find_set (topic_of cl) h with
      | Some l => set_sets (<[l := {[ c ]} ∪ set_at l h]>) h
      | None =>
          let l := fresh_set h in
          put_set (topic_of cl) (Some l) (set_sets (<[l := {[ c ]}]>) h)
      end
  | None => h
  end.

(** [case c := <-h.unregister] *)
Definition run_unregister (c : nat) (h : Hub) : Hub :=
  match hb_clients h !! c with
  | Some cl =>
      let h' :=
        match find_set (topic_of cl) h with
        | Some l =>
            let rest := set_at l h ∖ {[ c ]} in
            let h' := set_sets (<[l := rest]>) h in
            if decide (rest = ∅) then put_set (topic_of cl) None h' else h'
        | None => h
        end in
      close_send c h'
  | None => h
  end.

(** [case <-h.done]: the clients in the five maps. *)
Definition values {K} `{Countable K} (m : gmap K nat) (h : Hub) : list nat :=
  l ← (map_to_list m).*2; elements (set_at l h).

Definition run_done (h : Hub) : Hub :=
  let cs := (values (hb_reviews h) h ++ values (hb_indexes h) h ++ values (hb_prEmbeds h) h ++
             values (hb_swarm h) h ++ elements (set_at (hb_metrics h) h))%list in
  let h' := foldl (fun h c => close_send c h) h cs in
  let l := fresh_set h' in
  set_run (hb_done h') false (set_registry ∅ ∅ ∅ ∅ l (set_sets (<[l := ∅]>) h')).

Definition Stop (h : Hub) : Hub :=
  if hb_done h then panic "close of closed channel" h else set_run true (hb_running h) h.

(** ** Subscribers *)

Definition new_client (reviewID : UUID) (indexRepoID embedRepoID swarmTaskID : string)
    (metrics : bool) : Client := {|
  cl_reviewID := reviewID; cl_indexRepoID := indexRepoID; cl_embedRepoID := embedRepoID;
  cl_swarmTaskID := swarmTaskID; cl_metrics := metrics; cl_send := []; cl_closed := false;
  cl_pc := Registering; cl_written := [] |}.

Definition Subscribe (reviewID : UUID) : Client := new_client reviewID "" "" "" false.
Definition SubscribeIndex (repoID : string) : Client := new_client 0%N repoID "" "" false.
Definition SubscribePREmbed (repoID : string) : Client := new_client 0%N "" repoID "" false.
Definition SubscribeSwarm (taskID : string) : Client :=
  new_client 0%N "" "" (if String.eqb taskID "" then "*" else taskID) false.
Definition SubscribeMetrics : Client := new_client 0%N "" "" "" true.

Inductive Subscription :=
  | OnReview (reviewID : UUID)
  | OnIndex (repoID : string)
  | OnPREmbed (repoID : string)
  | OnSwarm (taskID : string)
  | OnMetrics.

Definition client_of (s : Subscription) : Client :=
  match s with
  | OnReview id => Subscribe id
  | OnIndex r => SubscribeIndex r
  | OnPREmbed r => SubscribePREmbed r
  | OnSwarm t => SubscribeSwarm t
  | OnMetrics => SubscribeMetrics
  end.

(** After [h.register <- c]: a subscriber of one task goes on to the history. *)
Definition after_register (c : Client) : Pc :=
  if String.eqb (cl_swarmTaskID c) "" || String.eqb (cl_swarmTaskID c) "*" then Selecting
  else ReadingHistory.

(** ** Broadcasts *)

Definition stamp (now : Z) (t : option Z) : option Z :=
  match t with None => Some now | Some _ => t end.

Definition review_event (now : Z) (reviewID : UUID) (e : ProgressEvent) : ProgressEvent := {|
  pe_ReviewID := reviewID; pe_Step := pe_Step e; pe_StepIndex := pe_StepIndex e;
  pe_TotalStep := pe_TotalStep e; pe_Status := pe_Status e; pe_Message := pe_Message e;
  pe_Metadata := pe_Metadata e; pe_Timestamp := stamp now (pe_Timestamp e) |}.

Definition index_event (now : Z) (repoID : string) (e : IndexProgressEvent)
    : IndexProgressEvent := {|
  ie_Type := "index_progress"; ie_RepoID := repoID; ie_JobID := ie_JobID e;
  ie_State := ie_State e; ie_Progress := ie_Progress e; ie_Phase := ie_Phase e;
  ie_Message := ie_Message e; ie_FilesProcessed := ie_FilesProcessed e;
  ie_FilesTotal := ie_FilesTotal e; ie_CurrentFile := ie_CurrentFile e;
  ie_ETASeconds := ie_ETASeconds e; ie_Error := ie_Error e;
  ie_Timestamp := stamp now (ie_Timestamp e) |}.

Definition embed_event (now : Z) (repoID : string) (e : PREmbedProgressEvent)
    : PREmbedProgressEvent := {|
  me_Type := "pr_embed_progress"; me_RepoID := repoID; me_PRNumber := me_PRNumber e;
  me_PRID := me_PRID e; me_State := me_State e; me_Progress := me_Progress e;
  me_Phase := me_Phase e; me_Message := me_Message e;
  me_FilesProcessed := me_FilesProcessed e; me_FilesTotal := me_FilesTotal e;
  me_CurrentFile := me_CurrentFile e; me_ETASeconds := me_ETASeconds e;
  me_Error := me_Error e; me_Timestamp := stamp now (me_Timestamp e) |}.

Definition swarm_event (now : Z) (e : SwarmEvent) : SwarmEvent := {|
  se_Type := se_Type e; se_TaskID := se_TaskID e; se_AgentID := se_AgentID e;
  se_Event := se_Event e; se_Data := se_Data e; se_Timestamp := stamp now (se_Timestamp e) |}.

(** The first section of a broadcast: the object is looked up. *)
Definition look_up (t : Topic) (m : Message) (h : Hub) : Hub :=
  let h := set_history id (Published m) h in
  match find_set t h with
  | Some l =>
      if decide (set_at l h = ∅) then h
      else set_broadcasts (hb_found h ++ [(l, m)]) (hb_loops h) h
  | None => h
  end.

Definition Broadcast (now : Z) (reviewID : UUID) (evt : ProgressEvent) (h : Hub) : Hub :=
  match pe_Metadata evt with
  | Some _ => look_up (TReview reviewID) (MReview (review_event now reviewID evt)) h
  | None => h
  end.

Definition BroadcastIndex (now : Z) (repoID : string) (evt : IndexProgressEvent) (h : Hub) : Hub :=
  look_up (TIndex repoID) (MIndex (index_event now repoID evt)) h.

Definition BroadcastPREmbed (now : Z) (repoID : string) (evt : PREmbedProgressEvent) (h : Hub)
    : Hub := look_up (TEmbed repoID) (MEmbed (embed_event now repoID evt)) h.

(** The history keeps the last events: the oldest makes room. *)
Definition remember (m : Message) (hist : list Message) : list Message :=
  (if (swarmHistoryMax <=? List.length hist)%nat then tail hist else hist) ++ [m].

Definition subscribers (taskID : string) (h : Hub) : list nat :=
  match hb_swarm h !! taskID with Some l => elements (set_at l h) | None => [] end.

(** One section under the write lock. *)
Definition BroadcastSwarm (now : Z) (evt : SwarmEvent) (h : Hub) : Hub :=
  let evt := swarm_event now evt in
  match se_Data evt with
  | None => h
  | Some _ =>
      let m := MSwarm evt in
      if String.eqb (se_TaskID evt) ""
      then let h := set_history id (Published m) h in send_all m (subscribers "*" h) h
      else
        let h := set_history
          (fun hist => <[se_TaskID evt := remember m (default [] (hist !! se_TaskID evt))]> hist)
          (Published m) h in
        let h := send_all m (subscribers (se_TaskID evt) h) h in
        send_all m (subscribers "*" h) h
  end.

Definition BroadcastMetrics (data : string) (h : Hub) : Hub :=
  let h := set_history id (Published (MMetrics data)) h in
  set_broadcasts (hb_found h) (hb_loops h ++ [(set_at (hb_metrics h) h, MMetrics data)]) h.

Definition ClearSwarmHistory (taskID : string) (h : Hub) : Hub :=
  set_history (delete taskID) (Cleared taskID) h.

Definition watched (t : Topic) (h : Hub) : bool :=
  match find_set t h with Some l => negb (bool_decide (set_at l h = ∅)) | None => false end.
Definition HasSubscribers (reviewID : UUID) : Hub -> bool := watched (TReview reviewID).
Definition HasIndexSubscribers (repoID : string) : Hub -> bool := watched (TIndex repoID).
Definition HasPREmbedSubscribers (repoID : string) : Hub -> bool := watched (TEmbed repoID).
Definition HasSwarmSubscribers (taskID : string) (h : Hub) : bool :=
  watched (TSwarm taskID) h || watched (TSwarm "*") h.
Definition HasMetricsSubscribers : Hub -> bool := watched TMetrics.

(** ** Steps of the goroutines *)

Inductive Action :=
  (** a new connection, and its goroutine *)
  | ASubscribe (s : Subscription)
  | ARegister (c : nat)
  | AReadHistory (c : nat)
  | AReplay (c : nat)
  | AReceive (c : nat)
  | AWrite (c : nat) (success : bool)
  | ADisconnect (c : nat)
  | ALeave (c : nat)
  (** the hub *)
  | ARunRegister
  | ARunUnregister
  | ARunDone
  | AStop
  (** the program *)
  | ABroadcast (now : Z) (reviewID : UUID) (evt : ProgressEvent)
  | ABroadcastIndex (now : Z) (repoID : string) (evt : IndexProgressEvent)
  | ABroadcastPREmbed (now : Z) (repoID : string) (evt : PREmbedProgressEvent)
  | ABroadcastSwarm (now : Z) (evt : SwarmEvent)
  | ABroadcastMetrics (data : string)
  | AClearSwarmHistory (taskID : string)
  | ALoop (i : nat)
  | ASend (i : nat) (c : nat)
  | AEnd (i : nat).

(** No broadcast holds the read lock. *)
Definition unlocked (h : Hub) : bool := match hb_loops h with [] => true | _ => false end.

Definition guard_on (b : bool) (h : Hub) : option Hub := if b then Some h else None.

Definition client_step (c : nat) (f : Client -> option Hub) (h : Hub) : option Hub :=
  match hb_clients h !! c with Some cl => f cl | None => None end.

(** [h.register <- c] *)
Definition step_register (c : nat) (h : Hub) : option Hub :=
  client_step c (fun cl =>
    match cl_pc cl with
    | Registering =>
        guard_on (List.length (hb_register h) <? queueSize)%nat
          (upd (with_pc (after_register cl)) c
             (set_queues (hb_register h ++ [c]) (hb_unregister h) h))
    | _ => None
    end) h.

Definition step_read_history (c : nat) (h : Hub) : option Hub :=
  client_step c (fun cl =>
    match cl_pc cl with
    | ReadingHistory =>
        Some (upd (with_pc (Replaying (default [] (hb_swarmHistory h !! cl_swarmTaskID cl)))) c h)
    | _ => None
    end) h.

Definition step_replay (c : nat) (h : Hub) : option Hub :=
  client_step c (fun cl =>
    match cl_pc cl with
    | Replaying [] => Some (upd (with_pc Selecting) c h)
    | Replaying (m :: l) => Some (try_send m c (upd (with_pc (Replaying l)) c h))
    | _ => None
    end) h.

(** *** [WritePump] *)

(** [msg, ok := <-c.send], in the [select] or in the loop that drains: it waits while the
    channel is empty and open. *)
Definition receive (c : nat) (drain : option nat) (cl : Client) (h : Hub) : option Hub :=
  match cl_send cl with
  | m :: rest => Some (upd (fun cl => with_pc (Writing drain m) (with_send rest cl)) c h)
  | [] => if cl_closed cl then Some (upd (with_pc Leaving) c h) else None
  end.

Definition step_receive (c : nat) (h : Hub) : option Hub :=
  client_step c (fun cl =>
    match cl_pc cl with
    | Selecting | Draining O => receive c None cl h
    | Draining (S n) => receive c (Some n) cl h
    | _ => None
    end) h.

(** [c.conn.Write], and after the first message of a burst [n := len(c.send)]. *)
Definition step_write (c : nat) (success : bool) (h : Hub) : option Hub :=
  client_step c (fun cl =>
    match cl_pc cl with
    | Writing drain m =>
        if success then
          let n := match drain with None => List.length (cl_send cl) | Some n => n end in
          Some (upd (fun cl => with_pc (Draining n) (with_written m cl)) c h)
        else Some (upd (with_pc Leaving) c h)
    | _ => None
    end) h.

(** [case <-closeCtx.Done()] and [case <-ctx.Done()] *)
Definition step_disconnect (c : nat) (h : Hub) : option Hub :=
  client_step c (fun cl =>
    match cl_pc cl with
    | Selecting | Draining O => Some (upd (with_pc Leaving) c h)
    | _ => None
    end) h.

(** [Unsubscribe]: [h.unregister <- c] *)
Definition step_leave (c : nat) (h : Hub) : option Hub :=
  client_step c (fun cl =>
    match cl_pc cl with
    | Leaving =>
        guard_on (List.length (hb_unregister h) <? queueSize)%nat
          (upd (with_pc Left) c (set_queues (hb_register h) (hb_unregister h ++ [c]) h))
    | _ => None
    end) h.

(** *** [run] and the broadcasts *)

Definition step_run_register (h : Hub) : option Hub :=
  match hb_register h with
  | c :: rest => guard_on (hb_running h && unlocked h)
                   (run_register c (set_queues rest (hb_unregister h) h))
  | [] => None
  end.

Definition step_run_unregister (h : Hub) : option Hub :=
  match hb_unregister h with
  | c :: rest => guard_on (hb_running h && unlocked h)
                   (run_unregister c (set_queues (hb_register h) rest h))
  | [] => None
  end.

(** The second section of a broadcast begins: the loop is over what is in the object now. *)
Definition step_loop (i : nat) (h : Hub) : option Hub :=
  match hb_found h !! i with
  | Some (l, m) => Some (set_broadcasts (delete i (hb_found h))
                           (hb_loops h ++ [(set_at l h, m)]) h)
  | None => None
  end.

Definition step_send (i c : nat) (h : Hub) : option Hub :=
  match hb_loops h !! i with
  | Some (cs, m) =>
      if decide (c ∈ cs)
      then Some (try_send m c (set_broadcasts (hb_found h) (<[i := (cs ∖ {[ c ]}, m)]> (hb_loops h)) h))
      else None
  | None => None
  end.

Definition step_end (i : nat) (h : Hub) : option Hub :=
  match hb_loops h !! i with
  | Some (cs, _) =>
      if decide (cs = ∅) then Some (set_broadcasts (hb_found h) (delete i (hb_loops h)) h) else None
  | None => None
  end.

Definition act (a : Action) (h : Hub) : option Hub :=
  if hb_panic h then None
  else
    match a with
    | ASubscribe s => Some (set_clients <[fresh (dom (hb_clients h)) := client_of s]> h)
    | ARegister c => step_register c h
    | AReadHistory c => step_read_history c h
    | AReplay c => step_replay c h
    | AReceive c => step_receive c h
    | AWrite c success => step_write c success h
    | ADisconnect c => step_disconnect c h
    | ALeave c => step_leave c h
    | ARunRegister => step_run_register h
    | ARunUnregister => step_run_unregister h
    | ARunDone => guard_on (hb_done h && hb_running h && unlocked h) (run_done h)
    | AStop => Some (Stop h)
    | ABroadcast now id evt => Some (Broadcast now id evt h)
    | ABroadcastIndex now r evt => Some (BroadcastIndex now r evt h)
    | ABroadcastPREmbed now r evt => Some (BroadcastPREmbed now r evt h)
    | ABroadcastSwarm now evt => guard_on (unlocked h) (BroadcastSwarm now evt h)
    | ABroadcastMetrics data => Some (BroadcastMetrics data h)
    | AClearSwarmHistory t => guard_on (unlocked h) (ClearSwarmHistory t h)
    | ALoop i => step_loop i h
    | ASend i c => step_send i c h
    | AEnd i => step_end i h
    end.

Inductive reachable (allowed : Action -> Hub -> Prop) : Hub -> Prop :=
  | reach_new : reachable allowed NewHub
  | reach_step a h h' :
      reachable allowed h -> allowed a h -> act a h = Some h' -> reachable allowed h'.

(** A run of actions, for the evaluation of examples. *)
Fixpoint acts (l : list Action) (h : Hub) : option Hub :=
  match l with
  | [] => Some h
  | a :: l => h ← act a h; acts l h
  end.
