(* ===== verification/HubSafety.v ===== *)
(** * The websocket hub: theorems

    What holds in every reachable state: the bounds of channels and histories, that
    subscribers only get what was published on their topic, and that the history is the last
    events of a task.  That no goroutine panics holds only while the hub is not stopped and
    takes no departure before the arrival of the same client; the examples show the panics
    otherwise, and the events that a subscriber loses or gets twice. *)

From Stdlib Require Import ZArith Lia String.
From stdpp Require Import base list gmap strings.
From S2P Require Import Prelude Hub.
Local Open Scope string_scope.

Definition any : Action -> Hub -> Prop := fun _ _ => True.

(** ** The registry *)

Lemma find_put t t' l h :
  t <> TMetrics -> find_set t' (put_set t l h) = if decide (t = t') then l else find_set t' h.
Proof.
  intros Ht. case_decide as E.
  - subst t'. destruct t; cbn; try done; apply lookup_partial_alter_eq.
  - destruct t, t'; cbn; try done; apply lookup_partial_alter_ne; congruence.
Qed.

(** Only the registry changes. *)
Lemma put_set_frame t l h :
  hb_clients (put_set t l h) = hb_clients h /\ hb_sets (put_set t l h) = hb_sets h /\
  hb_register (put_set t l h) = hb_register h /\ hb_unregister (put_set t l h) = hb_unregister h /\
  hb_done (put_set t l h) = hb_done h /\ hb_running (put_set t l h) = hb_running h /\
  hb_found (put_set t l h) = hb_found h /\ hb_loops (put_set t l h) = hb_loops h /\
  hb_swarmHistory (put_set t l h) = hb_swarmHistory h /\ hb_panic (put_set t l h) = hb_panic h /\
  hb_log (put_set t l h) = hb_log h.
Proof. by destruct t. Qed.

Lemma find_set_sets t f h : find_set t (set_sets f h) = find_set t h.
Proof. by destruct t. Qed.

Lemma set_at_insert l l' s h :
  set_at l' (set_sets <[l := s]> h) = if decide (l = l') then s else set_at l' h.
Proof.
  unfold set_at. cbn. case_decide; subst.
  - by rewrite lookup_insert_eq.
  - by rewrite lookup_insert_ne.
Qed.

Lemma find_set_upd t f c h : find_set t (upd f c h) = find_set t h.
Proof. by destruct t. Qed.

Lemma upd_lookup f c h c' cl :
  hb_clients (upd f c h) !! c' = Some cl ->
  (c' = c /\ exists cl0, hb_clients h !! c = Some cl0 /\ cl = f cl0) \/
  (c' <> c /\ hb_clients h !! c' = Some cl).
Proof.
  cbn. rewrite lookup_alter_Some. intros [(-> & cl0 & E & ->)|[Hne E]]; [left; eauto|right].
  by split; [congruence|].
Qed.

Lemma upd_lookup_fwd f c h c' cl :
  hb_clients h !! c' = Some cl ->
  hb_clients (upd f c h) !! c' = Some (if decide (c' = c) then f cl else cl).
Proof.
  intros E. cbn. case_decide; subst.
  - by rewrite lookup_alter_eq, E.
  - by rewrite lookup_alter_ne.
Qed.

(** ** What subscribers get *)

(** The message is published on the topic. *)
Definition on_topic (m : Message) (t : Topic) : Prop :=
  match m, t with
  | MReview e, TReview id => pe_ReviewID e = id
  | MIndex e, TIndex r => ie_RepoID e = r
  | MEmbed e, TEmbed r => me_RepoID e = r
  | MSwarm e, TSwarm t => se_TaskID e = t \/ t = "*"
  | MMetrics _, TMetrics => True
  | _, _ => False
  end.

Definition due (log : list LogEntry) (t : Topic) (m : Message) : Prop :=
  on_topic m t /\ Published m ∈ log.

(** What a client was sent, will be sent, or is about to be replayed. *)
Definition in_flight (pc : Pc) : list Message :=
  match pc with Replaying l => l | Writing _ m => [m] | _ => [] end.
Definition held (cl : Client) : list Message := cl_written cl ++ cl_send cl ++ in_flight (cl_pc cl).

Definition client_ok (log : list LogEntry) (cl : Client) : Prop :=
  List.length (cl_send cl) <= sendBufSize /\
  (cl_metrics cl = true -> cl_swarmTaskID cl = "") /\
  forall m, m ∈ held cl -> due log (topic_of cl) m.

(** The events of a task, newest first, since its history was last cleared. *)
Fixpoint uncleared (taskID : string) (newest_first : list LogEntry) : list LogEntry :=
  match newest_first with
  | [] => []
  | Cleared t :: l => if String.eqb t taskID then [] else uncleared taskID l
  | e :: l => e :: uncleared taskID l
  end.
Definition task_event (taskID : string) (e : LogEntry) : option Message :=
  match e with
  | Published (MSwarm evt) => if String.eqb (se_TaskID evt) taskID then Some (MSwarm evt) else None
  | _ => None
  end.
Definition task_events (taskID : string) (log : list LogEntry) : list Message :=
  omap (task_event taskID) (uncleared taskID (reverse log)).
Definition recent (taskID : string) (log : list LogEntry) : list Message :=
  reverse (take swarmHistoryMax (task_events taskID log)).

(** The invariant, for an assignment of topics to the objects that were ever in the registry. *)
Record hub_inv (owner : gmap nat Topic) (h : Hub) : Prop := {
  i_clients : map_Forall (fun _ => client_ok (hb_log h)) (hb_clients h);
  i_queues : List.length (hb_register h) <= queueSize /\ List.length (hb_unregister h) <= queueSize;
  i_sets : forall l c, c ∈ set_at l h -> exists cl,
    hb_clients h !! c = Some cl /\ owner !! l = Some (topic_of cl);
  i_registry : forall t l, find_set t h = Some l -> owner !! l = Some t;
  i_owner : forall l, is_Some (owner !! l) -> l ∈ dom (hb_sets h);
  i_found : forall l m, (l, m) ∈ hb_found h -> exists t, owner !! l = Some t /\ due (hb_log h) t m;
  i_loops : forall cs m c, (cs, m) ∈ hb_loops h -> c ∈ cs -> exists cl,
    hb_clients h !! c = Some cl /\ due (hb_log h) (topic_of cl) m;
  i_history : forall t, t <> "" -> default [] (hb_swarmHistory h !! t) = recent t (hb_log h);
  i_no_history : hb_swarmHistory h !! "" = None
}.

(** *** The history *)

Lemma recent_published t m log :
  recent t (log ++ [Published m]) =
  match task_event t (Published m) with
  | Some m => remember m (recent t log)
  | None => recent t log
  end.
Proof.
  unfold recent, task_events. rewrite reverse_app. cbn [reverse rev_append app].
  change (reverse [Published m]) with [Published m]. cbn [app uncleared omap list_omap].
  destruct (task_event t (Published m)) as [m'|]; [|done].
  set (l := omap _ _). unfold remember.
  rewrite length_reverse, length_take.
  change swarmHistoryMax with (S 199). cbn [take]. rewrite reverse_cons. f_equal.
  destruct (Nat.leb_spec (S 199) (Nat.min (S 199) (List.length l))) as [Hle|Hlt].
  - destruct (l !! 199) as [x|] eqn:E; [|apply lookup_ge_None in E; lia].
    by rewrite (take_S_r l 199 x E), reverse_snoc.
  - by rewrite !take_ge by lia.
Qed.

Lemma recent_cleared t t' log :
  recent t (log ++ [Cleared t']) = if String.eqb t' t then [] else recent t log.
Proof.
  unfold recent, task_events. rewrite reverse_app. change (reverse [Cleared t']) with [Cleared t'].
  cbn. by destruct (String.eqb t' t).
Qed.

Lemma uncleared_subset t l e : e ∈ uncleared t l -> e ∈ l.
Proof.
  induction l as [|e' l IH]; [done|]. destruct e'; cbn; [set_solver|].
  destruct (String.eqb _ _); set_solver.
Qed.

Lemma recent_due t log m : m ∈ recent t log -> due log (TSwarm t) m.
Proof.
  unfold recent. rewrite elem_of_reverse. intros Hm.
  apply elem_of_take in Hm as (i & Hm%list_elem_of_lookup_2 & _). apply list_elem_of_omap in Hm as (e & He & Hev).
  apply uncleared_subset in He. rewrite elem_of_reverse in He.
  destruct e as [[]|]; try done. cbn in Hev. destruct (String.eqb_spec (se_TaskID e) t); [|done].
  simplify_eq. split; [by left|done].
Qed.

Lemma recent_length t log : List.length (recent t log) <= swarmHistoryMax.
Proof. unfold recent. rewrite length_reverse, length_take. lia. Qed.

(** *** Every function keeps the invariant *)

Section keeps.
Variable owner : gmap nat Topic.

Lemma due_more log log' t m : log ⊆ log' -> due log t m -> due log' t m.
Proof. intros Hsub [? ?]. split; [done|auto]. Qed.

Lemma inv_upd f c h :
  (forall cl, hb_clients h !! c = Some cl -> topic_of (f cl) = topic_of cl /\
     (client_ok (hb_log h) cl -> client_ok (hb_log h) (f cl))) ->
  hub_inv owner h -> hub_inv owner (upd f c h).
Proof.
  intros Hf [Hc Hq Hs Hr Ho Hfd Hl Hh Hn].
  assert (forall c' cl, hb_clients h !! c' = Some cl ->
    exists cl', hb_clients (upd f c h) !! c' = Some cl' /\ topic_of cl' = topic_of cl) as Hkept.
  { intros c' cl E. rewrite (upd_lookup_fwd _ _ _ _ _ E). eexists. split; [done|].
    case_decide; [|done]. subst. by apply Hf. }
  split; try done.
  - intros c' cl [(-> & cl0 & E & ->)|[_ E]]%upd_lookup; [|by apply (Hc c')].
    apply Hf; [done|]. by apply (Hc c).
  - intros l c' (cl & E & Eo)%Hs. destruct (Hkept _ _ E) as (cl' & E' & Et). exists cl'.
    by rewrite Et.
  - intros cs m c' Hin Hcs. destruct (Hl cs m c' Hin Hcs) as (cl & E & Hd).
    destruct (Hkept _ _ E) as (cl' & E' & Et). exists cl'. by rewrite Et.
Qed.

Lemma inv_client h c cl :
  hub_inv owner h -> hb_clients h !! c = Some cl -> client_ok (hb_log h) cl.
Proof. intros Hi E. by apply (i_clients _ _ Hi c). Qed.

Lemma inv_panic what h : hub_inv owner h -> hub_inv owner (panic what h).
Proof. intros []. by split. Qed.

Lemma inv_close c h : hub_inv owner h -> hub_inv owner (close_send c h).
Proof.
  intros Hi. unfold close_send. destruct (_ !! c); [|done].
  destruct (cl_closed _); [by apply inv_panic|]. by apply inv_upd.
Qed.

Lemma inv_close_all cs h : hub_inv owner h -> hub_inv owner (foldl (fun h c => close_send c h) h cs).
Proof. revert h. induction cs as [|c cs IH]; intros h Hi; [done|]. by apply IH, inv_close. Qed.

Lemma held_with_send m cl x :
  x ∈ held (with_send (cl_send cl ++ [m]) cl) -> x = m \/ x ∈ held cl.
Proof. unfold held. cbn. rewrite !elem_of_app, list_elem_of_singleton. tauto. Qed.

Lemma inv_try_send m c h :
  (forall cl, hb_clients h !! c = Some cl -> due (hb_log h) (topic_of cl) m) ->
  hub_inv owner h -> hub_inv owner (try_send m c h).
Proof.
  intros Hd Hi. unfold try_send. destruct (_ !! c) as [cl|] eqn:E; [|done].
  destruct (cl_closed cl); [by apply inv_panic|].
  destruct (Nat.ltb_spec (List.length (cl_send cl)) sendBufSize) as [Hlt|]; [|done].
  apply inv_upd; [|done]. intros cl' E'. simplify_eq. split; [done|]. intros (Hlen & Hmt & Hheld). split_and!.
  - cbn. rewrite length_app. cbn. lia.
  - exact Hmt.
  - intros x [->|Hx]%held_with_send; [exact (Hd _ eq_refl)|exact (Hheld _ Hx)].
Qed.

(** [try_send] changes neither the log nor topics. *)
Lemma try_send_frame m c h :
  hb_log (try_send m c h) = hb_log h /\
  forall c', topic_of <$> hb_clients (try_send m c h) !! c' = topic_of <$> hb_clients h !! c'.
Proof.
  unfold try_send. destruct (_ !! c) as [cl|] eqn:E; [|done].
  destruct (cl_closed cl); [done|]. destruct (_ <? _)%nat; [|done]. split; [done|].
  intros c'. cbn. destruct (decide (c' = c)) as [->|].
  - by rewrite lookup_alter_eq, E.
  - by rewrite lookup_alter_ne.
Qed.

Lemma inv_send_all m cs h :
  (forall c cl, c ∈ cs -> hb_clients h !! c = Some cl -> due (hb_log h) (topic_of cl) m) ->
  hub_inv owner h -> hub_inv owner (send_all m cs h).
Proof.
  revert h. induction cs as [|c cs IH]; intros h Hd Hi; [done|].
  destruct (try_send_frame m c h) as [El Et]. apply IH.
  - intros c' cl' Hc' E'. rewrite El. specialize (Et c'). rewrite E' in Et. cbn in Et.
    destruct (hb_clients h !! c') as [cl|] eqn:E; [|done]. cbn in Et. injection Et as Et.
    rewrite Et. apply (Hd c'); [by right|done].
  - apply inv_try_send; [|done]. intros cl E. apply (Hd c); [by left|done].
Qed.

Lemma send_all_frame m cs h :
  hb_log (send_all m cs h) = hb_log h /\
  hb_swarm (send_all m cs h) = hb_swarm h /\ hb_sets (send_all m cs h) = hb_sets h.
Proof.
  unfold send_all. revert h. induction cs as [|c cs IH]; intros h; [done|]. cbn.
  destruct (IH (try_send m c h)) as (-> & -> & ->). unfold try_send.
  destruct (_ !! c); [|done]. destruct (cl_closed _); [done|]. by destruct (_ <? _)%nat.
Qed.

(** Queues and the flags of [run]. *)
Lemma inv_queues r u h :
  List.length r <= queueSize -> List.length u <= queueSize ->
  hub_inv owner h -> hub_inv owner (set_queues r u h).
Proof. intros ?? []. by split. Qed.

Lemma inv_run d r h : hub_inv owner h -> hub_inv owner (set_run d r h).
Proof. intros []. by split. Qed.

Lemma inv_new_client s h :
  hub_inv owner h -> hub_inv owner (set_clients <[fresh (dom (hb_clients h)) := client_of s]> h).
Proof.
  intros [Hc Hq Hs Hr Ho Hfd Hl Hh Hn].
  assert (hb_clients h !! fresh (dom (hb_clients h)) = None) as Hnew
    by (apply not_elem_of_dom, is_fresh).
  assert (forall c cl, hb_clients h !! c = Some cl ->
    <[fresh (dom (hb_clients h)) := client_of s]> (hb_clients h) !! c = Some cl) as Hold.
  { intros c cl E. rewrite lookup_insert_ne; [done|]. intros <-. congruence. }
  split; try done.
  - intros c cl. cbn. rewrite lookup_insert_Some. intros [[_ <-]|[_ E]]; [|by apply (Hc c)].
    destruct s; (split; [cbn; lia|]); (split; [done|]); cbn; set_solver.
  - intros l c (cl & E & Eo)%Hs. eauto.
  - intros cs m c Hin Hcs. destruct (Hl cs m c Hin Hcs) as (cl & E & Hd). eauto.
Qed.
End keeps.

(** *** The registry and its objects *)

Definition inv (h : Hub) : Prop := exists owner, hub_inv owner h.

(** An object gets other members, all of its topic. *)
Lemma inv_set owner l t s h :
  owner !! l = Some t ->
  (forall c, c ∈ s -> exists cl, hb_clients h !! c = Some cl /\ topic_of cl = t) ->
  hub_inv owner h -> hub_inv owner (set_sets <[l := s]> h).
Proof.
  intros Ho Hs' [Hc Hq Hs Hr Hdom Hfd Hl Hh Hn]. split; try done.
  - intros l' c. rewrite set_at_insert. case_decide; [subst|by apply Hs].
    intros (cl & E & <-)%Hs'. eauto.
  - intros l' Hl'. cbn. rewrite dom_insert. set_solver.
Qed.

Lemma inv_fresh l t s h owner :
  l ∉ dom (hb_sets h) ->
  (forall c, c ∈ s -> exists cl, hb_clients h !! c = Some cl /\ topic_of cl = t) ->
  hub_inv owner h -> hub_inv (<[l := t]> owner) (set_sets <[l := s]> h).
Proof.
  intros Hnew Hs' Hi. assert (owner !! l = None) as Ho.
  { destruct (owner !! l) as [t0|] eqn:E; [|done]. destruct Hnew. apply (i_owner _ _ Hi). by exists t0. }
  assert (forall l' t', owner !! l' = Some t' -> <[l := t]> owner !! l' = Some t') as Hmore.
  { intros l' t' E. rewrite lookup_insert_ne; [done|]. intros <-. congruence. }
  destruct Hi as [Hc Hq Hs Hr Hdom Hfd Hl Hh Hn]. split; try done.
  - intros l' c. rewrite set_at_insert. case_decide; [subst|].
    + intros (cl & E & <-)%Hs'. exists cl. by rewrite lookup_insert_eq.
    + intros (cl & E & Eo)%Hs. eauto.
  - intros t' l' E. apply Hmore, Hr. by rewrite find_set_sets in E.
  - intros l' Hl'. cbn. rewrite dom_insert. destruct (decide (l = l')); [set_solver|].
    rewrite lookup_insert_ne in Hl' by done. set_solver.
  - intros l' m Hin. destruct (Hfd l' m Hin) as (t' & E & Hd). eauto.
Qed.

Lemma inv_put owner t o h :
  (forall l, o = Some l -> owner !! l = Some t) ->
  hub_inv owner h -> hub_inv owner (put_set t o h).
Proof.
  intros Ho Hi. destruct (decide (t = TMetrics)) as [->|Ht]; [done|].
  pose proof (put_set_frame t o h) as F. destruct_and! F.
  destruct Hi as [Hc Hq Hs Hr Hdom Hfd Hl Hh Hn].
  split; unfold set_at; repeat match goal with E : _ = _ |- _ => rewrite E; clear E end; try done.
  intros t' l. rewrite find_put by done. case_decide; [subst; apply Ho|apply Hr].
Qed.

Lemma fresh_set_new h : fresh_set h ∉ dom (hb_sets h).
Proof. unfold fresh_set. apply is_fresh. Qed.

Lemma inv_run_register c h : inv h -> inv (run_register c h).
Proof.
  intros [owner Hi]. unfold run_register. destruct (_ !! c) as [cl|] eqn:E; [|by exists owner].
  destruct (find_set _ h) as [l|] eqn:El.
  - pose proof (i_registry _ _ Hi _ _ El) as Ho. exists owner.
    apply (inv_set _ _ (topic_of cl)); [done| |done].
    intros c' [->%elem_of_singleton|Hc']%elem_of_union; [eauto|].
    destruct (i_sets _ _ Hi _ _ Hc') as (cl' & E' & Eo). exists cl'. split; [done|congruence].
  - exists (<[fresh_set h := topic_of cl]> owner). apply inv_put.
    + intros l [= <-]. by rewrite lookup_insert_eq.
    + apply inv_fresh; [apply fresh_set_new| |done]. intros c' ->%elem_of_singleton. eauto.
Qed.

Lemma inv_remove owner t l c h :
  find_set t h = Some l -> hub_inv owner h ->
  hub_inv owner (set_sets <[l := set_at l h ∖ {[ c ]}]> h).
Proof.
  intros El Hi. pose proof (i_registry _ _ Hi _ _ El) as Ho. apply (inv_set _ _ t); [done| |done].
  intros c' [Hc' _]%elem_of_difference.
  destruct (i_sets _ _ Hi _ _ Hc') as (cl & E & Eo). exists cl. split; [done|congruence].
Qed.

Lemma inv_run_unregister c h : inv h -> inv (run_unregister c h).
Proof.
  intros [owner Hi]. unfold run_unregister. destruct (_ !! c) as [cl|]; [|by exists owner].
  exists owner. apply inv_close. destruct (find_set _ h) as [l|] eqn:El; [|done].
  pose proof (inv_remove _ _ _ c _ El Hi). case_decide; [|done]. by apply inv_put.
Qed.

Lemma inv_run_done h : inv h -> inv (run_done h).
Proof.
  intros [owner Hi]. unfold run_done. set (h' := foldl _ h _).
  assert (hub_inv owner h') as Hi' by (by apply inv_close_all).
  exists (<[fresh_set h' := TMetrics]> owner). apply inv_run.
  assert (hub_inv (<[fresh_set h' := TMetrics]> owner) (set_sets <[fresh_set h' := ∅]> h'))
    as [Hc Hq Hs Hr Hdom Hfd Hl Hh Hn] by (apply inv_fresh; [apply fresh_set_new|set_solver|done]).
  split; try done. intros [] l; cbn; try done. intros [= <-]. by rewrite lookup_insert_eq.
Qed.

(** *** The log and the broadcasts *)

Lemma client_ok_more log log' cl : log ⊆ log' -> client_ok log cl -> client_ok log' cl.
Proof. intros Hsub (? & ? & Hheld). split_and!; [done..|]. intros m Hm. eapply due_more; eauto. Qed.

Lemma inv_history owner f entry h :
  (forall t, t <> "" -> default [] (f (hb_swarmHistory h) !! t) =
     recent t (hb_log h ++ [entry])) ->
  f (hb_swarmHistory h) !! "" = None ->
  hub_inv owner h -> hub_inv owner (set_history f entry h).
Proof.
  intros Hf Hf0 [Hc Hq Hs Hr Hdom Hfd Hl Hh Hn].
  assert (hb_log h ⊆ (hb_log h ++ [entry])%list) as Hsub by set_solver.
  split; try done.
  - intros c cl E. eapply client_ok_more; [exact Hsub|]. by apply (Hc c).
  - intros l m Hin. destruct (Hfd l m Hin) as (t & E & Hd). exists t.
    split; [done|by eapply due_more].
  - intros cs m c Hin Hcs. destruct (Hl cs m c Hin Hcs) as (cl & E & Hd). exists cl.
    split; [done|by eapply due_more].
Qed.

(** An event that no history takes up. *)
Lemma inv_published owner m h :
  (forall t, t <> "" -> task_event t (Published m) = None) ->
  hub_inv owner h -> hub_inv owner (set_history id (Published m) h).
Proof.
  intros Hm Hi. apply inv_history; [|apply Hi|done].
  intros t Ht. rewrite recent_published, Hm by done. by apply (i_history _ _ Hi).
Qed.

Lemma inv_broadcasts owner found loops h :
  (forall l m, (l, m) ∈ found -> exists t, owner !! l = Some t /\ due (hb_log h) t m) ->
  (forall cs m c, (cs, m) ∈ loops -> c ∈ cs -> exists cl,
     hb_clients h !! c = Some cl /\ due (hb_log h) (topic_of cl) m) ->
  hub_inv owner h -> hub_inv owner (set_broadcasts found loops h).
Proof. intros ?? []. by split. Qed.

Lemma inv_look_up t m h :
  on_topic m t -> (forall t, task_event t (Published m) = None) ->
  inv h -> inv (look_up t m h).
Proof.
  intros Hon Hm [owner Hi]. exists owner. unfold look_up. set (h' := set_history _ _ h).
  assert (hub_inv owner h') as Hi' by (apply inv_published; auto).
  destruct (find_set t h') as [l|] eqn:El; [|done]. case_decide; [done|].
  apply inv_broadcasts; [|apply Hi'|done].
  intros l' m' [Hin|[= -> ->]%list_elem_of_singleton]%elem_of_app; [by apply (i_found _ _ Hi')|].
  exists t. split; [by apply (i_registry _ _ Hi')|]. split; [done|]. cbn. set_solver.
Qed.

(** The members of an object that is found under a topic. *)
Lemma inv_members owner t l c h :
  hub_inv owner h -> owner !! l = Some t -> c ∈ set_at l h ->
  exists cl, hb_clients h !! c = Some cl /\ topic_of cl = t.
Proof.
  intros Hi Ho (cl & E & Eo)%(i_sets _ _ Hi). exists cl. split; [done|congruence].
Qed.

Lemma inv_to_subscribers owner evt t h :
  se_TaskID evt = t \/ t = "*" -> Published (MSwarm evt) ∈ hb_log h ->
  hub_inv owner h -> hub_inv owner (send_all (MSwarm evt) (subscribers t h) h).
Proof.
  intros Ht Hlog Hi. apply inv_send_all; [|done]. intros c cl Hc E. unfold subscribers in Hc.
  destruct (hb_swarm h !! t) as [l|] eqn:El; [|by apply elem_of_nil in Hc].
  apply elem_of_elements in Hc.
  destruct (inv_members owner (TSwarm t) l c h Hi) as (cl' & E' & Et);
    [by apply (i_registry _ _ Hi)|done|]. simplify_eq. rewrite Et. by split.
Qed.

Lemma inv_BroadcastSwarm now evt h : inv h -> inv (BroadcastSwarm now evt h).
Proof.
  intros [owner Hi]. exists owner. unfold BroadcastSwarm. set (e := swarm_event now evt).
  destruct (se_Data e); [|done]. destruct (String.eqb_spec (se_TaskID e) "") as [Ht|Ht].
  - assert (hub_inv owner (set_history id (Published (MSwarm e)) h)).
    { apply inv_published; [|done]. intros t Hne. unfold task_event.
      by destruct (String.eqb_spec (se_TaskID e) t); [congruence|]. }
    apply inv_to_subscribers; [by right|cbn; set_solver|done].
  - set (f := fun hist => <[se_TaskID e := _]> hist). set (h1 := set_history f _ h).
    assert (hub_inv owner h1) as H1.
    { apply inv_history; [| |done].
      - intros t Hne. rewrite recent_published. unfold f, task_event.
        destruct (String.eqb_spec (se_TaskID e) t) as [<-|Hother].
        + by rewrite lookup_insert_eq, (i_history _ _ Hi).
        + rewrite lookup_insert_ne by done. by apply (i_history _ _ Hi).
      - unfold f. rewrite lookup_insert_ne by done. apply Hi. }
    pose proof (send_all_frame (MSwarm e) (subscribers (se_TaskID e) h1) h1) as (El & _).
    apply inv_to_subscribers; [by right| |].
    + rewrite El. cbn. set_solver.
    + apply inv_to_subscribers; [by left|cbn; set_solver|done].
Qed.

(** *** Every action *)

Lemma guard_on_Some b h h' : guard_on b h = Some h' -> b = true /\ h' = h.
Proof. unfold guard_on. destruct b; [|done]. by intros [= ->]. Qed.

Lemma client_step_Some c f h h' :
  client_step c f h = Some h' -> exists cl, hb_clients h !! c = Some cl /\ f cl = Some h'.
Proof. unfold client_step. destruct (_ !! c); [|done]. eauto. Qed.

(** The goroutine moves on and holds no message that it did not hold before. *)
Lemma inv_move c g h :
  (forall cl, hb_clients h !! c = Some cl -> topic_of (g cl) = topic_of cl /\
     cl_metrics (g cl) = cl_metrics cl /\ cl_swarmTaskID (g cl) = cl_swarmTaskID cl /\
     cl_send (g cl) `suffix_of` cl_send cl /\ held (g cl) ⊆ held cl) ->
  inv h -> inv (upd g c h).
Proof.
  intros Hg [owner Hi]. exists owner. apply inv_upd; [|done]. intros cl E.
  destruct (Hg cl E) as (Et & Em & Es & Hs & Hsub). split; [done|]. intros (Hlen & Hmt & Hheld).
  split_and!.
  - apply suffix_length in Hs. lia.
  - by rewrite Em, Es.
  - intros m Hm. rewrite Et. apply Hheld. by apply Hsub.
Qed.

Lemma held_elem x cl :
  x ∈ held cl <-> x ∈ cl_written cl \/ x ∈ cl_send cl \/ x ∈ in_flight (cl_pc cl).
Proof. unfold held. by rewrite !elem_of_app. Qed.

Lemma inv_step_register c h h' : step_register c h = Some h' -> inv h -> inv h'.
Proof.
  intros (cl & E & Hs)%client_step_Some Hi. destruct (cl_pc cl) eqn:Epc; try done.
  apply guard_on_Some in Hs as [Hroom%Nat.ltb_lt ->]. apply inv_move.
  - intros cl' E'. simplify_eq. split_and!; [done..|]. intros x. rewrite !held_elem. cbn.
    unfold after_register. destruct (_ || _); cbn; set_solver.
  - destruct Hi as [owner Hi]. exists owner. apply inv_queues; [|apply Hi|done].
    rewrite length_app. cbn. lia.
Qed.

Lemma inv_step_read_history c h h' : step_read_history c h = Some h' -> inv h -> inv h'.
Proof.
  intros (cl & E & Hs)%client_step_Some [owner Hi]. destruct (cl_pc cl) eqn:Epc; simplify_eq.
  exists owner. apply inv_upd; [|done]. intros cl' E'. simplify_eq. split; [done|].
  intros (Hlen & Hmt & Hheld). split_and!; [done..|]. intros x. rewrite held_elem. cbn.
  intros [Hx|[Hx|Hx]]; [by apply Hheld, held_elem; auto..|].
  destruct (decide (cl_swarmTaskID cl = "")) as [Ht|Ht].
  { rewrite Ht, (i_no_history _ _ Hi) in Hx. by apply elem_of_nil in Hx. }
  rewrite (i_history _ _ Hi) in Hx by done. apply recent_due in Hx.
  assert (topic_of cl = TSwarm (cl_swarmTaskID cl)) as Et.
  { unfold topic_of. destruct (cl_metrics cl); [by destruct Ht, Hmt|].
    by rewrite (proj2 (String.eqb_neq _ _) Ht). }
  change (topic_of (with_pc _ cl)) with (topic_of cl). by rewrite Et.
Qed.

Lemma inv_step_replay c h h' : step_replay c h = Some h' -> inv h -> inv h'.
Proof.
  intros (cl & E & Hs)%client_step_Some Hi. destruct (cl_pc cl) as [| |[|m l]| | | | |] eqn:Epc; simplify_eq.
  { apply inv_move; [|done]. intros cl' E'. simplify_eq. split_and!; [done..|].
    intros x. rewrite !held_elem. cbn. set_solver. }
  assert (inv (upd (with_pc (Replaying l)) c h)) as [owner Hi'].
  { apply inv_move; [|done]. intros cl' E'. simplify_eq. split_and!; [done..|].
    intros x. rewrite !held_elem, Epc. cbn. set_solver. }
  exists owner. apply inv_try_send; [|done]. intros cl' E'.
  destruct Hi as [owner' Hi]. destruct (inv_client _ _ _ _ Hi E) as (_ & _ & Hheld).
  apply upd_lookup in E' as [(_ & cl0 & E0 & ->)|[]]; [|done]. simplify_eq.
  apply (Hheld m), held_elem. right. right. rewrite Epc. by left.
Qed.

Lemma inv_receive c drain cl h h' :
  hb_clients h !! c = Some cl -> receive c drain cl h = Some h' -> inv h -> inv h'.
Proof.
  intros E Hs Hi. unfold receive in Hs. destruct (cl_send cl) as [|m rest] eqn:Esend.
  - destruct (cl_closed cl); simplify_eq. apply inv_move; [|done]. intros cl' E'. simplify_eq.
    split_and!; [done..|]. intros x. rewrite !held_elem. cbn. set_solver.
  - simplify_eq. apply inv_move; [|done]. intros cl' E'. simplify_eq. split_and!; [done..| |].
    + rewrite Esend. by exists [m].
    + intros x. rewrite !held_elem, Esend. cbn. set_solver.
Qed.

Lemma inv_step_receive c h h' : step_receive c h = Some h' -> inv h -> inv h'.
Proof.
  intros (cl & E & Hs)%client_step_Some. destruct (cl_pc cl) as [| | | |[]| | |]; try done;
    by eapply inv_receive.
Qed.

Lemma inv_step_write c ok h h' : step_write c ok h = Some h' -> inv h -> inv h'.
Proof.
  intros (cl & E & Hs)%client_step_Some Hi. destruct (cl_pc cl) as [| | | | |drain m| |] eqn:Epc; try done.
  destruct ok; injection Hs as <-; (apply inv_move; [|done]); intros cl' E'; simplify_eq;
    (split_and!; [done..|]); intros x; rewrite !held_elem, Epc; cbn; set_solver.
Qed.

Lemma inv_step_disconnect c h h' : step_disconnect c h = Some h' -> inv h -> inv h'.
Proof.
  intros (cl & E & Hs)%client_step_Some Hi.
  destruct (cl_pc cl) as [| | | |[]| | |] eqn:Epc; simplify_eq; (apply inv_move; [|done]);
    intros cl' E'; simplify_eq; (split_and!; [done..|]); intros x; rewrite !held_elem; cbn;
    set_solver.
Qed.

Lemma inv_step_leave c h h' : step_leave c h = Some h' -> inv h -> inv h'.
Proof.
  intros (cl & E & Hs)%client_step_Some Hi. destruct (cl_pc cl) eqn:Epc; try done.
  apply guard_on_Some in Hs as [Hroom%Nat.ltb_lt ->]. apply inv_move.
  - intros cl' E'. simplify_eq. split_and!; [done..|]. intros x. rewrite !held_elem. cbn. set_solver.
  - destruct Hi as [owner Hi]. exists owner. apply inv_queues; [apply Hi| |done].
    rewrite length_app. cbn. lia.
Qed.

Lemma inv_step_run_register h h' : step_run_register h = Some h' -> inv h -> inv h'.
Proof.
  unfold step_run_register. destruct (hb_register h) as [|c rest] eqn:Er; [done|].
  intros [_ ->]%guard_on_Some [owner Hi]. apply inv_run_register. exists owner.
  destruct (i_queues _ _ Hi) as [Hr Hu]. rewrite Er in Hr. cbn in Hr.
  apply inv_queues; [lia|done..].
Qed.

Lemma inv_step_run_unregister h h' : step_run_unregister h = Some h' -> inv h -> inv h'.
Proof.
  unfold step_run_unregister. destruct (hb_unregister h) as [|c rest] eqn:Eu; [done|].
  intros [_ ->]%guard_on_Some [owner Hi]. apply inv_run_unregister. exists owner.
  destruct (i_queues _ _ Hi) as [Hr Hu]. rewrite Eu in Hu. cbn in Hu.
  apply inv_queues; [done|lia|done].
Qed.

Lemma inv_step_loop i h h' : step_loop i h = Some h' -> inv h -> inv h'.
Proof.
  unfold step_loop. destruct (hb_found h !! i) as [[l m]|] eqn:E; [|done].
  intros [= <-] [owner Hi]. exists owner.
  destruct (i_found _ _ Hi l m) as (t & Eo & Hd); [by eapply list_elem_of_lookup_2|].
  apply inv_broadcasts; [| |done].
  - intros l' m' Hin. apply (i_found _ _ Hi). by eapply list_subseteq_delete.
  - intros cs m' c [Hin|[= -> ->]%list_elem_of_singleton]%elem_of_app Hc.
    + by apply (i_loops _ _ Hi cs).
    + destruct (inv_members owner t l c h Hi Eo Hc) as (cl & Ec & <-). eauto.
Qed.

Lemma inv_step_send i c h h' : step_send i c h = Some h' -> inv h -> inv h'.
Proof.
  unfold step_send. destruct (hb_loops h !! i) as [[cs m]|] eqn:E; [|done]. case_decide as Hc; [|done].
  intros [= <-] [owner Hi]. exists owner. apply list_elem_of_lookup_2 in E as Hin.
  apply inv_try_send.
  - intros cl Ec. destruct (i_loops _ _ Hi cs m c Hin Hc) as (cl' & E' & Hd). cbn in Ec.
    by simplify_eq.
  - apply inv_broadcasts; [apply Hi| |done]. intros cs' m' c' Hin' Hc'.
    apply list_elem_of_lookup in Hin' as [j Hj].
    apply list_lookup_insert_Some in Hj as [(-> & [= <- <-] & _)|(_ & Hj)].
    + apply (i_loops _ _ Hi cs m c'); [done|set_solver].
    + apply (i_loops _ _ Hi cs'); [by eapply list_elem_of_lookup_2|done].
Qed.

Lemma inv_step_end i h h' : step_end i h = Some h' -> inv h -> inv h'.
Proof.
  unfold step_end. destruct (hb_loops h !! i) as [[cs m]|]; [|done]. case_decide; [|done].
  intros [= <-] [owner Hi]. exists owner. apply inv_broadcasts; [apply Hi| |done].
  intros cs' m' c Hin. apply (i_loops _ _ Hi). by eapply list_subseteq_delete.
Qed.

Lemma inv_BroadcastMetrics data h : inv h -> inv (BroadcastMetrics data h).
Proof.
  intros [owner Hi]. exists owner. unfold BroadcastMetrics. set (h1 := set_history _ _ h).
  assert (hub_inv owner h1) as H1 by (by apply inv_published).
  apply inv_broadcasts; [apply H1| |done].
  intros cs m c [Hin|[= -> ->]%list_elem_of_singleton]%elem_of_app Hc.
  - by apply (i_loops _ _ H1 cs).
  - destruct (inv_members owner TMetrics (hb_metrics h1) c h1 H1) as (cl & Ec & Et);
      [by apply (i_registry _ _ H1)|done|]. exists cl. rewrite Et. split; [done|].
    split; [done|]. cbn. set_solver.
Qed.

Lemma inv_ClearSwarmHistory t h : inv h -> inv (ClearSwarmHistory t h).
Proof.
  intros [owner Hi]. exists owner. apply inv_history; [| |done].
  - intros t' Ht'. rewrite recent_cleared. destruct (String.eqb_spec t t') as [->|Hne].
    + by rewrite lookup_delete_eq.
    + rewrite lookup_delete_ne by done. by apply (i_history _ _ Hi).
  - apply lookup_delete_None. right. apply Hi.
Qed.

Lemma inv_Stop h : inv h -> inv (Stop h).
Proof.
  intros [owner Hi]. exists owner. unfold Stop.
  destruct (hb_done h); [by apply inv_panic|by apply inv_run].
Qed.

Lemma inv_act a h h' : act a h = Some h' -> inv h -> inv h'.
Proof.
  intros Ha Hi. unfold act in Ha. destruct (hb_panic h); [done|].
  destruct a; try (apply guard_on_Some in Ha as [_ ->]); simplify_eq;
    try (by eauto using inv_step_register, inv_step_read_history, inv_step_replay,
      inv_step_receive, inv_step_write, inv_step_disconnect, inv_step_leave,
      inv_step_run_register, inv_step_run_unregister, inv_run_done, inv_Stop,
      inv_BroadcastSwarm, inv_BroadcastMetrics, inv_ClearSwarmHistory, inv_step_loop,
      inv_step_send, inv_step_end).
  - destruct Hi as [owner Hi]. exists owner. by apply inv_new_client.
  - unfold Broadcast. destruct (pe_Metadata evt); [|done]. by apply inv_look_up.
  - by apply inv_look_up.
  - by apply inv_look_up.
Qed.

Lemma inv_NewHub : inv NewHub.
Proof.
  exists {[ 0 := TMetrics ]}. split; cbn; try done.
  - split; cbn; lia.
  - intros l c. unfold set_at. cbn. destruct (decide (l = 0)) as [->|].
    + rewrite lookup_singleton_eq. cbn. set_solver.
    + rewrite lookup_singleton_ne by done. cbn. set_solver.
  - intros [] l; cbn; try done. intros [= <-]. by rewrite lookup_singleton_eq.
  - intros l [t Hl]. apply lookup_singleton_Some in Hl as [<- _]. set_solver.
  - intros ?? []%elem_of_nil.
  - intros ??? []%elem_of_nil.
Qed.

Lemma reachable_inv allowed h : reachable allowed h -> inv h.
Proof. induction 1; [apply inv_NewHub|by eapply inv_act]. Qed.

(** C23: Whatever the goroutines do in whatever order, a subscriber is only sent what was
    published on its topic: of a review the events of that review, of a task the events of that
    task, and so on; the subscribers of every task are sent events of tasks only. *)
Theorem subscribers_get_their_topic h c cl m :
  reachable any h -> hb_clients h !! c = Some cl -> m ∈ (cl_written cl ++ cl_send cl)%list ->
  on_topic m (topic_of cl) /\ Published m ∈ hb_log h.
Proof.
  intros [owner Hi]%reachable_inv E Hm. destruct (inv_client _ _ _ _ Hi E) as (_ & _ & Hheld).
  apply (Hheld m), held_elem. apply elem_of_app in Hm. tauto.
Qed.

(** In every reachable state the channels hold what they have room for, and the history
    of a task is the last two hundred of its events since it was cleared. *)
Theorem history_is_recent h t :
  reachable any h ->
  (t <> "" -> default [] (hb_swarmHistory h !! t) = recent t (hb_log h)) /\
  List.length (default [] (hb_swarmHistory h !! t)) <= swarmHistoryMax /\
  List.length (hb_register h) <= queueSize /\ List.length (hb_unregister h) <= queueSize /\
  forall c cl, hb_clients h !! c = Some cl -> List.length (cl_send cl) <= sendBufSize.
Proof.
  intros [owner Hi]%reachable_inv. split_and!; [apply Hi| |apply Hi..|].
  - destruct (decide (t = "")) as [->|Ht].
    + rewrite (i_no_history _ _ Hi). cbn. lia.
    + rewrite (i_history _ _ Hi) by done. apply recent_length.
  - intros c cl E. by destruct (inv_client _ _ _ _ Hi E).
Qed.

(** ** No panic *)

(** The hub is not stopped, and takes no departure of a client whose arrival still waits. *)
Definition orderly (a : Action) (h : Hub) : Prop :=
  match a with
  | AStop => False
  | ARunUnregister =>
      match hb_unregister h with c :: _ => c ∉ hb_register h | [] => True end
  | _ => True
  end.

Definition is_open (h : Hub) (c : nat) : Prop :=
  exists cl, hb_clients h !! c = Some cl /\ cl_closed cl = false.

Record hub_ok (h : Hub) : Prop := {
  o_panic : hb_panic h = None;
  o_done : hb_done h = false;
  o_sets : forall l c, c ∈ set_at l h -> exists cl,
    hb_clients h !! c = Some cl /\ cl_closed cl = false /\ find_set (topic_of cl) h = Some l;
  o_register : forall c, c ∈ hb_register h -> is_open h c;
  o_unregister : forall c, c ∈ hb_unregister h -> exists cl,
    hb_clients h !! c = Some cl /\ cl_closed cl = false /\ cl_pc cl = Left;
  o_nodup : NoDup (hb_unregister h);
  o_closed : map_Forall (fun _ cl => cl_closed cl = true -> cl_pc cl = Left) (hb_clients h);
  o_loops : forall cs m c, (cs, m) ∈ hb_loops h -> c ∈ cs -> is_open h c
}.

(** A client changes, but neither its topic nor its channel is closed, and it does not come
    back after it left. *)
Lemma ok_upd f c h :
  (forall cl, hb_clients h !! c = Some cl -> topic_of (f cl) = topic_of cl /\
     cl_closed (f cl) = cl_closed cl /\ (cl_pc cl = Left -> cl_pc (f cl) = Left)) ->
  hub_ok h -> hub_ok (upd f c h).
Proof.
  intros Hf [Hp Hd Hs Hr Hu Hn Hc Hl].
  assert (forall c' cl, hb_clients h !! c' = Some cl -> exists cl',
    hb_clients (upd f c h) !! c' = Some cl' /\ topic_of cl' = topic_of cl /\
    cl_closed cl' = cl_closed cl /\ (cl_pc cl = Left -> cl_pc cl' = Left)) as Hkept.
  { intros c' cl E. rewrite (upd_lookup_fwd _ _ _ _ _ E). eexists. split; [done|].
    case_decide; [|done]. subst. by apply Hf. }
  split; try done.
  - intros l c' (cl & E & Ec & El)%Hs. destruct (Hkept _ _ E) as (cl' & E' & Et & Ec' & _).
    exists cl'. rewrite Et, Ec', find_set_upd. done.
  - intros c' (cl & E & Ec)%Hr. destruct (Hkept _ _ E) as (cl' & E' & _ & Ec' & _).
    exists cl'. by rewrite Ec'.
  - intros c' (cl & E & Ec & El)%Hu. destruct (Hkept _ _ E) as (cl' & E' & _ & Ec' & Hpc).
    exists cl'. rewrite Ec'. auto.
  - intros c' cl [(-> & cl0 & E & ->)|[_ E]]%upd_lookup; [|by apply (Hc c')].
    destruct (Hf _ E) as (_ & -> & Hpc). intros Hcl. apply Hpc, (Hc c); done.
  - intros cs m c' Hin Hcs. destruct (Hl cs m c' Hin Hcs) as (cl & E & Ec).
    destruct (Hkept _ _ E) as (cl' & E' & _ & Ec' & _). exists cl'. by rewrite Ec'.
Qed.

Lemma ok_try_send m c h : is_open h c -> hub_ok h -> hub_ok (try_send m c h).
Proof.
  intros (cl & E & Ec) Hi. unfold try_send. rewrite E, Ec. destruct (_ <? _)%nat; [|done].
  apply ok_upd; [|done]. intros cl' E'. rewrite E in E'. by injection E' as <-.
Qed.

Lemma try_send_open m c h c' : is_open h c' -> is_open (try_send m c h) c'.
Proof.
  intros (cl & E & Ec). unfold try_send. destruct (_ !! c) as [cl0|] eqn:E0; [|by exists cl].
  destruct (cl_closed cl0); [by exists cl|]. destruct (_ <? _)%nat; [|by exists cl].
  exists (if decide (c' = c) then with_send (cl_send cl0 ++ [m]) cl else cl).
  rewrite (upd_lookup_fwd _ _ _ _ _ E). split; [done|]. by case_decide.
Qed.

Lemma ok_send_all m cs h : Forall (is_open h) cs -> hub_ok h -> hub_ok (send_all m cs h).
Proof.
  revert h. induction cs as [|c cs IH]; intros h Hcs Hi; [done|].
  apply Forall_cons in Hcs as [Hc Hcs]. apply IH; [|by apply ok_try_send].
  eapply Forall_impl; [exact Hcs|]. intros c'. apply try_send_open.
Qed.

Lemma ok_members h t : hub_ok h -> Forall (is_open h) (subscribers t h).
Proof.
  intros Hi. unfold subscribers. destruct (hb_swarm h !! t) as [l|]; [|constructor].
  apply Forall_forall. intros c Hc%elem_of_elements.
  destruct (o_sets _ Hi _ _ Hc) as (cl & E & Ec & _). by exists cl.
Qed.

Lemma send_all_open m cs h c : is_open h c -> is_open (send_all m cs h) c.
Proof.
  revert h. induction cs as [|c' cs IH]; intros h Hc; [done|]. by apply IH, try_send_open.
Qed.

(** Queues, history, broadcasts. *)
Lemma ok_queues r u h :
  (forall c, c ∈ r -> is_open h c) ->
  (forall c, c ∈ u -> exists cl, hb_clients h !! c = Some cl /\ cl_closed cl = false /\
     cl_pc cl = Left) -> NoDup u -> hub_ok h -> hub_ok (set_queues r u h).
Proof. intros ??? []. by split. Qed.

Lemma ok_history f e h : hub_ok h -> hub_ok (set_history f e h).
Proof. intros []. by split. Qed.

Lemma ok_broadcasts found loops h :
  (forall cs m c, (cs, m) ∈ loops -> c ∈ cs -> is_open h c) ->
  hub_ok h -> hub_ok (set_broadcasts found loops h).
Proof. intros ? []. by split. Qed.

Lemma ok_new_client s h :
  hub_ok h -> hub_ok (set_clients <[fresh (dom (hb_clients h)) := client_of s]> h).
Proof.
  intros [Hp Hd Hs Hr Hu Hn Hc Hl].
  assert (hb_clients h !! fresh (dom (hb_clients h)) = None) as Hnew
    by (apply not_elem_of_dom, is_fresh).
  assert (forall c cl, hb_clients h !! c = Some cl ->
    <[fresh (dom (hb_clients h)) := client_of s]> (hb_clients h) !! c = Some cl) as Hold.
  { intros c cl E. rewrite lookup_insert_ne; [done|]. intros <-. congruence. }
  split; try done.
  - intros l c (cl & E & Ec & El)%Hs. eauto.
  - intros c (cl & E & Ec)%Hr. exists cl. eauto.
  - intros c (cl & E & Ec & Epc)%Hu. exists cl. eauto.
  - intros c cl. cbn. rewrite lookup_insert_Some. intros [[_ <-]|[_ E]]; [by destruct s|by apply (Hc c)].
  - intros cs m c Hin Hcs. destruct (Hl cs m c Hin Hcs) as (cl & E & Ec). exists cl. eauto.
Qed.

Lemma ok_put t o h :
  (forall l c cl, c ∈ set_at l h -> hb_clients h !! c = Some cl -> topic_of cl = t -> o = Some l) ->
  hub_ok h -> hub_ok (put_set t o h).
Proof.
  intros Ho Hi. destruct (decide (t = TMetrics)) as [->|Ht]; [done|].
  pose proof (put_set_frame t o h) as F. destruct_and! F.
  destruct Hi as [Hp Hd Hs Hr Hu Hn Hc Hl].
  split; unfold is_open, set_at;
    repeat match goal with E : _ = _ |- _ => rewrite E; clear E end; try done.
  intros l c Hin. destruct (Hs l c Hin) as (cl & E & Ec & El). exists cl. split_and!; [done..|].
  rewrite find_put by done. case_decide; [|done]. by apply (Ho l c cl).
Qed.

(** The object under a topic gets a client of that topic that is open, or loses members. *)
Lemma ok_set l s h :
  (forall c, c ∈ s -> exists cl, hb_clients h !! c = Some cl /\ cl_closed cl = false /\
     find_set (topic_of cl) h = Some l) ->
  hub_ok h -> hub_ok (set_sets <[l := s]> h).
Proof.
  intros Hs' [Hp Hd Hs Hr Hu Hn Hc Hl]. split; try done.
  intros l' c. rewrite set_at_insert. case_decide; [subst|]; intros Hin.
  - destruct (Hs' c Hin) as (cl & E & Ec & El). exists cl. by rewrite find_set_sets.
  - destruct (Hs l' c Hin) as (cl & E & Ec & El). exists cl. by rewrite find_set_sets.
Qed.

Lemma ok_run_register c h : is_open h c -> hub_ok h -> hub_ok (run_register c h).
Proof.
  intros (cl & E & Ec) Hi. unfold run_register. rewrite E.
  destruct (find_set (topic_of cl) h) as [l|] eqn:El.
  - apply ok_set; [|done]. intros c' [->%elem_of_singleton|Hin]%elem_of_union; [eauto|].
    by apply (o_sets _ Hi).
  - assert (set_at (fresh_set h) h = ∅) as Hnone.
    { unfold set_at. by rewrite (proj1 (not_elem_of_dom _ _) (fresh_set_new h)). }
    assert (topic_of cl <> TMetrics) as Ht by (intros Ht; by rewrite Ht in El).
    pose proof (put_set_frame (topic_of cl) (Some (fresh_set h)) (set_sets <[fresh_set h := {[c]}]> h)) as F.
    destruct_and! F. destruct Hi as [Hp Hd Hs Hr Hu Hn Hc Hl].
    split; unfold is_open, set_at;
      repeat match goal with Eq : _ (put_set _ _ _) = _ |- _ => rewrite Eq; clear Eq end; try done.
    intros l c'. change (default ∅ _) with (set_at l (set_sets <[fresh_set h := {[c]}]> h)).
    rewrite set_at_insert. case_decide; [subst|]; intros Hin.
    + apply elem_of_singleton in Hin as ->. exists cl. split_and!; [done..|].
      rewrite find_put by done. by rewrite decide_True.
    + destruct (Hs l c' Hin) as (cl' & E' & Ec' & El'). exists cl'. split_and!; [done..|].
      rewrite find_put, find_set_sets by done. case_decide; [congruence|done].
Qed.

(** A client that is open, waits nowhere and has left is taken out of its object and closed. *)
Lemma ok_close c h :
  (exists cl, hb_clients h !! c = Some cl /\ cl_closed cl = false /\ cl_pc cl = Left) ->
  c ∉ hb_register h -> c ∉ hb_unregister h -> (forall l, c ∉ set_at l h) -> hb_loops h = [] ->
  hub_ok h -> hub_ok (close_send c h).
Proof.
  intros (cl & E & Ec & Epc) Hnr Hnu Hns Hnl [Hp Hd Hs Hr Hu Hn Hc Hl].
  unfold close_send. rewrite E, Ec.
  assert (forall c' cl', c' <> c -> hb_clients h !! c' = Some cl' ->
    hb_clients (upd with_closed c h) !! c' = Some cl') as Hother.
  { intros c' cl' Hne E'. rewrite (upd_lookup_fwd _ _ _ _ _ E'). by rewrite decide_False. }
  split; try done.
  - intros l c' Hin. change (set_at l (upd with_closed c h)) with (set_at l h) in Hin.
    destruct (Hs l c' Hin) as (cl' & E' & Ec' & El'). exists cl'. rewrite find_set_upd.
    split; [|done]. apply Hother; [|done]. intros ->. by apply (Hns l).
  - intros c' Hin. destruct (Hr c' Hin) as (cl' & E' & Ec'). exists cl'. split; [|done].
    apply Hother; [|done]. by intros ->.
  - intros c' Hin. destruct (Hu c' Hin) as (cl' & E' & Ec'). exists cl'. split; [|done].
    apply Hother; [|done]. by intros ->.
  - intros c' cl' [(-> & cl0 & E0 & ->)|[_ E']]%upd_lookup; [|by apply (Hc c')].
    cbn. by simplify_eq.
  - intros cs m c' Hin. cbn in Hin. rewrite Hnl in Hin. by apply elem_of_nil in Hin.
Qed.

Lemma ok_run_unregister c h :
  (exists cl, hb_clients h !! c = Some cl /\ cl_closed cl = false /\ cl_pc cl = Left) ->
  c ∉ hb_register h -> c ∉ hb_unregister h -> hb_loops h = [] ->
  hub_ok h -> hub_ok (run_unregister c h).
Proof.
  intros Hcl Hnr Hnu Hnl Hi. unfold run_unregister. pose proof Hcl as (cl & E & Ec & Epc). rewrite E.
  destruct (find_set (topic_of cl) h) as [l|] eqn:El.
  2: { apply ok_close; try done. intros l Hin. destruct (o_sets _ Hi _ _ Hin) as (cl' & E' & _ & El').
       congruence. }
  set (h1 := set_sets _ h). set (h2 := if decide _ then _ else h1).
  assert (hub_ok h1) as H1.
  { apply ok_set; [|done]. intros c' [Hin _]%elem_of_difference. by apply (o_sets _ Hi). }
  assert (forall l', c ∉ set_at l' h1) as Hns.
  { intros l'. unfold h1. rewrite set_at_insert. case_decide; [set_solver|]. intros Hin.
    destruct (o_sets _ Hi _ _ Hin) as (cl' & E' & _ & El'). congruence. }
  assert (hub_ok h2 /\ hb_clients h2 = hb_clients h /\ hb_register h2 = hb_register h /\
    hb_unregister h2 = hb_unregister h /\ hb_sets h2 = hb_sets h1 /\ hb_loops h2 = hb_loops h)
    as (H2 & F1 & F2 & F3 & F4 & F5).
  { unfold h2. case_decide as Hempty; [|done].
    pose proof (put_set_frame (topic_of cl) None h1) as F. destruct_and! F.
    split; [|by repeat match goal with Eq : _ (put_set _ _ _) = _ |- _ => rewrite Eq; clear Eq end].
    apply ok_put; [|done]. intros l' c' cl' Hin E' Et.
    destruct (o_sets _ H1 _ _ Hin) as (cl2 & E2 & _ & El2). simplify_eq.
    unfold h1 in El2. rewrite find_set_sets, Et, El in El2. simplify_eq.
    unfold h1 in Hin. rewrite set_at_insert, decide_True in Hin by done. set_solver. }
  apply ok_close; [by rewrite F1|by rewrite F2|by rewrite F3| |by rewrite F5|done].
  intros l'. unfold set_at. rewrite F4. apply Hns.
Qed.

Lemma ok_look_up t m h : hub_ok h -> hub_ok (look_up t m h).
Proof.
  intros Hi. unfold look_up. set (h' := set_history _ _ h).
  assert (hub_ok h') by (by apply ok_history). destruct (find_set t h'); [|done].
  case_decide; [done|]. by apply ok_broadcasts; [apply Hi|].
Qed.

Lemma ok_BroadcastSwarm now evt h : hub_ok h -> hub_ok (BroadcastSwarm now evt h).
Proof.
  intros Hi. unfold BroadcastSwarm. destruct (se_Data _); [|done].
  destruct (String.eqb _ _).
  - apply ok_send_all; [apply ok_members|]; by apply ok_history.
  - apply ok_send_all; [apply ok_members|]; (apply ok_send_all; [apply ok_members|]);
      by apply ok_history.
Qed.

Lemma ok_BroadcastMetrics data h : hub_ok h -> hub_ok (BroadcastMetrics data h).
Proof.
  intros Hi. apply ok_broadcasts; [|by apply ok_history].
  intros cs m c [Hin|[= -> ->]%list_elem_of_singleton]%elem_of_app Hc.
  - by apply (o_loops _ Hi cs m c).
  - destruct (o_sets _ Hi _ _ Hc) as (cl & E & Ec & _). by exists cl.
Qed.

Lemma ok_step_loop i h h' : step_loop i h = Some h' -> hub_ok h -> hub_ok h'.
Proof.
  unfold step_loop. destruct (hb_found h !! i) as [[l m]|]; [|done]. intros [= <-] Hi.
  apply ok_broadcasts; [|done].
  intros cs m' c [Hin|[= -> ->]%list_elem_of_singleton]%elem_of_app Hc.
  - by apply (o_loops _ Hi cs m' c).
  - destruct (o_sets _ Hi _ _ Hc) as (cl & E & Ec & _). by exists cl.
Qed.

Lemma ok_step_send i c h h' : step_send i c h = Some h' -> hub_ok h -> hub_ok h'.
Proof.
  unfold step_send. destruct (hb_loops h !! i) as [[cs m]|] eqn:E; [|done].
  case_decide as Hc; [|done]. intros [= <-] Hi. apply list_elem_of_lookup_2 in E as Hin.
  apply ok_try_send.
  - destruct (o_loops _ Hi cs m c Hin Hc) as (cl & ? & ?). by exists cl.
  - apply ok_broadcasts; [|done]. intros cs' m' c' Hin' Hc'.
    apply list_elem_of_lookup in Hin' as [j Hj].
    apply list_lookup_insert_Some in Hj as [(-> & [= <- <-] & _)|(_ & Hj)].
    + apply (o_loops _ Hi cs m c'); [done|set_solver].
    + apply (o_loops _ Hi cs' m' c'); [by eapply list_elem_of_lookup_2|done].
Qed.

Lemma ok_step_end i h h' : step_end i h = Some h' -> hub_ok h -> hub_ok h'.
Proof.
  unfold step_end. destruct (hb_loops h !! i) as [[cs m]|]; [|done]. case_decide; [|done].
  intros [= <-] Hi. apply ok_broadcasts; [|done].
  intros cs' m' c Hin. apply (o_loops _ Hi cs' m'). by eapply list_subseteq_delete.
Qed.

(** A goroutine of a client that has not left is at an open channel. *)
Lemma not_left_open h c cl :
  hub_ok h -> hb_clients h !! c = Some cl -> cl_pc cl <> Left -> cl_closed cl = false.
Proof.
  intros Hi E Hpc. destruct (cl_closed cl) eqn:Ec; [|done]. destruct Hpc. by apply (o_closed _ Hi c).
Qed.

Lemma ok_move f c cl h :
  hb_clients h !! c = Some cl -> cl_pc cl <> Left ->
  topic_of (f cl) = topic_of cl -> cl_closed (f cl) = cl_closed cl ->
  hub_ok h -> hub_ok (upd f c h).
Proof.
  intros E Hpc Ht Hc Hi. apply ok_upd; [|done]. intros cl' E'. rewrite E in E'. by injection E' as <-.
Qed.

Lemma ok_step_register c h h' : step_register c h = Some h' -> hub_ok h -> hub_ok h'.
Proof.
  intros (cl & E & Hs)%client_step_Some Hi. destruct (cl_pc cl) eqn:Epc; try done.
  apply guard_on_Some in Hs as [_ ->]. apply (ok_move _ _ cl); [done|congruence|done..|].
  apply ok_queues; try apply Hi.
  intros c' [Hin| ->%list_elem_of_singleton]%elem_of_app; [by apply (o_register _ Hi)|].
  exists cl. split; [done|]. eapply not_left_open; [done..|congruence].
Qed.

Lemma ok_step_replay c h h' : step_replay c h = Some h' -> hub_ok h -> hub_ok h'.
Proof.
  intros (cl & E & Hs)%client_step_Some Hi.
  destruct (cl_pc cl) as [| |[|m l]| | | | |] eqn:Epc; try done; injection Hs as <-.
  - apply (ok_move _ _ cl); congruence || done.
  - apply ok_try_send.
    + eexists. split; [by apply upd_lookup_fwd|]. rewrite decide_True by done.
      exact (not_left_open h c cl Hi E ltac:(congruence)).
    + apply (ok_move _ _ cl); congruence || done.
Qed.

Lemma ok_receive c drain cl h h' :
  hb_clients h !! c = Some cl -> cl_pc cl <> Left -> receive c drain cl h = Some h' ->
  hub_ok h -> hub_ok h'.
Proof.
  intros E Hpc Hs Hi. unfold receive in Hs.
  destruct (cl_send cl); [destruct (cl_closed cl); [|done]|]; injection Hs as <-;
    by apply (ok_move _ _ cl).
Qed.

Lemma ok_step_leave c h h' : step_leave c h = Some h' -> hub_ok h -> hub_ok h'.
Proof.
  intros (cl & E & Hs)%client_step_Some Hi. destruct (cl_pc cl) eqn:Epc; try done.
  apply guard_on_Some in Hs as [_ ->].
  assert (c ∉ hb_unregister h) as Hnew.
  { intros (cl' & E' & _ & Epc')%(o_unregister _ Hi). congruence. }
  assert (cl_closed cl = false) as Ec by (eapply not_left_open; [done..|congruence]).
  assert (hub_ok (upd (with_pc Left) c h)) as H1 by (apply (ok_move _ _ cl); congruence || done).
  change (upd _ c (set_queues ?r ?u h)) with (set_queues r u (upd (with_pc Left) c h)).
  apply ok_queues; [apply H1| | |done].
  - intros c' [Hin| ->%list_elem_of_singleton]%elem_of_app; [by apply (o_unregister _ H1)|].
    eexists. split; [by apply upd_lookup_fwd|]. by rewrite decide_True.
  - apply NoDup_app. split_and!; [apply Hi| |apply NoDup_singleton].
    intros c' Hin ->%list_elem_of_singleton. done.
Qed.

Lemma ok_step_run_register h h' : step_run_register h = Some h' -> hub_ok h -> hub_ok h'.
Proof.
  unfold step_run_register. destruct (hb_register h) as [|c rest] eqn:Er; [done|].
  intros [_ ->]%guard_on_Some Hi. apply ok_run_register.
  - destruct (o_register _ Hi c) as (cl & E & Ec); [rewrite Er; by left|]. by exists cl.
  - apply ok_queues; try apply Hi. intros c' Hc'. apply (o_register _ Hi).
    rewrite Er. by right.
Qed.

Lemma ok_step_run_unregister h h' :
  orderly ARunUnregister h -> step_run_unregister h = Some h' -> hub_ok h -> hub_ok h'.
Proof.
  unfold step_run_unregister, orderly. destruct (hb_unregister h) as [|c rest] eqn:Eu; [done|].
  intros Hord [[_ Hfree]%andb_prop ->]%guard_on_Some Hi.
  pose proof (o_nodup _ Hi) as Hnd. rewrite Eu in Hnd. apply NoDup_cons in Hnd as [Hnew Hnd].
  apply ok_run_unregister.
  - apply (o_unregister _ Hi). rewrite Eu. by left.
  - done.
  - done.
  - unfold unlocked in Hfree. cbn. by destruct (hb_loops h).
  - apply ok_queues; [apply Hi| |done|done]. intros c' Hc'. apply (o_unregister _ Hi).
    rewrite Eu. by right.
Qed.

Lemma ok_act a h h' : orderly a h -> act a h = Some h' -> hub_ok h -> hub_ok h'.
Proof.
  intros Hord Ha Hi. unfold act in Ha. rewrite (o_panic _ Hi) in Ha.
  destruct a; try done; try (apply guard_on_Some in Ha as [Hg ->]);
    try (injection Ha as <-); try (by eauto using ok_new_client, ok_step_register, ok_step_replay,
      ok_step_leave, ok_step_run_register, ok_step_run_unregister, ok_look_up,
      ok_BroadcastSwarm, ok_BroadcastMetrics, ok_step_loop, ok_step_send, ok_step_end).
  - apply client_step_Some in Ha as (cl & E & Hs). destruct (cl_pc cl) eqn:Epc; try done.
    injection Hs as <-. apply (ok_move _ _ cl); congruence || done.
  - apply client_step_Some in Ha as (cl & E & Hs).
    destruct (cl_pc cl) as [| | | |[]| | |] eqn:Epc; try done;
      (eapply ok_receive; [exact E|congruence|exact Hs|done]).
  - apply client_step_Some in Ha as (cl & E & Hs). destruct (cl_pc cl) eqn:Epc; try done.
    destruct success; injection Hs as <-; apply (ok_move _ _ cl); congruence || done.
  - apply client_step_Some in Ha as (cl & E & Hs).
    destruct (cl_pc cl) as [| | | |[]| | |] eqn:Epc; try done; injection Hs as <-;
      apply (ok_move _ _ cl); congruence || done.
  - by rewrite (o_done _ Hi) in Hg.
  - unfold Broadcast. destruct (pe_Metadata evt); [|done]. by apply ok_look_up.
  - by apply ok_history.
Qed.

Lemma ok_NewHub : hub_ok NewHub.
Proof.
  split; cbn; try done; try (by intros ? []%elem_of_nil).
  - intros l c. unfold set_at. cbn. destruct (decide (l = 0)) as [->|].
    + rewrite lookup_singleton_eq. cbn. set_solver.
    + rewrite lookup_singleton_ne by done. cbn. set_solver.
  - apply NoDup_nil_2.
  - intros ??? []%elem_of_nil.
Qed.

Lemma reachable_ok h : reachable orderly h -> hub_ok h.
Proof. induction 1; [apply ok_NewHub|by eapply ok_act]. Qed.

(** C22: While the hub is not stopped and takes no departure before the arrival of the same
    client, no interleaving of connections, broadcasts and disconnections panics; and a client
    in the registry stands under its topic, with an open channel. *)
Theorem hub_never_panics h :
  reachable orderly h ->
  hb_panic h = None /\
  forall t l c, find_set t h = Some l -> c ∈ set_at l h -> exists cl,
    hb_clients h !! c = Some cl /\ cl_closed cl = false /\ find_set (topic_of cl) h = Some l.
Proof.
  intros Hi%reachable_ok. split; [apply Hi|]. intros t l c _ Hc. by apply (o_sets _ Hi).
Qed.

(** ** Evaluation *)

#[global] Instance orderly_dec a h : Decision (orderly a h).
Proof. destruct a; cbn; try apply _. destruct (hb_unregister h); apply _. Defined.
#[global] Instance any_dec a h : Decision (any a h).
Proof. left. exact I. Defined.

(** The run of a list of actions, each of them allowed. *)
Fixpoint run_if (allowed : Action -> Hub -> Prop) `{forall a h, Decision (allowed a h)}
    (l : list Action) (h : Hub) : option Hub :=
  match l with
  | [] => Some h
  | a :: l => if decide (allowed a h) then h ← act a h; run_if allowed l h else None
  end.

Lemma run_if_reachable allowed `{forall a h, Decision (allowed a h)} l h h' :
  reachable allowed h -> run_if allowed l h = Some h' -> reachable allowed h'.
Proof.
  revert h. induction l as [|a l IH]; intros h Hr Hrun; cbn in Hrun; [by simplify_eq|].
  case_decide; [|done]. destruct (act a h) as [h1|] eqn:E; [|done]. cbn in Hrun.
  apply (IH h1); [|done]. by eapply reach_step.
Qed.

Definition hub_after (allowed : Action -> Hub -> Prop) `{forall a h, Decision (allowed a h)}
    (l : list Action) : Hub := default NewHub (run_if allowed l NewHub).

Lemma hub_after_reachable allowed `{forall a h, Decision (allowed a h)} l :
  reachable allowed (hub_after allowed l).
Proof.
  unfold hub_after. destruct (run_if allowed l NewHub) as [h|] eqn:E; [|apply reach_new].
  eapply run_if_reachable; [apply reach_new|exact E].
Qed.

Definition sample_progress : ProgressEvent := {|
  pe_ReviewID := 0%N; pe_Step := "fetch_pr"; pe_StepIndex := 1; pe_TotalStep := 12;
  pe_Status := "started"; pe_Message := ""; pe_Metadata := Some "{}"; pe_Timestamp := None |}.
Definition task_event_of (taskID event : string) : SwarmEvent := {|
  se_Type := "swarm_task"; se_TaskID := taskID; se_AgentID := ""; se_Event := event;
  se_Data := Some "{}"; se_Timestamp := Some 0%Z |}.

(** A review is watched by one client and a task by another; both get what is theirs. *)
Definition watched_run : list Action :=
  [ASubscribe (OnReview 7%N); ASubscribe (OnSwarm "t"); ARegister 0; ARegister 1;
   ARunRegister; ARunRegister; AReadHistory 1; AReplay 1; ABroadcast 5 7%N sample_progress;
   ABroadcast 6 8%N sample_progress; ABroadcastSwarm 6 (task_event_of "t" "created");
   ABroadcastSwarm 6 (task_event_of "u" "created"); ALoop 0; ASend 0 0; AEnd 0;
   AReceive 0; AWrite 0 true; ADisconnect 1; ALeave 1; ARunUnregister].
Definition watched_hub : Hub := hub_after orderly watched_run.

Example watched_messages :
  (fun cl => (topic_of cl, cl_written cl, cl_send cl)) <$> hb_clients watched_hub !! 0 =
    Some (TReview 7, [MReview (review_event 5 7 sample_progress)], []) /\
  (fun cl => (topic_of cl, cl_written cl, cl_send cl)) <$> hb_clients watched_hub !! 1 =
    Some (TSwarm "t", [], [MSwarm (task_event_of "t" "created")]).
Proof. by vm_compute. Qed.

Lemma subscribers_get_their_topic_witness :
  on_topic (MSwarm (task_event_of "t" "created")) (TSwarm "t") /\
  Published (MSwarm (task_event_of "t" "created")) ∈ hb_log (hub_after any watched_run).
Proof.
  assert ((fun cl => (topic_of cl, cl_send cl)) <$> hb_clients (hub_after any watched_run) !! 1 =
    Some (TSwarm "t", [MSwarm (task_event_of "t" "created")])) as H by (by vm_compute).
  destruct (hb_clients (hub_after any watched_run) !! 1) as [cl|] eqn:E; [|done].
  cbn [fmap option_fmap option_map] in H. injection H as Et Es.
  rewrite <- Et. eapply (subscribers_get_their_topic _ 1); [|exact E|].
  - apply hub_after_reachable.
  - rewrite Es. apply elem_of_app. right. by left.
Defined.

Lemma history_is_recent_witness :
  default [] (hb_swarmHistory (hub_after any watched_run) !! "t") =
    recent "t" (hb_log (hub_after any watched_run)) /\
  recent "t" (hb_log (hub_after any watched_run)) = [MSwarm (task_event_of "t" "created")].
Proof.
  split; [|by vm_compute].
  by apply (history_is_recent (hub_after any watched_run) "t"); [apply hub_after_reachable|].
Defined.

Lemma hub_never_panics_witness : hb_panic watched_hub = None.
Proof. apply (hub_never_panics watched_hub). apply hub_after_reachable. Defined.

(** The departure of a client is taken before its arrival: the client is registered with a
    closed channel, and the next broadcast panics. *)
Example departure_overtakes_arrival :
  hb_panic (hub_after any
    [ASubscribe (OnReview 7%N); ARegister 0; ADisconnect 0; ALeave 0; ARunUnregister;
     ARunRegister; ABroadcast 5 7%N sample_progress; ALoop 0; ASend 0 0]) =
  Some "send on closed channel".
Proof. by vm_compute. Qed.

(** The hub stops between the two sections of a broadcast: the object that the broadcast found
    still has the clients whose channels are closed. *)
Example stop_during_broadcast :
  hb_panic (hub_after any
    [ASubscribe (OnReview 7%N); ARegister 0; ARunRegister; ABroadcast 5 7%N sample_progress;
     AStop; ARunDone; ALoop 0; ASend 0 0]) = Some "send on closed channel".
Proof. by vm_compute. Qed.

(** After a stop nobody takes departures: once the queue is full, the goroutines wait for ever. *)
Definition many_leaving : list Action :=
  (n ← seq 0 33; [ASubscribe (OnReview 7%N); ARegister n; ARunRegister]) ++
  [AStop; ARunDone] ++ (n ← seq 0 32; [AReceive n; ALeave n]) ++ [AReceive 32].
Example goroutine_leaks_after_stop :
  let h := hub_after any many_leaving in
  (cl_pc <$> hb_clients h !! 32, hb_running h, act (ALeave 32) h) = (Some Leaving, false, None).
Proof. by vm_compute. Qed.

(** What client 0 holds. *)
Definition held_after (l : list Action) : option (list Message) :=
  held <$> hb_clients (hub_after any l) !! 0.

(** An event between the reading of the history and the registration is lost. *)
Example event_lost_on_connect :
  held_after [ASubscribe (OnSwarm "t"); ARegister 0; AReadHistory 0;
              ABroadcastSwarm 6 (task_event_of "t" "created"); AReplay 0; ARunRegister] = Some [].
Proof. by vm_compute. Qed.

(** An event between the registration and the reading of the history comes twice. *)
Example event_doubled_on_connect :
  let m := MSwarm (task_event_of "t" "created") in
  held_after [ASubscribe (OnSwarm "t"); ARegister 0; ARunRegister;
              ABroadcastSwarm 6 (task_event_of "t" "created"); AReadHistory 0; AReplay 0] =
  Some [m; m].
Proof. by vm_compute. Qed.

(** A history that is longer than the channel has room for is cut at its newest events, though
    it keeps two hundred of them. *)
Definition long_replay : list Action :=
  replicate 64 (ABroadcastSwarm 6 (task_event_of "t" "chunk")) ++
  [ABroadcastSwarm 6 (task_event_of "t" "completed")] ++
  [ASubscribe (OnSwarm "t"); ARegister 0; ARunRegister; AReadHistory 0] ++
  replicate 65 (AReplay 0).
Example replay_drops_the_newest :
  held_after long_replay = Some (replicate 64 (MSwarm (task_event_of "t" "chunk"))).
Proof. by vm_compute. Qed.
