(* ===== verification/TeamFormation.v ===== *)
(** * Team formation ([swarm/team_formation.go], [team_formation_handlers.go])

    From the plan of a task to the roles of its team: signals, complexity score, label, roles,
    and the adjustments by the ratings of the roles, which are those of Ratings.v.  A plan is
    given decoded; [None] is an empty or malformed one.  The tables are the ratings and the
    columns of [swarm_tasks] that these files read and write. *)

From Stdlib Require Import ZArith Lia Ascii String SpecFloat.
From stdpp Require Import base list gmap strings sorting.
From S2P Require Import Prelude GoStrings GoFloat SwarmDb Ratings.
Local Open Scope string_scope.
Local Open Scope Z_scope.

(** ** Labels, thresholds, types *)

Definition FormationComplexityTrivial := "trivial".
Definition FormationComplexityCritical := "critical".
Definition formationLabelSmall := "small".
Definition formationLabelMedium := "medium".
Definition formationLabelLarge := "large".
Definition StrategyELOWeighted := "elo_weighted".

Definition ThresholdTrivial : float64 := lit 15 100.
Definition ThresholdSmall : float64 := lit 35 100.
Definition ThresholdMedium : float64 := lit 60 100.
Definition ThresholdLarge : float64 := lit 80 100.

Record ComplexitySignals := {
  cs_FileCount : Z;
  cs_StepCount : Z;
  cs_DescriptionLength : Z;
  cs_LanguageCount : Z;
  cs_TestFiles : Z;
  cs_HasMigrations : bool;
  cs_CrossPackage : bool;
  cs_HasAPIChanges : bool;
  cs_HasSecurityImpact : bool;
  cs_HasUIChanges : bool;
  cs_Languages : list string
}.

Record RoleELOInfo := { ri_ELO : float64; ri_Tier : string }.

Record TeamFormation := {
  tf_ComplexityScore : float64;
  tf_ComplexityLabel : string;
  tf_InputSignals : ComplexitySignals;
  tf_RecommendedRoles : list string;
  tf_RoleELOs : gmap string RoleELOInfo;
  tf_TeamSize : Z;
  tf_Reasoning : string;
  tf_Strategy : string;
  tf_CreatedAt : Z
}.

(** The fields of the plan document that are read; a step is its text. *)
Record PlanDocument := { pd_Summary : string; pd_Steps : list string; pd_AffectedFiles : list string }.

Definition no_signals : ComplexitySignals := {|
  cs_FileCount := 0; cs_StepCount := 0; cs_DescriptionLength := 0; cs_LanguageCount := 0;
  cs_TestFiles := 0; cs_HasMigrations := false; cs_CrossPackage := false;
  cs_HasAPIChanges := false; cs_HasSecurityImpact := false; cs_HasUIChanges := false;
  cs_Languages := [] |}.

(** ** Signals *)

Definition mem_str (s : string) (l : list string) : bool := bool_decide (s ∈ l).

(** The loop from the end: the extension starts at the last dot after the last slash. *)
Fixpoint extension_scan (rev acc : string) : string :=
  match rev with
  | EmptyString => ""
  | String a rev =>
      if Ascii.eqb a "." then String a acc
      else if Ascii.eqb a "/" then ""
      else extension_scan rev (String a acc)
  end.
Definition formationFileExtension (path : string) : string := extension_scan (string_rev path) "".

Definition contains_any (s : string) (l : list string) : bool := existsb (Contains s) l.

Definition formationIsTestFile (path : string) : bool :=
  contains_any path ["_test."; ".test."; ".spec."; "/test/"; "/tests/"; "__tests__/"].

Definition securityKeywords : list string :=
  ["auth"; "security"; "permission"; "rbac"; "jwt"; "token"; "encrypt"; "credential"; "secret";
   "vulnerability"; "cve"].

(** The first two segments of a path that has a slash. *)
Definition top_dir (f : string) : option string :=
  match splitn_byte "/"%char 3 f with
  | a :: b :: _ => Some (a ++ "/" ++ b)
  | _ => None
  end.

Section formation.
Context `{UnicodeTables} `{RowOrder} `{UuidText}.

Definition formationExtensionToLanguage (ext : string) : string :=
  let ext := ToLower ext in
  if String.eqb ext ".go" then "go"
  else if String.eqb ext ".py" then "python"
  else if mem_str ext [".ts"; ".tsx"] then "typescript"
  else if mem_str ext [".js"; ".jsx"] then "javascript"
  else if String.eqb ext ".java" then "java"
  else if String.eqb ext ".rs" then "rust"
  else if mem_str ext [".c"; ".h"] then "c"
  else if mem_str ext [".cpp"; ".cc"; ".hpp"] then "cpp"
  else if String.eqb ext ".rb" then "ruby"
  else if String.eqb ext ".sql" then "sql"
  else if String.eqb ext ".proto" then "protobuf"
  else if mem_str ext [".yaml"; ".yml"] then "yaml"
  else if String.eqb ext ".json" then "json"
  else if mem_str ext [".md"; ".mdx"] then "markdown"
  else if mem_str ext [".css"; ".scss"] then "css"
  else if String.eqb ext ".html" then "html"
  else if mem_str ext [".sh"; ".bash"] then "shell"
  else "".

Definition file_language (f : string) : option string :=
  let lang := formationExtensionToLanguage (formationFileExtension f) in
  if String.eqb lang "" then None else Some lang.

Definition count_files (p : string -> bool) (l : list string) : Z :=
  Z.of_nat (List.length (List.filter p l)).

(** The loop over the files sets flags and counts, one after the other. *)
Definition ExtractSignalsFromPlan (plan : option PlanDocument) : ComplexitySignals :=
  match plan with
  | None => no_signals
  | Some plan =>
      let files := pd_AffectedFiles plan in
      let lower := map ToLower files in
      let langSet : gset string := list_to_set (omap file_language files) in
      let topDirs : gset string := list_to_set (omap top_dir files) in
      let languages := sort_strings (row_order (elements langSet)) in
      {| cs_FileCount := Z.of_nat (List.length files);
         cs_StepCount := Z.of_nat (List.length (pd_Steps plan));
         cs_DescriptionLength := Z.of_nat (String.length (pd_Summary plan));
         cs_LanguageCount := Z.of_nat (List.length languages);
         cs_TestFiles := count_files formationIsTestFile lower;
         cs_HasMigrations := existsb (fun f => contains_any f ["migration"; "migrate"]) lower;
         cs_CrossPackage := 3 <=? Z.of_nat (size topDirs);
         cs_HasAPIChanges := existsb (fun f => contains_any f
           ["handler"; "route"; "endpoint"; "api"; "proto"; "schema"]) lower;
         cs_HasSecurityImpact := contains_any (ToLower (pd_Summary plan)) securityKeywords;
         cs_HasUIChanges := existsb (fun f => contains_any f
           ["component"; "page.tsx"; ".css"; ".scss"; "/web/"; "/ui/"]) lower;
         cs_Languages := languages |}
  end.

(** ** Score, label, roles *)

Definition formationSigmoid (value midpoint : float64) : float64 :=
  if fle value (of_int 0) then of_int 0 else fdiv value (fadd value midpoint).

Definition bump (b : bool) (x flagScore : float64) : float64 :=
  if b then fadd flagScore x else flagScore.

Definition flag_score (s : ComplexitySignals) : float64 :=
  let f := of_int 0 in
  let f := bump (cs_HasMigrations s) (lit 15 100) f in
  let f := bump (cs_CrossPackage s) (lit 12 100) f in
  let f := bump (cs_HasAPIChanges s) (lit 10 100) f in
  let f := bump (cs_HasSecurityImpact s) (lit 10 100) f in
  let f := bump (cs_HasUIChanges s) (lit 5 100) f in
  bump (0 <? cs_TestFiles s) (fmul (lit 3 100) (fmin (of_int (cs_TestFiles s)) (of_int 3))) f.

Definition ComputeComplexityScore (s : ComplexitySignals) : float64 :=
  let fileDim := formationSigmoid (of_int (cs_FileCount s)) (of_int 8) in
  let stepDim := formationSigmoid (of_int (cs_StepCount s)) (of_int 6) in
  let descDim := formationSigmoid (of_int (cs_DescriptionLength s)) (of_int 300) in
  let langDim := formationSigmoid (of_int (cs_LanguageCount s)) (of_int 2) in
  let raw :=
    fadd (fadd (fadd (fadd (fmul (lit 30 100) fileDim) (fmul (lit 25 100) stepDim))
                     (fmul (lit 10 100) descDim))
               (fmul (lit 10 100) langDim))
         (fmul (lit 25 100) (fmin (flag_score s) (lit 50 100))) in
  clamp (of_int 0) (of_int 1) raw.

Definition FormationComplexityLabel (score : float64) : string :=
  if flt score ThresholdTrivial then FormationComplexityTrivial
  else if flt score ThresholdSmall then formationLabelSmall
  else if flt score ThresholdMedium then formationLabelMedium
  else if flt score ThresholdLarge then formationLabelLarge
  else FormationComplexityCritical.

Definition role_if (b : bool) (role : string) : list string := if b then [role] else [].

Definition RecommendRoles (label : string) (signals : ComplexitySignals) : list string :=
  if String.eqb label FormationComplexityTrivial then ["senior_dev"]
  else if String.eqb label formationLabelSmall then
    (["senior_dev"] ++ role_if ((0 <? cs_TestFiles signals) || cs_HasAPIChanges signals) "qa")%list
  else if String.eqb label formationLabelMedium then
    (["senior_dev"; "qa"] ++ role_if (cs_HasSecurityImpact signals) "security" ++
     role_if (cs_HasUIChanges signals) "ui_ux")%list
  else if String.eqb label formationLabelLarge then
    (["architect"; "senior_dev"; "junior_dev"; "qa"; "security"] ++
     role_if (cs_HasUIChanges signals) "ui_ux")%list
  else if String.eqb label FormationComplexityCritical then
    (["architect"; "senior_dev"; "senior_dev"; "junior_dev"; "qa"; "security"] ++
     role_if (cs_HasUIChanges signals) "ui_ux" ++
     role_if (cs_HasMigrations signals || cs_HasAPIChanges signals) "docs")%list
  else ["senior_dev"; "qa"].

(** ** Adjustments *)

Definition formationTitleCase (s : string) : string :=
  match s with
  | EmptyString => s
  | String a s' => ToUpper (String a EmptyString) ++ s'
  end.

(** [%.0f]: to the nearest integer, ties to even. *)
Definition nearest_even (m : positive) (e : Z) : Z :=
  if 0 <=? e then Z.pos m * 2 ^ e
  else
    let q := Z.pos m / 2 ^ (- e) in
    let r := 2 * (Z.pos m mod 2 ^ (- e)) in
    if (r <? 2 ^ (- e)) || ((r =? 2 ^ (- e)) && Z.even q) then q else q + 1.
Definition format_f0 (f : float64) : string :=
  match f with
  | S754_nan => "NaN"
  | S754_infinity s => if s then "-Inf" else "+Inf"
  | S754_zero s => if s then "-0" else "0"
  | S754_finite s m e => (if s then "-" else "") ++ itoa (nearest_even m e)
  end.

Definition count_roles (role : string) (l : list string) : Z := count_files (String.eqb role) l.

(** How many roles are of the tier. *)
Definition count_tier (tier : string) (roleELOs : gmap string RoleELOInfo) : Z :=
  Z.of_nat (size (filter (fun kv => ri_Tier kv.2 = tier) roleELOs)).

Definition snoc (l : list string) (x : string) : list string := (l ++ [x])%list.

(** The roles and the reasons so far. *)
Definition Adjusted : Type := list string * list string.

(** Strategy 1: a second senior developer for restricted roles on a large task. *)
Definition supervise (roleELOs : gmap string RoleELOInfo) (label : string) (a : Adjusted)
    : Adjusted :=
  let restrictedCount := count_tier TierRestricted roleELOs in
  if (0 <? restrictedCount) &&
     (String.eqb label formationLabelLarge || String.eqb label FormationComplexityCritical)
  then
    if count_roles "senior_dev" a.1 <? 2
    then (snoc a.1 "senior_dev",
          snoc a.2 ("Added extra senior_dev: " ++ itoa restrictedCount ++
                    " restricted-tier roles need supervision"))
    else a
  else a.

(** The loop that leaves out the first junior developer. *)
Fixpoint without_junior (l : list string) : list string * bool :=
  match l with
  | [] => ([], false)
  | r :: l =>
      if String.eqb r "junior_dev" then (l, true)
      else let '(l', removed) := without_junior l in (r :: l', removed)
  end.

(** Strategy 2: no junior developer on a medium task if all roles are experts. *)
Definition trim_team (roleELOs : gmap string RoleELOInfo) (label : string) (a : Adjusted)
    : Adjusted :=
  let expertCount := count_tier TierExpert roleELOs in
  if (expertCount =? Z.of_nat (size roleELOs)) && (0 <? expertCount) &&
     String.eqb label formationLabelMedium
  then
    let '(trimmed, removedJunior) := without_junior a.1 in
    if removedJunior
    then (trimmed, snoc a.2 "Trimmed junior_dev: all roles are expert-tier")
    else a
  else a.

(** Strategy 3: an architect where the security role is restricted. *)
Definition back_up_security (roleELOs : gmap string RoleELOInfo) (signals : ComplexitySignals)
    (a : Adjusted) : Adjusted :=
  match roleELOs !! "security" with
  | Some secInfo =>
      if String.eqb (ri_Tier secInfo) TierRestricted && cs_HasSecurityImpact signals &&
         negb (mem_str "architect" a.1)
      then (snoc a.1 "architect",
            snoc a.2 "Added architect: security role is restricted-tier but task has security impact")
      else a
  | None => a
  end.

Definition elo_part (kv : string * RoleELOInfo) : string :=
  kv.1 ++ "=" ++ format_f0 (ri_ELO kv.2) ++ "(" ++ ri_Tier kv.2 ++ ")".

Definition eloAdjustments (roles : list string) (roleELOs : gmap string RoleELOInfo)
    (label : string) (signals : ComplexitySignals) : list string * string :=
  let first := formationTitleCase label ++ " complexity: " ++ itoa (cs_FileCount signals) ++
    " files, " ++ itoa (cs_StepCount signals) ++ " steps, " ++
    itoa (cs_LanguageCount signals) ++ " languages" in
  let '(adjusted, reasons) :=
    back_up_security roleELOs signals
      (trim_team roleELOs label (supervise roleELOs label (roles, [first]))) in
  let reasons :=
    if (0 <? Z.of_nat (size roleELOs))
    then snoc reasons
           ("ELO: " ++ Join (sort_strings (map elo_part (row_order (map_to_list roleELOs)))) ", ")
    else reasons in
  (adjusted, Join reasons ". ").

(** ** [RecommendTeam] *)

(** [math.Round(score*1000) / 1000] *)
Definition rounded (score : float64) : float64 :=
  fdiv (fround (fmul score (of_int 1000))) (of_int 1000).

(** The tier and score of every role. *)
Fixpoint query_roles (repoID : string) (roles : list string) (roleELOs : gmap string RoleELOInfo)
    : E (gmap string RoleELOInfo) :=
  match roles with
  | [] => mret roleELOs
  | role :: roles =>
      t ← TierForRole role repoID;
      query_roles repoID roles (<[role := {| ri_ELO := t.2; ri_Tier := t.1 |}]> roleELOs)
  end.

(** [roleELO] is whether the service has ratings. *)
Definition RecommendTeam (roleELO : bool) (now : Z) (repoID : string) (plan : option PlanDocument)
    (overrideSignals : option ComplexitySignals) : E TeamFormation :=
  let signals := match overrideSignals with Some s => s | None => ExtractSignalsFromPlan plan end in
  let score := ComputeComplexityScore signals in
  let label := FormationComplexityLabel score in
  let roles := RecommendRoles label signals in
  roleELOs ← (if roleELO then query_roles repoID roles ∅ else mret ∅);
  let '(roles, reasoning) := eloAdjustments roles roleELOs label signals in
  mret {| tf_ComplexityScore := rounded score; tf_ComplexityLabel := label;
          tf_InputSignals := signals; tf_RecommendedRoles := roles; tf_RoleELOs := roleELOs;
          tf_TeamSize := Z.of_nat (List.length roles) + 1; tf_Reasoning := reasoning;
          tf_Strategy := StrategyELOWeighted; tf_CreatedAt := now |}.

(** ** The task rows and the handlers *)

(** The columns of [swarm_tasks] that are used here; a plan that cannot be parsed counts as
    none. *)
Record FormationTask := {
  ft_PlanDocument : option PlanDocument;
  ft_TeamFormation : option TeamFormation;
  ft_UpdatedAt : Z
}.

(** The tables, and the events for the websocket hub.  Statements fail as the list in the
    ratings says. *)
Record FormationWorld := {
  fw_elo : EloWorld;
  fw_tasks : gmap UUID FormationTask;
  fw_events : list (UUID * TeamFormation)
}.

Definition F (A : Type) : Type := FormationWorld -> A * FormationWorld.
#[export] Instance F_ret : MRet F := fun A a w => (a, w).
#[export] Instance F_bind : MBind F := fun A B f m w => let '(a, w') := m w in f a w'.

Definition on_ratings {A} (m : E A) : F A := fun w =>
  let '(a, e) := m (fw_elo w) in
  (a, {| fw_elo := e; fw_tasks := fw_tasks w; fw_events := fw_events w |}).

Definition set_task_rows (f : gmap UUID FormationTask -> gmap UUID FormationTask)
    (w : FormationWorld) : FormationWorld :=
  {| fw_elo := fw_elo w; fw_tasks := f (fw_tasks w); fw_events := fw_events w |}.

(** A statement on the task rows, and a query. *)
Definition task_exec (f : gmap UUID FormationTask -> gmap UUID FormationTask) : F (option string) :=
  fun w =>
    let '(b, w) := on_ratings next_fault w in
    if b then (Some "statement failed", w) else (None, set_task_rows f w).
Definition task_query {A} (f : gmap UUID FormationTask -> A) : F (result A string) := fun w =>
  let '(b, w) := on_ratings next_fault w in
  (if b then Err "statement failed" else Ok (f (fw_tasks w)), w).

Definition store_formation (now : Z) (f : TeamFormation) (t : FormationTask) : FormationTask := {|
  ft_PlanDocument := ft_PlanDocument t; ft_TeamFormation := Some f; ft_UpdatedAt := now |}.

Definition StoreFormation (now : Z) (taskID : UUID) (formation : TeamFormation)
    : F (option string) :=
  err ← task_exec (alter (store_formation now formation) taskID);
  mret (match err with
        | Some e => Some ("storing team formation for task " ++ uuid_String taskID ++ ": " ++ e)
        | None => None
        end).

(** The part of [GetTask] that the handlers need. *)
Definition GetFormationTask (taskID : UUID) : F (result FormationTask string) :=
  r ← task_query (fun tasks => tasks !! taskID);
  mret (match r with
        | Ok (Some t) => Ok t
        | Ok None => Err ("querying task " ++ uuid_String taskID ++ ": no rows in result set")
        | Err e => Err ("querying task " ++ uuid_String taskID ++ ": " ++ e)
        end).

Record TeamRecommendRequest := {
  tr_TaskID : string;
  tr_RepoID : string;
  (** nothing, or a document that can be parsed or not *)
  tr_Plan : option (option PlanDocument);
  tr_Signals : option ComplexitySignals
}.

(** A response: a status with an error text, or a formation if there is one. *)
Inductive FormationReply :=
  | FError (status : Z) (text : string)
  | FFormation (f : option TeamFormation).

Definition team_event (taskID : UUID) (f : TeamFormation) : F unit := fun w =>
  (tt, {| fw_elo := fw_elo w; fw_tasks := fw_tasks w;
          fw_events := (fw_events w ++ [(taskID, f)])%list |}).

(** [service] is whether there is a formation service, [body] the decoded request, if it can
    be decoded. *)
Definition HandleTeamRecommend (service roleELO ws : bool) (now : Z)
    (body : option TeamRecommendRequest) : F FormationReply :=
  if negb service then mret (FError 503 "team formation service not configured")
  else match body with
  | None => mret (FError 400 "invalid request body")
  | Some req =>
      if String.eqb (tr_TaskID req) "" || String.eqb (tr_RepoID req) ""
      then mret (FError 400 "task_id and repo_id are required")
      else match uuid_Parse (tr_TaskID req) with
      | None => mret (FError 400 "invalid task_id")
      | Some taskID =>
          plan ← match tr_Plan req with
                 | Some p => mret (Ok p)
                 | None =>
                     t ← GetFormationTask taskID;
                     mret (match t with Ok t => Ok (ft_PlanDocument t) | Err e => Err e end)
                 end;
          match plan with
          | Err e => mret (FError 404 ("task not found: " ++ e))
          | Ok plan =>
              formation ← on_ratings (RecommendTeam roleELO now (tr_RepoID req) plan (tr_Signals req));
              _ ← StoreFormation now taskID formation;
              _ ← (if ws then team_event taskID formation else mret tt);
              mret (FFormation (Some formation))
          end
      end
  end.

Definition HandleGetTeamFormation (id : string) : F FormationReply :=
  match uuid_Parse id with
  | None => mret (FError 400 "invalid task id")
  | Some taskID =>
      t ← GetFormationTask taskID;
      mret (match t with
            | Err e => FError 404 ("task not found: " ++ e)
            | Ok t => FFormation (ft_TeamFormation t)
            end)
  end.
End formation.

(** ** The score is a number between 0 and 1 *)

Lemma of_int_negative n : n < 0 -> fle (of_int n) (of_int 0) = true.
Proof.
  intros Hn. destruct n as [|p|p]; [lia|lia|]. unfold of_int, binary_normalize.
  destruct (binary_round_sign true p 0) as [Hnan Hsign]. change (binary_normalize 53 1024 0 0 false)
    with (S754_zero false). by destruct (binary_round _ _ _ _ _) as [|[]| |[]].
Qed.

Lemma sigmoid_nonneg n mid :
  in_int64 n -> nonneg mid -> nonneg (formationSigmoid (of_int n) mid).
Proof.
  intros Hn Hmid. unfold formationSigmoid.
  destruct (fle (of_int n) (of_int 0)) eqn:Hle; [by apply of_int_nonneg|].
  assert (0 < n < 2 ^ 63) as Hpos.
  { unfold in_int64 in Hn. destruct (decide (n = 0)) as [->|]; [done|].
    destruct (decide (n < 0)); [by rewrite of_int_negative in Hle by done|lia]. }
  pose proof (of_int_nonneg n ltac:(lia)) as Hnn.
  destruct (of_int_finite n Hpos) as [(m & e & E)|E]; rewrite E in *; [|done].
  by apply fdiv_nonneg, fadd_nonneg.
Qed.

Lemma scaled_nonneg c y :
  match c with S754_finite false _ _ => true | _ => false end = true ->
  nonneg y -> nonneg (fmul c y).
Proof. intros Hc. destruct c as [| | |[]]; try done. apply fmul_nonneg. Qed.

Lemma bump_nonneg b x f : nonneg x -> nonneg f -> nonneg (bump b x f).
Proof. destruct b; [|done]. intros. by apply fadd_nonneg. Qed.

Lemma flag_score_nonneg s : nonneg (flag_score s).
Proof.
  unfold flag_score. destruct (Z.ltb_spec 0 (cs_TestFiles s)) as [Ht|]; cbn [bump].
  - apply fadd_nonneg.
    + repeat (apply bump_nonneg; [by vm_compute|]). by vm_compute.
    + apply scaled_nonneg; [by vm_compute|]. apply fmin_nonneg; apply of_int_nonneg; lia.
  - repeat (apply bump_nonneg; [by vm_compute|]). by vm_compute.
Qed.

(** The counts are Go integers. *)
Record counts_ok (s : ComplexitySignals) : Prop := {
  co_files : in_int64 (cs_FileCount s);
  co_steps : in_int64 (cs_StepCount s);
  co_description : in_int64 (cs_DescriptionLength s);
  co_languages : in_int64 (cs_LanguageCount s)
}.

Definition unit_number (f : float64) : Prop :=
  is_nan f = false /\ fle (of_int 0) f = true /\ fle f (of_int 1) = true.

Lemma score_unit s : counts_ok s -> unit_number (ComputeComplexityScore s).
Proof.
  intros [Hf Hs Hd Hl]. apply clamp_nonneg.
  repeat match goal with |- nonneg (fadd _ _) => apply fadd_nonneg end;
    (apply scaled_nonneg; [by vm_compute|]).
  1-4: apply sigmoid_nonneg; [done|by apply of_int_nonneg].
  apply fmin_nonneg; [apply flag_score_nonneg|by vm_compute].
Qed.

(** ** Roles *)

Definition labels : list string :=
  [FormationComplexityTrivial; formationLabelSmall; formationLabelMedium; formationLabelLarge;
   FormationComplexityCritical].

Lemma label_known score : FormationComplexityLabel score ∈ labels.
Proof. unfold FormationComplexityLabel, labels. repeat case_if; set_solver. Qed.

Lemma roles_count label s :
  label ∈ labels -> (1 <= List.length (RecommendRoles label s) <= 8)%nat.
Proof.
  unfold labels. rewrite !elem_of_cons.
  intros [->|[->|[->|[->|[->|[]%elem_of_nil]]]]]; cbn; unfold role_if;
    rewrite ?length_app; repeat case_if; cbn; lia.
Qed.

(** Nothing to trim: medium teams have no junior developer. *)
Lemma medium_without_junior s :
  (without_junior (RecommendRoles formationLabelMedium s)).2 = false.
Proof. cbn. unfold role_if. by destruct (cs_HasSecurityImpact s), (cs_HasUIChanges s). Qed.

Definition no_restricted (m : gmap string RoleELOInfo) : Prop :=
  map_Forall (fun _ i => ri_Tier i <> TierRestricted) m.

Lemma count_no_restricted m : no_restricted m -> count_tier TierRestricted m = 0.
Proof.
  intros Hm. unfold count_tier. replace (filter _ m) with (∅ : gmap string RoleELOInfo).
  - done.
  - symmetry. apply map_empty. intros k. apply map_lookup_filter_None. right. intros i Hk.
    by apply (Hm k).
Qed.

(** Without a restricted role the adjustments add nothing, and take nothing away. *)
Lemma adjustments_idle m label s first :
  no_restricted m -> label ∈ labels ->
  back_up_security m s (trim_team m label (supervise m label (RecommendRoles label s, first))) =
  (RecommendRoles label s, first).
Proof.
  intros Hm Hl. unfold supervise. rewrite (count_no_restricted m Hm). cbn [Z.ltb andb].
  change (0 <? 0) with false. cbn [andb].
  assert (trim_team m label (RecommendRoles label s, first) = (RecommendRoles label s, first)) as ->.
  { unfold trim_team. destruct (_ && _ && _) eqn:E; [|done]. bool_to_prop.
    match goal with H : String.eqb _ _ = true |- _ => apply String.eqb_eq in H as -> end.
    pose proof (medium_without_junior s) as Hj. cbn [fst].
    destruct (without_junior _) as [l b]. cbn in Hj. by subst. }
  unfold back_up_security. destruct (m !! "security") as [i|] eqn:E; [|done].
  rewrite (proj2 (String.eqb_neq _ _) (Hm _ _ E)). done.
Qed.

(** ** The ratings that are asked *)

(** A reading of the ratings changes nothing but the list of failures. *)
Definition same_ratings (w w' : EloWorld) : Prop :=
  el_roles w' = el_roles w /\ el_history w' = el_history w /\ el_agents w' = el_agents w.

Lemma next_fault_same w : same_ratings w (next_fault w).2.
Proof. done. Qed.

Lemma TierForRole_reads role repoID w :
  roles_ok w -> exists t, TierForRole role repoID w = (t, (next_fault w).2) /\
    t.1 <> TierRestricted.
Proof.
  intros Hw. unfold TierForRole, elo_query, mbind, E_bind.
  destruct (next_fault w) as [b w'] eqn:En.
  assert (el_roles w' = el_roles w) as Er by (by injection En as _ <-).
  destruct b; [by eexists|]. rewrite Er. destruct (el_roles w !! (role, repoID)) as [re|] eqn:E.
  - eexists. split; [done|]. cbn. specialize (Hw _ _ E). rewrite (ok_tier re Hw).
    apply above_floor_tier, (ok_floor re Hw).
  - by eexists.
Qed.

Lemma query_roles_reads repoID roles m w :
  roles_ok w -> no_restricted m -> exists m' w', query_roles repoID roles m w = (m', w') /\
    same_ratings w w' /\ no_restricted m'.
Proof.
  revert m w. induction roles as [|role roles IH]; intros m w Hw Hm; [by exists m, w|].
  destruct (TierForRole_reads role repoID w Hw) as (t & E & Ht).
  destruct (next_fault_same w) as (E1 & E2 & E3). set (w1 := (next_fault w).2) in *.
  destruct (IH (<[role := {| ri_ELO := t.2; ri_Tier := t.1 |}]> m) w1) as (m' & w' & E' & (? & ? & ?) & Hm').
  - unfold roles_ok. by rewrite E1.
  - by apply map_Forall_insert_2.
  - exists m', w'. cbn [query_roles]. unfold mbind, E_bind. rewrite E. cbn beta iota. rewrite E'.
    split; [done|]. split; [|done]. split_and!; congruence.
Qed.

Section theorems.
Context `{UnicodeTables} `{RowOrder} `{UuidText}.

(** The ratings never change a team.  A role of the tables that the rating service keeps
    is never restricted, and a medium team has no junior developer to leave out, so whatever the
    ratings are and whichever query fails, the recommended roles are those of the label of the
    score; the score is a number between 0 and 1, the label one of the five, and the team has
    from two to nine members.  The ratings are left as they are. *)
Theorem RecommendTeam_ignores_ratings roleELO now repoID plan override w :
  roles_ok w ->
  let signals := match override with Some s => s | None => ExtractSignalsFromPlan plan end in
  let score := ComputeComplexityScore signals in
  counts_ok signals ->
  exists f w', RecommendTeam roleELO now repoID plan override w = (f, w') /\ same_ratings w w' /\
    unit_number score /\ tf_ComplexityScore f = rounded score /\
    tf_ComplexityLabel f = FormationComplexityLabel score /\ tf_ComplexityLabel f ∈ labels /\
    tf_RecommendedRoles f = RecommendRoles (tf_ComplexityLabel f) signals /\
    tf_TeamSize f = Z.of_nat (List.length (tf_RecommendedRoles f)) + 1 /\ 2 <= tf_TeamSize f <= 9.
Proof.
  intros Hw signals score Hc. unfold RecommendTeam. fold signals. fold score.
  set (label := FormationComplexityLabel score).
  assert (exists m w', (if roleELO then query_roles repoID (RecommendRoles label signals) ∅
    else mret ∅) w = (m, w') /\ same_ratings w w' /\ no_restricted m) as (m & w' & Em & Hsame & Hm).
  { destruct roleELO; [by apply query_roles_reads|by eexists ∅, _]. }
  unfold mbind, E_bind. rewrite Em.
  assert (exists reasoning, eloAdjustments (RecommendRoles label signals) m label signals =
    (RecommendRoles label signals, reasoning)) as [reasoning ->].
  { unfold eloAdjustments. rewrite adjustments_idle by (done || apply label_known). eauto. }
  pose proof (roles_count label signals (label_known score)) as Hlen.
  eexists _, w'. split; [reflexivity|].
  cbn [tf_ComplexityScore tf_ComplexityLabel tf_RecommendedRoles tf_TeamSize].
  split; [exact Hsame|]. split; [exact (score_unit _ Hc)|].
  split; [reflexivity|]. split; [reflexivity|]. split; [apply label_known|].
  split; [reflexivity|]. split; [reflexivity|]. lia.
Qed.

(** ** Signals *)

Lemma existsb_perm {A} (p : A -> bool) l1 l2 : l1 ≡ₚ l2 -> existsb p l1 = existsb p l2.
Proof.
  intros Hp. apply eq_iff_eq_true. rewrite !existsb_elem_of.
  split; intros (x & Hx & Hb); exists x; (split; [|done]); by (rewrite Hp || rewrite <- Hp).
Qed.

Lemma count_files_perm p l1 l2 : l1 ≡ₚ l2 -> count_files p l1 = count_files p l2.
Proof.
  intros Hp. unfold count_files. f_equal. apply Permutation_length. induction Hp; cbn.
  - done.
  - destruct (p x); [by constructor|done].
  - destruct (p x), (p y); try done. by constructor.
  - by etrans.
Qed.

Lemma omap_set_perm {A} (f : A -> option string) l1 l2 :
  l1 ≡ₚ l2 -> (list_to_set (omap f l1) : gset string) = list_to_set (omap f l2).
Proof.
  intros Hp. apply set_eq. intros x. rewrite !elem_of_list_to_set, !list_elem_of_omap.
  split; intros (a & Ha & Hf); exists a; (split; [|done]); by (rewrite Hp || rewrite <- Hp).
Qed.

(** The signals of a plan do not depend on the order of its files, which are counted
    right: at most as many test files as files, and as many languages as distinct ones are
    listed, in alphabetical order. *)
Theorem ExtractSignals_order summary steps files files' :
  files ≡ₚ files' ->
  let signals l := ExtractSignalsFromPlan
    (Some {| pd_Summary := summary; pd_Steps := steps; pd_AffectedFiles := l |}) in
  signals files = signals files' /\
  0 <= cs_TestFiles (signals files) <= cs_FileCount (signals files) /\
  NoDup (cs_Languages (signals files)) /\ Sorted String.le (cs_Languages (signals files)) /\
  cs_LanguageCount (signals files) = Z.of_nat (List.length (cs_Languages (signals files))) /\
  forall lang, lang ∈ cs_Languages (signals files) <->
    exists f, f ∈ files /\ file_language f = Some lang.
Proof.
  intros Hp. cbv zeta. split; [|split_and!].
  - cbn. rewrite (omap_set_perm file_language _ _ Hp), (omap_set_perm top_dir _ _ Hp).
    assert (map ToLower files ≡ₚ map ToLower files') as Hl by (by apply Permutation_map).
    rewrite !(existsb_perm _ _ _ Hl), (count_files_perm _ _ _ Hl), (Permutation_length Hp). done.
  - cbn. unfold count_files. lia.
  - cbn. unfold count_files. rewrite <- (length_map ToLower files).
    apply inj_le, List.filter_length_le.
  - cbn. unfold sort_strings. rewrite merge_sort_Permutation, row_order_perm. apply NoDup_elements.
  - apply Sorted_merge_sort, _.
  - done.
  - intros lang. cbn. unfold sort_strings. rewrite merge_sort_Permutation, row_order_perm.
    by rewrite elem_of_elements, elem_of_list_to_set, list_elem_of_omap.
Qed.

(** ** The handlers *)

Lemma next_fault_quiet w : el_faults w = [] -> next_fault w = (false, w).
Proof. destruct w; cbn. by intros ->. Qed.

Lemma query_roles_quiet repoID roles m w :
  el_faults w = [] -> exists m', query_roles repoID roles m w = (m', w).
Proof.
  intros Hf. revert m. induction roles as [|role roles IH]; intros m; [by eexists|].
  cbn [query_roles]. unfold mbind, E_bind, TierForRole, elo_query, mbind, E_bind.
  rewrite (next_fault_quiet w Hf). destruct (el_roles w !! (role, repoID)); apply IH.
Qed.

Lemma RecommendTeam_quiet roleELO now repoID plan override w :
  el_faults w = [] -> exists f, RecommendTeam roleELO now repoID plan override w = (f, w).
Proof.
  intros Hf. unfold RecommendTeam. set (roles := RecommendRoles _ _).
  assert (exists m, (if roleELO then query_roles repoID roles ∅ else mret ∅) w = (m, w)) as [m Em].
  { destruct roleELO; [by apply query_roles_quiet|by eexists]. }
  unfold mbind, E_bind. rewrite Em. destruct (eloAdjustments _ _ _ _). by eexists.
Qed.

Lemma on_ratings_run {A} (m : E A) w a :
  m (fw_elo w) = (a, fw_elo w) -> on_ratings m w = (a, w).
Proof. intros E. unfold on_ratings. rewrite E. by destruct w. Qed.

Lemma task_query_quiet {A} (f : _ -> A) w :
  el_faults (fw_elo w) = [] -> task_query f w = (Ok (f (fw_tasks w)), w).
Proof.
  intros Hf. unfold task_query. by rewrite (on_ratings_run _ _ false) by (by apply next_fault_quiet).
Qed.

Lemma GetFormationTask_quiet id t w :
  el_faults (fw_elo w) = [] -> fw_tasks w !! id = Some t -> GetFormationTask id w = (Ok t, w).
Proof.
  intros Hf Ht. unfold GetFormationTask, mbind, F_bind. by rewrite (task_query_quiet _ _ Hf), Ht.
Qed.

Lemma StoreFormation_quiet now id f w :
  el_faults (fw_elo w) = [] ->
  StoreFormation now id f w = (None, set_task_rows (alter (store_formation now f) id) w).
Proof.
  intros Hf. unfold StoreFormation, task_exec, mbind, F_bind.
  by rewrite (on_ratings_run _ _ false) by (by apply next_fault_quiet).
Qed.

(** If no statement fails, the formation that a recommendation returns for a task, from
    the plan of the request or that of the task, is what the task shows afterwards; nothing else
    of the tables changes, and the hub is told. *)
Theorem recommend_then_get roleELO ws now s id repoID plan signals t w :
  uuid_Parse s = Some id -> s <> "" -> repoID <> "" ->
  el_faults (fw_elo w) = [] -> fw_tasks w !! id = Some t ->
  exists f w',
    HandleTeamRecommend true roleELO ws now
      (Some {| tr_TaskID := s; tr_RepoID := repoID; tr_Plan := plan; tr_Signals := signals |}) w =
      (FFormation (Some f), w') /\
    HandleGetTeamFormation s w' = (FFormation (Some f), w') /\
    RecommendTeam roleELO now repoID (default (ft_PlanDocument t) plan) signals (fw_elo w) =
      (f, fw_elo w) /\
    fw_elo w' = fw_elo w /\ fw_tasks w' = <[id := store_formation now f t]> (fw_tasks w) /\
    fw_events w' = (fw_events w ++ if ws then [(id, f)] else [])%list.
Proof.
  intros Hs Hne Hrepo Hf Ht.
  destruct (RecommendTeam_quiet roleELO now repoID (default (ft_PlanDocument t) plan) signals _ Hf)
    as [f Ef].
  set (w1 := set_task_rows (alter (store_formation now f) id) w).
  set (w2 := if ws then (team_event id f w1).2 else w1).
  assert (fw_tasks w2 = <[id := store_formation now f t]> (fw_tasks w)) as Erows.
  { assert (fw_tasks w2 = alter (store_formation now f) id (fw_tasks w)) as -> by (unfold w2; by destruct ws).
    apply map_eq. intros j. destruct (decide (id = j)) as [<-|].
    - by rewrite lookup_alter_eq, lookup_insert_eq, Ht.
    - by rewrite lookup_alter_ne, lookup_insert_ne. }
  assert (fw_elo w2 = fw_elo w) as Eelo by (unfold w2; by destruct ws).
  exists f, w2. split_and!; try done.
  - unfold HandleTeamRecommend. cbn [negb tr_TaskID tr_RepoID tr_Plan tr_Signals].
    rewrite (proj2 (String.eqb_neq _ _) Hne), (proj2 (String.eqb_neq _ _) Hrepo), Hs. cbn [orb].
    assert (forall k : result (option PlanDocument) string -> F FormationReply,
      (match plan with
       | Some p => mret (Ok p)
       | None => t ← GetFormationTask id;
                 mret (match t with Ok t => Ok (ft_PlanDocument t) | Err e => Err e end)
       end ≫= k) w = k (Ok (default (ft_PlanDocument t) plan)) w) as ->.
    { intros k. destruct plan; [done|]. unfold mbind, F_bind. by rewrite (GetFormationTask_quiet _ t). }
    unfold mbind, F_bind. rewrite (on_ratings_run _ _ f Ef), StoreFormation_quiet by done.
    fold w1. unfold w2. by destruct ws.
  - unfold HandleGetTeamFormation. rewrite Hs. unfold mbind, F_bind.
    rewrite (GetFormationTask_quiet _ (store_formation now f t)); [done|by rewrite Eelo|].
    by rewrite Erows, lookup_insert_eq.
  - unfold w2. destruct ws; [done|]. cbn. by rewrite app_nil_r.
Qed.
End theorems.

(** ** Evaluation *)

#[local] Instance table_order : RowOrder :=
  {| row_order := fun _ l => l; row_order_perm := fun _ l => reflexivity l |}.
#[local] Instance no_tables : UnicodeTables :=
  {| unicode_to_lower := id; unicode_to_upper := id |}.
#[local] Existing Instance unary_uuid.

Definition sample_plan : PlanDocument := {|
  pd_Summary := "Rotate the JWT signing keys"; pd_Steps := ["a"; "b"; "c"];
  pd_AffectedFiles := ["src/auth/keys.go"; "src/auth/keys_test.go"; "db/migrations/7.sql";
                       "web/src/page.tsx"] |}.

Example sample_signals :
  ExtractSignalsFromPlan (Some sample_plan) =
  {| cs_FileCount := 4; cs_StepCount := 3; cs_DescriptionLength := 27; cs_LanguageCount := 3;
     cs_TestFiles := 1; cs_HasMigrations := true; cs_CrossPackage := true; cs_HasAPIChanges := false;
     cs_HasSecurityImpact := true; cs_HasUIChanges := true;
     cs_Languages := ["go"; "sql"; "typescript"] |}.
Proof. by vm_compute. Qed.

(** Three files of one directory at the root count as three packages. *)
Example one_directory_is_cross_package :
  cs_CrossPackage (ExtractSignalsFromPlan (Some {| pd_Summary := ""; pd_Steps := [];
    pd_AffectedFiles := ["pkg/a.go"; "pkg/b.go"; "pkg/c.go"] |})) = true.
Proof. by vm_compute. Qed.

Definition sample_world : FormationWorld := {|
  fw_elo := no_ratings;
  fw_tasks := {[ 3%N := {| ft_PlanDocument := Some sample_plan; ft_TeamFormation := None;
                           ft_UpdatedAt := 0 |} ]};
  fw_events := [] |}.

Example sample_team :
  (fun f => (tf_ComplexityLabel f, tf_RecommendedRoles f, tf_TeamSize f, tf_Reasoning f))
    (RecommendTeam true 5 "r" (Some sample_plan) None no_ratings).1 =
  ("medium", ["senior_dev"; "qa"; "security"; "ui_ux"], 5,
   "Medium complexity: 4 files, 3 steps, 3 languages. " ++
   "ELO: qa=1200(standard), security=1200(standard), senior_dev=1200(standard), ui_ux=1200(standard)").
Proof. by vm_compute. Qed.

Lemma RecommendTeam_ignores_ratings_witness :
  exists f w', RecommendTeam true 5 "r" (Some sample_plan) None no_ratings = (f, w') /\
    tf_RecommendedRoles f = ["senior_dev"; "qa"; "security"; "ui_ux"] /\ tf_TeamSize f = 5.
Proof.
  destruct (RecommendTeam_ignores_ratings true 5 "r" (Some sample_plan) None no_ratings)
    as (f & w' & E & _ & _ & _ & El & _ & Er & Es & _).
  - apply map_Forall_empty.
  - rewrite sample_signals. by split.
  - cbv beta iota in El, Er. rewrite sample_signals in El, Er.
    assert (tf_RecommendedRoles f = ["senior_dev"; "qa"; "security"; "ui_ux"]) as Hr
      by (rewrite Er, El; vm_compute; reflexivity).
    exists f, w'. split_and!; [exact E|exact Hr|]. by rewrite Es, Hr.
Defined.

Lemma ExtractSignals_order_witness :
  ["a/b/c.go"; "d.py"] ≡ₚ ["d.py"; "a/b/c.go"] /\
  cs_LanguageCount (ExtractSignalsFromPlan (Some {| pd_Summary := ""; pd_Steps := [];
    pd_AffectedFiles := ["a/b/c.go"; "d.py"] |})) =
  cs_LanguageCount (ExtractSignalsFromPlan (Some {| pd_Summary := ""; pd_Steps := [];
    pd_AffectedFiles := ["d.py"; "a/b/c.go"] |})).
Proof.
  split; [by constructor|].
  destruct (ExtractSignals_order "" [] ["a/b/c.go"; "d.py"] ["d.py"; "a/b/c.go"]) as [E _].
  - by constructor.
  - by rewrite E.
Defined.

Lemma recommend_then_get_witness :
  exists f w',
    HandleTeamRecommend true true true 5
      (Some {| tr_TaskID := "xxx"; tr_RepoID := "r"; tr_Plan := None; tr_Signals := None |})
      sample_world = (FFormation (Some f), w') /\
    HandleGetTeamFormation "xxx" w' = (FFormation (Some f), w').
Proof.
  destruct (recommend_then_get true true 5 "xxx" 3%N "r" None None
    {| ft_PlanDocument := Some sample_plan; ft_TeamFormation := None; ft_UpdatedAt := 0 |}
    sample_world) as (f & w' & E & Eg & _); [by vm_compute|done|done|done|done|].
  exists f, w'. split; [exact E|exact Eg].
Defined.

(** A restricted role, which the rating service never writes, would get a supervisor. *)
Definition restricted_security : EloWorld := {|
  el_roles := {[ ("security", "r") :=
    {| re_ELOScore := of_int 900; re_Tier := TierRestricted; re_TasksDone := 9; re_TasksRated := 9;
       re_AvgRating := of_int 1; re_Wins := 0; re_Losses := 9; re_ConsensusAvg := of_int 0;
       re_BestStrategy := ""; re_TrainingProbes := 0; re_LastActive := 0; re_CreatedAt := 0;
       re_UpdatedAt := 0 |} ]};
  el_history := []; el_agents := ∅; el_faults := [] |}.
Example restricted_role_is_backed_up :
  tf_RecommendedRoles (RecommendTeam true 5 "r" (Some sample_plan) None restricted_security).1 =
  ["senior_dev"; "qa"; "security"; "ui_ux"; "architect"].
Proof. by vm_compute. Qed.

(** A hundred files, fifty steps, eight languages, migrations, new interfaces and a security
    impact are not critical yet. *)
Example hardly_critical :
  FormationComplexityLabel (ComputeComplexityScore
    {| cs_FileCount := 100; cs_StepCount := 50; cs_DescriptionLength := 3000; cs_LanguageCount := 8;
       cs_TestFiles := 20; cs_HasMigrations := true; cs_CrossPackage := true;
       cs_HasAPIChanges := true; cs_HasSecurityImpact := true; cs_HasUIChanges := true;
       cs_Languages := [] |}) = "large".
Proof. by vm_compute. Qed.
