(* ===== verification/Complexity.v ===== *)
(** * Build complexity ([internal/sandbox/complexity.go])

    Signals, score, label, resource hints and history statistics, on [float64]
    values.  The record of a build is that of [store.go]. *)

From Stdlib Require Import ZArith Lia Ascii String SpecFloat.
From stdpp Require Import base list gmap strings sorting.
From S2P Require Import Prelude GoStrings SwarmDb TeamManager Sandbox Redact.
From S2P Require Import Fingerprint DockerRuntime GoFloat.
Local Open Scope string_scope.
Local Open Scope Z_scope.

(** ** Data *)

Definition BuildComplexityTrivial := "trivial".
Definition BuildComplexitySimple := "simple".
Definition BuildComplexityModerate := "moderate".
Definition BuildComplexityHigh := "high".
Definition BuildComplexityCritical := "critical".

Record BuildSignals := {
  sg_BuildSystem : string;
  sg_FileCount : Z;
  sg_WorkspaceBytes : Z;
  sg_SecretCount : Z;
  sg_HasPreCommands : bool;
  sg_LanguageCount : Z;
  sg_ArtifactCount : Z;
  sg_CoverageFound : bool;
  sg_DurationSec : float64;
  sg_ExitCode : Z;
  sg_RetryCount : Z;
  sg_CacheHit : bool
}.

Record ResourceHints := {
  rh_TimeoutSec : Z;
  rh_MemoryLimit : string;
  rh_CPULimit : string
}.

Record BuildComplexity := {
  bc_Score : float64;
  bc_Label : string;
  bc_Signals : BuildSignals;
  bc_ResourceHints : ResourceHints;
  bc_DurationBucket : string;
  bc_FailureProbability : float64
}.

(** A nil slice of secret names is [None]. *)
Record BuildRecord := {
  rec_ID : UUID;
  rec_TaskID : UUID;
  rec_RepoID : string;
  rec_UserID : option UUID;
  rec_BuildSystem : string;
  rec_Command : string;
  rec_BaseImage : string;
  rec_Status : string;
  rec_ExitCode : option Z;
  rec_LogSummary : string;
  rec_SecretNames : option (list string);
  rec_SandboxMode : bool;
  rec_RetryCount : Z;
  rec_DurationMS : option Z;
  rec_CreatedAt : Z;
  rec_CompletedAt : option Z
}.

Record HistoricalBuildStats := {
  hs_TotalBuilds : Z;
  hs_SuccessRate : float64;
  hs_AvgDurationSec : float64;
  hs_P95DurationSec : float64;
  hs_AvgRetries : float64
}.

Definition zero : float64 := of_int 0.

(** ** Helpers *)

(** [value / (value + midpoint)] *)
Definition sigmoid (value midpoint : float64) : float64 :=
  if fle value zero then zero else fdiv value (fadd value midpoint).

Definition durationBucket (sec : float64) : string :=
  if fle sec zero then "unknown"
  else if flt sec (of_int 10) then "instant"
  else if flt sec (of_int 30) then "fast"
  else if flt sec (of_int 120) then "normal"
  else if flt sec (of_int 300) then "slow"
  else "very_slow".

(** Scan backwards for a dot before a slash: the same loop as [path.Ext]. *)
Definition extensionOf (path : string) : string := Ext path.

Definition language_of_ext (ext : string) : option string :=
  if String.eqb ext ".go" then Some "go"
  else if String.eqb ext ".py" then Some "python"
  else if mem_string ext [".ts"; ".tsx"] then Some "typescript"
  else if mem_string ext [".js"; ".jsx"] then Some "javascript"
  else if String.eqb ext ".java" then Some "java"
  else if String.eqb ext ".rs" then Some "rust"
  else if mem_string ext [".c"; ".h"] then Some "c"
  else if mem_string ext [".cpp"; ".cc"; ".hpp"] then Some "cpp"
  else if String.eqb ext ".rb" then Some "ruby"
  else None.

Definition language_of_system (bs : string) : option string :=
  if String.eqb bs "go" then Some "go"
  else if mem_string bs ["gradle"; "maven"] then Some "java"
  else if mem_string bs ["python"; "pip"] then Some "python"
  else if mem_string bs ["node"; "npm"; "yarn"] then Some "javascript"
  else if mem_string bs ["cargo"; "rust"] then Some "rust"
  else if mem_string bs ["cmake"; "make"] then Some "cpp"
  else None.

Section complexity.
Context `{UnicodeTables} `{RowOrder}.

Definition buildSystemWeight (bs : string) : float64 :=
  let bs := ToLower bs in
  if mem_string bs ["gradle"; "maven"] then lit 7 10
  else if String.eqb bs "cmake" then lit 6 10
  else if mem_string bs ["rust"; "cargo"] then lit 5 10
  else if String.eqb bs "go" then lit 3 10
  else if mem_string bs ["node"; "npm"; "yarn"] then lit 35 100
  else if mem_string bs ["python"; "pip"] then lit 25 100
  else if String.eqb bs "make" then lit 4 10
  else lit 5 10.

Definition langSet (plan : BuildPlan) : gset string :=
  let langs := list_to_set (omap (fun kv => language_of_ext (ToLower (extensionOf kv.1)))
                                 (range_map (bp_WorkspaceFS plan))) in
  if decide (langs = ∅) then
    match language_of_system (ToLower (bp_BuildSystem plan)) with
    | Some l => {[l]}
    | None => ∅
    end
  else langs.

Definition detectLanguages (plan : BuildPlan) : list string :=
  sort_strings (row_order (elements (langSet plan))).

(** [Duration.Seconds]: whole seconds plus the nanoseconds over 1e9. *)
Definition duration_seconds (d : Z) : float64 :=
  fadd (of_int (Z.quot d second)) (fdiv (of_int (Z.rem d second)) (of_int second)).

Definition ExtractBuildSignals (plan : BuildPlan) (result : option BuildResult)
    : BuildSignals :=
  {| sg_BuildSystem := bp_BuildSystem plan;
     sg_FileCount := Z.of_nat (size (bp_WorkspaceFS plan));
     sg_WorkspaceBytes := WorkspaceSize (bp_WorkspaceFS plan);
     sg_SecretCount := Z.of_nat (List.length (bp_SecretRefs plan));
     sg_HasPreCommands := negb (Nat.eqb (List.length (bp_PreCommands plan)) 0);
     sg_LanguageCount := Z.of_nat (List.length (detectLanguages plan));
     sg_ArtifactCount := 0;
     sg_CoverageFound := false;
     sg_DurationSec := match result with
                       | Some r => duration_seconds (br_Duration r) | None => zero end;
     sg_ExitCode := match result with Some r => br_ExitCode r | None => 0 end;
     sg_RetryCount := 0;
     sg_CacheHit := match bp_Cache plan with Some _ => true | None => false end |}.

(** ** Score and label *)

Definition add_if (b : bool) (x acc : float64) : float64 := if b then fadd acc x else acc.

Definition flag_score (s : BuildSignals) : float64 :=
  add_if (negb (sg_CacheHit s)) (lit 5 100)
    (add_if (negb (sg_ExitCode s =? 0)) (lit 15 100)
      (add_if (0 <? sg_RetryCount s)
              (fmul (lit 10 100) (fmin (of_int (sg_RetryCount s)) (of_int 2)))
        (add_if (0 <? sg_SecretCount s) (lit 10 100)
          (add_if (sg_HasPreCommands s) (lit 8 100) zero)))).

Definition megabytes (n : Z) : float64 := fdiv (of_int n) (of_int (1024 * 1024)).

Definition raw_score (s : BuildSignals) : float64 :=
  let fileDim := sigmoid (of_int (sg_FileCount s)) (of_int 15) in
  let sizeDim := sigmoid (megabytes (sg_WorkspaceBytes s)) (of_int 5) in
  let secretDim := sigmoid (of_int (sg_SecretCount s)) (of_int 3) in
  let langDim := sigmoid (of_int (sg_LanguageCount s)) (of_int 2) in
  let durationDim := sigmoid (sg_DurationSec s) (of_int 120) in
  let bsFactor := buildSystemWeight (sg_BuildSystem s) in
  fadd (fadd (fadd (fadd (fadd (fadd
    (fmul (lit 20 100) fileDim)
    (fmul (lit 10 100) sizeDim))
    (fmul (lit 10 100) secretDim))
    (fmul (lit 10 100) langDim))
    (fmul (lit 15 100) durationDim))
    (fmul (lit 15 100) (fmin (flag_score s) (lit 50 100))))
    (fmul (lit 20 100) bsFactor).

Definition ScoreBuildComplexity (s : BuildSignals) : float64 :=
  clamp zero (of_int 1) (raw_score s).

Definition ClassifyBuildComplexity (score : float64) : string :=
  if flt score (lit 10 100) then BuildComplexityTrivial
  else if flt score (lit 30 100) then BuildComplexitySimple
  else if flt score (lit 55 100) then BuildComplexityModerate
  else if flt score (lit 80 100) then BuildComplexityHigh
  else BuildComplexityCritical.

Definition failureProbability (s : BuildSignals) : float64 :=
  let p := add_if (sg_HasPreCommands s) (lit 5 100)
             (add_if (negb (sg_CacheHit s)) (lit 5 100)
               (add_if (2 <? sg_LanguageCount s) (lit 10 100)
                 (add_if (0 <? sg_SecretCount s) (lit 15 100) zero))) in
  clamp zero (of_int 1)
    (fadd p (fmul (lit 5 100) (buildSystemWeight (sg_BuildSystem s)))).

(** ** Resources *)

Definition default_hints : ResourceHints :=
  {| rh_TimeoutSec := DefaultTimeout / second; rh_MemoryLimit := DefaultMemoryLimit;
     rh_CPULimit := DefaultCPULimit |}.

Definition size_score (s : BuildSignals) : float64 :=
  fadd (fmul (of_int (sg_FileCount s)) (lit 5 10)) (megabytes (sg_WorkspaceBytes s)).

Definition hint_timeout (s : BuildSignals) : Z :=
  let t := if flt (of_int 300) (sg_DurationSec s) then 900
           else if flt (of_int 120) (sg_DurationSec s) then 600
           else rh_TimeoutSec default_hints in
  if (0 <? sg_RetryCount s) && negb (sg_ExitCode s =? 0)
  then
    let t := to_int (fmul (of_int t) (lit 15 10)) in
    if 1200 <? t then 1200 else t
  else t.

Definition hint_memory (s : BuildSignals) : string :=
  let m := if flt (of_int 50) (size_score s) then "4g"
           else if flt (of_int 20) (size_score s) then "3g"
           else DefaultMemoryLimit in
  if mem_string (sg_BuildSystem s) ["gradle"; "maven"] && String.eqb m DefaultMemoryLimit
  then "3g" else m.

Definition hint_cpu (s : BuildSignals) : string :=
  let c := if flt (of_int 50) (size_score s) then "4"
           else if flt (of_int 20) (size_score s) then "3"
           else DefaultCPULimit in
  if String.eqb (sg_BuildSystem s) "cmake" && String.eqb c DefaultCPULimit then "3" else c.

(** The fields of the hints depend on each other nowhere. *)
Definition RecommendResources (s : BuildSignals) : ResourceHints :=
  {| rh_TimeoutSec := hint_timeout s; rh_MemoryLimit := hint_memory s;
     rh_CPULimit := hint_cpu s |}.

Definition ComputeBuildComplexity (plan : BuildPlan) (result : option BuildResult)
    : BuildComplexity :=
  let signals := ExtractBuildSignals plan result in
  let score := ScoreBuildComplexity signals in
  {| bc_Score := fdiv (fround (fmul score (of_int 1000))) (of_int 1000);
     bc_Label := ClassifyBuildComplexity score; bc_Signals := signals;
     bc_ResourceHints := RecommendResources signals;
     bc_DurationBucket := durationBucket (sg_DurationSec signals);
     bc_FailureProbability := failureProbability signals |}.

(** ** History *)

(** The durations in seconds, in the order of the records. *)
Definition record_durations (records : list BuildRecord) : list float64 :=
  omap (fun r => (fun ms => fdiv (of_int ms) (of_int 1000)) <$> rec_DurationMS r) records.

(** [sort.Float64s] on numbers. *)
Definition sort_floats (l : list float64) : list float64 :=
  merge_sort (fun x y => Is_true (fle x y)) l.

Definition p95_index (n : nat) : nat :=
  let p95Idx := to_int (fceil (fmul (of_int (Z.of_nat n)) (lit 95 100))) - 1 in
  let p95Idx := if p95Idx <? 0 then 0 else p95Idx in
  let p95Idx := if Z.of_nat n <=? p95Idx then Z.of_nat n - 1 else p95Idx in
  Z.to_nat p95Idx.

Definition ComputeHistoricalStats (records : list BuildRecord) : HistoricalBuildStats :=
  match records with
  | [] => {| hs_TotalBuilds := 0; hs_SuccessRate := zero; hs_AvgDurationSec := zero;
             hs_P95DurationSec := zero; hs_AvgRetries := zero |}
  | _ =>
      let n := of_int (Z.of_nat (List.length records)) in
      let successCount := Z.of_nat (List.length
        (List.filter (fun r => String.eqb (rec_Status r) "success") records)) in
      let totalRetries := fold_left (fun a r => wrap64 (a + rec_RetryCount r)) records 0 in
      let durations := record_durations records in
      let totalDuration := fold_left fadd durations zero in
      {| hs_TotalBuilds := Z.of_nat (List.length records);
         hs_SuccessRate := fdiv (of_int successCount) n;
         hs_AvgDurationSec :=
           match durations with
           | [] => zero
           | _ => fdiv totalDuration (of_int (Z.of_nat (List.length durations)))
           end;
         hs_P95DurationSec :=
           match durations with
           | [] => zero
           | _ => nth (p95_index (List.length durations)) (sort_floats durations) S754_nan
           end;
         hs_AvgRetries := fdiv (of_int totalRetries) n |}
  end.

Definition refine_timeout (base : Z) (p95 : float64) : Z :=
  if flt zero p95 then
    let suggested := to_int (fmul p95 (lit 13 10)) in
    let t := if base <? suggested then suggested else base in
    if 1200 <? t then 1200 else t
  else base.

Definition refine_memory (base : string) (rate : float64) (total : Z) : string :=
  if flt rate (lit 5 10) && (3 <=? total) then
    if String.eqb base "2g" then "3g" else if String.eqb base "3g" then "4g" else base
  else base.

Definition RefineResourceHints (base : ResourceHints) (history : option HistoricalBuildStats)
    : ResourceHints :=
  match history with
  | None => base
  | Some h =>
      if hs_TotalBuilds h =? 0 then base
      else {| rh_TimeoutSec := refine_timeout (rh_TimeoutSec base) (hs_P95DurationSec h);
              rh_MemoryLimit := refine_memory (rh_MemoryLimit base) (hs_SuccessRate h)
                                  (hs_TotalBuilds h);
              rh_CPULimit := rh_CPULimit base |}
  end.

(** Three decimals. *)
Definition formatFloat (f : float64) : string :=
  let i := to_int (fmul f (of_int 1000)) in
  let whole := Z.quot i 1000 in
  let frac := Z.rem i 1000 in
  if frac =? 0 then intToStr whole ++ ".000"
  else intToStr whole ++ "." ++
       (if frac <? 10 then "00" else if frac <? 100 then "0" else "") ++ intToStr frac.

Definition BuildComplexitySummary (c : option BuildComplexity) : string :=
  match c with
  | None => "complexity=unknown"
  | Some c =>
      "complexity=" ++ bc_Label c ++ " score=" ++ formatFloat (bc_Score c)
      ++ " duration=" ++ bc_DurationBucket c ++ " resources="
      ++ rh_MemoryLimit (bc_ResourceHints c) ++ "/" ++ rh_CPULimit (bc_ResourceHints c)
  end.

(** ** Properties *)

Lemma hint_timeout_cases s :
  hint_timeout s =
    if (0 <? sg_RetryCount s) && negb (sg_ExitCode s =? 0)
    then if flt (of_int 300) (sg_DurationSec s) then 1200 else 900
    else if flt (of_int 300) (sg_DurationSec s) then 900 else 600.
Proof.
  assert (to_int (fmul (of_int 900) (lit 15 10)) = 1350) as E900 by (vm_compute; done).
  assert (to_int (fmul (of_int 600) (lit 15 10)) = 900) as E600 by (vm_compute; done).
  unfold hint_timeout. change (rh_TimeoutSec default_hints) with 600.
  destruct (flt (of_int 300) (sg_DurationSec s)), (flt (of_int 120) (sg_DurationSec s)),
    (_ && _); by rewrite ?E900, ?E600.
Qed.

(** Whatever the signals, the hints stay on the documented scale: a timeout of
    10, 15 or 20 minutes (20 only for a retried failing build), 2 to 4 gigabytes
    and 2 to 4 processors. *)
Theorem RecommendResources_range s :
  let h := RecommendResources s in
  rh_TimeoutSec h ∈ [600; 900; 1200] /\
  (rh_TimeoutSec h = 1200 -> 0 < sg_RetryCount s /\ sg_ExitCode s <> 0) /\
  rh_MemoryLimit h ∈ ["2g"; "3g"; "4g"] /\ rh_CPULimit h ∈ ["2"; "3"; "4"].
Proof.
  cbv zeta. unfold RecommendResources. cbn [rh_TimeoutSec rh_MemoryLimit rh_CPULimit].
  rewrite hint_timeout_cases. split_and!.
  - repeat case_match; set_solver.
  - case_match; [|case_match; discriminate]. intros _.
    destruct (0 <? sg_RetryCount s) eqn:Er; [|done].
    destruct (sg_ExitCode s =? 0) eqn:Ee; [done|]. bool_to_prop. lia.
  - unfold hint_memory. destruct (flt (of_int 50) (size_score s)), (flt (of_int 20) (size_score s)),
      (mem_string _ _); cbn; set_solver.
  - unfold hint_cpu. destruct (flt (of_int 50) (size_score s)), (flt (of_int 20) (size_score s)),
      (String.eqb _ "cmake"); cbn; set_solver.
Qed.

(** The complexity score and the failure probability are never outside
    [0, 1] (the only other value a float computation could give is NaN). *)
Theorem scores_in_unit s :
  in_unit (ScoreBuildComplexity s) /\ in_unit (failureProbability s).
Proof. split; apply clamp_unit. Qed.

(** The index of the percentile is in range, so the access cannot panic. *)
Lemma p95_index_lt n : (0 < n)%nat -> (p95_index n < n)%nat.
Proof.
  intros Hn. unfold p95_index. set (i := to_int _ - 1).
  destruct (i <? 0) eqn:E1; bool_to_prop.
  - destruct (Z.of_nat n <=? 0) eqn:E2; bool_to_prop; lia.
  - destruct (Z.of_nat n <=? i) eqn:E2; bool_to_prop; lia.
Qed.

(** The 95th percentile of the history is one of the recorded durations. *)
Theorem p95_is_recorded records :
  record_durations records <> [] ->
  hs_P95DurationSec (ComputeHistoricalStats records) ∈ record_durations records.
Proof.
  intros Hne. unfold ComputeHistoricalStats. destruct records as [|r rs]; [done|].
  cbn [hs_P95DurationSec]. destruct (record_durations (r :: rs)) as [|d ds] eqn:E; [done|].
  rewrite <- E. clear Hne.
  assert (sort_floats (record_durations (r :: rs)) ≡ₚ record_durations (r :: rs)) as Hp
    by apply merge_sort_Permutation.
  eapply elem_of_Permutation_proper; [symmetry; exact Hp|].
  apply list_elem_of_In, nth_In. rewrite Hp. apply p95_index_lt. rewrite E. simpl. lia.
Qed.

(** Refining never lowers a limit below its base value unless the base is over
    the cap of 1200 seconds, and never leaves the known memory sizes. *)
Theorem RefineResourceHints_grows base history :
  let r := RefineResourceHints base history in
  Z.min (rh_TimeoutSec base) 1200 <= rh_TimeoutSec r /\
  (rh_TimeoutSec base <= 1200 -> rh_TimeoutSec r <= 1200) /\
  (rh_MemoryLimit r = rh_MemoryLimit base \/
   (rh_MemoryLimit base = "2g" /\ rh_MemoryLimit r = "3g") \/
   (rh_MemoryLimit base = "3g" /\ rh_MemoryLimit r = "4g")) /\
  rh_CPULimit r = rh_CPULimit base.
Proof.
  unfold RefineResourceHints. destruct history as [h|]; cbv zeta;
    [|split_and!; [lia|done|by left|done]].
  destruct (hs_TotalBuilds h =? 0); [split_and!; [lia|done|by left|done]|].
  cbn [rh_TimeoutSec rh_MemoryLimit rh_CPULimit]. split_and!; [| | |done].
  - unfold refine_timeout. destruct (flt _ _); [|lia].
    set (sg := to_int _). destruct (rh_TimeoutSec base <? sg) eqn:E1; bool_to_prop;
      [destruct (1200 <? sg) eqn:E2|destruct (1200 <? rh_TimeoutSec base) eqn:E2];
      bool_to_prop; lia.
  - intros Hb. unfold refine_timeout. destruct (flt _ _); [|lia].
    set (sg := to_int _). destruct (rh_TimeoutSec base <? sg) eqn:E1; bool_to_prop;
      [destruct (1200 <? sg) eqn:E2|destruct (1200 <? rh_TimeoutSec base) eqn:E2];
      bool_to_prop; lia.
  - unfold refine_memory. destruct (_ && _); [|by left].
    destruct (String.eqb_spec (rh_MemoryLimit base) "2g"); [auto|].
    destruct (String.eqb_spec (rh_MemoryLimit base) "3g"); auto.
Qed.

End complexity.

(** ** Witnesses *)

Definition sample_record (ms : Z) : BuildRecord :=
  {| rec_ID := 7%N; rec_TaskID := 1%N; rec_RepoID := "r"; rec_UserID := None; rec_BuildSystem := "go";
     rec_Command := "go build"; rec_BaseImage := "golang"; rec_Status := "success";
     rec_ExitCode := Some 0; rec_LogSummary := ""; rec_SecretNames := Some [];
     rec_SandboxMode := true; rec_RetryCount := 0; rec_DurationMS := Some ms;
     rec_CreatedAt := 0; rec_CompletedAt := None |}.

Lemma p95_is_recorded_witness :
  hs_P95DurationSec (ComputeHistoricalStats (sample_record <$> [1500; 250; 3000])) = of_int 3 /\
  hs_P95DurationSec (ComputeHistoricalStats (sample_record <$> [1500; 250; 3000]))
    ∈ record_durations (sample_record <$> [1500; 250; 3000]).
Proof.
  split; [vm_compute; reflexivity|]. apply p95_is_recorded. discriminate.
Defined.

(** The score of an empty Go plan with a cache: only the build system counts. *)
Example score_of_small_build :
  formatFloat (ScoreBuildComplexity
    {| sg_BuildSystem := "go"; sg_FileCount := 15; sg_WorkspaceBytes := 0;
       sg_SecretCount := 0; sg_HasPreCommands := false; sg_LanguageCount := 2;
       sg_ArtifactCount := 0; sg_CoverageFound := false;
       sg_DurationSec := of_int 120; sg_ExitCode := 0; sg_RetryCount := 0;
       sg_CacheHit := true |}) = "0.285".
Proof. vm_compute. reflexivity. Qed.

(** Retrying a failing build asks for more time although a duration between two
    and five minutes does not: its branch sets the default again. *)
Example slow_build_gets_default :
  rh_TimeoutSec (RecommendResources
    {| sg_BuildSystem := "go"; sg_FileCount := 1; sg_WorkspaceBytes := 0;
       sg_SecretCount := 0; sg_HasPreCommands := false; sg_LanguageCount := 1;
       sg_ArtifactCount := 0; sg_CoverageFound := false;
       sg_DurationSec := of_int 200; sg_ExitCode := 0; sg_RetryCount := 0;
       sg_CacheHit := true |}) = DefaultTimeout / second.
Proof. vm_compute. reflexivity. Qed.
