(* ===== verification/BuildStore.v ===== *)
(** * Build records, artifacts and the audit trail ([internal/sandbox/store.go],
      [audit.go], the types of [artifacts.go])

    The tables [swarm_builds], [swarm_build_artifacts] and [swarm_audit_events], the
    statements of [BuildStore] and [AuditLogger] on them, and the monad of the HTTP
    handlers: state, and an early return with the response.  Any statement may fail.
    What the database schema has and which texts the database accepts are
    parameters ([Schema], [Postgres]). *)

From Stdlib Require Import ZArith Lia Ascii String SpecFloat.
From stdpp Require Import base list gmap strings.
From S2P Require Import Prelude GoStrings SwarmDb TeamManager Sandbox Redact.
From S2P Require Import Fingerprint DockerRuntime GoFloat Complexity.
Local Open Scope string_scope.
Local Open Scope Z_scope.

(** ** Rows *)

Record BuildRow := {
  row_rec : BuildRecord;
  row_complexity : option BuildComplexity;
  row_fingerprint : option BuildFingerprint
}.

(** The columns of [swarm_build_artifacts]. *)
Record ArtifactRow := {
  art_BuildID : UUID;
  art_CreatedAt : Z;
  art_Artifact : BuildArtifact
}.

Definition AuditSecretAccess := "secret_access".
Definition AuditSecretDenied := "secret_denied".
Definition AuditContainerCreated := "container_created".
Definition AuditContainerDestroy := "container_destroyed".
Definition AuditLogRedacted := "log_redacted".
Definition AuditWorkspaceScrub := "workspace_scrubbed".
Definition AuditAccessDenied := "access_denied".

(** Values of the JSON objects the handlers write. *)
Inductive Value :=
| VNull
| VStr (s : string)
| VInt (z : Z)
| VBool (b : bool)
| VFloat (f : float64)
| VId (u : UUID)
| VList (l : list Value)
| VObj (fields : list (string * Value)).

Definition VStrs (l : list string) : Value := VList (map VStr l).

Record AuditEvent := {
  ae_Timestamp : Z;
  ae_Action : string;
  ae_UserID : string;
  ae_RepoID : string;
  ae_BuildID : string;
  ae_Detail : list (string * Value)
}.

(** ** Parameters *)

(** Which columns and tables the database has beyond those of
    [db/sql/initData.sql]. *)
Class Schema := {
  has_complexity_column : bool;
  has_fingerprint_column : bool;
  has_artifact_table : bool
}.

(** ** State *)

(** [R] is the state of the container runtime. *)
Record SBWorld (R : Type) := {
  sb_builds : gmap UUID BuildRow;
  sb_artifacts : list ArtifactRow;
  sb_audit : list AuditEvent;
  sb_audit_log : list AuditEvent;   (* the lines of the logger *)
  sb_tasks : gset UUID;             (* the keys of [swarm_tasks] *)
  sb_users : gset UUID;             (* the keys of [users] *)
  sb_host : gmap string string;     (* files below the temporary directory *)
  sb_runtime : R;
  sb_faults : list bool
}.
Arguments sb_builds {R}. Arguments sb_artifacts {R}. Arguments sb_audit {R}.
Arguments sb_audit_log {R}. Arguments sb_tasks {R}. Arguments sb_users {R}.
Arguments sb_host {R}. Arguments sb_runtime {R}. Arguments sb_faults {R}.

Section state.
Context {R : Type}.
Implicit Types (w : SBWorld R).

Definition set_builds (f : gmap UUID BuildRow -> gmap UUID BuildRow) w : SBWorld R :=
  {| sb_builds := f (sb_builds w); sb_artifacts := sb_artifacts w; sb_audit := sb_audit w;
     sb_audit_log := sb_audit_log w; sb_tasks := sb_tasks w; sb_users := sb_users w;
     sb_host := sb_host w; sb_runtime := sb_runtime w; sb_faults := sb_faults w |}.
Definition set_artifacts (f : list ArtifactRow -> list ArtifactRow) w : SBWorld R :=
  {| sb_builds := sb_builds w; sb_artifacts := f (sb_artifacts w); sb_audit := sb_audit w;
     sb_audit_log := sb_audit_log w; sb_tasks := sb_tasks w; sb_users := sb_users w;
     sb_host := sb_host w; sb_runtime := sb_runtime w; sb_faults := sb_faults w |}.
Definition set_audit (f : list AuditEvent -> list AuditEvent) w : SBWorld R :=
  {| sb_builds := sb_builds w; sb_artifacts := sb_artifacts w; sb_audit := f (sb_audit w);
     sb_audit_log := sb_audit_log w; sb_tasks := sb_tasks w; sb_users := sb_users w;
     sb_host := sb_host w; sb_runtime := sb_runtime w; sb_faults := sb_faults w |}.
Definition set_audit_log (f : list AuditEvent -> list AuditEvent) w : SBWorld R :=
  {| sb_builds := sb_builds w; sb_artifacts := sb_artifacts w; sb_audit := sb_audit w;
     sb_audit_log := f (sb_audit_log w); sb_tasks := sb_tasks w; sb_users := sb_users w;
     sb_host := sb_host w; sb_runtime := sb_runtime w; sb_faults := sb_faults w |}.
Definition set_host (h : gmap string string) w : SBWorld R :=
  {| sb_builds := sb_builds w; sb_artifacts := sb_artifacts w; sb_audit := sb_audit w;
     sb_audit_log := sb_audit_log w; sb_tasks := sb_tasks w; sb_users := sb_users w;
     sb_host := h; sb_runtime := sb_runtime w; sb_faults := sb_faults w |}.
Definition set_runtime (r : R) w : SBWorld R :=
  {| sb_builds := sb_builds w; sb_artifacts := sb_artifacts w; sb_audit := sb_audit w;
     sb_audit_log := sb_audit_log w; sb_tasks := sb_tasks w; sb_users := sb_users w;
     sb_host := sb_host w; sb_runtime := r; sb_faults := sb_faults w |}.
Definition sb_drop_fault w : SBWorld R :=
  {| sb_builds := sb_builds w; sb_artifacts := sb_artifacts w; sb_audit := sb_audit w;
     sb_audit_log := sb_audit_log w; sb_tasks := sb_tasks w; sb_users := sb_users w;
     sb_host := sb_host w; sb_runtime := sb_runtime w; sb_faults := tail (sb_faults w) |}.
End state.

(** ** The monad of the handlers *)

(** What the client gets: a status and a JSON object, or nothing because the
    handler panicked (nil dereference). *)
Inductive Response :=
| Reply (status : Z) (body : list (string * Value))
| Panicked.

(** [http.Error(w, `{"error": msg}`, status)] *)
Definition HttpError (status : Z) (msg : string) : Response := Reply status [("error", VStr msg)].

Definition H (R A : Type) : Type := SBWorld R -> (Response + A) * SBWorld R.

#[export] Instance H_ret {R} : MRet (H R) := fun A a w => (inr a, w).
#[export] Instance H_bind {R} : MBind (H R) := fun A B f m w =>
  match m w with
  | (inl r, w') => (inl r, w')
  | (inr a, w') => f a w'
  end.

(** [return] with a response. *)
Definition respond {R A} (r : Response) : H R A := fun w => (inl r, w).
Definition gets {R A} (f : SBWorld R -> A) : H R A := fun w => (inr (f w), w).
Definition update {R} (f : SBWorld R -> SBWorld R) : H R unit := fun w => (inr tt, f w).

(** [defer d()]: run [d] when [m] has ended, however it ended. *)
Definition deferring {R A} (d : SBWorld R -> SBWorld R) (m : H R A) : H R A :=
  fun w => let '(x, w') := m w in (x, d w').

(** A statement that changes tables when its constraints hold. *)
Definition sql_exec {R} (guard : SBWorld R -> bool) (f : SBWorld R -> SBWorld R)
    : H R (option string) :=
  fun w =>
    let b := match sb_faults w with b :: _ => b | [] => false end in
    let w := sb_drop_fault w in
    if b || negb (guard w) then (inr (Some "statement failed"), w) else (inr None, f w).

(** A statement that reads; [None] is an error such as no rows. *)
Definition sql_query {R A} (f : SBWorld R -> option A) : H R (result A string) :=
  fun w =>
    let b := match sb_faults w with b :: _ => b | [] => false end in
    let w := sb_drop_fault w in
    (inr (if b then Err "statement failed"
          else match f w with Some a => Ok a | None => Err "no rows in result set" end), w).

Fixpoint for_each {R A} (l : list A) (body : A -> H R unit) : H R unit :=
  match l with
  | [] => mret tt
  | x :: l => body x ;; for_each l body
  end.

Section store.
Context {R : Type} `{UuidText} `{RowOrder} `{Schema} `{Postgres}.

(** ** [BuildStore] *)

Definition with_id (id : UUID) (createdAt : Z) (r : BuildRecord) : BuildRecord :=
  {| rec_ID := id; rec_TaskID := rec_TaskID r; rec_RepoID := rec_RepoID r;
     rec_UserID := rec_UserID r; rec_BuildSystem := rec_BuildSystem r;
     rec_Command := rec_Command r; rec_BaseImage := rec_BaseImage r;
     rec_Status := rec_Status r; rec_ExitCode := rec_ExitCode r;
     rec_LogSummary := rec_LogSummary r; rec_SecretNames := rec_SecretNames r;
     rec_SandboxMode := rec_SandboxMode r; rec_RetryCount := rec_RetryCount r;
     rec_DurationMS := rec_DurationMS r; rec_CreatedAt := createdAt;
     rec_CompletedAt := rec_CompletedAt r |}.

(** The row the INSERT creates: columns it does not name get their defaults. *)
Definition inserted_row (r : BuildRecord) : BuildRow :=
  {| row_rec :=
       {| rec_ID := rec_ID r; rec_TaskID := rec_TaskID r; rec_RepoID := rec_RepoID r;
          rec_UserID := rec_UserID r; rec_BuildSystem := rec_BuildSystem r;
          rec_Command := rec_Command r; rec_BaseImage := rec_BaseImage r;
          rec_Status := rec_Status r; rec_ExitCode := None; rec_LogSummary := "";
          rec_SecretNames := rec_SecretNames r; rec_SandboxMode := rec_SandboxMode r;
          rec_RetryCount := rec_RetryCount r; rec_DurationMS := None;
          rec_CreatedAt := rec_CreatedAt r; rec_CompletedAt := None |};
     row_complexity := None; row_fingerprint := None |}.

(** The constraints of [swarm_builds]: the primary key, the references to the task
    and the user, NOT NULL for the secret names (a nil slice is sent as NULL), and
    texts the database can store. *)
Definition insert_allowed (r : BuildRecord) (w : SBWorld R) : bool :=
  bool_decide (sb_builds w !! rec_ID r = None) &&
  bool_decide (rec_TaskID r ∈ sb_tasks w) &&
  match rec_UserID r with Some u => bool_decide (u ∈ sb_users w) | None => true end &&
  match rec_SecretNames r with Some names => forallb text_ok names | None => false end &&
  text_ok (rec_RepoID r) && text_ok (rec_BuildSystem r) && text_ok (rec_Command r) &&
  text_ok (rec_BaseImage r) && text_ok (rec_Status r).

(** [fresh] is [uuid.New()], [now] the time of the insertion. *)
Definition InsertBuild (fresh : UUID) (now : Z) (rec : BuildRecord) : H R (option string) :=
  let id := if bool_decide (rec_ID rec = uuid_Nil) then fresh else rec_ID rec in
  let rec := with_id id now rec in
  sql_exec (insert_allowed rec) (set_builds <[id := inserted_row rec]>).

Definition complete_row (status : string) (exitCode : Z) (logSummary : string)
    (durationMS now : Z) (row : BuildRow) : BuildRow :=
  let r := row_rec row in
  {| row_rec :=
       {| rec_ID := rec_ID r; rec_TaskID := rec_TaskID r; rec_RepoID := rec_RepoID r;
          rec_UserID := rec_UserID r; rec_BuildSystem := rec_BuildSystem r;
          rec_Command := rec_Command r; rec_BaseImage := rec_BaseImage r;
          rec_Status := status; rec_ExitCode := Some exitCode;
          rec_LogSummary := logSummary; rec_SecretNames := rec_SecretNames r;
          rec_SandboxMode := rec_SandboxMode r; rec_RetryCount := rec_RetryCount r;
          rec_DurationMS := Some durationMS; rec_CreatedAt := rec_CreatedAt r;
          rec_CompletedAt := Some now |};
     row_complexity := row_complexity row; row_fingerprint := row_fingerprint row |}.

(** A text that cannot be stored fails the whole statement. *)
Definition CompleteBuild (now : Z) (id : UUID) (status : string) (exitCode : Z)
    (logSummary : string) (durationMS : Z) : H R (option string) :=
  sql_exec (fun _ => text_ok status && text_ok logSummary)
           (set_builds (alter (complete_row status exitCode logSummary durationMS now) id)).

Definition GetBuild (id : UUID) : H R (result BuildRecord string) :=
  sql_query (fun w => row_rec <$> sb_builds w !! id).

(** [ORDER BY created_at DESC] *)
Definition newest_first (l : list BuildRow) : list BuildRow :=
  order_by (fun row => - rec_CreatedAt (row_rec row)) l.

Definition builds_where (p : BuildRow -> bool) (w : SBWorld R) : list BuildRow :=
  newest_first (map snd (select (fun _ row => p row) (sb_builds w))).

Definition GetBuildByTask (taskID : UUID) : H R (result BuildRecord string) :=
  sql_query (fun w =>
    row_rec <$> head (builds_where (fun row => N.eqb (rec_TaskID (row_rec row)) taskID) w)).

Definition ListBuildsByTask (taskID : UUID) : H R (result (list BuildRecord) string) :=
  sql_query (fun w => Some (map row_rec
    (builds_where (fun row => N.eqb (rec_TaskID (row_rec row)) taskID) w))).

Definition ListBuildsByRepo (repoID : string) (limit : Z)
    : H R (result (list BuildRecord) string) :=
  let limit := if limit <=? 0 then 20 else limit in
  sql_query (fun w => Some (map row_rec (take (Z.to_nat limit)
    (builds_where (fun row => String.eqb (rec_RepoID (row_rec row)) repoID) w)))).

Definition bump_retry (row : BuildRow) : BuildRow :=
  let r := row_rec row in
  {| row_rec :=
       {| rec_ID := rec_ID r; rec_TaskID := rec_TaskID r; rec_RepoID := rec_RepoID r;
          rec_UserID := rec_UserID r; rec_BuildSystem := rec_BuildSystem r;
          rec_Command := rec_Command r; rec_BaseImage := rec_BaseImage r;
          rec_Status := rec_Status r; rec_ExitCode := rec_ExitCode r;
          rec_LogSummary := rec_LogSummary r; rec_SecretNames := rec_SecretNames r;
          rec_SandboxMode := rec_SandboxMode r; rec_RetryCount := rec_RetryCount r + 1;
          rec_DurationMS := rec_DurationMS r; rec_CreatedAt := rec_CreatedAt r;
          rec_CompletedAt := rec_CompletedAt r |};
     row_complexity := row_complexity row; row_fingerprint := row_fingerprint row |}.

Definition IncrementRetry (id : UUID) : H R (option string) :=
  sql_exec (fun _ => true) (set_builds (alter bump_retry id)).

Definition InsertArtifact (now : Z) (buildID : UUID) (a : BuildArtifact)
    : H R (option string) :=
  sql_exec (fun _ => has_artifact_table && text_ok (ba_Path a))
    (set_artifacts (fun l => l ++ [{| art_BuildID := buildID; art_CreatedAt := now;
                                      art_Artifact := a |}])%list).

Definition ListArtifacts (buildID : UUID) : H R (result (list ArtifactRow) string) :=
  sql_query (fun w =>
    if has_artifact_table
    then Some (order_by art_CreatedAt
                 (List.filter (fun a => N.eqb (art_BuildID a) buildID) (sb_artifacts w)))
    else None).

(** [json.Marshal] refuses numbers that are not finite. *)
Definition is_finite (f : float64) : bool :=
  match f with S754_zero _ | S754_finite _ _ _ => true | _ => false end.

Definition set_complexity (c : BuildComplexity) (row : BuildRow) : BuildRow :=
  {| row_rec := row_rec row; row_complexity := Some c;
     row_fingerprint := row_fingerprint row |}.
Definition set_fingerprint (fp : BuildFingerprint) (row : BuildRow) : BuildRow :=
  {| row_rec := row_rec row; row_complexity := row_complexity row;
     row_fingerprint := Some fp |}.

Definition UpdateBuildComplexity (buildID : UUID) (c : BuildComplexity)
    : H R (option string) :=
  if negb (is_finite (bc_Score c) && is_finite (bc_FailureProbability c)
           && is_finite (sg_DurationSec (bc_Signals c)))
  then mret (Some "sandbox store: marshal complexity")
  else sql_exec (fun _ => has_complexity_column)
         (set_builds (alter (set_complexity c) buildID)).

Definition UpdateBuildFingerprint (buildID : UUID) (fp : BuildFingerprint)
    : H R (option string) :=
  sql_exec (fun _ => has_fingerprint_column)
    (set_builds (alter (set_fingerprint fp) buildID)).

Definition fingerprinted (repoID buildSystem : string) (row : BuildRow) : bool :=
  String.eqb (rec_RepoID (row_rec row)) repoID
  && String.eqb (rec_BuildSystem (row_rec row)) buildSystem
  && String.eqb (rec_Status (row_rec row)) "success"
  && match row_fingerprint row with Some _ => true | None => false end.

Definition GetLatestFingerprint (repoID buildSystem : string)
    : H R (result BuildFingerprint string) :=
  sql_query (fun w =>
    if has_fingerprint_column
    then head (builds_where (fingerprinted repoID buildSystem) w) ≫= row_fingerprint
    else None).

(** ** [AuditLogger] *)

(** [pool] tells whether the logger has a database; a failed insertion is only
    logged. *)
Definition Log (pool : bool) (event : AuditEvent) : H R unit :=
  update (set_audit_log (fun l => l ++ [event])%list);;
  if pool
  then sql_exec (fun _ => text_ok (ae_UserID event) && text_ok (ae_RepoID event)
                          && text_ok (ae_BuildID event))
         (set_audit (fun l => l ++ [event])%list);; mret tt
  else mret tt.

Definition event (now : Z) (action user repo build : string) (detail : list (string * Value))
    : AuditEvent :=
  {| ae_Timestamp := now; ae_Action := action; ae_UserID := user; ae_RepoID := repo;
     ae_BuildID := build; ae_Detail := detail |}.

Definition LogSecretAccess (pool : bool) (now : Z) (userID repoID buildID secretName : string) :=
  Log pool (event now AuditSecretAccess userID repoID buildID
              [("secret_name", VStr secretName)]).
Definition LogSecretDenied (pool : bool) (now : Z) (userID repoID secretName reason : string) :=
  Log pool (event now AuditSecretDenied userID repoID ""
              [("secret_name", VStr secretName); ("reason", VStr reason)]).
Definition LogContainerCreated (pool : bool) (now : Z) (buildID image : string)
    (sandboxMode : bool) :=
  Log pool (event now AuditContainerCreated "" "" buildID
              [("image", VStr image); ("sandbox_mode", VBool sandboxMode)]).
Definition LogContainerDestroyed (pool : bool) (now : Z) (buildID : string) :=
  Log pool (event now AuditContainerDestroy "" "" buildID []).
Definition LogRedaction (pool : bool) (now : Z) (buildID : string) (patternsMatched : Z) :=
  Log pool (event now AuditLogRedacted "" "" buildID
              [("patterns_matched", VInt patternsMatched)]).
Definition LogWorkspaceScrub (pool : bool) (now : Z) (buildID : string) (filesRemoved : Z) :=
  Log pool (event now AuditWorkspaceScrub "" "" buildID
              [("files_removed", VInt filesRemoved)]).
Definition LogAccessDenied (pool : bool) (now : Z) (userID resource reason : string) :=
  Log pool (event now AuditAccessDenied userID "" ""
              [("resource", VStr resource); ("reason", VStr reason)]).

Definition ValidateBuildOwnership (buildID userID : UUID) : H R (result BuildRecord string) :=
  rec ← GetBuild buildID;
  match rec with
  | Err e => mret (Err ("build not found: " ++ e))
  | Ok rec =>
      match rec_UserID rec with
      | Some u =>
          if negb (N.eqb u userID)
          then mret (Err ("access denied: user " ++ uuid_String userID
                          ++ " does not own build " ++ uuid_String buildID))
          else mret (Ok rec)
      | None => mret (Ok rec)
      end
  end.

Definition countDirFiles (dir : string) (host : gmap string string) : Z :=
  Z.of_nat (size (base.filter (fun kv => HasPrefix kv.1 (dir ++ "/") = true) host)).

(** The files removed, the plan and the host afterwards. *)
Definition SecureCleanupWorkspace (plan : BuildPlan) (host : gmap string string)
    : Z * BuildPlan * gmap string string :=
  if String.eqb (bp_WorkspaceDir plan) "" then (0, plan, host)
  else
    let count := countDirFiles (bp_WorkspaceDir plan) host in
    let '(plan, host) := CleanupWorkspace plan host in
    (count, plan, host).

Record AuditQuery := {
  aq_BuildID : string;
  aq_UserID : string;
  aq_Action : string;
  aq_Limit : Z
}.

Definition audit_matches (q : AuditQuery) (e : AuditEvent) : bool :=
  (String.eqb (aq_BuildID q) "" || String.eqb (ae_BuildID e) (aq_BuildID q)) &&
  (String.eqb (aq_UserID q) "" || String.eqb (ae_UserID e) (aq_UserID q)) &&
  (String.eqb (aq_Action q) "" || String.eqb (ae_Action e) (aq_Action q)).

Definition Query (pool : bool) (q : AuditQuery) : H R (result (list AuditEvent) string) :=
  if negb pool then mret (Err "no database configured for audit")
  else
    let limit := if (aq_Limit q <=? 0) || (500 <? aq_Limit q) then 50 else aq_Limit q in
    sql_query (fun w => Some (take (Z.to_nat limit)
      (order_by (fun e => - ae_Timestamp e) (List.filter (audit_matches q) (row_order (sb_audit w)))))).

End store.
