(* ===== verification/Probe.v ===== *)
(** * The environment probe ([internal/sandbox/plan.go])

    Scanning file contents for references to environment variables and matching
    them with the stored secrets and the known defaults. *)

From Stdlib Require Import ZArith Lia Ascii String.
From stdpp Require Import base list gmap strings.
From S2P Require Import Prelude GoStrings SwarmDb TeamManager Sandbox Redact.
Local Open Scope string_scope.

Record ProbeOptions := {
  pr_TaskID : UUID;
  pr_RepoID : string;
  pr_RepoFiles : list string;
  pr_ChangedFiles : list string;
  pr_SecretNames : list string;
  pr_FileContents : gmap string string
}.

Record DetectedEnvVar := { de_Name : string; de_File : string; de_Kind : string }.

Record ProbeResult := {
  pb_BuildSystem : string;
  pb_BuildCommand : string;
  pb_BaseImage : string;
  pb_DetectedEnvs : list DetectedEnvVar;
  pb_MatchedSecrets : list string;
  pb_MissingSecrets : list string;
  pb_WellKnownEnvs : gmap string string;
  pb_Recommendations : list string;
  pb_Ready : bool
}.

Definition wellKnownDefaults : list (string * string) :=
  [("JAVA_HOME", "/usr/lib/jvm/java-17"); ("CMAKE_PREFIX_PATH", "/usr/local");
   ("GOPATH", "/go"); ("GOROOT", "/usr/local/go"); ("PYTHONPATH", ""); ("NODE_PATH", "");
   ("PATH", "/usr/local/sbin:/usr/local/bin:/usr/sbin:/usr/bin:/sbin:/bin");
   ("HOME", "/home/builder"); ("LANG", "C.UTF-8"); ("CI", "true")].

Definition envScanPatterns : list (string * list string) :=
  [(".py", ["os.getenv("; "os.environ["; "os.environ.get("]);
   (".js", ["process.env."]); (".ts", ["process.env."]);
   (".java", ["System.getenv("; "System.getProperty("]);
   (".go", ["os.Getenv("; "viper.Get("]);
   (".c", ["getenv("]); (".cpp", ["getenv("; "std::getenv("]); (".h", ["getenv("]);
   (".rs", ["env::var("; "env::var_os("]); (".rb", ["ENV["; "ENV.fetch("]);
   ("Dockerfile", ["ENV "; "ARG "]); ("docker-compose.yml", ["environment:"]);
   ("docker-compose.yaml", ["environment:"]); ("CMakeLists.txt", ["$ENV{"; "set(CMAKE_"]);
   (".env.example", ["="])].

(** ** Names *)

Definition is_token_byte (a : ascii) : bool :=
  is_upper a || is_lower a || is_digit a || Ascii.eqb a "_".

(** The loop over runes stops at the first other one; the kept ones are single
    bytes. *)
Definition ExtractToken (s : string) : string := take_while is_token_byte s.

Definition name_start (a : ascii) : bool := is_upper a || is_lower a || Ascii.eqb a "_".

Definition SanitiseEnvName (s : string) : string :=
  let s := TrimSpace s in
  if (String.length s <? 2)%nat || (128 <? String.length s)%nat then ""
  else match s with
       | String ch _ => if negb (name_start ch) then "" else s
       | EmptyString => ""
       end.

Definition ExtractEnvName (line : string) (offset : nat) (basename : string) : string :=
  if (String.length line <=? offset)%nat then ""
  else
    let rest := str_drop offset line in
    if String.eqb basename "Dockerfile" then
      let rest := TrimSpace rest in
      let name := ExtractToken rest in
      let name := match Index name "=" with
                  | Some (S _ as eqIdx) => str_take eqIdx name
                  | _ => name
                  end in
      SanitiseEnvName name
    else if HasSuffix basename ".env.example" then
      SanitiseEnvName (TrimSpace (str_take offset line))
    else
      let rest := TrimLeft rest (String dq "'[") in
      SanitiseEnvName (ExtractToken rest).

(** ** Scanning *)

Definition patterns_of (filename : string) : list string :=
  let ext := Ext filename in
  let base := Base filename in
  let lookup k := snd <$> find (fun kv => String.eqb k kv.1) envScanPatterns in
  match lookup ext with
  | Some patterns => patterns
  | None => default [] (lookup base)
  end.

Definition kind_of (base : string) : string :=
  if String.eqb base "Dockerfile" then "dockerfile"
  else if String.eqb base "CMakeLists.txt" then "cmake"
  else if HasSuffix base ".env.example" then "dotenv"
  else "explicit".

(** [envSeen] holds the names of the detected variables. *)
Definition scan_pattern (filename trimmed : string) (detected : list DetectedEnvVar)
    (pattern : string) : list DetectedEnvVar :=
  let base := Base filename in
  match Index trimmed pattern with
  | None => detected
  | Some idx =>
      let envName := ExtractEnvName trimmed (idx + String.length pattern) base in
      if String.eqb envName "" then detected
      else if mem_string envName (map de_Name detected) then detected
      else (detected ++ [{| de_Name := envName; de_File := filename;
                            de_Kind := kind_of base |}])%list
  end.

Definition scan_file (detected : list DetectedEnvVar) (file : string * string)
    : list DetectedEnvVar :=
  let '(filename, content) := file in
  let patterns := patterns_of filename in
  fold_left (fun detected line =>
    fold_left (scan_pattern filename (TrimSpace line)) patterns detected)
    (Split content newline) detected.

(** [nil] patterns skip the file before its lines are split; so does the loop
    over no pattern. *)
Definition scan_files (files : list (string * string)) : list DetectedEnvVar :=
  fold_left scan_file files [].

(** ** Matching *)

Section probe.
Context `{UnicodeTables} `{RowOrder}.

Record matching := {
  m_matched : list string;
  m_missing : list string;
  m_known : gmap string string
}.

Definition match_env (secretSet : list string) (m : matching) (ev : DetectedEnvVar)
    : matching :=
  let upper := ToUpper (de_Name ev) in
  if mem_string upper secretSet
  then {| m_matched := (m_matched m ++ [de_Name ev])%list; m_missing := m_missing m;
          m_known := m_known m |}
  else
    match assoc upper wellKnownDefaults with
    | Some v => {| m_matched := m_matched m; m_missing := m_missing m;
                   m_known := <[de_Name ev := v]> (m_known m) |}
    | None => {| m_matched := m_matched m; m_missing := (m_missing m ++ [de_Name ev])%list;
                 m_known := m_known m |}
    end.

Definition no_system_advice :=
  "No build system detected. Add a Makefile, build.gradle, go.mod, or SANDBOX.md to define the build.".
Definition missing_advice :=
  "Missing secrets detected. Add them via the Build Secrets UI or the build will run without these values.".
Definition config_advice :=
  "Build configuration files were modified. Full build validation is recommended.".

Definition RunProbe (opts : ProbeOptions) : ProbeResult :=
  let bs := DetectBuildSystem (pr_RepoFiles opts) in
  let system := match bs with Some b => bs_Name b | None => "unknown" end in
  let detected := scan_files (range_map (pr_FileContents opts)) in
  let secretSet := map ToUpper (pr_SecretNames opts) in
  let m := fold_left (match_env secretSet) detected
             {| m_matched := []; m_missing := []; m_known := ∅ |} in
  {| pb_BuildSystem := system;
     pb_BuildCommand := match bs with Some b => bs_DefaultCommand b
                                    | None => no_build_command end;
     pb_BaseImage := match bs with Some b => bs_DefaultImage b | None => general_image end;
     pb_DetectedEnvs := detected;
     pb_MatchedSecrets := m_matched m;
     pb_MissingSecrets := m_missing m;
     pb_WellKnownEnvs := m_known m;
     pb_Recommendations :=
       ((match bs with Some _ => [] | None => [no_system_advice] end)
        ++ (match m_missing m with [] => [] | _ => [missing_advice] end)
        ++ (if AffectsBuildSystem (pr_ChangedFiles opts) then [config_advice] else []))%list;
     pb_Ready := match m_missing m with [] => true | _ => false end
                 && negb (String.eqb system "unknown") |}.

(** ** Properties *)

(** A name the probe reports. *)
Definition env_name_ok (s : string) : Prop :=
  (2 <= String.length s <= 128)%nat /\
  match s with String ch _ => name_start ch = true | EmptyString => False end.

Lemma SanitiseEnvName_ok s : SanitiseEnvName s = "" \/ env_name_ok (SanitiseEnvName s).
Proof.
  unfold SanitiseEnvName, env_name_ok. set (t := TrimSpace s).
  destruct (_ || _) eqn:E; [by left|]. bool_to_prop. destruct t as [|ch t]; [by left|].
  destruct (name_start ch) eqn:En; [right|by left]. cbn [negb]. split; [lia|done].
Qed.

Lemma ExtractEnvName_ok line offset base :
  ExtractEnvName line offset base = "" \/ env_name_ok (ExtractEnvName line offset base).
Proof.
  unfold ExtractEnvName. destruct (_ <=? _)%nat; [by left|].
  destruct (String.eqb base _); [apply SanitiseEnvName_ok|].
  destruct (HasSuffix _ _); apply SanitiseEnvName_ok.
Qed.

(** Every detected name is well formed and reported once. *)
Definition detected_ok (l : list DetectedEnvVar) : Prop :=
  NoDup (map de_Name l) /\ Forall (fun ev => env_name_ok (de_Name ev)) l.

Lemma scan_pattern_ok filename trimmed l pattern :
  detected_ok l -> detected_ok (scan_pattern filename trimmed l pattern).
Proof.
  intros [Hn Hf]. unfold scan_pattern. destruct (Index trimmed pattern) as [idx|]; [|done].
  set (nm := ExtractEnvName _ _ _). destruct (String.eqb_spec nm ""); [done|].
  destruct (mem_string nm (map de_Name l)) eqn:Em; [done|].
  assert (nm ∉ map de_Name l) as Hnin
    by (rewrite <- mem_string_spec, Em; discriminate).
  split.
  - rewrite map_app. apply NoDup_app. split; [done|]. split; [|apply NoDup_singleton].
    intros x Hx Hx2. apply list_elem_of_singleton in Hx2. by subst.
  - apply Forall_app. split; [done|]. constructor; [|constructor]. simpl.
    destruct (ExtractEnvName_ok trimmed (idx + String.length pattern) (Base filename));
      [done|assumption].
Qed.

Lemma fold_left_inv {A B} (P : A -> Prop) (f : A -> B -> A) l a :
  (forall a b, P a -> P (f a b)) -> P a -> P (fold_left f l a).
Proof. intros Hf. revert a. induction l as [|b l IH]; intros a Ha; simpl; auto. Qed.

Lemma scan_files_ok files : detected_ok (scan_files files).
Proof.
  unfold scan_files. apply fold_left_inv; [|split; constructor].
  intros l [fn content] Hl. unfold scan_file. apply fold_left_inv; [|done].
  intros l' line Hl'. apply fold_left_inv; [|done]. intros. by apply scan_pattern_ok.
Qed.

(** How a name is classified. *)
Inductive env_class := Matched | Known (v : string) | Missing.
Definition classify (secretSet : list string) (nm : string) : env_class :=
  if mem_string (ToUpper nm) secretSet then Matched
  else match assoc (ToUpper nm) wellKnownDefaults with
       | Some v => Known v
       | None => Missing
       end.

Lemma match_env_fold secretSet l m :
  let r := fold_left (match_env secretSet) l m in
  let names := map de_Name l in
  m_matched r = (m_matched m ++
    List.filter (fun n => match classify secretSet n with Matched => true | _ => false end)
                names)%list /\
  m_missing r = (m_missing m ++
    List.filter (fun n => match classify secretSet n with Missing => true | _ => false end)
                names)%list /\
  (forall n, is_Some (m_known r !! n) <->
     is_Some (m_known m !! n) \/ (n ∈ names /\ exists v, classify secretSet n = Known v)).
Proof.
  cbv zeta. revert m. induction l as [|ev l IH]; intros m.
  - cbn. rewrite !app_nil_r. split_and!; [done|done|]. intros n. set_solver.
  - cbn [fold_left map List.filter].
    destruct (IH (match_env secretSet m ev)) as (H1 & H2 & H3).
    rewrite H1, H2. unfold match_env in H1, H2, H3 |- *. unfold classify in *.
    destruct (mem_string (ToUpper (de_Name ev)) secretSet) eqn:Em.
    + cbn [m_matched m_missing m_known] in *. rewrite <- app_assoc. split_and!; [done|done|].
      intros n. rewrite H3, elem_of_cons. split; [naive_solver|].
      intros [?|[[->|?] [v Hv]]]; [by left|rewrite Em in Hv; discriminate|naive_solver].
    + destruct (assoc (ToUpper (de_Name ev)) wellKnownDefaults) as [v|] eqn:Ea;
        cbn [m_matched m_missing m_known] in *.
      * split_and!; [done|done|]. intros n. rewrite H3, elem_of_cons.
        destruct (decide (n = de_Name ev)) as [->|Hne].
        -- rewrite lookup_insert_eq, Em, Ea. naive_solver.
        -- rewrite lookup_insert_ne by done. naive_solver.
      * rewrite <- app_assoc. split_and!; [done|done|].
        intros n. rewrite H3, elem_of_cons. split; [naive_solver|].
        intros [?|[[->|?] [v Hv]]]; [by left|rewrite Em, Ea in Hv; discriminate|naive_solver].
Qed.

(** Every variable the probe detects is a well-formed name reported once, and
    falls in exactly one class: matched by a stored secret of the same name up to
    case, known with a default, or missing; the build is ready exactly when the
    build system is known and nothing is missing. *)
Theorem RunProbe_partition opts :
  let r := RunProbe opts in
  let names := map de_Name (pb_DetectedEnvs r) in
  detected_ok (pb_DetectedEnvs r) /\
  (forall n, n ∈ pb_MatchedSecrets r <->
     n ∈ names /\ ToUpper n ∈ map ToUpper (pr_SecretNames opts)) /\
  (forall n, n ∈ names ->
     (n ∈ pb_MatchedSecrets r /\ pb_WellKnownEnvs r !! n = None /\ n ∉ pb_MissingSecrets r) \/
     (n ∉ pb_MatchedSecrets r /\ is_Some (pb_WellKnownEnvs r !! n) /\
      n ∉ pb_MissingSecrets r) \/
     (n ∉ pb_MatchedSecrets r /\ pb_WellKnownEnvs r !! n = None /\ n ∈ pb_MissingSecrets r)) /\
  (pb_Ready r = true <->
     pb_MissingSecrets r = [] /\ pb_BuildSystem r <> "unknown").
Proof.
  cbv zeta. set (secretSet := map ToUpper (pr_SecretNames opts)).
  destruct (match_env_fold secretSet (scan_files (range_map (pr_FileContents opts)))
              {| m_matched := []; m_missing := []; m_known := ∅ |}) as (H1 & H2 & H3).
  cbn [m_matched m_missing m_known app] in H1, H2, H3.
  unfold RunProbe. fold secretSet.
  cbn [pb_DetectedEnvs pb_MatchedSecrets pb_WellKnownEnvs pb_MissingSecrets pb_Ready
       pb_BuildSystem].
  set (names := map de_Name _) in *. rewrite H1, H2.
  split_and!.
  - apply scan_files_ok.
  - intros n. rewrite list_elem_of_In, filter_In, <- list_elem_of_In. unfold classify.
    rewrite <- (mem_string_spec (ToUpper n)).
    destruct (mem_string _ secretSet); [done|]. by destruct (assoc _ _).
  - intros n Hn. assert (forall o : option string, o = None <-> ~ is_Some o) as HN
      by (intros o; apply eq_None_not_Some).
    rewrite !HN, H3, !list_elem_of_In, !filter_In, <- !list_elem_of_In, lookup_empty.
    pose proof (@is_Some_None string) as Hnone.
    clear H1 H2 H3. destruct (classify secretSet n) as [|v|].
    + left. split; [done|]. split; [by intros [[]|(_ & v & ?)]|by intros [_ ?]].
    + right; left. split; [by intros [_ ?]|]. split; [right; eauto|by intros [_ ?]].
    + right; right. split; [by intros [_ ?]|]. split; [by intros [[]|(_ & v & ?)]|done].
  - clear H1 H2 H3. rewrite andb_true_iff, negb_true_iff, String.eqb_neq.
    destruct (List.filter _ _); (split; intros [??]; [split|split]; done).
Qed.

End probe.

(** The name taken from a [.env.example] line keeps its equals sign, so it can match
    no secret; a line without a value is skipped. *)
Example dotenv_name_keeps_equals :
  ExtractEnvName "DB_URL=postgres" 7 ".env.example" = "DB_URL=" /\
  ExtractEnvName "DB_URL=" 7 ".env.example" = "".
Proof. vm_compute. done. Qed.
