(* ===== verification/SandboxHandler.v ===== *)
(** * The sandbox endpoints ([internal/sandbox/handler.go], the interface of
      [sandbox.go], [MockRuntime] of [executor.go])

    Every handler is a program in the monad of BuildStore.v; a request body is given
    decoded ([None] when decoding fails), and the answers of the clock, of
    [uuid.New] and of the file system are the fields of [Env].  The handlers are
    written against the class [ContainerRuntime]; [RuntimeContract] is what they
    rely on, and the Docker runtime of DockerRuntime.v and the mock are instances. *)

From Stdlib Require Import ZArith Lia Ascii String.
From stdpp Require Import base list gmap strings.
From S2P Require Import Prelude GoStrings SwarmDb TeamManager Sandbox Redact.
From S2P Require Import Fingerprint DockerRuntime GoFloat Complexity BuildStore Probe.
Local Open Scope string_scope.
Local Open Scope Z_scope.

(** ** The runtime interface *)

Class ContainerRuntime (R : Type) := {
  rt_Create : BuildPlan -> R -> result string string * R;
  rt_Start : string -> R -> option string * R;
  rt_Wait : string -> Z -> R -> (option BuildResult * option string) * R;
  rt_Destroy : string -> R -> option string * R;
  rt_HealthCheck : R -> option string
}.

(** What the handlers rely on: which containers exist, and that [Wait] returns a
    result or an error. *)
Class RuntimeContract (R : Type) `{ContainerRuntime R} := {
  live : R -> gset string;
  live_create_ok : forall p r id r',
    rt_Create p r = (Ok id, r') -> live r' ⊆ {[id]} ∪ live r;
  live_create_err : forall p r e r', rt_Create p r = (Err e, r') -> live r' ⊆ live r;
  live_start : forall id r, live (rt_Start id r).2 ⊆ live r;
  live_wait : forall id t r, live (rt_Wait id t r).2 ⊆ live r;
  live_destroy : forall id r, live (rt_Destroy id r).2 ⊆ live r ∖ {[id]};
  wait_not_nil : forall id t r, (rt_Wait id t r).1 <> (None, None)
}.

(** ** The handler *)

(** The build secrets of [keychain.Service]. *)
Record Keychain := {
  kc_GetBuildSecret : UUID -> UUID -> string -> result string string;
  kc_ListBuildSecretNames : UUID -> UUID -> result (list string) string
}.

(** [nil] fields are [false] and [None]; an audit logger has a pool or not. *)
Record Handler := {
  h_Store : bool;
  h_Keychain : option Keychain;
  h_Limits : option SandboxLimits;
  h_Audit : option bool
}.

(** What a request gets from the machine: [time.Now], [time.Since(start)],
    [uuid.New], [os.MkdirTemp] and the failures of the file system. *)
Record Env := {
  e_now : Z;
  e_elapsed : Z;
  e_newID : UUID;
  e_mkdir : result string string;
  e_fs_fails : string -> option string
}.

Record resolveExecuteRequest := {
  rq_TaskID : string;
  rq_RepoID : string;
  rq_UserID : string;
  rq_BuildSystem : string;
  rq_Command : string;
  rq_PreCommands : list string;
  rq_SecretRefs : option (list string);
  rq_BaseImage : string;
  rq_SandboxMode : bool;
  rq_TimeoutSec : Z;
  rq_MemoryLimit : string;
  rq_CPULimit : string;
  rq_ChangedFiles : list string;
  rq_SkipCache : bool;
  rq_WorkspaceFiles : gmap string string;
  rq_ArtifactPaths : list string;
  rq_CollectArtifacts : bool
}.

(** [len(redactPatterns)] *)
Definition pattern_count : Z := Z.of_nat (List.length redactPatterns).

(** A nil slice of strings is null. *)
Definition strs_value (l : list string) : Value :=
  match l with [] => VNull | _ => VStrs l end.
Definition opt_value {A} (f : A -> Value) (o : option A) : Value :=
  match o with Some a => f a | None => VNull end.

Definition signals_value (s : BuildSignals) : Value :=
  VObj [("build_system", VStr (sg_BuildSystem s)); ("file_count", VInt (sg_FileCount s));
        ("workspace_bytes", VInt (sg_WorkspaceBytes s));
        ("secret_count", VInt (sg_SecretCount s));
        ("has_pre_commands", VBool (sg_HasPreCommands s));
        ("language_count", VInt (sg_LanguageCount s));
        ("artifact_count", VInt (sg_ArtifactCount s));
        ("coverage_found", VBool (sg_CoverageFound s));
        ("duration_sec", VFloat (sg_DurationSec s)); ("exit_code", VInt (sg_ExitCode s));
        ("retry_count", VInt (sg_RetryCount s)); ("cache_hit", VBool (sg_CacheHit s))].
Definition hints_value (h : ResourceHints) : Value :=
  VObj [("timeout_sec", VInt (rh_TimeoutSec h)); ("memory_limit", VStr (rh_MemoryLimit h));
        ("cpu_limit", VStr (rh_CPULimit h))].
Definition complexity_value (c : BuildComplexity) : Value :=
  VObj [("score", VFloat (bc_Score c)); ("label", VStr (bc_Label c));
        ("signals", signals_value (bc_Signals c));
        ("resource_hints", hints_value (bc_ResourceHints c));
        ("duration_bucket", VStr (bc_DurationBucket c));
        ("failure_probability", VFloat (bc_FailureProbability c))].
Definition fingerprint_value (fp : BuildFingerprint) : Value :=
  VObj [("hash", VStr (fp_Hash fp)); ("build_system", VStr (fp_BuildSystem fp));
        ("files", strs_value (fp_Files fp)); ("fast_path", VBool (fp_FastPath fp))].

(** The fields of a plan that are serialised. *)
Definition plan_value (p : BuildPlan) : list (string * Value) :=
  [("id", VId (bp_ID p)); ("task_id", VId (bp_TaskID p)); ("repo_id", VStr (bp_RepoID p));
   ("build_system", VStr (bp_BuildSystem p)); ("command", VStr (bp_Command p));
   ("pre_commands", strs_value (bp_PreCommands p));
   ("secret_refs", strs_value (bp_SecretRefs p)); ("base_image", VStr (bp_BaseImage p));
   ("sandbox_mode", VBool (bp_SandboxMode p)); ("timeout", VInt (bp_Timeout p));
   ("memory_limit", VStr (bp_MemoryLimit p)); ("cpu_limit", VStr (bp_CPULimit p))].

Definition with_command (c : string) (p : BuildPlan) : BuildPlan :=
  {| bp_ID := bp_ID p; bp_TaskID := bp_TaskID p; bp_RepoID := bp_RepoID p;
     bp_BuildSystem := bp_BuildSystem p; bp_Command := c;
     bp_PreCommands := bp_PreCommands p; bp_EnvVars := bp_EnvVars p;
     bp_SecretRefs := bp_SecretRefs p; bp_BaseImage := bp_BaseImage p;
     bp_SandboxMode := bp_SandboxMode p; bp_Timeout := bp_Timeout p;
     bp_MemoryLimit := bp_MemoryLimit p; bp_CPULimit := bp_CPULimit p;
     bp_Cache := bp_Cache p; bp_WorkspaceFS := bp_WorkspaceFS p;
     bp_WorkspaceDir := bp_WorkspaceDir p; bp_ArtifactPaths := bp_ArtifactPaths p |}.
Definition with_env (env : gmap string string) (p : BuildPlan) : BuildPlan :=
  {| bp_ID := bp_ID p; bp_TaskID := bp_TaskID p; bp_RepoID := bp_RepoID p;
     bp_BuildSystem := bp_BuildSystem p; bp_Command := bp_Command p;
     bp_PreCommands := bp_PreCommands p; bp_EnvVars := env;
     bp_SecretRefs := bp_SecretRefs p; bp_BaseImage := bp_BaseImage p;
     bp_SandboxMode := bp_SandboxMode p; bp_Timeout := bp_Timeout p;
     bp_MemoryLimit := bp_MemoryLimit p; bp_CPULimit := bp_CPULimit p;
     bp_Cache := bp_Cache p; bp_WorkspaceFS := bp_WorkspaceFS p;
     bp_WorkspaceDir := bp_WorkspaceDir p; bp_ArtifactPaths := bp_ArtifactPaths p |}.

Definition with_result_logs (logs : string) (r : BuildResult) : BuildResult :=
  {| br_ExitCode := br_ExitCode r; br_Logs := logs; br_Duration := br_Duration r;
     br_SecretRefs := br_SecretRefs r |}.
Definition with_duration (d : Z) (r : BuildResult) : BuildResult :=
  {| br_ExitCode := br_ExitCode r; br_Logs := br_Logs r; br_Duration := d;
     br_SecretRefs := br_SecretRefs r |}.

(** [int(d.Milliseconds())] *)
Definition milliseconds (d : Z) : Z := Z.quot d 1000000.

(** [log_summary] of the database. *)
Definition log_summary (logs : string) : string :=
  if (8192 <? String.length logs)%nat
  then str_take 8192 logs ++ newline ++ "... [truncated for DB]" else logs.

Definition build_status (exitCode : Z) : string :=
  if exitCode =? 0 then "success" else "failed".

(** The record both handlers insert before they run the container. *)
Definition running_record (id taskID : UUID) (userID : option UUID)
    (repoID system command image : string) (secrets : option (list string))
    (sandbox : bool) (retries : Z) (status : string) : BuildRecord :=
  {| rec_ID := id; rec_TaskID := taskID; rec_RepoID := repoID; rec_UserID := userID;
     rec_BuildSystem := system; rec_Command := command; rec_BaseImage := image;
     rec_Status := status; rec_ExitCode := None; rec_LogSummary := "";
     rec_SecretNames := secrets; rec_SandboxMode := sandbox; rec_RetryCount := retries;
     rec_DurationMS := None; rec_CreatedAt := 0; rec_CompletedAt := None |}.

Section handlers.
Context {R : Type} `{CR : ContainerRuntime R}.
Context `{UuidText} `{RowOrder} `{Schema} `{Postgres} `{UnicodeTables} `{FoldTables} `{Digest}.
Implicit Types (h : Handler) (e : Env).

(** ** Calls of the runtime *)

Definition Create_ (plan : BuildPlan) : H R (result string string) := fun w =>
  let '(x, r) := rt_Create plan (sb_runtime w) in (inr x, set_runtime r w).
Definition Start_ (id : string) : H R (option string) := fun w =>
  let '(x, r) := rt_Start id (sb_runtime w) in (inr x, set_runtime r w).
Definition Wait_ (id : string) (timeout : Z) : H R (option BuildResult * option string) :=
  fun w => let '(x, r) := rt_Wait id timeout (sb_runtime w) in (inr x, set_runtime r w).
Definition Destroy_ (id : string) : H R (option string) := fun w =>
  let '(x, r) := rt_Destroy id (sb_runtime w) in (inr x, set_runtime r w).

(** [if h.Store != nil { _ = ... }] and [if h.Audit != nil { ... }] *)
Definition when_store {A} h (m : H R A) : H R unit :=
  if h_Store h then m;; mret tt else mret tt.
Definition when_audit h (m : bool -> H R unit) : H R unit :=
  match h_Audit h with Some pool => m pool | None => mret tt end.

(** ** [POST /sandbox/plan] *)

Record generatePlanRequest := {
  gp_TaskID : string;
  gp_RepoID : string;
  gp_RepoFiles : list string;
  gp_ChangedFiles : list string;
  gp_SecretNames : list string;
  gp_SandboxMode : bool
}.

Definition HandleGeneratePlan e (req : option generatePlanRequest) : H R unit :=
  match req with
  | None => respond (HttpError 400 "invalid request body")
  | Some req =>
      match uuid_Parse (gp_TaskID req) with
      | None => respond (HttpError 400 "invalid task_id")
      | Some taskID =>
          respond (Reply 200 (plan_value (GeneratePlan (e_newID e)
            {| po_TaskID := taskID; po_RepoID := gp_RepoID req;
               po_RepoFiles := gp_RepoFiles req; po_ChangedFiles := gp_ChangedFiles req;
               po_SecretNames := gp_SecretNames req; po_SandboxMode := gp_SandboxMode req; po_Timeout := 0;
               po_MemoryLimit := ""; po_CPULimit := "" |})))
      end
  end.

(** ** [POST /sandbox/execute] *)

(** The fields without a JSON name are empty after decoding. *)
Definition decoded_plan (p : BuildPlan) : BuildPlan :=
  {| bp_ID := bp_ID p; bp_TaskID := bp_TaskID p; bp_RepoID := bp_RepoID p;
     bp_BuildSystem := bp_BuildSystem p; bp_Command := bp_Command p;
     bp_PreCommands := bp_PreCommands p; bp_EnvVars := ∅;
     bp_SecretRefs := bp_SecretRefs p; bp_BaseImage := bp_BaseImage p;
     bp_SandboxMode := bp_SandboxMode p; bp_Timeout := bp_Timeout p;
     bp_MemoryLimit := bp_MemoryLimit p; bp_CPULimit := bp_CPULimit p; bp_Cache := None;
     bp_WorkspaceFS := ∅; bp_WorkspaceDir := ""; bp_ArtifactPaths := None |}.

Definition result_value (r : BuildResult) : list (string * Value) :=
  [("exit_code", VInt (br_ExitCode r)); ("logs", VStr (br_Logs r));
   ("duration", VInt (br_Duration r)); ("secret_refs", strs_value (br_SecretRefs r))].

Definition HandleExecute (plan : option BuildPlan) : H R unit :=
  match plan with
  | None => respond (HttpError 400 "invalid request body")
  | Some plan =>
      let plan := decoded_plan plan in
      created ← Create_ plan;
      match created with
      | Err _ => respond (HttpError 500 "container creation failed")
      | Ok containerID =>
          started ← Start_ containerID;
          match started with
          | Some _ =>
              Destroy_ containerID;;
              respond (HttpError 500 "container start failed")
          | None =>
              waited ← Wait_ containerID (bp_Timeout plan);
              Destroy_ containerID;;
              match waited with
              | (_, Some _) => respond (HttpError 500 "build execution failed")
              | (Some result, None) => respond (Reply 200 (result_value result))
              | (None, None) => respond (Reply 200 [])   (* the text [null] *)
              end
          end
      end
  end.

(** ** [GET /sandbox/status/{id}], [/logs/{id}], [/tasks/{id}/builds/{buildId}/logs] *)

Definition with_build h (no_store bad_id : string) (id : string)
    (body : BuildRecord -> list (string * Value)) : H R unit :=
  if negb (h_Store h) then respond (HttpError 503 no_store)
  else
    match uuid_Parse id with
    | None => respond (HttpError 400 bad_id)
    | Some id =>
        rec ← GetBuild id;
        match rec with
        | Err _ => respond (HttpError 404 "build not found")
        | Ok rec => respond (Reply 200 (body rec))
        end
    end.

Definition HandleStatus h (buildID : string) : H R unit :=
  with_build h "build store not configured" "invalid build id" buildID (fun rec =>
    [("id", VId (rec_ID rec)); ("task_id", VId (rec_TaskID rec));
     ("repo_id", VStr (rec_RepoID rec)); ("build_system", VStr (rec_BuildSystem rec));
     ("status", VStr (rec_Status rec)); ("exit_code", opt_value VInt (rec_ExitCode rec));
     ("retry_count", VInt (rec_RetryCount rec));
     ("duration_ms", opt_value VInt (rec_DurationMS rec));
     ("sandbox_mode", VBool (rec_SandboxMode rec)); ("created_at", VInt (rec_CreatedAt rec));
     ("completed_at", opt_value VInt (rec_CompletedAt rec))]).

Definition HandleLogs h (buildID : string) : H R unit :=
  with_build h "build store not configured" "invalid build id" buildID (fun rec =>
    [("id", VId (rec_ID rec)); ("task_id", VId (rec_TaskID rec));
     ("status", VStr (rec_Status rec)); ("exit_code", opt_value VInt (rec_ExitCode rec));
     ("logs", VStr (rec_LogSummary rec)); ("created_at", VInt (rec_CreatedAt rec))]).

Definition HandleGetBuildLogs h (buildID : string) : H R unit :=
  with_build h "store not configured" "invalid build id" buildID (fun rec =>
    [("build_id", VId (rec_ID rec)); ("status", VStr (rec_Status rec));
     ("log", VStr (rec_LogSummary rec)); ("exit_code", opt_value VInt (rec_ExitCode rec));
     ("created_at", VInt (rec_CreatedAt rec))]).

(** ** [POST /sandbox/resolve-execute] *)

(** Only files that need no build changed: record a skipped build. *)
Definition skip_build h e (req : resolveExecuteRequest) (taskID userID : UUID) : H R unit :=
  let reason := SkipReason (rq_ChangedFiles req) in
  when_store h (
    InsertBuild (e_newID e) (e_now e)
      (running_record (e_newID e) taskID (Some userID) (rq_RepoID req) (rq_BuildSystem req)
         (rq_Command req) (rq_BaseImage req) (rq_SecretRefs req) (rq_SandboxMode req) 0
         "skipped");;
    CompleteBuild (e_now e) (e_newID e) "skipped" 0 reason 0);;
  respond (Reply 200
    [("build_id", VId (e_newID e)); ("exit_code", VInt 0); ("logs", VStr reason);
     ("duration", VStr "0s"); ("skipped", VBool true); ("reason", VStr reason)]).

Definition new_plan e (req : resolveExecuteRequest) (taskID : UUID) : BuildPlan :=
  {| bp_ID := e_newID e; bp_TaskID := taskID; bp_RepoID := rq_RepoID req;
     bp_BuildSystem := rq_BuildSystem req; bp_Command := rq_Command req;
     bp_PreCommands := rq_PreCommands req; bp_EnvVars := ∅;
     bp_SecretRefs := default [] (rq_SecretRefs req); bp_BaseImage := rq_BaseImage req;
     bp_SandboxMode := rq_SandboxMode req; bp_Timeout := 0;
     bp_MemoryLimit := rq_MemoryLimit req; bp_CPULimit := rq_CPULimit req;
     bp_Cache := None; bp_WorkspaceFS := rq_WorkspaceFiles req; bp_WorkspaceDir := "";
     bp_ArtifactPaths := None |}.

(** What [applyLimits] is given: the request's values or the defaults. *)
Definition requested_limits (req : resolveExecuteRequest) : request_limits :=
  let timeout := if 0 <? rq_TimeoutSec req then wrap64 (rq_TimeoutSec req * second)
                 else DefaultTimeout in
  {| rl_timeoutSec := to_int (duration_seconds timeout);
     rl_memoryLimit := if String.eqb (rq_MemoryLimit req) "" then DefaultMemoryLimit
                       else rq_MemoryLimit req;
     rl_cpuLimit := if String.eqb (rq_CPULimit req) "" then DefaultCPULimit
                    else rq_CPULimit req;
     rl_sandboxMode := rq_SandboxMode req |}.

(** Artifact paths, cache, defaults and limits. *)
Definition configure_plan h (req : resolveExecuteRequest) (p : BuildPlan) : BuildPlan :=
  let r := (applyLimits (h_Limits h) (requested_limits req)).1 in
  {| bp_ID := bp_ID p; bp_TaskID := bp_TaskID p; bp_RepoID := bp_RepoID p;
     bp_BuildSystem := bp_BuildSystem p; bp_Command := bp_Command p;
     bp_PreCommands := bp_PreCommands p; bp_EnvVars := bp_EnvVars p;
     bp_SecretRefs := bp_SecretRefs p; bp_BaseImage := bp_BaseImage p;
     bp_SandboxMode := rl_sandboxMode r; bp_Timeout := wrap64 (rl_timeoutSec r * second);
     bp_MemoryLimit := rl_memoryLimit r; bp_CPULimit := rl_cpuLimit r;
     bp_Cache := if rq_SkipCache req then None
                 else ResolveCacheConfig (rq_RepoID req) (rq_BuildSystem req);
     bp_WorkspaceFS := bp_WorkspaceFS p; bp_WorkspaceDir := bp_WorkspaceDir p;
     bp_ArtifactPaths := if rq_CollectArtifacts req then Some (rq_ArtifactPaths req)
                         else None |}.

(** The fingerprint, compared with that of the last successful build. *)
Definition fingerprint_stage h (req : resolveExecuteRequest) (plan : BuildPlan)
    : H R (option BuildFingerprint * BuildPlan) :=
  if Nat.eqb (size (bp_WorkspaceFS plan)) 0 then mret (None, plan)
  else
    let fp := ComputeBuildFingerprint (rq_BuildSystem req) (bp_WorkspaceFS plan) in
    if negb (String.eqb (fp_Hash fp) "") && h_Store h then
      prev ← GetLatestFingerprint (rq_RepoID req) (rq_BuildSystem req);
      match prev with
      | Ok prev =>
          let fp := default fp (AnnotateFastPath (Some fp) (Some prev)) in
          mret (Some fp,
                if fp_FastPath fp
                then with_command (FastPathCommand (rq_BuildSystem req) (bp_Command plan) true)
                                  plan
                else plan)
      | Err _ => mret (Some fp, plan)
      end
    else mret (Some fp, plan).

(** The secrets found, the names resolved and the names that failed. *)
Definition secrets_acc : Type := gmap string string * list string * list string.

Fixpoint resolve_secrets h e (kc : Keychain) (userID repoID : UUID) (buildID : string)
    (names : list string) (acc : secrets_acc) : H R secrets_acc :=
  match names with
  | [] => mret acc
  | name :: names =>
      let '(env, resolved, failed) := acc in
      match kc_GetBuildSecret kc userID repoID name with
      | Err kerr =>
          when_audit h (fun pool =>
            LogSecretDenied pool (e_now e) (uuid_String userID) (uuid_String repoID)
              name kerr);;
          resolve_secrets h e kc userID repoID buildID names
            (env, resolved, (failed ++ [name])%list)
      | Ok val =>
          when_audit h (fun pool =>
            LogSecretAccess pool (e_now e) (uuid_String userID) (uuid_String repoID)
              buildID name);;
          resolve_secrets h e kc userID repoID buildID names
            (<[name := val]> env, (resolved ++ [name])%list, failed)
      end
  end.

Definition secrets_stage h e (req : resolveExecuteRequest) (userID repoID : UUID)
    (plan : BuildPlan) : H R secrets_acc :=
  match h_Keychain h with
  | Some kc =>
      resolve_secrets h e kc userID repoID (uuid_String (bp_ID plan))
        (default [] (rq_SecretRefs req)) (∅, [], [])
  | None => mret (∅, [], [])
  end.

(** A build whose container cannot be created, started or waited for. *)
Definition fail_build h e (id : UUID) (err : string) (elapsed : Z) (msg : string)
    : H R unit :=
  when_store h (CompleteBuild (e_now e) id "error" (-1) err (milliseconds elapsed));;
  respond (HttpError 500 msg).

(** Redact the logs of a result; tells whether they changed. *)
Definition redact_stage h e (id : UUID) (snapshot : gmap string string)
    (result : option BuildResult) : H R (option BuildResult * bool) :=
  match result with
  | Some r =>
      if String.eqb (br_Logs r) "" then mret (result, false)
      else
        let logs := RedactLogs (br_Logs r) snapshot in
        when_audit h (fun pool =>
          LogRedaction pool (e_now e) (uuid_String id) pattern_count);;
        mret (Some (with_result_logs logs r), negb (String.eqb logs (br_Logs r)))
  | None => mret (None, false)
  end.

(** The random identifier of the artifact is left out. *)
Definition artifact_value (a : BuildArtifact) : Value :=
  VObj [("kind", VStr (ba_Kind a)); ("path", VStr (ba_Path a));
        ("size_bytes", VInt (ba_SizeBytes a))].

Definition artifacts_stage h e (id : UUID) (plan : BuildPlan) (logs : string)
    : H R (list Value) :=
  match bp_ArtifactPaths plan with
  | None => mret []
  | Some _ =>
      let found := ParseArtifactsFromLogs logs in
      for_each found (fun a => when_store h (InsertArtifact (e_now e) id a));;
      mret (map artifact_value found)
  end.

(** From the end of the run to the response. *)
Definition finish_stage h e (req : resolveExecuteRequest) (plan : BuildPlan)
    (fp : option BuildFingerprint) (resolved failed : list string)
    (result : BuildResult) (redacted : bool) : H R unit :=
  let id := bp_ID plan in
  when_store h (CompleteBuild (e_now e) id (build_status (br_ExitCode result))
                  (br_ExitCode result) (log_summary (br_Logs result))
                  (milliseconds (e_elapsed e)));;
  artifacts ← artifacts_stage h e id plan (br_Logs result);
  let result := with_duration (e_elapsed e) result in
  let complexity := ComputeBuildComplexity plan (Some result) in
  when_store h (UpdateBuildComplexity id complexity);;
  (match fp with
   | Some f => if negb (String.eqb (fp_Hash f) "")
               then when_store h (UpdateBuildFingerprint id f) else mret tt
   | None => mret tt
   end);;
  respond (Reply 200
    [("build_id", VId id); ("exit_code", VInt (br_ExitCode result));
     ("logs", VStr (br_Logs result)); ("logs_redacted", VBool redacted);
     ("duration", VStr (DurationString (br_Duration result)));
     ("secret_refs", strs_value (br_SecretRefs result));
     ("resolved_secrets", strs_value resolved); ("failed_secrets", strs_value failed);
     ("artifacts", match artifacts with [] => VNull | _ => VList artifacts end);
     ("workspace_injected", VBool (negb (Nat.eqb (size (bp_WorkspaceFS plan)) 0)));
     ("complexity", complexity_value complexity); ("fingerprint", opt_value fingerprint_value fp);
     ("fast_path", VBool (match fp with Some f => fp_FastPath f | None => false end));
     ("image_tag", VStr (ImageTag (rq_RepoID req) fp))]).

(** Create, start, wait, destroy; then redact and finish. *)
Definition run_stage h e (req : resolveExecuteRequest) (plan : BuildPlan)
    (fp : option BuildFingerprint) (snapshot : gmap string string)
    (resolved failed : list string) : H R unit :=
  let id := bp_ID plan in
  created ← Create_ plan;
  match created with
  | Err err => fail_build h e id err 0 "container creation failed"
  | Ok containerID =>
      when_audit h (fun pool =>
        LogContainerCreated pool (e_now e) (uuid_String id) (bp_BaseImage plan)
          (bp_SandboxMode plan));;
      started ← Start_ containerID;
      match started with
      | Some err =>
          Destroy_ containerID;;
          fail_build h e id err 0 "container start failed"
      | None =>
          waited ← Wait_ containerID (bp_Timeout plan);
          Destroy_ containerID;;
          when_audit h (fun pool => LogContainerDestroyed pool (e_now e) (uuid_String id));;
          redaction ← redact_stage h e id snapshot waited.1;
          match redaction, waited.2 with
          | (None, _), Some err =>
              fail_build h e id err (e_elapsed e) "build execution failed"
          | (None, _), None => respond Panicked
          | (Some result, redacted), _ =>
              finish_stage h e req (with_env ∅ plan) fp resolved failed result redacted
          end
      end
  end.

(** From the configuration of the plan on. *)
Definition execute_plan h e (req : resolveExecuteRequest) (taskID userID repoID : UUID)
    (plan : BuildPlan) : H R unit :=
  let plan := configure_plan h req plan in
  fps ← fingerprint_stage h req plan;
  let '(fp, plan) := fps in
  secrets ← secrets_stage h e req userID repoID plan;
  let '(snapshot, resolved, failed) := secrets in
  let plan := with_env snapshot plan in
  when_store h (InsertBuild (e_newID e) (e_now e)
    (running_record (bp_ID plan) taskID (Some userID) (rq_RepoID req) (rq_BuildSystem req)
       (rq_Command req) (rq_BaseImage req) (rq_SecretRefs req) (rq_SandboxMode req) 0
       "running"));;
  run_stage h e req plan fp snapshot resolved failed.

(** The deferred cleanup of the workspace. *)
Definition cleanup_workspace h e (plan : BuildPlan) (w : SBWorld R) : SBWorld R :=
  let '(removed, _, host) := SecureCleanupWorkspace plan (sb_host w) in
  let w := set_host host w in
  if 0 <? removed
  then (when_audit h (fun pool =>
          LogWorkspaceScrub pool (e_now e) (uuid_String (bp_ID plan)) removed) w).2
  else w.

Definition with_workspace h e (plan : BuildPlan) (rest : BuildPlan -> H R unit) : H R unit :=
  if Nat.eqb (size (bp_WorkspaceFS plan)) 0 then rest plan
  else if MaxWorkspaceBytes <? WorkspaceSize (bp_WorkspaceFS plan)
  then respond (HttpError 400 "workspace changeset exceeds size limit")
  else
    host ← gets sb_host;
    match PrepareWorkspace (e_mkdir e) (e_fs_fails e) plan host with
    | Err _ => respond (HttpError 500 "workspace preparation failed")
    | Ok (plan, host) =>
        update (set_host host);;
        deferring (cleanup_workspace h e plan) (rest plan)
    end.

Definition HandleResolveAndExecute h e (req : option resolveExecuteRequest) : H R unit :=
  match req with
  | None => respond (HttpError 400 "invalid request body")
  | Some req =>
      match uuid_Parse (rq_TaskID req) with
      | None => respond (HttpError 400 "invalid task_id")
      | Some taskID =>
      match uuid_Parse (rq_UserID req) with
      | None => respond (HttpError 400 "invalid user_id")
      | Some userID =>
      match uuid_Parse (rq_RepoID req) with
      | None => respond (HttpError 400 "invalid repo_id")
      | Some repoID =>
          if String.eqb (rq_BaseImage req) "" || String.eqb (rq_Command req) ""
          then respond (HttpError 400 "base_image and command are required")
          else if negb (Nat.eqb (List.length (rq_ChangedFiles req)) 0)
                  && CanSkipBuild (rq_ChangedFiles req)
          then skip_build h e req taskID userID
          else with_workspace h e (new_plan e req taskID)
                 (execute_plan h e req taskID userID repoID)
      end end end
  end.

(** ** [POST /sandbox/retry] *)

Definition retry_plan e (rec : BuildRecord) : BuildPlan :=
  {| bp_ID := e_newID e; bp_TaskID := rec_TaskID rec; bp_RepoID := rec_RepoID rec;
     bp_BuildSystem := rec_BuildSystem rec; bp_Command := rec_Command rec;
     bp_PreCommands := []; bp_EnvVars := ∅; bp_SecretRefs := default [] (rec_SecretNames rec);
     bp_BaseImage := rec_BaseImage rec; bp_SandboxMode := rec_SandboxMode rec;
     bp_Timeout := DefaultTimeout; bp_MemoryLimit := DefaultMemoryLimit;
     bp_CPULimit := DefaultCPULimit;
     bp_Cache := ResolveCacheConfig (rec_RepoID rec) (rec_BuildSystem rec);
     bp_WorkspaceFS := ∅; bp_WorkspaceDir := ""; bp_ArtifactPaths := None |}.

(** The secrets again, without audit. *)
Definition retry_secrets h (rec : BuildRecord) : secrets_acc :=
  match h_Keychain h, rec_UserID rec, uuid_Parse (rec_RepoID rec) with
  | Some kc, Some userID, Some repoID =>
      fold_left (fun acc name =>
        let '(env, resolved, failed) := acc in
        match kc_GetBuildSecret kc userID repoID name with
        | Err _ => (env, resolved, (failed ++ [name])%list)
        | Ok val => (<[name := val]> env, (resolved ++ [name])%list, failed)
        end) (default [] (rec_SecretNames rec)) (∅, [], [])
  | _, _, _ => (∅, [], [])
  end.

Definition run_retry h e (buildID : UUID) (rec : BuildRecord) (plan : BuildPlan)
    (resolved failed : list string) : H R unit :=
  let id := bp_ID plan in
  created ← Create_ plan;
  match created with
  | Err err => fail_build h e id err 0 "container creation failed"
  | Ok containerID =>
      started ← Start_ containerID;
      match started with
      | Some err =>
          Destroy_ containerID;;
          fail_build h e id err 0 "container start failed"
      | None =>
          waited ← Wait_ containerID (bp_Timeout plan);
          Destroy_ containerID;;
          match waited with
          | (None, Some err) => fail_build h e id err (e_elapsed e) "build execution failed"
          | (None, None) => respond Panicked
          | (Some result, _) =>
              when_store h (CompleteBuild (e_now e) id (build_status (br_ExitCode result))
                (br_ExitCode result) (log_summary (br_Logs result))
                (milliseconds (e_elapsed e)));;
              respond (Reply 200
                [("build_id", VId id); ("original_build", VId buildID);
                 ("retry_count", VInt (rec_RetryCount rec + 1));
                 ("exit_code", VInt (br_ExitCode result)); ("logs", VStr (br_Logs result));
                 ("duration", VStr (DurationString (br_Duration result)));
                 ("resolved_secrets", strs_value resolved);
                 ("failed_secrets", strs_value failed)])
          end
      end
  end.

Definition HandleRetry h e (body : option string) : H R unit :=
  match body with
  | None => respond (HttpError 400 "invalid request body")
  | Some body =>
  match uuid_Parse body with
  | None => respond (HttpError 400 "invalid build_id")
  | Some buildID =>
      if negb (h_Store h) then respond (HttpError 503 "build store not configured")
      else
        found ← GetBuild buildID;
        match found with
        | Err _ => respond (HttpError 404 "build not found")
        | Ok rec =>
            if negb (String.eqb (rec_Status rec) "failed")
               && negb (String.eqb (rec_Status rec) "error")
            then respond (Reply 409
                   [("error", VStr "build is not retryable"); ("status", VStr (rec_Status rec));
                    ("retry_count", VInt (rec_RetryCount rec))])
            else if MaxBuildRetries <=? rec_RetryCount rec
            then respond (Reply 409
                   [("error", VStr "max retries exceeded"); ("max_retries", VInt MaxBuildRetries);
                    ("retry_count", VInt (rec_RetryCount rec))])
            else
              IncrementRetry buildID;;
              let '(env, resolved, failed) := retry_secrets h rec in
              let plan := with_env env (retry_plan e rec) in
              InsertBuild (e_newID e) (e_now e)
                (running_record (bp_ID plan) (rec_TaskID rec) (rec_UserID rec)
                   (rec_RepoID rec) (rec_BuildSystem rec) (rec_Command rec)
                   (rec_BaseImage rec) (rec_SecretNames rec) (rec_SandboxMode rec)
                   (rec_RetryCount rec + 1) "running");;
              run_retry h e buildID rec plan resolved failed
        end
  end end.

(** ** The read-only endpoints *)

Definition HandleListBuildSecrets h (repo_id user_id : string) : H R unit :=
  match h_Keychain h with
  | None => respond (HttpError 503 "keychain service not configured")
  | Some kc =>
      if String.eqb repo_id "" || String.eqb user_id ""
      then respond (HttpError 400 "repo_id and user_id query params required")
      else
        match uuid_Parse repo_id with
        | None => respond (HttpError 400 "invalid repo_id")
        | Some repoID =>
        match uuid_Parse user_id with
        | None => respond (HttpError 400 "invalid user_id")
        | Some userID =>
            match kc_ListBuildSecretNames kc userID repoID with
            | Err _ => respond (HttpError 500 "failed to list secrets")
            | Ok names => respond (Reply 200
                [("repo_id", VId repoID); ("user_id", VId userID); ("secrets", VStrs names)])
            end
        end end
  end.

Record probeRequest := {
  pq_TaskID : string;
  pq_RepoID : string;
  pq_UserID : string;
  pq_RepoFiles : list string;
  pq_ChangedFiles : list string;
  pq_FileContents : gmap string string
}.

Definition probe_secret_names h (req : probeRequest) : list string :=
  match h_Keychain h with
  | Some kc =>
      if String.eqb (pq_UserID req) "" || String.eqb (pq_RepoID req) "" then []
      else
        match uuid_Parse (pq_UserID req), uuid_Parse (pq_RepoID req) with
        | Some userID, Some repoID =>
            match kc_ListBuildSecretNames kc userID repoID with
            | Ok names => names
            | Err _ => []
            end
        | _, _ => []
        end
  | None => []
  end.

Definition probe_value (r : ProbeResult) : list (string * Value) :=
  [("build_system", VStr (pb_BuildSystem r)); ("build_command", VStr (pb_BuildCommand r));
   ("base_image", VStr (pb_BaseImage r));
   ("detected_envs", VList (map (fun d => VObj
      [("name", VStr (de_Name d)); ("file", VStr (de_File d)); ("kind", VStr (de_Kind d))])
      (pb_DetectedEnvs r)));
   ("matched_secrets", VStrs (pb_MatchedSecrets r));
   ("missing_secrets", VStrs (pb_MissingSecrets r));
   ("well_known_envs", VObj (map (fun kv => (kv.1, VStr kv.2))
      (range_map (pb_WellKnownEnvs r))));
   ("recommendations", VStrs (pb_Recommendations r)); ("ready", VBool (pb_Ready r))].

Definition HandleProbeEnv h (req : option probeRequest) : H R unit :=
  match req with
  | None => respond (HttpError 400 "invalid request body")
  | Some req =>
      match uuid_Parse (pq_TaskID req) with
      | None => respond (HttpError 400 "invalid task_id")
      | Some taskID =>
          respond (Reply 200 (probe_value (RunProbe
            {| pr_TaskID := taskID; pr_RepoID := pq_RepoID req;
               pr_RepoFiles := pq_RepoFiles req; pr_ChangedFiles := pq_ChangedFiles req;
               pr_SecretNames := probe_secret_names h req;
               pr_FileContents := pq_FileContents req |})))
      end
  end.

Definition HandleListArtifacts h (buildID : string) : H R unit :=
  if negb (h_Store h) then respond (HttpError 503 "build store not configured")
  else
    match uuid_Parse buildID with
    | None => respond (HttpError 400 "invalid build id")
    | Some id =>
        found ← ListArtifacts id;
        match found with
        | Err _ => respond (HttpError 500 "failed to list artifacts")
        | Ok artifacts => respond (Reply 200
            [("build_id", VId id);
             ("artifacts", VList (map (fun a => VObj
                [("build_id", VId (art_BuildID a));
                 ("kind", VStr (ba_Kind (art_Artifact a)));
                 ("path", VStr (ba_Path (art_Artifact a)));
                 ("size_bytes", VInt (ba_SizeBytes (art_Artifact a)));
                 ("created_at", VInt (art_CreatedAt a))]) artifacts));
             ("count", VInt (Z.of_nat (List.length artifacts)))])
        end
    end.

Definition stats_value (s : HistoricalBuildStats) : Value :=
  VObj [("total_builds", VInt (hs_TotalBuilds s)); ("success_rate", VFloat (hs_SuccessRate s));
        ("avg_duration_sec", VFloat (hs_AvgDurationSec s));
        ("p95_duration_sec", VFloat (hs_P95DurationSec s));
        ("avg_retries", VFloat (hs_AvgRetries s))].

Definition HandleBuildComplexity h (repoID : string) : H R unit :=
  if negb (h_Store h) then respond (HttpError 503 "build store not configured")
  else if String.eqb repoID "" then respond (HttpError 400 "repo_id is required")
  else
    found ← ListBuildsByRepo repoID 50;
    match found with
    | Err _ => respond (HttpError 500 "failed to list builds")
    | Ok records =>
        let stats := ComputeHistoricalStats records in
        respond (Reply 200
          [("repo_id", VStr repoID); ("historical_stats", stats_value stats);
           ("resource_hints", hints_value (RefineResourceHints default_hints (Some stats)));
           ("build_count", VInt (Z.of_nat (List.length records)))])
    end.

Definition limits_value (L : SandboxLimits) : Value :=
  VObj [("max_timeout_sec", VInt (sl_MaxTimeoutSec L)); ("max_memory_mb", VInt (sl_MaxMemoryMB L));
        ("max_cpu", VInt (sl_MaxCPU L)); ("max_retries", VInt (sl_MaxRetries L));
        ("default_sandbox", VBool (sl_DefaultSandbox L))].

(** [h.Runtime] is set. *)
Definition HandleHealth h : H R unit :=
  err ← gets (fun w => rt_HealthCheck (sb_runtime w));
  let healthy := match err with None => true | Some _ => false end in
  respond (Reply (if healthy then 200 else 503)
    ([("runtime_healthy", VBool healthy); ("store_healthy", VBool (h_Store h));
      ("defaults", VObj [("timeout_sec", VInt (DefaultTimeout / second));
                         ("memory_limit", VStr DefaultMemoryLimit);
                         ("cpu_limit", VStr DefaultCPULimit);
                         ("max_retries", VInt MaxBuildRetries)])]
     ++ (match err with
         | Some m => if String.eqb m "" then [] else [("runtime_error", VStr m)]
         | None => [] end)
     ++ (match h_Limits h with Some L => [("config_limits", limits_value L)] | None => [] end))%list).

(** [limit] is what [strconv.Atoi] makes of the query parameter, if anything. *)
Definition HandleAuditEvents h (build_id user_id action : string) (limit : option Z)
    : H R unit :=
  match h_Audit h with
  | None => respond (HttpError 503 "audit not configured")
  | Some pool =>
      let limit := match limit with
                   | Some n => if (0 <? n) && (n <=? 500) then n else 50
                   | None => 50
                   end in
      found ← Query pool {| aq_BuildID := build_id; aq_UserID := user_id;
                            aq_Action := action; aq_Limit := limit |};
      match found with
      | Err _ => respond (HttpError 500 "query failed")
      | Ok events => respond (Reply 200
          [("events", VList (map (fun ev => VObj
              [("action", VStr (ae_Action ev)); ("user_id", VStr (ae_UserID ev));
               ("repo_id", VStr (ae_RepoID ev)); ("build_id", VStr (ae_BuildID ev));
               ("detail", VObj (ae_Detail ev)); ("timestamp", VInt (ae_Timestamp ev))]) events));
           ("count", VInt (Z.of_nat (List.length events)))])
      end
  end.

Record buildsSummary := {
  bs_Total : Z;
  bs_Passed : Z;
  bs_Failed : Z;
  bs_Running : Z;
  bs_Pending : Z;
  bs_TotalDurationMS : Z
}.

(** One turn of the loop. *)
Definition summarise (s : buildsSummary) (b : BuildRecord) : buildsSummary :=
  let st := rec_Status b in
  let pass := String.eqb st "success" in
  let fail := String.eqb st "failed" in
  let run := String.eqb st "running" in
  {| bs_Total := bs_Total s + 1;
     bs_Passed := if pass then bs_Passed s + 1 else bs_Passed s;
     bs_Failed := if fail then bs_Failed s + 1 else bs_Failed s;
     bs_Running := if run then bs_Running s + 1 else bs_Running s;
     bs_Pending := if pass || fail || run then bs_Pending s else bs_Pending s + 1;
     bs_TotalDurationMS := match rec_DurationMS b with
                           | Some d => wrap64 (bs_TotalDurationMS s + d)
                           | None => bs_TotalDurationMS s
                           end |}.

Definition builds_summary (builds : list BuildRecord) : buildsSummary :=
  fold_left summarise builds
    {| bs_Total := 0; bs_Passed := 0; bs_Failed := 0; bs_Running := 0; bs_Pending := 0;
       bs_TotalDurationMS := 0 |}.

(** [json:",omitempty"] on a pointer *)
Definition omit_empty {A} (name : string) (f : A -> Value) (o : option A)
    : list (string * Value) :=
  match o with Some a => [(name, f a)] | None => [] end.

Definition record_value (r : BuildRecord) : Value :=
  VObj ([("id", VId (rec_ID r)); ("task_id", VId (rec_TaskID r));
         ("repo_id", VStr (rec_RepoID r))]
        ++ omit_empty "user_id" VId (rec_UserID r)
        ++ [("build_system", VStr (rec_BuildSystem r)); ("command", VStr (rec_Command r));
            ("base_image", VStr (rec_BaseImage r)); ("status", VStr (rec_Status r))]
        ++ omit_empty "exit_code" VInt (rec_ExitCode r)
        ++ [("log_summary", VStr (rec_LogSummary r));
            ("secret_names", opt_value VStrs (rec_SecretNames r));
            ("sandbox_mode", VBool (rec_SandboxMode r));
            ("retry_count", VInt (rec_RetryCount r))]
        ++ omit_empty "duration_ms" VInt (rec_DurationMS r)
        ++ [("created_at", VInt (rec_CreatedAt r))]
        ++ omit_empty "completed_at" VInt (rec_CompletedAt r))%list.

Definition summary_value (s : buildsSummary) : Value :=
  VObj [("total", VInt (bs_Total s)); ("passed", VInt (bs_Passed s));
        ("failed", VInt (bs_Failed s)); ("running", VInt (bs_Running s));
        ("pending", VInt (bs_Pending s)); ("total_duration_ms", VInt (bs_TotalDurationMS s))].

Definition HandleListTaskBuilds h (task_id : string) : H R unit :=
  if negb (h_Store h) then respond (HttpError 503 "store not configured")
  else
    match uuid_Parse task_id with
    | None => respond (HttpError 400 "invalid task id")
    | Some taskID =>
        found ← ListBuildsByTask taskID;
        match found with
        | Err _ => respond (HttpError 500 "query failed")
        | Ok builds => respond (Reply 200
            [("builds", VList (map record_value builds));
             ("summary", summary_value (builds_summary builds))])
        end
    end.

(** ** The endpoints together *)

Inductive Request :=
| GeneratePlanReq (body : option generatePlanRequest)
| ExecuteReq (plan : option BuildPlan)
| ResolveExecuteReq (body : option resolveExecuteRequest)
| RetryReq (build_id : option string)
| ProbeReq (body : option probeRequest)
| StatusReq (id : string)
| LogsReq (id : string)
| SecretsReq (repo_id user_id : string)
| ArtifactsReq (id : string)
| ComplexityReq (repo_id : string)
| AuditReq (build_id user_id action : string) (limit : option Z)
| HealthReq
| TaskBuildsReq (id : string)
| BuildLogsReq (id : string).

Definition handle h e (req : Request) : H R unit :=
  match req with
  | GeneratePlanReq body => HandleGeneratePlan e body
  | ExecuteReq plan => HandleExecute plan
  | ResolveExecuteReq body => HandleResolveAndExecute h e body
  | RetryReq id => HandleRetry h e id
  | ProbeReq body => HandleProbeEnv h body
  | StatusReq id => HandleStatus h id
  | LogsReq id => HandleLogs h id
  | SecretsReq r u => HandleListBuildSecrets h r u
  | ArtifactsReq id => HandleListArtifacts h id
  | ComplexityReq r => HandleBuildComplexity h r
  | AuditReq b u a l => HandleAuditEvents h b u a l
  | HealthReq => HandleHealth h
  | TaskBuildsReq id => HandleListTaskBuilds h id
  | BuildLogsReq id => HandleGetBuildLogs h id
  end.

(** The response and the state after the request; every handler responds. *)
Definition serve h e (req : Request) (w : SBWorld R) : Response * SBWorld R :=
  match handle h e req w with
  | (inl r, w') => (r, w')
  | (inr _, w') => (Reply 200 [], w')
  end.

End handlers.

(** ** The Docker runtime *)

(** Running the docker command: [docker run] and [docker info]. *)
Class DockerHost := {
  docker_run : list string -> Z -> run_outcome;
  docker_info : option string
}.

Section docker_runtime.
Context `{DockerHost} `{UuidText} `{RowOrder}.

(** [Start] does nothing: the container is run by [Wait]. *)
#[export] Instance DockerRuntime_runtime : ContainerRuntime (gmap string BuildPlan) := {
  rt_Create := Create;
  rt_Start := fun _ d => (None, d);
  rt_Wait := fun id timeout d => (Wait docker_run id timeout d, d);
  rt_Destroy := fun id d => (None, Destroy id d);
  rt_HealthCheck := fun _ => docker_info
}.

(** What lives is what the table of the process holds.  The container of the daemon is not in it:
    [docker run --rm] removes it at the end, and [docker rm -f] of [Destroy] is a process run with
    the context of the request, whose outcome the code drops.  When that context is cancelled the
    process is not started, so the contract says nothing about containers whose client has left. *)
#[export, program] Instance DockerRuntime_contract : RuntimeContract (gmap string BuildPlan) := {
  live := dom
}.
Next Obligation.
  intros p d id d'. cbn. unfold Create.
  destruct (String.eqb _ ""); [done|]. destruct (String.eqb _ ""); [done|].
  intros E. injection E as <- <-. by rewrite dom_insert.
Qed.
Next Obligation.
  intros p d err d'. cbn. unfold Create.
  destruct (String.eqb _ ""); [by intros E; injection E as _ <-|].
  destruct (String.eqb _ ""); [by intros E; injection E as _ <-|done].
Qed.
Next Obligation. done. Qed.
Next Obligation. done. Qed.
Next Obligation. intros id d. cbn. unfold Destroy. by rewrite dom_delete. Qed.
Next Obligation.
  intros id t d. cbn. unfold Wait. destruct (d !! id); [|done]. by destruct (ro_deadline _).
Qed.
End docker_runtime.

(** ** The mock of the tests *)

Record MockRuntime := {
  mk_HealthErr : option string;
  mk_CreateErr : option string;
  mk_StartErr : option string;
  mk_WaitResult : option BuildResult;
  mk_WaitErr : option string;
  mk_DestroyErr : option string;
  mk_CreatedPlans : list BuildPlan;
  mk_StartedIDs : list string;
  mk_DestroyedIDs : list string
}.

Definition NewMockRuntime : MockRuntime :=
  {| mk_HealthErr := None; mk_CreateErr := None; mk_StartErr := None;
     mk_WaitResult := Some {| br_ExitCode := 0; br_Logs := "BUILD SUCCESSFUL";
                              br_Duration := 2 * second; br_SecretRefs := [] |};
     mk_WaitErr := None; mk_DestroyErr := None; mk_CreatedPlans := [];
     mk_StartedIDs := []; mk_DestroyedIDs := [] |}.

Definition record_calls (created : list BuildPlan) (started destroyed : list string)
    (m : MockRuntime) : MockRuntime :=
  {| mk_HealthErr := mk_HealthErr m; mk_CreateErr := mk_CreateErr m;
     mk_StartErr := mk_StartErr m; mk_WaitResult := mk_WaitResult m;
     mk_WaitErr := mk_WaitErr m; mk_DestroyErr := mk_DestroyErr m;
     mk_CreatedPlans := (mk_CreatedPlans m ++ created)%list;
     mk_StartedIDs := (mk_StartedIDs m ++ started)%list;
     mk_DestroyedIDs := (mk_DestroyedIDs m ++ destroyed)%list |}.

#[export] Instance MockRuntime_runtime `{UuidText} : ContainerRuntime MockRuntime := {
  rt_Create := fun plan m =>
    match mk_CreateErr m with
    | Some err => (Err err, m)
    | None => (Ok (uuid_String (bp_ID plan)), record_calls [plan] [] [] m)
    end;
  rt_Start := fun id m => (mk_StartErr m, record_calls [] [id] [] m);
  rt_Wait := fun _ _ m =>
    (match mk_WaitErr m with
     | Some err => (None, Some err)
     | None => (mk_WaitResult m, None)
     end, m);
  rt_Destroy := fun id m => (mk_DestroyErr m, record_calls [] [] [id] m);
  rt_HealthCheck := mk_HealthErr
}.

(** A runtime together with the plans given to [Create]. *)
#[export] Instance recorded_runtime {R} `{ContainerRuntime R}
    : ContainerRuntime (R * list BuildPlan) := {
  rt_Create := fun plan s =>
    let '(x, r) := rt_Create plan s.1 in (x, (r, (s.2 ++ [plan])%list));
  rt_Start := fun id s => let '(x, r) := rt_Start id s.1 in (x, (r, s.2));
  rt_Wait := fun id t s => let '(x, r) := rt_Wait id t s.1 in (x, (r, s.2));
  rt_Destroy := fun id s => let '(x, r) := rt_Destroy id s.1 in (x, (r, s.2));
  rt_HealthCheck := fun s => rt_HealthCheck s.1
}.
