(* ===== verification/SandboxLogic.v ===== *)
(** * A program logic for the sandbox endpoints

    Hoare triples for the monad of BuildStore.v with a postcondition for early
    responses, invariants that the statements and stages of the handlers keep, and
    the shape of whole requests.  SandboxSafety.v proves the theorems with it. *)

From Stdlib Require Import ZArith Lia Ascii String.
From stdpp Require Import base list gmap strings.
From S2P Require Import Prelude GoStrings SwarmDb TeamManager Sandbox Redact.
From S2P Require Import Fingerprint DockerRuntime GoFloat Complexity BuildStore Probe.
From S2P Require Import SandboxHandler.
#[local] Opaque RedactLogs.
Local Open Scope string_scope.
Local Open Scope Z_scope.

(** ** Program logic *)

Section logic.
Context {R : Type}.
Notation assertion := (SBWorld R -> Prop).

(** From a state satisfying [P], [m] either yields [a] with [Q a] or responds [r]
    with [E r]. *)
Definition hoare {A} (P : assertion) (m : H R A) (Q : A -> assertion)
    (E : Response -> assertion) : Prop :=
  forall w, P w -> match m w with (inr a, w') => Q a w' | (inl r, w') => E r w' end.

(** [m] keeps [I] and does not respond. *)
Definition keeps {A} (I : assertion) (m : H R A) : Prop :=
  forall E, hoare I m (fun _ => I) E.

Lemma hoare_ret {A} (P : assertion) (a : A) Q E :
  (forall w, P w -> Q a w) -> hoare P (mret a) Q E.
Proof. intros HQ w Hw. by apply HQ. Qed.

Lemma hoare_bind {A B} P (m : H R A) (f : A -> H R B) S Q E :
  hoare P m S E -> (forall a, hoare (S a) (f a) Q E) -> hoare P (m ≫= f) Q E.
Proof.
  intros Hm Hf w Hw. specialize (Hm w Hw). unfold mbind, H_bind.
  destruct (m w) as [[r|a] w']; [done|]. by apply Hf.
Qed.

Lemma hoare_respond {A} (P : assertion) r (Q : A -> assertion) E :
  (forall w, P w -> E r w) -> hoare P (respond r) Q E.
Proof. intros HE w Hw. by apply HE. Qed.

Lemma hoare_conseq {A} (P P' : assertion) (m : H R A) Q Q' E E' :
  hoare P' m Q' E' -> (forall w, P w -> P' w) -> (forall a w, Q' a w -> Q a w) ->
  (forall r w, E' r w -> E r w) -> hoare P m Q E.
Proof.
  intros Hm HP HQ HE w Hw. specialize (Hm w (HP w Hw)).
  destruct (m w) as [[r|a] w']; auto.
Qed.

Lemma hoare_pure {A} (phi : Prop) (P : assertion) (m : H R A) Q E :
  (phi -> hoare P m Q E) -> hoare (fun w => phi /\ P w) m Q E.
Proof. intros Hm w [Hphi Hw]. by apply Hm. Qed.

Lemma hoare_deferring {A} (P : assertion) d (m : H R A) Q E :
  hoare P m (fun a w => Q a (d w)) (fun r w => E r (d w)) -> hoare P (deferring d m) Q E.
Proof.
  intros Hm w Hw. specialize (Hm w Hw). unfold deferring.
  by destruct (m w) as [[r|a] w'].
Qed.

Lemma hoare_update (P : assertion) f (Q : unit -> assertion) E :
  (forall w, P w -> Q tt (f w)) -> hoare P (update f) Q E.
Proof. intros HQ w Hw. by apply HQ. Qed.

Lemma hoare_sql_exec (P : assertion) guard f (Q : option string -> assertion) E :
  (forall w, P w -> P (sb_drop_fault w)) ->
  (forall w, P w -> Q (Some "statement failed") w) ->
  (forall w, P w -> guard w = true -> Q None (f w)) ->
  hoare P (sql_exec guard f) Q E.
Proof.
  intros Hd Hfail Hok w Hw. unfold sql_exec. apply Hd in Hw.
  destruct (match sb_faults w with [] => false | b :: _ => b end); [by apply Hfail|].
  destruct (guard _) eqn:Eg; [by apply Hok|by apply Hfail].
Qed.

Lemma hoare_sql_query {A} (P : assertion) (f : SBWorld R -> option A) Q E :
  (forall w, P w -> P (sb_drop_fault w)) ->
  (forall w s, P w -> Q (Err s) w) ->
  (forall w a, P w -> f w = Some a -> Q (Ok a) w) ->
  hoare P (sql_query f) Q E.
Proof.
  intros Hd Hfail Hok w Hw. unfold sql_query. apply Hd in Hw.
  destruct (match sb_faults w with [] => false | b :: _ => b end); [by apply Hfail|].
  destruct (f _) eqn:Ef; [by apply Hok|by apply Hfail].
Qed.

(** *** Invariants *)

Lemma keeps_elim {A} I (m : H R A) E : keeps I m -> hoare I m (fun _ => I) E.
Proof. intros Hm. apply Hm. Qed.

Lemma keeps_ret {A} I (a : A) : keeps I (mret a).
Proof. intros E. by apply hoare_ret. Qed.

Lemma keeps_bind {A B} I (m : H R A) (f : A -> H R B) :
  keeps I m -> (forall a, keeps I (f a)) -> keeps I (m ≫= f).
Proof. intros Hm Hf E. eapply hoare_bind; [apply Hm|intros; apply Hf]. Qed.

Lemma keeps_gets {A} I (f : SBWorld R -> A) : keeps I (gets f).
Proof. intros E w Hw. exact Hw. Qed.

Lemma keeps_update I f : (forall w, I w -> I (f w)) -> keeps I (update f).
Proof. intros Hf E. by apply hoare_update. Qed.

Lemma keeps_for_each {A} I (l : list A) body :
  (forall a, keeps I (body a)) -> keeps I (for_each l body).
Proof.
  intros Hb. induction l as [|a l IH]; [apply keeps_ret|].
  cbn [for_each]. apply keeps_bind; [apply Hb|done].
Qed.

(** An invariant that does not read the pending faults, the audit trail, the
    artifacts and the host. *)
Class Framed (I : assertion) := {
  framed_fault : forall w, I w -> I (sb_drop_fault w);
  framed_audit : forall f w, I w -> I (set_audit f w);
  framed_audit_log : forall f w, I w -> I (set_audit_log f w);
  framed_artifacts : forall f w, I w -> I (set_artifacts f w);
  framed_host : forall h w, I w -> I (set_host h w)
}.

#[export] Instance framed_of_tables (P : gmap UUID BuildRow -> R -> Prop) :
  Framed (fun w => P (sb_builds w) (sb_runtime w)).
Proof. by split. Qed.

Context `{UuidText} `{RowOrder} `{Schema} `{Postgres} `{UnicodeTables} `{FoldTables} `{Digest}.

Context `{CR : ContainerRuntime R}.

Section framed.
Context (I : assertion) `{HI : !Framed I}.

Lemma keeps_sql_exec guard f :
  (forall w, I w -> guard w = true -> I (f w)) -> keeps I (sql_exec guard f).
Proof. intros Hf E. apply hoare_sql_exec; [apply framed_fault|done|done]. Qed.

Lemma keeps_sql_query {A} (f : SBWorld R -> option A) : keeps I (sql_query f).
Proof. intros E. apply hoare_sql_query; [apply framed_fault|done|done]. Qed.

Lemma keeps_Log pool ev : keeps I (Log pool ev).
Proof.
  unfold Log. apply keeps_bind; [apply keeps_update; intros; by apply framed_audit_log|].
  intros _. destruct pool; [|apply keeps_ret]. apply keeps_bind; [|intros; apply keeps_ret].
  apply keeps_sql_exec. intros. by apply framed_audit.
Qed.

Lemma keeps_when_audit h m : (forall pool, keeps I (m pool)) -> keeps I (when_audit h m).
Proof. intros Hm. unfold when_audit. destruct (h_Audit h); [apply Hm|apply keeps_ret]. Qed.

Lemma keeps_when_store {A} h (m : H R A) : keeps I m -> keeps I (when_store h m).
Proof.
  intros Hm. unfold when_store. destruct (h_Store h); [|apply keeps_ret].
  apply keeps_bind; [done|intros; apply keeps_ret].
Qed.

Lemma keeps_InsertArtifact now id a : keeps I (InsertArtifact now id a).
Proof. apply keeps_sql_exec. intros. by apply framed_artifacts. Qed.

Lemma keeps_resolve_secrets h e kc u r b names acc :
  keeps I (resolve_secrets h e kc u r b names acc).
Proof.
  revert acc. induction names as [|nm names IH]; intros [[env res] fail]; cbn [resolve_secrets];
    [apply keeps_ret|].
  destruct (kc_GetBuildSecret _ _ _ _); (apply keeps_bind; [|intros; apply IH]);
    apply keeps_when_audit; intros; apply keeps_Log.
Qed.

Lemma keeps_secrets_stage h e req u r plan : keeps I (secrets_stage h e req u r plan).
Proof.
  unfold secrets_stage. destruct (h_Keychain h); [apply keeps_resolve_secrets|apply keeps_ret].
Qed.

Lemma keeps_redact_stage h e id snap res : keeps I (redact_stage h e id snap res).
Proof.
  unfold redact_stage. destruct res as [r|]; [|apply keeps_ret].
  destruct (String.eqb _ ""); [apply keeps_ret|].
  apply keeps_bind; [|intros; apply keeps_ret].
  apply keeps_when_audit. intros. apply keeps_Log.
Qed.

Lemma keeps_artifacts_stage h e id plan logs : keeps I (artifacts_stage h e id plan logs).
Proof.
  unfold artifacts_stage. destruct (bp_ArtifactPaths plan); [|apply keeps_ret].
  apply keeps_bind; [|intros; apply keeps_ret]. apply keeps_for_each.
  intros a. apply keeps_when_store, keeps_InsertArtifact.
Qed.

Lemma keeps_fingerprint_stage h req plan : keeps I (fingerprint_stage h req plan).
Proof.
  unfold fingerprint_stage. destruct (Nat.eqb _ 0); [apply keeps_ret|].
  destruct (_ && _); [|apply keeps_ret].
  apply keeps_bind; [apply keeps_sql_query|].
  intros [fp|]; apply keeps_ret.
Qed.

Lemma cleanup_keeps h e plan w : I w -> I (cleanup_workspace h e plan w).
Proof.
  intros Hw. unfold cleanup_workspace.
  destruct (SecureCleanupWorkspace plan (sb_host w)) as [[removed p] host].
  apply (framed_host host) in Hw. destruct (0 <? removed); [|done].
  assert (keeps I (when_audit h (fun pool =>
    LogWorkspaceScrub (R:=R) pool (e_now e) (uuid_String (bp_ID plan)) removed))) as Hk
    by (apply keeps_when_audit; intros; apply keeps_Log).
  specialize (Hk (fun _ => I) _ Hw). by destruct (when_audit _ _ _) as [[|] ?].
Qed.

(** A whole handler: returning without a response replies with an empty object. *)
Definition request (P : assertion) (m : H R unit) (E : Response -> assertion) : Prop :=
  hoare P m (fun _ => E (Reply 200 [])) E.

(** The workspace around the rest of the request. *)
Lemma request_with_workspace h e plan rest (E : Response -> assertion) :
  (forall r w, E r w -> E r (cleanup_workspace h e plan w)) ->
  (forall dir r w, E r w -> E r (cleanup_workspace h e (with_dir dir plan) w)) ->
  (forall w s m, I w -> E (HttpError s m) w) ->
  request I (rest plan) E ->
  (forall dir, request I (rest (with_dir dir plan)) E) ->
  request I (with_workspace h e plan rest) E.
Proof.
  intros Hc1 Hc2 Herr Hrest Hrest2. unfold with_workspace, request.
  destruct (Nat.eqb _ 0) eqn:Es; [done|].
  destruct (_ <? _); [apply hoare_respond; intros; by apply Herr|].
  apply (hoare_bind _ _ _ (fun _ => I)); [by intros w Hw|]. intros host.
  destruct (PrepareWorkspace _ _ _ _) as [[p host']|err] eqn:Ep;
    [|apply hoare_respond; intros; by apply Herr].
  assert (exists dir, p = with_dir dir plan) as [dir ->].
  { revert Ep. unfold PrepareWorkspace. rewrite Es. destruct (e_mkdir e) as [dir|]; [|done].
    destruct (write_files _ _ _ _); [|done]. intros [= <- <-]. eauto. }
  apply (hoare_bind _ _ _ (fun _ => I));
    [apply hoare_update; intros; by apply framed_host|]. intros _.
  apply hoare_deferring. eapply hoare_conseq; [apply (Hrest2 dir)|done|..];
    intros; cbv beta in *; auto.
Qed.

Lemma keeps_Query pool q : keeps I (Query (R:=R) pool q).
Proof. unfold Query. destruct (negb pool); [apply keeps_ret|apply keeps_sql_query]. Qed.

(** The endpoints that run nothing. *)
Definition read_only (req : Request) : bool :=
  match req with ExecuteReq _ | ResolveExecuteReq _ | RetryReq _ => false | _ => true end.

Ltac read_step HE :=
  match goal with
  | |- hoare _ (respond _) _ _ => apply hoare_respond; exact (HE _)
  | |- hoare _ (_ ≫= _) _ _ =>
      apply (hoare_bind _ _ _ (fun _ => I));
      [apply keeps_elim; first [apply keeps_sql_query|apply keeps_Query|apply keeps_gets]
      |intros ?]
  | |- hoare _ (if ?b then _ else _) _ _ => destruct b
  | |- hoare _ (match ?x with _ => _ end) _ _ => destruct x
  end.

Lemma request_read h e req (E : Response -> assertion) :
  read_only req = true -> (forall r w, I w -> E r w) -> request I (handle h e req) E.
Proof.
  intros Hr HE. unfold request. destruct req; try done; cbn [handle];
    unfold HandleGeneratePlan, HandleProbeEnv, HandleListBuildSecrets, HandleHealth,
      HandleStatus, HandleLogs, HandleGetBuildLogs, with_build, HandleListArtifacts,
      HandleBuildComplexity, HandleAuditEvents, HandleListTaskBuilds;
    repeat read_step HE.
Qed.

(** The cases before the plan is executed. *)
Lemma request_ResolveAndExecute h e req (E : Response -> assertion) :
  (forall p r w, E r w -> E r (cleanup_workspace h e p w)) ->
  (forall w s m, I w -> E (HttpError s m) w) ->
  (forall rq taskID userID, req = Some rq -> request I (skip_build h e rq taskID userID) E) ->
  (forall rq taskID userID repoID dir, req = Some rq ->
     uuid_Parse (rq_UserID rq) = Some userID -> uuid_Parse (rq_RepoID rq) = Some repoID ->
     let p := with_dir dir (new_plan e rq taskID) in
     request I (execute_plan h e rq taskID userID repoID p) E) ->
  request I (HandleResolveAndExecute h e req) E.
Proof.
  intros Hc Herr Hskip Hexec. unfold HandleResolveAndExecute.
  destruct req as [rq|]; [|apply hoare_respond; intros; by apply Herr].
  destruct (uuid_Parse (rq_TaskID rq)); [|apply hoare_respond; intros; by apply Herr].
  destruct (uuid_Parse (rq_UserID rq)) eqn:Eu; [|apply hoare_respond; intros; by apply Herr].
  destruct (uuid_Parse (rq_RepoID rq)) eqn:Er; [|apply hoare_respond; intros; by apply Herr].
  destruct (_ || _); [apply hoare_respond; intros; by apply Herr|].
  destruct (_ && _); [by apply Hskip|].
  apply request_with_workspace; [eauto|eauto|done| |intros dir; by apply Hexec].
  by apply (Hexec rq _ _ _ "").
Qed.
End framed.
End logic.

(** ** Predicates on the state of the runtime *)

Section on_runtime.
Context {R : Type} (P : R -> Prop).
Context `{UuidText} `{RowOrder} `{Schema} `{Postgres} `{UnicodeTables} `{FoldTables} `{Digest}.

Definition on_runtime (w : SBWorld R) : Prop := P (sb_runtime w).

#[export] Instance on_runtime_framed : Framed on_runtime.
Proof. by split. Qed.

Lemma onr_exec guard f :
  (forall w, sb_runtime (f w) = sb_runtime w) -> keeps on_runtime (sql_exec guard f).
Proof.
  intros Hf. apply keeps_sql_exec; [apply _|]. intros w Hw _. unfold on_runtime. by rewrite Hf.
Qed.

Lemma onr_CompleteBuild now id st c s d : keeps on_runtime (CompleteBuild now id st c s d).
Proof. by apply onr_exec. Qed.
Lemma onr_InsertBuild id now r : keeps on_runtime (InsertBuild id now r).
Proof. by apply onr_exec. Qed.
Lemma onr_IncrementRetry id : keeps on_runtime (IncrementRetry id).
Proof. by apply onr_exec. Qed.
Lemma onr_UpdateBuildComplexity id c : keeps on_runtime (UpdateBuildComplexity id c).
Proof.
  unfold UpdateBuildComplexity. destruct (negb _); [apply keeps_ret|by apply onr_exec].
Qed.
Lemma onr_UpdateBuildFingerprint id fp : keeps on_runtime (UpdateBuildFingerprint id fp).
Proof. by apply onr_exec. Qed.

Lemma onr_fail_build h e id err el msg :
  request on_runtime (fail_build h e id err el msg) (fun _ => on_runtime).
Proof.
  unfold request, fail_build. apply (hoare_bind _ _ _ (fun _ => on_runtime)).
  - apply keeps_elim, keeps_when_store, onr_CompleteBuild.
  - intros. by apply hoare_respond.
Qed.

Lemma onr_skip_build h e rq t u :
  request on_runtime (skip_build h e rq t u) (fun _ => on_runtime).
Proof.
  unfold request, skip_build. cbv zeta. apply (hoare_bind _ _ _ (fun _ => on_runtime)).
  - apply keeps_elim, keeps_when_store, keeps_bind; [apply onr_InsertBuild|].
    intros _. apply onr_CompleteBuild.
  - intros. by apply hoare_respond.
Qed.

Lemma onr_finish_stage h e rq p fp res fail r red :
  request on_runtime (finish_stage h e rq p fp res fail r red) (fun _ => on_runtime).
Proof.
  unfold request, finish_stage.
  apply (hoare_bind _ _ _ (fun _ => on_runtime));
    [apply keeps_elim, keeps_when_store, onr_CompleteBuild|]. intros _.
  apply (hoare_bind _ _ _ (fun _ => on_runtime));
    [apply keeps_elim, keeps_artifacts_stage; apply _|]. intros artifacts.
  apply (hoare_bind _ _ _ (fun _ => on_runtime));
    [apply keeps_elim, keeps_when_store, onr_UpdateBuildComplexity|]. intros _.
  apply (hoare_bind _ _ _ (fun _ => on_runtime)); [|intros; by apply hoare_respond].
  apply keeps_elim. destruct fp as [f|]; [destruct (negb _)|];
    first [apply keeps_when_store, onr_UpdateBuildFingerprint|apply keeps_ret].
Qed.
End on_runtime.

(** Steps that leave the runtime alone. *)
Ltac onr_keeps :=
  first
  [ apply keeps_when_store; onr_keeps
  | apply keeps_when_audit; intros; apply keeps_Log; apply _
  | apply onr_CompleteBuild | apply onr_InsertBuild | apply onr_IncrementRetry
  | apply onr_UpdateBuildComplexity | apply onr_UpdateBuildFingerprint | apply keeps_ret
  | apply keeps_redact_stage; apply _ | apply keeps_artifacts_stage; apply _
  | apply keeps_fingerprint_stage; apply _ | apply keeps_secrets_stage; apply _
  | apply keeps_sql_query; apply _ ].
