(* ===== verification/SandboxSafety.v ===== *)
(** * What the sandbox endpoints guarantee

    The theorems about whole requests of SandboxHandler.v: containers, retry counts,
    the states of builds, the plans that are executed, redaction. *)

From Stdlib Require Import ZArith Lia Ascii String.
From stdpp Require Import base list gmap strings.
From S2P Require Import Prelude GoStrings SwarmDb TeamManager Sandbox Redact.
From S2P Require Import Fingerprint DockerRuntime GoFloat Complexity BuildStore Probe.
From S2P Require Import SandboxHandler SandboxLogic.
#[local] Opaque RedactLogs.
Local Open Scope string_scope.
Local Open Scope Z_scope.

(** ** No container outlives a request *)

Section containers.
Context {R : Type} `{CR : ContainerRuntime R} `{RC : !RuntimeContract R}.
Context `{UuidText} `{RowOrder} `{Schema} `{Postgres} `{UnicodeTables} `{FoldTables} `{Digest}.

Notation lives L := (on_runtime (fun r => live r ⊆ L)).

Lemma lives_Create L p E :
  hoare (lives L) (Create_ p)
    (fun x => match x with Ok id => lives ({[id]} ∪ L) | Err _ => lives L end) E.
Proof.
  intros w Hw. unfold Create_, on_runtime in *. destruct (rt_Create p (sb_runtime w)) as [[id|err] r'] eqn:Ec.
  - apply live_create_ok in Ec. cbn. set_solver.
  - apply live_create_err in Ec. cbn. set_solver.
Qed.

Lemma lives_Start L id E : hoare (lives L) (Start_ id) (fun _ => lives L) E.
Proof.
  intros w Hw. unfold Start_, on_runtime in *. pose proof (live_start id (sb_runtime w)).
  destruct (rt_Start _ _). cbn in *. set_solver.
Qed.

Lemma lives_Wait L id t E : hoare (lives L) (Wait_ id t) (fun _ => lives L) E.
Proof.
  intros w Hw. unfold Wait_, on_runtime in *. pose proof (live_wait id t (sb_runtime w)).
  destruct (rt_Wait _ _ _). cbn in *. set_solver.
Qed.

Lemma lives_Destroy L id E : hoare (lives ({[id]} ∪ L)) (Destroy_ id) (fun _ => lives L) E.
Proof.
  intros w Hw. unfold Destroy_, on_runtime in *. pose proof (live_destroy id (sb_runtime w)).
  destruct (rt_Destroy _ _). cbn in *. set_solver.
Qed.

Ltac lives_step :=
  match goal with
  | |- hoare _ (mret _) _ _ => by apply hoare_ret
  | |- hoare _ (respond _) _ _ => by apply hoare_respond
  | |- hoare _ (Create_ _ ≫= _) _ _ => eapply hoare_bind; [apply lives_Create|intros [?|?]]
  | |- hoare _ (Start_ _ ≫= _) _ _ => eapply hoare_bind; [apply lives_Start|intros [?|]]
  | |- hoare _ (Wait_ _ _ ≫= _) _ _ => eapply hoare_bind; [apply lives_Wait|intros [[?|] [?|]]]
  | |- hoare _ (Destroy_ _ ≫= _) _ _ => eapply hoare_bind; [apply lives_Destroy|intros ?]
  | |- hoare ?P (_ ≫= _) _ ?E =>
      apply (hoare_bind _ _ _ (fun _ => P)); [apply keeps_elim; onr_keeps|intros ?]
  | |- hoare _ (if ?b then _ else _) _ _ => destruct b
  | |- hoare _ (match ?x with _ => _ end) _ _ => destruct x
  | |- hoare _ (let '(_, _) := ?x in _) _ _ => destruct x
  end.

Lemma lives_HandleExecute L plan : request (lives L) (HandleExecute plan) (fun _ => lives L).
Proof. unfold request, HandleExecute. repeat lives_step. Qed.

Lemma lives_run_stage L h e rq p fp snap res fail :
  request (lives L) (run_stage h e rq p fp snap res fail) (fun _ => lives L).
Proof.
  unfold request, run_stage. lives_step; [|apply onr_fail_build].
  lives_step. lives_step; [lives_step; apply onr_fail_build|].
  eapply hoare_bind; [apply lives_Wait|intros [res1 err]]. do 2 lives_step.
  apply (hoare_bind _ _ _ (fun _ => lives L)); [apply keeps_elim; onr_keeps|].
  intros [[r|] red]; [apply onr_finish_stage|].
  destruct err; cbn [snd]; [apply onr_fail_build|lives_step].
Qed.

Lemma lives_execute_plan L h e rq t u r p :
  request (lives L) (execute_plan h e rq t u r p) (fun _ => lives L).
Proof.
  unfold request, execute_plan. lives_step. destruct a as [fp p']. lives_step.
  destruct a as [[snap res] fail]. lives_step. apply lives_run_stage.
Qed.

Lemma lives_HandleResolveAndExecute L h e req :
  request (lives L) (HandleResolveAndExecute h e req) (fun _ => lives L).
Proof.
  apply request_ResolveAndExecute; [apply _| |done| |].
  - intros p r w. apply cleanup_keeps, _.
  - intros rq t u _. apply onr_skip_build.
  - intros rq t u r dir _ _ _. apply lives_execute_plan.
Qed.

Lemma lives_HandleRetry L h e body : request (lives L) (HandleRetry h e body) (fun _ => lives L).
Proof.
  unfold request, HandleRetry. do 4 (try lives_step).
  destruct a as [rec|]; [|lives_step]. do 2 (lives_step; [lives_step|]).
  lives_step. destruct (retry_secrets h rec) as [[env res] fail]. lives_step.
  unfold run_retry. lives_step; [|apply onr_fail_build].
  lives_step; [lives_step; apply onr_fail_build|].
  lives_step; (lives_step; try apply onr_fail_build); repeat lives_step.
Qed.

(** C14: for every container runtime that keeps its contract, no request - plan,
    execution, execution with secrets, retry or query, whatever fails on the way -
    leaves a container behind that did not exist before it.  For the Docker runtime a container
    exists as long as the table of plans has it. *)
Theorem no_container_outlives h e req w :
  live (sb_runtime (serve h e req w).2) ⊆ live (sb_runtime w).
Proof.
  set (L := live (sb_runtime w)).
  assert (forall m : H R unit, request (lives L) m (fun _ => lives L) ->
    live (sb_runtime (match m w with (inl r, w') => (r, w') | (inr _, w') => (Reply 200 [], w') end).2)
      ⊆ L) as Hm.
  { intros m Hm. specialize (Hm w (reflexivity _)). by destruct (m w) as [[r|[]] w']. }
  unfold serve. apply Hm. destruct (read_only req) eqn:Er.
  - by apply request_read; [apply _|done|].
  - destruct req; try done; [apply lives_HandleExecute|apply lives_HandleResolveAndExecute
      |apply lives_HandleRetry].
Qed.

End containers.

(** ** Retries are bounded *)

(** How many more containers the retries of a build with this count can run: a retry
    raises the count of the build and adds a build with the raised count. *)
Definition retry_potential (retryCount : Z) : Z :=
  if retryCount <? MaxBuildRetries then 2 ^ (MaxBuildRetries - retryCount) - 1 else 0.

Definition row_potential (row : BuildRow) : Z := retry_potential (rec_RetryCount (row_rec row)).

Definition budget (m : gmap UUID BuildRow) : Z :=
  map_fold (fun _ row acc => row_potential row + acc) 0 m.

Lemma retry_potential_split n :
  n < MaxBuildRetries -> retry_potential n = 1 + 2 * retry_potential (n + 1).
Proof.
  unfold retry_potential, MaxBuildRetries. intros Hn.
  replace (n <? 2) with true by (symmetry; apply Z.ltb_lt; lia).
  destruct (n + 1 <? 2) eqn:E; bool_to_prop.
  - replace (2 - n) with (Z.succ (2 - (n + 1))) by lia. rewrite Z.pow_succ_r by lia. lia.
  - replace n with 1 by lia. reflexivity.
Qed.

Lemma retry_potential_nonneg n : 0 <= retry_potential n.
Proof.
  unfold retry_potential. destruct (n <? _) eqn:E; bool_to_prop; [|lia].
  pose proof (Z.pow_pos_nonneg 2 (MaxBuildRetries - n)). unfold MaxBuildRetries in *. lia.
Qed.

Lemma budget_delete m id row :
  m !! id = Some row -> budget m = row_potential row + budget (delete id m).
Proof.
  intros Hm. unfold budget.
  by rewrite (map_fold_delete_L (fun _ row acc => row_potential row + acc) 0 id row m)
    by (intros; lia || done).
Qed.

Lemma budget_insert m id row :
  m !! id = None -> budget (<[id := row]> m) = row_potential row + budget m.
Proof.
  intros Hm. rewrite (budget_delete _ id row) by apply lookup_insert_eq.
  by rewrite delete_insert_id.
Qed.

Lemma budget_alter m id g row :
  m !! id = Some row ->
  budget (alter g id m) = budget m - row_potential row + row_potential (g row).
Proof.
  intros Hm. rewrite (budget_delete m id row) by done.
  rewrite (budget_delete (alter g id m) id (g row)) by (by rewrite lookup_alter_eq, Hm).
  assert (delete id (alter g id m) = delete id m) as ->; [|lia].
  apply map_eq. intros i. destruct (decide (i = id)) as [->|Hne].
  - by rewrite !lookup_delete_eq.
  - by rewrite !lookup_delete_ne, lookup_alter_ne by done.
Qed.

Lemma budget_alter_same m id g :
  (forall row, rec_RetryCount (row_rec (g row)) = rec_RetryCount (row_rec row)) ->
  budget (alter g id m) = budget m.
Proof.
  intros Hg. destruct (m !! id) as [row|] eqn:E.
  - rewrite (budget_alter _ _ _ row) by done. unfold row_potential. rewrite Hg. lia.
  - f_equal. apply map_eq. intros i. destruct (decide (i = id)) as [->|Hne].
    + by rewrite lookup_alter_eq, E.
    + by rewrite lookup_alter_ne.
Qed.

Section retries.
Context {R : Type} `{CR : ContainerRuntime R}.
Context `{UuidText} `{RowOrder} `{Schema} `{Postgres} `{UnicodeTables} `{FoldTables} `{Digest}.
Notation world := (SBWorld (R * list BuildPlan)).

Definition created (w : world) : Z := Z.of_nat (List.length (sb_runtime w).2).

(** No statement fails, and the containers created and the budget left stay
    within [B]. *)
Definition within_budget (B : Z) (w : world) : Prop :=
  sb_faults w = [] /\ created w + budget (sb_builds w) <= B.

#[local] Instance within_budget_framed B : Framed (within_budget B).
Proof. split; try done. intros w [Hf Hb]. split; [|done]. cbn. by rewrite Hf. Qed.

Lemma within_budget_weaken B B' w : B <= B' -> within_budget B w -> within_budget B' w.
Proof. intros HB [Hf Hb]. split; [done|lia]. Qed.

Lemma budget_CompleteBuild B now id st c s d :
  keeps (within_budget B) (CompleteBuild now id st c s d).
Proof.
  apply keeps_sql_exec; [apply _|]. intros w [Hf Hb] _. split; [done|]. cbn.
  by rewrite budget_alter_same.
Qed.

Lemma budget_Start B id : keeps (within_budget B) (Start_ id).
Proof.
  intros E w [Hf Hb]. unfold Start_. cbn. destruct (rt_Start id (sb_runtime w).1). by split.
Qed.
Lemma budget_Wait B id t : keeps (within_budget B) (Wait_ id t).
Proof.
  intros E w [Hf Hb]. unfold Wait_. cbn. destruct (rt_Wait id t (sb_runtime w).1). by split.
Qed.
Lemma budget_Destroy B id : keeps (within_budget B) (Destroy_ id).
Proof.
  intros E w [Hf Hb]. unfold Destroy_. cbn. destruct (rt_Destroy id (sb_runtime w).1). by split.
Qed.
Lemma budget_Create B p E :
  hoare (within_budget (B - 1)) (Create_ p) (fun _ => within_budget B) E.
Proof.
  intros w [Hf Hb]. unfold Create_. cbn. destruct (rt_Create p (sb_runtime w).1).
  split; [done|]. unfold created in *. cbn. rewrite length_app. cbn. lia.
Qed.

Ltac budget_step :=
  match goal with
  | |- hoare _ (respond _) _ _ => by apply hoare_respond
  | |- hoare (within_budget ?B) (_ ≫= _) _ _ =>
      apply (hoare_bind _ _ _ (fun _ => within_budget B));
      [apply keeps_elim; first
         [apply budget_Start|apply budget_Wait|apply budget_Destroy
         |apply keeps_when_store, budget_CompleteBuild]
      |intros ?]
  | |- hoare _ (match ?x with _ => _ end) _ _ => destruct x
  | |- hoare _ (let '(_, _) := ?x in _) _ _ => destruct x
  end.

Definition within_budget' (B : Z) (r : Response) : world -> Prop := within_budget B.

Lemma budget_run_retry B h e id rec p res fail :
  hoare (within_budget (B - 1)) (run_retry h e id rec p res fail)
    (fun _ => within_budget B) (within_budget' B).
Proof.
  unfold run_retry. eapply hoare_bind; [apply (budget_Create B)|]. intros a.
  unfold fail_build. repeat budget_step.
Qed.

Lemma budget_GetBuild B id E :
  hoare (within_budget B) (GetBuild id)
    (fun x w => within_budget B w /\
       match x with
       | Ok rec => exists row, sb_builds w !! id = Some row /\ row_rec row = rec
       | Err _ => True
       end) E.
Proof.
  apply hoare_sql_query; [intros; by apply framed_fault|done|].
  intros w rec Hw Hrec. apply fmap_Some in Hrec as (row & Hrow & ->). eauto.
Qed.

Lemma budget_IncrementRetry B id rec E :
  rec_RetryCount rec < MaxBuildRetries ->
  hoare (fun w => within_budget B w /\
           exists row, sb_builds w !! id = Some row /\ row_rec row = rec)
    (IncrementRetry id)
    (fun _ => within_budget (B - 1 - retry_potential (rec_RetryCount rec + 1))) E.
Proof.
  intros Hn w [[Hf Hb] (row & Hrow & <-)]. unfold IncrementRetry, sql_exec. rewrite Hf. cbn.
  split; [cbn; by rewrite Hf|]. unfold created in *. cbn.
  rewrite (budget_alter _ _ _ row) by done. unfold row_potential at 1 2. cbn.
  pose proof (retry_potential_split _ Hn). lia.
Qed.

Lemma budget_InsertBuild B fresh now rec E :
  hoare (within_budget B) (InsertBuild fresh now rec)
    (fun _ => within_budget (B + retry_potential (rec_RetryCount rec))) E.
Proof.
  pose proof (retry_potential_nonneg (rec_RetryCount rec)).
  apply hoare_sql_exec; [intros; by apply framed_fault| |].
  - intros w. apply within_budget_weaken. lia.
  - intros w [Hf Hb] Hg. split; [done|]. unfold created in *. cbn.
    unfold insert_allowed in Hg. bool_to_prop. cbn in *.
    rewrite budget_insert by (by eapply bool_decide_eq_true_1). unfold row_potential. cbn. lia.
Qed.

Lemma budget_HandleRetry B h e body :
  request (within_budget B) (HandleRetry h e body) (within_budget' B).
Proof.
  unfold request, HandleRetry. destruct body as [body|]; [|budget_step].
  destruct (uuid_Parse body) as [id|]; [|budget_step].
  destruct (negb (h_Store h)); [budget_step|].
  eapply hoare_bind; [apply budget_GetBuild|]. intros [rec|err]; cbv beta iota.
  2: { apply hoare_respond. intros w Hw; exact (proj1 Hw). }
  destruct (negb _ && _); [apply hoare_respond; intros w Hw; exact (proj1 Hw)|].
  destruct (MaxBuildRetries <=? rec_RetryCount rec) eqn:Er; bool_to_prop;
    [apply hoare_respond; intros w Hw; exact (proj1 Hw)|].
  eapply hoare_bind; [by apply budget_IncrementRetry|]. intros ?.
  destruct (retry_secrets h rec) as [[env res] fail].
  eapply hoare_bind; [apply budget_InsertBuild|]. intros x. cbn [rec_RetryCount running_record].
  eapply hoare_conseq; [apply (budget_run_retry B)| |done|done].
  intros w. apply within_budget_weaken. lia.
Qed.

(** A sequence of retry requests, of any builds. *)
Definition serve_retries h (reqs : list (Env * option string)) (w : world) : world :=
  fold_left (fun w r => (serve h r.1 (RetryReq r.2) w).2) reqs w.

Lemma budget_serve_retries B h reqs w :
  within_budget B w -> within_budget B (serve_retries h reqs w).
Proof.
  revert w. induction reqs as [|[e body] reqs IH]; intros w Hw; [done|]. cbn. apply IH.
  pose proof (budget_HandleRetry B h e body w Hw) as Hr. unfold serve. cbn.
  by destruct (HandleRetry h e body w) as [[r|[]] w'].
Qed.

(** While no statement fails, the containers that any sequence of retry requests
    creates, on any builds and with any outcome of the runs, are bounded by the
    budget of the table: every build counts [2 ^ (MaxRetries - retry_count) - 1],
    because a retry raises the count of its build and records one more build with
    the raised count. *)
Theorem retries_bounded h reqs w :
  sb_faults w = [] ->
  created (serve_retries h reqs w) <= created w + budget (sb_builds w).
Proof.
  intros Hf.
  destruct (budget_serve_retries (created w + budget (sb_builds w)) h reqs w) as [_ Hb];
    [split; [done|lia]|].
  enough (0 <= budget (sb_builds (serve_retries h reqs w))) by lia.
  apply (map_fold_weak_ind (fun r _ => 0 <= r)); [lia|].
  intros id row m r _ Hr. pose proof (retry_potential_nonneg (rec_RetryCount (row_rec row))).
  unfold row_potential. lia.
Qed.

End retries.

(** ** No build stays running *)

Section running.
Context {R : Type} `{CR : ContainerRuntime R} `{RC : !RuntimeContract R}.
Context `{UuidText} `{RowOrder} `{Schema} `{Postgres} `{UnicodeTables} `{FoldTables} `{Digest}.

(** No statement fails, and only builds of [L] are recorded as running. *)
Definition running_in (L : gset UUID) (w : SBWorld R) : Prop :=
  sb_faults w = [] /\
  forall id row, sb_builds w !! id = Some row -> rec_Status (row_rec row) = "running" -> id ∈ L.

(** The database stores the texts the handlers complete builds with: the statuses,
    the reasons, the errors of the runtime and the summaries of its logs. *)
Record storable : Prop := {
  st_statuses : forallb text_ok ["success"; "failed"; "error"; "skipped"] = true;
  st_reasons : forall files, text_ok (SkipReason files) = true;
  st_create : forall p r err r', rt_Create p r = (Err err, r') -> text_ok err = true;
  st_start : forall id r err, (rt_Start id r).1 = Some err -> text_ok err = true;
  st_wait : forall id t r x err, (rt_Wait id t r).1 = (x, Some err) -> text_ok err = true;
  st_logs : forall id t r res err, (rt_Wait id t r).1 = (Some res, err) ->
    text_ok (log_summary (br_Logs res)) = true /\
    forall snapshot, text_ok (log_summary (RedactLogs (br_Logs res) snapshot)) = true
}.

#[local] Instance running_framed L : Framed (running_in L).
Proof. split; try done. intros w [Hf Hb]. split; [|done]. cbn. by rewrite Hf. Qed.

Lemma running_weaken L L' w : L ⊆ L' -> running_in L w -> running_in L' w.
Proof. intros HL [Hf Hb]. split; [done|]. intros. apply HL. eauto. Qed.

(** The state of a request with a build of its own, recorded if there is a store. *)
Definition pending h (id : UUID) (L : gset UUID) : SBWorld R -> Prop :=
  running_in (if h_Store h then {[id]} ∪ L else L).

#[local] Instance pending_framed h id L : Framed (pending h id L).
Proof. unfold pending. apply _. Qed.

Lemma running_complete h L now id st c s d E :
  text_ok st = true -> text_ok s = true -> st <> "running" ->
  hoare (pending h id L) (when_store h (CompleteBuild now id st c s d))
    (fun _ => running_in L) E.
Proof.
  intros Hst Hs Hne w [Hf Hb]. unfold when_store. destruct (h_Store h); [|by split].
  unfold mbind, H_bind, mret, H_ret, CompleteBuild, sql_exec. rewrite Hf. cbn. rewrite Hst, Hs.
  cbn. split; [cbn; by rewrite Hf|]. cbn. intros i row Hi Hr.
  destruct (decide (i = id)) as [->|Hi'].
  - rewrite lookup_alter_eq in Hi. apply fmap_Some in Hi as (row0 & _ & ->). by cbn in Hr.
  - rewrite lookup_alter_ne in Hi by done. specialize (Hb i row Hi Hr). set_solver.
Qed.

Lemma running_keep L guard (f : gmap UUID BuildRow -> gmap UUID BuildRow) :
  (forall m id row, f m !! id = Some row -> rec_Status (row_rec row) = "running" ->
     exists row', m !! id = Some row' /\ rec_Status (row_rec row') = "running") ->
  keeps (R:=R) (running_in L) (sql_exec guard (set_builds f)).
Proof.
  intros Hf. apply keeps_sql_exec; [apply _|]. intros w [Hw Hb] _. split; [done|].
  intros id row Hi Hr. destruct (Hf _ _ _ Hi Hr) as (row' & ? & ?). eauto.
Qed.

Lemma running_alter g id :
  (forall row, rec_Status (row_rec (g row)) = rec_Status (row_rec row)) ->
  forall (m : gmap UUID BuildRow) i row, alter g id m !! i = Some row ->
  rec_Status (row_rec row) = "running" ->
  exists row', m !! i = Some row' /\ rec_Status (row_rec row') = "running".
Proof.
  intros Hg m i row Hi Hr. destruct (decide (i = id)) as [->|Hne].
  - rewrite lookup_alter_eq in Hi. apply fmap_Some in Hi as (row0 & Hi & ->).
    exists row0. by rewrite Hg in Hr.
  - rewrite lookup_alter_ne in Hi by done. eauto.
Qed.

Lemma running_IncrementRetry L id : keeps (running_in L) (IncrementRetry id).
Proof. apply running_keep, running_alter. done. Qed.
Lemma running_UpdateBuildComplexity L id c : keeps (running_in L) (UpdateBuildComplexity id c).
Proof.
  unfold UpdateBuildComplexity. destruct (negb _); [apply keeps_ret|].
  apply running_keep, running_alter. done.
Qed.
Lemma running_UpdateBuildFingerprint L id fp :
  keeps (running_in L) (UpdateBuildFingerprint id fp).
Proof. apply running_keep, running_alter. done. Qed.

Lemma running_InsertBuild L id now rec E :
  rec_ID rec = id ->
  hoare (running_in L) (InsertBuild id now rec) (fun _ => running_in ({[id]} ∪ L)) E.
Proof.
  intros Hid. unfold InsertBuild. rewrite Hid.
  replace (if bool_decide (id = uuid_Nil) then id else id) with id by (by destruct (bool_decide _)).
  apply hoare_sql_exec; [intros; by apply framed_fault|intros w; apply running_weaken; set_solver|].
  intros w [Hf Hb] _. split; [done|]. cbn. intros i row Hi Hr.
  destruct (decide (i = id)) as [->|Hne]; [set_solver|].
  rewrite lookup_insert_ne in Hi by done. specialize (Hb i row Hi Hr). set_solver.
Qed.

Lemma running_runtime {A} L (f : R -> A * R) :
  keeps (running_in L) (fun w => let '(x, r) := f (sb_runtime w) in (inr x, set_runtime r w)).
Proof. intros E w [Hf Hb]. destruct (f (sb_runtime w)). by split. Qed.
Lemma running_Destroy L id : keeps (running_in L) (Destroy_ id).
Proof. apply (running_runtime L (rt_Destroy id)). Qed.

Context (Hst : storable).

Lemma running_Create L p E :
  hoare (running_in L) (Create_ p) (fun x w =>
    (match x with Err err => text_ok err = true | Ok _ => True end) /\ running_in L w) E.
Proof.
  intros w [Hf Hb]. unfold Create_. destruct (rt_Create p (sb_runtime w)) as [[id|err] r] eqn:Ec;
    (split; [|by split]); [done|]. by eapply st_create.
Qed.

Lemma running_Start L id E :
  hoare (running_in L) (Start_ id) (fun x w =>
    (match x with Some err => text_ok err = true | None => True end) /\ running_in L w) E.
Proof.
  intros w [Hf Hb]. unfold Start_. destruct (rt_Start id (sb_runtime w)) as [x r] eqn:Ec;
    (split; [|by split]). destruct x; [|done]. eapply (st_start Hst id). by rewrite Ec.
Qed.

(** What the handlers may rely on of an answer of [Wait]. *)
Definition wait_ok (x : option BuildResult * option string) : Prop :=
  x <> (None, None) /\ (forall err, x.2 = Some err -> text_ok err = true) /\
  forall r, x.1 = Some r -> text_ok (log_summary (br_Logs r)) = true /\
    forall snapshot, text_ok (log_summary (RedactLogs (br_Logs r) snapshot)) = true.

Lemma running_Wait L id t E :
  hoare (running_in L) (Wait_ id t) (fun x w => wait_ok x /\ running_in L w) E.
Proof.
  intros w [Hf Hb]. unfold Wait_. pose proof (wait_not_nil id t (sb_runtime w)) as Hn.
  destruct (rt_Wait id t (sb_runtime w)) as [x r] eqn:Ec. split; [|by split].
  split; [done|]. split.
  - intros err Herr. eapply (st_wait Hst id t (sb_runtime w) x.1). rewrite Ec. cbn.
    by rewrite <- Herr, <- surjective_pairing.
  - intros res Hres. eapply (st_logs Hst id t (sb_runtime w) res x.2). rewrite Ec. cbn.
    by rewrite <- Hres, <- surjective_pairing.
Qed.

Definition running' (L : gset UUID) (r : Response) : SBWorld R -> Prop := running_in L.

Lemma text_ok_error : text_ok "error" = true /\ text_ok "skipped" = true.
Proof. pose proof (st_statuses Hst) as Hs. cbn in Hs. bool_to_prop. done. Qed.

Lemma text_ok_build_status c :
  text_ok (build_status c) = true /\ build_status c <> "running".
Proof.
  pose proof (st_statuses Hst) as Hs. cbn in Hs. bool_to_prop.
  unfold build_status. by destruct (c =? 0).
Qed.

Lemma running_fail_build L h e id err el msg :
  text_ok err = true ->
  request (pending h id L) (fail_build h e id err el msg) (running' L).
Proof.
  intros Herr. unfold request, fail_build.
  apply (hoare_bind _ _ _ (fun _ => running_in L)); [|intros; by apply hoare_respond].
  apply running_complete; [exact (proj1 text_ok_error)|done|done].
Qed.

Ltac pending_keeps :=
  first
  [ apply keeps_when_audit; intros; apply keeps_Log; apply _
  | apply keeps_redact_stage; apply _ | apply keeps_artifacts_stage; apply _
  | apply keeps_fingerprint_stage; apply _ | apply keeps_secrets_stage; apply _
  | apply running_Destroy ].
Ltac pending_step :=
  match goal with
  | |- hoare ?P (_ ≫= _) _ _ =>
      apply (hoare_bind _ _ _ (fun _ => P)); [apply keeps_elim; pending_keeps|intros ?]
  end.

Lemma running_finish_stage L h e rq p fp res fail r red :
  text_ok (log_summary (br_Logs r)) = true ->
  request (pending h (bp_ID p) L) (finish_stage h e rq p fp res fail r red) (running' L).
Proof.
  intros Hr. unfold request, finish_stage. destruct (text_ok_build_status (br_ExitCode r)).
  apply (hoare_bind _ _ _ (fun _ => running_in L)); [by apply running_complete|]. intros _.
  apply (hoare_bind _ _ _ (fun _ => running_in L));
    [apply keeps_elim, keeps_artifacts_stage; apply _|]. intros artifacts.
  apply (hoare_bind _ _ _ (fun _ => running_in L));
    [apply keeps_elim, keeps_when_store, running_UpdateBuildComplexity|]. intros _.
  apply (hoare_bind _ _ _ (fun _ => running_in L)); [|intros; by apply hoare_respond].
  apply keeps_elim. destruct fp as [f|]; [destruct (negb _)|];
    first [apply keeps_when_store, running_UpdateBuildFingerprint|apply keeps_ret].
Qed.

(** The result after the redaction stage. *)
Lemma pending_redact h e id snap (x : option BuildResult) (P : SBWorld R -> Prop) `{!Framed P} E :
  hoare P (redact_stage h e id snap x) (fun y w =>
    (is_Some y.1 <-> is_Some x) /\
    (forall r, y.1 = Some r -> exists r', x = Some r' /\
       (br_Logs r = br_Logs r' \/ br_Logs r = RedactLogs (br_Logs r') snap)) /\ P w) E.
Proof.
  unfold redact_stage. destruct x as [r|].
  - destruct (String.eqb _ "").
    + apply hoare_ret. intros w Hw. cbn [fst]. split; [done|]. split; [|done].
      intros r' [= <-]. exists r. auto.
    + apply (hoare_bind _ _ _ (fun _ => P));
        [apply keeps_elim, keeps_when_audit; intros; apply keeps_Log; apply _|].
      intros ?. apply hoare_ret. intros w Hw. cbn [fst]. split; [split; intros; eauto|].
      split; [|done]. intros r' [= <-]. exists r. auto.
  - apply hoare_ret. intros w Hw. cbn [fst]. split; [done|]. by split.
Qed.

Lemma running_run_stage L h e rq p fp snap res fail :
  request (pending h (bp_ID p) L) (run_stage h e rq p fp snap res fail) (running' L).
Proof.
  unfold request, run_stage. eapply hoare_bind; [apply running_Create|].
  intros [cid|err]; apply hoare_pure; intros Hc; [|by apply running_fail_build].
  pending_step. eapply hoare_bind; [apply running_Start|].
  intros [err|]; apply hoare_pure; intros Hs; [pending_step; by apply running_fail_build|].
  eapply hoare_bind; [apply running_Wait|]. intros [x err]. apply hoare_pure.
  intros (Hnn & Herr & Hlogs). cbn [fst snd] in Hnn, Herr, Hlogs. do 2 pending_step.
  eapply hoare_bind; [apply pending_redact, _|]. intros [[r|] red].
  - apply hoare_pure. intros _. apply hoare_pure. intros Hr.
    destruct (Hr r eq_refl) as (r' & Hx & Hlog). destruct (Hlogs r' Hx) as [Hl1 Hl2].
    apply (running_finish_stage L h e rq (with_env ∅ p)). destruct Hlog as [->|Hl]; [done|]. rewrite Hl. apply Hl2.
  - apply hoare_pure. intros [_ Hx]. apply hoare_pure. intros _. cbn [snd].
    destruct err as [err|]; [by apply running_fail_build, Herr|].
    destruct x as [r|]; [|done]. by destruct (Hx ltac:(eauto)).
Qed.

Lemma running_insert_stage L h now rec E :
  hoare (running_in L) (when_store h (InsertBuild (rec_ID rec) now rec))
    (fun _ => pending h (rec_ID rec) L) E.
Proof.
  unfold when_store, pending. destruct (h_Store h); [|by apply hoare_ret].
  eapply hoare_bind; [by apply running_InsertBuild|]. intros ?. by apply hoare_ret.
Qed.

Lemma running_execute_plan L h e rq t u r p :
  bp_ID p = e_newID e ->
  request (running_in L) (execute_plan h e rq t u r p) (running' L).
Proof.
  intros Hid. unfold request, execute_plan. cbv zeta.
  apply (hoare_bind _ _ _ (fun x w => bp_ID x.2 = e_newID e /\ running_in L w)).
  { unfold fingerprint_stage. destruct (Nat.eqb _ 0); [by apply hoare_ret|].
    destruct (_ && _); [|by apply hoare_ret].
    apply (hoare_bind _ _ _ (fun _ => running_in L)); [apply keeps_elim, keeps_sql_query; apply _|].
    intros [fp|]; [|by apply hoare_ret]. apply hoare_ret. intros w Hw. split; [|done].
    by destruct (fp_FastPath _). }
  intros [fp p']. apply hoare_pure. cbn [snd]. intros Hp.
  apply (hoare_bind _ _ _ (fun _ => running_in L)); [apply keeps_elim, keeps_secrets_stage; apply _|].
  intros [[snap res] fail].
  eapply hoare_bind.
  - rewrite <- Hp. apply (running_insert_stage L h (e_now e)
      (running_record (bp_ID (with_env snap p')) t (Some u) _ _ _ _ _ _ 0 "running")).
  - intros ?. apply running_run_stage.
Qed.

Lemma running_skip_build L h e rq t u :
  request (running_in L) (skip_build h e rq t u) (running' L).
Proof.
  unfold request, skip_build. cbv zeta.
  apply (hoare_bind _ _ _ (fun _ => running_in L)); [|intros; by apply hoare_respond].
  apply keeps_elim, keeps_when_store, keeps_bind.
  - unfold InsertBuild. apply running_keep. intros m id row Hi Hr.
    destruct (decide (id = e_newID e)) as [->|Hne].
    + cbn [rec_ID running_record] in Hi.
      replace (if bool_decide (e_newID e = uuid_Nil) then e_newID e else e_newID e)
        with (e_newID e) in Hi by (by destruct (bool_decide _)).
      rewrite lookup_insert_eq in Hi. injection Hi as <-. done.
    + cbn [rec_ID running_record] in Hi.
      replace (if bool_decide (e_newID e = uuid_Nil) then e_newID e else e_newID e)
        with (e_newID e) in Hi by (by destruct (bool_decide _)).
      rewrite lookup_insert_ne in Hi by done. eauto.
  - intros _. apply running_keep. intros m id row Hi Hr.
    destruct (decide (id = e_newID e)) as [->|Hne].
    + rewrite lookup_alter_eq in Hi. apply fmap_Some in Hi as (row0 & _ & ->). done.
    + rewrite lookup_alter_ne in Hi by done. eauto.
Qed.

Lemma running_HandleResolveAndExecute L h e req :
  request (running_in L) (HandleResolveAndExecute h e req) (running' L).
Proof.
  apply request_ResolveAndExecute; [apply _| |done| |].
  - intros p r w. apply cleanup_keeps, _.
  - intros rq t u _. apply running_skip_build.
  - intros rq t u r dir _ _ _. by apply running_execute_plan.
Qed.

Lemma running_run_retry L h e id rec p res fail :
  request (pending h (bp_ID p) L) (run_retry h e id rec p res fail) (running' L).
Proof.
  unfold request, run_retry. eapply hoare_bind; [apply running_Create|].
  intros [cid|err]; apply hoare_pure; intros Hc; [|by apply running_fail_build].
  eapply hoare_bind; [apply running_Start|].
  intros [err|]; apply hoare_pure; intros Hs; [pending_step; by apply running_fail_build|].
  eapply hoare_bind; [apply running_Wait|]. intros [x err]. apply hoare_pure.
  intros (Hnn & Herr & Hlogs). cbn [fst snd] in Hnn, Herr, Hlogs. pending_step.
  destruct x as [r|].
  - destruct (Hlogs r eq_refl) as [Hl _]. destruct (text_ok_build_status (br_ExitCode r)).
    apply (hoare_bind _ _ _ (fun _ => running_in L)); [by apply running_complete|].
    intros. by apply hoare_respond.
  - destruct err as [err|]; [by apply running_fail_build, Herr|done].
Qed.

Lemma running_HandleRetry L h e body :
  request (running_in L) (HandleRetry h e body) (running' L).
Proof.
  unfold request, HandleRetry. destruct body as [body|]; [|by apply hoare_respond].
  destruct (uuid_Parse body) as [id|]; [|by apply hoare_respond].
  destruct (h_Store h) eqn:Eh; [|by apply hoare_respond]. cbn [negb].
  apply (hoare_bind _ _ _ (fun _ => running_in L)); [apply keeps_elim, keeps_sql_query; apply _|].
  intros [rec|]; [|by apply hoare_respond].
  destruct (negb _ && _); [by apply hoare_respond|].
  destruct (_ <=? _); [by apply hoare_respond|].
  apply (hoare_bind _ _ _ (fun _ => running_in L)); [apply keeps_elim, running_IncrementRetry|].
  intros _. destruct (retry_secrets h rec) as [[env res] fail].
  eapply hoare_bind.
  - apply (running_InsertBuild L (e_newID e) (e_now e)). done.
  - intros ?. eapply hoare_conseq; [apply (running_run_retry L)| |done|done].
    intros w. unfold pending. by rewrite Eh.
Qed.

(** C15: when the statements succeed and the database can store the texts, every
    request that records a build as running also records its end, on every path:
    container creation, start and wait errors, timeouts, failed and successful
    builds.  So no build is running after a request that was not running before. *)
Theorem no_build_left_running h e req w :
  sb_faults w = [] ->
  forall id row, sb_builds (serve h e req w).2 !! id = Some row ->
    rec_Status (row_rec row) = "running" ->
    exists row', sb_builds w !! id = Some row' /\ rec_Status (row_rec row') = "running".
Proof.
  intros Hf. set (running := fun row => String.eqb (rec_Status (row_rec row)) "running").
  set (L := dom (base.filter (fun kv => running kv.2 = true) (sb_builds w))).
  assert (forall id, id ∈ L -> exists row', sb_builds w !! id = Some row' /\
            rec_Status (row_rec row') = "running") as HL.
  { intros id Hid. unfold L in Hid. apply elem_of_dom in Hid as [row Hrow].
    apply map_lookup_filter_Some in Hrow as [Hrow Hr]. exists row. split; [done|].
    by apply String.eqb_eq. }
  assert (running_in L w) as Hw.
  { split; [done|]. intros id row Hrow Hr. apply elem_of_dom. exists row.
    apply map_lookup_filter_Some. split; [done|]. by apply String.eqb_eq. }
  intros id row Hrow Hr. apply HL.
  enough (running_in L (serve h e req w).2) as [_ Hb] by eauto.
  assert (forall m : H R unit, request (running_in L) m (running' L) -> running_in L
    (match m w with (inl r, w') => (r, w') | (inr _, w') => (Reply 200 [], w') end).2) as Hm.
  { intros m Hm. specialize (Hm w Hw). by destruct (m w) as [[?|[]] w']. }
  unfold serve. apply Hm. destruct (read_only req) eqn:Er.
  - by apply request_read; [apply _|done|].
  - destruct req as [|plan|body|body| | | | | | | | | |]; try done;
      [|apply running_HandleResolveAndExecute|apply running_HandleRetry].
    cbn [handle]. unfold request, HandleExecute. destruct plan as [p|]; [|by apply hoare_respond].
    eapply hoare_bind; [apply running_Create|].
    intros [cid|err]; apply hoare_pure; intros _; [|by apply hoare_respond].
    eapply hoare_bind; [apply running_Start|].
    intros [err|]; apply hoare_pure; intros _; [pending_step; by apply hoare_respond|].
    eapply hoare_bind; [apply running_Wait|]. intros [x err]. apply hoare_pure. intros _.
    pending_step. by destruct x, err; apply hoare_respond.
Qed.

End running.

(** ** The plan that is executed *)

Section plans.
Context {R : Type} `{CR : ContainerRuntime R}.
Context `{UuidText} `{RowOrder} `{Schema} `{Postgres} `{UnicodeTables} `{FoldTables} `{Digest}.
Notation world := (SBWorld (R * list BuildPlan)).

(** Every plan given to the runtime since [before] satisfies [ok]. *)
Notation planned before ok :=
  (on_runtime (fun r : R * list BuildPlan => forall p, p ∈ r.2 -> p ∈ (before : list BuildPlan) \/ ok p)).

Lemma planned_Start before ok id : keeps (planned before ok) (Start_ id).
Proof. intros E w Hw. unfold Start_. cbn. by destruct (rt_Start id (sb_runtime w).1). Qed.
Lemma planned_Wait before ok id t : keeps (planned before ok) (Wait_ id t).
Proof. intros E w Hw. unfold Wait_. cbn. by destruct (rt_Wait id t (sb_runtime w).1). Qed.
Lemma planned_Destroy before ok id : keeps (planned before ok) (Destroy_ id).
Proof. intros E w Hw. unfold Destroy_. cbn. by destruct (rt_Destroy id (sb_runtime w).1). Qed.
Lemma planned_Create before (ok : BuildPlan -> Prop) p :
  ok p -> keeps (planned before ok) (Create_ p).
Proof.
  intros Hok E w Hw. unfold Create_. cbn. destruct (rt_Create p (sb_runtime w).1) as [x r].
  unfold on_runtime in *. cbn. intros q Hq. apply elem_of_app in Hq as [Hq|Hq]; [auto|].
  apply list_elem_of_singleton in Hq as ->. by right.
Qed.

Ltac planned_step :=
  match goal with
  | |- hoare _ (respond _) _ _ => by apply hoare_respond
  | |- hoare ?P (_ ≫= _) _ _ =>
      apply (hoare_bind _ _ _ (fun _ => P));
      [apply keeps_elim; first [apply planned_Start|apply planned_Wait|apply planned_Destroy
        |by apply planned_Create|onr_keeps]|intros ?]
  end.

Lemma planned_run_stage before (ok : BuildPlan -> Prop) h e rq p fp snap res fail :
  ok p ->
  request (planned before ok) (run_stage h e rq p fp snap res fail) (fun _ => planned before ok).
Proof.
  intros Hok. unfold request, run_stage. planned_step.
  match goal with x : result _ _ |- _ => destruct x as [cid|err] end; [|apply onr_fail_build].
  do 2 planned_step.
  match goal with x : option string |- _ => destruct x end;
    [planned_step; apply onr_fail_build|].
  planned_step. planned_step. planned_step.
  apply (hoare_bind _ _ _ (fun _ => planned before ok));
    [apply keeps_elim; onr_keeps|].
  intros [[r|] red]; [apply onr_finish_stage|].
  match goal with |- context [?x.2] => destruct x.2 end; [apply onr_fail_build|planned_step].
Qed.

(** The values the keychain has for the secrets of the request. *)
Definition stored_secret h (userID repoID : UUID) (name val : string) : Prop :=
  exists kc, h_Keychain h = Some kc /\ kc_GetBuildSecret kc userID repoID name = Ok val.

Lemma resolve_secrets_post (P : world -> Prop) `{!Framed P} h e kc u r b names acc E :
  hoare P (resolve_secrets h e kc u r b names acc) (fun acc' w =>
    (forall n v, acc'.1.1 !! n = Some v ->
       acc.1.1 !! n = Some v \/ (n ∈ names /\ kc_GetBuildSecret kc u r n = Ok v)) /\ P w) E.
Proof.
  revert acc. induction names as [|nm names IH]; intros [[env res] fail]; cbn [resolve_secrets].
  - apply hoare_ret. intros w Hw. split; [by left|done].
  - destruct (kc_GetBuildSecret kc u r nm) as [val|err] eqn:Ek;
      (apply (hoare_bind _ _ _ (fun _ => P));
       [apply keeps_elim, keeps_when_audit; intros; apply keeps_Log; apply _|intros _]);
      (eapply hoare_conseq; [apply IH|done| |done]); intros acc' w [Hacc Hw];
      (split; [|done]); intros n v Hn; destruct (Hacc n v Hn) as [Hn'|[Hin Hv]];
      try (right; split; [by constructor|done]).
    + cbn in Hn'. destruct (decide (n = nm)) as [->|Hne].
      * rewrite lookup_insert_eq in Hn'. injection Hn' as <-. right. split; [constructor|done].
      * rewrite lookup_insert_ne in Hn' by done. by left.
    + by left.
Qed.

(** The plan of a request before its secrets are filled in. *)
Definition prepared_plan h e (rq : resolveExecuteRequest) (p : BuildPlan) : Prop :=
  exists taskID dir, let p0 := configure_plan h rq (with_dir dir (new_plan e rq taskID)) in
    p = p0 \/
    (has_fingerprint_column = true /\
     p = with_command (FastPathCommand (rq_BuildSystem rq) (rq_Command rq) true) p0).

Definition executed_plan h e (rq : resolveExecuteRequest) (p : BuildPlan) : Prop :=
  exists p0, prepared_plan h e rq p0 /\ p = with_env (bp_EnvVars p) p0 /\
  exists userID repoID,
    uuid_Parse (rq_UserID rq) = Some userID /\ uuid_Parse (rq_RepoID rq) = Some repoID /\
    forall n v, bp_EnvVars p !! n = Some v ->
      n ∈ default [] (rq_SecretRefs rq) /\ stored_secret h userID repoID n v.

Lemma fingerprint_stage_post (P : world -> Prop) `{!Framed P} h rq p E :
  hoare P (fingerprint_stage h rq p) (fun x w =>
    (x.2 = p \/ (has_fingerprint_column = true /\
       x.2 = with_command (FastPathCommand (rq_BuildSystem rq) (bp_Command p) true) p)) /\ P w) E.
Proof.
  unfold fingerprint_stage. destruct (Nat.eqb _ 0); [apply hoare_ret; auto|].
  destruct (_ && _); [|apply hoare_ret; auto].
  apply (hoare_bind _ _ _ (fun x w =>
    (match x with Ok _ => has_fingerprint_column = true | Err _ => True end) /\ P w)).
  - apply hoare_sql_query; [intros; by apply framed_fault|done|].
    intros w fp Hw Hf. destruct has_fingerprint_column; done.
  - intros [fp|]; apply hoare_pure; intros Hc; apply hoare_ret; intros w Hw; [|auto].
    split; [|done]. cbn [snd]. destruct (fp_FastPath _); auto.
Qed.

Lemma planned_execute_plan before h e rq t u r dir :
  uuid_Parse (rq_UserID rq) = Some u -> uuid_Parse (rq_RepoID rq) = Some r ->
  request (planned before (executed_plan h e rq))
    (execute_plan h e rq t u r (with_dir dir (new_plan e rq t)))
    (fun _ => planned before (executed_plan h e rq)).
Proof.
  intros Hu Hr. unfold request, execute_plan. cbv zeta.
  eapply hoare_bind; [apply fingerprint_stage_post, _|]. intros [fp p']. cbn [snd].
  apply hoare_pure. intros Hp.
  assert (prepared_plan h e rq p') as Hprep.
  { exists t, dir. cbv zeta. destruct Hp as [->|[Hc ->]]; [by left|by right]. }
  apply (hoare_bind _ _ _ (fun x w =>
    (forall n v, x.1.1 !! n = Some v ->
       n ∈ default [] (rq_SecretRefs rq) /\ stored_secret h u r n v) /\
    planned before (executed_plan h e rq) w)).
  { unfold secrets_stage. destruct (h_Keychain h) as [kc|] eqn:Ek;
      [|apply hoare_ret; intros w Hw; split; [intros n v Hn; cbn in Hn; by rewrite lookup_empty in Hn|done]].
    eapply hoare_conseq; [apply resolve_secrets_post, _|intros w Hw; exact Hw| |intros ? w Hw; exact Hw].
    intros acc w [Hacc Hw]. split; [|done]. intros n v Hn.
    destruct (Hacc n v Hn) as [Hn'|[Hin Hv]]; [cbn in Hn'; by rewrite lookup_empty in Hn'|].
    split; [done|]. by exists kc. }
  intros [[snap res] fail]. apply hoare_pure. cbn [fst]. intros Henv.
  apply (hoare_bind _ _ _ (fun _ => planned before (executed_plan h e rq)));
    [apply keeps_elim; onr_keeps|]. intros _.
  apply planned_run_stage. exists p'. split; [done|]. split; [done|]. exists u, r.
  split; [done|]. split; [done|]. exact Henv.
Qed.

Lemma planned_ResolveExecute before h e rq :
  request (planned before (executed_plan h e rq)) (HandleResolveAndExecute h e (Some rq))
    (fun _ => planned before (executed_plan h e rq)).
Proof.
  apply request_ResolveAndExecute; [apply _| |done| |].
  - intros p r w. apply cleanup_keeps, _.
  - intros rq' t u _. apply onr_skip_build.
  - intros rq' t u r dir [= <-] Hu Hr. by apply planned_execute_plan.
Qed.

Lemma created_plans h e rq (w : world) p :
  p ∈ (sb_runtime (serve h e (ResolveExecuteReq (Some rq)) w).2).2 ->
  p ∈ (sb_runtime w).2 \/ executed_plan h e rq p.
Proof.
  intros Hp. pose proof (planned_ResolveExecute (sb_runtime w).2 h e rq w) as Hw.
  unfold serve in Hp. cbn [handle] in Hp.
  destruct (HandleResolveAndExecute h e (Some rq) w) as [[r|[]] w'];
    apply Hw in Hp; try done; by left.
Qed.

(** The limits as [parseMemoryMB] and [parseCPU] read the texts that the runtime is given, which is
    not how docker reads them (Example [terabytes_escape_limit]); the timeout is a whole number of
    seconds, in 64 bits, and may be negative (Example [huge_timeout_escapes_limit]). *)
Definition plan_within (L : SandboxLimits) (p : BuildPlan) : Prop :=
  (0 < sl_MaxMemoryMB L -> parseMemoryMB (bp_MemoryLimit p) <= sl_MaxMemoryMB L) /\
  (0 < sl_MaxCPU L -> parseCPU (bp_CPULimit p) <= sl_MaxCPU L) /\
  (sl_DefaultSandbox L = true -> bp_SandboxMode p = true) /\
  exists t, bp_Timeout p = wrap64 (t * second) /\
    (0 < sl_MaxTimeoutSec L -> t <= sl_MaxTimeoutSec L).

(** C16: a container created for a resolve-execute request runs in the image of the request, after
    the commands the request asks for, and either the command of the request or what
    [FastPathCommand] makes of it; its environment holds nothing but secrets the request names,
    with the values the keychain has for the user and the repository of the request.  If limits
    are configured, its memory and its CPUs are within them as the program itself reads such
    texts, the sandbox is on where it is the default, and its timeout is a number of seconds
    within the limit, multiplied out in 64 bits.  The program reads less than docker: [4t] is
    four megabytes to it, and a timeout that overflows is negative and so within every limit; the
    Examples [terabytes_escape_limit] and [huge_timeout_escapes_limit] show both. *)
Theorem executed_plan_checked h e rq (w : world) p :
  p ∈ (sb_runtime (serve h e (ResolveExecuteReq (Some rq)) w).2).2 ->
  p ∉ (sb_runtime w).2 ->
  (forall L, h_Limits h = Some L -> int_limits L -> plan_within L p) /\
  (forall n v, bp_EnvVars p !! n = Some v ->
     n ∈ default [] (rq_SecretRefs rq) /\
     exists userID repoID,
       uuid_Parse (rq_UserID rq) = Some userID /\ uuid_Parse (rq_RepoID rq) = Some repoID /\
       stored_secret h userID repoID n v) /\
  bp_ID p = e_newID e /\ bp_BaseImage p = rq_BaseImage rq /\
  bp_PreCommands p = rq_PreCommands rq /\
  (bp_Command p = rq_Command rq \/
   bp_Command p = FastPathCommand (rq_BuildSystem rq) (rq_Command rq) true).
Proof.
  intros Hp Hn. apply created_plans in Hp as [Hp|Hp]; [done|].
  destruct Hp as (p0 & (t & dir & Hp0) & Hp & u & r & Hu & Hr & Henv).
  assert (forall L, h_Limits h = Some L -> int_limits L ->
    plan_within L (configure_plan h rq (with_dir dir (new_plan e rq t)))) as HL.
  { intros L HhL Hi. destruct (limits_respected L (requested_limits rq) Hi) as (H1' & H2' & H3' & H4').
    unfold plan_within, configure_plan. rewrite HhL. cbn [bp_MemoryLimit bp_CPULimit
      bp_SandboxMode bp_Timeout]. split_and!; try done. eauto. }
  rewrite Hp. split_and!.
  - intros L HhL Hi. destruct Hp0 as [->|[_ ->]]; by apply HL.
  - intros n v Hv. destruct (Henv n v Hv). eauto 6.
  - by destruct Hp0 as [->|[_ ->]].
  - by destruct Hp0 as [->|[_ ->]].
  - by destruct Hp0 as [->|[_ ->]].
  - destruct Hp0 as [->|[_ ->]]; [by left|by right].
Qed.

(** On a database without the column [fingerprint] (the schema of
    [db/sql/initData.sql]) the fast path is never taken: every container runs the
    command of its request. *)
Theorem no_fast_path_without_column h e rq (w : world) p :
  has_fingerprint_column = false ->
  p ∈ (sb_runtime (serve h e (ResolveExecuteReq (Some rq)) w).2).2 ->
  p ∉ (sb_runtime w).2 ->
  bp_Command p = rq_Command rq.
Proof.
  intros Hc Hp Hn. apply created_plans in Hp as [Hp|Hp]; [done|].
  destruct Hp as (p0 & (t & dir & Hp0) & Hp & _). rewrite Hp.
  destruct Hp0 as [->|[Hc' _]]; [done|congruence].
Qed.

End plans.

(** ** Logs are redacted *)

Section logs.
Context {R : Type} `{CR : ContainerRuntime R}.
Context `{UuidText} `{RowOrder} `{Schema} `{Postgres} `{UnicodeTables} `{FoldTables} `{Digest}.

(** All secrets of a request that the keychain resolves. *)
Definition resolved_env h (userID repoID : UUID) (names : list string) : gmap string string :=
  match h_Keychain h with
  | Some kc =>
      fold_left (fun env name =>
        match kc_GetBuildSecret kc userID repoID name with
        | Ok val => <[name := val]> env
        | Err _ => env
        end) names ∅
  | None => ∅
  end.

Definition runtime_error (s : string) : Prop :=
  (exists p r r', rt_Create p r = (Err s, r')) \/
  (exists id r, (rt_Start id r).1 = Some s) \/
  (exists id t r x, (rt_Wait id t r).1 = (x, Some s)).

Definition response_log (r : Response) : option string :=
  match r with
  | Reply _ body =>
      match find (fun kv => String.eqb kv.1 "logs") body with
      | Some (_, VStr s) => Some s
      | _ => None
      end
  | Panicked => None
  end.

Context (id : UUID) (reason : string) (env : gmap string string).

Definition returned_ok (s : string) : Prop :=
  s = "" \/ s = reason \/ exists raw, s = RedactLogs raw env.
Definition stored_ok (s : string) : Prop :=
  s = "" \/ s = reason \/ runtime_error s \/ exists raw, s = log_summary (RedactLogs raw env).

Definition logs_ok (w : SBWorld R) : Prop :=
  forall row, sb_builds w !! id = Some row -> stored_ok (rec_LogSummary (row_rec row)).

Definition reply_ok (r : Response) (w : SBWorld R) : Prop :=
  (forall s, response_log r = Some s -> returned_ok s) /\ logs_ok w.

#[local] Instance logs_framed : Framed logs_ok.
Proof. by split. Qed.

Lemma logs_exec guard f :
  (forall m row, f m !! id = Some row ->
     stored_ok (rec_LogSummary (row_rec row)) \/
     exists row', m !! id = Some row' /\
       rec_LogSummary (row_rec row) = rec_LogSummary (row_rec row')) ->
  keeps logs_ok (sql_exec guard (set_builds f)).
Proof.
  intros Hf. apply keeps_sql_exec; [apply _|]. intros w Hw _ row Hrow.
  destruct (Hf _ _ Hrow) as [Hs|(row' & Hr & ->)]; [done|by apply Hw].
Qed.

Lemma logs_alter i g guard :
  (forall row, stored_ok (rec_LogSummary (row_rec (g row))) \/
               rec_LogSummary (row_rec (g row)) = rec_LogSummary (row_rec row)) ->
  keeps logs_ok (sql_exec guard (set_builds (alter g i))).
Proof.
  intros Hg. apply logs_exec. intros m row Hrow. destruct (decide (i = id)) as [->|Hne].
  - rewrite lookup_alter_eq in Hrow. apply fmap_Some in Hrow as (row0 & Hr & ->).
    destruct (Hg row0); [by left|right; eauto].
  - rewrite lookup_alter_ne in Hrow by done. right. eauto.
Qed.

Lemma logs_CompleteBuild now i st c s d : stored_ok s -> keeps logs_ok (CompleteBuild now i st c s d).
Proof. intros Hs. apply logs_alter. by left. Qed.
Lemma logs_InsertBuild fresh now rec : keeps logs_ok (InsertBuild fresh now rec).
Proof.
  apply logs_exec. intros m row Hrow. apply lookup_insert_Some in Hrow as [[_ <-]|[_ Hr]].
  - left. by left.
  - right. eauto.
Qed.

Lemma logs_runtime {A} (f : R -> A * R) :
  keeps logs_ok (fun w => let '(x, r) := f (sb_runtime w) in (inr x, set_runtime r w)).
Proof. intros E w Hw. by destruct (f (sb_runtime w)). Qed.

Lemma logs_Create p E :
  hoare logs_ok (Create_ p)
    (fun x w => match x with Err s => runtime_error s | Ok _ => True end /\ logs_ok w) E.
Proof.
  intros w Hw. unfold Create_. destruct (rt_Create p (sb_runtime w)) as [[cid|err] r] eqn:Ec;
    (split; [|done]); [done|]. left. eauto.
Qed.
Lemma logs_Start cid E :
  hoare logs_ok (Start_ cid)
    (fun x w => match x with Some s => runtime_error s | None => True end /\ logs_ok w) E.
Proof.
  intros w Hw. unfold Start_. destruct (rt_Start cid (sb_runtime w)) as [x r] eqn:Ec.
  split; [|done]. destruct x; [|done]. right; left. exists cid, (sb_runtime w). by rewrite Ec.
Qed.
Lemma logs_Wait cid t E :
  hoare logs_ok (Wait_ cid t)
    (fun x w => match x.2 with Some s => runtime_error s | None => True end /\ logs_ok w) E.
Proof.
  intros w Hw. unfold Wait_. destruct (rt_Wait cid t (sb_runtime w)) as [[x err] r] eqn:Ec.
  split; [|done]. cbn. destruct err; [|done]. right; right. exists cid, t, (sb_runtime w), x.
  by rewrite Ec.
Qed.

Lemma reply_fail_build h e err el msg i :
  runtime_error err -> request logs_ok (fail_build h e i err el msg) reply_ok.
Proof.
  intros Herr. unfold request, fail_build. apply (hoare_bind _ _ _ (fun _ => logs_ok)).
  - apply keeps_elim, keeps_when_store, logs_CompleteBuild. right; right; by left.
  - intros _. apply hoare_respond. intros w Hw. by split.
Qed.

Lemma log_summary_empty : log_summary "" = "".
Proof. done. Qed.

Lemma reply_finish_stage h e rq p fp res fail r red :
  (br_Logs r = "" \/ exists raw, br_Logs r = RedactLogs raw env) ->
  request logs_ok (finish_stage h e rq p fp res fail r red) reply_ok.
Proof.
  intros Hr. unfold request, finish_stage.
  apply (hoare_bind _ _ _ (fun _ => logs_ok)).
  { apply keeps_elim, keeps_when_store, logs_CompleteBuild.
    destruct Hr as [->|[raw ->]]; [by left|]. do 3 right. by exists raw. }
  intros _. apply (hoare_bind _ _ _ (fun _ => logs_ok));
    [apply keeps_elim, keeps_artifacts_stage; apply _|]. intros artifacts.
  apply (hoare_bind _ _ _ (fun _ => logs_ok)).
  { apply keeps_elim, keeps_when_store. unfold UpdateBuildComplexity.
    destruct (negb _); [apply keeps_ret|]. apply logs_alter. by right. }
  intros _. apply (hoare_bind _ _ _ (fun _ => logs_ok)).
  { apply keeps_elim. destruct fp as [f|]; [destruct (negb _)|]; try apply keeps_ret.
    apply keeps_when_store, logs_alter. by right. }
  intros _. apply hoare_respond. intros w Hw. split; [|done].
  intros s Hs. cbn in Hs. injection Hs as <-.
  destruct Hr as [->|[raw ->]]; [by left|]. do 2 right. by exists raw.
Qed.

Lemma reply_run_stage h e rq p fp res fail :
  request logs_ok (run_stage h e rq p fp env res fail) reply_ok.
Proof.
  unfold request, run_stage. eapply hoare_bind; [apply logs_Create|].
  intros [cid|err]; apply hoare_pure; intros Hc; [|by apply reply_fail_build].
  apply (hoare_bind _ _ _ (fun _ => logs_ok));
    [apply keeps_elim, keeps_when_audit; intros; apply keeps_Log; apply _|]. intros _.
  eapply hoare_bind; [apply logs_Start|].
  intros [err|]; apply hoare_pure; intros Hs.
  { apply (hoare_bind _ _ _ (fun _ => logs_ok)); [apply keeps_elim, (logs_runtime (rt_Destroy cid))|].
    intros _. by apply reply_fail_build. }
  eapply hoare_bind; [apply logs_Wait|]. intros [x err]. apply hoare_pure. cbn [snd]. intros Herr.
  apply (hoare_bind _ _ _ (fun _ => logs_ok)); [apply keeps_elim, (logs_runtime (rt_Destroy cid))|].
  intros _. apply (hoare_bind _ _ _ (fun _ => logs_ok));
    [apply keeps_elim, keeps_when_audit; intros; apply keeps_Log; apply _|]. intros _.
  apply (hoare_bind _ _ _ (fun y w =>
    (forall r, y.1 = Some r -> br_Logs r = "" \/ exists raw, br_Logs r = RedactLogs raw env) /\
    logs_ok w)).
  { unfold redact_stage. cbn [fst]. destruct x as [r|]; [|by apply hoare_ret].
    destruct (String.eqb_spec (br_Logs r) "") as [E|_].
    - apply hoare_ret. intros w Hw. split; [|done]. intros r' [= <-]. by left.
    - apply (hoare_bind _ _ _ (fun _ => logs_ok));
        [apply keeps_elim, keeps_when_audit; intros; apply keeps_Log; apply _|].
      intros _. apply hoare_ret. intros w Hw. split; [|done]. intros r' [= <-].
      right. by exists (br_Logs r). }
  intros [[r|] red]; apply hoare_pure; intros Hr; [by apply reply_finish_stage, Hr|].
  destruct err as [err|]; [by apply reply_fail_build|].
  apply hoare_respond. intros w Hw. by split.
Qed.
End logs.

Section redaction.
Context {R : Type} `{CR : ContainerRuntime R}.
Context `{UuidText} `{RowOrder} `{Schema} `{Postgres} `{UnicodeTables} `{FoldTables} `{Digest}.

Lemma resolve_secrets_env (P : SBWorld R -> Prop) `{!Framed P} h e kc u r b names acc E :
  hoare P (resolve_secrets h e kc u r b names acc) (fun acc' w =>
    acc'.1.1 = fold_left (fun env name =>
      match kc_GetBuildSecret kc u r name with
      | Ok val => <[name := val]> env | Err _ => env end) names acc.1.1 /\ P w) E.
Proof.
  revert acc. induction names as [|nm names IH]; intros [[env res] fail]; cbn [resolve_secrets].
  - by apply hoare_ret.
  - cbn [fold_left fst]. destruct (kc_GetBuildSecret kc u r nm) as [val|err] eqn:Ek;
      (apply (hoare_bind _ _ _ (fun _ => P));
       [apply keeps_elim, keeps_when_audit; intros; apply keeps_Log; apply _|intros _]);
      apply IH.
Qed.

Lemma reply_execute_plan id reason h e rq t u r p :
  let env := resolved_env h u r (default [] (rq_SecretRefs rq)) in
  request (logs_ok id reason env) (execute_plan h e rq t u r p) (reply_ok id reason env).
Proof.
  intros env. unfold request, execute_plan. cbv zeta.
  apply (hoare_bind _ _ _ (fun _ => logs_ok id reason env));
    [apply keeps_elim, keeps_fingerprint_stage, logs_framed|]. intros [fp p'].
  apply (hoare_bind _ _ _ (fun x w => x.1.1 = env /\ logs_ok id reason env w)).
  { unfold secrets_stage, env, resolved_env. destruct (h_Keychain h) as [kc|];
      [|by apply hoare_ret].
    apply resolve_secrets_env, logs_framed. }
  intros [[snap res] fail]. apply hoare_pure. cbn [fst]. intros ->.
  apply (hoare_bind _ _ _ (fun _ => logs_ok id reason env));
    [apply keeps_elim, keeps_when_store, logs_InsertBuild|].
  intros _. apply reply_run_stage.
Qed.

Lemma reply_skip_build id env h e rq t u :
  request (logs_ok id (SkipReason (rq_ChangedFiles rq)) env) (skip_build h e rq t u)
    (reply_ok id (SkipReason (rq_ChangedFiles rq)) env).
Proof.
  unfold request, skip_build. cbv zeta.
  apply (hoare_bind _ _ _ (fun _ => logs_ok id (SkipReason (rq_ChangedFiles rq)) env)).
  - apply keeps_elim, keeps_when_store, keeps_bind; [apply logs_InsertBuild|].
    intros _. apply logs_CompleteBuild. right; by left.
  - intros _. apply hoare_respond. intros w Hw. split; [|done].
    intros s Hs. cbn in Hs. injection Hs as <-. right; by left.
Qed.

(** C17: whatever a resolve-execute request returns as logs, or stores as the log of
    its build, has gone through [RedactLogs] with every secret that the keychain
    resolved for it; the exceptions are the reason of a skipped build and the error
    texts of the runtime. *)
Theorem resolve_execute_redacts h e rq (w : SBWorld R) userID repoID :
  uuid_Parse (rq_UserID rq) = Some userID -> uuid_Parse (rq_RepoID rq) = Some repoID ->
  sb_builds w !! e_newID e = None ->
  let env := resolved_env h userID repoID (default [] (rq_SecretRefs rq)) in
  let reason := SkipReason (rq_ChangedFiles rq) in
  let served := serve h e (ResolveExecuteReq (Some rq)) w in
  (forall s, response_log served.1 = Some s ->
     s = "" \/ s = reason \/ exists raw, s = RedactLogs raw env) /\
  (forall row, sb_builds served.2 !! e_newID e = Some row ->
     let s := rec_LogSummary (row_rec row) in
     s = "" \/ s = reason \/ runtime_error (R:=R) s \/
     exists raw, s = log_summary (RedactLogs raw env)).
Proof.
  intros Hu Hr Hid env reason.
  assert (request (logs_ok (e_newID e) reason env) (HandleResolveAndExecute h e (Some rq))
            (reply_ok (e_newID e) reason env)) as Hm.
  { apply request_ResolveAndExecute; [apply logs_framed| | | |].
    - intros p r w' [Hs Hl]. split; [done|]. by apply cleanup_keeps; [apply logs_framed|].
    - intros w' s m Hl. by split.
    - intros rq' t u [= <-]. apply reply_skip_build.
    - intros rq' t u r dir [= <-] Hu' Hr'. rewrite Hu in Hu'. rewrite Hr in Hr'.
      injection Hu' as <-. injection Hr' as <-. apply reply_execute_plan. }
  assert (logs_ok (e_newID e) reason env w) as Hw by (intros row Hrow; congruence).
  specialize (Hm w Hw). cbv zeta. unfold serve. cbn [handle].
  destruct (HandleResolveAndExecute h e (Some rq) w) as [[r|[]] w']; exact Hm.
Qed.

End redaction.

(** ** The summary of a task's builds *)

Lemma summarise_fold builds s :
  let r := fold_left summarise builds s in
  bs_Total r = bs_Total s + Z.of_nat (List.length builds) /\
  bs_Passed r + bs_Failed r + bs_Running r + bs_Pending r - bs_Total r =
  bs_Passed s + bs_Failed s + bs_Running s + bs_Pending s - bs_Total s.
Proof.
  revert s. induction builds as [|b builds IH]; intros s; [cbn; lia|].
  cbv zeta. cbn [fold_left List.length].
  destruct (IH (summarise s b)) as [Ht Hp].
  set (r := fold_left summarise builds (summarise s b)) in *. clearbody r.
  unfold summarise in Ht, Hp. cbn [bs_Total bs_Passed bs_Failed bs_Running bs_Pending] in Ht, Hp.
  revert Ht Hp.
  destruct (String.eqb_spec (rec_Status b) "success") as [E|]; [rewrite E; cbn; lia|].
  destruct (String.eqb_spec (rec_Status b) "failed") as [E|]; [rewrite E; cbn; lia|].
  destruct (String.eqb_spec (rec_Status b) "running"); cbn; lia.
Qed.

(** The classes of [HandleListTaskBuilds] partition the builds. *)
Theorem builds_summary_partition builds :
  let s := builds_summary builds in
  bs_Total s = Z.of_nat (List.length builds) /\
  bs_Passed s + bs_Failed s + bs_Running s + bs_Pending s = bs_Total s.
Proof.
  cbv zeta. unfold builds_summary.
  destruct (summarise_fold builds {| bs_Total := 0; bs_Passed := 0; bs_Failed := 0;
    bs_Running := 0; bs_Pending := 0; bs_TotalDurationMS := 0 |}) as [Ht Hp].
  cbn in Ht, Hp. lia.
Qed.

(** ** Witnesses and examples *)

#[local] Instance any_text : Postgres := {| text_ok := fun _ => true |}.

(** The schema of [db/sql/initData.sql]. *)
#[local] Instance initial_schema : Schema :=
  {| has_complexity_column := false; has_fingerprint_column := false;
     has_artifact_table := false |}.

#[local] Instance quiet_docker : DockerHost := {| docker_run := ok_run; docker_info := None |}.

Definition token_keychain : Keychain :=
  {| kc_GetBuildSecret := fun _ _ name =>
       if String.eqb name "TOKEN" then Ok "hunter22" else Err "not found";
     kc_ListBuildSecretNames := fun _ _ => Ok ["TOKEN"] |}.

Definition full_handler : Handler :=
  {| h_Store := true; h_Keychain := Some token_keychain; h_Limits := Some sample_limits;
     h_Audit := Some true |}.

Definition env_at (newID : UUID) : Env :=
  {| e_now := 100; e_elapsed := 3000000000; e_newID := newID;
     e_mkdir := Ok "/tmp/rtvortex-ws-1"; e_fs_fails := fun _ => None |}.

Definition failed_build : BuildRow :=
  {| row_rec :=
       {| rec_ID := 7%N; rec_TaskID := 1%N; rec_RepoID := uuid_String 3%N;
          rec_UserID := Some 2%N; rec_BuildSystem := "go"; rec_Command := "go build ./...";
          rec_BaseImage := "golang"; rec_Status := "failed"; rec_ExitCode := Some 1;
          rec_LogSummary := ""; rec_SecretNames := Some ["TOKEN"]; rec_SandboxMode := true;
          rec_RetryCount := 0; rec_DurationMS := Some 5; rec_CreatedAt := 10;
          rec_CompletedAt := Some 20 |};
     row_complexity := None; row_fingerprint := None |}.

Definition sandbox_world {R} (r : R) : SBWorld R :=
  {| sb_builds := {[7%N := failed_build]}; sb_artifacts := []; sb_audit := [];
     sb_audit_log := []; sb_tasks := {[1%N]}; sb_users := {[2%N]}; sb_host := ∅;
     sb_runtime := r; sb_faults := [] |}.

Definition token_request : resolveExecuteRequest :=
  {| rq_TaskID := uuid_String 1%N; rq_RepoID := uuid_String 3%N; rq_UserID := uuid_String 2%N;
     rq_BuildSystem := "go"; rq_Command := "go build ./..."; rq_PreCommands := [];
     rq_SecretRefs := Some ["TOKEN"; "OTHER"]; rq_BaseImage := "golang";
     rq_SandboxMode := false; rq_TimeoutSec := 60; rq_MemoryLimit := "64g";
     rq_CPULimit := "1"; rq_ChangedFiles := ["main.go"]; rq_SkipCache := true;
     rq_WorkspaceFiles := {["go.mod" := "module m"]}; rq_ArtifactPaths := [];
     rq_CollectArtifacts := false |}.

(** A mock whose builds end with this exit code and these logs. *)
Definition mock_with (code : Z) (logs : string) : MockRuntime :=
  {| mk_HealthErr := None; mk_CreateErr := None; mk_StartErr := None;
     mk_WaitResult := Some {| br_ExitCode := code; br_Logs := logs; br_Duration := second;
                              br_SecretRefs := [] |};
     mk_WaitErr := None; mk_DestroyErr := None; mk_CreatedPlans := [];
     mk_StartedIDs := []; mk_DestroyedIDs := [] |}.

Notation executed :=
  (serve full_handler (env_at 9) (ResolveExecuteReq (Some token_request))
     (sandbox_world (∅ : gmap string BuildPlan, []))).

(** The handler runs the build, records its success and reports the secrets. *)
Example resolve_execute_runs :
  match executed.1 with
  | Reply 200 (("build_id", VId 9%N) :: ("exit_code", VInt 0) :: ("logs", VStr _) :: _) => True
  | _ => False
  end /\
  (rec_Status <$> (row_rec <$> sb_builds executed.2 !! 9%N)) = Some "success" /\
  (bp_MemoryLimit <$> (sb_runtime executed.2).2) = ["4g"].
Proof. split; [vm_compute; exact I|]. split; vm_compute; reflexivity. Qed.

Definition retry_of (id newID : UUID) : Env * option string :=
  (env_at newID, Some (uuid_String id)).

(** A failing build with no retries yet: its budget lets three containers run, one
    more than [MaxRetries]; the fourth retry is refused. *)
Lemma retries_bounded_witness :
  let w := sandbox_world (mock_with 1 "boom", []) in
  let served := serve_retries full_handler
    [retry_of 7 8; retry_of 8 9; retry_of 7 10; retry_of 7 11] w in
  created served = MaxBuildRetries + 1 /\ budget (sb_builds w) = 3 /\
  created served <= created w + budget (sb_builds w).
Proof.
  split; [vm_compute; reflexivity|]. split; [vm_compute; reflexivity|].
  apply retries_bounded. reflexivity.
Defined.

Lemma quiet_docker_storable : storable (R := gmap string BuildPlan).
Proof. split; try reflexivity. by split. Qed.

Lemma no_build_left_running_witness :
  let w := sandbox_world (∅ : gmap string BuildPlan) in
  let w' := (serve full_handler (env_at 9) (RetryReq (Some (uuid_String 7))) w).2 in
  (rec_Status <$> (row_rec <$> sb_builds w' !! 9%N)) = Some "success" /\
  forall id row, sb_builds w' !! id = Some row -> rec_Status (row_rec row) = "running" ->
    exists row', sb_builds w !! id = Some row' /\ rec_Status (row_rec row') = "running".
Proof.
  split; [vm_compute; reflexivity|].
  apply (no_build_left_running quiet_docker_storable full_handler (env_at 9)
    (RetryReq (Some (uuid_String 7)))). reflexivity.
Defined.

Definition executed_plan_of_request : BuildPlan :=
  nth 0 (sb_runtime executed.2).2 (sample_plan ∅ ∅).

Lemma executed_trace : (sb_runtime executed.2).2 = [executed_plan_of_request].
Proof. vm_compute. reflexivity. Qed.

Lemma executed_in : executed_plan_of_request ∈ (sb_runtime executed.2).2.
Proof. rewrite executed_trace. constructor. Qed.

Lemma executed_plan_checked_witness :
  bp_EnvVars executed_plan_of_request = {["TOKEN" := "hunter22"]} /\
  plan_within sample_limits executed_plan_of_request.
Proof.
  split; [vm_compute; reflexivity|].
  refine (proj1 (executed_plan_checked full_handler (env_at 9) token_request
    (sandbox_world (∅ : gmap string BuildPlan, [])) executed_plan_of_request
    executed_in (not_elem_of_nil _)) sample_limits eq_refl _).
  unfold int_limits, in_int64. simpl. lia.
Defined.

Lemma no_fast_path_without_column_witness :
  bp_Command executed_plan_of_request = "go build ./...".
Proof.
  exact (no_fast_path_without_column full_handler (env_at 9) token_request
    (sandbox_world (∅ : gmap string BuildPlan, [])) executed_plan_of_request eq_refl
    executed_in (not_elem_of_nil _)).
Defined.

Lemma resolve_execute_redacts_witness :
  let w := sandbox_world (mock_with 0 "using hunter22 and ghp_abc") in
  let served := serve full_handler (env_at 9) (ResolveExecuteReq (Some token_request)) w in
  response_log served.1 = Some "using [REDACTED:TOKEN] and ghp_abc" /\
  forall s, response_log served.1 = Some s ->
    s = "" \/ s = SkipReason ["main.go"] \/ exists raw, s = RedactLogs raw {["TOKEN" := "hunter22"]}.
Proof.
  split; [vm_compute; reflexivity|].
  exact (proj1 (resolve_execute_redacts full_handler (env_at 9) token_request
    (sandbox_world (mock_with 0 "using hunter22 and ghp_abc")) 2 3 eq_refl eq_refl eq_refl)).
Defined.

(** [HandleRetry] injects the same secrets but neither redacts what it returns nor
    what it stores. *)
Example retry_leaks_secret :
  let served := serve full_handler (env_at 9) (RetryReq (Some (uuid_String 7)))
                  (sandbox_world (mock_with 0 "using hunter22")) in
  response_log served.1 = Some "using hunter22" /\
  (rec_LogSummary <$> (row_rec <$> sb_builds served.2 !! 9%N)) = Some "using hunter22".
Proof. split; vm_compute; reflexivity. Qed.

(** [HandleExecute] does not apply the configured limits. *)
Example execute_ignores_limits :
  let plan := sample_plan ∅ ∅ in
  let served := serve full_handler (env_at 9)
    (ExecuteReq (Some (configure_plan {| h_Store := true; h_Keychain := None;
       h_Limits := None; h_Audit := None |} token_request plan)))
    (sandbox_world (mock_with 0 "ok")) in
  (bp_MemoryLimit <$> mk_CreatedPlans (sb_runtime served.2)) = ["64g"].
Proof. vm_compute. reflexivity. Qed.

(** A request without [secret_refs] runs, but its record is refused (a nil slice is
    NULL in a NOT NULL column) and nothing of the build is stored. *)
Example no_secret_refs_no_record :
  let rq := {| rq_TaskID := uuid_String 1%N; rq_RepoID := uuid_String 3%N;
     rq_UserID := uuid_String 2%N; rq_BuildSystem := "go"; rq_Command := "go build ./...";
     rq_PreCommands := []; rq_SecretRefs := None; rq_BaseImage := "golang";
     rq_SandboxMode := false; rq_TimeoutSec := 60; rq_MemoryLimit := ""; rq_CPULimit := "";
     rq_ChangedFiles := ["main.go"]; rq_SkipCache := true; rq_WorkspaceFiles := ∅;
     rq_ArtifactPaths := []; rq_CollectArtifacts := false |} in
  let served := serve full_handler (env_at 9) (ResolveExecuteReq (Some rq))
                  (sandbox_world (mock_with 0 "ok")) in
  response_log served.1 = Some "ok" /\ sb_builds served.2 !! 9%N = None.
Proof. split; vm_compute; reflexivity. Qed.

(** A timeout that overflows 64 bits is negative, so no limit applies to it, and the
    runtime then waits for its default of ten minutes. *)
Example huge_timeout_escapes_limit :
  (rl_timeoutSec (applyLimits (Some {| sl_MaxTimeoutSec := 300; sl_MaxMemoryMB := 0;
      sl_MaxCPU := 0; sl_MaxRetries := 2; sl_DefaultSandbox := false |})
     {| rl_timeoutSec := to_int (duration_seconds (wrap64 (9223372037 * second)));
        rl_memoryLimit := "2g"; rl_cpuLimit := "2"; rl_sandboxMode := true |}).1 <? 0) = true.
Proof. vm_compute. reflexivity. Qed.

(** [parseMemoryMB] does not know the unit of terabytes: it takes [4t] for four megabytes, which
    is within the limit of 512, and the text goes to docker as it is. *)
Example terabytes_escape_limit :
  parseMemoryMB "4t" = 4 /\
  rl_memoryLimit (applyLimits (Some {| sl_MaxTimeoutSec := 0; sl_MaxMemoryMB := 512;
      sl_MaxCPU := 0; sl_MaxRetries := 2; sl_DefaultSandbox := false |})
     {| rl_timeoutSec := 60; rl_memoryLimit := "4t"; rl_cpuLimit := "2";
        rl_sandboxMode := true |}).1 = "4t".
Proof. split; vm_compute; reflexivity. Qed.

(** The summary of a long log is cut at a byte: when that splits a character, the
    database refuses the text and the build stays running. *)
Example split_character_stays_running :
  let utf8 := {| text_ok := utf8_valid 0 |} in
  let logs := Repeat "a" 8191 ++ str2 195 169 in
  let served := serve (H3 := utf8) full_handler (env_at 9) (RetryReq (Some (uuid_String 7)))
                  (sandbox_world (mock_with 0 logs)) in
  utf8_valid 0 logs = true /\
  (rec_Status <$> (row_rec <$> sb_builds served.2 !! 9%N)) = Some "running".
Proof. split; vm_compute; reflexivity. Qed.
