(* ===== verification/Http.v ===== *)
(** * Handlers of the public API ([api/health.go])

    A handler gets the user of the token, the parameters of the path and of the query as texts
    and the decoded body ([None] where it cannot be decoded), runs statements on the tables [T],
    and ends with a response whose body is a [B].  An early return is the error of the step that
    returns. *)

From Stdlib Require Import ZArith Lia String.
From stdpp Require Import base list gmap strings.
From S2P Require Import Prelude Db.
Local Open Scope string_scope.
Local Open Scope rtv_scope.
Local Open Scope Z_scope.

Record Response (B : Type) := { code : Z; body : B + string }.
Arguments code {B}. Arguments body {B}.

Definition writeJSON {B} (status : Z) (data : B) : Response B :=
  {| code := status; body := inl data |}.
Definition writeError {B} (status : Z) (message : string) : Response B :=
  {| code := status; body := inr message |}.

(** The response says that the request was carried out. *)
Definition success {B} (r : Response B) : bool := code r <? 300.

Notation HTTP T B A := (DB T (result A (Response B))).

Section handlers.
Context {T B : Type}.
Implicit Types (resp : Response B).

(** [if err != nil { writeError(...); return }] on a value of the request *)
Definition require {A} (o : option A) (status : Z) (message : string) : HTTP T B A :=
  match o with Some a => ok a | None => fail (writeError status message) end.

Definition unless (bad : bool) (status : Z) (message : string) : HTTP T B unit :=
  if bad then fail (writeError status message) else ok tt.

(** The same on the error of a statement *)
Definition or_reply {A} (m : DBE T A) (reply : string -> Response B) : HTTP T B A :=
  m ≫= fun r : result A string => match r with Ok a => ok a | Err e => fail (reply e) end.

Definition internal (message : string) (_ : string) : Response B := writeError 500 message.
Definition not_found_or (missing broken : string) (e : string) : Response B :=
  if is_not_found e then writeError 404 missing else writeError 500 broken.

Definition respond (m : HTTP T B (Response B)) : DB T (Response B) :=
  m ≫= fun r : result (Response B) (Response B) =>
    match r with Ok resp => mret resp | Err resp => mret resp end.

(** ** Rules *)

Lemma respond_run m r x r' :
  m r = (x, r') -> respond m r = (match x with Ok resp => resp | Err resp => resp end, r').
Proof. intros E. unfold respond. rewrite (bind_run _ _ _ _ _ E). by destruct x. Qed.

Lemma or_reply_run {A} (m : DBE T A) reply r x r' :
  m r = (x, r') ->
  or_reply m reply r = (match x with Ok a => Ok a | Err e => Err (reply e) end, r').
Proof. intros E. unfold or_reply. rewrite (bind_run _ _ _ _ _ E). by destruct x. Qed.

Lemma stays_require {A} I (o : option A) status message : stays I (require o status message).
Proof. destruct o; apply stays_ret. Qed.

Lemma stays_unless I bad status message : stays I (unless bad status message).
Proof. destruct bad; apply stays_ret. Qed.

Lemma stays_or_reply {A} I (m : DBE T A) reply : stays I m -> stays I (or_reply m reply).
Proof. intros Hm. apply stays_bind; [done|]. intros [a|e]; apply stays_ret. Qed.

Lemma stays_respond I m : stays I m -> stays I (respond m).
Proof. intros Hm. apply stays_bind; [done|]. intros [a|e]; apply stays_ret. Qed.

Lemma ensures_respond P (Q : Response B -> T -> Prop) m :
  ensures P m (fun x t => Q match x with Ok resp => resp | Err resp => resp end t) ->
  ensures P (respond m) Q.
Proof.
  intros Hm. eapply ensures_bind; [exact Hm|]. intros [a|e]; by apply ensures_ret.
Qed.

Lemma ensures_or_reply {A} P (Q : result A (Response B) -> T -> Prop) (m : DBE T A) reply :
  ensures P m (fun x t => Q match x with Ok a => Ok a | Err e => Err (reply e) end t) ->
  ensures P (or_reply m reply) Q.
Proof.
  intros Hm. eapply ensures_bind; [exact Hm|]. intros [a|e]; by apply ensures_ret.
Qed.

Lemma ensures_require {A} (P : T -> Prop) (Q : result A (Response B) -> T -> Prop) o status message :
  (forall t a, o = Some a -> P t -> Q (Ok a) t) ->
  (forall t, P t -> Q (Err (writeError status message)) t) ->
  ensures P (require o status message) Q.
Proof. intros Hok Herr. destruct o; apply ensures_ret; auto. Qed.

Lemma ensures_unless (P : T -> Prop) (Q : result unit (Response B) -> T -> Prop) bad status message :
  (forall t, bad = false -> P t -> Q (Ok tt) t) ->
  (forall t, P t -> Q (Err (writeError status message)) t) ->
  ensures P (unless bad status message) Q.
Proof. intros Hok Herr. destruct bad; apply ensures_ret; auto. Qed.

End handlers.

#[export] Hint Resolve stays_require stays_unless : stays.

(** Take a handler apart: what is left are its statements. *)
Ltac handler :=
  repeat first
    [ progress stay
    | match goal with
      | |- stays _ (respond _) => apply stays_respond
      | |- stays _ (or_reply _ _) => apply stays_or_reply
      end ].
