(* ===== verification/Store.v ===== *)
(** * The tables of the server ([model], [store])

    [model/user.go], [review.go] and [pull_request.go], and the statements of
    [store/user_repo.go], [org_repo.go], [repo_repo.go], [repo_member_repo.go],
    [review_repo.go], [webhook_repo.go], [vcs_platform_repo.go] and [audit_repo.go] on the
    tables of [db/sql/initData.sql].  A definition has the name of its method after the name of
    the table: [Users_Create] is [UserRepository.Create].

    The database refuses a row whose keys are taken, whose references do not exist or whose
    texts are too long.  Every row is written by these statements, so columns that may be NULL
    and are always given have no NULL here; a text that is too long by spaces at its end is
    refused, where PostgreSQL cuts it.  JSON values are texts.  The clock and the identifiers
    drawn are arguments; [rand.Read] does not fail (Go 1.24).  What a program does besides its
    statements is the trace [s_trace]. *)

From Stdlib Require Import ZArith Lia String.
From stdpp Require Import base list gmap strings sorting.
From S2P Require Import Prelude GoStrings SwarmDb Db Quota Hub.
Local Open Scope string_scope.
Local Open Scope rtv_scope.
Local Open Scope Z_scope.

(** ** [model] *)

Record User := {
  u_ID : UUID;
  u_Email : string;
  u_DisplayName : string;
  u_AvatarURL : string;
  u_VaultToken : string;
  u_CreatedAt : Z;
  u_UpdatedAt : Z
}.

Record UserVCSPlatform := {
  vp_BaseURL : string;
  vp_APIURL : string;
  vp_Organization : string;
  vp_Username : string;
  vp_TenantID : string;
  vp_ClientID : string
}.

Record OAuthIdentity := {
  oi_UserID : UUID;
  oi_AccessTokenEnc : string;
  oi_RefreshTokenEnc : string;
  oi_Scopes : string;
  oi_ExpiresAt : option Z
}.

Record Organization := {
  o_ID : UUID;
  o_Name : string;
  o_Slug : string;
  o_Plan : string;
  o_Settings : string;
  o_CreatedAt : Z;
  o_UpdatedAt : Z
}.

Record OrgMember := { m_Role : string; m_JoinedAt : Z }.

Record Repository := {
  r_ID : UUID;
  r_OrgID : UUID;
  r_Platform : string;
  r_ExternalID : string;
  r_Owner : string;
  r_Name : string;
  r_DefaultBranch : string;
  r_CloneURL : string;
  r_WebhookSecret : string;
  r_Config : string;
  r_IndexedAt : option Z;
  r_CreatedAt : Z;
  r_UpdatedAt : Z
}.

Definition FullName (r : Repository) : string :=
  if negb (String.eqb (r_Owner r) "") && negb (String.eqb (r_Name r) "")
  then r_Owner r ++ "/" ++ r_Name r else r_Name r.

Record RepoMember := { rm_Role : string; rm_AddedAt : Z }.

Definition ReviewStatusPending := "pending".
Definition ReviewStatusInProgress := "in_progress".
Definition ReviewStatusCompleted := "completed".
Definition ReviewStatusFailed := "failed".

Record Review := {
  rv_ID : UUID;
  rv_RepoID : UUID;
  rv_TriggeredBy : UUID;
  rv_Platform : string;
  rv_PRNumber : Z;
  rv_PRTitle : string;
  rv_PRAuthor : string;
  rv_BaseBranch : string;
  rv_HeadBranch : string;
  rv_Status : string;
  rv_FilesChanged : Z;
  rv_Additions : Z;
  rv_Deletions : Z;
  rv_Metadata : option (list (string * string));
  rv_CreatedAt : Z;
  rv_CompletedAt : option Z
}.

Definition SeverityCritical := "critical".
Definition SeverityHigh := "high".
Definition SeverityMedium := "medium".
Definition SeverityLow := "low".
Definition SeverityInfo := "info".

Record ReviewComment := {
  rc_ReviewID : UUID;
  rc_FilePath : string;
  rc_LineNumber : Z;
  rc_EndLine : option Z;
  rc_Severity : string;
  rc_Category : string;
  rc_Title : string;
  rc_Body : string;
  rc_Suggestion : string;
  rc_Posted : bool;
  rc_CreatedAt : Z
}.

Record WebhookEvent := {
  w_Platform : string;
  w_EventType : string;
  w_Payload : string;
  w_Processed : bool;
  w_Error : string;
  w_CreatedAt : Z
}.

Definition PRSyncStatusOpen := "open".
Definition PRSyncStatusClosed := "closed".
Definition PRSyncStatusMerged := "merged".
Definition PRSyncStatusDraft := "draft".
Definition PRSyncStatusStale := "stale".
Definition PRSyncStatusEmbedded := "embedded".
Definition PRSyncStatusEmbedding := "embedding".
Definition PRSyncStatusEmbedError := "embed_error".

Definition PRReviewNone := "none".
Definition PRReviewPending := "pending".
Definition PRReviewCompleted := "completed".

(** The zero time is [None]. *)
Record TrackedPullRequest := {
  pr_ID : UUID;
  pr_RepoID : UUID;
  pr_Platform : string;
  pr_PRNumber : Z;
  pr_ExternalID : string;
  pr_Title : string;
  pr_Description : string;
  pr_Author : string;
  pr_SourceBranch : string;
  pr_TargetBranch : string;
  pr_HeadSHA : string;
  pr_BaseSHA : string;
  pr_PRURL : string;
  pr_SyncStatus : string;
  pr_ReviewStatus : string;
  pr_LastReviewID : option UUID;
  pr_FilesChanged : Z;
  pr_Additions : Z;
  pr_Deletions : Z;
  pr_EmbeddedAt : option Z;
  pr_EmbedError : option string;
  pr_SyncedAt : Z;
  pr_CreatedAt : option Z;
  pr_UpdatedAt : Z
}.

Record PRListFilter := {
  f_SyncStatus : option string;
  f_ReviewStatus : option string;
  f_Author : string;
  f_TargetBranch : string
}.

(** An entry of [audit_log]. *)
Record AuditEntry := {
  ae_UserID : option UUID;
  ae_Action : string;
  ae_ResourceType : string;
  ae_ResourceID : string;
  ae_IPAddress : string;
  ae_UserAgent : string;
  ae_Metadata : list (string * string)
}.

(** ** What happens outside the tables *)

(** Who starts a review: a user, the pull request that is tracked, a webhook. *)
Inductive Origin :=
  | Manual
  | Tracked (prID : UUID)
  | Hooked (platform : string) (eventID : UUID).

Inductive Act :=
  | AReview (origin : Origin) (repoID : UUID) (prNumber : Z) (triggeredBy : UUID)
  | ASync (repoID : UUID)
  | ADeleteIndex (repoID : string)
  | AEmbed (repoID : string) (evt : PREmbedProgressEvent)
  | AContext (repoID diff title description : string)
  | APostComment (owner repo : string) (prNumber : Z) (text path : string) (line : Z)
                 (commit : string)
  | APostSummary (owner repo : string) (prNumber : Z) (text : string)
  | AProgress (reviewID : UUID) (step : string) (index : Z) (status : string)
  | ADelivery (eventID repoID : UUID) (platform : string) (prNumber : Z).

Record Store := {
  s_users : gmap UUID User;
  s_identities : gmap (string * string) OAuthIdentity;
  s_orgs : gmap UUID Organization;
  s_members : gmap (UUID * UUID) OrgMember;
  s_repos : gmap UUID Repository;
  s_repo_members : gmap (UUID * UUID) RepoMember;
  s_reviews : gmap UUID Review;
  s_comments : gmap UUID ReviewComment;
  s_usage : gmap (UUID * Z) usage_row;
  s_webhooks : gmap UUID WebhookEvent;
  s_platforms : gmap (UUID * string) UserVCSPlatform;
  s_prs : gmap UUID TrackedPullRequest;
  s_audit : list AuditEntry;
  s_trace : list Act
}.

Definition set_users (f : gmap UUID User -> gmap UUID User) (s : Store) : Store :=
  {| s_users := f (s_users s); s_identities := s_identities s; s_orgs := s_orgs s;
     s_members := s_members s; s_repos := s_repos s; s_repo_members := s_repo_members s;
     s_reviews := s_reviews s; s_comments := s_comments s; s_usage := s_usage s;
     s_webhooks := s_webhooks s; s_platforms := s_platforms s; s_prs := s_prs s;
     s_audit := s_audit s; s_trace := s_trace s |}.
Definition set_identities
    (f : gmap (string * string) OAuthIdentity -> gmap (string * string) OAuthIdentity)
    (s : Store) : Store :=
  {| s_users := s_users s; s_identities := f (s_identities s); s_orgs := s_orgs s;
     s_members := s_members s; s_repos := s_repos s; s_repo_members := s_repo_members s;
     s_reviews := s_reviews s; s_comments := s_comments s; s_usage := s_usage s;
     s_webhooks := s_webhooks s; s_platforms := s_platforms s; s_prs := s_prs s;
     s_audit := s_audit s; s_trace := s_trace s |}.
Definition set_orgs (f : gmap UUID Organization -> gmap UUID Organization) (s : Store) : Store :=
  {| s_users := s_users s; s_identities := s_identities s; s_orgs := f (s_orgs s);
     s_members := s_members s; s_repos := s_repos s; s_repo_members := s_repo_members s;
     s_reviews := s_reviews s; s_comments := s_comments s; s_usage := s_usage s;
     s_webhooks := s_webhooks s; s_platforms := s_platforms s; s_prs := s_prs s;
     s_audit := s_audit s; s_trace := s_trace s |}.
Definition set_members
    (f : gmap (UUID * UUID) OrgMember -> gmap (UUID * UUID) OrgMember) (s : Store) : Store :=
  {| s_users := s_users s; s_identities := s_identities s; s_orgs := s_orgs s;
     s_members := f (s_members s); s_repos := s_repos s; s_repo_members := s_repo_members s;
     s_reviews := s_reviews s; s_comments := s_comments s; s_usage := s_usage s;
     s_webhooks := s_webhooks s; s_platforms := s_platforms s; s_prs := s_prs s;
     s_audit := s_audit s; s_trace := s_trace s |}.
Definition set_repos (f : gmap UUID Repository -> gmap UUID Repository) (s : Store) : Store :=
  {| s_users := s_users s; s_identities := s_identities s; s_orgs := s_orgs s;
     s_members := s_members s; s_repos := f (s_repos s); s_repo_members := s_repo_members s;
     s_reviews := s_reviews s; s_comments := s_comments s; s_usage := s_usage s;
     s_webhooks := s_webhooks s; s_platforms := s_platforms s; s_prs := s_prs s;
     s_audit := s_audit s; s_trace := s_trace s |}.
Definition set_repo_members
    (f : gmap (UUID * UUID) RepoMember -> gmap (UUID * UUID) RepoMember) (s : Store) : Store :=
  {| s_users := s_users s; s_identities := s_identities s; s_orgs := s_orgs s;
     s_members := s_members s; s_repos := s_repos s; s_repo_members := f (s_repo_members s);
     s_reviews := s_reviews s; s_comments := s_comments s; s_usage := s_usage s;
     s_webhooks := s_webhooks s; s_platforms := s_platforms s; s_prs := s_prs s;
     s_audit := s_audit s; s_trace := s_trace s |}.
Definition set_reviews (f : gmap UUID Review -> gmap UUID Review) (s : Store) : Store :=
  {| s_users := s_users s; s_identities := s_identities s; s_orgs := s_orgs s;
     s_members := s_members s; s_repos := s_repos s; s_repo_members := s_repo_members s;
     s_reviews := f (s_reviews s); s_comments := s_comments s; s_usage := s_usage s;
     s_webhooks := s_webhooks s; s_platforms := s_platforms s; s_prs := s_prs s;
     s_audit := s_audit s; s_trace := s_trace s |}.
Definition set_comments
    (f : gmap UUID ReviewComment -> gmap UUID ReviewComment) (s : Store) : Store :=
  {| s_users := s_users s; s_identities := s_identities s; s_orgs := s_orgs s;
     s_members := s_members s; s_repos := s_repos s; s_repo_members := s_repo_members s;
     s_reviews := s_reviews s; s_comments := f (s_comments s); s_usage := s_usage s;
     s_webhooks := s_webhooks s; s_platforms := s_platforms s; s_prs := s_prs s;
     s_audit := s_audit s; s_trace := s_trace s |}.
Definition set_usage
    (f : gmap (UUID * Z) usage_row -> gmap (UUID * Z) usage_row) (s : Store) : Store :=
  {| s_users := s_users s; s_identities := s_identities s; s_orgs := s_orgs s;
     s_members := s_members s; s_repos := s_repos s; s_repo_members := s_repo_members s;
     s_reviews := s_reviews s; s_comments := s_comments s; s_usage := f (s_usage s);
     s_webhooks := s_webhooks s; s_platforms := s_platforms s; s_prs := s_prs s;
     s_audit := s_audit s; s_trace := s_trace s |}.
Definition set_webhooks
    (f : gmap UUID WebhookEvent -> gmap UUID WebhookEvent) (s : Store) : Store :=
  {| s_users := s_users s; s_identities := s_identities s; s_orgs := s_orgs s;
     s_members := s_members s; s_repos := s_repos s; s_repo_members := s_repo_members s;
     s_reviews := s_reviews s; s_comments := s_comments s; s_usage := s_usage s;
     s_webhooks := f (s_webhooks s); s_platforms := s_platforms s; s_prs := s_prs s;
     s_audit := s_audit s; s_trace := s_trace s |}.
Definition set_platforms
    (f : gmap (UUID * string) UserVCSPlatform -> gmap (UUID * string) UserVCSPlatform)
    (s : Store) : Store :=
  {| s_users := s_users s; s_identities := s_identities s; s_orgs := s_orgs s;
     s_members := s_members s; s_repos := s_repos s; s_repo_members := s_repo_members s;
     s_reviews := s_reviews s; s_comments := s_comments s; s_usage := s_usage s;
     s_webhooks := s_webhooks s; s_platforms := f (s_platforms s); s_prs := s_prs s;
     s_audit := s_audit s; s_trace := s_trace s |}.
Definition set_prs
    (f : gmap UUID TrackedPullRequest -> gmap UUID TrackedPullRequest) (s : Store) : Store :=
  {| s_users := s_users s; s_identities := s_identities s; s_orgs := s_orgs s;
     s_members := s_members s; s_repos := s_repos s; s_repo_members := s_repo_members s;
     s_reviews := s_reviews s; s_comments := s_comments s; s_usage := s_usage s;
     s_webhooks := s_webhooks s; s_platforms := s_platforms s; s_prs := f (s_prs s);
     s_audit := s_audit s; s_trace := s_trace s |}.
Definition set_audit (f : list AuditEntry -> list AuditEntry) (s : Store) : Store :=
  {| s_users := s_users s; s_identities := s_identities s; s_orgs := s_orgs s;
     s_members := s_members s; s_repos := s_repos s; s_repo_members := s_repo_members s;
     s_reviews := s_reviews s; s_comments := s_comments s; s_usage := s_usage s;
     s_webhooks := s_webhooks s; s_platforms := s_platforms s; s_prs := s_prs s;
     s_audit := f (s_audit s); s_trace := s_trace s |}.
Definition set_trace (f : list Act -> list Act) (s : Store) : Store :=
  {| s_users := s_users s; s_identities := s_identities s; s_orgs := s_orgs s;
     s_members := s_members s; s_repos := s_repos s; s_repo_members := s_repo_members s;
     s_reviews := s_reviews s; s_comments := s_comments s; s_usage := s_usage s;
     s_webhooks := s_webhooks s; s_platforms := s_platforms s; s_prs := s_prs s;
     s_audit := s_audit s; s_trace := f (s_trace s) |}.

Definition act (a : Act) : DB Store unit := writes (set_trace (fun l => l ++ [a])%list).

(** ** Columns *)

Definition int4 (z : Z) : bool := (- 2 ^ 31 <=? z) && (z <? 2 ^ 31).
Definition has {K A} `{Countable K} (k : K) (m : gmap K A) : bool := bool_decide (is_Some (m !! k)).
Definition rows {K A} `{Countable K} (m : gmap K A) : list (K * A) := map_to_list m.

(** Whether the text can be read as an [INET]. *)
Class Inet := { inet_ok : string -> bool }.

Section store.
Context `{Postgres} `{RowOrder} `{Collation}.

Definition varchar (n : nat) (s : string) : bool := text_ok s && (RuneCountInString s <=? n)%nat.

(** [LIMIT $1 OFFSET $2] *)
Definition page {A} (limit offset : Z) (l : list A) : list A :=
  firstn (Z.to_nat limit) (skipn (Z.to_nat offset) l).
Definition paged {A} (limit offset : Z) (f : Store -> list A) : DBE Store (list A) :=
  _ ←? guarded (fun _ => (0 <=? limit) && (0 <=? offset)) (fun s => s);
  l ← reads (fun s => page limit offset (f s));
  ok l.

(** [SELECT COUNT] of the rows of [f] *)
Definition counted {A} (f : Store -> list A) : DBE Store Z :=
  query (fun s => Z.of_nat (List.length (f s))).

(** Unordered rows of a table that satisfy [p] *)
Definition where_ {K A} `{Countable K} (p : K -> A -> bool) (m : gmap K A) : list (K * A) :=
  row_order (List.filter (fun kv => p kv.1 kv.2) (rows m)).

(** ** [UserRepository] *)

Definition user_duplicate (u : User) (s : Store) : bool :=
  has (u_ID u) (s_users s)
  || existsb (fun kv => String.eqb (u_Email kv.2) (u_Email u)
                        || String.eqb (u_VaultToken kv.2) (u_VaultToken u)) (rows (s_users s)).
Definition user_accepted (u : User) : bool :=
  varchar 255 (u_Email u) && varchar 255 (u_DisplayName u) && text_ok (u_AvatarURL u)
  && varchar 64 (u_VaultToken u).

(** [token] is what [generateVaultToken] draws. *)
Definition Users_Create (now : Z) (id : UUID) (token : string) (u : User) : DBE Store User :=
  let u := {| u_ID := id; u_Email := u_Email u; u_DisplayName := u_DisplayName u;
              u_AvatarURL := u_AvatarURL u;
              u_VaultToken := if String.eqb (u_VaultToken u) "" then token else u_VaultToken u;
              u_CreatedAt := now; u_UpdatedAt := now |} in
  wrapping "create user" (inserting (user_duplicate u) (fun _ => user_accepted u)
                            (set_users <[id := u]>));?
  ok u.

Definition Users_GetByID (id : UUID) : DBE Store User :=
  get_row "get user by id" (fun s => s_users s !! id).

Definition Users_GetByEmail (email : string) : DBE Store User :=
  get_row "get user by email" (fun s =>
    snd <$> head (where_ (fun _ u => String.eqb (u_Email u) email) (s_users s))).

Definition email_taken (id : UUID) (email : string) (s : Store) : bool :=
  existsb (fun kv => negb (kv.1 =? id)%N && String.eqb (u_Email kv.2) email) (rows (s_users s)).

Definition Users_Update (now : Z) (u : User) : DBE Store User :=
  let u := {| u_ID := u_ID u; u_Email := u_Email u; u_DisplayName := u_DisplayName u;
              u_AvatarURL := u_AvatarURL u; u_VaultToken := u_VaultToken u;
              u_CreatedAt := u_CreatedAt u; u_UpdatedAt := now |} in
  exec_row "update user"
    (fun s => negb (has (u_ID u) (s_users s))
              || (user_accepted u && negb (email_taken (u_ID u) (u_Email u) s)))
    (fun s => (affected (u_ID u) (s_users s),
               set_users (alter (fun old =>
                 {| u_ID := u_ID old; u_Email := u_Email u; u_DisplayName := u_DisplayName u;
                    u_AvatarURL := u_AvatarURL u; u_VaultToken := u_VaultToken old;
                    u_CreatedAt := u_CreatedAt old; u_UpdatedAt := now |}) (u_ID u)) s));?
  ok u.

Definition Users_UpsertOAuthIdentity (provider providerUserID : string) (oi : OAuthIdentity)
    : DBE Store unit :=
  wrapping "upsert oauth identity" (guarded
    (fun s => has (oi_UserID oi) (s_users s) && varchar 50 provider && varchar 255 providerUserID
              && text_ok (oi_AccessTokenEnc oi) && text_ok (oi_RefreshTokenEnc oi)
              && text_ok (oi_Scopes oi))
    (set_identities <[(provider, providerUserID) := oi]>)).

Definition Users_GetOAuthIdentity (provider providerUserID : string) : DBE Store OAuthIdentity :=
  get_row "get oauth identity" (fun s => s_identities s !! (provider, providerUserID)).

Definition Users_ListUsers (limit offset : Z) : DBE Store (list User * Z) :=
  total ←? wrapping "count users" (counted (fun s => rows (s_users s)));
  l ←? wrapping "list users" (paged limit offset (fun s =>
         order_by (fun u => - u_CreatedAt u) (where_ (fun _ _ => true) (s_users s)).*2));
  ok (l, total).

(** ** [OrgRepository] *)

Definition org_duplicate (o : Organization) (s : Store) : bool :=
  has (o_ID o) (s_orgs s)
  || existsb (fun kv => String.eqb (o_Slug kv.2) (o_Slug o)) (rows (s_orgs s)).
Definition org_accepted (o : Organization) : bool :=
  varchar 255 (o_Name o) && varchar 100 (o_Slug o) && varchar 50 (o_Plan o)
  && text_ok (o_Settings o).

(** A nil map of settings is the empty text. *)
Definition Orgs_Create (now : Z) (id : UUID) (o : Organization) : DBE Store Organization :=
  let o := {| o_ID := id; o_Name := o_Name o; o_Slug := o_Slug o; o_Plan := o_Plan o;
              o_Settings := if String.eqb (o_Settings o) "" then "{}" else o_Settings o;
              o_CreatedAt := now; o_UpdatedAt := now |} in
  wrapping "create organization" (inserting (org_duplicate o) (fun _ => org_accepted o)
                                    (set_orgs <[id := o]>));?
  ok o.

Definition Orgs_GetByID (id : UUID) : DBE Store Organization :=
  get_row "get organization" (fun s => s_orgs s !! id).

Definition Orgs_GetBySlug (slug : string) : DBE Store Organization :=
  get_row "get organization by slug" (fun s =>
    snd <$> head (where_ (fun _ o => String.eqb (o_Slug o) slug) (s_orgs s))).

Definition slug_taken (id : UUID) (slug : string) (s : Store) : bool :=
  existsb (fun kv => negb (kv.1 =? id)%N && String.eqb (o_Slug kv.2) slug) (rows (s_orgs s)).

Definition Orgs_Update (now : Z) (o : Organization) : DBE Store Organization :=
  let o := {| o_ID := o_ID o; o_Name := o_Name o; o_Slug := o_Slug o; o_Plan := o_Plan o;
              o_Settings := o_Settings o; o_CreatedAt := o_CreatedAt o; o_UpdatedAt := now |} in
  exec_row "update organization"
    (fun s => negb (has (o_ID o) (s_orgs s))
              || (org_accepted o && negb (slug_taken (o_ID o) (o_Slug o) s)))
    (fun s => (affected (o_ID o) (s_orgs s),
               set_orgs (alter (fun old =>
                 {| o_ID := o_ID old; o_Name := o_Name o; o_Slug := o_Slug o; o_Plan := o_Plan o;
                    o_Settings := o_Settings o; o_CreatedAt := o_CreatedAt old;
                    o_UpdatedAt := now |}) (o_ID o)) s));?
  ok o.

(** The organisations of a user: [organizations JOIN org_members]. *)
Definition orgs_of (userID : UUID) (s : Store) : list Organization :=
  omap (fun kv : UUID * UUID * OrgMember => s_orgs s !! kv.1.1)
    (where_ (fun k _ => (k.2 =? userID)%N) (s_members s)).

Definition Orgs_ListByUser (userID : UUID) (limit offset : Z) : DBE Store (list Organization * Z) :=
  total ←? wrapping "count orgs by user" (counted (orgs_of userID));
  l ←? wrapping "list orgs by user"
         (paged limit offset (fun s => order_by_text o_Name (orgs_of userID s)));
  ok (l, total).

Definition Orgs_AddMember (now : Z) (orgID userID : UUID) (role : string) : DBE Store unit :=
  wrapping "add org member" (guarded
    (fun s => has orgID (s_orgs s) && has userID (s_users s) && varchar 50 role)
    (set_members (fun m =>
       <[(orgID, userID) := {| m_Role := role;
                               m_JoinedAt := match m !! (orgID, userID) with
                                             | Some old => m_JoinedAt old
                                             | None => now
                                             end |}]> m))).

(** Rows a statement with the condition [p] affects: one or none, by their key. *)
Definition one_row {K A} `{Countable K} (k : K) (m : gmap K A) : Z := if has k m then 1 else 0.

Definition Orgs_RemoveMember (orgID userID : UUID) : DBE Store unit :=
  exec_row "remove org member" (fun _ => true)
    (fun s => (one_row (orgID, userID) (s_members s),
               set_members (delete (orgID, userID)) s)).

Record MemberInfo := {
  mi_UserID : UUID; mi_Email : string; mi_DisplayName : string; mi_AvatarURL : string;
  mi_Role : string; mi_JoinedAt : Z
}.

Definition members_of (orgID : UUID) (s : Store) : list MemberInfo :=
  omap (fun kv : UUID * UUID * OrgMember =>
          u ← s_users s !! kv.1.2;
          Some {| mi_UserID := u_ID u; mi_Email := u_Email u; mi_DisplayName := u_DisplayName u;
                  mi_AvatarURL := u_AvatarURL u; mi_Role := m_Role kv.2;
                  mi_JoinedAt := m_JoinedAt kv.2 |})
    (where_ (fun k _ => (k.1 =? orgID)%N) (s_members s)).

Definition Orgs_ListMembers (orgID : UUID) (limit offset : Z) : DBE Store (list MemberInfo * Z) :=
  total ←? wrapping "count org members"
             (counted (fun s => where_ (fun k _ => (k.1 =? orgID)%N) (s_members s)));
  l ←? wrapping "list org members"
         (paged limit offset (fun s => order_by mi_JoinedAt (members_of orgID s)));
  ok (l, total).

Definition Orgs_GetMember (orgID userID : UUID) : DBE Store OrgMember :=
  get_row "get org member" (fun s => s_members s !! (orgID, userID)).

(** ** [RepositoryRepo] *)

Definition repo_duplicate (r : Repository) (s : Store) : bool :=
  has (r_ID r) (s_repos s)
  || existsb (fun kv => String.eqb (r_Platform kv.2) (r_Platform r)
                        && String.eqb (r_ExternalID kv.2) (r_ExternalID r)) (rows (s_repos s)).
Definition repo_columns (r : Repository) : bool :=
  varchar 50 (r_Platform r) && varchar 255 (r_ExternalID r) && varchar 255 (r_Owner r)
  && varchar 255 (r_Name r) && varchar 100 (r_DefaultBranch r) && text_ok (r_CloneURL r)
  && varchar 255 (r_WebhookSecret r) && text_ok (r_Config r).

Definition Repos_Create (now : Z) (id : UUID) (r : Repository) : DBE Store Repository :=
  let r := {| r_ID := id; r_OrgID := r_OrgID r; r_Platform := r_Platform r;
              r_ExternalID := r_ExternalID r; r_Owner := r_Owner r; r_Name := r_Name r;
              r_DefaultBranch := r_DefaultBranch r; r_CloneURL := r_CloneURL r;
              r_WebhookSecret := r_WebhookSecret r;
              r_Config := if String.eqb (r_Config r) "" then "{}" else r_Config r;
              r_IndexedAt := None; r_CreatedAt := now; r_UpdatedAt := now |} in
  wrapping "create repository" (inserting (repo_duplicate r)
    (fun s => has (r_OrgID r) (s_orgs s) && repo_columns r) (set_repos <[id := r]>));?
  ok r.

Definition Repos_GetByID (id : UUID) : DBE Store Repository :=
  get_row "get repository" (fun s => s_repos s !! id).

Definition Repos_GetByPlatformAndExternalID (platform externalID : string)
    : DBE Store Repository :=
  get_row "get repository by platform" (fun s =>
    snd <$> head (where_ (fun _ r => String.eqb (r_Platform r) platform
                                     && String.eqb (r_ExternalID r) externalID) (s_repos s))).

Definition repos_of_org (orgID : UUID) (s : Store) : list Repository :=
  (where_ (fun _ r => (r_OrgID r =? orgID)%N) (s_repos s)).*2.

(** The listings do not read the secret. *)
Definition without_secret (r : Repository) : Repository :=
  {| r_ID := r_ID r; r_OrgID := r_OrgID r; r_Platform := r_Platform r;
     r_ExternalID := r_ExternalID r; r_Owner := r_Owner r; r_Name := r_Name r;
     r_DefaultBranch := r_DefaultBranch r; r_CloneURL := r_CloneURL r; r_WebhookSecret := "";
     r_Config := r_Config r; r_IndexedAt := r_IndexedAt r; r_CreatedAt := r_CreatedAt r;
     r_UpdatedAt := r_UpdatedAt r |}.

Definition Repos_ListByOrg (orgID : UUID) (limit offset : Z) : DBE Store (list Repository * Z) :=
  total ←? wrapping "count repositories" (counted (repos_of_org orgID));
  l ←? wrapping "list repositories" (paged limit offset (fun s =>
         without_secret <$> order_by_text r_Name (repos_of_org orgID s)));
  ok (l, total).

Definition set_repo (now : Z) (r old : Repository) : Repository :=
  {| r_ID := r_ID old; r_OrgID := r_OrgID old; r_Platform := r_Platform r;
     r_ExternalID := r_ExternalID old; r_Owner := r_Owner r; r_Name := r_Name r;
     r_DefaultBranch := r_DefaultBranch r; r_CloneURL := r_CloneURL r;
     r_WebhookSecret := r_WebhookSecret old; r_Config := r_Config r;
     r_IndexedAt := r_IndexedAt old; r_CreatedAt := r_CreatedAt old; r_UpdatedAt := now |}.

(** Another row with the platform and the external identifier of row [id]. *)
Definition external_taken (r : Repository) (s : Store) : bool :=
  match s_repos s !! r_ID r with
  | Some old => existsb (fun kv => negb (kv.1 =? r_ID r)%N
                                   && String.eqb (r_Platform kv.2) (r_Platform r)
                                   && String.eqb (r_ExternalID kv.2) (r_ExternalID old))
                  (rows (s_repos s))
  | None => false
  end.

Definition Repos_Update (now : Z) (r : Repository) : DBE Store Repository :=
  exec_row "update repository"
    (fun s => negb (has (r_ID r) (s_repos s)) || (repo_columns r && negb (external_taken r s)))
    (fun s => (affected (r_ID r) (s_repos s), set_repos (alter (set_repo now r) (r_ID r)) s));?
  ok (set_repo now r r).

(** [ON DELETE CASCADE] of [repo_members], [reviews], [review_comments] and
    [tracked_pull_requests], [ON DELETE SET NULL] of [last_review_id], which is an [UPDATE] for
    the trigger of that table. *)
Definition belongs (s : Store) (repoID reviewID : UUID) : bool :=
  match s_reviews s !! reviewID with
  | Some rv => (rv_RepoID rv =? repoID)%N
  | None => false
  end.
Definition unlink_review (now : Z) (p : TrackedPullRequest) : TrackedPullRequest :=
  {| pr_ID := pr_ID p; pr_RepoID := pr_RepoID p; pr_Platform := pr_Platform p;
     pr_PRNumber := pr_PRNumber p; pr_ExternalID := pr_ExternalID p; pr_Title := pr_Title p;
     pr_Description := pr_Description p; pr_Author := pr_Author p;
     pr_SourceBranch := pr_SourceBranch p; pr_TargetBranch := pr_TargetBranch p;
     pr_HeadSHA := pr_HeadSHA p; pr_BaseSHA := pr_BaseSHA p; pr_PRURL := pr_PRURL p;
     pr_SyncStatus := pr_SyncStatus p; pr_ReviewStatus := pr_ReviewStatus p;
     pr_LastReviewID := None; pr_FilesChanged := pr_FilesChanged p;
     pr_Additions := pr_Additions p; pr_Deletions := pr_Deletions p;
     pr_EmbeddedAt := pr_EmbeddedAt p; pr_EmbedError := pr_EmbedError p;
     pr_SyncedAt := pr_SyncedAt p; pr_CreatedAt := pr_CreatedAt p; pr_UpdatedAt := now |}.
Definition review_gone (s : Store) (repoID : UUID) (_ : UUID) (p : TrackedPullRequest) : bool :=
  match pr_LastReviewID p with Some r => belongs s repoID r | None => false end.
Definition cascade_repo (now : Z) (id : UUID) (s : Store) : Store :=
  let comments := base.filter (fun kv => belongs s id (rc_ReviewID kv.2) = false) (s_comments s) in
  let reviews := base.filter (fun kv => (rv_RepoID kv.2 =? id)%N = false) (s_reviews s) in
  let prs := update_where (review_gone s id) (unlink_review now)
               (base.filter (fun kv => (pr_RepoID kv.2 =? id)%N = false) (s_prs s)) in
  let members := base.filter (fun kv => (kv.1.1 =? id)%N = false) (s_repo_members s) in
  set_comments (fun _ => comments) (set_reviews (fun _ => reviews) (set_prs (fun _ => prs)
    (set_repo_members (fun _ => members) (set_repos (delete id) s)))).

Definition Repos_Delete (now : Z) (id : UUID) : DBE Store unit :=
  exec_row "delete repository" (fun _ => true)
    (fun s => (affected id (s_repos s), cascade_repo now id s)).

Definition Repos_MarkIndexed (now : Z) (id : UUID) : DBE Store unit :=
  exec_row "mark indexed" (fun _ => true)
    (fun s => (affected id (s_repos s), set_repos (alter (fun r =>
       {| r_ID := r_ID r; r_OrgID := r_OrgID r; r_Platform := r_Platform r;
          r_ExternalID := r_ExternalID r; r_Owner := r_Owner r; r_Name := r_Name r;
          r_DefaultBranch := r_DefaultBranch r; r_CloneURL := r_CloneURL r;
          r_WebhookSecret := r_WebhookSecret r; r_Config := r_Config r;
          r_IndexedAt := Some now; r_CreatedAt := r_CreatedAt r; r_UpdatedAt := now |}) id) s)).

(** [repositories JOIN org_members] *)
Definition repos_of_user (userID : UUID) (s : Store) : list Repository :=
  row_order (flat_map (fun kv : UUID * Repository =>
    List.filter (fun _ => has (r_OrgID kv.2, userID) (s_members s)) [kv.2]) (rows (s_repos s))).

Definition Repos_ListByUser (userID : UUID) (limit offset : Z) : DBE Store (list Repository * Z) :=
  total ←? wrapping "count user repositories" (counted (repos_of_user userID));
  l ←? wrapping "list user repositories" (paged limit offset (fun s =>
         without_secret <$> order_by_text r_Name (repos_of_user userID s)));
  ok (l, total).

(** ** [RepoMemberRepo] *)

Definition RepoMembers_AddMember (now : Z) (repoID userID : UUID) (role : string)
    : DBE Store unit :=
  wrapping "add repo member" (guarded
    (fun s => has repoID (s_repos s) && has userID (s_users s) && varchar 50 role)
    (set_repo_members (fun m =>
       <[(repoID, userID) := {| rm_Role := role;
                                rm_AddedAt := match m !! (repoID, userID) with
                                              | Some old => rm_AddedAt old
                                              | None => now
                                              end |}]> m))).

Definition RepoMembers_RemoveMember (repoID userID : UUID) : DBE Store unit :=
  exec_row "remove repo member" (fun _ => true)
    (fun s => (one_row (repoID, userID) (s_repo_members s),
               set_repo_members (delete (repoID, userID)) s)).

Record RepoMemberInfo := {
  ri_UserID : UUID; ri_Role : string; ri_AddedAt : Z; ri_UserName : string; ri_UserEmail : string
}.

(** Whether [users] has the column [name] that the listing reads: it has [display_name]. *)
Definition users_name_column : bool := false.

Definition RepoMembers_ListMembers (repoID : UUID) : DBE Store (list RepoMemberInfo) :=
  wrapping "list repo members" (
    _ ←? guarded (fun _ => users_name_column) (fun s => s);
    query (fun s => order_by ri_AddedAt (omap (fun kv : UUID * UUID * RepoMember =>
      u ← s_users s !! kv.1.2;
      Some {| ri_UserID := kv.1.2; ri_Role := rm_Role kv.2; ri_AddedAt := rm_AddedAt kv.2;
              ri_UserName := u_DisplayName u; ri_UserEmail := u_Email u |})
      (where_ (fun k _ => (k.1 =? repoID)%N) (s_repo_members s))))).

(** ** [ReviewRepository] *)

Definition review_accepted (rv : Review) (s : Store) : bool :=
  has (rv_RepoID rv) (s_repos s) && has (rv_TriggeredBy rv) (s_users s)
  && varchar 50 (rv_Platform rv) && int4 (rv_PRNumber rv) && text_ok (rv_PRTitle rv)
  && varchar 255 (rv_PRAuthor rv) && varchar 255 (rv_BaseBranch rv)
  && varchar 255 (rv_HeadBranch rv) && varchar 50 (rv_Status rv) && int4 (rv_FilesChanged rv)
  && int4 (rv_Additions rv) && int4 (rv_Deletions rv).

Definition Reviews_Create (now : Z) (id : UUID) (rv : Review) : DBE Store Review :=
  let rv := {| rv_ID := id; rv_RepoID := rv_RepoID rv; rv_TriggeredBy := rv_TriggeredBy rv;
               rv_Platform := rv_Platform rv; rv_PRNumber := rv_PRNumber rv;
               rv_PRTitle := rv_PRTitle rv; rv_PRAuthor := rv_PRAuthor rv;
               rv_BaseBranch := rv_BaseBranch rv; rv_HeadBranch := rv_HeadBranch rv;
               rv_Status := rv_Status rv; rv_FilesChanged := rv_FilesChanged rv;
               rv_Additions := rv_Additions rv; rv_Deletions := rv_Deletions rv;
               rv_Metadata := rv_Metadata rv; rv_CreatedAt := now; rv_CompletedAt := None |} in
  wrapping "create review" (inserting (fun s => has id (s_reviews s)) (review_accepted rv)
                              (set_reviews <[id := rv]>));?
  ok rv.

Definition Reviews_GetByID (id : UUID) : DBE Store Review :=
  get_row "get review" (fun s => s_reviews s !! id).

Definition or_else {A} (new old : option A) : option A :=
  match new with Some _ => new | None => old end.

Definition set_review_status (now : Z) (status : string)
    (metadata : option (list (string * string))) (rv : Review) : Review :=
  let finished := String.eqb status ReviewStatusCompleted || String.eqb status ReviewStatusFailed in
  {| rv_ID := rv_ID rv; rv_RepoID := rv_RepoID rv; rv_TriggeredBy := rv_TriggeredBy rv;
     rv_Platform := rv_Platform rv; rv_PRNumber := rv_PRNumber rv; rv_PRTitle := rv_PRTitle rv;
     rv_PRAuthor := rv_PRAuthor rv; rv_BaseBranch := rv_BaseBranch rv;
     rv_HeadBranch := rv_HeadBranch rv; rv_Status := status;
     rv_FilesChanged := rv_FilesChanged rv; rv_Additions := rv_Additions rv;
     rv_Deletions := rv_Deletions rv; rv_Metadata := or_else metadata (rv_Metadata rv);
     rv_CreatedAt := rv_CreatedAt rv;
     rv_CompletedAt := or_else (if finished then Some now else None) (rv_CompletedAt rv) |}.

(** A text that JSONB does not take makes the statement fail. *)
Definition metadata_ok (m : option (list (string * string))) : bool :=
  match m with
  | Some l => forallb (fun kv => text_ok kv.1 && text_ok kv.2) l
  | None => true
  end.

Definition Reviews_UpdateStatus (now : Z) (id : UUID) (status : string)
    (metadata : option (list (string * string))) : DBE Store unit :=
  exec_row "update review status" (fun _ => varchar 50 status && metadata_ok metadata)
    (fun s => (affected id (s_reviews s),
               set_reviews (alter (set_review_status now status metadata) id) s)).

Definition reviews_of_repo (repoID : UUID) (s : Store) : list Review :=
  (where_ (fun _ rv => (rv_RepoID rv =? repoID)%N) (s_reviews s)).*2.

Definition newest_first (l : list Review) : list Review := order_by (fun rv => - rv_CreatedAt rv) l.

Definition Reviews_ListByRepo (repoID : UUID) (limit offset : Z) : DBE Store (list Review * Z) :=
  total ←? wrapping "count reviews" (counted (reviews_of_repo repoID));
  l ←? wrapping "list reviews"
         (paged limit offset (fun s => newest_first (reviews_of_repo repoID s)));
  ok (l, total).

(** [reviews JOIN repositories JOIN org_members] *)
Definition reviews_of_user (userID : UUID) (s : Store) : list Review :=
  (where_ (fun _ rv => match s_repos s !! rv_RepoID rv with
                       | Some r => has (r_OrgID r, userID) (s_members s)
                       | None => false
                       end) (s_reviews s)).*2.

Definition Reviews_ListByUser (userID : UUID) (limit offset : Z) : DBE Store (list Review * Z) :=
  total ←? wrapping "count user reviews" (counted (reviews_of_user userID));
  l ←? wrapping "list user reviews"
         (paged limit offset (fun s => newest_first (reviews_of_user userID s)));
  ok (l, total).

Definition comment_accepted (c : ReviewComment) (s : Store) : bool :=
  has (rc_ReviewID c) (s_reviews s) && text_ok (rc_FilePath c) && int4 (rc_LineNumber c)
  && match rc_EndLine c with Some n => int4 n | None => true end && varchar 20 (rc_Severity c)
  && varchar 50 (rc_Category c) && text_ok (rc_Title c) && text_ok (rc_Body c)
  && text_ok (rc_Suggestion c).

Definition Reviews_CreateComment (now : Z) (id : UUID) (c : ReviewComment) : DBE Store unit :=
  let c := {| rc_ReviewID := rc_ReviewID c; rc_FilePath := rc_FilePath c;
              rc_LineNumber := rc_LineNumber c; rc_EndLine := rc_EndLine c;
              rc_Severity := rc_Severity c; rc_Category := rc_Category c;
              rc_Title := rc_Title c; rc_Body := rc_Body c; rc_Suggestion := rc_Suggestion c;
              rc_Posted := rc_Posted c; rc_CreatedAt := now |} in
  wrapping "create review comment" (inserting (fun s => has id (s_comments s))
    (comment_accepted c) (set_comments <[id := c]>)).

(** [ORDER BY file_path, line_number] *)
Definition before_comment (a b : ReviewComment) : bool :=
  if collates (rc_FilePath b) (rc_FilePath a)
  then collates (rc_FilePath a) (rc_FilePath b) && (rc_LineNumber a <=? rc_LineNumber b)
  else true.

Definition Reviews_ListCommentsByReview (reviewID : UUID) : DBE Store (list ReviewComment) :=
  wrapping "list review comments" (query (fun s =>
    @merge_sort ReviewComment (fun a b => before_comment a b = true)
      (fun a b => bool_eq_dec (before_comment a b) true)
      (where_ (fun _ c => (rc_ReviewID c =? reviewID)%N) (s_comments s)).*2)).

(** ** [WebhookRepository] *)

(** [json_ok]: the payload is read as JSONB. *)
Definition Webhooks_RecordEvent (json_ok : string -> bool) (now : Z) (id : UUID)
    (platform eventType payload : string) : DBE Store unit :=
  wrapping "record webhook event" (inserting (fun s => has id (s_webhooks s))
    (fun _ => varchar 50 platform && varchar 100 eventType && json_ok payload)
    (set_webhooks <[id := {| w_Platform := platform; w_EventType := eventType;
                             w_Payload := payload; w_Processed := false; w_Error := "";
                             w_CreatedAt := now |}]>)).

Definition Webhooks_MarkProcessed (id : UUID) (errMsg : string) : DBE Store unit :=
  wrapping "mark webhook processed" (guarded (fun _ => text_ok errMsg)
    (set_webhooks (alter (fun e =>
       {| w_Platform := w_Platform e; w_EventType := w_EventType e; w_Payload := w_Payload e;
          w_Processed := true; w_Error := errMsg; w_CreatedAt := w_CreatedAt e |}) id))).

(** ** [VCSPlatformRepo] *)

Definition platform_accepted (userID : UUID) (platform : string) (p : UserVCSPlatform) (s : Store)
    : bool :=
  has userID (s_users s) && varchar 50 platform && text_ok (vp_BaseURL p) && text_ok (vp_APIURL p)
  && varchar 255 (vp_Organization p) && varchar 255 (vp_Username p)
  && varchar 255 (vp_TenantID p) && varchar 255 (vp_ClientID p).

Definition Platforms_Upsert (userID : UUID) (platform : string) (p : UserVCSPlatform)
    : DBE Store unit :=
  wrapping "upsert vcs platform" (guarded (platform_accepted userID platform p)
    (set_platforms <[(userID, platform) := p]>)).

Definition Platforms_GetByUserAndPlatform (userID : UUID) (platform : string)
    : DBE Store UserVCSPlatform :=
  get_row "get vcs platform" (fun s => s_platforms s !! (userID, platform)).

Definition Platforms_ListByUser (userID : UUID) : DBE Store (list (string * UserVCSPlatform)) :=
  wrapping "list vcs platforms" (query (fun s =>
    order_by_text fst ((fun kv : UUID * string * UserVCSPlatform => (kv.1.2, kv.2)) <$>
      where_ (fun k _ => (k.1 =? userID)%N) (s_platforms s)))).

Definition Platforms_DeleteByUserAndPlatform (userID : UUID) (platform : string)
    : DBE Store unit :=
  exec_row "delete vcs platform" (fun _ => true)
    (fun s => (one_row (userID, platform) (s_platforms s),
               set_platforms (delete (userID, platform)) s)).

(** ** [AuditRepository] *)

(** An empty address is NULL; another one has to be an [INET]. *)
Definition Audit_Create `{Inet} (e : AuditEntry) : DBE Store unit :=
  guarded (fun s => match ae_UserID e with Some u => has u (s_users s) | None => true end
                    && varchar 100 (ae_Action e) && varchar 100 (ae_ResourceType e)
                    && varchar 255 (ae_ResourceID e)
                    && (String.eqb (ae_IPAddress e) "" || inet_ok (ae_IPAddress e))
                    && text_ok (ae_UserAgent e)
                    && forallb (fun kv => text_ok kv.1 && text_ok kv.2) (ae_Metadata e))
    (set_audit (fun l => l ++ [e])%list).

(** ** The tables of the quotas *)

Definition quota_view (s : Store) : QuotaDB :=
  {| usage_daily := s_usage s; repositories := r_OrgID <$> s_repos s;
     org_members := map_imap (fun k (_ : OrgMember) => Some k.1) (s_members s) |}.

End store.
