(* ===== verification/PrStore.v ===== *)
(** * Tracked pull requests ([store/pr_repo.go])

    The statements of [PullRequestRepo].  A pull request is found by its repository, platform and
    number, which are unique together; an [Upsert] of one that is there sets the columns that
    the statement names.  The trigger [trg_tracked_prs_updated_at] of [db/sql/initData.sql] sets
    [updated_at] to the time of the statement in every [UPDATE], whatever the statement says. *)

From Stdlib Require Import ZArith Lia String.
From stdpp Require Import base list gmap strings sorting pretty.
From S2P Require Import Prelude GoStrings SwarmDb Db Quota Hub Store.
Local Open Scope string_scope.
Local Open Scope rtv_scope.
Local Open Scope Z_scope.

Definition with_sync (status : string) (embeddedAt : option Z) (embedError : option string)
    (updatedAt : Z) (p : TrackedPullRequest) : TrackedPullRequest :=
  {| pr_ID := pr_ID p; pr_RepoID := pr_RepoID p; pr_Platform := pr_Platform p;
     pr_PRNumber := pr_PRNumber p; pr_ExternalID := pr_ExternalID p; pr_Title := pr_Title p;
     pr_Description := pr_Description p; pr_Author := pr_Author p;
     pr_SourceBranch := pr_SourceBranch p; pr_TargetBranch := pr_TargetBranch p;
     pr_HeadSHA := pr_HeadSHA p; pr_BaseSHA := pr_BaseSHA p; pr_PRURL := pr_PRURL p;
     pr_SyncStatus := status; pr_ReviewStatus := pr_ReviewStatus p;
     pr_LastReviewID := pr_LastReviewID p; pr_FilesChanged := pr_FilesChanged p;
     pr_Additions := pr_Additions p; pr_Deletions := pr_Deletions p;
     pr_EmbeddedAt := embeddedAt; pr_EmbedError := embedError; pr_SyncedAt := pr_SyncedAt p;
     pr_CreatedAt := pr_CreatedAt p; pr_UpdatedAt := updatedAt |}.

Definition with_review (status : string) (reviewID : option UUID) (updatedAt : Z)
    (p : TrackedPullRequest) : TrackedPullRequest :=
  {| pr_ID := pr_ID p; pr_RepoID := pr_RepoID p; pr_Platform := pr_Platform p;
     pr_PRNumber := pr_PRNumber p; pr_ExternalID := pr_ExternalID p; pr_Title := pr_Title p;
     pr_Description := pr_Description p; pr_Author := pr_Author p;
     pr_SourceBranch := pr_SourceBranch p; pr_TargetBranch := pr_TargetBranch p;
     pr_HeadSHA := pr_HeadSHA p; pr_BaseSHA := pr_BaseSHA p; pr_PRURL := pr_PRURL p;
     pr_SyncStatus := pr_SyncStatus p; pr_ReviewStatus := status;
     pr_LastReviewID := reviewID; pr_FilesChanged := pr_FilesChanged p;
     pr_Additions := pr_Additions p; pr_Deletions := pr_Deletions p;
     pr_EmbeddedAt := pr_EmbeddedAt p; pr_EmbedError := pr_EmbedError p;
     pr_SyncedAt := pr_SyncedAt p; pr_CreatedAt := pr_CreatedAt p; pr_UpdatedAt := updatedAt |}.

(** ** Upsert *)

(** The row as it is inserted: [id] is drawn where the request has none. *)
Definition to_insert (now : Z) (id : UUID) (p : TrackedPullRequest) : TrackedPullRequest :=
  {| pr_ID := if (pr_ID p =? 0)%N then id else pr_ID p; pr_RepoID := pr_RepoID p;
     pr_Platform := pr_Platform p; pr_PRNumber := pr_PRNumber p;
     pr_ExternalID := pr_ExternalID p; pr_Title := pr_Title p;
     pr_Description := pr_Description p; pr_Author := pr_Author p;
     pr_SourceBranch := pr_SourceBranch p; pr_TargetBranch := pr_TargetBranch p;
     pr_HeadSHA := pr_HeadSHA p; pr_BaseSHA := pr_BaseSHA p; pr_PRURL := pr_PRURL p;
     pr_SyncStatus := pr_SyncStatus p; pr_ReviewStatus := pr_ReviewStatus p;
     pr_LastReviewID := pr_LastReviewID p; pr_FilesChanged := pr_FilesChanged p;
     pr_Additions := pr_Additions p; pr_Deletions := pr_Deletions p;
     pr_EmbeddedAt := pr_EmbeddedAt p; pr_EmbedError := pr_EmbedError p; pr_SyncedAt := now;
     pr_CreatedAt := match pr_CreatedAt p with Some _ => pr_CreatedAt p | None => Some now end;
     pr_UpdatedAt := now |}.

Definition same_pr (p q : TrackedPullRequest) : bool :=
  (pr_RepoID p =? pr_RepoID q)%N && String.eqb (pr_Platform p) (pr_Platform q)
  && (pr_PRNumber p =? pr_PRNumber q).

Definition embed_status (status : string) : bool :=
  existsb (String.eqb status)
    [PRSyncStatusEmbedded; PRSyncStatusEmbedding; PRSyncStatusEmbedError].

(** [DO UPDATE SET]: [e] is [EXCLUDED], [p] the row that is there.  The [CASE] of [updated_at]
    is overridden by the trigger. *)
Definition on_conflict (now : Z) (e p : TrackedPullRequest) : TrackedPullRequest :=
  let moved := negb (String.eqb (pr_HeadSHA p) (pr_HeadSHA e)) in
  {| pr_ID := pr_ID p; pr_RepoID := pr_RepoID p; pr_Platform := pr_Platform p;
     pr_PRNumber := pr_PRNumber p; pr_ExternalID := pr_ExternalID e; pr_Title := pr_Title e;
     pr_Description := pr_Description e; pr_Author := pr_Author e;
     pr_SourceBranch := pr_SourceBranch e; pr_TargetBranch := pr_TargetBranch e;
     pr_HeadSHA := pr_HeadSHA e; pr_BaseSHA := pr_BaseSHA e; pr_PRURL := pr_PRURL e;
     pr_SyncStatus := if moved then pr_SyncStatus e
                      else if embed_status (pr_SyncStatus p) then pr_SyncStatus p
                      else pr_SyncStatus e;
     pr_ReviewStatus := pr_ReviewStatus p; pr_LastReviewID := pr_LastReviewID p;
     pr_FilesChanged := pr_FilesChanged e; pr_Additions := pr_Additions e;
     pr_Deletions := pr_Deletions e;
     pr_EmbeddedAt := if moved then None else pr_EmbeddedAt p;
     pr_EmbedError := pr_EmbedError p; pr_SyncedAt := pr_SyncedAt e;
     pr_CreatedAt := pr_CreatedAt p; pr_UpdatedAt := now |}.

Section prs.
Context `{Postgres} `{RowOrder} `{Collation}.

Definition pr_accepted (p : TrackedPullRequest) (s : Store) : bool :=
  has (pr_RepoID p) (s_repos s)
  && match pr_LastReviewID p with Some id => has id (s_reviews s) | None => true end
  && varchar 50 (pr_Platform p) && int4 (pr_PRNumber p) && varchar 255 (pr_ExternalID p)
  && text_ok (pr_Title p) && text_ok (pr_Description p) && varchar 255 (pr_Author p)
  && varchar 255 (pr_SourceBranch p) && varchar 255 (pr_TargetBranch p)
  && varchar 64 (pr_HeadSHA p) && varchar 64 (pr_BaseSHA p) && text_ok (pr_PRURL p)
  && varchar 30 (pr_SyncStatus p) && varchar 30 (pr_ReviewStatus p)
  && int4 (pr_FilesChanged p) && int4 (pr_Additions p) && int4 (pr_Deletions p)
  && match pr_EmbedError p with Some e => text_ok e | None => true end.

Definition conflicting (p : TrackedPullRequest) (s : Store) : list (UUID * TrackedPullRequest) :=
  List.filter (fun kv => same_pr kv.2 p) (rows (s_prs s)).

(** [INSERT ... ON CONFLICT (repo_id, platform, pr_number) DO UPDATE]: a taken identifier of
    another pull request is refused. *)
Definition upsert_row (now : Z) (p : TrackedPullRequest) (s : Store) : Store :=
  match conflicting p s with
  | [] => set_prs <[pr_ID p := p]> s
  | _ => set_prs (update_where (fun _ q => same_pr q p) (on_conflict now p)) s
  end.
Definition id_taken (p : TrackedPullRequest) (s : Store) : bool :=
  match conflicting p s with [] => has (pr_ID p) (s_prs s) | _ => false end.

Definition PRs_Upsert (now : Z) (id : UUID) (p : TrackedPullRequest) : DBE Store unit :=
  let p := to_insert now id p in
  wrapping "upsert tracked PR" (inserting (id_taken p) (pr_accepted p) (upsert_row now p)).

(** ** Reading *)

Definition PRs_GetByID (id : UUID) : DBE Store TrackedPullRequest :=
  get_row "get tracked PR" (fun s => s_prs s !! id).

Definition numbered (repoID : UUID) (prNumber : Z) (_ : UUID) (p : TrackedPullRequest) : bool :=
  (pr_RepoID p =? repoID)%N && (pr_PRNumber p =? prNumber).

Definition PRs_GetByRepoAndNumber (repoID : UUID) (prNumber : Z) : DBE Store TrackedPullRequest :=
  get_row "get tracked PR by number" (fun s =>
    snd <$> head (where_ (numbered repoID prNumber) (s_prs s))).

(** The conditions after [repo_id = $1], each with its argument. *)
Definition filter_conditions (f : PRListFilter) : list (string * string) :=
  (match f_SyncStatus f with Some v => [("sync_status", v)] | None => [] end
   ++ match f_ReviewStatus f with Some v => [("review_status", v)] | None => [] end
   ++ (if String.eqb (f_Author f) "" then [] else [("author", f_Author f)])
   ++ (if String.eqb (f_TargetBranch f) "" then [] else [("target_branch", f_TargetBranch f)]))%list.

(** [fmt.Sprintf("... = $%d", idx)] *)
Fixpoint placeholders (idx : Z) (conditions : list (string * string)) : list string :=
  match conditions with
  | [] => []
  | (column, _) :: l => (column ++ " = $" ++ itoa idx) :: placeholders (idx + 1) l
  end.

Definition buildFilterClause (f : PRListFilter) : string * list string :=
  ("WHERE " ++ String.concat " AND " ("repo_id = $1" :: placeholders 2 (filter_conditions f)),
   snd <$> filter_conditions f).

Definition column (name : string) (p : TrackedPullRequest) : string :=
  if String.eqb name "sync_status" then pr_SyncStatus p
  else if String.eqb name "review_status" then pr_ReviewStatus p
  else if String.eqb name "author" then pr_Author p
  else pr_TargetBranch p.

(** The rows of the clause. *)
Definition satisfies (repoID : UUID) (f : PRListFilter) (_ : UUID) (p : TrackedPullRequest) : bool :=
  (pr_RepoID p =? repoID)%N
  && forallb (fun c => String.eqb (column c.1 p) c.2) (filter_conditions f).

Definition latest_first (l : list TrackedPullRequest) : list TrackedPullRequest :=
  order_by (fun p => - pr_UpdatedAt p) l.

Definition PRs_ListByRepo (repoID : UUID) (f : PRListFilter) (limit offset : Z)
    : DBE Store (list TrackedPullRequest * Z) :=
  total ←? wrapping "count tracked PRs"
             (counted (fun s => where_ (satisfies repoID f) (s_prs s)));
  l ←? wrapping "list tracked PRs" (paged limit offset (fun s =>
         latest_first (where_ (satisfies repoID f) (s_prs s)).*2));
  ok (l, total).

Definition due (_ : UUID) (p : TrackedPullRequest) : bool :=
  String.eqb (pr_SyncStatus p) PRSyncStatusOpen
  && match pr_EmbeddedAt p with Some t => t <? pr_UpdatedAt p | None => true end.

Definition PRs_ListNeedingEmbedding (limit : Z) : DBE Store (list TrackedPullRequest) :=
  wrapping "list PRs needing embedding" (paged limit 0 (fun s =>
    latest_first (where_ due (s_prs s)).*2)).

(** Counts by status, where the row order gives the order of the groups. *)
Definition PRs_CountByRepo (repoID : UUID) : DBE Store (gmap string Z) :=
  wrapping "count PRs by repo" (query (fun s =>
    foldr (fun kv m => <[pr_SyncStatus kv.2 := default 0 (m !! pr_SyncStatus kv.2) + 1]> m) ∅
      (where_ (fun _ p => (pr_RepoID p =? repoID)%N) (s_prs s)))).

Definition PRs_CountEmbedQueue (repoID : UUID) : DBE Store Z :=
  wrapping "count embed queue" (counted (fun s =>
    where_ (fun k p => (pr_RepoID p =? repoID)%N && due k p) (s_prs s))).

(** ** Writing *)

Definition update_pr (what : string) (id : UUID) (accepts : bool)
    (f : TrackedPullRequest -> TrackedPullRequest) : DBE Store unit :=
  exec_row what (fun _ => accepts)
    (fun s => (affected id (s_prs s), set_prs (alter f id) s)).

Definition PRs_UpdateSyncStatus (now : Z) (id : UUID) (status : string) : DBE Store unit :=
  update_pr "update PR sync status" id (varchar 30 status)
    (fun p => with_sync status (pr_EmbeddedAt p) (pr_EmbedError p) now p).

Definition PRs_UpdateReviewStatus (now : Z) (id : UUID) (status : string)
    (reviewID : option UUID) : DBE Store unit :=
  exec_row "update PR review status"
    (fun s => varchar 30 status
              && match reviewID with
                 | Some r => has r (s_reviews s) || negb (has id (s_prs s))
                 | None => true
                 end)
    (fun s => (affected id (s_prs s), set_prs (alter (with_review status reviewID now) id) s)).

Definition PRs_MarkEmbedded (now : Z) (id : UUID) : DBE Store unit :=
  update_pr "mark PR embedded" id (varchar 30 PRSyncStatusEmbedded)
    (fun p => with_sync PRSyncStatusEmbedded (Some now) None now p).

Definition PRs_MarkEmbedError (now : Z) (id : UUID) (embedErr : string) : DBE Store unit :=
  update_pr "mark PR embed error" id (varchar 30 PRSyncStatusEmbedError && text_ok embedErr)
    (fun p => with_sync PRSyncStatusEmbedError (pr_EmbeddedAt p) (Some embedErr) now p).

Definition forgotten (repoID : UUID) (cutoff : Z) (_ : UUID) (p : TrackedPullRequest) : bool :=
  (pr_RepoID p =? repoID)%N && String.eqb (pr_SyncStatus p) PRSyncStatusOpen
  && (pr_SyncedAt p <? cutoff).

Definition PRs_MarkStaleBefore (now : Z) (repoID : UUID) (cutoff : Z) : DBE Store Z :=
  wrapping "mark stale PRs" (checked (fun _ => varchar 30 PRSyncStatusStale) (fun s =>
    (count_where (forgotten repoID cutoff) (s_prs s),
     set_prs (update_where (forgotten repoID cutoff)
       (fun p => with_sync PRSyncStatusStale (pr_EmbeddedAt p) (pr_EmbedError p) now p)) s))).

Definition PRs_DeleteByRepo (repoID : UUID) : DBE Store unit :=
  wrapping "delete tracked PRs" (statement (set_prs
    (delete_where (fun _ p => (pr_RepoID p =? repoID)%N)))).

End prs.
