(* ===== verification/Vcs.v ===== *)
(** * Source hosts and their credentials ([vcs/platform.go], [resolver.go], [factory.go])

    The client of a host is the interface [Platform] of the source: a class of its calls, each
    made with the credentials the client was built from.  [main.go] imports the four clients, so
    every known platform has its factory.  The vault and HMAC-SHA256 are parameters. *)

From Stdlib Require Import ZArith Lia String.
From stdpp Require Import base list gmap strings sorting.
From S2P Require Import Prelude GoStrings SwarmDb Db Quota Hub Store.
Local Open Scope string_scope.
Local Open Scope rtv_scope.
Local Open Scope Z_scope.

Definition PlatformGitHub := "github".
Definition PlatformGitLab := "gitlab".
Definition PlatformBitbucket := "bitbucket".
Definition PlatformAzureDevOps := "azure_devops".

Record PullRequest := {
  p_ID : string;
  p_Number : Z;
  p_Title : string;
  p_Description : string;
  p_Author : string;
  p_SourceBranch : string;
  p_TargetBranch : string;
  p_State : string;
  p_URL : string;
  p_HeadSHA : string;
  p_BaseSHA : string;
  p_Draft : bool
}.

Record DiffFile := {
  df_Filename : string;
  df_Status : string;
  df_Additions : Z;
  df_Deletions : Z;
  df_Patch : string
}.

Record ReviewCommentRequest := {
  cm_Body : string;
  cm_Path : string;
  cm_Line : Z;
  cm_Side : string;
  cm_CommitID : string
}.

Record ResolvedCreds := {
  cr_Platform : string;
  cr_Token : string;
  cr_WebhookSecret : string;
  cr_BaseURL : string;
  cr_APIURL : string;
  cr_Organization : string;
  cr_Username : string
}.

(** The calls of the interface that the server's own logic depends on. *)
Class Platform := {
  GetPullRequest : ResolvedCreds -> string -> string -> Z -> result PullRequest string;
  ListOpenPullRequests : ResolvedCreds -> string -> string -> Z -> result (list PullRequest) string;
  GetPullRequestDiff : ResolvedCreds -> string -> string -> Z -> result (list DiffFile) string;
  PostReviewComment : ResolvedCreds -> string -> string -> Z -> ReviewCommentRequest -> option string;
  PostReviewSummary : ResolvedCreds -> string -> string -> Z -> string -> option string
}.

(** [GetScoped] of the vault: the secret of the owner of a vault token. *)
Class VaultReader := { GetScoped : string -> string -> result string string }.

(** [hex.EncodeToString] of HMAC-SHA256 of a payload under a key. *)
Class WebhookMac := { hmac_hex : string -> string -> string }.

Definition or_empty (r : result string string) : string :=
  match r with Ok s => s | Err _ => "" end.

(** ** Webhook validation *)

Definition TrimPrefix (s prefix : string) : string :=
  if HasPrefix s prefix then str_drop (String.length prefix) s else s.

Definition ValidateWebhookHMAC `{WebhookMac} (payload signature secret : string) : bool :=
  if String.eqb secret "" then true
  else
    let sig := TrimPrefix signature "sha256=" in
    let expected := hmac_hex secret payload in
    String.eqb sig expected.

Definition ValidateWebhookToken (token secret : string) : bool :=
  if String.eqb secret "" then true else String.eqb token secret.

Section resolver.
Context `{Postgres} `{RowOrder} `{Collation} `{UuidText} `{VaultReader}.

(** [users JOIN org_members ... WHERE role = 'owner' LIMIT 1] *)
Definition owners (orgID : UUID) (s : Store) : list User :=
  omap (fun kv : UUID * UUID * OrgMember => s_users s !! kv.1.2)
    (where_ (fun k m => (k.1 =? orgID)%N && String.eqb (m_Role m) "owner") (s_members s)).

Definition token_key (platform : string) : string :=
  if String.eqb platform PlatformAzureDevOps then "vcs.azure_devops.pat"
  else "vcs." ++ platform ++ ".token".

Definition no_platform_config : UserVCSPlatform :=
  {| vp_BaseURL := ""; vp_APIURL := ""; vp_Organization := ""; vp_Username := "";
     vp_TenantID := ""; vp_ClientID := "" |}.

Definition resolveOrgOwnerCreds (orgID : UUID) (platform : string) : DBE Store ResolvedCreds :=
  owner ←? wrapping "vcs resolver: org owner lookup"
             (query_row (fun s => head (owners orgID s)));
  if String.eqb (u_VaultToken owner) ""
  then fail ("vcs resolver: org owner " ++ uuid_String (u_ID owner) ++ " has no vault token")
  else
  let token := or_empty (GetScoped (u_VaultToken owner) (token_key platform)) in
  let secret := or_empty (GetScoped (u_VaultToken owner)
                            ("vcs." ++ platform ++ ".webhook_secret")) in
  query_row (fun s => s_platforms s !! (u_ID owner, platform)) ≫=
    fun r : result UserVCSPlatform string =>
  let config := match r with Ok c => c | Err _ => no_platform_config end in
  ok {| cr_Platform := platform; cr_Token := token; cr_WebhookSecret := secret;
        cr_BaseURL := vp_BaseURL config; cr_APIURL := vp_APIURL config;
        cr_Organization := vp_Organization config; cr_Username := vp_Username config |}.

Definition buildClient (creds : ResolvedCreds) : result ResolvedCreds string :=
  if existsb (String.eqb (cr_Platform creds))
       [PlatformGitHub; PlatformGitLab; PlatformBitbucket; PlatformAzureDevOps]
  then Ok creds
  else Err ("vcs resolver: unsupported platform: " ++ cr_Platform creds).

Definition set_webhook_secret (secret : string) (c : ResolvedCreds) : ResolvedCreds :=
  {| cr_Platform := cr_Platform c; cr_Token := cr_Token c; cr_WebhookSecret := secret;
     cr_BaseURL := cr_BaseURL c; cr_APIURL := cr_APIURL c;
     cr_Organization := cr_Organization c; cr_Username := cr_Username c |}.

Definition ForRepoDirect (orgID : UUID) (platform webhookSecret : string)
    : DBE Store ResolvedCreds :=
  creds ←? resolveOrgOwnerCreds orgID platform;
  mret (buildClient (set_webhook_secret webhookSecret creds)).

Definition ForRepo (repoID : UUID) : DBE Store ResolvedCreds :=
  repo ←? wrapping "vcs resolver: repo lookup" (query_row (fun s => s_repos s !! repoID));
  creds ←? resolveOrgOwnerCreds (r_OrgID repo) (r_Platform repo);
  mret (buildClient (set_webhook_secret (r_WebhookSecret repo) creds)).

Definition ResolveRepoWebhookSecret (platform externalID : string) : DB Store string :=
  query_row (fun s => snd <$> head (where_ (fun _ r =>
    String.eqb (r_Platform r) platform && String.eqb (r_ExternalID r) externalID) (s_repos s)))
  ≫= fun r : result Repository string =>
  mret match r with Ok repo => r_WebhookSecret repo | Err _ => "" end.

Definition ResolveWebhookSecretForOrg (orgID : UUID) (platform : string) : DB Store string :=
  resolveOrgOwnerCreds orgID platform ≫= fun r : result ResolvedCreds string =>
  mret match r with Ok creds => cr_WebhookSecret creds | Err _ => "" end.

(** The resolver reads only. *)
Lemma stays_resolve I orgID platform : stays I (resolveOrgOwnerCreds orgID platform).
Proof. unfold resolveOrgOwnerCreds. stay. Qed.
Lemma stays_for_repo_direct I orgID platform secret : stays I (ForRepoDirect orgID platform secret).
Proof. unfold ForRepoDirect. stay. apply stays_resolve. Qed.
Lemma stays_for_repo I repoID : stays I (ForRepo repoID).
Proof. unfold ForRepo. stay. apply stays_resolve. Qed.
Lemma stays_org_secret I orgID platform : stays I (ResolveWebhookSecretForOrg orgID platform).
Proof. unfold ResolveWebhookSecretForOrg. stay. apply stays_resolve. Qed.

End resolver.

#[export] Hint Resolve stays_resolve stays_for_repo_direct stays_for_repo stays_org_secret : stays.
