(* ===== verification/EngineClient.v ===== *)
(** * The client of the engine ([engine/client.go])

    What the review pipeline, the synchronisation of pull requests, search and indexing ask of
    the C++ engine.  The stub of the service is a parameter: every call has an answer, or an
    error with a status; a stream is the messages it delivers and the error that ends it.
    Wrapping an error keeps its status.  The cache of [SearchCached] maps keys to results with a
    time of expiry; calls that share a flight are one call.  Messages of the stub are given in
    the types of the client, since the converters copy field by field. *)

From Stdlib Require Import ZArith Lia String.
From stdpp Require Import base list gmap strings.
From S2P Require Import Prelude GoStrings SwarmDb Db Sandbox.
Local Open Scope string_scope.
Local Open Scope Z_scope.

(** An error of a call: its status, if it has one, and its text. *)
Inductive Code := Unimplemented | NotFound | OtherCode.
Record EngineError := { ee_Code : option Code; ee_Text : string }.

Definition wrap_error (p : string) (e : EngineError) : EngineError :=
  {| ee_Code := ee_Code e; ee_Text := p ++ ": " ++ ee_Text e |}.
Definition plain_error (text : string) : EngineError := {| ee_Code := None; ee_Text := text |}.
Definition has_code (c : Code) (e : EngineError) : bool :=
  match c, ee_Code e with
  | Unimplemented, Some Unimplemented | NotFound, Some NotFound => true
  | _, _ => false
  end.

Record ContextChunk := {
  ch_ID : string;
  ch_FilePath : string;
  ch_StartLine : Z;
  ch_EndLine : Z;
  ch_Content : string;
  ch_Language : string;
  ch_Symbols : list string;
  ch_ChunkType : string
}.

Record TouchedSymbol := {
  ts_Name : string;
  ts_QualifiedName : string;
  ts_Kind : string;
  ts_FilePath : string;
  ts_Line : Z;
  ts_ChangeType : string;
  ts_EndLine : Z;
  ts_Callers : list string;
  ts_Callees : list string
}.

Record ContextPack := {
  cp_RepoID : string;
  cp_PRTitle : string;
  cp_PRDescription : string;
  cp_Diff : string;
  cp_ContextChunks : list ContextChunk;
  cp_TouchedSymbols : list TouchedSymbol;
  cp_HeuristicWarnings : list string;
  cp_TotalTokensEstimate : Z
}.

Record PREmbedProgressUpdate := {
  pu_RepoID : string;
  pu_PRNumber : Z;
  pu_Progress : Z;
  pu_Phase : string;
  pu_FilesProcessed : Z;
  pu_FilesTotal : Z;
  pu_CurrentFile : string;
  pu_ETASeconds : Z;
  pu_Done : bool;
  pu_Success : bool;
  pu_Error : string;
  pu_ContextPack : option ContextPack
}.

Record HeuristicFinding := {
  hf_ID : string;
  hf_Category : string;
  hf_Severity : string;
  hf_FilePath : string;
  hf_Line : Z;
  hf_EndLine : Z;
  hf_Message : string;
  hf_Suggestion : string;
  hf_Evidence : string;
  hf_RuleID : string;
  hf_RuleName : string
}.

Record ReviewContextRequest := {
  q_RepoID : string;
  q_Diff : string;
  q_PRTitle : string;
  q_PRDescription : string;
  q_MaxContextChunks : Z
}.

Record SearchConfig := {
  sc_TopK : Z;
  sc_GraphExpandDepth : Z;
  sc_FileFilters : list string;
  sc_LanguageFilters : list string
}.

Record IndexStats := {
  is_RepoID : string;
  is_IndexVersion : string;
  is_TotalFiles : Z;
  is_IndexedFiles : Z;
  is_TotalChunks : Z;
  is_TotalSymbols : Z;
  is_IsComplete : bool
}.

Record IndexProgressUpdate := {
  iu_RepoID : string;
  iu_Progress : Z;
  iu_Phase : string;
  iu_FilesProcessed : Z;
  iu_FilesTotal : Z;
  iu_CurrentFile : string;
  iu_ETASeconds : Z;
  iu_Done : bool;
  iu_Success : bool;
  iu_Error : string;
  iu_FinalStats : option IndexStats
}.

Record IndexResult := {
  ir_Success : bool;
  ir_Message : string;
  ir_Stats : option IndexStats
}.

(** A server stream: it does not start, or delivers messages and ends with an error. *)
Definition Stream (A : Type) : Type := result (list A * EngineError) EngineError.

Class EngineStub := {
  stub_BuildReviewContext : ReviewContextRequest -> result (option ContextPack) EngineError;
  stub_BuildReviewContextStream : ReviewContextRequest -> Stream PREmbedProgressUpdate;
  stub_RunHeuristics : string -> list string -> result (list HeuristicFinding) EngineError;
  stub_Search : string -> string -> list string -> SearchConfig ->
                result (list ContextChunk) EngineError;
  stub_GetIndexStats : string -> result (option (option IndexStats)) EngineError;
  stub_DeleteIndex : string -> result (bool * string) EngineError
}.

(** ** Context of a review *)

Section client.
Context `{EngineStub}.

Definition BuildReviewContext (q : ReviewContextRequest) : result ContextPack EngineError :=
  match stub_BuildReviewContext q with
  | Err e => Err (wrap_error "build review context" e)
  | Ok None => Err (plain_error "engine returned nil context pack")
  | Ok (Some pack) => Ok pack
  end.

(** The loop over [stream.Recv]: the updates handed to the callback, and the result. *)
Fixpoint recv (q : ReviewContextRequest) (last_done : bool) (msgs : list PREmbedProgressUpdate)
    (final : EngineError) : list PREmbedProgressUpdate * result ContextPack EngineError :=
  match msgs with
  | [] =>
      ([], if has_code Unimplemented final then BuildReviewContext q
           else if last_done then Err (plain_error "embed stream ended unexpectedly")
           else Err (wrap_error "embed stream recv" final))
  | u :: msgs =>
      match pu_Done u, pu_Success u, pu_ContextPack u with
      | true, true, Some pack => ([u], Ok pack)
      | true, false, _ => ([u], Err (plain_error ("engine PR embedding failed: " ++ pu_Error u)))
      | _, _, _ => let '(seen, r) := recv q (pu_Done u) msgs final in (u :: seen, r)
      end
  end.

Definition BuildReviewContextStream (q : ReviewContextRequest)
    : list PREmbedProgressUpdate * result ContextPack EngineError :=
  match stub_BuildReviewContextStream q with
  | Err e => ([], if has_code Unimplemented e then BuildReviewContext q
                  else Err (wrap_error "build review context stream" e))
  | Ok (msgs, final) => recv q false msgs final
  end.

Definition RunHeuristics (diff : string) (enabledChecks : list string)
    : result (list HeuristicFinding) EngineError :=
  match stub_RunHeuristics diff enabledChecks with
  | Err e => Err (wrap_error "run heuristics" e)
  | Ok findings => Ok findings
  end.

(** ** Indexes *)

Definition GetIndexStats (repoID : string) : result (option IndexStats) EngineError :=
  match stub_GetIndexStats repoID with
  | Err e => if has_code NotFound e then Ok None else Err (wrap_error "get index stats" e)
  | Ok None => Ok None
  | Ok (Some stats) => Ok stats
  end.

Definition DeleteIndex (repoID : string) : result unit EngineError :=
  match stub_DeleteIndex repoID with
  | Err e => Err (wrap_error "delete index" e)
  | Ok (success, message) =>
      if success then Ok tt
      else Err (plain_error ("engine refused to delete index: " ++ message))
  end.

(** The loop of [IndexRepositoryStream]: the updates, the result and the error. *)
Fixpoint index_recv (last_done : bool) (msgs : list IndexProgressUpdate) (final : EngineError)
    : list IndexProgressUpdate * (option IndexResult * option EngineError) :=
  match msgs with
  | [] =>
      ([], if last_done
           then (Some {| ir_Success := false; ir_Message := "stream ended unexpectedly";
                         ir_Stats := None |},
                 Some (plain_error "index stream ended unexpectedly"))
           else (None, Some (wrap_error "index stream recv" final)))
  | u :: msgs =>
      if iu_Done u then
        ([u], if iu_Success u
              then (Some {| ir_Success := true; ir_Message := "Index completed successfully";
                            ir_Stats := iu_FinalStats u |}, None)
              else (Some {| ir_Success := false; ir_Message := iu_Error u; ir_Stats := None |},
                    Some (plain_error ("engine indexing failed: " ++ iu_Error u))))
      else let '(seen, r) := index_recv false msgs final in (u :: seen, r)
  end.

Definition IndexRepositoryStream (stream : Stream IndexProgressUpdate)
    : list IndexProgressUpdate * (option IndexResult * option EngineError) :=
  match stream with
  | Err e => ([], (None, Some (wrap_error "index repository stream" e)))
  | Ok (msgs, final) => index_recv false msgs final
  end.

(** ** Search *)

Definition SearchCacheTTL : Z := 60 * second.

Definition Search (repoID query : string) (touchedSymbols : list string) (cfg : SearchConfig)
    : result (list ContextChunk) EngineError :=
  match stub_Search repoID query touchedSymbols cfg with
  | Err e => Err (wrap_error "search" e)
  | Ok chunks => Ok chunks
  end.

(** The first 128 bits of SHA-256 in hexadecimal. *)
Definition searchCacheKey `{Digest} (repoID query : string) : string :=
  str_take 32 (sha256_hex (repoID ++ String (Ascii.ascii_of_nat 0) query)).

Definition Cache : Type := gmap string (list ContextChunk * Z).

Definition SearchCached `{Digest} (now : Z) (repoID query : string) (touchedSymbols : list string)
    (cfg : SearchConfig) (cache : Cache) : result (list ContextChunk) EngineError * Cache :=
  let key := searchCacheKey repoID query in
  let fetch (cache : Cache) :=
    match Search repoID query touchedSymbols cfg with
    | Err e => (Err e, cache)
    | Ok chunks => (Ok chunks, <[key := (chunks, now + SearchCacheTTL)]> cache)
    end in
  match cache !! key with
  | Some (chunks, expiresAt) => if now <? expiresAt then (Ok chunks, cache)
                                else fetch (delete key cache)
  | None => fetch cache
  end.

End client.
