(* ===== verification/PrSync.v ===== *)
(** * Synchronisation of pull requests ([prsync/worker.go])

    A cycle of the worker lists all repositories and, for each, the open pull requests of its
    host, which are stored ([syncRepo]); another one sends the diffs of pull requests that are
    due to the engine ([embedPendingPRs]).  Each repository is synchronised by its own
    goroutine, here one after the other; [embedPR] is split where its goroutine waits for the
    host ([embed_diff]), so that statements of others can come between.  The time of the
    statements, the identifiers drawn and the answers of the host and the engine are parameters.
    Timers, panics and the semaphore are left out. *)

From Stdlib Require Import ZArith Lia Ascii String.
From stdpp Require Import base list gmap strings sorting.
From S2P Require Import Prelude GoStrings SwarmDb Db GoFloat Quota Hub Store PrStore Vcs.
From S2P Require Import EngineClient.
Local Open Scope string_scope.
Local Open Scope rtv_scope.
Local Open Scope Z_scope.

Record SyncConfig := {
  MaxPRsPerRepo : Z;
  MaxConcurrentSyncs : Z;
  MaxEmbedBatchSize : Z;
  StaleAfter : Z;
  EnableEmbedding : bool
}.

Definition DefaultConfig : SyncConfig :=
  {| MaxPRsPerRepo := 200; MaxConcurrentSyncs := 4; MaxEmbedBatchSize := 10;
     StaleAfter := 24 * 60 * minute; EnableEmbedding := true |}.

(** [truncateString]: cut after [maxLen] bytes. *)
Definition truncateString (s : string) (maxLen : nat) : string :=
  if (String.length s <=? maxLen)%nat then s else str_take maxLen s.

(** The row of a pull request that the host lists. *)
Definition tracked (repo : Repository) (pr : PullRequest) : TrackedPullRequest :=
  {| pr_ID := 0%N; pr_RepoID := r_ID repo; pr_Platform := r_Platform repo;
     pr_PRNumber := p_Number pr; pr_ExternalID := p_ID pr; pr_Title := p_Title pr;
     pr_Description := truncateString (p_Description pr) 10000; pr_Author := p_Author pr;
     pr_SourceBranch := p_SourceBranch pr; pr_TargetBranch := p_TargetBranch pr;
     pr_HeadSHA := p_HeadSHA pr; pr_BaseSHA := p_BaseSHA pr; pr_PRURL := p_URL pr;
     pr_SyncStatus := if p_Draft pr then PRSyncStatusDraft else PRSyncStatusOpen;
     pr_ReviewStatus := PRReviewNone; pr_LastReviewID := None; pr_FilesChanged := 0;
     pr_Additions := 0; pr_Deletions := 0; pr_EmbeddedAt := None; pr_EmbedError := None;
     pr_SyncedAt := 0; pr_CreatedAt := None; pr_UpdatedAt := 0 |}.

(** ** Listing the repositories *)

(** One batch: rows of the same name come in an order of the query's own. *)
Definition listReposBatch `{Collation} (order : RowOrder) (limit offset : Z)
    : DBE Store (list Repository) :=
  wrapping "list all repos" (paged limit offset (fun s =>
    order_by_text r_Name (@row_order order _ (rows (s_repos s)).*2))).

Definition batchSize : Z := 100.

(** [orders i] is the order of the [i]th batch.  [None]: the fuel is used up. *)
Fixpoint list_batches `{Collation} (orders : nat -> RowOrder) (fuel i : nat) (offset : Z)
    (all : list Repository) : DBE Store (option (list Repository)) :=
  match fuel with
  | O => ok None
  | S fuel =>
      repos ←? listReposBatch (orders i) batchSize offset;
      let all := (all ++ repos)%list in
      if Z.of_nat (List.length repos) <? batchSize then ok (Some all)
      else list_batches orders fuel (S i) (offset + batchSize) all
  end.
Definition listAllRepos `{Collation} (orders : nat -> RowOrder) (fuel : nat)
    : DBE Store (option (list Repository)) := list_batches orders fuel 0 0 [].

Section worker.
Context `{Postgres} `{RowOrder} `{Collation} `{UuidText} `{VaultReader} `{Platform} `{EngineStub}.

(** [wsHub != nil] and [engineClient != nil]. *)
Variables (hub engine : bool).
Variable cfg : SyncConfig.

(** ** Discovery *)

(** [ids] are the identifiers drawn, one for each pull request. *)
Fixpoint upsert_all (now : Z) (ids : nat -> UUID) (i : nat) (repo : Repository)
    (prs : list PullRequest) : DB Store unit :=
  match prs with
  | [] => mret tt
  | pr :: prs => ignoring (PRs_Upsert now (ids i) (tracked repo pr));;
                 upsert_all now ids (S i) repo prs
  end.

Definition syncRepo (now : Z) (ids : nat -> UUID) (repo : Repository) : DB Store unit :=
  c ← ForRepoDirect (r_OrgID repo) (r_Platform repo) (r_WebhookSecret repo);
  match c with
  | Err _ => mret tt
  | Ok creds =>
      match ListOpenPullRequests creds (r_Owner repo) (r_Name repo) (MaxPRsPerRepo cfg) with
      | Err _ => mret tt
      | Ok openPRs =>
          upsert_all now ids 0 repo openPRs;;
          if 0 <? StaleAfter cfg
          then ignoring (PRs_MarkStaleBefore now (r_ID repo) (now - StaleAfter cfg))
          else mret tt
      end
  end.

(** The goroutines of a cycle, one after the other; [ids] are given for each repository. *)
Fixpoint sync_each (now : Z) (ids : nat -> nat -> UUID) (i : nat) (repos : list Repository)
    : DB Store unit :=
  match repos with
  | [] => mret tt
  | repo :: repos => syncRepo now (ids i) repo;; sync_each now ids (S i) repos
  end.

Definition syncAllRepos (now : Z) (orders : nat -> RowOrder) (fuel : nat)
    (ids : nat -> nat -> UUID) : DB Store unit :=
  r ← listAllRepos orders fuel;
  match r with
  | Ok (Some repos) => sync_each now ids 0 repos
  | _ => mret tt
  end.

Definition SyncSingleRepo (now : Z) (ids : nat -> UUID) (repoID : UUID) : DBE Store unit :=
  repo ←? wrapping "repo not found" (Repos_GetByID repoID);
  syncRepo now ids repo;; ok tt.

(** ** Embedding *)

Definition broadcastEmbedProgress (repoID : string) (prNumber : Z) (prID state : string)
    (progress : Z) (phase currentFile : string) (filesProcessed filesTotal etaSeconds : Z)
    (errMsg : string) : DB Store unit :=
  if hub then act (AEmbed repoID
    {| me_Type := ""; me_RepoID := ""; me_PRNumber := prNumber; me_PRID := prID;
       me_State := state; me_Progress := progress; me_Phase := phase; me_Message := "";
       me_FilesProcessed := filesProcessed; me_FilesTotal := filesTotal;
       me_CurrentFile := currentFile; me_ETASeconds := etaSeconds; me_Error := errMsg;
       me_Timestamp := None |})
  else mret tt.

(** The broadcast of one pull request. *)
Definition progress (pr : TrackedPullRequest) (state : string) (percent : Z)
    (phase currentFile : string) (filesProcessed filesTotal etaSeconds : Z) (errMsg : string)
    : DB Store unit :=
  broadcastEmbedProgress (uuid_String (pr_RepoID pr)) (pr_PRNumber pr) (uuid_String (pr_ID pr))
    state percent phase currentFile filesProcessed filesTotal etaSeconds errMsg.

Definition diff_text (f : DiffFile) : string :=
  "--- a/" ++ df_Filename f ++ String "010"%char ("+++ b/" ++ df_Filename f ++ String "010"%char
  (df_Patch f ++ String "010"%char "")).
Definition combined_diff (files : list DiffFile) : string := String.concat "" (diff_text <$> files).

(** [10 + int(float64(i+1)/float64(filesTotal)*20)] *)
Definition parse_percent (i total : Z) : Z :=
  10 + to_int (fmul (fdiv (of_int (i + 1)) (of_int total)) (of_int 20)).

Fixpoint parse_progress (pr : TrackedPullRequest) (i total : Z) (files : list DiffFile)
    : DB Store unit :=
  match files with
  | [] => mret tt
  | f :: files =>
      progress pr "embedding" (parse_percent i total) "parsing_diff" (df_Filename f)
        (i + 1) total (-1) "";;
      parse_progress pr (i + 1) total files
  end.

(** The callback of [BuildReviewContextStream]. *)
Definition on_update (pr : TrackedPullRequest) (u : PREmbedProgressUpdate) : DB Store unit :=
  let mapped := 30 + to_int (fmul (of_int (pu_Progress u)) (lit 6 10)) in
  let state := if pu_Done u then (if pu_Success u then "completed" else "failed")
               else "embedding" in
  progress pr state (if pu_Done u && pu_Success u then 95 else mapped) (pu_Phase u)
    (pu_CurrentFile u) (pu_FilesProcessed u) (pu_FilesTotal u) (pu_ETASeconds u) (pu_Error u).

(** The end of [embedPR]; [pr] keeps the statistics in memory only. *)
Definition embed_finish (now : Z) (pr : TrackedPullRequest) (files : list DiffFile)
    : DB Store bool :=
  let total := Z.of_nat (List.length files) in
  let additions := fold_left (fun n f => wrap64 (n + df_Additions f)) files 0 in
  let deletions := fold_left (fun n f => wrap64 (n + df_Deletions f)) files 0 in
  ignoring (PRs_MarkEmbedded now (pr_ID pr));;
  progress pr "completed" 100 "finalizing"
    ("Embedded " ++ itoa total ++ " files (+" ++ itoa additions ++ "/-" ++ itoa deletions ++ ")")
    total total 0 "";;
  mret false.

(** What follows the mark: the diff is fetched and sent.  The result says that the engine does
    not support the call. *)
Definition embed_diff (now : Z) (pr : TrackedPullRequest) (repo : Repository)
    (creds : ResolvedCreds) : DB Store bool :=
  progress pr "embedding" 10 "fetching_diff" "Fetching diff from VCS" 0 0 (-1) "";;
  match GetPullRequestDiff creds (r_Owner repo) (r_Name repo) (pr_PRNumber pr) with
  | Err e =>
      let errMsg := "failed to fetch diff: " ++ e in
      ignoring (PRs_MarkEmbedError now (pr_ID pr) errMsg);;
      progress pr "failed" 0 "fetching_diff" "" 0 0 (-1) errMsg;;
      mret false
  | Ok files =>
      let total := Z.of_nat (List.length files) in
      parse_progress pr 0 total files;;
      progress pr "embedding" 30 "embedding_chunks" "Sending to engine for embedding"
        0 total (-1) "";;
      if negb engine then embed_finish now pr files
      else
      let q := {| q_RepoID := uuid_String (r_ID repo); q_Diff := combined_diff files;
                  q_PRTitle := pr_Title pr; q_PRDescription := pr_Description pr;
                  q_MaxContextChunks := 50 |} in
      act (AContext (q_RepoID q) (q_Diff q) (q_PRTitle q) (q_PRDescription q));;
      let '(updates, r) := BuildReviewContextStream q in
      every updates (on_update pr);;
      match r with
      | Ok _ => embed_finish now pr files
      | Err e =>
          if has_code Unimplemented e then
            ignoring (PRs_UpdateSyncStatus now (pr_ID pr) PRSyncStatusOpen);;
            progress pr "completed" 0 "skipped" "Engine embedding not available yet"
              0 total (-1) "";;
            mret true
          else
            let errMsg := "engine BuildReviewContext failed: " ++ ee_Text e in
            ignoring (PRs_MarkEmbedError now (pr_ID pr) errMsg);;
            progress pr "failed" 0 "embedding_chunks" "" 0 total (-1) errMsg;;
            mret false
      end
  end.

(** Up to the mark: the repository and the client, unless something failed. *)
Definition embed_begin (now : Z) (pr : TrackedPullRequest)
    : DB Store (option (Repository * ResolvedCreds)) :=
  r ← Repos_GetByID (pr_RepoID pr);
  match r with
  | Err _ => mret None
  | Ok repo =>
      c ← ForRepoDirect (r_OrgID repo) (r_Platform repo) (r_WebhookSecret repo);
      match c with
      | Err _ => mret None
      | Ok creds =>
          progress pr "embedding" 0 "fetching_diff" "" 0 0 (-1) "";;
          u ← PRs_UpdateSyncStatus now (pr_ID pr) PRSyncStatusEmbedding;
          mret match u with Ok _ => Some (repo, creds) | Err _ => None end
      end
  end.

Definition embedPR (start finish : Z) (pr : TrackedPullRequest) : DB Store bool :=
  b ← embed_begin start pr;
  match b with
  | Some (repo, creds) => embed_diff finish pr repo creds
  | None => mret false
  end.

(** [cancelled i]: the context is cancelled before the [i]th pull request. *)
Fixpoint embed_batch (cancelled : nat -> bool) (times : nat -> Z * Z) (i : nat)
    (prs : list TrackedPullRequest) (unsupported : bool) : DB Store bool :=
  match prs with
  | [] => mret unsupported
  | pr :: prs =>
      if cancelled i then mret unsupported
      else u ← embedPR (times i).1 (times i).2 pr;
           embed_batch cancelled times (S i) prs (unsupported || u)
  end.

(** The flag [embedUnsupported] goes in and comes out. *)
Definition embedPendingPRs (cancelled : nat -> bool) (times : nat -> Z * Z) (unsupported : bool)
    : DB Store bool :=
  if unsupported then mret true
  else
    r ← PRs_ListNeedingEmbedding (MaxEmbedBatchSize cfg);
    match r with
    | Err _ => mret false
    | Ok prs => embed_batch cancelled times 0 prs false
    end.

End worker.
