(* ===== verification/Pipeline.v ===== *)
(** * The review of a pull request ([review/pipeline.go])

    [Execute] looks up the repository, makes the row of the review, asks the host for the pull
    request and its diff, the engine for context and findings and a language model for comments,
    stores and posts the comments and closes the review.  Hosts, engine and model are
    parameters; the prompt is left out, so the answer of the model is a function of what the
    prompt is made of, and so are the messages of progress events.  [filepath.Match] is modelled
    since the code depends on its treatment of stars. *)

From Stdlib Require Import ZArith Lia Ascii String.
From stdpp Require Import base list gmap strings sorting.
From S2P Require Import Prelude GoStrings SwarmDb Db GoFloat Quota Hub Store PrStore Vcs.
From S2P Require Import EngineClient PrSync.
Local Open Scope string_scope.
Local Open Scope rtv_scope.
Local Open Scope Z_scope.

(** ** [filepath.Match]; a malformed pattern matches nothing *)

(** The first rune and its width; an invalid byte is U+FFFD of width one. *)
Definition rune_at (s : string) : option (Z * nat) :=
  match s with
  | EmptyString => None
  | String a rest =>
      let b i := match String.get i s with Some c => Z.of_N (byte_of c) | None => 0 end in
      if is_ascii a then Some (b 0%nat, 1%nat)
      else match rune_width a rest with
           | 2%nat => Some ((b 0%nat mod 32) * 64 + b 1%nat mod 64, 2%nat)
           | 3%nat => Some ((b 0%nat mod 16) * 4096 + (b 1%nat mod 64) * 64 + b 2%nat mod 64, 3%nat)
           | 4%nat => Some ((b 0%nat mod 8) * 262144 + (b 1%nat mod 64) * 4096
                            + (b 2%nat mod 64) * 64 + b 3%nat mod 64, 4%nat)
           | _ => Some (65533, 1%nat)
           end
  end.

(** [getEsc]: a character of a class, perhaps escaped, and what follows. *)
Definition getEsc (chunk : string) : option (Z * string) :=
  let read (c : string) :=
    '(r, n) ← rune_at c;
    let rest := str_drop n c in
    if ((r =? 65533) && (n =? 1)%nat) || String.eqb rest "" then None else Some (r, rest) in
  match chunk with
  | EmptyString => None
  | String a rest =>
      if Ascii.eqb a "-" || Ascii.eqb a "]" then None
      else if Ascii.eqb a "\" then read rest
      else read chunk
  end.

(** The ranges of a class up to its bracket: whether [r] is in one, and what follows. *)
Fixpoint class_ranges (fuel : nat) (r : Z) (first found : bool) (chunk : string)
    : option (bool * string) :=
  match fuel with
  | O => None
  | S fuel =>
      match chunk with
      | String "]" rest =>
          if first then None else Some (found, rest)
      | _ =>
          '(lo, chunk) ← getEsc chunk;
          match chunk with
          | String "-" chunk =>
              '(hi, chunk) ← getEsc chunk;
              class_ranges fuel r false (found || ((lo <=? r) && (r <=? hi))) chunk
          | _ => class_ranges fuel r false (found || (lo =? r)) chunk
          end
      end
  end.

Fixpoint glob (fuel : nat) (p s : string) : bool :=
  match fuel with
  | O => false
  | S fuel =>
      match p with
      | EmptyString => String.eqb s ""
      | String "*" p' =>
          glob fuel p' s
          || match s with
             | String c s' => negb (Ascii.eqb c "/") && glob fuel p s'
             | EmptyString => false
             end
      | String "?" p' =>
          match s, rune_at s with
          | String c _, Some (_, n) => negb (Ascii.eqb c "/") && glob fuel p' (str_drop n s)
          | _, _ => false
          end
      | String "[" p' =>
          match rune_at s with
          | None => false
          | Some (r, n) =>
              let '(negated, p') := match p' with
                                    | String "^" p' => (true, p')
                                    | _ => (false, p')
                                    end in
              match class_ranges (String.length p') r true false p' with
              | Some (found, p') => negb (Bool.eqb found negated) && glob fuel p' (str_drop n s)
              | None => false
              end
          end
      | String "\" p' =>
          match p', s with
          | String a p', String c s' => Ascii.eqb a c && glob fuel p' s'
          | _, _ => false
          end
      | String a p' =>
          match s with
          | String c s' => Ascii.eqb a c && glob fuel p' s'
          | EmptyString => false
          end
      end
  end.
Definition Match (pattern name : string) : bool :=
  glob (S (String.length pattern + String.length name)) pattern name.

(** ** Files *)

Record PipelineConfig := { MaxFilesPerReview : Z; SkipPatterns : list string }.

(** [NewPipeline] *)
Definition NewPipeline (cfg : PipelineConfig) : PipelineConfig :=
  {| MaxFilesPerReview := if MaxFilesPerReview cfg =? 0 then 50 else MaxFilesPerReview cfg;
     SkipPatterns := SkipPatterns cfg |}.

(** [parts[i:]] joined, for every [i]. *)
Fixpoint suffixes (parts : list string) : list string :=
  match parts with
  | [] => []
  | _ :: rest => Join parts "/" :: suffixes rest
  end.

Definition pattern_matches (filename pattern : string) : bool :=
  Match pattern filename || Match pattern (Base filename)
  || (Contains pattern "**"
      && let simple := ReplaceAll pattern "**/" "" in
         Match simple (Base filename)
         || existsb (Match simple) (suffixes (Split filename "/"))).

Definition matchesSkipPattern (cfg : PipelineConfig) (filename : string) : bool :=
  existsb (pattern_matches filename) (SkipPatterns cfg).

Definition reviewable (cfg : PipelineConfig) (f : DiffFile) : bool :=
  negb (String.eqb (df_Status f) "deleted") && negb (String.eqb (df_Patch f) "")
  && negb (matchesSkipPattern cfg (df_Filename f)).

Definition filterFiles (cfg : PipelineConfig) (files : list DiffFile) : list DiffFile :=
  let kept := List.filter (reviewable cfg) files in
  if MaxFilesPerReview cfg <? Z.of_nat (List.length kept)
  then firstn (Z.to_nat (MaxFilesPerReview cfg)) kept else kept.

(** ** Comments *)

Definition valid_severity (s : string) : bool :=
  existsb (String.eqb s) [SeverityCritical; SeverityHigh; SeverityMedium; SeverityLow; SeverityInfo].
Definition severity_of (s : string) : string := if valid_severity s then s else SeverityInfo.

Definition heuristic_comment (f : HeuristicFinding) : ReviewComment :=
  {| rc_ReviewID := 0; rc_FilePath := hf_FilePath f; rc_LineNumber := hf_Line f;
     rc_EndLine := if 0 <? hf_EndLine f then Some (hf_EndLine f) else None;
     rc_Severity := severity_of (hf_Severity f); rc_Category := hf_Category f;
     rc_Title := "[Heuristic: " ++ hf_RuleName f ++ "] " ++ hf_Message f;
     rc_Body := hf_Evidence f; rc_Suggestion := hf_Suggestion f; rc_Posted := false;
     rc_CreatedAt := 0 |}.
Definition convertHeuristicFindings (findings : list HeuristicFinding) : list ReviewComment :=
  heuristic_comment <$> findings.

(** The offset of the last byte [c]. *)
Definition LastIndexByte (s : string) (c : ascii) : option nat :=
  (fun i => String.length s - 1 - i)%nat <$> Index (string_rev s) (String c "").

Definition extractJSON (content : string) : string :=
  let after_fence (skip : string -> nat) (fence : string) :=
    i ← Index content fence;
    let start := (i + String.length fence)%nat in
    let start := (start + skip (str_drop start content))%nat in
    e ← Index (str_drop start content) "```";
    Some (TrimSpace (str_take e (str_drop start content))) in
  let line (s : string) := match Index s (String "010"%char "") with Some nl => S nl | None => O end in
  match after_fence (fun _ => O) "```json" with
  | Some s => s
  | None =>
      match after_fence line "```" with
      | Some s => s
      | None =>
          match Index content "[", LastIndexByte content "]" with
          | Some i, Some e => if (i <? e)%nat then str_take (S e - i) (str_drop i content) else ""
          | _, _ => ""
          end
      end
  end.

(** An item of the answer of the model. *)
Record ReviewItem := {
  ri_Line : Z;
  ri_Severity : string;
  ri_Category : string;
  ri_Title : string;
  ri_Body : string;
  ri_Suggestion : string
}.

(** [json.Unmarshal] into the items. *)
Class ReviewJson := { unmarshal_items : string -> option (list ReviewItem) }.

Definition item_comment (filePath : string) (i : ReviewItem) : ReviewComment :=
  {| rc_ReviewID := 0; rc_FilePath := filePath; rc_LineNumber := ri_Line i; rc_EndLine := None;
     rc_Severity := severity_of (ri_Severity i); rc_Category := ri_Category i;
     rc_Title := ri_Title i; rc_Body := ri_Body i; rc_Suggestion := ri_Suggestion i;
     rc_Posted := false; rc_CreatedAt := 0 |}.

Definition parseReviewResponse `{ReviewJson} (content filePath : string) : list ReviewComment :=
  let json := extractJSON content in
  if String.eqb json "" then []
  else match unmarshal_items json with
       | Some items => item_comment filePath <$> items
       | None => []
       end.

(** [chunk.FilePath] to its chunks. *)
Definition file_chunks (pack : option ContextPack) (filename : string) : list ContextChunk :=
  match pack with
  | Some p => List.filter (fun c => String.eqb (ch_FilePath c) filename) (cp_ContextChunks p)
  | None => []
  end.

(** ** Summary *)

Definition severity_count (p : string -> bool) (comments : list ReviewComment) : Z :=
  Z.of_nat (List.length (List.filter (fun c => p (rc_Severity c)) comments)).
Definition equals (s t : string) : bool := String.eqb t s.
Definition low_or_info (s : string) : bool :=
  negb (equals SeverityCritical s || equals SeverityHigh s || equals SeverityMedium s).

(** [Round(time.Millisecond)] of a duration that is not negative *)
Definition round_ms (d : Z) : Z :=
  let r := d mod 1000000 in if 2 * r <? 1000000 then d - r else d + (1000000 - r).

Definition nl : string := String "010"%char "".

Definition buildSummary (pr : PullRequest) (comments : list ReviewComment) (duration : Z) : string :=
  "## 🔍 RTVortex Code Review" ++ nl ++ nl ++
  "**PR:** " ++ p_Title pr ++ " (#" ++ itoa (p_Number pr) ++ ")" ++ nl ++
  "**Duration:** " ++ DurationString (round_ms duration) ++ nl ++
  "**Files reviewed:** analyzed" ++ nl ++
  "**Comments:** " ++ itoa (Z.of_nat (List.length comments)) ++ " total" ++ nl ++ nl ++
  "| Severity | Count |" ++ nl ++ "|----------|-------|" ++ nl ++
  "| 🔴 Critical | " ++ itoa (severity_count (equals SeverityCritical) comments) ++ " |" ++ nl ++
  "| 🟠 High | " ++ itoa (severity_count (equals SeverityHigh) comments) ++ " |" ++ nl ++
  "| 🟡 Medium | " ++ itoa (severity_count (equals SeverityMedium) comments) ++ " |" ++ nl ++
  "| 🔵 Low/Info | " ++ itoa (severity_count low_or_info comments) ++ " |" ++ nl ++ nl ++
  "---" ++ nl ++
  "*Powered by [RTVortex](https://github.com/AuralithAI/rtvortex) — AI Code Review Engine*".

(** ** Execution *)

Record ReviewRequest := { rq_RepoID : UUID; rq_PRNumber : Z; rq_TriggeredBy : UUID }.

Record ReviewResult := {
  res_ReviewID : UUID;
  res_Status : string;
  res_CommentsCount : Z;
  res_Error : option string
}.

(** The context of linked repositories: the section of the prompt and the number of chunks. *)
Record CrossRepoSection := { xs_Prompt : string; xs_Chunks : Z; xs_Empty : bool }.

(** The primary provider, if there is one, asked about one file; the enricher, if there is
    one. *)
Class Model := {
  ask : option (PullRequest -> DiffFile -> list ContextChunk -> option ContextPack -> string ->
                result string string);
  Enrich : option (UUID -> UUID -> list string -> string -> option CrossRepoSection)
}.

(** What one run draws: the times of its beginning and end, the identifier of the review and
    those of its comments. *)
Record RunEnv := {
  re_start : Z;
  re_end : Z;
  re_review : UUID;
  re_comments : nat -> UUID
}.

Section pipeline.
Context `{Postgres} `{RowOrder} `{Collation} `{UuidText} `{VaultReader} `{Platform} `{EngineStub}.
Context `{ReviewJson} `{Model}.

(** [engineClient != nil]. *)
Variable engine : bool.
Variable cfg : PipelineConfig.

Definition emitProgress (id : UUID) (step : string) (index : Z) (status : string) : DB Store unit :=
  act (AProgress id step index status).

Definition failReview (now : Z) (id : UUID) (err : string) : DB Store unit :=
  ignoring (Reviews_UpdateStatus now id ReviewStatusFailed (Some [("error", err)])).

Definition failed_result (id : UUID) (err : string) : ReviewResult :=
  {| res_ReviewID := id; res_Status := ReviewStatusFailed; res_CommentsCount := 0;
     res_Error := Some err |}.

(** [analyzeFilesWithContext]: a file whose answer is an error has no comments. *)
Definition analyze (pr : PullRequest) (files : list DiffFile) (pack : option ContextPack)
    (cross : option CrossRepoSection) : result (list ReviewComment) string :=
  match ask with
  | None => Err "no LLM provider configured"
  | Some complete =>
      let section := match cross with Some x => xs_Prompt x | None => "" end in
      Ok (flat_map (fun f =>
            match complete pr f (file_chunks pack (df_Filename f)) pack section with
            | Ok content => parseReviewResponse content (df_Filename f)
            | Err _ => []
            end) files)
  end.

Fixpoint persist (now : Z) (ids : nat -> UUID) (i : nat) (review : UUID)
    (comments : list ReviewComment) : DB Store unit :=
  match comments with
  | [] => mret tt
  | c :: comments =>
      ignoring (Reviews_CreateComment now (ids i)
        {| rc_ReviewID := review; rc_FilePath := rc_FilePath c; rc_LineNumber := rc_LineNumber c;
           rc_EndLine := rc_EndLine c; rc_Severity := rc_Severity c;
           rc_Category := rc_Category c; rc_Title := rc_Title c; rc_Body := rc_Body c;
           rc_Suggestion := rc_Suggestion c; rc_Posted := rc_Posted c;
           rc_CreatedAt := rc_CreatedAt c |});;
      persist now ids (S i) review comments
  end.

Definition comment_text (c : ReviewComment) : string :=
  "**[" ++ rc_Severity c ++ "] " ++ rc_Category c ++ "** — " ++ rc_Title c ++ nl ++ nl ++ rc_Body c
  ++ (if String.eqb (rc_Suggestion c) "" then ""
      else nl ++ nl ++ "```suggestion" ++ nl ++ rc_Suggestion c ++ nl ++ "```").

(** [PostReviewComment], whose error is logged. *)
Definition post_comment (repo : Repository) (number : Z) (pr : PullRequest) (c : ReviewComment)
    : DB Store unit :=
  act (APostComment (r_Owner repo) (r_Name repo) number (comment_text c) (rc_FilePath c)
         (rc_LineNumber c) (p_HeadSHA pr)).

(** Step 8: the engine's context, if it has any. *)
Definition engine_context (id : UUID) (repo : Repository) (pr : PullRequest) (diff : string)
    : DB Store (option ContextPack) :=
  if negb engine then emitProgress id "engine_context" 8 "completed";; mret None
  else
    emitProgress id "engine_context" 8 "started";;
    act (AContext (uuid_String (r_ID repo)) diff (p_Title pr) (p_Description pr));;
    emitProgress id "engine_context" 8 "completed";;
    mret match BuildReviewContext
           {| q_RepoID := uuid_String (r_ID repo); q_Diff := diff; q_PRTitle := p_Title pr;
              q_PRDescription := p_Description pr; q_MaxContextChunks := 50 |} with
         | Ok pack => Some pack
         | Err _ => None
         end.

(** Step 9 *)
Definition cross_repo (id : UUID) (req : ReviewRequest) (pr : PullRequest)
    (pack : option ContextPack) : DB Store (option CrossRepoSection) :=
  match Enrich, pack with
  | Some enrich, Some pack =>
      emitProgress id "cross_repo_enrich" 9 "started";;
      emitProgress id "cross_repo_enrich" 9 "completed";;
      mret (enrich (rq_TriggeredBy req) (rq_RepoID req)
              (ts_QualifiedName <$> cp_TouchedSymbols pack) (p_Title pr))
  | _, _ => emitProgress id "cross_repo_enrich" 9 "completed";; mret None
  end.

(** Step 10 *)
Definition heuristics (id : UUID) (diff : string) : DB Store (list ReviewComment) :=
  if negb engine then emitProgress id "engine_heuristics" 10 "completed";; mret []
  else
    emitProgress id "engine_heuristics" 10 "started";;
    emitProgress id "engine_heuristics" 10 "completed";;
    mret match RunHeuristics diff [] with
         | Ok findings => convertHeuristicFindings findings
         | Err _ => []
         end.

Definition bool_text (b : bool) : string := if b then "true" else "false".

(** The metadata of a finished review. *)
Definition final_metadata (env : RunEnv) (files : list DiffFile) (comments heuristic : Z)
    (pack : option ContextPack) (cross : option CrossRepoSection) : list (string * string) :=
  [("duration_ms", itoa ((re_end env - re_start env) / 1000000));
   ("files_reviewed", itoa (Z.of_nat (List.length files)));
   ("comments_count", itoa comments); ("heuristic_count", itoa heuristic);
   ("engine_context", bool_text (bool_decide (is_Some pack)));
   ("cross_repo_chunks", itoa match cross with Some x => xs_Chunks x | None => 0 end);
   ("cross_repo_enabled", bool_text match cross with Some x => negb (xs_Empty x) | None => false end)].

(** Steps 12 to 15 *)
Definition deliver (env : RunEnv) (id : UUID) (repo : Repository) (req : ReviewRequest)
    (pr : PullRequest) (files : list DiffFile) (comments : list ReviewComment) (heuristic : Z)
    (pack : option ContextPack) (cross : option CrossRepoSection) : DB Store ReviewResult :=
  let count := Z.of_nat (List.length comments) in
  emitProgress id "persist_comments" 12 "started";;
  persist (re_end env) (re_comments env) 0 id comments;;
  emitProgress id "persist_comments" 12 "completed";;
  emitProgress id "post_comments" 13 "started";;
  every comments (post_comment repo (rq_PRNumber req) pr);;
  emitProgress id "post_comments" 13 "completed";;
  emitProgress id "post_summary" 14 "started";;
  act (APostSummary (r_Owner repo) (r_Name repo) (rq_PRNumber req)
         (buildSummary pr comments (re_end env - re_start env)));;
  emitProgress id "post_summary" 14 "completed";;
  emitProgress id "mark_completed" 15 "started";;
  ignoring (Reviews_UpdateStatus (re_end env) id ReviewStatusCompleted
              (Some (final_metadata env files count heuristic pack cross)));;
  emitProgress id "mark_completed" 15 "completed";;
  mret {| res_ReviewID := id; res_Status := ReviewStatusCompleted; res_CommentsCount := count;
          res_Error := None |}.

(** Steps 8 to 15, for the files that are left *)
Definition analyze_and_deliver (env : RunEnv) (id : UUID) (repo : Repository)
    (req : ReviewRequest) (pr : PullRequest) (files : list DiffFile) : DB Store ReviewResult :=
  let diff := combined_diff files in
  pack ← engine_context id repo pr diff;
  cross ← cross_repo id req pr pack;
  found ← heuristics id diff;
  emitProgress id "analyze_files" 11 "started";;
  match analyze pr files pack cross with
  | Err e =>
      emitProgress id "analyze_files" 11 "failed";;
      failReview (re_end env) id e;;
      mret (failed_result id e)
  | Ok comments =>
      emitProgress id "analyze_files" 11 "completed";;
      deliver env id repo req pr files (comments ++ found)%list (Z.of_nat (List.length found))
        pack cross
  end.

(** Steps 4 to 15, once the row is there *)
Definition run_review (env : RunEnv) (id : UUID) (repo : Repository) (creds : ResolvedCreds)
    (req : ReviewRequest) : DB Store ReviewResult :=
  emitProgress id "status_update" 4 "started";;
  ignoring (Reviews_UpdateStatus (re_start env) id ReviewStatusInProgress None);;
  emitProgress id "status_update" 4 "completed";;
  emitProgress id "fetch_pr" 5 "started";;
  match GetPullRequest creds (r_Owner repo) (r_Name repo) (rq_PRNumber req) with
  | Err e =>
      emitProgress id "fetch_pr" 5 "failed";; failReview (re_end env) id e;;
      mret (failed_result id e)
  | Ok pr =>
      emitProgress id "fetch_pr" 5 "completed";;
      emitProgress id "fetch_diff" 6 "started";;
      match GetPullRequestDiff creds (r_Owner repo) (r_Name repo) (rq_PRNumber req) with
      | Err e =>
          emitProgress id "fetch_diff" 6 "failed";; failReview (re_end env) id e;;
          mret (failed_result id e)
      | Ok diffFiles =>
          emitProgress id "fetch_diff" 6 "completed";;
          emitProgress id "filter_files" 7 "started";;
          emitProgress id "filter_files" 7 "completed";;
          match filterFiles cfg diffFiles with
          | [] =>
              ignoring (Reviews_UpdateStatus (re_end env) id ReviewStatusCompleted
                          (Some [("reason", "no reviewable files")]));;
              emitProgress id "completed" 12 "completed";;
              mret {| res_ReviewID := id; res_Status := ReviewStatusCompleted;
                      res_CommentsCount := 0; res_Error := None |}
          | filtered => analyze_and_deliver env id repo req pr filtered
          end
      end
  end.

Definition new_review (repo : Repository) (req : ReviewRequest) : Review :=
  {| rv_ID := 0; rv_RepoID := rq_RepoID req; rv_TriggeredBy := rq_TriggeredBy req;
     rv_Platform := r_Platform repo; rv_PRNumber := rq_PRNumber req; rv_PRTitle := "";
     rv_PRAuthor := ""; rv_BaseBranch := ""; rv_HeadBranch := "";
     rv_Status := ReviewStatusPending; rv_FilesChanged := 0; rv_Additions := 0;
     rv_Deletions := 0; rv_Metadata := None; rv_CreatedAt := 0; rv_CompletedAt := None |}.

Definition Execute (env : RunEnv) (req : ReviewRequest) : DBE Store ReviewResult :=
  emitProgress 0 "lookup_repo" 1 "started";;
  repo ←? wrapping "lookup repo" (Repos_GetByID (rq_RepoID req));
  emitProgress 0 "lookup_repo" 1 "completed";;
  emitProgress 0 "get_vcs_client" 2 "started";;
  creds ←? wrapping "resolve VCS client"
             (ForRepoDirect (r_OrgID repo) (r_Platform repo) (r_WebhookSecret repo));
  emitProgress 0 "get_vcs_client" 2 "completed";;
  emitProgress 0 "create_review" 3 "started";;
  rev ←? wrapping "create review record"
           (Reviews_Create (re_start env) (re_review env) (new_review repo req));
  emitProgress (rv_ID rev) "create_review" 3 "completed";;
  res ← run_review env (rv_ID rev) repo creds req;
  ok res.

End pipeline.
