(* ===== verification/Jwt.v ===== *)
(** * Tokens ([auth/jwt.go], [auth/middleware.go])

    A token is what the package [golang-jwt] makes of claims and a secret: a parameter, with the
    law that a signed token is read back until it expires, its texts as [encoding/json] keeps
    them.  Times of claims are whole seconds, as the package writes them. *)

From Stdlib Require Import ZArith Lia Ascii String.
From stdpp Require Import base list gmap strings.
From S2P Require Import Prelude GoStrings SwarmDb.
Local Open Scope string_scope.
Local Open Scope Z_scope.

Definition ErrTokenExpired := "token expired".
Definition ErrTokenInvalid := "token invalid".
Definition ErrMissingClaims := "missing required claims".

Inductive TokenType := AccessToken | RefreshToken.
#[export] Instance TokenType_eq_dec : EqDecision TokenType.
Proof. solve_decision. Defined.

Record Claims := {
  c_Issuer : string;
  c_Subject : string;
  c_IssuedAt : Z;
  c_ExpiresAt : Z;
  c_JTI : UUID;
  c_UserID : UUID;
  c_Email : string;
  c_Name : string;
  c_Role : string;
  c_OrgID : UUID;
  c_Type : TokenType
}.

(** [encoding/json] writes U+FFFD for every byte that is not part of a character. *)
Fixpoint json_text (skip : nat) (s : string) : string :=
  match s with
  | EmptyString => EmptyString
  | String a s =>
      match skip with
      | S skip => String a (json_text skip s)
      | O =>
          if is_ascii a then String a (json_text 0 s)
          else let n := rune_width a s in
               if Nat.eqb n 1 then str3 239 191 189 ++ json_text 0 s
               else String a (json_text (n - 1) s)
      end
  end.

Lemma json_text_valid skip s : utf8_valid skip s = true -> json_text skip s = s.
Proof.
  revert skip. induction s as [|a s IH]; intros skip Hs; [done|]. cbn in *.
  destruct skip as [|skip]; [|by rewrite IH].
  destruct (is_ascii a); [by rewrite IH|]. destruct (Nat.eqb _ 1); [done|]. by rewrite IH.
Qed.

(** The claims as they come back. *)
Definition json_claims (c : Claims) : Claims :=
  {| c_Issuer := json_text 0 (c_Issuer c); c_Subject := json_text 0 (c_Subject c);
     c_IssuedAt := c_IssuedAt c; c_ExpiresAt := c_ExpiresAt c; c_JTI := c_JTI c;
     c_UserID := c_UserID c; c_Email := json_text 0 (c_Email c); c_Name := json_text 0 (c_Name c);
     c_Role := json_text 0 (c_Role c); c_OrgID := c_OrgID c; c_Type := c_Type c |}.

Definition texts_valid (c : Claims) : Prop :=
  Forall (fun s => utf8_valid 0 s = true)
    [c_Issuer c; c_Subject c; c_Email c; c_Name c; c_Role c].

Lemma json_claims_valid c : texts_valid c -> json_claims c = c.
Proof.
  unfold texts_valid. rewrite !Forall_cons. intros (H1 & H2 & H3 & H4 & H5 & _).
  unfold json_claims. rewrite !json_text_valid by done. by destruct c.
Qed.

Inductive ParseError := ParseExpired | ParseOther (text : string).

(** [ParseWithClaims] with a key for HMAC methods only; [c_ExpiresAt] is in seconds, the clock
    in nanoseconds. *)
Class Jwt := {
  sign_claims : string -> Claims -> string;
  parse_claims : string -> Z -> string -> result Claims ParseError;
  sign_nonempty : forall secret c, sign_claims secret c <> "";
  sign_trimmed : forall secret c, TrimSpace (sign_claims secret c) = sign_claims secret c;
  parse_sign : forall secret now c,
    parse_claims secret now (sign_claims secret c) =
    if now <? c_ExpiresAt c * second then Ok (json_claims c) else Err ParseExpired
}.

Record JWTManager := {
  jm_secret : string;
  jm_issuer : string;
  jm_accessDuration : Z;
  jm_refreshDuration : Z
}.

Record TokenPair := {
  tp_AccessToken : string;
  tp_RefreshToken : string;
  tp_TokenType : string;
  tp_ExpiresIn : Z
}.

(** What the middleware reads of a request. *)
Record Credentials := {
  rq_Authorization : string;
  rq_Cookie : string -> option string
}.

Section jwt.
Context `{UuidText} `{Jwt}.
Variable m : JWTManager.

(** ** Tokens *)

(** [jti] is the identifier that is drawn; [NewNumericDate] drops the fraction. *)
Definition token_claims (now : Z) (jti userID : UUID) (email name role : string) (orgID : UUID)
    (tokenType : TokenType) (duration : Z) : Claims :=
  {| c_Issuer := jm_issuer m; c_Subject := uuid_String userID; c_IssuedAt := now / second;
     c_ExpiresAt := (now + duration) / second; c_JTI := jti; c_UserID := userID;
     c_Email := email; c_Name := name; c_Role := role; c_OrgID := orgID; c_Type := tokenType |}.

Definition generateToken (now : Z) (jti userID : UUID) (email name role : string) (orgID : UUID)
    (tokenType : TokenType) (duration : Z) : string :=
  sign_claims (jm_secret m) (token_claims now jti userID email name role orgID tokenType duration).

Definition GenerateAccessToken (now : Z) (jti userID : UUID) (email name role : string)
    (orgID : UUID) : string :=
  generateToken now jti userID email name role orgID AccessToken (jm_accessDuration m).

Definition GenerateRefreshToken (now : Z) (jti userID : UUID) : string :=
  generateToken now jti userID "" "" "" 0%N RefreshToken (jm_refreshDuration m).

Definition ValidateToken (now : Z) (tokenStr : string) : result Claims string :=
  match parse_claims (jm_secret m) now tokenStr with
  | Err ParseExpired => Err ErrTokenExpired
  | Err (ParseOther text) => Err (ErrTokenInvalid ++ ": " ++ text)
  | Ok claims => if (c_UserID claims =? 0)%N then Err ErrMissingClaims else Ok claims
  end.

Definition GenerateTokenPair (now : Z) (jti1 jti2 userID : UUID) (email name role : string)
    (orgID : UUID) : TokenPair :=
  {| tp_AccessToken := GenerateAccessToken now jti1 userID email name role orgID;
     tp_RefreshToken := GenerateRefreshToken now jti2 userID;
     tp_TokenType := "Bearer"; tp_ExpiresIn := jm_accessDuration m / second |}.

(** ** Middleware *)

(** [strings.EqualFold(s, "bearer")]: no letter of the word folds to another rune. *)
Definition is_bearer (s : string) : bool := String.eqb (string_map lower_byte s) "bearer".

Fixpoint first_cookie (r : Credentials) (names : list string) : string :=
  match names with
  | [] => ""
  | name :: names =>
      match rq_Cookie r name with
      | Some v => if String.eqb v "" then first_cookie r names else v
      | None => first_cookie r names
      end
  end.

Definition extractBearerToken (r : Credentials) : string :=
  let header :=
    match splitn_byte " " 2 (rq_Authorization r) with
    | [scheme; rest] => if is_bearer scheme then TrimSpace rest else ""
    | _ => ""
    end in
  if String.eqb header "" then first_cookie r ["token"; "access_token"] else header.

(** The claims put into the context, or the text of the refusal with 401. *)
Definition Middleware (now : Z) (r : Credentials) : result Claims string :=
  let token := extractBearerToken r in
  if String.eqb token "" then Err "missing authorization header"
  else match ValidateToken now token with
       | Err _ => Err "invalid or expired token"
       | Ok claims => if decide (c_Type claims = AccessToken) then Ok claims
                      else Err "invalid token type"
       end.

Definition RequireRole (roles : list string) (claims : option Claims) : option Z :=
  match claims with
  | None => Some 401
  | Some c => if existsb (String.eqb (c_Role c)) roles then None else Some 403
  end.

Definition RequireOrg (claims : option Claims) : option Z :=
  match claims with
  | Some c => if (c_OrgID c =? 0)%N then Some 403 else None
  | None => Some 403
  end.

(** ** Lemmas *)

(** A request that carries the token in its header. *)
Definition bearing (token : string) : Credentials :=
  {| rq_Authorization := "Bearer " ++ token; rq_Cookie := fun _ => None |}.

Lemma extract_bearing secret c :
  extractBearerToken (bearing (sign_claims secret c)) = sign_claims secret c.
Proof.
  unfold extractBearerToken, bearing. cbn [rq_Authorization].
  change (splitn_byte " " 2 ("Bearer " ++ sign_claims secret c))
    with ["Bearer"; sign_claims secret c].
  cbv iota. change (is_bearer "Bearer") with true. cbv iota. rewrite sign_trimmed.
  destruct (String.eqb_spec (sign_claims secret c) "") as [E|]; [|done].
  by destruct (sign_nonempty secret c).
Qed.

Lemma ValidateToken_sign now c :
  c_UserID c <> 0%N ->
  ValidateToken now (sign_claims (jm_secret m) c) =
  if now <? c_ExpiresAt c * second then Ok (json_claims c) else Err ErrTokenExpired.
Proof.
  intros Hu. unfold ValidateToken. rewrite parse_sign. destruct (now <? _); [|done].
  cbn [json_claims c_UserID]. by destruct (N.eqb_spec (c_UserID c) 0).
Qed.

End jwt.
