(* ===== verification/Api.v ===== *)
(** * The public API ([api/handlers.go], [api/pr_handlers.go])

    The handlers of users, organisations, repositories, members, reviews and pull requests, on
    the tables of Store.v.  A handler takes what a request carries: the claims of its token, if
    the middleware put any, the parameters as texts and the decoded body.  What it starts in the
    background is the trace: [run_job] is what the goroutine of a review does.  An entry of the
    audit log is written by a goroutine; here it follows the statements of the handler. *)

From Stdlib Require Import ZArith Lia Ascii String.
From stdpp Require Import base list gmap strings sorting.
From S2P Require Import Prelude GoStrings SwarmDb Db GoFloat Regex Validation Quota Hub Http Store.
From S2P Require Import PrStore Vcs EngineClient PrSync Pipeline Jwt.
Local Open Scope string_scope.
Local Open Scope rtv_scope.
Local Open Scope Z_scope.

(** ** Requests *)

Record Headers := {
  h_XForwardedFor : string;
  h_XRealIP : string;
  h_RemoteAddr : string;
  h_UserAgent : string
}.

(** What a request brings and draws: the clock, identifiers, random bytes in hexadecimal, its
    headers and its claims. *)
Record Env := {
  e_now : Z;
  e_ids : nat -> UUID;
  e_random : string;
  e_headers : Headers;
  e_claims : option Claims
}.

Definition UserIDFromContext (env : Env) : option UUID := c_UserID <$> e_claims env.
Definition ClaimsFromContext (env : Env) : option Claims := e_claims env.

(** [strings.Cut(s, ",")], the part before *)
Definition before_comma (s : string) : string :=
  match cut_byte "," s with Some (u, _) => u | None => s end.

Definition is_bracket (a : ascii) : bool := Ascii.eqb a "[" || Ascii.eqb a "]".
Definition trim_brackets (s : string) : string :=
  string_rev (drop_while is_bracket (string_rev (drop_while is_bracket s))).

(** [clientIP] of [audit.go] *)
Definition clientIP (h : Headers) : string :=
  if negb (String.eqb (h_XForwardedFor h) "") then TrimSpace (before_comma (h_XForwardedFor h))
  else if negb (String.eqb (h_XRealIP h) "") then TrimSpace (h_XRealIP h)
  else
    let addr := h_RemoteAddr h in
    match LastIndexByte addr ":" with
    | Some i =>
        match Index addr "]" with
        | Some b => trim_brackets (str_take (S b) addr)
        | None => str_take i addr
        end
    | None => addr
    end.

(** [parsePagination] *)
Definition parsePagination (l o : string) : Z * Z :=
  (match Atoi l with Some n => if (0 <? n) && (n <=? 100) then n else 20 | None => 20 end,
   match Atoi o with Some n => if 0 <=? n then n else 0 | None => 0 end).

Definition has_more (limit offset total : Z) : bool := wrap64 (offset + limit) <? total.

(** The path of a URL ([net/url]); [None] where it cannot be parsed. *)
Class UrlParse := { url_path : string -> option string }.

Definition TrimSuffix (s suffix : string) : string :=
  if HasSuffix s suffix then str_take (String.length s - String.length suffix) s else s.
Definition is_slash (a : ascii) : bool := Ascii.eqb a "/".
Definition trim_slashes (s : string) : string :=
  string_rev (drop_while is_slash (string_rev (drop_while is_slash s))).

(** The last two segments. *)
Definition last_two (parts : list string) : option (string * string) :=
  match rev parts with name :: owner :: _ => Some (owner, name) | _ => None end.

Definition parseRepoURL `{UrlParse} (rawURL : string) : option (string * string) :=
  let https :=
    path ← url_path rawURL;
    let parts := split_byte "/" (TrimSuffix (trim_slashes path) ".git") in
    match parts with
    | scm :: owner :: name :: _ =>
        if String.eqb scm "scm" then Some (owner, name) else last_two parts
    | _ => last_two parts
    end in
  if Contains rawURL ":" && negb (Contains rawURL "://") then
    match LastIndexByte rawURL ":" with
    | Some i =>
        match last_two (split_byte "/" (TrimSuffix (str_drop (S i) rawURL) ".git")) with
        | Some p => Some p
        | None => https
        end
    | None => https
    end
  else https.

Definition detectPlatformFromURL `{UnicodeTables} (cloneURL : string) : string :=
  let lower := ToLower cloneURL in
  if Contains lower "github.com" then "github"
  else if Contains lower "gitlab.com" || Contains lower "gitlab" then "gitlab"
  else if Contains lower "bitbucket.org" || Contains lower "bitbucket" then "bitbucket"
  else if Contains lower "/scm/" then "bitbucket"
  else if Contains lower "dev.azure.com" || Contains lower "visualstudio.com" then "azure_devops"
  else "".

Inductive Body :=
  | BValidation (e : ValidationError)
  | BUser (u : User)
  | BOrg (o : Organization)
  | BOrgs (l : list Organization) (total limit offset : Z) (more : bool)
  | BMembers (l : list MemberInfo) (total limit offset : Z)
  | BRepo (r : Repository)
  | BRepos (l : list Repository) (total limit offset : Z) (more : bool)
  | BRepoMembers (l : list RepoMemberInfo) (total : Z)
  | BRepoMember (repoID userID : UUID) (role : string)
  | BReview (r : Review)
  | BReviews (l : list Review) (total limit offset : Z) (more : bool)
  | BComments (l : list ReviewComment) (count : Z)
  | BPR (p : TrackedPullRequest)
  | BPRs (l : list TrackedPullRequest) (total limit offset : Z) (more : bool)
  | BCounts (counts : gmap string Z) (embedQueue : Z)
  | BTokens (t : TokenPair) (redirect : option string)
  | BRedirect (url : string)
  | BProviders (l : list (string * string))
  | BStatus (l : list (string * string)).

Definition done_with (l : list (string * string)) : Response Body := writeJSON 200 (BStatus l).
Notation HTTP A := (DB Store (result A (Response Body))).

(** [if ve := req.Validate(); ve != nil { writeValidationError(w, ve); return }] *)
Definition validated (ve : option ValidationError) : HTTP unit :=
  match ve with
  | Some e => fail (writeJSON 422 (BValidation e))
  | None => ok tt
  end.

Definition ActionOrgCreate := "org.create".
Definition ActionOrgMemberInvite := "org.member_invite".
Definition ActionOrgMemberRemove := "org.member_remove".
Definition ActionRepoCreate := "repo.create".
Definition ActionRepoDelete := "repo.delete".
Definition ActionReviewTrigger := "review.trigger".
Definition ActionPRSync := "pr.sync".
Definition ActionWebhookReceived := "webhook.received".

Section api.
Context `{Postgres} `{RowOrder} `{Collation} `{UuidText} `{Inet} `{UnicodeTables} `{UrlParse}.

(** [QuotaEnforcer != nil] and [PRSyncWorker != nil]. *)
Variables (enforced : bool) (syncing : bool).

Definition LogRequest (env : Env) (action resourceType resourceID : string)
    (meta : list (string * string)) : DB Store unit :=
  ignoring (Audit_Create
    {| ae_UserID := UserIDFromContext env; ae_Action := action; ae_ResourceType := resourceType;
       ae_ResourceID := resourceID; ae_IPAddress := clientIP (e_headers env);
       ae_UserAgent := h_UserAgent (e_headers env); ae_Metadata := meta |}).

Definition path_id (text message : string) : HTTP UUID := require (uuid_Parse text) 400 message.

(** A check of the quotas: a statement on the tables, where the plan has a limit. *)
Definition quota_check (limit : Z) (f : bool -> QuotaDB -> result CheckResult string)
    : DBE Store CheckResult :=
  if limit <? 0 then reads (fun s => f false (quota_view s))
  else next_fails ≫= fun fault : bool => reads (fun s => f fault (quota_view s)).

(** [if qErr == nil && !result.Allowed { writeError(403) }] *)
Definition refuse_over_quota (r : result CheckResult string) : HTTP unit :=
  match r with
  | Ok c => if Allowed c then ok tt else fail (writeError 403 (Reason c))
  | Err _ => ok tt
  end.

(** ** Users *)

Definition GetCurrentUser (env : Env) : DB Store (Response Body) := respond (
  userID ←? require (UserIDFromContext env) 401 "unauthorized";
  user ←? or_reply (Users_GetByID userID) (fun _ => writeError 404 "user not found");
  ok (writeJSON 200 (BUser user))).

Definition or_old (new old : string) : string := if String.eqb new "" then old else new.

Definition UpdateCurrentUser (env : Env) (request : option UpdateUserRequest)
    : DB Store (Response Body) := respond (
  userID ←? require (UserIDFromContext env) 401 "unauthorized";
  req ←? require request 400 "invalid request body";
  validated (UpdateUser_Validate req);?
  user ←? or_reply (Users_GetByID userID) (fun _ => writeError 404 "user not found");
  user ←? or_reply (Users_Update (e_now env)
    {| u_ID := u_ID user; u_Email := or_old (user_Email req) (u_Email user);
       u_DisplayName := or_old (user_DisplayName req) (u_DisplayName user);
       u_AvatarURL := or_old (user_AvatarURL req) (u_AvatarURL user);
       u_VaultToken := u_VaultToken user; u_CreatedAt := u_CreatedAt user;
       u_UpdatedAt := u_UpdatedAt user |}) (internal "failed to update user");
  ok (writeJSON 200 (BUser user))).

(** ** Organisations *)

Definition ListOrgs (env : Env) (limit offset : string) : DB Store (Response Body) := respond (
  userID ←? require (UserIDFromContext env) 401 "unauthorized";
  let '(limit, offset) := parsePagination limit offset in
  p ←? or_reply (Orgs_ListByUser userID limit offset) (internal "failed to list organizations");
  ok (writeJSON 200 (BOrgs p.1 p.2 limit offset (has_more limit offset p.2)))).

Definition new_org (name slug : string) : Organization :=
  {| o_ID := 0; o_Name := name; o_Slug := slug; o_Plan := "free"; o_Settings := "";
     o_CreatedAt := 0; o_UpdatedAt := 0 |}.

Definition CreateOrg (env : Env) (request : option CreateOrgRequest)
    : DB Store (Response Body) := respond (
  userID ←? require (UserIDFromContext env) 401 "unauthorized";
  req ←? require request 400 "invalid request body";
  validated (CreateOrg_Validate req);?
  org ←? or_reply (Orgs_Create (e_now env) (e_ids env 0) (new_org (org_Name req) (org_Slug req)))
           (internal "failed to create organization");
  ignoring (Orgs_AddMember (e_now env) (o_ID org) userID "owner");;
  LogRequest env ActionOrgCreate "org" (uuid_String (o_ID org))
    [("name", org_Name req); ("slug", org_Slug req)];;
  ok (writeJSON 201 (BOrg org))).

Definition GetOrg (orgID : string) : DB Store (Response Body) := respond (
  orgID ←? path_id orgID "invalid org ID";
  org ←? or_reply (Orgs_GetByID orgID) (not_found_or "organization not found" "database error");
  ok (writeJSON 200 (BOrg org))).

(** [settings] is the map of the request, if it has one. *)
Definition UpdateOrg (env : Env) (orgID : string) (request : option (UpdateOrgRequest * string))
    : DB Store (Response Body) := respond (
  orgID ←? path_id orgID "invalid org ID";
  org ←? or_reply (Orgs_GetByID orgID) (not_found_or "organization not found" "database error");
  req ←? require request 400 "invalid request body";
  validated (UpdateOrg_Validate req.1);?
  org ←? or_reply (Orgs_Update (e_now env)
    {| o_ID := o_ID org; o_Name := or_old (uorg_Name req.1) (o_Name org); o_Slug := o_Slug org;
       o_Plan := o_Plan org; o_Settings := or_old req.2 (o_Settings org);
       o_CreatedAt := o_CreatedAt org; o_UpdatedAt := o_UpdatedAt org |})
    (internal "failed to update organization");
  ok (writeJSON 200 (BOrg org))).

Definition ListOrgMembers (orgID limit offset : string) : DB Store (Response Body) := respond (
  orgID ←? path_id orgID "invalid org ID";
  let '(limit, offset) := parsePagination limit offset in
  p ←? or_reply (Orgs_ListMembers orgID limit offset) (internal "failed to list members");
  ok (writeJSON 200 (BMembers p.1 p.2 limit offset))).

(** The quota of members, where the enforcer and the organisation are there. *)
Definition member_quota (orgID : UUID) : HTTP unit :=
  if negb enforced then ok tt
  else
    Orgs_GetByID orgID ≫= fun r : result Organization string =>
    match r with
    | Err _ => ok tt
    | Ok org =>
        quota_check (MembersPerOrg (GetLimits (o_Plan org)))
          (fun fault db => CheckMemberQuota db fault orgID (o_Plan org)) ≫= refuse_over_quota
    end.

Definition InviteOrgMember (env : Env) (orgID : string) (request : option InviteMemberRequest)
    : DB Store (Response Body) := respond (
  orgID ←? path_id orgID "invalid org ID";
  req ←? require request 400 "invalid request body";
  validated (InviteMember_Validate req);?
  let role := or_old (inv_Role req) "member" in
  member_quota orgID;?
  user ←? or_reply (Users_GetByEmail (inv_Email req))
            (not_found_or "user not found with that email" "database error");
  or_reply (Orgs_AddMember (e_now env) orgID (u_ID user) role) (internal "failed to add member");?
  LogRequest env ActionOrgMemberInvite "org" (uuid_String orgID)
    [("invited_user_id", uuid_String (u_ID user)); ("email", inv_Email req); ("role", role)];;
  ok (done_with [("status", "invited"); ("user_id", uuid_String (u_ID user))])).

Definition RemoveOrgMember (env : Env) (orgID userID : string) : DB Store (Response Body) :=
  respond (
  orgID ←? path_id orgID "invalid org ID";
  userID ←? path_id userID "invalid user ID";
  or_reply (Orgs_RemoveMember orgID userID)
    (not_found_or "member not found" "failed to remove member");?
  LogRequest env ActionOrgMemberRemove "org" (uuid_String orgID)
    [("removed_user_id", uuid_String userID)];;
  ok (done_with [("status", "removed")])).

(** ** Repositories *)

(** The organisation of the token, or of the query, or none. *)
Definition listed_org (claims : Claims) (org_id : string) : HTTP UUID :=
  if (c_OrgID claims =? 0)%N && negb (String.eqb org_id "")
  then path_id org_id "invalid org_id" else ok (c_OrgID claims).

Definition ListRepos (env : Env) (org_id limit offset : string) : DB Store (Response Body) :=
  respond (
  claims ←? require (ClaimsFromContext env) 401 "unauthorized";
  let '(limit, offset) := parsePagination limit offset in
  orgID ←? listed_org claims org_id;
  p ←? or_reply (if (orgID =? 0)%N then Repos_ListByUser (c_UserID claims) limit offset
                 else Repos_ListByOrg orgID limit offset) (internal "failed to list repositories");
  ok (writeJSON 200 (BRepos p.1 p.2 limit offset (has_more limit offset p.2)))).

(** Owner and name from the clone URL, where they are not given. *)
Definition fill_names (req : RegisterRepoRequest) : RegisterRepoRequest :=
  if negb (String.eqb (repo_CloneURL req) "")
     && (String.eqb (repo_Owner req) "" || String.eqb (repo_Name req) "") then
    match parseRepoURL (repo_CloneURL req) with
    | Some (owner, name) =>
        {| repo_Platform := repo_Platform req; repo_Owner := or_old (repo_Owner req) owner;
           repo_Name := or_old (repo_Name req) name;
           repo_DefaultBranch := repo_DefaultBranch req; repo_CloneURL := repo_CloneURL req;
           repo_ExternalID := repo_ExternalID req; repo_OrgID := repo_OrgID req |}
    | None => req
    end
  else req.

Definition hyphenate (a : ascii) : ascii :=
  if Ascii.eqb a "@" || Ascii.eqb a "." then "-"%char else a.

(** The first organisation of the user, or a new one of his own. *)
Definition personal_org (env : Env) (claims : Claims) : HTTP UUID :=
  Orgs_ListByUser (c_UserID claims) 1 0 ≫= fun r : result (list Organization * Z) string =>
  match r with
  | Ok (org :: _, _) => ok (o_ID org)
  | _ =>
      org ←? or_reply (Orgs_Create (e_now env) (e_ids env 0)
               (new_org (c_Email claims) (string_map hyphenate (ToLower (c_Email claims)))))
               (internal "failed to create personal organization");
      ignoring (Orgs_AddMember (e_now env) (o_ID org) (c_UserID claims) "owner");;
      ok (o_ID org)
  end.

Definition resolve_org (env : Env) (claims : Claims) (org_id : string) : HTTP UUID :=
  orgID ←? (if String.eqb org_id "" then ok (c_OrgID claims) else path_id org_id "invalid org_id");
  if (orgID =? 0)%N then personal_org env claims else ok orgID.

Definition repo_quota (orgID : UUID) : HTTP unit :=
  if negb enforced || (orgID =? 0)%N then ok tt
  else
    Orgs_GetByID orgID ≫= fun r : result Organization string =>
    match r with
    | Err _ => ok tt
    | Ok org =>
        quota_check (ReposPerOrg (GetLimits (o_Plan org)))
          (fun fault db => CheckRepoQuota db fault orgID (o_Plan org)) ≫= refuse_over_quota
    end.

Definition register_error (req : RegisterRepoRequest) (e : string) : Response Body :=
  if Contains e "duplicate key" || Contains e "23505"
  then writeError 409 ("Repository " ++ repo_Owner req ++ "/" ++ repo_Name req
                       ++ " is already connected")
  else writeError 500 "failed to register repository".

Definition RegisterRepo (env : Env) (request : option RegisterRepoRequest)
    : DB Store (Response Body) := respond (
  claims ←? require (ClaimsFromContext env) 401 "unauthorized";
  req ←? require request 400 "invalid request body";
  let req := fill_names req in
  validated (RegisterRepo_Validate req);?
  orgID ←? resolve_org env claims (repo_OrgID req);
  repo_quota orgID;?
  repo ←? or_reply (Repos_Create (e_now env) (e_ids env 1)
    {| r_ID := 0; r_OrgID := orgID; r_Platform := repo_Platform req;
       r_ExternalID := or_old (repo_ExternalID req) (repo_Owner req ++ "/" ++ repo_Name req);
       r_Owner := repo_Owner req; r_Name := repo_Name req;
       r_DefaultBranch := or_old (repo_DefaultBranch req) "main";
       r_CloneURL := repo_CloneURL req; r_WebhookSecret := e_random env; r_Config := "";
       r_IndexedAt := None; r_CreatedAt := 0; r_UpdatedAt := 0 |}) (register_error req);
  LogRequest env ActionRepoCreate "repo" (uuid_String (r_ID repo))
    [("platform", repo_Platform req); ("owner", repo_Owner req); ("name", repo_Name req)];;
  ok (writeJSON 201 (BRepo repo))).

Definition GetRepo (repoID : string) : DB Store (Response Body) := respond (
  repoID ←? path_id repoID "invalid repo ID";
  repo ←? or_reply (Repos_GetByID repoID) (not_found_or "repository not found" "database error");
  ok (writeJSON 200 (BRepo repo))).

Definition UpdateRepo (env : Env) (repoID : string) (request : option (UpdateRepoRequest * string))
    : DB Store (Response Body) := respond (
  repoID ←? path_id repoID "invalid repo ID";
  repo ←? or_reply (Repos_GetByID repoID) (not_found_or "repository not found" "database error");
  req ←? require request 400 "invalid request body";
  validated (UpdateRepo_Validate req.1);?
  repo ←? or_reply (Repos_Update (e_now env)
    {| r_ID := r_ID repo; r_OrgID := r_OrgID repo; r_Platform := r_Platform repo;
       r_ExternalID := r_ExternalID repo; r_Owner := r_Owner repo; r_Name := r_Name repo;
       r_DefaultBranch := or_old (urepo_DefaultBranch req.1) (r_DefaultBranch repo);
       r_CloneURL := r_CloneURL repo; r_WebhookSecret := r_WebhookSecret repo;
       r_Config := or_old req.2 (r_Config repo); r_IndexedAt := r_IndexedAt repo;
       r_CreatedAt := r_CreatedAt repo; r_UpdatedAt := r_UpdatedAt repo |})
    (internal "failed to update repository");
  ok (writeJSON 200 (BRepo repo))).

Definition DeleteRepo (env : Env) (repoID : string) : DB Store (Response Body) := respond (
  repoID ←? path_id repoID "invalid repo ID";
  act (ADeleteIndex (uuid_String repoID));;
  or_reply (Repos_Delete (e_now env) repoID)
    (not_found_or "repository not found" "failed to delete repository");?
  LogRequest env ActionRepoDelete "repo" (uuid_String repoID) [];;
  ok (done_with [("status", "deleted")])).

Definition ListRepoMembers (repoID : string) : DB Store (Response Body) := respond (
  repoID ←? path_id repoID "invalid repo ID";
  l ←? or_reply (RepoMembers_ListMembers repoID) (internal "failed to list repo members");
  ok (writeJSON 200 (BRepoMembers l (Z.of_nat (List.length l))))).

Definition AddRepoMember (env : Env) (repoID : string) (request : option (string * string))
    : DB Store (Response Body) := respond (
  repoID ←? path_id repoID "invalid repo ID";
  req ←? require request 400 "invalid request body";
  unless (String.eqb req.1 "") 400 "email is required";?
  let role := or_old req.2 "viewer" in
  unless (negb (existsb (String.eqb role) ["admin"; "reviewer"; "viewer"])) 400
    "role must be admin, reviewer, or viewer";?
  user ←? or_reply (Users_GetByEmail req.1)
            (not_found_or "user not found with that email" "failed to look up user");
  or_reply (RepoMembers_AddMember (e_now env) repoID (u_ID user) role)
    (internal "failed to add repo member");?
  ok (writeJSON 200 (BRepoMember repoID (u_ID user) role))).

Definition RemoveRepoMember (repoID userID : string) : DB Store (Response Body) := respond (
  repoID ←? path_id repoID "invalid repo ID";
  userID ←? path_id userID "invalid user ID";
  or_reply (RepoMembers_RemoveMember repoID userID)
    (not_found_or "member not found" "failed to remove repo member");?
  ok (done_with [("status", "removed")])).

(** ** Reviews *)

(** Of one repository, or of all repositories of the user. *)
Definition ListReviews (env : Env) (repo_id limit offset : string) : DB Store (Response Body) :=
  respond (
  let '(limit, offset) := parsePagination limit offset in
  p ←? (if String.eqb repo_id "" then
          userID ←? require (UserIDFromContext env) 401 "unauthorized";
          or_reply (Reviews_ListByUser userID limit offset) (internal "failed to list reviews")
        else
          repoID ←? path_id repo_id "invalid repo_id";
          or_reply (Reviews_ListByRepo repoID limit offset) (internal "failed to list reviews"));
  ok (writeJSON 200 (BReviews p.1 p.2 limit offset (has_more limit offset p.2)))).

Definition review_quota (now : Z) (repoID : UUID) : HTTP unit :=
  if negb enforced then ok tt
  else
    Repos_GetByID repoID ≫= fun r : result Repository string =>
    match r with
    | Err _ => ok tt
    | Ok repo =>
        Orgs_GetByID (r_OrgID repo) ≫= fun o : result Organization string =>
        match o with
        | Err _ => ok tt
        | Ok org =>
            quota_check (ReviewsPerDay (GetLimits (o_Plan org)))
              (fun fault db => CheckReviewQuota db fault now (o_ID org) (o_Plan org))
            ≫= refuse_over_quota
        end
    end.

Definition TriggerReview (env : Env) (request : option TriggerReviewRequest)
    : DB Store (Response Body) := respond (
  userID ←? require (UserIDFromContext env) 401 "unauthorized";
  req ←? require request 400 "invalid request body";
  validated (TriggerReview_Validate req);?
  repoID ←? path_id (rev_RepoID req) "invalid repo_id";
  review_quota (e_now env) repoID;?
  act (AReview Manual repoID (rev_PRNumber req) userID);;
  LogRequest env ActionReviewTrigger "review" (uuid_String repoID)
    [("pr_number", itoa (rev_PRNumber req)); ("source", "manual")];;
  ok (writeJSON 202 (BStatus [("status", "accepted"); ("message", "Review has been queued")]))).

Definition GetReview (reviewID : string) : DB Store (Response Body) := respond (
  reviewID ←? path_id reviewID "invalid review ID";
  rev ←? or_reply (Reviews_GetByID reviewID) (not_found_or "review not found" "database error");
  ok (writeJSON 200 (BReview rev))).

Definition GetReviewComments (reviewID : string) : DB Store (Response Body) := respond (
  reviewID ←? path_id reviewID "invalid review ID";
  l ←? or_reply (Reviews_ListCommentsByReview reviewID) (internal "failed to list comments");
  ok (writeJSON 200 (BComments l (Z.of_nat (List.length l))))).

(** ** Pull requests *)

Definition query_filter (s : string) : option string := if String.eqb s "" then None else Some s.

Definition ListPullRequests (repoID sync_status review_status author target_branch limit offset : string)
    : DB Store (Response Body) := respond (
  repoID ←? path_id repoID "invalid repository ID";
  let '(limit, offset) := parsePagination limit offset in
  let filter := {| f_SyncStatus := query_filter sync_status;
                   f_ReviewStatus := query_filter review_status;
                   f_Author := author; f_TargetBranch := target_branch |} in
  p ←? or_reply (PRs_ListByRepo repoID filter limit offset)
         (internal "failed to list pull requests");
  ok (writeJSON 200 (BPRs p.1 p.2 limit offset (has_more limit offset p.2)))).

Definition pr_error : string -> Response Body :=
  not_found_or "pull request not found" "database error".

Definition GetPullRequestByID (prID : string) : DB Store (Response Body) := respond (
  prID ←? path_id prID "invalid pull request ID";
  pr ←? or_reply (PRs_GetByID prID) pr_error;
  ok (writeJSON 200 (BPR pr))).

Definition positive_number (text : string) : option Z :=
  n ← Atoi text; if n <=? 0 then None else Some n.

Definition GetPullRequestByNumber (repoID prNumber : string) : DB Store (Response Body) :=
  respond (
  repoID ←? path_id repoID "invalid repository ID";
  prNumber ←? require (positive_number prNumber) 400 "invalid PR number";
  pr ←? or_reply (PRs_GetByRepoAndNumber repoID prNumber) pr_error;
  ok (writeJSON 200 (BPR pr))).

Definition SyncPullRequests (env : Env) (repoID : string) : DB Store (Response Body) := respond (
  repoID ←? path_id repoID "invalid repository ID";
  or_reply (Repos_GetByID repoID) (not_found_or "repository not found" "database error");?
  (if syncing then act (ASync repoID) else mret tt);;
  LogRequest env ActionPRSync "repository" (uuid_String repoID) [];;
  ok (writeJSON 202 (BStatus [("status", "accepted"); ("message", "PR sync has been triggered")]))).

Definition GetPullRequestStats (repoID : string) : DB Store (Response Body) := respond (
  repoID ←? path_id repoID "invalid repository ID";
  counts ←? or_reply (PRs_CountByRepo repoID) (internal "failed to get PR stats");
  PRs_CountEmbedQueue repoID ≫= fun r : result Z string =>
  ok (writeJSON 200 (BCounts counts match r with Ok n => n | Err _ => 0 end))).

Definition ReviewPullRequest (env : Env) (repoID prID : string) : DB Store (Response Body) :=
  respond (
  repoID ←? path_id repoID "invalid repository ID";
  prID ←? path_id prID "invalid pull request ID";
  userID ←? require (UserIDFromContext env) 401 "unauthorized";
  pr ←? or_reply (PRs_GetByID prID) pr_error;
  unless (negb (pr_RepoID pr =? repoID)%N) 400 "PR does not belong to this repository";?
  ignoring (PRs_UpdateReviewStatus (e_now env) prID PRReviewPending None);;
  act (AReview (Tracked prID) repoID (pr_PRNumber pr) userID);;
  LogRequest env ActionReviewTrigger "pull_request" (uuid_String prID)
    [("pr_number", itoa (pr_PRNumber pr)); ("source", "pr_dashboard")];;
  ok (writeJSON 202 (BStatus [("status", "accepted");
    ("message", "Review for PR #" ++ itoa (pr_PRNumber pr) ++ " has been queued")]))).

End api.

(** ** Background reviews *)

Section jobs.
Context `{Postgres} `{RowOrder} `{Collation} `{UuidText} `{VaultReader} `{Platform} `{EngineStub}.
Context `{ReviewJson} `{Model}.
Variables (engine : bool) (cfg : PipelineConfig).

(** [DeliveryRepo != nil]. *)
Variable deliveries : bool.

(** The goroutine of [TriggerReview], of [ReviewPullRequest] and of the webhook handlers; only
    the one of GitHub puts a failed review into the queue. *)
Definition run_job (env : RunEnv) (origin : Origin) (repoID : UUID) (prNumber : Z)
    (triggeredBy : UUID) : DB Store unit :=
  r ← Execute engine cfg env {| rq_RepoID := repoID; rq_PRNumber := prNumber;
                                rq_TriggeredBy := triggeredBy |};
  match origin, r with
  | Tracked prID, Err _ =>
      ignoring (PRs_UpdateReviewStatus (re_end env) prID PRReviewNone None)
  | Tracked prID, Ok res =>
      ignoring (PRs_UpdateReviewStatus (re_end env) prID PRReviewCompleted
                  (Some (res_ReviewID res)))
  | Hooked platform eventID, Err _ =>
      if deliveries && String.eqb platform PlatformGitHub
      then act (ADelivery eventID repoID platform prNumber) else mret tt
  | _, _ => mret tt
  end.

End jobs.
