(* ===== verification/Webhooks.v ===== *)
(** * Webhooks of the source hosts ([api/webhooks.go] and the end of [api/handlers.go])

    A request is recorded, its repository is looked up by the identifier in the payload, its
    signature or token is compared with the secret of the repository (or of the owner of its
    organisation), and a review is started.  The body is given as it was read, at most 5 MB;
    decoding it is a parameter. *)

From Stdlib Require Import ZArith Lia Ascii String.
From stdpp Require Import base list gmap strings sorting.
From S2P Require Import Prelude GoStrings SwarmDb Db GoFloat Regex Validation Quota Hub Http Store.
From S2P Require Import PrStore Vcs EngineClient PrSync Pipeline Jwt Api.
Local Open Scope string_scope.
Local Open Scope rtv_scope.
Local Open Scope Z_scope.

(** The fields that the handlers read. *)
Record GitHubPRPayload := { gh_Action : string; gh_Number : Z; gh_RepositoryID : Z }.
Record GitLabMRPayload := { gl_Action : string; gl_IID : Z; gl_ProjectID : Z }.
Record BitbucketPRPayload := { bb_PullRequestID : Z; bb_RepositoryUUID : string }.
Record AzureDevOpsPRPayload := {
  az_EventType : string; az_PullRequestID : Z; az_RepositoryID : string
}.

(** [json.Unmarshal] into the payloads, and whether a text is JSON for the database. *)
Class WebhookJson := {
  parseGitHubPRPayload : string -> option GitHubPRPayload;
  parseGitLabMRPayload : string -> option GitLabMRPayload;
  parseBitbucketPRPayload : string -> option BitbucketPRPayload;
  parseAzureDevOpsPRPayload : string -> option AzureDevOpsPRPayload;
  jsonb_ok : string -> bool
}.

Section webhooks.
Context `{Postgres} `{RowOrder} `{Collation} `{UuidText} `{Inet} `{VaultReader} `{WebhookMac}.
Context `{WebhookJson}.

Definition ignored (key value : string) : Response Body :=
  done_with [("status", "ignored"); (key, value)].

Definition record_event (env : Env) (platform eventType payload : string) : DB Store unit :=
  ignoring (Webhooks_RecordEvent jsonb_ok (e_now env) (e_ids env 0) platform eventType payload).

(** The repository of the payload; one that is not registered is ignored. *)
Definition registered (platform externalID : string) : HTTP Repository :=
  or_reply (Repos_GetByPlatformAndExternalID platform externalID)
    (fun e => if is_not_found e then ignored "reason" "repo not registered"
              else writeError 500 "database error").

(** The secret of the repository, or of the owner of its organisation. *)
Definition secret_of (repo : Repository) (platform : string) : DB Store string :=
  if String.eqb (r_WebhookSecret repo) "" then ResolveWebhookSecretForOrg (r_OrgID repo) platform
  else mret (r_WebhookSecret repo).

(** Start the review and mark the event. *)
Definition accept (env : Env) (platform : string) (repo : Repository) (number : Z) : DB Store unit :=
  act (AReview (Hooked platform (e_ids env 0)) (r_ID repo) number 0);;
  ignoring (Webhooks_MarkProcessed (e_ids env 0) "").

Definition HandleGitHubWebhook (env : Env) (event signature : string) (body : option string)
    : DB Store (Response Body) := respond (
  body ←? require body 400 "failed to read body";
  record_event env PlatformGitHub event body;;
  if negb (String.eqb event "pull_request") then fail (ignored "event" event)
  else
  payload ←? require (parseGitHubPRPayload body) 400 "failed to parse payload";
  repo ←? registered PlatformGitHub (itoa (gh_RepositoryID payload));
  secret_of repo PlatformGitHub ≫= fun secret : string =>
  unless (negb (ValidateWebhookHMAC body signature secret)) 401 "invalid webhook signature";?
  if negb (String.eqb (gh_Action payload) "opened")
     && negb (String.eqb (gh_Action payload) "synchronize")
  then fail (ignored "action" (gh_Action payload))
  else
  accept env PlatformGitHub repo (gh_Number payload);;
  LogRequest env ActionWebhookReceived "webhook" (uuid_String (r_ID repo))
    [("platform", "github"); ("event", "pull_request"); ("pr_number", itoa (gh_Number payload))];;
  ok (done_with [("status", "accepted")])).

Definition HandleGitLabWebhook (env : Env) (eventType token : string) (body : option string)
    : DB Store (Response Body) := respond (
  body ←? require body 400 "failed to read body";
  record_event env PlatformGitLab eventType body;;
  if negb (String.eqb eventType "Merge Request Hook") then fail (ignored "event" eventType)
  else
  payload ←? require (parseGitLabMRPayload body) 400 "failed to parse payload";
  repo ←? registered PlatformGitLab (itoa (gl_ProjectID payload));
  secret_of repo PlatformGitLab ≫= fun secret : string =>
  unless (negb (ValidateWebhookToken token secret)) 401 "invalid webhook token";?
  if negb (String.eqb (gl_Action payload) "open") && negb (String.eqb (gl_Action payload) "update")
  then fail (ignored "action" (gl_Action payload))
  else
  accept env PlatformGitLab repo (gl_IID payload);;
  ok (done_with [("status", "accepted")])).

Definition HandleBitbucketWebhook (env : Env) (eventKey signature : string) (body : option string)
    : DB Store (Response Body) := respond (
  body ←? require body 400 "failed to read body";
  record_event env PlatformBitbucket eventKey body;;
  if negb (String.eqb eventKey "pullrequest:created")
     && negb (String.eqb eventKey "pullrequest:updated")
  then fail (ignored "event" eventKey)
  else
  payload ←? require (parseBitbucketPRPayload body) 400 "failed to parse payload";
  repo ←? registered PlatformBitbucket (bb_RepositoryUUID payload);
  secret_of repo PlatformBitbucket ≫= fun secret : string =>
  unless (negb (ValidateWebhookHMAC body signature secret)) 401 "invalid webhook signature";?
  accept env PlatformBitbucket repo (bb_PullRequestID payload);;
  ok (done_with [("status", "accepted")])).

Definition HandleAzureDevOpsWebhook (env : Env) (token : string) (body : option string)
    : DB Store (Response Body) := respond (
  body ←? require body 400 "failed to read body";
  record_event env PlatformAzureDevOps "pull_request" body;;
  payload ←? require (parseAzureDevOpsPRPayload body) 400 "failed to parse payload";
  if negb (String.eqb (az_EventType payload) "git.pullrequest.created")
     && negb (String.eqb (az_EventType payload) "git.pullrequest.updated")
  then fail (ignored "event" (az_EventType payload))
  else
  repo ←? registered PlatformAzureDevOps (az_RepositoryID payload);
  secret_of repo PlatformAzureDevOps ≫= fun secret : string =>
  unless (negb (ValidateWebhookToken token secret)) 401 "invalid webhook token";?
  accept env PlatformAzureDevOps repo (az_PullRequestID payload);;
  ok (done_with [("status", "accepted")])).

(** ** Requests of all kinds *)

Inductive Hook :=
  | GitHubHook (event signature : string)
  | GitLabHook (eventType token : string)
  | BitbucketHook (eventKey signature : string)
  | AzureHook (token : string).

Definition receive (env : Env) (h : Hook) (body : option string) : DB Store (Response Body) :=
  match h with
  | GitHubHook event signature => HandleGitHubWebhook env event signature body
  | GitLabHook eventType token => HandleGitLabWebhook env eventType token body
  | BitbucketHook eventKey signature => HandleBitbucketWebhook env eventKey signature body
  | AzureHook token => HandleAzureDevOpsWebhook env token body
  end.

End webhooks.
