(* ===== verification/StoreSafety.v ===== *)
(** * What the tables keep

    [store_ok]: rows are found under their identifiers, fit their columns, refer to rows that are
    there and do not share what is unique; a pull request that is embedded has the time of it,
    one in error the text of it.  Every statement of Store.v and PrStore.v keeps it, whatever
    fails, and so does every request, review and cycle of the server. *)

From Stdlib Require Import ZArith Lia String.
From stdpp Require Import base list gmap strings sorting.
From S2P Require Import Prelude GoStrings Regex Validation Quota SwarmDb Db GoFloat Hub Http Store PrStore Vcs EngineClient PrSync Pipeline Jwt Api Webhooks.
Local Open Scope string_scope.
Local Open Scope Z_scope.
Local Open Scope rtv_scope.

(** ** Maps *)

Section maps.
Context {K A : Type} `{Countable K}.
Implicit Types (m : gmap K A) (P : K -> A -> Prop).

Lemma has_true (k : K) m : has k m = true <-> is_Some (m !! k).
Proof. unfold has. apply bool_decide_eq_true. Qed.

Lemma has_false (k : K) m : has k m = false <-> m !! k = None.
Proof. unfold has. by rewrite bool_decide_eq_false, eq_None_not_Some. Qed.

Lemma map_Forall_alter P f k m :
  map_Forall P m -> (forall x, m !! k = Some x -> P k x -> P k (f x)) -> map_Forall P (alter f k m).
Proof.
  intros Hm Hf j x [(-> & y & Hy & ->)|[_ Hj]]%lookup_alter_Some; [|by apply Hm].
  apply (Hf y Hy), Hm, Hy.
Qed.

Lemma map_Forall_keep P (Q : K * A -> Prop) `{forall x, Decision (Q x)} m :
  map_Forall P m -> map_Forall P (base.filter Q m).
Proof. intros Hm k x [Hk _]%map_lookup_filter_Some. by apply Hm. Qed.

Lemma has_alter (j k : K) f m : has j (alter f k m) = has j m.
Proof.
  unfold has. apply bool_decide_ext. destruct (decide (k = j)) as [->|]; [|by rewrite lookup_alter_ne].
  rewrite lookup_alter_eq. by rewrite fmap_is_Some.
Qed.

Lemma rows_exists (p : K * A -> bool) m :
  existsb p (rows m) = true <-> exists k x, m !! k = Some x /\ p (k, x) = true.
Proof.
  unfold rows. rewrite existsb_exists. split.
  - intros ([k x] & Hin & Hp). exists k, x. split; [|done].
    by apply elem_of_map_to_list, list_elem_of_In.
  - intros (k & x & Hk & Hp). exists (k, x). split; [|done].
    by apply list_elem_of_In, elem_of_map_to_list.
Qed.

Lemma rows_none (p : K * A -> bool) m :
  existsb p (rows m) = false <-> forall k x, m !! k = Some x -> p (k, x) = false.
Proof.
  rewrite <- not_true_iff_false, rows_exists. split.
  - intros Hn k x Hk. destruct (p (k, x)) eqn:E; [|done]. destruct Hn. eauto.
  - intros Hn (k & x & Hk & Hp). by rewrite (Hn k x Hk) in Hp.
Qed.
End maps.

(** Rows of a [SELECT] *)
Section selects.
Context `{RowOrder}.

Lemma where_elem {K A} `{Countable K} (p : K -> A -> bool) (m : gmap K A) k x :
  (k, x) ∈ where_ p m -> m !! k = Some x /\ p k x = true.
Proof.
  unfold where_. rewrite row_order_perm. intros Hin%list_elem_of_In%filter_In.
  destruct Hin as [Hin Hp]. split; [|done]. by apply elem_of_map_to_list, list_elem_of_In.
Qed.

Lemma elem_where {K A} `{Countable K} (p : K -> A -> bool) (m : gmap K A) k x :
  m !! k = Some x -> p k x = true -> (k, x) ∈ where_ p m.
Proof.
  intros Hk Hp. unfold where_. rewrite row_order_perm. apply list_elem_of_In, filter_In.
  split; [|done]. by apply list_elem_of_In, elem_of_map_to_list.
Qed.

End selects.

Lemma map_Forall_update_where {A} (P : UUID -> A -> Prop) p f (m : gmap UUID A) :
  map_Forall P m -> (forall k x, m !! k = Some x -> p k x = true -> P k x -> P k (f x)) ->
  map_Forall P (update_where p f m).
Proof.
  intros Hm Hf k x. rewrite update_where_lookup. destruct (m !! k) as [y|] eqn:E; [|done].
  intros [= <-]. pose proof (Hm k y E). destruct (p k y) eqn:Ep; eauto.
Qed.

(** Rows that agree on [key] are one row. *)
Definition unique {A B} (key : A -> B) (m : gmap UUID A) : Prop :=
  forall i j x y, m !! i = Some x -> m !! j = Some y -> key x = key y -> i = j.

Lemma unique_insert {A B} (key : A -> B) (m : gmap UUID A) i x :
  unique key m -> (forall j y, j <> i -> m !! j = Some y -> key y <> key x) ->
  unique key (<[i := x]> m).
Proof.
  intros Hm Hx j k y z. rewrite !lookup_insert_Some.
  intros [[<- <-]|[Hj Hy]] [[<- <-]|[Hk Hz]] E; [done|..].
  - by destruct (Hx k z).
  - by destruct (Hx j y).
  - by apply (Hm _ _ _ _ Hy Hz).
Qed.

Lemma unique_alter {A B} (key : A -> B) (m : gmap UUID A) f i :
  unique key m ->
  (forall x, m !! i = Some x -> key (f x) = key x \/
     forall j y, j <> i -> m !! j = Some y -> key y <> key (f x)) ->
  unique key (alter f i m).
Proof.
  intros Hm Hf. destruct (m !! i) as [x|] eqn:E; [|by rewrite alter_id'].
  intros j k y z Hy Hz Eyz.
  apply lookup_alter_Some in Hy, Hz.
  destruct (Hf x eq_refl) as [Hx|Hx];
    destruct Hy as [(-> & y' & Hy & ->)|[Hj Hy]], Hz as [(-> & z' & Hz & ->)|[Hk Hz]]; simplify_eq; try done.
  - rewrite Hx in Eyz. by apply (Hm _ _ _ _ E Hz).
  - rewrite Hx in Eyz. by apply (Hm _ _ _ _ Hy E).
  - by apply (Hm _ _ _ _ Hy Hz).
  - by destruct (Hx k z).
  - by destruct (Hx j y).
  - by apply (Hm _ _ _ _ Hy Hz).
Qed.

Lemma unique_sub {A B} (key : A -> B) (m m' : gmap UUID A) :
  unique key m -> m' ⊆ m -> unique key m'.
Proof.
  intros Hm Hs i j x y Hi Hj. apply Hm; by apply (lookup_weaken m').
Qed.

Lemma unique_update_where {A B} (key : A -> B) p f (m : gmap UUID A) :
  unique key m -> (forall x, key (f x) = key x) -> unique key (update_where p f m).
Proof.
  intros Hm Hf i j x y. rewrite !update_where_lookup.
  destruct (m !! i) as [x'|] eqn:Ei; [|done]. destruct (m !! j) as [y'|] eqn:Ej; [|done].
  intros [= <-] [= <-] E. apply (Hm _ _ _ _ Ei Ej).
  destruct (p i x'), (p j y'); by rewrite ?Hf in E.
Qed.

(** ** The invariant *)

Section ok.
Context `{Postgres}.

Definition user_ok (id : UUID) (u : User) : Prop := u_ID u = id /\ user_accepted u = true.
Definition identity_ok (s : Store) (k : string * string) (oi : OAuthIdentity) : Prop :=
  has (oi_UserID oi) (s_users s) = true /\ varchar 50 k.1 = true /\ varchar 255 k.2 = true /\
  text_ok (oi_AccessTokenEnc oi) = true /\ text_ok (oi_RefreshTokenEnc oi) = true /\
  text_ok (oi_Scopes oi) = true.

(** No statement of the server changes the plan of an organisation. *)
Definition org_ok (id : UUID) (o : Organization) : Prop :=
  o_ID o = id /\ org_accepted o = true /\ o_Plan o = "free".
Definition member_ok (s : Store) (k : UUID * UUID) (m : OrgMember) : Prop :=
  has k.1 (s_orgs s) = true /\ has k.2 (s_users s) = true /\ m_Role m ∈ roles.
Definition repo_ok (s : Store) (id : UUID) (r : Repository) : Prop :=
  r_ID r = id /\ has (r_OrgID r) (s_orgs s) = true /\ repo_columns r = true /\
  r_Platform r ∈ platforms.

(** The roles that [AddRepoMember] accepts *)
Definition repo_roles : list string := ["admin"; "reviewer"; "viewer"].
Definition repo_member_ok (s : Store) (k : UUID * UUID) (m : RepoMember) : Prop :=
  has k.1 (s_repos s) = true /\ has k.2 (s_users s) = true /\ rm_Role m ∈ repo_roles.

Definition review_statuses : list string :=
  [ReviewStatusPending; ReviewStatusInProgress; ReviewStatusCompleted; ReviewStatusFailed].

(** A review has a status of the program, and the time of its end once it has ended. *)
Definition ended_ok (rv : Review) : Prop :=
  rv_Status rv ∈ review_statuses /\
  (rv_Status rv ∈ [ReviewStatusCompleted; ReviewStatusFailed] -> is_Some (rv_CompletedAt rv)).
Definition review_ok (s : Store) (id : UUID) (rv : Review) : Prop :=
  rv_ID rv = id /\ review_accepted rv s = true /\ ended_ok rv.
Definition comment_ok (s : Store) (_ : UUID) (c : ReviewComment) : Prop :=
  comment_accepted c s = true /\ valid_severity (rc_Severity c) = true.

(** Events come from the hosts that have a webhook. *)
Definition event_ok (_ : UUID) (e : WebhookEvent) : Prop :=
  w_Platform e ∈ platforms /\ varchar 100 (w_EventType e) = true /\ (w_Error e = "" \/ text_ok (w_Error e) = true).
Definition entry_ok (s : Store) (e : AuditEntry) : Prop :=
  match ae_UserID e with Some u => has u (s_users s) = true | None => True end /\
  varchar 100 (ae_Action e) = true /\ varchar 100 (ae_ResourceType e) = true /\
  varchar 255 (ae_ResourceID e) = true /\ text_ok (ae_UserAgent e) = true.
Definition platform_ok (s : Store) (k : UUID * string) (p : UserVCSPlatform) : Prop :=
  platform_accepted k.1 k.2 p s = true.

(** The columns of embedding agree with the status. *)
Definition sync_ok (p : TrackedPullRequest) : Prop :=
  In (pr_SyncStatus p) [PRSyncStatusOpen; PRSyncStatusDraft; PRSyncStatusStale;
                        PRSyncStatusEmbedding; PRSyncStatusEmbedded; PRSyncStatusEmbedError] /\
  (pr_SyncStatus p = PRSyncStatusEmbedded -> is_Some (pr_EmbeddedAt p)) /\
  (pr_SyncStatus p = PRSyncStatusEmbedError -> is_Some (pr_EmbedError p)).
Definition pr_review_statuses : list string := [PRReviewNone; PRReviewPending; PRReviewCompleted].
Definition pr_ok (s : Store) (id : UUID) (p : TrackedPullRequest) : Prop :=
  pr_ID p = id /\ pr_accepted p s = true /\ sync_ok p /\ pr_ReviewStatus p ∈ pr_review_statuses.

Definition repo_key (r : Repository) : string * string := (r_Platform r, r_ExternalID r).
Definition pr_key (p : TrackedPullRequest) : UUID * string * Z :=
  (pr_RepoID p, pr_Platform p, pr_PRNumber p).

Record store_ok (s : Store) : Prop := {
  so_users : map_Forall user_ok (s_users s);
  so_emails : unique u_Email (s_users s);
  so_identities : map_Forall (identity_ok s) (s_identities s);
  so_orgs : map_Forall org_ok (s_orgs s);
  so_slugs : unique o_Slug (s_orgs s);
  so_members : map_Forall (member_ok s) (s_members s);
  so_repos : map_Forall (repo_ok s) (s_repos s);
  so_external : unique repo_key (s_repos s);
  so_repo_members : map_Forall (repo_member_ok s) (s_repo_members s);
  so_reviews : map_Forall (review_ok s) (s_reviews s);
  so_comments : map_Forall (comment_ok s) (s_comments s);
  so_events : map_Forall event_ok (s_webhooks s);
  so_platforms : map_Forall (platform_ok s) (s_platforms s);
  so_audit : Forall (entry_ok s) (s_audit s);
  so_prs : map_Forall (pr_ok s) (s_prs s);
  so_numbers : unique pr_key (s_prs s)
}.

(** ** Rows that others refer to stay *)

Record grows (s s' : Store) : Prop := {
  gr_users : forall id, has id (s_users s) = true -> has id (s_users s') = true;
  gr_orgs : forall id, has id (s_orgs s) = true -> has id (s_orgs s') = true;
  gr_repos : forall id, has id (s_repos s) = true -> has id (s_repos s') = true;
  gr_reviews : forall id, has id (s_reviews s) = true -> has id (s_reviews s') = true
}.

Lemma has_insert {K A} `{Countable K} (j k : K) (x : A) m :
  has j m = true -> has j (<[k := x]> m) = true.
Proof. rewrite !has_true. intros. by apply lookup_insert_is_Some'; right. Qed.

Lemma identity_grows s s' k x : grows s s' -> identity_ok s k x -> identity_ok s' k x.
Proof. intros [G ???] [? ?]. unfold identity_ok. auto. Qed.
Lemma member_grows s s' k x : grows s s' -> member_ok s k x -> member_ok s' k x.
Proof. intros [????] (?&?&?). unfold member_ok. eauto. Qed.
Lemma repo_grows s s' k x : grows s s' -> repo_ok s k x -> repo_ok s' k x.
Proof. intros [????] (?&?&?&?). unfold repo_ok. eauto. Qed.
Lemma repo_member_grows s s' k x : grows s s' -> repo_member_ok s k x -> repo_member_ok s' k x.
Proof. intros [????] (?&?&?). unfold repo_member_ok. eauto. Qed.
Lemma review_grows s s' k x : grows s s' -> review_ok s k x -> review_ok s' k x.
Proof.
  intros [????] (? & Ha & ?). split_and!; [done| |done]. unfold review_accepted in *.
  rewrite !andb_true_iff in *. intuition eauto.
Qed.
Lemma comment_grows s s' k x : grows s s' -> comment_ok s k x -> comment_ok s' k x.
Proof.
  intros [????] [Ha ?]. split; [|done]. unfold comment_accepted in *.
  rewrite !andb_true_iff in *. intuition eauto.
Qed.
Lemma platform_grows s s' k x : grows s s' -> platform_ok s k x -> platform_ok s' k x.
Proof.
  intros [????] Ha. unfold platform_ok, platform_accepted in *.
  rewrite !andb_true_iff in *. intuition eauto.
Qed.
Lemma entry_grows s s' x : grows s s' -> entry_ok s x -> entry_ok s' x.
Proof. intros [????] [Ha ?]. split; [|done]. destruct (ae_UserID x); auto. Qed.
Lemma pr_accepted_grows s s' x : grows s s' -> pr_accepted x s = true -> pr_accepted x s' = true.
Proof.
  intros [????] Ha. unfold pr_accepted in *. rewrite !andb_true_iff in *.
  destruct (pr_LastReviewID x); intuition eauto.
Qed.
Lemma pr_grows s s' k x : grows s s' -> pr_ok s k x -> pr_ok s' k x.
Proof. intros G (?&?&?). split; [done|]. split; [by apply (pr_accepted_grows s)|done]. Qed.

(** Only what changes has to be shown. *)
Lemma store_ok_grows s s' :
  store_ok s -> grows s s' ->
  (s_users s' = s_users s \/ map_Forall user_ok (s_users s') /\ unique u_Email (s_users s')) ->
  (s_identities s' = s_identities s \/ map_Forall (identity_ok s') (s_identities s')) ->
  (s_orgs s' = s_orgs s \/ map_Forall org_ok (s_orgs s') /\ unique o_Slug (s_orgs s')) ->
  (s_members s' = s_members s \/ map_Forall (member_ok s') (s_members s')) ->
  (s_repos s' = s_repos s \/
     map_Forall (repo_ok s') (s_repos s') /\ unique repo_key (s_repos s')) ->
  (s_repo_members s' = s_repo_members s \/ map_Forall (repo_member_ok s') (s_repo_members s')) ->
  (s_reviews s' = s_reviews s \/ map_Forall (review_ok s') (s_reviews s')) ->
  (s_comments s' = s_comments s \/ map_Forall (comment_ok s') (s_comments s')) ->
  (s_webhooks s' = s_webhooks s \/ map_Forall event_ok (s_webhooks s')) ->
  (s_platforms s' = s_platforms s \/ map_Forall (platform_ok s') (s_platforms s')) ->
  (s_audit s' = s_audit s \/ Forall (entry_ok s') (s_audit s')) ->
  (s_prs s' = s_prs s \/ map_Forall (pr_ok s') (s_prs s') /\ unique pr_key (s_prs s')) ->
  store_ok s'.
Proof.
  intros [] G Hu Hi Ho Hm Hr Hrm Hrv Hc Hw Hvp Ha Hp.
  split; match goal with
         | |- map_Forall _ (s_users _) => destruct Hu as [E|[? ?]]
         | |- unique u_Email _ => destruct Hu as [E|[? ?]]
         | |- map_Forall _ (s_orgs _) => destruct Ho as [E|[? ?]]
         | |- unique o_Slug _ => destruct Ho as [E|[? ?]]
         | |- map_Forall _ (s_repos _) => destruct Hr as [E|[? ?]]
         | |- unique repo_key _ => destruct Hr as [E|[? ?]]
         | |- map_Forall _ (s_prs _) => destruct Hp as [E|[? ?]]
         | |- unique pr_key _ => destruct Hp as [E|[? ?]]
         | |- map_Forall _ (s_identities _) => destruct Hi as [E|?]
         | |- map_Forall _ (s_members _) => destruct Hm as [E|?]
         | |- map_Forall _ (s_repo_members _) => destruct Hrm as [E|?]
         | |- map_Forall _ (s_reviews _) => destruct Hrv as [E|?]
         | |- map_Forall _ (s_comments _) => destruct Hc as [E|?]
         | |- map_Forall _ (s_webhooks _) => destruct Hw as [E|?]
         | |- map_Forall _ (s_platforms _) => destruct Hvp as [E|?]
         | |- Forall _ (s_audit _) => destruct Ha as [E|?]
         end; try assumption; rewrite E; try assumption;
    first [eapply map_Forall_impl; [eassumption|] | eapply Forall_impl; [eassumption|]];
    intros; simpl in *;
    eauto using identity_grows, member_grows, repo_grows, repo_member_grows, review_grows,
      comment_grows, pr_grows, platform_grows, entry_grows.
Qed.


(** ** Statements *)

Lemma has_insert_true {K A} `{Countable K} (k : K) (x : A) m : has k (<[k := x]> m) = true.
Proof. apply has_true. by rewrite lookup_insert_eq. Qed.

Lemma has_alter_true {K A} `{Countable K} (j k : K) (f : A -> A) m :
  has j m = true -> has j (alter f k m) = true.
Proof. by rewrite has_alter. Qed.

Lemma has_delete_true {K A} `{Countable K} (j k : K) (m : gmap K A) :
  j <> k -> has j m = true -> has j (delete k m) = true.
Proof. rewrite !has_true. intros. by rewrite lookup_delete_ne. Qed.

Lemma has_filter_true {K A} `{Countable K} (Q : K * A -> Prop) `{forall x, Decision (Q x)} k m x :
  m !! k = Some x -> Q (k, x) -> has k (base.filter Q m) = true.
Proof. intros Hk Hq. apply has_true. exists x. by apply map_lookup_filter_Some. Qed.

(** Keep the invariant from [Hs]: the tables that change are left. *)
Ltac keeps Hs :=
  apply (store_ok_grows _ _ Hs);
    [split; simpl; auto using has_insert, has_alter_true | simpl; try (by left); right ..].

Lemma unique_insert_key {A B} (key : A -> B) (m : gmap UUID A) i x (eq : UUID * A -> bool) :
  unique key m -> existsb eq (rows m) = false ->
  (forall j y, key y = key x -> eq (j, y) = true) -> unique key (<[i := x]> m).
Proof.
  intros Hm Hn He. apply unique_insert; [done|]. intros j y _ Hy E.
  pose proof (proj1 (rows_none _ _) Hn j y Hy) as Hf. simpl in Hf. by rewrite He in Hf.
Qed.

Context `{RowOrder} `{Collation}.

Lemma Users_Create_stays now id token u : stays store_ok (Users_Create now id token u).
Proof.
  unfold Users_Create. stay. intros s Hs [_ Hd]%orb_false_iff Ha. keeps Hs. split.
  - apply map_Forall_insert_2; [|apply Hs]. by split.
  - eapply unique_insert_key; [apply Hs|exact Hd|]. intros j y Hy. simpl in *.
    by rewrite Hy, String.eqb_refl.
Qed.

Lemma Users_Update_stays now u : stays store_ok (Users_Update now u).
Proof.
  unfold Users_Update, exec_row. stay. intros s Hs Ha. simpl in *. keeps Hs.
  destruct (has (u_ID u) (s_users s)) eqn:E.
  - simpl in Ha. apply andb_true_iff in Ha as [Ha Ht]. apply negb_true_iff in Ht. split.
    + apply map_Forall_alter; [apply Hs|]. intros old Hold [Hid Hok]. split; [done|].
      revert Ha Hok. unfold user_accepted. simpl. rewrite !andb_true_iff. tauto.
    + apply unique_alter; [apply Hs|]. intros old Hold. right. intros j y Hj Hy. simpl. intros Ey.
      pose proof (proj1 (rows_none _ _) Ht j y Hy) as Hf. simpl in Hf.
      rewrite Ey, String.eqb_refl, andb_true_r in Hf.
      apply negb_false_iff, N.eqb_eq in Hf. congruence.
  - apply has_false in E. rewrite alter_id' by done. split; apply Hs.
Qed.

Lemma Users_UpsertOAuthIdentity_stays provider providerUserID oi :
  stays store_ok (Users_UpsertOAuthIdentity provider providerUserID oi).
Proof.
  unfold Users_UpsertOAuthIdentity. stay. intros s Hs Ha. rewrite !andb_true_iff in Ha.
  keeps Hs. apply map_Forall_insert_2; [|apply Hs]. unfold identity_ok. simpl. tauto.
Qed.

Lemma Orgs_Create_stays now id o : o_Plan o = "free" -> stays store_ok (Orgs_Create now id o).
Proof.
  intros Hfree. unfold Orgs_Create. stay. intros s Hs [_ Hd]%orb_false_iff Ha. keeps Hs. split.
  - apply map_Forall_insert_2; [|apply Hs]. by split.
  - eapply unique_insert_key; [apply Hs|exact Hd|]. intros j y Hy. simpl in *.
    by rewrite Hy, String.eqb_refl.
Qed.

Lemma Orgs_Update_stays now o : o_Plan o = "free" -> stays store_ok (Orgs_Update now o).
Proof.
  intros Hfree. unfold Orgs_Update, exec_row. stay. intros s Hs Ha. simpl in *. keeps Hs.
  destruct (has (o_ID o) (s_orgs s)) eqn:E.
  - simpl in Ha. apply andb_true_iff in Ha as [Ha Ht]. apply negb_true_iff in Ht. split.
    + apply map_Forall_alter; [apply Hs|]. intros old Hold [Hid Hok]. by split.
    + apply unique_alter; [apply Hs|]. intros old Hold. right. intros j y Hj Hy. simpl. intros Ey.
      pose proof (proj1 (rows_none _ _) Ht j y Hy) as Hf. simpl in Hf.
      rewrite Ey, String.eqb_refl, andb_true_r in Hf.
      apply negb_false_iff, N.eqb_eq in Hf. congruence.
  - apply has_false in E. rewrite alter_id' by done. split; apply Hs.
Qed.

Lemma Orgs_AddMember_stays now orgID userID role :
  role ∈ roles -> stays store_ok (Orgs_AddMember now orgID userID role).
Proof.
  intros Hrole. unfold Orgs_AddMember. stay. intros s Hs Ha. rewrite !andb_true_iff in Ha. keeps Hs.
  apply map_Forall_insert_2; [|apply Hs]. unfold member_ok. simpl. tauto.
Qed.

Lemma Orgs_RemoveMember_stays orgID userID : stays store_ok (Orgs_RemoveMember orgID userID).
Proof.
  unfold Orgs_RemoveMember, exec_row. stay. intros s Hs _. simpl. keeps Hs.
  apply map_Forall_delete, Hs.
Qed.

Lemma RepoMembers_AddMember_stays now repoID userID role :
  role ∈ repo_roles -> stays store_ok (RepoMembers_AddMember now repoID userID role).
Proof.
  intros Hrole. unfold RepoMembers_AddMember. stay. intros s Hs Ha. rewrite !andb_true_iff in Ha. keeps Hs.
  apply map_Forall_insert_2; [|apply Hs]. unfold repo_member_ok. simpl. tauto.
Qed.

Lemma RepoMembers_RemoveMember_stays repoID userID :
  stays store_ok (RepoMembers_RemoveMember repoID userID).
Proof.
  unfold RepoMembers_RemoveMember, exec_row. stay. intros s Hs _. simpl. keeps Hs.
  apply map_Forall_delete, Hs.
Qed.

(** *** Repositories *)

Lemma Repos_Create_stays now id r :
  r_Platform r ∈ platforms -> stays store_ok (Repos_Create now id r).
Proof.
  intros Hp. unfold Repos_Create. stay. intros s Hs [_ Hd]%orb_false_iff Ha.
  apply andb_true_iff in Ha as [Ho Hc]. keeps Hs. split.
  - apply map_Forall_insert_2; [by split_and!|]. eapply map_Forall_impl; [apply Hs|]. done.
  - eapply unique_insert_key; [apply Hs|exact Hd|]. intros j y [= E1 E2]. simpl in *.
    by rewrite E1, E2, !String.eqb_refl.
Qed.

Lemma Repos_Update_stays now r :
  r_Platform r ∈ platforms -> stays store_ok (Repos_Update now r).
Proof.
  intros Hp. unfold Repos_Update, exec_row. stay. intros s Hs Ha. simpl in *. keeps Hs.
  destruct (s_repos s !! r_ID r) as [old|] eqn:E;
    [|rewrite alter_id' by done; split; [|apply Hs]; eapply map_Forall_impl; [apply Hs|]; done].
  assert (has (r_ID r) (s_repos s) = true) as Eh by (apply has_true; eauto).
  rewrite Eh in Ha. simpl in Ha. apply andb_true_iff in Ha as [Ha Ht].
  apply negb_true_iff in Ht. unfold external_taken in Ht. rewrite E in Ht. split.
  - apply map_Forall_alter.
    + eapply map_Forall_impl; [apply Hs|]. done.
    + intros x Hx (Hid & Ho & Hc & _). split_and!; [done..| |done].
      revert Ha Hc. unfold repo_columns. simpl. rewrite !andb_true_iff. tauto.
  - apply unique_alter; [apply Hs|]. intros x Hx. right. intros j y Hj Hy [= E1 E2].
    simplify_eq. pose proof (proj1 (rows_none _ _) Ht j y Hy) as Hf. simpl in Hf.
    rewrite E1, E2, !String.eqb_refl, !andb_true_r in Hf.
    apply negb_false_iff, N.eqb_eq in Hf. congruence.
Qed.

Lemma Repos_MarkIndexed_stays now id : stays store_ok (Repos_MarkIndexed now id).
Proof.
  unfold Repos_MarkIndexed, exec_row. stay. intros s Hs _. simpl. keeps Hs. split.
  - apply map_Forall_alter; [eapply map_Forall_impl; [apply Hs|]; done|].
    intros x _ (?&?&?&?). by split_and!.
  - apply unique_alter; [apply Hs|]. auto.
Qed.

(** What is left refers to nothing that is gone. *)
Lemma belongs_false s id rid rv :
  s_reviews s !! rid = Some rv -> belongs s id rid = false -> (rv_RepoID rv =? id)%N = false.
Proof. unfold belongs. by intros ->. Qed.


Lemma cascade_reviews now s id k x :
  store_ok s -> s_reviews (cascade_repo now id s) !! k = Some x ->
  review_ok (cascade_repo now id s) k x.
Proof.
  intros Hs [Hk E]%map_lookup_filter_Some. simpl in E.
  destruct (so_reviews _ Hs k x Hk) as (Hid & Ha & He). split_and!; [done| |done].
  revert Ha. unfold review_accepted. rewrite !andb_true_iff. simpl.
  intuition auto using has_delete_true.
  apply has_delete_true; [|done]. by apply N.eqb_neq.
Qed.

Lemma cascade_comments now s id k x :
  store_ok s -> s_comments (cascade_repo now id s) !! k = Some x ->
  comment_ok (cascade_repo now id s) k x.
Proof.
  intros Hs [Hk E]%map_lookup_filter_Some. simpl in E.
  destruct (so_comments _ Hs k x Hk) as [Ha Hsev]. split; [|done]. revert Ha.
  unfold comment_accepted. rewrite !andb_true_iff. simpl. intuition auto.
  match goal with H : has _ _ = true |- _ => apply has_true in H as [rv Hrv] end.
  eapply has_filter_true; [exact Hrv|]. by apply (belongs_false s _ (rc_ReviewID x)).
Qed.

Lemma cascade_prs now s id k x :
  store_ok s -> s_prs (cascade_repo now id s) !! k = Some x -> pr_ok (cascade_repo now id s) k x.
Proof.
  intros Hs. simpl. rewrite update_where_lookup. intros [y [Ex Hy]]%fmap_Some.
  apply map_lookup_filter_Some in Ex as [Hk E]. simpl in E.
  destruct (so_prs _ Hs k y Hk) as (Hid & Ha & Hsync & Hrs).
  assert (has (pr_RepoID y) (s_repos (cascade_repo now id s)) = true) as Hr.
  { simpl. apply has_delete_true; [by apply N.eqb_neq|]. unfold pr_accepted in Ha.
    rewrite !andb_true_iff in Ha. tauto. }
  destruct (review_gone s id k y) eqn:Eg; subst x; (split_and!; [exact Hid| |exact Hsync|exact Hrs]);
    unfold pr_accepted in *; rewrite !andb_true_iff in *; cbn [unlink_review pr_LastReviewID pr_RepoID] in *.
  - tauto.
  - unfold review_gone in Eg. destruct (pr_LastReviewID y) as [r|]; [|tauto]. intuition auto.
    match goal with H : has r _ = true |- _ => apply has_true in H as [rv Hrv] end.
    eapply has_filter_true; [exact Hrv|]. by apply (belongs_false s _ r).
Qed.

Lemma cascade_ok now s id : store_ok s -> store_ok (cascade_repo now id s).
Proof.
  intros Hs. pose proof Hs as []. split; try done.
  - apply map_Forall_delete. done.
  - eapply unique_sub; [done|]. apply delete_subseteq.
  - intros k x [Hk E]%map_lookup_filter_Some. destruct (so_repo_members0 k x Hk) as (?&?&?).
    split_and!; [|done..]. simpl in *. apply has_delete_true; [by apply N.eqb_neq|done].
  - intros k x. by apply cascade_reviews.
  - intros k x. by apply cascade_comments.
  - intros k x. by apply cascade_prs.
  - apply unique_update_where; [|done]. eapply unique_sub; [done|]. apply map_filter_subseteq.
Qed.

Lemma Repos_Delete_stays now id : stays store_ok (Repos_Delete now id).
Proof. unfold Repos_Delete, exec_row. stay. intros s Hs _. by apply cascade_ok. Qed.

(** *** Reviews *)

Lemma Reviews_Create_stays now id rv :
  rv_Status rv = ReviewStatusPending -> stays store_ok (Reviews_Create now id rv).
Proof.
  intros Hst. unfold Reviews_Create. stay. intros s Hs _ Ha. keeps Hs.
  apply map_Forall_insert_2.
  { split_and!; [done..|]. unfold ended_ok. simpl. rewrite Hst. split; [by left|].
    by intros []%(bool_decide_pack _). } eapply map_Forall_impl; [apply Hs|]. done.
Qed.

Lemma Reviews_UpdateStatus_stays now id status metadata :
  status ∈ review_statuses -> stays store_ok (Reviews_UpdateStatus now id status metadata).
Proof.
  intros Hst. unfold Reviews_UpdateStatus, exec_row. stay. intros s Hs [Hv _]%andb_true_iff. simpl. keeps Hs.
  apply map_Forall_alter; [eapply map_Forall_impl; [apply Hs|]; done|].
  intros x _ (Hid & Ha & Hold & He). split_and!; [done| |split; [done|]].
  - revert Ha. unfold review_accepted. simpl. rewrite !andb_true_iff. tauto.
  - simpl. intros Hin. assert (String.eqb status ReviewStatusCompleted
      || String.eqb status ReviewStatusFailed = true) as ->; [|by eexists].
    apply orb_true_iff. rewrite !String.eqb_eq. set_unfold in Hin. tauto.
Qed.

Lemma Reviews_CreateComment_stays now id c :
  valid_severity (rc_Severity c) = true -> stays store_ok (Reviews_CreateComment now id c).
Proof.
  intros Hsev. unfold Reviews_CreateComment. stay. intros s Hs _ Ha. keeps Hs.
  apply map_Forall_insert_2; [done|]. eapply map_Forall_impl; [apply Hs|]. done.
Qed.

(** *** Tables without references to them *)

Lemma Webhooks_RecordEvent_stays json_ok now id platform eventType payload :
  platform ∈ platforms ->
  stays store_ok (Webhooks_RecordEvent json_ok now id platform eventType payload).
Proof.
  intros Hp. unfold Webhooks_RecordEvent. stay. intros s Hs _ Ha. rewrite !andb_true_iff in Ha.
  keeps Hs. apply map_Forall_insert_2; [|apply Hs].
  unfold event_ok. cbn [w_Platform w_EventType w_Error]. split_and!; [done|tauto|by left].
Qed.

Lemma Webhooks_MarkProcessed_stays id errMsg : stays store_ok (Webhooks_MarkProcessed id errMsg).
Proof.
  unfold Webhooks_MarkProcessed. stay. intros s Hs Ht. keeps Hs.
  apply map_Forall_alter; [apply Hs|]. intros e _ (?&?&?). split_and!; [done..|by right].
Qed.

Lemma Platforms_Upsert_stays userID platform p : stays store_ok (Platforms_Upsert userID platform p).
Proof.
  unfold Platforms_Upsert. stay. intros s Hs Ha. keeps Hs.
  apply map_Forall_insert_2; [done|]. eapply map_Forall_impl; [apply Hs|]. done.
Qed.

Lemma Platforms_Delete_stays userID platform :
  stays store_ok (Platforms_DeleteByUserAndPlatform userID platform).
Proof.
  unfold Platforms_DeleteByUserAndPlatform, exec_row. stay. intros s Hs _. simpl. keeps Hs.
  apply map_Forall_delete. eapply map_Forall_impl; [apply Hs|]. done.
Qed.

Lemma Audit_Create_stays `{Inet} e : stays store_ok (Audit_Create e).
Proof.
  unfold Audit_Create. stay. intros s Hs Ha. rewrite !andb_true_iff in Ha. keeps Hs.
  apply Forall_app. split; [eapply Forall_impl; [apply Hs|]; done|]. apply Forall_singleton.
  unfold entry_ok. simpl. destruct (ae_UserID e); tauto.
Qed.

Lemma act_stays a : stays store_ok (act a).
Proof. unfold act. stay. intros s Hs. by keeps Hs. Qed.

(** *** Pull requests *)

Lemma same_pr_key p q : same_pr p q = true <-> pr_key p = pr_key q.
Proof.
  unfold same_pr, pr_key. rewrite !andb_true_iff, N.eqb_eq, String.eqb_eq, Z.eqb_eq.
  split; [intros [[-> ->] ->]; done|by intros [= -> -> ->]].
Qed.

(** What the worker and the API store: the status of a sync is the host's. *)
Definition synced (p : TrackedPullRequest) : Prop :=
  (pr_SyncStatus p = PRSyncStatusOpen \/ pr_SyncStatus p = PRSyncStatusDraft) /\
  pr_ReviewStatus p = PRReviewNone.

Lemma synced_ok p : synced p -> sync_ok p.
Proof. intros [[E|E] _]; unfold sync_ok; rewrite E; simpl; intuition (try done). Qed.

Lemma on_conflict_sync now e p : synced e -> sync_ok p -> sync_ok (on_conflict now e p).
Proof.
  intros [He _] (Hin & Hem & Her). unfold sync_ok, on_conflict. simpl.
  destruct (String.eqb (pr_HeadSHA p) (pr_HeadSHA e)); simpl.
  - destruct (embed_status (pr_SyncStatus p)); [done|].
    destruct He as [E|E]; rewrite E; simpl; intuition (try done).
  - destruct He as [E|E]; rewrite E; simpl; intuition (try done).
Qed.

Lemma on_conflict_accepted now e p s :
  pr_accepted e s = true -> pr_accepted p s = true -> pr_accepted (on_conflict now e p) s = true.
Proof.
  unfold pr_accepted. rewrite !andb_true_iff. simpl. intros He Hp.
  destruct (String.eqb (pr_HeadSHA p) (pr_HeadSHA e)), (embed_status (pr_SyncStatus p)); simpl;
    intuition auto.
Qed.

Lemma conflicting_nil p s :
  conflicting p s = [] -> forall j y, s_prs s !! j = Some y -> same_pr y p = false.
Proof.
  intros E j y Hy. destruct (same_pr y p) eqn:Es; [|done]. exfalso.
  assert (In (j, y) (conflicting p s)) as Hin.
  { apply filter_In. split; [|done]. by apply list_elem_of_In, elem_of_map_to_list. }
  by rewrite E in Hin.
Qed.

Lemma PRs_Upsert_stays now id p : synced p -> stays store_ok (PRs_Upsert now id p).
Proof.
  intros Hp. unfold PRs_Upsert. stay. intros s Hs Hd Ha.
  assert (synced (to_insert now id p)) as Hq by exact Hp.
  revert Hq Hd Ha. generalize (to_insert now id p) as q. intros q Hq Hd Ha.
  unfold upsert_row. unfold id_taken in Hd. destruct (conflicting q s) eqn:E.
  - keeps Hs. split.
    + apply map_Forall_insert_2.
      { split_and!; [done|exact Ha|by apply synced_ok|]. rewrite (proj2 Hq). by left. }
      eapply map_Forall_impl; [apply Hs|]. done.
    + apply unique_insert; [apply Hs|]. intros j y _ Hy Ey.
      apply same_pr_key in Ey. by rewrite (conflicting_nil _ _ E j y Hy) in Ey.
  - keeps Hs. split.
    + apply map_Forall_update_where; [eapply map_Forall_impl; [apply Hs|]; done|].
      intros k x _ _ (?&?&?&?). split_and!; [done| |by apply on_conflict_sync|done].
      by apply on_conflict_accepted.
    + by apply unique_update_where; [apply Hs|].
Qed.

(** A change that leaves the columns of a pull request but its status and its texts. *)
Lemma alter_pr_stays what id accepts f :
  (accepts = true -> forall s x, pr_accepted x s = true -> sync_ok x ->
     pr_accepted (f x) s = true /\ sync_ok (f x)) ->
  (forall x, pr_key (f x) = pr_key x /\ pr_ID (f x) = pr_ID x /\
             pr_ReviewStatus (f x) = pr_ReviewStatus x) ->
  stays store_ok (update_pr what id accepts f).
Proof.
  intros Hf Hk. unfold update_pr, exec_row. stay. intros s Hs Ha. simpl. keeps Hs. split.
  - apply map_Forall_alter; [eapply map_Forall_impl; [apply Hs|]; done|].
    intros x _ (Hid & Hx & Hsync & Hrs). destruct (Hf Ha s x Hx Hsync).
    destruct (Hk x) as (_ & E & Er). unfold pr_ok. rewrite E, Er. by split_and!.
  - apply unique_alter; [apply Hs|]. intros x _. left. apply Hk.
Qed.

Lemma with_sync_accepted status t e now x s :
  varchar 30 status = true -> match e with Some m => text_ok m = true | None => True end ->
  pr_accepted x s = true -> pr_accepted (with_sync status t e now x) s = true.
Proof.
  unfold pr_accepted. rewrite !andb_true_iff. simpl. destruct e; intuition auto.
Qed.

Lemma kept_error x s :
  pr_accepted x s = true -> match pr_EmbedError x with Some m => text_ok m = true | None => True end.
Proof. unfold pr_accepted. rewrite !andb_true_iff. destruct (pr_EmbedError x); tauto. Qed.

Lemma PRs_UpdateSyncStatus_stays now id status :
  In status [PRSyncStatusOpen; PRSyncStatusDraft; PRSyncStatusStale; PRSyncStatusEmbedding] ->
  stays store_ok (PRs_UpdateSyncStatus now id status).
Proof.
  intros Hst. apply alter_pr_stays; [|done]. intros Ha s x Hx (_ & Hem & Her). split.
  - apply with_sync_accepted; [done| |done]. by eapply kept_error.
  - unfold sync_ok. simpl. simpl in Hst.
    destruct Hst as [<-|[<-|[<-|[<-|[]]]]]; intuition (try done).
Qed.

Lemma PRs_MarkEmbedded_stays now id : stays store_ok (PRs_MarkEmbedded now id).
Proof.
  apply alter_pr_stays; [|done]. intros Ha s x Hx _. split; [by apply with_sync_accepted|].
  unfold sync_ok. simpl. intuition (try done).
Qed.

Lemma PRs_MarkEmbedError_stays now id e : stays store_ok (PRs_MarkEmbedError now id e).
Proof.
  apply alter_pr_stays; [|done]. intros [Hv Ht]%andb_true_iff s x Hx _.
  split; [by apply with_sync_accepted|]. unfold sync_ok. simpl. intuition (try done).
Qed.

Lemma PRs_UpdateReviewStatus_stays now id status reviewID :
  status ∈ pr_review_statuses -> stays store_ok (PRs_UpdateReviewStatus now id status reviewID).
Proof.
  intros Hst. unfold PRs_UpdateReviewStatus, exec_row. stay. intros s Hs [Hv Hr]%andb_true_iff. simpl. keeps Hs.
  split; [|apply unique_alter; [apply Hs|]; auto].
  apply map_Forall_alter; [eapply map_Forall_impl; [apply Hs|]; done|].
  intros x Hx (Hid & Ha & Hsync & _). split_and!; [done| |exact Hsync|done].
  revert Ha. unfold pr_accepted.
  rewrite !andb_true_iff. simpl. destruct reviewID as [r|]; [|intuition auto].
  assert (has id (s_prs s) = true) as Hh by (apply has_true; eauto).
  rewrite Hh, orb_false_r in Hr. intuition auto.
Qed.

Lemma PRs_MarkStaleBefore_stays now repoID cutoff :
  stays store_ok (PRs_MarkStaleBefore now repoID cutoff).
Proof.
  unfold PRs_MarkStaleBefore. stay. intros s Hs Hv. simpl. keeps Hs. split.
  - apply map_Forall_update_where; [eapply map_Forall_impl; [apply Hs|]; done|].
    intros k x _ _ (?&Hx&_&?). split_and!; [done| | |done].
    + apply with_sync_accepted; [done| |exact Hx]. by eapply kept_error.
    + unfold sync_ok. simpl. intuition (try done).
  - by apply unique_update_where; [apply Hs|].
Qed.

Lemma PRs_DeleteByRepo_stays repoID : stays store_ok (PRs_DeleteByRepo repoID).
Proof.
  unfold PRs_DeleteByRepo. stay. intros s Hs. keeps Hs. split.
  - intros k x [Hk _]%delete_where_lookup. by apply (so_prs _ Hs).
  - intros i j x y [Hi _]%delete_where_lookup [Hj _]%delete_where_lookup. by apply (so_numbers _ Hs).
Qed.

End ok.

#[export] Hint Resolve Users_Create_stays Users_Update_stays Users_UpsertOAuthIdentity_stays
  Orgs_Create_stays Orgs_Update_stays Orgs_AddMember_stays Orgs_RemoveMember_stays
  RepoMembers_AddMember_stays RepoMembers_RemoveMember_stays Repos_Create_stays
  Repos_Update_stays Repos_MarkIndexed_stays Repos_Delete_stays Reviews_Create_stays
  Reviews_UpdateStatus_stays Reviews_CreateComment_stays Webhooks_RecordEvent_stays
  Webhooks_MarkProcessed_stays Platforms_Upsert_stays Platforms_Delete_stays
  Audit_Create_stays act_stays PRs_MarkEmbedded_stays PRs_MarkEmbedError_stays
  PRs_UpdateReviewStatus_stays PRs_MarkStaleBefore_stays PRs_DeleteByRepo_stays : stays.

(** The constants of the program are among those it knows. *)
#[export] Hint Extern 1 (_ ∈ _) => (apply list_elem_of_In; simpl; solve [auto 10]) : stays.
#[export] Hint Extern 1 (_ = _) => reflexivity : stays.

(** ** What the server keeps

    Every handler of the API, every webhook, every review in the background and every cycle of
    the synchronisation keeps [store_ok], whatever fails. *)

Section api.
Context `{Postgres} `{RowOrder} `{Collation} `{UuidText} `{Inet} `{UnicodeTables} `{UrlParse}.

Lemma paged_stays {A} limit offset (f : Store -> list A) I : stays I (paged limit offset f).
Proof. unfold paged. stay. Qed.
Hint Resolve paged_stays : stays.

Lemma counted_stays {A} (f : Store -> list A) I : stays I (counted f).
Proof. unfold counted. stay. Qed.
Hint Resolve counted_stays : stays.

Lemma LogRequest_stays env action resourceType resourceID meta :
  stays store_ok (LogRequest env action resourceType resourceID meta).
Proof. unfold LogRequest. stay. Qed.
Hint Resolve LogRequest_stays : stays.

Lemma quota_check_stays limit f I : stays I (quota_check limit f).
Proof. unfold quota_check. stay. Qed.

Lemma refuse_stays r I : stays I (refuse_over_quota r).
Proof. unfold refuse_over_quota. stay. Qed.
Hint Resolve quota_check_stays refuse_stays : stays.


Ltac serves := unfold registered, Users_GetByID, Users_GetByEmail, Orgs_GetByID, Orgs_GetBySlug, Repos_GetByID,
  Repos_GetByPlatformAndExternalID, Reviews_GetByID, PRs_GetByID, PRs_GetByRepoAndNumber,
  Orgs_ListByUser, Orgs_ListMembers, Repos_ListByOrg, Repos_ListByUser, RepoMembers_ListMembers,
  Reviews_ListByRepo, Reviews_ListByUser, Reviews_ListCommentsByReview, PRs_ListByRepo,
  PRs_CountByRepo, PRs_CountEmbedQueue, path_id, validated, record_event, secret_of,
  accept; handler.

Variables (enforced syncing : bool).

Lemma users_stay env req : stays store_ok (GetCurrentUser env) /\
  stays store_ok (UpdateCurrentUser env req).
Proof. split; [unfold GetCurrentUser|unfold UpdateCurrentUser]; serves. Qed.

Lemma orgs_stay env a b c :
  stays store_ok (ListOrgs env a b) /\ stays store_ok (GetOrg a) /\
  stays store_ok (ListOrgMembers a b c) /\ stays store_ok (RemoveOrgMember env a b).
Proof. split_and!; unfold ListOrgs, GetOrg, ListOrgMembers, RemoveOrgMember; serves. Qed.

(** The role of an invitation is one of the program's, or that of a member. *)
Lemma invited_role r : InviteMember_Validate r = None -> or_old (inv_Role r) "member" ∈ roles.
Proof.
  unfold InviteMember_Validate, or_old. clean_simp. intros Hv.
  destruct (String.eqb_spec (inv_Role r) "") as [E|Hne]; [auto with stays|tauto].
Qed.

(** What a request has been checked for, and what a row that was read is known to be. *)
Lemma stays_validated {A} ve (k : HTTP A) :
  (ve = None -> stays store_ok k) -> stays store_ok (validated ve;? k).
Proof. destruct ve as [e|]; [intros _; apply stays_ret|]. intros Hk. apply (Hk eq_refl). Qed.

Lemma stays_found {A B} what (f : Store -> option A) (phi : A -> Prop)
    (reply : string -> Response Body) (k : A -> HTTP B) :
  (forall s a, store_ok s -> f s = Some a -> phi a) -> (forall a, phi a -> stays store_ok (k a)) ->
  stays store_ok (a ←? or_reply (get_row what f) reply; k a).
Proof.
  intros Hf Hk. eapply (ensures_try_pure _ store_ok phi); [|exact Hk|done].
  apply ensures_or_reply. apply ensures_get_row; eauto.
Qed.

Lemma CreateOrg_stays env req : stays store_ok (CreateOrg env req).
Proof. unfold CreateOrg. serves. Qed.
Lemma UpdateOrg_stays env orgID req : stays store_ok (UpdateOrg env orgID req).
Proof.
  unfold UpdateOrg, Orgs_GetByID. apply stays_respond, stays_try; [serves|]. intros id.
  apply (stays_found _ _ (fun o => o_Plan o = "free")).
  - intros s o Hs E. apply (so_orgs _ Hs id o E).
  - intros o Ho. serves.
Qed.
Lemma InviteOrgMember_stays env orgID req : stays store_ok (InviteOrgMember enforced env orgID req).
Proof.
  unfold InviteOrgMember, member_quota. apply stays_respond, stays_try; [serves|]. intros id.
  apply stays_try; [serves|]. intros r. apply stays_validated. intros Hv.
  serves. apply Orgs_AddMember_stays. by apply invited_role.
Qed.

Lemma repos_stay env a b c :
  stays store_ok (ListRepos env a b c) /\ stays store_ok (GetRepo a) /\
  stays store_ok (DeleteRepo env a) /\ stays store_ok (ListRepoMembers a) /\
  stays store_ok (RemoveRepoMember a b).
Proof.
  split_and!; unfold ListRepos, listed_org, GetRepo, DeleteRepo, ListRepoMembers, RemoveRepoMember;
    serves.
Qed.
Lemma RegisterRepo_stays env req : stays store_ok (RegisterRepo enforced env req).
Proof.
  unfold RegisterRepo, resolve_org, personal_org, repo_quota.
  apply stays_respond, stays_try; [serves|]. intros claims. apply stays_try; [serves|]. intros r.
  apply stays_validated. intros Hv%RegisterRepo_accepts. serves.
  apply Repos_Create_stays, Hv.
Qed.
Lemma UpdateRepo_stays env repoID req : stays store_ok (UpdateRepo env repoID req).
Proof.
  unfold UpdateRepo, Repos_GetByID. apply stays_respond, stays_try; [serves|]. intros id.
  apply (stays_found _ _ (fun x => r_Platform x ∈ platforms)).
  - intros s x Hs E. apply (so_repos _ Hs id x E).
  - intros x Hx. serves.
Qed.
Lemma AddRepoMember_stays env repoID req : stays store_ok (AddRepoMember env repoID req).
Proof.
  unfold AddRepoMember, unless. apply stays_respond, stays_try; [serves|]. intros id.
  apply stays_try; [serves|]. intros r. apply stays_try; [serves|]. intros _.
  destruct (existsb _ _) eqn:E; [|apply stays_ret]. serves. apply RepoMembers_AddMember_stays.
  apply existsb_exists in E as (role & Hin & ->%String.eqb_eq). by apply list_elem_of_In.
Qed.

Lemma reviews_stay env req a b c :
  stays store_ok (ListReviews env a b c) /\ stays store_ok (TriggerReview enforced env req) /\
  stays store_ok (GetReview a) /\ stays store_ok (GetReviewComments a).
Proof.
  split_and!; unfold ListReviews, TriggerReview, review_quota, GetReview, GetReviewComments;
    serves.
Qed.

Lemma prs_stay env a b c d e f g :
  stays store_ok (ListPullRequests a b c d e f g) /\ stays store_ok (GetPullRequestByID a) /\
  stays store_ok (GetPullRequestByNumber a b) /\ stays store_ok (SyncPullRequests syncing env a) /\
  stays store_ok (GetPullRequestStats a) /\ stays store_ok (ReviewPullRequest env a b).
Proof.
  split_and!; unfold ListPullRequests, GetPullRequestByID, GetPullRequestByNumber,
    SyncPullRequests, GetPullRequestStats, ReviewPullRequest; serves.
Qed.

Context `{VaultReader} `{WebhookMac} `{WebhookJson}.

Lemma receive_stays env h body : stays store_ok (receive env h body).
Proof.
  destruct h; simpl; [unfold HandleGitHubWebhook|unfold HandleGitLabWebhook|
    unfold HandleBitbucketWebhook|unfold HandleAzureDevOpsWebhook]; serves.
Qed.

Context `{Platform} `{EngineStub}.
Variables (hub engine : bool) (cfg : SyncConfig).

Lemma upsert_all_stays now ids i repo prs : stays store_ok (upsert_all now ids i repo prs).
Proof.
  revert i. induction prs as [|pr prs IH]; intros i; simpl; [apply stays_ret|].
  apply stays_bind; [|intros _; apply IH]. apply stays_ignoring, PRs_Upsert_stays.
  unfold synced, tracked. simpl. destruct (p_Draft pr); auto.
Qed.

Lemma syncRepo_stays now ids repo : stays store_ok (syncRepo cfg now ids repo).
Proof. unfold syncRepo. stay. apply upsert_all_stays. Qed.

Lemma syncAllRepos_stays now orders fuel ids :
  stays store_ok (syncAllRepos cfg now orders fuel ids).
Proof.
  unfold syncAllRepos, listAllRepos. apply stays_bind.
  - generalize 0%nat, 0, (@nil Repository). induction fuel as [|fuel IH]; intros i o l; simpl;
      unfold listReposBatch; stay.
  - intros [[repos|]|e]; [|apply stays_ret..]. generalize 0%nat.
    induction repos as [|repo repos IH]; intros i; simpl; [apply stays_ret|].
    apply stays_bind; [apply syncRepo_stays|]. intros _. apply IH.
Qed.

Lemma progress_stays pr state percent phase currentFile a b c errMsg :
  stays store_ok (progress hub pr state percent phase currentFile a b c errMsg).
Proof. unfold progress, broadcastEmbedProgress. stay. Qed.
Hint Resolve progress_stays : stays.

Lemma embed_diff_stays now pr repo creds : stays store_ok (embed_diff hub engine now pr repo creds).
Proof.
  assert (forall files i total, stays store_ok (parse_progress hub pr i total files)) as Hp.
  { induction files as [|f files IH]; intros i total; simpl; stay. }
  unfold embed_diff, embed_finish, on_update. stay; try apply Hp; try (apply stays_every; intros; stay).
  apply PRs_UpdateSyncStatus_stays. simpl. auto.
Qed.

Lemma embedPR_stays start finish pr : stays store_ok (embedPR hub engine start finish pr).
Proof.
  unfold embedPR, embed_begin. stay; [| |apply embed_diff_stays].
  - unfold Repos_GetByID. stay.
  - apply PRs_UpdateSyncStatus_stays. simpl. auto.
Qed.

Lemma embed_batch_stays cancelled times i prs u :
  stays store_ok (embed_batch hub engine cancelled times i prs u).
Proof.
  revert i u. induction prs as [|pr prs IH]; intros i u; simpl; [apply stays_ret|].
  destruct (cancelled i); [apply stays_ret|]. apply stays_bind; [apply embedPR_stays|]. intros. apply IH.
Qed.

Lemma embedPendingPRs_stays cancelled times unsupported :
  stays store_ok (embedPendingPRs hub engine cfg cancelled times unsupported).
Proof. unfold embedPendingPRs, PRs_ListNeedingEmbedding. stay. apply embed_batch_stays. Qed.

(** Reviews in the background *)

Context `{ReviewJson} `{Model}.
Variable pcfg : PipelineConfig.

(** Every comment of a review has one of the severities, whatever the model or the engine said. *)
Definition graded (l : list ReviewComment) : Prop :=
  Forall (fun c => valid_severity (rc_Severity c) = true) l.

Lemma severity_of_valid s : valid_severity (severity_of s) = true.
Proof. unfold severity_of. by destruct (valid_severity s) eqn:E; [|reflexivity]. Qed.

Lemma heuristic_graded findings : graded (convertHeuristicFindings findings).
Proof. apply Forall_fmap, Forall_true. intros f. apply severity_of_valid. Qed.

Lemma response_graded content path : graded (parseReviewResponse content path).
Proof.
  unfold parseReviewResponse. destruct (String.eqb _ _); [constructor|].
  destruct (unmarshal_items _); [|constructor].
  apply Forall_fmap, Forall_true. intros i. apply severity_of_valid.
Qed.

Lemma analyze_graded pr files pack cross l : analyze pr files pack cross = Ok l -> graded l.
Proof.
  unfold analyze. destruct ask as [complete|]; [|done]. intros [= <-]. unfold graded.
  induction files as [|f files IH]; [constructor|]. simpl. apply Forall_app. split; [|done].
  destruct (complete _ _ _ _ _); [apply response_graded|constructor].
Qed.

Lemma persist_stays now ids i review l : graded l -> stays store_ok (persist now ids i review l).
Proof.
  intros Hl. revert i. induction Hl as [|c l Hc Hl IH]; intros i; simpl; [apply stays_ret|].
  apply stays_bind; [apply stays_ignoring; by apply Reviews_CreateComment_stays|]. intros. apply IH.
Qed.
Hint Resolve persist_stays : stays.

Lemma heuristics_stays id diff :
  ensures store_ok (heuristics engine id diff) (fun l s => store_ok s /\ graded l).
Proof.
  unfold heuristics, emitProgress. destruct (negb engine).
  - eapply (ensures_bind _ (fun _ => store_ok)); [apply act_stays|]. intros _. apply ensures_ret. intros s Hs.
    split; [done|constructor].
  - do 2 (eapply (ensures_bind _ (fun _ => store_ok)); [apply act_stays|]; intros _). apply ensures_ret. intros s Hs.
    split; [done|]. destruct (RunHeuristics _ _); [apply heuristic_graded|constructor].
Qed.

Lemma analyze_and_deliver_stays env id repo req pr files :
  stays store_ok (analyze_and_deliver engine env id repo req pr files).
Proof.
  unfold analyze_and_deliver, engine_context, cross_repo, deliver, failReview, emitProgress.
  apply stays_bind; [stay|]. intros pack. apply stays_bind; [stay|]. intros cross.
  eapply (ensures_bind_pure _ _ graded); [apply heuristics_stays|]. intros found Hfound.
  apply stays_bind; [stay|]. intros _. destruct (analyze _ _ _ _) as [l|e] eqn:E; [|by stay].
  assert (graded (l ++ found)) as Hg by (apply Forall_app; split; [by eapply analyze_graded|done]).
  stay; apply stays_every; intros c; unfold post_comment; stay.
Qed.
Hint Resolve analyze_and_deliver_stays : stays.

Lemma run_review_stays env id repo creds req :
  stays store_ok (run_review engine pcfg env id repo creds req).
Proof.
  unfold run_review, failReview, emitProgress. stay.
Qed.

Lemma Execute_stays env req : stays store_ok (Execute engine pcfg env req).
Proof.
  unfold Execute, Repos_GetByID, emitProgress. stay. apply run_review_stays.
Qed.

Lemma run_job_stays deliveries env origin repoID n by_ :
  stays store_ok (run_job engine pcfg deliveries env origin repoID n by_).
Proof.
  unfold run_job. apply stays_bind; [apply Execute_stays|]. intros [res|e]; destruct origin; stay.
Qed.

End api.
