(* ===== verification/Login.v ===== *)
(** * Signing in ([api/handlers.go], [auth/oauth2.go], [auth/providers/x.go], [crypto/aes.go])

    The endpoints of [/auth]: a state is stored in Redis, the provider sends the browser back
    with it and a code, the code becomes a profile, the profile a row of [users], found by its
    e-mail address, and the row a pair of tokens.  The cookies of an answer carry the tokens of
    its body.  The other providers, their HTTP exchange included, and AES-256-GCM are
    parameters. *)

From Stdlib Require Import ZArith Lia Ascii String.
From stdpp Require Import base list gmap strings sorting.
From S2P Require Import Prelude GoStrings SwarmDb Db KeychainCrypto Regex Validation Quota Hub Http.
From S2P Require Import Store Jwt Api Session.
Local Open Scope string_scope.
Local Open Scope rtv_scope.
Local Open Scope Z_scope.

(** ** The encryption of stored tokens *)

Definition ErrInvalidKey := "encryption key must be exactly 32 bytes (256 bits)".
Definition ErrCiphertextTooShort := "ciphertext too short".

(** [normalizeKey]: 64 hexadecimal digits or 32 bytes. *)
Definition normalizeKey (key : string) : result string string :=
  let raw := if negb (String.length key =? 32)%nat then Err ErrInvalidKey else Ok key in
  if (String.length key =? 64)%nat
  then match hex_decode key with Ok b => Ok b | Err _ => raw end
  else raw.

(** The key of the encryptor; [None] passes values through. *)
Definition TokenEncryptor : Type := option string.

Definition NewTokenEncryptor (key : string) : result TokenEncryptor string :=
  if String.eqb key "" then Ok None
  else match normalizeKey key with Ok k => Ok (Some k) | Err e => Err e end.

Definition IsEnabled (e : TokenEncryptor) : bool := bool_decide (is_Some e).

(** [main.go]: a key that is not accepted is as good as none. *)
Definition token_encryptor (key : string) : TokenEncryptor :=
  match NewTokenEncryptor key with Ok e => e | Err _ => None end.

Definition NonceSize : nat := 12.

Section aes.
Context `{Primitives}.

Definition Encrypt (e : TokenEncryptor) (nonce plaintext : string) : string :=
  match e with
  | None => plaintext
  | Some k => if String.eqb plaintext "" then plaintext
              else hex_encode (nonce ++ seal k nonce plaintext)
  end.

Definition Decrypt (e : TokenEncryptor) (encoded : string) : result string string :=
  match e with
  | None => Ok encoded
  | Some k =>
      if String.eqb encoded "" then Ok encoded
      else match hex_decode encoded with
           | Err err => Err ("decode hex: " ++ err)
           | Ok data =>
               if (String.length data <? NonceSize)%nat then Err ErrCiphertextTooShort
               else match open k (str_take NonceSize data) (str_drop NonceSize data) with
                    | Some p => Ok p
                    | None => Err "decrypt: cipher: message authentication failed"
                    end
           end
  end.

End aes.

(** ** Providers *)

Record OAuthUser := {
  ou_ProviderID : string;
  ou_Provider : string;
  ou_Email : string;
  ou_Name : string;
  ou_AvatarURL : string;
  ou_AccessToken : string;
  ou_RefreshToken : string
}.

(** [oauth2.Token] *)
Record OAuthToken := { ot_AccessToken : string; ot_RefreshToken : string; ot_Expiry : option Z }.

(** The exchange takes the code and the state, which most providers leave out. *)
Record OAuthProvider := {
  Name : string;
  AuthURL : string -> string;
  Exchange : string -> string -> result OAuthToken string;
  FetchUser : OAuthToken -> result OAuthUser string
}.

Definition ProviderRegistry : Type := gmap string OAuthProvider.
Definition Register (p : OAuthProvider) (r : ProviderRegistry) : ProviderRegistry :=
  <[Name p := p]> r.
Definition registry_get (r : ProviderRegistry) (name : string) : option OAuthProvider := r !! name.

(** [FetchUser] of X: [fetch] is the request for the identifier, the name and the image. *)
Definition ProviderX := "x".
Definition x_user (fetch : OAuthToken -> result (string * string * string) string)
    (token : OAuthToken) : result OAuthUser string :=
  match fetch token with
  | Err e => Err ("x fetch user: " ++ e)
  | Ok (id, name, image) =>
      Ok {| ou_ProviderID := id; ou_Provider := ProviderX; ou_Email := ""; ou_Name := name;
            ou_AvatarURL := image; ou_AccessToken := ot_AccessToken token;
            ou_RefreshToken := ot_RefreshToken token |}
  end.

Definition display_name (name : string) : string :=
  match list_find (fun kv => kv.1 = name)
    [("github", "GitHub"); ("gitlab", "GitLab"); ("google", "Google");
     ("microsoft", "Microsoft"); ("bitbucket", "Bitbucket"); ("linkedin", "LinkedIn");
     ("apple", "Apple"); ("x", "X")] with
  | Some (_, (_, d)) => d
  | None => name
  end.

(** ** The tables and Redis *)

Record Site := { site_store : Store; site_redis : Redis }.

Definition on_store {A} (m : DB Store A) : DB Site A :=
  zoom site_store (fun s w => {| site_store := s; site_redis := site_redis w |}) m.
Definition on_redis {A} (m : DB Redis A) : DB Site A :=
  zoom site_redis (fun rd w => {| site_store := site_store w; site_redis := rd |}) m.

Notation SITE A := (DB Site (result A (Response Body))).

Definition ActionLogin := "auth.login".
Definition ActionLogout := "auth.logout".

Definition or_status {A} (r : result A string) (status : Z) (message : string) : SITE A :=
  match r with Ok a => ok a | Err _ => fail (writeError status message) end.

Section login.
Context `{Postgres} `{RowOrder} `{Collation} `{UuidText} `{Inet} `{Primitives} `{Jwt}.

Variable OAuthReg : ProviderRegistry.
Variable TokenEnc : TokenEncryptor.
Variable jm : JWTManager.

(** In the order of the map. *)
Definition ListProviders : DB Site (Response Body) :=
  mret (writeJSON 200 (BProviders ((fun kv => (kv.1, display_name kv.1)) <$>
          row_order (map_to_list OAuthReg)))).

Definition OAuthLogin (env : Env) (providerName redirect_url : string) : DB Site (Response Body) :=
  respond (
  provider ←? require (registry_get OAuthReg providerName) 400
                ("unsupported OAuth provider: " ++ providerName);
  let state := e_random env in
  let redirectURL := if String.eqb redirect_url "" then "/" else redirect_url in
  or_reply (on_redis (StoreOAuthState state providerName redirectURL))
    (internal "failed to store OAuth state");?
  ok (writeJSON 307 (BRedirect (AuthURL provider state)))).

(** The user of an address, or a new one. *)
Definition find_or_create (env : Env) (ou : OAuthUser) : SITE User :=
  on_store (Users_GetByEmail (ou_Email ou)) ≫= fun r : result User string =>
  match r with
  | Ok user => ok user
  | Err e =>
      if negb (is_not_found e) then fail (writeError 500 "database error")
      else or_reply (on_store (Users_Create (e_now env) (e_ids env 0) (e_random env)
             {| u_ID := 0; u_Email := ou_Email ou; u_DisplayName := ou_Name ou;
                u_AvatarURL := ou_AvatarURL ou; u_VaultToken := ""; u_CreatedAt := 0;
                u_UpdatedAt := 0 |})) (internal "failed to create user")
  end.

Definition new_tokens (env : Env) (user : User) : TokenPair :=
  GenerateTokenPair jm (e_now env) (e_ids env 1) (e_ids env 2) (u_ID user) (u_Email user)
    (u_DisplayName user) "user" 0.

Definition redirect_target (redirectURL : string) (t : TokenPair) : string :=
  redirectURL ++ (if Contains redirectURL "?" then "&" else "?") ++ "token=" ++ tp_AccessToken t
  ++ "&refresh_token=" ++ tp_RefreshToken t.

(** [nonces] are those of the two encryptions. *)
Definition OAuthCallback (env : Env) (nonces : string * string) (state code : string)
    : DB Site (Response Body) := respond (
  unless (String.eqb state "" || String.eqb code "") 400 "missing state or code parameter";?
  found ←? or_reply (on_redis (ValidateOAuthState state))
             (fun _ => writeError 400 "invalid or expired OAuth state");
  let '(providerName, redirectURL) := found : string * string in
  provider ←? require (registry_get OAuthReg providerName) 400
                ("unsupported provider: " ++ providerName);
  token ←? or_status (Exchange provider code state) 502 "failed to exchange OAuth code";
  ou ←? or_status (FetchUser provider token) 502 "failed to fetch user from provider";
  user ←? find_or_create env ou;
  ignoring (on_store (Users_UpsertOAuthIdentity providerName (ou_ProviderID ou)
    {| oi_UserID := u_ID user; oi_AccessTokenEnc := Encrypt TokenEnc nonces.1 (ou_AccessToken ou);
       oi_RefreshTokenEnc := Encrypt TokenEnc nonces.2 (ot_RefreshToken token);
       oi_Scopes := "read"; oi_ExpiresAt := ot_Expiry token |}));;
  let t := new_tokens env user in
  on_store (LogRequest env ActionLogin "user" (uuid_String (u_ID user))
    [("provider", providerName); ("email", u_Email user)]);;
  if negb (String.eqb redirectURL "") && negb (String.eqb redirectURL "/")
  then ok (writeJSON 307 (BTokens t (Some (redirect_target redirectURL t))))
  else ok (writeJSON 200 (BTokens t None))).

(** The body, or the cookie where it cannot be decoded. *)
Definition RefreshToken (env : Env) (request cookie : option string) : DB Site (Response Body) :=
  respond (
  token ←? require (match request with Some t => Some t | None => cookie end) 400
             "refresh_token required";
  claims ←? or_status (ValidateToken jm (e_now env) token) 401 "invalid refresh token";
  unless (negb (bool_decide (c_Type claims = Jwt.RefreshToken))) 401 "not a refresh token";?
  user ←? or_reply (on_store (Users_GetByID (c_UserID claims)))
            (fun _ => writeError 401 "user not found");
  ok (writeJSON 200 (BTokens (new_tokens env user) None))).

Definition Logout (env : Env) : DB Site (Response Body) :=
  on_store (LogRequest env ActionLogout "user" "" []);;
  mret (done_with [("status", "logged_out")]).

End login.
