(* ===== verification/Server.v ===== *)
(** * The server ([server/server.go])

    The routes of [setupRouter] that the development models, with their middleware: a request
    under [/auth] and [/webhooks] passes the rate limiter, every other one a valid access token
    first.  [Step] adds what runs besides the requests: reviews in the background and the two
    loops of the synchronisation. *)

From Stdlib Require Import ZArith Lia String.
From stdpp Require Import base list gmap strings sorting.
From S2P Require Import Prelude GoStrings SwarmDb Db GoFloat KeychainCrypto Regex Validation Quota.
From S2P Require Import Hub Http Store PrStore Vcs EngineClient PrSync Pipeline Jwt Api Webhooks.
From S2P Require Import Session Login StoreSafety.
Local Open Scope string_scope.
Local Open Scope rtv_scope.
Local Open Scope Z_scope.

Inductive AuthRequest :=
  | ReqProviders
  | ReqLogin (provider redirect_url : string)
  | ReqCallback (nonces : string * string) (state code : string)
  | ReqRefresh (request cookie : option string)
  | ReqLogout.

Inductive ApiRequest :=
  | ReqMe
  | ReqUpdateMe (request : option UpdateUserRequest)
  | ReqOrgs (limit offset : string)
  | ReqCreateOrg (request : option CreateOrgRequest)
  | ReqOrg (orgID : string)
  | ReqUpdateOrg (orgID : string) (request : option (UpdateOrgRequest * string))
  | ReqMembers (orgID limit offset : string)
  | ReqInvite (orgID : string) (request : option InviteMemberRequest)
  | ReqRemove (orgID userID : string)
  | ReqRepos (org_id limit offset : string)
  | ReqRegister (request : option RegisterRepoRequest)
  | ReqRepo (repoID : string)
  | ReqUpdateRepo (repoID : string) (request : option (UpdateRepoRequest * string))
  | ReqDeleteRepo (repoID : string)
  | ReqRepoMembers (repoID : string)
  | ReqAddRepoMember (repoID : string) (request : option (string * string))
  | ReqRemoveRepoMember (repoID userID : string)
  | ReqPullRequests (repoID sync_status review_status author target_branch limit offset : string)
  | ReqSync (repoID : string)
  | ReqStats (repoID : string)
  | ReqByNumber (repoID prNumber : string)
  | ReqPullRequest (prID : string)
  | ReqReviewPR (repoID prID : string)
  | ReqReviews (repo_id limit offset : string)
  | ReqTrigger (request : option TriggerReviewRequest)
  | ReqReview (reviewID : string)
  | ReqComments (reviewID : string).

Inductive Request :=
  | Auth (r : AuthRequest)
  | Api (r : ApiRequest)
  | Webhook (h : Hook) (body : option string).

Section server.
Context `{Postgres} `{RowOrder} `{Collation} `{UuidText} `{Inet} `{UnicodeTables} `{UrlParse}.
Context `{Primitives} `{Jwt} `{VaultReader} `{WebhookMac} `{WebhookJson}.
Variables (enforced syncing : bool).
Variable OAuthReg : ProviderRegistry.
Variable TokenEnc : TokenEncryptor.
Variable jm : JWTManager.
Variable limits : gmap string RateLimitConfig.

Definition auth_routes (env : Env) (r : AuthRequest) : DB Site (Response Body) :=
  match r with
  | ReqProviders => ListProviders OAuthReg
  | ReqLogin provider redirect_url => OAuthLogin OAuthReg env provider redirect_url
  | ReqCallback nonces state code => OAuthCallback OAuthReg TokenEnc jm env nonces state code
  | ReqRefresh request cookie => RefreshToken jm env request cookie
  | ReqLogout => Logout env
  end.

Definition api_routes (env : Env) (r : ApiRequest) : DB Store (Response Body) :=
  match r with
  | ReqMe => GetCurrentUser env
  | ReqUpdateMe request => UpdateCurrentUser env request
  | ReqOrgs limit offset => ListOrgs env limit offset
  | ReqCreateOrg request => CreateOrg env request
  | ReqOrg orgID => GetOrg orgID
  | ReqUpdateOrg orgID request => UpdateOrg env orgID request
  | ReqMembers orgID limit offset => ListOrgMembers orgID limit offset
  | ReqInvite orgID request => InviteOrgMember enforced env orgID request
  | ReqRemove orgID userID => RemoveOrgMember env orgID userID
  | ReqRepos org_id limit offset => ListRepos env org_id limit offset
  | ReqRegister request => RegisterRepo enforced env request
  | ReqRepo repoID => GetRepo repoID
  | ReqUpdateRepo repoID request => UpdateRepo env repoID request
  | ReqDeleteRepo repoID => DeleteRepo env repoID
  | ReqRepoMembers repoID => ListRepoMembers repoID
  | ReqAddRepoMember repoID request => AddRepoMember env repoID request
  | ReqRemoveRepoMember repoID userID => RemoveRepoMember repoID userID
  | ReqPullRequests repoID a b c d limit offset => ListPullRequests repoID a b c d limit offset
  | ReqSync repoID => SyncPullRequests syncing env repoID
  | ReqStats repoID => GetPullRequestStats repoID
  | ReqByNumber repoID prNumber => GetPullRequestByNumber repoID prNumber
  | ReqPullRequest prID => GetPullRequestByID prID
  | ReqReviewPR repoID prID => ReviewPullRequest env repoID prID
  | ReqReviews repo_id limit offset => ListReviews env repo_id limit offset
  | ReqTrigger request => TriggerReview enforced env request
  | ReqReview reviewID => GetReview reviewID
  | ReqComments reviewID => GetReviewComments reviewID
  end.

Definition with_claims (c : option Claims) (env : Env) : Env :=
  {| e_now := e_now env; e_ids := e_ids env; e_random := e_random env;
     e_headers := e_headers env; e_claims := c |}.

(** [RateLimitMiddleware] in front of a handler; the clock of Redis is that of the request. *)
Definition limited (limiterName : string) (env : Env) (next : DB Site (Response Body))
    : DB Site (Response Body) :=
  on_redis (writes (set_clock (e_now env)));;
  v ← on_redis (RateLimitMiddleware limits limiterName (h_RemoteAddr (e_headers env))
                  (UserIDFromContext env) (c_OrgID <$> e_claims env));
  match v with
  | Pass _ _ _ => next
  | Reject organization _ =>
      mret (writeError 429 (if organization then "organization rate limit exceeded"
                            else "rate limit exceeded"))
  end.

(** [auth.Middleware] in front of a handler *)
Definition authenticated (env : Env) (creds : Credentials)
    (next : Env -> DB Site (Response Body)) : DB Site (Response Body) :=
  match Middleware jm (e_now env) creds with
  | Err e => mret (writeError 401 e)
  | Ok claims => next (with_claims (Some claims) env)
  end.

Definition serve (env : Env) (creds : Credentials) (r : Request) : DB Site (Response Body) :=
  let env := with_claims None env in
  match r with
  | Auth r => limited "auth" env (auth_routes env r)
  | Api r => authenticated env creds (fun env => limited "api" env (on_store (api_routes env r)))
  | Webhook h body => limited "webhook" env (on_store (receive env h body))
  end.

(** ** Everything that runs *)

Context `{Platform} `{EngineStub} `{ReviewJson} `{Model}.
Variables (hub engine deliveries : bool) (cfg : SyncConfig) (pcfg : PipelineConfig).

Inductive Step :=
  | Serve (env : Env) (creds : Credentials) (r : Request)
  | Job (env : RunEnv) (origin : Origin) (repoID : UUID) (prNumber : Z) (triggeredBy : UUID)
  | SyncCycle (now : Z) (orders : nat -> RowOrder) (fuel : nat) (ids : nat -> nat -> UUID)
  | SyncOne (now : Z) (ids : nat -> UUID) (repoID : UUID)
  | EmbedCycle (cancelled : nat -> bool) (times : nat -> Z * Z) (unsupported : bool).

Definition take_step (s : Step) : DB Site unit :=
  match s with
  | Serve env creds r => serve env creds r;; mret tt
  | Job env origin repoID prNumber triggeredBy =>
      on_store (run_job engine pcfg deliveries env origin repoID prNumber triggeredBy)
  | SyncCycle now orders fuel ids => on_store (syncAllRepos cfg now orders fuel ids)
  | SyncOne now ids repoID => on_store (ignoring (SyncSingleRepo cfg now ids repoID))
  | EmbedCycle cancelled times unsupported =>
      on_store (embedPendingPRs hub engine cfg cancelled times unsupported;; mret tt)
  end.

(** ** What holds of the tables *)

Definition site_ok (w : Site) : Prop := store_ok (site_store w).

Lemma on_store_stays {A} (m : DB Store A) : stays store_ok m -> stays site_ok (on_store m).
Proof. apply stays_zoom; auto. Qed.

Lemma on_redis_stays {A} (m : DB Redis A) : stays site_ok (on_redis m).
Proof. apply (stays_zoom _ _ _ (fun _ => True)); [done..|]. by intros r _. Qed.

Lemma limited_stays name env next : stays site_ok next -> stays site_ok (limited name env next).
Proof.
  intros Hn. unfold limited. apply stays_bind; [apply on_redis_stays|]. intros _.
  apply stays_bind; [apply on_redis_stays|]. intros []; [done|apply stays_ret].
Qed.

Lemma api_routes_stays env r : stays store_ok (api_routes env r).
Proof.
  destruct r; cbn [api_routes];
    auto using CreateOrg_stays, UpdateOrg_stays, InviteOrgMember_stays, RegisterRepo_stays,
      UpdateRepo_stays, AddRepoMember_stays;
    first [ apply users_stay | apply orgs_stay | apply repos_stay | apply reviews_stay
          | apply prs_stay ].
  Unshelve. all: solve [exact true | exact env | exact "" | exact None].
Qed.

Lemma find_or_create_stays env ou : stays site_ok (find_or_create env ou).
Proof.
  unfold find_or_create, Users_GetByEmail. handler; apply on_store_stays; stay.
Qed.

Lemma auth_routes_stays env r : stays site_ok (auth_routes env r).
Proof.
  assert (forall o, stays site_ok (on_store (Users_GetByID o))) as Hget
    by (intros; apply on_store_stays; unfold Users_GetByID; stay).
  assert (forall a b c d, stays site_ok (on_store (LogRequest env a b c d))) as Hlog
    by (intros; apply on_store_stays, LogRequest_stays).
  destruct r; simpl; unfold ListProviders, OAuthLogin, OAuthCallback, RefreshToken, Logout, or_status;
    handler; auto using on_redis_stays, find_or_create_stays.
  apply on_store_stays. stay.
Qed.

Lemma serve_stays env creds r : stays site_ok (serve env creds r).
Proof.
  unfold serve. destruct r; [apply limited_stays, auth_routes_stays| |].
  - unfold authenticated. destruct (Middleware _ _ _); [|apply stays_ret].
    apply limited_stays, on_store_stays, api_routes_stays.
  - apply limited_stays, on_store_stays, receive_stays.
Qed.

Lemma take_step_stays s : stays site_ok (take_step s).
Proof.
  destruct s; simpl.
  - apply stays_bind; [apply serve_stays|]. intros. apply stays_ret.
  - apply on_store_stays, run_job_stays.
  - apply on_store_stays, syncAllRepos_stays.
  - apply on_store_stays. unfold SyncSingleRepo, Repos_GetByID.
    stay. apply syncRepo_stays.
  - apply on_store_stays. apply stays_bind; [apply embedPendingPRs_stays|]. intros. apply stays_ret.
Qed.

Definition empty_store : Store :=
  {| s_users := ∅; s_identities := ∅; s_orgs := ∅; s_members := ∅; s_repos := ∅;
     s_repo_members := ∅; s_reviews := ∅; s_comments := ∅; s_usage := ∅; s_webhooks := ∅;
     s_platforms := ∅; s_prs := ∅; s_audit := []; s_trace := [] |}.

Lemma empty_ok : store_ok empty_store.
Proof. split; try apply map_Forall_empty; first [by intros i j x y | constructor]. Qed.

(** C2: What the program means by its columns holds at all times: whatever requests, webhooks,
    background reviews and cycles of the synchronisation a server with empty tables carries out,
    in any order and with any failures of statements, [site_ok] holds.  No constraint of the
    database says the following, the handlers see to it: the role of a member of an organisation
    is owner, admin, member or viewer, that of a member of a repository admin, reviewer or viewer;
    repositories and webhook events are of one of the four hosts; the plan of an organisation is
    still [free]; a review is pending, in progress, completed or failed, and has the time of its
    end once it is one of the last two; a comment has one of the five severities, whatever the
    model or the engine answered; a pull request has one of six sync statuses and of three review
    statuses, if it is embedded it has the time of it, if it is in error the text of it.  What
    the constraints ask for holds as well: of users, identities, organisations, members,
    repositories, reviews, comments, events, platforms, pull requests and the audit log, the rows
    fit the bounds of [store_ok] and refer to users, organisations, repositories and reviews that
    exist; e-mail addresses, slugs, external identifiers and numbers of pull requests are unique.
    [usage_daily], which none of these steps writes, is not spoken of. *)
Theorem tables_well_formed redis steps faults :
  site_ok (tables (every steps take_step
    (MkRun {| site_store := empty_store; site_redis := redis |} faults)).2).
Proof.
  apply (stays_every site_ok steps take_step take_step_stays). apply empty_ok.
Qed.

End server.
