(* ===== verification/LoginSafety.v ===== *)
(** * Who gets tokens

    Tokens at rest come back; a pair of tokens is what it says until it expires; tokens are
    given to the user whom a provider vouches for, after a state the server stored, or to the
    user of a refresh token; no token makes an administrator; users of X share one account. *)

From Stdlib Require Import ZArith Lia Ascii String.
From stdpp Require Import base list gmap strings sorting.
From S2P Require Import Prelude GoStrings SwarmDb Db KeychainCrypto Regex Validation Quota Hub Http.
From S2P Require Import Store Jwt Api Session Login StoreSafety Server.
Local Open Scope string_scope.
Local Open Scope rtv_scope.
Local Open Scope Z_scope.

(** ** Tokens at rest *)

Section aes.
Context `{Primitives}.

Lemma seal_text_nonempty k n p : hex_encode (n ++ seal k n p) <> "".
Proof.
  destruct n as [|a n]; [|done]. simpl. pose proof (seal_nonempty k "" p) as Hs.
  by destruct (seal k "" p).
Qed.

(** A token that is stored comes back: whatever the key, and also without one, what
    [Encrypt] makes of a token is decrypted to the token, and an encrypted token is not stored
    as it is unless it is empty. *)
Theorem Encrypt_roundtrip e nonce token :
  String.length nonce = NonceSize -> Decrypt e (Encrypt e nonce token) = Ok token.
Proof.
  intros Hn. unfold Decrypt, Encrypt. destruct e as [k|]; [|done].
  destruct (String.eqb_spec token "") as [->|Ht]; [done|].
  destruct (String.eqb_spec (hex_encode (nonce ++ seal k nonce token)) "") as [E|_];
    [by destruct (seal_text_nonempty k nonce token)|].
  rewrite hex_decode_encode, string_app_length, Hn.
  rewrite (proj2 (Nat.ltb_ge _ _)) by lia. rewrite <- Hn.
  by rewrite str_take_app, str_drop_app, open_seal.
Qed.

End aes.

(** ** Pairs of tokens *)

Section tokens.
Context `{UuidText} `{Jwt}.
Variable jm : JWTManager.

(** The instant at which a token expires *)
Definition expiry (now duration : Z) : Z := (now + duration) / SwarmDb.second * SwarmDb.second.

Lemma Middleware_bearing now c :
  c_UserID c <> 0%N ->
  Middleware jm now (bearing (sign_claims (jm_secret jm) c)) =
  if now <? c_ExpiresAt c * SwarmDb.second
  then if decide (c_Type c = AccessToken) then Ok (json_claims c) else Err "invalid token type"
  else Err "invalid or expired token".
Proof.
  intros Hu. unfold Middleware. rewrite extract_bearing.
  destruct (String.eqb_spec (sign_claims (jm_secret jm) c) "") as [E|_];
    [by destruct (sign_nonempty (jm_secret jm) c)|].
  rewrite ValidateToken_sign by done. by destruct (now <? _).
Qed.

(** C29: A pair of tokens is good for what it says: as a bearer token the access token brings the
    claims of its user until it expires and is refused afterwards; the refresh token is never
    accepted by the middleware, and validates until it expires.  The claims come back as they
    were if their texts are valid UTF-8, and otherwise as [encoding/json] writes them, with
    U+FFFD for the other bytes. *)
Theorem token_pair_roundtrip now jti1 jti2 userID email name role orgID later :
  userID <> 0%N ->
  let t := GenerateTokenPair jm now jti1 jti2 userID email name role orgID in
  let access := token_claims jm now jti1 userID email name role orgID AccessToken
                  (jm_accessDuration jm) in
  let refresh := token_claims jm now jti2 userID "" "" "" 0 Jwt.RefreshToken
                   (jm_refreshDuration jm) in
  Middleware jm later (bearing (tp_AccessToken t)) =
    (if later <? expiry now (jm_accessDuration jm)
     then Ok (json_claims access) else Err "invalid or expired token") /\
  (exists e, Middleware jm later (bearing (tp_RefreshToken t)) = Err e) /\
  ValidateToken jm later (tp_RefreshToken t) =
    (if later <? expiry now (jm_refreshDuration jm)
     then Ok (json_claims refresh) else Err ErrTokenExpired) /\
  forall c, texts_valid c -> json_claims c = c.
Proof.
  intros Hu t access refresh. subst t access refresh. cbn [GenerateTokenPair tp_AccessToken tp_RefreshToken].
  unfold GenerateAccessToken, GenerateRefreshToken, generateToken.
  rewrite !Middleware_bearing, ValidateToken_sign by exact Hu.
  split_and!; [done| |done|exact json_claims_valid].
  cbn [c_ExpiresAt c_Type token_claims]. destruct (later <? _); eauto.
Qed.

End tokens.

(** ** What the endpoints give *)

Section endpoints.
Context `{Postgres} `{RowOrder} `{Collation} `{UuidText} `{Inet} `{UnicodeTables} `{UrlParse}.
Context `{Primitives} `{Jwt}.
Variable OAuthReg : ProviderRegistry.
Variable TokenEnc : TokenEncryptor.
Variable jm : JWTManager.

(** The state is in Redis and the provider stored with it vouches for the address. *)
Definition vouched (w : Site) (state code email : string) : Prop :=
  exists e provider redirect userID orgID p token ou,
    live_entry (site_redis w) (statePrefix ++ state) = Some e /\
    en_Value e = VState provider redirect userID orgID /\
    OAuthReg !! provider = Some p /\ Exchange p code state = Ok token /\
    FetchUser p token = Ok ou /\ ou_Email ou = email.

(** What a request of [/auth] has to bring for tokens of [user]. *)
Definition earned (w : Site) (env : Env) (r : AuthRequest) (user : User) : Prop :=
  match r with
  | ReqCallback _ state code => vouched w state code (u_Email user)
  | ReqRefresh request cookie =>
      exists token claims, (request = Some token \/ request = None /\ cookie = Some token) /\
        ValidateToken jm (e_now env) token = Ok claims /\ c_Type claims = Jwt.RefreshToken /\
        s_users (site_store w) !! c_UserID claims = Some user
  | _ => False
  end.

Definition gives (P : TokenPair -> Site -> Prop) (resp : Response Body) (w : Site) : Prop :=
  match body resp with inl (BTokens t _) => P t w | _ => True end.

Definition user_there (u : User) (s : Store) : Prop := exists id, s_users s !! id = Some u.

Lemma ensures_store {A} (P : Site -> Prop) (Q : A -> Store -> Prop) (m : DB Store A) :
  ensures (fun _ => True) m Q -> ensures P (on_store m) (fun a w => Q a (site_store w)).
Proof.
  intros Hm. eapply ensures_conseq;
    [apply (ensures_zoom _ _ (fun _ => True) (fun _ => True) Q); [done..|exact Hm]|done|].
  by intros a w [HQ _].
Qed.

Lemma GetByEmail_finds email :
  ensures (fun _ => True) (Users_GetByEmail email) (fun r s =>
    match r with Ok u => user_there u s /\ u_Email u = email | Err _ => True end).
Proof.
  apply ensures_get_row; [|done]. intros s u _.
  destruct (where_ _ _) as [|[id u'] l] eqn:E; [done|]. intros [= ->].
  assert ((id, u) ∈ where_ (fun _ u => String.eqb (u_Email u) email) (s_users s)) as Hin
    by (rewrite E; left).
  apply where_elem in Hin as [Hin He]. split; [by exists id|]. by apply String.eqb_eq.
Qed.

Lemma Create_adds now id token u :
  ensures (fun _ => True) (Users_Create now id token u) (fun r s =>
    match r with Ok v => user_there v s /\ u_Email v = u_Email u | Err _ => True end).
Proof.
  unfold Users_Create. set (v := {| u_ID := id |}).
  eapply (ensures_try _ (fun _ s => user_there v s)).
  - apply ensures_wrapping, ensures_inserting; [|done]. intros s _ _ _. exists id. simpl.
    by rewrite lookup_insert_eq.
  - intros _. apply ensures_ret. done.
Qed.

Lemma find_or_create_finds env ou :
  ensures (fun _ => True) (find_or_create env ou) (fun r w =>
    match r with
    | Ok u => user_there u (site_store w) /\ u_Email u = ou_Email ou
    | Err resp => forall P, gives P resp w
    end).
Proof.
  unfold find_or_create. eapply ensures_bind; [apply ensures_store, GetByEmail_finds|].
  intros [u|e]; [by apply ensures_ret|]. destruct (negb _); [by apply ensures_ret|].
  apply ensures_or_reply. eapply ensures_conseq; [apply (ensures_store (fun _ => True)), Create_adds|done|].
  intros [u|e']; [done|]. done.
Qed.

Lemma there_stays {A} u (m : DB Store A) :
  stays (user_there u) m -> stays (fun w => user_there u (site_store w)) (on_store m).
Proof. apply stays_zoom; auto. Qed.

Lemma LogRequest_there u env a b c d : stays (user_there u) (LogRequest env a b c d).
Proof. unfold LogRequest. stay. unfold Audit_Create. stay. Qed.

(** A step of a handler: its error has no tokens, its value is described by [phi]. *)
Lemma ensures_step {A} P (phi : A -> Prop) (R : Site -> Prop) G (m : SITE A)
    (f : A -> SITE (Response Body)) :
  ensures P m (fun x w => match x with Ok a => R w /\ phi a | Err resp => gives G resp w end) ->
  (forall a, phi a -> ensures R (f a)
     (fun x w => gives G match x with Ok resp => resp | Err resp => resp end w)) ->
  ensures P (try_bind m f)
    (fun x w => gives G match x with Ok resp => resp | Err resp => resp end w).
Proof.
  intros Hm Hf. eapply (ensures_try _ (fun a w => R w /\ phi a)).
  - eapply ensures_conseq; [exact Hm|done|]. by intros [].
  - intros a. apply ensures_pure, Hf.
Qed.

(** The end of the callback, once the provider has answered *)
Lemma callback_ends env user providerName ou nonces token redirectURL :
  ensures (fun w => user_there user (site_store w))
    (ignoring (on_store (Users_UpsertOAuthIdentity providerName (ou_ProviderID ou)
       {| oi_UserID := u_ID user; oi_AccessTokenEnc := Encrypt TokenEnc nonces.1 (ou_AccessToken ou);
          oi_RefreshTokenEnc := Encrypt TokenEnc nonces.2 (ot_RefreshToken token);
          oi_Scopes := "read"; oi_ExpiresAt := ot_Expiry token |}));;
     let t := new_tokens jm env user in
     on_store (LogRequest env ActionLogin "user" (uuid_String (u_ID user))
       [("provider", providerName); ("email", u_Email user)]);;
     if negb (String.eqb redirectURL "") && negb (String.eqb redirectURL "/")
     then ok (writeJSON 307 (BTokens t (Some (redirect_target redirectURL t))))
     else ok (writeJSON 200 (BTokens t None)))
    (fun r w => match r with
     | Ok resp | Err resp =>
         gives (fun t w => user_there user (site_store w) /\ t = new_tokens jm env user) resp w
     end).
Proof.
  eapply (ensures_bind _ (fun _ w => user_there user (site_store w))).
  { apply ensures_ignoring, there_stays. unfold Users_UpsertOAuthIdentity. stay. }
  intros _. cbv zeta. eapply (ensures_bind _ (fun _ w => user_there user (site_store w))).
  { apply there_stays, LogRequest_there. }
  intros _. destruct (_ && _); by apply ensures_ret.
Qed.

Lemma validate_finds state rd :
  ensures (eq rd) (ValidateOAuthState state) (fun r _ =>
    match r with
    | Ok (provider, redirect) => exists e userID orgID,
        live_entry rd (statePrefix ++ state) = Some e /\
        en_Value e = VState provider redirect userID orgID
    | Err _ => True
    end).
Proof.
  unfold ValidateOAuthState, ValidateOAuthStateWithUser.
  eapply (ensures_try _ (fun x _ => exists e,
    live_entry rd (statePrefix ++ state) = Some e /\
    en_Value e = let '(p, u, i, o) := x in VState p u i o)).
  - eapply (ensures_try _ (fun v _ => exists e,
      live_entry rd (statePrefix ++ state) = Some e /\ en_Value e = v)).
    + unfold read_oauth_state.
      eapply (ensures_try _ (fun o _ => en_Value <$> live_entry rd (statePrefix ++ state) = o)).
      * by apply ensures_wrapping, ensures_query; [intros ? <-|].
      * intros [v|]; apply ensures_ret; intros s E; [|done].
        destruct (live_entry _ _) as [e|]; [|done]. simplify_eq/=. by exists e.
    + intros v. unfold consume_oauth_state.
      eapply (ensures_bind _ (fun _ _ => exists e,
        live_entry rd (statePrefix ++ state) = Some e /\ en_Value e = v)).
      { intros r Hr. exact Hr. }
      intros _. by destruct v; apply ensures_ret.
  - intros [[[p u] i] o]. apply ensures_ret. intros s (e & ? & ?). by exists e, i, o.
Qed.

Lemma callback_earned env nonces state code w :
  ensures (eq w) (OAuthCallback OAuthReg TokenEnc jm env nonces state code)
    (gives (fun t w' => exists user, user_there user (site_store w') /\
       t = new_tokens jm env user /\ vouched w state code (u_Email user))).
Proof.
  unfold OAuthCallback. apply ensures_respond.
  eapply (ensures_step _ (fun _ => True) (fun w' => w = w')); [by apply ensures_unless|]. intros _ _.
  eapply (ensures_step _ (fun found => exists e userID orgID,
    live_entry (site_redis w) (statePrefix ++ state) = Some e /\
    en_Value e = VState found.1 found.2 userID orgID) (fun _ => True)).
  { apply ensures_or_reply. eapply ensures_conseq;
      [apply (ensures_zoom _ _ (eq (site_redis w)) (fun _ => True)); [done..|];
       apply (validate_finds state (site_redis w))|by intros ? <-|]. intros [[p r]|e] w' [HQ _]; done. }
  intros [providerName redirectURL] (e & userID & orgID & He & Hv). simpl in Hv.
  eapply (ensures_step _ (fun p => OAuthReg !! providerName = Some p) (fun _ => True));
    [by apply ensures_require|intros p Hp].
  eapply (ensures_step _ (fun t => Exchange p code state = Ok t) (fun _ => True));
    [unfold or_status; destruct (Exchange _ _ _) eqn:E; by apply ensures_ret|intros token Ht].
  eapply (ensures_step _ (fun ou => FetchUser p token = Ok ou) (fun _ => True));
    [unfold or_status; destruct (FetchUser _ _) eqn:E; by apply ensures_ret|intros ou Hou].
  eapply (ensures_try _ (fun u w' => user_there u (site_store w') /\ u_Email u = ou_Email ou)).
  { eapply ensures_conseq; [apply find_or_create_finds|done|]. intros [u|resp] w'; [done|].
    intros HG. apply HG. }
  intros user. apply ensures_pure. intros Hu.
  eapply ensures_conseq; [apply callback_ends|done|].
  intros [resp|resp] w'; unfold gives; destruct (body resp) as [[]|]; try done;
    intros [Hth ->]; exists user; (split_and!; [done..|]); rewrite Hu;
    by exists e, providerName, redirectURL, userID, orgID, p, token, ou.
Qed.

Lemma GetByID_finds id s :
  ensures (eq s) (Users_GetByID id) (fun r s' => s' = s /\
    match r with Ok u => s_users s !! id = Some u | Err _ => True end).
Proof. apply ensures_get_row; [by intros ? u <-|by intros ? e <-]. Qed.

Lemma refresh_earned env request cookie w :
  ensures (eq w) (Login.RefreshToken jm env request cookie)
    (gives (fun t w' => exists user, user_there user (site_store w') /\
       t = new_tokens jm env user /\ earned w env (ReqRefresh request cookie) user)).
Proof.
  unfold Login.RefreshToken. apply ensures_respond.
  eapply (ensures_step _ (fun t => request = Some t \/ request = None /\ cookie = Some t) (eq w)).
  { apply ensures_require; [|done]. intros w' t E <-. split; [done|].
    destruct request; simplify_eq; auto. }
  intros token Ht.
  eapply (ensures_step _ (fun c => ValidateToken jm (e_now env) token = Ok c) (eq w));
    [unfold or_status; destruct (ValidateToken _ _ _) eqn:E; by apply ensures_ret|intros claims Hc].
  eapply (ensures_step _ (fun _ => c_Type claims = Jwt.RefreshToken) (eq w)).
  { apply ensures_unless; [|done]. intros w' Hb <-. split; [done|].
    by apply negb_false_iff, bool_decide_eq_true in Hb. }
  intros _ Hty.
  eapply (ensures_step _ (fun u => s_users (site_store w) !! c_UserID claims = Some u)
            (fun w' => site_store w' = site_store w)).
  { apply ensures_or_reply. eapply ensures_conseq;
      [apply (ensures_zoom _ _ (eq (site_store w)) (fun _ => True)); [done..|];
       apply GetByID_finds|by intros ? <-|]. by intros [u|e] w' [[HQ ?] _]. }
  intros user Hu. apply ensures_ret. intros w' E. exists user.
  split; [exists (c_UserID claims); by rewrite E|]. split; [done|]. by exists token, claims.
Qed.

Definition granted (env : Env) (r : AuthRequest) (w : Site) (t : TokenPair) (w' : Site) : Prop :=
  exists user, user_there user (site_store w') /\ t = new_tokens jm env user /\ earned w env r user.

Lemma auth_routes_granted env r w :
  ensures (eq w) (auth_routes OAuthReg TokenEnc jm env r) (gives (granted env r w)).
Proof.
  destruct r; simpl; [by apply ensures_ret| |apply callback_earned|apply refresh_earned|].
  - unfold OAuthLogin. apply ensures_respond.
    eapply (ensures_step _ (fun _ => True) (fun _ => True)); [by apply ensures_require|]. intros p _.
    eapply (ensures_step _ (fun _ => True) (fun _ => True)).
    + apply ensures_or_reply. intros r _. by destruct (on_redis _ r) as [[]].
    + intros _ _. by apply ensures_ret.
  - unfold Logout. eapply (ensures_bind _ (fun _ _ => True)); [done|]. intros _. by apply ensures_ret.
Qed.

Lemma gives_weaken (P Q : TokenPair -> Site -> Prop) resp w :
  (forall t, P t w -> Q t w) -> gives P resp w -> gives Q resp w.
Proof. intros HPQ. unfold gives. destruct (body resp) as [[]|]; auto. Qed.

(** C4: Tokens are earned: whatever fails, an endpoint of [/auth] that answers with tokens gives
    them to a user who is in the table.  For the callback, a provider was asked to vouch for the
    user's address with the code of the request and a state that the server had stored for that
    provider and that had not expired; for a refresh, the request brought a valid refresh token
    of the user. *)
Theorem tokens_are_earned env r w faults :
  let '(resp, w') := auth_routes OAuthReg TokenEnc jm env r (MkRun w faults) in
  gives (fun t w' => exists user, user_there user (site_store w') /\
           t = new_tokens jm env user /\ earned w env r user) resp (tables w').
Proof.
  pose proof (auth_routes_granted env r w (MkRun w faults) eq_refl) as He.
  by destruct (auth_routes _ _ _ _ _ _).
Qed.

(** C28: No token makes an administrator, or a member of an organisation: the tokens of any
    answer of [/auth], shown to the middleware at any time, are refused, or are refused by
    [RequireRole("admin")] and by [RequireOrg].  So no request reaches the handlers of [/admin]. *)
Theorem no_token_is_admin env r w faults later token :
  let '(resp, w') := auth_routes OAuthReg TokenEnc jm env r (MkRun w faults) in
  gives (fun t _ => token ∈ [tp_AccessToken t; tp_RefreshToken t] ->
    match Middleware jm later (bearing token) with
    | Ok c => RequireRole ["admin"] (Some c) = Some 403 /\ RequireOrg (Some c) = Some 403
    | Err _ => True
    end) resp (tables w').
Proof.
  pose proof (auth_routes_granted env r w (MkRun w faults) eq_refl) as He.
  destruct (auth_routes _ _ _ _ _ _) as [resp w']. revert He. apply gives_weaken.
  intros t (user & _ & -> & _) Ht.
  assert (exists c, token = sign_claims (jm_secret jm) c /\
    (c_Type c = Jwt.RefreshToken \/ c_Role c = "user" /\ c_OrgID c = 0%N)) as (c & -> & Hc).
  { apply list_elem_of_In in Ht. destruct Ht as [<-|[<-|[]]]; eexists; (split; [reflexivity|]); auto. }
  unfold Middleware. rewrite extract_bearing. destruct (String.eqb _ _); [done|].
  unfold ValidateToken. rewrite parse_sign. destruct (later <? _); [|done].
  cbn [json_claims c_UserID]. destruct (c_UserID c =? 0)%N; [done|].
  destruct (decide _) as [E|]; [|done]. cbn [json_claims c_Type] in E.
  destruct Hc as [Hr|[Hr Ho]]; [congruence|]. unfold RequireRole, RequireOrg.
  cbn [json_claims c_Role c_OrgID]. by rewrite Hr, Ho.
Qed.

(** Whoever signs in with X gets the same account: the profile of X has no address, so once
    somebody has signed in with it, whatever failed, a later sign-in with another profile is
    given the same user. *)
Theorem x_users_share_account env1 env2 fetch1 fetch2 token1 token2 ou1 ou2 user r r1 :
  site_ok (tables r) ->
  x_user fetch1 token1 = Ok ou1 -> x_user fetch2 token2 = Ok ou2 ->
  find_or_create env1 ou1 r = (Ok user, r1) ->
  find_or_create env2 ou2 (quiet (tables r1)) = (Ok user, quiet (tables r1)).
Proof.
  intros Hok E1 E2 Hrun. pose proof (find_or_create_stays env1 ou1 r Hok) as Hok1.
  pose proof (find_or_create_finds env1 ou1 r I) as Hf. rewrite Hrun in Hok1, Hf. simpl in *.
  destruct Hf as [[id Hid] Hemail].
  assert (ou_Email ou1 = "" /\ ou_Email ou2 = "") as [M1 M2].
  { unfold x_user in E1, E2. destruct (fetch1 _) as [[[??]?]|], (fetch2 _) as [[[??]?]|]; by simplify_eq. }
  assert ((id, user) ∈ where_ (fun _ u => String.eqb (u_Email u) "") (s_users (site_store (tables r1))))
    as Hin by (apply elem_where; [done|]; by rewrite Hemail, M1).
  unfold find_or_create. rewrite M2. unfold Users_GetByEmail, on_store.
  erewrite bind_run; [|apply zoom_run; apply get_row_quiet].
  destruct (where_ _ _) as [|[id' user'] l] eqn:E; [by apply not_elem_of_nil in Hin|].
  assert ((id', user') ∈ where_ (fun _ u => String.eqb (u_Email u) "") (s_users (site_store (tables r1))))
    as Hin' by (rewrite E; left).
  apply where_elem in Hin' as [Hid' He']. apply String.eqb_eq in He'.
  assert (id' = id) as -> by (apply (so_emails _ Hok1 id' id user' user Hid' Hid); congruence).
  rewrite Hid in Hid'. injection Hid' as <-. cbn. by destruct (tables r1).
Qed.

End endpoints.
