(* ===== verification/ReviewSafety.v ===== *)
(** * Reviews end

    Without failures of statements a review that [Execute] starts is closed: its row ends
    completed or failed, as the result says.  Webhooks only start reviews with their secret,
    and the reviews that they start are never created. *)

From Stdlib Require Import ZArith Lia Ascii String.
From stdpp Require Import base list gmap strings sorting pretty.
From S2P Require Import Prelude GoStrings Regex Validation Quota SwarmDb Db GoFloat Hub Http Store PrStore Vcs EngineClient PrSync Pipeline Jwt Api Webhooks StoreSafety.
Local Open Scope string_scope.
Local Open Scope rtv_scope.
Local Open Scope Z_scope.

(** ** Printable texts *)

Definition printable_byte (a : ascii) : bool := (32 <=? byte_of a)%N && (byte_of a <=? 126)%N.
Fixpoint printable (s : string) : bool :=
  match s with EmptyString => true | String a s => printable_byte a && printable s end.

Lemma printable_N_char x : printable_byte (pretty_N_char x) = true.
Proof. unfold pretty_N_char. destruct x as [|[[[[]|[]|]|[[]|[]|]|]|[[[]|[]|]|[[]|[]|]|]|]]; done. Qed.

Lemma printable_N_go x s : printable s = true -> printable (pretty_N_go x s) = true.
Proof.
  revert s. induction (N.lt_wf_0 x) as [x _ IH]. intros s Hs.
  destruct (decide (0 < x)%N) as [Hx|Hx].
  - rewrite pretty_N_go_step by done. apply IH; [by apply N.div_lt|].
    simpl. by rewrite printable_N_char.
  - assert (x = 0%N) as -> by lia. by rewrite pretty_N_go_0.
Qed.

Lemma printable_N (x : N) : printable (pretty x) = true.
Proof. unfold pretty, pretty_N. destruct (decide _); [done|]. by apply printable_N_go. Qed.

Lemma printable_itoa z : printable (itoa z) = true.
Proof.
  unfold itoa, pretty, pretty_Z. destruct z; [done|apply (printable_N (N.pos p))|].
  apply (printable_N (N.pos p)).
Qed.

Section reviews.
Context `{Postgres} `{RowOrder} `{Collation} `{UuidText} `{VaultReader} `{Platform} `{EngineStub}.
Context `{ReviewJson} `{Model}.
Variables (engine : bool) (cfg : PipelineConfig).

(** The database takes printable ASCII. *)
Hypothesis takes_ascii : forall s, printable s = true -> text_ok s = true.

(** The row of the review is there. *)
Definition present (id : UUID) (s : Store) : Prop := is_Some (s_reviews s !! id).

(** The row of the review says how it ended. *)
Definition closed (at_ : Z) (id : UUID) (status : string) (s : Store) : Prop :=
  In status [ReviewStatusCompleted; ReviewStatusFailed] /\
  exists rv, s_reviews s !! id = Some rv /\ rv_Status rv = status /\ rv_CompletedAt rv = Some at_.

Lemma act_present id a : stays (present id) (act a).
Proof. unfold act. stay. Qed.
Lemma act_closed t id status a : stays (closed t id status) (act a).
Proof. unfold act. stay. Qed.
Lemma act_calm a : calm (act a).
Proof. unfold act. calm. Qed.
Hint Resolve act_present act_closed : stays.
Hint Resolve act_calm : calm.

Lemma UpdateStatus_present now id id' status m :
  stays (present id) (Reviews_UpdateStatus now id' status m).
Proof.
  unfold Reviews_UpdateStatus, exec_row. stay. intros s [rv E] _. unfold present. simpl.
  destruct (decide (id' = id)) as [->|]; [rewrite lookup_alter_eq|rewrite lookup_alter_ne by done];
    rewrite E; eauto.
Qed.

Lemma CreateComment_present id now cid c : stays (present id) (Reviews_CreateComment now cid c).
Proof. unfold Reviews_CreateComment. stay. Qed.

(** Closing the review *)
Lemma closes now id status m :
  In status [ReviewStatusCompleted; ReviewStatusFailed] -> metadata_ok m = true ->
  yields (present id) (ignoring (Reviews_UpdateStatus now id status m))
    (fun _ => closed now id status).
Proof.
  intros Hst Hm s [rv E]. unfold ignoring, Reviews_UpdateStatus.
  assert (varchar 50 status = true) as Hv.
  { unfold varchar. apply andb_true_iff. destruct Hst as [<-|[<-|[]]]; (split; [by apply takes_ascii|done]). }
  set (update := exec_row _ _ _). assert (exists x s', update (quiet s) = (x, quiet s') /\
    s_reviews s' !! id = Some (set_review_status now status m rv)) as (x & s' & Eu & Es).
  { unfold update. rewrite exec_row_quiet, Hv, Hm. eexists _, _. split; [reflexivity|].
    cbn [fst snd s_reviews set_reviews]. by rewrite lookup_alter_eq, E. }
  rewrite (bind_run _ _ _ _ _ Eu). exists tt, s'. split; [done|]. split; [done|].
  exists (set_review_status now status m rv). split; [done|]. split; [done|].
  by destruct Hst as [<-|[<-|[]]].
Qed.

Lemma fails_review now id e :
  text_ok e = true -> yields (present id) (failReview now id e)
    (fun _ => closed now id ReviewStatusFailed).
Proof.
  intros He. apply closes; [simpl; auto|]. simpl. by rewrite He, takes_ascii.
Qed.

Hint Resolve UpdateStatus_present CreateComment_present : stays.

Lemma ends_with {A} now id status Q (m : DB Store unit) (k : DB Store A) :
  yields (present id) m (fun _ => closed now id status) ->
  calm k -> ensures (closed now id status) k Q ->
  yields (present id) (m;; k) Q.
Proof.
  intros Hm Hc Hk. eapply yields_bind; [exact Hm|]. intros u. by apply yields_ensures.
Qed.

(** The status a review ends with: it depends on the host, the files that are left and on whether
    there is a model, and on nothing else - not on the engine, nor on what the model answers. *)
Definition outcome (creds : ResolvedCreds) (repo : Repository) (n : Z) : string :=
  match GetPullRequest creds (r_Owner repo) (r_Name repo) n,
        GetPullRequestDiff creds (r_Owner repo) (r_Name repo) n with
  | Ok _, Ok diff =>
      match filterFiles cfg diff, ask with
      | _ :: _, None => ReviewStatusFailed
      | _, _ => ReviewStatusCompleted
      end
  | _, _ => ReviewStatusFailed
  end.

(** What a run of a review comes to *)
Definition concluded (env : RunEnv) (id : UUID) (status : string) (res : ReviewResult) (s : Store)
    : Prop :=
  res_ReviewID res = id /\ res_Status res = status /\ closed (re_end env) id status s.

Lemma fails_run env id e :
  text_ok e = true ->
  yields (present id) (failReview (re_end env) id e;; mret (failed_result id e))
    (concluded env id ReviewStatusFailed).
Proof.
  intros He. eapply yields_bind; [by apply fails_review|]. intros u. by apply yields_ret.
Qed.

Lemma persist_calm now ids i review l : calm (persist now ids i review l).
Proof. revert i. induction l as [|c l IH]; intros i; simpl; unfold Reviews_CreateComment; calm. Qed.

Lemma persist_present id now ids i review l : stays (present id) (persist now ids i review l).
Proof. revert i. induction l as [|c l IH]; intros i; simpl; stay. Qed.

Lemma metadata_printable env files n k pack cross :
  metadata_ok (Some (final_metadata env files n k pack cross)) = true.
Proof.
  assert (forall b, text_ok (bool_text b) = true) as Hb by (intros []; by apply takes_ascii).
  unfold metadata_ok, final_metadata. cbn [forallb fst snd]. rewrite !andb_true_iff.
  split_and!; auto using printable_itoa; by apply takes_ascii.
Qed.

Lemma deliver_concludes env id repo req pr files comments n pack cross :
  yields (present id) (deliver env id repo req pr files comments n pack cross)
    (concluded env id ReviewStatusCompleted).
Proof.
  unfold deliver, emitProgress. do 10 (apply yields_keep;
    [first [apply persist_calm|unfold post_comment; calm]
    |first [apply persist_present|solve [stay]|apply stays_every; intros; unfold post_comment; stay]
    |intros ?]).
  eapply ends_with; [apply closes; [simpl; auto|apply metadata_printable]|calm|].
  eapply ensures_bind; [apply act_closed|]. intros u. by apply ensures_ret.
Qed.

(** The row as it is inserted *)
Definition created (env : RunEnv) (repo : Repository) (req : ReviewRequest) : Review :=
  let rv := new_review repo req in
  {| rv_ID := re_review env; rv_RepoID := rv_RepoID rv; rv_TriggeredBy := rv_TriggeredBy rv;
     rv_Platform := rv_Platform rv; rv_PRNumber := rv_PRNumber rv; rv_PRTitle := rv_PRTitle rv;
     rv_PRAuthor := rv_PRAuthor rv; rv_BaseBranch := rv_BaseBranch rv;
     rv_HeadBranch := rv_HeadBranch rv; rv_Status := rv_Status rv;
     rv_FilesChanged := rv_FilesChanged rv; rv_Additions := rv_Additions rv;
     rv_Deletions := rv_Deletions rv; rv_Metadata := rv_Metadata rv;
     rv_CreatedAt := re_start env; rv_CompletedAt := None |}.

(** The errors of the host are texts that the database takes. *)
Definition host_errors_ok (creds : ResolvedCreds) (repo : Repository) (n : Z) : Prop :=
  (forall e, GetPullRequest creds (r_Owner repo) (r_Name repo) n = Err e -> text_ok e = true) /\
  (forall e, GetPullRequestDiff creds (r_Owner repo) (r_Name repo) n = Err e -> text_ok e = true).

Lemma analyzed_concludes env id repo req pr files :
  yields (present id) (analyze_and_deliver engine env id repo req pr files) (concluded env id
    match ask with Some _ => ReviewStatusCompleted | None => ReviewStatusFailed end).
Proof.
  unfold analyze_and_deliver, emitProgress. apply yields_keep;
    [unfold engine_context, emitProgress; calm|unfold engine_context, emitProgress; stay|intros pack].
  apply yields_keep;
    [unfold cross_repo, emitProgress; calm|unfold cross_repo, emitProgress; stay|intros cross].
  apply yields_keep;
    [unfold heuristics, emitProgress; calm|unfold heuristics, emitProgress; stay|intros found].
  apply yields_keep; [calm|stay|intros ?].
  destruct (analyze pr files pack cross) as [comments|e] eqn:Ea;
    (apply yields_keep; [calm|stay|intros ?]); unfold analyze in Ea; destruct ask; try done.
  { apply deliver_concludes. }
  apply fails_run. injection Ea as <-. by apply takes_ascii.
Qed.

Lemma run_concludes env id repo creds req :
  host_errors_ok creds repo (rq_PRNumber req) ->
  yields (present id) (run_review engine cfg env id repo creds req)
    (concluded env id (outcome creds repo (rq_PRNumber req))).
Proof.
  intros [Hpr Hdiff]. unfold run_review, outcome, emitProgress.
  do 4 (apply yields_keep; [unfold Reviews_UpdateStatus; calm|stay|intros ?]).
  destruct (GetPullRequest _ _ _ _) as [pr|e] eqn:E1;
    (apply yields_keep; [calm|stay|intros ?]); [|by apply fails_run, Hpr].
  apply yields_keep; [calm|stay|intros ?].
  destruct (GetPullRequestDiff _ _ _ _) as [diff|e] eqn:E2;
    (apply yields_keep; [calm|stay|intros ?]); [|by apply fails_run, Hdiff].
  do 2 (apply yields_keep; [calm|stay|intros ?]).
  destruct (filterFiles cfg diff) as [|f files];
    [|by destruct ask eqn:Ea; (eapply yields_conseq; [apply analyzed_concludes|done|]);
      rewrite Ea].
  eapply ends_with; [apply closes; [simpl; auto|simpl; by rewrite !takes_ascii]|calm|].
  eapply ensures_bind; [apply act_closed|]. intros u. by apply ensures_ret.
Qed.

(** [s] but for its trace *)
Definition traced (s t : Store) : Prop := exists l, t = set_trace (fun _ => l) s.

Lemma act_traced s a : stays (traced s) (act a).
Proof. unfold act. stay. intros t [l ->]. by eexists. Qed.
Hint Resolve act_traced : stays.

(** What the resolver finds in the tables of [u] *)
Definition resolved (u : Store) (orgID : UUID) (platform secret : string)
    : result ResolvedCreds string :=
  match head (owners orgID u) with
  | None => Err ("vcs resolver: org owner lookup: " ++ no_rows)
  | Some owner =>
      if String.eqb (u_VaultToken owner) ""
      then Err ("vcs resolver: org owner " ++ uuid_String (u_ID owner) ++ " has no vault token")
      else
        let config := default no_platform_config (s_platforms u !! (u_ID owner, platform)) in
        buildClient
          {| cr_Platform := platform;
             cr_Token := or_empty (GetScoped (u_VaultToken owner) (token_key platform));
             cr_WebhookSecret := secret; cr_BaseURL := vp_BaseURL config;
             cr_APIURL := vp_APIURL config; cr_Organization := vp_Organization config;
             cr_Username := vp_Username config |}
  end.

Lemma ForRepoDirect_quiet u orgID platform secret :
  ForRepoDirect orgID platform secret (quiet u) = (resolved u orgID platform secret, quiet u).
Proof.
  unfold resolved, ForRepoDirect, resolveOrgOwnerCreds, wrapping, query_row, query, try_bind, reads,
    next_fails, mbind, DB_bind, ok, fail, mret, DB_ret, quiet. cbn.
  destruct (head (owners orgID u)) as [owner|]; cbn; [|done].
  destruct (String.eqb _ _); cbn; [done|]. by destruct (s_platforms u !! _).
Qed.

Lemma ForRepoDirect_traced s t orgID platform secret creds :
  traced s t -> ForRepoDirect orgID platform secret (quiet s) = (Ok creds, quiet s) ->
  ForRepoDirect orgID platform secret (quiet t) = (Ok creds, quiet t).
Proof.
  intros [l ->]. rewrite !ForRepoDirect_quiet. intros [= E]. f_equal. rewrite <- E. done.
Qed.

Lemma Create_traced s t env repo req :
  traced s t -> has (re_review env) (s_reviews s) = false ->
  review_accepted (created env repo req) s = true ->
  exists t', Reviews_Create (re_start env) (re_review env) (new_review repo req) (quiet t) =
    (Ok (created env repo req), quiet t') /\ present (re_review env) t'.
Proof.
  intros [l ->] Hf Ha. unfold Reviews_Create.
  assert (inserting (fun s => has (re_review env) (s_reviews s))
    (review_accepted (created env repo req)) (set_reviews <[re_review env := created env repo req]>)
    (quiet (set_trace (fun _ => l) s)) = (Ok tt, quiet (set_reviews
      <[re_review env := created env repo req]> (set_trace (fun _ => l) s)))) as E.
  { rewrite inserting_quiet. cbn [s_reviews set_trace]. rewrite Hf.
    change (review_accepted (created env repo req) (set_trace (fun _ => l) s))
      with (review_accepted (created env repo req) s). by rewrite Ha. }
  eexists. split.
  - rewrite (try_run _ _ _ _ _ (wrapping_run _ _ _ _ _ E)). reflexivity.
  - unfold present. cbn. by rewrite lookup_insert_eq.
Qed.

(** C5: A review that is started ends: if statements succeed and the texts of errors fit the
    database, a review of a registered repository, whose owner has credentials and whose trigger
    is a user, returns without an error, and its row is completed or failed, as the result says,
    at the time of the end.  It is failed if and only if the pull request or its diff cannot be
    fetched, or files are left to be reviewed and no model is configured: neither an engine that
    fails nor a model that answers with errors makes it fail. *)
Theorem Execute_concludes env req repo creds s :
  s_repos s !! rq_RepoID req = Some repo ->
  ForRepoDirect (r_OrgID repo) (r_Platform repo) (r_WebhookSecret repo) (quiet s) =
    (Ok creds, quiet s) ->
  has (re_review env) (s_reviews s) = false -> review_accepted (created env repo req) s = true ->
  host_errors_ok creds repo (rq_PRNumber req) ->
  exists res s', Execute engine cfg env req (quiet s) = (Ok res, quiet s') /\
    res_ReviewID res = re_review env /\
    res_Status res = outcome creds repo (rq_PRNumber req) /\
    closed (re_end env) (re_review env) (res_Status res) s'.
Proof.
  intros Hrepo Hcreds Hfresh Hrow Herr.
  assert (yields (traced s) (Execute engine cfg env req) (fun r s' => exists res, r = Ok res /\
    concluded env (re_review env) (outcome creds repo (rq_PRNumber req)) res s')) as Hy.
  { unfold Execute, emitProgress. apply yields_keep; [calm|stay|intros ?].
    eapply (yields_value _ (traced s) _ _ _ repo).
    { intros t Ht. exists t. split; [|done]. apply (wrapping_run _ _ _ (Ok repo)).
      unfold Repos_GetByID. rewrite get_row_quiet. destruct Ht as [l ->]. cbn. by rewrite Hrepo. }
    do 2 (apply yields_keep; [calm|stay|intros ?]).
    eapply (yields_value _ (traced s) _ _ _ creds).
    { intros t Ht. exists t. split; [|done]. apply (wrapping_run _ _ _ (Ok creds)).
      by apply (ForRepoDirect_traced s). }
    do 2 (apply yields_keep; [calm|stay|intros ?]).
    eapply (yields_value _ (present (re_review env)) _ _ _ (created env repo req)).
    { intros t Ht. destruct (Create_traced s t env repo req Ht Hfresh Hrow) as (t' & E & Hp).
      exists t'. split; [|done]. apply (wrapping_run _ _ _ (Ok _) _ E). }
    apply yields_keep; [calm|stay|intros ?].
    eapply yields_bind; [apply run_concludes, Herr|]. intros res. apply yields_ret.
    intros t Ht. by exists res. }
  destruct (Hy s) as (r & s' & E & res & -> & Hid & Hst & Hc);
    [|exists res, s'; by rewrite Hst].
  exists (s_trace s). by destruct s.
Qed.

End reviews.

(** ** Which webhooks start reviews, and what becomes of them

    A webhook starts a review only of a repository that is registered, and only with the
    signature or the token that the secret of the repository asks for.  The review then runs for
    the nil user, whom the database does not have. *)

Section hooks.
Context `{Postgres} `{RowOrder} `{Collation} `{UuidText} `{Inet} `{VaultReader} `{WebhookMac}.
Context `{WebhookJson}.

Definition hook_platform (h : Hook) : string :=
  match h with
  | GitHubHook _ _ => PlatformGitHub
  | GitLabHook _ _ => PlatformGitLab
  | BitbucketHook _ _ => PlatformBitbucket
  | AzureHook _ => PlatformAzureDevOps
  end.

(** What the request shows for the secret. *)
Definition signed (h : Hook) (body secret : string) : Prop :=
  match h with
  | GitHubHook _ s | BitbucketHook _ s => TrimPrefix s "sha256=" = hmac_hex secret body
  | GitLabHook _ t | AzureHook t => t = secret
  end.

(** The event is recorded, at most; the trace is that of [s]. *)
Definition untouched (s s' : Store) : Prop := s_trace s' = s_trace s /\ s_repos s' = s_repos s.

(** One review was started, of a registered repository and with the right secret. *)
Definition started (s : Store) (h : Hook) (eventID : UUID) (body : string) (s' : Store) : Prop :=
  exists id repo n, s_repos s !! id = Some repo /\ r_Platform repo = hook_platform h /\
    s_trace s' = (s_trace s ++ [AReview (Hooked (hook_platform h) eventID) (r_ID repo) n 0])%list /\
    (r_WebhookSecret repo = "" \/ signed h body (r_WebhookSecret repo)).

Section one.
Variables (s : Store) (h : Hook) (env : Env) (body : string).
Notation before := (untouched s).
Notation after := (fun s' => untouched s s' \/ started s h (e_ids env 0%nat) body s').

Lemma hook_step {A B E} (phi : A -> Prop) (m : DB Store (result A E)) (f : A -> DB Store (result B E)) :
  ensures before m (fun x s' => before s' /\ match x with Ok a => phi a | Err _ => True end) ->
  (forall a, phi a -> ensures before (f a) (fun _ => after)) ->
  ensures before (try_bind m f) (fun _ => after).
Proof. intros Hm Hf. eapply (ensures_try_pure _ before phi); eauto. Qed.

Lemma stays_step {A} (phi : A -> Prop) (m : DB Store A) :
  stays before m -> (forall a, phi a) -> ensures before m (fun a s' => before s' /\ phi a).
Proof. intros Hm Hphi. eapply ensures_conseq; [exact Hm|done|]. auto. Qed.

Lemma record_step {B} platform eventType (k : DB Store B) :
  ensures before k (fun _ => after) ->
  ensures before (record_event env platform eventType body;; k) (fun _ => after).
Proof.
  intros Hk. eapply (ensures_bind _ (fun _ => before)); [|by intros _].
  unfold record_event, Webhooks_RecordEvent.
  apply (stays_ignoring (untouched s)). stay.
Qed.

Lemma ensures_fail {A B} (e : B) : ensures before (fail e : DB Store (result A B)) (fun _ => after).
Proof. apply ensures_ret. auto. Qed.

Lemma registered_step {B} externalID (f : Repository -> DB Store (result B (Response Body))) :
  (forall repo, (exists id, s_repos s !! id = Some repo) -> r_Platform repo = hook_platform h ->
     ensures before (f repo) (fun _ => after)) ->
  ensures before (try_bind (registered (hook_platform h) externalID) f) (fun _ => after).
Proof.
  intros Hf. apply (hook_step (fun repo => (exists id, s_repos s !! id = Some repo) /\
                                           r_Platform repo = hook_platform h)).
  - unfold registered. apply ensures_or_reply, ensures_get_row; [|done].
    intros t repo Ht. destruct (where_ _ _) as [|[id r] l] eqn:E; [done|]. intros [= ->].
    split; [done|]. destruct Ht as [_ Er]. rewrite Er in E.
    assert ((id, repo) ∈ where_ (fun _ r => String.eqb (r_Platform r) (hook_platform h)
                && String.eqb (r_ExternalID r) externalID) (s_repos s)) as Hin by (rewrite E; left).
    apply where_elem in Hin as [Hin [Hp _]%andb_true_iff]. apply String.eqb_eq in Hp.
    split; [by exists id|done].
  - intros repo [Hid Hp]. by apply Hf.
Qed.

Lemma secret_step {B} repo (f : string -> DB Store (result B (Response Body))) :
  (forall secret, (r_WebhookSecret repo = "" \/ secret = r_WebhookSecret repo) ->
     ensures before (f secret) (fun _ => after)) ->
  ensures before (secret_of repo (hook_platform h) ≫= f) (fun _ => after).
Proof.
  intros Hf. eapply (ensures_bind_pure _ before); [|exact Hf]. unfold secret_of.
  destruct (String.eqb_spec (r_WebhookSecret repo) "") as [E|].
  - apply stays_step; [auto with stays|by left].
  - apply ensures_ret. auto.
Qed.

Lemma accept_step {B} repo n (k : DB Store B) :
  (exists id, s_repos s !! id = Some repo) -> r_Platform repo = hook_platform h ->
  (r_WebhookSecret repo = "" \/ signed h body (r_WebhookSecret repo)) ->
  ensures after k (fun _ => after) ->
  ensures before (accept env (hook_platform h) repo n;; k) (fun _ => after).
Proof.
  intros [id Hid] Hp Hs Hk. eapply (ensures_bind _ (fun _ => started s h (e_ids env 0%nat) body)).
  - unfold accept. eapply (ensures_bind _ (fun _ => started s h (e_ids env 0%nat) body)).
    + apply ensures_writes. intros t [Ht _]. exists id, repo, n. split_and!; [done..| |done].
      simpl. by rewrite Ht.
    + intros _. apply (stays_ignoring (started s h (e_ids env 0%nat) body)).
      unfold Webhooks_MarkProcessed. stay.
  - intros _. eapply ensures_conseq; [exact Hk|intros t Ht; by right|done].
Qed.

Lemma log_step action rt rid meta : stays after (LogRequest env action rt rid meta).
Proof. unfold LogRequest, Audit_Create. stay. Qed.


Lemma checked_step {B} (valid : bool) (k : DB Store (result B (Response Body))) status message :
  (valid = true -> ensures before k (fun _ => after)) ->
  ensures before (unless (negb valid) status message;? k) (fun _ => after).
Proof.
  intros Hk. apply (hook_step (fun _ => valid = true)); [|by intros _].
  apply ensures_unless; [|done]. intros t E%negb_false_iff Ht. done.
Qed.

End one.

Lemma hmac_checked secret own sig body :
  own = "" \/ secret = own -> ValidateWebhookHMAC body sig secret = true ->
  own = "" \/ TrimPrefix sig "sha256=" = hmac_hex own body.
Proof.
  intros [->| ->] Hv; [by left|]. unfold ValidateWebhookHMAC in Hv.
  destruct (String.eqb_spec own "") as [->|]; [by left|]. right. by apply String.eqb_eq.
Qed.

Lemma token_checked secret own token :
  own = "" \/ secret = own -> ValidateWebhookToken token secret = true -> own = "" \/ token = own.
Proof.
  intros [->| ->] Hv; [by left|]. unfold ValidateWebhookToken in Hv.
  destruct (String.eqb_spec own "") as [->|]; [by left|]. right. by apply String.eqb_eq.
Qed.

(** Take a handler apart along the steps of the section. *)
Ltac hook s h env b :=
  repeat first
    [ apply (ensures_fail s h env b)
    | match goal with
      | |- ensures _ (if ?c then _ else _) _ => destruct c
      | |- ensures _ (try_bind (require (Some _) _ _) _) _ =>
          apply (hook_step s h env b (fun a => a = b)); [by apply ensures_ret|let Hb := fresh in intros ? Hb; cbn beta in Hb; rewrite Hb]
      | |- ensures _ (try_bind (require ?o _ _) _) _ =>
          apply (hook_step s h env b (fun _ => True)); [by apply ensures_require|intros ? _]
      end
    | apply (record_step s h env b)
    | apply (registered_step s h env b); intros repo Hid Hp
    | apply (secret_step s h env b); intros secret Hs
    | apply (checked_step s h env b); intros Hv
    | apply (accept_step s h env b); [assumption|assumption| |] ].

Lemma receive_after s h env b :
  ensures (untouched s) (receive env h (Some b))
    (fun _ s' => untouched s s' \/ started s h (e_ids env 0%nat) b s').
Proof.
  destruct h as [event sig|event token|event sig|token]; simpl; [unfold HandleGitHubWebhook|
    unfold HandleGitLabWebhook|unfold HandleBitbucketWebhook|unfold HandleAzureDevOpsWebhook];
    apply ensures_respond.
  - hook s (GitHubHook event sig) env b; [by apply (hmac_checked secret)|].
    eapply ensures_bind; [apply log_step|]. intros u. by apply ensures_ret.
  - hook s (GitLabHook event token) env b; [by apply (token_checked secret)|]. by apply ensures_ret.
  - hook s (BitbucketHook event sig) env b; [by apply (hmac_checked secret)|]. by apply ensures_ret.
  - hook s (AzureHook token) env b; [by apply (token_checked secret)|]. by apply ensures_ret.
Qed.

(** C3: A webhook starts a review only where it may: whatever fails, a request to one of the
    four endpoints starts no review or one, of a repository that is registered for the host of
    the endpoint, and then the request was signed with the secret of the repository, or carried
    it as a token, unless the repository has none. *)
Theorem webhook_reviews_signed env h body s faults :
  let s' := tables (receive env h body (MkRun s faults)).2 in
  untouched s s' \/ exists b, body = Some b /\ started s h (e_ids env 0%nat) b s'.
Proof.
  destruct body as [b|].
  - destruct (receive_after s h env b (MkRun s faults)) as [Hu|Hs]; [done|by left|].
    right. by exists b.
  - left. by destruct h.
Qed.

(** ** Reviews of the nil user *)

Context `{Platform} `{EngineStub} `{ReviewJson} `{Model}.
Variables (engine deliveries : bool) (cfg : PipelineConfig).

Definition tables_of (s : Store) := (s_reviews s, s_comments s, s_prs s).

Definition posts (a : Act) : bool :=
  match a with APostComment _ _ _ _ _ _ _ | APostSummary _ _ _ _ => true | _ => false end.

(** The nil user is nobody's, the tables are those of [s], and nothing is posted. *)
Definition idle (s s' : Store) : Prop :=
  has 0%N (s_users s') = false /\ tables_of s' = tables_of s /\
  List.filter posts (s_trace s') = List.filter posts (s_trace s).

Lemma idle_act s a : posts a = false -> stays (idle s) (act a).
Proof.
  intros Ha. unfold act. stay. intros t (?&?&Ht). split_and!; [done..|]. simpl.
  rewrite List.filter_app, Ht. simpl. by rewrite Ha, app_nil_r.
Qed.

(** A review that a webhook starts never takes place: it runs for the nil user, to whom no
    row of [users] belongs, so the row of the review is refused; whatever fails, no review, no
    comment and no pull request is changed and nothing is posted to the host. *)
Theorem webhook_reviews_never_run env platform eventID repoID n s faults :
  has 0%N (s_users s) = false ->
  let s' := tables (run_job engine cfg deliveries env (Hooked platform eventID) repoID n 0
                      (MkRun s faults)).2 in
  tables_of s' = tables_of s /\ List.filter posts (s_trace s') = List.filter posts (s_trace s).
Proof.
  intros Hnil. cbv zeta.
  assert (ensures (idle s) (Execute engine cfg env
    {| rq_RepoID := repoID; rq_PRNumber := n; rq_TriggeredBy := 0 |}) (fun _ => idle s)) as He.
  { unfold Execute, emitProgress, Repos_GetByID.
    repeat first [ apply stays_bind; [by apply idle_act|intros _]
                 | apply stays_try; [solve [stay]|intros ?] ].
    eapply (ensures_try _ (fun _ _ => False)); [|intros ? ? []].
    unfold Reviews_Create. apply ensures_wrapping. eapply (ensures_try _ (fun _ _ => False));
      [|intros ? ? []].
    apply ensures_wrapping, ensures_inserting; [|by intros t e Ht].
    intros t (Hn & _) _ Ha. exfalso. unfold review_accepted in Ha. simpl in Ha.
    by rewrite Hn, andb_false_r in Ha. }
  assert (stays (idle s) (run_job engine cfg deliveries env (Hooked platform eventID) repoID n 0)) as Hj.
  { unfold run_job. apply stays_bind; [exact He|]. intros [r|e]; [apply stays_ret|].
    destruct (_ && _); [by apply idle_act|apply stays_ret]. }
  destruct (Hj (MkRun s faults)) as (_ & Ht & Hp); [|done]. done.
Qed.

End hooks.
