(* ===== verification/SyncSafety.v ===== *)
(** * What the synchronisation of pull requests achieves

    The listing of repositories ends and, where names differ, misses none; a pull request that is
    synchronised again keeps its embedding unless its head has moved; one that is embedded ends
    embedded, in error or open again. *)

From Stdlib Require Import ZArith Lia String.
From stdpp Require Import base list gmap strings sorting.
From S2P Require Import Prelude GoStrings SwarmDb Db GoFloat Quota Hub Store PrStore Vcs.
From S2P Require Import EngineClient PrSync StoreSafety ReviewSafety.
Local Open Scope string_scope.
Local Open Scope rtv_scope.
Local Open Scope Z_scope.

(** ** Listing *)

Lemma paged_quiet {A} limit offset (f : Store -> list A) s :
  0 <= limit -> 0 <= offset ->
  paged limit offset f (quiet s) = (Ok (page limit offset (f s)), quiet s).
Proof.
  intros Hl Ho. unfold paged. assert (guarded (fun _ : Store => (0 <=? limit) && (0 <=? offset))
    (fun s => s) (quiet s) = (Ok tt, quiet s)) as E.
  { rewrite guarded_quiet. by rewrite !(proj2 (Z.leb_le _ _)). }
  by rewrite (try_run _ _ _ _ _ E).
Qed.

Section listing.
Context `{Collation}.
Variable orders : nat -> RowOrder.
Variable s : Store.

(** The order of the [i]th query *)
Definition listed (i : nat) : list Repository :=
  order_by_text r_Name (@row_order (orders i) _ (rows (s_repos s)).*2).

Lemma listed_perm i : listed i ≡ₚ (rows (s_repos s)).*2.
Proof. unfold listed, order_by_text. rewrite merge_sort_Permutation. apply row_order_perm. Qed.

Lemma listed_length i : List.length (listed i) = size (s_repos s).
Proof. rewrite listed_perm, length_fmap. unfold rows. apply length_map_to_list. Qed.

Lemma batch_quiet i offset :
  0 <= offset ->
  listReposBatch (orders i) batchSize offset (quiet s) =
  (Ok (page batchSize offset (listed i)), quiet s).
Proof.
  intros Ho. unfold listReposBatch. apply (wrapping_run _ _ _ (Ok _)).
  by rewrite paged_quiet.
Qed.

Lemma batches_quiet fuel i offset all :
  0 <= offset -> Z.of_nat (size (s_repos s)) - offset < batchSize * Z.of_nat fuel ->
  0 < Z.of_nat fuel ->
  exists l, list_batches orders fuel i offset all (quiet s) = (Ok (Some (all ++ l)%list), quiet s) /\
    List.length l = (size (s_repos s) - Z.to_nat offset)%nat /\
    forall L, (forall j, listed j = L) -> l = skipn (Z.to_nat offset) L.
Proof.
  revert i offset all. induction fuel as [|fuel IH]; intros i offset all Ho Hf Hp; [lia|].
  cbn [list_batches]. rewrite (try_run _ _ _ _ _ (batch_quiet i offset Ho)).
  set (batch := page batchSize offset (listed i)).
  assert (List.length batch = Nat.min 100 (size (s_repos s) - Z.to_nat offset)) as Hlen.
  { unfold batch, page. rewrite firstn_length, skipn_length, listed_length. done. }
  unfold batchSize in *. destruct (Z.ltb_spec (Z.of_nat (List.length batch)) 100) as [Hlt|Hge].
  - exists batch. split; [done|]. split; [lia|]. intros L HL. unfold batch, page. rewrite HL.
    apply firstn_all2. rewrite skipn_length, <- (HL i), listed_length. lia.
  - destruct (IH (S i) (offset + 100) (all ++ batch)%list) as (l & E & Hl & HL); [lia..|].
    exists (batch ++ l)%list. rewrite E. split; [by rewrite <- app_assoc|].
    split; [rewrite length_app; lia|]. intros L HLj. rewrite (HL L HLj). unfold batch, page.
    rewrite HLj. rewrite <- (firstn_skipn (Z.to_nat 100) (skipn (Z.to_nat offset) L)) at 2.
    rewrite skipn_skipn. do 2 f_equal. lia.
Qed.

(** Rows of different names *)
Definition names_differ : Prop := forall a b, a ∈ (rows (s_repos s)).*2 -> b ∈ (rows (s_repos s)).*2 ->
  collates (r_Name a) (r_Name b) = true -> collates (r_Name b) (r_Name a) = true -> a = b.

Lemma listed_unique i j : names_differ -> listed i = listed j.
Proof.
  intros Hd. apply (StronglySorted_unique_strong (fun a b => collates (r_Name a) (r_Name b) = true)).
  - intros a b Ha Hb. rewrite (listed_perm _) in Ha. rewrite (listed_perm _) in Hb. by apply Hd.
  - apply StronglySorted_merge_sort; [intros ???; apply collates_trans|intros a b; apply collates_total].
  - apply StronglySorted_merge_sort; [intros ???; apply collates_trans|intros a b; apply collates_total].
  - by rewrite !listed_perm.
Qed.

(** The worker's listing of the repositories ends, in batches of a hundred whose order among
    equal names is the database's own each time: if statements succeed, one more batch than
    there are full ones is enough, as many rows are listed as there are repositories, and where
    no two names compare equal every repository is listed, once. *)
Theorem listAllRepos_complete fuel :
  (size (s_repos s) / 100 < fuel)%nat ->
  exists l, listAllRepos orders fuel (quiet s) = (Ok (Some l), quiet s) /\
    List.length l = size (s_repos s) /\ (names_differ -> l ≡ₚ (rows (s_repos s)).*2).
Proof.
  intros Hf. pose proof (Nat.div_mod_eq (size (s_repos s)) 100) as Hdiv.
  pose proof (Nat.mod_upper_bound (size (s_repos s)) 100 ltac:(lia)) as Hmod.
  destruct (batches_quiet fuel 0 0 []) as (l & E & Hl & HL); [lia|unfold batchSize; lia|lia|].
  exists l. split; [exact E|]. split; [rewrite Hl; lia|]. intros Hd.
  rewrite (HL (listed 0)) by (intros j; by apply listed_unique). apply listed_perm.
Qed.

End listing.

Section prs.
Context `{Postgres} `{RowOrder} `{Collation} `{UuidText} `{VaultReader} `{Platform} `{EngineStub}.

(** ** Synchronising again *)

Lemma conflicting_some p s id q :
  s_prs s !! id = Some q -> same_pr q p = true -> conflicting p s <> [].
Proof.
  intros Hq Hs E. by rewrite (conflicting_nil p s E id q Hq) in Hs.
Qed.

Lemma Upsert_quiet now id p s :
  id_taken (to_insert now id p) s = false -> pr_accepted (to_insert now id p) s = true ->
  PRs_Upsert now id p (quiet s) = (Ok tt, quiet (upsert_row now (to_insert now id p) s)).
Proof.
  intros Ht Ha. unfold PRs_Upsert. apply (wrapping_run _ _ _ (Ok tt)).
  by rewrite inserting_quiet, Ht, Ha.
Qed.

(** Whether the embedding of [q] is out of date for the open pull request [p]. *)
Definition requeues (q p : TrackedPullRequest) : bool :=
  negb (String.eqb (pr_HeadSHA q) (pr_HeadSHA p)) || negb (embed_status (pr_SyncStatus q)).

(** C27: Synchronising a pull request again keeps its embedding: if the statement succeeds, the
    row of an open pull request that is already tracked keeps its identifier, its review and the
    time it was created, and every other row is as it was; it is in the queue for embedding
    exactly if its head has moved or it was not embedded, being embedded or in error, and
    otherwise its status, its time and its error are what they were. *)
Theorem Upsert_keeps_embedding now drawn p s id q :
  store_ok s -> s_prs s !! id = Some q -> same_pr q p = true ->
  pr_SyncStatus p = PRSyncStatusOpen -> pr_accepted (to_insert now drawn p) s = true ->
  (forall t, pr_EmbeddedAt q = Some t -> t < now) ->
  exists s' q', PRs_Upsert now drawn p (quiet s) = (Ok tt, quiet s') /\
    s_prs s' !! id = Some q' /\ (forall j, j <> id -> s_prs s' !! j = s_prs s !! j) /\
    (pr_ID q', pr_ReviewStatus q', pr_LastReviewID q', pr_CreatedAt q') =
      (pr_ID q, pr_ReviewStatus q, pr_LastReviewID q, pr_CreatedAt q) /\
    pr_HeadSHA q' = pr_HeadSHA p /\ due id q' = requeues q p /\
    (requeues q p = false ->
       (pr_SyncStatus q', pr_EmbeddedAt q', pr_EmbedError q') =
       (pr_SyncStatus q, pr_EmbeddedAt q, pr_EmbedError q)).
Proof.
  intros Hok Hq Hsame Hopen Ha Hold. set (e := to_insert now drawn p) in *.
  assert (same_pr q e = true) as Hs by exact Hsame.
  pose proof (conflicting_some e s id q Hq Hs) as Hc.
  assert (id_taken e s = false) as Ht by (unfold id_taken; by destruct (conflicting e s)).
  eexists _, (on_conflict now e q). split; [by apply Upsert_quiet|]. fold e.
  unfold upsert_row. destruct (conflicting e s) as [|c l]; [done|]. cbn [s_prs set_prs].
  split; [rewrite update_where_lookup, Hq; cbn; by rewrite Hs|]. split.
  - intros j Hj. rewrite update_where_lookup. destruct (s_prs s !! j) as [x|] eqn:Ej; [|done]. cbn.
    destruct (same_pr x e) eqn:Ex; [|done]. destruct Hj. apply (so_numbers _ Hok j id x q Ej Hq).
    apply same_pr_key in Ex, Hs. congruence.
  - split; [done|]. split; [done|]. unfold requeues, due, on_conflict, e, to_insert. cbn -[embed_status].
    rewrite Hopen. destruct (String.eqb (pr_HeadSHA q) (pr_HeadSHA p)); cbn -[embed_status]; [|by split].
    destruct (embed_status (pr_SyncStatus q)) eqn:Es; cbn -[embed_status].
    + split; [|done]. clear -Es. unfold embed_status in Es. simpl in Es.
      destruct (String.eqb_spec (pr_SyncStatus q) PRSyncStatusEmbedded) as [->|]; [done|].
      destruct (String.eqb_spec (pr_SyncStatus q) PRSyncStatusEmbedding) as [->|]; [done|].
      by destruct (String.eqb_spec (pr_SyncStatus q) PRSyncStatusEmbedError) as [->|].
    + split; [|done]. destruct (pr_EmbeddedAt q) as [t|]; [|done].
      by apply Z.ltb_lt, Hold.
Qed.

(** ** Embedding *)

Variables (hub engine : bool).

Hypothesis takes_ascii : forall s, printable s = true -> text_ok s = true.

Lemma varchar_ascii n st :
  printable st = true -> (RuneCountInString st <=? n)%nat = true -> varchar n st = true.
Proof. intros Hp Hn. unfold varchar. by rewrite takes_ascii, Hn. Qed.

(** The row of the pull request is there, or it is as [f] says. *)
Definition row_is (id : UUID) (P : TrackedPullRequest -> Prop) (s : Store) : Prop :=
  exists p, s_prs s !! id = Some p /\ P p.
Notation tracked_ id := (row_is id (fun _ => True)).

Lemma act_row id P a : stays (row_is id P) (act a).
Proof. unfold act. stay. Qed.
Hint Resolve act_row : stays.
Hint Resolve act_calm : calm.

Lemma progress_row id P pr a b c d e f g h : stays (row_is id P) (progress hub pr a b c d e f g h).
Proof. unfold progress, broadcastEmbedProgress. stay. Qed.
Lemma progress_calm pr a b c d e f g h : calm (progress hub pr a b c d e f g h).
Proof. unfold progress, broadcastEmbedProgress. calm. Qed.
Hint Resolve progress_row : stays.
Hint Resolve progress_calm : calm.

Lemma parse_row id P pr i total files : stays (row_is id P) (parse_progress hub pr i total files).
Proof. revert i. induction files as [|f files IH]; intros i; simpl; stay. Qed.
Lemma parse_calm pr i total files : calm (parse_progress hub pr i total files).
Proof. revert i. induction files as [|f files IH]; intros i; simpl; calm. Qed.
Hint Resolve parse_row : stays.
Hint Resolve parse_calm : calm.

(** A statement on the row that succeeds *)
Lemma update_row what id accepts f (P : TrackedPullRequest -> Prop) :
  accepts = true -> (forall p, P (f p)) ->
  yields (tracked_ id) (ignoring (update_pr what id accepts f)) (fun _ => row_is id P).
Proof.
  intros Ha Hf s (p & Hp & _). unfold ignoring, update_pr.
  set (update := exec_row _ _ _). assert (exists x s', update (quiet s) = (x, quiet s') /\
    s_prs s' !! id = Some (f p)) as (x & s' & Eu & Es).
  { unfold update. rewrite exec_row_quiet, Ha. eexists _, _. split; [reflexivity|].
    cbn [fst snd s_prs set_prs]. by rewrite lookup_alter_eq, Hp. }
  rewrite (bind_run _ _ _ _ _ Eu). exists tt, s'. split; [done|]. exists (f p). auto.
Qed.

Lemma row_weaken id (P : TrackedPullRequest -> Prop) s : row_is id P s -> tracked_ id s.
Proof. intros (p & Hp & _). by exists p. Qed.

(** After a statement that sets the row, the rest keeps it. *)
Lemma then_keeps {A} id P (m : DB Store unit) (k : DB Store A) Q :
  yields (tracked_ id) m (fun _ => row_is id P) -> calm k -> stays (row_is id P) k ->
  (forall s, row_is id P s -> Q s) -> yields (tracked_ id) (m;; k) (fun _ => Q).
Proof.
  intros Hm Hc Hk HQ. eapply yields_bind; [exact Hm|]. intros u.
  eapply yields_conseq; [apply yields_ensures; [exact Hc|exact Hk]|done|]. auto.
Qed.

(** What becomes of a pull request: its status and the text of its error, and whether the
    engine turned out not to support the call. *)
Definition context_request (pr : TrackedPullRequest) (repo : Repository) (files : list DiffFile)
    : ReviewContextRequest :=
  {| q_RepoID := uuid_String (r_ID repo); q_Diff := combined_diff files;
     q_PRTitle := pr_Title pr; q_PRDescription := pr_Description pr; q_MaxContextChunks := 50 |}.

Inductive Outcome := Embedded_ | Failed_ (text : string) | Unsupported_.

Definition outcome (pr : TrackedPullRequest) (repo : Repository) (creds : ResolvedCreds) : Outcome :=
  match GetPullRequestDiff creds (r_Owner repo) (r_Name repo) (pr_PRNumber pr) with
  | Err e => Failed_ ("failed to fetch diff: " ++ e)
  | Ok files =>
      if negb engine then Embedded_
      else match (BuildReviewContextStream (context_request pr repo files)).2 with
           | Ok _ => Embedded_
           | Err e => if has_code Unimplemented e then Unsupported_
                      else Failed_ ("engine BuildReviewContext failed: " ++ ee_Text e)
           end
  end.

Definition settled (finish : Z) (o : Outcome) (p : TrackedPullRequest) : Prop :=
  match o with
  | Embedded_ => pr_SyncStatus p = PRSyncStatusEmbedded /\ pr_EmbeddedAt p = Some finish /\
                 pr_EmbedError p = None
  | Failed_ text => pr_SyncStatus p = PRSyncStatusEmbedError /\ pr_EmbedError p = Some text
  | Unsupported_ => pr_SyncStatus p = PRSyncStatusOpen
  end.

Lemma finish_settles now pr files :
  yields (tracked_ (pr_ID pr)) (embed_finish hub now pr files)
    (fun _ => row_is (pr_ID pr) (settled now Embedded_)).
Proof.
  unfold embed_finish. eapply then_keeps; [|calm|stay|done].
  apply update_row; [by apply varchar_ascii|done].
Qed.

Lemma failure_settles now pr text {A} (k : DB Store A) :
  text_ok text = true -> calm k -> stays (row_is (pr_ID pr) (settled now (Failed_ text))) k ->
  yields (tracked_ (pr_ID pr)) (ignoring (PRs_MarkEmbedError now (pr_ID pr) text);; k)
    (fun _ => row_is (pr_ID pr) (settled now (Failed_ text))).
Proof.
  intros Ht Hc Hk. eapply then_keeps; [|exact Hc|exact Hk|done].
  apply update_row; [|done]. by rewrite varchar_ascii, Ht.
Qed.

Lemma diff_settles now pr repo creds :
  match outcome pr repo creds with Failed_ text => text_ok text = true | _ => True end ->
  yields (tracked_ (pr_ID pr)) (embed_diff hub engine now pr repo creds)
    (fun _ => row_is (pr_ID pr) (settled now (outcome pr repo creds))).
Proof.
  unfold outcome, embed_diff. intros Htext. apply yields_keep; [calm|stay|intros ?].
  destruct (GetPullRequestDiff _ _ _ _) as [files|e]; [|apply failure_settles; [done|calm|stay]].
  do 2 (apply yields_keep; [calm|stay|intros ?]). destruct engine; [|apply finish_settles].
  cbn [negb] in *. apply yields_keep; [calm|stay|intros ?]. fold (context_request pr repo files).
  destruct (BuildReviewContextStream (context_request pr repo files)) as [updates r]. cbn [snd] in *.
  apply yields_keep; [unfold on_update; calm|apply stays_every; intros; unfold on_update; stay|intros ?].
  destruct r as [pack|e]; [apply finish_settles|].
  destruct (has_code Unimplemented e); [|apply failure_settles; [done|calm|stay]].
  eapply then_keeps; [|calm|stay|done]. apply update_row; [by apply varchar_ascii|done].
Qed.

(** C26: A pull request that the worker embeds does not stay in between: if statements succeed and
    the texts of errors fit the database, then once the repository and its credentials are found
    the row ends embedded, at the time of the end and without an error, if the diff was fetched
    and the engine, where there is one, built its context; in error, with the reason, if the diff
    or the context failed; and open again if the engine does not support the call. *)
Theorem embedPR_settles start finish pr repo creds s :
  row_is (pr_ID pr) (fun _ => True) s -> s_repos s !! pr_RepoID pr = Some repo ->
  ForRepoDirect (r_OrgID repo) (r_Platform repo) (r_WebhookSecret repo) (quiet s) =
    (Ok creds, quiet s) ->
  match outcome pr repo creds with Failed_ text => text_ok text = true | _ => True end ->
  exists u s', embedPR hub engine start finish pr (quiet s) = (u, quiet s') /\
    row_is (pr_ID pr) (settled finish (outcome pr repo creds)) s'.
Proof.
  intros Hrow Hrepo Hcreds Htext. unfold embedPR.
  assert (yields (fun t => t = s) (embed_begin hub start pr)
    (fun b t => b = Some (repo, creds) /\ row_is (pr_ID pr) (fun _ => True) t)) as Hb.
  { intros t ->. unfold embed_begin.
    assert (Repos_GetByID (pr_RepoID pr) (quiet s) = (Ok repo, quiet s)) as E
      by (unfold Repos_GetByID; by rewrite get_row_quiet, Hrepo).
    rewrite (bind_run _ _ _ _ _ E), (bind_run _ _ _ _ _ Hcreds).
    assert (yields (row_is (pr_ID pr) (fun _ => True))
      (progress hub pr "embedding" 0 "fetching_diff" "" 0 0 (-1) "";;
       u ← PRs_UpdateSyncStatus start (pr_ID pr) PRSyncStatusEmbedding;
       mret match u with Ok _ => Some (repo, creds) | Err _ => None end)
      (fun b t => b = Some (repo, creds) /\ row_is (pr_ID pr) (fun _ => True) t)) as Hy;
      [|exact (Hy s Hrow)].
    apply yields_keep; [calm|stay|intros ?]. intros t (p & Hp & _).
    unfold PRs_UpdateSyncStatus, update_pr. set (update := exec_row _ _ _).
    assert (exists t', update (quiet t) = (Ok tt, quiet t') /\ is_Some (s_prs t' !! pr_ID pr))
      as (t' & Eu & [p' Ep]).
    { unfold update. rewrite exec_row_quiet, varchar_ascii by done. unfold affected. cbn. rewrite Hp.
      eexists. split; [reflexivity|]. cbn. by rewrite lookup_alter_eq, Hp. }
    rewrite (bind_run _ _ _ _ _ Eu). exists (Some (repo, creds)), t'. split; [done|].
    split; [done|]. by exists p'. }
  destruct (Hb s eq_refl) as (b & t & Eb & -> & Ht). rewrite (bind_run _ _ _ _ _ Eb).
  by apply diff_settles.
Qed.

End prs.
