(* ===== verification/ServerExamples.v ===== *)
(** * The server evaluated

    An organisation with one owner and one repository, a host with one pull request, tokens that
    are the binary text of their claims, the witnesses of the theorems about the server, and
    what goes wrong. *)

From Stdlib Require Import ZArith Lia Ascii String.
From stdpp Require Import base list gmap countable strings sorting.
From S2P Require Import Prelude GoStrings SwarmDb Db GoFloat KeychainCrypto Regex Validation.
From S2P Require Import Quota Hub Http Store PrStore Vcs EngineClient PrSync Pipeline Jwt Api.
From S2P Require Import Webhooks Session Login StoreSafety Server LoginSafety ReviewSafety.
From S2P Require Import ReviewSafety SyncSafety KeychainExamples.
Local Open Scope string_scope.
Local Open Scope rtv_scope.
Local Open Scope Z_scope.

(** ** Tokens in binary *)

Fixpoint bits (p : positive) : string :=
  match p with xH => "." | xO p => String "0" (bits p) | xI p => String "1" (bits p) end.
Fixpoint unbits (s : string) : option positive :=
  match s with
  | String "." EmptyString => Some xH
  | String "0" s => xO <$> unbits s
  | String "1" s => xI <$> unbits s
  | _ => None
  end.

Lemma unbits_bits p : unbits (bits p) = Some p.
Proof. by induction p as [p IH|p IH|]; simpl; rewrite ?IH. Qed.

Lemma bits_trimmed p : TrimSpace (bits p) = bits p.
Proof.
  assert (exists v, bits p = v ++ ".") as [v Hv].
  { induction p as [p [v IH]|p [v IH]|]; [exists (String "1" v)|exists (String "0" v)|by exists ""];
      simpl; by rewrite IH. }
  destruct (bits p) as [|a u] eqn:E; [by destruct v|].
  apply (TrimSpace_noop _ a "." u v eq_refl Hv); [|done].
  destruct p; simpl in E; injection E as <- <-; done.
Qed.

(** A token is its secret and its claims, each as a number. *)
Definition claims_fields (secret : string) (c : Claims) : list positive :=
  [encode secret; encode (c_Issuer c); encode (c_Subject c); encode (c_IssuedAt c);
   encode (c_ExpiresAt c); encode (c_JTI c); encode (c_UserID c); encode (c_Email c);
   encode (c_Name c); encode (c_Role c); encode (c_OrgID c);
   encode (bool_decide (c_Type c = Jwt.RefreshToken))].

Definition read_claims (l : list positive) : option (string * Claims) :=
  match l with
  | [k; a; b; c; d; e; f; g; h; i; j; r] =>
      k ← decode k; a ← decode a; b ← decode b; c ← decode c; d ← decode d; e ← decode e;
      f ← decode f; g ← decode g; h ← decode h; i ← decode i; j ← decode j; r ← decode r;
      Some (k, {| c_Issuer := a; c_Subject := b; c_IssuedAt := c; c_ExpiresAt := d; c_JTI := e;
                  c_UserID := f; c_Email := g; c_Name := h; c_Role := i; c_OrgID := j;
                  c_Type := if r : bool then Jwt.RefreshToken else AccessToken |})
  | _ => None
  end.

Lemma read_claims_fields secret c : read_claims (claims_fields secret c) = Some (secret, c).
Proof.
  unfold read_claims, claims_fields. rewrite !decode_encode. cbn [mbind option_bind].
  destruct c as [? ? ? ? ? ? ? ? ? ? []]; reflexivity.
Qed.

Definition token_of (l : list positive) : string := bits (encode l).
Definition read_token {A} (read : list positive -> option A) (s : string) : option A :=
  p ← unbits s; l ← decode p; read l.

Lemma read_token_of {A} (read : list positive -> option A) l : read_token read (token_of l) = read l.
Proof. unfold read_token, token_of. rewrite unbits_bits. cbn. by rewrite decode_encode. Qed.

Definition binary_parse (secret : string) (now : Z) (s : string) : result Claims ParseError :=
  match read_token read_claims s with
  | Some (k, c) =>
      if String.eqb k secret
      then if now <? c_ExpiresAt c * SwarmDb.second then Ok c else Err ParseExpired
      else Err (ParseOther "token signature is invalid")
  | None => Err (ParseOther "token is malformed")
  end.

Lemma binary_parse_sign secret now c :
  binary_parse secret now (token_of (claims_fields secret (json_claims c))) =
  if now <? c_ExpiresAt c * SwarmDb.second then Ok (json_claims c) else Err ParseExpired.
Proof.
  unfold binary_parse. by rewrite read_token_of, read_claims_fields, String.eqb_refl.
Qed.

Lemma bits_nonempty p : bits p <> "".
Proof. by destruct p. Qed.

#[local] Instance binary_jwt : Jwt := {|
  sign_claims secret c := token_of (claims_fields secret (json_claims c));
  parse_claims := binary_parse;
  sign_nonempty secret c := bits_nonempty _;
  sign_trimmed secret c := bits_trimmed _;
  parse_sign := binary_parse_sign
|}.

(** ** The surroundings *)

#[local] Existing Instance unary_uuid.
#[local] Existing Instance toy_primitives.
#[local] Existing Instance listed_order.

#[local] Instance utf8_database : Postgres := {| text_ok := fun _ => true |}.
#[local] Instance any_address : Inet := {| inet_ok := fun _ => true |}.

Lemma shorter_total s t :
  (String.length s <=? String.length t)%nat = true \/ (String.length t <=? String.length s)%nat = true.
Proof. rewrite !Nat.leb_le. lia. Qed.
Lemma shorter_trans s t u :
  (String.length s <=? String.length t)%nat = true ->
  (String.length t <=? String.length u)%nat = true ->
  (String.length s <=? String.length u)%nat = true.
Proof. rewrite !Nat.leb_le. lia. Qed.
#[local] Instance by_length : Collation := {|
  collates s t := (String.length s <=? String.length t)%nat;
  collates_total := shorter_total;
  collates_trans := shorter_trans
|}.

#[local] Instance open_vault : VaultReader := {| GetScoped := fun _ _ => Ok "token" |}.

Lemma takes_any s : printable s = true -> text_ok s = true.
Proof. done. Qed.

(** A host with one pull request, whose diff has one file. *)
Definition sample_pr : PullRequest :=
  {| p_ID := "901"; p_Number := 5; p_Title := "Fix"; p_Description := ""; p_Author := "ann";
     p_SourceBranch := "fix"; p_TargetBranch := "main"; p_State := "open"; p_URL := "u";
     p_HeadSHA := "c0ffee"; p_BaseSHA := "b0"; p_Draft := false |}.
Definition sample_file : DiffFile :=
  {| df_Filename := "a.go"; df_Status := "modified"; df_Additions := 1; df_Deletions := 0;
     df_Patch := "+x" |}.

#[local] Instance one_pr_host : Platform := {|
  GetPullRequest _ _ _ _ := Ok sample_pr;
  ListOpenPullRequests _ _ _ _ := Ok [sample_pr];
  GetPullRequestDiff _ _ _ _ := Ok [sample_file];
  PostReviewComment _ _ _ _ _ := None;
  PostReviewSummary _ _ _ _ _ := None
|}.

(** An engine that is down. *)
Definition down : EngineError := plain_error "connection refused".
#[local] Instance no_engine : EngineStub := {|
  stub_BuildReviewContext _ := Err down;
  stub_BuildReviewContextStream _ := Err down;
  stub_RunHeuristics _ _ := Err down;
  stub_Search _ _ _ _ := Err down;
  stub_GetIndexStats _ := Err down;
  stub_DeleteIndex _ := Err down
|}.

#[local] Instance no_json : ReviewJson := {| unmarshal_items := fun _ => None |}.
#[local] Instance silent_model : Model :=
  {| ask := Some (fun _ _ _ _ _ => Ok "[]"); Enrich := None |}.

(** User 7 owns organisation 1 with repository 11. *)
Definition ann : User :=
  {| u_ID := 7; u_Email := "ann@acme.org"; u_DisplayName := "Ann"; u_AvatarURL := "";
     u_VaultToken := "v7"; u_CreatedAt := 0; u_UpdatedAt := 0 |}.
Definition acme_org : Organization :=
  {| o_ID := 1; o_Name := "Acme"; o_Slug := "acme"; o_Plan := "free"; o_Settings := "{}";
     o_CreatedAt := 0; o_UpdatedAt := 0 |}.
Definition api_repo : Repository :=
  {| r_ID := 11; r_OrgID := 1; r_Platform := "github"; r_ExternalID := "77"; r_Owner := "acme";
     r_Name := "api"; r_DefaultBranch := "main"; r_CloneURL := ""; r_WebhookSecret := "s3";
     r_Config := "{}"; r_IndexedAt := None; r_CreatedAt := 0; r_UpdatedAt := 0 |}.
Definition old_pr : TrackedPullRequest :=
  {| pr_ID := 31; pr_RepoID := 11; pr_Platform := "github"; pr_PRNumber := 5;
     pr_ExternalID := "901"; pr_Title := "Fix"; pr_Description := ""; pr_Author := "ann";
     pr_SourceBranch := "fix"; pr_TargetBranch := "main"; pr_HeadSHA := "c0ffee";
     pr_BaseSHA := "b0"; pr_PRURL := "u"; pr_SyncStatus := PRSyncStatusEmbedded;
     pr_ReviewStatus := PRReviewNone; pr_LastReviewID := None; pr_FilesChanged := 0;
     pr_Additions := 0; pr_Deletions := 0; pr_EmbeddedAt := Some 50; pr_EmbedError := None;
     pr_SyncedAt := 40; pr_CreatedAt := Some 40; pr_UpdatedAt := 50 |}.
Definition acme_store : Store :=
  {| s_users := {[ 7%N := ann ]}; s_identities := ∅; s_orgs := {[ 1%N := acme_org ]};
     s_members := {[ (1%N, 7%N) := {| m_Role := "owner"; m_JoinedAt := 0 |} ]};
     s_repos := {[ 11%N := api_repo ]}; s_repo_members := ∅; s_reviews := ∅; s_comments := ∅;
     s_usage := ∅; s_webhooks := ∅; s_platforms := ∅; s_prs := {[ 31%N := old_pr ]};
     s_audit := []; s_trace := [] |}.

Lemma acme_store_ok : store_ok acme_store.
Proof.
  assert (forall A B (key : A -> B) i x, unique key ({[ i := x ]} : gmap UUID A)) as Hu.
  { intros A B key i x j k y z [-> _]%lookup_singleton_Some [-> _]%lookup_singleton_Some. done. }
  split; try apply Hu; try apply map_Forall_empty;
    try apply Forall_nil_2; apply map_Forall_singleton; [done|by split_and!| | |].
  - split_and!; [done..|]. by left.
  - split_and!; [done..|]. by left.
  - split_and!; [done..| |by left]. split; [simpl; auto 10|]. split; [by exists 50|done].
Qed.

(** ** Witnesses *)

Lemma Encrypt_roundtrip_witness :
  let e := token_encryptor (repeated 32 "k") in
  IsEnabled e = true /\ Decrypt e (Encrypt e (repeated 12 "n") "secret") = Ok "secret".
Proof. split; [reflexivity|]. apply Encrypt_roundtrip. reflexivity. Defined.

Definition manager : JWTManager :=
  {| jm_secret := "k"; jm_issuer := "rtvortex"; jm_accessDuration := 3600 * SwarmDb.second;
     jm_refreshDuration := 86400 * SwarmDb.second |}.

Lemma token_pair_roundtrip_witness :
  let t := GenerateTokenPair manager 0 1 2 7 "ann@acme.org" "Ann" "user" 0 in
  Middleware manager 5 (bearing (tp_AccessToken t)) =
  Ok (token_claims manager 0 1 7 "ann@acme.org" "Ann" "user" 0 AccessToken (3600 * SwarmDb.second)).
Proof.
  destruct (token_pair_roundtrip manager 0 1 2 7 "ann@acme.org" "Ann" "user" 0 5 ltac:(done))
    as (E & _ & _ & Hc).
  cbv zeta in E |- *. rewrite E, Hc; [reflexivity|]. by repeat constructor.
Defined.

Definition no_redis : Redis := {| rd_keys := ∅; rd_now := 0 |}.
Definition acme_site : Site := {| site_store := acme_store; site_redis := no_redis |}.
Definition plain_env (now : Z) : Env :=
  {| e_now := now; e_ids := fun i => N.of_nat (100 + i); e_random := "r";
     e_headers := {| h_XForwardedFor := ""; h_XRealIP := ""; h_RemoteAddr := "10.0.0.1:1";
                     h_UserAgent := "" |}; e_claims := None |}.
Definition x_profile (id name : string) (_ : OAuthToken)
    : result (string * string * string) string := Ok (id, name, "").
Definition any_token : OAuthToken :=
  {| ot_AccessToken := "t"; ot_RefreshToken := ""; ot_Expiry := None |}.
Definition x_person (id name : string) : OAuthUser :=
  {| ou_ProviderID := id; ou_Provider := "x"; ou_Email := ""; ou_Name := name; ou_AvatarURL := "";
     ou_AccessToken := "t"; ou_RefreshToken := "" |}.

(** Bob signs in with X after Mallory has, and is Mallory. *)
Definition mallory_in : result User (Response Body) * Run Site :=
  find_or_create (plain_env 10) (x_person "1" "Mallory") (quiet acme_site).
Definition mallory : User :=
  {| u_ID := 100; u_Email := ""; u_DisplayName := "Mallory"; u_AvatarURL := ""; u_VaultToken := "r";
     u_CreatedAt := 10; u_UpdatedAt := 10 |}.

Lemma x_users_share_account_witness :
  find_or_create (plain_env 20) (x_person "2" "Bob") (quiet (tables mallory_in.2)) =
  (Ok mallory, quiet (tables mallory_in.2)).
Proof.
  apply (x_users_share_account (plain_env 10) (plain_env 20) (x_profile "1" "Mallory")
    (x_profile "2" "Bob") any_token any_token (x_person "1" "Mallory") (x_person "2" "Bob") mallory
    (quiet acme_site)); [exact acme_store_ok|reflexivity|reflexivity|].
  unfold mallory_in. vm_compute. reflexivity.
Defined.

Definition run_at (start end_ : Z) : RunEnv :=
  {| re_start := start; re_end := end_; re_review := 200; re_comments := fun i => N.of_nat (300 + i) |}.
Definition default_pipeline : PipelineConfig :=
  NewPipeline {| MaxFilesPerReview := 0; SkipPatterns := ["vendor/**"; "*.lock"] |}.

Lemma webhook_reviews_never_run_witness :
  tables_of (tables (run_job true default_pipeline false (run_at 100 200)
    (Hooked "github" 50) 11 5 0 (quiet acme_store)).2) = tables_of acme_store.
Proof.
  exact (proj1 (webhook_reviews_never_run true false default_pipeline (run_at 100 200) "github" 50
                  11 5 acme_store [] ltac:(reflexivity))).
Defined.

Definition review_five : ReviewRequest := {| rq_RepoID := 11; rq_PRNumber := 5; rq_TriggeredBy := 7 |}.
Definition ann_creds : ResolvedCreds :=
  {| cr_Platform := "github"; cr_Token := "token"; cr_WebhookSecret := "s3"; cr_BaseURL := "";
     cr_APIURL := ""; cr_Organization := ""; cr_Username := "" |}.

Lemma Execute_concludes_witness :
  exists res s', Execute true default_pipeline (run_at 100 200) review_five (quiet acme_store) =
    (Ok res, quiet s') /\ res_ReviewID res = 200%N /\ res_Status res = ReviewStatusCompleted /\
    closed 200 200 (res_Status res) s'.
Proof.
  destruct (Execute_concludes true default_pipeline takes_any (run_at 100 200) review_five
              api_repo ann_creds acme_store) as (res & s' & E & Hid & Hst & Hc); [reflexivity..| |].
  - by split.
  - exists res, s'. split_and!; [exact E|exact Hid| |exact Hc]. rewrite Hst. vm_compute. reflexivity.
Defined.

Lemma listAllRepos_complete_witness :
  exists l, listAllRepos (fun _ => listed_order) 1 (quiet acme_store) = (Ok (Some l), quiet acme_store) /\
    List.length l = 1%nat /\ (names_differ acme_store -> l ≡ₚ (rows (s_repos acme_store)).*2).
Proof. apply (listAllRepos_complete (fun _ => listed_order) acme_store 1). vm_compute. lia. Defined.

Definition moved_pr : TrackedPullRequest := tracked api_repo sample_pr.

Lemma Upsert_keeps_embedding_witness :
  exists s' q', PRs_Upsert 100 40 moved_pr (quiet acme_store) = (Ok tt, quiet s') /\
    s_prs s' !! 31%N = Some q' /\ due 31 q' = false.
Proof.
  destruct (Upsert_keeps_embedding 100 40 moved_pr acme_store 31 old_pr acme_store_ok eq_refl eq_refl
    eq_refl eq_refl ltac:(intros t [= <-]; lia)) as (s' & q' & E & Hq & _ & _ & _ & Hd & _).
  exists s', q'. split; [exact E|]. split; [exact Hq|]. rewrite Hd. reflexivity.
Defined.

Lemma embedPR_settles_witness :
  exists u s', embedPR true true 100 200 old_pr (quiet acme_store) = (u, quiet s') /\
    row_is 31 (settled 200 (Failed_
      "engine BuildReviewContext failed: build review context stream: connection refused")) s'.
Proof.
  exact (embedPR_settles true true takes_any 100 200 old_pr api_repo ann_creds acme_store
           (ex_intro _ old_pr (conj eq_refl I)) eq_refl eq_refl eq_refl).
Defined.

(** ** What goes wrong *)

(** [vendor/**] reads as every file of a directory, and misses the nested ones. *)
Example vendor_is_reviewed :
  matchesSkipPattern default_pipeline "vendor/a.go" = true /\
  matchesSkipPattern default_pipeline "vendor/lib/a.go" = false.
Proof. by vm_compute. Qed.

(** A fence inside a suggestion cuts the answer of the model short. *)
Example fenced_suggestion_is_lost :
  extractJSON ("```json" ++ nl ++ "[{'suggestion': '```go'}]" ++ nl ++ "```") = "[{'suggestion': '".
Proof. by vm_compute. Qed.

(** Anyone signed in makes himself an owner of any organisation. *)
Definition eve_claims : Claims :=
  token_claims manager 0 1 8 "eve@x.org" "Eve" "user" 0 AccessToken (3600 * SwarmDb.second).
Definition eve : User :=
  {| u_ID := 8; u_Email := "eve@x.org"; u_DisplayName := "Eve"; u_AvatarURL := "";
     u_VaultToken := "v8"; u_CreatedAt := 0; u_UpdatedAt := 0 |}.
Example anyone_becomes_owner :
  let s := set_users <[8%N := eve]> acme_store in
  let '(resp, r) := InviteOrgMember false (with_claims (Some eve_claims) (plain_env 5)) "x"
      (Some {| inv_Email := "eve@x.org"; inv_Role := "owner" |}) (quiet s) in
  code resp = 200 /\ m_Role <$> s_members (tables r) !! (1%N, 8%N) = Some "owner".
Proof. by vm_compute. Qed.
