(* ===== verification/SwarmAuth.v ===== *)
(** * Tokens of agents ([swarm/auth])

    [auth.go] and [middleware.go]: an agent of the swarm registers and gets a token, whose hash is
    kept in Redis under the agent's identifier until it expires or is revoked; a request passes
    if its token is the one that is kept.  Signing is a parameter, with the law that a token is
    read back until it expires; SHA-256 is [Digest].  The claim [AgentSeq] is never set and left
    out.  The record in Redis is kept as the Go value. *)

From Stdlib Require Import ZArith Lia Ascii String.
From stdpp Require Import base list gmap strings.
From S2P Require Import Prelude GoStrings SwarmDb Db TaskManager Sandbox Jwt.
Local Open Scope string_scope.
Local Open Scope rtv_scope.
Local Open Scope Z_scope.

Definition AgentTokenTTL : Z := 3 * 3600 * second.

Record AgentClaims := {
  ac_Issuer : string;
  ac_Subject : string;
  ac_IssuedAt : Z;
  ac_ExpiresAt : Z;
  ac_ID : UUID;
  ac_Type : string;
  ac_Role : string;
  ac_TeamID : string
}.

Record RegisterRequest := {
  rr_AgentID : string;
  rr_Role : string;
  rr_TeamID : string;
  rr_RepoID : string;
  rr_Hostname : string;
  rr_Version : string
}.

Record RegisterResponse := {
  rs_AccessToken : string;
  rs_AgentID : string;
  rs_ExpiresIn : Z
}.

Record tokenRecord := {
  tr_IssuedAt : Z;
  tr_Role : string;
  tr_TeamID : string;
  tr_TokenHash : string
}.

(** Texts that JSON keeps: valid UTF-8, as every text that came out of a JSON request is. *)
Definition agent_texts (c : AgentClaims) : bool :=
  forallb (utf8_valid 0) [ac_Issuer c; ac_Subject c; ac_Type c; ac_Role c; ac_TeamID c].

(** [ParseWithClaims] with HMAC methods only. *)
Class AgentJwt := {
  sign_agent : string -> AgentClaims -> string;
  parse_agent : string -> Z -> string -> result AgentClaims string;
  sign_agent_nonempty : forall secret c, sign_agent secret c <> "";
  parse_sign_agent : forall secret now c, agent_texts c = true ->
    parse_agent secret now (sign_agent secret c) =
    if now <? ac_ExpiresAt c * second then Ok c else Err "token is expired"
}.

Record Service := { sv_jwtSecret : string; sv_serviceSecret : string }.

(** The keys of Redis with the times they expire at. *)
Notation Tokens := (gmap string (tokenRecord * Z)).

Definition redisKey (agentID : string) : string := "swarm:agent:token:" ++ agentID.

Section auth.
Context `{Digest} `{UuidText} `{AgentJwt}.
Variable s : Service.

(** [jti] is drawn, and so is [fresh], for an agent without an identifier. *)
Definition agent_claims (now : Z) (jti : UUID) (agentID : string) (req : RegisterRequest)
    : AgentClaims :=
  {| ac_Issuer := "rtvortex"; ac_Subject := agentID; ac_IssuedAt := now / second;
     ac_ExpiresAt := (now + AgentTokenTTL) / second; ac_ID := jti; ac_Type := "agent";
     ac_Role := rr_Role req; ac_TeamID := rr_TeamID req |}.

Definition agent_id (fresh : UUID) (req : RegisterRequest) : string :=
  if String.eqb (rr_AgentID req) "" then "agent-" ++ uuid_String fresh else rr_AgentID req.

Definition Register (now : Z) (fresh jti : UUID) (req : RegisterRequest)
    : DBE Tokens RegisterResponse :=
  let agentID := agent_id fresh req in
  let tokenStr := sign_agent (sv_jwtSecret s) (agent_claims now jti agentID req) in
  let rec := {| tr_IssuedAt := now / second; tr_Role := rr_Role req;
                tr_TeamID := rr_TeamID req; tr_TokenHash := sha256_hex tokenStr |} in
  wrapping "storing token in Redis"
    (statement <[redisKey agentID := (rec, now + AgentTokenTTL)]>);?
  ok {| rs_AccessToken := tokenStr; rs_AgentID := agentID;
        rs_ExpiresIn := AgentTokenTTL / second |}.

(** [GET] of a key that has not expired. *)
Definition live_record (now : Z) (key : string) (t : Tokens) : option tokenRecord :=
  match t !! key with
  | Some (rec, expires) => if now <? expires then Some rec else None
  | None => None
  end.

Definition ValidateToken (now : Z) (tokenStr : string) : DBE Tokens AgentClaims :=
  match parse_agent (sv_jwtSecret s) now tokenStr with
  | Err e => fail ("invalid agent token: " ++ e)
  | Ok claims =>
      if negb (String.eqb (ac_Type claims) "agent")
      then fail ("token type is " ++ quoted (ac_Type claims) ++ ", expected " ++ quoted "agent")
      else
        rec ←? wrapping "checking Redis" (query (live_record now (redisKey (ac_Subject claims))));
        match rec with
        | None => fail "agent token revoked or expired (not in Redis)"
        | Some rec =>
            if String.eqb (sha256_hex tokenStr) (tr_TokenHash rec) then ok claims
            else fail "token hash mismatch (superseded)"
        end
  end.

Definition Revoke (agentID : string) : DBE Tokens unit :=
  statement (delete (redisKey agentID)).

Definition ValidateServiceSecret (secret : string) : bool :=
  negb (String.eqb (sv_serviceSecret s) "") && String.eqb secret (sv_serviceSecret s).

(** ** Middleware *)

Definition extractBearerToken (authorization : string) : string :=
  match splitn_byte " " 2 authorization with
  | [scheme; token] => if is_bearer scheme then token else ""
  | _ => ""
  end.

(** The claims, or the text of the refusal with 401. *)
Definition RequireAgentToken (now : Z) (authorization : string) : DBE Tokens AgentClaims :=
  let token := extractBearerToken authorization in
  if String.eqb token "" then fail "missing agent authorization"
  else ValidateToken now token ≫= fun r : result AgentClaims string =>
    match r with Ok claims => ok claims | Err _ => fail "invalid or expired agent token" end.

Definition RequireServiceSecret (secret : string) : option string :=
  if ValidateServiceSecret secret then None else Some "invalid service secret".

(** ** Which token is current *)

(** The calls that change the record of an agent. *)
Inductive token_op :=
  | TokRegister (now : Z) (fresh jti : UUID) (req : RegisterRequest)
  | TokRevoke (agentID : string).

(** What became of the identifier: the token that was issued and when, or its revocation. *)
Definition Event : Type := string * option (string * Z).

Definition token_step (o : token_op) : DB Tokens (option Event) :=
  match o with
  | TokRegister now fresh jti req =>
      Register now fresh jti req ≫= fun r : result RegisterResponse string =>
        mret (match r with
              | Ok resp => Some (rs_AgentID resp, Some (rs_AccessToken resp, now))
              | Err _ => None
              end)
  | TokRevoke agentID =>
      Revoke agentID ≫= fun r : result unit string =>
        mret (match r with Ok _ => Some (agentID, None) | Err _ => None end)
  end.

(** The events of a sequence of calls, the last one first. *)
Fixpoint token_steps (ops : list token_op) (log : list Event) : DB Tokens (list Event) :=
  match ops with
  | [] => mret log
  | o :: ops =>
      token_step o ≫= fun e : option Event =>
        token_steps ops (match e with Some e => e :: log | None => log end)
  end.

(** The token of an identifier that the log leaves, and the time it was issued. *)
Fixpoint current (agentID : string) (log : list Event) : option (string * Z) :=
  match log with
  | [] => None
  | (a, e) :: log => if String.eqb a agentID then e else current agentID log
  end.

(** Redis keeps, under each key of an agent, the hash of its current token. *)
Definition keeps (log : list Event) (t : Tokens) : Prop :=
  forall agentID,
    (fun p : tokenRecord * Z => (tr_TokenHash p.1, p.2)) <$> t !! redisKey agentID =
    (fun p : string * Z => (sha256_hex p.1, p.2 + AgentTokenTTL)) <$> current agentID log.

#[local] Instance redisKey_inj : Inj (=) (=) redisKey.
Proof. by intros a b [=]. Qed.

Lemma keeps_nil : keeps [] ∅.
Proof. by intros agentID. Qed.

Lemma keeps_register log t agentID rec tok now :
  tr_TokenHash rec = sha256_hex tok -> keeps log t ->
  keeps ((agentID, Some (tok, now)) :: log) (<[redisKey agentID := (rec, now + AgentTokenTTL)]> t).
Proof.
  intros Hh Hk b. cbn [current]. destruct (String.eqb_spec agentID b) as [->|Hne].
  - rewrite lookup_insert_eq. cbn. by rewrite Hh.
  - rewrite lookup_insert_ne; [apply Hk|]. by intros ?%(inj redisKey).
Qed.

Lemma keeps_revoke log t agentID :
  keeps log t -> keeps ((agentID, None) :: log) (delete (redisKey agentID) t).
Proof.
  intros Hk b. cbn [current]. destruct (String.eqb_spec agentID b) as [->|Hne].
  - by rewrite lookup_delete_eq.
  - rewrite lookup_delete_ne; [apply Hk|]. by intros ?%(inj redisKey).
Qed.

Lemma token_step_keeps o log :
  ensures (keeps log) (token_step o)
    (fun e => keeps match e with Some e => e :: log | None => log end).
Proof.
  destruct o as [now fresh jti req|agentID]; cbn [token_step].
  - unfold Register. eapply ensures_bind with (R := fun r t =>
      match r with
      | Ok resp => keeps ((rs_AgentID resp, Some (rs_AccessToken resp, now)) :: log) t
      | Err _ => keeps log t
      end); [|intros [resp|e]; by apply ensures_ret].
    eapply ensures_try; [|intros u; by apply ensures_ret; intros t Ht; exact Ht].
    apply ensures_wrapping, ensures_statement; intros t Ht; [|exact Ht].
    by apply keeps_register.
  - unfold Revoke. eapply ensures_bind with (R := fun r =>
      keeps match r with Ok _ => (agentID, None) :: log | Err _ => log end);
      [|intros [u|e]; by apply ensures_ret].
    apply ensures_statement; intros t Ht; [|exact Ht]. by apply keeps_revoke.
Qed.

Lemma token_steps_keep ops log :
  ensures (keeps log) (token_steps ops log) keeps.
Proof.
  revert log. induction ops as [|o ops IH]; intros log; [by apply ensures_ret|].
  eapply ensures_bind; [apply token_step_keeps|]. intros e. apply IH.
Qed.

(** The verdict on a token at a time, given what became of the identifiers. *)
Definition accepted_by (log : list Event) (now : Z) (tokenStr : string) : result AgentClaims string :=
  match parse_agent (sv_jwtSecret s) now tokenStr with
  | Ok c =>
      if String.eqb (ac_Type c) "agent" then
        match current (ac_Subject c) log with
        | Some (tok, issued) =>
            if (now <? issued + AgentTokenTTL) && String.eqb (sha256_hex tokenStr) (sha256_hex tok)
            then Ok c else Err "refused"
        | None => Err "refused"
        end
      else Err "refused"
  | Err _ => Err "refused"
  end.

(** Errors have one text. *)
Definition verdict {A} (r : result A string) : result A string :=
  match r with Ok a => Ok a | Err _ => Err "refused" end.

(** C21: A token of an agent is valid as long as it is the agent's last one: after any sequence
    of registrations and revocations, whatever fails, a token passes exactly if its signature
    holds, it is a token of an agent, the last thing that became of its identifier is a
    registration less than three hours ago, and it has the hash of the token that was issued
    then. *)
Theorem agent_tokens_are_current ops now tokenStr faults :
  let '(log, r) := token_steps ops [] (MkRun ∅ faults) in
  let '(claims, r') := ValidateToken now tokenStr (quiet (tables r)) in
  verdict claims = accepted_by log now tokenStr /\ tables r' = tables r.
Proof.
  pose proof (token_steps_keep ops [] (MkRun ∅ faults) keeps_nil) as Hk.
  destruct (token_steps ops [] (MkRun ∅ faults)) as [log [t fs]]. cbn in Hk |- *.
  unfold ValidateToken, accepted_by. destruct (parse_agent _ now tokenStr) as [c|e]; [|done].
  destruct (String.eqb (ac_Type c) "agent"); [|done]. cbn [negb].
  erewrite (try_run _ _ _ _ _ (wrapping_run _ _ _ _ _ (query_quiet _ t))). cbn [wrap_err].
  unfold live_record. specialize (Hk (ac_Subject c)). revert Hk.
  destruct (t !! _) as [[rec expires]|], (current _ log) as [[tok issued]|]; cbn; try done.
  intros [= Hh He]. rewrite He. destruct (now <? _); cbn; [|done]. rewrite Hh.
  by destruct (String.eqb _ _).
Qed.

End auth.
