(* ===== verification/SwarmMemory.v ===== *)
(** * Memory of the swarm ([memory_hitl.go], [memory_insights.go])

    What agents of a role learnt of a repository, and what every consensus decision teaches of
    its providers and strategies: rows that are inserted or merged by key, recalled and pruned.
    Confidences are compared as PostgreSQL does, where not-a-number is the greatest number.
    JSON metadata is kept as its fields. *)

From Stdlib Require Import ZArith Lia Ascii String SpecFloat.
From stdpp Require Import base list gmap strings sorting.
From S2P Require Import Prelude GoStrings SwarmDb Db GoFloat.
Local Open Scope string_scope.
Local Open Scope rtv_scope.
Local Open Scope Z_scope.

(** [NULL] is not stored; a zero time or identifier is filled in. *)
Record MTMInsight := {
  mt_ID : UUID;
  mt_RepoID : string;
  mt_AgentRole : string;
  mt_Key : string;
  mt_Insight : string;
  mt_Confidence : float64;
  mt_CreatedAt : option Z;
  mt_UpdatedAt : Z
}.

Definition InsightProviderReliability := "provider_reliability".
Definition InsightStrategyEffective := "strategy_effectiveness".
Definition InsightProviderAgreement := "provider_agreement".
Definition InsightQualitySignal := "quality_signal".

Inductive MetaValue := MText (s : string) | MNumber (f : float64) | MInt (n : Z).
(** JSON an agent sent, or an object the server marshals. *)
Inductive Metadata := Raw (json : string) | Object (fields : list (string * MetaValue)).

Record ConsensusInsight := {
  ci_ID : UUID;
  ci_RepoID : string;
  ci_TaskID : string;
  ci_ThreadID : string;
  ci_Category : string;
  ci_Key : string;
  ci_Insight : string;
  ci_Confidence : float64;
  ci_Strategy : string;
  ci_Provider : string;
  ci_Metadata : option Metadata;
  ci_CreatedAt : option Z;
  ci_UpdatedAt : Z
}.

Record ProviderReliabilityStats := {
  ps_Provider : string;
  ps_WinCount : Z;
  ps_TotalAppear : Z;
  ps_AvgConfidence : float64;
  ps_WinRate : float64;
  ps_LastSeen : Z
}.

(** [swarm_agent_memory] by repository, role and key; [swarm_consensus_insights] by repository,
    category and key. *)
Record Memory := {
  me_mtm : gmap (string * string * string) MTMInsight;
  me_insights : gmap (string * string * string) ConsensusInsight
}.

Definition set_mtm (f : gmap (string * string * string) MTMInsight ->
    gmap (string * string * string) MTMInsight) (m : Memory) : Memory :=
  {| me_mtm := f (me_mtm m); me_insights := me_insights m |}.
Definition set_insights (f : gmap (string * string * string) ConsensusInsight ->
    gmap (string * string * string) ConsensusInsight) (m : Memory) : Memory :=
  {| me_mtm := me_mtm m; me_insights := f (me_insights m) |}.

(** [x >= y] and [GREATEST] of double precision columns *)
Definition pg_ge (x y : float64) : bool := is_nan x || (negb (is_nan y) && fle y x).
Definition greatest (x y : float64) : float64 := if pg_ge x y then x else y.

(** [%.0f]: to the nearest integer, half to even. *)
Definition half_even (m : positive) (e : Z) : Z :=
  if 0 <=? e then Z.pos m * 2 ^ e
  else
    let d := 2 ^ (- e) in
    let q := Z.pos m / d in
    let r := Z.pos m mod d in
    if 2 * r <? d then q else if d <? 2 * r then q + 1 else if Z.even q then q else q + 1.
Definition fmt_0f (f : float64) : string :=
  match f with
  | S754_nan => "NaN"
  | S754_infinity s => if s then "-Inf" else "+Inf"
  | S754_zero s => if s then "-0" else "0"
  | S754_finite s m e => (if s then "-" else "") ++ itoa (half_even m e)
  end.
Definition percent (f : float64) : string := fmt_0f (fmul f (of_int 100)) ++ "%".

Section memory.
Context `{RowOrder}.

(** ** Memory of roles *)

Definition mtm_key (i : MTMInsight) : string * string * string :=
  (mt_RepoID i, mt_AgentRole i, mt_Key i).

(** [ON CONFLICT (repo_id, agent_role, key) DO UPDATE] *)
Definition merge_mtm (old i : MTMInsight) : MTMInsight :=
  {| mt_ID := mt_ID old; mt_RepoID := mt_RepoID old; mt_AgentRole := mt_AgentRole old;
     mt_Key := mt_Key old; mt_Insight := mt_Insight i;
     mt_Confidence := greatest (mt_Confidence old) (mt_Confidence i);
     mt_CreatedAt := mt_CreatedAt old; mt_UpdatedAt := mt_UpdatedAt i |}.

(** Only an inserted row takes the identifier, which the others must not have. *)
Definition upsert_ok {A} (id : A -> UUID) (key : string * string * string) (i : A)
    (m : gmap (string * string * string) A) : bool :=
  match m !! key with
  | Some _ => true
  | None => forallb (fun kv => negb (id kv.2 =? id i)%N) (map_to_list m)
  end.

Definition StoreMTM (now : Z) (fresh : UUID) (i : MTMInsight) : DBE Memory unit :=
  let i := {| mt_ID := if (mt_ID i =? 0)%N then fresh else mt_ID i; mt_RepoID := mt_RepoID i;
              mt_AgentRole := mt_AgentRole i; mt_Key := mt_Key i; mt_Insight := mt_Insight i;
              mt_Confidence := mt_Confidence i;
              mt_CreatedAt := Some (default now (mt_CreatedAt i)); mt_UpdatedAt := now |} in
  wrapping "storing MTM insight"
    (guarded (fun m => upsert_ok mt_ID (mtm_key i) i (me_mtm m))
       (set_mtm (partial_alter (fun old =>
          Some (match old with Some old => merge_mtm old i | None => i end)) (mtm_key i)))).

Definition RecallMTM (repoID agentRole : string) (limit : Z) : DBE Memory (list MTMInsight) :=
  let limit := if limit <=? 0 then 10 else limit in
  wrapping "recalling MTM" (query (fun m =>
    firstn (Z.to_nat limit) (order_by (fun i => - mt_UpdatedAt i)
      (row_order (List.filter (fun i => String.eqb (mt_RepoID i) repoID
                                        && String.eqb (mt_AgentRole i) agentRole)
                   (map_to_list (me_mtm m)).*2))))).

(** [DELETE ... WHERE updated_at < $1] with the number of rows *)
Definition prune {A} (updated : A -> Z) (cutoff : Z) (m : gmap (string * string * string) A)
    : Z * gmap (string * string * string) A :=
  let kept := base.filter (fun kv => (updated kv.2 <? cutoff) = false) m in
  (Z.of_nat (size m) - Z.of_nat (size kept), kept).

Definition PruneStaleMTM (now olderThan : Z) : DBE Memory Z :=
  wrapping "pruning stale MTM" (returning (fun m =>
    let '(n, kept) := prune mt_UpdatedAt (now - olderThan) (me_mtm m) in
    (n, set_mtm (fun _ => kept) m))).

(** ** Insights of decisions *)

Definition insight_key (i : ConsensusInsight) : string * string * string :=
  (ci_RepoID i, ci_Category i, ci_Key i).

Definition merge_insight (old i : ConsensusInsight) : ConsensusInsight :=
  {| ci_ID := ci_ID old; ci_RepoID := ci_RepoID old; ci_TaskID := ci_TaskID i;
     ci_ThreadID := ci_ThreadID i; ci_Category := ci_Category old; ci_Key := ci_Key old;
     ci_Insight := if pg_ge (ci_Confidence i) (ci_Confidence old)
                   then ci_Insight i else ci_Insight old;
     ci_Confidence := greatest (ci_Confidence old) (ci_Confidence i);
     ci_Strategy := ci_Strategy i; ci_Provider := ci_Provider i; ci_Metadata := ci_Metadata i;
     ci_CreatedAt := ci_CreatedAt old; ci_UpdatedAt := ci_UpdatedAt i |}.

(** The row as it is sent to the database. *)
Definition filled_in (now : Z) (fresh : UUID) (i : ConsensusInsight) : ConsensusInsight :=
  {| ci_ID := if (ci_ID i =? 0)%N then fresh else ci_ID i; ci_RepoID := ci_RepoID i;
     ci_TaskID := ci_TaskID i; ci_ThreadID := ci_ThreadID i; ci_Category := ci_Category i;
     ci_Key := ci_Key i; ci_Insight := ci_Insight i; ci_Confidence := ci_Confidence i;
     ci_Strategy := ci_Strategy i; ci_Provider := ci_Provider i;
     ci_Metadata := Some (default (Raw "{}") (ci_Metadata i));
     ci_CreatedAt := Some (default now (ci_CreatedAt i)); ci_UpdatedAt := now |}.

Definition StoreConsensusInsight (now : Z) (fresh : UUID) (i : ConsensusInsight)
    : DBE Memory unit :=
  let i := filled_in now fresh i in
  wrapping "storing consensus insight"
    (guarded (fun m => upsert_ok ci_ID (insight_key i) i (me_insights m))
       (set_insights (partial_alter (fun old =>
          Some (match old with Some old => merge_insight old i | None => i end))
          (insight_key i)))).

(** [ORDER BY confidence DESC, updated_at DESC] *)
Definition ranks_before (a b : ConsensusInsight) : bool :=
  pg_ge (ci_Confidence a) (ci_Confidence b)
  && (negb (pg_ge (ci_Confidence b) (ci_Confidence a)) || (ci_UpdatedAt b <=? ci_UpdatedAt a)).
Definition by_confidence (l : list ConsensusInsight) : list ConsensusInsight :=
  merge_sort (fun a b => Is_true (ranks_before a b)) l.

Definition RecallConsensusInsights (repoID category : string) (limit : Z)
    : DBE Memory (list ConsensusInsight) :=
  let limit := if limit <=? 0 then 20 else limit in
  wrapping "recalling consensus insights" (query (fun m =>
    firstn (Z.to_nat limit) (by_confidence
      (row_order (List.filter (fun i => String.eqb (ci_RepoID i) repoID
                    && (String.eqb category "" || String.eqb (ci_Category i) category))
                   (map_to_list (me_insights m)).*2))))).

(** The row of one group of [GROUP BY provider]; the filter of the first count compares the
    provider of a row with itself. *)
Definition provider_row (rows : list ConsensusInsight) (provider : string)
    : ProviderReliabilityStats :=
  let group := List.filter (fun i => String.eqb (ci_Provider i) provider) rows in
  let wins := Z.of_nat (List.length
                (List.filter (fun i => String.eqb (ci_Provider i) (ci_Provider i)) group)) in
  let total := Z.of_nat (List.length group) in
  {| ps_Provider := provider; ps_WinCount := wins; ps_TotalAppear := total;
     ps_AvgConfidence := fdiv (fold_left (fun s i => fadd s (ci_Confidence i)) group (of_int 0))
                              (of_int total);
     ps_WinRate := if 0 <? total then fdiv (of_int wins) (of_int total) else of_int 0;
     ps_LastSeen := fold_right (fun i t => Z.max (ci_UpdatedAt i) t) 0 group |}.

Definition GetProviderReliabilityStats (repoID : string)
    : DBE Memory (list ProviderReliabilityStats) :=
  wrapping "querying provider reliability" (query (fun m =>
    let rows := row_order (List.filter (fun i => String.eqb (ci_RepoID i) repoID
                    && String.eqb (ci_Category i) InsightProviderReliability)
                  (map_to_list (me_insights m)).*2) in
    order_by (fun s => - ps_WinCount s)
      (row_order (map (provider_row rows) (remove_dups (map ci_Provider rows)))))).

Definition PruneStaleInsights (now olderThan : Z) : DBE Memory Z :=
  wrapping "pruning stale insights" (returning (fun m =>
    let '(n, kept) := prune ci_UpdatedAt (now - olderThan) (me_insights m) in
    (n, set_insights (fun _ => kept) m))).

(** ** What a decision teaches *)

(** The event of a decision, as [ConsensusEvent] decodes it. *)
Record Decision := {
  de_ThreadID : string;
  de_AgentRole : string;
  de_Strategy : string;
  de_Provider : string;
  de_Model : string;
  de_Confidence : float64;
  de_Reasoning : string;
  de_Scores : gmap string float64;
  de_LatencyMs : Z;
  de_JudgeCount : Z;
  de_JudgeAgreement : float64
}.

Definition insight_of (repoID taskID : string) (d : Decision) (category key text : string)
    (confidence : float64) (provider : string) (meta : list (string * MetaValue))
    : ConsensusInsight :=
  {| ci_ID := 0%N; ci_RepoID := repoID; ci_TaskID := taskID; ci_ThreadID := de_ThreadID d;
     ci_Category := category; ci_Key := key; ci_Insight := text; ci_Confidence := confidence;
     ci_Strategy := de_Strategy d; ci_Provider := provider; ci_Metadata := Some (Object meta);
     ci_CreatedAt := None; ci_UpdatedAt := 0 |}.

(** A winner that is one of the models. *)
Definition names_winner (provider : string) : bool :=
  negb (String.eqb provider "") && negb (String.eqb provider "consensus").

(** [taskID[:8]]; the identifier was parsed, so it is longer. *)
Definition task_prefix (taskID : string) : string := str_take 8 taskID.

Definition agreement_level (f : float64) : string :=
  if flt f (lit 5 10) then "low" else if flt f (lit 75 100) then "moderate" else "high".

(** The best provider with its score, and the worst score, in the order of the iteration. *)
Definition score_range (scores : gmap string float64) : string * float64 * float64 :=
  fold_left (fun acc kv =>
      let '(best, hi, lo) := acc in
      let '(p, s) := kv in
      let '(best, hi) := if flt hi s then (p, s) else (best, hi) in
      (best, hi, if flt s lo then s else lo))
    (row_order (map_to_list scores)) ("", of_int 0, of_int 1).

Definition reliability_insight (repoID taskID : string) (d : Decision) : list ConsensusInsight :=
  if names_winner (de_Provider d) then
    [insight_of repoID taskID d InsightProviderReliability ("winner:" ++ de_Provider d)
       (de_Provider d ++ " (model: " ++ de_Model d ++ ") won consensus with "
        ++ percent (de_Confidence d) ++ " confidence using " ++ de_Strategy d ++ " strategy.")
       (de_Confidence d) (de_Provider d)
       [("model", MText (de_Model d)); ("confidence", MNumber (de_Confidence d));
        ("strategy", MText (de_Strategy d))]]
  else [].

Definition strategy_insight (repoID taskID : string) (d : Decision) : ConsensusInsight :=
  insight_of repoID taskID d InsightStrategyEffective
    ("strategy:" ++ de_Strategy d ++ ":task:" ++ task_prefix taskID)
    ("Strategy " ++ de_Strategy d ++ " selected " ++ de_Provider d ++ " with "
     ++ percent (de_Confidence d) ++ " confidence.")
    (de_Confidence d) (de_Provider d)
    [("provider", MText (de_Provider d)); ("confidence", MNumber (de_Confidence d));
     ("judge_count", MInt (de_JudgeCount d)); ("judge_agreement", MNumber (de_JudgeAgreement d))].

Definition agreement_insight (repoID taskID : string) (d : Decision) : list ConsensusInsight :=
  if 2 <=? de_JudgeCount d then
    [insight_of repoID taskID d InsightProviderAgreement
       ("agreement:task:" ++ task_prefix taskID)
       ("Multi-judge panel (" ++ itoa (de_JudgeCount d) ++ " judges) showed "
        ++ agreement_level (de_JudgeAgreement d) ++ " agreement ("
        ++ percent (de_JudgeAgreement d) ++ ") — winner: " ++ de_Provider d ++ ".")
       (de_JudgeAgreement d) (de_Provider d)
       [("judge_count", MInt (de_JudgeCount d)); ("judge_agreement", MNumber (de_JudgeAgreement d));
        ("winner", MText (de_Provider d))]]
  else [].

Definition quality_insight (repoID taskID : string) (d : Decision) : list ConsensusInsight :=
  if (2 <=? size (de_Scores d))%nat then
    let '(best, hi, lo) := score_range (de_Scores d) in
    let spread := fsub hi lo in
    if flt (lit 2 10) spread then
      [insight_of repoID taskID d InsightQualitySignal ("quality:task:" ++ task_prefix taskID)
         ("Provider quality spread of " ++ percent spread ++ " — " ++ best ++ " scored highest ("
          ++ percent hi ++ "), lowest was " ++ percent lo ++ ".")
         (de_Confidence d) best
         (map (fun kv => (kv.1, MNumber kv.2)) (row_order (map_to_list (de_Scores d))))]
    else []
  else [].

Definition insights_of (repoID taskID : string) (d : Decision) : list ConsensusInsight :=
  (reliability_insight repoID taskID d ++ [strategy_insight repoID taskID d]
   ++ agreement_insight repoID taskID d ++ quality_insight repoID taskID d)%list.

(** [fresh n] is the identifier that is drawn for the n-th row. *)
Fixpoint store_all (now : Z) (fresh : nat -> UUID) (n : nat) (l : list ConsensusInsight)
    : DB Memory unit :=
  match l with
  | [] => mret tt
  | i :: l => ignoring (StoreConsensusInsight now (fresh n) i);; store_all now fresh (S n) l
  end.

Definition ExtractAndStoreInsights (now : Z) (fresh : nat -> UUID) (repoID taskID : string)
    (d : Decision) : DB Memory unit :=
  if String.eqb repoID "" then mret tt else store_all now fresh 0 (insights_of repoID taskID d).

(** ** The statistics *)

(** The statistics of providers cannot tell a provider that wins from one that does not: what
    is counted as wins are all rows of the provider, so that the two counts are the same in
    every row of the answer, and the rate is that of a number by itself. *)
Theorem provider_wins_are_appearances repoID m s :
  match GetProviderReliabilityStats repoID (quiet m) with
  | (Ok stats, r) => r = quiet m /\
      (s ∈ stats -> ps_WinCount s = ps_TotalAppear s /\ 0 < ps_TotalAppear s /\
         ps_WinRate s = fdiv (of_int (ps_TotalAppear s)) (of_int (ps_TotalAppear s)))
  | (Err _, _) => False
  end.
Proof.
  unfold GetProviderReliabilityStats. rewrite (wrapping_run _ _ _ _ _ (query_quiet _ m)). cbn.
  split; [done|]. set (rows := row_order (List.filter _ _)). intros Hs.
  assert (s ∈ row_order (map (provider_row rows) (remove_dups (map ci_Provider rows)))) as Hin.
  { revert Hs. unfold order_by. by rewrite merge_sort_Permutation. }
  rewrite row_order_perm in Hin. apply list_elem_of_fmap in Hin as (p & -> & Hp).
  rewrite elem_of_remove_dups in Hp. apply list_elem_of_fmap in Hp as (i & -> & Hi).
  cbn. set (group := List.filter (fun j => String.eqb (ci_Provider j) (ci_Provider i)) rows).
  assert (List.filter (fun j => String.eqb (ci_Provider j) (ci_Provider j)) group = group) as ->.
  { induction group as [|j l IH]; [done|]. cbn. by rewrite String.eqb_refl, IH. }
  assert (0 < Z.of_nat (List.length group)) as Hpos.
  { assert (i ∈ group) as Hg.
    { apply list_elem_of_In, filter_In. rewrite <- list_elem_of_In, String.eqb_refl. auto. }
    destruct group; [by apply not_elem_of_nil in Hg|]. cbn. lia. }
  split_and!; [done|done|]. by rewrite (proj2 (Z.ltb_lt _ _) Hpos).
Qed.

(** ** What is kept of the observations under one key *)

Definition is_zero (f : float64) : bool := match f with S754_zero _ => true | _ => false end.
(** Equal for PostgreSQL *)
Definition same_number (x y : float64) : Prop := x = y \/ (is_zero x = true /\ is_zero y = true).

Lemma pg_ge_same x x' y y' : same_number x x' -> same_number y y' -> pg_ge x y = pg_ge x' y'.
Proof.
  assert (forall x x' y, same_number x x' -> pg_ge x y = pg_ge x' y) as Hl.
  { intros a a' b [->|[Ha Ha']]; [done|]. destruct a, a'; try done; by destruct b. }
  assert (forall x y y', same_number y y' -> pg_ge x y = pg_ge x y') as Hr.
  { intros a b b' [->|[Hb Hb']]; [done|]. destruct b, b'; try done; by destruct a. }
  intros Hx Hy. by rewrite (Hl x x' y Hx), (Hr x' y y' Hy).
Qed.

Lemma pg_ge_total x y : pg_ge x y = false -> pg_ge y x = true.
Proof.
  unfold pg_ge. destruct (is_nan x) eqn:Hx; [done|]. destruct (is_nan y) eqn:Hy; [done|]. cbn.
  rewrite !fle_negb_flt by done. intros E%negb_false_iff. rewrite negb_true_iff.
  destruct (flt y x) eqn:E2; [|done]. revert E E2. unfold flt, SFltb.
  rewrite (SFcompare_antisym x y). by destruct (SFcompare x y) as [[]|].
Qed.

Lemma pg_ge_antisym x y : pg_ge x y = true -> pg_ge y x = true -> same_number x y.
Proof.
  unfold pg_ge, same_number, fle, SFleb. intros H1 H2.
  destruct x as [sx|sx| |sx mx ex], y as [sy|sy| |sy my ey]; try destruct sx; try destruct sy;
    cbn in H1, H2; try done; try (by left); try (by right); left; revert H1 H2;
    rewrite (Z.compare_antisym ex ey); destruct (Z.compare_spec ex ey) as [->| |]; cbn; try done;
    cbn [CompOpp]; change (PosDef.Pos.compare_cont Eq my mx) with (Pos.compare my mx);
    change (PosDef.Pos.compare_cont Eq mx my) with (Pos.compare mx my);
    rewrite (Pos.compare_antisym mx my); destruct (Pos.compare_spec mx my) as [->| |]; done.
Qed.

(** The last of the most confident observations. *)
Fixpoint best_of (b : ConsensusInsight) (l : list ConsensusInsight) : ConsensusInsight :=
  match l with
  | [] => b
  | i :: l => best_of (if pg_ge (ci_Confidence i) (ci_Confidence b) then i else b) l
  end.

Fixpoint last_of (i : ConsensusInsight) (l : list ConsensusInsight) : ConsensusInsight :=
  match l with [] => i | j :: l => last_of j l end.

(** The row of a key, after [b] was the best and [i] the last observation: the text and the
    confidence are those of the best, what goes with them is that of the last. *)
Definition row_of (b i row : ConsensusInsight) : Prop :=
  ci_Insight row = ci_Insight b /\ same_number (ci_Confidence row) (ci_Confidence b) /\
  ci_Provider row = ci_Provider i /\ ci_Strategy row = ci_Strategy i /\
  ci_TaskID row = ci_TaskID i.

Lemma merge_row_of b i j row :
  row_of b i row ->
  row_of (if pg_ge (ci_Confidence j) (ci_Confidence b) then j else b) j (merge_insight row j).
Proof.
  intros (Ht & Hc & _). unfold row_of, merge_insight. cbn.
  assert (pg_ge (ci_Confidence j) (ci_Confidence b) = pg_ge (ci_Confidence j) (ci_Confidence row))
    as -> by (apply pg_ge_same; [by left|by destruct Hc as [->|[]]; [left|right]]).
  unfold greatest. destruct (pg_ge (ci_Confidence j) (ci_Confidence row)) eqn:E.
  - split_and!; try done. destruct (pg_ge (ci_Confidence row) (ci_Confidence j)) eqn:E2;
      [by apply pg_ge_antisym|by left].
  - by rewrite (pg_ge_total _ _ E).
Qed.

(** The observations are stored one after the other, each with its time and identifier. *)
Fixpoint observe (l : list (Z * UUID * ConsensusInsight)) : DBE Memory unit :=
  match l with
  | [] => ok tt
  | (now, fresh, i) :: l => StoreConsensusInsight now fresh i;? observe l
  end.

Lemma store_present now fresh i m old :
  me_insights m !! insight_key i = Some old ->
  StoreConsensusInsight now fresh i (quiet m) =
  (Ok tt, quiet (set_insights (<[insight_key i := merge_insight old (filled_in now fresh i)]>) m)).
Proof.
  intros Ho. unfold StoreConsensusInsight, wrapping.
  change (insight_key (filled_in now fresh i)) with (insight_key i).
  unfold mbind, DB_bind. rewrite guarded_quiet. unfold upsert_ok. rewrite Ho. cbn.
  unfold set_insights. do 3 f_equal. apply map_eq. intros k.
  destruct (decide (insight_key i = k)) as [<-|Hne].
  - by rewrite lookup_partial_alter_eq, lookup_insert_eq, Ho.
  - by rewrite lookup_partial_alter_ne, lookup_insert_ne.
Qed.

Lemma store_absent now fresh i m :
  me_insights m !! insight_key i = None ->
  upsert_ok ci_ID (insight_key i) (filled_in now fresh i) (me_insights m) = true ->
  StoreConsensusInsight now fresh i (quiet m) =
  (Ok tt, quiet (set_insights (<[insight_key i := filled_in now fresh i]>) m)).
Proof.
  intros Hn Hok. unfold StoreConsensusInsight, wrapping.
  change (insight_key (filled_in now fresh i)) with (insight_key i).
  unfold mbind, DB_bind. rewrite guarded_quiet, Hok. cbn.
  unfold set_insights. do 3 f_equal. apply map_eq. intros k.
  destruct (decide (insight_key i = k)) as [<-|Hne].
  - by rewrite lookup_partial_alter_eq, lookup_insert_eq, Hn.
  - by rewrite lookup_partial_alter_ne, lookup_insert_ne.
Qed.

Lemma observe_row l m row b i :
  Forall (fun x => insight_key x.2 = insight_key i) l ->
  me_insights m !! insight_key i = Some row -> row_of b i row ->
  exists m' row', observe l (quiet m) = (Ok tt, quiet m') /\
    me_insights m' !! insight_key i = Some row' /\
    row_of (best_of b l.*2) (last_of i l.*2) row'.
Proof.
  intros Hl. revert m row b. 
  assert (forall j m row b, insight_key j = insight_key i ->
    me_insights m !! insight_key i = Some row -> row_of b j row ->
    exists m' row', observe l (quiet m) = (Ok tt, quiet m') /\
      me_insights m' !! insight_key i = Some row' /\
      row_of (best_of b l.*2) (last_of j l.*2) row') as Hgen; [|by eauto].
  induction Hl as [|[[now fresh] x] l Hx Hl IH]; intros j m row b Hj Hm Hr; [by eauto|].
  cbn [observe snd fmap list_fmap] in *.
  edestruct (IH x) as (m' & row' & Ho & Hm' & Hr'); [done| | |].
  3:{ exists m', row'. rewrite (try_run _ _ _ _ _ (store_present now fresh x m row
        ltac:(by rewrite Hx))). split_and!; [exact Ho|done|].
      exact Hr'. }
  - rewrite <- Hx. cbn. by rewrite lookup_insert_eq.
  - pose proof (merge_row_of b j (filled_in now fresh x) row Hr) as Hm'.
    revert Hm'. unfold row_of. cbn.
    by destruct (pg_ge (ci_Confidence x) (ci_Confidence b)).
Qed.

Definition no_memory : Memory := {| me_mtm := ∅; me_insights := ∅ |}.

(** What is remembered under a key is put together from two observations: of any sequence of
    observations of the same key, the row has the text and the confidence of the most confident
    one (the last of those), but the provider, the strategy and the task of the last one. *)
Theorem insight_mixes_observations now fresh i l :
  Forall (fun x => insight_key x.2 = insight_key i) l ->
  exists m row, observe ((now, fresh, i) :: l) (quiet no_memory) = (Ok tt, quiet m) /\
    me_insights m !! insight_key i = Some row /\
    row_of (best_of i l.*2) (last_of i l.*2) row.
Proof.
  intros Hl.
  destruct (observe_row l (set_insights <[insight_key i := filled_in now fresh i]> no_memory)
              (filled_in now fresh i) i i Hl) as (m & row & Ho & Hm & Hr).
  - cbn. by rewrite lookup_insert_eq.
  - unfold row_of. split_and!; try done. by left.
  - exists m, row. split_and!; [|done|done]. cbn [observe].
    by rewrite (try_run _ _ _ _ _ (store_absent now fresh i no_memory eq_refl eq_refl)).
Qed.


End memory.

(** ** Evaluation *)

#[local] Instance listed_order : RowOrder :=
  {| row_order := fun _ l => l; row_order_perm := fun _ l => reflexivity l |}.

Definition sample_insight (text provider : string) (confidence : float64) : ConsensusInsight :=
  {| ci_ID := 0%N; ci_RepoID := "r"; ci_TaskID := "t"; ci_ThreadID := ""; ci_Category := "c";
     ci_Key := "k"; ci_Insight := text; ci_Confidence := confidence; ci_Strategy := "";
     ci_Provider := provider; ci_Metadata := None; ci_CreatedAt := None; ci_UpdatedAt := 0 |}.

(** The confident observation was of grok, and the row says openai. *)
Lemma insight_mixes_observations_witness :
  exists m row,
    observe [(1, 1%N, sample_insight "grok is right" "grok" (lit 9 10));
             (2, 2%N, sample_insight "openai is right" "openai" (lit 3 10))] (quiet no_memory)
      = (Ok tt, quiet m) /\
    me_insights m !! ("r", "c", "k") = Some row /\
    ci_Insight row = "grok is right" /\ ci_Provider row = "openai".
Proof.
  destruct (insight_mixes_observations 1 1%N (sample_insight "grok is right" "grok" (lit 9 10))
    [(2, 2%N, sample_insight "openai is right" "openai" (lit 3 10))]) as (m & row & Ho & Hm & Hr).
  - by repeat constructor.
  - exists m, row. split_and!; [exact Ho|exact Hm|apply Hr|apply Hr].
Defined.

Definition sample_win : ConsensusInsight :=
  {| ci_ID := 1%N; ci_RepoID := "r"; ci_TaskID := "t"; ci_ThreadID := "";
     ci_Category := InsightProviderReliability; ci_Key := "winner:grok"; ci_Insight := "";
     ci_Confidence := lit 9 10; ci_Strategy := ""; ci_Provider := "grok"; ci_Metadata := None;
     ci_CreatedAt := None; ci_UpdatedAt := 5 |}.
Definition one_win : Memory :=
  {| me_mtm := ∅; me_insights := {[ insight_key sample_win := sample_win ]} |}.

Lemma provider_wins_are_appearances_witness :
  let s := provider_row [sample_win] "grok" in
  match GetProviderReliabilityStats "r" (quiet one_win) with
  | (Ok stats, _) => s ∈ stats /\ ps_WinCount s = ps_TotalAppear s /\ ps_WinRate s = of_int 1
  | (Err _, _) => False
  end.
Proof.
  intros s. pose proof (provider_wins_are_appearances "r" one_win s) as Hs. revert Hs.
  assert (GetProviderReliabilityStats "r" (quiet one_win) = (Ok [s], quiet one_win)) as ->
    by reflexivity.
  intros [_ Hs]. assert (s ∈ [s]) as Hin by by left.
  split_and!; [exact Hin|apply Hs, Hin|]. destruct (Hs Hin) as (_ & _ & ->). reflexivity.
Defined.
