(* ===== verification/SwarmOffice.v ===== *)
(** * The state behind the swarm's endpoints

    The swarm's tables ([SwarmDb]), ratings ([Ratings]), tokens ([SwarmAuth]), memory
    ([SwarmMemory]) and the server's own tables ([Store]) as one state, with the comments on
    diffs and the log of contributions, what was sent to the hub and to the source hosts, and the
    work that handlers start in the background.  The operations of the parts are lifted to it: a
    revocation the task manager asks for deletes the token in Redis, rows go with the rows they
    belong to, and [swarm_agents] is one table although its columns are kept in two records.
    Then come the operations of [task_manager.go] that touch the parts [SwarmDb] leaves out.
    [main.go] sets every collaborator. *)

From Stdlib Require Import ZArith Lia Ascii String.
From stdpp Require Import base list gmap strings sorting.
From S2P Require Import Prelude GoStrings SwarmDb Db TeamManager TaskManager SelfHeal GoFloat Ratings Store SwarmAuth SwarmMemory.
Local Open Scope string_scope.
Local Open Scope rtv_scope.
Local Open Scope Z_scope.

Definition production : Config := {| has_auth := true; has_hub := true |}.
#[local] Existing Instance production.

(** ** State *)

(** [swarm_diff_comments] *)
Record DiffComment := {
  dc_DiffID : UUID;
  dc_AuthorType : string;
  dc_AuthorID : string;
  dc_LineNumber : Z;
  dc_Content : string;
  dc_CreatedAt : Z
}.

(** [agent_task_log] *)
Record Contribution := {
  cn_TaskID : UUID;
  cn_AgentID : option UUID;
  cn_Role : string;
  cn_Phase : string;
  cn_ContributionType : string;
  cn_TokensUsed : Z;
  cn_LLMCalls : Z;
  cn_RAGCalls : Z
}.

(** Commands to Redis and events of the managers, events of the handlers, and writes to the host
    of a repository. *)
Inductive Sent :=
  | SentEffect (e : Effect)
  | SentTask (event taskID : string)
  | SentAgent (event taskID agentID : string)
  | SentDiff (taskID diffID : string)
  | SentPlan (taskID event : string)
  | SentDiscussion (taskID event : string)
  | HostBranch (owner repo branch fromSHA : string)
  | HostFile (owner repo branch path content message : string)
  | HostPullRequest (owner repo title body source target : string).

(** [go func() { ... }()] *)
Inductive Job :=
  | JobCreatePR (taskID : UUID)
  | JobConsensus (taskID : string) (d : Decision).

Record Office := {
  of_world : World;
  of_ratings : EloWorld;
  of_tokens : Tokens;
  of_memory : Memory;
  of_store : Store;
  of_comments : gmap UUID DiffComment;
  of_contributions : gmap UUID Contribution;
  of_jobs : list Job;
  of_sent : list Sent
}.

Definition set_tokens (t : Tokens) (o : Office) : Office :=
  {| of_world := of_world o; of_ratings := of_ratings o; of_tokens := t;
     of_memory := of_memory o; of_store := of_store o; of_comments := of_comments o;
     of_contributions := of_contributions o; of_jobs := of_jobs o; of_sent := of_sent o |}.
Definition set_memory (m : Memory) (o : Office) : Office :=
  {| of_world := of_world o; of_ratings := of_ratings o; of_tokens := of_tokens o;
     of_memory := m; of_store := of_store o; of_comments := of_comments o;
     of_contributions := of_contributions o; of_jobs := of_jobs o; of_sent := of_sent o |}.
Definition set_comments (f : gmap UUID DiffComment -> gmap UUID DiffComment) (o : Office)
    : Office :=
  {| of_world := of_world o; of_ratings := of_ratings o; of_tokens := of_tokens o;
     of_memory := of_memory o; of_store := of_store o; of_comments := f (of_comments o);
     of_contributions := of_contributions o; of_jobs := of_jobs o; of_sent := of_sent o |}.
Definition set_contributions (f : gmap UUID Contribution -> gmap UUID Contribution)
    (o : Office) : Office :=
  {| of_world := of_world o; of_ratings := of_ratings o; of_tokens := of_tokens o;
     of_memory := of_memory o; of_store := of_store o; of_comments := of_comments o;
     of_contributions := f (of_contributions o); of_jobs := of_jobs o; of_sent := of_sent o |}.
Definition set_jobs (f : list Job -> list Job) (o : Office) : Office :=
  {| of_world := of_world o; of_ratings := of_ratings o; of_tokens := of_tokens o;
     of_memory := of_memory o; of_store := of_store o; of_comments := of_comments o;
     of_contributions := of_contributions o; of_jobs := f (of_jobs o); of_sent := of_sent o |}.
Definition set_sent (f : list Sent -> list Sent) (o : Office) : Office :=
  {| of_world := of_world o; of_ratings := of_ratings o; of_tokens := of_tokens o;
     of_memory := of_memory o; of_store := of_store o; of_comments := of_comments o;
     of_contributions := of_contributions o; of_jobs := of_jobs o; of_sent := f (of_sent o) |}.

Definition send (e : Sent) : DB Office unit := writes (set_sent (fun l => l ++ [e])%list).
Definition start (j : Job) : DB Office unit := writes (set_jobs (fun l => l ++ [j])%list).

Section office.
Context `{RowOrder} `{UuidText} `{Postgres}.

(** ** Lifting the parts *)

(** The world an operation of the managers runs in. *)
Definition lend (fs : list bool) (w : World) : World :=
  {| tasks := tasks w; teams := teams w; agents := agents w; diffs := diffs w;
     db_circuits := db_circuits w; db_events := db_events w; circuits := circuits w;
     effects := []; faults := fs |}.

(** The rating columns of a row: those it has, or the defaults of a new row. *)
Definition rating_columns (a : Agent) (old : option RatedAgent) : RatedAgent :=
  match old with
  | Some r => {| ra_Status := a_Status a; ra_ELOScore := ra_ELOScore r;
                 ra_TasksDone := ra_TasksDone r; ra_TasksRated := ra_TasksRated r;
                 ra_AvgRating := ra_AvgRating r; ra_Tier := ra_Tier r |}
  | None => {| ra_Status := a_Status a; ra_ELOScore := DefaultELO; ra_TasksDone := a_TasksDone a;
               ra_TasksRated := 0; ra_AvgRating := of_int 0; ra_Tier := TierStandard |}
  end.
Definition rated_rows (l : gmap UUID Agent) (rated : gmap UUID RatedAgent)
    : gmap UUID RatedAgent :=
  map_imap (fun id a => Some (rating_columns a (rated !! id))) l.

Definition keep_comment (w : World) (c : DiffComment) : bool :=
  bool_decide (is_Some (diffs w !! dc_DiffID c)).
Definition keep_contribution (w : World) (c : Contribution) : option Contribution :=
  match tasks w !! cn_TaskID c with
  | None => None
  | Some _ =>
      Some {| cn_TaskID := cn_TaskID c;
              cn_AgentID := cn_AgentID c ≫= fun a =>
                match agents w !! a with Some _ => Some a | None => None end;
              cn_Role := cn_Role c; cn_Phase := cn_Phase c;
              cn_ContributionType := cn_ContributionType c; cn_TokensUsed := cn_TokensUsed c;
              cn_LLMCalls := cn_LLMCalls c; cn_RAGCalls := cn_RAGCalls c |}
  end.

(** The state after the tables have become those of [w], with what the foreign keys of the other
    tables do. *)
Definition with_world (w : World) (o : Office) : Office :=
  {| of_world := lend [] w;
     of_ratings := set_rated (rated_rows (agents w)) (of_ratings o);
     of_tokens := of_tokens o; of_memory := of_memory o; of_store := of_store o;
     of_comments := base.filter (fun kv => keep_comment w kv.2 = true) (of_comments o);
     of_contributions := omap (keep_contribution w) (of_contributions o);
     of_jobs := of_jobs o; of_sent := of_sent o |}.

(** A command goes out; a token is revoked if Redis answers, and errors are only logged. *)
Definition carry_out (e : Effect) : DB Office unit :=
  send (SentEffect e);;
  match e with
  | SwarmDb.Revoke id => ignoring (zoom of_tokens set_tokens (SwarmAuth.Revoke (uuid_String id)))
  | _ => mret tt
  end.

Definition on_world {A} (m : M A) : DB Office A := fun r =>
  let '(a, w) := m (lend (fails r) (of_world (tables r))) in
  (every (effects w) carry_out;; mret a) (MkRun (with_world w (tables r)) (faults w)).

(** The ratings' statements, on the rating columns and back. *)
Definition lend_ratings (fs : list bool) (e : EloWorld) : EloWorld :=
  {| el_roles := el_roles e; el_history := el_history e; el_agents := el_agents e;
     el_faults := fs |}.
Definition with_done (a : Agent) (r : option RatedAgent) : Agent :=
  {| a_Role := a_Role a; a_TeamID := a_TeamID a; a_Status := a_Status a;
     a_TasksDone := match r with Some r => ra_TasksDone r | None => a_TasksDone a end;
     a_Hostname := a_Hostname a; a_Version := a_Version a;
     a_RegisteredAt := a_RegisteredAt a |}.
Definition with_ratings (e : EloWorld) (o : Office) : Office :=
  {| of_world := set_agents (map_imap (fun id a => Some (with_done a (el_agents e !! id))))
                   (of_world o);
     of_ratings := lend_ratings [] e; of_tokens := of_tokens o; of_memory := of_memory o;
     of_store := of_store o; of_comments := of_comments o;
     of_contributions := of_contributions o; of_jobs := of_jobs o; of_sent := of_sent o |}.
Definition on_ratings {A} (m : E A) : DB Office A := fun r =>
  let '(a, e) := m (lend_ratings (fails r) (of_ratings (tables r))) in
  (a, MkRun (with_ratings e (tables r)) (el_faults e)).

Definition on_tokens {A} (m : DB Tokens A) : DB Office A := zoom of_tokens set_tokens m.
Definition on_memory {A} (m : DB Memory A) : DB Office A := zoom of_memory set_memory m.
(** The server's tables are only read. *)
Definition on_store {A} (m : DB Store A) : DB Office A := zoom of_store (fun _ o => o) m.

(** ** More of the task manager *)

(** The row of [repositories] a slug names, if the query succeeds. *)
Definition repo_named (s : Store) (owner name : string) : option UUID :=
  fst <$> head (where_ (fun _ r => String.eqb (r_Owner r) owner && String.eqb (r_Name r) name)
                  (s_repos s)).
Definition slug_lookup (repoID : string) : DB Office (string -> string -> option UUID) :=
  if Contains repoID "/" then
    Db.query (fun o => repo_named (of_store o)) ≫=
      fun r : result (string -> string -> option UUID) string =>
    mret (match r with Ok f => f | Err _ => fun _ _ => None end)
  else mret (fun _ _ => None).

Record DiffMeta := {
  dm_ID : UUID;
  dm_TaskID : UUID;
  dm_FilePath : string;
  dm_ChangeType : string;
  dm_AgentID : option UUID;
  dm_Status : string;
  dm_CreatedAt : Z;
  dm_LineCount : Z
}.

(** [COALESCE(array_length(string_to_array(s, E'\n'), 1), 0)] *)
Fixpoint newlines (s : string) : Z :=
  match s with
  | EmptyString => 0
  | String c s => (if Ascii.eqb c "010" then 1 else 0) + newlines s
  end.
Definition line_count (s : string) : Z := if String.eqb s "" then 0 else newlines s + 1.

Definition diff_meta (kv : UUID * TaskDiff) : DiffMeta :=
  {| dm_ID := kv.1; dm_TaskID := d_TaskID kv.2; dm_FilePath := d_FilePath kv.2;
     dm_ChangeType := d_ChangeType kv.2; dm_AgentID := d_AgentID kv.2; dm_Status := d_Status kv.2;
     dm_CreatedAt := d_CreatedAt kv.2; dm_LineCount := line_count (d_UnifiedDiff kv.2) |}.

Definition ListDiffsMeta (taskID : UUID) : DBE Office (list DiffMeta) :=
  wrapping "listing diff meta" (Db.query (fun o =>
    map diff_meta (order_by (fun kv => d_CreatedAt kv.2)
      (select (fun _ d => (d_TaskID d =? taskID)%N) (diffs (of_world o)))))).

Definition AddDiffComment (now : Z) (id diffID : UUID) (c : DiffComment)
    : DBE Office (UUID * DiffComment) :=
  let c := {| dc_DiffID := diffID; dc_AuthorType := dc_AuthorType c; dc_AuthorID := dc_AuthorID c;
              dc_LineNumber := dc_LineNumber c; dc_Content := dc_Content c;
              dc_CreatedAt := now |} in
  wrapping "inserting diff comment" (guarded
    (fun o => bool_decide (of_comments o !! id = None)
              && bool_decide (is_Some (diffs (of_world o) !! diffID))
              && text_ok (dc_AuthorType c) && text_ok (dc_AuthorID c) && text_ok (dc_Content c)
              && int4 (dc_LineNumber c))
    (set_comments <[id := c]>));?
  ok (id, c).

Definition RecordAgentContribution (id taskID agentID : UUID)
    (role phase contributionType : string) (tokensUsed llmCalls ragCalls : Z)
    : DBE Office unit :=
  wrapping "recording agent contribution" (guarded
    (fun o => bool_decide (of_contributions o !! id = None)
              && bool_decide (is_Some (tasks (of_world o) !! taskID))
              && bool_decide (is_Some (agents (of_world o) !! agentID))
              && text_ok role && text_ok phase && text_ok contributionType
              && int4 tokensUsed && int4 llmCalls && int4 ragCalls)
    (set_contributions <[id :=
       {| cn_TaskID := taskID; cn_AgentID := Some agentID; cn_Role := role; cn_Phase := phase;
          cn_ContributionType := contributionType; cn_TokensUsed := tokensUsed;
          cn_LLMCalls := llmCalls; cn_RAGCalls := ragCalls |}]>)).

(** [sm_Duration]: [completed_at - created_at] in nanoseconds. *)
Record TaskSummary := {
  sm_ID : UUID;
  sm_RepoID : string;
  sm_Title : string;
  sm_Description : string;
  sm_Status : string;
  sm_RetryCount : Z;
  sm_PRUrl : string;
  sm_PRNumber : Z;
  sm_HumanRating : option Z;
  sm_CreatedAt : Z;
  sm_CompletedAt : option Z;
  sm_DiffCount : Z;
  sm_AgentCount : Z;
  sm_Duration : option Z
}.

Definition summary (w : World) (kv : UUID * Task) : TaskSummary :=
  let '(id, t) := kv in
  {| sm_ID := id; sm_RepoID := t_RepoID t; sm_Title := t_Title t;
     sm_Description := t_Description t; sm_Status := t_Status t; sm_RetryCount := t_RetryCount t;
     sm_PRUrl := t_PRUrl t; sm_PRNumber := t_PRNumber t; sm_HumanRating := t_HumanRating t;
     sm_CreatedAt := t_CreatedAt t; sm_CompletedAt := t_CompletedAt t;
     sm_DiffCount := count_where (fun _ d => (d_TaskID d =? id)%N) (diffs w);
     sm_AgentCount := Z.of_nat (List.length (default [] (t_AssignedAgents t)));
     sm_Duration := (fun c => c - t_CreatedAt t) <$> t_CompletedAt t |}.

Definition in_history (repoID : string) (_ : UUID) (t : Task) : bool :=
  is_terminal (t_Status t) && (String.eqb repoID "" || String.eqb (t_RepoID t) repoID).

Definition ListTaskHistory (repoID : string) (limit offset : Z)
    : DBE Office (list TaskSummary * Z) :=
  let limit := if limit <=? 0 then 25 else limit in
  let offset := if offset <? 0 then 0 else offset in
  total ←? wrapping "counting task history"
             (Db.query (fun o => count_where (in_history repoID) (tasks (of_world o))));
  rows ←? wrapping "listing task history" (Db.query (fun o =>
    let w := of_world o in
    map (summary w) (page limit offset (order_by (fun kv => - t_CreatedAt kv.2)
      (select (in_history repoID) (tasks w))))));
  ok (rows, total).

(** The average duration as the sum and the number of the durations. *)
Record SwarmOverview := {
  ov_ActiveTasks : Z;
  ov_PendingTasks : Z;
  ov_CompletedAll : Z;
  ov_FailedAll : Z;
  ov_ActiveTeams : Z;
  ov_BusyTeams : Z;
  ov_OnlineAgents : Z;
  ov_BusyAgents : Z;
  ov_AvgDuration : Z * Z;
  ov_TotalRetries : Z;
  ov_Agents : list (UUID * Agent)
}.

(** [_ = db.QueryRow(...).Scan(&n)] *)
Definition scanned {A} (zero : A) (f : World -> A) : DB Office A :=
  Db.query (fun o => f (of_world o)) ≫= fun r : result A string =>
  mret (match r with Ok a => a | Err _ => zero end).

Definition tasks_with (p : string -> bool) (w : World) : Z :=
  count_where (fun _ t => p (t_Status t)) (tasks w).

Definition recent_durations (w : World) : list Z :=
  map (fun kv => default 0 (t_CompletedAt kv.2) - t_CreatedAt kv.2)
    (firstn 100 (order_by (fun kv => - default 0 (t_CompletedAt kv.2))
      (select (fun _ t => String.eqb (t_Status t) StatusCompleted
                          && bool_decide (is_Some (t_CompletedAt t))) (tasks w)))).

Definition GetOverview : DB Office SwarmOverview :=
  active ← scanned 0 (tasks_with (fun s => negb (is_terminal s)));
  pending ← scanned 0 (tasks_with (String.eqb StatusSubmitted));
  completed ← scanned 0 (tasks_with (String.eqb StatusCompleted));
  failed ← scanned 0 (tasks_with (fun s => String.eqb s StatusFailed
                                           || String.eqb s StatusTimedOut));
  teamsActive ← scanned 0 (fun w =>
    count_where (fun _ t => negb (String.eqb (tm_Status t) "offline")) (teams w));
  teamsBusy ← scanned 0 (fun w =>
    count_where (fun _ t => String.eqb (tm_Status t) "busy") (teams w));
  online ← scanned 0 (fun w =>
    count_where (fun _ a => negb (String.eqb (a_Status a) "offline")) (agents w));
  busy ← scanned 0 (fun w =>
    count_where (fun _ a => String.eqb (a_Status a) "busy") (agents w));
  durations ← scanned [] recent_durations;
  retries ← scanned 0 (fun w =>
    fold_right (fun kv n => t_RetryCount kv.2 + n) 0 (map_to_list (tasks w)));
  rows ← scanned [] (fun w => order_by (fun kv => - a_RegisteredAt kv.2)
    (select (fun _ a => negb (String.eqb (a_Status a) "offline")) (agents w)));
  mret {| ov_ActiveTasks := active; ov_PendingTasks := pending; ov_CompletedAll := completed;
          ov_FailedAll := failed; ov_ActiveTeams := teamsActive; ov_BusyTeams := teamsBusy;
          ov_OnlineAgents := online; ov_BusyAgents := busy;
          ov_AvgDuration := (fold_right Z.add 0 durations, Z.of_nat (List.length durations));
          ov_TotalRetries := retries; ov_Agents := rows |}.

End office.
