(* ===== verification/PrCreator.v ===== *)
(** * Pull requests of the swarm ([pr_creator.go])

    What happens when a user approves the diffs of a task: a branch, a commit for every diff and
    a pull request on the host of the repository.  The calls of the host are the class
    [HostWrites], made with the credentials that were resolved; a call that writes is recorded
    with what it was asked to write before its answer is read. *)

From Stdlib Require Import ZArith Lia Ascii String.
From stdpp Require Import base list gmap strings sorting.
From S2P Require Import Prelude GoStrings SwarmDb Db TeamManager TaskManager Store Vcs SwarmAuth SwarmOffice.
Local Open Scope string_scope.
Local Open Scope rtv_scope.
Local Open Scope Z_scope.

#[local] Existing Instance production.

(** The calls of [vcs.Platform] the swarm makes. *)
Class HostWrites := {
  GetDefaultBranch : ResolvedCreds -> string -> string -> result string string;
  GetBranchSHA : ResolvedCreds -> string -> string -> string -> result string string;
  CreateBranch : ResolvedCreds -> string -> string -> string -> string -> option string;
  CreateOrUpdateFile : ResolvedCreds -> string -> string -> string -> string -> string -> string ->
    result string string;
  CreatePullRequest : ResolvedCreds -> string -> string -> string -> string -> string -> string ->
    result (string * Z) string;
  GetFileContent : ResolvedCreds -> string -> string -> string -> string -> result string string;
  ListDirectory : ResolvedCreds -> string -> string -> string -> string ->
    result (list (string * string)) string
}.

(** ** [time.RFC3339] in UTC *)

Definition digits (width : nat) (n : Z) : string :=
  let s := itoa n in
  String.concat "" (replicate (width - String.length s) "0") ++ s.

(** Year, month and day of the days since 1970. *)
Definition civil (days : Z) : Z * Z * Z :=
  let z := days + 719468 in
  let era := z / 146097 in
  let doe := z - era * 146097 in
  let yoe := (doe - doe / 1460 + doe / 36524 - doe / 146096) / 365 in
  let doy := doe - (365 * yoe + yoe / 4 - yoe / 100) in
  let mp := (5 * doy + 2) / 153 in
  let d := doy - (153 * mp + 2) / 5 + 1 in
  let m := if mp <? 10 then mp + 3 else mp - 9 in
  (yoe + era * 400 + (if m <=? 2 then 1 else 0), m, d).

Definition rfc3339 (now : Z) : string :=
  let s := now / second in
  let '(y, m, d) := civil (s / 86400) in
  let t := s mod 86400 in
  digits 4 y ++ "-" ++ digits 2 m ++ "-" ++ digits 2 d ++ "T" ++ digits 2 (t / 3600) ++ ":"
  ++ digits 2 (t / 60 mod 60) ++ ":" ++ digits 2 (t mod 60) ++ "Z".

Example rfc3339_leap_day : rfc3339 (1709251199 * second) = "2024-02-29T23:59:59Z".
Proof. reflexivity. Qed.
Example rfc3339_epoch : rfc3339 0 = "1970-01-01T00:00:00Z".
Proof. reflexivity. Qed.

(** ** The repository *)

(** The text columns of [repositories]. *)
Definition repositories_text : list (string * (Repository -> string)) :=
  [("platform", r_Platform); ("external_id", r_ExternalID); ("owner", r_Owner); ("name", r_Name);
   ("default_branch", r_DefaultBranch); ("clone_url", r_CloneURL);
   ("webhook_secret", r_WebhookSecret)].

(** [SELECT <column> FROM repositories WHERE id = $1] of a text *)
Definition select_text (column : string) (repoID : UUID) : DBE Store string :=
  match List.find (fun c => String.eqb c.1 column) repositories_text with
  | Some (_, text) => query_row (fun s => text <$> s_repos s !! repoID)
  | None => fail ("ERROR: column " ++ quoted column ++ " does not exist (SQLSTATE 42703)")
  end.

Section pr_creator.
Context `{RowOrder} `{UuidText} `{Postgres} `{Collation} `{VaultReader} `{HostWrites}.

Definition getRepoInfo (repoID : UUID) : DBE Store (string * string) :=
  fullName ←? wrapping ("querying repo " ++ uuid_String repoID) (select_text "full_name" repoID);
  match splitn_byte slash 2 fullName with
  | [owner; repoName] => ok (owner, repoName)
  | _ => fail ("invalid repo full_name " ++ quoted fullName ++ " (expected owner/repo)")
  end.

(** ** Texts *)

(** [len] and the slice count bytes. *)
Definition buildPRTitle (task : Task) : string :=
  let label := if String.eqb (t_Title task) "" then t_Description task else t_Title task in
  let label := if 72 <? Z.of_nat (String.length label) then str_take 69 label ++ "..." else label in
  "[Swarm] " ++ label.

(** [uuid.String()[:8]] *)
Definition short_id (id : UUID) : string := str_take 8 (uuid_String id).

Definition formatAgentID (id : option UUID) : string :=
  match id with Some id => short_id id | None => "unknown" end.

Definition nl : string := String "010" EmptyString.

Definition file_row (d : TaskDiff) : string :=
  "| `" ++ d_FilePath d ++ "` | " ++ d_ChangeType d ++ " | "
  ++ match d_AgentID d with Some a => "`" ++ short_id a ++ "`" | None => "—" end ++ " |" ++ nl.

Definition buildPRBody (now : Z) (taskID : UUID) (task : Task) (diffs : list TaskDiff)
    (branch : string) : string :=
  "## 🤖 Swarm Agent Pull Request" ++ nl ++ nl
  ++ "**Task ID:** `" ++ uuid_String taskID ++ "`" ++ nl
  ++ "**Description:** " ++ t_Description task ++ nl
  ++ "**Branch:** `" ++ branch ++ "`" ++ nl
  ++ "**Created:** " ++ rfc3339 now ++ nl ++ nl
  ++ "### Files Changed" ++ nl ++ nl
  ++ "| File | Change | Agent |" ++ nl
  ++ "|------|--------|-------|" ++ nl
  ++ String.concat "" (map file_row diffs)
  ++ nl ++ "---" ++ nl
  ++ "*This PR was created automatically by the RTVortex Agent Swarm.*" ++ nl.

(** ** The pull request *)

Definition broadcastPREvent (taskID : UUID) (event : string) : DB Office unit :=
  send (SentTask event (uuid_String taskID)).

Definition failPR {A} (taskID : UUID) (err : string) : DBE Office A :=
  _ ← on_world (UpdateStatus taskID StatusFailed);
  broadcastPREvent taskID "pr_failed";;
  fail ("pr_creator: " ++ err).

(** [if err != nil { return c.failPR(ctx, taskID, fmt.Errorf("<p>: %w", err)) }] *)
Definition or_fail {A} (taskID : UUID) (p : string) (m : DBE Office A) : DBE Office A :=
  m ≫= fun r : result A string =>
    match r with Ok a => ok a | Err e => failPR taskID (p ++ ": " ++ e) end.

(** A call of the host, which changes nothing here. *)
Definition host {A} (r : result A string) : DBE Office A := mret r.
Definition asks {A} (e : Sent) (r : result A string) : DBE Office A := send e;; mret r.
Definition no_error (o : option string) : result unit string :=
  match o with Some e => Err e | None => Ok tt end.

Fixpoint commit_all (creds : ResolvedCreds) (owner repoName branchName : string) (taskID : UUID)
    (diffs : list TaskDiff) : DBE Office unit :=
  match diffs with
  | [] => ok tt
  | d :: diffs =>
      let commitMsg := "swarm: " ++ d_ChangeType d ++ " " ++ d_FilePath d ++ nl ++ nl ++ "Task: "
                       ++ short_id taskID ++ nl ++ "Agent: " ++ formatAgentID (d_AgentID d) in
      _ ←? or_fail taskID ("commit file " ++ d_FilePath d)
             (asks (HostFile owner repoName branchName (d_FilePath d) (d_Proposed d) commitMsg)
                (CreateOrUpdateFile creds owner repoName branchName (d_FilePath d) (d_Proposed d)
                   commitMsg));
      broadcastPREvent taskID "file_committed";;
      commit_all creds owner repoName branchName taskID diffs
  end.

Definition with_pr (url : string) (number : Z) (t : Task) : Task :=
  {| t_RepoID := t_RepoID t; t_Title := t_Title t; t_Description := t_Description t;
     t_Status := StatusCompleted; t_PlanDocument := t_PlanDocument t;
     t_AssignedTeamID := t_AssignedTeamID t; t_AssignedAgents := t_AssignedAgents t;
     t_PRUrl := url; t_PRNumber := number; t_HumanRating := t_HumanRating t;
     t_HumanComment := t_HumanComment t; t_SubmittedBy := t_SubmittedBy t;
     t_RetryCount := t_RetryCount t; t_FailureReason := t_FailureReason t;
     t_CreatedAt := t_CreatedAt t; t_CompletedAt := t_CompletedAt t;
     t_TimeoutAt := t_TimeoutAt t |}.

(** The branch, the commits and the pull request, once the repository is known. *)
Definition publish (now : Z) (taskID : UUID) (task : Task) (diffs : list TaskDiff)
    (platform : ResolvedCreds) (owner repoName : string) : DBE Office unit :=
  defaultBranch ←? or_fail taskID "get default branch"
                     (host (GetDefaultBranch platform owner repoName));
  baseSHA ←? or_fail taskID "get branch SHA"
               (host (GetBranchSHA platform owner repoName defaultBranch));
  let branchName := "swarm/task-" ++ short_id taskID in
  or_fail taskID "create branch"
    (asks (HostBranch owner repoName branchName baseSHA)
       (no_error (CreateBranch platform owner repoName branchName baseSHA)));?
  broadcastPREvent taskID "branch_created";;
  commit_all platform owner repoName branchName taskID diffs;?
  let prTitle := buildPRTitle task in
  let prBody := buildPRBody now taskID task diffs branchName in
  pr ←? or_fail taskID "create PR"
          (asks (HostPullRequest owner repoName prTitle prBody branchName defaultBranch)
             (CreatePullRequest platform owner repoName prTitle prBody branchName defaultBranch));
  on_world (exec_ (set_tasks (alter (with_pr pr.1 pr.2) taskID)));;
  broadcastPREvent taskID "pr_created";;
  ok tt.

Definition CreatePR (now : Z) (taskID : UUID) : DBE Office unit :=
  task ←? wrapping "pr_creator: get task" (on_world (GetTask taskID));
  broadcastPREvent taskID "pr_creating";;
  diffs ←? or_fail taskID "listing diffs" (on_world (ListDiffs taskID));
  match diffs with
  | [] => failPR taskID ("no diffs found for task " ++ uuid_String taskID)
  | _ =>
      match uuid_Parse (t_RepoID task) with
      | None => failPR taskID ("invalid repo_id " ++ quoted (t_RepoID task) ++ ": invalid UUID")
      | Some repoID =>
          platform ←? or_fail taskID "resolving VCS client" (on_store (ForRepo repoID));
          info ←? or_fail taskID "get repo info" (on_store (getRepoInfo repoID));
          publish now taskID task diffs.*2 platform info.1 info.2
      end
  end.

End pr_creator.
