(* ===== verification/SwarmHandler.v ===== *)
(** * Endpoints of the swarm ([swarm/handler.go] and the handlers beside it)

    One definition per handler, on the state of [SwarmOffice], in the form of [Http]; then the
    requests of agents behind [RequireAgentToken], those of users behind the middleware of
    [auth], the registration behind the service secret, and the work handlers leave in the
    background.  A body is the decoded value, or [None] where it cannot be decoded; [claims] are
    those the middleware put into the context.  The handlers of team formation are in
    [TeamFormation]. *)

From Stdlib Require Import ZArith Lia Ascii String.
From stdpp Require Import base list gmap strings sorting.
From S2P Require Import Prelude GoStrings SwarmDb Db TeamManager TaskManager SelfHeal GoFloat Ratings Sandbox Http Store Vcs Jwt SwarmAuth SwarmMemory SwarmOffice PrCreator.
Local Open Scope string_scope.
Local Open Scope rtv_scope.
Local Open Scope Z_scope.

#[local] Existing Instance production.

(** ** Bodies *)

Record DeclareSizeBody := {
  ds_AdditionalAgents : Z;
  ds_Roles : list string;
  ds_TeamID : string
}.

Record CreateTaskBody := { ct_RepoID : string; ct_Title : string; ct_Description : string }.

Record ContributionBody := {
  cb_AgentID : string;
  cb_Role : string;
  cb_Phase : string;
  cb_ContributionType : string;
  cb_TokensUsed : Z;
  cb_LLMCalls : Z;
  cb_RAGCalls : Z
}.

Record AgentMessageBody := {
  am_AgentID : string;
  am_AgentRole : string;
  am_Kind : string;
  am_Content : string
}.

Record ReadFileBody := { rf_RepoID : string; rf_Path : string; rf_Ref : string }.

Record InsightBody := {
  ib_RepoID : string;
  ib_TaskID : string;
  ib_ThreadID : string;
  ib_Category : string;
  ib_Key : string;
  ib_Insight : string;
  ib_Confidence : float64;
  ib_Strategy : string;
  ib_Provider : string;
  ib_Metadata : option Metadata
}.

(** ** Replies *)

(** What registration adds for the role: tier, score and number of probes. *)
Record Registered := {
  rg_AccessToken : string;
  rg_AgentID : string;
  rg_ExpiresIn : Z;
  rg_UseMultiLLM : bool;
  rg_ConfiguredProviders : Z;
  rg_Tier : option (string * float64 * Z)
}.

Inductive Reply :=
  | RNone
  | RStatus (s : string)
  | RRegistered (r : Registered)
  | RTask (id : UUID) (t : Task)
  | RTasks (l : list (UUID * Task))
  | RDiff (id : UUID) (d : TaskDiff)
  | RDiffs (l : list (UUID * TaskDiff))
  | RMetas (l : list DiffMeta)
  | RComment (id : UUID) (c : DiffComment)
  | RAgents (l : list (UUID * Agent))
  | RTeams (l : list (UUID * Team))
  | RHistory (l : list TaskSummary) (total limit offset : Z)
  | ROverview (o : SwarmOverview)
  | RFile (content path ref : string)
  | RDir (entries : list (string * string))
  | RInsights (l : list ConsensusInsight)
  | RMemories (l : list MTMInsight)
  | RStats (l : list ProviderReliabilityStats)
  | RProvider (provider : string) (available : bool) (state : option providerCircuit)
  | RSummary (s : SelfHealSummary)
  | REvents (l : list (UUID * SelfHealEvent)) (total limit offset : Z)
  | RCircuits (l : list (string * providerCircuit))
  | RRole (r : option RoleELO)
  | RRoles (l : list ((string * string) * RoleELO)) (repoID : string)
  | RRoleHistory (l : list RoleELOHistory) (role repoID : string).

Notation Reply_of A := (HTTP Office Reply A).

(** ** The registry of language models ([llm/provider.go]) *)

Record ProviderMeta := { pm_RequiresKey : bool; pm_Configured : bool }.
Record Registry := {
  reg_routesEnabled : bool;
  (** the registered providers, with their metadata if there is any *)
  reg_providers : gmap string (option ProviderMeta)
}.

Definition ConfiguredProviderCount (r : Registry) : Z :=
  Z.of_nat (size (base.filter (fun kv => match kv.2 with
    | Some m => negb (pm_RequiresKey m) || pm_Configured m
    | None => true
    end = true) (reg_providers r))).

(** [fmt.Sprintf(`{"error":%q}`, err.Error())] *)
Definition error_text (status : Z) (e : string) : Response Reply := writeError status e.

(** [strconv.Atoi] of a query parameter that must be positive *)
Definition positive_or (d : Z) (s : string) : Z :=
  match Atoi s with Some v => if 0 <? v then v else d | None => d end.

Definition parseIntParam (s : string) (defaultVal : Z) : Z :=
  if String.eqb s "" then defaultVal
  else match Atoi s with Some v => if v <? 0 then defaultVal else v | None => defaultVal end.

Definition parsed (s : string) `{UuidText} : UUID := default uuid_Nil (uuid_Parse s).

Section handler.
Context `{RowOrder} `{UuidText} `{UnicodeTables} `{Postgres} `{Collation} `{Digest} `{AgentJwt} `{MathPow} `{GenUUID} `{Driver} `{VaultReader} `{HostWrites}.
Variable authSvc : Service.
Variable registry : Registry.

(** [uuid.Parse(chi.URLParam(r, "id"))] *)
Definition task_id (id : string) : Reply_of UUID := require (uuid_Parse id) 400 "invalid task id".
Definition decoded {A} (body : option A) : Reply_of A := require body 400 "invalid request body".

(** A call of a manager with the reply to its error. *)
Definition calls {A} (m : M (result A string)) (status : Z) : Reply_of A :=
  or_reply (on_world m) (error_text status).

Definition reply (status : Z) (r : Reply) : Reply_of (Response Reply) := ok (writeJSON status r).

Definition is_set (s : string) : bool := negb (String.eqb s "").

(** ** Agents *)

Definition with_agent_id (id : string) (r : RegisterRequest) : RegisterRequest :=
  {| rr_AgentID := id; rr_Role := rr_Role r; rr_TeamID := rr_TeamID r; rr_RepoID := rr_RepoID r;
     rr_Hostname := rr_Hostname r; rr_Version := rr_Version r |}.

Definition team_name (teamID : UUID) : string := "team-" ++ short_id teamID.

Definition RegisterAgent (now : Z) (fresh jti : UUID) (body : option RegisterRequest)
    : DB Office (Response Reply) := respond (
  req ←? decoded body;
  unless (negb (is_set (rr_Role req))) 400 "role is required";?
  let given := parsed (rr_AgentID req) in
  let agentID := if (given =? uuid_Nil)%N then fresh else given in
  let req := if (given =? uuid_Nil)%N then with_agent_id (uuid_String fresh) req else req in
  let teamID := parsed (rr_TeamID req) in
  on_world (TeamManager.RegisterAgent now agentID (rr_Role req) teamID (team_name teamID)
              (rr_Hostname req) (rr_Version req)) ≫= fun r : result unit string =>
  (match r with
   | Err _ => mret tt
   | Ok _ => _ ← on_world (Heartbeat (now / second) agentID); mret tt
   end);;
  resp ←? or_reply (on_tokens (SwarmAuth.Register authSvc now fresh jti req))
            (internal "failed to issue token");
  tier ← (if is_set (rr_RepoID req) then
            te ← on_ratings (TierForRole (rr_Role req) (rr_RepoID req));
            mret (Some (te.1, te.2, ProbeCountForTier te.1))
          else mret None);
  reply 200 (RRegistered
    {| rg_AccessToken := rs_AccessToken resp; rg_AgentID := rs_AgentID resp;
       rg_ExpiresIn := rs_ExpiresIn resp; rg_UseMultiLLM := negb (reg_routesEnabled registry);
       rg_ConfiguredProviders := ConfiguredProviderCount registry; rg_Tier := tier |})).

Definition RevokeAgent (claims : option AgentClaims) : DB Office (Response Reply) := respond (
  c ←? require claims 401 "unauthorized";
  or_reply (on_tokens (SwarmAuth.Revoke (ac_Subject c))) (internal "revoke failed");?
  reply 204 RNone).

Definition GetTaskInternal (id : string) : DB Office (Response Reply) := respond (
  taskID ←? task_id id;
  task ←? calls (GetTask taskID) 404;
  reply 200 (RTask taskID task)).

Definition GetTaskStatus (id : string) : DB Office (Response Reply) := respond (
  taskID ←? task_id id;
  task ←? calls (GetTask taskID) 404;
  reply 200 (RStatus (t_Status task))).

(** ** Tasks of agents *)

Definition GetNextTask (claims : option AgentClaims) : DB Office (Response Reply) := respond (
  c ←? require claims 401 "unauthorized";
  let teamID := parsed (ac_TeamID c) in
  if (teamID =? uuid_Nil)%N then
    tasks ←? calls (ListTasks "" StatusSubmitted 1) 500;
    match tasks with
    | [] => reply 204 RNone
    | (id, t) :: _ => reply 200 (RTask id t)
    end
  else
    tasks ←? calls (ListTasks "" StatusPlanning 1) 500;
    match List.find (fun kv => bool_decide (t_AssignedTeamID kv.2 = Some teamID)) tasks with
    | Some (id, t) => reply 200 (RTask id t)
    | None => reply 204 RNone
    end).

Definition SubmitPlan (id : string) (body : option (option string)) : DB Office (Response Reply) :=
  respond (
  taskID ←? task_id id;
  plan ←? decoded body;
  calls (SetPlan taskID plan) 500;?
  send (SentPlan (uuid_String taskID) "plan_submitted");;
  send (SentTask "status_changed" (uuid_String taskID));;
  reply 200 (RStatus "plan_review")).

(** [fresh] is the identifier of the new row. *)
Definition with_author (claims : option AgentClaims) (d : TaskDiff) : TaskDiff :=
  {| d_TaskID := d_TaskID d; d_FilePath := d_FilePath d; d_ChangeType := d_ChangeType d;
     d_Original := d_Original d; d_Proposed := d_Proposed d; d_UnifiedDiff := d_UnifiedDiff d;
     d_AgentID := match claims with
                  | Some c => Some (parsed (ac_Subject c))
                  | None => d_AgentID d
                  end;
     d_Status := d_Status d; d_CreatedAt := d_CreatedAt d |}.

Definition SubmitDiff (now : Z) (fresh : UUID) (claims : option AgentClaims) (id : string)
    (body : option TaskDiff) : DB Office (Response Reply) := respond (
  taskID ←? task_id id;
  diff ←? decoded body;
  result ←? calls (AddDiff fresh now taskID (with_author claims diff)) 500;
  send (SentDiff (uuid_String taskID) (uuid_String result.1));;
  reply 201 (RDiff result.1 result.2)).

Definition ListDiffs (id : string) : DB Office (Response Reply) := respond (
  taskID ←? task_id id;
  diffs ←? calls (TaskManager.ListDiffs taskID) 500;
  reply 200 (RDiffs diffs)).

Definition signed_comment (authorType authorID : string) (c : DiffComment) : DiffComment :=
  {| dc_DiffID := dc_DiffID c; dc_AuthorType := authorType; dc_AuthorID := authorID;
     dc_LineNumber := dc_LineNumber c; dc_Content := dc_Content c;
     dc_CreatedAt := dc_CreatedAt c |}.

Definition diff_id (id : string) : Reply_of UUID := require (uuid_Parse id) 400 "invalid diff id".

Definition AddDiffComment (now : Z) (fresh : UUID) (claims : option AgentClaims)
    (diffId : string) (body : option DiffComment) : DB Office (Response Reply) := respond (
  diffID ←? diff_id diffId;
  c ←? decoded body;
  let c := match claims with Some cl => signed_comment "agent" (ac_Subject cl) c | None => c end in
  result ←? or_reply (SwarmOffice.AddDiffComment now fresh diffID c) (error_text 500);
  reply 201 (RComment result.1 result.2)).

Definition CompleteTask (now : Z) (id : string) : DB Office (Response Reply) := respond (
  taskID ←? task_id id;
  calls (TaskManager.CompleteTask now taskID) 500;?
  agentIDs ← on_world (AgentsForTask taskID);
  every (match agentIDs with Ok l => l | Err _ => [] end)
    (fun agentID => _ ← on_ratings (IncrementTasksDone agentID); mret tt);;
  send (SentTask "completed" (uuid_String taskID));;
  reply 200 (RStatus "completed")).

(** The team of a task without one: that of the body, or that of the token. *)
Definition declared_team (claims : option AgentClaims) (body : DeclareSizeBody) : Reply_of UUID :=
  teamID ←? (if is_set (ds_TeamID body)
             then require (uuid_Parse (ds_TeamID body)) 400 "invalid team_id in body"
             else ok uuid_Nil);
  let teamID :=
    if (teamID =? uuid_Nil)%N then
      match claims with
      | Some c => if is_set (ac_TeamID c) then parsed (ac_TeamID c) else uuid_Nil
      | None => uuid_Nil
      end
    else teamID in
  if (teamID =? uuid_Nil)%N
  then fail (writeError 409 "task has no assigned team yet, retry later")
  else ok teamID.

Definition DeclareTeamSize (now : Z) (claims : option AgentClaims) (id : string)
    (body : option DeclareSizeBody) : DB Office (Response Reply) := respond (
  taskID ←? task_id id;
  body ←? decoded body;
  task ←? calls (GetTask taskID) 404;
  teamID ←? match t_AssignedTeamID task with
            | Some teamID => ok teamID
            | None =>
                teamID ←? declared_team claims body;
                or_reply (on_world (AssignTaskToTeam now taskID teamID))
                  (internal "failed to assign task to team");?
                ok teamID
            end;
  calls (ScaleTeam teamID (ds_AdditionalAgents body)) 400;?
  send (SentTask "team_scaled" (uuid_String taskID));;
  reply 202 (RStatus "scaling_acknowledged")).

Definition FailTask (now : Z) (id : string) (body : option string) : DB Office (Response Reply) :=
  respond (
  taskID ←? task_id id;
  reason ←? decoded body;
  let reason := if is_set reason then reason else "agent reported failure" in
  calls (TaskManager.FailTask now taskID reason) 500;?
  reply 200 (RStatus "failed")).

Definition Heartbeat (now : Z) (id : string) : DB Office (Response Reply) := respond (
  agentID ←? require (uuid_Parse id) 400 "invalid agent id";
  calls (TaskManager.Heartbeat (now / second) agentID) 404;?
  reply 204 RNone).

Definition RecordContribution (fresh : UUID) (claims : option AgentClaims) (id : string)
    (body : option ContributionBody) : DB Office (Response Reply) := respond (
  taskID ←? task_id id;
  b ←? decoded body;
  let agentID := parsed (cb_AgentID b) in
  let agentID := if (agentID =? uuid_Nil)%N
                 then match claims with Some c => parsed (ac_Subject c) | None => agentID end
                 else agentID in
  or_reply (RecordAgentContribution fresh taskID agentID (cb_Role b) (cb_Phase b)
              (cb_ContributionType b) (cb_TokensUsed b) (cb_LLMCalls b) (cb_RAGCalls b))
    (error_text 500);?
  reply 201 (RStatus "recorded")).

(** ** Events for the browser *)

Definition AgentMessage (taskID : string) (body : option AgentMessageBody)
    : DB Office (Response Reply) := respond (
  unless (negb (is_set taskID)) 400 "missing task id";?
  msg ←? decoded body;
  send (SentAgent (am_Kind msg) taskID (am_AgentID msg));;
  reply 200 (RStatus "ok")).

(** The event's name decides; the rest of the body is passed on. *)
Definition DiscussionEvent (taskID : string) (body : option string) : DB Office (Response Reply) :=
  respond (
  unless (negb (is_set taskID)) 400 "missing task id";?
  event ←? decoded body;
  unless (negb (is_set event)) 400 "event field is required";?
  send (SentDiscussion taskID event);;
  reply 200 (RStatus "ok")).

Definition ConsensusEvent (taskID : string) (body : option Decision) : DB Office (Response Reply) :=
  respond (
  unless (negb (is_set taskID)) 400 "missing task id";?
  evt ←? decoded body;
  unless (negb (is_set (de_Strategy evt))) 400 "strategy field is required";?
  send (SentDiscussion taskID "consensus_result");;
  start (JobConsensus taskID evt);;
  reply 200 (RStatus "ok")).

(** ** Files of repositories, for agents *)

Definition repo_owner_name (repoID : UUID) : DBE Store (string * string) :=
  query_row (fun s => (fun r => (r_Owner r, r_Name r)) <$> s_repos s !! repoID).

(** The client and the owner and name of a repository. *)
Definition resolved_repo (repoID : string) : Reply_of (ResolvedCreds * (string * string)) :=
  id ←? require (uuid_Parse repoID) 400 "invalid repo_id";
  platform ←? or_reply (on_store (ForRepo id))
                (fun e => writeError 500 ("resolve VCS: " ++ e));
  info ←? or_reply (on_store (repo_owner_name id))
            (fun e => writeError 500 ("get repo info: " ++ e));
  ok (platform, info).

Definition VCSReadFile (body : option ReadFileBody) : DB Office (Response Reply) := respond (
  req ←? decoded body;
  found ←? resolved_repo (rf_RepoID req);
  let '(platform, (owner, repoName)) := found in
  let ref := if is_set (rf_Ref req) then rf_Ref req
             else match GetDefaultBranch platform owner repoName with
                  | Ok b => b
                  | Err _ => "main"
                  end in
  match GetFileContent platform owner repoName (rf_Path req) ref with
  | Err e => fail (writeError 404 ("read file: " ++ e))
  | Ok content => reply 200 (RFile content (rf_Path req) ref)
  end).

Definition VCSListDir (body : option (string * string)) : DB Office (Response Reply) := respond (
  req ←? decoded body;
  found ←? resolved_repo req.1;
  let '(platform, (owner, repoName)) := found in
  reply 200 (RDir match ListDirectory platform owner repoName req.2 "" with
                  | Ok entries => entries
                  | Err _ => []
                  end)).

(** ** Tasks of users *)

Definition CreateTaskUser (now : Z) (fresh userID : UUID) (body : option CreateTaskBody)
    : DB Office (Response Reply) := respond (
  b ←? decoded body;
  unless (negb (is_set (ct_RepoID b)) || negb (is_set (ct_Description b))) 400
    "repo_id and description are required";?
  slug_lookup (ct_RepoID b) ≫= fun lookup =>
  task ←? calls (CreateTask fresh now lookup (ct_RepoID b) (ct_Title b) (ct_Description b) userID)
            500;
  send (SentTask "created" (uuid_String task.1));;
  reply 201 (RTask task.1 task.2)).

Definition ListTasksUser (repoID status : string) : DB Office (Response Reply) := respond (
  tasks ←? calls (ListTasks repoID status 50) 500;
  reply 200 (RTasks tasks)).

Definition GetTaskUser (id : string) : DB Office (Response Reply) := respond (
  taskID ←? task_id id;
  task ←? calls (GetTask taskID) 404;
  reply 200 (RTask taskID task)).

Definition GetTaskAgents (id : string) : DB Office (Response Reply) := respond (
  taskID ←? task_id id;
  agents ←? calls (TaskManager.GetTaskAgents taskID) 500;
  reply 200 (RAgents agents)).

(** [action] of the body; a comment only goes to the browser. *)
Definition PlanAction (id : string) (body : option string) : DB Office (Response Reply) := respond (
  taskID ←? task_id id;
  action ←? decoded body;
  let moves (status event : string) : Reply_of unit :=
    calls (UpdateStatus taskID status) 500;?
    send (SentPlan (uuid_String taskID) event);;
    send (SentTask "status_changed" (uuid_String taskID));;
    ok tt in
  (if String.eqb action "approve" then moves StatusImplementing "plan_approved"
   else if String.eqb action "reject" then moves StatusCancelled "plan_rejected"
   else if String.eqb action "comment" then
     send (SentPlan (uuid_String taskID) "plan_commented");; ok tt
   else fail (writeError 400 "action must be approve, reject, or comment"));?
  reply 200 (RStatus action)).

Definition GetDiffsUser (id full : string) : DB Office (Response Reply) :=
  match uuid_Parse id with
  | None => mret (writeError 400 "invalid task id")
  | Some taskID =>
      if String.eqb full "true" then ListDiffs id
      else respond (
        metas ←? or_reply (ListDiffsMeta taskID) (error_text 500);
        reply 200 (RMetas metas))
  end.

Definition GetDiffContent (diffId : string) : DB Office (Response Reply) := respond (
  diffID ←? diff_id diffId;
  diff ←? calls (GetDiff diffID) 404;
  reply 200 (RDiff diffID diff)).

Definition UserDiffComment (now : Z) (fresh userID : UUID) (diffId : string)
    (body : option DiffComment) : DB Office (Response Reply) := respond (
  diffID ←? diff_id diffId;
  c ←? decoded body;
  result ←? or_reply (SwarmOffice.AddDiffComment now fresh diffID
                        (signed_comment "user" (uuid_String userID) c)) (error_text 500);
  reply 201 (RComment result.1 result.2)).

Definition DiffAction (id : string) (body : option string) : DB Office (Response Reply) := respond (
  taskID ←? task_id id;
  action ←? decoded body;
  (if String.eqb action "approve_diff" then
     calls (UpdateStatus taskID StatusPRCreating) 500;?
     start (JobCreatePR taskID);;
     ok tt
   else if String.eqb action "request_changes" then
     calls (UpdateStatus taskID StatusImplementing) 500
   else if String.eqb action "reject" then calls (UpdateStatus taskID StatusCancelled) 500
   else fail (writeError 400 "action must be approve_diff, request_changes, or reject"));?
  reply 200 (RStatus action)).

(** [SELECT DISTINCT role ... WHERE id = ANY($1) AND role != ''] *)
Definition roles_of (agentIDs : list UUID) (w : World) : list string :=
  row_order (remove_dups (List.filter is_set
    (map (fun kv => a_Role kv.2) (select (fun id _ => existsb (N.eqb id) agentIDs) (agents w))))).

Definition resolveAgentRoles (agentIDs : list UUID) : DB Office (list string) :=
  match agentIDs with
  | [] => mret []
  | _ => scanned [] (roles_of agentIDs)
  end.

(** The outcome of a rating alone. *)
Definition rating_outcome (taskID : UUID) (rating : Z) : TaskOutcome :=
  {| to_TaskID := uuid_String taskID; to_HumanRating := rating; to_ConsensusConf := of_int 0;
     to_ConsensusStrategy := ""; to_TestsPassed := false; to_PRAccepted := false;
     to_BuildSuccess := false; to_ConsensusWin := false |}.

(** The agents of the task, or those that submitted its diffs. *)
Definition rated_agents (taskID : UUID) (task : Task) : DB Office (list UUID) :=
  match default [] (t_AssignedAgents task) with
  | [] => r ← on_world (AgentsForTask taskID); mret (match r with Ok l => l | Err _ => [] end)
  | l => mret l
  end.

Definition rate_all (now : Z) (taskID : UUID) (task : Task) (rating : Z) : DB Office unit :=
  agentIDs ← rated_agents taskID task;
  every agentIDs (fun agentID => _ ← on_ratings (RecordFeedback agentID rating); mret tt);;
  roles ← resolveAgentRoles agentIDs;
  every roles (fun role =>
    _ ← on_ratings (RecordRoleOutcome now role (t_RepoID task) (rating_outcome taskID rating));
    mret tt).

Definition RateTaskUser (now : Z) (id : string) (body : option (Z * string))
    : DB Office (Response Reply) := respond (
  taskID ←? task_id id;
  b ←? decoded body;
  unless ((b.1 <? 1) || (5 <? b.1)) 400 "rating must be between 1 and 5";?
  calls (RateTask taskID b.1 b.2) 500;?
  on_world (GetTask taskID) ≫= fun task : result Task string =>
  (match task with Ok task => rate_all now taskID task b.1 | Err _ => mret tt end);;
  reply 204 RNone).

Definition ListAgentsUser : DB Office (Response Reply) := respond (
  agents ←? calls (ListAgents "") 500;
  reply 200 (RAgents agents)).

Definition ListTeamsUser : DB Office (Response Reply) := respond (
  teams ←? calls ListTeams 500;
  reply 200 (RTeams teams)).

Definition RetryTask (id : string) : DB Office (Response Reply) := respond (
  taskID ←? task_id id;
  calls (TaskManager.RetryTask taskID) 400;?
  reply 200 (RStatus "retried")).

Definition CancelTask (id : string) : DB Office (Response Reply) := respond (
  taskID ←? task_id id;
  task ←? calls (GetTask taskID) 404;
  unless (is_terminal (t_Status task)) 400
    ("cannot cancel task in status " ++ quoted (t_Status task));?
  calls (UpdateStatus taskID StatusCancelled) 500;?
  (match t_AssignedTeamID task with
   | Some teamID => on_world (ReleaseTeam teamID)
   | None => mret tt
   end);;
  send (SentTask "cancelled" (uuid_String taskID));;
  reply 200 (RStatus "cancelled")).

Definition DeleteTaskUser (id : string) : DB Office (Response Reply) := respond (
  taskID ←? task_id id;
  task ←? calls (GetTask taskID) 404;
  (match t_AssignedTeamID task with
   | Some teamID => on_world (ReleaseTeam teamID)
   | None => mret tt
   end);;
  calls (DeleteTask taskID) 500;?
  send (SentTask "deleted" (uuid_String taskID));;
  reply 204 RNone).

Definition TaskHistory (repoID limit offset : string) : DB Office (Response Reply) := respond (
  let limit := parseIntParam limit 25 in
  let offset := parseIntParam offset 0 in
  r ←? or_reply (ListTaskHistory repoID limit offset) (error_text 500);
  reply 200 (RHistory r.1 r.2 limit offset)).

Definition SwarmOverview : DB Office (Response Reply) := respond (
  overview ← GetOverview;
  reply 200 (ROverview overview)).

(** ** Memory ([memory_hitl.go], [memory_insights.go]) *)

Definition HandleMTMStore (now : Z) (fresh : UUID) (body : option MTMInsight)
    : DB Office (Response Reply) := respond (
  b ←? decoded body;
  unless (negb (is_set (mt_RepoID b)) || negb (is_set (mt_AgentRole b))
          || negb (is_set (mt_Key b))) 400 "repo_id, agent_role, and key are required";?
  let insight := {| mt_ID := 0%N; mt_RepoID := mt_RepoID b; mt_AgentRole := mt_AgentRole b;
                    mt_Key := mt_Key b; mt_Insight := mt_Insight b;
                    mt_Confidence := mt_Confidence b; mt_CreatedAt := None;
                    mt_UpdatedAt := 0 |} in
  or_reply (on_memory (StoreMTM now fresh insight)) (error_text 500);?
  reply 201 (RStatus "stored")).

Definition HandleMTMRecall (repoID agentRole limit : string) : DB Office (Response Reply) := respond (
  unless (negb (is_set repoID) || negb (is_set agentRole)) 400
    "repo_id and agent_role are required";?
  l ←? or_reply (on_memory (RecallMTM repoID agentRole (positive_or 10 limit))) (error_text 500);
  reply 200 (RMemories l)).

Definition HandleInsightStore (now : Z) (fresh : UUID) (body : option InsightBody)
    : DB Office (Response Reply) := respond (
  b ←? decoded body;
  unless (negb (is_set (ib_RepoID b)) || negb (is_set (ib_Category b))
          || negb (is_set (ib_Key b))) 400 "repo_id, category, and key are required";?
  let insight := {| ci_ID := 0%N; ci_RepoID := ib_RepoID b; ci_TaskID := ib_TaskID b;
                    ci_ThreadID := ib_ThreadID b; ci_Category := ib_Category b;
                    ci_Key := ib_Key b; ci_Insight := ib_Insight b;
                    ci_Confidence := ib_Confidence b; ci_Strategy := ib_Strategy b;
                    ci_Provider := ib_Provider b; ci_Metadata := ib_Metadata b;
                    ci_CreatedAt := None; ci_UpdatedAt := 0 |} in
  or_reply (on_memory (StoreConsensusInsight now fresh insight)) (error_text 500);?
  reply 201 (RStatus "stored")).

Definition HandleInsightRecall (repoID category limit : string) : DB Office (Response Reply) :=
  respond (
  unless (negb (is_set repoID)) 400 "repo_id is required";?
  l ←? or_reply (on_memory (RecallConsensusInsights repoID category (positive_or 20 limit)))
         (error_text 500);
  reply 200 (RInsights l)).

Definition HandleProviderStats (repoID : string) : DB Office (Response Reply) := respond (
  unless (negb (is_set repoID)) 400 "repo_id is required";?
  l ←? or_reply (on_memory (GetProviderReliabilityStats repoID)) (error_text 500);
  reply 200 (RStats l)).

Definition HandleInsightRecallPublic (taskID repoID category limit : string)
    : DB Office (Response Reply) := respond (
  repoID ← (if is_set taskID && negb (is_set repoID) then
              match uuid_Parse taskID with
              | Some tid =>
                  task ← on_world (GetTask tid);
                  mret (match task with Ok task => t_RepoID task | Err _ => repoID end)
              | None => mret repoID
              end
            else mret repoID);
  unless (negb (is_set repoID)) 400 "repo_id or task_id is required";?
  l ←? or_reply (on_memory (RecallConsensusInsights repoID category (positive_or 20 limit)))
         (error_text 500);
  reply 200 (RInsights l)).

(** ** Self-healing ([self_heal_handlers.go]) *)

Definition HandleProviderOutcome (now now' : Z) (body : option ProviderOutcomeReport)
    : DB Office (Response Reply) := respond (
  report ←? decoded body;
  unless (negb (is_set (por_Provider report))) 400 "provider is required";?
  on_world (RecordProviderOutcome now now' report);;
  reply 204 RNone).

Definition HandleProviderStatus (provider : string) : DB Office (Response Reply) := respond (
  unless (negb (is_set provider)) 400 "provider query param required";?
  available ← on_world (IsProviderAvailable provider);
  state ← on_world (GetProviderState provider);
  reply 200 (RProvider provider available state)).

Definition HandleSelfHealSummary (limit : string) : DB Office (Response Reply) := respond (
  summary ←? or_reply (on_world (GetSummary (positive_or 25 limit)))
               (internal "failed to fetch summary");
  reply 200 (RSummary summary)).

Definition HandleSelfHealEvents (eventType severity provider limit offset : string)
    : DB Office (Response Reply) := respond (
  let limit := positive_or 50 limit in
  let offset := match Atoi offset with Some v => if 0 <=? v then v else 0 | None => 0 end in
  r ←? or_reply (on_world (GetEvents eventType severity provider limit offset))
         (internal "failed to fetch events");
  reply 200 (REvents r.1 r.2 limit offset)).

Definition HandleResolveEvent (now : Z) (id : string) : DB Office (Response Reply) := respond (
  eventID ←? require (uuid_Parse id) 400 "invalid event id";
  or_reply (on_world (ResolveEvent now eventID)) (internal "failed to resolve event");?
  reply 204 RNone).

Definition HandleResetCircuit (now : Z) (provider : string) : DB Office (Response Reply) := respond (
  unless (negb (is_set provider)) 400 "provider is required";?
  or_reply (on_world (ResetCircuit now provider)) (internal "failed to reset circuit");?
  reply 204 RNone).

Definition HandleListCircuits : DB Office (Response Reply) := respond (
  l ←? or_reply (on_world listCircuitStates) (internal "failed to list circuits");
  reply 200 (RCircuits l)).

(** ** Ratings of roles ([role_elo_handlers.go]) *)

(** The body is the role, the repository and the outcome. *)
Definition HandleRoleELOOutcome (now : Z) (body : option (string * string * TaskOutcome))
    : DB Office (Response Reply) := respond (
  b ←? decoded body;
  let '(role, repoID, outcome) := b in
  unless (negb (is_set role) || negb (is_set repoID)) 400 "role and repo_id are required";?
  on_ratings (RecordRoleOutcome now role repoID outcome) ≫= fun e : option string =>
  match e with
  | Some e => fail (error_text 500 e)
  | None =>
      re ←? or_reply (on_ratings (GetRoleELO now role repoID)) (error_text 500);
      reply 200 (RRole re)
  end).

Definition HandleGetRoleELO (now : Z) (role repoID : string) : DB Office (Response Reply) := respond (
  unless (negb (is_set role) || negb (is_set repoID)) 400
    "role (path) and repo_id (query) are required";?
  re ←? or_reply (on_ratings (GetRoleELO now role repoID)) (error_text 500);
  reply 200 (RRole re)).

Definition HandleRoleELOLeaderboard (repoID limit : string) : DB Office (Response Reply) := respond (
  l ←? or_reply (on_ratings (ListRoleELOs repoID (positive_or 50 limit))) (error_text 500);
  reply 200 (RRoles l repoID)).

Definition HandleRoleELOHistory (role repoID limit : string) : DB Office (Response Reply) := respond (
  unless (negb (is_set role) || negb (is_set repoID)) 400
    "role (path) and repo_id (query) are required";?
  l ←? or_reply (on_ratings (GetRoleELOHistory role repoID (positive_or 50 limit)))
         (error_text 500);
  reply 200 (RRoleHistory l role repoID)).

End handler.
