(* ===== verification/SwarmTypes.v ===== *)
(** * Types of the swarm's rows

    The columns of the swarm's tables that are texts or numbers in the schema but take few values
    in the code: the status of a task is one of the constants of [task_manager.go], those of
    agents and teams are "idle", "busy" and "offline", a rating is from 1 to 5 and a diff is
    "pending".  Every operation keeps them, given the arguments its callers pass. *)

From Stdlib Require Import ZArith Lia Ascii String.
From stdpp Require Import base list gmap strings sorting.
From S2P Require Import Prelude GoStrings SwarmDb TeamManager TaskManager SelfHeal Swarm.
Local Open Scope string_scope.
Local Open Scope Z_scope.

Definition task_statuses : list string :=
  [StatusSubmitted; StatusPlanning; StatusPlanReview; StatusImplementing; StatusSelfReview;
   StatusDiffReview; StatusBuildValidating; StatusBuildFailed; StatusBuildBlocked;
   StatusPRCreating; StatusCompleted; StatusCancelled; StatusFailed; StatusTimedOut].
Definition worker_statuses : list string := ["idle"; "busy"; "offline"].

Definition one_of (l : list string) (s : string) : bool := existsb (String.eqb s) l.

Definition task_typed (t : Task) : Prop :=
  one_of task_statuses (t_Status t) = true /\
  match t_HumanRating t with Some r => 1 <= r <= 5 | None => True end.
Definition agent_typed (a : Agent) : Prop := one_of worker_statuses (a_Status a) = true.
Definition team_typed (t : Team) : Prop := one_of worker_statuses (tm_Status t) = true.
Definition diff_typed (d : TaskDiff) : Prop := d_Status d = "pending".

Definition all_rows {A} (P : A -> Prop) (m : gmap UUID A) : Prop :=
  forall k x, m !! k = Some x -> P x.

Definition rows_typed (w : World) : Prop :=
  all_rows task_typed (tasks w) /\ all_rows agent_typed (agents w) /\
  all_rows team_typed (teams w) /\ all_rows diff_typed (diffs w).

#[export] Instance rows_typed_inv : TableInv rows_typed.
Proof. by split. Qed.

Section rows.
Context {A : Type} (P : A -> Prop).

Lemma all_alter g id m : (forall x, P x -> P (g x)) -> all_rows P m -> all_rows P (alter g id m).
Proof.
  intros Hg Hm k x. rewrite lookup_alter. case_decide; [|by apply Hm].
  intros (y & Hy & ->)%fmap_Some. eauto.
Qed.
Lemma all_update_where p g m :
  (forall x, P x -> P (g x)) -> all_rows P m -> all_rows P (update_where p g m).
Proof.
  intros Hg Hm k x. rewrite update_where_lookup. intros (y & Hy & ->)%fmap_Some.
  case_match; eauto.
Qed.
Lemma all_insert id y m : P y -> all_rows P m -> all_rows P (<[id := y]> m).
Proof. intros Hy Hm k x. rewrite lookup_insert. case_decide; [by intros [= <-]|apply Hm]. Qed.
Lemma all_delete id m : all_rows P m -> all_rows P (delete id m).
Proof. intros Hm k x [_ Hk]%lookup_delete_Some. eauto. Qed.
Lemma all_delete_where p m : all_rows P m -> all_rows P (delete_where p m).
Proof. intros Hm k x [Hk _]%delete_where_lookup. eauto. Qed.
Lemma all_fmap g m : (forall x, P x -> P (g x)) -> all_rows P m -> all_rows P (g <$> m).
Proof. intros Hg Hm k x. rewrite lookup_fmap. intros (y & Hy & ->)%fmap_Some. eauto. Qed.
End rows.

Lemma typed_set_tasks f w :
  (all_rows task_typed (tasks w) -> all_rows task_typed (f (tasks w))) ->
  rows_typed w -> rows_typed (set_tasks f w).
Proof. intros Hf (H1 & H2 & H3 & H4). split_and!; simpl; auto. Qed.
Lemma typed_set_agents f w :
  (all_rows agent_typed (agents w) -> all_rows agent_typed (f (agents w))) ->
  rows_typed w -> rows_typed (set_agents f w).
Proof. intros Hf (H1 & H2 & H3 & H4). split_and!; simpl; auto. Qed.
Lemma typed_set_teams f w :
  (all_rows team_typed (teams w) -> all_rows team_typed (f (teams w))) ->
  rows_typed w -> rows_typed (set_teams f w).
Proof. intros Hf (H1 & H2 & H3 & H4). split_and!; simpl; auto. Qed.
Lemma typed_set_diffs f w :
  (all_rows diff_typed (diffs w) -> all_rows diff_typed (f (diffs w))) ->
  rows_typed w -> rows_typed (set_diffs f w).
Proof. intros Hf (H1 & H2 & H3 & H4). split_and!; simpl; auto. Qed.
Lemma typed_same w w' :
  tasks w' = tasks w -> agents w' = agents w -> teams w' = teams w -> diffs w' = diffs w ->
  rows_typed w -> rows_typed w'.
Proof. unfold rows_typed. by intros -> -> -> ->. Qed.

(** A new status that is one of the constants. *)
Lemma task_typed_status s t t' :
  task_typed t -> t_Status t' = s -> t_HumanRating t' = t_HumanRating t ->
  one_of task_statuses s = true -> task_typed t'.
Proof. unfold task_typed. by intros [_ Hr] -> -> Hs. Qed.
Lemma task_typed_same t t' :
  task_typed t -> t_Status t' = t_Status t -> t_HumanRating t' = t_HumanRating t -> task_typed t'.
Proof. unfold task_typed. by intros ? -> ->. Qed.

(** The update of one row, or of the rows a condition selects. *)
Ltac typed_row :=
  intros;
  first [ done
        | eapply task_typed_same; [eassumption|reflexivity|reflexivity]
        | eapply task_typed_status; [eassumption|reflexivity|reflexivity|reflexivity]
        | unfold agent_typed, team_typed, diff_typed in *; simpl in *; repeat case_match;
          simpl in *; done ].
Ltac typed_update :=
  first [ apply all_alter | apply all_update_where | apply all_delete | apply all_delete_where
        | apply all_fmap ]; typed_row.
Ltac typed :=
  preserve;
  try (first [ apply typed_set_tasks; [typed_update|done]
             | apply typed_set_agents; [typed_update|done]
             | apply typed_set_teams; [typed_update|done]
             | apply typed_set_diffs; [typed_update|done]
             | eapply typed_same; [..|eassumption]; reflexivity ]).

Section types.
Context `{RowOrder} `{UuidText} `{Config} `{UnicodeTables} `{GenUUID} `{Driver}.

Lemma ReleaseTeam_typed t : preserves rows_typed (ReleaseTeam t).
Proof. unfold ReleaseTeam, set_team_agents_status, set_team_status. typed. Qed.
Lemma revokeTeamTokens_typed t : preserves rows_typed (revokeTeamTokens t).
Proof. unfold revokeTeamTokens, revoke_agent. typed. Qed.
#[local] Hint Resolve ReleaseTeam_typed revokeTeamTokens_typed : preserves.
Lemma release_team_of_typed r : preserves rows_typed (release_team_of r).
Proof. unfold release_team_of. typed. Qed.
Lemma GetTask_typed id : preserves rows_typed (GetTask id).
Proof. unfold GetTask. typed. Qed.
#[local] Hint Resolve release_team_of_typed GetTask_typed : preserves.
Lemma FailTask_typed now id r : preserves rows_typed (FailTask now id r).
Proof. unfold FailTask, broadcast_task. typed. Qed.
#[local] Hint Resolve FailTask_typed : preserves.
Lemma markAgentOffline_typed now a t s : preserves rows_typed (markAgentOffline now a t s).
Proof.
  unfold markAgentOffline, checkTeamHealth, MarkTeamOffline, set_team_status. typed.
Qed.
Lemma assignTask_typed now id t : preserves rows_typed (assignTask now id t).
Proof. unfold assignTask, MarkTeamBusy, set_team_status. typed. Qed.
Lemma request_team_typed f m id : preserves rows_typed (request_team f m id).
Proof. apply request_team_keeps, _. Qed.
Lemma ack_typed m : preserves rows_typed (ack m).
Proof. unfold ack. typed. Qed.
Lemma recordEvent_typed now a b c d e f : preserves rows_typed (recordEvent now a b c d e f).
Proof. unfold recordEvent. typed. Qed.
#[local] Hint Resolve markAgentOffline_typed assignTask_typed request_team_typed
  ack_typed recordEvent_typed : preserves.
Lemma handle_message_typed now f m : preserves rows_typed (handle_message now f m).
Proof.
  unfold handle_message, carve_or_request, GetIdleTeam, FindIdleTeamWithCapacity. typed.
Qed.
Lemma transitionCircuit_typed now p s : preserves rows_typed (transitionCircuit now p s).
Proof. unfold transitionCircuit, persistCircuit. typed. Qed.
#[local] Hint Resolve handle_message_typed transitionCircuit_typed : preserves.
Lemma run_sh_op_typed o : preserves rows_typed (run_sh_op o).
Proof.
  destruct o; simpl; unfold RecordProviderOutcome, probeHalfOpenCircuits, ResetCircuit,
    hydrateCircuits, persistCircuit; typed.
Qed.
Lemma add_team_typed id t w :
  team_typed t -> rows_typed w -> rows_typed (set_teams (<[id := t]>) w).
Proof. intros Ht. apply typed_set_teams. by apply all_insert. Qed.

(** The status of a new agent is read from its team. *)
Lemma RegisterAgent_typed now a role t tn h v :
  preserves rows_typed (RegisterAgent now a role t tn h v).
Proof.
  unfold RegisterAgent. apply preserves_bind.
  { typed. unfold set_teams. destruct (teams w !! t) eqn:E; [by destruct w|].
    by apply add_team_typed. }
  intros _. eapply (triple_bind _ (fun s w => rows_typed w /\ one_of worker_statuses s = true)).
  { destruct (negb _); [|by apply triple_ret].
    eapply triple_bind; [apply (triple_query rows_typed)|]. intros r.
    apply triple_ret. intros w [Hw _]. split; [done|].
    destruct r as [[x|]|]; [|done|done]. by destruct (String.eqb _ _). }
  intros s. apply triple_pure. intros Hs.
  assert (forall w, rows_typed w -> rows_typed (set_agents (fun m => <[a :=
    {| a_Role := role; a_TeamID := if negb (t =? uuid_Nil)%N then Some t else None; a_Status := s;
       a_TasksDone := match m !! a with Some x => a_TasksDone x | None => 0 end;
       a_Hostname := h; a_Version := v; a_RegisteredAt := now |}]> m) w)) as Hset.
  { intros w. apply typed_set_agents. intros Hm. by apply all_insert. }
  change (preserves rows_typed ?m) with (preserves rows_typed m).
  eapply triple_bind; [apply preserves_exec_when; [apply _|]; intros w Hw _; by apply Hset|].
  intros r. assert (forall x, preserves rows_typed
    ((if negb (t =? uuid_Nil)%N then exec_ (set_teams (alter (add_agent_id a) t)) else mret tt);;
     mret x : M (result unit string))) as Hadd.
  { intros x. typed. apply typed_set_teams; [|done]. apply all_alter. unfold team_typed.
    intros y. by rewrite add_agent_id_status. }
  destruct r; [apply Hadd|apply preserves_ret].
Qed.
#[local] Hint Resolve RegisterAgent_typed : preserves.

Lemma run_team_op_typed o : preserves rows_typed (run_team_op o).
Proof.
  destruct o; simpl; unfold CreateTeam, activeTeamCount, MarkTeamBusy, ReleaseTeam,
    MarkTeamOffline, DisbandTeam, ScaleTeam, set_team_agents_status, set_team_status; typed.
  by apply add_team_typed.
Qed.

Lemma RetryTask_typed id : preserves rows_typed (RetryTask id).
Proof. unfold RetryTask, broadcast_task. typed. Qed.
Lemma stuck_rows_typed now l : preserves rows_typed (stuck_rows now l).
Proof.
  induction l as [|[k r] l IH]; simpl; [apply preserves_ret|].
  unfold recoverStuckTask. typed; exact IH.
Qed.
#[local] Hint Resolve run_sh_op_typed run_team_op_typed RetryTask_typed stuck_rows_typed
  : preserves.
Lemma cycle_typed now : preserves rows_typed (cycle now).
Proof. unfold cycle, detectStuckTasks, probeHalfOpenCircuits, gcOldEvents. typed. Qed.

Lemma delete_agents_typed p w : rows_typed w -> rows_typed (delete_agents p w).
Proof.
  intros Hw. unfold delete_agents. apply typed_set_diffs; [intros; by apply all_fmap|].
  apply typed_set_teams; [intros; by apply all_fmap|].
  apply typed_set_agents; [by apply all_delete_where|done].
Qed.
Lemma delete_teams_typed w : rows_typed w -> rows_typed (delete_teams w).
Proof.
  intros Hw. unfold delete_teams. apply typed_set_tasks.
  - intros. apply all_fmap; [|done]. intros t Ht. repeat case_match; try done.
  - apply typed_set_teams; [|done]. intros. by apply all_delete_where.
Qed.
Lemma reapStaleRows_typed now : preserves rows_typed (reapStaleRows now).
Proof.
  unfold reapStaleRows, revoke_agent. typed;
    [by apply delete_agents_typed|by apply delete_teams_typed].
Qed.
#[local] Hint Resolve cycle_typed reapStaleRows_typed : preserves.

(** The arguments the callers pass: a status of the code, and a rating in range. *)
Definition op_typed (o : swarm_op) : Prop :=
  match o with
  | SwUpdateStatus _ s => one_of task_statuses s = true
  | SwRateTask _ r _ => 1 <= r <= 5
  | _ => True
  end.

Lemma run_swarm_op_typed o : op_typed o -> preserves rows_typed (run_swarm_op o).
Proof.
  destruct o; intros Ho; simpl in *; try (by auto with preserves);
    unfold CreateTask, UpdateStatus, DeleteTask, SetPlan, CompleteTask, AddDiff, Heartbeat,
      RateTask, handleStreamMessages, cleanupInconsistentAgents, checkTimeouts,
      checkHeartbeats, reconcileOnStartup, broadcast_task, ResolveEvent; typed.
  - apply typed_set_tasks; [|done]. by apply all_insert.
  - apply typed_set_tasks; [|done]. apply all_alter. intros t [_ Hr]. by split.
  - apply typed_set_diffs; [by apply all_delete_where|]. apply typed_set_tasks; [|done].
    by apply all_delete.
  - apply typed_set_diffs; [|done]. by apply all_insert.
  - apply typed_set_agents; [|done]. apply all_alter. intros x Hx. by case_if.
  - apply typed_set_tasks; [|done]. apply all_alter. intros t [Hs _]. by split.
  - by destruct (unresolved eventID w).
Qed.

(** ** All invariants of the tables *)

Definition world_ok (w : World) : Prop :=
  references_ok w /\ retries_bounded w /\ rows_typed w.

#[export] Instance world_ok_inv : TableInv world_ok.
Proof. by split. Qed.

Lemma preserves_and (I J : World -> Prop) {A} (m : M A) :
  preserves I m -> preserves J m -> preserves (fun w => I w /\ J w) m.
Proof. intros HI HJ w [Hi Hj]. split; [by apply HI|by apply HJ]. Qed.

Lemma run_swarm_op_ok o : op_typed o -> preserves world_ok (run_swarm_op o).
Proof.
  intros Ho. apply preserves_and; [apply run_swarm_op_refs|].
  apply preserves_and; [apply run_swarm_op_retries|by apply run_swarm_op_typed].
Qed.

(** The result of an operation does not matter. *)
Lemma preserves_result (I : World -> Prop) {A} (m : M A) :
  preserves I (m;; mret tt) -> preserves I m.
Proof.
  intros Hm w Hw. specialize (Hm w Hw). unfold mbind, M_bind in Hm. by destruct (m w).
Qed.

End types.
