(* ===== verification/Janitor.v ===== *)
(** * The swarm's janitor ([janitor.go])

    The pass that runs every minute: idle teams and old agents go, keys of Redis that nobody
    needs are deleted, old memory is pruned.  What SCAN returns is an argument; the counts are
    only logged and left out. *)

From Stdlib Require Import ZArith Lia Ascii String.
From stdpp Require Import base list gmap strings sorting.
From S2P Require Import Prelude GoStrings SwarmDb TeamManager TaskManager SelfHeal Swarm SwarmTypes.
Local Open Scope string_scope.
Local Open Scope Z_scope.

Definition hours (n : Z) : Z := n * 60 * minute.

Definition IdleTeamTimeout : Z := 10 * minute.
Definition OfflineAgentRecycleAge : Z := hours 1.
Definition MTMMaxAge : Z := hours (7 * 24).
Definition InsightMaxAge : Z := hours (30 * 24).

(** [strings.Split(key, ":")], but for an empty last part. *)
Fixpoint split_from (part key : string) : list string :=
  match key with
  | EmptyString => if String.eqb part "" then [] else [part]
  | String c key =>
      if Ascii.eqb c ":" then part :: split_from "" key
      else split_from (part ++ String c EmptyString) key
  end.
Definition splitKey (key : string) : list string := split_from "" key.

Section janitor.
Context `{RowOrder} `{UuidText}.

(** A team that has no task to work on. *)
Definition without_task (w : World) (id : UUID) : bool :=
  count_where (fun _ t => bool_decide (t_AssignedTeamID t = Some id)
                          && negb (is_terminal (t_Status t))) (tasks w) =? 0.

Definition kill_idle (cutoff : Z) (w : World) : World :=
  set_teams (update_where (fun id t => String.eqb (tm_Status t) "idle" && negb (is_warm_pool id)
                                       && without_task w id && (tm_FormedAt t <? cutoff))
                          (with_team_status "offline")) w.

Definition killIdleTeams (now : Z) : M unit := exec_ (kill_idle (now - IdleTeamTimeout)).

Definition clearStaleHeartbeats : M unit :=
  rows ← query (fun w => (select (fun _ a => String.eqb (a_Status a) "offline") (agents w)).*1);
  match rows with
  | Err _ => mret tt
  | Ok ids => for_rows ids (fun id => emit (RedisDel (hbKey id)))
  end.

(** The task of a key "swarm:stm:{task}:..." is its third part. *)
Definition orphaned (active : list string) (key : string) : bool :=
  match splitKey key with
  | _ :: _ :: taskID :: _ => negb (existsb (String.eqb taskID) active)
  | _ => false
  end.

(** [pages] are the pages of SCAN up to its end or its first error. *)
Definition cleanOrphanedSTM (pages : list (list string)) : M unit :=
  rows ← query (fun w => map uuid_String
                  (select (fun _ t => negb (is_terminal (t_Status t))) (tasks w)).*1);
  match rows with
  | Err _ => mret tt
  | Ok active =>
      for_rows (concat pages) (fun key =>
        if orphaned active key then emit (RedisDel key) else mret tt)
  end.

Definition recycleOfflineAgents (now : Z) : M unit :=
  exec_ (delete_agents (stale_agent (now - OfflineAgentRecycleAge))).

(** ** Invariants *)

Lemma killIdleTeams_ok now : preserves world_ok (killIdleTeams now).
Proof.
  unfold killIdleTeams. preserve.
  match goal with Hw : world_ok _ |- _ => destruct Hw as (Hr & Hb & Ht) end.
  unfold kill_idle. split_and!.
  - apply refs_set_teams; [apply keys_update_where|done].
  - done.
  - apply typed_set_teams; [|done]. by apply all_update_where.
Qed.

Lemma clearStaleHeartbeats_ok : preserves world_ok clearStaleHeartbeats.
Proof. unfold clearStaleHeartbeats. preserve. Qed.

Lemma cleanOrphanedSTM_ok pages : preserves world_ok (cleanOrphanedSTM pages).
Proof. unfold cleanOrphanedSTM. preserve. Qed.

Lemma recycleOfflineAgents_ok now : preserves world_ok (recycleOfflineAgents now).
Proof.
  unfold recycleOfflineAgents. preserve.
  match goal with Hw : world_ok _ |- _ => destruct Hw as (Hr & Hb & Ht) end.
  split_and!; [by apply delete_agents_refs|done|by apply delete_agents_typed].
Qed.

(** The keys a pass deletes: those of SCAN whose third part is no active task. *)
Theorem cleanOrphanedSTM_deletes pages w :
  no_faults w ->
  effects (cleanOrphanedSTM pages w).2 =
  (effects w ++ map RedisDel (List.filter (fun key =>
     match splitKey key with
     | _ :: _ :: taskID :: _ =>
         forallb (fun kv => negb (String.eqb taskID (uuid_String kv.1)))
           (select (fun _ t => negb (is_terminal (t_Status t))) (tasks w))
     | _ => false
     end) (concat pages)))%list.
Proof.
  intros Hw. unfold cleanOrphanedSTM. run. set (active := map uuid_String _).
  assert (forall l w, effects (for_rows l (fun key =>
      if orphaned active key then emit (RedisDel key) else mret tt) w).2 =
    (effects w ++ map RedisDel (List.filter (orphaned active) l))%list) as Hloop.
  { induction l as [|key l IH]; intros w'; simpl; [by rewrite app_nil_r|].
    destruct (orphaned active key); cbn [map app].
    - unfold mbind, M_bind. simpl. rewrite IH. simpl. by rewrite <- app_assoc.
    - unfold mbind, M_bind. simpl. apply IH. }
  rewrite Hloop. do 2 f_equal. apply filter_ext. intros key. unfold orphaned.
  destruct (splitKey key) as [|? [|? [|taskID ?]]]; try done. unfold active. clear.
  induction (select _ _) as [|kv l IH]; [done|]. cbn. by rewrite negb_orb, IH.
Qed.

End janitor.
