(* ===== verification/SwarmRoutes.v ===== *)
(** * Requests of the swarm and its work in the background ([server.go], [main.go])

    The routes under /internal/swarm and /api/v1/swarm with what guards them, and the steps by
    which the state of the swarm changes: a registration, a request of an agent or of a user,
    a job a handler left behind, a pass of one of the managers' loops, a pass over the ratings,
    and the janitor.  Rate limits and the routes of sandboxes, CI signals, probes, observability,
    MCP, the bus and the language models are left out. *)

From Stdlib Require Import ZArith Lia Ascii String.
From stdpp Require Import base list gmap strings sorting.
From S2P Require Import Prelude GoStrings SwarmDb Db TeamManager TaskManager SelfHeal Swarm GoFloat Ratings Sandbox Http Store Vcs Jwt SwarmAuth SwarmMemory SwarmOffice PrCreator SwarmHandler Janitor.
Local Open Scope string_scope.
Local Open Scope rtv_scope.
Local Open Scope Z_scope.

#[local] Existing Instance production.

(** ** Requests *)

Inductive AgentRequest :=
  | AgRevoke
  | AgNext
  | AgTask (id : string)
  | AgStatus (id : string)
  | AgPlan (id : string) (body : option (option string))
  | AgSubmitDiff (id : string) (body : option TaskDiff)
  | AgDiffs (id : string)
  | AgDiffComment (diffId : string) (body : option DiffComment)
  | AgComplete (id : string)
  | AgFail (id : string) (body : option string)
  | AgDeclareSize (id : string) (body : option DeclareSizeBody)
  | AgContribution (id : string) (body : option ContributionBody)
  | AgMessage (id : string) (body : option AgentMessageBody)
  | AgDiscussion (id : string) (body : option string)
  | AgConsensus (id : string) (body : option Decision)
  | AgHeartbeat (id : string)
  | AgStoreMTM (body : option MTMInsight)
  | AgRecallMTM (repoID agentRole limit : string)
  | AgStoreInsight (body : option InsightBody)
  | AgRecallInsights (repoID category limit : string)
  | AgProviderStats (repoID : string)
  | AgRoleOutcome (body : option (string * string * TaskOutcome))
  | AgRoleELO (role repoID : string)
  | AgProviderOutcome (body : option ProviderOutcomeReport)
  | AgProviderStatus (provider : string)
  | AgReadFile (body : option ReadFileBody)
  | AgListDir (body : option (string * string)).

Inductive UserRequest :=
  | UsCreateTask (body : option CreateTaskBody)
  | UsTasks (repoID status : string)
  | UsHistory (repoID limit offset : string)
  | UsTask (id : string)
  | UsPlanAction (id : string) (body : option string)
  | UsDiffs (id full : string)
  | UsDiffContent (diffId : string)
  | UsDiffComment (diffId : string) (body : option DiffComment)
  | UsDiffAction (id : string) (body : option string)
  | UsRate (id : string) (body : option (Z * string))
  | UsRetry (id : string)
  | UsCancel (id : string)
  | UsDelete (id : string)
  | UsTaskAgents (id : string)
  | UsAgents
  | UsTeams
  | UsOverview
  | UsSummary (limit : string)
  | UsEvents (eventType severity provider limit offset : string)
  | UsResolve (id : string)
  | UsReset (provider : string)
  | UsCircuits
  | UsInsights (taskID repoID category limit : string)
  | UsLeaderboard (repoID limit : string)
  | UsRoleHistory (role repoID limit : string).

Section routes.
Context `{RowOrder} `{UuidText} `{UnicodeTables} `{Postgres} `{Collation} `{Digest} `{AgentJwt} `{Jwt} `{MathPow} `{GenUUID} `{Driver} `{VaultReader} `{HostWrites}.
Variable authSvc : Service.
Variable registry : Registry.
Variable jwtMgr : JWTManager.

Definition serve_agent (now : Z) (fresh : UUID) (claims : option AgentClaims) (q : AgentRequest)
    : DB Office (Response Reply) :=
  match q with
  | AgRevoke => RevokeAgent claims
  | AgNext => GetNextTask claims
  | AgTask id => GetTaskInternal id
  | AgStatus id => GetTaskStatus id
  | AgPlan id body => SubmitPlan id body
  | AgSubmitDiff id body => SubmitDiff now fresh claims id body
  | AgDiffs id => ListDiffs id
  | AgDiffComment diffId body => AddDiffComment now fresh claims diffId body
  | AgComplete id => CompleteTask now id
  | AgFail id body => FailTask now id body
  | AgDeclareSize id body => DeclareTeamSize now claims id body
  | AgContribution id body => RecordContribution fresh claims id body
  | AgMessage id body => AgentMessage id body
  | AgDiscussion id body => DiscussionEvent id body
  | AgConsensus id body => ConsensusEvent id body
  | AgHeartbeat id => Heartbeat now id
  | AgStoreMTM body => HandleMTMStore now fresh body
  | AgRecallMTM repoID agentRole limit => HandleMTMRecall repoID agentRole limit
  | AgStoreInsight body => HandleInsightStore now fresh body
  | AgRecallInsights repoID category limit => HandleInsightRecall repoID category limit
  | AgProviderStats repoID => HandleProviderStats repoID
  | AgRoleOutcome body => HandleRoleELOOutcome now body
  | AgRoleELO role repoID => HandleGetRoleELO now role repoID
  | AgProviderOutcome body => HandleProviderOutcome now now body
  | AgProviderStatus provider => HandleProviderStatus provider
  | AgReadFile body => VCSReadFile body
  | AgListDir body => VCSListDir body
  end.

Definition serve_user (now : Z) (fresh userID : UUID) (q : UserRequest)
    : DB Office (Response Reply) :=
  match q with
  | UsCreateTask body => CreateTaskUser now fresh userID body
  | UsTasks repoID status => ListTasksUser repoID status
  | UsHistory repoID limit offset => TaskHistory repoID limit offset
  | UsTask id => GetTaskUser id
  | UsPlanAction id body => PlanAction id body
  | UsDiffs id full => GetDiffsUser id full
  | UsDiffContent diffId => GetDiffContent diffId
  | UsDiffComment diffId body => UserDiffComment now fresh userID diffId body
  | UsDiffAction id body => DiffAction id body
  | UsRate id body => RateTaskUser now id body
  | UsRetry id => RetryTask id
  | UsCancel id => CancelTask id
  | UsDelete id => DeleteTaskUser id
  | UsTaskAgents id => GetTaskAgents id
  | UsAgents => ListAgentsUser
  | UsTeams => ListTeamsUser
  | UsOverview => SwarmHandler.SwarmOverview
  | UsSummary limit => HandleSelfHealSummary limit
  | UsEvents eventType severity provider limit offset =>
      HandleSelfHealEvents eventType severity provider limit offset
  | UsResolve id => HandleResolveEvent now id
  | UsReset provider => HandleResetCircuit now provider
  | UsCircuits => HandleListCircuits
  | UsInsights taskID repoID category limit =>
      HandleInsightRecallPublic taskID repoID category limit
  | UsLeaderboard repoID limit => HandleRoleELOLeaderboard repoID limit
  | UsRoleHistory role repoID limit => HandleRoleELOHistory role repoID limit
  end.

(** [RequireAgentToken] *)
Definition agent_request (now : Z) (fresh : UUID) (authorization : string) (q : AgentRequest)
    : DB Office (Response Reply) :=
  on_tokens (RequireAgentToken authSvc now authorization) ≫= fun r : result AgentClaims string =>
  match r with
  | Err e => mret (writeError 401 e)
  | Ok claims => serve_agent now fresh (Some claims) q
  end.

(** [auth.Middleware] *)
Definition user_request (now : Z) (fresh : UUID) (cred : Credentials) (q : UserRequest)
    : DB Office (Response Reply) :=
  match Jwt.Middleware jwtMgr now cred with
  | Err e => mret (writeError 401 e)
  | Ok claims => serve_user now fresh (c_UserID claims) q
  end.

(** [RequireServiceSecret] *)
Definition register_request (now : Z) (fresh jti : UUID) (secret : string)
    (body : option RegisterRequest) : DB Office (Response Reply) :=
  match RequireServiceSecret authSvc secret with
  | Some e => mret (writeError 403 e)
  | None => RegisterAgent authSvc registry now fresh jti body
  end.

(** ** Jobs *)

Definition consensus_outcome (taskID : string) (d : Decision) : TaskOutcome :=
  {| to_TaskID := taskID; to_HumanRating := 0; to_ConsensusConf := de_Confidence d;
     to_ConsensusStrategy := de_Strategy d; to_TestsPassed := false; to_PRAccepted := false;
     to_BuildSuccess := false; to_ConsensusWin := names_winner (de_Provider d) |}.

(** The goroutine of [ConsensusEvent]. *)
Definition learn (now : Z) (fresh : nat -> UUID) (taskID : string) (d : Decision)
    : DB Office unit :=
  match uuid_Parse taskID with
  | None => mret tt
  | Some tid =>
      on_world (GetTask tid) ≫= fun task : result Task string =>
      match task with
      | Err _ => mret tt
      | Ok task =>
          on_memory (ExtractAndStoreInsights now fresh (t_RepoID task) taskID d);;
          if is_set (de_AgentRole d) then
            _ ← on_ratings (RecordRoleOutcome now (de_AgentRole d) (t_RepoID task)
                              (consensus_outcome taskID d));
            mret tt
          else mret tt
      end
  end.

Definition run_job (now : Z) (fresh : nat -> UUID) (j : Job) : DB Office unit :=
  match j with
  | JobCreatePR taskID => ignoring (CreatePR now taskID)
  | JobConsensus taskID d => learn now fresh taskID d
  end.

(** The [k]-th job, if there is one, is taken and runs. *)
Definition next_job (now : Z) (fresh : nat -> UUID) (k : nat) : DB Office unit :=
  job ← reads (fun o => of_jobs o !! k);
  match job with
  | Some j => writes (set_jobs (delete k));; run_job now fresh j
  | None => mret tt
  end.

(** ** Steps *)

(** The loops of the task manager and of the self-healing service. *)
Inductive Background :=
  | BgMessages (now : Z) (setnx : UUID -> result bool string) (messages : list XMessage)
  | BgCleanup
  | BgTimeouts (now : Z)
  | BgHeartbeats (now : Z) (hb : UUID -> redis_get)
  | BgReconcile (now : Z) (hb : UUID -> redis_get)
  | BgReap (now : Z)
  | BgBreakers (o : sh_op)
  | BgHealCycle (now : Z).

Definition background_op (b : Background) : swarm_op :=
  match b with
  | BgMessages now setnx l => SwMessages now setnx l
  | BgCleanup => SwCleanup
  | BgTimeouts now => SwTimeouts now
  | BgHeartbeats now hb => SwHeartbeats now hb
  | BgReconcile now hb => SwReconcile now hb
  | BgReap now => SwReap now
  | BgBreakers o => SwBreakers o
  | BgHealCycle now => SwHealCycle now
  end.

(** [runCycle] of the janitor *)
Definition runCycle (now : Z) (pages : list (list string)) : DB Office unit :=
  on_world (killIdleTeams now);;
  on_world clearStaleHeartbeats;;
  ignoring (on_memory (PruneStaleMTM now MTMMaxAge));;
  ignoring (on_memory (PruneStaleInsights now InsightMaxAge));;
  on_world (cleanOrphanedSTM pages);;
  on_world (recycleOfflineAgents now).

Inductive SwarmStep :=
  | StRegister (now : Z) (fresh jti : UUID) (secret : string) (body : option RegisterRequest)
  | StAgent (now : Z) (fresh : UUID) (authorization : string) (q : AgentRequest)
  | StUser (now : Z) (fresh : UUID) (cred : Credentials) (q : UserRequest)
  | StJob (now : Z) (fresh : nat -> UUID) (k : nat)
  | StBackground (b : Background)
  | StDecay (now : Z)
  | StReviewTiers
  | StJanitor (now : Z) (pages : list (list string)).

Definition run_step (s : SwarmStep) : DB Office unit :=
  match s with
  | StRegister now fresh jti secret body =>
      _ ← register_request now fresh jti secret body; mret tt
  | StAgent now fresh authorization q => _ ← agent_request now fresh authorization q; mret tt
  | StUser now fresh cred q => _ ← user_request now fresh cred q; mret tt
  | StJob now fresh k => next_job now fresh k
  | StBackground b => on_world (run_swarm_op (background_op b))
  | StDecay now => _ ← on_ratings (ApplyDecay now); mret tt
  | StReviewTiers => on_ratings reviewTiers
  | StJanitor now pages => runCycle now pages
  end.

End routes.
