(* ===== verification/SwarmSafety.v ===== *)
(** * What requests, jobs and loops do to the swarm

    Whatever the order in which registrations, requests of agents and users, background jobs and
    the loops of the managers run, and whatever statements fail, the rows of the swarm stay of
    the types the code gives them and refer to rows that exist. *)

From Stdlib Require Import ZArith Lia Ascii String.
From stdpp Require Import base list gmap strings sorting.
From S2P Require Import Prelude GoStrings SwarmDb Db TeamManager TaskManager SelfHeal Swarm SwarmTypes GoFloat Ratings Sandbox Http Store Vcs Jwt SwarmAuth SwarmMemory SwarmOffice PrCreator SwarmHandler Janitor SwarmRoutes.
Local Open Scope string_scope.
Local Open Scope rtv_scope.
Local Open Scope Z_scope.

#[local] Existing Instance production.

(** ** The invariant *)

Record office_ok (o : Office) : Prop := {
  ok_world : world_ok (of_world o);
  ok_comments : map_Forall (fun _ c => is_Some (diffs (of_world o) !! dc_DiffID c)) (of_comments o);
  ok_contributions : map_Forall (fun _ c =>
      is_Some (tasks (of_world o) !! cn_TaskID c) /\
      forall a, cn_AgentID c = Some a -> is_Some (agents (of_world o) !! a)) (of_contributions o);
  ok_rated : forall id, is_Some (el_agents (of_ratings o) !! id) <->
                        is_Some (agents (of_world o) !! id);
  ok_roles : roles_ok (of_ratings o)
}.

(** What leaves the tables alone. *)
Lemma office_ok_same o o' :
  of_world o' = of_world o -> of_ratings o' = of_ratings o -> of_comments o' = of_comments o ->
  of_contributions o' = of_contributions o -> office_ok o -> office_ok o'.
Proof. intros Hw Hr Hc Hn [H1 H2 H3 H4 H5]. split; rewrite ?Hw, ?Hr, ?Hc, ?Hn; done. Qed.

(** *** Rating statements *)

(** The agents of the ratings, and the rows of the roles. *)
Definition ratings_ok (K : UUID -> Prop) (w : EloWorld) : Prop :=
  roles_ok w /\ forall id, is_Some (el_agents w !! id) <-> K id.

Definition agents_kept {A} (m : E A) : Prop :=
  forall w id, is_Some (el_agents (m w).2 !! id) <-> is_Some (el_agents w !! id).

Lemma agents_kept_ret {A} (a : A) : agents_kept (mret a).
Proof. done. Qed.
Lemma agents_kept_bind {A B} (m : E A) (f : A -> E B) :
  agents_kept m -> (forall a, agents_kept (f a)) -> agents_kept (m ≫= f).
Proof.
  intros Hm Hf w id. unfold mbind, E_bind. rewrite <- (Hm w id). destruct (m w) as [a w'].
  apply Hf.
Qed.
Lemma agents_kept_query {A} (f : EloWorld -> A) : agents_kept (elo_query f).
Proof. intros w id. unfold elo_query, next_fault. by destruct (el_faults w) as [|[] l]. Qed.
Lemma agents_kept_exec f :
  (forall w id, is_Some (el_agents (f w) !! id) <-> is_Some (el_agents w !! id)) ->
  agents_kept (elo_exec f).
Proof.
  intros Hf [r h a fs] id. unfold elo_exec, next_fault.
  destruct fs as [|[] l]; [exact (Hf _ id)|done|exact (Hf _ id)].
Qed.
Lemma agents_kept_alter g id : agents_kept (elo_exec (set_rated (alter g id))).
Proof.
  apply agents_kept_exec. intros w k. cbn. rewrite lookup_alter. case_decide; [|done].
  subst. by rewrite fmap_is_Some.
Qed.

Create HintDb ratings.
#[local] Hint Resolve agents_kept_ret agents_kept_query agents_kept_alter : ratings.

Ltac agents_kept :=
  repeat first
    [ solve [auto with ratings nocore]
    | match goal with
      | |- forall _, agents_kept _ => intro
      | |- agents_kept (mbind _ _) => apply agents_kept_bind
      | |- agents_kept (if ?b then _ else _) => destruct b
      | |- agents_kept (match ?x with _ => _ end) => destruct x
      | |- agents_kept (elo_exec _) => apply agents_kept_exec; intros; done
      end ].

(** The handlers behind the routes. *)
Ltac open_agent_handler :=
  unfold RevokeAgent, GetNextTask, GetTaskInternal, GetTaskStatus, SubmitPlan, SubmitDiff,
    ListDiffs, AddDiffComment, CompleteTask, FailTask, DeclareTeamSize, declared_team,
    RecordContribution, AgentMessage, DiscussionEvent, ConsensusEvent, Heartbeat,
    HandleMTMStore, HandleMTMRecall, HandleInsightStore, HandleInsightRecall,
    HandleProviderStats, HandleRoleELOOutcome, HandleGetRoleELO, HandleProviderOutcome,
    HandleProviderStatus, VCSReadFile, VCSListDir, resolved_repo.
Ltac open_user_handler :=
  unfold CreateTaskUser, slug_lookup, ListTasksUser, TaskHistory, ListTaskHistory, GetTaskUser,
    PlanAction, GetDiffsUser, ListDiffs, ListDiffsMeta, GetDiffContent, UserDiffComment,
    DiffAction, SwarmHandler.RetryTask, CancelTask, DeleteTaskUser, GetTaskAgents,
    ListAgentsUser, ListTeamsUser, SwarmHandler.SwarmOverview, GetOverview,
    HandleSelfHealSummary, HandleSelfHealEvents, HandleResolveEvent, HandleResetCircuit,
    HandleListCircuits, HandleInsightRecallPublic, HandleRoleELOLeaderboard, ListRoleELOs,
    HandleRoleELOHistory, GetRoleELOHistory.

Section safety.
Context `{RowOrder} `{UuidText} `{UnicodeTables} `{Postgres} `{Collation} `{Digest} `{AgentJwt} `{Jwt} `{MathPow} `{GenUUID} `{Driver} `{VaultReader} `{HostWrites}.

Lemma GetRoleELO_agents now role repoID : agents_kept (GetRoleELO now role repoID).
Proof. unfold GetRoleELO, fetchRoleELO. agents_kept. Qed.
#[local] Hint Resolve GetRoleELO_agents : ratings.
Lemma RecordRoleOutcome_agents now role repoID o : agents_kept (RecordRoleOutcome now role repoID o).
Proof. unfold RecordRoleOutcome, appendHistory. agents_kept. Qed.
Lemma RecordFeedback_agents id r : agents_kept (RecordFeedback id r).
Proof. unfold RecordFeedback. agents_kept. Qed.
Lemma IncrementTasksDone_agents id : agents_kept (IncrementTasksDone id).
Proof. unfold IncrementTasksDone. agents_kept. Qed.
Lemma TierForRole_agents role repoID : agents_kept (TierForRole role repoID).
Proof. unfold TierForRole. agents_kept. Qed.
Lemma decay_rows_agents now rows n : agents_kept (decay_rows now rows n).
Proof.
  revert n. induction rows as [|[[role repoID] re] rows IH]; intros n; [done|].
  cbn [decay_rows]. unfold appendHistory. agents_kept; apply IH.
Qed.
Lemma review_rows_agents rows : agents_kept (review_rows rows).
Proof.
  induction rows as [|[id a] rows IH]; [done|]. cbn [review_rows]. unfold review_row.
  agents_kept; apply IH.
Qed.
#[local] Hint Resolve decay_rows_agents review_rows_agents : ratings.
Lemma ApplyDecay_agents now : agents_kept (ApplyDecay now).
Proof. unfold ApplyDecay. agents_kept. Qed.
Lemma reviewTiers_agents : agents_kept reviewTiers.
Proof. unfold reviewTiers. agents_kept. Qed.

Lemma stays_on_ratings {A} (m : E A) Q :
  roles_kept m Q -> agents_kept m -> stays office_ok (on_ratings m).
Proof.
  intros Hr Ha [o fs] [Hwo Hco Hcn Hra Hro]. unfold on_ratings. cbn.
  specialize (Hr (lend_ratings fs (of_ratings o)) Hro) as [_ Hr].
  specialize (Ha (lend_ratings fs (of_ratings o))).
  destruct (m _) as [a e]. cbn in *. set (g := fun id a => Some (with_done a (el_agents e !! id))).
  assert (forall id, is_Some (map_imap g (agents (of_world o)) !! id) <->
                     is_Some (agents (of_world o) !! id)) as Hk.
  { intros id. rewrite map_lookup_imap. destruct (agents (of_world o) !! id); [|done].
    cbn. split; eauto. }
  split; cbn; [|done| |by intros id; rewrite Ha, Hra; symmetry; apply Hk|done].
  - destruct Hwo as (Href & Hb & Ht). split_and!; [|done|].
    + apply refs_set_agents; [|by intros id ?; apply Hk|done].
      intros k x' r. rewrite map_lookup_imap. destruct (agents (of_world o) !! k) as [x|]; [|done].
      cbn. intros [= <-] Hx. eauto.
    + apply typed_set_agents; [|done]. intros Hall k x. rewrite map_lookup_imap.
      destruct (agents (of_world o) !! k) as [y|] eqn:E; [|done]. cbn. intros [= <-].
      apply (Hall k y E).
  - intros k c Hc. destruct (Hcn k c Hc) as [Ht Hag]. split; [done|]. intros a' Ha'.
    apply Hk. eauto.
Qed.

(** *** The managers' operations *)

Lemma stays_send e : stays office_ok (send e).
Proof. apply stays_writes. intros o. by apply office_ok_same. Qed.
Lemma stays_start j : stays office_ok (start j).
Proof. apply stays_writes. intros o. by apply office_ok_same. Qed.
Lemma stays_on_tokens {A} (m : DB Tokens A) : stays office_ok (on_tokens m).
Proof.
  apply (stays_zoom _ _ _ (fun _ => True)); [done| |by intros r _].
  intros o t Ho _. by eapply office_ok_same, Ho.
Qed.
Lemma stays_on_memory {A} (m : DB Memory A) : stays office_ok (on_memory m).
Proof.
  apply (stays_zoom _ _ _ (fun _ => True)); [done| |by intros r _].
  intros o t Ho _. by eapply office_ok_same, Ho.
Qed.
Lemma stays_on_store {A} (m : DB Store A) : stays office_ok (on_store m).
Proof. apply (stays_zoom _ _ _ (fun _ => True)); [done|done|by intros r _]. Qed.
#[local] Hint Resolve stays_send stays_start stays_on_tokens stays_on_memory stays_on_store : stays.

Lemma stays_carry_out e : stays office_ok (carry_out e).
Proof. unfold carry_out. stay. apply stays_on_tokens. Qed.

Lemma with_world_ok w o :
  world_ok w -> office_ok o -> office_ok (with_world w o).
Proof.
  intros Hw [_ Hco Hcn Hra Hro]. split; cbn; [exact Hw| | | |exact Hro].
  - intros k c [_ Hc]%map_lookup_filter_Some. by apply bool_decide_eq_true in Hc.
  - intros k c. rewrite lookup_omap. intros (x & Hx & Hc)%bind_Some.
    unfold keep_contribution in Hc. destruct (tasks w !! cn_TaskID x) as [t|] eqn:Et; [|done].
    injection Hc as <-. cbn. split; [by rewrite Et; eauto|]. intros a (b & _ & Hb)%bind_Some.
    destruct (agents w !! b) as [y|] eqn:Eb; [|done]. injection Hb as <-. by rewrite Eb; eauto.
  - intros id. unfold rated_rows. rewrite map_lookup_imap.
    destruct (agents w !! id); cbn; [|done]. split; eauto.
Qed.

Lemma stays_on_world {A} (m : M A) : preserves world_ok m -> stays office_ok (on_world m).
Proof.
  intros Hm [o fs] Ho. unfold on_world. cbn [tables fails].
  pose proof (Hm (lend fs (of_world o)) (ok_world _ Ho)) as Hw.
  destruct (m _) as [a w]. cbn in Hw.
  assert (stays office_ok (every (effects w) carry_out;; mret a)) as Hs
    by (stay; apply stays_every, stays_carry_out).
  apply (Hs (MkRun (with_world w o) (faults w))). by apply with_world_ok.
Qed.

Lemma stays_calls {A} (m : M (result A string)) status :
  preserves world_ok m -> stays office_ok (calls m status).
Proof. intros Hm. by apply stays_or_reply, stays_on_world. Qed.

Lemma swarm_op_ok {A} (m : M A) o :
  op_typed o -> run_swarm_op o = (m;; mret tt) -> preserves world_ok m.
Proof. intros Ho E. apply preserves_result. rewrite <- E. by apply run_swarm_op_ok. Qed.
Lemma GetTask_world id : preserves world_ok (GetTask id).
Proof. unfold GetTask. preserve. Qed.
Lemma ListTasks_ok r s n : preserves world_ok (ListTasks r s n).
Proof. unfold ListTasks. preserve. Qed.
Lemma ListDiffs_ok id : preserves world_ok (TaskManager.ListDiffs id).
Proof. unfold TaskManager.ListDiffs. preserve. Qed.
Lemma GetDiff_ok id : preserves world_ok (GetDiff id).
Proof. unfold GetDiff. preserve. Qed.
Lemma AgentsForTask_ok id : preserves world_ok (AgentsForTask id).
Proof. unfold AgentsForTask. preserve. Qed.
Lemma GetTaskAgents_ok id : preserves world_ok (TaskManager.GetTaskAgents id).
Proof. unfold TaskManager.GetTaskAgents. preserve. Qed.
Lemma ListAgents_ok s : preserves world_ok (ListAgents s).
Proof. unfold ListAgents. preserve. Qed.
Lemma ListTeams_ok : preserves world_ok ListTeams.
Proof. unfold ListTeams. preserve. Qed.
Lemma IsProviderAvailable_ok p : preserves world_ok (IsProviderAvailable p).
Proof. unfold IsProviderAvailable. preserve. Qed.
Lemma GetProviderState_ok p : preserves world_ok (GetProviderState p).
Proof. unfold GetProviderState. preserve. Qed.
Lemma listCircuitStates_ok : preserves world_ok listCircuitStates.
Proof. unfold listCircuitStates. preserve. Qed.
Lemma GetSummary_ok n : preserves world_ok (GetSummary n).
Proof. unfold GetSummary, listCircuitStates, listRecentEvents, count_or_zero. preserve. Qed.
Lemma GetEvents_ok a b c n m : preserves world_ok (GetEvents a b c n m).
Proof. unfold GetEvents. preserve. Qed.

Lemma SetPlan_ok id p : preserves world_ok (SetPlan id p).
Proof. by apply (swarm_op_ok _ (SwSetPlan id p)). Qed.
Lemma AddDiff_ok id now t d : preserves world_ok (AddDiff id now t d).
Proof. by apply (swarm_op_ok _ (SwAddDiff id now t d)). Qed.
Lemma CompleteTask_ok now id : preserves world_ok (TaskManager.CompleteTask now id).
Proof. by apply (swarm_op_ok _ (SwCompleteTask now id)). Qed.
Lemma FailTask_ok now id r : preserves world_ok (TaskManager.FailTask now id r).
Proof. by apply (swarm_op_ok _ (SwFailTask now id r)). Qed.
Lemma AssignTaskToTeam_ok now id t : preserves world_ok (AssignTaskToTeam now id t).
Proof. by apply (swarm_op_ok _ (SwAssign now id t)). Qed.
Lemma ScaleTeam_ok t n : preserves world_ok (ScaleTeam t n).
Proof. by apply (swarm_op_ok _ (SwTeam (OpScale t n))). Qed.
Lemma Heartbeat_ok now a : preserves world_ok (TaskManager.Heartbeat now a).
Proof. by apply (swarm_op_ok _ (SwHeartbeat now a)). Qed.
Lemma RegisterAgent_ok now a role t tn h v :
  preserves world_ok (TeamManager.RegisterAgent now a role t tn h v).
Proof. by apply (swarm_op_ok _ (SwTeam (OpRegister now a role t tn h v))). Qed.
Lemma CreateTask_ok id now l r t d u : preserves world_ok (CreateTask id now l r t d u).
Proof. by apply (swarm_op_ok _ (SwCreateTask id now l r t d u)). Qed.
Lemma UpdateStatus_ok id s :
  one_of task_statuses s = true -> preserves world_ok (UpdateStatus id s).
Proof. intros Hs. by apply (swarm_op_ok _ (SwUpdateStatus id s)). Qed.
Lemma RateTask_ok id r c : 1 <= r <= 5 -> preserves world_ok (RateTask id r c).
Proof. intros Hr. by apply (swarm_op_ok _ (SwRateTask id r c)). Qed.
Lemma RetryTask_ok id : preserves world_ok (TaskManager.RetryTask id).
Proof. by apply (swarm_op_ok _ (SwRetry id)). Qed.
Lemma ReleaseTeam_ok t : preserves world_ok (ReleaseTeam t).
Proof. apply (run_swarm_op_ok (SwTeam (OpRelease t)) I). Qed.
Lemma DeleteTask_ok id : preserves world_ok (DeleteTask id).
Proof. by apply (swarm_op_ok _ (SwDeleteTask id)). Qed.
Lemma RecordProviderOutcome_ok now now' r : preserves world_ok (RecordProviderOutcome now now' r).
Proof. apply (run_swarm_op_ok (SwBreakers (SelfHeal.OpOutcome now now' r)) I). Qed.
Lemma ResolveEvent_ok now id : preserves world_ok (ResolveEvent now id).
Proof. by apply (swarm_op_ok _ (SwResolveEvent now id)). Qed.
Lemma ResetCircuit_ok now p : preserves world_ok (ResetCircuit now p).
Proof. by apply (swarm_op_ok _ (SwBreakers (OpReset now p))). Qed.

#[local] Hint Resolve GetTask_world ListTasks_ok ListDiffs_ok GetDiff_ok AgentsForTask_ok
  GetTaskAgents_ok ListAgents_ok ListTeams_ok IsProviderAvailable_ok GetProviderState_ok
  listCircuitStates_ok GetSummary_ok GetEvents_ok SetPlan_ok AddDiff_ok CompleteTask_ok
  FailTask_ok AssignTaskToTeam_ok ScaleTeam_ok Heartbeat_ok RegisterAgent_ok CreateTask_ok
  RetryTask_ok ReleaseTeam_ok DeleteTask_ok RecordProviderOutcome_ok ResolveEvent_ok
  ResetCircuit_ok killIdleTeams_ok clearStaleHeartbeats_ok cleanOrphanedSTM_ok
  recycleOfflineAgents_ok : world.
#[local] Hint Extern 1 (preserves world_ok (UpdateStatus _ _)) =>
  apply UpdateStatus_ok; reflexivity : world.

(** *** The ratings' operations and the other statements *)

Lemma stays_rate {A} (m : E A) :
  (exists Q, roles_kept m Q) -> agents_kept m -> stays office_ok (on_ratings m).
Proof. intros [Q HQ]. by apply stays_on_ratings with Q. Qed.

Lemma stays_GetRoleELO now role repoID : stays office_ok (on_ratings (GetRoleELO now role repoID)).
Proof. eapply stays_on_ratings; [apply GetRoleELO_kept|apply GetRoleELO_agents]. Qed.
Lemma stays_RecordRoleOutcome now role repoID o :
  stays office_ok (on_ratings (RecordRoleOutcome now role repoID o)).
Proof. eapply stays_on_ratings; [apply RecordRoleOutcome_kept|apply RecordRoleOutcome_agents]. Qed.
Lemma stays_RecordFeedback id r : stays office_ok (on_ratings (RecordFeedback id r)).
Proof. eapply stays_on_ratings; [apply RecordFeedback_kept|apply RecordFeedback_agents]. Qed.
Lemma stays_IncrementTasksDone id : stays office_ok (on_ratings (IncrementTasksDone id)).
Proof.
  eapply (stays_on_ratings _ (fun _ => True)); [by apply roles_kept_rated|].
  apply IncrementTasksDone_agents.
Qed.
Lemma stays_TierForRole role repoID : stays office_ok (on_ratings (TierForRole role repoID)).
Proof.
  eapply (stays_on_ratings _ (fun _ => True)); [|apply TierForRole_agents].
  eapply (roles_kept_bind _ _ (fun _ => True)); [by apply roles_kept_query|].
  intros [[re|]|e] _; by apply roles_kept_ret.
Qed.
Lemma stays_rating_query {A} (f : EloWorld -> A) : stays office_ok (on_ratings (elo_query f)).
Proof.
  eapply (stays_on_ratings _ (fun _ => True)); [by apply roles_kept_query|apply agents_kept_query].
Qed.
Lemma stays_ApplyDecay now : stays office_ok (on_ratings (ApplyDecay now)).
Proof. eapply stays_on_ratings; [apply ApplyDecay_kept|apply ApplyDecay_agents]. Qed.
Lemma stays_reviewTiers : stays office_ok (on_ratings reviewTiers).
Proof.
  eapply (stays_on_ratings _ (fun _ => True)); [|apply reviewTiers_agents].
  eapply (roles_kept_bind _ _ (fun _ => True)); [by apply roles_kept_query|].
  intros [rows|e] _; [apply review_rows_kept|by apply roles_kept_ret].
Qed.
#[local] Hint Resolve stays_GetRoleELO stays_RecordRoleOutcome stays_RecordFeedback
  stays_IncrementTasksDone stays_TierForRole stays_rating_query stays_ApplyDecay
  stays_reviewTiers : stays.

Lemma stays_new_comment id c o :
  is_Some (diffs (of_world o) !! dc_DiffID c) -> office_ok o ->
  office_ok (set_comments <[id := c]> o).
Proof.
  intros Hd [Hwo Hco Hcn Hra Hro]. split; try done. cbn. by apply map_Forall_insert_2.
Qed.
Lemma stays_AddDiffComment now id d c : stays office_ok (SwarmOffice.AddDiffComment now id d c).
Proof.
  unfold SwarmOffice.AddDiffComment. stay. intros o Ho Hg. apply stays_new_comment; [|done].
  rewrite !andb_true_iff, !bool_decide_eq_true in Hg. by destruct Hg as (((((_ & Hd) & _) & _) & _) & _).
Qed.
Lemma stays_RecordAgentContribution id t a r p c n m k :
  stays office_ok (RecordAgentContribution id t a r p c n m k).
Proof.
  unfold RecordAgentContribution. stay. intros o [Hwo Hco Hcn Hra Hro] Hg.
  rewrite !andb_true_iff, !bool_decide_eq_true in Hg.
  destruct Hg as ((((((((_ & Ht) & Ha) & _) & _) & _) & _) & _) & _).
  split; try done. cbn. apply map_Forall_insert_2; [|done]. cbn. split; [done|].
  by intros ? [= <-].
Qed.
Lemma stays_db_query {A} (f : Office -> A) : stays office_ok (Db.query f).
Proof. apply stays_query. Qed.
#[local] Hint Resolve stays_AddDiffComment stays_RecordAgentContribution : stays.

Ltac office :=
  repeat first
    [ progress handler
    | match goal with
      | |- stays _ (calls _ _) => apply stays_calls; solve [auto with world]
      | |- stays _ (on_world _) => apply stays_on_world; solve [auto with world]
      | |- stays _ (every _ _) => apply stays_every
      | |- stays _ (task_id _) => apply stays_require
      | |- stays _ (diff_id _) => apply stays_require
      | |- stays _ (decoded _) => apply stays_require
      | |- stays _ (reply _ _) => apply stays_ret
      | |- stays _ (scanned _ _) => unfold scanned
      end ].

Lemma serve_agent_ok now fresh claims q : stays office_ok (serve_agent now fresh claims q).
Proof. destruct q; cbn [serve_agent]; open_agent_handler; office. Qed.

Lemma stays_rate_all now id t r : stays office_ok (rate_all now id t r).
Proof. unfold rate_all, rated_agents, resolveAgentRoles. office. Qed.
#[local] Hint Resolve stays_rate_all : stays.

Lemma RateTaskUser_ok now id body : stays office_ok (RateTaskUser now id body).
Proof.
  unfold RateTaskUser. apply stays_respond, stays_try; [office|]. intros taskID.
  apply stays_try; [office|]. intros [r c]. unfold unless. cbn [fst snd].
  destruct ((r <? 1) || (5 <? r)) eqn:E; [apply stays_ret|]. rewrite try_ok.
  apply stays_try; [|intros u; office]. apply stays_calls, RateTask_ok.
  apply orb_false_elim in E as [?%Z.ltb_ge ?%Z.ltb_ge]. lia.
Qed.

Lemma serve_user_ok now fresh userID q : stays office_ok (serve_user now fresh userID q).
Proof.
  destruct q; cbn [serve_user]; try apply RateTaskUser_ok; open_user_handler; office.
Qed.

Lemma stays_or_fail {A} id p (m : DBE Office A) :
  stays office_ok m -> stays office_ok (or_fail id p m).
Proof.
  intros Hm. unfold or_fail, failPR, broadcastPREvent. apply stays_bind; [done|].
  intros [a|e]; office.
Qed.
Lemma stays_asks {A} e (r : result A string) : stays office_ok (asks e r).
Proof. unfold asks. office. Qed.
Lemma stays_host {A} (r : result A string) : stays office_ok (host r).
Proof. apply stays_ret. Qed.
Lemma with_pr_ok id url n : preserves world_ok (exec_ (set_tasks (alter (with_pr url n) id))).
Proof.
  preserve. match goal with Hw : world_ok _ |- _ => destruct Hw as (Hr & Hb & Ht) end.
  split_and!.
  - apply refs_set_tasks; [apply refs_alter; by intros []|apply keys_alter|done].
  - by apply retries_alter.
  - apply typed_set_tasks; [|done]. apply all_alter. intros t [_ ?]. by split.
Qed.
#[local] Hint Resolve with_pr_ok : world.

Ltac publishing :=
  repeat first
    [ progress office
    | match goal with
      | |- stays _ (or_fail _ _ _) => apply stays_or_fail
      | |- stays _ (asks _ _) => apply stays_asks
      | |- stays _ (host _) => apply stays_host
      | |- stays _ (failPR _ _) => unfold failPR, broadcastPREvent
      | |- stays _ (broadcastPREvent _ _) => unfold broadcastPREvent
      end ].

Lemma commit_all_ok creds owner repo branch id l :
  stays office_ok (commit_all creds owner repo branch id l).
Proof. induction l as [|d l IH]; cbn [commit_all]; publishing; exact IH. Qed.
#[local] Hint Resolve commit_all_ok : stays.

Lemma CreatePR_ok now id : stays office_ok (CreatePR now id).
Proof. unfold CreatePR, publish. publishing. Qed.

Lemma run_job_ok now fresh j : stays office_ok (run_job now fresh j).
Proof.
  destruct j; cbn [run_job]; [apply stays_ignoring, CreatePR_ok|]. unfold learn. office.
Qed.

Variable authSvc : Service.
Variable registry : Registry.
Variable jwtMgr : JWTManager.

Lemma run_step_ok s : stays office_ok (run_step authSvc registry jwtMgr s).
Proof.
  destruct s; cbn [run_step].
  - unfold register_request, SwarmHandler.RegisterAgent. office.
  - unfold agent_request. office. apply serve_agent_ok.
  - unfold user_request. office. apply serve_user_ok.
  - unfold next_job. apply stays_bind; [apply stays_reads|]. intros [j|]; [|apply stays_ret].
    apply stays_bind; [apply stays_writes; intros o; by apply office_ok_same|].
    intros _. apply run_job_ok.
  - apply stays_on_world, run_swarm_op_ok. by destruct b.
  - office.
  - office.
  - unfold runCycle. office.
Qed.

(** C1: The rows of the swarm keep their types.  Whatever the order of registrations, requests of
    agents and users, background jobs, loops of the managers, passes over the ratings and of the
    janitor, and whatever statements fail on the way: the status of every task, team and agent
    is one the code names, a diff is pending, a rating is from 1 to 5, a task is retried at most
    three times, and the ratings of the roles are as [role_ok] says.  These references lead to
    rows that exist: the team of a task and of an agent, the task and the agent of a diff, the
    diff of a comment, the task and the agent of a contribution.  Not claimed, since the code
    does not see to it: the members that a team lists and the rows that events of the
    self-healing name may be gone. *)
Theorem swarm_stays_typed steps :
  stays office_ok (every steps (run_step authSvc registry jwtMgr)).
Proof. apply stays_every, run_step_ok. Qed.

End safety.
