(* ===== verification/SwarmAccess.v ===== *)
(** * Which agents of the swarm are let in

    An agent that registers passes with the token it gets until the token expires; when its task
    completes or fails it is locked out at once; when its task is cancelled or deleted it is
    not. *)

From Stdlib Require Import ZArith Lia Ascii String.
From stdpp Require Import base list gmap strings sorting.
From S2P Require Import Prelude GoStrings SwarmDb Db TeamManager TaskManager SelfHeal Swarm GoFloat Ratings Sandbox Http Store Vcs Jwt SwarmAuth SwarmMemory SwarmOffice PrCreator SwarmHandler Janitor SwarmRoutes SwarmSafety.
Local Open Scope string_scope.
Local Open Scope rtv_scope.
Local Open Scope Z_scope.

#[local] Existing Instance production.

Section access.
Context `{RowOrder} `{UuidText} `{UnicodeTables} `{Postgres} `{Collation} `{Digest} `{AgentJwt} `{Jwt} `{MathPow} `{GenUUID} `{Driver} `{VaultReader} `{HostWrites}.
Variable authSvc : Service.
Variable registry : Registry.

(** ** Who is locked out *)

(** The token of a key is gone, and no operation of the managers brings it back. *)
Definition token_gone (key : string) (o : Office) : Prop := of_tokens o !! key = None.

Lemma gone_send key e : stays (token_gone key) (send e).
Proof. by apply stays_writes. Qed.
Lemma gone_carry_out key e : stays (token_gone key) (carry_out e).
Proof.
  unfold carry_out. apply stays_bind; [apply gone_send|]. intros _.
  destruct e; try apply stays_ret. apply stays_ignoring.
  apply (stays_zoom _ _ _ (fun t => t !! key = None)); [done|done|].
  apply stays_statement. intros t Ht. apply lookup_delete_None. by right.
Qed.
Lemma gone_on_world {A} key (m : M A) : stays (token_gone key) (on_world m).
Proof.
  intros [o fs] Ho. unfold on_world. cbn [tables fails]. destruct (m _) as [a w].
  assert (stays (token_gone key) (every (effects w) carry_out;; mret a)) as Hs
    by (stay; apply stays_every, gone_carry_out).
  by apply (Hs (MkRun (with_world w o) (faults w))).
Qed.
Lemma gone_on_ratings {A} key (m : E A) : stays (token_gone key) (on_ratings m).
Proof. intros [o fs] Ho. unfold on_ratings. cbn. by destruct (m _). Qed.
#[local] Hint Resolve gone_send gone_on_world gone_on_ratings : stays.

(** What an effect does when Redis answers. *)
Definition carried (e : Effect) (o : Office) : Office :=
  let o := set_sent (fun l => l ++ [SentEffect e])%list o in
  match e with
  | SwarmDb.Revoke id => set_tokens (delete (redisKey (uuid_String id)) (of_tokens o)) o
  | _ => o
  end.

Lemma every_carried l o :
  every l carry_out (quiet o) = (tt, quiet (fold_left (fun o e => carried e o) l o)).
Proof.
  revert o. induction l as [|e l IH]; intros o; [done|]. cbn [every fold_left].
  assert (carry_out e (quiet o) = (tt, quiet (carried e o))) as E by (by destruct e).
  unfold mbind, DB_bind. rewrite E. apply IH.
Qed.

Lemma carried_gone key l o :
  token_gone key o -> token_gone key (fold_left (fun o e => carried e o) l o).
Proof.
  intros Ho. pose proof (every_carried l o) as E.
  pose proof (stays_every (token_gone key) l carry_out (gone_carry_out key) (quiet o) Ho) as Hs.
  by rewrite E in Hs.
Qed.

Lemma carried_revoked a l o :
  SwarmDb.Revoke a ∈ l -> token_gone (redisKey (uuid_String a)) (fold_left (fun o e => carried e o) l o).
Proof.
  revert o. induction l as [|e l IH]; intros o; [by intros ?%not_elem_of_nil|].
  intros [<-|Hin]%elem_of_cons; cbn [fold_left]; [|by apply IH].
  apply carried_gone. unfold token_gone. cbn. apply lookup_delete_eq.
Qed.

Lemma on_world_quiet {A} (m : M A) o a w :
  m (lend [] (of_world o)) = (a, w) -> faults w = [] ->
  on_world m (quiet o) =
  (a, quiet (fold_left (fun o e => carried e o) (effects w) (with_world w o))).
Proof.
  intros Em Hf. unfold on_world. change (tables (quiet o)) with o.
  change (fails (quiet o)) with (@nil bool). rewrite Em, Hf.
  change (MkRun (with_world w o) []) with (quiet (with_world w o)). unfold mbind, DB_bind.
  by rewrite every_carried.
Qed.

#[local] Instance no_faults_inv : TableInv no_faults.
Proof. split; unfold no_faults; [|done]. by intros w; cbn; intros ->. Qed.

Lemma release_team_of_no_faults r : preserves no_faults (release_team_of r).
Proof. unfold release_team_of, revokeTeamTokens, revoke_agent, ReleaseTeam. preserve; done. Qed.
Lemma CompleteTask_no_faults now id : preserves no_faults (TaskManager.CompleteTask now id).
Proof.
  unfold TaskManager.CompleteTask, GetTask. preserve; try done. apply release_team_of_no_faults.
Qed.
Lemma FailTask_no_faults now id reason : preserves no_faults (TaskManager.FailTask now id reason).
Proof.
  unfold TaskManager.FailTask, GetTask, broadcast_task. preserve; try done.
  apply release_team_of_no_faults.
Qed.

(** The end of a task revokes the token of an agent of its team. *)
Lemma end_revokes {A} (m : M (result A string)) t' v o id team a x :
  m (lend [] (of_world o)) = (Ok v, (m (lend [] (of_world o))).2) ->
  preserves no_faults m -> ended id t' (lend [] (of_world o)) (m (lend [] (of_world o))).2 ->
  t_AssignedTeamID t' = Some team -> agents (of_world o) !! a = Some x -> a_TeamID x = Some team ->
  exists o1, calls m 500 (quiet o) = (Ok v, quiet o1) /\ token_gone (redisKey (uuid_String a)) o1.
Proof.
  intros Em Hn [_ He] Ht Ha Hx. pose proof (Hn (lend [] (of_world o)) eq_refl) as Hf.
  eexists. split.
  - unfold calls. by rewrite (or_reply_run _ _ _ _ _ (on_world_quiet m o _ _ Em Hf)).
  - apply carried_revoked. destruct (He team Ht) as (_ & _ & Hr). by apply (Hr eq_refl a x).
Qed.

(** The requests that end a task, and what they do when it is at work. *)
Definition ends_task (now : Z) (ids : string) (h : DB Office (Response Reply)) : Prop :=
  h = CompleteTask now ids \/ exists reason, h = FailTask now ids (Some reason).

Lemma ends_task_run now ids id t team a x o h :
  ends_task now ids h -> uuid_Parse ids = Some id -> tasks (of_world o) !! id = Some t ->
  t_AssignedTeamID t = Some team -> agents (of_world o) !! a = Some x -> a_TeamID x = Some team ->
  code (h (quiet o)).1 = 200 /\ token_gone (redisKey (uuid_String a)) (tables (h (quiet o)).2).
Proof.
  intros Hh Hid Ht Hteam Ha Hx. assert (no_faults (lend [] (of_world o))) as Hf by done.
  destruct Hh as [->|[reason ->]].
  - destruct (CompleteTask_spec now id t (lend [] (of_world o)) Hf Ht) as [Hok He].
    edestruct (end_revokes (TaskManager.CompleteTask now id)) as (o1 & E & Hg);
      [by rewrite <- Hok, <- surjective_pairing|apply CompleteTask_no_faults|exact He|done..|].
    set (rest := agentIDs ← on_world (AgentsForTask id);
       every match agentIDs with Ok l => l | Err _ => [] end
         (fun agentID => _ ← on_ratings (IncrementTasksDone agentID); mret tt);;
       send (SentTask "completed" (uuid_String id));;
       reply 200 (RStatus "completed")).
    assert (ensures (token_gone (redisKey (uuid_String a))) rest
      (fun x o' => x = Ok (writeJSON 200 (RStatus "completed")) /\
                   token_gone (redisKey (uuid_String a)) o')) as Hrest.
    { eapply ensures_bind; [apply gone_on_world|]. intros r.
      eapply ensures_bind; [apply stays_every; intros b; stay|]. intros u.
      eapply ensures_bind; [apply gone_send|]. intros u'. by apply ensures_ret. }
    specialize (Hrest (quiet o1) Hg). destruct (rest (quiet o1)) as [y r] eqn:Er.
    cbn [fst snd] in Hrest. destruct Hrest as [-> Hg'].
    assert (CompleteTask now ids (quiet o) = (writeJSON 200 (RStatus "completed"), r)) as ->;
      [|done].
    apply (respond_run _ _ (Ok (writeJSON 200 (RStatus "completed")))).
    unfold task_id. rewrite Hid. cbn [require]. rewrite try_ok, (try_run _ _ _ _ _ E). exact Er.
  - set (text := if is_set reason then reason else "agent reported failure").
    destruct (FailTask_spec now id text t (lend [] (of_world o)) Hf Ht) as [Hok He].
    edestruct (end_revokes (TaskManager.FailTask now id text)) as (o1 & E & Hg);
      [by rewrite <- Hok, <- surjective_pairing|apply FailTask_no_faults|exact He|done..|].
    assert (FailTask now ids (Some reason) (quiet o) = (writeJSON 200 (RStatus "failed"), quiet o1))
      as ->; [|done].
    apply (respond_run _ _ (Ok (writeJSON 200 (RStatus "failed")))).
    unfold task_id, decoded. rewrite Hid. cbn [require]. rewrite !try_ok. fold text.
    by rewrite (try_run _ _ _ _ _ E).
Qed.

Definition is_err {A E} (r : result A E) : Prop := match r with Ok _ => False | Err _ => True end.

Lemma revoked_invalid s now tokenStr c :
  parse_agent (sv_jwtSecret s) now tokenStr = Ok c ->
  ensures (fun t : Tokens => t !! redisKey (ac_Subject c) = None)
    (SwarmAuth.ValidateToken s now tokenStr) (fun x _ => is_err x).
Proof.
  intros Hp. unfold SwarmAuth.ValidateToken. rewrite Hp.
  destruct (negb _); [by apply ensures_ret|].
  eapply ensures_try with (R := fun rec _ => rec = None).
  - apply ensures_wrapping, ensures_query; intros t Ht; cbn [wrap_err]; [|done].
    unfold live_record. by rewrite Ht.
  - intros rec r Hr. by rewrite Hr.
Qed.

Lemma refused_token now authorization c :
  parse_agent (sv_jwtSecret authSvc) now (SwarmAuth.extractBearerToken authorization) = Ok c ->
  ensures (token_gone (redisKey (ac_Subject c)))
    (on_tokens (RequireAgentToken authSvc now authorization)) (fun x _ => is_err x).
Proof.
  intros Hp r Hr. unfold on_tokens, zoom.
  assert (ensures (fun t : Tokens => t !! redisKey (ac_Subject c) = None)
            (RequireAgentToken authSvc now authorization) (fun x _ => is_err x)) as He.
  { unfold RequireAgentToken. destruct (String.eqb _ ""); [by apply ensures_ret|].
    eapply ensures_bind; [by apply revoked_invalid|]. intros [u|e]; by apply ensures_ret. }
  specialize (He (MkRun (of_tokens (tables r)) (fails r)) Hr).
  by destruct (RequireAgentToken _ _ _ _) as [y r'].
Qed.

(** C20: When a task ends, its team is locked out: once the request that completes or fails a task
    is answered without a fault on the way, every request of the agent routes of [AgentRequest]
    with a token whose subject is the identifier of an agent of the task's team, in the canonical
    spelling, is refused with 401, whatever it asks for and whatever fails then.  The spelling
    matters: a token issued for another spelling of the identifier stays good (Example
    SwarmPublish.[spelling_escapes_revocation]). *)
Theorem finished_task_locks_team_out now later fresh ids id t team a x c authorization q o h :
  ends_task now ids h ->
  uuid_Parse ids = Some id -> tasks (of_world o) !! id = Some t ->
  t_AssignedTeamID t = Some team -> agents (of_world o) !! a = Some x -> a_TeamID x = Some team ->
  parse_agent (sv_jwtSecret authSvc) later (SwarmAuth.extractBearerToken authorization) = Ok c ->
  ac_Subject c = uuid_String a ->
  let '(resp, r) := h (quiet o) in
  code resp = 200 /\
  forall faults, code (agent_request authSvc later fresh authorization q
                         (MkRun (tables r) faults)).1 = 401.
Proof.
  intros Hh Hid Ht Hteam Ha Hx Hp Hs.
  pose proof (ends_task_run now ids id t team a x o h Hh Hid Ht Hteam Ha Hx) as [Hc Hg].
  destruct (h (quiet o)) as [resp r]. cbn [fst snd] in Hc, Hg. split; [done|]. intros fs.
  rewrite <- Hs in Hg.
  pose proof (refused_token later authorization c Hp (MkRun (tables r) fs) Hg) as He.
  unfold agent_request, mbind, DB_bind. destruct (on_tokens _ _) as [[u|e] r']; [done|].
  reflexivity.
Qed.

(** ** Who stays let in *)

(** The operations that emit nothing. *)
Definition silent {A} (m : M A) : Prop := forall w, effects (m w).2 = effects w.

Lemma silent_ret {A} (a : A) : silent (mret a : M A).
Proof. done. Qed.
Lemma silent_bind {A B} (m : M A) (f : A -> M B) :
  silent m -> (forall a, silent (f a)) -> silent (m ≫= f).
Proof.
  intros Hm Hf w. unfold mbind, M_bind. rewrite <- (Hm w). destruct (m w) as [a w'].
  apply Hf.
Qed.
Lemma silent_exec rows f : (forall w, effects (f w) = effects w) -> silent (exec rows f).
Proof. intros Hf w. unfold exec. cbn. case_match; cbn; [done|]. by rewrite Hf. Qed.
Lemma silent_exec_ f : (forall w, effects (f w) = effects w) -> silent (exec_ f).
Proof. intros Hf. apply silent_bind; [by apply silent_exec|]. intros a. apply silent_ret. Qed.
Lemma silent_query {A} (f : World -> A) : silent (SwarmDb.query f).
Proof. intros w. unfold SwarmDb.query. cbn. by case_match. Qed.

Lemma GetTask_silent id : silent (GetTask id).
Proof.
  apply silent_bind; [apply silent_query|]. intros [[t|]|e]; apply silent_ret.
Qed.
Lemma UpdateStatus_silent id st : silent (UpdateStatus id st).
Proof.
  apply silent_bind; [by apply silent_exec|]. intros [n|e]; [case_match|]; apply silent_ret.
Qed.
Lemma DeleteTask_silent id : silent (DeleteTask id).
Proof.
  apply silent_bind; [by apply silent_exec|]. intros [n|e]; [case_match|]; apply silent_ret.
Qed.
Lemma ReleaseTeam_silent team : silent (ReleaseTeam team).
Proof. apply silent_bind; [by apply silent_exec_|]. intros u. by apply silent_exec_. Qed.

Lemma silent_keeps_tokens {A} k (m : M A) :
  silent m -> stays (fun o => of_tokens o = k) (on_world m).
Proof.
  intros Hm [o fs] Ho. unfold on_world. cbn [tables fails].
  specialize (Hm (lend fs (of_world o))). destruct (m _) as [a w]. cbn in Hm. by rewrite Hm.
Qed.

(** Cancelling or deleting a task locks nobody out: the requests release the team, but
    whatever fails, every token that Redis keeps stays as it is. *)
Theorem cancelled_team_keeps_tokens ids r :
  of_tokens (tables (CancelTask ids r).2) = of_tokens (tables r) /\
  of_tokens (tables (DeleteTaskUser ids r).2) = of_tokens (tables r).
Proof.
  set (I := fun o => of_tokens o = of_tokens (tables r)).
  assert (forall A (m : M (result A string)) status, silent m -> stays I (calls m status)) as Hc
    by (intros; by apply stays_or_reply, silent_keeps_tokens).
  assert (forall e, stays I (send e)) as Hs by (intros e; by apply stays_writes).
  assert (forall id, stays I (task_id id)) as Ht by (intros; apply stays_require).
  assert (forall team, stays I (on_world (ReleaseTeam team))) as Hr
    by (intros; apply silent_keeps_tokens, ReleaseTeam_silent).
  enough (stays I (CancelTask ids) /\ stays I (DeleteTaskUser ids)) as [Ha Hb]
    by (split; [by apply (Ha r)|by apply (Hb r)]).
  split; [unfold CancelTask|unfold DeleteTaskUser]; handler;
    auto using GetTask_silent, UpdateStatus_silent, DeleteTask_silent; apply stays_ret.
Qed.

(** ** Who is let in *)

Lemma yields_any {A} (m : M A) :
  preserves no_faults m -> yields (fun _ => True) (on_world m) (fun _ _ => True).
Proof.
  intros Hm o _. destruct (m (lend [] (of_world o))) as [a w] eqn:E.
  pose proof (Hm (lend [] (of_world o)) eq_refl) as Hf. rewrite E in Hf.
  eexists a, _. split; [by apply on_world_quiet|done].
Qed.

Lemma RegisterAgent_no_faults now a role t tn h v :
  preserves no_faults (TeamManager.RegisterAgent now a role t tn h v).
Proof. unfold TeamManager.RegisterAgent. preserve; done. Qed.
Lemma Heartbeat_no_faults now a : preserves no_faults (TaskManager.Heartbeat now a).
Proof. unfold TaskManager.Heartbeat. preserve; done. Qed.

Lemma yields_TierForRole k role repoID :
  yields (fun o => of_tokens o = k) (on_ratings (TierForRole role repoID))
    (fun _ o => of_tokens o = k).
Proof.
  intros o Ho. unfold on_ratings, TierForRole, mbind, E_bind, elo_query, next_fault. cbn.
  destruct (el_roles (of_ratings o) !! _) as [re|]; by do 2 eexists.
Qed.

Lemma extract_bearer token : SwarmAuth.extractBearerToken ("Bearer " ++ token) = token.
Proof. reflexivity. Qed.

(** The token that a registration issues, and the record it leaves in Redis. *)
Definition issued (now : Z) (jti : UUID) (agentID : string) (req : RegisterRequest) : string :=
  sign_agent (sv_jwtSecret authSvc) (agent_claims now jti agentID req).
Definition kept (now : Z) (jti : UUID) (agentID : string) (req : RegisterRequest) (o : Office)
    : Prop :=
  exists rec, of_tokens o !! redisKey agentID = Some (rec, now + AgentTokenTTL) /\
              tr_TokenHash rec = sha256_hex (issued now jti agentID req).

Lemma yields_Register now fresh jti req :
  yields (fun _ => True) (on_tokens (SwarmAuth.Register authSvc now fresh jti req))
    (fun x o => x = Ok {| rs_AccessToken := issued now jti (agent_id fresh req) req;
                          rs_AgentID := agent_id fresh req;
                          rs_ExpiresIn := AgentTokenTTL / second |} /\
                kept now jti (agent_id fresh req) req o).
Proof.
  intros o _. do 2 eexists. split.
  - apply zoom_run. unfold SwarmAuth.Register. rewrite (try_run _ _ _ _ _
      (wrapping_run _ _ _ _ _ (statement_quiet _ (of_tokens o)))). reflexivity.
  - split; [done|]. eexists. split; [apply lookup_insert_eq|done].
Qed.

Lemma kept_validates now jti agentID req later o :
  kept now jti agentID req o -> later < (now + AgentTokenTTL) / second * second ->
  agent_texts (agent_claims now jti agentID req) = true ->
  SwarmAuth.ValidateToken authSvc later (issued now jti agentID req) (quiet (of_tokens o))
  = (Ok (agent_claims now jti agentID req), quiet (of_tokens o)).
Proof.
  intros (rec & Hk & Hh) Hl Ht. unfold SwarmAuth.ValidateToken, issued.
  rewrite parse_sign_agent by exact Ht.
  set (c := agent_claims now jti agentID req). cbn [ac_ExpiresAt c agent_claims].
  destruct (Z.ltb_spec later ((now + AgentTokenTTL) / second * second)) as [_|]; [|lia].
  rewrite (eq_refl : String.eqb (ac_Type c) "agent" = true). cbn [negb].
  rewrite (try_run _ _ _ _ _ (wrapping_run _ _ _ _ _ (query_quiet _ _))). cbn [wrap_err].
  unfold live_record. rewrite (eq_refl : ac_Subject c = agentID), Hk.
  assert (0 < second) as Hsec by done.
  pose proof (Z.mul_div_le (now + AgentTokenTTL) second Hsec) as Hd.
  destruct (Z.ltb_spec later (now + AgentTokenTTL)) as [_|]; [|lia].
  rewrite Hh. unfold issued. fold c. by rewrite String.eqb_refl.
Qed.

Lemma kept_passes now jti agentID req later o :
  kept now jti agentID req o -> later < (now + AgentTokenTTL) / second * second ->
  agent_texts (agent_claims now jti agentID req) = true ->
  on_tokens (RequireAgentToken authSvc later ("Bearer " ++ issued now jti agentID req)) (quiet o)
  = (Ok (agent_claims now jti agentID req), quiet o).
Proof.
  intros Hk Hl Ht. assert (set_tokens (of_tokens o) o = o) as Ho by (by destruct o).
  rewrite <- Ho at 2. apply zoom_run. change (MkRun (of_tokens o) []) with (quiet (of_tokens o)).
  unfold RequireAgentToken. rewrite extract_bearer.
  destruct (String.eqb_spec (issued now jti agentID req) "") as [E|_];
    [by apply sign_agent_nonempty in E|].
  by rewrite (bind_run _ _ _ _ _ (kept_validates now jti agentID req later o Hk Hl Ht)).
Qed.

Lemma yields_respond {T B} (P : T -> Prop) (Q : Response B -> T -> Prop) m :
  yields P m (fun x t => Q match x with Ok resp => resp | Err resp => resp end t) ->
  yields P (respond m) Q.
Proof. intros Hm. eapply yields_bind; [exact Hm|]. intros [a|a]; by apply yields_ret. Qed.

(** The answer to a registration whose role is set. *)
Lemma yields_RegisterAgent now fresh jti req :
  is_set (rr_Role req) = true ->
  yields (fun _ => True) (RegisterAgent authSvc registry now fresh jti (Some req))
    (fun resp o => exists g req', resp = writeJSON 200 (RRegistered g) /\
       rr_Role req' = rr_Role req /\ rr_TeamID req' = rr_TeamID req /\
       rg_AccessToken g = issued now jti (rg_AgentID g) req' /\
       kept now jti (rg_AgentID g) req' o).
Proof.
  intros Hr. unfold RegisterAgent. apply yields_respond.
  unfold decoded, require. rewrite try_ok. unfold unless. rewrite Hr. cbn [negb]. rewrite try_ok.
  eapply yields_bind; [apply yields_any, RegisterAgent_no_faults|]. intros x.
  eapply yields_bind with (R := fun _ _ => True).
  { destruct x; [|by apply yields_ret].
    eapply yields_bind; [apply yields_any, Heartbeat_no_faults|]. intros y. by apply yields_ret. }
  intros u. set (req' := if _ : bool then _ else _).
  assert (rr_Role req' = rr_Role req /\ rr_TeamID req' = rr_TeamID req) as [Hrole Hteam]
    by (unfold req'; by destruct (_ =? _)%N).
  eapply yields_try with (R := fun resp => fun o => rs_AccessToken resp = issued now jti (rs_AgentID resp) req' /\
                                       kept now jti (rs_AgentID resp) req' o).
  { eapply yields_bind; [apply yields_Register|]. intros [resp|e]; apply yields_ret;
      intros o [[= ->] Hk]; done. }
  intros resp o [Hacc Hk].
  eapply (yields_bind (fun o' => of_tokens o' = of_tokens o) (fun _ o' => of_tokens o' = of_tokens o));
    [| |done].
  { destruct (is_set (rr_RepoID req')); [|by apply yields_ret].
    eapply yields_bind; [apply yields_TierForRole|]. intros te. by apply yields_ret. }
  intros tier. apply yields_ret. intros o' Ho'. do 2 eexists. split_and!;
    [reflexivity|exact Hrole|exact Hteam|exact Hacc|].
  destruct Hk as (rec & Hk & Hh). exists rec. cbn [rg_AgentID]. by rewrite Ho'.
Qed.

(** An agent that registers is let in.  With no fault, a registration with a role is answered
    with 200, and, if the texts of its claims are valid UTF-8, as all texts of a JSON request are,
    every request that carries the token of the answer is handled, with the agent, role and team
    of the registration, until the second the token expires in, three hours later. *)
Theorem registered_agent_passes now fresh jti req later o :
  is_set (rr_Role req) = true ->
  later < (now + AgentTokenTTL) / second * second ->
  let '(resp, r) := RegisterAgent authSvc registry now fresh jti (Some req) (quiet o) in
  exists g c, resp = writeJSON 200 (RRegistered g) /\
    ac_Subject c = rg_AgentID g /\ ac_Role c = rr_Role req /\ ac_TeamID c = rr_TeamID req /\
    (agent_texts c = true -> forall fresh' q,
      agent_request authSvc later fresh' ("Bearer " ++ rg_AccessToken g) q r =
      serve_agent later fresh' (Some c) q r).
Proof.
  intros Hr Hl. destruct (yields_RegisterAgent now fresh jti req Hr o I)
    as (resp & o' & -> & g & req' & -> & Hrole & Hteam & Hacc & Hk).
  exists g, (agent_claims now jti (rg_AgentID g) req'). split_and!; [done..|].
  intros Ht fresh' q. unfold agent_request. rewrite Hacc.
  by rewrite (bind_run _ _ _ _ _ (kept_passes now jti (rg_AgentID g) req' later o' Hk Hl Ht)).
Qed.

End access.
