(* ===== verification/SwarmPublish.v ===== *)
(** * What becomes of approved diffs

    The pull request of a task is never opened: [getRepoInfo] selects a column that
    [repositories] does not have, so whatever happens in the swarm, nothing is ever written to the
    host of a repository, and a task whose diffs are approved ends failed.  At the end a concrete
    swarm, with the witnesses of the theorems about the swarm, and the examples. *)

From Stdlib Require Import ZArith Lia Ascii String.
From stdpp Require Import base list gmap strings sorting countable.
From S2P Require Import Prelude GoStrings SwarmDb Db TeamManager TaskManager SelfHeal Swarm Sandbox Fingerprint GoFloat Ratings KeychainExamples Http Store Vcs Jwt Server ServerExamples SwarmAuth SwarmMemory SwarmOffice PrCreator SwarmHandler SwarmTypes Janitor SwarmRoutes SwarmSafety SwarmAccess.
Local Open Scope string_scope.
Local Open Scope rtv_scope.
Local Open Scope Z_scope.

#[local] Existing Instance production.

Definition is_hosted (e : Sent) : bool :=
  match e with HostBranch _ _ _ _ | HostFile _ _ _ _ _ _ | HostPullRequest _ _ _ _ _ _ => true
          | _ => false end.

(** What was written to the hosts. *)
Definition hosted (o : Office) : list Sent := List.filter is_hosted (of_sent o).

Section publish.
Context `{RowOrder} `{UuidText} `{UnicodeTables} `{Postgres} `{Collation} `{Digest} `{AgentJwt} `{Jwt} `{MathPow} `{GenUUID} `{Driver} `{VaultReader} `{HostWrites}.
Variable l : list Sent.
Notation I := (fun o : Office => hosted o = l).

Lemma hosted_same o o' : of_sent o' = of_sent o -> hosted o = l -> hosted o' = l.
Proof. unfold hosted. by intros ->. Qed.
Lemma hosted_send e : is_hosted e = false -> stays I (send e).
Proof.
  intros He. apply stays_writes. intros o Ho. unfold hosted. cbn.
  rewrite List.filter_app. cbn. rewrite He, app_nil_r. exact Ho.
Qed.
Lemma hosted_start j : stays I (start j).
Proof. apply stays_writes. intros o. by apply hosted_same. Qed.
Lemma hosted_on_tokens {A} (m : DB Tokens A) : stays I (on_tokens m).
Proof.
  apply (stays_zoom _ _ I (fun _ => True)); [done| |by intros r].
  intros o t Ho _. by apply (hosted_same o).
Qed.
Lemma hosted_on_memory {A} (m : DB Memory A) : stays I (on_memory m).
Proof.
  apply (stays_zoom _ _ I (fun _ => True)); [done| |by intros r].
  intros o t Ho _. by apply (hosted_same o).
Qed.
Lemma hosted_on_store {A} (m : DB Store A) : stays I (on_store m).
Proof. by apply (stays_zoom _ _ I (fun _ => True)). Qed.
Lemma hosted_carry_out e : stays I (carry_out e).
Proof.
  unfold carry_out. apply stays_bind; [by apply hosted_send|]. intros _.
  destruct e; try apply stays_ret. apply stays_ignoring, hosted_on_tokens.
Qed.
Lemma hosted_on_world {A} (m : M A) : stays I (on_world m).
Proof.
  intros [o fs] Ho. unfold on_world. cbn [tables fails]. destruct (m _) as [a w].
  assert (stays I (every (effects w) carry_out;; mret a)) as Hs
    by (stay; apply stays_every, hosted_carry_out).
  by apply (Hs (MkRun (with_world w o) (faults w))).
Qed.
Lemma hosted_on_ratings {A} (m : E A) : stays I (on_ratings m).
Proof. intros [o fs] Ho. unfold on_ratings. cbn. by destruct (m _). Qed.
#[local] Hint Resolve hosted_start hosted_on_tokens hosted_on_memory hosted_on_store
  hosted_on_world hosted_on_ratings : stays.

Ltac unhosted :=
  repeat first
    [ progress handler
    | match goal with
      | |- stays _ (send _) => apply hosted_send; reflexivity
      | |- stays _ (calls _ _) => apply stays_or_reply, hosted_on_world
      | |- stays _ (every _ _) => apply stays_every
      | |- stays _ (task_id _) => apply stays_require
      | |- stays _ (diff_id _) => apply stays_require
      | |- stays _ (decoded _) => apply stays_require
      | |- stays _ (reply _ _) => apply stays_ret
      | |- stays _ (scanned _ _) => unfold scanned
      | |- stays _ (rate_all _ _ _ _) => unfold rate_all, rated_agents, resolveAgentRoles
      | |- stays _ (SwarmOffice.AddDiffComment _ _ _ _) => unfold SwarmOffice.AddDiffComment
      | |- stays _ (RecordAgentContribution _ _ _ _ _ _ _ _ _) => unfold RecordAgentContribution
      | |- forall t : Office, hosted t = l -> _ => intros ? ?; try done
      end ].

Lemma serve_agent_unhosted now fresh claims q : stays I (serve_agent now fresh claims q).
Proof. destruct q; cbn [serve_agent]; open_agent_handler; unhosted. Qed.
Lemma serve_user_unhosted now fresh userID q : stays I (serve_user now fresh userID q).
Proof. destruct q; cbn [serve_user]; open_user_handler; unfold RateTaskUser; unhosted. Qed.

(** ** Creating a pull request *)

(** The column does not exist. *)
Lemma getRepoInfo_fails repoID : exists e, forall r, getRepoInfo repoID r = (Err e, r).
Proof. eexists. intros r. reflexivity. Qed.

Notation failed := (fun x o => is_err x /\ hosted o = l).

Lemma failPR_fails {A} id e : ensures I (failPR (A := A) id e) failed.
Proof.
  unfold failPR, broadcastPREvent. eapply ensures_bind; [apply hosted_on_world|]. intros u.
  eapply ensures_bind; [by apply hosted_send|]. intros u'. by apply ensures_ret.
Qed.

Lemma or_fail_bind {A B} id p (m : DBE Office A) (f : A -> DBE Office B) (R : A -> Office -> Prop) :
  ensures I m (fun x o => match x with Ok a => R a o | Err _ => hosted o = l end) ->
  (forall a, ensures (R a) (f a) failed) -> ensures I (try_bind (or_fail id p m) f) failed.
Proof.
  intros Hm Hf. eapply ensures_try; [|exact Hf]. unfold or_fail.
  eapply ensures_bind; [exact Hm|]. intros [a|e]; [by apply ensures_ret|].
  eapply ensures_conseq; [apply failPR_fails|done|]. by intros [a|e'] o [Hx Ho].
Qed.

Lemma or_fail_stays {A B} id p (m : DBE Office A) (f : A -> DBE Office B) :
  stays I m -> (forall a, ensures I (f a) failed) ->
  ensures I (try_bind (or_fail id p m) f) failed.
Proof.
  intros Hm. apply or_fail_bind. eapply ensures_conseq; [exact Hm|done|].
  by intros [a|e] o Ho.
Qed.

Lemma CreatePR_fails now id : ensures I (CreatePR now id) failed.
Proof.
  unfold CreatePR. eapply ensures_try with (R := fun _ => I).
  { apply ensures_wrapping. eapply ensures_conseq; [apply hosted_on_world|done|].
    by intros [t|e] o Ho. }
  intros task. eapply ensures_bind; [by apply hosted_send|]. intros u.
  apply or_fail_stays; [apply hosted_on_world|]. intros [|d diffs]; [apply failPR_fails|].
  destruct (uuid_Parse _) as [repoID|]; [|apply failPR_fails].
  apply or_fail_stays; [apply hosted_on_store|]. intros creds.
  apply or_fail_bind with (R := fun _ _ => False); [|by intros a r []].
  intros r Hr. unfold on_store, zoom. destruct (getRepoInfo_fails repoID) as [e ->]. exact Hr.
Qed.

Lemma run_job_unhosted now fresh j : stays I (run_job now fresh j).
Proof.
  destruct j; cbn [run_job]; [|unfold learn; unhosted]. apply stays_ignoring.
  eapply ensures_conseq; [apply CreatePR_fails|done|]. by intros x o [].
Qed.

Variable authSvc : Service.
Variable registry : Registry.
Variable jwtMgr : JWTManager.

Lemma run_step_unhosted s : stays I (run_step authSvc registry jwtMgr s).
Proof.
  destruct s; cbn [run_step].
  - unfold register_request, SwarmHandler.RegisterAgent. unhosted.
  - unfold agent_request. unhosted. apply serve_agent_unhosted.
  - unfold user_request. unhosted. apply serve_user_unhosted.
  - unfold next_job. apply stays_bind; [apply stays_reads|]. intros [j|]; [|apply stays_ret].
    apply stays_bind; [apply stays_writes; intros o; by apply hosted_same|].
    intros _. apply run_job_unhosted.
  - apply hosted_on_world.
  - unhosted.
  - unhosted.
  - unfold runCycle. unhosted.
Qed.

Lemma steps_unhosted steps : stays I (every steps (run_step authSvc registry jwtMgr)).
Proof. apply stays_every, run_step_unhosted. Qed.

End publish.

(** ** What an approval leads to *)

Lemma ForRepo_quiet `{Postgres} `{RowOrder} `{Collation} `{UuidText} `{VaultReader} s repoID :
  exists x, ForRepo repoID (quiet s) = (x, quiet s).
Proof.
  unfold ForRepo, resolveOrgOwnerCreds, wrapping, query_row, query, try_bind, reads,
    next_fails, mbind, DB_bind, ok, fail, mret, DB_ret, quiet. cbn.
  destruct (s_repos s !! repoID) as [repo|]; cbn; [|by eexists].
  destruct (head (owners _ s)) as [owner|]; cbn; [|by eexists].
  destruct (String.eqb _ _); cbn; [by eexists|]. destruct (s_platforms s !! _); by eexists.
Qed.

Section approval.
Context `{RowOrder} `{UuidText} `{UnicodeTables} `{Postgres} `{Collation} `{Digest} `{AgentJwt} `{Jwt} `{MathPow} `{GenUUID} `{Driver} `{VaultReader} `{HostWrites}.

Lemma yields_on_world {A} (P : Office -> Prop) (Q : A -> Office -> Prop) (m : M A) :
  (forall o, P o -> exists a w, m (lend [] (of_world o)) = (a, w) /\ faults w = [] /\
                                effects w = [] /\ Q a (with_world w o)) ->
  yields P (on_world m) Q.
Proof.
  intros Hm o Ho. destruct (Hm o Ho) as (a & w & E & Hf & He & Hq).
  exists a, (with_world w o). by rewrite (on_world_quiet m o a w E Hf), He.
Qed.

(** The tasks, the jobs and a task. *)
Definition holds (ts : gmap UUID Task) (J : list Job) (o : Office) : Prop :=
  tasks (of_world o) = ts /\ of_jobs o = J.

Variables (ts : gmap UUID Task) (J : list Job) (id : UUID) (t : Task).
Hypothesis Ht : ts !! id = Some t.
Notation ts_end := (alter (set_Status StatusFailed) id ts).

Lemma yields_send e Q : (forall o, holds ts J o -> Q tt o) -> yields (holds ts J) (send e) Q.
Proof. intros HQ. apply yields_writes. intros o Ho. by apply HQ. Qed.

Lemma yields_UpdateStatus s :
  yields (holds ts J) (on_world (UpdateStatus id s))
    (fun x o => x = Ok tt /\ holds (alter (set_Status s) id ts) J o).
Proof.
  apply yields_on_world. intros o [HT HJ]. assert (no_faults (lend [] (of_world o))) as Hf by done.
  unfold UpdateStatus. do 2 eexists. split_and!;
    [run; cbn [tasks lend]; unfold affected; rewrite HT, Ht; cbn; reflexivity|done..|].
  split; [cbn; by rewrite HT|done].
Qed.

Notation failed := (fun x o => is_err x /\ holds ts_end J o).

Lemma yields_failPR {A} e : yields (holds ts J) (failPR (A := A) id e) failed.
Proof.
  unfold failPR, broadcastPREvent. eapply yields_bind with (R := fun _ => holds ts_end J).
  { eapply yields_conseq; [apply yields_UpdateStatus|done|by intros x o [_ Ho]]. }
  intros x. eapply yields_bind with (R := fun _ => holds ts_end J); [by apply yields_writes|].
  intros u. by apply yields_ret.
Qed.

Lemma yields_or_fail {A B} (phi : A -> Prop) p (m : DBE Office A) (f : A -> DBE Office B) :
  yields (holds ts J) m (fun x o => holds ts J o /\ match x with Ok a => phi a | Err _ => True end) ->
  (forall a, phi a -> yields (holds ts J) (f a) failed) ->
  yields (holds ts J) (try_bind (or_fail id p m) f) failed.
Proof.
  intros Hm Hf. eapply yields_try with (R := fun a o => holds ts J o /\ phi a).
  - unfold or_fail. eapply yields_bind; [exact Hm|]. intros [a|e]; [by apply yields_ret|].
    eapply yields_conseq; [apply yields_failPR|by intros o []|]. by intros [a|e'] o [Hx Ho].
  - intros a o [Ho Ha]. by apply Hf.
Qed.

Lemma yields_or_fail_any {A B} p (m : DBE Office A) (f : A -> DBE Office B) :
  yields (holds ts J) m (fun _ => holds ts J) -> (forall a, yields (holds ts J) (f a) failed) ->
  yields (holds ts J) (try_bind (or_fail id p m) f) failed.
Proof.
  intros Hm Hf. apply yields_or_fail with (fun _ => True); [|by intros a _].
  eapply yields_conseq; [exact Hm|done|]. by intros [a|e] o Ho.
Qed.

Lemma yields_quiet {A} (m : M A) :
  (forall w, no_faults w -> exists a, m w = (a, w)) ->
  yields (holds ts J) (on_world m) (fun _ => holds ts J).
Proof.
  intros Hm. apply yields_on_world. intros o Ho. destruct (Hm (lend [] (of_world o))) as [a E]; [done|].
  exists a, (lend [] (of_world o)). by destruct Ho.
Qed.

Lemma yields_CreatePR now : yields (holds ts J) (CreatePR now id) failed.
Proof.
  unfold CreatePR. eapply yields_try with (R := fun _ => holds ts J).
  { apply yields_wrapping, yields_on_world. intros o [Hts HJ]. exists (Ok t), (lend [] (of_world o)).
    assert (no_faults (lend [] (of_world o))) as Hf by done.
    split_and!; [|done..]. unfold GetTask. run. cbn [tasks lend]. by rewrite Hts, Ht. }
  intros task. eapply yields_bind; [by apply yields_send with (Q := fun _ => holds ts J)|]. intros u.
  apply yields_or_fail_any.
  { apply yields_quiet. intros w Hw. unfold TaskManager.ListDiffs. run. by eexists. }
  intros [|d diffs]; [apply yields_failPR|].
  destruct (uuid_Parse _) as [repoID|]; [|apply yields_failPR].
  apply yields_or_fail_any.
  { eapply (yields_zoom _ _ _ _ (fun _ => True) (fun _ _ => True)); [|done|by intros s a t' Hs].
    intros s _. destruct (ForRepo_quiet s repoID) as [x E]. by exists x, s. }
  intros creds. apply yields_or_fail with (fun _ => False); [|done].
  intros o Ho. destruct (getRepoInfo_fails repoID) as [e He]. exists (Err e), o.
  split; [|done].
  apply (zoom_run of_store (fun _ o => o) (getRepoInfo repoID) o [] (Err e) (of_store o) []), He.
Qed.
End approval.

Section end_to_end.
Context `{RowOrder} `{UuidText} `{UnicodeTables} `{Postgres} `{Collation} `{Digest} `{AgentJwt} `{Jwt} `{MathPow} `{GenUUID} `{Driver} `{VaultReader} `{HostWrites}.
Variable authSvc : Service.
Variable registry : Registry.
Variable jwtMgr : JWTManager.

(** C31: The job that is to publish a task never does: whatever sequence of registrations, requests of
    the agent and user routes of SwarmRoutes, jobs and passes of the loops runs, and whatever
    fails, no branch, no commit and no pull request is asked for through the VCS client of
    [CreatePR], although users approve diffs.  Writes by other ways are not spoken of: the routes
    [/internal/swarm/mcp] reach a host through the connections of a user, and are not among these
    requests (they are those of McpHandler). *)
Theorem swarm_never_publishes steps r :
  hosted (tables (every steps (run_step authSvc registry jwtMgr) r).2) = hosted (tables r).
Proof. by apply (steps_unhosted (hosted (tables r)) authSvc registry jwtMgr steps r). Qed.


(** The job a user leaves behind by approving the diffs of a task. *)
Lemma approve_leaves_job ids id t o :
  uuid_Parse ids = Some id -> tasks (of_world o) !! id = Some t ->
  exists o', DiffAction ids (Some "approve_diff") (quiet o)
             = (writeJSON 200 (RStatus "approve_diff"), quiet o') /\
    tasks (of_world o') = alter (set_Status StatusPRCreating) id (tasks (of_world o)) /\
    of_jobs o' = (of_jobs o ++ [JobCreatePR id])%list.
Proof.
  intros Hid Ht.
  destruct (yields_UpdateStatus (tasks (of_world o)) (of_jobs o) id t Ht StatusPRCreating o)
    as (x & o' & E & -> & Hts & HJ); [done|].
  exists (set_jobs (fun l => l ++ [JobCreatePR id])%list o').
  split; [|split; [exact Hts|cbn; by rewrite HJ]].
  apply (respond_run _ _ (Ok (writeJSON 200 (RStatus "approve_diff")))).
  unfold task_id, decoded. rewrite Hid. cbn [require]. rewrite !try_ok.
  rewrite (eq_refl : String.eqb "approve_diff" "approve_diff" = true).
  assert (calls (UpdateStatus id StatusPRCreating) 500 (quiet o) = (Ok tt, quiet o')) as E'
    by (unfold calls; by rewrite (or_reply_run _ _ _ _ _ E)).
  apply try_run with (a := tt) (r' := quiet (set_jobs (fun l => l ++ [JobCreatePR id])%list o')).
  by rewrite (try_run _ _ _ _ _ E').
Qed.

(** C30: A task whose diffs a user approves ends failed.  With no fault at all, the approval is
    answered with 200 and the task is in [pr_creating]; the job that the approval leaves behind
    then puts it into [failed], and nothing else of the task changes. *)
Theorem approved_task_ends_failed now fresh ids id t o :
  uuid_Parse ids = Some id -> tasks (of_world o) !! id = Some t ->
  let '(resp, r) := DiffAction ids (Some "approve_diff") (quiet o) in
  let '(_, r') := next_job now fresh (length (of_jobs o)) r in
  code resp = 200 /\
  tasks (of_world (tables r)) !! id = Some (set_Status StatusPRCreating t) /\
  tasks (of_world (tables r')) !! id = Some (set_Status StatusFailed t) /\
  of_jobs (tables r') = of_jobs o.
Proof.
  intros Hid Ht. destruct (approve_leaves_job ids id t o Hid Ht) as (o1 & -> & Hts & HJ).
  assert (tasks (of_world o1) !! id = Some (set_Status StatusPRCreating t)) as Ht1.
  { by rewrite Hts, lookup_alter_eq, Ht. }
  unfold next_job, mbind, DB_bind, reads, writes. cbn [tables quiet].
  rewrite HJ, list_lookup_middle by done. unfold set_tables. cbn [tables fails quiet run_job].
  set (o2 := set_jobs (delete (length (of_jobs o))) o1).
  assert (holds (tasks (of_world o1)) (of_jobs o) o2) as Ho2.
  { split; [done|]. cbn. by rewrite HJ, delete_middle, app_nil_r. }
  destruct (yields_CreatePR _ _ id _ Ht1 now o2 Ho2) as (x & o3 & E & _ & Hts3 & HJ3).
  unfold ignoring. rewrite (bind_run _ _ _ _ _ E). cbn [mret DB_ret tables quiet].
  split_and!; [done|exact Ht1| |exact HJ3]. rewrite Hts3, lookup_alter_eq, Ht1. by destruct t.
Qed.

End end_to_end.

(** ** The swarm evaluated

    A swarm with one task at work and the agent of its team, tokens that are the binary text of
    their claims, the witnesses of the theorems on access and on approvals, and what a user's
    requests do to a task that has ended. *)

(** ** The surroundings *)

Definition agent_fields (secret : string) (c : AgentClaims) : list positive :=
  [encode secret; encode (ac_Issuer c); encode (ac_Subject c); encode (ac_IssuedAt c);
   encode (ac_ExpiresAt c); encode (ac_ID c); encode (ac_Type c); encode (ac_Role c);
   encode (ac_TeamID c)].

Definition read_agent (l : list positive) : option (string * AgentClaims) :=
  match l with
  | [k; a; b; c; d; e; f; g; h] =>
      k ← decode k; a ← decode a; b ← decode b; c ← decode c; d ← decode d; e ← decode e;
      f ← decode f; g ← decode g; h ← decode h;
      Some (k, {| ac_Issuer := a; ac_Subject := b; ac_IssuedAt := c; ac_ExpiresAt := d;
                  ac_ID := e; ac_Type := f; ac_Role := g; ac_TeamID := h |})
  | _ => None
  end.

Lemma read_agent_fields secret c : read_agent (agent_fields secret c) = Some (secret, c).
Proof.
  unfold read_agent, agent_fields. rewrite !decode_encode. cbn [mbind option_bind].
  by destruct c.
Qed.

Definition binary_agent (secret : string) (now : Z) (s : string) : result AgentClaims string :=
  match read_token read_agent s with
  | Some (k, c) =>
      if String.eqb k secret
      then if now <? ac_ExpiresAt c * second then Ok c else Err "token is expired"
      else Err "token signature is invalid"
  | None => Err "token is malformed"
  end.

Lemma binary_agent_sign secret now c :
  binary_agent secret now (token_of (agent_fields secret c)) =
  if now <? ac_ExpiresAt c * second then Ok c else Err "token is expired".
Proof. unfold binary_agent. by rewrite read_token_of, read_agent_fields, String.eqb_refl. Qed.

#[local] Instance binary_agent_jwt : AgentJwt := {|
  sign_agent secret c := token_of (agent_fields secret c);
  parse_agent := binary_agent;
  sign_agent_nonempty secret c := bits_nonempty _;
  parse_sign_agent secret now c _ := binary_agent_sign secret now c
|}.

#[local] Existing Instance unary_uuid.
#[local] Existing Instance listed_order.
#[local] Existing Instance ascii_tables.
#[local] Existing Instance utf8_database.
#[local] Existing Instance by_length.
#[local] Existing Instance open_vault.
#[local] Existing Instance integer_pow.
#[local] Existing Instance binary_jwt.
#[local] Existing Instance constant_digest.
#[local] Existing Instance fresh_uuid.
#[local] Instance lenient_driver : Driver := {| scan_closes := false |}.
#[local] Instance empty_host : HostWrites := {|
  GetDefaultBranch _ _ _ := Ok "main";
  GetBranchSHA _ _ _ _ := Ok "c0ffee";
  CreateBranch _ _ _ _ _ := None;
  CreateOrUpdateFile _ _ _ _ _ _ _ := Ok "sha";
  CreatePullRequest _ _ _ _ _ _ _ := Ok ("url", 1);
  GetFileContent _ _ _ _ _ := Ok "";
  ListDirectory _ _ _ _ _ := Ok []
|}.

Definition swarm_service : Service := {| sv_jwtSecret := "k"; sv_serviceSecret := "s" |}.
Definition no_routes : Registry := {| reg_routesEnabled := false; reg_providers := ∅ |}.

(** ** A task at work *)

(** Task 1, of repository 5, is at work in team 2, whose agent is 3; its diff is 4. *)
Definition work_task (status : string) : Task :=
  {| t_RepoID := "xxxxx"; t_Title := "Fix"; t_Description := "d"; t_Status := status;
     t_PlanDocument := None; t_AssignedTeamID := Some 2%N; t_AssignedAgents := None;
     t_PRUrl := ""; t_PRNumber := 0; t_HumanRating := None; t_HumanComment := "";
     t_SubmittedBy := None; t_RetryCount := 0; t_FailureReason := None; t_CreatedAt := 0;
     t_CompletedAt := None; t_TimeoutAt := None |}.
Definition work_agent : Agent :=
  {| a_Role := "coder"; a_TeamID := Some 2%N; a_Status := "busy"; a_TasksDone := 0;
     a_Hostname := "h"; a_Version := "v"; a_RegisteredAt := 0 |}.
Definition work_team : Team :=
  {| tm_Name := "t"; tm_LeadAgentID := None; tm_Status := "busy"; tm_AgentIDs := None;
     tm_FormedAt := 0 |}.
Definition work_diff : TaskDiff :=
  {| d_TaskID := 1%N; d_FilePath := "a.go"; d_ChangeType := "modified"; d_Original := "";
     d_Proposed := "x"; d_UnifiedDiff := "+x"; d_AgentID := Some 3%N; d_Status := "pending";
     d_CreatedAt := 0 |}.

Definition office_of (status : string) : Office :=
  {| of_world := {| tasks := {[ 1%N := work_task status ]}; teams := {[ 2%N := work_team ]};
                    agents := {[ 3%N := work_agent ]}; diffs := {[ 4%N := work_diff ]};
                    db_circuits := ∅; db_events := ∅; circuits := ∅; effects := [];
                    faults := [] |};
     of_ratings := {| el_roles := ∅; el_history := []; el_agents := ∅; el_faults := [] |};
     of_tokens := ∅; of_memory := no_memory; of_store := empty_store; of_comments := ∅;
     of_contributions := ∅; of_jobs := []; of_sent := [] |}.

(** ** Witnesses *)

Definition worker_claims : AgentClaims :=
  {| ac_Issuer := "rtvortex"; ac_Subject := "xxx"; ac_IssuedAt := 0; ac_ExpiresAt := 10;
     ac_ID := 7%N; ac_Type := "agent"; ac_Role := "coder"; ac_TeamID := "xx" |}.
Definition worker_bearer : string := "Bearer " ++ sign_agent "k" worker_claims.

Lemma finished_task_locks_team_out_witness :
  ends_task 1 "x" (SwarmHandler.CompleteTask 1 "x") /\
  let '(resp, r) := SwarmHandler.CompleteTask 1 "x" (quiet (office_of StatusImplementing)) in
  code resp = 200 /\
  forall faults, code (agent_request swarm_service 2 9%N worker_bearer AgNext
                         (MkRun (tables r) faults)).1 = 401.
Proof.
  assert (ends_task 1 "x" (SwarmHandler.CompleteTask 1 "x")) as He by by left.
  split; [exact He|].
  apply (finished_task_locks_team_out swarm_service 1 2 9%N "x" 1%N (work_task StatusImplementing) 2%N
           3%N work_agent worker_claims worker_bearer AgNext (office_of StatusImplementing) _ He);
    reflexivity.
Defined.

Definition coder_request (agentID : string) : RegisterRequest :=
  {| rr_AgentID := agentID; rr_Role := "coder"; rr_TeamID := "xx"; rr_RepoID := "";
     rr_Hostname := "h"; rr_Version := "v" |}.

Lemma registered_agent_passes_witness :
  let '(resp, r) := SwarmHandler.RegisterAgent swarm_service no_routes 0 6%N 7%N
                      (Some (coder_request "xxx")) (quiet (office_of StatusPlanning)) in
  exists g c, resp = writeJSON 200 (RRegistered g) /\
    ac_Subject c = rg_AgentID g /\ ac_Role c = "coder" /\ ac_TeamID c = "xx" /\
    (agent_texts c = true -> forall fresh' q,
      agent_request swarm_service second fresh' ("Bearer " ++ rg_AccessToken g) q r =
      serve_agent second fresh' (Some c) q r).
Proof.
  apply (registered_agent_passes swarm_service no_routes 0 6%N 7%N (coder_request "xxx") second
           (office_of StatusPlanning)); reflexivity.
Defined.

Lemma approved_task_ends_failed_witness :
  let '(resp, r) := DiffAction "x" (Some "approve_diff") (quiet (office_of StatusDiffReview)) in
  let '(_, r') := next_job 5 (fun _ => 0%N) 0 r in
  code resp = 200 /\
  tasks (of_world (tables r)) !! 1%N
    = Some (set_Status StatusPRCreating (work_task StatusDiffReview)) /\
  tasks (of_world (tables r')) !! 1%N
    = Some (set_Status StatusFailed (work_task StatusDiffReview)) /\
  of_jobs (tables r') = [].
Proof.
  apply (approved_task_ends_failed 5 (fun _ => 0%N) "x" 1%N (work_task StatusDiffReview)
           (office_of StatusDiffReview)); reflexivity.
Defined.

(** ** A day of the swarm *)

Definition empty_office : Office :=
  {| of_world := {| tasks := ∅; teams := ∅; agents := ∅; diffs := ∅; db_circuits := ∅;
                    db_events := ∅; circuits := ∅; effects := []; faults := [] |};
     of_ratings := {| el_roles := ∅; el_history := []; el_agents := ∅; el_faults := [] |};
     of_tokens := ∅; of_memory := no_memory; of_store := empty_store; of_comments := ∅;
     of_contributions := ∅; of_jobs := []; of_sent := [] |}.

Lemma empty_office_ok : office_ok empty_office.
Proof.
  split; cbn; try (by apply map_Forall_empty); [|intros id; by rewrite !lookup_empty, !is_Some_alt].
  unfold world_ok, references_ok, retries_bounded, rows_typed, all_rows. cbn.
  split_and!; intros *; rewrite ?lookup_empty.
  all: done.
Qed.

(** A team registers, a user creates a task, the team submits a diff, and the user approves it. *)
Definition user_bearer : Credentials :=
  bearing (tp_AccessToken (GenerateTokenPair manager 0 1 2 7 "ann@acme.org" "Ann" "user" 0)).
Definition coder_bearer : string :=
  "Bearer " ++ issued swarm_service 0 7%N "xxx" (coder_request "xxx").
Definition day_of_a_swarm : list SwarmStep :=
  [StRegister 0 6%N 7%N "s" (Some (coder_request "xxx"));
   StUser 1 1%N user_bearer
     (UsCreateTask (Some {| ct_RepoID := "xxxxx"; ct_Title := "Fix"; ct_Description := "d" |}));
   StUser 2 0%N user_bearer (UsPlanAction "x" (Some "approve"));
   StAgent 3 4%N coder_bearer (AgSubmitDiff "x" (Some work_diff));
   StUser 4 0%N user_bearer (UsDiffAction "x" (Some "approve_diff"));
   StJob 5 (fun _ => 0%N) 0].
Definition after (steps : list SwarmStep) (o : Office) : Office :=
  tables (every steps (run_step swarm_service no_routes manager) (quiet o)).2.

Example day_of_a_swarm_ends :
  (t_Status <$> tasks (of_world (after day_of_a_swarm empty_office)) !! 1%N) = Some "failed" /\
  is_Some (diffs (of_world (after day_of_a_swarm empty_office)) !! 4%N) /\
  hosted (after day_of_a_swarm empty_office) = [].
Proof. split_and!; [vm_compute; reflexivity|vm_compute; by eexists|vm_compute; reflexivity]. Qed.

Lemma swarm_stays_typed_witness :
  office_ok empty_office /\ office_ok (after day_of_a_swarm empty_office).
Proof.
  split; [exact empty_office_ok|].
  exact (swarm_stays_typed swarm_service no_routes manager day_of_a_swarm (quiet empty_office)
           empty_office_ok).
Defined.

(** ** What requests do to tasks that have ended *)

Definition status_of (r : Run Office) : option string :=
  t_Status <$> tasks (of_world (tables r)) !! 1%N.

(** A plan or a diff can be approved whatever the status of the task. *)
Example approval_revives_cancelled :
  status_of (PlanAction "x" (Some "approve") (quiet (office_of StatusCancelled))).2
    = Some StatusImplementing /\
  status_of (DiffAction "x" (Some "approve_diff") (quiet (office_of StatusCompleted))).2
    = Some StatusPRCreating.
Proof. split; vm_compute; reflexivity. Qed.

(** ** An identifier in another spelling

    The agent's row is under the parsed identifier, the token under the text of the request; the
    end of the task revokes the former. *)
Example spelling_escapes_revocation :
  let o := office_of StatusImplementing in
  let '(_, r1) := SwarmHandler.RegisterAgent swarm_service no_routes 0 6%N 7%N
                    (Some (coder_request "abc")) (quiet o) in
  let '(done, r2) := SwarmHandler.CompleteTask 1 "x" r1 in
  let '(resp, _) := agent_request swarm_service 2 9%N
                      ("Bearer " ++ issued swarm_service 0 7%N "abc" (coder_request "abc")) (AgTask "x") r2 in
  code done = 200 /\ code resp = 200.
Proof. vm_compute. split; reflexivity. Qed.

(** ** Which task is handed out

    The newest, and a team that is not on the newest planned task gets nothing. *)
Definition two_tasks (status : string) : Office :=
  let t := work_task status in
  let newer := {| t_RepoID := "xxxxx"; t_Title := "New"; t_Description := "d"; t_Status := status;
     t_PlanDocument := None; t_AssignedTeamID := None; t_AssignedAgents := None;
     t_PRUrl := ""; t_PRNumber := 0; t_HumanRating := None; t_HumanComment := "";
     t_SubmittedBy := None; t_RetryCount := 0; t_FailureReason := None; t_CreatedAt := 1;
     t_CompletedAt := None; t_TimeoutAt := None |} in
  let o := office_of status in
  with_world (set_tasks (fun _ => {[ 1%N := t; 8%N := newer ]}) (of_world o)) o.
Definition without_team : AgentClaims :=
  {| ac_Issuer := "rtvortex"; ac_Subject := "xxx"; ac_IssuedAt := 0; ac_ExpiresAt := 10;
     ac_ID := 7%N; ac_Type := "agent"; ac_Role := "coder"; ac_TeamID := "" |}.

Example newest_task_is_next :
  match (GetNextTask (Some without_team) (quiet (two_tasks StatusSubmitted))).1 with
  | {| body := inl (RTask id _) |} => id = 8%N
  | _ => False
  end /\
  code (GetNextTask (Some worker_claims) (quiet (two_tasks StatusPlanning))).1 = 204.
Proof. split; vm_compute; reflexivity. Qed.
