(* ===== verification/Json.v ===== *)
(** * JSON as [encoding/json] reads and writes it

    Values, their compact text, the indented text of a map of strings, and the decoder.  A
    number is the text it has in the document.  The members of an object stand in the order of
    the document; those that [Marshal] makes of a map in the order of their names.  Left out is the limit of the
    decoder on the depth of a document. *)

From Stdlib Require Import ZArith Lia Ascii String.
From stdpp Require Import base list gmap strings sorting.
From S2P Require Import Prelude GoStrings.
Local Open Scope string_scope.

(** ** Values *)

Inductive Json :=
  | JNull
  | JBool (b : bool)
  | JNum (text : string)
  | JStr (s : string)
  | JArr (l : list Json)
  | JObj (members : list (string * Json)).

(** The member of a decoded object: the last of its name. *)
Fixpoint member (name : string) (l : list (string * Json)) : option Json :=
  match l with
  | [] => None
  | (k, v) :: l => match member name l with
                   | Some w => Some w
                   | None => if String.eqb k name then Some v else None
                   end
  end.

Definition name_le (x y : string * Json) : Prop := String.le x.1 y.1.
#[export] Instance name_le_dec x y : Decision (name_le x y) := _.

(** A map of values. *)
Definition obj (m : gmap string Json) : Json := JObj (merge_sort name_le (map_to_list m)).

(** ** Strings *)

Definition bslash : ascii := "\"%char.
Definition dquote : ascii := chr 34.

Definition hex4 (n : N) : string :=
  let digit (d : N) := if (d <? 10)%N then chr (48 + d) else chr (87 + d) in
  String (digit (n / 4096)%N) (String (digit (n / 256 mod 16)%N)
    (String (digit (n / 16 mod 16)%N) (String (digit (n mod 16)%N) ""))).

Definition escape_u (n : N) : string := String bslash (String "u" (hex4 n)).

(** [appendString] on one byte of ASCII, with [escapeHTML]. *)
Definition escape_byte (a : ascii) : string :=
  if Ascii.eqb a dquote || Ascii.eqb a bslash then String bslash (String a "")
  else if (byte_of a =? 8)%N then "\b"
  else if (byte_of a =? 12)%N then "\f"
  else if (byte_of a =? 10)%N then "\n"
  else if (byte_of a =? 13)%N then "\r"
  else if (byte_of a =? 9)%N then "\t"
  else if (byte_of a <? 32)%N || existsb (Ascii.eqb a) ["<"; ">"; "&"]%char
  then escape_u (byte_of a)
  else String a "".

(** U+2028 and U+2029 begin with these two bytes and end with one of [168] and [169]. *)
Definition line_separator (s : string) : option N :=
  match s with
  | String a (String b (String c _)) =>
      if (byte_of a =? 226)%N && (byte_of b =? 128)%N then
        if (byte_of c =? 168)%N then Some 8232%N
        else if (byte_of c =? 169)%N then Some 8233%N else None
      else None
  | _ => None
  end.

(** The inside of the quotes; [keep] and [drop] count bytes to copy and to skip. *)
Fixpoint escaped (keep drop : nat) (s : string) : string :=
  match s with
  | "" => ""
  | String a s' =>
      match keep, drop with
      | S keep, _ => String a (escaped keep 0 s')
      | O, S drop => escaped 0 drop s'
      | O, O =>
          if is_ascii a then escape_byte a ++ escaped 0 0 s'
          else match line_separator s with
               | Some n => escape_u n ++ escaped 0 2 s'
               | None =>
                   if (rune_width a s' =? 1)%nat then "\ufffd" ++ escaped 0 0 s'
                   else String a (escaped (rune_width a s' - 1) 0 s')
               end
      end
  end.

Definition quoted (s : string) : string := String dquote (escaped 0 0 s ++ String dquote "").

Definition hex_value (a : ascii) : option N :=
  if is_digit a then Some (byte_of a - 48)%N
  else if in_range 97 102 a then Some (byte_of a - 87)%N
  else if in_range 65 70 a then Some (byte_of a - 55)%N
  else None.

Definition read_hex4 (s : string) : option (N * string) :=
  match s with
  | String a (String b (String c (String d s))) =>
      match hex_value a, hex_value b, hex_value c, hex_value d with
      | Some i, Some j, Some k, Some l => Some ((i * 4096 + j * 256 + k * 16 + l)%N, s)
      | _, _, _, _ => None
      end
  | _ => None
  end.

(** [utf8.EncodeRune]; a surrogate becomes U+FFFD. *)
Definition encode_rune (n : N) : string :=
  if (n <? 128)%N then str1 n
  else if (n <? 2048)%N then str2 (192 + n / 64)%N (128 + n mod 64)%N
  else if (55296 <=? n)%N && (n <? 57344)%N then str3 239 191 189
  else if (n <? 65536)%N then str3 (224 + n / 4096)%N (128 + n / 64 mod 64)%N (128 + n mod 64)%N
  else String (chr (240 + n / 262144)%N)
         (str3 (128 + n / 4096 mod 64)%N (128 + n / 64 mod 64)%N (128 + n mod 64)%N).

Definition surrogate_pair (hi lo : N) : option N :=
  if (55296 <=? hi)%N && (hi <? 56320)%N && (56320 <=? lo)%N && (lo <? 57344)%N
  then Some ((hi - 55296) * 1024 + (lo - 56320) + 65536)%N else None.

(** The escape after a backslash: its rune and how many bytes of [s] it takes. *)
Definition unescape (s : string) : option (string * nat) :=
  match s with
  | String c t =>
      if existsb (Ascii.eqb c) [dquote; bslash; "/"%char] then Some (String c "", 1)
      else if Ascii.eqb c "b" then Some (str1 8, 1)
      else if Ascii.eqb c "f" then Some (str1 12, 1)
      else if Ascii.eqb c "n" then Some (str1 10, 1)
      else if Ascii.eqb c "r" then Some (str1 13, 1)
      else if Ascii.eqb c "t" then Some (str1 9, 1)
      else if Ascii.eqb c "u" then
        match read_hex4 t with
        | None => None
        | Some (n, u) =>
            let second :=
              match u with
              | String b (String c v) =>
                  if Ascii.eqb b bslash && Ascii.eqb c "u"
                  then match read_hex4 v with Some (m, _) => surrogate_pair n m | None => None end
                  else None
              | _ => None
              end in
            match second with
            | Some m => Some (encode_rune m, 11)
            | None => Some (encode_rune n, 5)
            end
        end
      else None
  | "" => None
  end.

(** From after the opening quote: the string and what follows its closing quote. *)
Fixpoint unquote (keep drop : nat) (s : string) : option (string * string) :=
  match s with
  | "" => None
  | String a s' =>
      let put (t : string) (r : option (string * string)) :=
        match r with Some (u, rest) => Some (t ++ u, rest) | None => None end in
      match keep, drop with
      | S keep, _ => put (String a "") (unquote keep 0 s')
      | O, S drop => unquote 0 drop s'
      | O, O =>
          if Ascii.eqb a dquote then Some ("", s')
          else if Ascii.eqb a bslash then
            match unescape s' with
            | Some (t, n) => put t (unquote 0 n s')
            | None => None
            end
          else if (byte_of a <? 32)%N then None
          else if is_ascii a then put (String a "") (unquote 0 0 s')
          else if (rune_width a s' =? 1)%nat then put (str3 239 191 189) (unquote 0 0 s')
          else put (String a "") (unquote (rune_width a s' - 1) 0 s')
      end
  end.

(** ** Documents *)

Definition is_json_space (a : ascii) : bool :=
  existsb (N.eqb (byte_of a)) [32; 9; 13; 10]%N.
Definition skip_space (s : string) : string := drop_while is_json_space s.

Definition starts (p s : string) : option string :=
  if HasPrefix s p then Some (str_drop (String.length p) s) else None.

(** One or more digits *)
Definition digits1 (s : string) : option string :=
  match s with
  | String a s => if is_digit a then Some (drop_while is_digit s) else None
  | "" => None
  end.

(** What follows a number. *)
Definition after_number (s : string) : option string :=
  let s := match s with String "-" s => s | _ => s end in
  int ← match s with String "0" s => Some s | _ => digits1 s end;
  frac ← match int with String "." s => digits1 s | _ => Some int end;
  match frac with
  | String c s =>
      if Ascii.eqb c "e" || Ascii.eqb c "E"
      then digits1 match s with String "+" s | String "-" s => s | _ => s end
      else Some frac
  | "" => Some ""
  end.

(** A value, and the rest of an object or array from before a member. *)
Fixpoint value (fuel : nat) (s : string) : option (Json * string) :=
  match fuel with
  | O => None
  | S fuel =>
      match skip_space s with
      | "" => None
      | String a t as s =>
          if Ascii.eqb a dquote then
            p ← unquote 0 0 t; Some (JStr p.1, p.2)
          else if Ascii.eqb a "{" then
            match starts "}" (skip_space t) with
            | Some r => Some (JObj [], r)
            | None => p ← members fuel t; Some (JObj p.1, p.2)
            end
          else if Ascii.eqb a "[" then
            match starts "]" (skip_space t) with
            | Some r => Some (JArr [], r)
            | None => p ← elements fuel t; Some (JArr p.1, p.2)
            end
          else match starts "null" s with
          | Some r => Some (JNull, r)
          | None => match starts "true" s with
          | Some r => Some (JBool true, r)
          | None => match starts "false" s with
          | Some r => Some (JBool false, r)
          | None =>
              r ← after_number s;
              Some (JNum (str_take (String.length s - String.length r) s), r)
          end end end
      end
  end
with members (fuel : nat) (s : string) : option (list (string * Json) * string) :=
  match fuel with
  | O => None
  | S fuel =>
      name ← starts (String dquote "") (skip_space s);
      k ← unquote 0 0 name;
      t ← starts ":" (skip_space k.2);
      v ← value fuel t;
      match starts "," (skip_space v.2) with
      | Some r => p ← members fuel r; Some ((k.1, v.1) :: p.1, p.2)
      | None => r ← starts "}" (skip_space v.2); Some ([(k.1, v.1)], r)
      end
  end
with elements (fuel : nat) (s : string) : option (list Json * string) :=
  match fuel with
  | O => None
  | S fuel =>
      v ← value fuel s;
      match starts "," (skip_space v.2) with
      | Some r => p ← elements fuel r; Some (v.1 :: p.1, p.2)
      | None => r ← starts "]" (skip_space v.2); Some ([v.1], r)
      end
  end.

(** The value of a document; [json.Valid] is whether there is one.  The fuel is enough
    ([value_fuel]). *)
Definition Unmarshal (s : string) : option Json :=
  p ← value (S (2 * String.length s)) s;
  if String.eqb (skip_space p.2) "" then Some p.1 else None.

(** ** [Marshal] *)

Fixpoint Marshal (v : Json) : string :=
  match v with
  | JNull => "null"
  | JBool b => if b then "true" else "false"
  | JNum text => text
  | JStr s => quoted s
  | JArr l => "[" ++ Join (List.map Marshal l) "," ++ "]"
  | JObj l => "{" ++ Join (List.map (fun kv => quoted kv.1 ++ ":" ++ Marshal kv.2) l) "," ++ "}"
  end.

(** ** Maps of strings *)

Definition line : string := str1 10.

(** [json.MarshalIndent(m, "", "  ")]: a member and the whole. *)
Definition entry (kv : string * string) : string :=
  line ++ "  " ++ quoted kv.1 ++ ": " ++ quoted kv.2.
Definition indented (l : list (string * string)) : string :=
  match l with
  | [] => "{}"
  | _ => "{" ++ Join (entry <$> l) "," ++ line ++ "}"
  end.

Definition pair_le (x y : string * string) : Prop := String.le x.1 y.1.
#[export] Instance pair_le_dec x y : Decision (pair_le x y) := _.

Definition MarshalStrings (m : gmap string string) : string :=
  indented (merge_sort pair_le (map_to_list m)).

(** [json.Unmarshal] of a value into a map of strings, [None] where the map is nil; the flag is
    whether there is an error.  A member of another type is stored as the empty text. *)
Definition read_strings (l : list (string * Json)) (m : gmap string string)
    : gmap string string * bool :=
  fold_left (fun acc kv =>
    match kv.2 with
    | JStr s => (<[kv.1 := s]> acc.1, acc.2)
    | JNull => (<[kv.1 := ""]> acc.1, acc.2)
    | _ => (<[kv.1 := ""]> acc.1, true)
    end) l (m, false).

Definition UnmarshalStrings (s : string) (m : option (gmap string string))
    : option (gmap string string) * bool :=
  match Unmarshal s with
  | None => (m, true)
  | Some JNull => (None, false)
  | Some (JObj l) => let p := read_strings l (default ∅ m) in (Some p.1, p.2)
  | Some _ => (m, true)
  end.

(** ** Properties *)

(** [unquote] and [value] with what they add. *)
Definition put (t : string) (r : option (string * string)) : option (string * string) :=
  match r with Some (u, rest) => Some (t ++ u, rest) | None => None end.

Lemma unescape_u n s :
  (n < 55296)%N -> read_hex4 (hex4 n ++ s) = Some (n, s) ->
  unescape (String "u" (hex4 n ++ s)) = Some (encode_rune n, 5).
Proof.
  intros Hn E. cbn [unescape]. rewrite E. cbn [existsb Ascii.eqb Bool.eqb orb].
  assert (forall m, surrogate_pair n m = None) as Hp.
  { intros m. unfold surrogate_pair. by rewrite (proj2 (N.leb_gt _ _) Hn). }
  cbn. destruct s as [|b [|c v]]; [done..|].
  destruct (Ascii.eqb b bslash && Ascii.eqb c "u"); [|done].
  destruct (read_hex4 v) as [[m ?]|]; [|done]. by rewrite Hp.
Qed.

Lemma unquote_escape_byte a s :
  is_ascii a = true -> unquote 0 0 (escape_byte a ++ s) = put (String a "") (unquote 0 0 s).
Proof.
  intros Ha. assert (forall n, (n < 128)%N -> read_hex4 (hex4 n ++ s) = Some (n, s)) as Hh.
  { intros n Hn. rewrite <- (N2Nat.id n) in *. assert (N.to_nat n < 128) as Hl by lia.
    revert Hl. generalize (N.to_nat n). clear. intros m Hm.
    do 128 (destruct m as [|m]; [reflexivity|]). lia. }
  assert (forall n, (n < 128)%N ->
    unquote 0 0 (escape_u n ++ s) = put (encode_rune n) (unquote 0 0 s)) as Hu.
  { intros n Hn. unfold escape_u. change (unquote 0 0 ((String bslash (String "u" (hex4 n))) ++ s))
      with (match unescape (String "u" (hex4 n ++ s)) with
            | Some (t, k) => put t (unquote 0 k (String "u" (hex4 n ++ s))) | None => None end).
    rewrite (unescape_u n s) by (try apply Hh; lia). reflexivity. }
  specialize (Hu (byte_of a) (proj1 (N.ltb_lt _ _) Ha)). revert Ha Hu. clear Hh.
  destruct a as [[] [] [] [] [] [] [] []]; intros Ha Hu;
    try discriminate Ha; try reflexivity; exact Hu.
Qed.

Lemma rune_width_bound a s : 1 <= rune_width a s <= 4.
Proof.
  unfold rune_width. destruct s as [|b [|c [|d s]]]; repeat case_match; lia.
Qed.

(** The width of a rune is settled by the bytes it takes. *)
Lemma rune_width_local a s t :
  rune_width a s <> 1 ->
  str_take (rune_width a s - 1) s = str_take (rune_width a s - 1) t ->
  rune_width a t = rune_width a s.
Proof.
  unfold rune_width.
  destruct s as [|b [|c [|d s]]]; repeat case_match; intros Hn E; try done;
    cbn in E; simplify_eq; try congruence.
Qed.

Lemma escaped_keep k s t :
  utf8_valid k s = true -> str_take k (escaped k 0 s ++ t) = str_take k s.
Proof.
  revert s. induction k as [|k IH]; intros [|a s] Hv; try done. cbn in *. by rewrite IH.
Qed.

Lemma unquote_escape_u n s :
  (n < 55296)%N -> read_hex4 (hex4 n ++ s) = Some (n, s) ->
  unquote 0 0 (escape_u n ++ s) = put (encode_rune n) (unquote 0 0 s).
Proof.
  intros Hn E. change (unquote 0 0 (escape_u n ++ s))
    with (match unescape (String "u" (hex4 n ++ s)) with
          | Some (t, k) => put t (unquote 0 k (String "u" (hex4 n ++ s))) | None => None end).
  by rewrite (unescape_u n s).
Qed.

Lemma line_separator_spec a s n :
  line_separator (String a s) = Some n ->
  exists u v, s = String (chr 128) (String v u) /\ a = chr 226 /\
    str3 226 128 (byte_of v) = encode_rune n /\ (n = 8232 \/ n = 8233)%N.
Proof.
  unfold line_separator. destruct s as [|b [|c u]]; try done. intros E.
  assert (forall x m, (byte_of x =? m)%N = true -> x = chr m) as Hx.
  { intros x m Hm%N.eqb_eq. rewrite <- Hm. symmetry. apply ascii_N_embedding. }
  destruct (byte_of a =? 226)%N eqn:Ea; [|done]. destruct (byte_of b =? 128)%N eqn:Eb; [|done].
  apply Hx in Ea as ->. apply Hx in Eb as ->. exists u, c.
  destruct (byte_of c =? 168)%N eqn:E1; [|destruct (byte_of c =? 169)%N eqn:E2; [|done]];
    apply N.eqb_eq in E1 || apply N.eqb_eq in E2; injection E as <-; rewrite ?E1, ?E2; eauto.
Qed.

(** Decoding takes back what encoding does to well-formed UTF-8. *)
Lemma unquote_escaped s k rest :
  utf8_valid k s = true -> unquote k 0 (escaped k 0 s ++ String dquote rest) = Some (s, rest).
Proof.
  remember (String.length s) as n eqn:Hn. revert s Hn k.
  induction (lt_wf n) as [n _ IH]. intros s -> k Hv.
  assert (forall s', String.length s' < String.length s -> forall k, utf8_valid k s' = true ->
    unquote k 0 (escaped k 0 s' ++ String dquote rest) = Some (s', rest)) as IH'.
  { intros s' Hl. by apply (IH _ Hl s'). }
  clear IH. destruct s as [|a s]; [by destruct k|]. cbn [String.length] in IH'.
  destruct k as [|k].
  2: { cbn in Hv |- *. rewrite IH' by (done || lia). done. }
  cbn [utf8_valid] in Hv. cbn [escaped]. destruct (is_ascii a) eqn:Ea.
  { rewrite string_app_assoc, unquote_escape_byte, IH' by (done || lia). done. }
  destruct (Nat.eqb (rune_width a s) 1) eqn:Ew; [done|]. apply Nat.eqb_neq in Ew.
  destruct (line_separator (String a s)) as [m|] eqn:El.
  { destruct (line_separator_spec _ _ _ El) as (u & c & -> & -> & Er & Hm).
    change (escaped 0 2 (String (chr 128) (String c u))) with (escaped 0 0 u).
    rewrite string_app_assoc, unquote_escape_u.
    - assert (rune_width (chr 226) (String (chr 128) (String c u)) = 3) as Hw.
      { destruct Hm as [-> | ->]; injection Er as Ec; rewrite <- (ascii_N_embedding c);
          change (N_of_ascii c) with (byte_of c); by destruct c as [[] [] [] [] [] [] [] []]. }
      rewrite Hw in Hv. cbn in Hv. rewrite IH' by (done || cbn; lia). cbn [put].
      rewrite <- Er. unfold str3, str2, str1. cbn. by rewrite ascii_N_embedding.
    - destruct Hm as [-> | ->]; lia.
    - by destruct Hm as [-> | ->]. }
  set (t := escaped (rune_width a s - 1) 0 s ++ String dquote rest).
  assert (rune_width a t = rune_width a s) as Hw.
  { apply rune_width_local; [done|]. symmetry. by apply escaped_keep. }
  assert (unquote 0 0 (String a t) = put (String a "") (unquote (rune_width a t - 1) 0 t)) as Hu.
  { cbn [unquote]. rewrite Ea. replace (Nat.eqb (rune_width a t) 1) with false
      by (symmetry; apply Nat.eqb_neq; congruence).
    unfold is_ascii in Ea. apply N.ltb_ge in Ea.
    destruct (Ascii.eqb_spec a dquote) as [->|_]; [by cbn in Ea|].
    destruct (Ascii.eqb_spec a bslash) as [->|_]; [by cbn in Ea|].
    replace (byte_of a <? 32)%N with false by (symmetry; apply N.ltb_ge; lia). done. }
  change (String a (escaped (rune_width a s - 1) 0 s) ++ String dquote rest) with (String a t).
  rewrite Hu, Hw. unfold t. rewrite IH' by (done || lia). done.
Qed.

Lemma quoted_app s t : quoted s ++ t = String dquote (escaped 0 0 s ++ String dquote t).
Proof. unfold quoted. cbn. by rewrite string_app_assoc. Qed.

Lemma value_quoted fuel s t :
  utf8_valid 0 s = true -> value (S fuel) (" " ++ quoted s ++ t) = Some (JStr s, t).
Proof.
  intros Hs. rewrite quoted_app.
  change (value (S fuel) (" " ++ String dquote ?u)) with (p ← unquote 0 0 u; Some (JStr p.1, p.2)).
  by rewrite unquote_escaped.
Qed.

Definition valid_pair (kv : string * string) : Prop :=
  utf8_valid 0 kv.1 = true /\ utf8_valid 0 kv.2 = true.

Lemma entry_app kv t :
  entry kv ++ t = line ++ "  " ++ quoted kv.1 ++ ": " ++ quoted kv.2 ++ t.
Proof. unfold entry. by rewrite !string_app_assoc. Qed.

Lemma starts_app p t : starts p (p ++ t) = Some t.
Proof. unfold starts. by rewrite HasPrefix_refl, str_drop_app. Qed.

Lemma starts_name t :
  starts (String dquote "") (skip_space (line ++ "  " ++ String dquote t)) = Some t.
Proof. exact (starts_app (String dquote "") t). Qed.

Lemma starts_colon t : starts ":" (skip_space (": " ++ t)) = Some (" " ++ t).
Proof. exact (starts_app ":" (" " ++ t)). Qed.

(** The members of an indented object, with what ends it. *)
Lemma members_indented l kv fuel rest :
  Forall valid_pair (kv :: l) -> List.length l + 2 <= fuel ->
  members fuel (Join (entry <$> kv :: l) "," ++ line ++ "}" ++ rest) =
    Some ((fun p => (p.1, JStr p.2)) <$> kv :: l, rest).
Proof.
  revert kv fuel. induction l as [|kv' l IH]; intros kv fuel [[Hk Hv] Hl]%Forall_cons Hf;
    (destruct fuel as [|[|fuel]]; [cbn in Hf; lia..|]).
  - cbn [fmap list_fmap Join]. rewrite entry_app, quoted_app. cbn [members].
    rewrite starts_name. cbn [mbind option_bind]. rewrite unquote_escaped by done. cbn [fst snd mbind option_bind].
    rewrite starts_colon. cbn [mbind option_bind]. rewrite value_quoted by done. cbn [fst snd mbind option_bind].
    change (skip_space (line ++ "}" ++ rest)) with ("}" ++ rest).
    change (starts "," ("}" ++ rest)) with (@None string). cbn iota. by rewrite starts_app.
  - change (Join (entry <$> kv :: kv' :: l) ",")
      with (entry kv ++ "," ++ Join (entry <$> kv' :: l) ",").
    rewrite !string_app_assoc, entry_app, quoted_app.
    specialize (IH kv' (S fuel) Hl ltac:(cbn in Hf |- *; lia)).
    set (text := Join (entry <$> kv' :: l) "," ++ line ++ "}" ++ rest) in *.
    remember (S fuel) as f eqn:Ef. cbn [members].
    rewrite starts_name. cbn [mbind option_bind]. rewrite unquote_escaped by done. cbn [fst snd mbind option_bind].
    rewrite starts_colon. cbn [mbind option_bind]. rewrite Ef, value_quoted by done. cbn [fst snd mbind option_bind].
    change (skip_space ("," ++ ?u)) with ("," ++ u). rewrite starts_app. cbn iota.
    rewrite <- Ef, IH. reflexivity.
Qed.

Lemma read_strings_strs l m :
  read_strings ((fun p => (p.1, JStr p.2)) <$> l) m =
  (fold_left (fun m kv => <[kv.1 := kv.2]> m) l m, false).
Proof.
  unfold read_strings. revert m. induction l as [|kv l IH]; intros m; [done|]. apply IH.
Qed.

Lemma fold_pairs_lookup (l : list (string * string)) (m : gmap string string) k :
  NoDup l.*1 -> fold_left (fun m kv => <[kv.1 := kv.2]> m) l m !! k =
    match (list_to_map l : gmap string string) !! k with Some v => Some v | None => m !! k end.
Proof.
  revert m. induction l as [|[k' v] l IH]; intros m; [done|].
  cbn [fmap list_fmap fst]. intros [Hk Hl]%NoDup_cons. cbn. rewrite IH by done.
  destruct (decide (k' = k)) as [->|Hne].
  - rewrite !lookup_insert_eq. by rewrite not_elem_of_list_to_map_1.
  - by rewrite !lookup_insert_ne.
Qed.

Lemma Join_length l sep w : w ∈ l -> String.length w <= String.length (Join l sep).
Proof.
  induction l as [|v l IH]; [by intros ?%elem_of_nil|]. intros [->|Hw]%elem_of_cons.
  - destruct l; cbn; rewrite ?string_app_length; lia.
  - specialize (IH Hw). destruct l as [|v' l]; [by apply elem_of_nil in Hw|].
    cbn [Join] in *. rewrite !string_app_length. cbn in *. lia.
Qed.

Lemma Join_count l sep : 0 < String.length sep -> List.length l <= S (String.length (Join l sep)).
Proof.
  intros Hs. induction l as [|v [|v' l] IH]; cbn in *; [lia..|].
  rewrite !string_app_length. lia.
Qed.

(** A map of strings of well-formed UTF-8 comes back as it was written. *)
Lemma UnmarshalStrings_Marshal m m0 :
  map_Forall (fun k v => utf8_valid 0 k = true /\ utf8_valid 0 v = true) m ->
  default ∅ m0 = (∅ : gmap string string) ->
  UnmarshalStrings (MarshalStrings m) m0 = (Some m, false).
Proof.
  intros Hm H0. unfold MarshalStrings.
  assert (merge_sort pair_le (map_to_list m) ≡ₚ map_to_list m) as Hp by apply merge_sort_Permutation.
  assert (Forall valid_pair (merge_sort pair_le (map_to_list m))) as Hv.
  { rewrite Hp. apply Forall_forall. intros [k v] Hkv%elem_of_map_to_list. apply (Hm k v Hkv). }
  assert (NoDup (merge_sort pair_le (map_to_list m)).*1) as Hn.
  { rewrite Hp. apply NoDup_fst_map_to_list. }
  assert (list_to_map (merge_sort pair_le (map_to_list m)) = m) as Hl.
  { rewrite (list_to_map_proper _ _ Hn Hp). apply list_to_map_to_list. }
  revert Hv Hn Hl. generalize (merge_sort pair_le (map_to_list m)). intros l Hv Hn Hl.
  assert (Unmarshal (indented l) = Some (JObj ((fun p => (p.1, JStr p.2)) <$> l))) as E.
  { destruct l as [|kv l]; [done|]. unfold Unmarshal, indented.
    set (text := Join (entry <$> kv :: l) "," ++ line ++ "}").
    assert (List.length l + 2 <= 2 * String.length ("{" ++ text)) as Hlen.
    { unfold text. rewrite !string_app_length.
      pose proof (Join_count (entry <$> kv :: l) "," ltac:(cbn; lia)) as Hc.
      rewrite length_fmap in Hc. cbn in *. lia. }
    change (value (S ?f) ("{" ++ text)) with
      (match starts "}" (skip_space text) with
       | Some r => Some (JObj [], r)
       | None => p ← members f text; Some (JObj p.1, p.2) end).
    assert (starts "}" (skip_space text) = None) as -> by (unfold text; by destruct l).
    by rewrite (members_indented l kv _ "" Hv Hlen : members _ text = _). }
  unfold UnmarshalStrings. rewrite E, read_strings_strs, H0. cbn [fst snd].
  f_equal. f_equal. apply map_eq. intros k. rewrite fold_pairs_lookup, Hl by done.
  by destruct (m !! k).
Qed.

(** *** Fuel *)

Lemma drop_while_length f s : String.length (drop_while f s) <= String.length s.
Proof. induction s as [|a s IH]; cbn; [done|]. destruct (f a); cbn; lia. Qed.

Lemma skip_space_length s : String.length (skip_space s) <= String.length s.
Proof. apply drop_while_length. Qed.

Lemma starts_length p s r :
  starts p s = Some r -> String.length r + String.length p <= String.length s.
Proof.
  unfold starts. destruct (HasPrefix s p) eqn:E; [|done]. apply HasPrefix_spec in E as [t ->].
  rewrite str_drop_app. intros [= <-]. rewrite string_app_length. lia.
Qed.

Lemma unquote_length s k d u r :
  unquote k d s = Some (u, r) -> String.length r < String.length s.
Proof.
  revert k d u r. induction s as [|a s IH]; intros k d u r; [done|].
  assert (forall t k d, put t (unquote k d s) = Some (u, r) -> String.length r < S (String.length s))
    as Hput.
  { intros t k' d'. unfold put. destruct (unquote k' d' s) as [[u' r']|] eqn:E; [|done].
    intros [= _ <-]. apply IH in E. lia. }
  cbn. destruct k; [destruct d|]; [|intros E; apply IH in E; lia|exact (Hput (String a "") k 0)].
  destruct (Ascii.eqb a _); [intros [= _ <-]; lia|].
  destruct (Ascii.eqb a bslash); [destruct (unescape s) as [[t n]|]; [apply Hput|done]|].
  repeat match goal with |- context[if ?b then _ else _] => destruct b end;
    first [done | exact (Hput (String a "") _ 0) | exact (Hput (str3 239 191 189) 0 0)].
Qed.

Lemma digits1_length s r : digits1 s = Some r -> String.length r < String.length s.
Proof.
  destruct s as [|a s]; [done|]. cbn. destruct (is_digit a); [|done]. intros [= <-].
  pose proof (drop_while_length is_digit s). lia.
Qed.

Lemma after_number_length s r : after_number s = Some r -> String.length r < String.length s.
Proof.
  unfold after_number.
  set (t := match s with String "-" u => u | _ => s end).
  assert (String.length t <= String.length s) as Ht.
  { unfold t. destruct s as [|a s]; [done|]. repeat case_match; cbn; lia. }
  clearbody t. set (o := match t with String "0" u => Some u | _ => digits1 t end).
  assert (forall i, o = Some i -> String.length i < String.length t) as Ho.
  { unfold o. intros i Hi. destruct t as [|a t]; [done|].
    repeat case_match; simplify_eq; try (cbn; lia); by apply digits1_length. }
  clearbody o. destruct o as [i|]; [|done]. specialize (Ho i eq_refl). cbn [mbind option_bind].
  set (p := match i with String "." u => digits1 u | _ => Some i end).
  assert (forall x, p = Some x -> String.length x <= String.length i) as Hp.
  { unfold p. intros x Hx. destruct i as [|a i]; [by injection Hx as <-|].
    repeat case_match; simplify_eq; try done; apply digits1_length in Hx; cbn; lia. }
  clearbody p. destruct p as [x|]; [|done]. specialize (Hp x eq_refl). cbn [mbind option_bind].
  destruct x as [|c u]; [intros [= <-]; cbn; lia|].
  destruct (Ascii.eqb c "e" || Ascii.eqb c "E"); [|intros [= <-]; lia].
  intros E%digits1_length. cbn in Hp.
  enough (String.length match u with String "+" v | String "-" v => v | _ => u end
          <= String.length u) by lia.
  destruct u as [|a u]; [done|]. repeat case_match; cbn; lia.
Qed.

Definition shorter {A} (s : string) (o : option (A * string)) : Prop :=
  forall v r, o = Some (v, r) -> String.length r < String.length s.

Lemma value_shorter fuel :
  (forall s, shorter s (value fuel s)) /\ (forall s, shorter s (members fuel s)) /\
  (forall s, shorter s (elements fuel s)).
Proof.
  induction fuel as [|fuel (IHv & IHm & IHe)]; [done|]. split_and!; intros s v r;
    cbn [value members elements].
  - pose proof (skip_space_length s) as Hs. destruct (skip_space s) as [|a t]; [done|].
    cbn in Hs. pose proof (skip_space_length t) as Ht.
    destruct (Ascii.eqb a dquote).
    { destruct (unquote 0 0 t) as [[u r']|] eqn:E; [|done]. cbn [mbind option_bind]. intros [= _ <-].
      apply unquote_length in E. lia. }
    assert (forall p x, starts p (skip_space t) = Some x -> String.length x <= String.length t)
      as Hst by (intros p x Hx%starts_length; lia).
    destruct (Ascii.eqb a "{").
    { destruct (starts "}" _) as [x|] eqn:E; [apply Hst in E; intros [= _ <-]; lia|].
      destruct (members fuel t) as [[m r']|] eqn:Em; [|done]. cbn [mbind option_bind]. intros [= _ <-].
      apply IHm in Em. lia. }
    destruct (Ascii.eqb a "[").
    { destruct (starts "]" _) as [x|] eqn:E; [apply Hst in E; intros [= _ <-]; lia|].
      destruct (elements fuel t) as [[m r']|] eqn:Em; [|done]. cbn [mbind option_bind]. intros [= _ <-].
      apply IHe in Em. lia. }
    destruct (starts "null" (String a t)) as [x|] eqn:E1;
      [apply starts_length in E1; cbn in E1; intros [= _ <-]; lia|].
    destruct (starts "true" (String a t)) as [x|] eqn:E2;
      [apply starts_length in E2; cbn in E2; intros [= _ <-]; lia|].
    destruct (starts "false" (String a t)) as [x|] eqn:E3;
      [apply starts_length in E3; cbn in E3; intros [= _ <-]; lia|].
    destruct (after_number (String a t)) as [x|] eqn:E4; [|done]. cbn [mbind option_bind]. intros [= _ <-].
    apply after_number_length in E4. cbn in E4. lia.
  - pose proof (skip_space_length s) as Hs.
    destruct (starts _ (skip_space s)) as [name|] eqn:E1; [|done]. cbn [mbind option_bind fst snd].
    apply starts_length in E1. cbn in E1.
    destruct (unquote 0 0 name) as [[k r1]|] eqn:E2; [|done]. cbn [mbind option_bind fst snd]. apply unquote_length in E2.
    pose proof (skip_space_length r1).
    destruct (starts ":" _) as [t|] eqn:E3; [|done]. cbn [mbind option_bind fst snd]. apply starts_length in E3. cbn in E3.
    destruct (value fuel t) as [[w r2]|] eqn:E4; [|done]. cbn [mbind option_bind fst snd]. apply IHv in E4.
    pose proof (skip_space_length r2).
    destruct (starts "," _) as [r3|] eqn:E5.
    + apply starts_length in E5. cbn in E5. destruct (members fuel r3) as [[m r4]|] eqn:E6; [|done].
      cbn [mbind option_bind]. intros [= _ <-]. apply IHm in E6. lia.
    + destruct (starts "}" _) as [r3|] eqn:E6; [|done]. cbn [mbind option_bind]. intros [= _ <-].
      apply starts_length in E6. cbn in E6. lia.
  - destruct (value fuel s) as [[w r2]|] eqn:E4; [|done]. cbn [mbind option_bind fst snd]. apply IHv in E4.
    pose proof (skip_space_length r2).
    destruct (starts "," _) as [r3|] eqn:E5.
    + apply starts_length in E5. cbn in E5. destruct (elements fuel r3) as [[m r4]|] eqn:E6; [|done].
      cbn [mbind option_bind]. intros [= _ <-]. apply IHe in E6. lia.
    + destruct (starts "]" _) as [r3|] eqn:E6; [|done]. cbn [mbind option_bind]. intros [= _ <-].
      apply starts_length in E6. cbn in E6. lia.
Qed.

(** Twice the length is fuel enough. *)
Lemma value_fuel f g :
  (forall s, 2 * String.length s < f -> 2 * String.length s < g -> value f s = value g s) /\
  (forall s, 2 * String.length s < f -> 2 * String.length s < g -> members f s = members g s) /\
  (forall s, 2 * String.length s + 1 < f -> 2 * String.length s + 1 < g ->
     elements f s = elements g s).
Proof.
  revert g. induction f as [|f IH]; [intros g; split_and!; intros s ?; lia|].
  intros [|g]; [split_and!; intros s ? ?; lia|].
  destruct (IH g) as (IHv & IHm & IHe). destruct (value_shorter f) as (Sv & Sm & Se).
  split_and!; intros s Hf Hg; cbn [value members elements].
  - pose proof (skip_space_length s) as Hs. destruct (skip_space s) as [|a t]; [done|].
    cbn in Hs. rewrite IHm, IHe by lia. done.
  - pose proof (skip_space_length s) as Hs.
    destruct (starts _ (skip_space s)) as [name|] eqn:E1; [|done]. cbn [mbind option_bind fst snd].
    apply starts_length in E1. cbn in E1.
    destruct (unquote 0 0 name) as [[k r1]|] eqn:E2; [|done]. cbn [mbind option_bind fst snd]. apply unquote_length in E2.
    pose proof (skip_space_length r1).
    destruct (starts ":" _) as [t|] eqn:E3; [|done]. cbn [mbind option_bind fst snd]. apply starts_length in E3. cbn in E3.
    rewrite <- IHv by lia. destruct (value f t) as [[w r2]|] eqn:E4; [|done]. cbn [mbind option_bind fst snd].
    apply Sv in E4. pose proof (skip_space_length r2).
    destruct (starts "," _) as [r3|] eqn:E5; [|done]. apply starts_length in E5. cbn in E5.
    by rewrite IHm by lia.
  - rewrite <- IHv by lia. destruct (value f s) as [[w r2]|] eqn:E4; [|done]. cbn [mbind option_bind fst snd].
    apply Sv in E4. pose proof (skip_space_length r2).
    destruct (starts "," _) as [r3|] eqn:E5; [|done]. apply starts_length in E5. cbn in E5.
    by rewrite IHe by lia.
Qed.
