(* ===== verification/Vault.v ===== *)
(** * Secret stores ([internal/vault])

    [SecretStore] with its implementations: the file of [vault.go], the view of one user of
    [scoped.go], the keychain of a user ([keychain_adapter.go]), and the readers that the
    resolver of hosts uses ([vcs_adapter.go], [user_id_resolver.go]).

    The file is its content, if it exists; the temporary file, which nothing reads, is left out,
    as is the directory.  A method runs under its lock.  A key of AES always has 32 bytes here,
    so the ciphers are made.  Writing to a nil map, which panics, is an error. *)

From Stdlib Require Import ZArith Lia Ascii String.
From stdpp Require Import base list gmap strings sorting.
From S2P Require Import Prelude GoStrings SwarmDb Db KeychainCrypto KeychainStore Keychain Store Json.
Local Open Scope string_scope.
Local Open Scope rtv_scope.

(** ** The interface *)

Record SecretStore (T : Type) := {
  ss_Get : string -> DBE T string;
  ss_Set : string -> string -> DBE T unit;
  ss_Delete : string -> DBE T unit;
  ss_List : DBE T (list string);
  ss_GetAll : DBE T (gmap string string)
}.
Arguments ss_Get {T}. Arguments ss_Set {T}. Arguments ss_Delete {T}.
Arguments ss_List {T}. Arguments ss_GetAll {T}.

(** What the stores of the users promise to those who use them, whatever fails: they give back
    only what was put in for that user under that key.  [within R] says that all they hold is in
    [R]; [legal] names the keys this is promised for; a store is made at a time. *)
Class KeepsSecrets {T : Type} (storeFor : Z -> UUID -> SecretStore T) := {
  legal : string -> Prop;
  within : (UUID -> string -> string -> Prop) -> T -> Prop;
  within_mono : forall (R R' : UUID -> string -> string -> Prop) t,
    (forall u k v, R u k v -> R' u k v) -> within R t -> within R' t;
  Get_within : forall R now u k, legal k ->
    ensures (within R) (ss_Get (storeFor now u) k)
      (fun x t => within R t /\ forall v, x = Ok v -> v = "" \/ R u k v);
  Set_within : forall (R : UUID -> string -> string -> Prop) now u k v, legal k ->
    (v <> "" -> R u k v) -> stays (within R) (ss_Set (storeFor now u) k v);
  Delete_within : forall R now u k, legal k -> stays (within R) (ss_Delete (storeFor now u) k);
  GetAll_within : forall R now u,
    ensures (within R) (ss_GetAll (storeFor now u))
      (fun x t => within R t /\ forall m k v, x = Ok m -> m !! k = Some v -> R u k v)
}.

(** ** [vault.go] *)

(** [gcm] is the key of the cipher; [secrets] is [None] where the map is nil. *)
Record FileVault := {
  gcm : option string;
  secrets : option (gmap string string);
  noEncrypt : bool
}.

Record VaultFile := { vf_content : option string; vf_vault : FileVault; vf_draws : nat }.

Definition set_content (c : option string) (t : VaultFile) : VaultFile :=
  {| vf_content := c; vf_vault := vf_vault t; vf_draws := vf_draws t |}.
Definition set_vault (v : FileVault) (t : VaultFile) : VaultFile :=
  {| vf_content := vf_content t; vf_vault := v; vf_draws := vf_draws t |}.
#[export] Instance VaultFile_draws : Draws VaultFile := {|
  draws := vf_draws;
  drawn t := {| vf_content := vf_content t; vf_vault := vf_vault t; vf_draws := S (vf_draws t) |}
|}.

Definition with_secrets (m : option (gmap string string)) (v : FileVault) : FileVault :=
  {| gcm := gcm v; secrets := m; noEncrypt := noEncrypt v |}.

Definition normalizeKey (key : string) : result string string :=
  let raw := if (String.length key =? 32)%nat then Ok key
             else Err "encryption key must be 32 bytes (or 64 hex characters)" in
  if (String.length key =? 64)%nat
  then match hex_decode key with Ok b => Ok b | Err _ => raw end
  else raw.

(** An option of the constructor. *)
Definition WithEncryptionKey (key : string) (v : FileVault) : FileVault :=
  let plaintext := {| gcm := gcm v; secrets := secrets v; noEncrypt := true |} in
  if String.eqb key "" then plaintext
  else match normalizeKey key with
       | Err _ => plaintext
       | Ok k => {| gcm := Some k; secrets := secrets v; noEncrypt := noEncrypt v |}
       end.

Definition NotExist := "file does not exist".

Section file.
Context `{Primitives} `{Entropy} `{RowOrder}.

(** The text of a map, nil or not. *)
Definition marshal_secrets (m : option (gmap string string)) : string :=
  match m with Some m => MarshalStrings m | None => "null" end.

Definition sealed_file (key : option string) (nonce json : string) : string :=
  match key with Some k => hex_encode (nonce ++ seal k nonce json) | None => json end.

(** The JSON in a file. *)
Definition opened_file (key : option string) (data : string) : result string string :=
  match key with
  | None => Ok data
  | Some k =>
      match hex_decode data with
      | Err e => Err ("vault: decode hex: " ++ e)
      | Ok raw =>
          if (String.length raw <? NonceSize)%nat then Err "vault: ciphertext too short"
          else match open k (str_take NonceSize raw) (str_drop NonceSize raw) with
               | Some json => Ok json
               | None => Err "vault: decrypt: cipher: message authentication failed"
               end
      end
  end.

(** What loading the content makes of the map: a document that is not a map of strings is an
    error, and leaves what could be decoded. *)
Definition loaded (v : FileVault) (data : string) : option (gmap string string) * bool :=
  if String.eqb data "" then (secrets v, false)
  else match opened_file (gcm v) data with
       | Err _ => (secrets v, true)
       | Ok json => UnmarshalStrings json (secrets v)
       end.

Definition load : DBE VaultFile unit :=
  content ←? query vf_content;
  match content with
  | None => fail NotExist
  | Some data =>
      p ← reads (fun t => loaded (vf_vault t) data);
      writes (fun t => set_vault (with_secrets p.1 (vf_vault t)) t);;
      if p.2 : bool then fail "vault: failed to load" else ok tt
  end.

(** A nonce, where there is a cipher. *)
Definition fresh_nonce (key : option string) : DBE VaultFile string :=
  match key with
  | None => ok ""
  | Some _ => wrapping "vault: generate nonce"
                (i ←? query draws; writes drawn;; ok (random_bytes i NonceSize))
  end.

Definition save : DBE VaultFile unit :=
  v ← reads vf_vault;
  nonce ←? fresh_nonce (gcm v);
  let fileData := sealed_file (gcm v) nonce (marshal_secrets (secrets v)) in
  wrapping "vault: write temp file" (statement (fun t => t));?
  wrapping "vault: rename" (statement (set_content (Some fileData))).

Definition new_vault (opts : list (FileVault -> FileVault)) : FileVault :=
  fold_left (fun v opt => opt v) opts {| gcm := None; secrets := Some ∅; noEncrypt := false |}.

(** The error of [load] is only logged. *)
Definition NewFileVault (opts : list (FileVault -> FileVault)) : DBE VaultFile unit :=
  writes (set_vault (new_vault opts));;
  wrapping "vault: create directory" (statement (fun t => t));?
  ignoring load;;
  ok tt.

Definition secret (key : string) (t : VaultFile) : string :=
  default "" (default ∅ (secrets (vf_vault t)) !! key).

Definition change (f : gmap string string -> gmap string string) (t : VaultFile) : VaultFile :=
  set_vault (with_secrets (f <$> secrets (vf_vault t)) (vf_vault t)) t.

Definition Get (key : string) : DBE VaultFile string :=
  v ← reads (secret key); ok v.

Definition Set_ (key value : string) : DBE VaultFile unit :=
  if String.eqb value "" then writes (change (delete key));; save
  else
    isnil ← reads (fun t => bool_decide (secrets (vf_vault t) = None));
    if isnil : bool then fail "panic: assignment to entry in nil map"
    else writes (change <[key := value]>);; save.

Definition Delete (key : string) : DBE VaultFile unit :=
  present ← reads (fun t => bool_decide (is_Some (default ∅ (secrets (vf_vault t)) !! key)));
  if present : bool then writes (change (delete key));; save else ok tt.

Definition all_secrets (t : VaultFile) : gmap string string := default ∅ (secrets (vf_vault t)).

Definition List_ : DBE VaultFile (list string) :=
  m ← reads all_secrets; ok (row_order (map_to_list m).*1).
Definition GetAll : DBE VaultFile (gmap string string) := m ← reads all_secrets; ok m.

Definition FileStore : SecretStore VaultFile :=
  {| ss_Get := Get; ss_Set := Set_; ss_Delete := Delete; ss_List := List_; ss_GetAll := GetAll |}.

End file.

(** ** [scoped.go] *)

Definition TrimPrefix (s p : string) : string :=
  if HasPrefix s p then str_drop (String.length p) s else s.

Section scoped.
Context {T : Type}.

Definition prefix (vaultToken : string) : string := "user." ++ vaultToken ++ ".".
Definition scopedKey (vaultToken key : string) : string := prefix vaultToken ++ key.

Definition own_keys (p : string) (all : list string) : list string :=
  (fun k => TrimPrefix k p) <$> List.filter (fun k => HasPrefix k p) all.

(** The map is ranged over in some order; no two keys of the user become one. *)
Definition own_secrets (p : string) (all : gmap string string) : gmap string string :=
  list_to_map ((fun kv => (TrimPrefix kv.1 p, kv.2)) <$>
    List.filter (fun kv => HasPrefix kv.1 p) (map_to_list all)).

Definition NewUserScopedVault (inner : SecretStore T) (vaultToken : string) : SecretStore T :=
  {| ss_Get := fun key => ss_Get inner (scopedKey vaultToken key);
     ss_Set := fun key value => ss_Set inner (scopedKey vaultToken key) value;
     ss_Delete := fun key => ss_Delete inner (scopedKey vaultToken key);
     ss_List := all ←? ss_List inner; ok (own_keys (prefix vaultToken) all);
     ss_GetAll := all ←? ss_GetAll inner; ok (own_secrets (prefix vaultToken) all) |}.

(** [vcs_adapter.go] *)
Definition VCSVaultAdapter_GetScoped (inner : SecretStore T) (vaultToken key : string)
    : DBE T string := ss_Get (NewUserScopedVault inner vaultToken) key.

End scoped.

(** ** [keychain_adapter.go] and [user_id_resolver.go] *)

Section keychain.
Context `{UnicodeTables} `{Primitives} `{Entropy} `{RowOrder} (svc : ServiceConfig).

(** [ForUser]; the clock is that of the request. *)
Definition ForUser (now : Z) (userID : UUID) : SecretStore KeychainStore.Vault :=
  {| ss_Get := user_Get svc now userID;
     ss_Set := user_Set svc now userID;
     ss_Delete := user_Delete now userID;
     ss_List := user_List userID;
     ss_GetAll := user_GetAll svc now userID |}.

Definition UserIDFromVaultToken (token : string) : DBE Store UUID :=
  wrapping "vault: resolve user from vault_token" (query_row (fun s =>
    fst <$> head (where_ (fun _ u => String.eqb (u_VaultToken u) token) (s_users s)))).

Definition VCSKeychainAdapter_GetScoped (now : Z) (vaultToken key : string)
    : DBE (Store * KeychainStore.Vault) string :=
  userID ←? zoom fst (fun s p => (s, p.2)) (UserIDFromVaultToken vaultToken);
  zoom snd (fun v p => (p.1, v)) (ss_Get (ForUser now userID) key).

End keychain.
