(* ===== verification/VaultSafety.v ===== *)
(** * What the secret stores promise

    The file refines a map from tokens and keys to values, restarts included; a stored secret
    survives a restart as soon as its [Set] has returned without an error, whatever failed
    before; the file and the keychain keep the secrets of users apart ([KeepsSecrets]). *)

From Stdlib Require Import ZArith Lia Ascii String.
From stdpp Require Import base list gmap strings sorting.
From S2P Require Import Prelude GoStrings SwarmDb Db KeychainCrypto KeychainStore Keychain KeychainSpec Store Json Vault.
Local Open Scope string_scope.
Local Open Scope rtv_scope.

Section file.
Context `{Primitives} `{Entropy} `{RowOrder}.

(** Keys and values of well-formed UTF-8. *)
Definition texts_ok (m : gmap string string) : Prop :=
  map_Forall (fun k v => utf8_valid 0 k = true /\ utf8_valid 0 v = true) m.

Lemma MarshalStrings_nonempty m : MarshalStrings m <> "".
Proof. unfold MarshalStrings, indented. by destruct (merge_sort _ _). Qed.

Lemma sealed_nonempty key nonce json : json <> "" -> sealed_file key nonce json <> "".
Proof.
  intros Hj. destruct key as [k|]; [|done]. cbn. intros E.
  assert (hex_decode (hex_encode (nonce ++ seal k nonce json)) = Ok "") as E' by by rewrite E.
  rewrite hex_decode_encode in E'. injection E' as E'.
  destruct nonce; [by apply seal_nonempty in E'|done].
Qed.

Lemma opened_sealed key nonce json :
  (key <> None -> String.length nonce = NonceSize) ->
  opened_file key (sealed_file key nonce json) = Ok json.
Proof.
  intros Hn. destruct key as [k|]; [|done]. specialize (Hn ltac:(done)).
  unfold opened_file, sealed_file. rewrite hex_decode_encode, string_app_length, Hn.
  rewrite (proj2 (Nat.ltb_ge _ _)) by lia.
  by rewrite <- Hn, str_take_app, str_drop_app, open_seal.
Qed.

(** A file that was saved gives the map back. *)
Lemma loaded_sealed v nonce m :
  texts_ok m -> (gcm v <> None -> String.length nonce = NonceSize) ->
  default ∅ (secrets v) = (∅ : gmap string string) ->
  loaded v (sealed_file (gcm v) nonce (MarshalStrings m)) = (Some m, false).
Proof.
  intros Hm Hn Hs. unfold loaded.
  rewrite (proj2 (String.eqb_neq _ _)) by by apply sealed_nonempty, MarshalStrings_nonempty.
  rewrite opened_sealed by done. by apply UnmarshalStrings_Marshal.
Qed.

(** ** Durability *)

(** The file holds what is in memory. *)
Definition durable (t : VaultFile) : Prop :=
  exists nonce, (gcm (vf_vault t) <> None -> String.length nonce = NonceSize) /\
    vf_content t = Some (sealed_file (gcm (vf_vault t)) nonce (marshal_secrets (secrets (vf_vault t)))).

Lemma save_durable v :
  ensures (fun t => vf_vault t = v) save
    (fun x t => vf_vault t = v /\ (x = Ok tt -> durable t)).
Proof.
  unfold save. eapply (ensures_bind _ (fun w t => vf_vault t = v /\ w = v)).
  { by apply ensures_reads. }
  intros w. eapply (ensures_try _ (fun nonce t =>
    (vf_vault t = v /\ w = v) /\ (gcm w <> None -> String.length nonce = NonceSize))).
  { unfold fresh_nonce. destruct (gcm w) as [k|]; [|by apply ensures_ret].
    apply ensures_wrapping. eapply (ensures_try _ (fun _ t => vf_vault t = v /\ w = v)).
    { by apply ensures_query; [|by intros t [-> ?]]. }
    intros i. eapply (ensures_bind _ (fun _ t => vf_vault t = v /\ w = v)).
    { by apply ensures_writes. }
    intros u. apply ensures_ret. intros t Ht. split; [done|]. intros _. apply random_bytes_length. }
  intros nonce. apply ensures_pure. intros Hn.
  eapply (ensures_try _ (fun _ t => vf_vault t = v /\ w = v)).
  { apply ensures_wrapping, ensures_statement; [done|]. by intros t [-> ?]. }
  intros u. apply ensures_wrapping, ensures_statement; [|by intros t [-> ?]].
  intros t [Ht ->]. split; [done|]. intros _. exists nonce. cbn. by rewrite Ht.
Qed.

(** Opening a file. *)
Lemma NewFileVault_quiet opts t :
  NewFileVault opts (quiet t) =
  (Ok tt, quiet (set_vault (match vf_content t with
                            | Some data => with_secrets (loaded (new_vault opts) data).1 (new_vault opts)
                            | None => new_vault opts end) t)).
Proof.
  destruct t as [[data|] v n]; [|reflexivity].
  unfold NewFileVault, load, ignoring, wrapping, statement, query, try_bind, mbind, DB_bind, reads, writes, ok, fail, mret, DB_ret, next_fails.
  cbn. by destruct (loaded (new_vault opts) data) as [m []].
Qed.

Lemma Set_ok key value t fs t' fs' :
  value <> "" -> Set_ key value (MkRun t fs) = (Ok tt, MkRun t' fs') ->
  secrets (vf_vault t) <> None /\ vf_vault t' = vf_vault (change <[key := value]> t) /\ durable t'.
Proof.
  intros Hv E. unfold Set_ in E. rewrite (proj2 (String.eqb_neq _ _) Hv) in E.
  unfold mbind, DB_bind, reads, writes in E. cbn in E.
  destruct (secrets (vf_vault t)) as [m|] eqn:Em; cbn in E; [|done].
  pose proof (save_durable (vf_vault (change <[key := value]> t))
    (MkRun (change <[key := value]> t) fs) eq_refl) as Hd.
  unfold set_tables in E. cbn in E. rewrite E in Hd. cbn in Hd. destruct Hd; auto.
Qed.

(** A store that answers [Set] without an error has written the value: a vault opened on the
    file with the same key holds it, and every other secret, whatever failed before. *)
Theorem Set_survives_restart opts key value t fs t' fs' :
  value <> "" ->
  Set_ key value (MkRun t fs) = (Ok tt, MkRun t' fs') ->
  gcm (vf_vault t) = gcm (new_vault opts) -> secrets (new_vault opts) = Some ∅ ->
  texts_ok (<[key := value]> (all_secrets t)) ->
  exists t'', NewFileVault opts (quiet t') = (Ok tt, quiet t'') /\
    all_secrets t'' = <[key := value]> (all_secrets t).
Proof.
  intros Hv E Hg Hs Hok. destruct (Set_ok _ _ _ _ _ _ Hv E) as (Hnil & Hm & nonce & Hn & Hc).
  rewrite NewFileVault_quiet, Hc, Hm. eexists. split; [reflexivity|].
  destruct (secrets (vf_vault t)) as [m|] eqn:Em; [|done].
  assert (all_secrets t = m) as Ha by (unfold all_secrets; by rewrite Em).
  rewrite Hm in Hn. cbn in Hn |- *. rewrite Em, Ha in *. cbn. rewrite Hg in Hn |- *.
  by rewrite (loaded_sealed (new_vault opts) nonce) by (done || by rewrite Hs).
Qed.

(** ** Refinement *)

Inductive VaultOp :=
  | VGet (token key : string)
  | VSet (token key value : string)
  | VDelete (token key : string)
  | VAll (token : string)
  | VRestart.

Inductive VaultOut := VDone | VText (s : string) | VMap (m : gmap string string) | VBroken.

(** A map from tokens and keys to values, where no value is empty. *)
Definition vault_spec (op : VaultOp) (m : gmap (string * string) string)
    : VaultOut * gmap (string * string) string :=
  match op with
  | VGet token key => (VText (default "" (m !! (token, key))), m)
  | VSet token key value =>
      (VDone, if String.eqb value "" then delete (token, key) m else <[(token, key) := value]> m)
  | VDelete token key => (VDone, delete (token, key) m)
  | VAll token =>
      (VMap (default ∅ (map_curry (M1 := gmap string) (M2 := gmap string) m !! token)), m)
  | VRestart => (VDone, m)
  end.

Section refinement.
Variable opts : list (FileVault -> FileVault).
Hypothesis fresh : secrets (new_vault opts) = Some ∅.

(** The file through the views of its users; a restart opens it again. *)
Definition vault_run (op : VaultOp) (t : VaultFile) : VaultOut * VaultFile :=
  let view token := NewUserScopedVault FileStore token in
  let unit_out (r : result unit string) := match r with Ok _ => VDone | Err _ => VBroken end in
  match op with
  | VGet token key =>
      let '(r, t) := ss_Get (view token) key (quiet t) in
      (match r with Ok v => VText v | Err _ => VBroken end, tables t)
  | VSet token key value =>
      let '(r, t) := ss_Set (view token) key value (quiet t) in (unit_out r, tables t)
  | VDelete token key =>
      let '(r, t) := ss_Delete (view token) key (quiet t) in (unit_out r, tables t)
  | VAll token =>
      let '(r, t) := ss_GetAll (view token) (quiet t) in
      (match r with Ok m => VMap m | Err _ => VBroken end, tables t)
  | VRestart => let '(r, t) := NewFileVault opts (quiet t) in (unit_out r, tables t)
  end.

Fixpoint vault_outs (ops : list VaultOp) (t : VaultFile) : list VaultOut :=
  match ops with
  | [] => []
  | op :: ops => let '(o, t) := vault_run op t in o :: vault_outs ops t
  end.
Fixpoint spec_outs (ops : list VaultOp) (m : gmap (string * string) string) : list VaultOut :=
  match ops with
  | [] => []
  | op :: ops => let '(o, m) := vault_spec op m in o :: spec_outs ops m
  end.

(** Tokens have 64 bytes; keys and values are well-formed. *)
Definition token_ok (token : string) : Prop :=
  String.length token = 64%nat /\ forall s, utf8_valid 0 s = true -> utf8_valid 0 (scopedKey token s) = true.
Definition op_ok (op : VaultOp) : Prop :=
  match op with
  | VGet token _ | VDelete token _ | VAll token => token_ok token
  | VSet token key value => token_ok token /\ utf8_valid 0 key = true /\ utf8_valid 0 value = true
  | VRestart => True
  end.

Lemma app_inj_length (a b s t : string) :
  String.length a = String.length b -> a ++ s = b ++ t -> a = b /\ s = t.
Proof.
  revert b. induction a as [|x a IH]; intros [|y b] Hl E; try done; cbn in *.
  injection Hl as Hl. injection E as -> E. by destruct (IH b Hl E) as [-> ->].
Qed.

Lemma scopedKey_inj a b s t :
  String.length a = String.length b -> scopedKey a s = scopedKey b t -> a = b /\ s = t.
Proof.
  intros Hl E. unfold scopedKey, prefix in E. rewrite !string_app_assoc in E.
  apply (app_inj_length "user.") in E as [_ E]; [|done].
  apply app_inj_length in E as [-> E]; [|done]. by apply (app_inj_length "." ".") in E as [_ ->].
Qed.

Lemma TrimPrefix_app p s : TrimPrefix (p ++ s) p = s.
Proof. unfold TrimPrefix. by rewrite HasPrefix_refl, str_drop_app. Qed.

Lemma trimmed_elem p (l : list (string * string)) k v :
  (k, v) ∈ ((fun kv => (TrimPrefix kv.1 p, kv.2)) <$>
    List.filter (fun kv => HasPrefix kv.1 p) l) <-> (p ++ k, v) ∈ l.
Proof.
  rewrite list_elem_of_fmap. split.
  - intros ([k1 v1] & [= -> ->] & Hf). apply base.list_elem_of_In, filter_In in Hf as [Hf Hp].
    cbn [fst snd] in *. apply HasPrefix_spec in Hp as [s ->]. rewrite TrimPrefix_app.
    by apply base.list_elem_of_In.
  - intros Hk. exists (p ++ k, v). cbn. rewrite TrimPrefix_app. split; [done|].
    apply base.list_elem_of_In, filter_In. split; [by apply base.list_elem_of_In|].
    apply HasPrefix_refl.
Qed.

Lemma trimmed_NoDup p (l : list (string * string)) :
  NoDup l.*1 -> NoDup ((fun kv => (TrimPrefix kv.1 p, kv.2)) <$>
    List.filter (fun kv => HasPrefix kv.1 p) l).*1.
Proof.
  induction l as [|[k v] l IH]; [done|]. intros [Hk Hl]%NoDup_cons. cbn.
  destruct (HasPrefix k p) eqn:Hp; [|by apply IH]. apply HasPrefix_spec in Hp as [s ->].
  cbn. apply NoDup_cons. split; [|by apply IH]. rewrite TrimPrefix_app. intros Hin. apply Hk.
  apply list_elem_of_fmap in Hin as ([k' w] & -> & Hin). apply trimmed_elem in Hin.
  apply list_elem_of_fmap. by exists (p ++ k', w).
Qed.

Lemma own_secrets_lookup p (m : gmap string string) k : own_secrets p m !! k = m !! (p ++ k).
Proof.
  apply option_eq. intros v. unfold own_secrets. rewrite <- (elem_of_map_to_list m (p ++ k)), <- trimmed_elem.
  symmetry. apply elem_of_list_to_map, trimmed_NoDup, NoDup_fst_map_to_list.
Qed.

(** The file holds the map. *)
Record vault_sim (t : VaultFile) (m : gmap (string * string) string) : Prop := {
  vs_cipher : gcm (vf_vault t) = gcm (new_vault opts);
  vs_secrets : exists M, secrets (vf_vault t) = Some M /\ texts_ok M /\
    forall token key, token_ok token -> M !! scopedKey token key = m !! (token, key);
  vs_content : durable t \/ (vf_content t = None /\ secrets (vf_vault t) = Some ∅)
}.

Lemma save_quiet t :
  exists t', save (quiet t) = (Ok tt, quiet t') /\ vf_vault t' = vf_vault t /\ durable t'.
Proof.
  assert (exists t', save (quiet t) = (Ok tt, quiet t')) as [t' E].
  { unfold save, fresh_nonce. destruct t as [c [[k|] m e] n]; by eexists. }
  exists t'. split; [done|].
  pose proof (save_durable (vf_vault t) (quiet t) eq_refl) as Hd. rewrite E in Hd.
  destruct Hd as [? Hd]. auto.
Qed.

(** A change of one key of one user. *)
Lemma change_sim t m token key f g :
  vault_sim t m -> token_ok token ->
  (forall M, texts_ok M -> texts_ok (f M)) ->
  (forall M, f M !! scopedKey token key = g (M !! scopedKey token key)) ->
  (forall M k, k <> scopedKey token key -> f M !! k = M !! k) ->
  exists t', (writes (change f);; save) (quiet t) = (Ok tt, quiet t') /\
    vault_sim t' (partial_alter g (token, key) m).
Proof.
  intros [Hg (M & HM & Hok & Hlook) _] Htok Hf Hf1 Hf2.
  destruct (save_quiet (change f t)) as (t' & E & Hv & Hd). exists t'. split; [exact E|].
  split; rewrite ?Hv; [done| |by left]. exists (f M). split; [by cbn; rewrite HM|].
  split; [by apply Hf|]. intros token' key' Htok'.
  destruct (decide (scopedKey token key = scopedKey token' key')) as [Heq|Hne].
  - apply scopedKey_inj in Heq as [-> ->]; [|by destruct Htok, Htok'; congruence].
    rewrite lookup_partial_alter_eq, Hf1. by rewrite Hlook.
  - rewrite lookup_partial_alter_ne by (intros [= -> ->]; done). rewrite Hf2 by done. by apply Hlook.
Qed.

Lemma texts_ok_delete M k : texts_ok M -> texts_ok (delete k M).
Proof. apply map_Forall_delete. Qed.

Lemma vault_run_sim op t m :
  op_ok op -> vault_sim t m ->
  (vault_run op t).1 = (vault_spec op m).1 /\ vault_sim (vault_run op t).2 (vault_spec op m).2.
Proof.
  intros Hop Hs. pose proof Hs as [Hg (M & HM & Hok & Hlook) Hc]. destruct op as [token key|token key value|token key|token|].
  - split; [|done]. change (VText (secret (scopedKey token key) t) = VText (default "" (m !! (token, key)))).
    unfold secret. rewrite HM. cbn [default]. by rewrite <- Hlook.
  - destruct Hop as (Htok & Hk & Hv). cbn [vault_run vault_spec fst snd].
    change (ss_Set (NewUserScopedVault FileStore token) key value)
      with (Set_ (scopedKey token key) value). unfold Set_.
    destruct (String.eqb_spec value "") as [->|Hne].
    + destruct (change_sim t m token key (delete (scopedKey token key)) (fun _ => None) Hs Htok)
        as (t' & E & Hs'); [intros M'; apply texts_ok_delete|intros M'; apply lookup_delete_eq| |].
      { intros M' k Hne. by rewrite lookup_delete_ne. }
      rewrite E. done.
    + assert (forall M', texts_ok M' -> texts_ok (<[scopedKey token key := value]> M')) as Hins.
      { intros M' HM'. apply map_Forall_insert_2; [|done]. split; [|done]. by apply Htok. }
      destruct (change_sim t m token key (insert (scopedKey token key) value) (fun _ => Some value)
        Hs Htok Hins) as (t' & E & Hs').
      { intros M'. apply lookup_insert_eq. }
      { intros M' k Hk'. by rewrite lookup_insert_ne. }
      rewrite (bind_run _ _ _ _ (quiet t) (eq_refl : reads _ (quiet t) = _)).
      cbn beta. change (tables (quiet t)) with t. rewrite HM.
      rewrite bool_decide_false by done. rewrite E. done.
  - cbn [vault_run vault_spec fst snd].
    change (ss_Delete (NewUserScopedVault FileStore token) key) with (Delete (scopedKey token key)).
    unfold Delete. rewrite (bind_run _ _ _ _ (quiet t) (eq_refl : reads _ (quiet t) = _)).
    cbn beta. change (tables (quiet t)) with t. rewrite HM. cbn [default]. case_bool_decide as Hin.
    + destruct (change_sim t m token key (delete (scopedKey token key)) (fun _ => None) Hs Hop)
        as (t' & E & Hs'); [intros M'; apply texts_ok_delete|intros M'; apply lookup_delete_eq| |].
      { intros M' k Hne. by rewrite lookup_delete_ne. }
      rewrite E. done.
    + split; [done|]. cbn. rewrite delete_id; [done|]. rewrite <- Hlook by done.
      by apply eq_None_not_Some.
  - split; [|done].
    change (VMap (own_secrets (prefix token) (all_secrets t)) =
            VMap (default ∅ (map_curry (M1 := gmap string) (M2 := gmap string) m !! token))).
    f_equal. apply map_eq. intros k. rewrite own_secrets_lookup.
    unfold all_secrets. rewrite HM. cbn [default from_option].
    change (prefix token ++ k) with (scopedKey token k). rewrite Hlook by done. rewrite <- lookup_map_curry.
    by destruct (map_curry m !! token).
  - cbn [vault_run vault_spec fst snd]. rewrite NewFileVault_quiet. cbn. split; [done|].
    destruct Hc as [(nonce & Hn & Hc)|[Hc He]]; rewrite Hc; cbn.
    + rewrite HM in Hc. cbn in Hc. rewrite HM. cbn [marshal_secrets]. rewrite Hg in *.
      rewrite (loaded_sealed (new_vault opts) nonce) by (done || by rewrite fresh). cbn.
      split; cbn; [done| |]; [by exists M|]. left. exists nonce. by cbn.
    + rewrite HM in He. injection He as ->. split; cbn; [done| |by right].
      exists ∅. by rewrite fresh.
Qed.

Definition closed_vault : VaultFile :=
  {| vf_content := None; vf_vault := new_vault opts; vf_draws := 0 |}.

(** C9: Used through the views of its users, the file is a map from tokens and keys to values:
    reads give what was stored last under the token and the key, users do not see each other,
    and opening the file again changes nothing.  It is so while no read or write of the file
    fails, the file begins missing and is opened with the same options, that is the same key,
    each time (with another key the next write loses everything: McpLimits.[wrong_key_loses_secrets]),
    every token has 64 bytes and keeps texts well-formed when it is put before them, and the keys
    and values that are stored are valid UTF-8 (JSON would replace other bytes). *)
Theorem file_vault_refines_map ops :
  Forall op_ok ops -> vault_outs ops closed_vault = spec_outs ops ∅.
Proof.
  intros Hops. assert (vault_sim closed_vault ∅) as Hs.
  { split; [done| |by right]. exists ∅. split_and!; [exact fresh|done|].
    intros. by rewrite !lookup_empty. }
  revert Hs. generalize closed_vault (∅ : gmap (string * string) string).
  induction Hops as [|op ops Hop _ IH]; intros t m Hs; [done|]. cbn.
  destruct (vault_run_sim op t m Hop Hs) as [E Hs'].
  destruct (vault_run op t) as [o t'], (vault_spec op m) as [o' m']. cbn in *. subst o'.
  by rewrite (IH t' m').
Qed.

End refinement.
End file.

(** ** Secrets of users kept apart *)

Section file_keeps.
Context `{Primitives} `{Entropy} `{RowOrder}.

(** The vault tokens of the users, which tell keys of the file apart, as distinct tokens without
    a dot do. *)
Variable tokens : UUID -> string.
Hypothesis tokens_inj : forall u u' s t,
  scopedKey (tokens u) s = scopedKey (tokens u') t -> u = u' /\ s = t.

Lemma stays_save (P : FileVault -> Prop) : stays (fun t => P (vf_vault t)) save.
Proof.
  intros r Hr. pose proof (save_durable (vf_vault (tables r)) r eq_refl) as [E _]. by rewrite E.
Qed.

Definition file_within (R : UUID -> string -> string -> Prop) (v : FileVault) : Prop :=
  forall u k s, default ∅ (secrets v) !! scopedKey (tokens u) k = Some s -> R u k s.

#[export, refine] Instance file_keeps
    : KeepsSecrets (fun _ u => NewUserScopedVault FileStore (tokens u)) := {|
  legal := fun _ => True;
  within := fun R t => file_within R (vf_vault t)
|}.
Proof.
  - intros R R' t HR Ht u k s Hs. by apply HR, Ht.
  - intros R _ u k _. cbn. unfold Get. eapply (ensures_bind _ (fun s t =>
      file_within R (vf_vault t) /\ (s = "" \/ R u k s))).
    { apply ensures_reads. intros t Ht. split; [done|]. unfold secret.
      destruct (_ !! _) as [s|] eqn:E; [|by left]. right. by apply Ht. }
    intros s. apply ensures_ret. intros t [Ht Hs]. split; [done|]. by intros v [= <-].
  - intros R _ u k v _ Hv. cbn. unfold Set_. destruct (String.eqb_spec v "") as [->|Hne].
    + apply stays_bind; [|intros; apply stays_save]. apply stays_writes.
      intros t Ht u' k' s. cbn. intros Hs. apply Ht. destruct (secrets (vf_vault t)); [|done].
      cbn in *. by apply lookup_delete_Some in Hs as [_ Hs].
    + apply stays_bind; [apply stays_reads|]. intros []; [apply stays_ret|].
      apply stays_bind; [|intros; apply stays_save]. apply stays_writes.
      intros t Ht u' k' s. cbn. destruct (secrets (vf_vault t)) as [m|] eqn:E; cbn.
      * intros [[Heq <-]|[_ Hs]]%lookup_insert_Some.
        -- apply tokens_inj in Heq as [-> ->]. auto.
        -- apply Ht. by rewrite E.
      * done.
  - intros R _ u k _. cbn. unfold Delete. apply stays_bind; [apply stays_reads|].
    intros []; [|apply stays_ret]. apply stays_bind; [|intros; apply stays_save].
    apply stays_writes. intros t Ht u' k' s. cbn. intros Hs. apply Ht.
    destruct (secrets (vf_vault t)); [|done]. cbn in *. by apply lookup_delete_Some in Hs as [_ Hs].
  - intros R _ u. cbn. unfold GetAll.
    eapply (ensures_try _ (fun m t => file_within R (vf_vault t) /\ m = all_secrets t)).
    { eapply (ensures_bind _ (fun m t => file_within R (vf_vault t) /\ m = all_secrets t)).
      - by apply ensures_reads.
      - intros m. by apply ensures_ret. }
    intros m. apply ensures_ret. intros t [Ht ->]. split; [done|]. intros m k v [= <-].
    rewrite own_secrets_lookup. apply Ht.
Defined.

End file_keeps.

Section keychain_keeps.
Context `{UnicodeTables} `{Primitives} `{Entropy} `{RowOrder} (svc : ServiceConfig).
Notation VT := KeychainStore.Vault.

(** Nothing but the audit log and the draws differ. *)
Definition frame (v0 v : VT) : Prop := same_tables v0 v /\ same_cache v0 v.

Lemma frame_refl v : frame v v.
Proof. done. Qed.
Lemma frame_trans v1 v2 v3 : frame v1 v2 -> frame v2 v3 -> frame v1 v3.
Proof. intros [[] []] [[] []]. split; split; congruence. Qed.
Lemma frame_drawn v0 v : frame v0 v -> frame v0 (drawn v).
Proof. intros Hf. by apply (frame_trans _ v). Qed.

Lemma LogAccess_frame now v0 u a name ip ua : stays (frame v0) (LogAccess now u a name ip ua).
Proof.
  unfold LogAccess, new_uuid. stay.
Qed.

Lemma read_random_frame v0 n what :
  ensures (frame v0) (read_random n what)
    (fun x v => frame v0 v /\ forall s, x = Ok s -> exists i, s = random_bytes i n).
Proof.
  unfold read_random. apply ensures_wrapping. eapply (ensures_try _ (fun _ => frame v0)).
  { apply ensures_query; [done|]. intros v Hv. split; [done|]. by intros s. }
  intros i. eapply (ensures_bind _ (fun _ => frame v0)).
  { apply ensures_writes. intros v. apply frame_drawn. }
  intros u. apply ensures_ret. intros v Hv. split; [done|]. intros s [= <-]. by exists i.
Qed.

Lemma encrypt_frame v0 key p :
  ensures (frame v0) (encrypt key p)
    (fun x v => frame v0 v /\ forall c, x = Ok c -> exists t : VT, c = sealed t key p).
Proof.
  unfold encrypt. destruct (newGCM key) as [u|e].
  2: { apply ensures_ret. intros v Hv. split; [done|]. by intros c. }
  eapply (ensures_try _ (fun nonce v => frame v0 v /\ exists i, nonce = random_bytes i NonceSize)).
  - eapply ensures_conseq; [apply (read_random_frame v0)|done|]. intros [s|e] v [Hv Hs].
    + split; [done|]. by apply Hs.
    + split; [done|]. by intros c.
  - intros nonce. apply ensures_ret. intros v [Hv [i ->]]. split; [done|]. intros c [= <-].
    exists {| v_keychains := ∅; v_secrets := ∅; v_audit := []; v_cache := ∅; v_keys := [];
              v_draws := i |}. done.
Qed.

(** The keys that are loaded are those of the user. *)
Lemma LoadKeys_frame now v0 u :
  cache_ok svc v0 ->
  ensures (fun v => v = v0) (LoadKeys svc now u) (fun x v => same_tables v0 v /\ cache_ok svc v /\
    forall i, x = Ok i -> exists dk, user_keys svc v0 u = Some dk /\ keys_at i v = dk).
Proof.
  intros Hc. assert (forall e v, v = v0 -> same_tables v0 v /\ cache_ok svc v /\
    forall i, @Err nat string e = Ok i -> exists dk, user_keys svc v0 u = Some dk /\ keys_at i v = dk)
    as Hfail by by intros e v ->.
  unfold LoadKeys. eapply (ensures_bind _ (fun c v => v = v0 /\ c = cached now u v0)).
  { apply ensures_reads. by intros v ->. }
  intros c. apply ensures_pure. intros ->. destruct (cached now u v0) as [i|] eqn:Ei.
  { apply ensures_ret. intros v ->. split_and!; [done|done|]. intros i' [= <-].
    unfold cached in Ei. destruct (v_cache v0 !! u) as [ck|] eqn:E; [|done].
    destruct (_ <? _)%Z; [|done]. injection Ei as <-. destruct (ca_keys _ _ Hc _ _ E) as [[dk Hdk] Hk].
    exists dk. split; [done|]. unfold keys_at. by rewrite Hk, Hdk. }
  eapply (ensures_bind _ (fun x v => v = v0 /\ forall kc, x = Ok kc -> v_keychains v0 !! u = Some kc)).
  { apply ensures_query_row; [|by intros v e ->]. intros v kc -> E. split; [done|]. by intros ? [= <-]. }
  intros [kc|e]; [|apply ensures_ret; intros v [Hv _]; by apply Hfail].
  apply ensures_pure. intros Hkc. specialize (Hkc kc eq_refl).
  eapply (ensures_bind _ (fun x v => v = v0 /\
    forall e, x = Ok e -> v_secrets v0 !! (u, master_name, 0%N) = Some e)).
  { apply ensures_query_row; [|by intros v e ->]. intros v e -> E. split; [done|]. intros ? [= <-].
    unfold find_secret in E. destruct (v_secrets v0 !! _) as [e'|] eqn:E'; [|done].
    case_bool_decide; [|done]. injection E as <-. done. }
  intros [e|e]; [|apply ensures_ret; intros v [Hv _]; by apply Hfail].
  apply ensures_pure. intros He. specialize (He e eq_refl). unfold lift_result.
  eapply (ensures_try _ (fun m v => v = v0 /\
    UnwrapDEK (svc_serverMasterKey svc) (se_Ciphertext e) = Ok m)).
  { apply ensures_wrapping, ensures_ret. intros v Hv.
    destruct (UnwrapDEK _ _); [done|by apply Hfail]. }
  intros m. apply ensures_pure. intros Em.
  eapply (ensures_try _ (fun dk v => v = v0 /\ DeriveKeys m (uk_Salt kc) = Ok dk)).
  { apply ensures_wrapping, ensures_ret. intros v Hv.
    destruct (DeriveKeys m (uk_Salt kc)); [done|by apply Hfail]. }
  intros dk. apply ensures_pure. intros Ed.
  assert (user_keys svc v0 u = Some dk) as Hdk.
  { unfold user_keys. rewrite Hkc. cbn. by rewrite He; cbn; rewrite Em, Ed. }
  intros [v fs] Hv. cbn in Hv. subst v. cbn.
  split_and!; [done|by apply (cache_keys_ok svc v0 u dk)|]. intros i [= <-]. exists dk. split; [done|].
  unfold keys_at. change (default {| EncryptionKey := ""; AuthKey := ""; SyncKey := "" |}
    ((v_keys v0 ++ [dk])%list !! List.length (v_keys v0)) = dk).
  by rewrite lookup_app_r, Nat.sub_diag by done.
Qed.

(** What a user's keychain holds outside the row of the master key. *)
Definition keyed (v : VT) : Prop := map_Forall (fun k e => secret_key e = k) (v_secrets v).
Definition keychain_within (R : UUID -> string -> string -> Prop) (v : VT) : Prop :=
  (cache_ok svc v /\ keyed v) /\
  forall u k p, k <> master_name -> revealed svc v (u, k, 0%N) = Some p -> R u k p.

Lemma within_frame R v0 v : keychain_within R v0 -> frame v0 v -> keychain_within R v.
Proof.
  intros [[Hc Hk0] HR] [Ht Hs]. split.
  { split; [by eapply cache_ok_same|]. unfold keyed. by destruct Ht as [_ ->]. }
  intros u k p Hk.
  rewrite (revealed_same svc v0 v) by done. by apply HR.
Qed.

Lemma within_tables R v0 v :
  keychain_within R v0 -> same_tables v0 v -> cache_ok svc v -> keychain_within R v.
Proof.
  intros [[_ Hk0] HR] Ht Hc. split.
  { split; [done|]. unfold keyed. by destruct Ht as [_ ->]. }
  intros u k p Hk.
  rewrite (revealed_same svc v0 v) by done. by apply HR.
Qed.

(** A change of one secret. *)
Lemma within_but R v0 v u k :
  keychain_within R v0 -> k <> master_name -> same_but (u, k, 0%N) v0 v ->
  (forall e, v_secrets v !! (u, k, 0%N) = Some e -> secret_key e = (u, k, 0%N)) ->
  (forall p, revealed svc v (u, k, 0%N) = Some p -> R u k p) -> keychain_within R v.
Proof.
  intros [[Hc Hk0] HR] Hk Hb He Hp. split.
  { split; [by eapply (cache_ok_but svc (u, k, 0%N))|]. intros k' e Hk'.
    destruct (decide (k' = (u, k, 0%N))) as [->|Hne]; [by apply He|].
    destruct Hb as (_ & Hb & _). apply Hk0. by rewrite <- Hb. }
  intros u' k' p Hk' Hrev. destruct (decide ((u', k', 0%N) = (u, k, 0%N))) as [[= -> ->]|Hne].
  - by apply Hp.
  - rewrite (revealed_but svc (u, k, 0%N) v0 v) in Hrev by done. by apply HR.
Qed.

(** From a state on, as triples ask for it. *)
Lemma ensures_from {A} (P : VT -> Prop) (Q : A -> VT -> Prop) (m : DB VT A) :
  (forall v0, P v0 -> ensures (fun v => v = v0) m Q) -> ensures P m Q.
Proof. intros Hm r Hr. by apply (Hm _ Hr). Qed.

Lemma LoadKeys_within now R u :
  ensures (keychain_within R) (LoadKeys svc now u) (fun x v => keychain_within R v /\
    forall i, x = Ok i -> exists dk, user_keys svc v u = Some dk /\ keys_at i v = dk).
Proof.
  apply ensures_from. intros v0 Hw. eapply ensures_conseq; [apply (LoadKeys_frame now v0 u)|done|].
  - apply Hw.
  - intros x v (Ht & Hc & Hi). split; [by eapply within_tables|]. intros i Hx.
    rewrite (user_keys_same svc v0 v) by done. by apply Hi.
Qed.

Lemma get_within now R u name :
  name <> master_name ->
  ensures (keychain_within R) (user_Get svc now u name)
    (fun x v => keychain_within R v /\ forall p, x = Ok p -> p = "" \/ R u name p).
Proof.
  intros Hname. unfold user_Get, Keychain.GetSecret, getSecretInternal.
  eapply (ensures_try _ (fun i v => keychain_within R v /\
    exists dk, user_keys svc v u = Some dk /\ keys_at i v = dk)).
  { eapply ensures_conseq; [apply (LoadKeys_within now R u)|done|]. intros [i|e] v [Hw Hi].
    - split; [done|]. by apply Hi.
    - split; [done|]. by intros p. }
  intros i. unfold get_with. apply ensures_from. intros v0 [Hw (dk & Hdk & Hi)].
  eapply (ensures_bind _ (fun x v => v = v0 /\
    forall e, x = Ok e -> v_secrets v0 !! (u, name, 0%N) = Some e)).
  { apply ensures_query_row; [|by intros v e ->]. intros v e -> E. split; [done|]. intros ? [= <-].
    unfold find_secret in E. destruct (v_secrets v0 !! _) as [e'|] eqn:E'; [|done].
    case_bool_decide; [|done]. injection E as <-. done. }
  intros [e|e]; [|apply ensures_ret; intros v [-> _]; split; [done|by intros p]].
  apply ensures_pure. intros He. specialize (He e eq_refl).
  eapply (ensures_bind _ (fun key v => v = v0 /\ key = EncryptionKey dk)).
  { apply ensures_reads. intros v ->. by rewrite Hi. }
  intros key. apply ensures_pure. intros ->.
  eapply (ensures_try _ (fun p v => v = v0 /\ open_secret (EncryptionKey dk) e = Ok p)).
  { apply ensures_ret. intros v ->. destruct (open_secret _ e); [done|]. split; [done|by intros p]. }
  intros p. apply ensures_pure. intros Hp.
  eapply (ensures_bind _ (fun _ => frame v0)).
  { eapply ensures_conseq; [apply LogAccess_frame|by intros v ->|done]. }
  intros []. apply ensures_ret. intros v Hf. split; [by eapply within_frame|]. intros p' [= <-].
  right. apply Hw; [done|]. unfold revealed. cbn. rewrite Hdk. cbn. rewrite He. cbn.
  unfold reveal. by rewrite Hp.
Qed.

Lemma with_id_frame now v0 e :
  ensures (frame v0) (with_id now e) (fun e' v => frame v0 v /\ exists fresh, e' = stamped now fresh e).
Proof.
  unfold with_id, new_uuid. destruct (se_ID e =? 0)%N.
  2: { apply ensures_ret. intros v Hv. split; [done|]. by exists 0%N. }
  eapply (ensures_bind _ (fun _ => frame v0)).
  { intros [v fs] Hv. cbn. by apply frame_drawn. }
  intros fresh. apply ensures_ret. intros v Hv. split; [done|]. by exists fresh.
Qed.

(** A row with the value takes the place of the old one, or nothing happens. *)
Lemma upsert_within R v0 v u name dk e value :
  keychain_within R v0 -> frame v0 v -> name <> master_name -> user_keys svc v0 u = Some dk ->
  secret_key e = (u, name, 0%N) -> reveal dk e = Some value -> R u name value ->
  keychain_within R (KeychainStore.set_secrets (upsert_secret e) v).
Proof.
  intros Hw Hf Hname Hdk Hk He HR. pose proof (within_frame R v0 v Hw Hf) as Hwv.
  assert (user_keys svc v u = Some dk) as Hdkv
    by (destruct Hf as [Ht _]; by rewrite (user_keys_same svc v0 v)).
  set (v' := KeychainStore.set_secrets _ v).
  assert (same_but (u, name, 0%N) v v') as Hb.
  { split; [done|]. split; [|done]. intros k' Hne. unfold v', upsert_secret. cbn. rewrite Hk.
    destruct (v_secrets v !! _) as [old|]; [destruct (_ <? _)%Z|]; [|done|];
      by rewrite lookup_insert_ne. }
  apply (within_but R v v' u name); [done..| |].
  { intros e0. unfold v'. cbn. unfold upsert_secret. rewrite Hk.
    destruct (v_secrets v !! (u, name, 0%N)) as [old|] eqn:Eo.
    - pose proof (proj2 (proj1 Hwv) _ _ Eo) as Ho. destruct (se_Version old <? se_Version e)%Z.
      + rewrite lookup_insert_eq. intros [= <-]. exact Ho.
      + rewrite Eo. by intros [= <-].
    - rewrite lookup_insert_eq. by intros [= <-]. }
  intros p. unfold revealed. cbn [fst].
  rewrite (user_keys_but svc (u, name, 0%N) v v') by done. rewrite Hdkv. cbn [mbind option_bind].
  unfold v', upsert_secret. cbn. rewrite Hk.
  destruct (v_secrets v !! (u, name, 0%N)) as [old|] eqn:Eo.
  - destruct (se_Version old <? se_Version e)%Z.
    + rewrite lookup_insert_eq. cbn. unfold reveal, open_secret in He |- *. cbn in *.
      destruct (UnwrapDEK _ _) as [d|]; [|done]. destruct (DecryptSecret d _); [|done]. cbn in *.
      intros [= <-]. by injection He as ->.
    + rewrite Eo. intros Hp. apply Hwv; [done|]. unfold revealed. cbn. rewrite Hdkv. cbn.
      by rewrite Eo.
  - rewrite lookup_insert_eq. cbn. rewrite He. by intros [= <-].
Qed.

Lemma put_with_within now (R : UUID -> string -> string -> Prop) v0 i u name category value metadata dk :
  name <> master_name -> R u name value -> keychain_within R v0 ->
  user_keys svc v0 u = Some dk -> keys_at i v0 = dk ->
  ensures (frame v0) (put_with now i u None name category value metadata)
    (fun _ => keychain_within R).
Proof.
  intros Hname HR Hw Hdk Hi. pose proof (user_keys_length svc v0 u dk Hdk) as Hlen.
  assert (forall v, frame v0 v -> keychain_within R v) as Hframe
    by (intros v; by apply within_frame).
  unfold put_with, GenerateDEK.
  eapply (ensures_try _ (fun dek v => frame v0 v /\ exists i, dek = random_bytes i DEKSize)).
  { eapply ensures_conseq; [apply (read_random_frame v0)|done|].
    intros [s|e] v [Hv Hs]; [split; auto|by apply Hframe]. }
  intros dek. apply ensures_pure. intros [j ->]. set (dek := random_bytes j DEKSize).
  assert (String.length dek = 32%nat) as Hdek by apply random_bytes_length.
  eapply (ensures_try _ (fun c v => frame v0 v /\ exists t : VT, c = sealed t dek value)).
  { eapply ensures_conseq; [apply (encrypt_frame v0)|done|].
    intros [s|e] v [Hv Hs]; [split; auto|by apply Hframe]. }
  intros ct. apply ensures_pure. intros [t1 ->].
  eapply (ensures_bind _ (fun key v => frame v0 v /\ key = EncryptionKey dk)).
  { apply ensures_reads. intros v Hv. split; [done|]. destruct Hv as [_ [_ Hk]].
    unfold keys_at in *. by rewrite Hk, Hi. }
  intros key. apply ensures_pure. intros ->.
  eapply (ensures_try _ (fun w v => frame v0 v /\ exists t : VT, w = sealed t (EncryptionKey dk) dek)).
  { eapply ensures_conseq; [apply (encrypt_frame v0)|done|].
    intros [s|e] v [Hv Hs]; [split; auto|by apply Hframe]. }
  intros w. apply ensures_pure. intros [t2 ->].
  eapply (ensures_bind _ (fun _ => frame v0)).
  { apply ensures_query_row; auto. }
  intros existing. cbn zeta. set (entry := Build_SecretEntry _ _ _ _ _ _ _ _ _ _ _).
  eapply (ensures_try _ (fun _ => keychain_within R)).
  { unfold KeychainStore.PutSecret. eapply (ensures_bind _ (fun e v => frame v0 v /\
      exists fresh, e = stamped now fresh entry)).
    { apply with_id_frame. }
    intros e. apply ensures_pure. intros [fresh ->]. apply ensures_wrapping, ensures_statement.
    - intros v Hv. apply (upsert_within R v0 v u name dk _ value); try done.
      unfold reveal, open_secret. cbn. rewrite UnwrapDEK_sealed by done.
      unfold DecryptSecret. by rewrite decrypt_sealed.
    - exact Hframe. }
  intros _. eapply (ensures_bind _ (fun _ => keychain_within R)); [|intros; by apply ensures_ret].
  apply ensures_from. intros v1 Hv1. eapply ensures_conseq; [apply (LogAccess_frame now v1)|by intros v ->|].
  intros u1 v Hv. by apply (within_frame R v1).
Qed.

Lemma delete_within now R u name :
  name <> master_name -> stays (keychain_within R) (user_Delete now u name).
Proof.
  intros Hname. unfold user_Delete, Keychain.DeleteSecret, KeychainStore.DeleteSecret.
  apply stays_try.
  - apply stays_statement. intros v Hw. apply (within_but R v _ u name); [done..| | |].
    + split; [done|]. split; [|done]. intros k Hne. cbn. unfold delete_secret.
      destruct (find_secret _ _ _ _); [by rewrite lookup_delete_ne|done].
    + intros e. cbn. unfold delete_secret.
      destruct (find_secret _ _ _ _); [by rewrite lookup_delete_eq|apply (proj2 (proj1 Hw))].
    + intros p. unfold revealed. rewrite (user_keys_but svc (u, name, 0%N) v); [|done|].
      2: { split; [done|]. split; [|done]. intros k Hne. cbn. unfold delete_secret.
           destruct (find_secret _ _ _ _); [by rewrite lookup_delete_ne|done]. }
      cbn. unfold delete_secret. intros Hp. apply Hw; [done|]. unfold revealed. cbn.
      destruct (user_keys svc v u) as [dk|]; [|done]. cbn in *.
      destruct (find_secret _ _ _ _); [by rewrite lookup_delete_eq in Hp|done].
  - intros _. apply stays_bind; [|intros; apply stays_ret].
    apply ensures_from. intros v1 Hv1. eapply ensures_conseq; [apply (LogAccess_frame now v1)|by intros v ->|].
    intros u1 v Hv. by apply (within_frame R v1).
Qed.

(** A fold that fills a map with what the entries of the user say. *)
Lemma fold_insert_only {A} (f : gmap string string -> A -> gmap string string) (Q : string -> string -> Prop) l :
  (forall a m k v, a ∈ l -> f m a !! k = Some v -> m !! k = Some v \/ Q k v) ->
  forall m k v, fold_left f l m !! k = Some v -> m !! k = Some v \/ Q k v.
Proof.
  induction l as [|a l IH]; intros Hf m k v Hk; [by left|]. cbn in Hk.
  apply IH in Hk as [Hk|Hk]; [|by right|intros; eapply Hf; eauto; by right].
  eapply Hf; eauto. by left.
Qed.

Lemma getall_within now R u :
  ensures (keychain_within R) (user_GetAll svc now u)
    (fun x v => keychain_within R v /\ forall m k p, x = Ok m -> m !! k = Some p -> R u k p).
Proof.
  unfold user_GetAll. apply ensures_from. intros v0 Hw.
  eapply (ensures_try _ (fun es v => v = v0 /\ es = rows_where (is_global u) v0)).
  { apply ensures_query; intros v ->; by split. }
  intros es. apply ensures_pure. intros ->.
  eapply (ensures_try _ (fun i v => keychain_within R v /\ exists dk, user_keys svc v0 u = Some dk /\ keys_at i v = dk)).
  { eapply ensures_conseq; [apply (LoadKeys_frame now v0 u), Hw|done|].
    intros x v (Ht & Hc & Hi). assert (keychain_within R v) by by eapply within_tables.
    destruct x; [auto|by split]. }
  intros i. eapply (ensures_bind _ (fun key v => keychain_within R v /\ exists dk,
    user_keys svc v0 u = Some dk /\ key = EncryptionKey dk)).
  { apply ensures_reads. intros v [Hv (dk & Hdk & <-)]. eauto. }
  intros key. apply ensures_ret. intros v [Hv (dk & Hdk & ->)]. split; [done|].
  intros m k p [= <-] Hk. eapply (fold_insert_only _ (fun k p => R u k p)) in Hk as [[]%lookup_empty_Some|Hk]; [done|].
  clear Hk. intros e m k' p' He. destruct (se_WrappedDEK e); [|auto].
  destruct (String.eqb_spec (se_Name e) master_name) as [|Hne]; [auto|].
  destruct (open_secret (EncryptionKey dk) e) as [q|] eqn:Eq; [|auto].
  intros [[<- <-]|[_ ?]]%lookup_insert_Some; [|auto]. right.
  apply rows_where_elem in He as [[key He] Hg]. unfold is_global in Hg.
  apply andb_prop in Hg as [Hu%N.eqb_eq Hrepo%bool_decide_eq_true].
  pose proof (proj2 (proj1 Hw) _ _ He) as Hkey. unfold secret_key in Hkey.
  rewrite Hu, Hrepo in Hkey. subst key. apply Hw; [done|]. unfold revealed. cbn.
  rewrite Hdk. cbn. change (repo_key None) with 0%N in He. rewrite He. cbn. unfold reveal. by rewrite Eq.
Qed.

#[export, refine] Instance keychain_keeps : KeepsSecrets (ForUser svc) := {|
  legal := fun name => name <> master_name;
  within := keychain_within
|}.
Proof.
  - intros R R' v HR [Hc Hw]. split; [done|]. eauto.
  - intros R now u k Hk. by apply get_within.
  - intros R now u k v Hk Hv. cbn. unfold user_Set. destruct (String.eqb_spec v "") as [->|Hne];
      [by apply delete_within|]. unfold Keychain.PutSecret, putSecretInternal.
    eapply (ensures_try _ (fun i v => keychain_within R v /\
      exists dk, user_keys svc v u = Some dk /\ keys_at i v = dk)).
    { eapply ensures_conseq; [apply (LoadKeys_within now R u)|done|]. intros [i|e] t [Hw Hi]; auto. }
    intros i. apply ensures_from. intros v0 [Hw (dk & Hdk & Hi)].
    eapply ensures_conseq; [apply (put_with_within now R v0 i u k _ v "{}" dk); auto|by intros t ->|done].
  - intros R now u k Hk. by apply delete_within.
  - intros R now u. apply getall_within.
Defined.

End keychain_keeps.
