(* ===== verification/Mcp.v ===== *)
(** * Tool integrations: providers ([internal/mcp]: [provider.go], [custom.go])

    The registry of providers with its circuit breakers and rate limits, templates of custom
    providers and their validation, and the provider that a template becomes.

    A provider is a record of its methods; what a call returns may depend on how many calls came
    before.  The providers of [internal/mcp/providers] are any such records.  The HTTP client and
    the parser of URLs are parameters; a header is a call of [Header.Set], in order.  In texts of
    errors, [%q] adds quotes and no escapes. *)

From Stdlib Require Import ZArith Lia Ascii String.
From stdpp Require Import base list gmap strings sorting.
From S2P Require Import Prelude GoStrings SwarmDb Db Redact Fingerprint Json.
Local Open Scope string_scope.
Local Open Scope rtv_scope.
Local Open Scope Z_scope.

Definition q (s : string) : string := String dquote (s ++ String dquote "").
Definition Params : Type := gmap string Json.

(** ** [provider.go] *)

Record ActionDef := {
  ad_Name : string;
  ad_Description : string;
  ad_RequiredParams : list string;
  ad_OptionalParams : list string;
  ad_ConsentRequired : bool
}.

(** [Result]; a nil map of data is [None]. *)
Record ToolResult := {
  tr_Success : bool;
  tr_Data : option Params;
  tr_Error : string
}.

(** What a refresh returns. *)
Record Refreshed := { rf_Access : string; rf_Refresh : string; rf_ExpiresIn : Z }.

Record Provider := {
  pv_Name : string;
  pv_Category : string;
  pv_Description : string;
  pv_Actions : list ActionDef;
  pv_Execute : nat -> string -> Params -> string -> result ToolResult string;
  pv_RefreshToken : nat -> string -> result Refreshed string
}.

(** *** Circuit breakers *)

(** [cb_openUntil]: the zero time is [None]. *)
Record circuitBreaker := {
  cb_failures : Z;
  cb_threshold : Z;
  cb_resetTimeout : Z;
  cb_openUntil : option Z
}.

Definition newCircuitBreaker (threshold resetTimeout : Z) : circuitBreaker :=
  {| cb_failures := 0; cb_threshold := threshold; cb_resetTimeout := resetTimeout;
     cb_openUntil := None |}.

Definition set_failures (n : Z) (cb : circuitBreaker) : circuitBreaker :=
  {| cb_failures := n; cb_threshold := cb_threshold cb; cb_resetTimeout := cb_resetTimeout cb;
     cb_openUntil := cb_openUntil cb |}.

(** Whether the breaker lets a call through, and what the check makes of it. *)
Definition cb_check (now : Z) (cb : circuitBreaker) : bool * circuitBreaker :=
  if cb_failures cb <? cb_threshold cb then (true, cb)
  else if match cb_openUntil cb with Some t => t <? now | None => true end
  then (true, set_failures 0 cb)
  else (false, cb).

Definition cb_recordSuccess (cb : circuitBreaker) : circuitBreaker := set_failures 0 cb.

Definition cb_recordFailure (now : Z) (cb : circuitBreaker) : circuitBreaker :=
  let cb := set_failures (wrap64 (cb_failures cb + 1)) cb in
  if cb_threshold cb <=? cb_failures cb
  then {| cb_failures := cb_failures cb; cb_threshold := cb_threshold cb;
          cb_resetTimeout := cb_resetTimeout cb;
          cb_openUntil := Some (now + cb_resetTimeout cb) |}
  else cb.

(** *** The registry *)

Record ProviderRegistry := {
  providers : gmap string Provider;
  breakers : gmap string circuitBreaker
}.

Definition NewProviderRegistry : ProviderRegistry := {| providers := ∅; breakers := ∅ |}.

Definition second : Z := 1000000000.

Definition Register (p : Provider) (r : ProviderRegistry) : ProviderRegistry :=
  {| providers := <[pv_Name p := p]> (providers r);
     breakers := <[pv_Name p := newCircuitBreaker 5 (60 * second)]> (breakers r) |}.

Definition registry_Get (name : string) (r : ProviderRegistry) : option Provider :=
  providers r !! name.

Definition Unregister (name : string) (r : ProviderRegistry) : ProviderRegistry :=
  {| providers := delete name (providers r); breakers := delete name (breakers r) |}.

Definition registry_List `{RowOrder} (r : ProviderRegistry) : list string :=
  (range_map (providers r)).*1.

Definition AllActions (name : string) (r : ProviderRegistry) : list ActionDef :=
  match providers r !! name with Some p => pv_Actions p | None => [] end.

(** The lookup of the breaker and its check. *)
Definition CheckCircuitBreaker (now : Z) (provider : string) (r : ProviderRegistry)
    : bool * ProviderRegistry :=
  match breakers r !! provider with
  | None => (true, r)
  | Some cb =>
      let '(ok, cb) := cb_check now cb in
      (ok, {| providers := providers r; breakers := <[provider := cb]> (breakers r) |})
  end.

Definition RecordSuccess (provider : string) (r : ProviderRegistry) : ProviderRegistry :=
  {| providers := providers r; breakers := alter cb_recordSuccess provider (breakers r) |}.
Definition RecordFailure (now : Z) (provider : string) (r : ProviderRegistry)
    : ProviderRegistry :=
  {| providers := providers r; breakers := alter (cb_recordFailure now) provider (breakers r) |}.

(** *** Rate limits *)

Definition limits : list (string * Z) :=
  [("slack", 60); ("ms365", 120); ("gmail", 60); ("discord", 30); ("google_calendar", 60);
   ("google_drive", 60); ("github", 60); ("jira", 60); ("notion", 60); ("gitlab", 60);
   ("confluence", 60); ("linear", 60); ("asana", 60); ("trello", 30); ("figma", 30);
   ("zendesk", 60); ("pagerduty", 60); ("datadog", 60); ("stripe", 30); ("hubspot", 60);
   ("salesforce", 60); ("twilio", 30)].

Definition limit_of (provider : string) : Z :=
  match List.find (fun kv => String.eqb kv.1 provider) limits with
  | Some kv => kv.2
  | None => 60
  end.

(** A key of Redis with its expiry, if it has one. *)
Record Expiring (A : Type) := { ex_value : A; ex_until : option Z }.
Arguments ex_value {A}. Arguments ex_until {A}.

Definition unexpired {A} (now : Z) (e : option (Expiring A)) : option (Expiring A) :=
  e ← e;
  if match ex_until e with Some t => now <? t | None => true end then Some e else None.

(** [INCR], and [EXPIRE] of a minute. *)
Definition incremented (now : Z) (e : option (Expiring Z)) : Expiring Z :=
  match unexpired now e with
  | Some e => {| ex_value := ex_value e + 1; ex_until := ex_until e |}
  | None => {| ex_value := 1; ex_until := None |}
  end.
Definition for_a_minute (now : Z) (e : option (Expiring Z)) : option (Expiring Z) :=
  e ← unexpired now e; Some {| ex_value := ex_value e; ex_until := Some (now + 60 * second) |}.

Definition rate_exceeded (provider : string) (count : Z) : option string :=
  if limit_of provider <? count
  then Some ("rate limit exceeded for provider " ++ provider ++ " (" ++ itoa count ++ "/"
             ++ itoa (limit_of provider) ++ " per minute)")
  else None.

(** The counters of the providers. *)
Definition CheckRateLimit (rdb : bool) (now : Z) (provider : string)
    : DBE (gmap string (Expiring Z)) unit :=
  if negb rdb then ok tt
  else
    let key := "mcp:rl:" ++ provider in
    r ← returning (fun m => let e := incremented now (m !! key) in (ex_value e, <[key := e]> m));
    match r with
    | Err _ => ok tt
    | Ok count =>
        (if count =? 1
         then ignoring (statement (fun m => partial_alter (for_a_minute now) key m))
         else mret tt);;
        match rate_exceeded provider count with Some e => fail e | None => ok tt end
    end.

(** ** [custom.go] *)

Record CustomActionDef := {
  ca_Name : string;
  ca_Description : string;
  ca_Method : string;
  ca_Path : string;
  ca_RequiredParams : list string;
  ca_OptionalParams : list string;
  ca_BodyTemplate : string;
  ca_ConsentRequired : bool
}.

Record CustomMCPTemplate := {
  ct_ID : string;
  ct_Name : string;
  ct_Label : string;
  ct_Category : string;
  ct_Description : string;
  ct_BaseURL : string;
  ct_AuthType : string;
  ct_AuthHeader : string;
  ct_Actions : list CustomActionDef;
  ct_CreatedBy : string;
  ct_CreatedAt : Z;
  ct_UpdatedAt : Z
}.

Record ValidationError := { ve_Field : string; ve_Message : string }.

(** The scheme of a URL ([net/url]), where it can be parsed. *)
Class UrlScheme := { url_scheme : string -> result string string }.

(** [^[a-z][a-z0-9_]{1,48}$] *)
Definition name_char (a : ascii) : bool := is_lower a || is_digit a || Ascii.eqb a "_".
Definition nameRe (s : string) : bool :=
  match s with
  | "" => false
  | String a s => is_lower a && forallb name_char (bytes s)
                  && (1 <=? String.length s)%nat && (String.length s <=? 48)%nat
  end.

(** [\{\{[^}]+\}\}] *)
Definition placeholder_pattern : pattern :=
  seq_of [lit "{{"; at_least 1 (none_of "}"); lit "}}"].

Definition validMethods : list string := ["GET"; "POST"; "PUT"; "PATCH"; "DELETE"].
Definition validAuthTypes : list string := ["bearer"; "basic"; "header"; "query"].
Definition one_of_names (l : list string) (s : string) : bool := existsb (String.eqb s) l.

Section templates.
Context `{UnicodeTables} `{UrlScheme}.

Definition issue (bad : bool) (field message : string) : list ValidationError :=
  if bad then [{| ve_Field := field; ve_Message := message |}] else [].

(** The name of an action, and the names seen so far. *)
Definition check_name (field name : string) (seen : list string)
    : list ValidationError * list string :=
  if String.eqb name "" then (issue true field "Action name is required.", seen)
  else if negb (nameRe name)
  then (issue true field "Action name must be lowercase alphanumeric with underscores.", seen)
  else if one_of_names seen name
  then (issue true field ("Duplicate action name " ++ q name ++ "."), seen)
  else ([], name :: seen).

Definition body_template_ok (t : string) : bool :=
  bool_decide (is_Some (Unmarshal (ReplaceAllPattern placeholder_pattern (q "__test__") t))).

Fixpoint check_actions (i : Z) (actions : list CustomActionDef) (seen : list string)
    : list ValidationError :=
  match actions with
  | [] => []
  | a :: actions =>
      let prefix := "actions[" ++ itoa i ++ "]" in
      let '(errs, seen) := check_name (prefix ++ ".name") (ca_Name a) seen in
      (errs
       ++ issue (String.eqb (ca_Description a) "") (prefix ++ ".description")
            "Action description is required."
       ++ issue (negb (one_of_names validMethods (ToUpper (ca_Method a)))) (prefix ++ ".method")
            "Method must be GET, POST, PUT, PATCH, or DELETE."
       ++ issue (String.eqb (ca_Path a) "") (prefix ++ ".path") "Action path is required."
       ++ issue (negb (String.eqb (ca_BodyTemplate a) "")
                 && negb (body_template_ok (ca_BodyTemplate a))) (prefix ++ ".body_template")
            "Body template must be valid JSON (with {{param}} placeholders)."
       ++ check_actions (i + 1) actions seen)%list
  end.

Definition http_url (s : string) : bool :=
  match url_scheme s with
  | Ok scheme => String.eqb scheme "http" || String.eqb scheme "https"
  | Err _ => false
  end.

Definition ValidateTemplate (t : CustomMCPTemplate) : list ValidationError :=
  ((if String.eqb (ct_Name t) "" then issue true "name" "Name is required."
    else issue (negb (nameRe (ct_Name t))) "name"
           "Name must be lowercase alphanumeric with underscores, 2-49 chars, starting with a letter.")
   ++ issue (String.eqb (ct_Label t) "") "label" "Label is required."
   ++ (if String.eqb (ct_BaseURL t) "" then issue true "base_url" "Base URL is required."
       else issue (negb (http_url (ct_BaseURL t))) "base_url"
              "Base URL must be a valid http/https URL.")
   ++ (if String.eqb (ct_AuthType t) "" then issue true "auth_type" "Auth type is required."
       else issue (negb (one_of_names validAuthTypes (ct_AuthType t))) "auth_type"
              "Auth type must be one of: bearer, basic, header, query.")
   ++ issue (String.eqb (ct_AuthType t) "header" && String.eqb (ct_AuthHeader t) "") "auth_header"
        "Auth header name is required when auth_type is 'header'."
   ++ issue (bool_decide (ct_Actions t = [])) "actions" "At least one action is required."
   ++ check_actions 0 (ct_Actions t) [])%list.

End templates.

(** *** Requests *)

(** [rq_APIKey] is the parameter [api_key] that is set on the query of the URL. *)
Record HttpRequest := {
  rq_Method : string;
  rq_URL : string;
  rq_APIKey : option string;
  rq_Headers : list (string * string);
  rq_Body : option string
}.

(** [rs_Body]: what [ReadAll] makes of the part of the body that is read: here the first 512 KiB. *)
Record HttpResponse := {
  rs_Status : Z;
  rs_ContentType : string;
  rs_Body : result string string
}.

(** [client.Do]; the number tells calls apart. *)
Class HttpClient := { client_Do : nat -> HttpRequest -> result HttpResponse string }.

Definition set_header (k v : string) (r : HttpRequest) : HttpRequest :=
  {| rq_Method := rq_Method r; rq_URL := rq_URL r; rq_APIKey := rq_APIKey r;
     rq_Headers := (rq_Headers r ++ [(k, v)])%list; rq_Body := rq_Body r |}.

Definition applyAuth (token authType authHeader : string) (r : HttpRequest) : HttpRequest :=
  if String.eqb authType "bearer" then set_header "Authorization" ("Bearer " ++ token) r
  else if String.eqb authType "basic" then set_header "Authorization" ("Basic " ++ token) r
  else if String.eqb authType "header" then
    if negb (String.eqb authHeader "") then set_header authHeader token r else r
  else if String.eqb authType "query" then
    {| rq_Method := rq_Method r; rq_URL := rq_URL r; rq_APIKey := Some token;
       rq_Headers := rq_Headers r; rq_Body := rq_Body r |}
  else r.

(** [http.NewRequestWithContext]: a method is a token, and GET where it is empty. *)
Definition token_char (a : ascii) : bool :=
  is_alnum a || existsb (Ascii.eqb a) (bytes "!#$%&'*+-.^_`|~").

Section requests.
Context `{UnicodeTables} `{UrlScheme} `{HttpClient} `{RowOrder} `{FoldTables}.

Definition NewRequest (method url : string) (body : option string) : result HttpRequest string :=
  if negb (forallb token_char (bytes method)) then Err ("net/http: invalid method " ++ q method)
  else match url_scheme url with
       | Err e => Err e
       | Ok _ => Ok {| rq_Method := if String.eqb method "" then "GET" else method;
                       rq_URL := url; rq_APIKey := None; rq_Headers := []; rq_Body := body |}
       end.

Definition failed_result (e : string) : ToolResult :=
  {| tr_Success := false; tr_Data := None; tr_Error := e |}.

(** The numbers of the two requests are [2 * n] and [2 * n + 1]. *)
Definition SimulateConnection (n : nat) (baseURL token authType authHeader : string)
    : result ToolResult string :=
  match NewRequest "HEAD" baseURL None with
  | Err e => Err ("invalid base URL: " ++ e)
  | Ok req =>
      let send i req := client_Do i (applyAuth token authType authHeader req) in
      let concluded resp :=
        if 500 <=? rs_Status resp
        then Ok (failed_result ("Server error: HTTP " ++ itoa (rs_Status resp)))
        else Ok {| tr_Success := true;
                   tr_Data := Some {["status_code" := JNum (itoa (rs_Status resp));
                                     "message" := JStr "Connection successful"]};
                   tr_Error := "" |} in
      match send (2 * n)%nat req with
      | Err e => Ok (failed_result ("Connection failed: " ++ e))
      | Ok resp =>
          if rs_Status resp =? 405 then
            match send (2 * n + 1)%nat
                    {| rq_Method := "GET"; rq_URL := baseURL; rq_APIKey := None; rq_Headers := [];
                       rq_Body := None |} with
            | Err e => Ok (failed_result ("Connection failed: " ++ e))
            | Ok resp => concluded resp
            end
          else concluded resp
      end
  end.

(** *** [CustomMCPProvider] *)

(** [url.PathEscape] *)
Definition hex_upper (n : N) : ascii := if (n <? 10)%N then chr (48 + n) else chr (55 + n).
Definition path_byte (a : ascii) : bool :=
  is_alnum a || existsb (Ascii.eqb a) (bytes "-_.~$&+=:@").
Fixpoint PathEscape (s : string) : string :=
  match s with
  | "" => ""
  | String a s =>
      if path_byte a then String a (PathEscape s)
      else String "%" (String (hex_upper (byte_of a / 16)%N)
             (String (hex_upper (byte_of a mod 16)%N) (PathEscape s)))
  end.

(** The actions have the names of the methods of the provider. *)
Definition custom_Actions (t : CustomMCPTemplate) : list ActionDef :=
  (fun a => {| ad_Name := ca_Name a; ad_Description := ca_Description a;
               ad_RequiredParams := ca_RequiredParams a; ad_OptionalParams := ca_OptionalParams a;
               ad_ConsentRequired := ca_ConsentRequired a |}) <$> ct_Actions t.

(** The loop over the parameters, in the order of the iteration. *)
Definition fill_path (params : Params) (path : string) : string :=
  fold_left (fun path kv =>
    match kv.2 with
    | JStr s => ReplaceAll path ("{" ++ kv.1 ++ "}") (PathEscape s)
    | _ => path
    end) (range_map params) path.

Definition TrimRightSlash (s : string) : string :=
  string_rev (TrimLeft (string_rev s) "/").

Definition full_url (baseURL path : string) : string :=
  TrimRightSlash baseURL ++ "/" ++ TrimLeft path "/".

Definition fill_body (params : Params) (body : string) : string :=
  fold_left (fun body kv =>
    ReplaceAll body ("{{" ++ kv.1 ++ "}}")
      match kv.2 with JStr s => s | v => Marshal v end) (range_map params) body.

Definition request_body (method : string) (a : CustomActionDef) (params : Params)
    : option string :=
  if negb (String.eqb (ca_BodyTemplate a) "") && negb (String.eqb method "GET")
     && negb (String.eqb method "DELETE")
  then Some (fill_body params (ca_BodyTemplate a))
  else if one_of_names ["POST"; "PUT"; "PATCH"] method then
    let bodyData := base.filter (fun kv => HasPrefix kv.1 "_" = false) params in
    if bool_decide (bodyData = ∅) then None else Some (Marshal (obj bodyData))
  else None.

Definition find_custom (t : CustomMCPTemplate) (action : string) : option CustomActionDef :=
  List.find (fun a => EqualFold (ca_Name a) action) (ct_Actions t).

Definition custom_request (t : CustomMCPTemplate) (a : CustomActionDef) (params : Params)
    (token : string) : result HttpRequest string :=
  let method := ToUpper (ca_Method a) in
  let body := request_body method a params in
  match NewRequest method (full_url (ct_BaseURL t) (fill_path params (ca_Path a))) body with
  | Err e => Err e
  | Ok req =>
      let req := set_header "Accept" "application/json"
                   (applyAuth token (ct_AuthType t) (ct_AuthHeader t) req) in
      Ok (if body then set_header "Content-Type" "application/json" req else req)
  end.

(** [json.Unmarshal] into a map. *)
Definition data_of (l : list (string * Json)) : Params :=
  fold_left (fun m kv => <[kv.1 := kv.2]> m) l ∅.

Definition response_data (raw : string) (resp : HttpResponse) : option Params :=
  match Unmarshal raw with
  | Some (JObj l) => Some (data_of l)
  | Some JNull => None
  | _ => Some {["raw_response" := JStr (str_take 500 raw);
                "content_type" := JStr (rs_ContentType resp);
                "status_code" := JNum (itoa (rs_Status resp))]}
  end.

Definition error_text (status : Z) (data : option Params) : string :=
  let field k := match data with Some m => m !! k | None => None end in
  match field "error" with
  | Some (JStr e) => e
  | _ => match field "message" with
         | Some (JStr e) => e
         | _ => "HTTP " ++ itoa status
         end
  end.

Definition custom_Execute (t : CustomMCPTemplate) (n : nat) (action : string) (params : Params)
    (token : string) : result ToolResult string :=
  match find_custom t action with
  | None => Err ("unknown action " ++ q action ++ " for custom provider " ++ q (ct_Name t))
  | Some a =>
      match custom_request t a params token with
      | Err e => Err ("failed to build request: " ++ e)
      | Ok req =>
          match client_Do n req with
          | Err e => Err ("API request failed: " ++ e)
          | Ok resp =>
              match rs_Body resp with
              | Err e => Err ("failed to read response: " ++ e)
              | Ok raw =>
                  if rs_Status resp =? 204 then
                    Ok {| tr_Success := true; tr_Data := Some {["status" := JStr "ok"]};
                          tr_Error := "" |}
                  else
                    let data := response_data raw resp in
                    if 400 <=? rs_Status resp
                    then Ok {| tr_Success := false; tr_Data := data;
                               tr_Error := error_text (rs_Status resp) data |}
                    else Ok {| tr_Success := true; tr_Data := data; tr_Error := "" |}
              end
          end
      end
  end.

Definition NewCustomMCPProvider (t : CustomMCPTemplate) : Provider :=
  {| pv_Name := ct_Name t;
     pv_Category := ct_Category t;
     pv_Description := ct_Description t;
     pv_Actions := custom_Actions t;
     pv_Execute := custom_Execute t;
     pv_RefreshToken := fun _ _ =>
       Err ("custom MCP provider " ++ q (ct_Name t) ++ " does not support token refresh") |}.

End requests.
