(* ===== verification/McpStore.v ===== *)
(** * The tables of tool integrations ([store/mcp_repo.go])

    [mcp_connections], [mcp_call_log] and [mcp_custom_templates] of [db/sql/initData.sql], and
    every statement on them.  The users and organisations that exist are sets of identifiers.
    The database refuses a connection of another provider than the 22 of its [CHECK], a second
    connection of a user to a provider, and a call of a connection that does not exist; deleting
    a connection deletes its calls.  JSON is left out: the actions of a template are kept as the
    Go value.  A nil slice of scopes is NULL. *)

From Stdlib Require Import ZArith Lia Ascii String.
From stdpp Require Import base list gmap strings sorting.
From S2P Require Import Prelude GoStrings SwarmDb Db Store Mcp.
Local Open Scope string_scope.
Local Open Scope rtv_scope.
Local Open Scope Z_scope.

(** ** Rows *)

Record MCPConnection := {
  mc_ID : UUID;
  mc_UserID : UUID;
  mc_OrgID : option UUID;
  mc_IsOrgLevel : bool;
  mc_Provider : string;
  mc_Status : string;
  mc_VaultKey : string;
  mc_RefreshVaultKey : string;
  mc_Scopes : option (list string);
  mc_Metadata : string;
  mc_LastUsedAt : option Z;
  mc_ConnectedAt : Z;
  mc_ExpiresAt : option Z;
  mc_CreatedAt : Z;
  mc_UpdatedAt : Z
}.

Record MCPCallLogEntry := {
  cl_ID : UUID;
  cl_ConnectionID : UUID;
  cl_AgentID : string;
  cl_TaskID : string;
  cl_Action : string;
  cl_InputHash : string;
  cl_OutputHash : string;
  cl_LatencyMs : Z;
  cl_Status : string;
  cl_ErrorMessage : string;
  cl_CreatedAt : Z
}.

Record MCPCustomTemplate := {
  mt_ID : UUID;
  mt_Name : string;
  mt_Label : string;
  mt_Category : string;
  mt_Description : string;
  mt_BaseURL : string;
  mt_AuthType : string;
  mt_AuthHeader : string;
  mt_Actions : list CustomActionDef;
  mt_CreatedBy : UUID;
  mt_OrgID : option UUID;
  mt_CreatedAt : Z;
  mt_UpdatedAt : Z
}.

Record McpTables := {
  mt_users : gset UUID;
  mt_orgs : gset UUID;
  mt_connections : gmap UUID MCPConnection;
  mt_calls : list MCPCallLogEntry;
  mt_templates : gmap UUID MCPCustomTemplate
}.

Definition set_connections (f : gmap UUID MCPConnection -> gmap UUID MCPConnection)
    (t : McpTables) : McpTables :=
  {| mt_users := mt_users t; mt_orgs := mt_orgs t; mt_connections := f (mt_connections t);
     mt_calls := mt_calls t; mt_templates := mt_templates t |}.
Definition set_calls (f : list MCPCallLogEntry -> list MCPCallLogEntry) (t : McpTables)
    : McpTables :=
  {| mt_users := mt_users t; mt_orgs := mt_orgs t; mt_connections := mt_connections t;
     mt_calls := f (mt_calls t); mt_templates := mt_templates t |}.
Definition set_templates (f : gmap UUID MCPCustomTemplate -> gmap UUID MCPCustomTemplate)
    (t : McpTables) : McpTables :=
  {| mt_users := mt_users t; mt_orgs := mt_orgs t; mt_connections := mt_connections t;
     mt_calls := mt_calls t; mt_templates := f (mt_templates t) |}.

(** ** Constraints *)

(** [CHECK (provider IN ...)] *)
Definition known_providers : list string :=
  ["gmail"; "google_calendar"; "google_drive"; "ms365"; "jira"; "confluence"; "github"; "gitlab";
   "slack"; "discord"; "notion"; "linear"; "asana"; "trello"; "figma"; "zendesk"; "pagerduty";
   "datadog"; "stripe"; "hubspot"; "salesforce"; "twilio"].
(** [CHECK (status IN ...)] of connections and of calls *)
Definition connection_statuses : list string := ["pending"; "active"; "expired"; "revoked"; "error"].
Definition call_statuses : list string := ["ok"; "error"; "rate_limited"; "consent_denied"].

Section repository.
Context `{Postgres} `{Collation} `{RowOrder}.

(** Another row with the identifier, or with the pair of a partial unique index. *)
Definition same_pair (c old : MCPConnection) : bool :=
  String.eqb (mc_Provider c) (mc_Provider old) &&
  if mc_IsOrgLevel c
  then mc_IsOrgLevel old && match mc_OrgID c, mc_OrgID old with
                            | Some a, Some b => (a =? b)%N | _, _ => false end
  else negb (mc_IsOrgLevel old) && (mc_UserID c =? mc_UserID old)%N.
Definition connection_duplicate (c : MCPConnection) (t : McpTables) : bool :=
  has (mc_ID c) (mt_connections t)
  || existsb (fun kv => same_pair c kv.2) (rows (mt_connections t)).
Definition connection_accepted (c : MCPConnection) (t : McpTables) : bool :=
  bool_decide (mc_UserID c ∈ mt_users t)
  && match mc_OrgID c with Some o => bool_decide (o ∈ mt_orgs t) | None => true end
  && one_of_names known_providers (mc_Provider c)
  && one_of_names connection_statuses (mc_Status c)
  && text_ok (mc_VaultKey c) && text_ok (mc_RefreshVaultKey c) && text_ok (mc_Metadata c)
  && match mc_Scopes c with Some l => forallb text_ok l | None => false end.

(** [id] is drawn where the connection has no identifier; the zero time is 0. *)
Definition stamped_connection (now : Z) (id : UUID) (c : MCPConnection) : MCPConnection :=
  {| mc_ID := if (mc_ID c =? 0)%N then id else mc_ID c; mc_UserID := mc_UserID c;
     mc_OrgID := mc_OrgID c; mc_IsOrgLevel := mc_IsOrgLevel c; mc_Provider := mc_Provider c;
     mc_Status := mc_Status c; mc_VaultKey := mc_VaultKey c;
     mc_RefreshVaultKey := mc_RefreshVaultKey c; mc_Scopes := mc_Scopes c;
     mc_Metadata := if String.eqb (mc_Metadata c) "" then "{}" else mc_Metadata c;
     mc_LastUsedAt := mc_LastUsedAt c;
     mc_ConnectedAt := if mc_ConnectedAt c =? 0 then now else mc_ConnectedAt c;
     mc_ExpiresAt := mc_ExpiresAt c; mc_CreatedAt := now; mc_UpdatedAt := now |}.

(** [last_used_at] is not among the columns. *)
Definition inserted_connection (c : MCPConnection) : MCPConnection :=
  {| mc_ID := mc_ID c; mc_UserID := mc_UserID c; mc_OrgID := mc_OrgID c;
     mc_IsOrgLevel := mc_IsOrgLevel c; mc_Provider := mc_Provider c; mc_Status := mc_Status c;
     mc_VaultKey := mc_VaultKey c; mc_RefreshVaultKey := mc_RefreshVaultKey c;
     mc_Scopes := mc_Scopes c; mc_Metadata := mc_Metadata c; mc_LastUsedAt := None;
     mc_ConnectedAt := mc_ConnectedAt c; mc_ExpiresAt := mc_ExpiresAt c;
     mc_CreatedAt := mc_CreatedAt c; mc_UpdatedAt := mc_UpdatedAt c |}.

Definition MCP_CreateConnection (now : Z) (id : UUID) (c : MCPConnection)
    : DBE McpTables MCPConnection :=
  let c := stamped_connection now id c in
  inserting (connection_duplicate c) (connection_accepted c)
    (set_connections <[mc_ID c := inserted_connection c]>);?
  ok c.

Definition MCP_GetConnection (id : UUID) : DBE McpTables MCPConnection :=
  query_row (fun t => mt_connections t !! id).

Definition own_or_shared (userID : UUID) (orgID : option UUID) (c : MCPConnection) : bool :=
  (mc_UserID c =? userID)%N
  || (mc_IsOrgLevel c && match mc_OrgID c, orgID with
                         | Some a, Some b => (a =? b)%N | _, _ => false end).

(** [ORDER BY is_org_level ASC LIMIT 1] *)
Definition bool_rank (b : bool) : Z := if b then 1 else 0.
Definition MCP_FindActiveConnection (userID : UUID) (orgID : option UUID) (provider : string)
    : DBE McpTables MCPConnection :=
  query_row (fun t => head (order_by (fun c => bool_rank (mc_IsOrgLevel c))
    (where_ (fun _ c => String.eqb (mc_Provider c) provider && String.eqb (mc_Status c) "active"
                        && own_or_shared userID orgID c) (mt_connections t)).*2)).

(** [ORDER BY provider, is_org_level] *)
Definition MCP_ListByUser (userID : UUID) (orgID : option UUID)
    : DBE McpTables (list MCPConnection) :=
  query (fun t => order_by_text mc_Provider (order_by (fun c => bool_rank (mc_IsOrgLevel c))
    (where_ (fun _ c => own_or_shared userID orgID c) (mt_connections t)).*2)).

Definition with_status (status : string) (c : MCPConnection) : MCPConnection :=
  {| mc_ID := mc_ID c; mc_UserID := mc_UserID c; mc_OrgID := mc_OrgID c;
     mc_IsOrgLevel := mc_IsOrgLevel c; mc_Provider := mc_Provider c; mc_Status := status;
     mc_VaultKey := mc_VaultKey c; mc_RefreshVaultKey := mc_RefreshVaultKey c;
     mc_Scopes := mc_Scopes c; mc_Metadata := mc_Metadata c; mc_LastUsedAt := mc_LastUsedAt c;
     mc_ConnectedAt := mc_ConnectedAt c; mc_ExpiresAt := mc_ExpiresAt c;
     mc_CreatedAt := mc_CreatedAt c; mc_UpdatedAt := mc_UpdatedAt c |}.

Definition MCP_UpdateStatus (id : UUID) (status : string) : DBE McpTables unit :=
  guarded (fun t => negb (has id (mt_connections t)) || one_of_names connection_statuses status)
    (set_connections (alter (with_status status) id)).

Definition with_refs (vaultKey refreshVaultKey : string) (expiresAt : option Z)
    (c : MCPConnection) : MCPConnection :=
  {| mc_ID := mc_ID c; mc_UserID := mc_UserID c; mc_OrgID := mc_OrgID c;
     mc_IsOrgLevel := mc_IsOrgLevel c; mc_Provider := mc_Provider c; mc_Status := "active";
     mc_VaultKey := vaultKey; mc_RefreshVaultKey := refreshVaultKey; mc_Scopes := mc_Scopes c;
     mc_Metadata := mc_Metadata c; mc_LastUsedAt := mc_LastUsedAt c;
     mc_ConnectedAt := mc_ConnectedAt c; mc_ExpiresAt := expiresAt;
     mc_CreatedAt := mc_CreatedAt c; mc_UpdatedAt := mc_UpdatedAt c |}.

Definition MCP_UpdateTokenRefs (id : UUID) (vaultKey refreshVaultKey : string)
    (expiresAt : option Z) : DBE McpTables unit :=
  guarded (fun _ => text_ok vaultKey && text_ok refreshVaultKey)
    (set_connections (alter (with_refs vaultKey refreshVaultKey expiresAt) id)).

Definition with_used (now : Z) (c : MCPConnection) : MCPConnection :=
  {| mc_ID := mc_ID c; mc_UserID := mc_UserID c; mc_OrgID := mc_OrgID c;
     mc_IsOrgLevel := mc_IsOrgLevel c; mc_Provider := mc_Provider c; mc_Status := mc_Status c;
     mc_VaultKey := mc_VaultKey c; mc_RefreshVaultKey := mc_RefreshVaultKey c;
     mc_Scopes := mc_Scopes c; mc_Metadata := mc_Metadata c; mc_LastUsedAt := Some now;
     mc_ConnectedAt := mc_ConnectedAt c; mc_ExpiresAt := mc_ExpiresAt c;
     mc_CreatedAt := mc_CreatedAt c; mc_UpdatedAt := mc_UpdatedAt c |}.

Definition MCP_TouchLastUsed (now : Z) (id : UUID) : DBE McpTables unit :=
  statement (set_connections (alter (with_used now) id)).

(** [ON DELETE CASCADE] *)
Definition MCP_Delete (id : UUID) : DBE McpTables unit :=
  statement (fun t => set_calls (List.filter (fun e => negb (cl_ConnectionID e =? id)%N))
                        (set_connections (delete id) t)).

(** The threshold is whole seconds. *)
Definition MCP_ListExpiring (now threshold : Z) : DBE McpTables (list MCPConnection) :=
  query (fun t => (where_ (fun _ c => String.eqb (mc_Status c) "active" &&
    match mc_ExpiresAt c with
    | Some e => e <? now + Z.quot threshold second * second
    | None => false
    end) (mt_connections t)).*2).

Definition call_accepted (e : MCPCallLogEntry) (t : McpTables) : bool :=
  has (cl_ConnectionID e) (mt_connections t)
  && text_ok (cl_AgentID e) && text_ok (cl_TaskID e) && text_ok (cl_Action e)
  && text_ok (cl_InputHash e) && text_ok (cl_OutputHash e) && int4 (cl_LatencyMs e)
  && one_of_names call_statuses (cl_Status e) && text_ok (cl_ErrorMessage e).

Definition MCP_InsertCallLog (now : Z) (id : UUID) (e : MCPCallLogEntry) : DBE McpTables unit :=
  let e := {| cl_ID := if (cl_ID e =? 0)%N then id else cl_ID e;
              cl_ConnectionID := cl_ConnectionID e; cl_AgentID := cl_AgentID e;
              cl_TaskID := cl_TaskID e; cl_Action := cl_Action e; cl_InputHash := cl_InputHash e;
              cl_OutputHash := cl_OutputHash e; cl_LatencyMs := cl_LatencyMs e;
              cl_Status := cl_Status e; cl_ErrorMessage := cl_ErrorMessage e;
              cl_CreatedAt := now |} in
  inserting (fun t => existsb (fun old => (cl_ID old =? cl_ID e)%N) (mt_calls t))
    (call_accepted e) (set_calls (fun l => l ++ [e])%list).

(** Newest first *)
Definition MCP_ListCallLog (connectionID : UUID) (limit : Z)
    : DBE McpTables (list MCPCallLogEntry) :=
  let limit := if (limit <=? 0) || (500 <? limit) then 100 else limit in
  query (fun t => firstn (Z.to_nat limit) (order_by (fun e => - cl_CreatedAt e)
    (row_order (List.filter (fun e => (cl_ConnectionID e =? connectionID)%N) (mt_calls t))))).

Definition calls_of (taskID : string) (t : McpTables) : Z :=
  Z.of_nat (List.length (List.filter (fun e => String.eqb (cl_TaskID e) taskID) (mt_calls t))).
Definition MCP_CountCallsForTask (taskID : string) : DBE McpTables Z :=
  checked (fun _ => text_ok taskID) (fun t => (calls_of taskID t, t)).

(** ** Templates *)

Definition action_text_ok (a : CustomActionDef) : bool :=
  text_ok (ca_Name a) && text_ok (ca_Description a) && text_ok (ca_Method a) && text_ok (ca_Path a)
  && forallb text_ok (ca_RequiredParams a) && forallb text_ok (ca_OptionalParams a)
  && text_ok (ca_BodyTemplate a).

Definition template_duplicate (m : MCPCustomTemplate) (t : McpTables) : bool :=
  has (mt_ID m) (mt_templates t)
  || existsb (fun kv => String.eqb (mt_Name kv.2) (mt_Name m)) (rows (mt_templates t)).
Definition template_accepted (m : MCPCustomTemplate) (t : McpTables) : bool :=
  text_ok (mt_Name m) && text_ok (mt_Label m) && text_ok (mt_Category m)
  && text_ok (mt_Description m) && text_ok (mt_BaseURL m)
  && one_of_names validAuthTypes (mt_AuthType m) && text_ok (mt_AuthHeader m)
  && forallb action_text_ok (mt_Actions m) && bool_decide (mt_CreatedBy m ∈ mt_users t)
  && match mt_OrgID m with Some o => bool_decide (o ∈ mt_orgs t) | None => true end.

Definition MCP_CreateCustomTemplate (now : Z) (id : UUID) (m : MCPCustomTemplate)
    : DBE McpTables MCPCustomTemplate :=
  let m := {| mt_ID := if (mt_ID m =? 0)%N then id else mt_ID m; mt_Name := mt_Name m;
              mt_Label := mt_Label m; mt_Category := mt_Category m;
              mt_Description := mt_Description m; mt_BaseURL := mt_BaseURL m;
              mt_AuthType := mt_AuthType m; mt_AuthHeader := mt_AuthHeader m;
              mt_Actions := mt_Actions m; mt_CreatedBy := mt_CreatedBy m; mt_OrgID := mt_OrgID m;
              mt_CreatedAt := now; mt_UpdatedAt := now |} in
  inserting (template_duplicate m) (template_accepted m) (set_templates <[mt_ID m := m]>);?
  ok m.

Definition MCP_GetCustomTemplate (id : UUID) : DBE McpTables MCPCustomTemplate :=
  query_row (fun t => mt_templates t !! id).

Definition MCP_GetCustomTemplateByName (name : string) : DBE McpTables MCPCustomTemplate :=
  query_row (fun t => snd <$> head (where_ (fun _ m => String.eqb (mt_Name m) name)
                                      (mt_templates t))).

Definition MCP_ListCustomTemplates (userID : UUID) (orgID : option UUID)
    : DBE McpTables (list MCPCustomTemplate) :=
  query (fun t => order_by_text mt_Name (where_ (fun _ m =>
    (mt_CreatedBy m =? userID)%N || match mt_OrgID m, orgID with
                                    | Some a, Some b => (a =? b)%N | _, _ => false end)
    (mt_templates t)).*2).

Definition MCP_UpdateCustomTemplate (now : Z) (m : MCPCustomTemplate) : DBE McpTables unit :=
  guarded (fun t => negb (has (mt_ID m) (mt_templates t))
      || (text_ok (mt_Label m) && text_ok (mt_Category m) && text_ok (mt_Description m)
          && text_ok (mt_BaseURL m) && one_of_names validAuthTypes (mt_AuthType m)
          && text_ok (mt_AuthHeader m) && forallb action_text_ok (mt_Actions m)))
    (set_templates (alter (fun old =>
      {| mt_ID := mt_ID old; mt_Name := mt_Name old; mt_Label := mt_Label m;
         mt_Category := mt_Category m; mt_Description := mt_Description m;
         mt_BaseURL := mt_BaseURL m; mt_AuthType := mt_AuthType m;
         mt_AuthHeader := mt_AuthHeader m; mt_Actions := mt_Actions m;
         mt_CreatedBy := mt_CreatedBy old; mt_OrgID := mt_OrgID old;
         mt_CreatedAt := mt_CreatedAt old; mt_UpdatedAt := now |}) (mt_ID m))).

Definition MCP_DeleteCustomTemplate (id : UUID) : DBE McpTables unit :=
  statement (set_templates (delete id)).

Definition MCP_ListAllCustomTemplates : DBE McpTables (list MCPCustomTemplate) :=
  query (fun t => order_by_text mt_Name (where_ (fun _ _ => true) (mt_templates t)).*2).

End repository.
