(* ===== verification/McpService.v ===== *)
(** * Tool integrations: the service ([mcp/service.go])

    [Service]: a call of an agent goes through the limits to a provider with the token of a
    connection of the user, is sanitised and logged; connections and templates are made and
    deleted; tokens are refreshed.  [dk_tokens] and [dk_counters] are the keys of Redis;
    [dk_trace] is what happens outside: the tokens that are issued and the calls that are made.
    Metrics and the deadline of a call are left out; the time a call takes is an argument. *)

From Stdlib Require Import ZArith Lia Ascii String.
From stdpp Require Import base list gmap strings sorting.
From S2P Require Import Prelude GoStrings SwarmDb Db Sandbox Redact Fingerprint Json Vault Mcp McpStore.
From S2P Require Session.
Local Open Scope string_scope.
Local Open Scope rtv_scope.
Local Open Scope Z_scope.

(** ** State *)

(** A token issued to a user for a provider, a call with a token of the owner of a connection,
    and the same as a test. *)
Inductive Act :=
  | AIssued (owner : UUID) (provider token : string)
  | ACall (requester owner : UUID) (provider action token task : string)
  | ATest (requester owner : UUID) (provider action token : string).

Record Desk (V : Type) := {
  dk_tables : McpTables;
  dk_vault : V;
  dk_tokens : gmap string (Expiring string);
  dk_counters : gmap string (Expiring Z);
  dk_registry : ProviderRegistry;
  dk_states : Session.Redis;
  dk_trace : list Act
}.
Arguments dk_tables {V}. Arguments dk_vault {V}. Arguments dk_tokens {V}.
Arguments dk_counters {V}. Arguments dk_registry {V}. Arguments dk_states {V}.
Arguments dk_trace {V}.

Record MCPOAuthProviderConfig := {
  op_ClientID : string;
  op_ClientSecret : string;
  op_Scopes : option (list string);
  op_AuthURL : string;
  op_TokenURL : string
}.

Record MCPConfig := {
  cfg_Enabled : bool;
  cfg_MaxCallsPerTask : Z;
  cfg_AllowedProviders : list string;
  cfg_OAuthProviders : gmap string MCPOAuthProviderConfig
}.

Record ExecuteRequest := {
  er_UserID : UUID;
  er_OrgID : option UUID;
  er_Provider : string;
  er_Action : string;
  er_Params : option Params;
  er_AgentID : string;
  er_TaskID : string
}.

Record ProviderInfo := {
  pi_Name : string;
  pi_Category : string;
  pi_Description : string;
  pi_Actions : list ActionDef
}.

Definition tokenCachePrefix := "mcp:token:".
Definition tokenCacheTTL : Z := 10 * 60 * second.
Definition refreshThreshold : Z := 15 * 60 * second.

(** ** Sanitising *)

Definition re_alnum_or (cs : string) : pattern :=
  PRune (fun a => is_alnum a || existsb (Ascii.eqb a) (bytes cs)) false
    [str3 226 132 170; str2 197 191].

Definition sensitivePatterns : list pattern :=
  [ seq_of [alt_of [ilit "password"; ilit "passwd"; ilit "secret"; ilit "token";
                    seq_of [ilit "api"; dash_opt; ilit "key"];
                    seq_of [ilit "access"; dash_opt; ilit "token"];
                    seq_of [ilit "refresh"; dash_opt; ilit "token"]; ilit "authorization"];
            spaces; one_of ":="; spaces; at_least 1 not_space];
    seq_of [alt_of [ilit "bearer"; ilit "basic"]; at_least 1 (cls is_re_space);
            at_least 1 (re_alnum_or "-._~+/"); PStar (one_of "=")];
    seq_of [PWordBoundary; at_least 1 (alnum_or "._%+-"); lit "@"; at_least 1 (alnum_or ".-");
            lit "."; at_least 2 (cls is_upper); PWordBoundary];
    seq_of [PWordBoundary; times 3 (cls is_digit); opt (one_of "-."); times 3 (cls is_digit);
            opt (one_of "-."); times 4 (cls is_digit); PWordBoundary];
    seq_of [lit "xox"; one_of "bpras"; lit "-"; at_least 1 (alnum_or "-")] ].

Definition sanitizeString (s : string) : string :=
  fold_left (fun s p => ReplaceAllPattern p "[REDACTED]" s) sensitivePatterns s.

(** [sanitizeMap] on a value of a map. *)
Fixpoint sanitize (v : Json) : Json :=
  match v with
  | JStr s => JStr (sanitizeString s)
  | JObj l => JObj (List.map (fun kv => (kv.1, sanitize kv.2)) l)
  | v => v
  end.
Definition sanitizeMap (data : Params) : Params := sanitize <$> data.

Definition sanitized (r : ToolResult) : ToolResult :=
  {| tr_Success := tr_Success r; tr_Data := sanitizeMap <$> tr_Data r; tr_Error := tr_Error r |}.

Section service.
Context `{RowOrder} `{UuidText} `{UnicodeTables} `{Postgres} `{Collation} `{Digest} `{FoldTables} `{UrlScheme} `{HttpClient}.
Context {V : Type}.

(** [vaultFor], [rdb != nil] and the configuration. *)
Variable vaultFor : option (Z -> UUID -> SecretStore V).
Variable rdb : bool.
Variable cfg : MCPConfig.
Notation DESK A := (DBE (Desk V) A).

Definition put_tables (t : McpTables) (d : Desk V) : Desk V :=
  {| dk_tables := t; dk_vault := dk_vault d; dk_tokens := dk_tokens d;
     dk_counters := dk_counters d; dk_registry := dk_registry d; dk_states := dk_states d;
     dk_trace := dk_trace d |}.
Definition put_vault (v : V) (d : Desk V) : Desk V :=
  {| dk_tables := dk_tables d; dk_vault := v; dk_tokens := dk_tokens d;
     dk_counters := dk_counters d; dk_registry := dk_registry d; dk_states := dk_states d;
     dk_trace := dk_trace d |}.
Definition put_tokens (m : gmap string (Expiring string)) (d : Desk V) : Desk V :=
  {| dk_tables := dk_tables d; dk_vault := dk_vault d; dk_tokens := m;
     dk_counters := dk_counters d; dk_registry := dk_registry d; dk_states := dk_states d;
     dk_trace := dk_trace d |}.
Definition put_counters (m : gmap string (Expiring Z)) (d : Desk V) : Desk V :=
  {| dk_tables := dk_tables d; dk_vault := dk_vault d; dk_tokens := dk_tokens d;
     dk_counters := m; dk_registry := dk_registry d; dk_states := dk_states d;
     dk_trace := dk_trace d |}.
Definition put_registry (r : ProviderRegistry) (d : Desk V) : Desk V :=
  {| dk_tables := dk_tables d; dk_vault := dk_vault d; dk_tokens := dk_tokens d;
     dk_counters := dk_counters d; dk_registry := r; dk_states := dk_states d;
     dk_trace := dk_trace d |}.
Definition put_states (s : Session.Redis) (d : Desk V) : Desk V :=
  {| dk_tables := dk_tables d; dk_vault := dk_vault d; dk_tokens := dk_tokens d;
     dk_counters := dk_counters d; dk_registry := dk_registry d; dk_states := s;
     dk_trace := dk_trace d |}.
Definition record (a : Act) (d : Desk V) : Desk V :=
  {| dk_tables := dk_tables d; dk_vault := dk_vault d; dk_tokens := dk_tokens d;
     dk_counters := dk_counters d; dk_registry := dk_registry d; dk_states := dk_states d;
     dk_trace := (dk_trace d ++ [a])%list |}.

Definition on_tables {A} (m : DB McpTables A) : DB (Desk V) A := zoom dk_tables put_tables m.
Definition on_vault {A} (m : DB V A) : DB (Desk V) A := zoom dk_vault put_vault m.
Definition on_tokens {A} (m : DB (gmap string (Expiring string)) A) : DB (Desk V) A :=
  zoom dk_tokens put_tokens m.
Definition on_counters {A} (m : DB (gmap string (Expiring Z)) A) : DB (Desk V) A :=
  zoom dk_counters put_counters m.
Definition on_registry (f : ProviderRegistry -> ProviderRegistry) : DB (Desk V) unit :=
  writes (fun d => put_registry (f (dk_registry d)) d).

(** ** Calls *)

Definition userVault (now : Z) (userID : UUID) : option (SecretStore V) :=
  (fun f => f now userID) <$> vaultFor.

Definition isProviderAllowed (name : string) : bool :=
  match cfg_AllowedProviders cfg with
  | [] => true
  | l => existsb (fun p => EqualFold p name) l
  end.

Definition findAction (p : Provider) (name : string) : option ActionDef :=
  List.find (fun a => EqualFold (ad_Name a) name) (pv_Actions p).

Fixpoint validateParams (required : list string) (action : string) (params : Params)
    : result unit string :=
  match required with
  | [] => Ok tt
  | rp :: required =>
      match params !! rp with
      | None => Err ("missing required parameter " ++ q rp ++ " for action " ++ q action)
      | Some (JStr "") =>
          Err ("required parameter " ++ q rp ++ " cannot be empty for action " ++ q action)
      | Some _ => validateParams required action params
      end
  end.

Definition hashSHA256 (data : string) : string := str_take 16 (sha256_hex data).

Definition marshal_params (params : option Params) : string :=
  match params with Some m => Marshal (obj m) | None => "null" end.

Definition call_entry (connectionID : UUID) (req : ExecuteRequest) (status : string)
    (latencyMs : Z) (errMsg : string) : MCPCallLogEntry :=
  {| cl_ID := 0%N; cl_ConnectionID := connectionID; cl_AgentID := er_AgentID req;
     cl_TaskID := er_TaskID req; cl_Action := er_Action req;
     cl_InputHash := hashSHA256 (marshal_params (er_Params req));
     cl_OutputHash := if String.eqb errMsg "" then "" else hashSHA256 errMsg;
     cl_LatencyMs := latencyMs; cl_Status := status; cl_ErrorMessage := errMsg;
     cl_CreatedAt := 0 |}.

(** A failure is only logged. *)
Definition logCall (now : Z) (id : UUID) (connectionID : UUID) (req : ExecuteRequest)
    (status : string) (latencyMs : Z) (errMsg : string) : DB (Desk V) unit :=
  ignoring (on_tables
    (MCP_InsertCallLog now id (call_entry connectionID req status latencyMs errMsg))).

Definition token_key (id : UUID) : string := tokenCachePrefix ++ uuid_String id.
Definition vault_key (provider : string) (id : UUID) (kind : string) : string :=
  "mcp:" ++ provider ++ ":" ++ uuid_String id ++ ":" ++ kind.

(** The token of the cache, where there is one. *)
Definition cached_token (now : Z) (id : UUID) : DB (Desk V) (option string) :=
  if negb rdb then mret None
  else
    r ← on_tokens (query (fun m => ex_value <$> unexpired now (m !! token_key id)));
    mret (match r with
          | Ok (Some t) => if String.eqb t "" then None else Some t
          | _ => None
          end).

Definition cache_token (now : Z) (id : UUID) (token : string) : DB (Desk V) unit :=
  if negb rdb then mret tt
  else ignoring (on_tokens (statement
         <[token_key id := {| ex_value := token; ex_until := Some (now + tokenCacheTTL) |}]>)).

Definition drop_token (id : UUID) : DB (Desk V) unit :=
  if negb rdb then mret tt else ignoring (on_tokens (statement (delete (token_key id)))).

Definition no_keychain (userID : UUID) : string :=
  "keychain not available for user " ++ uuid_String userID.

Definition resolveToken (now : Z) (c : MCPConnection) : DESK string :=
  cached ← cached_token now (mc_ID c);
  match cached with
  | Some t => ok t
  | None =>
      match userVault now (mc_UserID c) with
      | None => fail (no_keychain (mc_UserID c))
      | Some uv =>
          token ←? wrapping ("vault read failed for key " ++ mc_VaultKey c)
                     (on_vault (ss_Get uv (mc_VaultKey c)));
          if String.eqb token ""
          then fail ("empty token in vault for connection " ++ uuid_String (mc_ID c))
          else cache_token now (mc_ID c) token;; ok token
      end
  end.

(** A call of a provider, which is [a] in the trace. *)
Definition call_provider (a : Act) (p : Provider) (action : string) (params : Params)
    (token : string) : DESK ToolResult :=
  n ← reads (fun d => List.length (dk_trace d));
  writes (record a);;
  mret (pv_Execute p n action params token).

Definition refusal (now : Z) (id : UUID) (req : ExecuteRequest) (status errMsg : string)
    (error : string) : DESK ToolResult :=
  logCall now id 0%N req status 0 errMsg;; fail error.

(** What the task has used up; an error of the count is only logged. *)
Definition over_task_limit (req : ExecuteRequest) : DB (Desk V) (option Z) :=
  if (0 <? cfg_MaxCallsPerTask cfg) && negb (String.eqb (er_TaskID req) "") then
    r ← on_tables (MCP_CountCallsForTask (er_TaskID req));
    mret (match r with
          | Ok count => if cfg_MaxCallsPerTask cfg <=? count then Some count else None
          | Err _ => None
          end)
  else mret None.

(** From the connection on. *)
Definition execute_with (now latencyMs : Z) (id : UUID) (req : ExecuteRequest) (p : Provider)
    (conn : MCPConnection) (token : string) : DESK ToolResult :=
  r ← call_provider (ACall (er_UserID req) (mc_UserID conn) (er_Provider req) (er_Action req)
                       token (er_TaskID req))
        p (er_Action req) (default ∅ (er_Params req)) token;
  match r with
  | Err e =>
      on_registry (RecordFailure now (er_Provider req));;
      logCall now id (mc_ID conn) req "error" latencyMs e;;
      fail ("provider " ++ er_Provider req ++ " action " ++ er_Action req ++ " failed: " ++ e)
  | Ok result =>
      on_registry (RecordSuccess (er_Provider req));;
      ignoring (on_tables (MCP_TouchLastUsed now (mc_ID conn)));;
      logCall now id (mc_ID conn) req "ok" latencyMs "";;
      ok (sanitized result)
  end.

(** The time in the text is left out. *)
Definition breaker_open : string := "circuit breaker open: provider unavailable".

(** The checks of the breaker and of the rate, in front of the call. *)
Definition admit_call (now : Z) (id : UUID) (req : ExecuteRequest) (next : DESK ToolResult)
    : DESK ToolResult :=
  admitted ← reads (fun d => (CheckCircuitBreaker now (er_Provider req) (dk_registry d)).1);
  on_registry (fun r => (CheckCircuitBreaker now (er_Provider req) r).2);;
  if negb admitted then refusal now id req "error" breaker_open breaker_open
  else
    r ← on_counters (CheckRateLimit rdb now (er_Provider req));
    match r with
    | Err e => refusal now id req "rate_limited" e e
    | Ok _ => next
    end.

Definition Execute (now latencyMs : Z) (id : UUID) (req : ExecuteRequest) : DESK ToolResult :=
  if negb (cfg_Enabled cfg) then fail "MCP integrations are disabled"
  else if negb (isProviderAllowed (er_Provider req))
  then fail ("provider " ++ q (er_Provider req) ++ " is not in the allowed list")
  else
    found ← reads (fun d => registry_Get (er_Provider req) (dk_registry d));
    match found with
    | None => fail ("unknown provider " ++ q (er_Provider req))
    | Some p =>
        match findAction p (er_Action req) with
        | None => fail ("unknown action " ++ q (er_Action req) ++ " for provider "
                        ++ q (er_Provider req))
        | Some a =>
            match validateParams (ad_RequiredParams a) (ad_Name a) (default ∅ (er_Params req)) with
            | Err e => fail e
            | Ok _ =>
                over ← over_task_limit req;
                match over with
                | Some count =>
                    refusal now id req "rate_limited"
                      ("task call limit reached (" ++ itoa count ++ "/"
                       ++ itoa (cfg_MaxCallsPerTask cfg) ++ ")")
                      ("task " ++ er_TaskID req ++ " has reached the MCP call limit ("
                       ++ itoa (cfg_MaxCallsPerTask cfg) ++ ")")
                | None =>
                    admit_call now id req (
                      r ← on_tables (MCP_FindActiveConnection (er_UserID req) (er_OrgID req)
                                       (er_Provider req));
                      match r with
                      | Err _ => fail ("no active " ++ er_Provider req
                                       ++ " connection found for user")
                      | Ok conn =>
                          token ←? wrapping ("failed to resolve token for " ++ er_Provider req)
                                     (resolveToken now conn);
                          execute_with now latencyMs id req p conn token
                      end)
                end
            end
        end
    end.

(** ** Providers and connections *)

Definition ListProviders (d : Desk V) : list ProviderInfo :=
  omap (fun name =>
    if isProviderAllowed name then
      p ← registry_Get name (dk_registry d);
      Some {| pi_Name := name; pi_Category := pv_Category p; pi_Description := pv_Description p;
              pi_Actions := pv_Actions p |}
    else None) (registry_List (dk_registry d)).

Definition ListConnections (userID : UUID) (orgID : option UUID) : DESK (list MCPConnection) :=
  on_tables (MCP_ListByUser userID orgID).

Definition GetConnection (id : UUID) : DESK MCPConnection := on_tables (MCP_GetConnection id).

Definition with_keys (vaultKey refreshVaultKey status : string) (c : MCPConnection)
    : MCPConnection :=
  {| mc_ID := mc_ID c; mc_UserID := mc_UserID c; mc_OrgID := mc_OrgID c;
     mc_IsOrgLevel := mc_IsOrgLevel c; mc_Provider := mc_Provider c; mc_Status := status;
     mc_VaultKey := vaultKey; mc_RefreshVaultKey := refreshVaultKey; mc_Scopes := mc_Scopes c;
     mc_Metadata := mc_Metadata c; mc_LastUsedAt := mc_LastUsedAt c;
     mc_ConnectedAt := mc_ConnectedAt c; mc_ExpiresAt := mc_ExpiresAt c;
     mc_CreatedAt := mc_CreatedAt c; mc_UpdatedAt := mc_UpdatedAt c |}.

Definition CreateConnection (now : Z) (conn : MCPConnection) (accessToken refreshToken : string)
    : DESK MCPConnection :=
  match userVault now (mc_UserID conn) with
  | None => fail (no_keychain (mc_UserID conn))
  | Some uv =>
      let vaultKey := vault_key (mc_Provider conn) (mc_ID conn) "access" in
      let refreshKey := vault_key (mc_Provider conn) (mc_ID conn) "refresh" in
      wrapping "vault write failed" (on_vault (ss_Set uv vaultKey accessToken));?
      refreshVaultKey ←?
        (if String.eqb refreshToken "" then ok (mc_RefreshVaultKey conn)
         else wrapping "vault write failed" (on_vault (ss_Set uv refreshKey refreshToken));?
              ok refreshKey);
      let conn := with_keys vaultKey refreshVaultKey "active" conn in
      r ← on_tables (MCP_CreateConnection now (mc_ID conn) conn);
      match r with
      | Ok c => ok c
      | Err e =>
          ignoring (on_vault (ss_Delete uv vaultKey));;
          (if String.eqb refreshVaultKey "" then mret tt
           else ignoring (on_vault (ss_Delete uv refreshVaultKey)));;
          fail e
      end
  end.

Definition DeleteConnection (now : Z) (id : UUID) : DESK unit :=
  conn ←? on_tables (MCP_GetConnection id);
  (match userVault now (mc_UserID conn) with
   | None => mret tt
   | Some uv =>
       (if String.eqb (mc_VaultKey conn) "" then mret tt
        else ignoring (on_vault (ss_Delete uv (mc_VaultKey conn))));;
       (if String.eqb (mc_RefreshVaultKey conn) "" then mret tt
        else ignoring (on_vault (ss_Delete uv (mc_RefreshVaultKey conn))))
   end);;
  drop_token id;;
  on_tables (MCP_Delete id).

(** [requester] is who asks; the method does not know. *)
Definition TestConnection (now : Z) (requester id : UUID) : DESK ToolResult :=
  conn ←? on_tables (MCP_GetConnection id);
  found ← reads (fun d => registry_Get (mc_Provider conn) (dk_registry d));
  match found with
  | None => fail ("unknown provider " ++ q (mc_Provider conn))
  | Some p =>
      token ←? resolveToken now conn;
      match pv_Actions p with
      | [] => ok {| tr_Success := true;
                    tr_Data := Some {["message" := JStr "no actions to test"]}; tr_Error := "" |}
      | a :: _ =>
          r ← call_provider (ATest requester (mc_UserID conn) (mc_Provider conn) (ad_Name a) token)
                p (ad_Name a) ∅ token;
          match r with
          | Err e => ignoring (on_tables (MCP_UpdateStatus id "error"));; fail e
          | Ok result => ok result
          end
      end
  end.

(** ** Refreshing *)

(** The call of [RefreshToken]; what it returns is issued to the owner. *)
Definition refresh_token (conn : MCPConnection) (p : Provider) (refreshToken : string)
    : DESK Refreshed :=
  n ← reads (fun d => List.length (dk_trace d));
  match pv_RefreshToken p n refreshToken with
  | Err e => fail e
  | Ok r => writes (record (AIssued (mc_UserID conn) (mc_Provider conn) (rf_Access r)));; ok r
  end.

(** The round of one connection; errors are only logged. *)
Definition refresh_one (now : Z) (conn : MCPConnection) : DB (Desk V) unit :=
  if String.eqb (mc_RefreshVaultKey conn) "" then mret tt
  else
    found ← reads (fun d => registry_Get (mc_Provider conn) (dk_registry d));
    match found, userVault now (mc_UserID conn) with
    | Some p, Some uv =>
        r ← on_vault (ss_Get uv (mc_RefreshVaultKey conn));
        match r with
        | Err _ => mret tt
        | Ok refreshToken =>
            if String.eqb refreshToken "" then mret tt
            else
              r ← refresh_token conn p refreshToken;
              match r with
              | Err _ => ignoring (on_tables (MCP_UpdateStatus (mc_ID conn) "expired"))
              | Ok new =>
                  let newVaultKey := vault_key (mc_Provider conn) (mc_ID conn) "access" in
                  r ← on_vault (ss_Set uv newVaultKey (rf_Access new));
                  match r with
                  | Err _ => mret tt
                  | Ok _ =>
                      (if String.eqb (rf_Refresh new) "" then mret tt
                       else ignoring (on_vault (ss_Set uv (mc_RefreshVaultKey conn)
                                                  (rf_Refresh new))));;
                      r ← on_tables (MCP_UpdateTokenRefs (mc_ID conn) newVaultKey
                                       (mc_RefreshVaultKey conn) (Some (now + rf_ExpiresIn new)));
                      match r with
                      | Err _ => mret tt
                      | Ok _ => drop_token (mc_ID conn)
                      end
                  end
              end
        end
    | _, _ => mret tt
    end.

(** One tick of [StartRefreshLoop], taken as one step: requests that come between the listing and
    an update of the tokens are not interleaved with it (McpLimits.[refresh_revives] shows what
    then happens to a test that fails). *)
Definition refreshExpiring (now : Z) : DB (Desk V) unit :=
  r ← on_tables (MCP_ListExpiring now refreshThreshold);
  match r with
  | Err _ => mret tt
  | Ok connections => every connections (refresh_one now)
  end.

(** ** Custom templates *)

Definition name_taken : ValidationError :=
  {| ve_Field := "name"; ve_Message := "A provider with this name already exists." |}.

Definition db_template (t : CustomMCPTemplate) : MCPCustomTemplate :=
  {| mt_ID := 0%N; mt_Name := ct_Name t; mt_Label := ct_Label t; mt_Category := ct_Category t;
     mt_Description := ct_Description t; mt_BaseURL := ct_BaseURL t; mt_AuthType := ct_AuthType t;
     mt_AuthHeader := ct_AuthHeader t; mt_Actions := ct_Actions t;
     mt_CreatedBy := default 0%N (uuid_Parse (ct_CreatedBy t)); mt_OrgID := None;
     mt_CreatedAt := 0; mt_UpdatedAt := 0 |}.

Definition dbTemplateToCustom (r : MCPCustomTemplate) : CustomMCPTemplate :=
  {| ct_ID := uuid_String (mt_ID r); ct_Name := mt_Name r; ct_Label := mt_Label r;
     ct_Category := mt_Category r; ct_Description := mt_Description r; ct_BaseURL := mt_BaseURL r;
     ct_AuthType := mt_AuthType r; ct_AuthHeader := mt_AuthHeader r; ct_Actions := mt_Actions r;
     ct_CreatedBy := uuid_String (mt_CreatedBy r); ct_CreatedAt := mt_CreatedAt r;
     ct_UpdatedAt := mt_UpdatedAt r |}.

(** The template as it is registered, or what is wrong with it. *)
Definition CreateCustomTemplate (now : Z) (id : UUID) (tmpl : CustomMCPTemplate)
    : DESK (CustomMCPTemplate + list ValidationError) :=
  match ValidateTemplate tmpl with
  | _ :: _ as errs => ok (inr errs)
  | [] =>
      taken ← reads (fun d => bool_decide (is_Some (registry_Get (ct_Name tmpl) (dk_registry d))));
      if taken : bool then ok (inr [name_taken])
      else
        r ← on_tables (MCP_CreateCustomTemplate now id (db_template tmpl));
        match r with
        | Err e =>
            if Contains e "duplicate key" || Contains e "unique"
            then ok (inr [{| ve_Field := "name";
                             ve_Message := "A custom template with this name already exists." |}])
            else fail ("failed to save template: " ++ e)
        | Ok m =>
            let tmpl :=
              {| ct_ID := uuid_String (mt_ID m); ct_Name := ct_Name tmpl; ct_Label := ct_Label tmpl;
                 ct_Category := ct_Category tmpl; ct_Description := ct_Description tmpl;
                 ct_BaseURL := ct_BaseURL tmpl; ct_AuthType := ct_AuthType tmpl;
                 ct_AuthHeader := ct_AuthHeader tmpl; ct_Actions := ct_Actions tmpl;
                 ct_CreatedBy := ct_CreatedBy tmpl; ct_CreatedAt := mt_CreatedAt m;
                 ct_UpdatedAt := mt_UpdatedAt m |} in
            on_registry (Register (NewCustomMCPProvider tmpl));;
            ok (inl tmpl)
        end
  end.

Definition ListCustomTemplates (userID : UUID) (orgID : option UUID)
    : DESK (list CustomMCPTemplate) :=
  rows ←? on_tables (MCP_ListCustomTemplates userID orgID);
  ok (dbTemplateToCustom <$> rows).

Definition forbidden : string := "forbidden: only the template creator can delete it".

Definition DeleteCustomTemplate (id userID : UUID) : DESK unit :=
  tmpl ←? wrapping "template not found" (on_tables (MCP_GetCustomTemplate id));
  if negb (mt_CreatedBy tmpl =? userID)%N then fail forbidden
  else
    on_registry (Unregister (mt_Name tmpl));;
    on_tables (MCP_DeleteCustomTemplate id).

Definition ValidateCustomTemplate (tmpl : CustomMCPTemplate) (d : Desk V)
    : list ValidationError :=
  (ValidateTemplate tmpl
   ++ if negb (String.eqb (ct_Name tmpl) "")
         && bool_decide (is_Some (registry_Get (ct_Name tmpl) (dk_registry d)))
      then [name_taken] else [])%list.

Definition SimulateCustomConnection (baseURL token authType authHeader : string)
    : DB (Desk V) (result ToolResult string) :=
  n ← reads (fun d => List.length (dk_trace d));
  mret (SimulateConnection n baseURL token authType authHeader).

Definition LoadCustomTemplates : DB (Desk V) unit :=
  r ← on_tables MCP_ListAllCustomTemplates;
  match r with
  | Err _ => mret tt
  | Ok rows => every rows (fun r =>
      on_registry (Register (NewCustomMCPProvider (dbTemplateToCustom r))))
  end.

End service.
