(* ===== verification/McpHandler.v ===== *)
(** * Tool integrations: endpoints ([server/mcp_handler.go], [swarm/mcp_handler.go])

    The endpoints of users, the OAuth flow that makes connections, and the endpoints of agents.
    A handler takes the claims of the token, the parameters of path and query as texts and the
    decoded body.  The exchange of a code and the URLs of the consent screen (package [oauth2])
    and the host of a URL are parameters.  [rand.Read] does not fail (Go 1.24). *)

From Stdlib Require Import ZArith Lia Ascii String.
From stdpp Require Import base list gmap strings sorting.
From S2P Require Import Prelude GoStrings SwarmDb Db Http Sandbox Redact Fingerprint Json Vault Mcp McpStore McpService.
From S2P Require Import Jwt.
From S2P Require Session.
Local Open Scope string_scope.
Local Open Scope rtv_scope.
Local Open Scope Z_scope.

(** ** Packages *)

(** A token of [oauth2]; the zero time is [None]. *)
Record ExchangedToken := {
  et_AccessToken : string;
  et_RefreshToken : string;
  et_Expiry : option Z
}.

(** [oauth2.Config] with its redirect URL; the number tells exchanges apart. *)
Class OAuth2 := {
  AuthCodeURL : MCPOAuthProviderConfig -> string -> string -> list (string * string) -> string;
  Exchange : nat -> MCPOAuthProviderConfig -> string -> string -> result ExchangedToken string
}.

(** The host of a URL that can be parsed ([net/url]). *)
Class UrlHost := { url_host : string -> string }.

(** ** Answers *)

Record connectionResponse := {
  cr_ID : UUID;
  cr_UserID : UUID;
  cr_OrgID : option UUID;
  cr_IsOrgLevel : bool;
  cr_Provider : string;
  cr_Status : string;
  cr_Scopes : option (list string);
  cr_Metadata : string;
  cr_LastUsedAt : option Z;
  cr_ConnectedAt : Z;
  cr_ExpiresAt : option Z;
  cr_CreatedAt : Z
}.

Definition toConnectionResponse (c : MCPConnection) : connectionResponse :=
  {| cr_ID := mc_ID c; cr_UserID := mc_UserID c; cr_OrgID := mc_OrgID c;
     cr_IsOrgLevel := mc_IsOrgLevel c; cr_Provider := mc_Provider c; cr_Status := mc_Status c;
     cr_Scopes := mc_Scopes c; cr_Metadata := mc_Metadata c; cr_LastUsedAt := mc_LastUsedAt c;
     cr_ConnectedAt := mc_ConnectedAt c; cr_ExpiresAt := mc_ExpiresAt c;
     cr_CreatedAt := mc_CreatedAt c |}.

Record AgentTool := {
  at_ToolID : string;
  at_Provider : string;
  at_Action : string;
  at_Description : string;
  at_Category : string;
  at_RequiredParams : list string;
  at_OptionalParams : list string;
  at_ConsentRequired : bool
}.

Record BatchResult := {
  ba_ID : string;
  ba_Success : bool;
  ba_Data : option Params;
  ba_Error : string
}.

Inductive McpBody :=
  | BProviders (l : list ProviderInfo)
  | BConnections (l : list connectionResponse)
  | BResult (r : ToolResult)
  | BFailed (e : string)
  | BLog (l : list MCPCallLogEntry)
  | BStatus (l : list (string * string))
  | BTemplate (t : CustomMCPTemplate)
  | BTemplates (l : list CustomMCPTemplate)
  | BIssues (l : list ValidationError)
  | BValid (valid : bool) (l : list ValidationError)
  | BOAuthEnabled (names : list string)
  | BRedirect (url : string)
  | BAction (a : ActionDef)
  | BTools (l : list AgentTool) (count : Z)
  | BBatch (l : list BatchResult)
  | BConnected (providers : list string).

(** ** Requests *)

(** What a request brings and draws: the clock, the milliseconds a call takes, identifiers, 16
    random bytes in hexadecimal and the claims of the token. *)
Record McpEnv := {
  me_now : Z;
  me_latency : nat -> Z;
  me_ids : nat -> UUID;
  me_random : string;
  me_claims : option Claims
}.

Record SimulateRequest := {
  sr_BaseURL : string;
  sr_Token : string;
  sr_AuthType : string;
  sr_AuthHeader : string
}.

(** The body of a call of an agent, and one call of a batch. *)
Record CallBody := {
  cb_Provider : string;
  cb_Action : string;
  cb_Params : option Params;
  cb_UserID : string;
  cb_OrgID : string;
  cb_AgentID : string;
  cb_TaskID : string
}.
Record BatchCall := {
  bc_ID : string;
  bc_Provider : string;
  bc_Action : string;
  bc_Params : option Params
}.
Record BatchBody := {
  bb_UserID : string;
  bb_OrgID : string;
  bb_AgentID : string;
  bb_TaskID : string;
  bb_Calls : list BatchCall
}.

Section handler.
Context `{RowOrder} `{UuidText} `{UnicodeTables} `{Postgres} `{Collation} `{Digest} `{FoldTables} `{UrlScheme} `{HttpClient} `{OAuth2} `{UrlHost}.
Context {V : Type}.
Variable vaultFor : option (Z -> UUID -> SecretStore V).
Variable rdb : bool.
Variable cfg : MCPConfig.
Variable serverBase : string.
Notation REPLY := (DB (Desk V) (Response McpBody)).
Notation STEP A := (HTTP (Desk V) McpBody A).

Definition claims_of (env : McpEnv) : STEP Claims := require (me_claims env) 401 "unauthorized".
Definition path_uuid (s message : string) : STEP UUID := require (uuid_Parse s) 400 message.

Definition claims_org (c : Claims) : option UUID :=
  if (c_OrgID c =? 0)%N then None else Some (c_OrgID c).

(** ** [server/mcp_handler.go] *)

Definition Handler_ListProviders : REPLY :=
  l ← reads (ListProviders cfg); mret (writeJSON 200 (BProviders l)).

Definition Handler_ListConnections (env : McpEnv) : REPLY := respond (
  claims ←? claims_of env;
  l ←? or_reply (ListConnections (c_UserID claims) (claims_org claims))
         (internal "failed to list connections");
  ok (writeJSON 200 (BConnections (toConnectionResponse <$> l)))).

(** Tokens are not taken by hand. *)
Definition Handler_CreateConnection : REPLY :=
  mret (writeError 410 "manual token submission is disabled - use the OAuth connect flow instead").

Definition Handler_DeleteConnection (env : McpEnv) (connectionID : string) : REPLY := respond (
  claims ←? claims_of env;
  connID ←? path_uuid connectionID "invalid connection id";
  conn ←? or_reply (GetConnection connID) (fun _ => writeError 404 "connection not found");
  unless (negb (mc_UserID conn =? c_UserID claims)%N) 403 "forbidden";?
  or_reply (DeleteConnection vaultFor rdb (me_now env) connID)
    (internal "failed to delete connection");?
  ok (writeJSON 200 (BStatus [("status", "disconnected"); ("id", uuid_String connID)]))).

Definition result_or_error (r : result ToolResult string) : Response McpBody :=
  match r with
  | Ok result => writeJSON 200 (BResult result)
  | Err e => writeJSON 200 (BFailed e)
  end.

Definition Handler_TestConnection (env : McpEnv) (connectionID : string) : REPLY := respond (
  claims ←? claims_of env;
  connID ←? path_uuid connectionID "invalid connection id";
  r ← TestConnection vaultFor rdb (me_now env) (c_UserID claims) connID;
  ok (result_or_error r)).

Definition Handler_GetCallLog (connectionID : string) : REPLY := respond (
  connID ←? path_uuid connectionID "invalid connection id";
  l ←? or_reply (on_tables (MCP_ListCallLog connID 100)) (internal "failed to list call log");
  ok (writeJSON 200 (BLog l))).

(** *** The OAuth flow *)

Definition callback_url (provider : string) : string :=
  serverBase ++ "/api/v1/integrations/oauth/" ++ provider ++ "/callback".

(** Where the browser goes in the end: the query, or the origin of the page. *)
Definition settings_redirect (provider redirect_url referer origin : string) : string :=
  if negb (String.eqb redirect_url "") then redirect_url
  else
    let from_referer :=
      if String.eqb referer "" then ""
      else match url_scheme referer with
           | Ok scheme => scheme ++ "://" ++ url_host referer
           | Err _ => ""
           end in
    let frontendBase := if String.eqb from_referer "" then origin else from_referer in
    frontendBase ++ "/settings?tab=mcp&connected=" ++ provider.

Definition auth_options (provider : string) : list (string * string) :=
  if one_of_names ["gmail"; "google_calendar"; "google_drive"; "ms365"] provider
  then [("access_type", "offline"); ("prompt", "consent")]
  else if one_of_names ["jira"; "confluence"] provider
  then [("audience", "api.atlassian.com"); ("prompt", "consent")]
  else if String.eqb provider "gitlab" then [("response_type", "code")]
  else if String.eqb provider "salesforce" then [("prompt", "login consent")]
  else [].

Definition state_provider (provider : string) : string := "mcp:" ++ provider.
(** The clock of Redis is that of the request. *)
Definition on_states {A} (now : Z) (m : DB Session.Redis A) : DB (Desk V) A :=
  zoom dk_states put_states (writes (Session.set_clock now);; m).

Definition InitiateOAuth (env : McpEnv) (provider redirect_url referer origin : string)
    : REPLY := respond (
  claims ←? claims_of env;
  oauthCfg ←? require (cfg_OAuthProviders cfg !! provider) 400
                "OAuth not configured for this provider";
  let orgID := match claims_org claims with Some o => uuid_String o | None => "" end in
  or_reply (on_states (me_now env) (Session.StoreOAuthStateWithUser (me_random env) (state_provider provider)
      (settings_redirect provider redirect_url referer origin)
      (uuid_String (c_UserID claims)) orgID)) (internal "failed to store state");?
  ok (writeJSON 307 (BRedirect
    (AuthCodeURL oauthCfg (callback_url provider) (me_random env) (auth_options provider))))).

(** The exchange; the token is issued to the user. *)
Definition exchange_code (userID : UUID) (provider : string) (oauthCfg : MCPOAuthProviderConfig)
    (code : string) : DBE (Desk V) ExchangedToken :=
  n ← reads (fun d => List.length (dk_trace d));
  match Exchange n oauthCfg (callback_url provider) code with
  | Err e => fail e
  | Ok token =>
      writes (record (AIssued userID provider (et_AccessToken token)));;
      ok token
  end.

Definition new_connection (id userID : UUID) (orgIDStr provider : string)
    (oauthCfg : MCPOAuthProviderConfig) (token : ExchangedToken) : MCPConnection :=
  {| mc_ID := id; mc_UserID := userID;
     mc_OrgID := match uuid_Parse orgIDStr with
                 | Some o => if String.eqb orgIDStr "" || (o =? 0)%N then None else Some o
                 | None => None
                 end;
     mc_IsOrgLevel := false; mc_Provider := provider; mc_Status := ""; mc_VaultKey := "";
     mc_RefreshVaultKey := ""; mc_Scopes := op_Scopes oauthCfg; mc_Metadata := "";
     mc_LastUsedAt := None; mc_ConnectedAt := 0; mc_ExpiresAt := et_Expiry token;
     mc_CreatedAt := 0; mc_UpdatedAt := 0 |}.

Definition OAuthCallback (env : McpEnv) (provider state code : string) : REPLY := respond (
  unless (String.eqb state "" || String.eqb code "") 400 "missing state or code parameter";?
  stored ←? or_reply (on_states (me_now env) (Session.ValidateOAuthStateWithUser state))
              (fun _ => writeError 400 "invalid or expired OAuth state");
  let '(storedProvider, redirectURL, userIDStr, orgIDStr) :=
    stored : string * string * string * string in
  unless (negb (String.eqb storedProvider (state_provider provider))) 400
    "state/provider mismatch";?
  unless (String.eqb userIDStr "") 400
    "invalid state - user identity missing, please try again";?
  userID ←? require (uuid_Parse userIDStr) 400 "invalid state - bad user identity";
  oauthCfg ←? require (cfg_OAuthProviders cfg !! provider) 400
                "OAuth not configured for this provider";
  token ←? or_reply (exchange_code userID provider oauthCfg code)
             (fun _ => writeError 502 "failed to exchange OAuth code for token");
  or_reply (CreateConnection vaultFor (me_now env)
              (new_connection (me_ids env 0) userID orgIDStr provider oauthCfg token)
              (et_AccessToken token) (et_RefreshToken token))
    (internal "failed to store connection");?
  ok (writeJSON 307 (BRedirect redirectURL))).

(** The names, in the order of the iteration over the map. *)
Definition OAuthStatus : REPLY :=
  mret (writeJSON 200 (BOAuthEnabled (range_map (cfg_OAuthProviders cfg)).*1)).

(** *** Custom templates *)

Definition created_by (userID : UUID) (t : CustomMCPTemplate) : CustomMCPTemplate :=
  {| ct_ID := ct_ID t; ct_Name := ct_Name t; ct_Label := ct_Label t; ct_Category := ct_Category t;
     ct_Description := ct_Description t; ct_BaseURL := ct_BaseURL t; ct_AuthType := ct_AuthType t;
     ct_AuthHeader := ct_AuthHeader t; ct_Actions := ct_Actions t;
     ct_CreatedBy := uuid_String userID; ct_CreatedAt := ct_CreatedAt t;
     ct_UpdatedAt := ct_UpdatedAt t |}.

Definition Handler_CreateCustomTemplate (env : McpEnv) (request : option CustomMCPTemplate)
    : REPLY := respond (
  claims ←? claims_of env;
  body ←? require request 400 "invalid request body";
  r ←? or_reply (CreateCustomTemplate (me_now env) (me_ids env 0)
                   (created_by (c_UserID claims) body)) (internal "failed to create template");
  match r with
  | inr errs => ok (writeJSON 422 (BIssues errs))
  | inl t => ok (writeJSON 201 (BTemplate t))
  end).

Definition Handler_ListCustomTemplates (env : McpEnv) : REPLY := respond (
  claims ←? claims_of env;
  l ←? or_reply (ListCustomTemplates (c_UserID claims) (claims_org claims))
         (internal "failed to list templates");
  ok (writeJSON 200 (BTemplates l))).

Definition Handler_DeleteCustomTemplate (env : McpEnv) (templateID : string) : REPLY := respond (
  claims ←? claims_of env;
  tmplID ←? path_uuid templateID "invalid template id";
  or_reply (DeleteCustomTemplate tmplID (c_UserID claims))
    (fun e => if String.eqb e forbidden then writeError 403 "forbidden"
              else writeError 500 "failed to delete template");?
  ok (writeJSON 200 (BStatus [("status", "deleted"); ("id", uuid_String tmplID)]))).

Definition Handler_ValidateCustomTemplate (request : option CustomMCPTemplate) : REPLY := respond (
  body ←? require request 400 "invalid request body";
  errs ← reads (ValidateCustomTemplate body);
  ok (writeJSON 200 (BValid (bool_decide (errs = [])) errs))).

Definition Handler_SimulateCustomConnection (request : option SimulateRequest) : REPLY := respond (
  body ←? require request 400 "invalid request body";
  unless (String.eqb (sr_BaseURL body) "" || String.eqb (sr_Token body) "") 400
    "base_url and token are required";?
  r ← SimulateCustomConnection (sr_BaseURL body) (sr_Token body) (sr_AuthType body)
        (sr_AuthHeader body);
  ok (result_or_error r)).

(** ** [swarm/mcp_handler.go] *)

(** [h.MCPSvc != nil] *)
Variable MCPSvc : bool.
Definition available : STEP unit := unless (negb MCPSvc) 503 "MCP integrations not available".

(** An organisation that cannot be parsed is left out. *)
Definition optional_org (s : string) : option UUID :=
  if String.eqb s "" then None else uuid_Parse s.

Definition HandleMCPCall (env : McpEnv) (request : option CallBody) : REPLY := respond (
  available;?
  body ←? require request 400 "invalid request body";
  unless (String.eqb (cb_Provider body) "" || String.eqb (cb_Action body) "") 400
    "provider and action are required";?
  userID ←? require (uuid_Parse (cb_UserID body)) 400 "invalid user_id";
  r ← Execute vaultFor rdb cfg (me_now env) (me_latency env 0) (me_ids env 0)
        {| er_UserID := userID; er_OrgID := optional_org (cb_OrgID body);
           er_Provider := cb_Provider body; er_Action := cb_Action body;
           er_Params := cb_Params body; er_AgentID := cb_AgentID body;
           er_TaskID := cb_TaskID body |};
  ok (result_or_error r)).

Definition HandleMCPListProviders : REPLY := respond (
  available;?
  l ← reads (ListProviders cfg);
  ok (writeJSON 200 (BProviders l))).

(** The first of the name in the first provider of the name that has it. *)
Definition described (provider action : string) (l : list ProviderInfo) : option ActionDef :=
  head (omap (fun p => if String.eqb (pi_Name p) provider
                       then List.find (fun a => String.eqb (ad_Name a) action) (pi_Actions p)
                       else None) l).

Definition HandleMCPDescribeAction (provider action : string) : REPLY := respond (
  available;?
  l ← reads (ListProviders cfg);
  match described provider action l with
  | Some a => ok (writeJSON 200 (BAction a))
  | None => fail (writeError 404 ("action " ++ q action ++ " not found for provider "
                                  ++ q provider))
  end).

Definition agent_tools (l : list ProviderInfo) : list AgentTool :=
  p ← l; a ← pi_Actions p;
  [{| at_ToolID := pi_Name p ++ "." ++ ad_Name a; at_Provider := pi_Name p;
      at_Action := ad_Name a; at_Description := ad_Description a; at_Category := pi_Category p;
      at_RequiredParams := ad_RequiredParams a; at_OptionalParams := ad_OptionalParams a;
      at_ConsentRequired := ad_ConsentRequired a |}].

Definition HandleMCPListTools : REPLY := respond (
  available;?
  l ← reads (ListProviders cfg);
  let tools := agent_tools l in
  ok (writeJSON 200 (BTools tools (Z.of_nat (List.length tools))))).

(** The calls of a batch one after the other, from the [i]-th on. *)
Fixpoint batch_calls (env : McpEnv) (userID : UUID) (orgID : option UUID) (body : BatchBody)
    (i : nat) (calls : list BatchCall) : DB (Desk V) (list BatchResult) :=
  match calls with
  | [] => mret []
  | c :: calls =>
      r ← Execute vaultFor rdb cfg (me_now env) (me_latency env i) (me_ids env i)
            {| er_UserID := userID; er_OrgID := orgID; er_Provider := bc_Provider c;
               er_Action := bc_Action c; er_Params := bc_Params c; er_AgentID := bb_AgentID body;
               er_TaskID := bb_TaskID body |};
      let out :=
        match r with
        | Err e => {| ba_ID := bc_ID c; ba_Success := false; ba_Data := None; ba_Error := e |}
        | Ok t => {| ba_ID := bc_ID c; ba_Success := tr_Success t; ba_Data := tr_Data t;
                     ba_Error := tr_Error t |}
        end in
      rest ← batch_calls env userID orgID body (S i) calls;
      mret (out :: rest)
  end.

Definition HandleMCPBatchCall (env : McpEnv) (request : option BatchBody) : REPLY := respond (
  available;?
  body ←? require request 400 "invalid request body";
  userID ←? require (uuid_Parse (bb_UserID body)) 400 "invalid user_id";
  l ← batch_calls env userID (optional_org (bb_OrgID body)) body 0 (bb_Calls body);
  ok (writeJSON 200 (BBatch l))).

Definition HandleMCPCheckConnections (user_id org_id : string) : REPLY := respond (
  available;?
  userID ←? require (uuid_Parse user_id) 400 "invalid user_id";
  l ←? or_reply (ListConnections userID (optional_org org_id)) (writeError 500);
  ok (writeJSON 200 (BConnected (remove_dups (mc_Provider <$>
    List.filter (fun c => String.eqb (mc_Status c) "active") l))))).

(** ** Everything that runs *)

(** A user with a token, the browser that comes back, an agent, or the loop. *)
Inductive McpRequest :=
  | RqProviders | RqConnections | RqConnect | RqDisconnect (id : string) | RqTest (id : string)
  | RqLogs (id : string) | RqAuthorize (provider redirect_url referer origin : string) | RqStatus
  | RqTemplates | RqNewTemplate (t : option CustomMCPTemplate) | RqDropTemplate (id : string)
  | RqValidate (t : option CustomMCPTemplate) | RqSimulate (r : option SimulateRequest)
  | RqCallback (provider state code : string)
  | RqCall (b : option CallBody) | RqBatch (b : option BatchBody) | RqAgentProviders
  | RqDescribe (provider action : string) | RqTools | RqChecks (user_id org_id : string).

Definition mcp_serve (env : McpEnv) (r : McpRequest) : REPLY :=
  match r with
  | RqProviders => Handler_ListProviders
  | RqConnections => Handler_ListConnections env
  | RqConnect => Handler_CreateConnection
  | RqDisconnect id => Handler_DeleteConnection env id
  | RqTest id => Handler_TestConnection env id
  | RqLogs id => Handler_GetCallLog id
  | RqAuthorize provider redirect_url referer origin =>
      InitiateOAuth env provider redirect_url referer origin
  | RqStatus => OAuthStatus
  | RqTemplates => Handler_ListCustomTemplates env
  | RqNewTemplate t => Handler_CreateCustomTemplate env t
  | RqDropTemplate id => Handler_DeleteCustomTemplate env id
  | RqValidate t => Handler_ValidateCustomTemplate t
  | RqSimulate r => Handler_SimulateCustomConnection r
  | RqCallback provider state code => OAuthCallback env provider state code
  | RqCall b => HandleMCPCall env b
  | RqBatch b => HandleMCPBatchCall env b
  | RqAgentProviders => HandleMCPListProviders
  | RqDescribe provider action => HandleMCPDescribeAction provider action
  | RqTools => HandleMCPListTools
  | RqChecks user_id org_id => HandleMCPCheckConnections user_id org_id
  end.

(** A request, or a tick of the refresh loop, with what fails in it. *)
Inductive McpEvent :=
  | EvRequest (env : McpEnv) (r : McpRequest)
  | EvRefresh (now : Z).

Definition mcp_step (d : Desk V) (x : McpEvent * list bool) : Desk V :=
  match x.1 with
  | EvRequest env r => tables (mcp_serve env r (MkRun d x.2)).2
  | EvRefresh now => tables (refreshExpiring vaultFor rdb now (MkRun d x.2)).2
  end.

Definition mcp_run (events : list (McpEvent * list bool)) (d : Desk V) : Desk V :=
  fold_left mcp_step events d.

End handler.
