(* ===== verification/McpSafety.v ===== *)
(** * What tool integrations guarantee

    A provider is only called with a token that was issued to the owner of the connection for
    that provider, whatever the requests, the failures and the state of the cache; a connection
    that is no longer active stays so, and blocks its user, until it is deleted; the limits stop
    calls. *)

From Stdlib Require Import ZArith Lia Ascii String.
From stdpp Require Import base list gmap strings sorting.
From S2P Require Import Prelude GoStrings SwarmDb Db Http Sandbox Redact Fingerprint Json Store Vault Mcp McpStore McpService McpHandler.
From S2P Require Session.
Local Open Scope string_scope.
Local Open Scope rtv_scope.
Local Open Scope Z_scope.

(** ** The trace *)

Definition issued (tr : list Act) (owner : UUID) (provider token : string) : Prop :=
  AIssued owner provider token ∈ tr.

Definition known (p : string) : Prop := p ∈ known_providers.

(** What comes before an act justifies it. *)
Definition act_ok (pre : list Act) (a : Act) : Prop :=
  match a with
  | AIssued _ p _ => known p
  | ACall requester owner p _ token _ =>
      requester = owner /\ known p /\ token <> "" /\ issued pre owner p token
  | ATest _ owner p _ token => known p /\ token <> "" /\ issued pre owner p token
  end.

Definition trace_ok (tr : list Act) : Prop :=
  forall pre a post, tr = (pre ++ a :: post)%list -> act_ok pre a.

Lemma trace_ok_nil : trace_ok [].
Proof. intros pre a post E. by destruct pre. Qed.

Lemma trace_ok_snoc tr a : trace_ok tr -> act_ok tr a -> trace_ok (tr ++ [a])%list.
Proof.
  intros Ht Ha pre b post E. destruct post as [|c post _] using rev_ind.
  - apply app_inj_tail in E as [-> ->]. done.
  - rewrite app_comm_cons, app_assoc in E. apply app_inj_tail in E as [-> _]. by eapply Ht.
Qed.

Lemma issued_app tr a u p t : issued tr u p t -> issued (tr ++ [a])%list u p t.
Proof. unfold issued. rewrite elem_of_app. auto. Qed.

Section safety.
Context `{RowOrder} `{UuidText} `{UnicodeTables} `{Postgres} `{Collation} `{Digest} `{FoldTables} `{UrlScheme} `{HttpClient} `{OAuth2} `{UrlHost}.
Context {V : Type} (storeFor : Z -> UUID -> SecretStore V) `{!KeepsSecrets storeFor}.
Variables (rdb : bool) (cfg : MCPConfig) (serverBase : string) (MCPSvc : bool).
Hypothesis providers_known : forall p, is_Some (cfg_OAuthProviders cfg !! p) -> known p.
Hypothesis keys_legal : forall p id kind, legal (vault_key p id kind).

(** ** Keys *)

Lemma uuid_String_inj a b : uuid_String a = uuid_String b -> a = b.
Proof.
  intros E. assert (Some a = Some b) as [= ->]; [|done].
  by rewrite <- (uuid_Parse_String a), <- (uuid_Parse_String b), E.
Qed.

Lemma token_key_inj a b : token_key a = token_key b -> a = b.
Proof. unfold token_key. intros E. apply uuid_String_inj. by injection E. Qed.

Definition no_colon (s : string) : Prop := forallb (fun a => negb (Ascii.eqb a ":")) (bytes s) = true.

Lemma no_colon_prefix p p' s s' :
  no_colon p -> no_colon p' -> p ++ ":" ++ s = p' ++ ":" ++ s' -> p = p'.
Proof.
  unfold no_colon. revert p'. induction p as [|a p IH]; intros [|b p'] Hp Hp' E; cbn in *; try done.
  - injection E as <- _. done.
  - injection E as -> _. done.
  - injection E as -> E. apply andb_true_iff in Hp as [_ Hp], Hp' as [_ Hp'].
    by rewrite (IH p' Hp Hp' E).
Qed.

Lemma known_no_colon p : known p -> no_colon p.
Proof. unfold known. revert p. apply Forall_forall. by repeat constructor. Qed.

Lemma access_key_inj p p' id id' :
  known p -> known p' -> vault_key p id "access" = vault_key p' id' "access" -> p = p'.
Proof.
  intros Hp Hp' E. unfold vault_key in E. apply (inj (append "mcp:")) in E.
  apply no_colon_prefix in E; by try apply known_no_colon.
Qed.

Lemma string_rev_access s : string_rev (s ++ "access") = "ssecca" ++ string_rev s.
Proof. by rewrite string_rev_app. Qed.

Lemma refresh_not_access p p' id id' : vault_key p id "refresh" <> vault_key p' id' "access".
Proof.
  intros E. apply (f_equal string_rev) in E. unfold vault_key in E.
  rewrite !string_rev_app in E. discriminate E.
Qed.

(** ** The invariant *)

Definition issues (tr : list Act) (u : UUID) (k v : string) : Prop :=
  forall p id, known p -> k = vault_key p id "access" -> issued tr u p v.

Definition row_ok (id : UUID) (c : MCPConnection) : Prop :=
  mc_ID c = id /\ mc_IsOrgLevel c = false /\ known (mc_Provider c) /\
  mc_VaultKey c = vault_key (mc_Provider c) id "access" /\
  (mc_RefreshVaultKey c = "" \/ mc_RefreshVaultKey c = vault_key (mc_Provider c) id "refresh").

Record desk_ok (used : gset UUID) (d : Desk V) : Prop := {
  ok_rows : forall id c, mt_connections (dk_tables d) !! id = Some c -> row_ok id c /\ id ∈ used;
  ok_unique : forall id id' c c', mt_connections (dk_tables d) !! id = Some c ->
    mt_connections (dk_tables d) !! id' = Some c' ->
    mc_UserID c = mc_UserID c' -> mc_Provider c = mc_Provider c' -> id = id';
  ok_tokens : forall id e, dk_tokens d !! token_key id = Some e -> id ∈ used /\
    forall c, mt_connections (dk_tables d) !! id = Some c ->
      issued (dk_trace d) (mc_UserID c) (mc_Provider c) (ex_value e);
  ok_vault : within (issues (dk_trace d)) (dk_vault d);
  ok_trace : trace_ok (dk_trace d)
}.

(** Every row was there before, with the same owner, provider and keys. *)
Definition same_row (c c' : MCPConnection) : Prop :=
  mc_ID c' = mc_ID c /\ mc_UserID c' = mc_UserID c /\ mc_Provider c' = mc_Provider c /\
  mc_IsOrgLevel c' = mc_IsOrgLevel c /\ mc_VaultKey c' = mc_VaultKey c /\
  mc_RefreshVaultKey c' = mc_RefreshVaultKey c.
Definition shrinks (t t' : McpTables) : Prop :=
  forall id c', mt_connections t' !! id = Some c' ->
    exists c, mt_connections t !! id = Some c /\ same_row c c'.

Lemma shrinks_refl t : shrinks t t.
Proof. intros id c Hc. by exists c. Qed.
Lemma shrinks_trans t1 t2 t3 : shrinks t1 t2 -> shrinks t2 t3 -> shrinks t1 t3.
Proof.
  intros H12 H23 id c Hc. destruct (H23 id c Hc) as (c2 & Hc2 & E2).
  destruct (H12 id c2 Hc2) as (c1 & Hc1 & E1). exists c1. split; [done|].
  unfold same_row in *. intuition congruence.
Qed.

Lemma desk_ok_shrinks used d t : desk_ok used d -> shrinks (dk_tables d) t -> desk_ok used (put_tables t d).
Proof.
  intros [Hr Hu Ht Hv Htr] Hs. split; cbn.
  - intros id c Hc. destruct (Hs id c Hc) as (c0 & Hc0 & E1 & E2 & E3 & E4 & E5 & E6).
    destruct (Hr id c0 Hc0) as [Hrow ?]. split; [|done]. unfold row_ok in *.
    by rewrite E1, E3, E4, E5, E6.
  - intros id id' c c' Hc Hc' Eu Ep. destruct (Hs id c Hc) as (c0 & Hc0 & E1 & E2 & E3 & _).
    destruct (Hs id' c' Hc') as (c1 & Hc1 & F1 & F2 & F3 & _). eapply Hu; eauto; congruence.
  - intros id e He. destruct (Ht id e He) as [Hin Hiss]. split; [done|]. intros c Hc.
    destruct (Hs id c Hc) as (c0 & Hc0 & _ & E2 & E3 & _). rewrite E2, E3. by apply Hiss.
  - done.
  - done.
Qed.

(** What changes neither rows nor tokens nor vault nor trace. *)
Lemma desk_ok_same used d d' :
  mt_connections (dk_tables d') = mt_connections (dk_tables d) -> dk_tokens d' = dk_tokens d ->
  dk_vault d' = dk_vault d -> dk_trace d' = dk_trace d -> desk_ok used d -> desk_ok used d'.
Proof. intros E1 E2 E3 E4 [H1' H2' H3' H4' H5']. split; rewrite ?E1, ?E2, ?E3, ?E4; done. Qed.

(** *** Steps *)

(** The rows of [l] that are still there are as they were read. *)
Definition listed (used : gset UUID) (l : list MCPConnection) (d : Desk V) : Prop :=
  forall conn, conn ∈ l -> mc_ID conn ∈ used /\ row_ok (mc_ID conn) conn /\
    forall c, mt_connections (dk_tables d) !! mc_ID conn = Some c -> same_row conn c.

Record state_ok (used : gset UUID) (l : list MCPConnection) (tr : list Act) (d : Desk V) : Prop := {
  so_desk : desk_ok used d;
  so_listed : listed used l d;
  so_trace : dk_trace d = tr
}.

Lemma alter_shrinks f id t0 t :
  (forall c, mt_connections t !! id = Some c -> same_row c (f c)) -> shrinks t0 t ->
  shrinks t0 (set_connections (alter f id) t).
Proof.
  intros Hf Hs. apply (shrinks_trans _ t); [done|]. intros id' c'. cbn. rewrite lookup_alter.
  case_decide as E; [|intros Hc; by exists c'].
  subst id'. intros (c & Hc & ->)%fmap_Some. exists c. split; [done|by apply Hf].
Qed.

Lemma UpdateStatus_shrinks t0 id status : stays (shrinks t0) (MCP_UpdateStatus id status).
Proof. apply stays_guarded. intros t Ht _. by apply alter_shrinks. Qed.
Lemma TouchLastUsed_shrinks t0 now id : stays (shrinks t0) (MCP_TouchLastUsed now id).
Proof. apply stays_statement. intros t Ht. by apply alter_shrinks. Qed.
Lemma Delete_shrinks t0 id : stays (shrinks t0) (MCP_Delete id).
Proof.
  apply stays_statement. intros t Ht. apply (shrinks_trans _ t); [done|]. intros id' c. cbn.
  intros [_ Hc]%lookup_delete_Some. by exists c.
Qed.
Lemma InsertCallLog_shrinks t0 now id e : stays (shrinks t0) (MCP_InsertCallLog now id e).
Proof. by apply stays_inserting. Qed.
Lemma CreateCustomTemplate_shrinks t0 now id m : stays (shrinks t0) (MCP_CreateCustomTemplate now id m).
Proof. unfold MCP_CreateCustomTemplate. apply stays_try; [by apply stays_inserting|]. intros; apply stays_ret. Qed.
Lemma DeleteCustomTemplate_shrinks t0 id : stays (shrinks t0) (MCP_DeleteCustomTemplate id).
Proof. by apply stays_statement. Qed.
Lemma CountCalls_shrinks t0 task : stays (shrinks t0) (MCP_CountCallsForTask task).
Proof. by apply stays_checked. Qed.

Section steps.
Variables (used : gset UUID) (l : list MCPConnection) (tr : list Act).
Notation I := (state_ok used l tr).

Lemma listed_shrinks d t : listed used l d -> shrinks (dk_tables d) t -> listed used l (put_tables t d).
Proof.
  intros Hl Hs conn Hin. destruct (Hl conn Hin) as (Hu & Hr & Hc). split; [done|]. split; [done|].
  cbn. intros c Hc'. destruct (Hs _ _ Hc') as (c0 & Hc0 & E). specialize (Hc c0 Hc0).
  unfold same_row in *. intuition congruence.
Qed.

Lemma tables_step_at {A} (m : DB McpTables A) :
  (forall d, I d -> stays (shrinks (dk_tables d)) m) -> stays I (on_tables m).
Proof.
  intros Hm [d fs] Hi. unfold on_tables, zoom. cbn in *.
  specialize (Hm d Hi (MkRun (dk_tables d) fs) (shrinks_refl _)). destruct Hi as [Hd Hl Ht].
  destruct (m _) as [a [t fs']]. cbn in *.
  split; [by apply desk_ok_shrinks|by apply listed_shrinks|done].
Qed.
Lemma tables_step {A} (m : DB McpTables A) : (forall t0, stays (shrinks t0) m) -> stays I (on_tables m).
Proof. intros Hm. by apply tables_step_at. Qed.

Lemma refs_step conn expires :
  conn ∈ l -> stays I (on_tables (MCP_UpdateTokenRefs (mc_ID conn) (mc_VaultKey conn)
                                    (mc_RefreshVaultKey conn) expires)).
Proof.
  intros Hin. apply tables_step_at. intros d [_ Hl _]. apply stays_guarded. intros t Hs _.
  apply alter_shrinks; [|done]. intros c Hc. destruct (Hs _ _ Hc) as (c0 & Hc0 & E).
  destruct (Hl conn Hin) as (_ & _ & Hrow). specialize (Hrow _ Hc0). unfold same_row in *. cbn.
  intuition congruence.
Qed.

Lemma vault_put v d : I d -> within (issues tr) v -> I (put_vault v d).
Proof.
  intros [[Hr Hu Ht Hv Htr] Hl Htrace] Hw. split; [|done|done]. split; try done.
  cbn. by rewrite Htrace.
Qed.

Lemma vault_step {A} (m : DB V A) (Q : A -> Prop) :
  ensures (within (issues tr)) m (fun x v => within (issues tr) v /\ Q x) ->
  ensures I (on_vault m) (fun x d => I d /\ Q x).
Proof.
  intros Hm [d fs] Hd. unfold on_vault, zoom. cbn in *.
  specialize (Hm (MkRun (dk_vault d) fs)). destruct (m _) as [a [v fs']]. cbn in *.
  destruct Hm as [Hw HQ]; [|split; [by apply vault_put|done]].
  destruct Hd as [[_ _ _ Hv _] _ <-]. done.
Qed.

Lemma vault_get now u p id kind :
  ensures I (on_vault (ss_Get (storeFor now u) (vault_key p id kind)))
    (fun x d => I d /\ forall v, x = Ok v -> v = "" \/ issues tr u (vault_key p id kind) v).
Proof. apply vault_step, Get_within, keys_legal. Qed.

Lemma vault_set now u p id kind v :
  (v <> "" -> issues tr u (vault_key p id kind) v) ->
  stays I (on_vault (ss_Set (storeFor now u) (vault_key p id kind) v)).
Proof.
  intros Hv. eapply ensures_conseq; [apply (vault_step _ (fun _ => True))|done|by intros x d []].
  eapply ensures_conseq; [by apply (Set_within (issues tr))|done|]. by split.
Qed.

Lemma vault_delete now u p id kind :
  stays I (on_vault (ss_Delete (storeFor now u) (vault_key p id kind))).
Proof.
  eapply ensures_conseq; [apply (vault_step _ (fun _ => True))|done|by intros x d []].
  eapply ensures_conseq; [by apply (Delete_within (issues tr))|done|]. by split.
Qed.

Lemma issues_refresh u p id v : issues tr u (vault_key p id "refresh") v.
Proof. intros p' id' _ E. by apply refresh_not_access in E. Qed.

Lemma issues_access u p id v : known p -> issued tr u p v -> issues tr u (vault_key p id "access") v.
Proof. intros Hp Hi p' id' Hp' E. by apply access_key_inj in E as <-. Qed.

Lemma same_step d d' :
  mt_connections (dk_tables d') = mt_connections (dk_tables d) -> dk_tokens d' = dk_tokens d ->
  dk_vault d' = dk_vault d -> dk_trace d' = dk_trace d -> I d -> I d'.
Proof.
  intros E1 E2 E3 E4 [Hd Hl Ht]. split; [by eapply desk_ok_same| |by rewrite E4].
  intros conn Hin. rewrite E1. by apply Hl.
Qed.

Lemma zoom_step {T A} (get : Desk V -> T) (put : T -> Desk V -> Desk V) (m : DB T A) :
  (forall t d, I d -> I (put t d)) -> stays I (zoom get put m).
Proof.
  intros Hp [d fs] Hd. unfold zoom. cbn. destruct (m _) as [a [t fs']]. cbn in *. by apply Hp.
Qed.
Lemma counters_step {A} (m : DB (gmap string (Expiring Z)) A) : stays I (on_counters m).
Proof. apply zoom_step. intros t d Hd. eapply same_step; [..|exact Hd]; done. Qed.
Lemma states_step {A} now (m : DB Session.Redis A) : stays I (on_states now m).
Proof. apply zoom_step. intros t d Hd. eapply same_step; [..|exact Hd]; done. Qed.
Lemma registry_step f : stays I (on_registry f).
Proof. apply stays_writes. intros d. by apply same_step. Qed.

Lemma tokens_step m d :
  (forall id e, m !! token_key id = Some e -> id ∈ used /\
     forall c, mt_connections (dk_tables d) !! id = Some c ->
       issued tr (mc_UserID c) (mc_Provider c) (ex_value e)) ->
  I d -> I (put_tokens m d).
Proof.
  intros Hm [[Hr Hu Ht Hv Htr] Hl Htrace]. split; [|done|done]. split; try done.
  cbn. by rewrite Htrace.
Qed.

Lemma drop_token_step id : stays I (drop_token rdb id).
Proof.
  unfold drop_token. destruct rdb; [|apply stays_ret]. cbn [negb]. apply stays_ignoring.
  intros [d fs] Hd. unfold on_tokens, zoom, statement, mbind, DB_bind, next_fails. cbn.
  destruct fs as [|[] fs]; cbn; apply tokens_step; try exact Hd;
    intros id' e; rewrite ?lookup_delete_Some; try intros [_ He]; try intros He;
    destruct Hd as [[_ _ Ht _ _] _ <-]; by apply Ht.
Qed.

Lemma cache_token_step now conn token :
  conn ∈ l -> issued tr (mc_UserID conn) (mc_Provider conn) token ->
  stays I (cache_token rdb now (mc_ID conn) token).
Proof.
  intros Hin Hi. unfold cache_token. destruct rdb; [|apply stays_ret]. cbn [negb].
  apply stays_ignoring.
  intros [d fs] Hd. unfold on_tokens, zoom, statement, mbind, DB_bind, next_fails. cbn.
  assert (I (put_tokens (dk_tokens d) d)) as Hsame by (eapply same_step; [..|exact Hd]; done).
  assert (I (put_tokens (<[token_key (mc_ID conn) := {| ex_value := token;
    ex_until := Some (now + tokenCacheTTL) |}]> (dk_tokens d)) d)) as Hnew.
  { apply tokens_step; [|exact Hd]. destruct Hd as [[_ _ Ht _ _] Hl <-].
    destruct (Hl conn Hin) as (Hu & _ & Hc). intros id e [[E <-]|[_ He]]%lookup_insert_Some.
    - apply token_key_inj in E as <-. split; [done|]. intros c Hc'.
      by destruct (Hc c Hc') as (_ & -> & -> & _).
    - by apply Ht. }
  destruct fs as [|[] fs]; cbn; done.
Qed.

End steps.

Lemma act_step used l tr a d :
  act_ok tr a -> state_ok used l tr d -> state_ok used l (tr ++ [a])%list (record a d).
Proof.
  intros Ha [[Hr Hu Ht Hv Htr] Hl Htrace]. split; [|done|cbn; by rewrite Htrace]. split; try done.
  - intros id e He. destruct (Ht id e He) as [Hin Hi]. split; [done|]. intros c Hc. cbn.
    by apply issued_app, Hi.
  - cbn. eapply within_mono; [|exact Hv]. intros u k v Hi p id Hp Hk. by apply issued_app, (Hi p id).
  - cbn. apply trace_ok_snoc; [done|]. by rewrite Htrace.
Qed.

(** ** Requests *)

Notation vaults := (Some storeFor).

Definition safe (used : gset UUID) (l : list MCPConnection) (d : Desk V) : Prop :=
  exists tr, state_ok used l tr d.

Lemma safe_state {A} used l (m : DB (Desk V) A) :
  (forall tr, ensures (state_ok used l tr) m (fun _ => safe used l)) -> stays (safe used l) m.
Proof. intros Hm r [tr Hr]. by apply (Hm tr). Qed.

Lemma safe_stays {A} used l (m : DB (Desk V) A) :
  (forall tr, stays (state_ok used l tr) m) -> stays (safe used l) m.
Proof.
  intros Hm. apply safe_state. intros tr. eapply ensures_conseq; [apply (Hm tr)|done|].
  intros a d Hd. by exists tr.
Qed.

Lemma safe_after {A} used l tr (m : DB (Desk V) A) :
  stays (state_ok used l tr) m -> ensures (state_ok used l tr) m (fun _ => safe used l).
Proof.
  intros Hm. eapply ensures_conseq; [exact Hm|done|]. intros a d Hd. by exists tr.
Qed.

Lemma safe_nil used d : desk_ok used d -> safe used [] d.
Proof. intros Hd. exists (dk_trace d). split; [done| |done]. intros conn []%elem_of_nil. Qed.

Lemma safe_desk used l d : safe used l d -> desk_ok used d.
Proof. by intros [tr []]. Qed.

Lemma ensures_desk {A} used (m : DB (Desk V) A) Q :
  (forall tr, ensures (state_ok used [] tr) m Q) -> ensures (desk_ok used) m Q.
Proof. intros Hm r Hr. apply safe_nil in Hr as [tr Hr]. by apply (Hm tr). Qed.

Lemma put_same (d : Desk V) : put_tables (dk_tables d) d = d.
Proof. by destruct d. Qed.

Lemma tables_query_row {A} (P : Desk V -> Prop) (f : McpTables -> option A) :
  ensures P (on_tables (query_row f))
    (fun x d => P d /\ forall a, x = Ok a -> f (dk_tables d) = Some a).
Proof.
  intros [d fs] Hd. unfold on_tables, zoom. cbn.
  assert (exists x fs', query_row f (MkRun (dk_tables d) fs) = (x, MkRun (dk_tables d) fs') /\
    forall a, x = Ok a -> f (dk_tables d) = Some a) as (x & fs' & E & Hx).
  { unfold query_row, query, try_bind, mbind, DB_bind, next_fails, reads, ok, fail, mret, DB_ret.
    cbn. destruct fs as [|[] fs]; cbn; destruct (f (dk_tables d)) eqn:Ef;
      eexists _, _; (split; [reflexivity|]); by intros ? [= <-]. }
  rewrite E. cbn. rewrite put_same. auto.
Qed.

Lemma tables_query {A} (P : Desk V -> Prop) (f : McpTables -> A) :
  ensures P (on_tables (query f)) (fun x d => P d /\ forall a, x = Ok a -> f (dk_tables d) = a).
Proof.
  intros [d fs] Hd. unfold on_tables, zoom, query, try_bind, mbind, DB_bind, next_fails, reads, ok, fail, mret, DB_ret.
  cbn. destruct fs as [|[] fs]; cbn; rewrite put_same; (split; [done|]); by intros ? [= <-].
Qed.

Lemma where_rows (p : UUID -> MCPConnection -> bool) m c :
  c ∈ (where_ p m).*2 -> exists id, m !! id = Some c /\ p id c = true.
Proof.
  unfold where_, rows. intros ([id c'] & -> & Hin)%list_elem_of_fmap.
  rewrite row_order_perm in Hin. apply base.list_elem_of_In, filter_In in Hin as [Hin Hp].
  exists id. split; [|done]. by apply base.list_elem_of_In, elem_of_map_to_list in Hin.
Qed.

(** What was read of rows that are there. *)
Lemma listed_rows used tr d l :
  desk_ok used d -> dk_trace d = tr ->
  (forall conn, conn ∈ l -> exists id, mt_connections (dk_tables d) !! id = Some conn) ->
  state_ok used l tr d.
Proof.
  intros Hd Htr Hl. split; [done| |done]. intros conn Hin. destruct (Hl conn Hin) as [id Hid].
  destruct (ok_rows _ _ Hd id conn Hid) as [Hrow Hu]. pose proof Hrow as [E _]. rewrite E in *.
  split; [done|]. split; [done|]. intros c Hc. rewrite Hid in Hc. injection Hc as <-. done.
Qed.

Lemma ensures_read {A B} (P : Desk V -> Prop) Q (f : Desk V -> A) (k : A -> DB (Desk V) B) :
  (forall a, ensures P (k a) Q) -> ensures P (reads f ≫= k) Q.
Proof. apply ensures_bind. by apply ensures_reads. Qed.

Section calls.
Variables (used : gset UUID) (now : Z).

Lemma logCall_step l tr id cid req status ms msg :
  stays (state_ok used l tr) (@logCall _ _ V now id cid req status ms msg).
Proof. apply stays_ignoring, tables_step. intros t0. apply InsertCallLog_shrinks. Qed.

Lemma unexpired_Some {A} (o : option (Expiring A)) e : unexpired now o = Some e -> o = Some e.
Proof.
  unfold unexpired. destruct o as [e'|]; [|done]. cbn.
  destruct (match ex_until e' with Some t => _ | None => _ end); [|done]. by intros [= <-].
Qed.

Lemma resolveToken_step tr conn :
  row_ok (mc_ID conn) conn ->
  ensures (fun d => state_ok used [conn] tr d /\
                    mt_connections (dk_tables d) !! mc_ID conn = Some conn)
    (resolveToken vaults rdb now conn)
    (fun x d => state_ok used [conn] tr d /\ forall t, x = Ok t ->
       t <> "" /\ issued tr (mc_UserID conn) (mc_Provider conn) t).
Proof.
  intros (_ & _ & Hknown & Hkey & _). unfold resolveToken.
  eapply (ensures_bind _ (fun o d => state_ok used [conn] tr d /\ forall t, o = Some t ->
    t <> "" /\ issued tr (mc_UserID conn) (mc_Provider conn) t)).
  { unfold cached_token. destruct rdb; [|by apply ensures_ret; intros d []]. cbn [negb].
    intros [d fs] [Hd Hrow]. unfold on_tokens, zoom, query, mbind, DB_bind, next_fails. cbn.
    assert (state_ok used [conn] tr (put_tokens (dk_tokens d) d)) as Hsame
      by (eapply same_step; [..|exact Hd]; done).
    assert (forall t, match ex_value <$> unexpired now (dk_tokens d !! token_key (mc_ID conn)) with
        | Some t => if String.eqb t "" then None else Some t | None => None end = Some t ->
      t <> "" /\ issued tr (mc_UserID conn) (mc_Provider conn) t) as Hc.
    { intros t. destruct (unexpired now _) as [e|] eqn:He; [|done]. apply unexpired_Some in He.
      cbn. destruct (String.eqb_spec (ex_value e) "") as [|Hne]; [done|]. intros [= <-].
      split; [done|]. destruct Hd as [[_ _ Ht _ _] _ <-]. by apply (Ht _ _ He). }
    destruct fs as [|[] fs]; cbn; (split; [exact Hsame|]); try done; exact Hc. }
  intros [t|].
  { apply ensures_ret. intros d [Hd Ht]. split; [done|]. intros t' [= <-]. by apply Ht. }
  cbn [userVault fmap option_fmap option_map]. rewrite Hkey.
  eapply (ensures_try _ (fun t d => state_ok used [conn] tr d /\
    (t = "" \/ issues tr (mc_UserID conn) (vault_key (mc_Provider conn) (mc_ID conn) "access") t))).
  { apply ensures_wrapping. eapply ensures_conseq; [apply vault_get|by intros d []|].
    intros [t|e] d [Hd Ht]; (split; [done|]); [by apply Ht|by intros t]. }
  intros t. apply ensures_pure. intros Ht. destruct (String.eqb_spec t "") as [->|Hne].
  { apply ensures_ret. intros d Hd. split; [done|]. by intros t. }
  assert (issued tr (mc_UserID conn) (mc_Provider conn) t) as Hi.
  { destruct Ht as [->|Ht]; [done|]. by apply (Ht _ (mc_ID conn)). }
  eapply (ensures_bind _ (fun _ => state_ok used [conn] tr)).
  { apply cache_token_step; [by apply list_elem_of_singleton|done]. }
  intros u. apply ensures_ret. intros d Hd. split; [done|]. by intros t' [= <-].
Qed.

Lemma call_provider_step l tr a p action params token :
  act_ok tr a ->
  ensures (state_ok used l tr) (@call_provider V a p action params token)
    (fun _ => state_ok used l (tr ++ [a])%list).
Proof.
  intros Ha. unfold call_provider. eapply (ensures_bind _ (fun _ => state_ok used l tr)).
  { by apply ensures_reads. }
  intros n. eapply (ensures_bind _ (fun _ => state_ok used l (tr ++ [a])%list)).
  { apply ensures_writes. intros d. by apply act_step. }
  intros u. by apply ensures_ret.
Qed.

Lemma execute_with_step l tr ms id req p conn token :
  act_ok tr (ACall (er_UserID req) (mc_UserID conn) (er_Provider req) (er_Action req) token
               (er_TaskID req)) ->
  ensures (state_ok used l tr) (execute_with now ms id req p conn token) (fun _ => safe used l).
Proof.
  intros Ha. unfold execute_with.
  eapply ensures_bind; [by apply call_provider_step|]. set (tr' := (tr ++ [_])%list).
  intros [result|e]; apply safe_after.
  - apply stays_bind; [apply registry_step|intros _].
    apply stays_bind; [apply stays_ignoring, tables_step; intros; apply TouchLastUsed_shrinks|intros _].
    apply stays_bind; [apply logCall_step|intros _]. apply stays_ret.
  - apply stays_bind; [apply registry_step|intros _].
    apply stays_bind; [apply logCall_step|intros _]. apply stays_ret.
Qed.

(** A row that a statement finds, in the tables and as it is listed. *)
Definition found (conn : MCPConnection) (d : Desk V) : Prop :=
  mt_connections (dk_tables d) !! mc_ID conn = Some conn.

Lemma found_at d id conn : desk_ok used d -> mt_connections (dk_tables d) !! id = Some conn -> found conn d.
Proof. intros Hd Hid. destruct (ok_rows _ _ Hd id conn Hid) as [[E _] _]. unfold found. by rewrite E. Qed.

Lemma found_state d conn : desk_ok used d -> found conn d ->
  row_ok (mc_ID conn) conn /\ mc_ID conn ∈ used /\ state_ok used [conn] (dk_trace d) d.
Proof.
  intros Hd Hf. destruct (ok_rows _ _ Hd _ conn Hf) as [Hrow Hu]. split; [done|]. split; [done|].
  apply listed_rows; [done..|]. intros c ->%list_elem_of_singleton. by exists (mc_ID conn).
Qed.

(** From a row that was found on. *)
Lemma ensures_found {A} (phi : Prop) conn (m : DB (Desk V) A) :
  (forall tr, row_ok (mc_ID conn) conn -> phi ->
     ensures (fun d => state_ok used [conn] tr d /\ found conn d) m (fun _ => safe used [conn])) ->
  ensures (fun d => desk_ok used d /\ found conn d /\ phi) m (fun _ => desk_ok used).
Proof.
  intros Hm r (Hd & Hf & Hphi). destruct (found_state _ _ Hd Hf) as (Hrow & _ & Hs).
  eapply safe_desk, (Hm (dk_trace (tables r))); [done|done|]. by split.
Qed.

Lemma desk_stays {A} (m : DB (Desk V) A) :
  (forall tr, stays (state_ok used [] tr) m) -> stays (desk_ok used) m.
Proof.
  intros Hm r Hr. apply safe_nil in Hr as [tr Hr]. specialize (Hm tr r Hr). by destruct Hm.
Qed.

Lemma desk_tables {A} (m : DB McpTables A) : (forall t0, stays (shrinks t0) m) -> stays (desk_ok used) (on_tables m).
Proof. intros Hm. apply desk_stays. intros tr. by apply tables_step. Qed.

Lemma head_where p key (t : gmap UUID MCPConnection) c :
  head (order_by key (where_ p t).*2) = Some c -> exists id, t !! id = Some c /\ p id c = true.
Proof.
  intros Hc. apply where_rows. rewrite <- (order_by_elem_of key).
  destruct (order_by key _) as [|c' l]; [done|]. cbn in Hc. injection Hc as ->. by left.
Qed.

Lemma find_step req :
  ensures (desk_ok used)
    (on_tables (MCP_FindActiveConnection (er_UserID req) (er_OrgID req) (er_Provider req)))
    (fun x d => match x with
       | Ok conn => desk_ok used d /\ found conn d /\
                    (mc_UserID conn = er_UserID req /\ mc_Provider conn = er_Provider req)
       | Err _ => desk_ok used d
       end).
Proof.
  eapply ensures_conseq; [apply tables_query_row|done|]. intros [conn|e] d [Hd Hf]; [|done].
  destruct (head_where _ _ _ _ (Hf conn eq_refl)) as (id & Hid & Hp).
  pose proof (found_at _ _ _ Hd Hid) as Hfound. split; [done|]. split; [done|].
  destruct (ok_rows _ _ Hd _ conn Hid) as [(_ & Horg & _) _]. unfold own_or_shared in Hp.
  rewrite Horg in Hp. cbn in Hp. rewrite orb_false_r in Hp.
  apply andb_true_iff in Hp as [[Hp _]%andb_true_iff Hu]. split; [by apply N.eqb_eq|by apply String.eqb_eq].
Qed.

(** A call with the token of the connection. *)
Lemma with_token_step {A} conn (k : string -> DBE (Desk V) A) p :
  mc_Provider conn = p ->
  (forall tr t, row_ok (mc_ID conn) conn -> t <> "" -> issued tr (mc_UserID conn) p t ->
     ensures (state_ok used [conn] tr) (k t) (fun _ => safe used [conn])) ->
  forall tr, row_ok (mc_ID conn) conn ->
  ensures (fun d => state_ok used [conn] tr d /\ found conn d)
    (try_bind (wrapping ("failed to resolve token for " ++ p) (resolveToken vaults rdb now conn)) k)
    (fun _ => safe used [conn]).
Proof.
  intros <- Hk tr Hrow.
  eapply (ensures_try _ (fun t d => state_ok used [conn] tr d /\
    (t <> "" /\ issued tr (mc_UserID conn) (mc_Provider conn) t))).
  - apply ensures_wrapping. eapply ensures_conseq; [by apply resolveToken_step|intros d Hd; exact Hd|].
    intros [t|e] d [Hd Ht]; [split; [done|by apply Ht]|by exists tr].
  - intros t. apply ensures_pure. intros [Hne Hi]. by apply Hk.
Qed.

Lemma Execute_step ms id req : stays (desk_ok used) (Execute vaults rdb cfg now ms id req).
Proof.
  assert (forall status m e, stays (desk_ok used) (@refusal _ _ V now id req status m e)) as Hrefuse.
  { intros. apply stays_bind; [|intros _; apply stays_ret]. apply desk_stays. intros; apply logCall_step. }
  unfold Execute. do 2 (case_match; [apply stays_ret|]). apply stays_bind; [apply stays_reads|].
  intros [p|]; [|apply stays_ret]. destruct (findAction _ _) as [a|]; [|apply stays_ret].
  destruct (validateParams _ _ _); [|apply stays_ret]. apply stays_bind.
  { unfold over_task_limit. case_match; [|apply stays_ret]. apply stays_bind.
    - apply desk_tables. intros; apply CountCalls_shrinks.
    - intros; apply stays_ret. }
  intros [count|]; [apply Hrefuse|]. unfold admit_call.
  apply stays_bind; [apply stays_reads|]. intros admitted.
  apply stays_bind; [apply desk_stays; intros; apply registry_step|]. intros _.
  destruct (negb admitted); [apply Hrefuse|].
  apply stays_bind; [apply desk_stays; intros; apply counters_step|]. intros [u|e]; [|apply Hrefuse].
  eapply ensures_bind; [apply find_step|]. intros [conn|e]; [|by apply ensures_ret].
  apply ensures_found. intros tr Hrow [Hu Hp]. apply with_token_step; [done| |done].
  intros tr' t (_ & _ & Hk & _) Hne Hi. apply execute_with_step. cbn. rewrite Hp in Hk. rewrite <- Hu. by split_and!.
Qed.

Lemma connection_step id :
  ensures (desk_ok used) (@GetConnection V id)
    (fun x d => match x with
       | Ok conn => desk_ok used d /\ found conn d /\ mc_ID conn = id
       | Err _ => desk_ok used d
       end).
Proof.
  eapply ensures_conseq; [apply tables_query_row|done|]. intros [conn|e] d [Hd Hf]; [|done].
  specialize (Hf conn eq_refl). split; [done|]. split; [by eapply found_at|].
  by destruct (ok_rows _ _ Hd _ conn Hf) as [[? _] _].
Qed.

Lemma TestConnection_step requester id :
  stays (desk_ok used) (TestConnection vaults rdb now requester id).
Proof.
  eapply (ensures_try _ (fun conn d => desk_ok used d /\ found conn d /\ mc_ID conn = id)); [apply connection_step|].
  intros conn. apply ensures_found. intros tr Hrow <-. apply ensures_read.
  intros [p|]; [|apply ensures_ret; intros d []; by exists tr].
  eapply (ensures_try _ (fun t d => state_ok used [conn] tr d /\
    (t <> "" /\ issued tr (mc_UserID conn) (mc_Provider conn) t))).
  { eapply ensures_conseq; [by apply resolveToken_step|intros d Hd; exact Hd|].
    intros [t|e] d [Hd Ht]; [split; [done|by apply Ht]|by exists tr]. }
  intros t. apply ensures_pure. intros [Hne Hi].
  destruct (pv_Actions p) as [|a ?]; [apply ensures_ret; intros; by exists tr|].
  eapply ensures_bind; [apply call_provider_step; cbn; destruct Hrow as (_ & _ & Hk & _); by split_and!|].
  intros [r|e]; apply safe_after; [apply stays_ret|]. apply stays_bind; [|intros; apply stays_ret].
  apply stays_ignoring, tables_step. intros; apply UpdateStatus_shrinks.
Qed.

Lemma DeleteConnection_step id : stays (desk_ok used) (DeleteConnection vaults rdb now id).
Proof.
  eapply (ensures_try _ (fun conn d => desk_ok used d /\ found conn d /\ mc_ID conn = id)); [apply connection_step|].
  intros conn. apply ensures_found. intros tr (_ & _ & _ & Hv & Hr) _.
  eapply (ensures_conseq _ (state_ok used [conn] tr)); [apply safe_after|by intros d []|done].
  cbn [userVault fmap option_fmap option_map]. apply stays_bind.
  { apply stays_bind; [|intros _]; (case_match; [apply stays_ret|]); apply stays_ignoring.
    - rewrite Hv. apply vault_delete.
    - destruct Hr as [Hr|Hr]; [by rewrite Hr in *|]. rewrite Hr. apply vault_delete. }
  intros _. apply stays_bind; [apply drop_token_step|]. intros _.
  apply tables_step. intros; apply Delete_shrinks.
Qed.

(** *** Refreshing *)

Lemma refresh_token_step l tr conn p refreshToken :
  known (mc_Provider conn) ->
  ensures (state_ok used l tr) (@refresh_token V conn p refreshToken)
    (fun x d => match x with
       | Ok new => state_ok used l (tr ++ [AIssued (mc_UserID conn) (mc_Provider conn) (rf_Access new)])%list d
       | Err _ => state_ok used l tr d
       end).
Proof.
  intros Hk. unfold refresh_token. apply ensures_read.
  intros n. destruct (pv_RefreshToken p n refreshToken) as [new|e]; [|by apply ensures_ret].
  eapply (ensures_bind _ (fun _ => state_ok used l
            (tr ++ [AIssued (mc_UserID conn) (mc_Provider conn) (rf_Access new)])%list)).
  - apply ensures_writes. intros d. by apply act_step.
  - intros u. by apply ensures_ret.
Qed.

Lemma refresh_one_step l conn : conn ∈ l -> stays (safe used l) (refresh_one vaults rdb now conn).
Proof.
  intros Hin [d0 fs] [tr Hd0]. revert Hd0. cbn. intros Hd0.
  destruct (so_listed _ _ _ _ Hd0 conn Hin) as (_ & (_ & _ & Hk & Hv & Hr) & _).
  assert (ensures (state_ok used l tr) (refresh_one vaults rdb now conn) (fun _ => safe used l)) as Hm;
    [|by apply (Hm (MkRun d0 fs))]. unfold refresh_one. clear Hd0.
  destruct (String.eqb_spec (mc_RefreshVaultKey conn) "") as [|Hne]; [apply safe_after, stays_ret|].
  destruct Hr as [Hr|Hr]; [done|]. apply ensures_read.
  intros [p|]; [|apply safe_after, stays_ret]. cbn [userVault fmap option_fmap option_map].
  eapply (ensures_bind _ (fun _ => state_ok used l tr)).
  { rewrite Hr. eapply ensures_conseq; [apply vault_get|done|by intros x d []]. }
  intros [token|e]; [|apply safe_after, stays_ret]. case_match; [apply safe_after, stays_ret|].
  eapply ensures_bind; [by apply refresh_token_step|]. intros [new|e]; apply safe_after.
  2: { apply stays_ignoring, tables_step. intros; apply UpdateStatus_shrinks. }
  apply stays_bind.
  { apply vault_set. intros _. apply issues_access; [done|]. unfold issued. set_solver. }
  intros [u|e]; [|apply stays_ret]. apply stays_bind.
  { case_match; [apply stays_ret|]. rewrite Hr. apply stays_ignoring, vault_set.
    intros _. apply issues_refresh. }
  intros _. apply stays_bind; [rewrite <- Hv; by apply refs_step|].
  intros [u'|e]; [apply drop_token_step|apply stays_ret].
Qed.

Lemma refreshExpiring_step : stays (desk_ok used) (refreshExpiring vaults rdb now).
Proof.
  eapply ensures_bind; [apply tables_query|]. intros [l|e]; [|by apply ensures_ret; intros d []].
  intros r [Hd Hl]. eapply (safe_desk _ l). apply ensures_every.
  - intros conn Hin. by apply refresh_one_step.
  - exists (dk_trace (tables r)). apply listed_rows; [done..|]. intros conn Hin.
    rewrite <- (Hl l eq_refl) in Hin. apply where_rows in Hin as (id & ? & _). by exists id.
Qed.

End calls.

(** *** Connecting *)

Lemma desk_ok_mono used used' d : used ⊆ used' -> desk_ok used d -> desk_ok used' d.
Proof.
  intros Hsub [Hr Hu Ht Hv Htr]. split; try done.
  - intros id c Hc. destruct (Hr id c Hc). set_solver.
  - intros id e He. destruct (Ht id e He). set_solver.
Qed.

Section connecting.
Variables (used : gset UUID) (now : Z) (id : UUID).
Hypothesis drawn_new : id ∉ used.
Notation used' := ({[id]} ∪ used).

Lemma insert_ok d c :
  desk_ok used d -> row_ok id c -> connection_duplicate c (dk_tables d) = false ->
  desk_ok used' (put_tables (set_connections <[id := c]> (dk_tables d)) d).
Proof.
  intros [Hr Hu Ht Hv Htr] Hrow [_ Hdup]%orb_false_iff.
  assert (forall id' c', mt_connections (dk_tables d) !! id' = Some c' ->
    mc_UserID c = mc_UserID c' -> mc_Provider c = mc_Provider c' -> False) as Hnew.
  { intros id' c' Hc' Eu Ep. apply not_true_iff_false in Hdup as []. apply existsb_exists.
    exists (id', c'). split.
    - apply base.list_elem_of_In. unfold rows. by apply elem_of_map_to_list.
    - destruct (Hr _ _ Hc') as [(_ & Horg' & _) _], Hrow as (_ & Horg & _). unfold same_pair. cbn.
      by rewrite Horg, Horg', Eu, Ep, String.eqb_refl, N.eqb_refl. }
  split; cbn; try done.
  - intros id' c' [[<- <-]|[_ Hc']]%lookup_insert_Some; [set_solver|].
    destruct (Hr _ _ Hc'). set_solver.
  - intros i1 i2 c1 c2 [[<- <-]|[Hn1 Hc1]]%lookup_insert_Some [[<- <-]|[Hn2 Hc2]]%lookup_insert_Some Eu Ep;
      [done|by destruct (Hnew _ _ Hc2)| |by eapply Hu].
    by destruct (Hnew _ _ Hc1).
  - intros id' e He. destruct (Ht _ _ He) as [Hin Hi]. split; [set_solver|].
    intros c' [[<- <-]|[_ Hc']]%lookup_insert_Some; [done|by apply Hi].
Qed.

Lemma MCP_CreateConnection_step c :
  row_ok id (inserted_connection (stamped_connection now id c)) -> mc_ID c = id ->
  ensures (desk_ok used) (@on_tables V _ (MCP_CreateConnection now id c)) (fun _ => desk_ok used').
Proof.
  intros Hrow Ec [d fs] Hd. unfold on_tables, zoom. cbn [tables fails] in *.
  assert (mc_ID (stamped_connection now id c) = id) as Eid by (cbn; rewrite Ec; by destruct (_ =? 0)%N).
  assert (ensures (eq (dk_tables d)) (MCP_CreateConnection now id c)
    (fun _ t => desk_ok used' (put_tables t d))) as Hm.
  { assert (desk_ok used' (put_tables (dk_tables d) d)) as Hsame
      by (rewrite put_same; eapply desk_ok_mono; [|done]; set_solver).
    unfold MCP_CreateConnection. eapply (ensures_try _ (fun _ t => desk_ok used' (put_tables t d))).
    - apply ensures_inserting; [|by intros t e <-]. intros t <- Hdup _. rewrite Eid.
      by apply insert_ok.
    - intros u. by apply ensures_ret. }
  specialize (Hm (MkRun (dk_tables d) fs) eq_refl). 
  destruct (MCP_CreateConnection _ _ _ _) as [a [t fs']]. exact Hm.
Qed.

Lemma CreateConnection_step tr conn access refresh :
  mc_ID conn = id -> mc_IsOrgLevel conn = false -> known (mc_Provider conn) ->
  mc_RefreshVaultKey conn = "" -> issued tr (mc_UserID conn) (mc_Provider conn) access ->
  ensures (state_ok used [] tr) (CreateConnection vaults now conn access refresh)
    (fun _ => desk_ok used').
Proof.
  intros Eid Horg Hk Hr Hi. unfold CreateConnection. cbn [userVault fmap option_fmap option_map].
  assert (forall d, state_ok used [] tr d -> desk_ok used' d) as Hweak.
  { intros d [Hd _ _]. eapply desk_ok_mono; [|done]. set_solver. }
  eapply (ensures_try _ (fun _ => state_ok used [] tr)).
  { eapply (ensures_conseq _ (state_ok used [] tr) _ (fun _ => state_ok used [] tr));
      [|done|intros [?|e] d Hd; [exact Hd|by apply Hweak]].
    apply stays_wrapping, vault_set. intros _. by apply issues_access. }
  intros u. set (rk := vault_key (mc_Provider conn) (mc_ID conn) "refresh").
  eapply (ensures_try _ (fun k d => state_ok used [] tr d /\ (k = "" \/ k = rk))).
  { case_match; [apply ensures_ret; intros d Hd; rewrite Hr; auto|].
    eapply (ensures_try _ (fun _ => state_ok used [] tr)).
    - eapply (ensures_conseq _ (state_ok used [] tr) _ (fun _ => state_ok used [] tr));
        [|done|intros [?|e] d Hd; [exact Hd|by apply Hweak]].
      apply stays_wrapping, vault_set. intros _. apply issues_refresh.
    - intros u'. apply ensures_ret. auto. }
  intros key. apply ensures_pure. intros Hkey.
  set (c := with_keys _ _ _ _). eapply (ensures_bind _ (fun _ => desk_ok used')).
  { change (mc_ID c) with (mc_ID conn). rewrite Eid.
    eapply ensures_conseq; [apply (MCP_CreateConnection_step c); [|done]|by intros d []|done].
    unfold row_ok. cbn. subst rk. rewrite Eid in *. destruct (id =? 0)%N; by split_and!. }
  intros [c'|e]; [by apply ensures_ret|]. apply desk_stays. intros tr'.
  apply stays_bind; [apply stays_ignoring, vault_delete|]. intros _.
  apply stays_bind; [|intros _; apply stays_ret]. destruct Hkey as [->| ->]; [apply stays_ret|].
  case_match; [apply stays_ret|]. apply stays_ignoring, vault_delete.
Qed.

Lemma exchange_step tr userID provider oauthCfg code :
  known provider ->
  ensures (state_ok used [] tr) (@exchange_code _ V serverBase userID provider oauthCfg code)
    (fun x d => match x with
       | Ok token => state_ok used [] (tr ++ [AIssued userID provider (et_AccessToken token)])%list d
       | Err _ => desk_ok used' d
       end).
Proof.
  intros Hk. unfold exchange_code. apply ensures_read.
  intros n. destruct (Exchange n oauthCfg _ code) as [token|e].
  - eapply (ensures_bind _ (fun _ => state_ok used []
              (tr ++ [AIssued userID provider (et_AccessToken token)])%list)).
    + apply ensures_writes. intros d. by apply act_step.
    + intros u. by apply ensures_ret.
  - apply ensures_ret. intros d [Hd _ _]. eapply desk_ok_mono; [|done]. set_solver.
Qed.

(** Steps that keep the desk, up to the one that draws the identifier. *)
Lemma ensures_try_desk {A B E} (m : DB (Desk V) (result A E)) (f : A -> DB (Desk V) (result B E)) :
  stays (desk_ok used) m -> (forall a, ensures (desk_ok used) (f a) (fun _ => desk_ok used')) ->
  ensures (desk_ok used) (try_bind m f) (fun _ => desk_ok used').
Proof.
  intros Hm Hf. eapply ensures_try; [|exact Hf].
  eapply ensures_conseq; [exact Hm|done|]. intros [a|e] d Hd; [exact Hd|].
  eapply desk_ok_mono; [|done]. set_solver.
Qed.

Lemma OAuthCallback_step env provider state code :
  me_now env = now -> me_ids env 0 = id ->
  ensures (desk_ok used) (OAuthCallback vaults cfg serverBase env provider state code)
    (fun _ => desk_ok used').
Proof.
  intros En Eid. apply ensures_respond. rewrite En.
  apply ensures_try_desk; [apply stays_unless|]. intros _.
  apply ensures_try_desk; [apply stays_or_reply, desk_stays; intros; apply states_step|].
  intros [[[sp redirectURL] userIDStr] orgIDStr].
  do 2 (apply ensures_try_desk; [apply stays_unless|]; intros _).
  apply ensures_try_desk; [apply stays_require|]. intros userID.
  destruct (cfg_OAuthProviders cfg !! provider) as [oauthCfg|] eqn:Hcfg; cbn [require].
  2: { apply ensures_ret. intros d Hd. eapply desk_ok_mono; [|done]. set_solver. }
  assert (known provider) as Hk by (apply providers_known; by eexists). rewrite try_ok.
  apply ensures_desk. intros tr.
  eapply (ensures_try _ (fun token => state_ok used []
            (tr ++ [AIssued userID provider (et_AccessToken token)])%list)).
  { apply ensures_or_reply. eapply ensures_conseq; [by apply exchange_step|done|]. by intros [token|e]. }
  intros token. eapply (ensures_try _ (fun _ => desk_ok used')).
  - apply ensures_or_reply. eapply ensures_conseq; [apply CreateConnection_step|done|by intros [c|e]];
      try done. cbn. unfold issued. set_solver.
  - intros c. by apply ensures_ret.
Qed.

End connecting.

(** *** Everything that runs *)

Lemma desk_registry used f : stays (desk_ok used) (@on_registry V f).
Proof. apply desk_stays. intros; apply registry_step. Qed.
Lemma desk_query {A} used (f : McpTables -> A) : stays (desk_ok used) (@on_tables V _ (query f)).
Proof. apply desk_tables. intros; apply stays_query. Qed.
Lemma desk_query_row {A} used (f : McpTables -> option A) :
  stays (desk_ok used) (@on_tables V _ (query_row f)).
Proof. apply desk_tables. intros; apply stays_query_row. Qed.
Lemma desk_states {A} used now (m : DB Session.Redis A) : stays (desk_ok used) (@on_states V _ now m).
Proof. apply desk_stays. intros; apply states_step. Qed.

Lemma CreateCustomTemplate_step used now id t :
  stays (desk_ok used) (@CreateCustomTemplate _ _ _ _ _ _ _ V now id t).
Proof.
  unfold CreateCustomTemplate. destruct (ValidateTemplate t); [|apply stays_ret].
  apply stays_bind; [apply stays_reads|]. intros []; [apply stays_ret|].
  apply stays_bind; [apply desk_tables; intros; apply CreateCustomTemplate_shrinks|].
  intros [m|e]; [|case_match; apply stays_ret].
  apply stays_bind; [apply desk_registry|]. intros u. apply stays_ret.
Qed.

Lemma DeleteCustomTemplate_step used id userID : stays (desk_ok used) (@DeleteCustomTemplate V id userID).
Proof.
  apply stays_try; [apply stays_wrapping, desk_query_row|]. intros t. case_match; [apply stays_ret|].
  apply stays_bind; [apply desk_registry|]. intros _.
  apply desk_tables. intros; apply DeleteCustomTemplate_shrinks.
Qed.

Lemma batch_step used env userID orgID body i calls :
  stays (desk_ok used) (batch_calls vaults rdb cfg env userID orgID body i calls).
Proof.
  revert i. induction calls as [|c calls IH]; intros i; [apply stays_ret|].
  apply stays_bind; [apply Execute_step|]. intros r. apply stays_bind; [apply IH|]. intros l. apply stays_ret.
Qed.

(** What the request draws for a connection. *)
Definition drawn (x : McpEvent) : list UUID :=
  match x with EvRequest env (RqCallback _ _ _) => [me_ids env 0] | _ => [] end.

Lemma serve_step used env r :
  match r with RqCallback _ _ _ => False | _ => True end ->
  stays (desk_ok used) (mcp_serve vaults rdb cfg serverBase MCPSvc env r).
Proof.
  intros Hr. destruct r; try done; cbn [mcp_serve];
    unfold Handler_ListProviders, Handler_ListConnections, Handler_CreateConnection,
      Handler_DeleteConnection, Handler_TestConnection, Handler_GetCallLog, InitiateOAuth,
      OAuthStatus, Handler_CreateCustomTemplate, Handler_ListCustomTemplates,
      Handler_DeleteCustomTemplate, Handler_ValidateCustomTemplate,
      Handler_SimulateCustomConnection, SimulateCustomConnection, HandleMCPCall,
      HandleMCPListProviders, HandleMCPDescribeAction, HandleMCPListTools, HandleMCPBatchCall,
      HandleMCPCheckConnections, claims_of, path_uuid, available, ListConnections, GetConnection,
      ListCustomTemplates, MCP_ListByUser, MCP_GetConnection, MCP_ListCallLog, MCP_ListCustomTemplates.
  all: handler; auto using DeleteConnection_step, TestConnection_step, Execute_step, batch_step,
    CreateCustomTemplate_step, DeleteCustomTemplate_step, desk_query, desk_query_row, desk_states.
Qed.

Lemma event_ok used x d :
  desk_ok used d -> (forall id, id ∈ drawn x.1 -> id ∉ used) ->
  desk_ok (list_to_set (drawn x.1) ∪ used) (mcp_step vaults rdb cfg serverBase MCPSvc d x).
Proof.
  destruct x as [[env r|now] fs]; intros Hd Hnew; cbn [fst] in *; unfold mcp_step; cbn [fst snd].
  2: { eapply desk_ok_mono; [|by apply (refreshExpiring_step used now (MkRun d fs))]. set_solver. }
  assert ((exists p s c, r = RqCallback p s c) \/ match r with RqCallback _ _ _ => False | _ => True end)
    as [(provider & state & code & ->)|Hr] by (destruct r; eauto).
  - eapply desk_ok_mono; [|eapply (OAuthCallback_step used (me_now env) (me_ids env 0) _ env _ _ _
      eq_refl eq_refl (MkRun d fs) Hd)]. cbn. set_solver.
    Unshelve. apply Hnew. cbn. by left.
  - eapply desk_ok_mono; [|by apply (serve_step used env r Hr (MkRun d fs))]. set_solver.
Qed.

Lemma run_ok events : forall used d,
  desk_ok used d -> NoDup (flat_map (fun x => drawn x.1) events) ->
  (forall id, id ∈ flat_map (fun x => drawn x.1) events -> id ∉ used) ->
  exists used', desk_ok used' (mcp_run vaults rdb cfg serverBase MCPSvc events d).
Proof.
  induction events as [|x events IH]; intros used d Hd Hnd Hnew; [by exists used|]. cbn in *.
  apply NoDup_app in Hnd as (_ & Hdis & Hnd).
  apply (IH (list_to_set (drawn x.1) ∪ used)); [|done|].
  - apply event_ok; [done|]. intros id Hid. apply Hnew. set_solver.
  - intros id Hid. rewrite elem_of_union, elem_of_list_to_set. intros [Hin|Hin]; [by eapply Hdis|].
    apply (Hnew id); [|done]. set_solver.
Qed.

(** Nothing is connected yet. *)
Record new_desk (d : Desk V) : Prop := {
  nd_connections : mt_connections (dk_tables d) = ∅;
  nd_tokens : dk_tokens d = ∅;
  nd_vault : within (issues []) (dk_vault d);
  nd_trace : dk_trace d = []
}.

Lemma new_desk_ok d : new_desk d -> desk_ok ∅ d.
Proof.
  intros [Hc Ht Hv Htr]. split; rewrite ?Hc, ?Ht, ?Htr; try done. apply trace_ok_nil.
Qed.

(** C8: every call of a provider, and every test of a connection, carries a token that was issued
    to the owner of the connection for that provider, and a call is made for the user it names:
    whatever users, agents and browsers ask for in whatever order, whatever statements fail and
    whatever providers answer, no token of one user or provider reaches a call of another. *)
Theorem calls_carry_own_tokens d events :
  new_desk d -> NoDup (flat_map (fun x => drawn x.1) events) ->
  trace_ok (dk_trace (mcp_run vaults rdb cfg serverBase MCPSvc events d)).
Proof.
  intros Hd%new_desk_ok Hnd. destruct (run_ok events ∅ d Hd Hnd) as [used Hok]; [set_solver|].
  by destruct Hok.
Qed.

End safety.
