(* ===== verification/McpLimits.v ===== *)
(** * What the limits of tool integrations stop

    The calls of a task that succeed are counted in the log of calls, so a batch has no more of
    them than the limit leaves, where the log can take them.  A connection that is no longer
    active stays so until it is deleted.  At the end a concrete state of the tools and of the
    secret stores, with the witnesses of McpSafety and VaultSafety, and the examples. *)

From Stdlib Require Import ZArith Lia Ascii String.
From stdpp Require Import base list gmap strings sorting.
From S2P Require Import Prelude GoStrings SwarmDb Db Sandbox Redact Fingerprint KeychainCrypto KeychainStore Keychain KeychainExamples Http Store Jwt ServerExamples Json Vault VaultSafety Mcp McpStore McpService McpHandler McpSafety.
From S2P Require Session.
Local Open Scope string_scope.
Local Open Scope rtv_scope.
Local Open Scope Z_scope.

Section limits.
Context `{RowOrder} `{UuidText} `{UnicodeTables} `{Postgres} `{Collation} `{Digest} `{FoldTables} `{UrlScheme} `{HttpClient} `{OAuth2} `{UrlHost}.
Context {V : Type} (storeFor : Z -> UUID -> SecretStore V).
Variables (rdb : bool) (cfg : MCPConfig) (task : string).
Hypothesis vault_calm : forall now u k, calm (ss_Get (storeFor now u) k).
Hypothesis task_named : task <> "" /\ text_ok task = true.
Hypothesis limited : 0 < cfg_MaxCallsPerTask cfg.
Notation vaults := (Some storeFor).

(** Rows are under their identifiers, the task has [k] calls in the log, and the identifiers of
    the log are in [ids]. *)
Record counted (ids : gset UUID) (k : Z) (t : McpTables) : Prop := {
  ct_keyed : forall id c, mt_connections t !! id = Some c -> mc_ID c = id;
  ct_calls : k <= calls_of task t;
  ct_ids : forall e, e ∈ mt_calls t -> cl_ID e ∈ ids
}.
Definition on_desk (P : McpTables -> Prop) (d : Desk V) : Prop := P (dk_tables d).

(** ** Steps *)

Lemma calm_zoom {S T A} (get : S -> T) put (m : DB T A) : calm m -> calm (zoom get put m).
Proof. intros Hm s. destruct (Hm (get s)) as (a & t & E). eexists _, _. by apply zoom_run. Qed.

Lemma zoom_on_desk {T A} P (get : Desk V -> T) put (m : DB T A) :
  (forall t d, dk_tables (put t d) = dk_tables d) -> stays (on_desk P) (zoom get put m).
Proof. intros E r Hr. unfold zoom. destruct (m _). cbn. unfold on_desk. by rewrite E. Qed.

Lemma tables_on_desk {A} P (m : DB McpTables A) : stays P m -> stays (on_desk P) (on_tables m).
Proof. apply stays_zoom; auto. Qed.

Lemma counted_mono ids k t id : counted ids k t -> counted ({[id]} ∪ ids) k t.
Proof. intros [? ? Hi]. split; [done..|]. intros e He. specialize (Hi e He). set_solver. Qed.

Lemma counted_le ids k k' t : counted ids k' t -> k <= k' -> counted ids k t.
Proof. intros [? ? ?] Hle. split; [done|lia|done]. Qed.

Lemma calls_of_app t e :
  calls_of task (set_calls (fun l => l ++ [e])%list t) =
  calls_of task t + if String.eqb (cl_TaskID e) task then 1 else 0.
Proof.
  unfold calls_of. cbn. rewrite Lists.List.filter_app, length_app. cbn.
  destruct (String.eqb _ _); cbn; lia.
Qed.

(** The entry of a call that succeeds can be inserted. *)
Definition loggable (req : ExecuteRequest) (latencyMs : Z) : bool :=
  text_ok (er_AgentID req) && text_ok (er_TaskID req) && text_ok (er_Action req)
  && text_ok (hashSHA256 (marshal_params (er_Params req))) && text_ok "" && int4 latencyMs.

Section entry.
Variables (now latencyMs : Z) (id : UUID) (req : ExecuteRequest) (ids : gset UUID).
Hypothesis of_task : er_TaskID req = task.
Notation ids' := ({[id]} ∪ ids).

Lemma insert_counted k e t :
  cl_ID e = id -> counted ids k t ->
  counted ids' (k + if String.eqb (cl_TaskID e) task then 1 else 0) (set_calls (fun l => l ++ [e])%list t).
Proof.
  intros Ee [Hk Hc Hi]. split; [done|rewrite calls_of_app; lia|]. cbn.
  intros e' [He'|He']%elem_of_app; [specialize (Hi e' He'); set_solver|].
  apply list_elem_of_singleton in He' as ->. set_solver.
Qed.

Lemma logCall_any k cid status ms msg :
  ensures (on_desk (counted ids k)) (@logCall _ _ V now id cid req status ms msg)
    (fun _ => on_desk (counted ids' k)).
Proof.
  assert (forall t, counted ids k t -> counted ids' k t) as Hm by (intros; by apply counted_mono).
  eapply ensures_bind; [|intros x; apply ensures_ret; intros d Hd; exact Hd].
  intros r Hr. apply (ensures_zoom dk_tables put_tables (counted ids k) (fun _ => True)
    (fun _ => counted ids' k)); [done..| |done].
  apply ensures_inserting; [|by intros; apply Hm]. intros t Ht _ _.
  eapply counted_le; [by apply insert_counted|]. case_match; lia.
Qed.

Lemma logCall_ok k cid :
  loggable req latencyMs = true -> id ∉ ids ->
  yields (on_desk (fun t => counted ids k t /\ has cid (mt_connections t) = true))
    (@logCall _ _ V now id cid req "ok" latencyMs "") (fun _ => on_desk (counted ids' (k + 1))).
Proof.
  intros Hlog Hnew. eapply yields_bind; [|intros x; apply yields_ret; intros d Hd; exact Hd].
  eapply (yields_zoom _ _ _ _ (fun t => counted ids k t /\ has cid (mt_connections t) = true)
    (fun _ => counted ids' (k + 1))); [|done|done].
  intros t [Ht Hcid]. unfold MCP_InsertCallLog. cbv zeta. rewrite inserting_quiet.
  match goal with |- context [existsb ?f ?l] => assert (existsb f l = false) as -> end.
  { apply not_true_is_false. intros (e & He & E)%existsb_exists. apply N.eqb_eq in E. cbn in E.
    apply Hnew. rewrite <- E. apply (ct_ids _ _ _ Ht). by apply base.list_elem_of_In. }
  match goal with |- context [call_accepted ?e t] => assert (call_accepted e t = true) as -> end.
  { unfold call_accepted, loggable in *.
    cbn [call_entry cl_ConnectionID cl_AgentID cl_TaskID cl_Action cl_InputHash cl_OutputHash
      cl_LatencyMs cl_Status cl_ErrorMessage String.eqb]. repeat (apply andb_true_iff in Hlog as [Hlog ?]).
    rewrite Hcid, Hlog. repeat match goal with E : _ = true |- _ => rewrite E; clear E end. done. }
  eexists _, _. split; [reflexivity|].
  eapply counted_le; [by apply insert_counted|]. cbn. rewrite of_task, String.eqb_refl. lia.
Qed.
Lemma logCall_calm cid status ms msg : calm (@logCall _ _ V now id cid req status ms msg).
Proof. unfold logCall, ignoring. apply calm_bind; [apply calm_zoom; unfold MCP_InsertCallLog; calm|calm]. Qed.

Definition answered (k : Z) (x : result ToolResult string) (d : Desk V) : Prop :=
  match x with
  | Ok _ => k < cfg_MaxCallsPerTask cfg /\ on_desk (counted ids' (k + 1)) d
  | Err _ => on_desk (counted ids' k) d
  end.

Lemma fail_counted k e : yields (on_desk (counted ids k)) (fail e) (answered k).
Proof. apply yields_ret. intros d Hd. by apply counted_mono. Qed.

Lemma refusal_counted k status msg e :
  yields (on_desk (counted ids k)) (@refusal _ _ V now id req status msg e) (answered k).
Proof.
  eapply yields_bind; [apply yields_ensures; [apply logCall_calm|apply logCall_any]|].
  intros u. by apply yields_ret.
Qed.

Lemma resolveToken_calm conn : calm (resolveToken vaults rdb now conn).
Proof.
  unfold resolveToken, cached_token, cache_token, on_tokens, on_vault. cbn. apply calm_bind.
  { destruct rdb; cbn [negb]; [|calm]. apply calm_bind; [apply calm_zoom; calm|calm]. }
  intros [t|]; [calm|]. apply calm_try; [unfold wrapping; apply calm_bind; [by apply calm_zoom|calm]|].
  intros t. case_match; [calm|]. apply calm_bind; [|calm].
  destruct rdb; cbn [negb]; [|calm]. apply calm_bind; [apply calm_zoom; calm|calm].
Qed.

Lemma resolveToken_on_desk P conn : stays (on_desk P) (resolveToken vaults rdb now conn).
Proof.
  unfold resolveToken, cached_token, cache_token, on_tokens, on_vault. cbn. apply stays_bind.
  { destruct rdb; cbn [negb]; [|stay]. apply stays_bind; [by apply zoom_on_desk|stay]. }
  intros [t|]; [stay|]. apply stays_try; [by apply stays_wrapping, zoom_on_desk|].
  intros t. case_match; [stay|]. apply stays_bind; [|stay].
  destruct rdb; cbn [negb]; [|stay]. by apply stays_ignoring, zoom_on_desk.
Qed.

Lemma execute_with_counted k p conn token :
  loggable req latencyMs = true -> id ∉ ids -> k < cfg_MaxCallsPerTask cfg ->
  yields (on_desk (fun t => counted ids k t /\ has (mc_ID conn) (mt_connections t) = true))
    (execute_with now latencyMs id req p conn token) (answered k).
Proof.
  intros Hlog Hnew Hk. unfold execute_with, call_provider. apply yields_keep.
  { calm. }
  { apply stays_bind; [stay|]. intros n. apply stays_bind; [|stay]. by apply stays_writes. }
  intros [result|e].
  - apply yields_keep; [unfold on_registry; calm|by apply stays_writes|]. intros _.
    apply yields_keep.
    { unfold ignoring. apply calm_bind; [apply calm_zoom; unfold MCP_TouchLastUsed; calm|calm]. }
    { apply stays_ignoring, tables_on_desk, stays_statement. intros t [[Hkey ? ?] Hcid]. split.
      - split; [|done..]. cbn. intros id' c. rewrite lookup_alter. case_decide; [|apply Hkey].
        intros (c' & Hc' & ->)%fmap_Some. subst. by apply (Hkey _ c').
      - unfold has in *. apply bool_decide_eq_true in Hcid. apply bool_decide_eq_true. cbn.
        rewrite lookup_alter. case_decide; [subst; by apply fmap_is_Some|done]. }
    intros _. eapply yields_bind; [by apply logCall_ok|]. intros u. by apply yields_ret.
  - apply yields_keep; [unfold on_registry; calm|by apply stays_writes|]. intros _.
    eapply yields_bind; [|intros u; apply yields_ret; intros d Hd; exact Hd].
    eapply yields_conseq; [apply yields_ensures; [apply logCall_calm|apply (logCall_any k)]|intros d Hd; apply Hd|done].
Qed.

Lemma find_counted k :
  yields (on_desk (counted ids k))
    (on_tables (MCP_FindActiveConnection (er_UserID req) (er_OrgID req) (er_Provider req)))
    (fun x => match x with
       | Ok conn => on_desk (fun t => counted ids k t /\ has (mc_ID conn) (mt_connections t) = true)
       | Err _ => on_desk (counted ids k)
       end).
Proof.
  eapply (yields_zoom _ _ _ _ (counted ids k) (fun x t => match x with
    | Ok conn => counted ids k t /\ has (mc_ID conn) (mt_connections t) = true
    | Err _ => counted ids k t end)); [|done|by intros d [conn|e] t Hd Hx].
  intros t Ht. unfold MCP_FindActiveConnection. rewrite query_row_quiet. eexists _, _.
  split; [reflexivity|]. destruct (head _) as [conn|] eqn:E; [|done]. split; [done|].
  apply bool_decide_eq_true. destruct (order_by _ _) as [|c' l] eqn:El; [done|]. injection E as ->.
  assert (conn ∈ conn :: l) as Hin by (by left). rewrite <- El, order_by_elem_of in Hin.
  unfold where_, rows in Hin. apply list_elem_of_fmap in Hin as ([id' c] & -> & Hin).
  rewrite row_order_perm in Hin. apply base.list_elem_of_In, filter_In in Hin as [Hin _].
  apply base.list_elem_of_In, elem_of_map_to_list in Hin. cbn.
  rewrite (ct_keyed _ _ _ Ht _ _ Hin). by eexists.
Qed.

Lemma over_counted k :
  yields (on_desk (counted ids k)) (@over_task_limit _ V cfg req)
    (fun o d => on_desk (counted ids k) d /\ (o = None -> k < cfg_MaxCallsPerTask cfg)).
Proof.
  unfold over_task_limit. destruct task_named as [Hne Htext]. rewrite of_task.
  rewrite (proj2 (Z.ltb_lt _ _) limited), (proj2 (String.eqb_neq _ _) Hne). cbn [negb andb].
  eapply (yields_bind _ (fun r d => on_desk (counted ids k) d /\ r = Ok (calls_of task (dk_tables d)))).
  { intros d Hd. eexists _, (put_tables (dk_tables d) d). unfold on_tables, MCP_CountCallsForTask.
    split; [|split; [exact Hd|]].
    - apply zoom_run. rewrite (checked_quiet _ _ (dk_tables d)), Htext. reflexivity.
    - done. }
  intros r. intros d [Hd ->]. eexists _, d. split; [reflexivity|]. split; [done|].
  destruct (_ <=? _) eqn:E; [done|]. intros _. apply Z.leb_gt in E.
  pose proof (ct_calls _ _ _ Hd). lia.
Qed.

Lemma admit_counted k next :
  yields (on_desk (counted ids k)) next (answered k) ->
  yields (on_desk (counted ids k)) (@admit_call _ _ V rdb now id req next) (answered k).
Proof.
  intros Hnext. unfold admit_call.
  apply yields_keep; [calm|stay|]. intros admitted.
  apply yields_keep; [unfold on_registry; calm|by apply stays_writes|]. intros u.
  destruct (negb admitted); [apply refusal_counted|].
  apply yields_keep; [apply calm_zoom; unfold CheckRateLimit; calm|by apply zoom_on_desk|].
  intros [u'|e]; [done|apply refusal_counted].
Qed.

(** A call that succeeds was within the limit, and is one more in the log. *)
Lemma Execute_counted k :
  loggable req latencyMs = true -> id ∉ ids ->
  yields (on_desk (counted ids k)) (Execute vaults rdb cfg now latencyMs id req) (answered k).
Proof.
  intros Hlog Hnew. unfold Execute. do 2 (case_match; [apply fail_counted|]).
  apply yields_keep; [calm|stay|]. intros [p|]; [|apply fail_counted].
  destruct (findAction _ _) as [a|]; [|apply fail_counted].
  destruct (validateParams _ _ _); [|apply fail_counted].
  eapply yields_bind; [apply over_counted|]. intros [count|].
  { eapply yields_conseq; [apply refusal_counted|intros d Hd; apply Hd|done]. }
  intros d [Hd Hk]. specialize (Hk eq_refl). revert d Hd. apply admit_counted.
  eapply yields_bind; [apply find_counted|]. intros [conn|e]; [|apply fail_counted].
  eapply (yields_try _ (fun _ => on_desk (fun t => counted ids k t /\ has (mc_ID conn) (mt_connections t) = true))).
  - apply yields_wrapping. eapply yields_conseq;
      [apply yields_ensures; [apply resolveToken_calm|apply resolveToken_on_desk]|done|].
    intros [t|e] d Hd; [exact Hd|]. apply counted_mono, Hd.
  - intros token. by apply execute_with_counted.
Qed.

End entry.

(** ** Batches *)

Definition successes (l : list BatchResult) : Z :=
  Z.of_nat (List.length (List.filter ba_Success l)).

Lemma successes_cons r l : successes (r :: l) = successes l + if ba_Success r then 1 else 0.
Proof. unfold successes. cbn [List.filter]. destruct (ba_Success r); cbn [List.length]; lia. Qed.

Definition request_of (body : BatchBody) (userID : UUID) (orgID : option UUID) (c : BatchCall)
    : ExecuteRequest :=
  {| er_UserID := userID; er_OrgID := orgID; er_Provider := bc_Provider c;
     er_Action := bc_Action c; er_Params := bc_Params c; er_AgentID := bb_AgentID body;
     er_TaskID := bb_TaskID body |}.

Lemma batch_counted env userID orgID body calls : forall i ids k,
  bb_TaskID body = task -> (forall j c, nth_error calls j = Some c ->
    loggable (request_of body userID orgID c) (me_latency env (i + j)) = true) ->
  (forall j j', (i <= j)%nat -> (i <= j')%nat -> me_ids env j = me_ids env j' -> j = j') ->
  (forall j, (i <= j)%nat -> me_ids env j ∉ ids) ->
  yields (on_desk (counted ids k)) (batch_calls vaults rdb cfg env userID orgID body i calls)
    (fun l _ => successes l <= Z.max 0 (cfg_MaxCallsPerTask cfg - k)).
Proof.
  induction calls as [|c calls IH]; intros i ids k Htask Hlog Hinj Hnew; cbn [batch_calls].
  { apply yields_ret. intros. unfold successes. cbn. lia. }
  eapply yields_bind.
  { apply (Execute_counted _ _ (me_ids env i) (request_of body userID orgID c) ids Htask k);
      [|apply Hnew; lia]. specialize (Hlog 0%nat c eq_refl). by rewrite Nat.add_0_r in Hlog. }
  assert (forall k', yields (on_desk (counted ({[me_ids env i]} ∪ ids) k'))
    (batch_calls vaults rdb cfg env userID orgID body (S i) calls)
    (fun l _ => successes l <= Z.max 0 (cfg_MaxCallsPerTask cfg - k'))) as Hrest.
  { intros k'. apply IH; [done| | |].
    - intros j c' Hj. rewrite Nat.add_succ_comm. by apply Hlog.
    - intros j j' ? ?. apply Hinj; lia.
    - intros j Hj. apply not_elem_of_union. split; [|apply Hnew; lia].
      rewrite elem_of_singleton. intros E. apply Hinj in E; lia. }
  intros [result|e]; cbn [answered].
  - intros d [Hk Hd]. revert d Hd. eapply yields_bind; [apply Hrest|]. intros l. apply yields_ret.
    intros d Hl. rewrite successes_cons. cbn [ba_Success]. case_match; lia.
  - eapply yields_bind; [apply Hrest|]. intros l. apply yields_ret. intros d Hl. done.
Qed.

(** C33: however many calls an agent packs into a batch, no more of them succeed than the limit of
    the task leaves, given that identifiers are not drawn twice, that the log can take the
    entries, and that statements do not fail: [Execute] counts before each call and logs after
    it. *)
Theorem batch_within_limit env userID orgID body calls d :
  bb_TaskID body = task ->
  (forall c, c ∈ calls -> forall j,
    loggable (request_of body userID orgID c) (me_latency env j) = true) ->
  (forall j j', me_ids env j = me_ids env j' -> j = j') ->
  (forall id c, mt_connections (dk_tables d) !! id = Some c -> mc_ID c = id) ->
  (forall j e, e ∈ mt_calls (dk_tables d) -> cl_ID e <> me_ids env j) ->
  exists results d',
    batch_calls vaults rdb cfg env userID orgID body 0 calls (quiet d) = (results, quiet d') /\
    successes results <= Z.max 0 (cfg_MaxCallsPerTask cfg - calls_of task (dk_tables d)).
Proof.
  intros Htask Hlog Hinj Hkey Hids.
  apply (batch_counted env userID orgID body calls 0 (list_to_set (cl_ID <$> mt_calls (dk_tables d)))); auto.
  - intros j c Hc. apply Hlog. apply base.list_elem_of_In. by eapply nth_error_In.
  - intros j _. rewrite elem_of_list_to_set. intros (e & E & He)%list_elem_of_fmap.
    by apply (Hids j e).
  - split; [done|lia|]. intros e He. apply elem_of_list_to_set, list_elem_of_fmap. by exists e.
Qed.

End limits.

(** ** A connection that is no longer active

    A connection becomes "error" when a test fails and "expired" when a token cannot be refreshed.
    Nothing makes it active again: only its owner can delete it, and until then the database
    refuses a new connection of the user to the provider. *)

(** The calls made for a user with a provider. *)
Definition call_by (u : UUID) (p : string) (a : Act) : bool :=
  match a with
  | ACall requester _ provider _ _ _ => (requester =? u)%N && String.eqb provider p
  | _ => false
  end.
Definition calls_by (u : UUID) (p : string) (tr : list Act) : list Act := List.filter (call_by u p) tr.

Lemma calls_by_snoc u p tr a : call_by u p a = false -> calls_by u p (tr ++ [a])%list = calls_by u p tr.
Proof. intros E. unfold calls_by. rewrite Lists.List.filter_app. cbn. rewrite E. apply app_nil_r. Qed.

(** The connection [id] of [u] with [p] is there and not active; no other is of the pair. *)
Record stuck (id u : UUID) (p : string) (t : McpTables) : Prop := {
  st_row : exists c, mt_connections t !! id = Some c /\ mc_UserID c = u /\ mc_Provider c = p /\
             mc_Status c <> "active";
  st_rows : forall id' c, mt_connections t !! id' = Some c -> mc_ID c = id' /\ mc_IsOrgLevel c = false /\
              (mc_UserID c = u -> mc_Provider c = p -> id' = id)
}.

(** No request deletes it. *)
Definition not_deleting `{UuidText} (id : UUID) (e : McpEvent) : Prop :=
  match e with EvRequest _ (RqDisconnect s) => uuid_Parse s <> Some id | _ => True end.

Section stuck.
Context `{RowOrder} `{UuidText} `{UnicodeTables} `{Postgres} `{Collation} `{Digest} `{FoldTables} `{UrlScheme} `{HttpClient} `{OAuth2} `{UrlHost}.
Context {V : Type} (vaultFor : option (Z -> UUID -> SecretStore V)).
Variables (rdb : bool) (cfg : MCPConfig) (serverBase : string) (MCPSvc : bool).
Variables (id u : UUID) (p : string) (before : list Act).

Definition blocked (d : Desk V) : Prop :=
  stuck id u p (dk_tables d) /\ calls_by u p (dk_trace d) = before.

(** ** Statements *)

Lemma stuck_alter f id' t :
  (forall c, mt_connections t !! id' = Some c ->
     mc_ID (f c) = mc_ID c /\ mc_UserID (f c) = mc_UserID c /\ mc_Provider (f c) = mc_Provider c /\
     mc_IsOrgLevel (f c) = mc_IsOrgLevel c /\
     (id' = id -> mc_Status c <> "active" -> mc_Status (f c) <> "active")) ->
  stuck id u p t -> stuck id u p (set_connections (alter f id') t).
Proof.
  intros Hf [(c & Hc & Eu & Ep & Es) Hrows]. split; cbn.
  - rewrite lookup_alter. case_decide as E; [|by exists c]. subst id'. rewrite Hc.
    destruct (Hf c Hc) as (E1 & E2 & E3 & E4 & E5). exists (f c). cbn.
    split; [done|]. rewrite E2, E3. auto.
  - intros i c'. rewrite lookup_alter. case_decide as E; [|apply Hrows].
    intros (c0 & Hc0 & ->)%fmap_Some. subst i. destruct (Hf c0 Hc0) as (-> & -> & -> & -> & _).
    by apply Hrows.
Qed.

Lemma UpdateStatus_stuck id' status :
  status <> "active" -> stays (stuck id u p) (MCP_UpdateStatus id' status).
Proof. intros Hs. apply stays_guarded. intros t Ht _. apply stuck_alter; [|done]. by intros c. Qed.

Lemma TouchLastUsed_stuck now id' : stays (stuck id u p) (MCP_TouchLastUsed now id').
Proof. apply stays_statement. intros t Ht. apply stuck_alter; [|done]. by intros c. Qed.

Lemma UpdateTokenRefs_stuck id' k rk e :
  id' <> id -> stays (stuck id u p) (MCP_UpdateTokenRefs id' k rk e).
Proof. intros Hne. apply stays_guarded. intros t Ht _. apply stuck_alter; [|done]. intros c _. by split_and!. Qed.

Lemma Delete_stuck id' : id' <> id -> stays (stuck id u p) (MCP_Delete id').
Proof.
  intros Hne. apply stays_statement. intros t [(c & Hc & Hrest) Hrows]. split; cbn.
  - exists c. by rewrite lookup_delete_ne.
  - intros i c' [_ Hc']%lookup_delete_Some. by apply Hrows.
Qed.

Lemma CreateConnection_stuck now c :
  mc_IsOrgLevel c = false -> stays (stuck id u p) (MCP_CreateConnection now (mc_ID c) c).
Proof.
  intros Horg. unfold MCP_CreateConnection. cbv zeta. apply stays_try; [|intros; apply stays_ret].
  apply stays_inserting. set (c' := stamped_connection _ _ _).
  assert (mc_ID c' = mc_ID c) as Eid by (cbn; by destruct (_ =? 0)%N). rewrite Eid.
  intros t [(c0 & Hc0 & Eu & Ep & Es) Hrows] [Hid Hdup]%orb_false_iff _.
  rewrite Eid in Hid. apply bool_decide_eq_false, eq_None_not_Some in Hid.
  split; cbn [set_connections mt_connections].
  - exists c0. rewrite lookup_insert_ne; [done|]. intros E. by rewrite E, Hc0 in Hid.
  - intros i c1 [[<- <-]|[_ Hc1]]%lookup_insert_Some; [|by apply Hrows].
    split; [done|]. split; [done|].
    intros Eu' Ep'. exfalso. apply not_true_iff_false in Hdup as []. apply existsb_exists.
    exists (id, c0). split; [by apply base.list_elem_of_In, elem_of_map_to_list|].
    destruct (Hrows _ _ Hc0) as (_ & Horg0 & _). unfold same_pair. cbn in *.
    by rewrite Horg, Horg0, Eu', Ep', Eu, Ep, String.eqb_refl, N.eqb_refl.
Qed.

(** ** Steps *)

Lemma on_tables_blocked {A} (m : DB McpTables A) : stays (stuck id u p) m -> stays blocked (on_tables m).
Proof. apply stays_zoom; [by intros d []|]. intros d t [_ Hb] Ht. by split. Qed.

Lemma zoom_blocked {T A} (get : Desk V -> T) put (m : DB T A) :
  (forall t d, dk_tables (put t d) = dk_tables d) -> (forall t d, dk_trace (put t d) = dk_trace d) ->
  stays blocked (zoom get put m).
Proof.
  intros E1 E2 r Hr. unfold zoom. destruct (m _). unfold blocked in *. cbn. by rewrite E1, E2.
Qed.
Lemma on_vault_blocked {A} (m : DB V A) : stays blocked (on_vault m).
Proof. by apply zoom_blocked. Qed.
Lemma on_tokens_blocked {A} (m : DB (gmap string (Expiring string)) A) : stays blocked (on_tokens m).
Proof. by apply zoom_blocked. Qed.
Lemma on_counters_blocked {A} (m : DB (gmap string (Expiring Z)) A) : stays blocked (on_counters m).
Proof. by apply zoom_blocked. Qed.
Lemma on_states_blocked {A} now (m : DB Session.Redis A) : stays blocked (on_states now m).
Proof. by apply zoom_blocked. Qed.
Lemma on_registry_blocked f : stays blocked (on_registry f).
Proof. by apply stays_writes. Qed.

Lemma record_blocked a d : call_by u p a = false -> blocked d -> blocked (record a d).
Proof.
  intros Ha [Hs Hb]. split; [done|].
  cbn [dk_trace record]. by rewrite calls_by_snoc.
Qed.

Lemma logCall_blocked now i cid req status ms msg : stays blocked (logCall now i cid req status ms msg).
Proof.
  apply stays_ignoring, on_tables_blocked. apply stays_inserting. intros t [Hr Hs] _ _. by split.
Qed.

Lemma resolveToken_blocked now conn : stays blocked (resolveToken vaultFor rdb now conn).
Proof.
  unfold resolveToken, cached_token, cache_token.
  stay; auto using on_tokens_blocked, on_vault_blocked.
Qed.

Lemma drop_token_blocked i : stays blocked (drop_token rdb i).
Proof. unfold drop_token. stay. apply on_tokens_blocked. Qed.

Lemma call_provider_blocked a pv action params token :
  call_by u p a = false -> stays blocked (call_provider a pv action params token).
Proof.
  intros Ha. unfold call_provider. apply stays_bind; [stay|]. intros n.
  apply stays_bind; [by apply stays_writes; intros d; apply record_blocked|]. stay.
Qed.

Hint Resolve on_tables_blocked on_vault_blocked on_tokens_blocked on_counters_blocked
  on_states_blocked on_registry_blocked logCall_blocked resolveToken_blocked drop_token_blocked
  TouchLastUsed_stuck stays_query stays_query_row : core.

(** ** Requests *)

(** What is found among the active connections is another. *)
Lemma find_blocked req :
  ensures blocked
    (on_tables (MCP_FindActiveConnection (er_UserID req) (er_OrgID req) (er_Provider req)))
    (fun x d => blocked d /\ forall conn, x = Ok conn ->
       call_by u p (ACall (er_UserID req) (mc_UserID conn) (er_Provider req) (er_Action req) "" "") = false).
Proof.
  eapply ensures_conseq; [apply tables_query_row|done|]. intros x d [Hd Hf]. split; [done|].
  intros conn ->. destruct (head_where _ _ _ _ (Hf conn eq_refl)) as (i & Hi & Hp).
  destruct Hd as [[(c & Hc & Eu & Ep & Es) Hrows] _]. destruct (Hrows i conn Hi) as (_ & Horg & Hone).
  cbn. apply not_true_is_false. intros [Hu Hpr]%andb_true_iff.
  apply N.eqb_eq in Hu. apply String.eqb_eq in Hpr.
  unfold own_or_shared in Hp. rewrite Horg, andb_false_l, orb_false_r, !andb_true_iff in Hp.
  destruct Hp as [[Hp1 Hp2] Hp3]. apply String.eqb_eq in Hp1, Hp2. apply N.eqb_eq in Hp3.
  rewrite Hone in Hi by congruence. rewrite Hc in Hi. injection Hi as ->. done.
Qed.

Lemma execute_with_blocked now ms i req pv conn token :
  call_by u p (ACall (er_UserID req) (mc_UserID conn) (er_Provider req) (er_Action req) "" "") = false ->
  stays blocked (execute_with now ms i req pv conn token).
Proof.
  intros Ha. unfold execute_with. apply stays_bind; [by apply call_provider_blocked|].
  stay; auto.
Qed.

Lemma Execute_blocked now ms i req : stays blocked (Execute vaultFor rdb cfg now ms i req).
Proof.
  assert (forall status m e, stays blocked (@refusal _ _ V now i req status m e)) as Hrefuse.
  { intros. unfold refusal. stay; auto. }
  unfold Execute. do 2 (case_match; [apply stays_ret|]). apply stays_bind; [stay|].
  intros [pv|]; [|stay]. destruct (findAction _ _) as [a|]; [|stay].
  destruct (validateParams _ _ _); [|stay]. apply stays_bind.
  { unfold over_task_limit. case_match; [|stay]. apply stays_bind; [|stay].
    apply on_tables_blocked. by apply stays_checked. }
  intros [count|]; [apply Hrefuse|]. unfold admit_call.
  apply stays_bind; [stay|]. intros admitted. apply stays_bind; [auto|]. intros _.
  destruct (negb admitted); [apply Hrefuse|].
  apply stays_bind; [auto|]. intros [u'|e]; [|apply Hrefuse].
  eapply ensures_bind; [apply find_blocked|]. intros [conn|e]; [|by apply ensures_ret; intros d []].
  intros r [Hr Hc]. specialize (Hc conn eq_refl).
  assert (forall token, stays blocked (execute_with now ms i req pv conn token)) as Hw
    by (intros; by apply execute_with_blocked).
  revert r Hr. apply stays_try; [apply stays_wrapping; auto|exact Hw].
Qed.

Lemma TestConnection_blocked now requester i : stays blocked (TestConnection vaultFor rdb now requester i).
Proof.
  unfold TestConnection, MCP_GetConnection. apply stays_try; [auto|]. intros conn.
  apply stays_bind; [stay|]. intros [pv|]; [|stay]. apply stays_try; [auto|]. intros token.
  destruct (pv_Actions pv) as [|a ?]; [stay|]. apply stays_bind; [by apply call_provider_blocked|].
  intros [r|e]; [stay|]. apply stays_bind; [|stay].
  by apply stays_ignoring, on_tables_blocked, UpdateStatus_stuck.
Qed.

Lemma DeleteConnection_blocked now i : i <> id -> stays blocked (DeleteConnection vaultFor rdb now i).
Proof.
  intros Hne. unfold DeleteConnection, MCP_GetConnection. apply stays_try; [auto|]. intros conn.
  apply stays_bind; [stay; auto|]. intros _. apply stays_bind; [auto|]. intros _.
  by apply on_tables_blocked, Delete_stuck.
Qed.

Lemma CreateConnection_blocked now conn a r :
  mc_IsOrgLevel conn = false -> stays blocked (CreateConnection vaultFor now conn a r).
Proof.
  intros Horg. unfold CreateConnection. case_match; [|stay].
  apply stays_try; [stay; auto|]. intros _. apply stays_try; [stay; auto|]. intros key.
  apply stays_bind; [|stay; auto]. by apply on_tables_blocked, (CreateConnection_stuck now (with_keys _ _ _ conn)).
Qed.

Lemma CreateCustomTemplate_blocked now i t : stays blocked (CreateCustomTemplate now i t).
Proof.
  unfold CreateCustomTemplate. destruct (ValidateTemplate t); [|stay].
  apply stays_bind; [stay|]. intros []; [stay|]. apply stays_bind; [|stay; auto].
  apply on_tables_blocked. unfold MCP_CreateCustomTemplate. cbv zeta. apply stays_try; [|stay].
  apply stays_inserting. intros t' [Hr Hs] _ _. by split.
Qed.

Lemma DeleteCustomTemplate_blocked i userID : stays blocked (DeleteCustomTemplate i userID).
Proof.
  unfold DeleteCustomTemplate, MCP_GetCustomTemplate. apply stays_try; [stay; auto|]. intros t.
  case_match; [stay|]. apply stays_bind; [auto|]. intros _.
  apply on_tables_blocked, stays_statement. intros t' [Hr Hs]. by split.
Qed.

(** ** The refresh loop *)

Lemma refresh_one_blocked now conn : mc_ID conn <> id -> stays blocked (refresh_one vaultFor rdb now conn).
Proof.
  intros Hne. unfold refresh_one. case_match; [stay|]. apply stays_bind; [stay|]. intros [pv|]; [|stay].
  case_match; [|stay]. apply stays_bind; [auto|]. intros [t|e]; [|stay]. case_match; [stay|].
  apply stays_bind.
  { unfold refresh_token. apply stays_bind; [stay|]. intros n. case_match; [|stay].
    apply stays_bind; [by apply stays_writes; intros d; apply record_blocked|stay]. }
  intros [new|e]; [|by apply stays_ignoring, on_tables_blocked, UpdateStatus_stuck].
  apply stays_bind; [auto|]. intros [x|e]; [|stay]. apply stays_bind; [stay; auto|]. intros _.
  apply stays_bind; [by apply on_tables_blocked, UpdateTokenRefs_stuck|]. stay; auto.
Qed.

Lemma refreshExpiring_blocked now : stays blocked (refreshExpiring vaultFor rdb now).
Proof.
  eapply ensures_bind; [apply tables_query|]. intros [l|e]; [|by apply ensures_ret; intros d []].
  intros r [Hd Hl]. revert r Hd Hl. intros [d fs]. cbn [tables]. intros Hd Hl.
  apply (ensures_every blocked l); [|exact Hd]. intros conn Hin. apply refresh_one_blocked.
  rewrite <- (Hl l eq_refl) in Hin. apply where_rows in Hin as (i & Hi & [Ha _]%andb_true_iff).
  apply String.eqb_eq in Ha. destruct Hd as [[(c & Hc & _ & _ & Hs) Hrows] _].
  destruct (Hrows i conn Hi) as [-> _]. intros ->. rewrite Hc in Hi. by injection Hi as ->.
Qed.

(** ** Everything that runs *)

Lemma batch_blocked env userID orgID body i calls :
  stays blocked (batch_calls vaultFor rdb cfg env userID orgID body i calls).
Proof.
  revert i. induction calls as [|c calls IH]; intros i; [apply stays_ret|].
  apply stays_bind; [apply Execute_blocked|]. intros r. apply stays_bind; [apply IH|]. stay.
Qed.

Lemma OAuthCallback_blocked env provider state code :
  stays blocked (OAuthCallback vaultFor cfg serverBase env provider state code).
Proof.
  unfold OAuthCallback, exchange_code. apply stays_respond. apply stays_try; [handler|]. intros _.
  apply stays_try; [apply stays_or_reply; auto|]. intros [[[sp url] us] os]. handler.
  - intros d. by apply record_blocked.
  - by apply CreateConnection_blocked.
Qed.

Lemma serve_blocked env r :
  not_deleting id (EvRequest env r) ->
  stays blocked (mcp_serve vaultFor rdb cfg serverBase MCPSvc env r).
Proof.
  intros Hr. destruct r; cbn [mcp_serve].
  4: { unfold Handler_DeleteConnection, GetConnection, MCP_GetConnection. apply stays_respond.
    apply stays_try; [apply stays_require|]. intros claims. unfold path_uuid.
    cbn [not_deleting] in Hr. destruct (uuid_Parse _) as [i|]; [|apply stays_ret]. cbn [require]. rewrite try_ok.
    handler; auto. apply DeleteConnection_blocked. congruence. }
  all: unfold Handler_ListProviders, Handler_ListConnections, Handler_CreateConnection,
      Handler_TestConnection, Handler_GetCallLog, InitiateOAuth, OAuthStatus,
      Handler_CreateCustomTemplate, Handler_ListCustomTemplates, Handler_DeleteCustomTemplate,
      Handler_ValidateCustomTemplate, Handler_SimulateCustomConnection, SimulateCustomConnection,
      HandleMCPCall, HandleMCPListProviders, HandleMCPDescribeAction, HandleMCPListTools,
      HandleMCPBatchCall, HandleMCPCheckConnections, claims_of, path_uuid, available,
      ListConnections, ListCustomTemplates, MCP_ListByUser, MCP_ListCallLog, MCP_ListCustomTemplates.
  all: handler; auto using TestConnection_blocked, Execute_blocked, batch_blocked,
    CreateCustomTemplate_blocked, DeleteCustomTemplate_blocked, OAuthCallback_blocked.
Qed.

(** C32: a connection that a failed test or a failed refresh has made inactive stays so as long as
    no request deletes it, whatever else users, agents, browsers and the refresh loop do: connecting
    again does not help, and no provider is called for the user.  Requests and ticks of the
    refresh loop are taken one after the other: a test that fails while a tick that has already
    listed the connection is running is undone by it (Example [refresh_revives]). *)
Theorem inactive_until_deleted events d :
  stuck id u p (dk_tables d) -> calls_by u p (dk_trace d) = before ->
  Forall (fun x => not_deleting id x.1) events ->
  let d' := mcp_run vaultFor rdb cfg serverBase MCPSvc events d in
  stuck id u p (dk_tables d') /\ calls_by u p (dk_trace d') = before.
Proof.
  intros Hs Hb He. assert (blocked d) as Hd by done. clear Hs Hb. revert d Hd.
  induction He as [|[e fs] events Hx He IH]; intros d Hd; [done|]. apply IH.
  unfold mcp_step. destruct e as [env r|now].
  - by apply (serve_blocked env r Hx (MkRun d fs)).
  - by apply (refreshExpiring_blocked now (MkRun d fs)).
Qed.

End stuck.

(** ** Runs of tool integrations

    Witnesses of the theorems on concrete requests, and runs that show what the service does not
    do: a refused call that is not counted, a user whom a failed test locks out, a call that is
    made for whoever the agent names. *)

#[local] Existing Instance toy_primitives.
#[local] Existing Instance toy_entropy.
#[local] Existing Instance listed_order.
#[local] Existing Instance ascii_tables.
#[local] Existing Instance unary_uuid.
#[local] Existing Instance utf8_database.
#[local] Existing Instance by_length.
#[local] Instance any_scheme : UrlScheme := {| url_scheme _ := Ok "https" |}.
#[local] Instance no_client : HttpClient := {| client_Do _ _ := Err "no network" |}.
#[local] Instance slack_oauth : OAuth2 := {|
  AuthCodeURL _ url state _ := url ++ "?state=" ++ state;
  Exchange _ _ _ code := Ok {| et_AccessToken := "token of " ++ code; et_RefreshToken := "";
                               et_Expiry := None |}
|}.
#[local] Instance any_host : UrlHost := {| url_host _ := "host" |}.

(** ** A provider *)

Definition slack : Provider :=
  {| pv_Name := "slack"; pv_Category := "chat"; pv_Description := "";
     pv_Actions := [{| ad_Name := "post"; ad_Description := ""; ad_RequiredParams := ["text"];
                       ad_OptionalParams := []; ad_ConsentRequired := true |}];
     pv_Execute _ _ params _ :=
       match params !! "text" with
       | Some _ => Ok {| tr_Success := true; tr_Data := None; tr_Error := "" |}
       | None => Err "no text"
       end;
     pv_RefreshToken _ _ := Err "no refresh" |}.

Definition slack_cfg : MCPConfig :=
  {| cfg_Enabled := true; cfg_MaxCallsPerTask := 2; cfg_AllowedProviders := [];
     cfg_OAuthProviders := {["slack" := {| op_ClientID := "c"; op_ClientSecret := "s";
       op_Scopes := Some []; op_AuthURL := ""; op_TokenURL := "" |}]} |}.

Definition unary_token (u : UUID) : string := unary (N.to_nat u).

Lemma unary_scoped u u' s t :
  scopedKey (unary_token u) s = scopedKey (unary_token u') t -> u = u' /\ s = t.
Proof.
  assert (forall n m (a b : string), unary n ++ "." ++ a = unary m ++ "." ++ b -> n = m /\ a = b) as Hu.
  { induction n as [|n IH]; intros [|m] a b E; try done.
    - by injection E as ->.
    - cbn in E. injection E as E. by apply IH in E as [-> ->]. }
  unfold scopedKey, prefix, unary_token. rewrite !string_app_assoc. intros E.
  apply (inj (append "user.")), Hu in E as [E ->]. by apply N2Nat.inj in E.
Qed.

Definition file_store (now : Z) (u : UUID) : SecretStore VaultFile :=
  NewUserScopedVault FileStore (unary_token u).
#[local] Instance files_keep : KeepsSecrets file_store := file_keeps unary_token unary_scoped.

Definition empty_tables : McpTables :=
  {| mt_users := {[1; 2]}%N; mt_orgs := ∅; mt_connections := ∅; mt_calls := []; mt_templates := ∅ |}.
Definition empty_desk : Desk VaultFile :=
  {| dk_tables := empty_tables; dk_vault := closed_vault []; dk_tokens := ∅; dk_counters := ∅;
     dk_registry := Register slack NewProviderRegistry; dk_states := Session.no_keys;
     dk_trace := [] |}.

Definition user_claims (u : UUID) : Claims :=
  {| c_Issuer := ""; c_Subject := ""; c_IssuedAt := 0; c_ExpiresAt := 0; c_JTI := 0%N;
     c_UserID := u; c_Email := ""; c_Name := ""; c_Role := ""; c_OrgID := 0%N; c_Type := AccessToken |}.

(** A request of a user that draws identifiers from [first] on. *)
Definition env_of (u first : UUID) : McpEnv :=
  {| me_now := 1000000000; me_latency _ := 7; me_ids i := (first + N.of_nat i)%N;
     me_random := "state"; me_claims := Some (user_claims u) |}.

Definition say (u : UUID) (params : list (string * Json)) : McpRequest :=
  RqCall (Some {| cb_Provider := "slack"; cb_Action := "post"; cb_Params := Some (list_to_map params);
                  cb_UserID := unary (N.to_nat u); cb_OrgID := ""; cb_AgentID := "a";
                  cb_TaskID := "t" |}).

Definition connect_and_call : list (McpEvent * list bool) :=
  [(EvRequest (env_of 1 10) (RqAuthorize "slack" "/" "" ""), []);
   (EvRequest (env_of 1 11) (RqCallback "slack" "state" "code"), []);
   (EvRequest (env_of 2 12) (say 1 [("text", JStr "hi")]), []);
   (EvRequest (env_of 2 13) (say 2 [("text", JStr "hi")]), []);
   (EvRefresh 1000000000, []);
   (EvRequest (env_of 2 14) (RqTest (unary 11)), [])].

Notation run := (mcp_run (Some file_store) true slack_cfg "https://rtv" true).

Lemma calls_carry_own_tokens_witness :
  trace_ok (dk_trace (run connect_and_call empty_desk)) /\
  dk_trace (run connect_and_call empty_desk) =
    [AIssued 1 "slack" "token of code"; ACall 1 1 "slack" "post" "token of code" "t";
     ATest 2 1 "slack" "post" "token of code"]%N.
Proof.
  split; [|vm_compute; reflexivity].
  apply (calls_carry_own_tokens file_store).
  - intros p. cbn. intros [c Hc]. apply lookup_singleton_Some in Hc as [<- _].
    unfold known. apply base.list_elem_of_In. vm_compute. tauto.
  - done.
  - by split.
  - cbn. apply NoDup_singleton.
Defined.

(** ** The limit of a task *)

Definition connected : Desk VaultFile := run (take 2 connect_and_call) empty_desk.

Definition say_body (text : string) : BatchCall :=
  {| bc_ID := text; bc_Provider := "slack"; bc_Action := "post";
     bc_Params := Some {["text" := JStr text]} |}.
Definition three_calls : BatchBody :=
  {| bb_UserID := unary 1; bb_OrgID := ""; bb_AgentID := "a"; bb_TaskID := "t";
     bb_Calls := [say_body "1"; say_body "2"; say_body "3"] |}.

Lemma batch_within_limit_witness :
  let r := batch_calls (Some file_store) true slack_cfg (env_of 2 20) 1%N None three_calls 0
             (bb_Calls three_calls) (quiet connected) in
  (exists results d', r = (results, quiet d') /\ successes results <= Z.max 0 (2 - 0)) /\
  successes r.1 = 2.
Proof.
  split; [|vm_compute; reflexivity].
  apply (batch_within_limit file_store true slack_cfg "t"); try done.
  - intros now u k. apply calm_bind; [apply calm_reads|]. intros. apply calm_ret.
  - intros j j'. cbn. lia.
  - intros id c Hc. change (mt_connections (dk_tables connected) !! id = Some c) in Hc.
    assert (mt_connections (dk_tables connected) =
      {[11%N := default (with_keys "" "" "" (new_connection 0 0 "" "" (Build_MCPOAuthProviderConfig "" "" None "" "")
         (Build_ExchangedToken "" "" None))) (mt_connections (dk_tables connected) !! 11%N)]}) as E
      by (vm_compute; reflexivity).
    rewrite E in Hc. apply lookup_singleton_Some in Hc as [<- <-]. vm_compute. reflexivity.
  - intros j e He. apply base.list_elem_of_In in He. by vm_compute in He.
Defined.

(** A task without a name is not limited. *)
Example unnamed_task_unlimited :
  successes (batch_calls (Some file_store) true slack_cfg (env_of 2 20) 1%N None
    {| bb_UserID := unary 1; bb_OrgID := ""; bb_AgentID := "a"; bb_TaskID := ""; bb_Calls := [] |} 0
    (bb_Calls three_calls) (quiet connected)).1 = 3.
Proof. vm_compute. reflexivity. Qed.

(** What is refused for the limit is not in the log: the entry names no connection. *)
Example refusal_not_logged :
  let d := (batch_calls (Some file_store) true slack_cfg (env_of 2 20) 1%N None three_calls 0
              (bb_Calls three_calls) (quiet connected)).2 in
  cl_Status <$> mt_calls (dk_tables (tables d)) = ["ok"; "ok"].
Proof. vm_compute. reflexivity. Qed.

(** Deleting the connection deletes its calls, and the task starts again. *)
Example reconnecting_resets_limit :
  let batch := (EvRequest (env_of 2 20) (RqBatch (Some three_calls)), []) in
  let delete_ := (EvRequest (env_of 1 30) (RqDisconnect (unary 11)), []) in
  let again := [(EvRequest (env_of 1 10) (RqAuthorize "slack" "/" "" ""), []);
                (EvRequest (env_of 1 12) (RqCallback "slack" "state" "code"), [])] in
  let d := run (batch :: delete_ :: again) connected in
  calls_of "t" (dk_tables d) = 0 /\
  calls_of "t" (dk_tables (run [batch] d)) = 2.
Proof. vm_compute. done. Qed.

(** ** A connection that fails a test *)

(** The test of a chat provider calls its first action without parameters: it fails, whoever asks. *)
Definition tested : Desk VaultFile :=
  run [(EvRequest (env_of 2 20) (RqTest (unary 11)), [])] connected.

Definition connect_again : list (McpEvent * list bool) :=
  [(EvRequest (env_of 1 10) (RqAuthorize "slack" "/" "" ""), []);
   (EvRequest (env_of 1 12) (RqCallback "slack" "state" "code"), []);
   (EvRequest (env_of 1 13) (RqTest (unary 11)), []);
   (EvRequest (env_of 2 14) (say 1 [("text", JStr "hi")]), [])].

(** The refresh loop lists the connections of a tick and then renews them one by one, and an update
    of the tokens sets the status to active whatever it is by then: a test that fails in between
    does not last.  The events of the runs above are taken one after the other. *)
Definition renewing : Provider :=
  {| pv_Name := "slack"; pv_Category := "chat"; pv_Description := ""; pv_Actions := [];
     pv_Execute := pv_Execute slack;
     pv_RefreshToken _ _ := Ok {| rf_Access := "new"; rf_Refresh := ""; rf_ExpiresIn := 3600 |} |}.
Definition renewable : MCPConnection -> MCPConnection := with_keys "mcp.slack.a" "mcp.slack.r" "active".

Example refresh_revives :
  let desk := {| dk_tables := dk_tables tested; dk_vault := dk_vault tested;
                 dk_tokens := dk_tokens tested; dk_counters := dk_counters tested;
                 dk_registry := Register renewing NewProviderRegistry;
                 dk_states := dk_states tested; dk_trace := dk_trace tested |} in
  let keyed := (on_vault (ss_Set (file_store 0 1%N) "mcp.slack.r" "r") (quiet desk)).2 in
  let status (d : Desk VaultFile) := mc_Status <$> mt_connections (dk_tables d) !! 11%N in
  match mt_connections (dk_tables connected) !! 11%N with
  | Some listed =>
      status (tables keyed) = Some "error" /\
      status (tables (refresh_one (Some file_store) true 1000000000 (renewable listed) keyed).2) =
        Some "active"
  | None => False
  end.
Proof. vm_compute. done. Qed.

Lemma inactive_until_deleted_witness :
  let d' := run connect_again tested in
  (stuck 11 1 "slack" (dk_tables d') /\ calls_by 1 "slack" (dk_trace d') = []) /\
  (mc_Status <$> mt_connections (dk_tables d') !! 11%N) = Some "error".
Proof.
  split; [|vm_compute; reflexivity]. apply inactive_until_deleted.
  - assert (mt_connections (dk_tables tested) =
      {[11%N := default (with_keys "" "" "" (new_connection 0 0 "" "" (Build_MCPOAuthProviderConfig "" "" None "" "")
         (Build_ExchangedToken "" "" None))) (mt_connections (dk_tables tested) !! 11%N)]}) as E
      by (vm_compute; reflexivity).
    split; rewrite E.
    + eexists. split; [apply lookup_singleton_eq|]. vm_compute. done.
    + intros id c [<- <-]%lookup_singleton_Some. vm_compute. done.
  - vm_compute. reflexivity.
  - by repeat constructor.
Defined.

(** ** Runs of the secret stores

    Witnesses of the theorems, and runs that lose or expose secrets: a file opened with another
    key, a key that is not accepted, a failed write. *)

Definition hex_key (a : ascii) : string := repeated 64 a.
Definition keyed (a : ascii) : list (FileVault -> FileVault) := [WithEncryptionKey (hex_key a)].
Definition alice : string := repeated 64 "a".
Definition bob : string := repeated 64 "b".

Definition vault_ops : list VaultOp :=
  [VSet alice "llm.openai" "sk-1"; VSet bob "llm.openai" "sk-2"; VRestart;
   VGet alice "llm.openai"; VDelete bob "llm.openai"; VAll bob; VSet alice "vcs" ""; VRestart;
   VAll alice].

Lemma utf8_ascii_app p s : all_ascii p = true -> utf8_valid 0 (p ++ s) = utf8_valid 0 s.
Proof.
  unfold all_ascii. induction p as [|a p IH]; [done|]. cbn.
  intros [Ha Hp]%andb_true_iff. by rewrite Ha, IH.
Qed.

Lemma user_token_ok token :
  String.length token = 64%nat -> all_ascii (scopedKey token "") = true -> token_ok token.
Proof.
  intros Hl Ha. split; [done|]. intros s Hs.
  assert (scopedKey token s = scopedKey token "" ++ s) as ->.
  { unfold scopedKey, prefix. by rewrite string_app_nil_r. }
  by rewrite utf8_ascii_app.
Qed.

Lemma file_vault_refines_map_witness :
  Forall op_ok vault_ops /\
  vault_outs (keyed "0") vault_ops (closed_vault (keyed "0")) = spec_outs vault_ops ∅ /\
  spec_outs vault_ops ∅ =
    [VDone; VDone; VDone; VText "sk-1"; VDone; VMap ∅; VDone; VDone;
     VMap {["llm.openai" := "sk-1"]}].
Proof.
  assert (Forall op_ok vault_ops) as Hops.
  { assert (token_ok alice /\ token_ok bob) as [Ha Hb] by (split; apply user_token_ok; vm_compute; reflexivity).
    unfold vault_ops. repeat apply Forall_cons_2; try apply Forall_nil_2; done. }
  split; [exact Hops|]. split; [|vm_compute; reflexivity].
  apply (file_vault_refines_map (keyed "0") eq_refl vault_ops Hops).
Defined.

(** A file opened with another key: the error is only logged, the vault starts without secrets,
    and the next write replaces the file, so that not even the right key finds them again. *)
Definition wrong_key_run : DBE VaultFile string :=
  NewFileVault (keyed "0");?
  Set_ "a" "secret";?
  NewFileVault (keyed "1");?
  Set_ "b" "other";?
  NewFileVault (keyed "0");?
  Get "a".

Example wrong_key_loses_secrets :
  (wrong_key_run (quiet (closed_vault []))).1 = Ok "".
Proof. vm_compute. reflexivity. Qed.

(** A key that is neither 32 bytes nor 64 hexadecimal digits: the secrets are written as they
    are. *)
Example bad_key_writes_plaintext :
  let t := (NewFileVault [WithEncryptionKey "hunter2"];? Set_ "a" "secret")%rtv
             (quiet (closed_vault [])) in
  t.1 = Ok tt /\
  vf_content (tables t.2) = Some (MarshalStrings {["a" := "secret"]}).
Proof. vm_compute. done. Qed.

(** A failed write is answered with an error, but the value is there, until the next start. *)
Example failed_write_is_seen :
  let t := Set_ "a" "secret" (MkRun (closed_vault (keyed "0")) [false; true]) in
  t.1 = Err "vault: write temp file: statement failed" /\
  (Get "a" t.2).1 = Ok "secret" /\ vf_content (tables t.2) = None.
Proof. vm_compute. done. Qed.

(** A file that holds [null] makes the map nil, and the next write panics. *)
Example null_file_panics :
  let t := {| vf_content := Some "null"; vf_vault := new_vault []; vf_draws := 0 |} in
  ((NewFileVault [];? Set_ "a" "secret")%rtv (quiet t)).1 =
    Err "panic: assignment to entry in nil map".
Proof. vm_compute. reflexivity. Qed.

Lemma Set_survives_restart_witness :
  exists t' fs' t'',
    Set_ "a" "secret" (MkRun (closed_vault (keyed "0")) []) = (Ok tt, MkRun t' fs') /\
    NewFileVault (keyed "0") (quiet t') = (Ok tt, quiet t'') /\
    all_secrets t'' = {["a" := "secret"]}.
Proof.
  eexists _, _.
  destruct (Set_survives_restart (keyed "0") "a" "secret" (closed_vault (keyed "0")) []
    (tables (Set_ "a" "secret" (MkRun (closed_vault (keyed "0")) [])).2) []) as (t'' & E & Ha).
  - done.
  - vm_compute. reflexivity.
  - reflexivity.
  - reflexivity.
  - intros k v. change (<["a" := "secret"]> (all_secrets _)) with ({["a" := "secret"]} : gmap string string).
    intros [<- <-]%lookup_singleton_Some. done.
  - exists t''. split; [vm_compute; reflexivity|]. split; [exact E|].
    exact Ha.
Defined.
