(* ===== verification/Llm.v ===== *)
(** * Language models ([llm/provider.go], [swarm/llm_proxy.go], [api/handlers.go], [api/stream.go], [main.go])

    The registry of the providers that all users share, the endpoints that change it, the calls
    that go through it, and its start.  A provider is the configuration it was made with; the
    HTTP clients of the five services answer as the class [Clients] says, and what they answer
    may depend on how many calls came before.  [gw_trace] is what users supply and whom the
    server asks.  Users are those of the access token, which every route requires.  Left out are
    metrics, deadlines, the events of the websocket and the times a call takes; goroutines of a
    probe run one after the other. *)

From Stdlib Require Import ZArith Lia Ascii String.
From stdpp Require Import base list gmap strings sorting.
From S2P Require Import Prelude GoStrings SwarmDb Db GoFloat Redact Fingerprint Http Json Vault.
Local Open Scope string_scope.
Local Open Scope rtv_scope.
Local Open Scope Z_scope.

(** ** Messages *)

Record ToolCallFunc := { tf_Name : string; tf_Arguments : string }.
Record ToolCall := { tc_ID : string; tc_Type : string; tc_Function : ToolCallFunc }.
Record Message := {
  ms_Role : string;
  ms_Content : string;
  ms_Name : string;
  ms_ToolCallID : string;
  ms_ToolCalls : list ToolCall
}.
Record ToolFunction := { fn_Name : string; fn_Description : string; fn_Parameters : string }.
Record ToolDef := { td_Type : string; td_Function : ToolFunction }.

Record CompletionRequest := {
  cq_Model : string;
  cq_Messages : list Message;
  cq_MaxTokens : Z;
  cq_Temperature : float64;
  cq_TopP : float64;
  cq_Stop : list string;
  cq_Tools : list ToolDef;
  cq_ToolChoice : string;
  cq_AgentRole : string
}.

Record Usage := { us_PromptTokens : Z; us_CompletionTokens : Z; us_TotalTokens : Z }.

Record CompletionResponse := {
  cs_Content : string;
  cs_Model : string;
  cs_FinishReason : string;
  cs_Usage : Usage;
  cs_ToolCalls : list ToolCall
}.

Record StreamChunk := {
  sc_Content : string;
  sc_Model : string;
  sc_FinishReason : string;
  sc_Done : bool;
  sc_Usage : option Usage;
  sc_ToolCalls : list ToolCall
}.

(** ** Providers *)

Record Backend := {
  bk_Name : string;
  bk_APIKey : string;
  bk_BaseURL : string;
  bk_DefaultModel : string;
  bk_Timeout : Z
}.

(** What is sent until the channel closes, and whether the goroutine that sends it panics then. *)
Record Stream := { st_Chunks : list StreamChunk; st_Panics : bool }.

(** All five stream. *)
Class Clients := {
  client_Complete : nat -> Backend -> CompletionRequest -> result CompletionResponse string;
  client_Stream : nat -> Backend -> CompletionRequest -> result Stream string;
  client_Healthy : nat -> Backend -> bool;
  client_ListModels : nat -> Backend -> result (list string) string
}.

Definition or_default (s d : string) : string := if String.eqb s "" then d else s.
Definition or_seconds (timeout n : Z) : Z := if timeout =? 0 then n * 1000000000 else timeout.

Definition NewOpenAIProvider (name apiKey baseURL model : string) (timeout : Z) : Backend :=
  {| bk_Name := name; bk_APIKey := apiKey;
     bk_BaseURL := or_default baseURL "https://api.openai.com/v1";
     bk_DefaultModel := or_default model "gpt-4o"; bk_Timeout := or_seconds timeout 60 |}.
Definition NewAnthropicProvider (apiKey baseURL model : string) (timeout : Z) : Backend :=
  {| bk_Name := "anthropic"; bk_APIKey := apiKey;
     bk_BaseURL := or_default baseURL "https://api.anthropic.com/v1";
     bk_DefaultModel := or_default model "claude-sonnet-4-20250514";
     bk_Timeout := or_seconds timeout 300 |}.
Definition NewGeminiProvider (apiKey baseURL model : string) (timeout : Z) : Backend :=
  {| bk_Name := "gemini"; bk_APIKey := apiKey;
     bk_BaseURL := or_default baseURL "https://generativelanguage.googleapis.com/v1beta";
     bk_DefaultModel := or_default model "gemini-2.5-flash"; bk_Timeout := or_seconds timeout 90 |}.
Definition NewGrokProvider (apiKey baseURL model : string) (timeout : Z) : Backend :=
  NewOpenAIProvider "grok" apiKey (or_default baseURL "https://api.x.ai/v1")
    (or_default model "grok-3") timeout.
Definition NewOllamaProvider (baseURL model : string) (timeout : Z) : Backend :=
  {| bk_Name := "ollama"; bk_APIKey := "";
     bk_BaseURL := or_default baseURL "http://localhost:11434";
     bk_DefaultModel := or_default model "llama3.1:8b"; bk_Timeout := or_seconds timeout 120 |}.

(** The switch over the names. *)
Definition recreated (name apiKey baseURL model : string) (timeout : Z) : option Backend :=
  if String.eqb name "openai" then Some (NewOpenAIProvider "openai" apiKey baseURL model timeout)
  else if String.eqb name "anthropic" then Some (NewAnthropicProvider apiKey baseURL model timeout)
  else if String.eqb name "gemini" then Some (NewGeminiProvider apiKey baseURL model timeout)
  else if String.eqb name "grok" then Some (NewGrokProvider apiKey baseURL model timeout)
  else if String.eqb name "ollama" then Some (NewOllamaProvider baseURL model timeout)
  else None.

Record ProviderMeta := {
  pm_DisplayName : string;
  pm_BaseURL : string;
  pm_DefaultModel : string;
  pm_Configured : bool;
  pm_RequiresKey : bool;
  pm_APIKey : string
}.

(** ** The registry *)

Record ModelRoute := { mr_Provider : string; mr_Model : string }.
Record ProviderPriority := { pp_Provider : string; pp_Model : string; pp_ActionTypes : list string }.
Record RouteEntry := { re_Provider : string; re_Model : string }.

(** [rg_vault] is the user whose store it is. *)
Record Registry := {
  rg_providers : gmap string Backend;
  rg_meta : gmap string ProviderMeta;
  rg_primary : string;
  rg_fallbacks : list string;
  rg_vault : option UUID;
  rg_routes : gmap string ModelRoute;
  rg_routesEnabled : bool;
  rg_priorityMatrix : gmap string (list ProviderPriority);
  rg_timeout : Z
}.

Definition NewRegistry : Registry :=
  {| rg_providers := ∅; rg_meta := ∅; rg_primary := ""; rg_fallbacks := []; rg_vault := None;
     rg_routes := ∅; rg_routesEnabled := false; rg_priorityMatrix := ∅; rg_timeout := 0 |}.

Definition put_providers (f : gmap string Backend -> gmap string Backend) (r : Registry) : Registry :=
  {| rg_providers := f (rg_providers r); rg_meta := rg_meta r; rg_primary := rg_primary r;
     rg_fallbacks := rg_fallbacks r; rg_vault := rg_vault r; rg_routes := rg_routes r;
     rg_routesEnabled := rg_routesEnabled r; rg_priorityMatrix := rg_priorityMatrix r;
     rg_timeout := rg_timeout r |}.
Definition put_meta (f : gmap string ProviderMeta -> gmap string ProviderMeta) (r : Registry)
    : Registry :=
  {| rg_providers := rg_providers r; rg_meta := f (rg_meta r); rg_primary := rg_primary r;
     rg_fallbacks := rg_fallbacks r; rg_vault := rg_vault r; rg_routes := rg_routes r;
     rg_routesEnabled := rg_routesEnabled r; rg_priorityMatrix := rg_priorityMatrix r;
     rg_timeout := rg_timeout r |}.
Definition put_primary (primary : string) (fallbacks : list string) (r : Registry) : Registry :=
  {| rg_providers := rg_providers r; rg_meta := rg_meta r; rg_primary := primary;
     rg_fallbacks := fallbacks; rg_vault := rg_vault r; rg_routes := rg_routes r;
     rg_routesEnabled := rg_routesEnabled r; rg_priorityMatrix := rg_priorityMatrix r;
     rg_timeout := rg_timeout r |}.
Definition put_routes (routes : gmap string ModelRoute) (r : Registry) : Registry :=
  {| rg_providers := rg_providers r; rg_meta := rg_meta r; rg_primary := rg_primary r;
     rg_fallbacks := rg_fallbacks r; rg_vault := rg_vault r; rg_routes := routes;
     rg_routesEnabled := rg_routesEnabled r; rg_priorityMatrix := rg_priorityMatrix r;
     rg_timeout := rg_timeout r |}.
Definition SetRoutesEnabled (enabled : bool) (r : Registry) : Registry :=
  {| rg_providers := rg_providers r; rg_meta := rg_meta r; rg_primary := rg_primary r;
     rg_fallbacks := rg_fallbacks r; rg_vault := rg_vault r; rg_routes := rg_routes r;
     rg_routesEnabled := enabled; rg_priorityMatrix := rg_priorityMatrix r;
     rg_timeout := rg_timeout r |}.
Definition SetPriorityMatrix (matrix : gmap string (list ProviderPriority)) (r : Registry)
    : Registry :=
  {| rg_providers := rg_providers r; rg_meta := rg_meta r; rg_primary := rg_primary r;
     rg_fallbacks := rg_fallbacks r; rg_vault := rg_vault r; rg_routes := rg_routes r;
     rg_routesEnabled := rg_routesEnabled r; rg_priorityMatrix := matrix;
     rg_timeout := rg_timeout r |}.
Definition SetVault (u : UUID) (r : Registry) : Registry :=
  {| rg_providers := rg_providers r; rg_meta := rg_meta r; rg_primary := rg_primary r;
     rg_fallbacks := rg_fallbacks r; rg_vault := Some u; rg_routes := rg_routes r;
     rg_routesEnabled := rg_routesEnabled r; rg_priorityMatrix := rg_priorityMatrix r;
     rg_timeout := rg_timeout r |}.
Definition SetTimeout (d : Z) (r : Registry) : Registry :=
  {| rg_providers := rg_providers r; rg_meta := rg_meta r; rg_primary := rg_primary r;
     rg_fallbacks := rg_fallbacks r; rg_vault := rg_vault r; rg_routes := rg_routes r;
     rg_routesEnabled := rg_routesEnabled r; rg_priorityMatrix := rg_priorityMatrix r;
     rg_timeout := d |}.

Definition Register (p : Backend) (r : Registry) : Registry :=
  let r := put_providers <[bk_Name p := p]> r in
  if String.eqb (rg_primary r) "" then put_primary (bk_Name p) (rg_fallbacks r) r
  else put_primary (rg_primary r) (rg_fallbacks r ++ [bk_Name p])%list r.

Definition RegisterWithMeta (p : Backend) (m : ProviderMeta) (r : Registry) : Registry :=
  put_meta <[bk_Name p := m]> (Register p r).

Definition GetMeta (name : string) (r : Registry) : option ProviderMeta := rg_meta r !! name.
Definition GetProvider (name : string) (r : Registry) : option Backend := rg_providers r !! name.
Definition GetRoutes (r : Registry) : gmap string ModelRoute := rg_routes r.
Definition PrimaryName (r : Registry) : string := rg_primary r.

(** What [SetPrimary] does to the registry. *)
Definition set_primary (name : string) (r : Registry) : Registry :=
  put_primary name (List.filter (fun fb => negb (String.eqb fb name)) (rg_fallbacks r)) r.

(** A provider that has to be left out: it needs a key and has none. *)
Definition unconfigured (name : string) (r : Registry) : bool :=
  match rg_meta r !! name with
  | Some m => pm_RequiresKey m && negb (pm_Configured m)
  | None => false
  end.

Definition containsStr (l : list string) (target : string) : bool := existsb (String.eqb target) l.

Definition matrixToRouteEntries (matrix : list ProviderPriority) (actionType : string)
    (r : Registry) : list RouteEntry :=
  (fun pp => {| re_Provider := pp_Provider pp; re_Model := pp_Model pp |}) <$>
  List.filter (fun pp =>
    (String.eqb actionType "" || (List.length (pp_ActionTypes pp) =? 0)%nat
     || containsStr (pp_ActionTypes pp) actionType)
    && bool_decide (is_Some (rg_providers r !! pp_Provider pp))
    && negb (unconfigured (pp_Provider pp) r)) matrix.

(** The route of the role, where routes are enabled. *)
Definition role_route (role : string) (r : Registry) : list RouteEntry :=
  if rg_routesEnabled r && negb (String.eqb role "") then
    match rg_routes r !! role with
    | Some route =>
        if bool_decide (is_Some (rg_providers r !! mr_Provider route))
        then [{| re_Provider := mr_Provider route; re_Model := mr_Model route |}] else []
    | None => []
    end
  else [].

(** The names that are not there yet, each once, behind the entries. *)
Fixpoint append_unseen (names : list string) (entries : list RouteEntry) : list RouteEntry :=
  match names with
  | [] => entries
  | n :: names =>
      append_unseen names
        (if containsStr (re_Provider <$> entries) n then entries
         else entries ++ [{| re_Provider := n; re_Model := "" |}])%list
  end.

Definition routeOrder (role : string) (r : Registry) : list RouteEntry :=
  append_unseen ((if String.eqb (rg_primary r) "" then [] else [rg_primary r]) ++ rg_fallbacks r)%list
    (role_route role r).

Definition PriorityOrder (role actionType : string) (numModels : Z) (r : Registry)
    : list RouteEntry :=
  match default [] (rg_priorityMatrix r !! role) with
  | [] => routeOrder role r
  | matrix =>
      let entries := matrixToRouteEntries matrix actionType r in
      if (0 <? numModels) && (numModels <? Z.of_nat (List.length entries))
      then firstn (Z.to_nat numModels) entries else entries
  end.

Section order.
Context `{RowOrder}.

(** Names that no list has come in the order of the iteration over the map. *)
Definition ListProviders (r : Registry) : list string :=
  let first := if bool_decide (is_Some (rg_providers r !! rg_primary r))
               then [rg_primary r] else [] in
  let known := fold_left (fun names fb => if containsStr names fb then names
                                           else names ++ [fb])%list (rg_fallbacks r) first in
  (known ++ List.filter (fun n => negb (containsStr known n)) (range_map (rg_providers r)).*1)%list.

End order.

(** *** Keys, models and addresses *)

Definition with_key (apiKey : string) (m : ProviderMeta) : ProviderMeta :=
  {| pm_DisplayName := pm_DisplayName m; pm_BaseURL := pm_BaseURL m;
     pm_DefaultModel := pm_DefaultModel m; pm_Configured := negb (String.eqb apiKey "");
     pm_RequiresKey := pm_RequiresKey m; pm_APIKey := apiKey |}.
Definition with_model (model : string) (m : ProviderMeta) : ProviderMeta :=
  {| pm_DisplayName := pm_DisplayName m; pm_BaseURL := pm_BaseURL m; pm_DefaultModel := model;
     pm_Configured := pm_Configured m; pm_RequiresKey := pm_RequiresKey m;
     pm_APIKey := pm_APIKey m |}.
Definition with_url (baseURL : string) (configured : bool) (m : ProviderMeta) : ProviderMeta :=
  {| pm_DisplayName := pm_DisplayName m; pm_BaseURL := baseURL;
     pm_DefaultModel := pm_DefaultModel m; pm_Configured := configured;
     pm_RequiresKey := pm_RequiresKey m; pm_APIKey := pm_APIKey m |}.

(** Each returns whether the provider was known. *)
Definition updateAPIKeyInternal (name apiKey : string) (r : Registry) : bool * Registry :=
  match rg_meta r !! name with
  | None => (false, r)
  | Some m =>
      let r := put_meta <[name := with_key apiKey m]> r in
      match recreated name apiKey (pm_BaseURL m) (pm_DefaultModel m) (rg_timeout r) with
      | Some b => (true, put_providers <[name := b]> r)
      | None => (false, r)
      end
  end.
Definition ApplyAPIKey := updateAPIKeyInternal.

Definition ApplyModel (name model : string) (r : Registry) : Registry :=
  match rg_meta r !! name with
  | None => r
  | Some m => put_meta <[name := with_model model m]> r
  end.

Definition ApplyBaseURL (name baseURL : string) (r : Registry) : Registry :=
  match rg_meta r !! name with
  | None => r
  | Some m => put_meta <[name := with_url baseURL (pm_Configured m) m]> r
  end.

(** The provider that is made anew has no timeout in its configuration. *)
Definition UpdateBaseURL (name baseURL : string) (r : Registry) : Registry :=
  match rg_meta r !! name with
  | None => r
  | Some m =>
      let r := put_meta <[name := with_url baseURL (negb (String.eqb baseURL "")) m]> r in
      if String.eqb name "ollama"
      then put_providers <[name := NewOllamaProvider baseURL (pm_DefaultModel m) 0]> r else r
  end.

(** ** State *)

(** A user hands in a value under a name; the server sends a request with a provider. *)
Inductive LlmAct :=
  | Given (u : UUID) (name value : string)
  | Asked (b : Backend).

(** [gw_config] is the table [app_config]; [gw_up] is whether the process runs. *)
Record Gateway (V : Type) := {
  gw_registry : Registry;
  gw_vault : V;
  gw_config : gmap string string;
  gw_trace : list LlmAct;
  gw_up : bool
}.
Arguments gw_registry {V}. Arguments gw_vault {V}. Arguments gw_config {V}. Arguments gw_trace {V}.
Arguments gw_up {V}.

Definition api_key_name (provider : string) : string := "llm." ++ provider ++ ".api_key".
Definition model_name (provider : string) : string := "llm." ++ provider ++ ".model".
Definition base_url_name (provider : string) : string := "llm." ++ provider ++ ".base_url".

(** [splitVaultKey]; [cur] is the part that has begun. *)
Fixpoint split_dots (cur s : string) : list string :=
  match s with
  | "" => [cur]
  | String a s => if Ascii.eqb a "." then cur :: split_dots "" s
                  else split_dots (cur ++ String a "") s
  end.
Definition splitVaultKey (key : string) : list string := split_dots "" key.

(** *** Routes as JSON *)

Definition route_json (route : ModelRoute) : Json :=
  JObj (("provider", JStr (mr_Provider route))
        :: if String.eqb (mr_Model route) "" then [] else [("model", JStr (mr_Model route))]).
Definition routes_json (routes : gmap string ModelRoute) : string := Marshal (obj (route_json <$> routes)).

Section gateway.
Context `{RowOrder} `{FoldTables} `{Clients}.
Context {V : Type}.

(** The stores of the users, and [h.KeychainService != nil]. *)
Variable storeFor : Z -> UUID -> SecretStore V.
Variable keychain : bool.
(** [SanitizeLLMContent] of [swarm/content_sanitizer.go], and [p.wsHub != nil]. *)
Variable SanitizeLLMContent : string -> string -> string.
Variable wsHub : bool.
Notation GW A := (DB (Gateway V) A).

(** A member of the text of a route; names match in any case. *)
Definition read_member (o : option ModelRoute) (kv : string * Json) : option ModelRoute :=
  route ← o;
  let set (f : string -> ModelRoute) :=
    match kv.2 with JStr s => Some (f s) | JNull => Some route | _ => None end in
  if EqualFold kv.1 "provider" then set (fun s => {| mr_Provider := s; mr_Model := mr_Model route |})
  else if EqualFold kv.1 "model" then set (fun s => {| mr_Provider := mr_Provider route; mr_Model := s |})
  else Some route.
Definition read_route (v : Json) : option ModelRoute :=
  match v with
  | JNull => Some {| mr_Provider := ""; mr_Model := "" |}
  | JObj l => fold_left read_member l (Some {| mr_Provider := ""; mr_Model := "" |})
  | _ => None
  end.
Definition read_routes (text : string) : option (gmap string ModelRoute) :=
  match Unmarshal text with
  | Some JNull => Some ∅
  | Some (JObj l) =>
      fold_left (fun o kv => m ← o; route ← read_route kv.2; Some (<[kv.1 := route]> m)) l (Some ∅)
  | _ => None
  end.

Definition put_registry (r : Registry) (g : Gateway V) : Gateway V :=
  {| gw_registry := r; gw_vault := gw_vault g; gw_config := gw_config g; gw_trace := gw_trace g; gw_up := gw_up g |}.
Definition put_vault (v : V) (g : Gateway V) : Gateway V :=
  {| gw_registry := gw_registry g; gw_vault := v; gw_config := gw_config g; gw_trace := gw_trace g; gw_up := gw_up g |}.
Definition put_config (c : gmap string string) (g : Gateway V) : Gateway V :=
  {| gw_registry := gw_registry g; gw_vault := gw_vault g; gw_config := c; gw_trace := gw_trace g; gw_up := gw_up g |}.
Definition record (a : LlmAct) (g : Gateway V) : Gateway V :=
  {| gw_registry := gw_registry g; gw_vault := gw_vault g; gw_config := gw_config g;
     gw_trace := (gw_trace g ++ [a])%list; gw_up := gw_up g |}.
Definition put_up (up : bool) (g : Gateway V) : Gateway V :=
  {| gw_registry := gw_registry g; gw_vault := gw_vault g; gw_config := gw_config g;
     gw_trace := gw_trace g; gw_up := up |}.

Definition change (f : Registry -> Registry) : GW unit :=
  writes (fun g => put_registry (f (gw_registry g)) g).
Definition look {A} (f : Registry -> A) : GW A := reads (fun g => f (gw_registry g)).
Definition on_vault {A} (m : DB V A) : GW A := zoom gw_vault put_vault m.
Definition on_config {A} (m : DB (gmap string string) A) : GW A := zoom gw_config put_config m.

(** A request with a provider. *)
Definition ask {A} (b : Backend) (client : nat -> Backend -> A) : GW A :=
  n ← reads (fun g => List.length (gw_trace g));
  writes (record (Asked b));;
  mret (client n b).

(** A panic of a goroutine ends the process. *)
Definition ask_stream (b : Backend) (req : CompletionRequest) : DBE (Gateway V) (list StreamChunk) :=
  r ← ask b (fun n b => client_Stream n b req);
  match r with
  | Err e => fail e
  | Ok s => writes (if st_Panics s then put_up false else id);; ok (st_Chunks s)
  end.

(** ** The vault of the registry *)

(** An error is only logged. *)
Definition vault_set (now : Z) (name value : string) : GW unit :=
  u ← look rg_vault;
  match u with
  | None => mret tt
  | Some u => ignoring (on_vault (ss_Set (storeFor now u) name value))
  end.
Definition vault_delete (now : Z) (name : string) : GW unit :=
  u ← look rg_vault;
  match u with
  | None => mret tt
  | Some u => ignoring (on_vault (ss_Delete (storeFor now u) name))
  end.

Definition persistRoutes (now : Z) : GW unit :=
  routes ← look rg_routes;
  if bool_decide (routes = ∅) then mret tt else vault_set now "llm.routes" (routes_json routes).

Definition SetRoutes (now : Z) (routes : gmap string ModelRoute) : GW unit :=
  change (put_routes routes);; persistRoutes now.

Definition SetRoute (now : Z) (role : string) (route : ModelRoute) : GW unit :=
  change (fun r => put_routes (<[role := route]> (rg_routes r)) r);; persistRoutes now.

Definition SetPrimary (now : Z) (name : string) : GW unit :=
  change (set_primary name);; vault_set now "llm.primary" name.

Definition UpdateAPIKey (now : Z) (name apiKey : string) : GW bool :=
  known ← look (fun r => (updateAPIKeyInternal name apiKey r).1);
  change (fun r => (updateAPIKeyInternal name apiKey r).2);;
  if negb known then mret false
  else
    (if String.eqb apiKey "" then vault_delete now (api_key_name name)
     else vault_set now (api_key_name name) apiKey);;
    mret true.

Definition UpdateModel (now : Z) (name model : string) : GW bool :=
  known ← look (fun r => bool_decide (is_Some (rg_meta r !! name)));
  if negb known then mret false
  else
    change (ApplyModel name model);;
    (if String.eqb model "" then mret tt else vault_set now (model_name name) model);;
    mret true.

(** One secret of the vault: the registry, and whether a key was loaded. *)
Definition load_secret (r : Registry) (kv : string * string) : Registry * Z :=
  if String.eqb kv.1 "llm.primary" then
    (if bool_decide (is_Some (rg_providers r !! kv.2))
     then put_primary kv.2 (rg_fallbacks r) r else r, 0)
  else if negb (HasPrefix kv.1 "llm.") || (String.length kv.1 <? 5)%nat then (r, 0)
  else
    match splitVaultKey kv.1 with
    | [_; provider; what] =>
        if String.eqb what "api_key" then
          let from_env := match rg_meta r !! provider with
                          | Some m => pm_Configured m && negb (String.eqb (pm_APIKey m) "")
                          | None => false
                          end in
          if from_env || String.eqb kv.2 "" then (r, 0)
          else ((updateAPIKeyInternal provider kv.2 r).2, 1)
        else if String.eqb what "model" then
          (if String.eqb kv.2 "" then r else ApplyModel provider kv.2 r, 0)
        else (r, 0)
    | _ => (r, 0)
    end.

Definition load_secrets (l : list (string * string)) (r : Registry) : Registry * Z :=
  fold_left (fun '(r, n) kv => let '(r, m) := load_secret r kv in (r, n + m)) l (r, 0).

Definition LoadFromVault (now : Z) : GW Z :=
  u ← look rg_vault;
  match u with
  | None => mret 0
  | Some u =>
      r ← on_vault (ss_GetAll (storeFor now u));
      match r with
      | Err _ => mret 0
      | Ok secrets =>
          let l := range_map secrets in
          loaded ← look (fun r => (load_secrets l r).2);
          change (fun r => (load_secrets l r).1);;
          r ← on_vault (ss_Get (storeFor now u) "llm.routes");
          (match r with
           | Ok text =>
               match read_routes text with
               | Some routes => if bool_decide (routes = ∅) then mret tt else change (put_routes routes)
               | None => mret tt
               end
           | Err _ => mret tt
           end);;
          mret loaded
      end
  end.

(** ** Completions *)

Definition with_model_of (e : RouteEntry) (req : CompletionRequest) : CompletionRequest :=
  {| cq_Model := if negb (String.eqb (re_Model e) "") && String.eqb (cq_Model req) ""
                 then re_Model e else cq_Model req;
     cq_Messages := cq_Messages req; cq_MaxTokens := cq_MaxTokens req;
     cq_Temperature := cq_Temperature req; cq_TopP := cq_TopP req; cq_Stop := cq_Stop req;
     cq_Tools := cq_Tools req; cq_ToolChoice := cq_ToolChoice req;
     cq_AgentRole := cq_AgentRole req |}.

Definition ErrProviderNotFound := "LLM provider not found".

(** The provider of an entry, where it is registered and configured. *)
Definition usable (e : RouteEntry) (r : Registry) : option Backend :=
  if unconfigured (re_Provider e) r then None else rg_providers r !! re_Provider e.

Definition truncated (resp : CompletionResponse) : bool :=
  String.eqb (cs_FinishReason resp) "length".

(** The loop over the entries; a truncated answer counts from the last one only. *)
Fixpoint try_order (req : CompletionRequest) (order : list RouteEntry) (lastErr : option string)
    : DBE (Gateway V) CompletionResponse :=
  match order with
  | [] => match lastErr with
          | Some e => fail ("all providers failed: " ++ e)
          | None => fail ErrProviderNotFound
          end
  | e :: order =>
      b ← look (usable e);
      match b with
      | None => try_order req order lastErr
      | Some b =>
          r ← ask b (fun n b => client_Complete n b (with_model_of e req));
          match r with
          | Err err => try_order req order (Some err)
          | Ok resp =>
              if truncated resp && (0 <? List.length order)%nat
              then try_order req order
                     (Some ("response truncated by " ++ re_Provider e ++ "/" ++ cs_Model resp))
              else ok resp
          end
      end
  end.

Definition Complete (req : CompletionRequest) : DBE (Gateway V) CompletionResponse :=
  order ← look (routeOrder (cq_AgentRole req));
  try_order req order None.

(** The first of the names that opens a stream. *)
Fixpoint try_streams (req : CompletionRequest) (names : list string)
    : GW (option (list StreamChunk)) :=
  match names with
  | [] => mret None
  | n :: names =>
      b ← look (GetProvider n);
      match b with
      | None => try_streams req names
      | Some b =>
          r ← ask_stream b req;
          match r with
          | Ok chunks => mret (Some chunks)
          | Err _ => try_streams req names
          end
      end
  end.

Definition StreamComplete (req : CompletionRequest) : DBE (Gateway V) (list StreamChunk) :=
  names ← look (fun r => rg_primary r :: rg_fallbacks r);
  s ← try_streams req names;
  match s with
  | Some chunks => ok chunks
  | None =>
      resp ←? Complete req;
      ok [{| sc_Content := cs_Content resp; sc_Model := cs_Model resp;
             sc_FinishReason := cs_FinishReason resp; sc_Done := true;
             sc_Usage := Some (cs_Usage resp); sc_ToolCalls := [] |}]
  end.

(** ** The proxy of the swarm ([swarm/llm_proxy.go]) *)

Record LLMCompleteRequest := {
  lc_Messages : list Message;
  lc_Tools : list ToolDef;
  lc_ToolChoice : string;
  lc_MaxTokens : Z;
  lc_Model : string;
  lc_AgentRole : string
}.
(** One choice; its role is "assistant". *)
Record LLMCompleteResponse := {
  lr_ID : string;
  lr_Model : string;
  lr_Content : string;
  lr_ToolCalls : list ToolCall;
  lr_FinishReason : string;
  lr_Usage : Usage
}.

Definition internal_request (messages : list Message) (tools : list ToolDef) (toolChoice : string)
    (maxTokens : Z) (model role : string) : CompletionRequest :=
  {| cq_Model := model; cq_Messages := messages; cq_MaxTokens := maxTokens;
     cq_Temperature := of_int 0; cq_TopP := of_int 0; cq_Stop := []; cq_Tools := tools;
     cq_ToolChoice := toolChoice; cq_AgentRole := role |}.

Definition proxy_Complete (req : LLMCompleteRequest) : DBE (Gateway V) LLMCompleteResponse :=
  resp ←? wrapping "llm proxy"
    (Complete (internal_request (lc_Messages req) (lc_Tools req) (lc_ToolChoice req)
                 (lc_MaxTokens req) (lc_Model req) (lc_AgentRole req)));
  ok {| lr_ID := "swarm-" ++ cs_Model resp; lr_Model := cs_Model resp;
        lr_Content := cs_Content resp; lr_ToolCalls := cs_ToolCalls resp;
        lr_FinishReason := cs_FinishReason resp; lr_Usage := cs_Usage resp |}.

Record ProbeRequest := {
  pr_Messages : list Message;
  pr_Tools : list ToolDef;
  pr_ToolChoice : string;
  pr_MaxTokens : Z;
  pr_AgentRole : string;
  pr_ActionType : string;
  pr_NumModels : Z;
  pr_TaskID : string;
  pr_ThreadID : string
}.
Record ProbeResult := {
  ps_Provider : string;
  ps_Model : string;
  ps_Content : string;
  ps_FinishReason : string;
  ps_ToolCalls : list ToolCall;
  ps_Usage : Usage;
  ps_Error : string
}.
Record ProbeResponse := {
  pb_Results : list ProbeResult;
  pb_Providers : Z;
  pb_Successes : Z;
  pb_AgentRole : string
}.

Definition no_usage : Usage := {| us_PromptTokens := 0; us_CompletionTokens := 0; us_TotalTokens := 0 |}.
Definition probe_error (e : RouteEntry) (message : string) : ProbeResult :=
  {| ps_Provider := re_Provider e; ps_Model := re_Model e; ps_Content := ""; ps_FinishReason := "";
     ps_ToolCalls := []; ps_Usage := no_usage; ps_Error := message |}.

(** The last chunk that says it is the last. *)
Definition final_chunk (chunks : list StreamChunk) : StreamChunk :=
  List.last (List.filter sc_Done chunks)
    {| sc_Content := ""; sc_Model := ""; sc_FinishReason := ""; sc_Done := false; sc_Usage := None;
       sc_ToolCalls := [] |}.

Definition probe_streamed (e : RouteEntry) (chunks : list StreamChunk) : ProbeResult :=
  let l := final_chunk chunks in
  {| ps_Provider := re_Provider e;
     ps_Model := if String.eqb (sc_Model l) "" then re_Model e else sc_Model l;
     ps_Content := SanitizeLLMContent (String.concat "" (sc_Content <$> chunks)) (re_Provider e);
     ps_FinishReason := sc_FinishReason l; ps_ToolCalls := sc_ToolCalls l;
     ps_Usage := default no_usage (sc_Usage l); ps_Error := "" |}.

Definition probe_completed (e : RouteEntry) (resp : CompletionResponse) : ProbeResult :=
  {| ps_Provider := re_Provider e; ps_Model := cs_Model resp;
     ps_Content := SanitizeLLMContent (cs_Content resp) (re_Provider e);
     ps_FinishReason := cs_FinishReason resp; ps_ToolCalls := cs_ToolCalls resp;
     ps_Usage := cs_Usage resp; ps_Error := "" |}.

(** The goroutine of one provider. *)
Definition probe_one (req : ProbeRequest) (e : RouteEntry) : GW ProbeResult :=
  b ← look (GetProvider (re_Provider e));
  match b with
  | None => mret (probe_error e ("provider " ++ String dquote (re_Provider e ++ String dquote " not found")))
  | Some b =>
      let cr := internal_request (pr_Messages req) (pr_Tools req) (pr_ToolChoice req)
                  (pr_MaxTokens req) (re_Model e) (pr_AgentRole req) in
      if wsHub && negb (String.eqb (pr_TaskID req) "") && negb (String.eqb (pr_ThreadID req) "") then
        r ← ask_stream b cr;
        mret match r with Ok chunks => probe_streamed e chunks | Err m => probe_error e m end
      else
        r ← ask b (fun n b => client_Complete n b cr);
        mret match r with Ok resp => probe_completed e resp | Err m => probe_error e m end
  end.

Fixpoint probe_all (req : ProbeRequest) (order : list RouteEntry) : GW (list ProbeResult) :=
  match order with
  | [] => mret []
  | e :: order => r ← probe_one req e; rest ← probe_all req order; mret (r :: rest)
  end.

Definition ProbeMultiple (req : ProbeRequest) : DBE (Gateway V) ProbeResponse :=
  order ← look (PriorityOrder (pr_AgentRole req) (pr_ActionType req) (pr_NumModels req));
  match order with
  | [] => fail ("llm probe: no providers configured for role "
                ++ String dquote (pr_AgentRole req ++ String dquote ""))
  | _ =>
      results ← probe_all req order;
      ok {| pb_Results := results; pb_Providers := Z.of_nat (List.length order);
            pb_Successes := Z.of_nat (List.length
              (List.filter (fun r => String.eqb (ps_Error r) "") results));
            pb_AgentRole := pr_AgentRole req |}
  end.

(** ** Endpoints *)

Record providerInfo := {
  pi_Name : string;
  pi_DisplayName : string;
  pi_BaseURL : string;
  pi_DefaultModel : string;
  pi_Configured : bool;
  pi_RequiresKey : bool;
  pi_Healthy : bool;
  pi_Models : list string
}.
Record ConfigureBody := { cf_APIKey : string; cf_Model : string; cf_BaseURL : string }.
Record RouteBody := { rb_Role : string; rb_Provider : string; rb_Model : string }.
Record RoutesBody := { rs_Routes : list RouteBody; rs_RoutesEnabled : option bool }.

Inductive LlmBody :=
  | BProviders (l : list providerInfo) (primary : string) (routes : gmap string ModelRoute)
  | BConfigured (provider : string) (healthy : bool)
  | BPrimary (provider : string)
  | BRoutes (l : list (string * ModelRoute)) (primary : string) (enabled : bool)
  | BRoutesSet (count : Z)
  | BTested (provider : string) (answer : result CompletionResponse string)
  | BStatus (provider : string) (healthy : bool) (models : result (list string) string)
      (meta : option (bool * string * string))
  | BChunks (l : list StreamChunk)
  | BCompletion (r : LLMCompleteResponse)
  | BProbe (r : ProbeResponse).
Notation REPLY := (GW (Response LlmBody)).
Notation STEP A := (HTTP (Gateway V) LlmBody A).

(** [h.userVaultFor] of a user: a value is stored in their keychain; the error is only logged. *)
Definition user_set (now : Z) (uid : UUID) (name value : string) : GW unit :=
  if keychain then ignoring (on_vault (ss_Set (storeFor now uid) name value)) else mret tt.

(** The key of the user and what goes with it, where the provider has none. *)
Definition rehydrate_one (now : Z) (uid : UUID) (name : string) : GW unit :=
  meta ← look (GetMeta name);
  match meta with
  | None => mret tt
  | Some m =>
      if pm_Configured m then mret tt
      else
        key ← on_vault (ss_Get (storeFor now uid) (api_key_name name));
        match key with
        | Err _ => mret tt
        | Ok key =>
            if String.eqb key "" then mret tt
            else
              model ← on_vault (ss_Get (storeFor now uid) (model_name name));
              (match model with
               | Ok model => if String.eqb model "" then mret tt else change (ApplyModel name model)
               | Err _ => mret tt
               end);;
              url ← on_vault (ss_Get (storeFor now uid) (base_url_name name));
              (match url with
               | Ok url => if String.eqb url "" then mret tt else change (ApplyBaseURL name url)
               | Err _ => mret tt
               end);;
              change (fun r => (ApplyAPIKey name key r).2)
        end
  end.

Definition rehydrateLLMFromKeychain (now : Z) (uid : UUID) : GW unit :=
  if negb keychain then mret tt
  else
    names ← look ListProviders;
    every names (rehydrate_one now uid);;
    primary ← on_vault (ss_Get (storeFor now uid) "llm.primary");
    match primary with
    | Err _ => mret tt
    | Ok primary =>
        exists_ ← look (GetProvider primary);
        match exists_ with
        | Some _ => if String.eqb primary "" then mret tt else SetPrimary now primary
        | None => mret tt
        end
    end.

Definition described_by (name : string) (meta : option ProviderMeta) (healthy : bool)
    (models : list string) : providerInfo :=
  let get {A} (f : ProviderMeta -> A) (zero : A) := match meta with Some m => f m | None => zero end in
  {| pi_Name := name; pi_DisplayName := get pm_DisplayName ""; pi_BaseURL := get pm_BaseURL "";
     pi_DefaultModel := get pm_DefaultModel ""; pi_Configured := get pm_Configured false;
     pi_RequiresKey := get pm_RequiresKey false; pi_Healthy := healthy; pi_Models := models |}.

(** What is listed of a provider; two questions to it. *)
Definition provider_info (name : string) : GW providerInfo :=
  p ← look (GetProvider name);
  meta ← look (GetMeta name);
  match p with
  | None => mret (described_by name meta false [])
  | Some b =>
      healthy ← ask b client_Healthy;
      models ← ask b client_ListModels;
      mret (described_by name meta healthy (match models with Ok l => l | Err _ => [] end))
  end.
Fixpoint provider_infos (names : list string) : GW (list providerInfo) :=
  match names with
  | [] => mret []
  | n :: names => i ← provider_info n; rest ← provider_infos names; mret (i :: rest)
  end.

Definition ListLLMProviders (now : Z) (uid : UUID) : REPLY :=
  names ← look ListProviders;
  rehydrateLLMFromKeychain now uid;;
  infos ← provider_infos names;
  primary ← look PrimaryName;
  routes ← look GetRoutes;
  mret (writeJSON 200 (BProviders infos primary routes)).

Definition not_found (provider : string) : string := "provider not found: " ++ provider.

Definition ConfigureLLMProvider (now : Z) (uid : UUID) (provider : string)
    (request : option ConfigureBody) : REPLY := respond (
  unless (String.eqb provider "") 400 "provider name required";?
  req ←? require request 400 "invalid request body";
  known ← look (GetProvider provider);
  require known 404 (not_found provider);?
  (if String.eqb (cf_APIKey req) "" then ok tt
   else
     writes (record (Given uid (api_key_name provider) (cf_APIKey req)));;
     updated ← UpdateAPIKey now provider (cf_APIKey req);
     unless (negb updated) 500 "failed to update API key";?
     user_set now uid (api_key_name provider) (cf_APIKey req);; ok tt);?
  (if String.eqb (cf_Model req) "" then ok tt
   else UpdateModel now provider (cf_Model req);;
        user_set now uid (model_name provider) (cf_Model req);; ok tt);?
  (if String.eqb (cf_BaseURL req) "" then ok tt
   else
     writes (record (Given uid (base_url_name provider) (cf_BaseURL req)));;
     change (UpdateBaseURL provider (cf_BaseURL req));;
     user_set now uid (base_url_name provider) (cf_BaseURL req);; ok tt);?
  p ← look (GetProvider provider);
  b ←? require p 500 "nil pointer dereference";
  healthy ← ask b client_Healthy;
  ok (writeJSON 200 (BConfigured provider healthy))).

Definition SetPrimaryLLMProvider (now : Z) (uid : UUID) (request : option string) : REPLY := respond (
  provider ←? require request 400 "invalid request body";
  known ← look (GetProvider provider);
  require known 404 (not_found provider);?
  SetPrimary now provider;;
  user_set now uid "llm.primary" provider;;
  ok (writeJSON 200 (BPrimary provider))).

Definition GetLLMRoutes : REPLY :=
  routes ← look GetRoutes;
  primary ← look PrimaryName;
  enabled ← look rg_routesEnabled;
  mret (writeJSON 200 (BRoutes (range_map routes) primary enabled)).

(** The loop over the routes of the body. *)
Fixpoint collect_routes (l : list RouteBody) (routes : gmap string ModelRoute)
    : STEP (gmap string ModelRoute) :=
  match l with
  | [] => ok routes
  | rt :: l =>
      if String.eqb (rb_Role rt) "" || String.eqb (rb_Provider rt) "" then collect_routes l routes
      else
        known ← look (GetProvider (rb_Provider rt));
        require known 400 ("unknown provider: " ++ rb_Provider rt);?
        collect_routes l (<[rb_Role rt := {| mr_Provider := rb_Provider rt; mr_Model := rb_Model rt |}]> routes)
  end.

Definition SetLLMRoutes (now : Z) (uid : UUID) (request : option RoutesBody) : REPLY := respond (
  req ←? require request 400 "invalid request body";
  routes ←? collect_routes (rs_Routes req) ∅;
  SetRoutes now routes;;
  (match rs_RoutesEnabled req with
   | None => mret tt
   | Some enabled =>
       change (SetRoutesEnabled enabled);;
       ignoring (on_config (statement <["llm_routes_enabled" := if enabled then "true" else "false"]>))
   end);;
  user_set now uid "llm.routes" (routes_json routes);;
  ok (writeJSON 200 (BRoutesSet (Z.of_nat (size routes))))).

Definition test_request : CompletionRequest :=
  internal_request [{| ms_Role := "user"; ms_Content := "Respond with exactly: OK"; ms_Name := "";
                       ms_ToolCallID := ""; ms_ToolCalls := [] |}] [] "" 10 "" "".

Definition TestLLMProvider (now : Z) (uid : UUID) (request : option (string * ConfigureBody))
    : REPLY := respond (
  p ←? require request 400 "invalid request body";
  let '(provider, req) := p : string * ConfigureBody in
  known ← look (GetProvider provider);
  require known 404 (not_found provider);?
  (if String.eqb (cf_APIKey req) "" then mret tt
   else writes (record (Given uid (api_key_name provider) (cf_APIKey req)));;
        UpdateAPIKey now provider (cf_APIKey req);; mret tt);;
  (if String.eqb (cf_Model req) "" then mret tt else UpdateModel now provider (cf_Model req);; mret tt);;
  (if String.eqb (cf_BaseURL req) "" then mret tt
   else writes (record (Given uid (base_url_name provider) (cf_BaseURL req)));;
        change (UpdateBaseURL provider (cf_BaseURL req)));;
  p ← look (GetProvider provider);
  b ←? require p 500 "nil pointer dereference";
  r ← ask b (fun n b => client_Complete n b test_request);
  ok (writeJSON 200 (BTested provider r))).

(** The running models of Ollama are left out. *)
Definition GetLLMProviderStatus (provider : string) : REPLY := respond (
  unless (String.eqb provider "") 400 "provider name required";?
  p ← look (GetProvider provider);
  b ←? require p 404 (not_found provider);
  healthy ← ask b client_Healthy;
  models ← ask b client_ListModels;
  meta ← look (GetMeta provider);
  ok (writeJSON 200 (BStatus provider healthy models
    ((fun m => (pm_Configured m, pm_BaseURL m, pm_DefaultModel m)) <$> meta)))).

Definition StreamLLMCompletion (request : result CompletionRequest string) : REPLY := respond (
  req ←? or_reply (mret request) (fun e => writeError 400 ("invalid request body: " ++ e));
  unless (List.length (cq_Messages req) =? 0)%nat 400 "messages array is required";?
  chunks ←? or_reply (StreamComplete req) (fun e => writeError 502 ("LLM streaming error: " ++ e));
  ok (writeJSON 200 (BChunks chunks))).

Definition HandleComplete (request : option LLMCompleteRequest) : REPLY := respond (
  req ←? require request 400 "invalid request body";
  resp ←? or_reply (proxy_Complete req) (writeError 502);
  ok (writeJSON 200 (BCompletion resp))).

Definition HandleProbe (request : option ProbeRequest) : REPLY := respond (
  req ←? require request 400 "invalid request body";
  unless (List.length (pr_Messages req) =? 0)%nat 400 "messages array is required";?
  resp ←? or_reply (ProbeMultiple req) (writeError 502);
  ok (writeJSON 200 (BProbe resp))).

(** ** The start of the server ([main.go]) *)

(** The environment and the configuration: keys by provider, models and addresses by provider, the
    primary, the routes and the matrix. *)
Record LLMConfig := {
  lm_envKeys : string -> string;
  lm_models : string -> string;
  lm_urls : string -> string;
  lm_Primary : string;
  lm_Timeout : Z;
  lm_Routes : gmap string ModelRoute;
  lm_PriorityMatrix : gmap string (list ProviderPriority)
}.

Definition cfgURL (cfg : LLMConfig) (name fallback : string) : string :=
  or_default (lm_urls cfg name) fallback.
Definition cfgModel (cfg : LLMConfig) (name fallback : string) : string :=
  or_default (lm_models cfg name) fallback.

Definition meta_of (display url model key : string) (configured requires : bool) : ProviderMeta :=
  {| pm_DisplayName := display; pm_BaseURL := url; pm_DefaultModel := model;
     pm_Configured := configured; pm_RequiresKey := requires; pm_APIKey := key |}.

Definition start_provider (cfg : LLMConfig) (name display url model : string) (r : Registry) : Registry :=
  let url := cfgURL cfg name url in
  let model := cfgModel cfg name model in
  let ollama := String.eqb name "ollama" in
  let key := if ollama then "" else lm_envKeys cfg name in
  match recreated name key url model (lm_Timeout cfg) with
  | None => r
  | Some b =>
      RegisterWithMeta b (meta_of display url model key
        (ollama || negb (String.eqb key "")) (negb ollama)) r
  end.

Definition start_registry (cfg : LLMConfig) : Registry :=
  let r := SetTimeout (lm_Timeout cfg) NewRegistry in
  let r := start_provider cfg "openai" "OpenAI" "https://api.openai.com/v1" "gpt-4o" r in
  let r := start_provider cfg "anthropic" "Anthropic" "https://api.anthropic.com/v1"
             "claude-sonnet-4-20250514" r in
  let r := start_provider cfg "gemini" "Google Gemini"
             "https://generativelanguage.googleapis.com/v1beta" "gemini-2.5-flash" r in
  let r := start_provider cfg "grok" "Grok (xAI)" "https://api.x.ai/v1" "grok-3-mini" r in
  let r := start_provider cfg "ollama" "Ollama (Local)" "http://localhost:11434" "llama3.1:8b" r in
  if String.eqb (lm_Primary cfg) "" then r else set_primary (lm_Primary cfg) r.

Definition default_routes : gmap string ModelRoute :=
  let anthropic := {| mr_Provider := "anthropic"; mr_Model := "" |} in
  {["orchestrator" := anthropic; "architect" := anthropic; "security" := anthropic;
    "senior_dev" := anthropic]}.

Definition configured (name : string) (r : Registry) : bool :=
  match GetMeta name r with Some m => pm_Configured m | None => false end.

(** [found] is the answer of [FindUsersWithLLMKeys]. *)
Definition start (now : Z) (cfg : LLMConfig) (found : result (list UUID) string) : GW unit :=
  change (fun _ => start_registry cfg);;
  (match keychain, found with
   | true, Ok (uid :: _) => change (SetVault uid);; LoadFromVault now;; mret tt
   | _, _ => mret tt
   end);;
  enabled ← on_config (query (fun c => default "" (c !! "llm_routes_enabled")));
  (match enabled with
   | Ok v => change (SetRoutesEnabled (String.eqb v "true"))
   | Err _ => mret tt
   end);;
  routes ← look GetRoutes;
  anthropic ← look (configured "anthropic");
  openai ← look (GetMeta "openai");
  (if negb (bool_decide (routes = ∅)) then mret tt
   else if negb (bool_decide (lm_Routes cfg = ∅)) then SetRoutes now (lm_Routes cfg)
   else if anthropic && bool_decide (is_Some openai) then SetRoutes now default_routes
   else mret tt);;
  (if bool_decide (lm_PriorityMatrix cfg = ∅) then mret tt
   else change (SetPriorityMatrix (lm_PriorityMatrix cfg))).

(** ** Everything that runs *)

Inductive LlmRequest :=
  | RqProviders | RqConfigure (provider : string) (b : option ConfigureBody)
  | RqPrimary (provider : option string) | RqRoutes | RqSetRoutes (b : option RoutesBody)
  | RqTest (b : option (string * ConfigureBody)) | RqStatus (provider : string)
  | RqStream (r : result CompletionRequest string) | RqComplete (r : option LLMCompleteRequest)
  | RqProbe (r : option ProbeRequest).

Definition llm_serve (now : Z) (uid : UUID) (r : LlmRequest) : REPLY :=
  match r with
  | RqProviders => ListLLMProviders now uid
  | RqConfigure provider b => ConfigureLLMProvider now uid provider b
  | RqPrimary provider => SetPrimaryLLMProvider now uid provider
  | RqRoutes => GetLLMRoutes
  | RqSetRoutes b => SetLLMRoutes now uid b
  | RqTest b => TestLLMProvider now uid b
  | RqStatus provider => GetLLMProviderStatus provider
  | RqStream r => StreamLLMCompletion r
  | RqComplete r => HandleComplete r
  | RqProbe r => HandleProbe r
  end.

(** A request of a user or an agent, a secret a user stores through the keychain, or a start. *)
Inductive LlmEvent :=
  | EvRequest (now : Z) (uid : UUID) (r : LlmRequest)
  | EvSecret (now : Z) (uid : UUID) (name value : string)
  | EvStart (now : Z) (cfg : LLMConfig) (found : result (list UUID) string).

(** A start is one of a process; the rest is served by a process that runs. *)
Definition llm_step (g : Gateway V) (x : LlmEvent * list bool) : Gateway V :=
  match x.1 with
  | EvStart now cfg found => tables (start now cfg found (MkRun (put_up true g) x.2)).2
  | EvRequest now uid r => if gw_up g then tables (llm_serve now uid r (MkRun g x.2)).2 else g
  | EvSecret now uid name value =>
      if gw_up g then
        tables ((writes (record (Given uid name value));;
                 on_vault (ss_Set (storeFor now uid) name value)) (MkRun g x.2)).2
      else g
  end.

Definition llm_run (events : list (LlmEvent * list bool)) (g : Gateway V) : Gateway V :=
  fold_left llm_step events g.

End gateway.
