(* ===== verification/LlmSafety.v ===== *)
(** * What the registry of language models guarantees, and what it does not

    A provider is only ever asked with the key of the environment or with one that a user has
    handed in for that provider, whatever the requests, the stores and the failures.  [Complete]
    asks a prefix of the usable providers, each once, and answers when one of them does.  The
    address of a provider is anybody's to set and takes the next key along; every switch of the
    primary takes one fallback away for good. *)

From Stdlib Require Import ZArith Lia Ascii String.
From stdpp Require Import base list gmap strings sorting.
From S2P Require Import Prelude GoStrings SwarmDb Db GoFloat Redact Fingerprint Http Json KeychainCrypto KeychainStore Keychain KeychainExamples Vault VaultSafety ServerExamples McpLimits Llm.
Local Open Scope string_scope.
Local Open Scope rtv_scope.
Local Open Scope Z_scope.

(** ** Names of secrets *)

Lemma api_key_name_inj p q : api_key_name p = api_key_name q -> p = q.
Proof.
  unfold api_key_name. intros E. apply (inj (append "llm.")) in E.
  apply (f_equal string_rev) in E. rewrite !string_rev_app in E.
  apply (inj (append _)) in E. by rewrite <- (string_rev_rev p), E, string_rev_rev.
Qed.

(** No name with another end is that of a key. *)
Lemma not_api_key s p : string_rev s <> string_rev (api_key_name p) -> s <> api_key_name p.
Proof. by intros Hne ->. Qed.
Lemma model_not_key p q : model_name p <> api_key_name q.
Proof. apply not_api_key. unfold model_name, api_key_name. rewrite !string_rev_app. intros E. discriminate E. Qed.
Lemma url_not_key p q : base_url_name p <> api_key_name q.
Proof. apply not_api_key. unfold base_url_name, api_key_name. rewrite !string_rev_app. intros E. discriminate E. Qed.
Lemma primary_not_key q : "llm.primary" <> api_key_name q.
Proof. apply not_api_key. unfold api_key_name. rewrite !string_rev_app. intros E. discriminate E. Qed.
Lemma routes_not_key q : "llm.routes" <> api_key_name q.
Proof. apply not_api_key. unfold api_key_name. rewrite !string_rev_app. intros E. discriminate E. Qed.

Lemma split_dots_nonempty cur s : split_dots cur s <> [].
Proof. revert cur. induction s as [|a s IH]; intros cur; cbn; [done|]. by destruct (Ascii.eqb a "."). Qed.

Lemma split_dots_one cur s x : split_dots cur s = [x] -> x = cur ++ s.
Proof.
  revert cur. induction s as [|a s IH]; intros cur E; cbn in E.
  - injection E as ->. by rewrite string_app_nil_r.
  - destruct (Ascii.eqb a "."); [injection E as _ E; by apply split_dots_nonempty in E|].
    by rewrite (IH _ E), string_app_assoc.
Qed.

Lemma split_dots_two cur s x y : split_dots cur s = [x; y] -> cur ++ s = x ++ "." ++ y.
Proof.
  revert cur. induction s as [|a s IH]; intros cur E; cbn in E; [done|].
  destruct (Ascii.eqb_spec a ".") as [->|Hne].
  - injection E as <- E. apply split_dots_one in E as ->. done.
  - rewrite <- (IH _ E), string_app_assoc. done.
Qed.

(** A name of three parts with the prefix is built of its parts. *)
Lemma split_api_key k x p : HasPrefix k "llm." = true -> splitVaultKey k = [x; p; "api_key"] -> k = api_key_name p.
Proof.
  intros (s & ->)%HasPrefix_spec E. change (splitVaultKey ("llm." ++ s)) with ("llm" :: split_dots "" s) in E.
  injection E as _ E. apply split_dots_two in E. cbn in E. subst s. done.
Qed.

(** ** The trace *)

(** A user has handed in the value under the name. *)
Definition given (tr : list LlmAct) (name value : string) : Prop :=
  exists u, Given u name value ∈ tr.

Section safety.
Context `{RowOrder} `{FoldTables} `{Clients}.
Context {V : Type} (storeFor : Z -> UUID -> SecretStore V) `{!KeepsSecrets storeFor}.
Variables (keychain : bool) (sanitize : string -> string -> string) (wsHub : bool).
Hypothesis names_legal : forall s, legal ("llm." ++ s).
(** The keys of the environment, by provider. *)
Variable env : string -> string -> Prop.

Definition key_ok (tr : list LlmAct) (name key : string) : Prop :=
  key = "" \/ env name key \/ given tr (api_key_name name) key.
Definition backend_ok (tr : list LlmAct) (b : Backend) : Prop := key_ok tr (bk_Name b) (bk_APIKey b).

Definition trace_ok (tr : list LlmAct) : Prop :=
  forall pre b post, tr = (pre ++ Asked b :: post)%list -> backend_ok pre b.

Definition registry_ok (tr : list LlmAct) (r : Registry) : Prop :=
  forall name b, rg_providers r !! name = Some b -> bk_Name b = name /\ backend_ok tr b.

Definition supplied (tr : list LlmAct) (u : UUID) (k v : string) : Prop :=
  forall p, k = api_key_name p -> given tr k v.

Record gateway_ok (g : Gateway V) : Prop := {
  go_registry : registry_ok (gw_trace g) (gw_registry g);
  go_vault : within (supplied (gw_trace g)) (gw_vault g);
  go_trace : trace_ok (gw_trace g)
}.

(** The same with the trace that was read. *)
Definition at_trace (tr : list LlmAct) (g : Gateway V) : Prop := gateway_ok g /\ gw_trace g = tr.

Lemma given_app tr a k v : given tr k v -> given (tr ++ [a])%list k v.
Proof. intros [u Hu]. exists u. apply elem_of_app. by left. Qed.
Lemma key_ok_app tr a n k : key_ok tr n k -> key_ok (tr ++ [a])%list n k.
Proof. intros [?|[?|?]]; unfold key_ok; auto using given_app. Qed.

Lemma asked_snoc tr a :
  trace_ok tr -> (forall b, a = Asked b -> backend_ok tr b) -> trace_ok (tr ++ [a])%list.
Proof.
  intros Ht Ha pre b post E. destruct post as [|c post _] using rev_ind.
  - apply app_inj_tail in E as [-> ->]. by apply Ha.
  - rewrite app_comm_cons, app_assoc in E. apply app_inj_tail in E as [-> _]. by eapply Ht.
Qed.

Lemma gateway_ok_record g a :
  gateway_ok g -> (forall b, a = Asked b -> backend_ok (gw_trace g) b) -> gateway_ok (record a g).
Proof.
  intros [Hr Hv Ht] Ha. split; cbn.
  - intros n b Hb. destruct (Hr n b Hb). split; [done|by apply key_ok_app].
  - eapply within_mono; [|exact Hv]. intros u k v Hs p Hp. by apply given_app, (Hs p).
  - by apply asked_snoc.
Qed.

Lemma ensures_at {A} (m : DB (Gateway V) A) Q :
  (forall tr, ensures (at_trace tr) m Q) -> ensures gateway_ok m Q.
Proof. intros Hm r Hr. by apply (Hm (gw_trace (tables r))). Qed.
Lemma at_stays {A} (m : DB (Gateway V) A) :
  (forall tr, stays (at_trace tr) m) -> stays gateway_ok m.
Proof. intros Hm. apply ensures_at. intros tr r Hr. by destruct (Hm tr r Hr). Qed.
Lemma at_weaken {A} tr (m : DB (Gateway V) A) :
  stays (at_trace tr) m -> ensures (at_trace tr) m (fun _ => gateway_ok).
Proof. intros Hm. eapply ensures_conseq; [exact Hm|done|]. by intros a g []. Qed.

(** *** Steps that leave the trace *)

Section steps.
Variable tr : list LlmAct.
Notation I := (at_trace tr).

Lemma change_step f :
  (forall r, registry_ok tr r -> registry_ok tr (f r)) -> stays I (change (V := V) f).
Proof.
  intros Hf. apply stays_writes. intros g [[Hr Hv Ht] <-]. split; [|done]. split; [|done..].
  by apply Hf.
Qed.

Lemma look_step {A} (f : Registry -> A) : stays I (look (V := V) f).
Proof. apply stays_reads. Qed.

Lemma config_step {A} (m : DB (gmap string string) A) : stays I (on_config (V := V) m).
Proof.
  apply (stays_zoom _ _ I (fun _ => True)); [done| |by intros r]. intros g c [[Hr Hv Ht] <-] _.
  split; [|done]. by split.
Qed.

Lemma on_vault_stays {A} (m : DB V A) (Q : A -> Prop) :
  ensures (within (supplied tr)) m (fun x v => within (supplied tr) v /\ Q x) ->
  ensures I (on_vault m) (fun x g => I g /\ Q x).
Proof.
  intros Hm [g fs] [[Hr Hv Ht] Htr]. unfold on_vault, zoom. cbn in *. rewrite Htr in *.
  specialize (Hm (MkRun (gw_vault g) fs) Hv). destruct (m _) as [a [v fs']]. cbn in *.
  destruct Hm as [Hw HQ]. split; [|done]. split; [|done]. split; cbn; by rewrite ?Htr.
Qed.

Lemma vault_Get now u s :
  ensures I (on_vault (ss_Get (storeFor now u) ("llm." ++ s)))
    (fun x g => I g /\ forall v, x = Ok v -> v = "" \/ supplied tr u ("llm." ++ s) v).
Proof. apply on_vault_stays, Get_within, names_legal. Qed.

Lemma stored_step now u name value :
  legal name -> supplied tr u name value -> stays I (on_vault (ss_Set (storeFor now u) name value)).
Proof.
  intros Hl Hs. eapply ensures_conseq; [apply (on_vault_stays _ (fun _ => True))|done|by intros x g []].
  eapply ensures_conseq; [by apply (Set_within (supplied tr))|done|]. by split.
Qed.

Lemma vault_set_step now s value :
  (forall u, supplied tr u ("llm." ++ s) value) -> stays I (vault_set storeFor now ("llm." ++ s) value).
Proof.
  intros Hs. apply stays_bind; [apply look_step|]. intros [u|]; [|apply stays_ret].
  apply stays_ignoring, stored_step; [apply names_legal|done].
Qed.

Lemma vault_delete_step now s : stays I (vault_delete storeFor now ("llm." ++ s)).
Proof.
  apply stays_bind; [apply look_step|]. intros [u|]; [|apply stays_ret]. apply stays_ignoring.
  eapply ensures_conseq; [apply (on_vault_stays _ (fun _ => True))|done|by intros x g []].
  eapply ensures_conseq; [apply (Delete_within (supplied tr)), names_legal|done|]. by split.
Qed.

Lemma user_set_step now uid s value :
  supplied tr uid ("llm." ++ s) value -> stays I (user_set storeFor keychain now uid ("llm." ++ s) value).
Proof.
  intros Hs. unfold user_set. destruct keychain; [|apply stays_ret].
  apply stays_ignoring, stored_step; [apply names_legal|done].
Qed.

Lemma supplied_other u k v : (forall p, k <> api_key_name p) -> supplied tr u k v.
Proof. intros Hk p E. by destruct (Hk p). Qed.
Lemma supplied_key u p v : given tr (api_key_name p) v -> supplied tr u (api_key_name p) v.
Proof. by intros Hg q _. Qed.

(** *** The registry *)

Lemma same_providers f :
  (forall r, rg_providers (f r) = rg_providers r) -> stays I (change (V := V) f).
Proof. intros Hf. apply change_step. intros r Hr n b. rewrite Hf. apply Hr. Qed.

Lemma recreated_ok name key url model timeout b :
  recreated name key url model timeout = Some b ->
  bk_Name b = name /\ (bk_APIKey b = "" \/ bk_APIKey b = key).
Proof.
  unfold recreated. intros E.
  repeat match type of E with
  | context [String.eqb name ?s] =>
      destruct (String.eqb_spec name s) as [->|_]; [injection E as <-; cbn; auto|]
  end.
  discriminate E.
Qed.

Lemma put_backend name b r :
  registry_ok tr r -> bk_Name b = name -> key_ok tr name (bk_APIKey b) ->
  registry_ok tr (put_providers <[name := b]> r).
Proof.
  intros Hr Hb Hk n b'. cbn. intros [[<- <-]|[_ Hb']]%lookup_insert_Some; [|by apply Hr].
  split; [done|]. unfold backend_ok. by rewrite Hb.
Qed.

Lemma UpdateKey_ok name key r :
  key_ok tr name key -> registry_ok tr r -> registry_ok tr (updateAPIKeyInternal name key r).2.
Proof.
  intros Hk Hr. unfold updateAPIKeyInternal. destruct (rg_meta r !! name) as [m|]; [|done].
  destruct (recreated _ _ _ _ _) as [b|] eqn:E; [|done]. apply recreated_ok in E as [Hb Hkey].
  apply put_backend; [done..|]. destruct Hkey as [->| ->]; [by left|done].
Qed.

Lemma ApplyModel_step name model : stays I (change (V := V) (ApplyModel name model)).
Proof. apply same_providers. intros r. unfold ApplyModel. by destruct (_ !! _). Qed.
Lemma ApplyBaseURL_step name url : stays I (change (V := V) (ApplyBaseURL name url)).
Proof. apply same_providers. intros r. unfold ApplyBaseURL. by destruct (_ !! _). Qed.

Lemma UpdateBaseURL_step name url : stays I (change (V := V) (UpdateBaseURL name url)).
Proof.
  apply change_step. intros r Hr. unfold UpdateBaseURL. destruct (_ !! _) as [m|]; [|done].
  destruct (String.eqb_spec name "ollama") as [->|_]; [|done].
  apply put_backend; [done..|]. by left.
Qed.

Lemma SetPrimary_step now name : stays I (SetPrimary storeFor now name).
Proof.
  apply stays_bind; [by apply same_providers|]. intros _. apply (vault_set_step now "primary").
  intros u. apply supplied_other, primary_not_key.
Qed.

Lemma SetRoutes_step now routes : stays I (SetRoutes storeFor now routes).
Proof.
  apply stays_bind; [by apply same_providers|]. intros _. apply stays_bind; [apply look_step|].
  intros m. case_bool_decide; [apply stays_ret|]. apply (vault_set_step now "routes").
  intros u. apply supplied_other, routes_not_key.
Qed.

Lemma UpdateAPIKey_step now name key :
  given tr (api_key_name name) key -> stays I (UpdateAPIKey storeFor now name key).
Proof.
  intros Hk. apply stays_bind; [apply look_step|]. intros known.
  apply stays_bind; [apply change_step; intros r; apply UpdateKey_ok; by right; right|]. intros _.
  destruct (negb known); [apply stays_ret|]. apply stays_bind; [|intros; apply stays_ret].
  destruct (String.eqb key ""); [apply (vault_delete_step now (name ++ ".api_key"))|].
  apply (vault_set_step now (name ++ ".api_key")). intros u. by apply supplied_key.
Qed.

Lemma UpdateModel_step now name model : stays I (UpdateModel storeFor now name model).
Proof.
  apply stays_bind; [apply look_step|]. intros known. destruct (negb known); [apply stays_ret|].
  apply stays_bind; [apply ApplyModel_step|]. intros _. apply stays_bind; [|intros; apply stays_ret].
  destruct (String.eqb model ""); [apply stays_ret|]. apply (vault_set_step now (name ++ ".model")).
  intros u. apply supplied_other. intros p. apply model_not_key.
Qed.

Lemma load_secret_ok u r kv :
  (kv.2 <> "" -> supplied tr u kv.1 kv.2) -> registry_ok tr r -> registry_ok tr (load_secret r kv).1.
Proof.
  intros Hs Hr. unfold load_secret. destruct (String.eqb kv.1 "llm.primary"); [by case_bool_decide|].
  destruct (HasPrefix kv.1 "llm.") eqn:Hp; [|done]. cbn [negb orb].
  destruct (_ <? 5)%nat; [done|]. destruct (splitVaultKey kv.1) as [|x [|p [|what []]]] eqn:Ek; try done.
  destruct (String.eqb_spec what "api_key") as [->|_].
  - apply split_api_key in Ek; [|done]. destruct (_ || _) eqn:Ee; [done|].
    apply orb_false_iff in Ee as [_ Hne%String.eqb_neq]. apply UpdateKey_ok; [|done].
    right; right. rewrite <- Ek. by apply (Hs Hne p).
  - destruct (String.eqb what "model"); [|done]. destruct (String.eqb _ ""); [done|].
    cbn. unfold ApplyModel. by destruct (_ !! _).
Qed.

Lemma load_secrets_ok u l r n :
  (forall k v, (k, v) ∈ l -> supplied tr u k v) -> registry_ok tr r ->
  registry_ok tr (fold_left (fun '(r, n) kv => let '(r, m) := load_secret r kv in (r, n + m)) l (r, n)).1.
Proof.
  revert r n. induction l as [|[k v] l IH]; intros r n Hl Hr; [done|]. cbn [fold_left].
  assert (registry_ok tr (load_secret r (k, v)).1) as Hr'.
  { apply (load_secret_ok u); [|done]. intros _. apply Hl. by left. }
  destruct (load_secret r (k, v)) as [r' m]. apply IH; [|done]. intros k' v' Hin. apply Hl. by right.
Qed.

Lemma LoadFromVault_step now : stays I (LoadFromVault storeFor now).
Proof.
  apply stays_bind; [apply look_step|]. intros [u|]; [|apply stays_ret].
  eapply (ensures_bind _ (fun x g => I g /\ forall m k v, x = Ok m -> m !! k = Some v -> supplied tr u k v)).
  { apply on_vault_stays, GetAll_within. }
  intros [m|e]; [|by apply ensures_ret; intros g []]. apply ensures_pure. intros Hm.
  apply stays_bind; [apply look_step|]. intros loaded. apply stays_bind.
  { apply change_step. intros r. apply (load_secrets_ok u). intros k v Hin%range_map_elem_of. by eapply Hm. }
  intros _. apply stays_bind.
  { eapply ensures_conseq; [apply (vault_Get now u "routes")|done|by intros x g []]. }
  intros [text|e]; (apply stays_bind; [|intros; apply stays_ret]); [|apply stays_ret].
  destruct (read_routes text) as [routes|]; [|apply stays_ret].
  case_bool_decide; [apply stays_ret|by apply same_providers].
Qed.

Lemma rehydrate_one_step now uid name : stays I (rehydrate_one storeFor now uid name).
Proof.
  apply stays_bind; [apply look_step|]. intros [m|]; [|apply stays_ret].
  destruct (pm_Configured m); [apply stays_ret|].
  eapply ensures_bind; [apply (vault_Get now uid (name ++ ".api_key"))|].
  intros [key|e]; [|by apply ensures_ret; intros g []]. apply ensures_pure. intros Hk.
  destruct (String.eqb_spec key "") as [|Hne]; [apply stays_ret|].
  assert (given tr (api_key_name name) key) as Hg.
  { destruct (Hk key eq_refl) as [|Hs]; [done|]. by apply (Hs name). }
  apply stays_bind; [eapply ensures_conseq; [apply (vault_Get now uid (name ++ ".model"))|done|by intros x g []]|].
  intros model. apply stays_bind.
  { destruct model; [case_match; [apply stays_ret|apply ApplyModel_step]|apply stays_ret]. }
  intros _. apply stays_bind; [eapply ensures_conseq; [apply (vault_Get now uid (name ++ ".base_url"))|done|by intros x g []]|].
  intros url. apply stays_bind.
  { destruct url; [case_match; [apply stays_ret|apply ApplyBaseURL_step]|apply stays_ret]. }
  intros _. apply change_step. intros r. apply UpdateKey_ok. by right; right.
Qed.

Lemma rehydrate_step now uid : stays I (rehydrateLLMFromKeychain storeFor keychain now uid).
Proof.
  unfold rehydrateLLMFromKeychain. destruct keychain; [|apply stays_ret]. cbn [negb].
  apply stays_bind; [apply look_step|]. intros names. apply stays_bind.
  { apply ensures_every. intros n _. apply rehydrate_one_step. }
  intros _. apply stays_bind; [eapply ensures_conseq; [apply (vault_Get now uid "primary")|done|by intros x g []]|].
  intros [primary|e]; [|apply stays_ret]. apply stays_bind; [apply look_step|].
  intros [b|]; [|apply stays_ret]. destruct (String.eqb primary ""); [apply stays_ret|apply SetPrimary_step].
Qed.

Lemma start_registry_ok cfg :
  (forall name, env name (lm_envKeys cfg name)) -> registry_ok tr (start_registry cfg).
Proof.
  intros He.
  assert (forall name display url model r, registry_ok tr r ->
    registry_ok tr (start_provider cfg name display url model r)) as Hp.
  { intros name display url model r Hr. unfold start_provider.
    destruct (recreated _ _ _ _ _) as [b|] eqn:E; [|done]. apply recreated_ok in E as [Hb Hk].
    assert (registry_ok tr (put_providers <[bk_Name b := b]> r)) as Hr'.
    { apply put_backend; [done..|]. rewrite Hb.
      destruct Hk as [->|Hk]; [by left|]. rewrite Hk. case_match; [by left|right; left; apply He]. }
    unfold RegisterWithMeta, Register. destruct (String.eqb (rg_primary _) ""); exact Hr'. }
  unfold start_registry. set (r := start_provider cfg "ollama" _ _ _ _).
  assert (registry_ok tr r) by (unfold r; do 5 apply Hp; intros n b Hb; cbn in Hb;
    by apply lookup_empty_Some in Hb). by case_match.
Qed.

End steps.

(** *** Requests of providers *)

(** The provider in hand may be asked. *)
Definition holding (b : Backend) (g : Gateway V) : Prop := gateway_ok g /\ backend_ok (gw_trace g) b.
Definition holding_opt (o : option Backend) (g : Gateway V) : Prop :=
  match o with Some b => holding b g | None => gateway_ok g end.

Lemma ask_step {A} b (client : nat -> Backend -> A) : stays (holding b) (ask b client).
Proof.
  apply stays_bind; [apply stays_reads|]. intros n. apply stays_bind; [|intros; apply stays_ret].
  apply stays_writes. intros g [Hg Hb]. split; [|by apply key_ok_app].
  apply gateway_ok_record; [done|]. by intros b' [= <-].
Qed.

Lemma holding_ok {A} b (m : DB (Gateway V) A) :
  stays (holding b) m -> ensures (holding b) m (fun _ => gateway_ok).
Proof. intros Hm. eapply ensures_conseq; [exact Hm|done|]. by intros a g []. Qed.

Lemma look_provider (f : Registry -> option Backend) :
  (forall r b, f r = Some b -> exists n, rg_providers r !! n = Some b) ->
  ensures gateway_ok (look f) holding_opt.
Proof.
  intros Hf. apply ensures_reads. intros g Hg. destruct (f (gw_registry g)) as [b|] eqn:E; [|done].
  split; [done|]. destruct (Hf _ _ E) as [n Hn]. by destruct (go_registry _ Hg _ _ Hn).
Qed.
Lemma look_GetProvider name : ensures gateway_ok (look (GetProvider name)) holding_opt.
Proof. apply look_provider. intros r b Hb. by exists name. Qed.
Lemma look_usable e : ensures gateway_ok (look (usable e)) holding_opt.
Proof. apply look_provider. intros r b. unfold usable. case_match; [done|]. intros Hb. by exists (re_Provider e). Qed.

(** Asking, and what follows. *)
Lemma ensures_ask {A B} b (client : nat -> Backend -> A) (k : A -> DB (Gateway V) B) :
  (forall a, ensures (holding b) (k a) (fun _ => gateway_ok)) ->
  ensures (holding b) (ask b client ≫= k) (fun _ => gateway_ok).
Proof. apply ensures_bind, ask_step. Qed.
Lemma ensures_held {A} b (m : DB (Gateway V) A) :
  stays gateway_ok m -> ensures (holding b) m (fun _ => gateway_ok).
Proof. intros Hm. eapply ensures_conseq; [exact Hm| |done]. by intros g []. Qed.

Lemma ensures_stream {B} b req (k : result (list StreamChunk) string -> DB (Gateway V) B) :
  (forall a, stays gateway_ok (k a)) ->
  ensures (holding b) (ask_stream b req ≫= k) (fun _ => gateway_ok).
Proof.
  intros Hk. eapply ensures_bind; [|apply Hk]. unfold ask_stream. apply ensures_ask.
  intros [s|e]; apply ensures_held; [|apply stays_ret]. apply stays_bind; [|intros; apply stays_ret].
  apply stays_writes. intros g [Hr Hv Ht]. by destruct (st_Panics s); split.
Qed.

Lemma try_order_step req order lastErr : stays gateway_ok (try_order req order lastErr).
Proof.
  revert lastErr. induction order as [|e order IH]; intros lastErr; cbn.
  { destruct lastErr; apply stays_ret. }
  eapply ensures_bind; [apply look_usable|]. intros [b|]; [|apply IH]. apply ensures_ask.
  intros [resp|err]; apply ensures_held; [|apply IH]. case_match; [apply IH|apply stays_ret].
Qed.
Lemma Complete_step req : stays gateway_ok (Complete req).
Proof. apply stays_bind; [apply stays_reads|]. intros order. apply try_order_step. Qed.

Lemma try_streams_step req names : stays gateway_ok (try_streams req names).
Proof.
  induction names as [|n names IH]; [apply stays_ret|]. cbn.
  eapply ensures_bind; [apply look_GetProvider|]. intros [b|]; [|apply IH]. apply ensures_stream.
  intros [chunks|err]; [apply stays_ret|apply IH].
Qed.
Lemma StreamComplete_step req : stays gateway_ok (StreamComplete req).
Proof.
  apply stays_bind; [apply stays_reads|]. intros names.
  apply stays_bind; [apply try_streams_step|]. intros [chunks|]; [apply stays_ret|].
  apply stays_try; [apply Complete_step|]. intros; apply stays_ret.
Qed.

Lemma proxy_step req : stays gateway_ok (proxy_Complete req).
Proof. apply stays_try; [apply stays_wrapping, Complete_step|]. intros; apply stays_ret. Qed.

Lemma probe_one_step req e : stays gateway_ok (probe_one sanitize wsHub req e).
Proof.
  eapply ensures_bind; [apply look_GetProvider|]. intros [b|]; [|apply stays_ret].
  cbn zeta. case_match; [apply ensures_stream|apply ensures_ask]; intros; [|apply ensures_held]; apply stays_ret.
Qed.
Lemma ProbeMultiple_step req : stays gateway_ok (ProbeMultiple sanitize wsHub req).
Proof.
  apply stays_bind; [apply stays_reads|]. intros order.
  assert (stays gateway_ok (probe_all sanitize wsHub req order)) as Hall.
  { induction order as [|e order IH]; [apply stays_ret|]. cbn. apply stays_bind; [apply probe_one_step|].
    intros r. apply stays_bind; [apply IH|]. intros; apply stays_ret. }
  destruct order; [apply stays_ret|]. apply stays_bind; [apply Hall|]. intros; apply stays_ret.
Qed.

Lemma provider_infos_step names : stays gateway_ok (provider_infos names).
Proof.
  induction names as [|n names IH]; [apply stays_ret|]. cbn. apply stays_bind.
  - eapply ensures_bind; [apply look_GetProvider|]. intros o. eapply (ensures_bind _ (fun _ => holding_opt o)).
    { by apply ensures_reads. }
    intros meta. destruct o as [b|]; [|apply stays_ret]. apply ensures_ask. intros healthy.
    apply ensures_ask. intros models. apply ensures_held, stays_ret.
  - intros i. apply stays_bind; [apply IH|]. intros; apply stays_ret.
Qed.

(** *** Endpoints *)

(** A value that is handed in, and what is done with it. *)
Lemma given_step {A} u name value (m : DB (Gateway V) A) :
  (forall tr, given tr name value -> stays (at_trace tr) m) ->
  stays gateway_ok (writes (record (Given u name value));; m).
Proof.
  intros Hm. apply ensures_at. intros tr. eapply (ensures_bind _ (fun _ => at_trace (tr ++ [Given u name value])%list)).
  - apply ensures_writes. intros g [Hg <-]. split; [|done]. by apply gateway_ok_record.
  - intros _. apply at_weaken, Hm. exists u. apply elem_of_app. right. by left.
Qed.

Lemma answer_held {A} provider (client : nat -> Backend -> A) (reply : A -> Response LlmBody) :
  stays gateway_ok (p ← look (V := V) (GetProvider provider);
    b ←? require (B := LlmBody) p 500 "nil pointer dereference";
    a ← ask b client; ok (reply a)).
Proof.
  eapply ensures_bind; [apply look_GetProvider|]. intros [b|]; [|apply stays_ret].
  apply ensures_ask. intros a. apply ensures_held, stays_ret.
Qed.

(** The blocks of a request that store what it carries. *)
Lemma new_key_step now uid provider key :
  stays gateway_ok (writes (record (Given uid (api_key_name provider) key));;
    updated ← UpdateAPIKey storeFor now provider key;
    unless (B := LlmBody) (negb updated) 500 "failed to update API key";?
    user_set storeFor keychain now uid (api_key_name provider) key;; ok tt).
Proof.
  apply given_step. intros tr Hg. apply stays_bind; [by apply UpdateAPIKey_step|]. intros updated.
  apply stays_try; [apply stays_unless|]. intros _. apply stays_bind; [|intros; apply stays_ret].
  apply (user_set_step tr now uid (provider ++ ".api_key")). by apply supplied_key.
Qed.

Lemma new_model_step now uid provider model :
  stays gateway_ok (UpdateModel storeFor now provider model;;
    user_set storeFor keychain now uid (model_name provider) model).
Proof.
  apply at_stays. intros tr. apply stays_bind; [apply UpdateModel_step|]. intros _.
  apply (user_set_step tr now uid (provider ++ ".model")), supplied_other. intros p. apply model_not_key.
Qed.

Lemma new_url_step now uid provider url :
  stays gateway_ok (writes (record (Given uid (base_url_name provider) url));;
    change (UpdateBaseURL provider url);;
    user_set storeFor keychain now uid (base_url_name provider) url).
Proof.
  apply given_step. intros tr _. apply stays_bind; [apply UpdateBaseURL_step|]. intros _.
  apply (user_set_step tr now uid (provider ++ ".base_url")), supplied_other. intros p. apply url_not_key.
Qed.

(** Steps in front of a step. *)
Lemma stays_assoc {T A B C} (I : T -> Prop) (m : DB T A) (f : DB T B) (k : DB T C) :
  stays I ((m;; f);; k) -> stays I (m;; f;; k).
Proof.
  intros Hm r Hr. specialize (Hm r Hr). revert Hm. unfold mbind, DB_bind. by destruct (m r).
Qed.

Lemma ListLLMProviders_step now uid : stays gateway_ok (ListLLMProviders storeFor keychain now uid).
Proof.
  apply stays_bind; [apply stays_reads|]. intros names.
  apply stays_bind; [apply at_stays; intros; apply rehydrate_step|]. intros _.
  apply stays_bind; [apply provider_infos_step|]. intros infos. handler; apply stays_reads.
Qed.

Lemma Configure_step now uid provider req :
  stays gateway_ok (ConfigureLLMProvider storeFor keychain now uid provider req).
Proof.
  apply stays_respond. do 2 (apply stays_try; [auto with stays|]; intros ?).
  apply stays_bind; [apply stays_reads|]. intros known. apply stays_try; [apply stays_require|]. intros _.
  apply stays_try; [case_match; [apply stays_ret|apply new_key_step]|]. intros _.
  apply stays_try.
  { case_match; [apply stays_ret|]. apply stays_assoc.
    apply stays_bind; [apply new_model_step|]. intros; apply stays_ret. }
  intros _. apply stays_try; [|intros _; apply answer_held].
  case_match; [apply stays_ret|]. do 2 apply stays_assoc.
  apply stays_bind; [|intros; apply stays_ret]. apply new_url_step.
Qed.

Lemma collect_step l routes : stays gateway_ok (collect_routes l routes).
Proof.
  revert routes. induction l as [|rt l IH]; intros routes; [apply stays_ret|]. cbn.
  case_match; [apply IH|]. apply stays_bind; [apply stays_reads|]. intros known.
  apply stays_try; [apply stays_require|]. intros _. apply IH.
Qed.

Lemma SetPrimary_llm_step now uid req :
  stays gateway_ok (SetPrimaryLLMProvider storeFor keychain now uid req).
Proof.
  apply at_stays. intros tr. unfold SetPrimaryLLMProvider. handler.
  - apply look_step.
  - apply SetPrimary_step.
  - apply (user_set_step tr now uid "primary"), supplied_other, primary_not_key.
Qed.

Lemma SetLLMRoutes_step now uid req : stays gateway_ok (SetLLMRoutes storeFor keychain now uid req).
Proof.
  apply stays_respond. apply stays_try; [apply stays_require|]. intros body.
  apply stays_try; [apply collect_step|]. intros routes. apply at_stays. intros tr. handler.
  - apply SetRoutes_step.
  - by apply same_providers.
  - apply config_step.
  - apply (user_set_step tr now uid "routes"), supplied_other, routes_not_key.
Qed.

Lemma TestLLMProvider_step now uid req : stays gateway_ok (TestLLMProvider storeFor now uid req).
Proof.
  apply stays_respond. apply stays_try; [apply stays_require|]. intros [provider body].
  apply stays_bind; [apply stays_reads|]. intros known. apply stays_try; [apply stays_require|]. intros _.
  apply stays_bind.
  { case_match; [apply stays_ret|]. apply given_step. intros tr Hg.
    apply stays_bind; [by apply UpdateAPIKey_step|]. intros; apply stays_ret. }
  intros _. apply stays_bind.
  { case_match; [apply stays_ret|]. apply at_stays. intros tr.
    apply stays_bind; [apply UpdateModel_step|]. intros; apply stays_ret. }
  intros _. apply stays_bind; [|intros _; apply answer_held].
  case_match; [apply stays_ret|]. apply given_step. intros tr _. apply UpdateBaseURL_step.
Qed.

Lemma Status_step provider : stays gateway_ok (GetLLMProviderStatus provider).
Proof.
  apply stays_respond. apply stays_try; [apply stays_unless|]. intros _.
  eapply ensures_bind; [apply look_GetProvider|]. intros [b|]; [|apply stays_ret].
  apply ensures_ask. intros healthy. apply ensures_ask. intros models.
  apply ensures_held, stays_bind; [apply stays_reads|]. intros; apply stays_ret.
Qed.

Lemma llm_serve_stays now uid r :
  stays gateway_ok (llm_serve storeFor keychain sanitize wsHub now uid r).
Proof.
  destruct r; cbn [llm_serve].
  - apply ListLLMProviders_step.
  - apply Configure_step.
  - apply SetPrimary_llm_step.
  - unfold GetLLMRoutes. handler; apply stays_reads.
  - apply SetLLMRoutes_step.
  - apply TestLLMProvider_step.
  - apply Status_step.
  - unfold StreamLLMCompletion. handler. apply StreamComplete_step.
  - unfold HandleComplete. handler. apply proxy_step.
  - unfold HandleProbe. handler. apply ProbeMultiple_step.
Qed.

Lemma start_step now cfg found :
  (forall name, env name (lm_envKeys cfg name)) ->
  stays gateway_ok (start storeFor keychain now cfg found).
Proof.
  intros He. apply at_stays. intros tr. unfold start.
  apply stays_bind; [apply change_step; intros; by apply start_registry_ok|]. intros _.
  apply stays_bind.
  { destruct keychain, found as [[|u l]|e]; try apply stays_ret.
    apply stays_bind; [by apply same_providers|]. intros _.
    apply stays_bind; [apply LoadFromVault_step|]. intros; apply stays_ret. }
  intros _. apply stays_bind; [apply config_step|]. intros enabled.
  apply stays_bind; [destruct enabled; [by apply same_providers|apply stays_ret]|]. intros _.
  do 3 (apply stays_bind; [apply look_step|]; intros ?). apply stays_bind.
  { repeat (case_match; try apply stays_ret); apply SetRoutes_step. }
  intros _. case_match; [apply stays_ret|by apply same_providers].
Qed.

Lemma event_step x g :
  match x.1 with
  | EvStart _ cfg _ => forall name, env name (lm_envKeys cfg name)
  | EvSecret _ _ name _ => legal name
  | _ => True
  end ->
  gateway_ok g -> gateway_ok (llm_step storeFor keychain sanitize wsHub g x).
Proof.
  destruct x as [[now uid r|now uid name value|now cfg found] fs]; intros Hx Hg; unfold llm_step; cbn [fst snd] in *.
  - destruct (gw_up g); [|done]. by apply (llm_serve_stays now uid r (MkRun g fs)).
  - destruct (gw_up g); [|done]. eapply (given_step uid name value (on_vault (ss_Set (storeFor now uid) name value))); [|exact Hg].
    intros tr Hgiven. apply stored_step; [done|]. by intros p _.
  - apply (start_step now cfg found Hx (MkRun (put_up true g) fs)). by destruct Hg as [Hr Hv Ht]; split.
Qed.

End safety.

Section theorems.
Context `{RowOrder} `{FoldTables} `{Clients}.
Context {V : Type} (storeFor : Z -> UUID -> SecretStore V).
Variables (keychain : bool) (sanitize : string -> string -> string) (wsHub : bool).
Notation run := (llm_run storeFor keychain sanitize wsHub).

Definition fresh_gateway (v : V) : Gateway V :=
  {| gw_registry := NewRegistry; gw_vault := v; gw_config := ∅; gw_trace := [];
     gw_up := false |}.

(** A server of the run was started with the key in its environment. *)
Definition environment_key (events : list (LlmEvent * list bool)) (name key : string) : Prop :=
  exists now cfg found fs, (EvStart now cfg found, fs) ∈ events /\ key = lm_envKeys cfg name.

(** C10: Whatever the requests, stored secrets, restarts and failures, a provider is only asked
    with no key, with the key that the environment has for it, or with one that some user had
    handed in before under the name of that provider's key; never with the key of another
    provider. *)
Theorem keys_are_supplied `{!KeepsSecrets storeFor} events v :
  (forall s, legal ("llm." ++ s)) ->
  within (fun _ _ _ => False) v ->
  Forall (fun x => match x.1 with EvSecret _ _ name _ => legal name | _ => True end) events ->
  forall pre b post, gw_trace (run events (fresh_gateway v)) = (pre ++ Asked b :: post)%list ->
    bk_APIKey b = "" \/ environment_key events (bk_Name b) (bk_APIKey b) \/
    given pre (api_key_name (bk_Name b)) (bk_APIKey b).
Proof.
  intros Hl Hv Hsecrets. set (env := environment_key events).
  assert (gateway_ok storeFor env (fresh_gateway v)) as Hok.
  { split; cbn.
    - intros n b Hb. change (rg_providers NewRegistry) with (∅ : gmap string Backend) in Hb.
      by apply lookup_empty_Some in Hb.
    - eapply within_mono; [|exact Hv]. done.
    - intros pre b post E. by destruct pre. }
  enough (gateway_ok storeFor env (run events (fresh_gateway v))) as Hend by apply (go_trace _ _ _ Hend).
  assert (forall x, x ∈ events -> match x.1 with
    | EvStart _ cfg _ => forall name, env name (lm_envKeys cfg name)
    | EvSecret _ _ name _ => legal name | _ => True end) as Hev.
  { intros [e fs] Hin. rewrite Forall_forall in Hsecrets. specialize (Hsecrets _ Hin).
    destruct e; try done. intros name. by exists now, cfg, found, fs. }
  clearbody env. clear Hsecrets. revert Hok. generalize (fresh_gateway v).
  induction events as [|x events IH]; intros g Hg; [done|]. cbn. apply IH.
  - intros y Hy. apply Hev. by right.
  - apply (event_step storeFor keychain sanitize wsHub Hl env); [|done]. apply Hev. by left.
Qed.

(** ** [Complete] *)

(** The entries that can be asked, with their providers. *)
Definition usable_entries (order : list RouteEntry) (r : Registry) : list (RouteEntry * Backend) :=
  omap (fun e => pair e <$> usable e r) order.

Definition asked_all (l : list (RouteEntry * Backend)) (g : Gateway V) : Gateway V :=
  {| gw_registry := gw_registry g; gw_vault := gw_vault g; gw_config := gw_config g;
     gw_trace := (gw_trace g ++ (Asked <$> l.*2))%list; gw_up := gw_up g |}.

(** As the [n]-th call the entry fails or is cut off. *)
Definition disappoints (req : CompletionRequest) (n : nat) (x : RouteEntry * Backend) : Prop :=
  match client_Complete n x.2 (with_model_of x.1 req) with
  | Err _ => True
  | Ok resp => truncated resp = true
  end.

Lemma asked_nil g : asked_all [] g = g.
Proof. destruct g. unfold asked_all. cbn. by rewrite app_nil_r. Qed.
Lemma asked_cons e b l g : asked_all ((e, b) :: l) g = asked_all l (record (Asked b) g).
Proof. unfold asked_all, record. cbn. by rewrite <- app_assoc. Qed.

Definition outcome (req : CompletionRequest) (order : list RouteEntry) (n : nat)
    (asked rest : list (RouteEntry * Backend)) (x : result CompletionResponse string) : Prop :=
  match x with
  | Ok resp => exists before e b, asked = (before ++ [(e, b)])%list /\
      client_Complete (n + List.length before) b (with_model_of e req) = Ok resp /\
      (truncated resp = true -> last order = Some e) /\
      forall i y, before !! i = Some y -> disappoints req (n + i) y
  | Err _ => rest = [] /\ forall i y, asked !! i = Some y -> disappoints req (n + i) y
  end.

Lemma outcome_skip req order n e rest asked x :
  outcome req order n asked rest x -> outcome req (e :: order) n asked rest x.
Proof.
  destruct x as [resp|err]; [|done]. intros (before & e' & b & E & Ha & Ht & Hb).
  exists before, e', b. split_and!; [done..| |done]. intros Htr. specialize (Ht Htr).
  rewrite last_cons. by rewrite Ht.
Qed.

Lemma outcome_cons req order n e b asked rest x :
  disappoints req n (e, b) -> outcome req order (S n) asked rest x ->
  outcome req (e :: order) n ((e, b) :: asked) rest x.
Proof.
  intros Hd Hx. apply (outcome_skip _ _ _ e) in Hx.
  assert (forall l, (forall i y, l !! i = Some y -> disappoints req (S n + i) y) ->
    forall i y, ((e, b) :: l) !! i = Some y -> disappoints req (n + i) y) as Hl.
  { intros l Hl [|i] y Hy; [injection Hy as <-; by rewrite Nat.add_0_r|].
    rewrite Nat.add_succ_r. by apply Hl. }
  destruct x as [resp|err].
  - destruct Hx as (before & e' & b' & -> & Ha & Ht & Hb). exists ((e, b) :: before), e', b'.
    split_and!; [done| |done|by apply Hl]. cbn. by rewrite Nat.add_succ_r.
  - destruct Hx as [-> Hx]. split; [done|by apply Hl].
Qed.

Lemma try_order_asks req order : forall lastErr g fs,
  exists asked rest x, try_order req order lastErr (MkRun g fs) = (x, MkRun (asked_all asked g) fs) /\
    usable_entries order (gw_registry g) = (asked ++ rest)%list /\
    outcome req order (List.length (gw_trace g)) asked rest x.
Proof.
  induction order as [|e order IH]; intros lastErr g fs.
  { exists [], [], (match lastErr with Some e => Err ("all providers failed: " ++ e) | None => Err ErrProviderNotFound end).
    rewrite asked_nil. split; [by destruct lastErr|]. split; [done|]. by destruct lastErr. }
  unfold usable_entries. cbn [try_order omap list_omap].
  rewrite (bind_run _ _ _ _ (MkRun g fs) (eq_refl : look (usable e) (MkRun g fs) = _)).
  cbn [tables]. destruct (usable e (gw_registry g)) as [b|] eqn:Eb; cbn [fmap option_fmap option_map].
  2: { destruct (IH lastErr g fs) as (asked & rest & x & E & Hu & Ho).
       exists asked, rest, x. split; [exact E|]. split; [exact Hu|]. by apply outcome_skip. }
  set (n := List.length (gw_trace g)). set (g' := record (Asked b) g).
  rewrite (bind_run _ _ _ _ (MkRun g' fs) (eq_refl : ask b (fun n b => client_Complete n b (with_model_of e req)) (MkRun g fs)
    = (client_Complete n b (with_model_of e req), _))).
  assert (List.length (gw_trace g') = S n) as Hlen by (cbn; rewrite length_app; cbn; lia).
  assert (forall lastErr, disappoints req n (e, b) ->
    exists asked rest x, try_order req order lastErr (MkRun g' fs) = (x, MkRun (asked_all asked g) fs) /\
      ((e, b) :: usable_entries order (gw_registry g)) = (asked ++ rest)%list /\
      outcome req (e :: order) n asked rest x) as Hnext.
  { intros lastErr' Hd. destruct (IH lastErr' g' fs) as (asked & rest & x & E & Hu & Ho).
    exists ((e, b) :: asked), rest, x. rewrite asked_cons. split; [exact E|]. split; [by cbn; f_equal|].
    rewrite Hlen in Ho. by apply outcome_cons. }
  destruct (client_Complete n b (with_model_of e req)) as [resp|err] eqn:Ec.
  2: { apply Hnext. unfold disappoints. cbn. by rewrite Ec. }
  destruct (truncated resp && _) eqn:Et.
  { apply Hnext. unfold disappoints. cbn. rewrite Ec. by apply andb_true_iff in Et as [? _]. }
  exists [(e, b)], (usable_entries order (gw_registry g)), (Ok resp).
  split; [rewrite asked_cons, asked_nil; done|]. split; [done|].
  exists [], e, b. split_and!; [done|by rewrite Nat.add_0_r| |by intros i y].
  intros Htr. rewrite Htr in Et. by destruct order.
Qed.

(** *** No provider comes twice *)

Lemma containsStr_spec l s : containsStr l s = true <-> s ∈ l.
Proof.
  unfold containsStr. rewrite existsb_exists, list_elem_of_In. split.
  - by intros (x & Hx & ->%String.eqb_eq).
  - intros Hs. exists s. split; [done|apply String.eqb_refl].
Qed.

Lemma append_unseen_NoDup names entries :
  NoDup (re_Provider <$> entries) -> NoDup (re_Provider <$> append_unseen names entries).
Proof.
  revert entries. induction names as [|n names IH]; intros entries He; [done|]. cbn. apply IH.
  destruct (containsStr _ n) eqn:En; [done|]. rewrite fmap_app. apply NoDup_app. split_and!; [done| |apply NoDup_singleton].
  intros x Hx ->%list_elem_of_singleton. apply not_true_iff_false in En. by apply En, containsStr_spec.
Qed.

Lemma routeOrder_NoDup role r : NoDup (re_Provider <$> routeOrder role r).
Proof.
  apply append_unseen_NoDup. unfold role_route.
  repeat case_match; try apply NoDup_nil_2; apply NoDup_singleton.
Qed.

Lemma usable_sublist order r :
  sublist (re_Provider <$> (usable_entries order r).*1) (re_Provider <$> order).
Proof.
  induction order as [|e order IH]; [done|]. cbn. destruct (usable e r); cbn; by constructor.
Qed.

(** C11: [Complete] changes nothing but the trace; it asks a prefix of the providers of the role's
    order that are registered and, if they need a key, have one, no provider twice.  It answers
    with what the last of them said, which is not cut off unless its entry is the last of all;
    it fails only when every usable provider was asked and failed or was cut off. *)
Theorem Complete_fails_over req g fs :
  let order := routeOrder (cq_AgentRole req) (gw_registry g) in
  exists asked rest x, Complete req (MkRun g fs) = (x, MkRun (asked_all asked g) fs) /\
    usable_entries order (gw_registry g) = (asked ++ rest)%list /\
    NoDup (re_Provider <$> asked.*1) /\
    Forall (fun y => unconfigured (re_Provider y.1) (gw_registry g) = false /\
                     rg_providers (gw_registry g) !! re_Provider y.1 = Some y.2) asked /\
    outcome req order (List.length (gw_trace g)) asked rest x.
Proof.
  intros order. destruct (try_order_asks req order None g fs) as (asked & rest & x & E & Hu & Ho).
  exists asked, rest, x. split; [exact E|]. split; [done|]. split_and!; [| |done].
  - assert (NoDup (re_Provider <$> (asked ++ rest)%list.*1)) as Hn.
    { rewrite <- Hu. eapply sublist_NoDup; [apply (routeOrder_NoDup (cq_AgentRole req) (gw_registry g))|].
      apply usable_sublist. }
    rewrite !fmap_app in Hn. by apply NoDup_app in Hn as [? _].
  - apply Forall_forall. intros [e b] Hin.
    assert ((e, b) ∈ usable_entries order (gw_registry g)) as Hin' by (rewrite Hu; apply elem_of_app; by left).
    unfold usable_entries in Hin'. apply list_elem_of_omap in Hin' as (e' & _ & He).
    unfold usable in He. cbn. destruct (unconfigured (re_Provider e') _) eqn:Eu; [done|].
    destruct (rg_providers _ !! _) as [b'|] eqn:Eb; [|done]. by injection He as <- <-.
Qed.

(** ** Steps that only read or write the stores *)

Definition on_parts (P : Registry -> list LlmAct -> bool -> Prop) (g : Gateway V) : Prop :=
  P (gw_registry g) (gw_trace g) (gw_up g).

Lemma vault_calm {A} P (m : DB V A) : stays (on_parts P) (on_vault m).
Proof. intros [g fs] Hg. unfold on_vault, zoom. cbn in *. by destruct (m _) as [a [v fs']]. Qed.

Lemma vault_set_calm P now name value : stays (on_parts P) (vault_set storeFor now name value).
Proof.
  apply stays_bind; [apply stays_reads|]. intros [u|]; [|apply stays_ret].
  apply stays_ignoring, vault_calm.
Qed.

Lemma user_set_calm P now u name value : stays (on_parts P) (user_set storeFor keychain now u name value).
Proof. unfold user_set. destruct keychain; [|apply stays_ret]. apply stays_ignoring, vault_calm. Qed.

Lemma ask_calm {A} (P : Registry -> bool -> Prop) b (client : nat -> Backend -> A) :
  stays (on_parts (fun r _ up => P r up)) (ask b client).
Proof.
  apply stays_bind; [apply stays_reads|]. intros n. apply stays_bind; [|intros; apply stays_ret].
  by apply stays_writes.
Qed.

(** ** The primary *)

Definition registry_is (r : Registry) : Gateway V -> Prop := on_parts (fun r' _ up => r' = r /\ up = true).

Lemma SetPrimary_switches now uid name r :
  is_Some (rg_providers r !! name) ->
  ensures (registry_is r) (SetPrimaryLLMProvider storeFor keychain now uid (Some name))
    (fun _ => registry_is (set_primary name r)).
Proof.
  intros [b Hb]. eapply (ensures_bind _ (fun _ => registry_is (set_primary name r))).
  2: { intros [a|e]; by apply ensures_ret. }
  cbn [require]. rewrite try_ok. eapply (ensures_bind _ (fun known g => registry_is r g /\ known = Some b)).
  { apply ensures_reads. intros g Hg. split; [done|]. destruct Hg as [Hg _]. rewrite Hg. exact Hb. }
  intros known. apply ensures_pure. intros ->. cbn [require]. rewrite try_ok.
  eapply (ensures_bind _ (fun _ => registry_is (set_primary name r))).
  { eapply (ensures_bind _ (fun _ => registry_is (set_primary name r))).
    - apply ensures_writes. intros g [Hg Hup]. split; [cbn; by rewrite Hg|done].
    - intros _. apply vault_set_calm. }
  intros _. eapply (ensures_bind _ (fun _ => registry_is (set_primary name r))).
  { apply user_set_calm. }
  intros _. by apply ensures_ret.
Qed.

Definition chosen (x : Z * UUID * string * list bool) : string := x.1.2.

(** Switches of users to one provider after the other. *)
Definition switches (l : list (Z * UUID * string * list bool)) : list (LlmEvent * list bool) :=
  (fun x => (EvRequest x.1.1.1 x.1.1.2 (RqPrimary (Some (chosen x))), x.2)) <$> l.

Lemma switches_registry l g :
  gw_up g = true -> (forall x, x ∈ l -> is_Some (rg_providers (gw_registry g) !! chosen x)) ->
  gw_registry (run (switches l) g) = fold_left (fun r x => set_primary (chosen x) r) l (gw_registry g).
Proof.
  revert g. induction l as [|[[[now uid] name] fs] l IH]; intros g Hup Hl; [done|].
  set (g' := llm_step storeFor keychain sanitize wsHub g (EvRequest now uid (RqPrimary (Some name)), fs)).
  assert (registry_is (set_primary name (gw_registry g)) g') as [E Hup'].
  { unfold g', llm_step. cbn [fst snd]. rewrite Hup.
    by apply (SetPrimary_switches now uid name (gw_registry g) (Hl _ ltac:(by left)) (MkRun g fs)). }
  change (run (switches ((now, uid, name, fs) :: l)) g) with (run (switches l) g').
  rewrite IH, E; [done|done|]. intros x Hx. rewrite E. apply Hl. by right.
Qed.

Lemma set_primaries_fallbacks {A} (f : A -> string) l r :
  rg_fallbacks (fold_left (fun r x => set_primary (f x) r) l r) =
    List.filter (fun n => negb (containsStr (f <$> l) n)) (rg_fallbacks r) /\
  rg_routesEnabled (fold_left (fun r x => set_primary (f x) r) l r) = rg_routesEnabled r /\
  (forall x, rg_primary (fold_left (fun r x => set_primary (f x) r) (l ++ [x])%list r) = f x).
Proof.
  split; [|split].
  - revert r. induction l as [|x l IH]; intros r; cbn [fold_left fmap list_fmap].
    + cbn. induction (rg_fallbacks r) as [|n l IH]; [done|]. cbn. by f_equal.
    + rewrite IH. unfold set_primary. cbn [put_primary rg_fallbacks].
      induction (rg_fallbacks r) as [|n fb IHf]; [done|]. cbn [List.filter containsStr existsb].
      destruct (String.eqb n (f x)); cbn [negb orb]; [done|]. cbn [List.filter].
      unfold containsStr at 1 2. destruct (existsb _ _); cbn [negb]; [done|]. by f_equal.
  - revert r. induction l as [|x l IH]; intros r; [done|]. cbn. by rewrite IH.
  - intros x. by rewrite fold_left_app.
Qed.

Lemma set_primaries_providers {A} (f : A -> string) l r :
  rg_providers (fold_left (fun r x => set_primary (f x) r) l r) = rg_providers r.
Proof. revert r. induction l as [|x l IH]; intros r; [done|]. cbn. by rewrite IH. Qed.

Lemma append_unseen_all names entries :
  NoDup names -> (forall n, n ∈ names -> n ∉ re_Provider <$> entries) ->
  re_Provider <$> append_unseen names entries = ((re_Provider <$> entries) ++ names)%list.
Proof.
  revert entries. induction names as [|n names IH]; intros entries Hn Hd.
  { cbn. by rewrite app_nil_r. }
  apply NoDup_cons in Hn as [Hn Hnames]. cbn. destruct (containsStr _ n) eqn:En.
  { apply containsStr_spec in En. by destruct (Hd n ltac:(by left)). }
  rewrite IH; [by rewrite fmap_app, <- app_assoc|done|]. intros m Hm. rewrite fmap_app, elem_of_app.
  intros [Hm'| ->%list_elem_of_singleton]; [|done]. by apply (Hd m ltac:(by right)).
Qed.

Lemma switched_order l now uid name fs g role :
  let l' := (l ++ [(now, uid, name, fs)])%list in
  gw_up g = true -> (forall x, x ∈ l' -> is_Some (rg_providers (gw_registry g) !! chosen x)) ->
  name <> "" -> rg_routesEnabled (gw_registry g) = false -> NoDup (rg_fallbacks (gw_registry g)) ->
  re_Provider <$> routeOrder role (gw_registry (run (switches l') g)) =
    name :: List.filter (fun n => negb (containsStr (chosen <$> l') n))
              (rg_fallbacks (gw_registry g)).
Proof.
  intros l' Hup Hl Hname Hroutes Hn. rewrite switches_registry by done.
  destruct (set_primaries_fallbacks chosen l' (gw_registry g))
    as (Hf & Hr & _).
  destruct (set_primaries_fallbacks chosen l (gw_registry g))
    as (_ & _ & Hp).
  unfold routeOrder, role_route. rewrite Hr, Hf, Hroutes. unfold l' at 1 2. rewrite Hp. cbn [chosen fst snd andb].
  rewrite (proj2 (String.eqb_neq name "") Hname). rewrite append_unseen_all; [done| |].
  - cbn. apply NoDup_cons. split.
    + intros [_ Hin]%base.list_elem_of_In%filter_In. unfold l' in Hin.
      rewrite fmap_app in Hin. assert (containsStr (chosen <$> l ++ [(now, uid, name, fs)])%list name = true) as E.
      { apply containsStr_spec. rewrite fmap_app. apply elem_of_app. right. by left. }
      rewrite fmap_app in E. by rewrite E in Hin.
    + apply NoDup_ListNoDup. apply List.NoDup_filter. by apply NoDup_ListNoDup.
  - intros n _ Hin. by apply elem_of_nil in Hin.
Qed.

(** C35: After any switches of the primary to registered providers, by whoever and whatever fails,
    in a process that is up, without routes for the roles and with no fallback listed twice, the
    order in which the providers are tried is the last choice and then those of the fallbacks
    that were never chosen.  So every former choice is no longer tried at all, and neither is the
    primary of before unless it is itself among the fallbacks, although all of them are still
    registered; only choosing one again brings it back. *)
Theorem primary_switches_lose_fallbacks l now uid name fs g role :
  let l' := (l ++ [(now, uid, name, fs)])%list in
  gw_up g = true -> (forall x, x ∈ l' -> is_Some (rg_providers (gw_registry g) !! chosen x)) ->
  name <> "" -> rg_routesEnabled (gw_registry g) = false -> NoDup (rg_fallbacks (gw_registry g)) ->
  let r := gw_registry (run (switches l') g) in
  let order := re_Provider <$> routeOrder role r in
  order = name :: List.filter (fun n => negb (containsStr (chosen <$> l') n))
            (rg_fallbacks (gw_registry g)) /\
  forall n, n <> name ->
    n ∈ chosen <$> l \/ n = rg_primary (gw_registry g) /\ n ∉ rg_fallbacks (gw_registry g) ->
    n ∉ order /\ (is_Some (rg_providers (gw_registry g) !! n) -> is_Some (rg_providers r !! n)).
Proof.
  intros l' Hup Hl Hname Hroutes Hn. cbn zeta.
  assert (re_Provider <$> routeOrder role (gw_registry (run (switches l') g)) =
    name :: List.filter (fun n => negb (containsStr (chosen <$> l') n))
              (rg_fallbacks (gw_registry g))) as E by by apply switched_order.
  split; [exact E|]. intros n Hne Hlost. rewrite E. split.
  - intros [->|[Hin Hf]%base.list_elem_of_In%filter_In]%elem_of_cons; [done|].
    destruct Hlost as [Hc|[_ Hc]]; [|by apply Hc, base.list_elem_of_In].
    apply negb_true_iff in Hf. assert (containsStr (chosen <$> l') n = true) as Hf'; [|congruence].
    apply containsStr_spec. unfold l'. rewrite fmap_app. apply elem_of_app. by left.
  - rewrite switches_registry by done. by rewrite set_primaries_providers.
Qed.

(** ** The address *)

(** Registered, with the address in its description. *)
Definition reachable_at (provider url : string) (r : Registry) : Prop :=
  is_Some (rg_providers r !! provider) /\
  exists m, rg_meta r !! provider = Some m /\ pm_BaseURL m = url.
Definition described (provider : string) (r : Registry) : Prop :=
  exists url, reachable_at provider url r.

(** The services that take a key. *)
Definition keyed_service (provider : string) : Prop :=
  provider ∈ ["openai"; "anthropic"; "gemini"; "grok"].

Lemma recreated_keyed provider key url model timeout :
  keyed_service provider -> url <> "" ->
  exists b, recreated provider key url model timeout = Some b /\ bk_Name b = provider /\
    bk_APIKey b = key /\ bk_BaseURL b = url.
Proof.
  unfold keyed_service. intros Hp Hu%String.eqb_neq.
  repeat (apply elem_of_cons in Hp as [->|Hp]; [eexists; split; [reflexivity|];
    split; [done|]; split; [done|]; cbn; unfold or_default; by rewrite ?Hu|]).
  by apply elem_of_nil in Hp.
Qed.

Definition only_url (url : string) : option ConfigureBody :=
  Some {| cf_APIKey := ""; cf_Model := ""; cf_BaseURL := url |}.
Definition only_key (key : string) : option ConfigureBody :=
  Some {| cf_APIKey := key; cf_Model := ""; cf_BaseURL := "" |}.

(** The process runs, and its registry is so. *)
Definition running (P : Registry -> Prop) : Gateway V -> Prop := on_parts (fun r _ up => P r /\ up = true).

(** Setting the address. *)
Lemma Configure_url now uid provider url :
  keyed_service provider -> url <> "" ->
  ensures (running (described provider))
    (ConfigureLLMProvider storeFor keychain now uid provider (only_url url))
    (fun _ => running (reachable_at provider url)).
Proof.
  intros Hp Hu. apply String.eqb_neq in Hu.
  assert (String.eqb provider "" = false /\ String.eqb provider "ollama" = false) as [Hne Ho].
  { unfold keyed_service in Hp. split; apply String.eqb_neq; intros ->; set_solver. }
  unfold ConfigureLLMProvider, only_url. cbn [require unless cf_APIKey cf_Model cf_BaseURL].
  rewrite Hne. cbn [unless]. rewrite !try_ok. apply ensures_respond.
  eapply (ensures_bind _ (fun known g => running (described provider) g /\ is_Some known)).
  { apply ensures_reads. intros g Hg. split; [done|]. by destruct Hg as [(? & ? & _) _]. }
  intros known. apply ensures_pure. intros [b ->]. cbn [require cf_APIKey cf_Model cf_BaseURL].
  rewrite (String.eqb_refl ""), !try_ok, Hu.
  set (R := running (reachable_at provider url)).
  eapply (ensures_try _ (fun _ => R)).
  { eapply (ensures_bind _ (fun _ => running (described provider))).
    { apply ensures_writes. by intros g. }
    intros u. eapply (ensures_bind _ (fun _ => R)).
    { apply ensures_writes. intros g [(url0 & Hb & m & Hm & _) Hup]. split; [|done].
      unfold UpdateBaseURL. cbn. rewrite Hm, Ho. split; [done|]. cbn. rewrite lookup_insert_eq. by eexists. }
    intros u'. eapply (ensures_bind _ (fun _ => R)).
    { apply user_set_calm. }
    intros u2. by apply ensures_ret. }
  intros u. apply stays_bind; [apply stays_reads|]. intros p. apply stays_try; [apply stays_require|].
  intros b'. apply stays_bind; [apply (ask_calm (fun r up => reachable_at provider url r /\ up = true))|]. intros; apply stays_ret.
Qed.

(** The last request went to the address with the key. *)
Definition sent (key url : string) (g : Gateway V) : Prop :=
  exists pre b, gw_trace g = (pre ++ [Asked b])%list /\ bk_APIKey b = key /\ bk_BaseURL b = url.

(** The provider that is registered has the key and the address. *)
Definition armed (provider key url : string) (r : Registry) : Prop :=
  exists b, rg_providers r !! provider = Some b /\ bk_Name b = provider /\ bk_APIKey b = key /\
    bk_BaseURL b = url.

Lemma UpdateAPIKey_arms now provider key url :
  keyed_service provider -> key <> "" -> url <> "" ->
  ensures (running (reachable_at provider url))
    (UpdateAPIKey storeFor now provider key)
    (fun known g => running (armed provider key url) g /\ known = true).
Proof.
  intros Hp Hk Hu. set (A := running (armed provider key url)).
  assert (forall r, reachable_at provider url r -> (updateAPIKeyInternal provider key r).1 = true /\
    armed provider key url (updateAPIKeyInternal provider key r).2) as Harm.
  { intros r (_ & m & Hm & Hurl). unfold updateAPIKeyInternal. rewrite Hm, Hurl. cbn [rg_timeout put_meta].
    destruct (recreated_keyed provider key url (pm_DefaultModel m) (rg_timeout r) Hp Hu) as (b & -> & Hb).
    split; [done|]. exists b. cbn. by rewrite lookup_insert_eq. }
  eapply (ensures_bind _ (fun known g => running (reachable_at provider url) g /\ known = true)).
  { apply ensures_reads. intros g Hg. split; [done|]. destruct Hg. by apply Harm. }
  intros known. apply ensures_pure. intros ->.
  eapply (ensures_bind _ (fun _ => A)); [apply ensures_writes; intros g [Hg Hup]; split; [by apply Harm|done]|].
  intros u. cbn [negb]. apply String.eqb_neq in Hk. rewrite Hk.
  eapply (ensures_bind _ (fun _ => A)); [apply vault_set_calm|].
  intros u'. by apply ensures_ret.
Qed.

(** Giving a key. *)
Lemma Configure_key now uid provider key url :
  keyed_service provider -> key <> "" -> url <> "" ->
  ensures (running (reachable_at provider url))
    (ConfigureLLMProvider storeFor keychain now uid provider (only_key key))
    (fun _ g => sent key url g /\ running (armed provider key url) g).
Proof.
  intros Hp Hk Hu. set (A := running (armed provider key url)).
  assert (String.eqb provider "" = false) as Hne.
  { unfold keyed_service in Hp. apply String.eqb_neq; intros ->; set_solver. }
  unfold ConfigureLLMProvider, only_key. cbn [require unless cf_APIKey cf_Model cf_BaseURL].
  rewrite Hne. cbn [unless]. rewrite !try_ok. apply ensures_respond.
  eapply (ensures_bind _ (fun known g => running (reachable_at provider url) g /\ is_Some known)).
  { apply ensures_reads. intros g Hg. split; [done|]. by destruct Hg as [[? _] _]. }
  intros known. apply ensures_pure. intros [b ->]. cbn [require cf_APIKey cf_Model cf_BaseURL].
  rewrite try_ok, (proj2 (String.eqb_neq key "") Hk).
  eapply (ensures_try _ (fun _ => A)).
  { eapply (ensures_bind _ (fun _ => running (reachable_at provider url))).
    { apply ensures_writes. by intros g. }
    intros u. eapply ensures_bind; [by apply (UpdateAPIKey_arms now provider key url)|].
    intros known. apply ensures_pure. intros ->. cbn [negb unless]. rewrite try_ok.
    eapply (ensures_bind _ (fun _ => A)); [apply user_set_calm|].
    intros u'. by apply ensures_ret. }
  intros u. rewrite (String.eqb_refl ""), !try_ok.
  eapply (ensures_bind _ (fun p g => A g /\ exists b, p = Some b /\ bk_APIKey b = key /\ bk_BaseURL b = url)).
  { apply ensures_reads. intros g Hg. split; [done|]. destruct Hg as [(b0 & Hb0 & _ & Hb1) _]. by exists b0. }
  intros p r [HA (b' & -> & Hb)]. cbn [require]. rewrite try_ok. cbn.
  split; [exists (gw_trace (tables r)), b'; by split|exact HA].
Qed.

(** C34: The address of a provider is shared, and anybody's to set: after a user has set it, the
    next key that another user gives that provider is sent to that address, whatever fails. *)
Theorem base_url_captures_keys now now' mallory alice provider url key fs fs' g :
  keyed_service provider -> url <> "" -> key <> "" ->
  gw_up g = true -> described provider (gw_registry g) ->
  exists pre b, gw_trace (run [(EvRequest now mallory (RqConfigure provider (only_url url)), fs);
                               (EvRequest now' alice (RqConfigure provider (only_key key)), fs')] g)
                = (pre ++ [Asked b])%list /\ bk_APIKey b = key /\ bk_BaseURL b = url.
Proof.
  intros Hp Hu Hk Hup Hg.
  set (g' := llm_step storeFor keychain sanitize wsHub g
    (EvRequest now mallory (RqConfigure provider (only_url url)), fs)).
  assert (running (reachable_at provider url) g') as Hurl.
  { unfold g', llm_step. cbn [fst snd]. rewrite Hup.
    by apply (Configure_url now mallory provider url Hp Hu (MkRun g fs)). }
  pose proof (Configure_key now' alice provider key url Hp Hk Hu (MkRun g' fs') Hurl) as [Hsent _].
  unfold llm_run. cbn [fold_left]. unfold llm_step at 1. cbn [fst snd]. fold g'.
  destruct Hurl as [_ Hup']. change (gw_up g' = true) in Hup'. rewrite Hup'. exact Hsent.
Qed.

End theorems.

(** ** Runs *)

#[local] Existing Instance toy_primitives.
#[local] Existing Instance toy_entropy.
#[local] Existing Instance listed_order.
#[local] Existing Instance ascii_tables.
#[local] Existing Instance files_keep.

Definition answer_of (b : Backend) (finish : string) : CompletionResponse :=
  {| cs_Content := "by " ++ bk_Name b; cs_Model := bk_DefaultModel b; cs_FinishReason := finish;
     cs_Usage := no_usage; cs_ToolCalls := [] |}.

(** OpenAI cuts its answers off. *)
#[local] Instance toy_clients : Clients := {|
  client_Complete _ b _ :=
    if String.eqb (bk_Name b) "ollama" then Err "connection refused"
    else Ok (answer_of b (if String.eqb (bk_Name b) "openai" then "length" else "stop"));
  client_Stream _ _ _ := Err "no stream";
  client_Healthy _ _ := true;
  client_ListModels _ _ := Ok []
|}.

Definition openai_only : LLMConfig :=
  {| lm_envKeys name := if String.eqb name "openai" then "sk-env" else "";
     lm_models _ := ""; lm_urls _ := ""; lm_Primary := ""; lm_Timeout := 0; lm_Routes := ∅;
     lm_PriorityMatrix := ∅ |}.

Notation toy_run := (llm_run file_store true (fun s _ => s) false).

Definition boot (found : list UUID) : LlmEvent * list bool := (EvStart 0 openai_only (Ok found), []).
Definition hello (role : string) : LlmEvent * list bool :=
  (EvRequest 0 3 (RqComplete (Some {| lc_Messages := []; lc_Tools := []; lc_ToolChoice := "";
     lc_MaxTokens := 0; lc_Model := ""; lc_AgentRole := role |})), []).
Definition give_key (u : UUID) (provider key : string) : LlmEvent * list bool :=
  (EvRequest 0 u (RqConfigure provider (only_key key)), []).

Definition fresh : Gateway VaultFile := fresh_gateway (closed_vault []).
Definition booted : Gateway VaultFile := toy_run [boot []] fresh.

Definition asked_with (g : Gateway VaultFile) : list (string * string) :=
  omap (fun a => match a with Asked b => Some (bk_Name b, bk_APIKey b) | _ => None end) (gw_trace g).

Definition two_keys : list (LlmEvent * list bool) := [boot []; give_key 1 "gemini" "sk-1"; hello ""].

Lemma keys_are_supplied_witness :
  (forall pre b post, gw_trace (toy_run two_keys fresh) = (pre ++ Asked b :: post)%list ->
    bk_APIKey b = "" \/ environment_key two_keys (bk_Name b) (bk_APIKey b) \/
    given pre (api_key_name (bk_Name b)) (bk_APIKey b)) /\
  asked_with (toy_run two_keys fresh) =
    [("gemini", "sk-1"); ("openai", "sk-env"); ("gemini", "sk-1")].
Proof.
  split; [|vm_compute; reflexivity].
  apply (keys_are_supplied file_store true (fun s _ => s) false two_keys (closed_vault [])).
  - done.
  - intros u k s Hs. cbn in Hs. by apply lookup_empty_Some in Hs.
  - by repeat constructor.
Defined.

Definition to_anthropic : Z * UUID * string * list bool := (0, 1%N, "anthropic", []).

Lemma primary_switches_lose_fallbacks_witness :
  re_Provider <$> routeOrder "" (gw_registry booted) =
    ["openai"; "anthropic"; "gemini"; "grok"; "ollama"] /\
  let order := re_Provider <$> routeOrder "" (gw_registry
    (toy_run (switches ([to_anthropic] ++ [(0, 2%N, "openai", [])])) booted)) in
  order = ["openai"; "gemini"; "grok"; "ollama"] /\ "anthropic" ∉ order.
Proof.
  split; [vm_compute; reflexivity|].
  destruct (primary_switches_lose_fallbacks file_store true (fun s _ => s) false [to_anthropic]
              0 2 "openai" [] booted "") as [E Hlost].
  - vm_compute. reflexivity.
  - intros x Hx. repeat (apply elem_of_cons in Hx as [->|Hx]; [vm_compute; by eexists|]).
    by apply elem_of_nil in Hx.
  - done.
  - vm_compute. reflexivity.
  - apply (bool_decide_unpack _). vm_compute. exact I.
  - cbn zeta. split; [|apply Hlost; [done|left; by left]].
    etransitivity; [exact E|]. vm_compute. reflexivity.
Defined.

Lemma base_url_captures_keys_witness :
  exists pre b, gw_trace (toy_run
      [(EvRequest 0 2 (RqConfigure "openai" (only_url "https://evil.example")), [true]);
       (EvRequest 0 1 (RqConfigure "openai" (only_key "sk-1")), [])] booted)
    = (pre ++ [Asked b])%list /\ bk_APIKey b = "sk-1" /\ bk_BaseURL b = "https://evil.example".
Proof.
  apply (base_url_captures_keys file_store true (fun s _ => s) false); try done.
  - by left.
  - exists "https://api.openai.com/v1". split; [vm_compute; by eexists|].
    vm_compute. eexists. split; reflexivity.
Defined.

(** The only answer is thrown away: what comes after it needs keys that nobody gave, or fails. *)
Example cut_answer_lost :
  (HandleComplete (V := VaultFile) (Some {| lc_Messages := []; lc_Tools := []; lc_ToolChoice := "";
     lc_MaxTokens := 0; lc_Model := ""; lc_AgentRole := "" |}) (quiet booted)).1 =
  writeError 502 "llm proxy: all providers failed: connection refused".
Proof. vm_compute. reflexivity. Qed.

(** The key of user 2 is stored for user 1, whose keys were found at the start, and for user 2. *)
Example key_stored_for_first_user :
  secret (scopedKey (unary_token 1) (api_key_name "grok"))
    (gw_vault (toy_run [boot [1%N]; give_key 2 "grok" "sk-2"] fresh)) = "sk-2".
Proof. vm_compute. reflexivity. Qed.

(** A user who lists the providers puts their stored key to everybody's use: the last request is
    that of another user. *)
Example listing_shares_keys :
  asked_with (toy_run [boot []; (EvSecret 0 1 (api_key_name "grok") "sk-1", []);
                       (EvRequest 0 1 RqProviders, []); hello ""] fresh) ≫=
    (fun x => if String.eqb x.2 "sk-1" then [x] else []) = [("grok", "sk-1"); ("grok", "sk-1"); ("grok", "sk-1")].
Proof. vm_compute. reflexivity. Qed.
