(* ===== verification/LlmClients.v ===== *)
(** * The clients of the language models ([llm/openai.go], [grok.go], [anthropic.go], [gemini.go], [ollama.go])

    What each client sends for a request and what it makes of the answer, and [http_clients],
    the [Clients] of [Llm] over an HTTP client.  Documents are written and read as text, so that
    a [json.RawMessage] is the text it was.  How [encoding/json] prints a float is the class
    [FloatText].  An array that comes twice under one name is read anew; a count of tokens in a
    float is cut to an integer without the rounding above [2^53].  Deadlines, waiting between
    attempts and logging are left out. *)

From Stdlib Require Import ZArith Lia Ascii String.
From stdpp Require Import base list gmap strings sorting.
From S2P Require Import Prelude GoStrings SwarmDb Db GoFloat Redact Fingerprint Json Vault Mcp Llm.
Local Open Scope string_scope.
Local Open Scope rtv_scope.
Local Open Scope Z_scope.

(** ** Writing *)

(** [float_text] prints a float, unless it is infinite or not a number; [number_text] prints a
    number that was read as a float. *)
Class FloatText := { float_text : float64 -> option string; number_text : string -> string }.

(** The members of a struct with their texts; [None] is one that is omitted. *)
Definition object_text (l : list (string * option string)) : string :=
  "{" ++ Join (omap (fun kv => (fun v => quoted kv.1 ++ ":" ++ v) <$> kv.2) l) "," ++ "}".
Definition array_text (l : list string) : string := "[" ++ Join l "," ++ "]".
(** A slice that is nil where it is empty. *)
Definition slice_text (l : list string) : string := match l with [] => "null" | _ => array_text l end.
Definition bool_text (b : bool) : string := if b then "true" else "false".

(** [omitempty] *)
Definition nonempty (s : string) : option string := if String.eqb s "" then None else Some (quoted s).
Definition nonzero (n : Z) : option string := if n =? 0 then None else Some (itoa n).
Definition some_of (l : list string) : option string :=
  match l with [] => None | _ => Some (array_text l) end.

(** [json.Compact] with the escapes of HTML; [inside] is whether a string is open, [esc] whether a
    backslash came before. *)
Fixpoint compact (inside esc : bool) (s : string) : string :=
  match s with
  | "" => ""
  | String a s' =>
      if negb inside && is_json_space a then compact inside false s'
      else
        let rest := compact (if Ascii.eqb a dquote && negb esc then negb inside else inside)
                      (inside && Ascii.eqb a bslash && negb esc) s' in
        if existsb (Ascii.eqb a) ["<"; ">"; "&"]%char then escape_u (byte_of a) ++ rest
        else match line_separator s with
             | Some n => escape_u n ++ compact inside false (str_drop 2 s')
             | None => String a rest
             end
  end.

(** A [json.RawMessage]; a nil one, which is written as null, is the empty text here. *)
Definition raw_text (raw : string) : option string :=
  if String.eqb raw "" then Some "null"
  else match Unmarshal raw with Some _ => Some (compact false false raw) | None => None end.

Definition all_texts {A} (f : A -> option string) (l : list A) : option (list string) := mapM f l.

Definition tool_call_text (c : ToolCall) : string :=
  object_text [("id", Some (quoted (tc_ID c))); ("type", Some (quoted (tc_Type c)));
    ("function", Some (object_text [("name", Some (quoted (tf_Name (tc_Function c))));
                                    ("arguments", Some (quoted (tf_Arguments (tc_Function c))))]))].
Definition tool_text (t : ToolDef) : option string :=
  parameters ← raw_text (fn_Parameters (td_Function t));
  Some (object_text [("type", Some (quoted (td_Type t)));
    ("function", Some (object_text [("name", Some (quoted (fn_Name (td_Function t))));
       ("description", Some (quoted (fn_Description (td_Function t))));
       ("parameters", Some parameters)]))]).

(** ** Reading *)

(** A value one level deep, its parts as text. *)
Inductive Raw :=
  | RNull | RBool (b : bool) | RNum (text : string) | RStr (s : string)
  | RArr (l : list string) | RObj (l : list (string * string)).

(** The value that [s] begins with, as text, and what follows it. *)
Definition first_value (s : string) : option (string * string) :=
  let s := skip_space s in
  p ← value (S (2 * String.length s)) s;
  Some (str_take (String.length s - String.length p.2) s, p.2).

Fixpoint raw_members (fuel : nat) (s : string) : option (list (string * string)) :=
  match fuel with
  | O => None
  | S fuel =>
      name ← starts (String dquote "") (skip_space s);
      k ← unquote 0 0 name;
      t ← starts ":" (skip_space k.2);
      v ← first_value t;
      match starts "," (skip_space v.2) with
      | Some r => l ← raw_members fuel r; Some ((k.1, v.1) :: l)
      | None => Some [(k.1, v.1)]
      end
  end.
Fixpoint raw_elements (fuel : nat) (s : string) : option (list string) :=
  match fuel with
  | O => None
  | S fuel =>
      v ← first_value s;
      match starts "," (skip_space v.2) with
      | Some r => l ← raw_elements fuel r; Some (v.1 :: l)
      | None => Some [v.1]
      end
  end.

(** A document; every round of the loops takes a byte. *)
Definition one_level (raw : string) : option Raw :=
  v ← Unmarshal raw;
  let rest := str_drop 1 (skip_space raw) in
  match v with
  | JNull => Some RNull
  | JBool b => Some (RBool b)
  | JNum t => Some (RNum t)
  | JStr s => Some (RStr s)
  | JArr [] => Some (RArr [])
  | JArr _ => RArr <$> raw_elements (String.length raw) rest
  | JObj [] => Some (RObj [])
  | JObj _ => RObj <$> raw_members (String.length raw) rest
  end.

(** [json.Unmarshal] of a text into a place that holds a value: the value, and whether there was an
    error.  A value of another type is an error and leaves the place; what comes after is read. *)
Definition Reader (A : Type) := string -> A -> A * bool.

Definition read_string : Reader string := fun raw old =>
  match one_level raw with Some (RStr s) => (s, false) | Some RNull => (old, false) | _ => (old, true) end.
Definition read_int : Reader Z := fun raw old =>
  match one_level raw with
  | Some (RNum t) => match Atoi t with Some n => (n, false) | None => (old, true) end
  | Some RNull => (old, false)
  | _ => (old, true)
  end.
Definition read_bool : Reader bool := fun raw old =>
  match one_level raw with Some (RBool b) => (b, false) | Some RNull => (old, false) | _ => (old, true) end.
Definition read_raw : Reader string := fun raw _ => (raw, false).

Definition read_list {A} (zero : A) (r : Reader A) : Reader (list A) := fun raw old =>
  match one_level raw with
  | Some (RArr l) => let ps := (fun e => r e zero) <$> l in (ps.*1, existsb snd ps)
  | Some RNull => ([], false)
  | _ => (old, true)
  end.
Definition read_pointer {A} (zero : A) (r : Reader A) : Reader (option A) := fun raw old =>
  match one_level raw with
  | Some RNull => (None, false)
  | _ => let p := r raw (default zero old) in (Some p.1, p.2)
  end.

(** A field: its name and the reader on the struct. *)
Definition field {A B} (name : string) (get : A -> B) (set : B -> A -> A) (r : Reader B)
    : string * Reader A :=
  (name, fun raw a => let p := r raw (get a) in (set p.1 a, p.2)).

Section folds.
Context `{FoldTables}.

(** The field of a name, in the same case if there is one. *)
Definition field_named {A} (fields : list (string * Reader A)) (name : string) : option (Reader A) :=
  snd <$> match List.find (fun f => String.eqb f.1 name) fields with
          | Some f => Some f
          | None => List.find (fun f => EqualFold f.1 name) fields
          end.

Definition read_struct {A} (fields : list (string * Reader A)) : Reader A := fun raw old =>
  match one_level raw with
  | Some (RObj l) =>
      fold_left (fun acc kv =>
        match field_named fields kv.1 with
        | None => acc
        | Some r => let p := r kv.2 acc.1 in (p.1, acc.2 || p.2)
        end) l (old, false)
  | Some RNull => (old, false)
  | _ => (old, true)
  end.

(** A whole document; a text that is none is not read at all. *)
Definition UnmarshalInto {A} (r : Reader A) (zero : A) (doc : string) : A * bool :=
  match Unmarshal doc with None => (zero, true) | Some _ => r doc zero end.
Definition decoded {A} (r : Reader A) (zero : A) (doc : string) : result A string :=
  let p := UnmarshalInto r zero doc in if p.2 then Err "decode response" else Ok p.1.
(** [Decode] of a decoder reads the first value of what comes. *)
Definition Decode {A} (r : Reader A) (zero : A) (body : string) : result A string :=
  match first_value body with
  | None => Err "decode"
  | Some v => let p := r v.1 zero in if p.2 then Err "decode" else Ok p.1
  end.

(** *** What the services have in common *)

Definition no_call : ToolCall :=
  {| tc_ID := ""; tc_Type := ""; tc_Function := {| tf_Name := ""; tf_Arguments := "" |} |}.
Definition read_function : Reader ToolCallFunc := read_struct
  [field "name" tf_Name (fun v f => {| tf_Name := v; tf_Arguments := tf_Arguments f |}) read_string;
   field "arguments" tf_Arguments (fun v f => {| tf_Name := tf_Name f; tf_Arguments := v |}) read_string].
Definition read_tool_call : Reader ToolCall := read_struct
  [field "id" tc_ID (fun v c => {| tc_ID := v; tc_Type := tc_Type c; tc_Function := tc_Function c |}) read_string;
   field "type" tc_Type (fun v c => {| tc_ID := tc_ID c; tc_Type := v; tc_Function := tc_Function c |}) read_string;
   field "function" tc_Function (fun v c => {| tc_ID := tc_ID c; tc_Type := tc_Type c; tc_Function := v |}) read_function].

(** A struct of one field. *)
Definition only {A} (name : string) (r : Reader A) : Reader A :=
  read_struct [field name (fun a => a) (fun v _ => v) r].

(** The identifiers in an answer that lists models. *)
Definition read_names (list_name member : string) : Reader (list string) :=
  only list_name (read_list "" (only member read_string)).

End folds.

Definition ErrRateLimited := "LLM provider rate limited".
Definition ErrProviderError := "LLM provider returned an error".
Definition provider_error (status : Z) (message : string) : string :=
  ErrProviderError ++ ": " ++ itoa status ++ " — " ++ message.

Definition model_of (b : Backend) (req : CompletionRequest) : string :=
  or_default (cq_Model req) (bk_DefaultModel b).
Definition call_of (id name arguments : string) : ToolCall :=
  {| tc_ID := id; tc_Type := "function"; tc_Function := {| tf_Name := name; tf_Arguments := arguments |} |}.
Definition text_chunk (model content : string) : StreamChunk :=
  {| sc_Content := content; sc_Model := model; sc_FinishReason := ""; sc_Done := false;
     sc_Usage := None; sc_ToolCalls := [] |}.

(** The lines of a scanner, which ends at one that does not fit its buffer. *)
Definition drop_cr (s : string) : string :=
  match string_rev s with String "013" r => string_rev r | _ => s end.
Definition scanned (body : string) : list string :=
  let lines := split_byte (chr 10) body in
  let lines := match List.last lines "" with "" => removelast lines | _ => lines end in
  drop_cr <$> (fix fitting (l : list string) := match l with
    | [] => []
    | s :: l => if 65535 <? Z.of_nat (String.length s) then [] else s :: fitting l
    end) lines.
(** What the lines that begin with "data: " say. *)
Definition events (body : string) : list string := omap (starts "data: ") (scanned body).

Definition and_then {A B} (m : result A string) (k : A -> result B string) : result B string :=
  match m with Ok a => k a | Err e => Err e end.
Notation "x <-? m ; k" := (and_then m (fun x => k)) (at level 100, m at next level, right associativity).
Definition or_error {A} (o : option A) (e : string) : result A string :=
  match o with Some a => Ok a | None => Err e end.
Definition unmarshalable := "marshal request: json: unsupported value".

(** ** Requests *)

Section clients.
Context `{UnicodeTables} `{FoldTables} `{RowOrder} `{UrlScheme} `{HttpClient} `{FloatText}.

Definition json_header : string * string := ("Content-Type", "application/json").

(** [created] and [did] say what becomes of the errors of making and of sending the request. *)
Definition exchange (created did : string -> string) (n : nat) (method url : string)
    (headers : list (string * string)) (body : option string) : result HttpResponse string :=
  match NewRequest method url body with
  | Err e => Err (created e)
  | Ok req =>
      match client_Do n (fold_left (fun r h => set_header h.1 h.2 r) headers req) with
      | Err e => Err (did e)
      | Ok resp => Ok resp
      end
  end.
Definition send (n : nat) (what : string) : string -> string -> list (string * string) -> option string ->
    result HttpResponse string :=
  exchange (append "create request: ") (append (what ++ ": ")) n.
Definition fetch (n : nat) (url : string) (headers : list (string * string)) : result HttpResponse string :=
  exchange id id n "GET" url headers None.

Definition read_all (resp : HttpResponse) : result string string :=
  match rs_Body resp with Ok b => Ok b | Err e => Err ("read response: " ++ e) end.
(** Where the error of reading is ignored. *)
Definition what_came (resp : HttpResponse) : string :=
  match rs_Body resp with Ok b => b | Err _ => "" end.

Definition float_member (f : float64) : option (option string) :=
  if feq f (of_int 0) then Some None else t ← float_text f; Some (Some t).

(** ** OpenAI, and Grok behind it *)

(** [openaiMessage] has the fields of a [Message]. *)
Definition openai_message_text (m : Message) : string :=
  object_text [("role", Some (quoted (ms_Role m))); ("content", Some (quoted (ms_Content m)));
    ("name", nonempty (ms_Name m)); ("tool_call_id", nonempty (ms_ToolCallID m));
    ("tool_calls", some_of (tool_call_text <$> ms_ToolCalls m))].

Definition openai_body (stream : bool) (b : Backend) (req : CompletionRequest) : option string :=
  temperature ← float_member (cq_Temperature req);
  topP ← float_member (cq_TopP req);
  tools ← all_texts tool_text (cq_Tools req);
  Some (object_text [("model", Some (quoted (model_of b req)));
    ("messages", Some (array_text (openai_message_text <$> cq_Messages req)));
    ("max_completion_tokens", nonzero (cq_MaxTokens req));
    ("temperature", temperature); ("top_p", topP); ("stop", some_of (quoted <$> cq_Stop req));
    ("stream", if stream then Some "true" else None); ("tools", some_of tools);
    ("tool_choice", nonempty (cq_ToolChoice req))]).

Definition bearer (b : Backend) : string * string := ("Authorization", "Bearer " ++ bk_APIKey b).

Definition openai_post (n : nat) (what : string) (stream : bool) (b : Backend) (req : CompletionRequest)
    : result HttpResponse string :=
  body <-? or_error (openai_body stream b req) unmarshalable;
  send n what "POST" (bk_BaseURL b ++ "/chat/completions") [json_header; bearer b] (Some body).

Definition no_message : Message :=
  {| ms_Role := ""; ms_Content := ""; ms_Name := ""; ms_ToolCallID := ""; ms_ToolCalls := [] |}.
Definition read_message : Reader Message := read_struct
  [field "role" ms_Role (fun v m => {| ms_Role := v; ms_Content := ms_Content m; ms_Name := ms_Name m;
     ms_ToolCallID := ms_ToolCallID m; ms_ToolCalls := ms_ToolCalls m |}) read_string;
   field "content" ms_Content (fun v m => {| ms_Role := ms_Role m; ms_Content := v; ms_Name := ms_Name m;
     ms_ToolCallID := ms_ToolCallID m; ms_ToolCalls := ms_ToolCalls m |}) read_string;
   field "name" ms_Name (fun v m => {| ms_Role := ms_Role m; ms_Content := ms_Content m; ms_Name := v;
     ms_ToolCallID := ms_ToolCallID m; ms_ToolCalls := ms_ToolCalls m |}) read_string;
   field "tool_call_id" ms_ToolCallID (fun v m => {| ms_Role := ms_Role m; ms_Content := ms_Content m;
     ms_Name := ms_Name m; ms_ToolCallID := v; ms_ToolCalls := ms_ToolCalls m |}) read_string;
   field "tool_calls" ms_ToolCalls (fun v m => {| ms_Role := ms_Role m; ms_Content := ms_Content m;
     ms_Name := ms_Name m; ms_ToolCallID := ms_ToolCallID m; ms_ToolCalls := v |})
     (read_list no_call read_tool_call)].

Definition read_usage : Reader Usage := read_struct
  [field "prompt_tokens" us_PromptTokens (fun v u => {| us_PromptTokens := v;
     us_CompletionTokens := us_CompletionTokens u; us_TotalTokens := us_TotalTokens u |}) read_int;
   field "completion_tokens" us_CompletionTokens (fun v u => {| us_PromptTokens := us_PromptTokens u;
     us_CompletionTokens := v; us_TotalTokens := us_TotalTokens u |}) read_int;
   field "total_tokens" us_TotalTokens (fun v u => {| us_PromptTokens := us_PromptTokens u;
     us_CompletionTokens := us_CompletionTokens u; us_TotalTokens := v |}) read_int].

Record Choice := { ch_Message : Message; ch_FinishReason : string }.
Record openaiChatResponse := { oc_Choices : list Choice; oc_Usage : Usage; oc_Model : string }.
Definition no_response : openaiChatResponse := {| oc_Choices := []; oc_Usage := no_usage; oc_Model := "" |}.
Definition read_chat_response : Reader openaiChatResponse := read_struct
  [field "choices" oc_Choices (fun v r => {| oc_Choices := v; oc_Usage := oc_Usage r; oc_Model := oc_Model r |})
     (read_list {| ch_Message := no_message; ch_FinishReason := "" |} (read_struct
       [field "message" ch_Message (fun v c => {| ch_Message := v; ch_FinishReason := ch_FinishReason c |}) read_message;
        field "finish_reason" ch_FinishReason (fun v c => {| ch_Message := ch_Message c; ch_FinishReason := v |}) read_string]));
   field "usage" oc_Usage (fun v r => {| oc_Choices := oc_Choices r; oc_Usage := v; oc_Model := oc_Model r |}) read_usage;
   field "model" oc_Model (fun v r => {| oc_Choices := oc_Choices r; oc_Usage := oc_Usage r; oc_Model := v |}) read_string].

(** [errResp.Error.Message]; the error of reading it is ignored. *)
Definition error_message (body : string) : string :=
  (UnmarshalInto (only "error" (only "message" read_string)) "" body).1.

Definition openai_answer (r : openaiChatResponse) : result CompletionResponse string :=
  match oc_Choices r with
  | [] => Err "openai returned no choices"
  | c :: _ =>
      Ok {| cs_Content := ms_Content (ch_Message c); cs_Model := oc_Model r;
            cs_FinishReason := match ms_ToolCalls (ch_Message c) with
                               | [] => ch_FinishReason c
                               | _ => or_default (ch_FinishReason c) "tool_calls"
                               end;
            cs_Usage := oc_Usage r; cs_ToolCalls := ms_ToolCalls (ch_Message c) |}
  end.

(** A limit that is too high counts as an answer that is cut off. *)
Definition openai_refused (model : string) (status : Z) (body : string) : result CompletionResponse string :=
  let message := error_message body in
  if (status =? 400) && (Contains message "max_tokens" || Contains message "output limit"
                         || Contains message "max_completion_tokens")
  then Ok {| cs_Content := ""; cs_Model := model; cs_FinishReason := "length"; cs_Usage := no_usage;
             cs_ToolCalls := [] |}
  else Err (provider_error status message).

Definition openai_Complete (n : nat) (b : Backend) (req : CompletionRequest)
    : result CompletionResponse string :=
  resp <-? openai_post n "openai request" false b req;
  body <-? read_all resp;
  if rs_Status resp =? 429 then Err (ErrRateLimited ++ ": " ++ body)
  else if negb (rs_Status resp =? 200) then openai_refused (model_of b req) (rs_Status resp) body
  else r <-? decoded read_chat_response no_response body; openai_answer r.

(** The status is not looked at. *)
Definition openai_ListModels (n : nat) (b : Backend) : result (list string) string :=
  resp <-? fetch n (bk_BaseURL b ++ "/models") [bearer b];
  body <-? rs_Body resp;
  Decode (read_names "data" "id") [] body.

Definition succeeded {A} (r : result A string) : bool := match r with Ok _ => true | Err _ => false end.
Definition openai_Healthy (n : nat) (b : Backend) : bool := succeeded (openai_ListModels n b).

(** *** The stream *)

Record DeltaCall := { dl_Index : Z; dl_ID : string; dl_Type : string; dl_Function : ToolCallFunc }.
Record ChunkChoice := { cc_Content : string; cc_ToolCalls : list DeltaCall; cc_FinishReason : option string }.
Record openaiStreamChunk := { ok_Choices : list ChunkChoice; ok_Model : string; ok_Usage : option Usage }.

Definition no_function : ToolCallFunc := {| tf_Name := ""; tf_Arguments := "" |}.
Definition no_delta : DeltaCall := {| dl_Index := 0; dl_ID := ""; dl_Type := ""; dl_Function := no_function |}.
Definition read_delta_call : Reader DeltaCall := read_struct
  [field "index" dl_Index (fun v d => {| dl_Index := v; dl_ID := dl_ID d; dl_Type := dl_Type d; dl_Function := dl_Function d |}) read_int;
   field "id" dl_ID (fun v d => {| dl_Index := dl_Index d; dl_ID := v; dl_Type := dl_Type d; dl_Function := dl_Function d |}) read_string;
   field "type" dl_Type (fun v d => {| dl_Index := dl_Index d; dl_ID := dl_ID d; dl_Type := v; dl_Function := dl_Function d |}) read_string;
   field "function" dl_Function (fun v d => {| dl_Index := dl_Index d; dl_ID := dl_ID d; dl_Type := dl_Type d; dl_Function := v |}) read_function].

Definition no_choice : ChunkChoice := {| cc_Content := ""; cc_ToolCalls := []; cc_FinishReason := None |}.
Definition read_delta : Reader ChunkChoice := read_struct
  [field "content" cc_Content (fun v c => {| cc_Content := v; cc_ToolCalls := cc_ToolCalls c; cc_FinishReason := cc_FinishReason c |}) read_string;
   field "tool_calls" cc_ToolCalls (fun v c => {| cc_Content := cc_Content c; cc_ToolCalls := v; cc_FinishReason := cc_FinishReason c |})
     (read_list no_delta read_delta_call)].
Definition read_chunk_choice : Reader ChunkChoice := read_struct
  [field "delta" (fun c => c) (fun v _ => v) read_delta;
   field "finish_reason" cc_FinishReason (fun v c => {| cc_Content := cc_Content c; cc_ToolCalls := cc_ToolCalls c; cc_FinishReason := v |})
     (read_pointer "" read_string)].
Definition no_chunk : openaiStreamChunk := {| ok_Choices := []; ok_Model := ""; ok_Usage := None |}.
Definition read_chunk : Reader openaiStreamChunk := read_struct
  [field "choices" ok_Choices (fun v k => {| ok_Choices := v; ok_Model := ok_Model k; ok_Usage := ok_Usage k |})
     (read_list no_choice read_chunk_choice);
   field "model" ok_Model (fun v k => {| ok_Choices := ok_Choices k; ok_Model := v; ok_Usage := ok_Usage k |}) read_string;
   field "usage" ok_Usage (fun v k => {| ok_Choices := ok_Choices k; ok_Model := ok_Model k; ok_Usage := v |})
     (read_pointer no_usage read_usage)].

(** The call of an index grows with what comes for it. *)
Definition merge_delta (calls : gmap Z ToolCall) (d : DeltaCall) : gmap Z ToolCall :=
  let p := default no_call (calls !! dl_Index d) in
  <[dl_Index d := call_of (or_default (dl_ID d) (tc_ID p))
      (or_default (tf_Name (dl_Function d)) (tf_Name (tc_Function p)))
      (tf_Arguments (tc_Function p) ++ tf_Arguments (dl_Function d))]> calls.

(** The calls come in the order of the iteration over the map. *)
Definition openai_chunk (calls : gmap Z ToolCall) (k : openaiStreamChunk) : gmap Z ToolCall * StreamChunk :=
  match ok_Choices k with
  | [] => (calls, {| sc_Content := ""; sc_Model := ok_Model k; sc_FinishReason := ""; sc_Done := false;
                     sc_Usage := ok_Usage k; sc_ToolCalls := [] |})
  | c :: _ =>
      let calls := fold_left merge_delta (cc_ToolCalls c) calls in
      (calls,
       {| sc_Content := cc_Content c; sc_Model := ok_Model k;
          sc_FinishReason :=
            match cc_FinishReason c with
            | None => ""
            | Some f => if negb (bool_decide (calls = ∅)) && String.eqb f "function_call"
                        then "tool_calls" else f
            end;
          sc_Done := match cc_FinishReason c with Some _ => true | None => false end;
          sc_Usage := ok_Usage k;
          sc_ToolCalls := match cc_FinishReason c with
                          | Some _ => (row_order (map_to_list calls)).*2
                          | None => []
                          end |})
  end.

Fixpoint openai_chunks (calls : gmap Z ToolCall) (l : list string) : list StreamChunk :=
  match l with
  | [] => []
  | data :: l =>
      if String.eqb data "[DONE]" then []
      else match decoded read_chunk no_chunk data with
           | Err _ => openai_chunks calls l
           | Ok k => let p := openai_chunk calls k in p.2 :: openai_chunks p.1 l
           end
  end.

Definition openai_Stream (n : nat) (b : Backend) (req : CompletionRequest) : result Stream string :=
  resp <-? openai_post n "openai stream request" true b req;
  if negb (rs_Status resp =? 200) then
    if rs_Status resp =? 429 then Err (ErrRateLimited ++ ": " ++ what_came resp)
    else Err (provider_error (rs_Status resp) (error_message (what_came resp)))
  else Ok {| st_Chunks := openai_chunks ∅ (events (what_came resp)); st_Panics := false |}.

(** *** [grok.go] *)

Definition grok_fallback : list string := ["grok-3"; "grok-3-mini"; "grok-3-fast"; "grok-2"].
Definition grok_ListModels (n : nat) (b : Backend) : result (list string) string :=
  if String.eqb (bk_APIKey b) "" then Ok grok_fallback
  else match openai_ListModels n b with
       | Ok (m :: l) => Ok (m :: l)
       | _ => Ok grok_fallback
       end.
Definition grok_Healthy (n : nat) (b : Backend) : bool :=
  if String.eqb (bk_APIKey b) "" then false else openai_Healthy n b.

(** ** [anthropic.go] *)

Record anthropicContentBlock := {
  ab_Type : string;
  ab_Text : string;
  ab_ID : string;
  ab_Name : string;
  ab_Input : string;
  ab_ToolUseID : string;
  ab_Content : string
}.
Definition no_block : anthropicContentBlock :=
  {| ab_Type := ""; ab_Text := ""; ab_ID := ""; ab_Name := ""; ab_Input := ""; ab_ToolUseID := "";
     ab_Content := "" |}.

(** An input that is no document is an error. *)
Definition block_text (k : anthropicContentBlock) : option string :=
  input ← if String.eqb (ab_Input k) "" then Some None else t ← raw_text (ab_Input k); Some (Some t);
  Some (object_text [("type", Some (quoted (ab_Type k))); ("text", nonempty (ab_Text k));
    ("id", nonempty (ab_ID k)); ("name", nonempty (ab_Name k)); ("input", input);
    ("tool_use_id", nonempty (ab_ToolUseID k)); ("content", nonempty (ab_Content k))]).

(** A message: its role and the text of its content. *)
Definition newAnthropicTextMessage (role text : string) : string * string := (role, quoted text).
(** The error is ignored: the content is null then. *)
Definition newAnthropicBlockMessage (role : string) (blocks : list anthropicContentBlock)
    : string * string :=
  (role, match all_texts block_text blocks with Some l => array_text l | None => "null" end).

Definition tool_result (m : Message) : anthropicContentBlock :=
  {| ab_Type := "tool_result"; ab_Text := ""; ab_ID := ""; ab_Name := ""; ab_Input := "";
     ab_ToolUseID := ms_ToolCallID m; ab_Content := ms_Content m |}.
Definition tool_use (c : ToolCall) : anthropicContentBlock :=
  {| ab_Type := "tool_use"; ab_Text := ""; ab_ID := tc_ID c; ab_Name := tf_Name (tc_Function c);
     ab_Input := tf_Arguments (tc_Function c); ab_ToolUseID := ""; ab_Content := "" |}.
Definition text_block (text : string) : anthropicContentBlock :=
  {| ab_Type := "text"; ab_Text := text; ab_ID := ""; ab_Name := ""; ab_Input := "";
     ab_ToolUseID := ""; ab_Content := "" |}.

Definition has_calls (m : Message) : bool :=
  String.eqb (ms_Role m) "assistant" && negb (bool_decide (ms_ToolCalls m = [])).

Definition anthropic_message (m : Message) : string * string :=
  if String.eqb (ms_Role m) "tool" then newAnthropicBlockMessage "user" [tool_result m]
  else if has_calls m then
    newAnthropicBlockMessage "assistant"
      ((if String.eqb (ms_Content m) "" then [] else [text_block (ms_Content m)])
       ++ (tool_use <$> ms_ToolCalls m))%list
  else newAnthropicTextMessage (ms_Role m) (ms_Content m).

(** The last message of the system counts. *)
Definition system_message (messages : list Message) : string :=
  fold_left (fun s m => if String.eqb (ms_Role m) "system" then ms_Content m else s) messages "".
Definition not_system (messages : list Message) : list Message :=
  List.filter (fun m => negb (String.eqb (ms_Role m) "system")) messages.

(** The limit of the answer and the budget of the thinking. *)
Definition anthropic_budget (requested : Z) : Z * Z :=
  let maxTokens := if requested =? 0 then 8192 else requested in
  let budget := Z.quot maxTokens 4 in
  let budget := if budget <? 1024 then 1024 else budget in
  let budget := if 8192 <? budget then 8192 else budget in
  (if maxTokens <=? budget then budget + 1024 else maxTokens, budget).

Definition ephemeral : string := object_text [("type", Some (quoted "ephemeral"))].

(** The last tool carries the mark of the cache. *)
Fixpoint anthropic_tools (l : list ToolDef) : option (list string) :=
  match l with
  | [] => Some []
  | t :: l =>
      schema ← raw_text (fn_Parameters (td_Function t));
      rest ← anthropic_tools l;
      Some (object_text [("name", Some (quoted (fn_Name (td_Function t))));
              ("description", Some (quoted (fn_Description (td_Function t))));
              ("input_schema", Some schema);
              ("cache_control", match l with [] => Some ephemeral | _ => None end)] :: rest)
  end.

Definition anthropic_body (stream : bool) (b : Backend) (req : CompletionRequest) : option string :=
  tools ← anthropic_tools (cq_Tools req);
  let limits := anthropic_budget (cq_MaxTokens req) in
  let system := system_message (cq_Messages req) in
  Some (object_text [("model", Some (quoted (model_of b req)));
    ("max_tokens", Some (itoa limits.1));
    ("system", if String.eqb system "" then None
               else Some (array_text [object_text [("type", Some (quoted "text"));
                 ("text", Some (quoted system)); ("cache_control", Some ephemeral)]]));
    ("messages", Some (slice_text ((fun m =>
       object_text [("role", Some (quoted m.1)); ("content", Some m.2)])
       <$> (anthropic_message <$> not_system (cq_Messages req)))));
    ("stream", if stream then Some "true" else None);
    ("tools", some_of tools);
    ("thinking", Some (object_text [("type", Some (quoted "enabled")); ("budget_tokens", Some (itoa limits.2))]))]).

Definition anthropic_version : string * string := ("anthropic-version", "2023-06-01").
Definition x_api_key (b : Backend) : string * string := ("x-api-key", bk_APIKey b).

Definition anthropic_post (n : nat) (what : string) (stream : bool) (b : Backend) (req : CompletionRequest)
    : result HttpResponse string :=
  body <-? or_error (anthropic_body stream b req) unmarshalable;
  send n what "POST" (bk_BaseURL b ++ "/messages")
    [json_header; x_api_key b; anthropic_version;
     ("anthropic-beta", "prompt-caching-2024-07-31,interleaved-thinking-2025-05-14")] (Some body).

Definition read_block : Reader anthropicContentBlock :=
  let set (i : nat) (v : string) (k : anthropicContentBlock) :=
    let pick (j : nat) (old : string) := if Nat.eqb i j then v else old in
    {| ab_Type := pick 0%nat (ab_Type k); ab_Text := pick 1%nat (ab_Text k); ab_ID := pick 2%nat (ab_ID k);
       ab_Name := pick 3%nat (ab_Name k); ab_Input := pick 4%nat (ab_Input k);
       ab_ToolUseID := pick 5%nat (ab_ToolUseID k); ab_Content := pick 6%nat (ab_Content k) |} in
  read_struct
  [field "type" ab_Type (set 0%nat) read_string; field "text" ab_Text (set 1%nat) read_string;
   field "id" ab_ID (set 2%nat) read_string; field "name" ab_Name (set 3%nat) read_string;
   field "input" ab_Input (set 4%nat) read_raw; field "tool_use_id" ab_ToolUseID (set 5%nat) read_string;
   field "content" ab_Content (set 6%nat) read_string].

Record anthropicUsage := { au_InputTokens : Z; au_OutputTokens : Z }.
Record anthropicResponse := {
  ar_Content : list anthropicContentBlock;
  ar_StopReason : string;
  ar_Model : string;
  ar_Usage : anthropicUsage
}.
Definition read_anthropic : Reader anthropicResponse := read_struct
  [field "content" ar_Content (fun v r => {| ar_Content := v; ar_StopReason := ar_StopReason r; ar_Model := ar_Model r; ar_Usage := ar_Usage r |}) (read_list no_block read_block);
   field "stop_reason" ar_StopReason (fun v r => {| ar_Content := ar_Content r; ar_StopReason := v; ar_Model := ar_Model r; ar_Usage := ar_Usage r |}) read_string;
   field "model" ar_Model (fun v r => {| ar_Content := ar_Content r; ar_StopReason := ar_StopReason r; ar_Model := v; ar_Usage := ar_Usage r |}) read_string;
   field "usage" ar_Usage (fun v r => {| ar_Content := ar_Content r; ar_StopReason := ar_StopReason r; ar_Model := ar_Model r; ar_Usage := v |})
     (read_struct [field "input_tokens" au_InputTokens (fun v u => {| au_InputTokens := v; au_OutputTokens := au_OutputTokens u |}) read_int;
                   field "output_tokens" au_OutputTokens (fun v u => {| au_InputTokens := au_InputTokens u; au_OutputTokens := v |}) read_int])].
Definition no_anthropic : anthropicResponse :=
  {| ar_Content := []; ar_StopReason := ""; ar_Model := ""; ar_Usage := {| au_InputTokens := 0; au_OutputTokens := 0 |} |}.

(** The texts and the calls of an answer. *)
Definition block_texts (l : list anthropicContentBlock) : string :=
  String.concat "" (ab_Text <$> List.filter (fun k => String.eqb (ab_Type k) "text") l).
Definition block_calls (l : list anthropicContentBlock) : list ToolCall :=
  (fun k => call_of (ab_ID k) (ab_Name k) (ab_Input k))
    <$> List.filter (fun k => String.eqb (ab_Type k) "tool_use") l.

Definition anthropic_finish (reason : string) : string :=
  if String.eqb reason "end_turn" then "stop"
  else if String.eqb reason "tool_use" then "tool_calls"
  else if String.eqb reason "max_tokens" then "length" else reason.

Definition anthropic_answer (r : anthropicResponse) : CompletionResponse :=
  let u := ar_Usage r in
  {| cs_Content := block_texts (ar_Content r); cs_Model := ar_Model r;
     cs_FinishReason := anthropic_finish (ar_StopReason r);
     cs_Usage := {| us_PromptTokens := au_InputTokens u; us_CompletionTokens := au_OutputTokens u;
                    us_TotalTokens := wrap64 (au_InputTokens u + au_OutputTokens u) |};
     cs_ToolCalls := block_calls (ar_Content r) |}.

Definition anthropic_refused (status : Z) (body : string) : string :=
  let type := (UnmarshalInto (only "error" (only "type" read_string)) "" body).1 in
  provider_error status (type ++ ": " ++ error_message body).

Definition anthropic_Complete (n : nat) (b : Backend) (req : CompletionRequest)
    : result CompletionResponse string :=
  resp <-? anthropic_post n "anthropic request" false b req;
  body <-? read_all resp;
  if rs_Status resp =? 429 then Err (ErrRateLimited ++ ": " ++ body)
  else if negb (rs_Status resp =? 200) then Err (anthropic_refused (rs_Status resp) body)
  else r <-? decoded read_anthropic no_anthropic body; Ok (anthropic_answer r).

(** The names of a list that are served, or those that are known; every error is ignored. *)
Definition listed_or (fallback : list string) (keep : string -> bool) (r : result HttpResponse string)
    (reader : Reader (list string)) (name : string -> string) : list string :=
  match r with
  | Ok resp =>
      if rs_Status resp =? 200 then
        match rs_Body resp with
        | Ok body =>
            match Decode reader [] body with
            | Ok l => match List.filter keep (name <$> l) with [] => fallback | l => l end
            | Err _ => fallback
            end
        | Err _ => fallback
        end
      else fallback
  | Err _ => fallback
  end.

Definition anthropic_fallback : list string :=
  ["claude-sonnet-4-20250514"; "claude-3-5-sonnet-20241022"; "claude-3-5-haiku-20241022"; "claude-3-opus-20240229"].
Definition anthropic_ListModels (n : nat) (b : Backend) : result (list string) string :=
  if String.eqb (bk_APIKey b) "" then Ok anthropic_fallback
  else Ok (listed_or anthropic_fallback (fun m => HasPrefix m "claude-")
             (fetch n (bk_BaseURL b ++ "/models?limit=50") [x_api_key b; anthropic_version])
             (read_names "data" "id") id).

Definition ping (b : Backend) : CompletionRequest :=
  internal_request [{| ms_Role := "user"; ms_Content := "ping"; ms_Name := ""; ms_ToolCallID := "";
                       ms_ToolCalls := [] |}] [] "" 5 (bk_DefaultModel b) "".
Definition anthropic_Healthy (n : nat) (b : Backend) : bool := succeeded (anthropic_Complete n b (ping b)).

(** *** The stream *)

Definition member_string (name : string) (l : list (string * Json)) : option string :=
  match member name l with Some (JStr s) => Some s | _ => None end.
Definition member_object (name : string) (l : list (string * Json)) : option (list (string * Json)) :=
  match member name l with Some (JObj o) => Some o | _ => None end.

(** A number cut to an integer. *)
Definition number_int (text : string) : Z :=
  let '(negative, s) := match text with String "-" s => (true, s) | s => (false, s) end in
  let int := take_while is_digit s in
  let rest := str_drop (String.length int) s in
  let frac := match rest with String "." t => take_while is_digit t | _ => "" end in
  let rest := match rest with String "." t => str_drop (String.length frac) t | r => r end in
  let e := match rest with String _ t => default 0 (Atoi t) | "" => 0 end in
  let e := e - Z.of_nat (String.length frac) in
  let digits := default 0 (digits_value 0 (int ++ frac)) in
  let n := if 0 <=? e then digits * 10 ^ e else Z.quot digits (10 ^ (- e)) in
  wrap64 (if negative : bool then - n else n).

Record SseState := { se_Model : string; se_Calls : list ToolCall; se_Active : option ToolCall }.
Definition with_active (a : option ToolCall) (s : SseState) : SseState :=
  {| se_Model := se_Model s; se_Calls := se_Calls s; se_Active := a |}.

(** What an event does: the state, and a chunk. *)
Definition block_start (e : list (string * Json)) (s : SseState) : SseState :=
  match member_object "content_block" e with
  | Some cb =>
      if String.eqb (default "" (member_string "type" cb)) "tool_use"
      then with_active (Some (call_of (default "" (member_string "id" cb))
                                (default "" (member_string "name" cb)) "")) s
      else s
  | None => s
  end.
Definition block_delta (e : list (string * Json)) (s : SseState) : SseState * option StreamChunk :=
  match member_object "delta" e with
  | None => (s, None)
  | Some d =>
      let type := default "" (member_string "type" d) in
      if String.eqb type "text_delta"
      then (s, Some (text_chunk (se_Model s) (default "" (member_string "text" d))))
      else if String.eqb type "input_json_delta" then
        (with_active ((fun c => call_of (tc_ID c) (tf_Name (tc_Function c))
             (tf_Arguments (tc_Function c) ++ default "" (member_string "partial_json" d)))
           <$> se_Active s) s, None)
      else (s, None)
  end.
Definition block_stop (s : SseState) : SseState :=
  match se_Active s with
  | Some c => {| se_Model := se_Model s; se_Calls := (se_Calls s ++ [c])%list; se_Active := None |}
  | None => s
  end.
(** The assertion that the count is a number panics where it is not: then there is no chunk. *)
Definition message_delta (e : list (string * Json)) (s : SseState) : option StreamChunk :=
  let reason := match member_object "delta" e with
                | Some d => default "" (anthropic_finish <$> member_string "stop_reason" d)
                | None => ""
                end in
  let chunk usage :=
    Some {| sc_Content := ""; sc_Model := se_Model s; sc_FinishReason := reason; sc_Done := true;
            sc_Usage := usage; sc_ToolCalls := se_Calls s |} in
  match member_object "usage" e with
  | None => chunk None
  | Some u =>
      match member "output_tokens" u with
      | Some (JNum t) => chunk (Some {| us_PromptTokens := 0; us_CompletionTokens := number_int t;
                                        us_TotalTokens := 0 |})
      | _ => None
      end
  end.

(** Events that are no objects are left out. *)
Definition event_of (data : string) : option (list (string * Json)) :=
  match Unmarshal data with Some (JObj l) => Some l | _ => None end.

Definition then_chunk (c : StreamChunk) (s : Stream) : Stream :=
  {| st_Chunks := c :: st_Chunks s; st_Panics := st_Panics s |}.
Definition stream_end (panics : bool) : Stream := {| st_Chunks := []; st_Panics := panics |}.

Fixpoint anthropic_events (s : SseState) (l : list string) : Stream :=
  match l with
  | [] => stream_end false
  | data :: l =>
      match event_of data with
      | None => anthropic_events s l
      | Some e =>
          let type := default "" (member_string "type" e) in
          if String.eqb type "message_start" then
            anthropic_events
              {| se_Model := match member_object "message" e with
                             | Some m => default (se_Model s) (member_string "model" m)
                             | None => se_Model s
                             end;
                 se_Calls := se_Calls s; se_Active := se_Active s |} l
          else if String.eqb type "content_block_start" then anthropic_events (block_start e s) l
          else if String.eqb type "content_block_delta" then
            match block_delta e s with
            | (s, Some c) => then_chunk c (anthropic_events s l)
            | (s, None) => anthropic_events s l
            end
          else if String.eqb type "content_block_stop" then anthropic_events (block_stop s) l
          else if String.eqb type "message_delta" then
            match message_delta e s with
            | Some c => then_chunk c (anthropic_events s l)
            | None => stream_end true
            end
          else if String.eqb type "message_stop" then stream_end false
          else anthropic_events s l
      end
  end.

Definition anthropic_Stream (n : nat) (b : Backend) (req : CompletionRequest) : result Stream string :=
  resp <-? anthropic_post n "anthropic stream request" true b req;
  if negb (rs_Status resp =? 200) then
    if rs_Status resp =? 429 then Err (ErrRateLimited ++ ": " ++ what_came resp)
    else Err (anthropic_refused (rs_Status resp) (what_came resp))
  else Ok (anthropic_events {| se_Model := ""; se_Calls := []; se_Active := None |}
             (events (what_came resp))).

(** ** [gemini.go] *)

(** What a value is after it was read into an [interface{}] and written again. *)
Fixpoint as_interface (v : Json) : Json :=
  match v with
  | JNum t => JNum (number_text t)
  | JArr l => JArr (List.map as_interface l)
  | JObj l => obj (data_of (List.map (fun kv => (kv.1, as_interface kv.2)) l))
  | v => v
  end.
(** A map, nil or not. *)
Definition read_map : Reader (option Json) := fun raw old =>
  match Unmarshal raw with
  | Some (JObj l) => (Some (as_interface (JObj l)), false)
  | Some JNull => (None, false)
  | _ => (old, true)
  end.
Definition map_text (m : option Json) : string := match m with Some v => Marshal v | None => "null" end.

Record geminiPart := {
  gp_Text : string;
  gp_Call : option (string * option Json);
  gp_Response : option (string * option Json)
}.
Definition text_part (s : string) : geminiPart := {| gp_Text := s; gp_Call := None; gp_Response := None |}.
Definition call_part (name : string) (args : option Json) : geminiPart :=
  {| gp_Text := ""; gp_Call := Some (name, args); gp_Response := None |}.
Definition response_part (name : string) (r : option Json) : geminiPart :=
  {| gp_Text := ""; gp_Call := None; gp_Response := Some (name, r) |}.

Definition part_text (p : geminiPart) : string :=
  object_text [("text", nonempty (gp_Text p));
    ("functionCall", (fun c => object_text [("name", Some (quoted c.1)); ("args", Some (map_text c.2))]) <$> gp_Call p);
    ("functionResponse", (fun c => object_text [("name", Some (quoted c.1)); ("response", Some (map_text c.2))]) <$> gp_Response p)].
Definition content_text (role : string) (parts : list geminiPart) : string :=
  object_text [("role", nonempty role); ("parts", Some (array_text (part_text <$> parts)))].

(** The names of the calls by their identifiers. *)
Definition call_names (messages : list Message) : gmap string string :=
  fold_left (fun m c =>
    if String.eqb (tc_ID c) "" || String.eqb (tf_Name (tc_Function c)) "" then m
    else <[tc_ID c := tf_Name (tc_Function c)]> m) (concat (ms_ToolCalls <$> messages)) ∅.

(** The result of a tool: a map, or the text under "result". *)
Definition tool_answer (content : string) : option Json :=
  match Unmarshal content with
  | Some (JObj l) => Some (as_interface (JObj l))
  | Some JNull => None
  | _ => Some (JObj [("result", JStr content)])
  end.
Definition call_args (arguments : string) : option Json :=
  match Unmarshal arguments with Some (JObj l) => Some (as_interface (JObj l)) | _ => None end.

(** [name_of] is the name of the function that a result belongs to. *)
Definition gemini_content (name_of : Message -> string) (m : Message) : string :=
  if String.eqb (ms_Role m) "tool"
  then content_text "function" [response_part (name_of m) (tool_answer (ms_Content m))]
  else if has_calls m then
    content_text "model" ((if String.eqb (ms_Content m) "" then [] else [text_part (ms_Content m)])
      ++ ((fun c => call_part (tf_Name (tc_Function c)) (call_args (tf_Arguments (tc_Function c)))) <$> ms_ToolCalls m))%list
  else content_text (if String.eqb (ms_Role m) "assistant" then "model" else "user") [text_part (ms_Content m)].

(** With the names of the calls; the stream only has the name in the message. *)
Definition complete_name (messages : list Message) (m : Message) : string :=
  or_default (or_default (ms_Name m) (default "" (call_names messages !! ms_ToolCallID m))) "tool_result".
Definition stream_name (m : Message) : string := ms_Name m.

Definition gemini_budget (requested : Z) : Z :=
  let budget := Z.quot requested 4 in
  let budget := if budget <? 1024 then 1024 else budget in
  if 8192 <? budget then 8192 else budget.

Definition gemini_tool (t : ToolDef) : option string :=
  parameters ← raw_text (fn_Parameters (td_Function t));
  Some (object_text [("name", Some (quoted (fn_Name (td_Function t))));
    ("description", Some (quoted (fn_Description (td_Function t)))); ("parameters", Some parameters)]).

Definition gemini_body (name_of : Message -> string) (model : string) (req : CompletionRequest)
    : option string :=
  temperature ← float_member (cq_Temperature req);
  topP ← float_member (cq_TopP req);
  tools ← all_texts gemini_tool (cq_Tools req);
  let messages := cq_Messages req in
  Some (object_text [("contents", Some (slice_text (gemini_content name_of <$> not_system messages)));
    ("systemInstruction",
      if existsb (fun m => String.eqb (ms_Role m) "system") messages
      then Some (content_text "" [text_part (system_message messages)]) else None);
    ("generationConfig", Some (object_text [("maxOutputTokens", nonzero (cq_MaxTokens req));
       ("temperature", temperature); ("topP", topP); ("stopSequences", some_of (quoted <$> cq_Stop req));
       ("thinkingConfig", if Contains model "2.5"
          then Some (object_text [("thinkingBudget", Some (itoa (gemini_budget (cq_MaxTokens req))))])
          else None)]));
    ("tools", match tools with
              | [] => None
              | l => Some (array_text [object_text [("functionDeclarations", Some (array_text l))]])
              end)]).

Record Candidate := { cd_Parts : list geminiPart; cd_FinishReason : string }.
Record UsageMetadata := { um_Prompt : Z; um_Candidates : Z; um_Thoughts : Z; um_Total : Z }.
Record geminiResponse := { gr_Candidates : list Candidate; gr_Usage : UsageMetadata; gr_ModelVersion : string }.

Definition read_named (member : string) : Reader (string * option Json) := read_struct
  [field "name" fst (fun v c => (v, c.2)) read_string; field member snd (fun v c => (c.1, v)) read_map].
Definition read_part : Reader geminiPart := read_struct
  [field "text" gp_Text (fun v p => {| gp_Text := v; gp_Call := gp_Call p; gp_Response := gp_Response p |}) read_string;
   field "functionCall" gp_Call (fun v p => {| gp_Text := gp_Text p; gp_Call := v; gp_Response := gp_Response p |})
     (read_pointer ("", None) (read_named "args"));
   field "functionResponse" gp_Response (fun v p => {| gp_Text := gp_Text p; gp_Call := gp_Call p; gp_Response := v |})
     (read_pointer ("", None) (read_named "response"))].
Definition read_candidate : Reader Candidate := read_struct
  [field "content" cd_Parts (fun v c => {| cd_Parts := v; cd_FinishReason := cd_FinishReason c |})
     (only "parts" (read_list (text_part "") read_part));
   field "finishReason" cd_FinishReason (fun v c => {| cd_Parts := cd_Parts c; cd_FinishReason := v |}) read_string].
Definition read_metadata : Reader UsageMetadata := read_struct
  [field "promptTokenCount" um_Prompt (fun v u => {| um_Prompt := v; um_Candidates := um_Candidates u; um_Thoughts := um_Thoughts u; um_Total := um_Total u |}) read_int;
   field "candidatesTokenCount" um_Candidates (fun v u => {| um_Prompt := um_Prompt u; um_Candidates := v; um_Thoughts := um_Thoughts u; um_Total := um_Total u |}) read_int;
   field "thoughtsTokenCount" um_Thoughts (fun v u => {| um_Prompt := um_Prompt u; um_Candidates := um_Candidates u; um_Thoughts := v; um_Total := um_Total u |}) read_int;
   field "totalTokenCount" um_Total (fun v u => {| um_Prompt := um_Prompt u; um_Candidates := um_Candidates u; um_Thoughts := um_Thoughts u; um_Total := v |}) read_int].
Definition no_gemini : geminiResponse :=
  {| gr_Candidates := []; gr_Usage := {| um_Prompt := 0; um_Candidates := 0; um_Thoughts := 0; um_Total := 0 |};
     gr_ModelVersion := "" |}.
Definition read_gemini : Reader geminiResponse := read_struct
  [field "candidates" gr_Candidates (fun v r => {| gr_Candidates := v; gr_Usage := gr_Usage r; gr_ModelVersion := gr_ModelVersion r |})
     (read_list {| cd_Parts := []; cd_FinishReason := "" |} read_candidate);
   field "usageMetadata" gr_Usage (fun v r => {| gr_Candidates := gr_Candidates r; gr_Usage := v; gr_ModelVersion := gr_ModelVersion r |}) read_metadata;
   field "modelVersion" gr_ModelVersion (fun v r => {| gr_Candidates := gr_Candidates r; gr_Usage := gr_Usage r; gr_ModelVersion := v |}) read_string].

(** One attempt: an answer, an error that is final, or one after which it is tried again. *)
Inductive Attempt := Answered (resp : HttpResponse) | Final (e : string) | Again (e : string).

(** [Complete] reads the answer before it looks at the status: [reading]. *)
Definition gemini_attempt (reading : bool) (what url body : string) (n : nat) : Attempt :=
  match NewRequest "POST" url (Some body) with
  | Err e => Final ("create request: " ++ e)
  | Ok req =>
      match client_Do n (set_header "Content-Type" "application/json" req) with
      | Err e => Again (what ++ ": " ++ e)
      | Ok resp =>
          let refused := provider_error (rs_Status resp) (error_message (what_came resp)) in
          match (if reading then rs_Body resp else Ok "") with
          | Err e => Again ("read response: " ++ e)
          | Ok _ =>
              if (rs_Status resp =? 429) || (rs_Status resp =? 503) then Again refused
              else if negb (rs_Status resp =? 200) then Final refused
              else Answered resp
          end
      end
  end.

Fixpoint gemini_attempts (attempt : nat -> Attempt) (k n : nat) (lastErr : string)
    : result HttpResponse string :=
  match k with
  | O => Err lastErr
  | S k =>
      match attempt n with
      | Answered resp => Ok resp
      | Final e => Err e
      | Again e => gemini_attempts attempt k (S n) e
      end
  end.
Definition maxRetries : nat := 3.

(** The key is a part of the address. *)
Definition gemini_url (b : Backend) (model method : string) : string :=
  bk_BaseURL b ++ "/models/" ++ model ++ ":" ++ method ++ "key=" ++ bk_APIKey b.

(** The calls of the parts; [number] gives the [i]-th part or call its identifier. *)
Definition gemini_call (i : nat) (c : string * option Json) : ToolCall :=
  call_of ("gemini-call-" ++ itoa (Z.of_nat i)) c.1 (map_text c.2).
Fixpoint part_calls (i : nat) (l : list geminiPart) : list ToolCall :=
  match l with
  | [] => []
  | p :: l => match gp_Call p with
              | Some c => gemini_call i c :: part_calls (S i) l
              | None => part_calls (S i) l
              end
  end.

Definition gemini_answer (model : string) (r : geminiResponse) : result CompletionResponse string :=
  match gr_Candidates r with
  | [] => Err "gemini returned no candidates"
  | c :: _ =>
      let calls := part_calls 0 (cd_Parts c) in
      let finish := match calls with [] => ToLower (cd_FinishReason c) | _ => "tool_calls" end in
      let u := gr_Usage r in
      Ok {| cs_Content := String.concat "" (gp_Text <$> cd_Parts c); cs_Model := model;
            cs_FinishReason := if String.eqb finish "max_tokens" then "length" else finish;
            cs_Usage := {| us_PromptTokens := um_Prompt u;
                           us_CompletionTokens := if (um_Candidates u =? 0) && (0 <? um_Thoughts u)
                                                  then um_Thoughts u else um_Candidates u;
                           us_TotalTokens := um_Total u |};
            cs_ToolCalls := calls |}
  end.

(** The numbers of the attempts begin at [3 * n]. *)
Definition gemini_Complete (n : nat) (b : Backend) (req : CompletionRequest)
    : result CompletionResponse string :=
  let model := model_of b req in
  body <-? or_error (gemini_body (complete_name (cq_Messages req)) model req) unmarshalable;
  let url := gemini_url b model "generateContent?" in
  resp <-? gemini_attempts (gemini_attempt true "gemini request" url body) maxRetries (3 * n)%nat "";
  r <-? decoded read_gemini no_gemini (what_came resp);
  gemini_answer model r.

Definition gemini_fallback : list string :=
  ["gemini-2.5-flash"; "gemini-2.5-pro"; "gemini-2.0-flash"; "gemini-1.5-pro"; "gemini-1.5-flash"].
Definition gemini_ListModels (n : nat) (b : Backend) : result (list string) string :=
  if String.eqb (bk_APIKey b) "" then Ok gemini_fallback
  else Ok (listed_or gemini_fallback (fun m => HasPrefix m "gemini-")
             (fetch n (bk_BaseURL b ++ "/models?key=" ++ bk_APIKey b) [])
             (read_names "models" "name") (fun m => TrimPrefix m "models/")).
Definition gemini_Healthy (n : nat) (b : Backend) : bool :=
  if String.eqb (bk_APIKey b) "" then false else succeeded (gemini_Complete n b (ping b)).

(** *** The stream *)

(** The calls so far, which go with the chunk that ends. *)
Definition gemini_chunk (model : string) (calls : list ToolCall) (r : geminiResponse)
    : list ToolCall * StreamChunk :=
  let parts := match gr_Candidates r with c :: _ => cd_Parts c | [] => [] end in
  let reason := match gr_Candidates r with c :: _ => cd_FinishReason c | [] => "" end in
  let calls := fold_left (fun cs p => match gp_Call p with
                                      | Some c => (cs ++ [gemini_call (List.length cs) c])%list
                                      | None => cs end) parts calls in
  let finish := if String.eqb (ToLower reason) "max_tokens" then "length" else ToLower reason in
  let with_calls := negb (bool_decide (calls = [])) && negb (String.eqb finish "") in
  let u := gr_Usage r in
  (calls,
   {| sc_Content := String.concat "" (gp_Text <$> parts); sc_Model := model;
      sc_FinishReason := if with_calls then "tool_calls" else finish;
      sc_Done := String.eqb reason "STOP" || with_calls;
      sc_Usage := if 0 <? um_Total u
                  then Some {| us_PromptTokens := um_Prompt u; us_CompletionTokens := um_Candidates u;
                               us_TotalTokens := um_Total u |} else None;
      sc_ToolCalls := if with_calls then calls else [] |}).

Fixpoint gemini_chunks (model : string) (calls : list ToolCall) (l : list string) : list StreamChunk :=
  match l with
  | [] => []
  | data :: l =>
      match decoded read_gemini no_gemini data with
      | Err _ => gemini_chunks model calls l
      | Ok r => let p := gemini_chunk model calls r in p.2 :: gemini_chunks model p.1 l
      end
  end.

Definition gemini_Stream (n : nat) (b : Backend) (req : CompletionRequest) : result Stream string :=
  let model := model_of b req in
  body <-? or_error (gemini_body stream_name model req) unmarshalable;
  let url := gemini_url b model "streamGenerateContent?alt=sse&" in
  resp <-? gemini_attempts (gemini_attempt false "gemini stream request" url body) maxRetries (3 * n)%nat "";
  Ok {| st_Chunks := gemini_chunks model [] (events (what_came resp)); st_Panics := false |}.

(** ** [ollama.go] *)

Definition ollama_message_text (m : Message) : string :=
  object_text [("role", Some (quoted (ms_Role m))); ("content", Some (quoted (ms_Content m)));
    ("tool_calls", if has_calls m then some_of (tool_call_text <$> ms_ToolCalls m) else None);
    ("tool_call_id", if String.eqb (ms_Role m) "tool" then nonempty (ms_ToolCallID m) else None)].

Definition ollama_body (stream : bool) (b : Backend) (req : CompletionRequest) : option string :=
  temperature ← float_member (cq_Temperature req);
  topP ← float_member (cq_TopP req);
  tools ← all_texts tool_text (cq_Tools req);
  Some (object_text [("model", Some (quoted (model_of b req)));
    ("messages", Some (slice_text (ollama_message_text <$> cq_Messages req)));
    ("stream", Some (bool_text stream));
    ("options", Some (object_text [("temperature", temperature); ("top_p", topP);
       ("num_predict", nonzero (cq_MaxTokens req)); ("stop", some_of (quoted <$> cq_Stop req))]));
    ("tools", some_of tools)]).

Record ollamaChatResponse := {
  ol_Message : Message;
  ol_Done : bool;
  ol_Model : string;
  ol_PromptEvalCount : Z;
  ol_EvalCount : Z
}.
Definition read_ollama_message : Reader Message := read_struct
  [field "role" ms_Role (fun v m => {| ms_Role := v; ms_Content := ms_Content m; ms_Name := ms_Name m;
     ms_ToolCallID := ms_ToolCallID m; ms_ToolCalls := ms_ToolCalls m |}) read_string;
   field "content" ms_Content (fun v m => {| ms_Role := ms_Role m; ms_Content := v; ms_Name := ms_Name m;
     ms_ToolCallID := ms_ToolCallID m; ms_ToolCalls := ms_ToolCalls m |}) read_string;
   field "tool_calls" ms_ToolCalls (fun v m => {| ms_Role := ms_Role m; ms_Content := ms_Content m;
     ms_Name := ms_Name m; ms_ToolCallID := ms_ToolCallID m; ms_ToolCalls := v |})
     (read_list no_call read_tool_call);
   field "tool_call_id" ms_ToolCallID (fun v m => {| ms_Role := ms_Role m; ms_Content := ms_Content m;
     ms_Name := ms_Name m; ms_ToolCallID := v; ms_ToolCalls := ms_ToolCalls m |}) read_string].
Definition no_ollama : ollamaChatResponse :=
  {| ol_Message := no_message; ol_Done := false; ol_Model := ""; ol_PromptEvalCount := 0; ol_EvalCount := 0 |}.
Definition read_ollama : Reader ollamaChatResponse := read_struct
  [field "message" ol_Message (fun v r => {| ol_Message := v; ol_Done := ol_Done r; ol_Model := ol_Model r;
     ol_PromptEvalCount := ol_PromptEvalCount r; ol_EvalCount := ol_EvalCount r |}) read_ollama_message;
   field "done" ol_Done (fun v r => {| ol_Message := ol_Message r; ol_Done := v; ol_Model := ol_Model r;
     ol_PromptEvalCount := ol_PromptEvalCount r; ol_EvalCount := ol_EvalCount r |}) read_bool;
   field "model" ol_Model (fun v r => {| ol_Message := ol_Message r; ol_Done := ol_Done r; ol_Model := v;
     ol_PromptEvalCount := ol_PromptEvalCount r; ol_EvalCount := ol_EvalCount r |}) read_string;
   field "prompt_eval_count" ol_PromptEvalCount (fun v r => {| ol_Message := ol_Message r; ol_Done := ol_Done r;
     ol_Model := ol_Model r; ol_PromptEvalCount := v; ol_EvalCount := ol_EvalCount r |}) read_int;
   field "eval_count" ol_EvalCount (fun v r => {| ol_Message := ol_Message r; ol_Done := ol_Done r;
     ol_Model := ol_Model r; ol_PromptEvalCount := ol_PromptEvalCount r; ol_EvalCount := v |}) read_int].

Definition ollama_post (n : nat) (what : string) (stream : bool) (b : Backend) (req : CompletionRequest)
    : result HttpResponse string :=
  body <-? or_error (ollama_body stream b req) unmarshalable;
  send n what "POST" (bk_BaseURL b ++ "/api/chat") [json_header] (Some body).
Definition ollama_refused (status : Z) (body : string) : string :=
  ErrProviderError ++ ": ollama returned " ++ itoa status ++ ": " ++ body.
Definition ollama_usage (r : ollamaChatResponse) : Usage :=
  {| us_PromptTokens := ol_PromptEvalCount r; us_CompletionTokens := ol_EvalCount r;
     us_TotalTokens := wrap64 (ol_PromptEvalCount r + ol_EvalCount r) |}.

Definition ollama_Complete (n : nat) (b : Backend) (req : CompletionRequest)
    : result CompletionResponse string :=
  resp <-? ollama_post n "ollama request" false b req;
  body <-? read_all resp;
  if negb (rs_Status resp =? 200) then Err (ollama_refused (rs_Status resp) body)
  else
    r <-? decoded read_ollama no_ollama body;
    Ok {| cs_Content := ms_Content (ol_Message r); cs_Model := ol_Model r;
          cs_FinishReason := match ms_ToolCalls (ol_Message r) with [] => "stop" | _ => "tool_calls" end;
          cs_Usage := ollama_usage r; cs_ToolCalls := ms_ToolCalls (ol_Message r) |}.

Definition ollama_ListModels (n : nat) (b : Backend) : result (list string) string :=
  resp <-? fetch n (bk_BaseURL b ++ "/api/tags") [];
  body <-? rs_Body resp;
  Decode (read_names "models" "name") [] body.
(** A URL that cannot be parsed gives no request, with which the client panics; the server answers
    500 then, which counts as unhealthy. *)
Definition ollama_Healthy (n : nat) (b : Backend) : bool :=
  match fetch n (bk_BaseURL b ++ "/api/tags") [] with Ok resp => rs_Status resp =? 200 | Err _ => false end.

Fixpoint ollama_chunks (l : list string) : list StreamChunk :=
  match l with
  | [] => []
  | line :: l =>
      if String.eqb line "" then ollama_chunks l
      else match decoded read_ollama no_ollama line with
           | Err _ => ollama_chunks l
           | Ok r =>
               {| sc_Content := ms_Content (ol_Message r); sc_Model := ol_Model r;
                  sc_FinishReason := if ol_Done r then "stop" else ""; sc_Done := ol_Done r;
                  sc_Usage := if ol_Done r then Some (ollama_usage r) else None;
                  sc_ToolCalls := [] |} :: ollama_chunks l
           end
  end.
Definition ollama_Stream (n : nat) (b : Backend) (req : CompletionRequest) : result Stream string :=
  resp <-? ollama_post n "ollama stream request" true b req;
  if negb (rs_Status resp =? 200) then Err (ollama_refused (rs_Status resp) (what_came resp))
  else Ok {| st_Chunks := ollama_chunks (scanned (what_came resp)); st_Panics := false |}.

(** ** The interface *)

(** The methods of the provider: those of OpenAI serve Grok too, but for these two. *)
Definition served {A} (b : Backend) (openai grok anthropic gemini ollama : nat -> Backend -> A) (n : nat) : A :=
  if String.eqb (bk_Name b) "anthropic" then anthropic n b
  else if String.eqb (bk_Name b) "gemini" then gemini n b
  else if String.eqb (bk_Name b) "ollama" then ollama n b
  else if String.eqb (bk_Name b) "grok" then grok n b
  else openai n b.

Definition http_clients : Clients := {|
  client_Complete n b req :=
    let on f n b := f n b req in
    served b (on openai_Complete) (on openai_Complete) (on anthropic_Complete) (on gemini_Complete) (on ollama_Complete) n;
  client_Stream n b req :=
    let on f n b := f n b req in
    served b (on openai_Stream) (on openai_Stream) (on anthropic_Stream) (on gemini_Stream) (on ollama_Stream) n;
  client_Healthy n b := served b openai_Healthy grok_Healthy anthropic_Healthy gemini_Healthy ollama_Healthy n;
  client_ListModels n b := served b openai_ListModels grok_ListModels anthropic_ListModels gemini_ListModels ollama_ListModels n
|}.

End clients.
