(* ===== verification/LlmLeaks.v ===== *)
(** * What the clients of the language models promise, and what they give away

    The budget of Anthropic's thinking fits its bounds.  Any user can
    bring an error to light that carries the key of Gemini, and any user can stop the server.
    The witnesses use a toy HTTP client. *)

From Stdlib Require Import ZArith Lia Ascii String.
From stdpp Require Import base list gmap strings sorting.
From S2P Require Import Prelude GoStrings SwarmDb Db GoFloat Redact Fingerprint Http Json KeychainCrypto KeychainStore Keychain KeychainExamples Vault VaultSafety ServerExamples Mcp McpLimits Llm LlmSafety LlmClients.
Local Open Scope string_scope.
Local Open Scope rtv_scope.
Local Open Scope Z_scope.

(** ** Budgets *)

(** The budget of the thinking that a request to Anthropic asks for lies between 1024 and
    8192 tokens and below the limit of the answer, and the limit is at least what was asked for,
    whatever number was asked for. *)
Theorem anthropic_budget_bounds requested :
  let '(limit, budget) := anthropic_budget requested in
  1024 <= budget <= 8192 /\ budget < limit /\ requested <= limit.
Proof.
  unfold anthropic_budget. destruct (Z.eqb_spec requested 0) as [->|_]; [by split_and!|].
  destruct (_ <? 1024) eqn:E1; destruct (8192 <? _) eqn:E2; destruct (_ <=? _) eqn:E3; lia.
Qed.

(** ** Requests *)

Lemma headers_of l rq :
  fold_left (fun r h => set_header h.1 h.2 r) l rq =
  {| rq_Method := rq_Method rq; rq_URL := rq_URL rq; rq_APIKey := rq_APIKey rq;
     rq_Headers := (rq_Headers rq ++ l)%list; rq_Body := rq_Body rq |}.
Proof.
  revert rq. induction l as [|[k v] l IH]; intros rq; cbn; [rewrite app_nil_r; by destruct rq|].
  rewrite IH. cbn. by rewrite <- app_assoc.
Qed.

(** ** The key of Gemini *)

Definition carries (s t : string) : Prop := exists p r, t = p ++ s ++ r.

Lemma carries_trans s t u : carries s t -> carries t u -> carries s u.
Proof.
  intros (p & r & ->) (p' & r' & ->). exists (p' ++ p), (r ++ r'). by rewrite !string_app_assoc.
Qed.

(** A question with a model of the user's choice. *)
Definition peek (model : string) : CompletionRequest :=
  internal_request [{| ms_Role := "user"; ms_Content := "hi"; ms_Name := ""; ms_ToolCallID := "";
                       ms_ToolCalls := [] |}] [] "" 0 model "".

Section attacks.
Context `{UnicodeTables} `{FoldTables} `{RowOrder} `{UrlScheme} `{HttpClient} `{FloatText}.
#[local] Existing Instance http_clients.
Context {V : Type} (storeFor : Z -> UUID -> SecretStore V).
Variables (keychain : bool) (sanitize : string -> string -> string) (wsHub : bool).
Notation run := (llm_run storeFor keychain sanitize wsHub).

Lemma gemini_unparsable n b model e :
  model <> "" -> url_scheme (gemini_url b model "generateContent?") = Err e ->
  gemini_Complete n b (peek model) = Err ("create request: " ++ e).
Proof.
  intros Hm E. unfold gemini_Complete, model_of, or_default.
  change (cq_Model (peek model)) with model. rewrite (proj2 (String.eqb_neq model "") Hm).
  destruct (gemini_body _ _ _) as [body|] eqn:Eb; [|by unfold gemini_body in Eb].
  cbn [or_error and_then]. cbn [gemini_attempts maxRetries]. unfold gemini_attempt, NewRequest.
  change (negb (forallb token_char (bytes "POST"))) with false. by rewrite E.
Qed.

Lemma gemini_stream_unparsable n b model e :
  model <> "" -> url_scheme (gemini_url b model "streamGenerateContent?alt=sse&") = Err e ->
  gemini_Stream n b (peek model) = Err ("create request: " ++ e).
Proof.
  intros Hm E. unfold gemini_Stream, model_of, or_default.
  change (cq_Model (peek model)) with model. rewrite (proj2 (String.eqb_neq model "") Hm).
  destruct (gemini_body _ _ _) as [body|] eqn:Eb; [|by unfold gemini_body in Eb].
  cbn [or_error and_then]. cbn [gemini_attempts maxRetries]. unfold gemini_attempt, NewRequest.
  change (negb (forallb token_char (bytes "POST"))) with false. by rewrite E.
Qed.

Lemma set_primaries_keep {A} (f : A -> string) l r :
  let r' := fold_left (fun r x => set_primary (f x) r) l r in
  rg_providers r' = rg_providers r /\ rg_meta r' = rg_meta r.
Proof. revert r. induction l as [|x l IH]; intros r; [done|]. cbn. by destruct (IH (set_primary (f x) r)) as [-> ->]. Qed.

Lemma filter_none {A} (f : A -> bool) l : (forall x, x ∈ l -> f x = false) -> List.filter f l = [].
Proof.
  induction l as [|x l IH]; intros Hl; [done|]. cbn. rewrite Hl by by left. apply IH.
  intros y Hy. apply Hl. by right.
Qed.

(** A registry whose only provider in the order is this one. *)
Definition alone (name : string) (b : Backend) (r : Registry) : Prop :=
  rg_primary r = name /\ rg_fallbacks r = [] /\ rg_providers r !! name = Some b /\ unconfigured name r = false.

Lemma stream_fails_alone g fs b model e e' :
  alone "gemini" b (gw_registry g) -> bk_Name b = "gemini" -> model <> "" ->
  url_scheme (gemini_url b model "generateContent?") = Err e ->
  url_scheme (gemini_url b model "streamGenerateContent?alt=sse&") = Err e' ->
  (StreamLLMCompletion (V := V) (Ok (peek model)) (MkRun g fs)).1 =
  writeError 502 ("LLM streaming error: all providers failed: create request: " ++ e).
Proof.
  intros (Hp & Hf & Hb & Hu) Hn Hm E E'.
  assert (forall n, client_Stream n b (peek model) = Err ("create request: " ++ e')) as Hs.
  { intros n. cbn [client_Stream http_clients]. unfold served. rewrite Hn. cbn beta.
    by apply gemini_stream_unparsable. }
  assert (forall n, client_Complete n b (peek model) = Err ("create request: " ++ e)) as Hc.
  { intros n. cbn [client_Complete http_clients]. unfold served. rewrite Hn. cbn beta.
    by apply gemini_unparsable. }
  set (n := List.length (gw_trace g)). set (g1 := record (Asked b) g).
  assert (try_streams (V := V) (peek model) ["gemini"] (MkRun g fs) = (None, MkRun g1 fs)) as Estream.
  { cbn [try_streams]. rewrite (bind_run _ _ _ _ (MkRun g fs) (eq_refl : look (GetProvider "gemini") (MkRun g fs) = _)).
    unfold GetProvider. cbn [tables]. rewrite Hb.
    rewrite (bind_run _ _ _ (Err ("create request: " ++ e')) (MkRun g1 fs)); [done|].
    unfold ask_stream. rewrite (bind_run _ _ _ _ (MkRun g1 fs)
      (eq_refl : ask b (fun n b => client_Stream n b (peek model)) (MkRun g fs) = _)). by rewrite Hs. }
  assert (Complete (V := V) (peek model) (MkRun g1 fs) =
    (Err ("all providers failed: create request: " ++ e), MkRun (record (Asked b) g1) fs)) as Ecomplete.
  { unfold Complete. rewrite (bind_run _ _ _ [{| re_Provider := "gemini"; re_Model := "" |}] (MkRun g1 fs)).
    2: { unfold look, reads. cbn. unfold routeOrder, role_route. rewrite Hp, Hf. by rewrite andb_false_r. }
    cbn [try_order]. rewrite (bind_run _ _ _ (Some b) (MkRun g1 fs)).
    2: { unfold look, reads, usable. cbn. by rewrite Hu, Hb. }
    rewrite (bind_run _ _ _ _ (MkRun (record (Asked b) g1) fs) (eq_refl : ask b _ (MkRun g1 fs) = _)).
    change (with_model_of _ (peek model)) with (peek model). by rewrite Hc. }
  unfold StreamLLMCompletion. set (failure := "all providers failed: create request: " ++ e).
  refine (f_equal fst (respond_run _ _ (Err (writeError 502 ("LLM streaming error: " ++ failure))) _ _)).
  etransitivity; [apply (try_run _ _ _ (peek model) (MkRun g fs)); reflexivity|].
  change (List.length (cq_Messages (peek model)) =? 0)%nat with false. unfold unless. rewrite try_ok.
  apply try_run_err.
  refine (or_reply_run _ (fun e => writeError 502 ("LLM streaming error: " ++ e)) _ (Err failure) _ _).
  unfold StreamComplete. rewrite (bind_run _ _ _ ["gemini"] (MkRun g fs)).
  2: { unfold look, reads. cbn. by rewrite Hp, Hf. }
  rewrite (bind_run _ _ _ _ _ Estream). by apply try_run_err.
Qed.

Lemma alone_after_switches l now uid fs g b :
  let l' := (l ++ [(now, uid, "gemini", fs)])%list in
  gw_up g = true -> (forall x, x ∈ l' -> is_Some (rg_providers (gw_registry g) !! chosen x)) ->
  (forall n, n ∈ rg_fallbacks (gw_registry g) -> n ∈ chosen <$> l') ->
  rg_providers (gw_registry g) !! "gemini" = Some b -> unconfigured "gemini" (gw_registry g) = false ->
  alone "gemini" b (gw_registry (run (switches l') g)).
Proof.
  intros l' Hup Hl Hfb Hb Hu.
  rewrite switches_registry by done.
  destruct (set_primaries_fallbacks chosen l' (gw_registry g)) as (Hf & _ & _).
  destruct (set_primaries_fallbacks chosen l (gw_registry g)) as (_ & _ & Hp).
  destruct (set_primaries_keep chosen l' (gw_registry g)) as [Hps Hms].
  split_and!.
  - apply Hp.
  - rewrite Hf. apply filter_none. intros n Hn. by rewrite (proj2 (containsStr_spec _ _) (Hfb n Hn)).
  - by rewrite Hps.
  - unfold unconfigured. by rewrite Hms.
Qed.

(** C13: Any user can bring the key of Gemini to light.  A user switches the primary, at the end to
    Gemini, so that no other provider is left to be tried, and asks for a stream with a model name
    of which no address can be made: if the error of parsing quotes the address, as documented,
    the answer they get carries the key that the server has for Gemini. *)
Theorem gemini_key_extracted l now now' mallory fs fs' g b model e e' :
  let l' := (l ++ [(now, mallory, "gemini", fs)])%list in
  let url := gemini_url b model "generateContent?" in
  gw_up g = true -> (forall x, x ∈ l' -> is_Some (rg_providers (gw_registry g) !! chosen x)) ->
  (forall n, n ∈ rg_fallbacks (gw_registry g) -> n ∈ chosen <$> l') ->
  rg_providers (gw_registry g) !! "gemini" = Some b -> bk_Name b = "gemini" ->
  unconfigured "gemini" (gw_registry g) = false -> model <> "" ->
  url_scheme url = Err e -> carries url e ->
  url_scheme (gemini_url b model "streamGenerateContent?alt=sse&") = Err e' ->
  exists text, carries (bk_APIKey b) text /\
    fst (llm_serve storeFor keychain sanitize wsHub now' mallory (RqStream (Ok (peek model)))
      (MkRun (run (switches l') g) fs')) = writeError 502 text.
Proof.
  intros l' url Hup Hl Hfb Hb Hn Hu Hm E Hc E'.
  pose proof (alone_after_switches l now mallory fs g b Hup Hl Hfb Hb Hu) as Ha.
  exists ("LLM streaming error: all providers failed: create request: " ++ e). split.
  - eapply carries_trans; [|eapply carries_trans; [exact Hc|]].
    + exists (bk_BaseURL b ++ "/models/" ++ model ++ ":generateContent?key="), "".
      unfold url, gemini_url. rewrite string_app_nil_r, !string_app_assoc. done.
    + exists "LLM streaming error: all providers failed: create request: ", "". by rewrite string_app_nil_r.
  - by eapply stream_fails_alone.
Qed.

(** *** An answer that stops the server *)

(** A server-sent event of Anthropic without a count of tokens. *)
Definition fatal_answer : string :=
  "data: {" ++ quoted "type" ++ ":" ++ quoted "message_delta" ++ "," ++ quoted "usage" ++ ":{}}" ++ newline.

Lemma anthropic_panics n b model scheme kind :
  url_scheme (bk_BaseURL b ++ "/messages") = Ok scheme ->
  (forall n rq, rq_URL rq = bk_BaseURL b ++ "/messages" ->
    client_Do n rq = Ok {| rs_Status := 200; rs_ContentType := kind; rs_Body := Ok fatal_answer |}) ->
  anthropic_Stream n b (peek model) = Ok (stream_end true).
Proof.
  intros Hs Hd. unfold anthropic_Stream, anthropic_post, send, exchange, NewRequest.
  destruct (anthropic_body _ _ _) as [text|] eqn:Et; [|discriminate Et]. cbn [or_error and_then].
  change (negb (forallb token_char (bytes "POST"))) with false. rewrite Hs, Hd by by rewrite headers_of.
  cbn [rs_Status and_then what_came rs_Body]. change (negb (200 =? 200)) with false.
  vm_compute. reflexivity.
Qed.

Definition attack (now : Z) (mallory : UUID) (url key model : string) (fs : nat -> list bool)
    : list (LlmEvent * list bool) :=
  [(EvRequest now mallory (RqConfigure "anthropic" (only_url url)), fs 0%nat);
   (EvRequest now mallory (RqConfigure "anthropic" (only_key key)), fs 1%nat);
   (EvRequest now mallory (RqPrimary (Some "anthropic")), fs 2%nat);
   (EvRequest now mallory (RqStream (Ok (peek model))), fs 3%nat)].

Definition no_start (x : LlmEvent * list bool) : Prop :=
  match x.1 with EvStart _ _ _ => False | _ => True end.

Lemma stays_down events g : gw_up g = false -> Forall no_start events -> run events g = g.
Proof.
  intros Hup He. induction He as [|x events Hx _ IH]; [done|].
  change (run (x :: events) g) with (run events (llm_step storeFor keychain sanitize wsHub g x)).
  enough (llm_step storeFor keychain sanitize wsHub g x = g) as -> by exact IH.
  unfold llm_step. unfold no_start in Hx. destruct (x.1); rewrite ?Hup; done.
Qed.

Lemma stream_stops now uid model key url g fs scheme kind :
  running (armed "anthropic" key url) g -> rg_primary (gw_registry g) = "anthropic" ->
  url_scheme (url ++ "/messages") = Ok scheme ->
  (forall n rq, rq_URL rq = url ++ "/messages" ->
    client_Do n rq = Ok {| rs_Status := 200; rs_ContentType := kind; rs_Body := Ok fatal_answer |}) ->
  gw_up (tables (llm_serve storeFor keychain sanitize wsHub now uid (RqStream (Ok (peek model)))
    (MkRun g fs)).2) = false.
Proof.
  intros [(b & Hb & Hn & _ & Hu) _] Hp Hs Hd. subst url.
  assert (forall n, client_Stream n b (peek model) = Ok (stream_end true)) as Hc.
  { intros n. cbn [client_Stream http_clients]. unfold served. rewrite Hn. cbn beta.
    by eapply anthropic_panics. }
  set (g' := put_up false (record (Asked b) g)).
  assert (StreamComplete (V := V) (peek model) (MkRun g fs) = (Ok [], MkRun g' fs)) as E.
  { unfold StreamComplete. rewrite (bind_run _ _ _ _ (MkRun g fs) (eq_refl : look _ (MkRun g fs) = _)).
    cbn [tables]. rewrite Hp. cbn [try_streams].
    rewrite (bind_run _ _ _ (Some []) (MkRun g' fs)); [done|].
    rewrite (bind_run _ _ _ (Some b) (MkRun g fs)); [|unfold look, reads, GetProvider; cbn; by rewrite Hb].
    rewrite (bind_run _ _ _ (Ok []) (MkRun g' fs)); [done|].
    unfold ask_stream. rewrite (bind_run _ _ _ _ (MkRun (record (Asked b) g) fs)
      (eq_refl : ask b (fun n b => client_Stream n b (peek model)) (MkRun g fs) = _)). by rewrite Hc. }
  unfold llm_serve, StreamLLMCompletion.
  rewrite (respond_run _ _ (Ok (writeJSON 200 (BChunks []))) (MkRun g' fs)); [done|].
  etransitivity; [apply (try_run _ _ _ (peek model) (MkRun g fs)); reflexivity|].
  change (List.length (cq_Messages (peek model)) =? 0)%nat with false. unfold unless. rewrite try_ok.
  etransitivity; [apply (try_run _ _ _ [] (MkRun g' fs))|done].
  exact (or_reply_run _ _ _ (Ok []) _ E).
Qed.

(** C12: Any user can stop the server for everybody: they point Anthropic at a server of theirs,
    give a key so that the address takes effect, make it the primary and ask for a stream, which
    their server answers with an event that has no count of tokens.  Whatever fails on the way,
    no request is served any more until somebody starts the process again. *)
Theorem any_user_stops_the_server now mallory url key model fs g scheme kind events :
  gw_up g = true -> described "anthropic" (gw_registry g) -> url <> "" -> key <> "" ->
  url_scheme (url ++ "/messages") = Ok scheme ->
  (forall n rq, rq_URL rq = url ++ "/messages" ->
    client_Do n rq = Ok {| rs_Status := 200; rs_ContentType := kind; rs_Body := Ok fatal_answer |}) ->
  Forall no_start events ->
  gw_up (run (attack now mallory url key model fs ++ events) g) = false.
Proof.
  intros Hup Hg Hu Hk Hs Hd He.
  assert (keyed_service "anthropic") as Ha by (right; by left).
  unfold llm_run. rewrite fold_left_app. unfold attack. cbn [fold_left].
  set (step := llm_step storeFor keychain sanitize wsHub). fold step.
  set (g1 := step g _).
  assert (running (reachable_at "anthropic" url) g1) as G1.
  { unfold g1, step, llm_step. cbn [fst snd]. rewrite Hup.
    by apply (Configure_url storeFor keychain sanitize now mallory "anthropic" url Ha Hu (MkRun g (fs 0%nat))). }
  set (g2 := step g1 _).
  assert (running (armed "anthropic" key url) g2) as G2.
  { unfold g2, step, llm_step. cbn [fst snd]. rewrite (proj2 G1).
    by apply (Configure_key storeFor keychain sanitize now mallory "anthropic" key url Ha Hk Hu (MkRun g1 (fs 1%nat))). }
  set (g3 := step g2 _).
  assert (registry_is (set_primary "anthropic" (gw_registry g2)) g3) as [E3 G3].
  { unfold g3, step, llm_step. cbn [fst snd]. destruct G2 as [(b & Hb & _) Hup2]. rewrite Hup2.
    by apply (SetPrimary_switches storeFor keychain now mallory "anthropic" _ (mk_is_Some _ _ Hb) (MkRun g2 (fs 2%nat))). }
  set (g4 := step g3 _).
  assert (gw_up g4 = false) as G4.
  { unfold g4, step, llm_step. cbn [fst snd]. rewrite G3. eapply (stream_stops now mallory model key url); try done.
    - split; [|done]. destruct G2 as [G2 _]. unfold armed. by rewrite E3.
    - by rewrite E3. }
  change (gw_up (run events g4) = false). by rewrite stays_down.
Qed.

End attacks.

(** ** Runs *)

#[local] Existing Instance toy_primitives.
#[local] Existing Instance toy_entropy.
#[local] Existing Instance listed_order.
#[local] Existing Instance ascii_tables.
#[local] Existing Instance files_keep.
#[local] Existing Instance http_clients.

(** Of an address with a broken escape no request can be made. *)
#[local] Instance toy_schemes : UrlScheme := {|
  url_scheme u := if Contains u "%zz" then Err ("parse " ++ quoted u ++ ": invalid URL escape " ++ quoted "%zz")
                  else Ok "https"
|}.
#[local] Instance toy_floats : FloatText := {| float_text _ := None; number_text t := t |}.

Definition at_home (base : string) (other : result HttpResponse string) : HttpClient := {|
  client_Do _ rq :=
    if HasPrefix (rq_URL rq) (base ++ "/")
    then Ok {| rs_Status := 200; rs_ContentType := "text/event-stream"; rs_Body := Ok fatal_answer |}
    else other
|}.
#[local] Instance evil_server : HttpClient := at_home "https://evil.example" (Err "no such host").

Definition openai_backend : Backend := NewOpenAIProvider "openai" "sk-1" "" "" 0.

(** A user has given a key of Gemini. *)
Definition with_gemini : Gateway VaultFile :=
  llm_run file_store true (fun s _ => s) false [boot []; give_key 1 "gemini" "AIza-1"] fresh.

Definition to (provider : string) : Z * UUID * string * list bool := (0, 2%N, provider, []).

Lemma gemini_key_extracted_witness :
  exists text, carries "AIza-1" text /\
    fst (llm_serve file_store true (fun s _ => s) false 0 2 (RqStream (Ok (peek "%zz")))
      (MkRun (llm_run file_store true (fun s _ => s) false
        (switches ([to "anthropic"; to "grok"; to "ollama"] ++ [to "gemini"])) with_gemini) [])) =
    writeError 502 text.
Proof.
  apply (gemini_key_extracted file_store true (fun s _ => s) false [to "anthropic"; to "grok"; to "ollama"]
    0 0 2 [] [] with_gemini (NewGeminiProvider "AIza-1" "" "" 0) "%zz"
    ("parse " ++ quoted (gemini_url (NewGeminiProvider "AIza-1" "" "" 0) "%zz" "generateContent?")
     ++ ": invalid URL escape " ++ quoted "%zz")
    ("parse " ++ quoted (gemini_url (NewGeminiProvider "AIza-1" "" "" 0) "%zz" "streamGenerateContent?alt=sse&")
     ++ ": invalid URL escape " ++ quoted "%zz")).
  - vm_compute. reflexivity.
  - intros x Hx. repeat (apply elem_of_cons in Hx as [->|Hx]; [vm_compute; by eexists|]).
    by apply elem_of_nil in Hx.
  - apply (Forall_forall (fun n => n ∈ chosen <$> _)). vm_compute. repeat constructor.
  - vm_compute. reflexivity.
  - vm_compute. reflexivity.
  - vm_compute. reflexivity.
  - discriminate.
  - vm_compute. reflexivity.
  - exists ("parse " ++ str1 34), (str1 34 ++ ": invalid URL escape " ++ quoted "%zz"). vm_compute. reflexivity.
  - vm_compute. reflexivity.
Defined.

Lemma any_user_stops_the_server_witness :
  gw_up (llm_run file_store true (fun s _ => s) false
    (attack 0 2 "https://evil.example" "sk-2" "" (fun _ => []) ++ [hello ""]) with_gemini) = false.
Proof.
  apply (any_user_stops_the_server file_store true (fun s _ => s) false 0 2 "https://evil.example" "sk-2" ""
    (fun _ => []) with_gemini "https" "text/event-stream" [hello ""]).
  - vm_compute. reflexivity.
  - exists "https://api.anthropic.com/v1". split; [vm_compute; by eexists|].
    vm_compute. eexists. split; reflexivity.
  - discriminate.
  - discriminate.
  - vm_compute. reflexivity.
  - intros n rq E. unfold client_Do, evil_server, at_home. rewrite E. vm_compute. reflexivity.
  - by repeat constructor.
Defined.

(** What one server answers to everything. *)
Definition always (status : Z) (text : string) : HttpClient := {|
  client_Do _ _ := Ok {| rs_Status := status; rs_ContentType := "application/json"; rs_Body := Ok text |}
|}.

(** OpenAI counts as healthy although it refuses the key. *)
Example refused_is_healthy : @openai_Healthy _ _ (always 401 "{}") 0 openai_backend = true.
Proof. vm_compute. reflexivity. Qed.

(** A call of a tool as Ollama documents it, with an object of arguments, cannot be read. *)
Definition called_tool : string :=
  "{" ++ quoted "message" ++ ":{" ++ quoted "tool_calls" ++ ":[{" ++ quoted "function" ++ ":{"
  ++ quoted "name" ++ ":" ++ quoted "read_file" ++ "," ++ quoted "arguments" ++ ":{}}}]}}".
Example object_arguments_fail :
  exists e, @ollama_Complete _ _ (always 200 called_tool) _ 0 (NewOllamaProvider "" "" 0) (peek "") = Err e.
Proof. eexists. vm_compute. reflexivity. Qed.
